(* ===== verification/_CoqProject ===== *)
-Q . S2P
Prelude.v
Rows.v
RBTree.v
RBShape.v
RBRefine.v
RBSpec.v
ViewFiles.v
ExtSort.v
RunSpec.v
MergeSpec.v
BuildSpec.v
TreeTheorems.v
ViewTheorems.v
JobBits.v
JobPool.v
JobPoolSpec.v
HeapSort.v
Cube.v
CubeSpec.v
CubeTheorems.v
PartitionSpec.v
PartitionTheorems.v
Factor.v
FactorSpec.v
Generator.v
ViewSizesSpec.v
GeneratorSpec.v
Benchmark.v
BenchmarkSpec.v
BenchmarkTheorems.v
ClassS.v
TftpBuf.v
TftpBufSpec.v
TftpServer.v
TftpSend.v
TftpRecv.v
TftpRequest.v
TftpTheorems.v
Ping.v
PingSpec.v
PingReply.v
PingPace.v
PingRun.v
PingOptions.v
PingPacket.v
PingFour.v
PingSetup.v
PingSetupSpec.v
PingTheorems.v
PingSix.v
PingSixSpec.v
PingFilter.v
PingSixSetup.v
PingSixTheorems.v
IntSort.v
IntSortArray.v
IntSortRand.v
IntSortRank.v
IntSortMain.v
IntSortTheorems.v
Rdisc.v
RdiscTable.v
RdiscRun.v
RdiscTheorems.v
Arping.v
ArpingSpec.v
ArpingRun.v
ArpingDevice.v
ArpingTheorems.v
Clockdiff.v
ClockdiffSpec.v
ClockdiffTheorems.v
Probed.v
ProbedLoop.v
ProbedSpec.v
ProbedTheorems.v
Rarpd.v
RarpdTheorems.v
Tracepath.v
TracepathTheorems.v
