(* ===== verification/Prelude.v ===== *)
(** * Verification of the C programs of baseliner-docker

    The repository packs programs that measure a machine: the NAS parallel
    benchmarks (NPB-CPUTests), the network tools of iputils (iputils-ns), a
    probe daemon (SLANG-probed) and two memory benchmarks.  This library models
    the C code of several of them as Rocq functions and proves what makes it
    correct.

    ** Conventions

    A C integer is the [Z] it denotes; [u8] ... [u64], [s16] ... [s64] of this
    file are the conversions to a type, written where the code converts or may
    overflow.  Pointers into a pool are indices, a buffer is the list of its
    cells, a struct a record and global variables the fields of a record that
    is passed along.  [None] is a memory fault (an access outside a buffer, a
    null or stale pointer) or, in loops with fuel, running out of it; a theorem
    that an operation returns [Some] is a safety and termination theorem.
    What the system answers (a file, the network, the clock, a signal, another
    task) is an argument: a list of events or of answers, over which theorems
    quantify.

    ** NPB DC, the data cube benchmark (src/NPB-CPUTests/DC)

    The program generates a table, computes all groupbys ("views") of it with a
    red-black tree and an external sort, in several tasks, and verifies a
    checksum.
    - Rows: rows, their comparison and the abstract view of a set of
      rows ([aggregate]); rbt.c KeyComp.
    - RBTree, RBShape, RBRefine, RBSpec, TreeTheorems: rbt.c and rbt.h, the tree
      in its memory pool, down to the pointers of the rotations.
    - ViewFiles, ExtSort, RunSpec, MergeSpec, BuildSpec, ViewTheorems: run
      formation and multiway merge of extbuild.c.
    - JobBits, JobPool, JobPoolSpec, HeapSort, Cube, CubeSpec, CubeTheorems,
      PartitionSpec, PartitionTheorems: jobcntl.c, and the loop of
      ComputeGivenGroupbys in extbuild.c.
    - Factor, FactorSpec, Generator, ViewSizesSpec, GeneratorSpec: the data
      generator of adc.c and the view sizes it predicts.
    - Benchmark, BenchmarkSpec, BenchmarkTheorems, ClassS: dc.c, and the run of
      class S evaluated to its published checksum.
    The theorems: each operation refines the abstract view, for any number of
    threads (tasks are cut to 256, [number_of_tasks], the length of the arrays
    of MultiFileProcJobs) and any contents of memory; the predicted sizes are
    the real ones; the whole benchmark ends with a successful verification.

    ** tftpd (src/iputils-ns/tftp.h, tftpsubs.c, tftpd.c)

    - TftpBuf, TftpBufSpec: the double buffer with the netascii conversions
      ([readit], [read_ahead], [writeit], [write_behind]).
    - TftpServer: requests, the access check, [sendfile] and [recvfile] as
      machines driven by events (a packet, a failed receive, an alarm), the
      error packets.  Section StopAndWait of TftpSend is the abstract
      protocol they refine.
    - TftpSend, TftpRecv, TftpRequest, TftpTheorems: the proofs.
    The theorems: any transfer between two servers over a network that loses,
    repeats and reorders is exact; transfers end whatever the peer does; only files below the
    directory are opened; requests and error packets are read as written.

    ** ping (src/iputils-ns/ping.h, ping_common.c, ping.c, ping6_common.c)

    - Ping: the globals of ping_common.c as a record, the table of received
      numbers, the window, [pinger], [gather_statistics], [finish].  The class
      [FuncSet] is struct ping_func_set_st, the functions of a protocol.
    - PingSpec, PingReply: the table as a set, the counters as an abstract
      [tally], the entry each packet makes in a [ledger], and [FuncSetLaws],
      what a protocol promises to the engine: which reply it reads from a
      packet ([reads]), and that it enters exactly that.
    - PingPace, PingRun: what a call of [pinger] does, [main_loop], the
      probes and packets of a run in order and their account ([account_of]),
      mean and deviation, for any protocol with these laws.
    - PingOptions, PingPacket, PingFour: the IPv4 packets,
      the checksum, the parsing of replies and IP options, and the proof that
      IPv4 keeps the laws.
    - PingSetup, PingSetupSpec: the command line, the IP options of the probes
      and setup.
    - PingTheorems: the properties.
    - PingSix, PingSixSpec: the functions for IPv6, a second instance of
      [FuncSet] with its laws: echoes, node information queries and replies
      (RFC 4620), the nonce and the digest it keeps.  MD5 and dn_expand are
      arguments.
    - PingFilter: the socket filters of both protocols, run by a small BPF
      machine.  PingSixSetup: the -N options and the checks of ping6_run.
      PingSixTheorems: the properties of IPv6 and of both filters.
    The theorems: the report is that of the packets received, each counted once
    with its time, for IPv4 and IPv6; the pace and the number of probes are
    kept; a probe's echo is recognised; any packet is parsed safely but for a
    recorded route that is too wide for its buffer; accepted settings make a run that
    cannot overflow; a nonce is told from any other; the filters drop nothing
    that would be counted; the time of an echo over IPv6 is measured wrongly,
    and by how much.

    ** NPB IS, the integer sort benchmark (src/NPB-CPUTests/IS/is.c)

    - IntSort: the program as compiled, with USE_BUCKETS.  Doubles are pairs of
      mantissa and exponent on which an operation that would have to round is a
      fault; an OpenMP team is a [schedule]: the blocks of a static loop, the
      interleaving of the assignments, the order of the buckets.
    - IntSortArray: arrays as functions, assignments in any order,
      counting and bucket order.
    - IntSortRand: randlc, find_my_seed, create_seq.  IntSortRank: rank and
      full_verify.  IntSortMain, IntSortTheorems: the run, the
      evaluation of class S and the properties.
    The theorems: the generator is exact; keys, ranks, the sorted keys and the
    verdict are the same for all schedules; class S passes its verification.

    ** rdisc (src/iputils-ns/rdisc.c)

    - Rdisc: the whole program, host and router (RDISC_SERVER): the table of
      routers, the interfaces read by [initifs] (with the union of struct ifreq),
      solicitations and advertisements, [timer], [pr_pack], the signal handlers,
      [main] and the command line.  A run is a list of signals and packets;
      what it does to the system is a list of effects.
    - RdiscTable, RdiscRun: the table as a finite map from addresses to
      preference and time to live, what [record_router] and [age_table] do to
      it, the invariants of a run and the abstract step it refines.
    - RdiscTheorems: the properties.
    The theorems: the kernel has been asked for exactly the routes of the best
    routers that are alive; packets and interfaces never lead outside an array,
    only a failed malloc does; what a router advertises a host learns; a host alone gives up.

    ** arping (src/iputils-ns/arping.c)

    - Arping: packets ([send_pack], [recv_pack]), the timer ([catcher]), the end
      ([finish]) and the loop of main as a list of events.
    - ArpingDevice: the searches for the interface by getifaddrs, sysfs and
      ioctl, the broadcast address, the command line and [main].
    - ArpingSpec: ARP messages as records and the decision which of them are
      answers ([wanted]).  ArpingRun: the account of a run and
      the clock.  ArpingTheorems: the properties.
    The theorems: counters, targets and exit code are those of the answers, and
    never depend on stale bytes; probes and answers are understood between
    hosts; the pace is kept and -c and -w end the run; the interface chosen is
    the only suitable one; memory is safe unless the search for it fails.

    ** clockdiff (src/iputils-ns/clockdiff.c)

    - Clockdiff: the whole program.  [measure] and [measure_opt] are one loop
      with two requests and two readings of a reply; a run is the list of its
      rounds (a probe and the packets up to the timeout).
    - ClockdiffSpec: [ReplyLaws], what the loop needs of a reading, the two
      readings as instances, and the rule for invariants of the loop.
    - ClockdiffTheorems: the properties.
    The theorems: the difference found is right up to half of the shortest
    round trip; a measurement ends after 550 probes unless a reply seems to come
    from the future; packets of any length
    never lead outside a buffer; the checksum is that of ping.

    ** SLANG-probed (src/SLANG-probed)

    - Probed: client.c and util.c: the sessions with their outstanding probes,
      the merging of PINGs, PONGs and the times of the server, timeouts, the
      pipe of a daemon with its queue, reloading, the child processes (the
      clock process as one [tick] per turn, the process that keeps the TCP
      connection as a run of its answers).
    - ProbedLoop: net.c, tstamp.c, unix.c, loop.c and main.c: time stamps and
      traffic class out of control messages, the peers of the server,
      [loop_or_die] as a fold of [iteration] over what select reports, the
      command line and the four modes.
    - ProbedSpec: times, the pipe as a queue, the account of the probes.
      ProbedTheorems: the properties.
    The theorems: each probe is outstanding, was reported exactly once, or was
    dropped for a reason (no time stamp, a new configuration); the time shown is the time on the network, whatever the difference of the
    clocks and the order in which the answers come; a probe is given up after
    exactly 11 seconds; the clock process is regulated within its bounds; the
    loop is safe for packets of any length, if descriptors fit into a set; with -l there is one client.

    ** rarpd (src/iputils-ns/rarpd.c)

    - Rarpd: the whole program: the table of interfaces ([load_if]), the search
      for an address ([select_ipaddr], [rarp_lookup]), the reply ([serve_it]),
      the filter, the command line, the sockets and the loop.
    - RarpdTheorems: what a request and its answer are, and the properties.
    The theorems: exactly the requests are answered, with the first address of
    the host that is on a net of the interface; the table holds exactly the
    addresses that the kernel reported; the daemon is safe for all packets whose
    link address has at most eight bytes.

    ** tracepath (src/iputils-ns/tracepath.c)

    - Tracepath: the whole program over any [network], a state with the system
      calls on it; [recverr], [probe_ttl] and the loops of main are commands of
      the state monad of this file, [start] is main up to the loop.
    - TracepathTheorems: a path of routers as a network, its hops ([route]) and
      narrow links ([narrows]), the lines that the program prints for it
      ([expected], lemma path_output), and the properties.
    The theorems: on a path whose nodes answer the output tells the nodes of
    the path in order, the path MTU and the distances; for any network with a
    finite number of errors the program ends and stays within its buffers,
    if no error reports a size above that of the buffer.

    ** Fuel and bounds

    Where the code itself leaves its memory, a safety theorem has a case [None]
    that names the event it takes: [wide_route] (ping), [loses_array] (rdisc),
    [lookup_fails] (arping), [beyond] (probed), [overlong] (rarpd).

    Loops that are not structural take fuel that a lemma shows to be enough:
    the depth of a tree for the rotations (tree_bounds), the number of rows for
    the merge, the length of the header for IP options (pr_options_total),
    2^63 steps, folded in halves, for the square root (llsqrt_run), 128 rounds
    for the powers of find_my_seed (seed_loop_eq), 32 sizes of the buffer in
    arping's search by ioctl (ifconf_fuel), one more than the errors to come
    for the restarts of tracepath (run_trace_returns).  Scripts of events have
    any length.  Counters of type long, and the counters of type int of probed,
    do not overflow.

    ** Not modelled

    The Fortran benchmarks, STREAM and the means and deviations of probed
    (floating point), system calls other than by their results (among them the
    creation of sockets and of the FIFO of probed), printing beyond the numbers
    printed, the parts of DC that are compiled only with IN_CORE or
    OPTIMIZATION, the changes of capabilities around system calls, the kernel
    module pg3 (it is written against kernel interfaces that are not in the
    repository), ninfod, traceroute6 (both are mostly calls of the system and
    of libraries), setparams.c (it writes headers for the build), membench. *)

From Stdlib Require Import ZArith Lia.
From stdpp Require Import base gmap numbers option list.

(** ** Machine integers

    A C integer of width [w] is the integer [Z] it denotes; the conversions
    below are what C does on assignment: reduction modulo [2^w] for the
    unsigned types and two's complement for the signed ones. *)

Declare Scope cint_scope.
Delimit Scope cint_scope with cint.

Open Scope Z_scope.

Definition wrapu (w z : Z) : Z := z mod 2 ^ w.

Definition wraps (w z : Z) : Z := (z + 2 ^ (w - 1)) mod 2 ^ w - 2 ^ (w - 1).

Abbreviation u8 := (wrapu 8).
Abbreviation u16 := (wrapu 16).
Abbreviation u32 := (wrapu 32).
Abbreviation u64 := (wrapu 64).
Abbreviation s16 := (wraps 16).
Abbreviation s32 := (wraps 32).
Abbreviation s64 := (wraps 64).

Notation "a +32 b" := (u32 (a + b)) (at level 50, left associativity) : cint_scope.
Notation "a -32 b" := (u32 (a - b)) (at level 50, left associativity) : cint_scope.
Notation "a *32 b" := (u32 (a * b)) (at level 40, left associativity) : cint_scope.

Definition in_u (w z : Z) : Prop := 0 <= z < 2 ^ w.
Definition in_s (w z : Z) : Prop := - 2 ^ (w - 1) <= z < 2 ^ (w - 1).

Lemma wrapu_id w z : in_u w z -> wrapu w z = z.
Proof. intros H. apply Z.mod_small, H. Qed.

Lemma wrapu_range w z : 0 <= w -> in_u w (wrapu w z).
Proof. intros H. apply Z.mod_pos_bound. apply Z.pow_pos_nonneg; lia. Qed.

Lemma wrapu_add_l w a b : 0 <= w -> wrapu w (wrapu w a + b) = wrapu w (a + b).
Proof. intros Hw. unfold wrapu. apply Z.add_mod_idemp_l. apply Z.pow_nonzero; lia. Qed.

Lemma wraps_id w z : 0 < w -> in_s w z -> wraps w z = z.
Proof.
  unfold in_s, wraps. intros Hw Hz.
  rewrite Z.mod_small; [lia|].
  replace (2 ^ w) with (2 * 2 ^ (w - 1)); [lia|].
  rewrite <- Z.pow_succ_r by lia. f_equal. lia.
Qed.

Lemma wraps_range w z : 0 < w -> in_s w (wraps w z).
Proof.
  intros Hw. unfold wraps, in_s.
  assert (0 < 2 ^ (w - 1)) by (apply Z.pow_pos_nonneg; lia).
  assert (E : 2 ^ w = 2 * 2 ^ (w - 1)).
  { rewrite <- Z.pow_succ_r by lia. f_equal. lia. }
  pose proof (Z.mod_pos_bound (z + 2 ^ (w - 1)) (2 ^ w)). lia.
Qed.

(** Addition modulo a power of two is associative and commutative whatever
    intermediate reductions are performed; the measures of a view are summed
    in different orders by different routines, so this is what makes their
    results comparable. *)
Lemma wraps_congr w a b : a mod 2 ^ w = b mod 2 ^ w -> wraps w a = wraps w b.
Proof.
  intros E. unfold wraps. f_equal.
  rewrite (Zplus_mod a), (Zplus_mod b), E. reflexivity.
Qed.

Lemma wraps_mod w a : 0 < w -> wraps w a mod 2 ^ w = a mod 2 ^ w.
Proof.
  intros Hw. unfold wraps. rewrite Zminus_mod_idemp_l. f_equal. lia.
Qed.

Lemma wraps_add_l w a b : 0 < w -> wraps w (wraps w a + b) = wraps w (a + b).
Proof.
  intros Hw. apply wraps_congr.
  rewrite Zplus_mod, wraps_mod, <- Zplus_mod by lia. reflexivity.
Qed.

Lemma wraps_add_r w a b : 0 < w -> wraps w (a + wraps w b) = wraps w (a + b).
Proof. intros Hw. rewrite Z.add_comm, wraps_add_l, Z.add_comm by lia. reflexivity. Qed.

(** Two elements at a time: the rebalancing loops climb two levels per round. *)
Lemma list_ind2 {A} (P : list A -> Prop) :
  P [] -> (forall x, P [x]) -> (forall x y l, P l -> P (x :: y :: l)) -> forall l, P l.
Proof.
  intros H0 H1 H2 l. enough (P l /\ forall x, P (x :: l)) by tauto.
  induction l as [|y l [IH1 IH2]]; auto.
Qed.

Lemma Forall_impl2 {A} (P Q R : A -> Prop) l :
  Forall P l -> Forall Q l -> (forall x, P x -> Q x -> R x) -> Forall R l.
Proof. intros HP HQ HR. induction HP; inversion HQ; subst; constructor; auto. Qed.

(** ** State and faults

    Code that mutates a C object is a function from the object's state to an
    optional pair of a value and the new state.  [None] is a memory fault: a
    NULL or dangling dereference, or an array index out of its bounds.  A
    theorem that an operation returns [Some] is therefore a memory-safety
    theorem. *)

Definition cmd (S A : Type) : Type := S -> option (A * S).

Definition ret {S A} (a : A) : cmd S A := fun s => Some (a, s).

Definition bind {S A B} (m : cmd S A) (f : A -> cmd S B) : cmd S B :=
  fun s => match m s with
           | Some (a, s') => f a s'
           | None => None
           end.

Definition fault {S A} : cmd S A := fun _ => None.

Definition gets {S A} (f : S -> A) : cmd S A := fun s => Some (f s, s).

Definition modify {S} (f : S -> S) : cmd S unit := fun s => Some (tt, f s).

Declare Scope cmd_scope.
Delimit Scope cmd_scope with cmd.
Notation "x <- m ;; k" := (bind m (fun x => k))
  (at level 100, m at level 99, k at level 200, right associativity) : cmd_scope.
Notation "m ;;; k" := (bind m (fun _ => k))
  (at level 100, k at level 200, right associativity) : cmd_scope.

Section CmdLaws.
Context {S A B : Type}.

Lemma bind_run (m : cmd S A) (f : A -> cmd S B) s a s' :
  m s = Some (a, s') -> bind m f s = f a s'.
Proof. intros H. unfold bind. rewrite H. reflexivity. Qed.

Lemma bind_ret (a : A) (f : A -> cmd S B) s : bind (ret a) f s = f a s.
Proof. reflexivity. Qed.

Lemma bind_assoc {C} (m : cmd S A) (f : A -> cmd S B) (g : B -> cmd S C) s :
  bind (bind m f) g s = bind m (fun a => bind (f a) g) s.
Proof. unfold bind. destruct (m s) as [[a s']|]; reflexivity. Qed.

Lemma bind_inv (m : cmd S A) (f : A -> cmd S B) s b s'' :
  bind m f s = Some (b, s'') ->
  exists a s', m s = Some (a, s') /\ f a s' = Some (b, s'').
Proof. unfold bind. destruct (m s) as [[a s']|]; [eauto|discriminate]. Qed.
End CmdLaws.

(** Runs one command whose result is known (up to the side conditions [tac]
    closes) and leaves the continuation. *)
Ltac crun tac := erewrite bind_run by tac; cbn beta.
