(* ===== verification/Rows.v ===== *)
(** * View rows of the data-cube benchmark (NPB-CPUTests/DC)

    A row of a view is [nm] 64-bit measures followed by [nd] 32-bit dimension
    attributes; the attributes are the key.  [KeyComp] and the measure update
    are the code's; [agg_insert] is the specification every aggregation
    routine of the benchmark is proved against: a list of rows with strictly
    increasing keys in which a new row is either inserted or added to the row
    that has its key. *)

From Stdlib Require Import ZArith Lia Sorted.
From stdpp Require Import base numbers option list.
From S2P Require Import Prelude.

Record row := Row { ms : list Z; ks : list Z }.

#[export] Instance row_eq_dec : EqDecision row.
Proof. solve_decision. Defined.

#[export] Instance row_inhabited : Inhabited row := populate (Row [] []).

(** [KeyComp(a, b, n)]: the first index at which the keys differ decides. *)
Fixpoint KeyComp (a b : list Z) (n : nat) : Z :=
  match n, a, b with
  | S n', x :: a', y :: b' =>
      if x <? y then -1
      else if y <? x then 1
      else KeyComp a' b' n'
  | _, _, _ => 0
  end.

(** [for (ii = 0; ii < nm; ii++) nodeMemPool[ii] += mx[ii]] on [int64]. *)
Fixpoint add_measures (nm : nat) (acc mx : list Z) : list Z :=
  match nm, acc, mx with
  | S nm', x :: acc', y :: mx' => s64 (x + y) :: add_measures nm' acc' mx'
  | _, _, _ => acc
  end.

(** [memcpy(dst, src, DIM_FSZ*nd + MSR_FSZ*nm)] of a row. *)
Definition copy_row (nd nm : nat) (r : row) : row :=
  Row (take nm (ms r)) (take nd (ks r)).

Definition row_ok (nd nm : nat) (r : row) : Prop :=
  length (ks r) = nd /\ length (ms r) = nm.

Definition merge_row (nm : nat) (acc r : row) : row :=
  Row (add_measures nm (ms acc) (ms r)) (ks acc).

Fixpoint agg_insert (nd nm : nat) (r : row) (l : list row) : list row :=
  match l with
  | [] => [r]
  | x :: l' =>
      let c := KeyComp (ks r) (ks x) nd in
      if c <? 0 then r :: x :: l'
      else if 0 <? c then x :: agg_insert nd nm r l'
      else merge_row nm x r :: l'
  end.

(** The view of a list of input rows. *)
Definition aggregate (nd nm : nat) (rows : list row) : list row :=
  fold_left (fun v r => agg_insert nd nm r v) rows [].

(** ** The key order *)

Definition key_lt (nd : nat) (a b : row) : Prop := KeyComp (ks a) (ks b) nd < 0.

Definition view_sorted (nd : nat) (l : list row) : Prop := StronglySorted (key_lt nd) l.

Section KeyOrder.
Implicit Types a b c : list Z.

Lemma KeyComp_range a b n : KeyComp a b n = -1 \/ KeyComp a b n = 0 \/ KeyComp a b n = 1.
Proof.
  revert a b; induction n as [|n IH]; intros [|x a] [|y b]; simpl; auto.
  destruct (x <? y); auto. destruct (y <? x); auto.
Qed.

Lemma KeyComp_refl a n : KeyComp a a n = 0.
Proof.
  revert a; induction n as [|n IH]; intros [|x a]; simpl; auto.
  rewrite Z.ltb_irrefl. apply IH.
Qed.

Lemma KeyComp_antisym a b n : KeyComp b a n = - KeyComp a b n.
Proof.
  revert a b; induction n as [|n IH]; intros [|x a] [|y b]; simpl; auto.
  destruct (Z.ltb_spec x y), (Z.ltb_spec y x); try lia. apply IH.
Qed.

Lemma KeyComp_eq a b n :
  length a = n -> length b = n -> KeyComp a b n = 0 <-> a = b.
Proof.
  intros Ha Hb. split; [|intros ->; apply KeyComp_refl].
  revert a b Ha Hb; induction n as [|n IH]; intros [|x a] [|y b]; simpl; try lia; auto.
  intros Ha Hb. destruct (Z.ltb_spec x y), (Z.ltb_spec y x); try lia.
  intros H'. f_equal; [lia|]. apply IH; lia.
Qed.

Lemma KeyComp_lt_trans a b c n :
  length a = n -> length b = n -> length c = n ->
  KeyComp a b n < 0 -> KeyComp b c n < 0 -> KeyComp a c n < 0.
Proof.
  revert a b c; induction n as [|n IH]; intros [|x a] [|y b] [|z c]; simpl; try lia.
  intros Ha Hb Hc.
  destruct (Z.ltb_spec x y), (Z.ltb_spec y x), (Z.ltb_spec y z),
    (Z.ltb_spec z y), (Z.ltb_spec x z), (Z.ltb_spec z x); try lia.
  intros ? ?. apply (IH a b c); lia.
Qed.
End KeyOrder.

(** ** Facts about [agg_insert] *)

Section Aggregate.
Context (nd nm : nat).
Implicit Types (r x : row) (l : list row).

Abbreviation lt_row := (key_lt nd).
Abbreviation ok := (row_ok nd nm).

Lemma key_lt_gt r x : KeyComp (ks r) (ks x) nd > 0 <-> lt_row x r.
Proof. unfold key_lt. rewrite (KeyComp_antisym (ks r)). lia. Qed.

Lemma key_lt_trans a b c : ok a -> ok b -> ok c -> lt_row a b -> lt_row b c -> lt_row a c.
Proof. intros [Ha _] [Hb _] [Hc _]. apply KeyComp_lt_trans; done. Qed.

Lemma key_lt_irrefl a : ~ lt_row a a.
Proof. unfold key_lt. rewrite KeyComp_refl. lia. Qed.

(** Rows with the same key compare alike. *)
Lemma key_lt_ks a a' b : ks a = ks a' -> lt_row a b <-> lt_row a' b.
Proof. unfold key_lt. intros ->. reflexivity. Qed.

Lemma key_lt_ks_r a b b' : ks b = ks b' -> lt_row a b <-> lt_row a b'.
Proof. unfold key_lt. intros ->. reflexivity. Qed.

Lemma add_measures_length n a b : length (add_measures n a b) = length a.
Proof. revert a b; induction n; intros [|x a] [|y b]; simpl; auto. Qed.

Lemma merge_row_ok x r : ok x -> ok (merge_row nm x r).
Proof. intros [? ?]. split; simpl; [done|]. by rewrite add_measures_length. Qed.

Lemma copy_row_id r : ok r -> copy_row nd nm r = r.
Proof.
  destruct r as [m k]. intros [Hk Hm]; simpl in *. unfold copy_row; simpl.
  by rewrite !take_ge by lia.
Qed.

Lemma agg_insert_skip r l1 l2 :
  Forall (fun x => lt_row x r) l1 -> agg_insert nd nm r (l1 ++ l2) = l1 ++ agg_insert nd nm r l2.
Proof.
  induction 1 as [|x l1 Hx _ IH]; [done|]. cbn [app agg_insert].
  apply key_lt_gt in Hx.
  destruct (Z.ltb_spec (KeyComp (ks r) (ks x) nd) 0); [lia|].
  destruct (Z.ltb_spec 0 (KeyComp (ks r) (ks x) nd)); [|lia]. by rewrite IH.
Qed.

Lemma agg_insert_new r l : Forall (lt_row r) l -> agg_insert nd nm r l = r :: l.
Proof.
  destruct 1 as [|x l Hx _]; [done|]. cbn [agg_insert].
  unfold key_lt in Hx. by destruct (Z.ltb_spec (KeyComp (ks r) (ks x) nd) 0); [|lia].
Qed.

Lemma agg_insert_same r x l :
  KeyComp (ks r) (ks x) nd = 0 -> agg_insert nd nm r (x :: l) = merge_row nm x r :: l.
Proof. intros H. cbn [agg_insert]. by rewrite H. Qed.

Lemma agg_insert_ok r l : ok r -> Forall ok l -> Forall ok (agg_insert nd nm r l).
Proof.
  intros Hr. induction 1 as [|x l Hx Hl IH]; cbn [agg_insert]; [by apply Forall_singleton|].
  repeat case_match; auto using Forall_cons_2, merge_row_ok.
Qed.

(** Every key of the result is the key of [r] or of a row of [l]. *)
Lemma agg_insert_Forall_ks (P : list Z -> Prop) r l :
  P (ks r) -> Forall (fun x => P (ks x)) l -> Forall (fun x => P (ks x)) (agg_insert nd nm r l).
Proof.
  intros Hr. induction 1 as [|x l Hx Hl IH]; cbn [agg_insert]; [by apply Forall_singleton|].
  repeat case_match; auto using Forall_cons_2.
Qed.

Lemma view_sorted_app l1 l2 :
  view_sorted nd (l1 ++ l2) <->
  view_sorted nd l1 /\ view_sorted nd l2 /\ Forall (fun x => Forall (lt_row x) l2) l1.
Proof.
  unfold view_sorted. induction l1 as [|x l1 IH]; cbn [app].
  { split; [intros H; repeat split; auto; constructor|tauto]. }
  split.
  - inversion 1 as [|? ? Hs Hf]; subst. apply IH in Hs as (H1 & H2 & H3).
    apply Forall_app in Hf as [Hf1 Hf2]. repeat split; auto; by constructor.
  - intros (H1 & H2 & H3). inversion H1; subst. inversion H3; subst.
    constructor; [apply IH; auto|]. by apply Forall_app.
Qed.

Lemma agg_insert_sorted r l :
  ok r -> Forall ok l -> view_sorted nd l -> view_sorted nd (agg_insert nd nm r l).
Proof.
  intros Hr Hok. induction 1 as [|x l Hs IH Hf]; cbn [agg_insert];
    [by repeat constructor|].
  inversion Hok as [|? ? Hx Hl]; subst.
  destruct (Z.ltb_spec (KeyComp (ks r) (ks x) nd) 0).
  - constructor; [by constructor|]. constructor; [done|].
    apply (Forall_impl2 _ _ _ l Hl Hf). intros y Hy Hxy. by apply (key_lt_trans r x y).
  - destruct (Z.ltb_spec 0 (KeyComp (ks r) (ks x) nd)).
    + constructor; [by apply IH|].
      apply (agg_insert_Forall_ks (fun k => KeyComp (ks x) k nd < 0)); [|done].
      apply key_lt_gt. lia.
    + constructor; [done|]. exact Hf.
Qed.
End Aggregate.

(** ** Aggregation does not depend on the order of the rows

    The routines of the benchmark aggregate the same rows in different
    orders: one pass through a tree, or sorted runs that are merged.  The view
    they produce is the same because inserting rows commutes and merging rows
    is associative; [int64] addition wraps around, which keeps both laws. *)

Lemma add_measures_comm nm a b :
  length a = nm -> length b = nm -> add_measures nm a b = add_measures nm b a.
Proof.
  revert a b; induction nm as [|nm IH]; intros [|x a] [|y b]; simpl; try lia; auto.
  intros ? ?. rewrite IH by lia. by rewrite Z.add_comm.
Qed.

Lemma add_measures_assoc nm a b c :
  length a = nm -> length b = nm -> length c = nm ->
  add_measures nm (add_measures nm a b) c = add_measures nm a (add_measures nm b c).
Proof.
  revert a b c; induction nm as [|nm IH]; intros [|x a] [|y b] [|z c]; simpl; try lia; auto.
  intros ? ? ?. rewrite IH by lia. f_equal. rewrite wraps_add_l, wraps_add_r by lia.
  f_equal. lia.
Qed.

Section Algebra.
Context (nd nm : nat).
Abbreviation ins := (agg_insert nd nm).
Abbreviation ok := (row_ok nd nm).

(** Inserting the rows of [l] into the view [v]. *)
Definition insert_all (l v : list row) : list row := fold_left (fun v r => ins r v) l v.

Lemma key_cases a b : ok a -> ok b ->
  (key_lt nd a b) \/ ks a = ks b \/ (key_lt nd b a).
Proof.
  intros [Ha _] [Hb _]. unfold key_lt. rewrite (KeyComp_antisym (ks a)).
  destruct (KeyComp_range (ks a) (ks b) nd) as [H|[H|H]]; [lia| |lia].
  right; left. by apply KeyComp_eq in H.
Qed.

Lemma ins_lt r x l : key_lt nd r x -> ins r (x :: l) = r :: x :: l.
Proof. unfold key_lt. intros H. cbn. by destruct (Z.ltb_spec (KeyComp (ks r) (ks x) nd) 0); [|lia]. Qed.

Lemma ins_eq r x l : ks r = ks x -> ins r (x :: l) = merge_row nm x r :: l.
Proof. intros H. cbn. by rewrite H, KeyComp_refl. Qed.

Lemma ins_gt r x l : key_lt nd x r -> ins r (x :: l) = x :: ins r l.
Proof.
  intros H%key_lt_gt. cbn. destruct (Z.ltb_spec (KeyComp (ks r) (ks x) nd) 0); [lia|].
  by destruct (Z.ltb_spec 0 (KeyComp (ks r) (ks x) nd)); [|lia].
Qed.

Lemma merge_row_assoc x r1 r2 : ok x -> ok r1 -> ok r2 ->
  merge_row nm (merge_row nm x r1) r2 = merge_row nm x (merge_row nm r1 r2).
Proof. intros [_ ?] [_ ?] [_ ?]. unfold merge_row; simpl. by rewrite add_measures_assoc. Qed.

Lemma merge_row_comm r1 r2 : ok r1 -> ok r2 -> ks r1 = ks r2 ->
  merge_row nm r1 r2 = merge_row nm r2 r1.
Proof. intros [_ ?] [_ ?] Hk. unfold merge_row. by rewrite add_measures_comm, Hk. Qed.

(** Two rows that both belong in front of [l]. *)
Lemma ins_two r1 r2 l : ok r1 -> ok r2 -> ins r1 l = r1 :: l -> ins r2 l = r2 :: l ->
  ins r1 (r2 :: l) = ins r2 (r1 :: l).
Proof.
  intros H1 H2 E1 E2. destruct (key_cases r1 r2 H1 H2) as [H|[H|H]].
  - by rewrite (ins_lt r1 r2 l H), (ins_gt r2 r1 l H), E2.
  - by rewrite (ins_eq r1 r2 l H), (ins_eq r2 r1 l (eq_sym H)), merge_row_comm.
  - by rewrite (ins_gt r1 r2 l H), (ins_lt r2 r1 l H), E1.
Qed.

(** One row goes in front of [x], the other to [x] or behind it. *)
Lemma ins_before_after r1 r2 x l : ok r1 -> ok r2 -> ok x ->
  key_lt nd r1 x -> ks r2 = ks x \/ key_lt nd x r2 ->
  ins r1 (ins r2 (x :: l)) = ins r2 (ins r1 (x :: l)).
Proof.
  intros H1 H2 Hx A B. rewrite (ins_lt r1 x l A).
  assert (C : key_lt nd r1 r2).
  { destruct B as [B|B]; [by apply (key_lt_ks_r nd r1 r2 x B)|].
    by apply (key_lt_trans nd nm r1 x r2). }
  rewrite (ins_gt r2 r1 (x :: l) C). destruct B as [B|B].
  - rewrite (ins_eq r2 x l B). by apply ins_lt.
  - rewrite (ins_gt r2 x l B). by apply ins_lt.
Qed.

Lemma ins_at_after r1 r2 x l : ks r1 = ks x -> key_lt nd x r2 ->
  ins r1 (ins r2 (x :: l)) = ins r2 (ins r1 (x :: l)).
Proof.
  intros A B. rewrite (ins_gt r2 x l B), (ins_eq r1 x _ A), (ins_eq r1 x _ A).
  symmetry. by apply ins_gt.
Qed.

(** Inserting two rows commutes. *)
Lemma agg_insert_comm r1 r2 l :
  ok r1 -> ok r2 -> Forall ok l -> ins r1 (ins r2 l) = ins r2 (ins r1 l).
Proof.
  intros H1 H2. induction 1 as [|x l Hx Hl IH]; [by apply ins_two|].
  destruct (key_cases r1 x H1 Hx) as [A|A], (key_cases r2 x H2 Hx) as [B|B].
  - rewrite (ins_lt r1 x l A), (ins_lt r2 x l B). apply ins_two; auto; by apply ins_lt.
  - by apply ins_before_after.
  - symmetry. by apply ins_before_after.
  - destruct A as [A|A], B as [B|B].
    + rewrite (ins_eq r1 x l A), (ins_eq r2 x l B).
      rewrite (ins_eq r1 (merge_row nm x r2) l A), (ins_eq r2 (merge_row nm x r1) l B).
      rewrite !merge_row_assoc by done. rewrite (merge_row_comm r1 r2); auto. congruence.
    + by apply ins_at_after.
    + symmetry. by apply ins_at_after.
    + by rewrite (ins_gt r1 x l A), (ins_gt r2 x l B), (ins_gt r1 x _ A), (ins_gt r2 x _ B), IH.
Qed.

Lemma insert_all_cons x l v : insert_all (x :: l) v = insert_all l (ins x v).
Proof. done. Qed.

Lemma insert_all_ok l v : Forall ok l -> Forall ok v -> Forall ok (insert_all l v).
Proof.
  intros Hl. revert v. induction Hl as [|r l Hr Hl IH]; intros v Hv; [done|].
  cbn. apply IH. by apply agg_insert_ok.
Qed.

Lemma insert_all_sorted l v :
  Forall ok l -> Forall ok v -> view_sorted nd v -> view_sorted nd (insert_all l v).
Proof.
  intros Hl. revert v. induction Hl as [|r l Hr Hl IH]; intros v Hv Hs; [done|].
  cbn. apply IH; [by apply agg_insert_ok|by apply (agg_insert_sorted nd nm)].
Qed.

Lemma insert_all_app l1 l2 v : insert_all (l1 ++ l2) v = insert_all l2 (insert_all l1 v).
Proof. apply fold_left_app. Qed.

Lemma insert_all_ins r l v : ok r -> Forall ok l -> Forall ok v ->
  insert_all l (ins r v) = ins r (insert_all l v).
Proof.
  intros Hr Hl. revert v. induction Hl as [|x l Hx Hl IH]; intros v Hv; [done|].
  cbn. rewrite agg_insert_comm by done. apply IH. by apply agg_insert_ok.
Qed.

(** The order of the rows does not matter. *)
Lemma insert_all_perm l1 l2 v :
  l1 ≡ₚ l2 -> Forall ok l1 -> Forall ok v -> insert_all l1 v = insert_all l2 v.
Proof.
  intros Hp. revert v. induction Hp as [|x l1 l2 Hp IH|x y l|l1 l2 l3 Hp1 IH1 Hp2 IH2];
    intros v Hl Hv; [done|..].
  - inversion Hl; subst. cbn. apply IH; [done|by apply agg_insert_ok].
  - inversion Hl as [|? ? Hy Hl']; subst. inversion Hl'; subst. cbn.
    by rewrite agg_insert_comm.
  - rewrite IH1 by done. apply IH2; [by rewrite <- Hp1|done].
Qed.

(** Adding a row to another before inserting both is the same. *)
Lemma ins_merge_row x r v : ok x -> ok r -> Forall ok v -> ks x = ks r ->
  ins (merge_row nm x r) v = ins r (ins x v).
Proof.
  intros Hx Hr Hv Hk. induction Hv as [|y v Hy Hv IH].
  { cbn [agg_insert]. by rewrite Hk, KeyComp_refl. }
  destruct (key_cases x y Hx Hy) as [A|[A|A]].
  - rewrite (ins_lt (merge_row nm x r) y v A), (ins_lt x y v A). by rewrite ins_eq.
  - rewrite (ins_eq (merge_row nm x r) y v A), (ins_eq x y v A).
    rewrite ins_eq by (cbn; congruence). by rewrite merge_row_assoc.
  - rewrite (ins_gt (merge_row nm x r) y v A), (ins_gt x y v A), IH. symmetry. apply ins_gt.
    by apply (key_lt_ks_r nd y r x (eq_sym Hk)).
Qed.

(** Inserting the rows of a view that was itself built by insertion. *)
Lemma insert_all_agg_insert r l v : ok r -> Forall ok l -> Forall ok v ->
  insert_all (ins r l) v = insert_all (l ++ [r]) v.
Proof.
  intros Hr Hl. revert v. induction Hl as [|x l Hx Hl IH]; intros v Hv; [done|].
  destruct (key_cases r x Hr Hx) as [A|[A|A]].
  - rewrite (ins_lt r x l A). apply insert_all_perm; auto using Forall_cons_2. solve_Permutation.
  - rewrite (ins_eq r x l A). cbn. rewrite ins_merge_row by done.
    rewrite insert_all_ins by auto using agg_insert_ok.
    by rewrite fold_left_app.
  - rewrite (ins_gt r x l A). cbn. rewrite IH by by apply agg_insert_ok. done.
Qed.

Lemma aggregate_ok l : Forall ok l -> Forall ok (aggregate nd nm l).
Proof. intros H. by apply insert_all_ok. Qed.

Lemma aggregate_sorted l : Forall ok l -> view_sorted nd (aggregate nd nm l).
Proof. intros H. apply insert_all_sorted; auto. constructor. Qed.

Lemma aggregate_snoc l r : aggregate nd nm (l ++ [r]) = ins r (aggregate nd nm l).
Proof. unfold aggregate. by rewrite fold_left_app. Qed.

(** Aggregating an aggregate first changes nothing. *)
Lemma insert_all_aggregate l v : Forall ok l -> Forall ok v ->
  insert_all (aggregate nd nm l) v = insert_all l v.
Proof.
  intros Hl Hv. induction l as [|r l IH] using rev_ind; [done|].
  apply Forall_app in Hl as [Hl Hr]. apply Forall_cons in Hr as [Hr _].
  rewrite aggregate_snoc, insert_all_agg_insert by auto using aggregate_ok.
  rewrite !insert_all_app, IH by done. done.
Qed.

(** Runs that are aggregated separately and then together. *)
Lemma aggregate_runs gs v : Forall (Forall ok) gs -> Forall ok v ->
  insert_all (concat (aggregate nd nm <$> gs)) v = insert_all (concat gs) v.
Proof.
  intros Hg. revert v. induction Hg as [|g gs Hg Hgs IH]; intros v Hv; [done|].
  cbn. rewrite !insert_all_app, insert_all_aggregate by done.
  apply IH. by apply insert_all_ok.
Qed.

Lemma aggregate_of_runs gs : Forall (Forall ok) gs ->
  aggregate nd nm (concat (aggregate nd nm <$> gs)) = aggregate nd nm (concat gs).
Proof. intros Hg. by apply aggregate_runs. Qed.

Lemma aggregate_perm l1 l2 : l1 ≡ₚ l2 -> Forall ok l1 -> aggregate nd nm l1 = aggregate nd nm l2.
Proof. intros Hp Hl. by apply insert_all_perm. Qed.

Lemma agg_insert_length r l : (length (ins r l) <= S (length l))%nat.
Proof. induction l as [|x l IH]; cbn [agg_insert]; [done|]. repeat case_match; simpl; lia. Qed.

Lemma agg_insert_not_nil r l : ins r l <> [].
Proof. destruct l; cbn [agg_insert]; [done|]. by repeat case_match. Qed.

Lemma aggregate_length l : (length (aggregate nd nm l) <= length l)%nat.
Proof.
  induction l as [|r l IH] using rev_ind; [done|].
  rewrite aggregate_snoc, length_app. pose proof (agg_insert_length r (aggregate nd nm l)).
  simpl. lia.
Qed.

(** ** Rolling a view up

    [f] projects rows to other keys: it keeps the measures, and equal keys
    stay equal. *)
Definition key_map (nd' : nat) (f : row -> row) : Prop :=
  (forall r, ok r -> row_ok nd' nm (f r) /\ ms (f r) = ms r)
  /\ (forall r r', ok r -> ok r' -> ks r = ks r' -> ks (f r) = ks (f r')).

Lemma key_map_merge nd' f x r : key_map nd' f -> ok x -> ok r -> ks r = ks x ->
  f (merge_row nm x r) = merge_row nm (f x) (f r).
Proof.
  intros [Hf Hk] Hx Hr E. pose proof (merge_row_ok nd nm x r Hx) as Hm.
  assert (Hks : ks (f (merge_row nm x r)) = ks (f x)) by by apply Hk.
  destruct (Hf _ Hm) as [_ Hms]. destruct (Hf _ Hx) as [_ Hxs]. destruct (Hf _ Hr) as [_ Hrs].
  destruct (f (merge_row nm x r)) as [m k]. cbn in *. subst. unfold merge_row. by rewrite Hxs, Hrs.
Qed.

Lemma map_ok nd' f l : key_map nd' f -> Forall ok l -> Forall (row_ok nd' nm) (f <$> l).
Proof.
  intros [Hf _] Hl. apply Forall_fmap. apply (Forall_impl _ _ _ Hl). intros r Hr. by apply Hf.
Qed.

(** ** What a view says about a key

    The measures of the row with key [k], if there is one. *)
Fixpoint lookup_key (k : list Z) (v : list row) : option (list Z) :=
  match v with
  | [] => None
  | x :: v' => if decide (ks x = k) then Some (ms x) else lookup_key k v'
  end.

(** The sum of the measures of the rows with key [k]. *)
Definition add_to (k : list Z) (acc : option (list Z)) (r : row) : option (list Z) :=
  if decide (ks r = k) then
    Some (match acc with None => ms r | Some m => add_measures nm m (ms r) end)
  else acc.

Definition key_total (k : list Z) (l : list row) : option (list Z) :=
  fold_left (add_to k) l None.

Lemma lookup_key_above k x l : ok x -> Forall ok l -> Forall (key_lt nd x) l ->
  ks x = k -> lookup_key k l = None.
Proof.
  intros Hx Hl Hf <-. induction Hf as [|y l Hy Hf IH]; [done|]. inversion Hl; subst.
  cbn. rewrite decide_False; [auto|].
  intros E. unfold key_lt in Hy. rewrite E, KeyComp_refl in Hy. lia.
Qed.

Lemma lookup_agg_insert k r v : ok r -> Forall ok v -> view_sorted nd v ->
  lookup_key k (ins r v) = add_to k (lookup_key k v) r.
Proof.
  intros Hr Hv Hs. induction Hs as [|x v Hs IH Hf]; [done|].
  inversion Hv as [|? ? Hx Hv']; subst. unfold add_to in *.
  destruct (key_cases r x Hr Hx) as [A|[A|A]].
  - rewrite (ins_lt r x v A). cbn. destruct (decide (ks r = k)) as [E|E]; [|done].
    rewrite decide_False; [|intros E'; unfold key_lt in A; rewrite E, <- E', KeyComp_refl in A; lia].
    rewrite (lookup_key_above k r v); auto.
    apply (Forall_impl2 _ _ _ v Hv' Hf). intros y ? ?. by apply (key_lt_trans nd nm r x y).
  - rewrite (ins_eq r x v A). cbn. rewrite A. by destruct (decide (ks x = k)).
  - rewrite (ins_gt r x v A). cbn. rewrite IH by done.
    destruct (decide (ks x = k)) as [E|E], (decide (ks r = k)) as [E'|E']; auto.
    unfold key_lt in A. rewrite E, <- E', KeyComp_refl in A. lia.
Qed.

(** A view lists every key of the input once, with the sum of its rows. *)
Lemma lookup_aggregate k l : Forall ok l -> lookup_key k (aggregate nd nm l) = key_total k l.
Proof.
  intros Hl. induction l as [|r l IH] using rev_ind; [done|].
  apply Forall_app in Hl as [Hl Hr]. apply Forall_cons in Hr as [Hr _].
  rewrite aggregate_snoc, lookup_agg_insert, IH by auto using aggregate_ok, aggregate_sorted.
  unfold key_total. by rewrite fold_left_app.
Qed.
End Algebra.

Section RollUp.
Context (nd nd' nm : nat) (f : row -> row) (Hf : key_map nd nm nd' f).

Lemma rollup_insert r v w : row_ok nd nm r -> Forall (row_ok nd nm) v -> Forall (row_ok nd' nm) w ->
  insert_all nd' nm (f <$> agg_insert nd nm r v) w = agg_insert nd' nm (f r) (insert_all nd' nm (f <$> v) w).
Proof.
  intros Hr Hv. revert w. induction Hv as [|x v Hx Hv IH]; intros w Hw; [done|].
  destruct (proj1 Hf r Hr) as [Hfr _]. destruct (proj1 Hf x Hx) as [Hfx _].
  pose proof (map_ok nd nm nd' f v Hf Hv) as Hfv.
  destruct (key_cases nd nm r x Hr Hx) as [A|[A|A]].
  - rewrite (ins_lt nd nm r x v A), !fmap_cons, !insert_all_cons.
    rewrite agg_insert_comm by done.
    by rewrite <- (insert_all_ins nd' nm (f r) (f <$> v)) by auto using agg_insert_ok.
  - rewrite (ins_eq nd nm r x v A), !fmap_cons, !insert_all_cons.
    rewrite (key_map_merge nd nm nd' f x r Hf Hx Hr A).
    rewrite (ins_merge_row nd' nm) by (done || (symmetry; by apply Hf)).
    by rewrite <- (insert_all_ins nd' nm (f r) (f <$> v)) by auto using agg_insert_ok.
  - rewrite (ins_gt nd nm r x v A), !fmap_cons, !insert_all_cons.
    apply IH. by apply agg_insert_ok.
Qed.

(** A view of a view is the view of the rows. *)
Lemma aggregate_rollup l : Forall (row_ok nd nm) l ->
  aggregate nd' nm (f <$> aggregate nd nm l) = aggregate nd' nm (f <$> l).
Proof.
  intros Hl. induction l as [|r l IH] using rev_ind; [done|].
  apply Forall_app in Hl as [Hl Hr]. apply Forall_cons in Hr as [Hr _].
  rewrite fmap_app, aggregate_snoc. cbn [fmap list_fmap]. rewrite aggregate_snoc, <- IH by done.
  apply (rollup_insert r (aggregate nd nm l) []); auto using aggregate_ok.
Qed.
End RollUp.
