(* ===== verification/RBTree.v ===== *)
(** * The red-black tree of the data-cube benchmark: DC/rbt.c, DC/rbt.h

    The tree is modelled at the level of the C code: nodes live in a memory
    pool at byte offsets handed out by the bump allocator [NEW_TREE_NODE],
    they are linked by pointers, and insertion is the iterative routine with
    the explicit path arrays [nodes] and [drcts] of [MAX_TREE_HEIGHT] entries.
    A command returns [None] on a NULL or dangling dereference, on a path
    array index outside the allocation and on an allocation outside the pool.

    The header node [tree->root], embedded in the [RBTree] structure, lives at
    the address [ROOT], which is not a pool offset. *)

From Stdlib Require Import ZArith Lia.
From stdpp Require Import base gmap numbers option list.
From S2P Require Import Prelude Rows.

Open Scope cmd_scope.

Definition MAX_TREE_HEIGHT : nat := 64.
Definition BLACK : Z := 0.
Definition RED : Z := 1.
Definition DIM_FSZ : Z := 4.
Definition MSR_FSZ : Z := 8.

(** A pointer: NULL or an address. *)
Abbreviation ptr := (option Z).
Abbreviation NULL := (@None Z).
Definition ROOT : Z := -1.

Record treeNode := Node { left : ptr; right : ptr; clr : Z; nodeMemPool : row }.

(** [sizeof(struct treeNode)] on an LP64 target: two pointers, [uint32 clr]
    with its padding, one [int64]. *)
Definition sizeof_treeNode : Z := 32.

Record RBTree := mkRBTree {
  heap : gmap Z treeNode;      (* the pool, and [tree->root] at [ROOT] *)
  mp : ptr;
  count : Z;
  treeNodeSize : Z;
  nodeDataSize : Z;
  memoryLimit : Z;
  memaddr : Z;
  memoryIsFull : Z;
  freeNodeCounter : Z;
  nNodesLimit : Z;
  nd : nat;
  nm : nat;
  drcts : list Z;
  nodes : list ptr
}.

Definition with_heap (h : gmap Z treeNode) (t : RBTree) : RBTree :=
  mkRBTree h (mp t) (count t) (treeNodeSize t) (nodeDataSize t) (memoryLimit t)
    (memaddr t) (memoryIsFull t) (freeNodeCounter t) (nNodesLimit t) (nd t) (nm t)
    (drcts t) (nodes t).

Definition with_drcts (d : list Z) (t : RBTree) : RBTree :=
  mkRBTree (heap t) (mp t) (count t) (treeNodeSize t) (nodeDataSize t) (memoryLimit t)
    (memaddr t) (memoryIsFull t) (freeNodeCounter t) (nNodesLimit t) (nd t) (nm t)
    d (nodes t).

Definition with_nodes (n : list ptr) (t : RBTree) : RBTree :=
  mkRBTree (heap t) (mp t) (count t) (treeNodeSize t) (nodeDataSize t) (memoryLimit t)
    (memaddr t) (memoryIsFull t) (freeNodeCounter t) (nNodesLimit t) (nd t) (nm t)
    (drcts t) n.

(** [tree->count++]. *)
Definition incr_count (t : RBTree) : RBTree :=
  mkRBTree (heap t) (mp t) (u32 (count t + 1)) (treeNodeSize t) (nodeDataSize t)
    (memoryLimit t) (memaddr t) (memoryIsFull t) (freeNodeCounter t) (nNodesLimit t)
    (nd t) (nm t) (drcts t) (nodes t).

(** ** Loads and stores through a pointer *)

Definition load {A} (f : treeNode -> A) (p : ptr) : cmd RBTree A :=
  fun t => match p with
           | Some a => match heap t !! a with
                       | Some n => Some (f n, t)
                       | None => None
                       end
           | None => None
           end.

Definition store (f : treeNode -> treeNode) (p : ptr) : cmd RBTree unit :=
  fun t => match p with
           | Some a => match heap t !! a with
                       | Some n => Some (tt, with_heap (<[a := f n]> (heap t)) t)
                       | None => None
                       end
           | None => None
           end.

Definition set_left (v : ptr) (n : treeNode) := Node v (right n) (clr n) (nodeMemPool n).
Definition set_right (v : ptr) (n : treeNode) := Node (left n) v (clr n) (nodeMemPool n).
Definition set_clr (v : Z) (n : treeNode) := Node (left n) (right n) v (nodeMemPool n).
Definition set_data (v : row) (n : treeNode) := Node (left n) (right n) (clr n) v.

(** [tree->nodes[i]], [tree->drcts[i]] and the assignments to them. *)
Definition node_at (i : nat) : cmd RBTree ptr :=
  fun t => match nodes t !! i with Some p => Some (p, t) | None => None end.

Definition drct_at (i : nat) : cmd RBTree Z :=
  fun t => match drcts t !! i with Some d => Some (d, t) | None => None end.

Definition set_path (i : nat) (p : ptr) (d : Z) : cmd RBTree unit :=
  fun t => if (i <? length (nodes t))%nat && (i <? length (drcts t))%nat
           then Some (tt, with_drcts (<[i := d]> (drcts t))
                            (with_nodes (<[i := p]> (nodes t)) t))
           else None.

(** [NEW_TREE_NODE(tree->mp, tree->memPool, tree->memaddr, ...)]: the node must
    fit the pool of [memoryLimit] bytes. *)
Definition NEW_TREE_NODE : cmd RBTree unit :=
  fun t =>
    if memaddr t + treeNodeSize t <=? memoryLimit t then
      let free' := u32 (freeNodeCounter t - 1) in
      Some (tt,
        mkRBTree (heap t) (Some (memaddr t)) (count t) (treeNodeSize t) (nodeDataSize t)
          (memoryLimit t) (u32 (memaddr t + treeNodeSize t))
          (if free' =? 0 then 1 else memoryIsFull t) free' (nNodesLimit t)
          (nd t) (nm t) (drcts t) (nodes t))
    else None.

(** [memcpy(&(xNd->nodeMemPool[0]), &attrs[0], tree->nodeDataSize);
     xNd->left = xNd->right = NULL; xNd->clr = c;] on fresh pool memory. *)
Definition init_node (p : ptr) (attrs : row) (c : Z) : cmd RBTree unit :=
  fun t => match p with
           | Some a =>
               Some (tt, with_heap
                 (<[a := Node NULL NULL c (copy_row (nd t) (nm t) attrs)]> (heap t)) t)
           | None => None
           end.

(** ** TreeInsert *)

Inductive descent := Merged | Fresh (xNd : ptr) (sl : nat).

(** The search loop of [TreeInsert]: it records the path, and either adds the
    measures to the node with the same key or links a new node. *)
Fixpoint descend (fuel : nat) (attrs : row) (xNd : ptr) (sl : nat) : cmd RBTree descent :=
  match fuel with
  | O => fault
  | S fuel' =>
      nd <- gets nd ;; nm <- gets nm ;;
      attrsP <- load nodeMemPool xNd ;;
      let cmpres := KeyComp (ks attrs) (ks attrsP) nd in
      if cmpres <? 0 then
        set_path sl xNd 0 ;;;
        yNd <- load left xNd ;;
        match yNd with
        | None =>
            NEW_TREE_NODE ;;;
            mp <- gets mp ;;
            store (set_left mp) xNd ;;;
            ret (Fresh mp (S sl))
        | Some _ => descend fuel' attrs yNd (S sl)
        end
      else if 0 <? cmpres then
        set_path sl xNd 1 ;;;
        yNd <- load right xNd ;;
        match yNd with
        | None =>
            NEW_TREE_NODE ;;;
            mp <- gets mp ;;
            store (set_right mp) xNd ;;;
            ret (Fresh mp (S sl))
        | Some _ => descend fuel' attrs yNd (S sl)
        end
      else
        store (set_data (merge_row nm attrsP attrs)) xNd ;;;
        ret Merged
  end.

(** [yNd != NULL && yNd->clr == RED]. *)
Definition is_red (p : ptr) : cmd RBTree bool :=
  match p with
  | None => ret false
  | Some _ => c <- load clr p ;; ret (c =? RED)
  end.

(** [if (tree->drcts[sl-3]) tree->nodes[sl-3]->right = yNd;
     else tree->nodes[sl-3]->left = yNd;] *)
Definition link_above (sl : nat) (yNd : ptr) : cmd RBTree unit :=
  d3 <- drct_at (sl - 3) ;;
  ggNd <- node_at (sl - 3) ;;
  if negb (d3 =? 0) then store (set_right yNd) ggNd
  else store (set_left yNd) ggNd.

(** The rotations when the parent is the left child of the grandparent. *)
Definition rotate_l (sl : nat) : cmd RBTree unit :=
  d1 <- drct_at (sl - 1) ;;
  yNd <- (if d1 =? 1 then
            xNd <- node_at (sl - 1) ;;
            yNd <- load right xNd ;;
            yl <- load left yNd ;;
            store (set_right yl) xNd ;;;
            store (set_left xNd) yNd ;;;
            gNd <- node_at (sl - 2) ;;
            store (set_left yNd) gNd ;;;
            ret yNd
          else node_at (sl - 1)) ;;
  xNd <- node_at (sl - 2) ;;
  store (set_clr RED) xNd ;;;
  store (set_clr BLACK) yNd ;;;
  yr <- load right yNd ;;
  store (set_left yr) xNd ;;;
  store (set_right xNd) yNd ;;;
  link_above sl yNd.

(** The rotations when the parent is the right child of the grandparent. *)
Definition rotate_r (sl : nat) : cmd RBTree unit :=
  d1 <- drct_at (sl - 1) ;;
  yNd <- (if d1 =? 0 then
            xNd <- node_at (sl - 1) ;;
            yNd <- load left xNd ;;
            yr <- load right yNd ;;
            store (set_left yr) xNd ;;;
            store (set_right xNd) yNd ;;;
            gNd <- node_at (sl - 2) ;;
            store (set_right yNd) gNd ;;;
            ret yNd
          else node_at (sl - 1)) ;;
  xNd <- node_at (sl - 2) ;;
  store (set_clr RED) xNd ;;;
  store (set_clr BLACK) yNd ;;;
  yl <- load left yNd ;;
  store (set_right yl) xNd ;;;
  store (set_left xNd) yNd ;;;
  link_above sl yNd.

(** The rebalancing loop of [TreeInsert]. *)
Fixpoint fixup (fuel : nat) (sl : nat) : cmd RBTree unit :=
  match fuel with
  | O => fault
  | S fuel' =>
      pNd <- node_at (sl - 1) ;;
      c <- load clr pNd ;;
      if negb (c =? RED) || (sl <? 3)%nat then ret tt
      else
        d2 <- drct_at (sl - 2) ;;
        gNd <- node_at (sl - 2) ;;
        yNd <- (if d2 =? 0 then load right gNd else load left gNd) ;;
        red <- is_red yNd ;;
        if red : bool then
          store (set_clr BLACK) pNd ;;;
          store (set_clr BLACK) yNd ;;;
          store (set_clr RED) gNd ;;;
          fixup fuel' (sl - 2)
        else if d2 =? 0 then rotate_l sl else rotate_r sl
  end.

(** [TreeInsert(tree, attrs)].  The search loop writes [nodes[sl]] in every
    round, so [MAX_TREE_HEIGHT] rounds are all it can make without a fault;
    the rebalancing loop lowers [sl] by two in every round. *)
Definition TreeInsert (attrs : row) : cmd RBTree Z :=
  let tmp := Some ROOT in
  xNd <- load left tmp ;;
  match xNd with
  | None =>
      modify incr_count ;;;
      NEW_TREE_NODE ;;;
      mp <- gets mp ;;
      store (set_left mp) tmp ;;;
      init_node mp attrs BLACK ;;;
      ret 0
  | Some _ =>
      set_path 0 tmp 0 ;;;
      d <- descend MAX_TREE_HEIGHT attrs xNd 1 ;;
      match d with
      | Merged => ret 0
      | Fresh xNd sl =>
          modify incr_count ;;;
          init_node xNd attrs RED ;;;
          fixup sl sl ;;;
          top <- load left tmp ;;
          store (set_clr BLACK) top ;;;
          ret 0
      end
  end.

(** ** Creation and initialisation *)

Definition tree_node_size (nd nm : nat) : Z :=
  let sz := u32 (sizeof_treeNode + DIM_FSZ * (Z.of_nat nd - 1) + MSR_FSZ * Z.of_nat nm) in
  if negb (sz mod 8 =? 0) then u32 (sz + 4) else sz.

(** [InitializeTree(tree, nd, nm)]: the pool is reused from its start; the
    old nodes are unreachable.  [tree->root.clr] is never written. *)
Definition InitializeTree (nd' nm' : nat) (t : RBTree) : RBTree :=
  let root_clr := match heap t !! ROOT with Some n => clr n | None => 0 end in
  let sz := tree_node_size nd' nm' in
  mkRBTree {[ROOT := Node NULL NULL root_clr (Row [] [])]} NULL 0 sz
    (DIM_FSZ * Z.of_nat nd' + MSR_FSZ * Z.of_nat nm') (memoryLimit t) 0 0
    (memoryLimit t / sz) (memoryLimit t / sz) nd' nm' (drcts t) (nodes t).

(** [CreateEmptyTree(nd, nm, memoryLimit, memPool)].  [garbage_clr],
    [garbage_drcts] and [garbage_nodes] are the contents [malloc] leaves in
    [root.clr] and in the two path arrays. *)
Definition CreateEmptyTree (garbage_clr : Z) (garbage_drcts : list Z) (garbage_nodes : list ptr)
    (nd' nm' : nat) (limit : Z) : RBTree :=
  let sz := tree_node_size nd' nm' in
  mkRBTree {[ROOT := Node NULL NULL garbage_clr (Row [] [])]} NULL 0 sz
    (DIM_FSZ * Z.of_nat nd' + MSR_FSZ * Z.of_nat nm') limit 0 0
    (limit / sz) (limit / sz) nd' nm' garbage_drcts garbage_nodes.
