(* ===== verification/RBShape.v ===== *)
(** * Functional red-black trees and their contexts

    The trees the pool of RBTree.v represents, with the address of every node,
    and the one-hole contexts that the path arrays of [TreeInsert] describe.
    [ins_search] and [fix_up] are the functional counterparts of the two loops
    of [TreeInsert]; the file shows that they keep the red-black invariant and
    that they implement [agg_insert] on the in-order sequence.  RBRefine.v
    shows that the C-level loops refine them. *)

From Stdlib Require Import ZArith Lia Sorted.
From stdpp Require Import base gmap numbers option list.
From S2P Require Import Prelude Rows RBTree.

(** Address, left subtree, colour, data, right subtree. *)
Inductive tree := E | T (a : Z) (l : tree) (c : Z) (d : row) (r : tree).

(** A frame: the address, direction taken (0 left, 1 right), colour and data
    of an ancestor, and its other subtree. *)
Inductive frame := F (a : Z) (dir : bool) (c : Z) (d : row) (o : tree).

Abbreviation ctx := (list frame).

Fixpoint size (t : tree) : nat :=
  match t with E => 0 | T _ l _ _ r => S (size l + size r) end.

Fixpoint height (t : tree) : nat :=
  match t with E => 0 | T _ l _ _ r => S (height l `max` height r) end.

Fixpoint inorder (t : tree) : list row :=
  match t with E => [] | T _ l _ d r => inorder l ++ d :: inorder r end.

Fixpoint foot (t : tree) : list Z :=
  match t with E => [] | T a l _ _ r => a :: foot l ++ foot r end.

Definition fill (f : frame) (t : tree) : tree :=
  match f with
  | F a false c d o => T a t c d o
  | F a true c d o => T a o c d t
  end.

Fixpoint plug (k : ctx) (t : tree) : tree :=
  match k with [] => t | f :: k' => plug k' (fill f t) end.

Fixpoint kfoot (k : ctx) : list Z :=
  match k with [] => [] | F a _ _ _ o :: k' => a :: foot o ++ kfoot k' end.

(** What stands to the left and to the right of the hole. *)
Fixpoint lefts (k : ctx) : list row :=
  match k with
  | [] => []
  | F _ false _ _ _ :: k' => lefts k'
  | F _ true _ d o :: k' => lefts k' ++ inorder o ++ [d]
  end.

Fixpoint rights (k : ctx) : list row :=
  match k with
  | [] => []
  | F _ false _ d o :: k' => d :: inorder o ++ rights k'
  | F _ true _ _ _ :: k' => rights k'
  end.

Definition paint (c : Z) (t : tree) : tree :=
  match t with E => E | T a l _ d r => T a l c d r end.

(** ** The search *)

Fixpoint ins_search (nd nm : nat) (r : row) (t : tree) (k : ctx) : tree + ctx :=
  match t with
  | E => inr k
  | T a tl c d tr =>
      let v := KeyComp (ks r) (ks d) nd in
      if v <? 0 then ins_search nd nm r tl (F a false c d tr :: k)
      else if 0 <? v then ins_search nd nm r tr (F a true c d tl :: k)
      else inl (plug k (T a tl c (merge_row nm d r) tr))
  end.

(** ** The rebalancing *)

Definition isred (t : tree) : bool :=
  match t with T _ _ c _ _ => c =? RED | E => false end.

(** The rotations: [t] is red, [p] its red parent's frame, [g] the
    grandparent's frame, whose other subtree is black. *)
Definition rotate (t : tree) (p g : frame) : tree :=
  match t, p, g with
  | _, F pa false _ pd po, F ga false _ gd go =>
      T pa t BLACK pd (T ga po RED gd go)
  | T a l _ d r, F pa true _ pd po, F ga false _ gd go =>
      T a (T pa po RED pd l) BLACK d (T ga r RED gd go)
  | _, F pa true _ pd po, F ga true _ gd go =>
      T pa (T ga go RED gd po) BLACK pd t
  | T a l _ d r, F pa false _ pd po, F ga true _ gd go =>
      T a (T ga go RED gd l) BLACK d (T pa r RED pd po)
  | E, _, _ => E
  end.

Fixpoint fix_up (t : tree) (k : ctx) : tree :=
  match k with
  | (F pa pdir pc pd po as p) :: (F ga gdir gc gd go as g) :: k' =>
      if pc =? RED then
        if isred go then
          fix_up (fill (F ga gdir RED gd (paint BLACK go))
                    (fill (F pa pdir BLACK pd po) t)) k'
        else plug k' (rotate t p g)
      else plug k t
  | _ => plug k t
  end.

(** The whole insertion; [a] is the address of the new node. *)
Definition ins (nd nm : nat) (r : row) (a : Z) (t : tree) : tree :=
  match t with
  | E => T a E BLACK r E
  | _ => match ins_search nd nm r t [] with
         | inl t' => t'
         | inr k => paint BLACK (fix_up (T a E RED r E) k)
         end
  end.

(** ** In-order sequences *)

Lemma inorder_paint c t : inorder (paint c t) = inorder t.
Proof. destruct t; reflexivity. Qed.

Lemma foot_paint c t : foot (paint c t) = foot t.
Proof. destruct t; reflexivity. Qed.

Lemma inorder_plug k t : inorder (plug k t) = lefts k ++ inorder t ++ rights k.
Proof.
  revert t; induction k as [|[a [] c d o] k IH]; intros t; cbn [plug fill lefts rights].
  - by rewrite app_nil_r.
  - rewrite IH. cbn [inorder]. by rewrite <- !app_assoc.
  - rewrite IH. cbn [inorder]. by rewrite <- !app_assoc.
Qed.

Lemma inorder_rotate t p g :
  t <> E -> inorder (rotate t p g) = inorder (fill g (fill p t)).
Proof.
  destruct t as [|a l c d r]; [done|intros _].
  destruct p as [pa [] pc pd po], g as [ga [] gc gd go];
    cbn [rotate fill inorder]; by rewrite <- ?app_assoc; cbn; rewrite <- ?app_assoc.
Qed.

Lemma fill_not_E f t : fill f t <> E.
Proof. destruct f as [? [] ? ? ?]; discriminate. Qed.

Lemma fix_up_inorder k : forall t,
  t <> E -> inorder (fix_up t k) = inorder (plug k t).
Proof.
  induction k as [|p|[pa pdir pc pd po] [ga gdir gc gd go] k IH] using list_ind2;
    intros t Ht; try (destruct p; reflexivity); try reflexivity.
  cbn [fix_up]. destruct (pc =? RED); [|done].
  destruct (isred go).
  - rewrite IH by apply fill_not_E.
    cbn [plug]. rewrite !inorder_plug. do 2 f_equal.
    destruct pdir, gdir; cbn [fill inorder]; by rewrite inorder_paint.
  - cbn [plug]. by rewrite !inorder_plug, inorder_rotate.
Qed.

(** ** The red-black invariant

    [rb c t n]: below a parent of colour [c], [t] is a red-black tree of black
    height [n]; a red node has a black parent. *)
Inductive rb : Z -> tree -> nat -> Prop :=
| rb_E c : rb c E 0
| rb_red a l d r n : rb RED l n -> rb RED r n -> rb BLACK (T a l RED d r) n
| rb_black c a l d r n : rb BLACK l n -> rb BLACK r n -> rb c (T a l BLACK d r) (S n).

(** [rbk c n k]: a tree of black height [n] that is fine below a parent of
    colour [c] makes the whole tree fine.  The header counts as a red parent,
    since the top node is black. *)
Inductive rbk : Z -> nat -> ctx -> Prop :=
| rbk_nil n : rbk RED n []
| rbk_red a dir d o n k : rb RED o n -> rbk BLACK n k -> rbk RED n (F a dir RED d o :: k)
| rbk_black c a dir d o n k : rb BLACK o n -> rbk c (S n) k ->
    rbk BLACK n (F a dir BLACK d o :: k).

Definition red_top (t : tree) (n : nat) : Prop :=
  exists a l d r, t = T a l RED d r /\ rb RED l n /\ rb RED r n.

Create HintDb rbt.
#[export] Hint Constructors rb rbk : rbt.

Lemma rb_weaken c t n : rb RED t n -> rb c t n.
Proof. inversion 1; subst; auto with rbt. Qed.

#[export] Hint Resolve rb_weaken : rbt.

Lemma rb_red_black c t n : rb c t n -> isred t = false -> rb RED t n.
Proof. destruct 1; simpl; auto with rbt; discriminate. Qed.

Lemma rb_paint_black c t n : rb c t n -> isred t = true -> rb RED (paint BLACK t) (S n).
Proof. destruct 1; simpl; auto with rbt; discriminate. Qed.

Lemma rb_paint_id t n : rb RED t n -> paint BLACK t = t.
Proof. inversion 1; reflexivity. Qed.

Lemma rb_fill_black a dir d o t n :
  rb BLACK o n -> rb BLACK t n -> rb RED (fill (F a dir BLACK d o) t) (S n).
Proof. destruct dir; simpl; auto with rbt. Qed.

Lemma rb_fill_red a dir d o t n :
  rb RED o n -> rb RED t n -> rb BLACK (fill (F a dir RED d o) t) n.
Proof. destruct dir; simpl; auto with rbt. Qed.

#[export] Hint Resolve rb_fill_black rb_fill_red : rbt.

Lemma rb_plug k : forall c t n, rbk c n k -> rb c t n -> exists m, rb RED (plug k t) m.
Proof.
  induction k as [|f k IH]; intros c t n Hk Ht; inversion Hk; subst; simpl; eauto with rbt.
Qed.

Lemma rb_rotate t pa pdir pd po ga gdir gc gd go n :
  red_top t n -> rb RED po n -> rb RED go n ->
  rb RED (rotate t (F pa pdir RED pd po) (F ga gdir gc gd go)) (S n).
Proof.
  intros (a & l & d & r & -> & Hl & Hr) Hp Hg.
  destruct pdir, gdir; simpl; auto with rbt.
Qed.

(** Rebalancing and blackening the top restore the invariant. *)
Lemma rb_fix_up k : forall c t n,
  red_top t n -> rbk c n k -> exists m, rb RED (paint BLACK (fix_up t k)) m.
Proof.
  induction k as [|p|[pa pdir pc pd po] [ga gdir gc gd go] k IH] using list_ind2;
    intros c t n Ht Hk.
  - destruct Ht as (a & l & d & r & -> & Hl & Hr). simpl. eauto with rbt.
  - destruct Ht as (a & l & d & r & -> & Hl & Hr).
    inversion Hk as [|a0 dir0 d0 o0 n0 k0 Ho Hk'|c0 a0 dir0 d0 o0 n0 k0 Ho Hk']; subst;
      [inversion Hk'|].
    exists (S n). destruct dir0; simpl; auto with rbt.
  - cbn [fix_up]. destruct (Z.eqb_spec pc RED) as [->|Hpc].
    + inversion Hk as [|a0 dir0 d0 o0 n0 k0 Ho Hk'|]; subst.
      inversion Hk' as [| |c1 a1 dir1 d1 o1 n1 k1 Ho' Hk'']; subst.
      destruct (isred go) eqn:Hgo.
      * eapply IH; [|apply Hk''].
        destruct Ht as (a & l & d & r & -> & Hl & Hr).
        destruct gdir; unfold red_top; cbn [fill]; do 4 eexists; split; try reflexivity;
          split; eauto using rb_paint_black with rbt.
      * destruct (rb_plug k c1 (rotate t (F pa pdir RED pd po) (F ga gdir BLACK gd go)) (S n))
          as [m Hm]; [done| |].
        { apply rb_weaken, rb_rotate; eauto using rb_red_black. }
        exists m. erewrite rb_paint_id; eauto.
    + inversion Hk as [| |c1 a1 dir1 d1 o1 n1 k1 Ho' Hk'']; subst; [done|].
      destruct Ht as (a & l & d & r & -> & Hl & Hr).
      destruct (rb_plug (F pa pdir BLACK pd po :: F ga gdir gc gd go :: k)
                  BLACK (T a l RED d r) n) as [m Hm]; auto with rbt.
      exists m. erewrite rb_paint_id; eauto.
Qed.

(** ** The search finds the place of the row *)

Section Search.
Context (nd nm : nat) (r : row).

(** The hole of the context is where [r] belongs. *)
Definition hole_ok (k : ctx) : Prop :=
  Forall (fun x => key_lt nd x r) (lefts k) /\ Forall (key_lt nd r) (rights k).

Lemma hole_ok_left a c d o k :
  row_ok nd nm r -> row_ok nd nm d -> Forall (row_ok nd nm) (inorder o) ->
  key_lt nd r d -> Forall (key_lt nd d) (inorder o) ->
  hole_ok k -> hole_ok (F a false c d o :: k).
Proof.
  intros Hr Hd Ho Hrd Hdo [Hl Hk]. split; cbn [lefts rights]; [done|].
  constructor; [done|]. apply Forall_app; split; [|done].
  apply (Forall_impl2 _ _ _ _ Ho Hdo). intros y ? ?. by apply (key_lt_trans nd nm r d y).
Qed.

Lemma hole_ok_right a c d o k :
  row_ok nd nm r -> row_ok nd nm d -> Forall (row_ok nd nm) (inorder o) ->
  key_lt nd d r -> Forall (fun x => key_lt nd x d) (inorder o) ->
  hole_ok k -> hole_ok (F a true c d o :: k).
Proof.
  intros Hr Hd Ho Hrd Hdo [Hl Hk]. split; cbn [lefts rights]; [|done].
  apply Forall_app; split; [done|]. apply Forall_app; split; [|by repeat constructor].
  apply (Forall_impl2 _ _ _ _ Ho Hdo). intros y ? ?. by apply (key_lt_trans nd nm y d r).
Qed.

Definition search_post (whole : tree) (res : tree + ctx) : Prop :=
  match res with
  | inl t' => inorder t' = agg_insert nd nm r (inorder whole)
              /\ foot t' = foot whole /\ size t' = size whole
              /\ forall n, rb RED whole n -> rb RED t' n
  | inr k => plug k E = whole /\ hole_ok k
  end.
End Search.

Lemma foot_plug_eq k : forall t t',
  foot t = foot t' -> size t = size t' ->
  foot (plug k t) = foot (plug k t') /\ size (plug k t) = size (plug k t').
Proof.
  induction k as [|[a [] c d o] k IH]; intros t t' Hf Hs; [done| |];
    apply IH; cbn [fill foot size]; congruence.
Qed.

Lemma rb_plug_data k a l c d d' r : forall e n,
  rb e (plug k (T a l c d r)) n -> rb e (plug k (T a l c d' r)) n.
Proof.
  assert (H : forall e t t' n, (forall e n, rb e t n -> rb e t' n) ->
              rb e (plug k t) n -> rb e (plug k t') n).
  { induction k as [|[b [] cb db o] k IH]; cbn [plug fill]; intros e t t' n Htt; auto;
      apply IH; inversion 1; subst; auto with rbt. }
  intros e n. apply H. inversion 1; subst; auto with rbt.
Qed.

Lemma ins_search_spec nd nm r t : forall k,
  row_ok nd nm r -> Forall (row_ok nd nm) (inorder t) ->
  view_sorted nd (inorder t) -> hole_ok nd r k ->
  search_post nd nm r (plug k t) (ins_search nd nm r t k).
Proof.
  induction t as [|a tl IHl c d tr IHr]; intros k Hr Hok Hs Hk; cbn [ins_search]; [done|].
  cbn [inorder] in Hok, Hs. apply Forall_app in Hok as [Hokl Hokr].
  apply Forall_cons in Hokr as [Hd Hokr].
  apply view_sorted_app in Hs as (Hsl & Hsr & Hlr).
  assert (Hld : Forall (fun x => key_lt nd x d) (inorder tl)).
  { eapply Forall_impl; [apply Hlr|]. intros x Hx. by inversion Hx. }
  inversion Hsr as [|? ? Hsr' Hdr]; subst.
  destruct (Z.ltb_spec (KeyComp (ks r) (ks d) nd) 0);
    [|destruct (Z.ltb_spec 0 (KeyComp (ks r) (ks d) nd))].
  - apply (IHl (F a false c d tr :: k)); auto. by apply hole_ok_left with (nm := nm).
  - apply (IHr (F a true c d tl :: k)); auto. apply hole_ok_right with (nm := nm); auto.
    apply key_lt_gt. lia.
  - assert (H' : KeyComp (ks r) (ks d) nd = 0) by lia.
    split; [|split; [|split]].
    + rewrite !inorder_plug. cbn [inorder].
      rewrite agg_insert_skip by apply Hk. f_equal.
      rewrite <- !app_assoc. cbn [app]. rewrite agg_insert_skip; [by rewrite agg_insert_same|].
      destruct Hr as [Hr _], Hd as [Hd _].
      apply KeyComp_eq in H'; [|done|done].
      eapply Forall_impl; [apply Hld|]. intros x. by apply key_lt_ks_r.
    + by apply foot_plug_eq.
    + by apply foot_plug_eq.
    + intros n. apply rb_plug_data.
Qed.

(** ** Decomposition, size and height *)

Lemma rb_plug_inv k : forall t n,
  rb RED (plug k t) n -> exists c m, rbk c m k /\ rb c t m.
Proof.
  induction k as [|[a dir cf d o] k IH]; intros t n H; cbn [plug] in H.
  - exists RED, n. split; [constructor|done].
  - apply IH in H as (c & m & Hk & Hf).
    destruct dir; cbn [fill] in Hf; inversion Hf; subst; eauto 6 with rbt.
Qed.

Lemma size_plug k : forall t t', size t' = S (size t) -> size (plug k t') = S (size (plug k t)).
Proof.
  induction k as [|[a [] c d o] k IH]; intros t t' H; cbn [plug fill]; [done| |];
    apply IH; cbn [size]; lia.
Qed.

Lemma foot_plug k t : foot (plug k t) ≡ₚ foot t ++ kfoot k.
Proof.
  revert t; induction k as [|[a [] c d o] k IH]; intros t; cbn [plug fill kfoot];
    [by rewrite app_nil_r| |]; rewrite IH; cbn [foot]; solve_Permutation.
Qed.

Lemma foot_fill f t : foot (fill f t) ≡ₚ foot t ++ kfoot [f].
Proof. apply (foot_plug [f]). Qed.

Lemma foot_rotate t p g : t <> E -> foot (rotate t p g) ≡ₚ foot (fill g (fill p t)).
Proof.
  destruct t as [|a l c d r]; [done|intros _].
  destruct p as [pa [] pc pd po], g as [ga [] gc gd go]; cbn [rotate fill foot];
    solve_Permutation.
Qed.

Lemma foot_fix_up k : forall t, t <> E -> foot (fix_up t k) ≡ₚ foot (plug k t).
Proof.
  induction k as [|p|[pa pdir pc pd po] [ga gdir gc gd go] k IH] using list_ind2;
    intros t Ht; try (destruct p; reflexivity); try reflexivity.
  cbn [fix_up]. destruct (pc =? RED); [|done].
  destruct (isred go).
  - rewrite IH by apply fill_not_E.
    cbn [plug]. rewrite !foot_plug, !foot_fill. cbn [kfoot]. by rewrite foot_paint.
  - cbn [plug]. by rewrite !foot_plug, foot_rotate.
Qed.

Lemma length_foot t : length (foot t) = size t.
Proof. induction t; simpl; [done|]. rewrite length_app. lia. Qed.

Lemma rb_size c t n : rb c t n -> (2 ^ n <= size t + 1)%nat.
Proof. induction 1; cbn [size Nat.pow]; lia. Qed.

Lemma rb_height c t n :
  rb c t n -> (height t <= 2 * n + (if (c =? RED)%Z then 0 else 1))%nat.
Proof. induction 1; cbn [height]; simpl in *; try (destruct (c =? RED)%Z); lia. Qed.

Lemma height_plug k : forall t, (length k + height t <= height (plug k t))%nat.
Proof.
  induction k as [|[a [] c d o] k IH]; intros t; cbn [plug fill length]; [lia| |];
    etransitivity; [|apply IH| |apply IH]; cbn [height]; lia.
Qed.

(** A red-black tree with fewer than [2^m] nodes is at most [2*m] high. *)
Lemma rb_log_height t n m : rb RED t n -> (size t < 2 ^ m)%nat -> (height t <= 2 * m)%nat.
Proof.
  intros H Hm. pose proof (rb_size _ _ _ H). pose proof (rb_height _ _ _ H). simpl in *.
  destruct (decide (n <= m)%nat); [lia|].
  assert (2 ^ (S m) <= 2 ^ n)%nat by (apply Nat.pow_le_mono_r; lia).
  rewrite Nat.pow_succ_r' in *. pose proof (Nat.pow_nonzero 2 m). lia.
Qed.

(** ** Insertion *)

Record tree_ok (nd nm : nat) (t : tree) : Prop := {
  tok_rows : Forall (row_ok nd nm) (inorder t);
  tok_sorted : view_sorted nd (inorder t);
  tok_rb : exists n, rb RED t n
}.

Lemma ins_inorder nd nm r a t :
  row_ok nd nm r -> tree_ok nd nm t ->
  inorder (ins nd nm r a t) = agg_insert nd nm r (inorder t).
Proof.
  intros Hr [Hok Hs Hrb]. unfold ins. destruct t as [|b l c d tr]; [done|].
  pose proof (ins_search_spec nd nm r (T b l c d tr) [] Hr Hok Hs) as H.
  destruct (ins_search nd nm r (T b l c d tr) []) as [t'|k].
  - apply H. by split; constructor.
  - destruct H as [Hp [Hl Hk]]; [by split; constructor|].
    rewrite inorder_paint, fix_up_inorder, inorder_plug by done.
    cbn [plug] in Hp. rewrite <- Hp, inorder_plug. cbn [inorder app].
    by rewrite agg_insert_skip, agg_insert_new.
Qed.

Lemma ins_rb nd nm r a t :
  row_ok nd nm r -> tree_ok nd nm t -> exists n, rb RED (ins nd nm r a t) n.
Proof.
  intros Hr [Hok Hs [n Hrb]]. unfold ins.
  destruct t as [|b l c d tr]; [exists 1%nat; auto with rbt|].
  pose proof (ins_search_spec nd nm r (T b l c d tr) [] Hr Hok Hs) as H.
  destruct (ins_search nd nm r (T b l c d tr) []) as [t'|k].
  - exists n. apply H; [by split; constructor|done].
  - destruct H as [Hp _]; [by split; constructor|].
    cbn [plug] in Hp. rewrite <- Hp in Hrb.
    apply rb_plug_inv in Hrb as (c' & m & Hk & HE). inversion HE; subst.
    eapply rb_fix_up; [|apply Hk]. unfold red_top. eauto 10 with rbt.
Qed.

Lemma ins_tree_ok nd nm r a t :
  row_ok nd nm r -> tree_ok nd nm t -> tree_ok nd nm (ins nd nm r a t).
Proof.
  intros Hr Ht. split; [..|by apply ins_rb]; rewrite ins_inorder by done;
    destruct Ht; [by apply agg_insert_ok|by apply agg_insert_sorted with (nm := nm)].
Qed.
