(* ===== verification/RBRefine.v ===== *)
(** * The pointer-level red-black tree refines the functional one

    [rep] and [repk] relate the pool of RBTree.v to the trees and contexts of
    RBShape.v; the path arrays of [TreeInsert] are the addresses and
    directions of a context.  Each loop of [TreeInsert] is simulated by its
    functional counterpart, which gives memory safety (no command faults, the
    path arrays and the pool are never exceeded) and the functional
    specification of insertion. *)

From Stdlib Require Import ZArith Lia Sorted.
From stdpp Require Import base gmap numbers option list.
From S2P Require Import Prelude Rows RBTree RBShape.

Open Scope cmd_scope.

Definition addr (t : tree) : ptr := match t with E => NULL | T a _ _ _ _ => Some a end.

Fixpoint rep (h : gmap Z treeNode) (t : tree) : Prop :=
  match t with
  | E => True
  | T a l c d r => h !! a = Some (Node (addr l) (addr r) c d) /\ rep h l /\ rep h r
  end.

(** The address and the direction of the innermost frame, the header's when
    there is none. *)
Definition kaddr (k : ctx) : Z := match k with [] => ROOT | F a _ _ _ _ :: _ => a end.
Definition kdir (k : ctx) : bool := match k with [] => false | F _ dir _ _ _ :: _ => dir end.

Fixpoint repk (h : gmap Z treeNode) (k : ctx) (p : ptr) : Prop :=
  match k with
  | [] => exists n, h !! ROOT = Some n /\ left n = p
  | F a dir c d o :: k' =>
      h !! a = Some (if dir then Node (addr o) p c d else Node p (addr o) c d)
      /\ rep h o /\ repk h k' (Some a)
  end.

Definition b2z (b : bool) : Z := if b then 1 else 0.

(** The path arrays that describe a context. *)
Fixpoint knodes (k : ctx) : list ptr :=
  match k with [] => [Some ROOT] | F a _ _ _ _ :: k' => knodes k' ++ [Some a] end.
Fixpoint kdrcts (k : ctx) : list Z :=
  match k with [] => [0] | F _ dir _ _ _ :: k' => kdrcts k' ++ [b2z dir] end.

Lemma length_knodes k : length (knodes k) = S (length k).
Proof. induction k as [|[]]; simpl; [done|]. rewrite length_app; simpl. lia. Qed.

Lemma length_kdrcts k : length (kdrcts k) = S (length k).
Proof. induction k as [|[]]; simpl; [done|]. rewrite length_app; simpl. lia. Qed.

Lemma knodes_last k rest : (knodes k ++ rest) !! length k = Some (Some (kaddr k)).
Proof.
  destruct k as [|[a dir c d o] k]; [done|]. cbn [knodes length kaddr].
  rewrite <- app_assoc, lookup_app_r by (rewrite length_knodes; lia).
  rewrite length_knodes. by replace (S (length k) - S (length k))%nat with 0%nat by lia.
Qed.

Lemma kdrcts_last k rest : (kdrcts k ++ rest) !! length k = Some (b2z (kdir k)).
Proof.
  destruct k as [|[a dir c d o] k]; [done|]. cbn [kdrcts length kdir].
  rewrite <- app_assoc, lookup_app_r by (rewrite length_kdrcts; lia).
  rewrite length_kdrcts. by replace (S (length k) - S (length k))%nat with 0%nat by lia.
Qed.

(** ** Frame properties *)

Lemma rep_frame h a n t : a ∉ foot t -> rep h t -> rep (<[a:=n]> h) t.
Proof.
  induction t as [|b l IHl c d r IHr]; cbn [rep foot]; [done|].
  rewrite not_elem_of_cons, not_elem_of_app. intros (Hb & Hl & Hr) (H & ? & ?).
  rewrite lookup_insert_ne by done. auto.
Qed.

Lemma repk_frame h a n k p : a <> ROOT -> a ∉ kfoot k -> repk h k p -> repk (<[a:=n]> h) k p.
Proof.
  intros Ha. revert p.
  induction k as [|[b dir c d o] k IH]; cbn [repk kfoot]; intros p Hk.
  - intros (m & Hm & Hp). exists m. by rewrite lookup_insert_ne.
  - rewrite not_elem_of_cons, not_elem_of_app in Hk. destruct Hk as (Hb & Ho & Hk').
    intros (H & ? & ?). rewrite lookup_insert_ne by done. auto using rep_frame.
Qed.

(** Relinking the hole of a context. *)
Definition relink (dir : bool) (p : ptr) : treeNode -> treeNode :=
  if dir then set_right p else set_left p.

Lemma repk_lookup h k p : repk h k p -> exists n, h !! kaddr k = Some n.
Proof. destruct k as [|[a dir c d o] k]; cbn [repk kaddr]; [intros (n & ? & ?)|intros [? _]]; eauto. Qed.

Lemma repk_relink h k p p' n :
  NoDup (ROOT :: kfoot k) -> repk h k p -> h !! kaddr k = Some n ->
  repk (<[kaddr k := relink (kdir k) p' n]> h) k p'.
Proof.
  destruct k as [|[a dir c d o] k]; cbn [repk kaddr kdir kfoot].
  - intros _ _ Hn. eexists. rewrite lookup_insert_eq. eauto.
  - rewrite !NoDup_cons. intros (HR & Ha & _) (H & Ho & Hk') Hn.
    rewrite Hn in H; simplify_eq. apply not_elem_of_app in Ha as [Ha Hk].
    rewrite lookup_insert_eq. split; [by destruct dir|].
    split; [by apply rep_frame|]. apply repk_frame; set_solver.
Qed.

Lemma rep_plug h k : forall t,
  repk h k (addr t) /\ rep h t <-> repk h [] (addr (plug k t)) /\ rep h (plug k t).
Proof.
  induction k as [|[a dir c d o] k IH]; intros t; [done|].
  cbn [plug]. rewrite <- IH. destruct dir; cbn [fill repk rep addr]; tauto.
Qed.

(** ** Running single commands *)

Lemma load_run {A} (f : treeNode -> A) a st n :
  heap st !! a = Some n -> load f (Some a) st = Some (f n, st).
Proof. intros H. unfold load. by rewrite H. Qed.

Lemma store_run f a st n :
  heap st !! a = Some n -> store f (Some a) st = Some (tt, with_heap (<[a := f n]> (heap st)) st).
Proof. intros H. unfold store. by rewrite H. Qed.

Lemma node_at_run i st p : nodes st !! i = Some p -> node_at i st = Some (p, st).
Proof. intros H. unfold node_at. by rewrite H. Qed.

Lemma drct_at_run i st p : drcts st !! i = Some p -> drct_at i st = Some (p, st).
Proof. intros H. unfold drct_at. by rewrite H. Qed.

Lemma is_red_run t st : rep (heap st) t -> is_red (addr t) st = Some (isred t, st).
Proof.
  destruct t as [|a l c d r]; [done|]. intros (H & _). unfold is_red; cbn [addr].
  crun ltac:(by eapply load_run). done.
Qed.

(** ** The rebalancing loop *)

(** Turns one [NoDup] of the footprint into membership facts. *)
Ltac split_nodup H :=
  repeat (rewrite ?NoDup_cons, ?NoDup_app, ?not_elem_of_cons, ?not_elem_of_app,
            ?elem_of_cons, ?elem_of_app in H);
  destruct_and? H.

Ltac lk := cbn [heap with_heap];
  repeat first [rewrite lookup_insert_eq | rewrite lookup_insert_ne by congruence];
  eauto.

Lemma with_heap_twice h h' st : with_heap h (with_heap h' st) = with_heap h st.
Proof. reflexivity. Qed.

Ltac step :=
  rewrite ?bind_assoc;
  first [ rewrite bind_ret; cbn beta | crun ltac:(eapply load_run; lk) | crun ltac:(eapply store_run; lk)
        | crun ltac:(eapply node_at_run; eassumption)
        | crun ltac:(eapply drct_at_run; eassumption) ];
  rewrite ?with_heap_twice;
  cbn [left right clr nodeMemPool set_left set_right set_clr set_data].

Lemma fixup_stop fuel k st t :
  repk (heap st) k (addr t) -> rep (heap st) t ->
  nodes st !! length k = Some (Some (kaddr k)) ->
  fix_up t k = plug k t ->
  (exists n, heap st !! kaddr k = Some n /\ negb (clr n =? RED) || (S (length k) <? 3)%nat = true) ->
  exists h', fixup (S fuel) (S (length k)) st = Some (tt, with_heap h' st)
    /\ repk h' [] (addr (fix_up t k)) /\ rep h' (fix_up t k).
Proof.
  intros Hk Ht Hn Hf (n & Hl & Hc). exists (heap st). rewrite Hf.
  split; [|by apply (proj1 (rep_plug _ k t))].
  cbn [fixup]. replace (S (length k) - 1)%nat with (length k) by lia.
  do 2 step. rewrite Hc. by destruct st.
Qed.

Definition on_path (st : RBTree) (k : ctx) : Prop :=
  (exists rn, nodes st = knodes k ++ rn) /\ (exists rd, drcts st = kdrcts k ++ rd).

Lemma on_path_tail st f k : on_path st (f :: k) -> on_path st k.
Proof.
  intros [[rn Hn] [rd Hd]]. destruct f as [a dir c d o]. cbn [knodes kdrcts] in *.
  rewrite <- app_assoc in Hn, Hd. split; eauto.
Qed.

Lemma on_path_last st k : on_path st k ->
  nodes st !! length k = Some (Some (kaddr k)) /\ drcts st !! length k = Some (b2z (kdir k)).
Proof. intros [[rn ->] [rd ->]]. by rewrite knodes_last, kdrcts_last. Qed.

(** The header and the nodes in use are pairwise distinct. *)
Definition separate (k : ctx) (t : tree) : Prop := NoDup (ROOT :: foot t ++ kfoot k).

Lemma separate_perm k t k' t' :
  foot t ++ kfoot k ≡ₚ foot t' ++ kfoot k' -> separate k t -> separate k' t'.
Proof. unfold separate. by intros ->. Qed.

Lemma separate_kaddr k t : separate k t -> kaddr k ∉ foot t.
Proof.
  unfold separate. destruct k as [|[a dir c d o] k]; cbn [kaddr kfoot];
    rewrite NoDup_cons, NoDup_app; set_solver.
Qed.

(** Relinking the hole of a context to a new subtree. *)
Lemma link_above_run st k p t :
  on_path st k -> repk (heap st) k p -> rep (heap st) t -> separate k t ->
  exists h', link_above (S (S (S (length k)))) (addr t) st = Some (tt, with_heap h' st)
    /\ repk h' k (addr t) /\ rep h' t.
Proof.
  intros Hp Hk Ht Hs. destruct (on_path_last _ _ Hp) as [Hn Hd].
  destruct (repk_lookup _ _ _ Hk) as [n Hl].
  exists (<[kaddr k := relink (kdir k) (addr t) n]> (heap st)). split; [|split].
  - unfold link_above. replace (S (S (S (length k))) - 3)%nat with (length k) by lia.
    do 2 step. destruct (kdir k); cbn [b2z Z.eqb negb relink]; by apply store_run.
  - apply (repk_relink _ _ p); [|done|done].
    unfold separate in Hs. rewrite NoDup_cons, NoDup_app in *. set_solver.
  - apply rep_frame; [by apply separate_kaddr|done].
Qed.

(** ** One round of the rebalancing loop *)

Section Rebalance.
Context (st : RBTree) (k : ctx) (pa ga gc : Z) (pdir gdir : bool)
        (pd gd : row) (po go : tree) (a ct : Z) (l r : tree) (d : row).

Let t := T a l ct d r.
Let p c := F pa pdir c pd po.
Let g c := F ga gdir c gd go.
Let h := heap st.

Hypothesis Hk : repk h (p RED :: g gc :: k) (addr t).
Hypothesis Ht : rep h t.
Hypothesis Hsep : separate (p RED :: g gc :: k) t.
Hypothesis Hpath : on_path st (p RED :: g gc :: k).

(** What the footprint says about the nodes the rotations write. *)
Lemma rotate_fresh :
  (a <> pa /\ a <> ga /\ pa <> ga /\ a <> ROOT /\ pa <> ROOT /\ ga <> ROOT)
  /\ (a ∉ kfoot k /\ pa ∉ kfoot k /\ ga ∉ kfoot k)
  /\ (a ∉ foot l /\ pa ∉ foot l /\ ga ∉ foot l)
  /\ (a ∉ foot r /\ pa ∉ foot r /\ ga ∉ foot r)
  /\ (a ∉ foot po /\ pa ∉ foot po /\ ga ∉ foot po)
  /\ (a ∉ foot go /\ pa ∉ foot go /\ ga ∉ foot go).
Proof.
  clear - Hsep. unfold separate, p, g, t in Hsep. cbn [foot kfoot] in Hsep.
  split_nodup Hsep. split_and!; set_solver.
Qed.

Ltac rep_tac :=
  split_and!; try (by lk); repeat (apply rep_frame; [assumption|]); assumption.

Lemma rotate_run :
  exists h', (if gdir then rotate_r (S (S (S (length k)))) else rotate_l (S (S (S (length k))))) st
           = Some (tt, with_heap h' st)
    /\ repk h' k (addr (rotate t (p RED) (g gc))) /\ rep h' (rotate t (p RED) (g gc)).
Proof.
  destruct rotate_fresh as ((?&?&?&?&?&?)&(?&?&?)&(?&?&?)&(?&?&?)&(?&?&?)&(?&?&?)).
  destruct (on_path_last _ _ Hpath) as [Hn1 Hd1].
  pose proof (on_path_tail _ _ _ Hpath) as Hpath2.
  destruct (on_path_last _ _ Hpath2) as [Hn2 _].
  apply on_path_tail in Hpath2.
  assert (Hsep' : separate k (rotate t (p RED) (g gc))).
  { eapply separate_perm, Hsep. unfold t, p, g. rewrite foot_rotate, !foot_fill by done.
    cbn [kfoot]. solve_Permutation. }
  unfold h, t, p, g in *. cbn [repk rep] in Hk, Ht.
  destruct Hk as (Hpa & Hpo & Hga & Hgo & Hk'), Ht as (Ha & Hl & Hr).
  cbn [length kaddr kdir] in *. clear Hk Ht Hsep Hpath.
  enough (exists h1, (forall h2, link_above (S (S (S (length k))))
      (addr (rotate (T a l ct d r) (F pa pdir RED pd po) (F ga gdir gc gd go)))
      (with_heap h1 st) = Some (tt, with_heap h2 (with_heap h1 st)) ->
      (if gdir then rotate_r (S (S (S (length k)))) else rotate_l (S (S (S (length k))))) st
           = Some (tt, with_heap h2 st))
    /\ repk h1 k (Some ga)
    /\ rep h1 (rotate (T a l ct d r) (F pa pdir RED pd po) (F ga gdir gc gd go)))
    as (h1 & Hrun & Hk1 & Hr1).
  { destruct (link_above_run (with_heap h1 st) k (Some ga)
      (rotate (T a l ct d r) (F pa pdir RED pd po) (F ga gdir gc gd go)))
      as (h2 & Hl2 & ? & ?); eauto. }
  unfold rotate_l, rotate_r.
  replace (S (S (S (length k))) - 1)%nat with (S (S (length k))) by lia.
  replace (S (S (S (length k))) - 2)%nat with (S (length k)) by lia.
  destruct pdir, gdir; eexists; (split; [intros h2 Hl2|]).
  all: cbn [rotate addr] in *.
  all: try (step; cbn [b2z Z.eqb Pos.eqb]; repeat step; rewrite with_heap_twice in Hl2;
            cbn [heap with_heap]; exact Hl2).
  all: (split; [repeat (apply repk_frame; [assumption..|]); assumption|]).
  all: cbn [rep addr]; rep_tac.
Qed.

Lemma recolor_run ua ul ud ur :
  go = T ua ul RED ud ur ->
  exists h', (store (set_clr BLACK) (Some pa) ;;;
              store (set_clr BLACK) (addr go) ;;;
              store (set_clr RED) (Some ga))%cmd st = Some (tt, with_heap h' st)
    /\ repk h' k (Some ga)
    /\ rep h' (fill (F ga gdir RED gd (paint BLACK go)) (fill (p BLACK) t)).
Proof.
  intros Hgo.
  destruct rotate_fresh as ((?&?&?&?&?&?)&(?&?&?)&(?&?&?)&(?&?&?)&(?&?&?)&_).
  assert (Hu : (ua <> pa /\ ua <> ga /\ ua <> a /\ ua <> ROOT) /\ (ua ∉ kfoot k /\ ua ∉ foot l
    /\ ua ∉ foot r /\ ua ∉ foot po) /\ (ua ∉ foot ul /\ pa ∉ foot ul /\ ga ∉ foot ul)
    /\ (ua ∉ foot ur /\ pa ∉ foot ur /\ ga ∉ foot ur)).
  { clear - Hsep Hgo. unfold separate, p, g, t in Hsep. rewrite Hgo in Hsep.
    cbn [foot kfoot] in Hsep. split_nodup Hsep. split_and!; set_solver. }
  destruct Hu as ((?&?&?&?)&(?&?&?&?)&(?&?&?)&(?&?&?)).
  unfold h, t, p, g in *. rewrite Hgo in *. cbn [repk rep] in Hk, Ht.
  destruct Hk as (Hpa & Hpo & Hga & (Hu & Hul & Hur) & Hk'), Ht as (Ha & Hl & Hr).
  cbn [addr]. eexists. split; [|split].
  - repeat step. erewrite store_run by lk. rewrite with_heap_twice. reflexivity.
  - repeat (apply repk_frame; [assumption..|]). assumption.
  - destruct pdir, gdir; cbn [fill paint rep addr]; rep_tac.
Qed.
End Rebalance.

(** The rebalancing loop computes [fix_up]. *)
Lemma fixup_refines k : forall t st fuel,
  t <> E -> repk (heap st) k (addr t) -> rep (heap st) t -> separate k t ->
  on_path st k -> (length k < fuel)%nat ->
  exists h', fixup fuel (S (length k)) st = Some (tt, with_heap h' st)
    /\ repk h' [] (addr (fix_up t k)) /\ rep h' (fix_up t k).
Proof.
  induction k as [|p|[pa pdir pc pd po] [ga gdir gc gd go] k IH] using list_ind2;
    intros t st fuel HE Hk Ht Hs Hp Hfuel; (destruct fuel as [|fuel]; [lia|]);
    destruct (on_path_last _ _ Hp) as [Hn1 _].
  - apply fixup_stop; auto.
    destruct Hk as (n & ? & ?). exists n. by rewrite orb_true_r.
  - apply fixup_stop; auto; [by destruct p|].
    destruct (repk_lookup _ _ _ Hk) as [n ?]. exists n. by rewrite orb_true_r.
  - destruct (Z.eqb_spec pc RED) as [->|Hpc].
    2: { apply fixup_stop; auto; cbn [fix_up]; [by destruct (Z.eqb_spec pc RED)|].
         destruct Hk as [Hpa _]. eexists; split; [exact Hpa|].
         destruct pdir; cbn [clr]; by destruct (Z.eqb_spec pc RED). }
    destruct t as [|a l ct d r]; [done|].
    pose proof (rotate_run st k pa ga gc pdir gdir pd gd po go a ct l r d Hk Ht Hs Hp) as Hrot.
    pose proof (recolor_run st k pa ga gc pdir gdir pd gd po go a ct l r d Hk Ht Hs Hp) as Hrec.
    pose proof (on_path_tail _ _ _ Hp) as Hp2.
    destruct (on_path_last _ _ Hp2) as [Hn2 Hd2]. apply on_path_tail in Hp2.
    assert (Hk2 := Hk). cbn [repk] in Hk2. destruct Hk2 as (Hpa & _ & Hga & Hgo & _).
    cbn [length fixup kaddr kdir] in *.
    replace (S (S (S (length k))) - 1)%nat with (S (S (length k))) by lia.
    replace (S (S (S (length k))) - 2)%nat with (S (length k)) by lia.
    do 2 step. replace (clr _ =? RED) with true by (by destruct pdir).
    cbn [negb orb Nat.ltb Nat.leb]. do 2 step.
    assert (Hunc : (if b2z gdir =? 0 then load right (Some ga) else load left (Some ga)) st
                   = Some (addr go, st)).
    { destruct gdir; cbn [b2z Z.eqb]; erewrite load_run by exact Hga; done. }
    crun ltac:(exact Hunc). crun ltac:(apply (is_red_run go); assumption).
    cbn [fix_up]. change (RED =? RED) with true. cbv iota.
    destruct (isred go) eqn:Hred.
    + destruct go as [|ua ul uc ud ur]; [done|]. cbn [isred] in Hred.
      apply Z.eqb_eq in Hred as ->.
      destruct (Hrec ua ul ud ur eq_refl) as (h1 & Hrun & Hk1 & Ht1).
      destruct (IH _ (with_heap h1 st) fuel (fill_not_E (F ga gdir RED gd _) _)
        ltac:(by destruct gdir) Ht1) as (h2 & Hf & Hk2 & Ht2).
      * eapply separate_perm, Hs. rewrite !foot_fill. cbn [kfoot]. rewrite foot_paint.
        solve_Permutation.
      * exact Hp2.
      * lia.
      * exists h2. split; [|done].
        apply bind_inv in Hrun as ([] & s1 & H1 & Hrun).
        apply bind_inv in Hrun as ([] & s2 & H2 & H3).
        crun ltac:(exact H1). crun ltac:(exact H2). crun ltac:(exact H3). exact Hf.
    + destruct Hrot as (h' & Hrun & Hk' & Ht'). exists h'. split.
      * by destruct gdir.
      * by apply (proj1 (rep_plug _ k _)).
Qed.

(** ** The search loop *)

Definition with_arrays (n : list ptr) (d : list Z) (st : RBTree) : RBTree :=
  with_drcts d (with_nodes n st).

Definition arrays_ok (n : list ptr) (d : list Z) : Prop :=
  length n = MAX_TREE_HEIGHT /\ length d = MAX_TREE_HEIGHT.

(** The state after a successful [NEW_TREE_NODE]. *)
Definition new_node (st : RBTree) : RBTree :=
  let free' := u32 (freeNodeCounter st - 1) in
  mkRBTree (heap st) (Some (memaddr st)) (count st) (treeNodeSize st) (nodeDataSize st)
    (memoryLimit st) (u32 (memaddr st + treeNodeSize st))
    (if free' =? 0 then 1 else memoryIsFull st) free' (nNodesLimit st)
    (nd st) (nm st) (drcts st) (nodes st).

Definition fits (st : RBTree) : Prop := memaddr st + treeNodeSize st <= memoryLimit st.

Lemma NEW_TREE_NODE_run st : fits st -> NEW_TREE_NODE st = Some (tt, new_node st).
Proof. unfold fits, NEW_TREE_NODE. intros H. by destruct (Z.leb_spec (memaddr st + treeNodeSize st) (memoryLimit st)); [|lia]. Qed.

Lemma set_path_run st k a dir c d o :
  on_path st k -> arrays_ok (nodes st) (drcts st) -> (S (length k) < MAX_TREE_HEIGHT)%nat ->
  exists n' d', set_path (S (length k)) (Some a) (b2z dir) st = Some (tt, with_arrays n' d' st)
    /\ arrays_ok n' d' /\ on_path (with_arrays n' d' st) (F a dir c d o :: k).
Proof.
  intros [[rn Hn] [rd Hd]] [Ln Ld] Hk. unfold set_path.
  rewrite Ln, Ld, (proj2 (Nat.ltb_lt _ _) Hk). cbn [andb].
  eexists _, _. split; [reflexivity|]. split; [split; by rewrite length_insert|].
  rewrite Hn in Ln |- *. rewrite Hd in Ld |- *.
  rewrite length_app, length_knodes in Ln. rewrite length_app, length_kdrcts in Ld.
  destruct rn as [|x rn]; [simpl in Ln; lia|]. destruct rd as [|y rd]; [simpl in Ld; lia|].
  split; cbn [nodes drcts with_arrays with_drcts with_nodes knodes kdrcts].
  - exists rn. rewrite <- (length_knodes k), insert_app_r_alt, Nat.sub_diag by lia.
    by rewrite <- app_assoc.
  - exists rd. rewrite <- (length_kdrcts k), insert_app_r_alt, Nat.sub_diag by lia.
    by rewrite <- app_assoc.
Qed.

Definition descend_post (st : RBTree) (attrs : row) (t : tree) (k : ctx)
    (res : option (descent * RBTree)) : Prop :=
  match ins_search (nd st) (nm st) attrs t k with
  | inl t' => exists h n d, res = Some (Merged, with_heap h (with_arrays n d st))
      /\ arrays_ok n d /\ repk h [] (addr t') /\ rep h t'
  | inr k' => exists h n d, let st' := with_heap h (with_arrays n d (new_node st)) in
      res = Some (Fresh (Some (memaddr st)) (S (length k')), st')
      /\ arrays_ok n d /\ on_path st' k' /\ repk h k' (Some (memaddr st))
  end.

(** A leaf below the node [a]: the new node is linked there. *)
Lemma link_leaf_run st a (dir : bool) c d o k n0 :
  fits st -> on_path st (F a dir c d o :: k) -> arrays_ok (nodes st) (drcts st) ->
  repk (heap st) (F a dir c d o :: k) NULL -> NoDup (ROOT :: kfoot (F a dir c d o :: k)) ->
  heap st !! a = Some n0 ->
  exists h, (NEW_TREE_NODE ;;; mp <- gets mp ;;
             (if dir then store (set_right mp) (Some a) else store (set_left mp) (Some a)) ;;;
             ret (Fresh mp (S (S (length k))))) st
      = Some (Fresh (Some (memaddr st)) (S (S (length k))),
              with_heap h (with_arrays (nodes st) (drcts st) (new_node st)))
    /\ repk h (F a dir c d o :: k) (Some (memaddr st)).
Proof.
  intros Hfit Hp Ha Hk Hnd Hl.
  exists (<[a := relink dir (Some (memaddr st)) n0]> (heap st)). split.
  - crun ltac:(by apply NEW_TREE_NODE_run). unfold gets at 1. cbn [bind mp new_node].
    destruct dir; crun ltac:(eapply store_run; exact Hl); done.
  - apply (repk_relink (heap st) (F a dir c d o :: k) NULL); done.
Qed.

Lemma separate_fill_l k a l c d r :
  separate k (T a l c d r) -> separate (F a false c d r :: k) l.
Proof. apply separate_perm. cbn [foot kfoot]. solve_Permutation. Qed.

Lemma separate_fill_r k a l c d r :
  separate k (T a l c d r) -> separate (F a true c d l :: k) r.
Proof. apply separate_perm. cbn [foot kfoot]. solve_Permutation. Qed.

Lemma separate_ctx k t : separate k t -> NoDup (ROOT :: kfoot k).
Proof. unfold separate. rewrite !NoDup_cons, NoDup_app, not_elem_of_app. tauto. Qed.

Definition descends (attrs : row) (fuel : nat) (t : tree) : Prop := forall k st,
  t <> E -> fits st -> repk (heap st) k (addr t) -> rep (heap st) t -> separate k t ->
  on_path st k -> arrays_ok (nodes st) (drcts st) ->
  (length k + height t < MAX_TREE_HEIGHT)%nat ->
  descend_post st attrs t k (descend fuel attrs (addr t) (S (length k)) st).

(** One round of the search loop that goes to a child. *)
Lemma descend_step attrs fuel a l c d r (dir : bool) k st :
  let t' := if dir then r else l in
  let o := if dir then l else r in
  descends attrs fuel t' -> fits st -> repk (heap st) k (Some a) ->
  rep (heap st) (T a l c d r) -> separate k (T a l c d r) ->
  on_path st k -> arrays_ok (nodes st) (drcts st) ->
  (length k + height (T a l c d r) < MAX_TREE_HEIGHT)%nat ->
  ins_search (nd st) (nm st) attrs (T a l c d r) k
    = ins_search (nd st) (nm st) attrs t' (F a dir c d o :: k) ->
  descend_post st attrs (T a l c d r) k
    ((set_path (S (length k)) (Some a) (b2z dir) ;;;
      yNd <- load (if dir then right else left) (Some a) ;;
      match yNd with
      | None => NEW_TREE_NODE ;;; mp <- gets mp ;;
                (if dir then store (set_right mp) (Some a) else store (set_left mp) (Some a)) ;;;
                ret (Fresh mp (S (S (length k))))
      | Some _ => descend fuel attrs yNd (S (S (length k)))
      end) st).
Proof.
  intros t' o IH Hfit Hk (Ha & Hl & Hr) Hs Hp Harr Hh Hsearch.
  assert (Hrep : rep (heap st) t' /\ rep (heap st) o) by (by destruct dir).
  destruct Hrep as [Hrt Hro].
  assert (Hk' : repk (heap st) (F a dir c d o :: k) (addr t')).
  { cbn [repk]. destruct dir; auto. }
  assert (Hs' : separate (F a dir c d o :: k) t').
  { destruct dir; [by apply separate_fill_r|by apply separate_fill_l]. }
  cbn [height] in Hh.
  destruct (set_path_run st k a dir c d o Hp Harr) as (n1 & d1 & Hset & Harr1 & Hp1); [lia|].
  crun ltac:(exact Hset).
  assert (Hload : load (if dir then right else left) (Some a) (with_arrays n1 d1 st)
                  = Some (addr t', with_arrays n1 d1 st)).
  { erewrite load_run by exact Ha. by destruct dir. }
  assert (Hh' : (length (F a dir c d o :: k) + height t' < MAX_TREE_HEIGHT)%nat).
  { subst t'. cbn [length]. destruct dir; lia. }
  crun ltac:(exact Hload). unfold descend_post. rewrite Hsearch.
  clearbody t' o. destruct t' as [|b tl cb db tr]; cbn [addr].
  - cbn [ins_search].
    destruct (link_leaf_run (with_arrays n1 d1 st) a dir c d o k
      (Node (addr l) (addr r) c d) Hfit Hp1 Harr1 Hk' (separate_ctx _ _ Hs') Ha)
      as (h & Hrun & Hkh).
    exists h, n1, d1. split; [exact Hrun|]. done.
  - by apply (IH (F a dir c d o :: k) (with_arrays n1 d1 st)).
Qed.

(** The round of the search loop that finds the key. *)
Lemma descend_found attrs a l c d r k st :
  repk (heap st) k (Some a) -> rep (heap st) (T a l c d r) -> separate k (T a l c d r) ->
  let h := <[a := Node (addr l) (addr r) c (merge_row (nm st) d attrs)]> (heap st) in
  let t' := plug k (T a l c (merge_row (nm st) d attrs) r) in
  repk h [] (addr t') /\ rep h t'.
Proof.
  intros Hk (Ha & Hl & Hr) Hs h t'.
  apply (proj1 (rep_plug _ k _)). unfold separate in Hs. cbn [foot] in Hs.
  split_nodup Hs. cbn [addr rep]. split; [|split_and!].
  - apply repk_frame; [set_solver|set_solver|done].
  - by apply lookup_insert_eq.
  - by apply rep_frame.
  - by apply rep_frame.
Qed.

(** The search loop computes [ins_search], links a new node at a leaf and
    leaves the path of the new node in the arrays. *)
Lemma descend_refines attrs t : forall fuel, (height t <= fuel)%nat -> descends attrs fuel t.
Proof.
  induction t as [|a l IHl c d r IHr]; intros fuel Hf k st HE Hfit Hk Ht Hs Hp Harr Hh; [done|].
  cbn [height] in Hf. destruct fuel as [|fuel]; [lia|].
  assert (Ha := proj1 Ht).
  cbn [descend]. unfold gets at 1 2. cbn [bind addr].
  crun ltac:(eapply load_run; exact Ha). cbn [nodeMemPool].
  destruct (KeyComp (ks attrs) (ks d) (nd st) <? 0) eqn:Hc;
    [|destruct (0 <? KeyComp (ks attrs) (ks d) (nd st)) eqn:Hc'].
  - apply (descend_step attrs fuel a l c d r false); auto; [apply IHl; lia|].
    cbn [ins_search]. by rewrite Hc.
  - apply (descend_step attrs fuel a l c d r true); auto; [apply IHr; lia|].
    cbn [ins_search]. by rewrite Hc, Hc'.
  - unfold descend_post. cbn [ins_search]. rewrite Hc, Hc'.
    crun ltac:(eapply store_run; exact Ha).
    exists (<[a := Node (addr l) (addr r) c (merge_row (nm st) d attrs)]> (heap st)),
      (nodes st), (drcts st).
    split; [by destruct st|]. split; [done|]. by apply descend_found.
Qed.
