(* ===== verification/RBSpec.v ===== *)
(** * Invariant and specification of the red-black tree

    [rbt_inv] ties a state of the C tree to the functional tree it
    represents, the pool accounting included.  [TreeInsert] preserves it,
    never faults while a node is free, and acts on the in-order sequence as
    [agg_insert]. *)

From Stdlib Require Import ZArith Lia Sorted.
From stdpp Require Import base gmap numbers option list.
From S2P Require Import Prelude Rows RBTree RBShape RBRefine.

Open Scope cmd_scope.

Definition MAX_NUM_OF_DIMS : nat := 20.
Definition MAX_NUM_OF_MEAS : nat := 4.

(** The shapes of views the benchmark works with. *)
Definition dims_ok (nd nm : nat) : Prop :=
  (1 <= nd <= MAX_NUM_OF_DIMS)%nat /\ (nm <= MAX_NUM_OF_MEAS)%nat.

Record rbt_inv (st : RBTree) (t : tree) : Prop := {
  inv_root : repk (heap st) [] (addr t);
  inv_rep : rep (heap st) t;
  inv_sep : separate [] t;
  inv_tree : tree_ok (nd st) (nm st) t;
  inv_arrays : arrays_ok (nodes st) (drcts st);
  inv_foot : Forall (fun a => 0 <= a < memaddr st) (foot t);
  inv_dims : dims_ok (nd st) (nm st);
  inv_nodesize : treeNodeSize st = tree_node_size (nd st) (nm st);
  inv_limit : 0 <= memoryLimit st < 2 ^ 32;
  inv_nodes : nNodesLimit st = memoryLimit st / treeNodeSize st;
  inv_count : count st = Z.of_nat (size t);
  inv_memaddr : memaddr st = count st * treeNodeSize st;
  inv_free : freeNodeCounter st = nNodesLimit st - count st;
  inv_bound : 0 <= freeNodeCounter st;
  inv_full : memoryIsFull st = (if (0 <? count st) && (freeNodeCounter st =? 0) then 1 else 0)
}.

(** ** Arithmetic of the pool *)

Lemma tree_node_size_bounds nd nm :
  dims_ok nd nm -> 32 <= tree_node_size nd nm <= 144 /\
    24 + (DIM_FSZ * Z.of_nat nd + MSR_FSZ * Z.of_nat nm) <= tree_node_size nd nm.
Proof.
  unfold dims_ok, tree_node_size, sizeof_treeNode, DIM_FSZ, MSR_FSZ, MAX_NUM_OF_DIMS,
    MAX_NUM_OF_MEAS. intros [? ?].
  rewrite (wrapu_id 32) by (unfold in_u; lia).
  destruct (negb _); [rewrite (wrapu_id 32) by (unfold in_u; lia)|]; lia.
Qed.

Lemma rbt_inv_nodes_bound st t : rbt_inv st t -> 0 <= nNodesLimit st <= 2 ^ 27.
Proof.
  intros []. rewrite inv_nodes0.
  destruct (tree_node_size_bounds _ _ inv_dims0) as [[H1 H2] _].
  split; [apply Z.div_pos; lia|].
  apply Z.div_le_upper_bound; lia.
Qed.

Lemma rbt_inv_fits st t : rbt_inv st t -> 0 < freeNodeCounter st -> fits st.
Proof.
  intros [] H. unfold fits. rewrite inv_memaddr0.
  destruct (tree_node_size_bounds _ _ inv_dims0) as [[H1 H2] _].
  rewrite <- inv_nodesize0 in *.
  pose proof (Z.mul_div_le (memoryLimit st) (treeNodeSize st)). rewrite <- inv_nodes0 in *. nia.
Qed.

(** The pool holds fewer than [2^27] nodes, so no path is longer than 54. *)
Lemma rbt_inv_height st t : rbt_inv st t -> 0 < freeNodeCounter st -> (height t <= 54)%nat.
Proof.
  intros Hinv Hf. pose proof (rbt_inv_nodes_bound _ _ Hinv) as Hb. destruct Hinv.
  destruct (tok_rb _ _ _ inv_tree0) as [n Hn].
  apply (rb_log_height t n 27 Hn).
  apply Nat2Z.inj_lt. rewrite Nat2Z.inj_pow. change (Z.of_nat 2 ^ Z.of_nat 27) with (2 ^ 27). lia.
Qed.

Lemma root_not_foot st t : rbt_inv st t -> memaddr st ∉ foot t /\ memaddr st <> ROOT.
Proof.
  intros Hi. destruct Hi. split.
  - intros H. rewrite Forall_forall in inv_foot0. apply inv_foot0 in H. lia.
  - destruct (tree_node_size_bounds _ _ inv_dims0) as [[H1 H2] _].
    rewrite inv_memaddr0, inv_count0. unfold ROOT. nia.
Qed.

(** ** The steps of [TreeInsert] on the invariant *)

Lemma separate_of_foot st t a t' :
  rbt_inv st t -> a ∉ foot t -> a <> ROOT -> foot t' ≡ₚ a :: foot t -> separate [] t'.
Proof.
  intros [] Ha HR Hf. unfold separate in *. cbn [kfoot] in *. rewrite app_nil_r in *.
  rewrite Hf. rewrite !NoDup_cons in *. set_solver.
Qed.

(** A new node: the pool accounting after [NEW_TREE_NODE] and [count++]. *)
Lemma rbt_inv_alloc st t t' h n d :
  rbt_inv st t -> 0 < freeNodeCounter st -> arrays_ok n d ->
  repk h [] (addr t') -> rep h t' -> tree_ok (nd st) (nm st) t' ->
  foot t' ≡ₚ memaddr st :: foot t ->
  rbt_inv (with_heap h (with_arrays n d (incr_count (new_node st)))) t'.
Proof.
  intros Hi Hfree Harr Hk Hr Ht Hf.
  pose proof (rbt_inv_fits _ _ Hi Hfree) as Hfit. unfold fits in Hfit.
  pose proof (rbt_inv_nodes_bound _ _ Hi) as Hn.
  destruct (root_not_foot _ _ Hi) as [Hnf HnR].
  pose proof (separate_of_foot _ _ _ _ Hi Hnf HnR Hf) as Hsep.
  assert (Hsz : size t' = S (size t)).
  { rewrite <- !length_foot. by rewrite Hf. }
  destruct Hi. destruct (tree_node_size_bounds _ _ inv_dims0) as [[H1 H2] _].
  rewrite <- inv_nodesize0 in *.
  assert (0 <= memaddr st) by (rewrite inv_memaddr0, inv_count0; nia).
  constructor; cbn [heap nodes drcts nd nm memaddr memoryLimit nNodesLimit treeNodeSize count
    freeNodeCounter memoryIsFull with_heap with_arrays with_drcts with_nodes incr_count new_node];
    auto; rewrite ?(wrapu_id 32) by (unfold in_u; lia); try lia.
  - rewrite Hf. constructor; [lia|]. eapply Forall_impl; [apply inv_foot0|]. intros; simpl in *; lia.
  - rewrite inv_full0.
    destruct (Z.ltb_spec 0 (count st)), (Z.ltb_spec 0 (count st + 1)),
      (Z.eqb_spec (freeNodeCounter st) 0), (Z.eqb_spec (freeNodeCounter st - 1) 0);
      simpl; lia.
Qed.

(** No new node: only the contents and the path arrays change. *)
Lemma rbt_inv_update st t t' h n d :
  rbt_inv st t -> arrays_ok n d -> repk h [] (addr t') -> rep h t' ->
  tree_ok (nd st) (nm st) t' -> foot t' = foot t -> size t' = size t ->
  rbt_inv (with_heap h (with_arrays n d st)) t'.
Proof.
  intros [] Harr Hk Hr Ht Hf Hs. unfold separate in *.
  constructor; cbn [heap nodes drcts nd nm memaddr memoryLimit nNodesLimit treeNodeSize count
    freeNodeCounter memoryIsFull with_heap with_arrays with_drcts with_nodes]; auto;
    unfold separate; rewrite ?Hf, ?Hs; auto.
Qed.

Lemma set_path_root_run st :
  arrays_ok (nodes st) (drcts st) ->
  exists n d, set_path 0 (Some ROOT) 0 st = Some (tt, with_arrays n d st)
    /\ arrays_ok n d /\ on_path (with_arrays n d st) [].
Proof.
  intros [Ln Ld]. unfold set_path. rewrite Ln, Ld. cbn [Nat.ltb Nat.leb andb MAX_TREE_HEIGHT].
  eexists _, _. split; [reflexivity|].
  destruct (nodes st) as [|x ns]; [discriminate|]. destruct (drcts st) as [|y ds]; [discriminate|].
  split; [done|]. split; cbn; [by exists ns|by exists ds].
Qed.

(** The first node. *)
Lemma TreeInsert_empty st attrs :
  rbt_inv st E -> 0 < freeNodeCounter st -> row_ok (nd st) (nm st) attrs ->
  exists h, TreeInsert attrs st
      = Some (0, with_heap h (with_arrays (nodes st) (drcts st) (incr_count (new_node st))))
    /\ repk h [] (Some (memaddr st)) /\ rep h (T (memaddr st) E BLACK attrs E).
Proof.
  intros Hi Hfree Hrow. pose proof (rbt_inv_fits _ _ Hi Hfree) as Hfit.
  destruct (root_not_foot _ _ Hi) as [_ HnR]. destruct Hi.
  destruct inv_root0 as (n & Hn & Hl). cbn [addr] in Hl.
  unfold TreeInsert. crun ltac:(eapply load_run; exact Hn). rewrite Hl.
  unfold modify at 1. cbn [bind].
  crun ltac:(apply NEW_TREE_NODE_run; exact Hfit). unfold gets at 1. cbn [bind mp new_node incr_count].
  crun ltac:(eapply store_run; exact Hn). cbn [memaddr incr_count].
  eexists. split; [unfold init_node; cbn [bind]; unfold ret; reflexivity|].
  cbn [heap with_heap nd nm]. rewrite copy_row_id by exact Hrow.
  split.
  - eexists. rewrite lookup_insert_ne by done. rewrite lookup_insert_eq. done.
  - cbn [rep addr]. by rewrite lookup_insert_eq.
Qed.

(** Rebalancing after a new red node was linked, and blackening the top. *)
Lemma insert_fresh_run st k a attrs :
  repk (heap st) k (Some a) -> on_path st k -> row_ok (nd st) (nm st) attrs ->
  separate k (T a E RED attrs E) ->
  let t' := fix_up (T a E RED attrs E) k in
  exists h, (modify incr_count ;;;
             init_node (Some a) attrs RED ;;;
             fixup (S (length k)) (S (length k)) ;;;
             top <- load left (Some ROOT) ;;
             store (set_clr BLACK) top ;;;
             ret 0) st = Some (0, with_heap h (incr_count st))
    /\ repk h [] (addr (paint BLACK t')) /\ rep h (paint BLACK t').
Proof.
  intros Hk Hp Hrow Hs t'. unfold modify at 1. cbn [bind].
  unfold init_node. cbn [bind heap incr_count nd nm]. rewrite copy_row_id by exact Hrow.
  pose proof Hs as Hs'. unfold separate in Hs'. cbn [foot app] in Hs'. split_nodup Hs'.
  set (st1 := with_heap (<[a:=Node NULL NULL RED attrs]> (heap st)) (incr_count st)).
  destruct (fixup_refines k (T a E RED attrs E) st1 (S (length k))) as (h & Hf & Hk' & Hr');
    [done|..|exact Hs|exact Hp|lia|].
  { apply repk_frame; [set_solver|set_solver|exact Hk]. }
  { cbn [rep addr st1 heap with_heap]. by rewrite lookup_insert_eq. }
  crun ltac:(exact Hf). fold t' in Hk', Hr'.
  destruct Hk' as (n & Hn & Hl). crun ltac:(eapply load_run; exact Hn). rewrite Hl.
  assert (Hft : foot t' ≡ₚ a :: kfoot k).
  { unfold t'. rewrite foot_fix_up, foot_plug by done. done. }
  destruct t' as [|b tl cb db tr]; [apply Permutation_nil_cons in Hft as []|].
  assert (Hnd : NoDup (ROOT :: foot (T b tl cb db tr))).
  { rewrite Hft. exact Hs. }
  cbn [rep foot addr] in *. destruct Hr' as (Hb & Htl & Htr). split_nodup Hnd.
  crun ltac:(eapply store_run; exact Hb).
  eexists. split; [reflexivity|]. cbn [paint addr rep heap with_heap set_clr].
  assert (b <> ROOT) by set_solver. split; [|split_and!].
  - exists n. by rewrite lookup_insert_ne.
  - by rewrite lookup_insert_eq.
  - by apply rep_frame.
  - by apply rep_frame.
Qed.

Lemma TreeInsert_node st t attrs :
  t <> E -> rbt_inv st t -> 0 < freeNodeCounter st -> row_ok (nd st) (nm st) attrs ->
  match ins_search (nd st) (nm st) attrs t [] with
  | inl t' => exists h n d, TreeInsert attrs st = Some (0, with_heap h (with_arrays n d st))
      /\ arrays_ok n d /\ repk h [] (addr t') /\ rep h t'
  | inr k => let t' := paint BLACK (fix_up (T (memaddr st) E RED attrs E) k) in
      exists h n d, TreeInsert attrs st
          = Some (0, with_heap h (with_arrays n d (incr_count (new_node st))))
        /\ arrays_ok n d /\ repk h [] (addr t') /\ rep h t'
  end.
Proof.
  intros HE Hi Hfree Hrow. pose proof (rbt_inv_fits _ _ Hi Hfree) as Hfit.
  pose proof (rbt_inv_height _ _ Hi Hfree) as Hh.
  destruct (root_not_foot _ _ Hi) as [Hnf HnR]. destruct Hi.
  pose proof inv_root0 as (n & Hn & Hl).
  destruct (set_path_root_run st inv_arrays0) as (n1 & d1 & Hset & Harr1 & Hp1).
  destruct inv_tree0 as [Hok Hsort _].
  pose proof (ins_search_spec (nd st) (nm st) attrs t [] Hrow Hok Hsort
    (conj (Forall_nil_2 _) (Forall_nil_2 _))) as Hspec.
  pose proof (descend_refines attrs t MAX_TREE_HEIGHT ltac:(unfold MAX_TREE_HEIGHT; lia)
    [] (with_arrays n1 d1 st) HE Hfit inv_root0 inv_rep0 inv_sep0 Hp1 Harr1
    ltac:(cbn [length]; unfold MAX_TREE_HEIGHT; lia)) as Hd.
  unfold TreeInsert. crun ltac:(eapply load_run; exact Hn). rewrite Hl.
  destruct t as [|b tl cb db tr]; [done|]. cbn [addr].
  crun ltac:(exact Hset).
  unfold descend_post in Hd. cbn [nd nm with_arrays with_drcts with_nodes length addr] in Hd.
  destruct (ins_search (nd st) (nm st) attrs (T b tl cb db tr) []) as [t'|k].
  - destruct Hd as (h & n2 & d2 & Hrun & Harr2 & Hk & Hr).
    exists h, n2, d2. crun ltac:(exact Hrun). done.
  - destruct Hd as (h & n2 & d2 & Hrun & Harr2 & Hp & Hk). crun ltac:(exact Hrun).
    destruct Hspec as [Hplug _]. cbn [plug] in Hplug.
    assert (Hft : foot (T b tl cb db tr) ≡ₚ kfoot k).
    { rewrite <- Hplug, foot_plug. done. }
    destruct (insert_fresh_run (with_heap h (with_arrays n2 d2 (new_node st))) k
      (memaddr st) attrs Hk Hp Hrow) as (h' & Hrun' & Hk' & Hr').
    { unfold separate in inv_sep0 |- *. cbn [kfoot] in inv_sep0. rewrite app_nil_r in inv_sep0.
      cbn [foot app]. rewrite Hft in inv_sep0, Hnf. rewrite !NoDup_cons, not_elem_of_cons in *.
      intuition congruence. }
    exists h', n2, d2. done.
Qed.

(** [TreeInsert] on a tree with a free node. *)
Lemma TreeInsert_inv st t attrs :
  rbt_inv st t -> 0 < freeNodeCounter st -> row_ok (nd st) (nm st) attrs ->
  exists st', TreeInsert attrs st = Some (0, st')
    /\ rbt_inv st' (ins (nd st) (nm st) attrs (memaddr st) t)
    /\ nd st' = nd st /\ nm st' = nm st /\ memoryLimit st' = memoryLimit st.
Proof.
  intros Hi Hfree Hrow.
  pose proof (ins_tree_ok _ _ _ (memaddr st) _ Hrow (inv_tree _ _ Hi)) as Hok.
  assert (t = E \/ t <> E) as [->|HE] by (destruct t; [by left|by right]).
  - destruct (TreeInsert_empty _ _ Hi Hfree Hrow) as (h & Hrun & Hk & Hr).
    eexists. split; [exact Hrun|]. split; [|done].
    apply (rbt_inv_alloc st E); auto. apply Hi.
  - pose proof (TreeInsert_node _ _ _ HE Hi Hfree Hrow) as H.
    pose proof (ins_search_spec (nd st) (nm st) attrs t [] Hrow
      (tok_rows _ _ _ (inv_tree _ _ Hi)) (tok_sorted _ _ _ (inv_tree _ _ Hi))
      (conj (Forall_nil_2 _) (Forall_nil_2 _))) as Hspec.
    unfold ins in Hok |- *. destruct t as [|b tl cb db tr]; [done|].
    destruct (ins_search (nd st) (nm st) attrs (T b tl cb db tr) []) as [t'|k].
    + destruct H as (h & n & d & Hrun & Harr & Hk & Hr).
      eexists. split; [exact Hrun|]. split; [|done].
      destruct Hspec as (_ & Hf & Hs & _). by eapply rbt_inv_update.
    + destruct H as (h & n & d & Hrun & Harr & Hk & Hr).
      eexists. split; [exact Hrun|]. split; [|done].
      eapply rbt_inv_alloc; eauto. destruct Hspec as [Hplug _]. cbn [plug] in Hplug.
      rewrite foot_paint, foot_fix_up, foot_plug, <- Hplug, foot_plug by done. done.
Qed.
