(* ===== verification/ViewFiles.v ===== *)
(** * Writing a tree to a file: the traversals of DC/rbt.c

    [WriteViewToDisk], [WriteViewToDiskCS], [computeChecksum] and
    [WriteChunkToDisk] walk the tree in order and stop at the first failing
    write.  They share the recursion, which is [walk]; what each of them does
    at a node is its own visit function.

    A file is the rows written to it so far and the number of further rows
    the device accepts: [fwrite] fails when there is no space. *)

From Stdlib Require Import ZArith Lia Sorted.
From stdpp Require Import base gmap numbers option list.
From S2P Require Import Prelude Rows RBTree RBShape RBRefine RBSpec.

Definition ADC_OK : Z := 0.
Definition ADC_WRITE_FAILED : Z := 1.
Definition ADC_INTERNAL_ERROR : Z := 2.
Definition measbound : Z := 31415.

Record FILE := mkFILE { frows : list row; fspace : nat }.

(** [fwrite(ptr, size, 1, stream)]: the number of items written. *)
Definition fwrite (r : row) (f : FILE) : Z * FILE :=
  match fspace f with
  | O => (0, f)
  | S n => (1, mkFILE (frows f ++ [r]) n)
  end.

(** [WriteToFile(ptr, size, 1, stream, logf)] as a return code. *)
Definition WriteToFile (r : row) (f : FILE) : Z * FILE :=
  let '(n, f') := fwrite r f in
  (if n =? 1 then ADC_OK else ADC_WRITE_FAILED, f').

(** [for (i = 0; i < nm; i++) checksums[i] += (++( *ordern)) * data[i] % measbound]:
    the product and the remainder are taken in [uint64]. *)
Fixpoint add_checksums (nm : nat) (cs data : list Z) (ordern : Z) : list Z * Z :=
  match nm, cs, data with
  | S nm', c :: cs', x :: data' =>
      let ordern' := u64 (ordern + 1) in
      let c' := s64 (c + u64 (ordern' * u64 x) mod measbound) in
      let '(cs'', o) := add_checksums nm' cs' data' ordern' in (c' :: cs'', o)
  | _, _, _ => (cs, ordern)
  end.

(** The part of [ADC_VIEW_CNTL] the traversals update. *)
Record sums := mkSums { mSums : list Z; checksums : list Z }.

(** ** The walk *)

Section Walk.
Context {S : Type} (visit : row -> S -> Z * S).

Fixpoint walk (fuel : nat) (h : gmap Z treeNode) (t : ptr) (s : S) : option (Z * S) :=
  match t with
  | None => Some (ADC_OK, s)
  | Some a =>
      match fuel with
      | O => None
      | Datatypes.S fuel' =>
          match h !! a with
          | None => None
          | Some n =>
              match walk fuel' h (left n) s with
              | None => None
              | Some (rc, s1) =>
                  if negb (rc =? 0) then Some (ADC_WRITE_FAILED, s1)
                  else
                    let '(rc, s2) := visit (nodeMemPool n) s1 in
                    if negb (rc =? 0) then Some (ADC_WRITE_FAILED, s2)
                    else
                      match walk fuel' h (right n) s2 with
                      | None => None
                      | Some (rc, s3) =>
                          Some (if negb (rc =? 0) then ADC_WRITE_FAILED else ADC_OK, s3)
                      end
              end
          end
      end
  end.

(** Visiting a list of rows, up to the first failure. *)
Fixpoint visit_all (l : list row) (s : S) : Z * S :=
  match l with
  | [] => (ADC_OK, s)
  | r :: l' =>
      let '(rc, s') := visit r s in
      if negb (rc =? 0) then (ADC_WRITE_FAILED, s') else visit_all l' s'
  end.

Lemma visit_all_rc l s : fst (visit_all l s) = ADC_OK \/ fst (visit_all l s) = ADC_WRITE_FAILED.
Proof.
  revert s; induction l as [|r l IH]; intros s; simpl; [by left|].
  destruct (visit r s) as [rc s']. destruct (negb (rc =? 0)); [by right|apply IH].
Qed.

Lemma visit_all_app l1 l2 s :
  visit_all (l1 ++ l2) s =
  let '(rc, s') := visit_all l1 s in
  if negb (rc =? 0) then (ADC_WRITE_FAILED, s') else visit_all l2 s'.
Proof.
  revert s; induction l1 as [|r l1 IH]; intros s; simpl; [done|].
  destruct (visit r s) as [rc s']. by destruct (negb (rc =? 0)).
Qed.

(** The walk visits the rows of the tree in key order. *)
Lemma walk_spec h t : forall fuel s,
  rep h t -> (height t <= fuel)%nat -> walk fuel h (addr t) s = Some (visit_all (inorder t) s).
Proof.
  induction t as [|a l IHl c d r IHr]; intros fuel s Hr Hf; [by destruct fuel|].
  cbn [height] in Hf. destruct fuel as [|fuel]; [lia|].
  destruct Hr as (Ha & Hl & Hr). cbn [addr walk]. rewrite Ha. cbn [left right nodeMemPool].
  rewrite (IHl fuel s Hl ltac:(lia)). cbn [inorder]. rewrite visit_all_app.
  destruct (visit_all (inorder l) s) as [rc s1]. destruct (negb (rc =? 0)) eqn:E1; [done|].
  cbn [visit_all]. destruct (visit d s1) as [rc2 s2].
  destruct (negb (rc2 =? 0)); [done|].
  rewrite (IHr fuel s2 Hr ltac:(lia)).
  pose proof (visit_all_rc (inorder r) s2) as Hrc.
  destruct (visit_all (inorder r) s2) as [rc3 s3]. simpl in Hrc.
  by destruct Hrc as [->| ->].
Qed.
End Walk.

(** ** The interface of the tree

    What the external sort uses of a tree of rows: insertion, the reset of
    [InitializeTree], the two fields [memoryIsFull] and [count] it reads, and
    the in-order walk from [root.left].  [rt_inv nd nm t l] says that [t]
    holds the rows [l] in key order. *)

Class RowTree (T : Type) := {
  rt_insert : row -> T -> option (Z * T);
  rt_init : nat -> nat -> T -> T;
  rt_full : T -> Z;
  rt_count : T -> Z;
  rt_walk : forall S : Type, (row -> S -> Z * S) -> T -> S -> option (Z * S);
  rt_wf : T -> Prop;
  rt_inv : nat -> nat -> T -> list row -> Prop
}.
Arguments rt_walk {T _ S}.

Class RowTreeLaws (T : Type) `{RowTree T} := {
  rt_inv_wf nd nm t l : rt_inv nd nm t l -> rt_wf t;
  rt_inv_rows nd nm t l : rt_inv nd nm t l -> Forall (row_ok nd nm) l /\ view_sorted nd l;
  rt_init_inv nd nm t : rt_wf t -> dims_ok nd nm -> rt_inv nd nm (rt_init nd nm t) [];
  rt_init_empty nd nm t : rt_full (rt_init nd nm t) = 0;
  rt_insert_inv nd nm t l r :
    rt_inv nd nm t l -> rt_full t = 0 -> row_ok nd nm r ->
    exists t', rt_insert r t = Some (0, t') /\ rt_inv nd nm t' (agg_insert nd nm r l);
  rt_count_inv nd nm t l : rt_inv nd nm t l -> rt_count t = Z.of_nat (length l);
  rt_bytes nd nm t l : rt_inv nd nm t l ->
    Z.of_nat (length l) * (DIM_FSZ * Z.of_nat nd + MSR_FSZ * Z.of_nat nm) < 2 ^ 32;
  rt_walk_inv nd nm t l S (visit : row -> S -> Z * S) s :
    rt_inv nd nm t l -> rt_walk visit t s = Some (visit_all visit l s)
}.

(** ** The red-black tree implements the interface *)

(** The pool has room for a node of any shape. *)
Definition pool_wf (st : RBTree) : Prop :=
  arrays_ok (nodes st) (drcts st) /\ 144 <= memoryLimit st < 2 ^ 32.

Definition rbt_walk (S : Type) (visit : row -> S -> Z * S) (t : RBTree) (s : S) :
    option (Z * S) :=
  match heap t !! ROOT with
  | Some root => walk visit MAX_TREE_HEIGHT (heap t) (left root) s
  | None => None
  end.

#[export] Instance rbt_row_tree : RowTree RBTree := {
  rt_insert := TreeInsert;
  rt_init := InitializeTree;
  rt_full := memoryIsFull;
  rt_count := count;
  rt_walk := rbt_walk;
  rt_wf := pool_wf;
  rt_inv nd' nm' t l := exists tr, rbt_inv t tr /\ nd t = nd' /\ nm t = nm' /\ inorder tr = l
                                   /\ 144 <= memoryLimit t
}.

Lemma InitializeTree_inv nd' nm' st :
  pool_wf st -> dims_ok nd' nm' -> rbt_inv (InitializeTree nd' nm' st) E.
Proof.
  intros [Harr Hlim] Hd. destruct (tree_node_size_bounds _ _ Hd) as [[H1 H2] _].
  unfold InitializeTree.
  constructor; cbn [heap nodes drcts nd nm memaddr memoryLimit nNodesLimit treeNodeSize count
    freeNodeCounter memoryIsFull rep foot size addr]; auto; try lia.
  - eexists. rewrite lookup_singleton_eq. eauto.
  - unfold separate. cbn. apply NoDup_singleton.
  - split; simpl; [constructor|constructor|eauto with rbt].
  - apply Z.div_pos; lia.
Qed.

Lemma rbt_free st t :
  rbt_inv st t -> 144 <= memoryLimit st -> memoryIsFull st = 0 -> 0 < freeNodeCounter st.
Proof.
  intros Hi Hlim Hfull. pose proof (inv_full _ _ Hi) as Hf. rewrite Hfull in Hf.
  pose proof (inv_free _ _ Hi). pose proof (inv_bound _ _ Hi). pose proof (inv_count _ _ Hi).
  destruct (tree_node_size_bounds _ _ (inv_dims _ _ Hi)) as [[? ?] _].
  destruct (Z.ltb_spec 0 (count st)), (Z.eqb_spec (freeNodeCounter st) 0); simpl in *; try lia.
  assert (0 < nNodesLimit st); [|lia].
  rewrite (inv_nodes _ _ Hi), (inv_nodesize _ _ Hi). apply Z.div_str_pos. lia.
Qed.

Lemma length_inorder t : length (inorder t) = size t.
Proof. induction t; simpl; [done|]. rewrite length_app; simpl. lia. Qed.

(** The rows of a full pool, written one after the other, are shorter than the
    pool. *)
Lemma rbt_inv_bytes st t : rbt_inv st t ->
  Z.of_nat (size t) * (DIM_FSZ * Z.of_nat (nd st) + MSR_FSZ * Z.of_nat (nm st)) < 2 ^ 32.
Proof.
  intros Hi. destruct (tree_node_size_bounds _ _ (inv_dims _ _ Hi)) as [[? ?] ?].
  pose proof (inv_limit _ _ Hi). pose proof (inv_bound _ _ Hi).
  pose proof (Z.mul_div_le (memoryLimit st) (treeNodeSize st)).
  rewrite (inv_free _ _ Hi), (inv_nodes _ _ Hi), (inv_count _ _ Hi) in *.
  rewrite (inv_nodesize _ _ Hi) in *. nia.
Qed.

#[export] Instance rbt_row_tree_laws : RowTreeLaws RBTree.
Proof.
  split; cbn.
  - intros nd' nm' st l (tr & Hi & _ & _ & _ & Hl). split; [apply Hi|]. pose proof (inv_limit _ _ Hi). lia.
  - intros nd' nm' st l (tr & Hi & <- & <- & <- & Hl). split; apply (inv_tree _ _ Hi).
  - intros nd' nm' st Hw Hd. exists E. split; [by apply InitializeTree_inv|].
    repeat split. apply Hw.
  - done.
  - intros nd' nm' st l r (tr & Hi & <- & <- & <- & Hl) Hf Hr.
    destruct (TreeInsert_inv st tr r Hi (rbt_free _ _ Hi Hl Hf) Hr)
      as (st' & Hrun & Hi' & Hn & Hm & Hlim).
    exists st'. split; [exact Hrun|]. eexists. split; [exact Hi'|]. rewrite Hn, Hm, Hlim.
    repeat split; [|exact Hl]. by apply ins_inorder; [|apply (inv_tree _ _ Hi)].
  - intros nd' nm' st l (tr & Hi & <- & <- & <- & Hl). rewrite (inv_count _ _ Hi).
    by rewrite length_inorder.
  - intros nd' nm' st l (tr & Hi & <- & <- & <- & Hl). rewrite length_inorder.
    by eapply rbt_inv_bytes.
  - intros nd' nm' st l S visit s (tr & Hi & <- & <- & <- & Hl). unfold rbt_walk.
    destruct (inv_root _ _ Hi) as (n & Hn & Hln). rewrite Hn, Hln.
    apply walk_spec; [apply Hi|].
    pose proof (rbt_inv_nodes_bound _ _ Hi) as Hb.
    destruct (tok_rb _ _ _ (inv_tree _ _ Hi)) as [b Hrb].
    assert (height tr <= 2 * 28)%nat; [|unfold MAX_TREE_HEIGHT; lia].
    eapply rb_log_height; [exact Hrb|]. apply Nat2Z.inj_lt. rewrite Nat2Z.inj_pow.
    change (Z.of_nat 2 ^ Z.of_nat 28) with (2 ^ 28).
    pose proof (inv_bound _ _ Hi). rewrite (inv_free _ _ Hi), (inv_count _ _ Hi) in *. lia.
Qed.

(** ** The four traversals *)

Section Traversals.
Context {T : Type} `{RowTree T} (nm : nat).

Definition WriteViewToDisk (t : T) : sums * FILE -> option (Z * (sums * FILE)) :=
  rt_walk (fun d '(s, f) =>
    let s' := mkSums (add_measures nm (mSums s) (ms d)) (checksums s) in
    let '(rc, f') := WriteToFile d f in (rc, (s', f'))) t.

Definition view_visit (d : row) (st : sums * Z * FILE) : Z * (sums * Z * FILE) :=
  let '(s, ordern, f) := st in
  let m' := add_measures nm (mSums s) (ms d) in
  let '(cs', ordern') := add_checksums nm (checksums s) (ms d) ordern in
  let '(rc, f') := WriteToFile d f in
  (rc, (mkSums m' cs', ordern', f')).

Definition WriteViewToDiskCS (t : T) : sums * Z * FILE -> option (Z * (sums * Z * FILE)) :=
  rt_walk view_visit t.

Definition computeChecksum (t : T) : sums * Z -> option (Z * (sums * Z)) :=
  rt_walk (fun d '(s, ordern) =>
    let '(cs', ordern') := add_checksums nm (checksums s) (ms d) ordern in
    (ADC_OK, (mkSums (mSums s) cs', ordern'))) t.

Definition WriteChunkToDisk (t : T) : FILE -> option (Z * FILE) :=
  rt_walk (fun d f => WriteToFile d f) t.
End Traversals.

(** ** What the traversals write *)

(** Writing a list of rows: everything that fits, and a failure if something
    does not. *)
Definition write_rows (l : list row) (f : FILE) : Z * FILE :=
  (if (length l <=? fspace f)%nat then ADC_OK else ADC_WRITE_FAILED,
   mkFILE (frows f ++ take (fspace f) l) (fspace f - length l)).

Lemma visit_all_write l f : visit_all WriteToFile l f = write_rows l f.
Proof.
  revert f; induction l as [|r l IH]; intros [fr sp]; unfold write_rows in *.
  { simpl. by rewrite take_nil, app_nil_r, Nat.sub_0_r. }
  cbn [visit_all WriteToFile fwrite fspace frows]. unfold WriteToFile, fwrite. cbn [fspace frows].
  destruct sp as [|sp]; cbn; [by rewrite app_nil_r|].
  rewrite IH. cbn [frows fspace take]. by rewrite <- app_assoc.
Qed.

Lemma WriteChunkToDisk_spec {T} `{RowTreeLaws T} nd nm (t : T) l f :
  rt_inv nd nm t l -> WriteChunkToDisk t f = Some (write_rows l f).
Proof.
  intros Hi. unfold WriteChunkToDisk. rewrite (rt_walk_inv nd nm t l) by exact Hi.
  f_equal. apply visit_all_write.
Qed.

(** The sums and the checksums of a view that is written row by row. *)
Fixpoint cs_rows (nm : nat) (l : list row) (cs : list Z) (ordern : Z) : list Z * Z :=
  match l with
  | [] => (cs, ordern)
  | r :: l' => let '(cs', o) := add_checksums nm cs (ms r) ordern in cs_rows nm l' cs' o
  end.

Definition sum_rows (nm : nat) (l : list row) (acc : list Z) : list Z :=
  fold_left (fun m r => add_measures nm m (ms r)) l acc.

(** [write_rows] one row at a time. *)
Lemma write_rows_cons r l f :
  write_rows (r :: l) f =
  match fspace f with
  | O => (ADC_WRITE_FAILED, f)
  | S n => write_rows l (mkFILE (frows f ++ [r]) n)
  end.
Proof.
  destruct f as [fr [|sp]]; unfold write_rows; cbn; [by rewrite app_nil_r|].
  by rewrite <- app_assoc.
Qed.

Lemma visit_all_view nm l : forall s o f, exists s' o',
  visit_all (view_visit nm) l (s, o, f) = (fst (write_rows l f), (s', o', snd (write_rows l f)))
  /\ ((length l <= fspace f)%nat ->
       s' = mkSums (sum_rows nm l (mSums s)) (fst (cs_rows nm l (checksums s) o))).
Proof.
  induction l as [|r l IH]; intros [m c] o [fr sp].
  { exists (mkSums m c), o. unfold write_rows; simpl. by rewrite take_nil, app_nil_r, Nat.sub_0_r. }
  rewrite write_rows_cons. cbn [visit_all view_visit mSums checksums fspace frows] in *.
  cbn [cs_rows]. destruct (add_checksums nm c (ms r) o) as [c' o'].
  unfold WriteToFile, fwrite. cbn [fspace frows].
  destruct sp as [|sp]; cbn [Z.eqb Pos.eqb negb ADC_OK ADC_WRITE_FAILED fst snd].
  { eexists _, _. split; [reflexivity|]. simpl. lia. }
  destruct (IH (mkSums (add_measures nm m (ms r)) c') o' (mkFILE (fr ++ [r]) sp))
    as (s' & o'' & -> & Hs). exists s', o''. split; [done|].
  cbn [length fspace mSums checksums] in *. intros Hl. apply Hs. lia.
Qed.

(** The whole view is written with its sums, or as much of it as fits. *)
Lemma WriteViewToDiskCS_run {T} `{RowTreeLaws T} nd nm (t : T) l s f :
  rt_inv nd nm t l -> exists s' o',
  WriteViewToDiskCS nm t (s, 0, f) = Some (fst (write_rows l f), (s', o', snd (write_rows l f)))
  /\ ((length l <= fspace f)%nat ->
       s' = mkSums (sum_rows nm l (mSums s)) (fst (cs_rows nm l (checksums s) 0))).
Proof.
  intros Hi. unfold WriteViewToDiskCS. rewrite (rt_walk_inv nd nm t l) by exact Hi.
  destruct (visit_all_view nm l s 0 f) as (s' & o' & -> & Hs). eauto.
Qed.
