(* ===== verification/ExtSort.v ===== *)
(** * The external sort of DC/extbuild.c

    [RunFormation] reads the rows of the parent, projects each to the
    selected dimensions and inserts it into the tree; when the pool is full
    the tree is written out as a sorted run ("chunk") and reset.
    [MultiWayMerge] merges the runs, adding up rows with equal keys.  The
    state is the part of [ADC_VIEW_CNTL] these routines touch; the tree is any
    implementation of the interface [RowTree].

    [inpf] is the list of rows from the current position of the input stream;
    [fileOfChunks] holds the rows written since the stream was last rewound
    to its start.  [None] is a memory fault. *)

From Stdlib Require Import ZArith Lia Sorted.
From stdpp Require Import base gmap numbers option list.
From S2P Require Import Prelude Rows RBTree RBSpec ViewFiles.

Definition MAX_NUM_OF_CHUNKS : nat := 1024.

Record CHUNKS := mkCHUNKS {
  curChunkNum : nat;
  chunkOffset : Z;
  posSubChunk : nat;
  curSubChunk : nat
}.

Record ADC_VIEW_CNTL (T : Type) := mkADC {
  a_nm : nat;
  a_nv : nat;
  selection : list nat;
  nRowsToRead : nat;
  outRecSize : Z;
  a_memoryLimit : Z;
  a_tree : T;
  numberOfChunks : nat;
  chunksParams : list CHUNKS;
  fileOfChunks : FILE;
  viewFile : FILE;
  nViewRows : Z;
  totalOfViewRows : Z;
  a_sums : sums
}.
Arguments mkADC {T}. Arguments a_nm {T}. Arguments a_nv {T}. Arguments selection {T}.
Arguments nRowsToRead {T}. Arguments outRecSize {T}. Arguments a_memoryLimit {T}.
Arguments a_tree {T}. Arguments numberOfChunks {T}. Arguments chunksParams {T}.
Arguments fileOfChunks {T}. Arguments viewFile {T}. Arguments nViewRows {T}.
Arguments totalOfViewRows {T}. Arguments a_sums {T}.

(** [SelectToView(ib, ix, viewBuf, nd, nm, nv)].  The dimension numbers in
    [ix] count from one. *)
Definition SelectToView (ib : row) (ix : list nat) (nm nv : nat) : option row :=
  match mapM (fun i => match i with O => None | S j => ks ib !! j end) (take nv ix) with
  | Some keys => Some (Row (take nm (ms ib)) keys)
  | None => None
  end.

(** ** RunFormation *)

Section RunFormation.
Context {T : Type} `{RowTree T}.
Abbreviation AVP := (ADC_VIEW_CNTL T).

Definition with_tree (t : T) (a : AVP) : AVP :=
  mkADC (a_nm a) (a_nv a) (selection a) (nRowsToRead a) (outRecSize a) (a_memoryLimit a) t
    (numberOfChunks a) (chunksParams a) (fileOfChunks a) (viewFile a) (nViewRows a)
    (totalOfViewRows a) (a_sums a).

Definition with_chunks (n : nat) (c : list CHUNKS) (a : AVP) : AVP :=
  mkADC (a_nm a) (a_nv a) (selection a) (nRowsToRead a) (outRecSize a) (a_memoryLimit a)
    (a_tree a) n c (fileOfChunks a) (viewFile a) (nViewRows a) (totalOfViewRows a) (a_sums a).

Definition with_chunkfile (f : FILE) (a : AVP) : AVP :=
  mkADC (a_nm a) (a_nv a) (selection a) (nRowsToRead a) (outRecSize a) (a_memoryLimit a)
    (a_tree a) (numberOfChunks a) (chunksParams a) f (viewFile a) (nViewRows a)
    (totalOfViewRows a) (a_sums a).

(** [avp->chunksParams[n].curChunkNum = count; ....chunkOffset = off;
     (avp->numberOfChunks)++;] *)
Definition close_chunk (off : Z) (a : AVP) : option AVP :=
  let n := numberOfChunks a in
  match chunksParams a !! n with
  | Some c => Some (with_chunks (S n)
      (<[n := mkCHUNKS (Z.to_nat (rt_count (a_tree a))) off (posSubChunk c) (curSubChunk c)]>
         (chunksParams a)) a)
  | None => None
  end.

(** The chunk offset after a chunk: [chunkOffset += (uint64)(count*outRecSize)]. *)
Definition next_offset (off : Z) (a : AVP) : Z :=
  s64 (off + u32 (rt_count (a_tree a) * outRecSize a)).

(** The loop over the input rows.  At the end of the file [fread] leaves the
    buffer [attrs] as it was. *)
Fixpoint run_loop (n : nat) (attrs : row) (inpf : list row) (off : Z) (a : AVP) :
    option (Z * Z * AVP) :=
  match n with
  | O => Some (ADC_OK, off, a)
  | S n' =>
      let '(attrs, inpf) := match inpf with r :: l => (r, l) | [] => (attrs, []) end in
      match SelectToView attrs (selection a) (a_nm a) (a_nv a) with
      | None => None
      | Some viewBuf =>
          match rt_insert viewBuf (a_tree a) with
          | None => None
          | Some (_, t) =>
              let a := with_tree t a in
              if negb (rt_full t =? 0) then
                match close_chunk off a with
                | None => None
                | Some a =>
                    if (MAX_NUM_OF_CHUNKS <=? numberOfChunks a)%nat
                    then Some (ADC_INTERNAL_ERROR, off, a)
                    else
                      let off := next_offset off a in
                      match WriteChunkToDisk (a_tree a) (fileOfChunks a) with
                      | None => None
                      | Some (rc, f) =>
                          let a := with_chunkfile f a in
                          if negb (rc =? 0) then Some (ADC_WRITE_FAILED, off, a)
                          else run_loop n' attrs inpf off
                                 (with_tree (rt_init (a_nv a) (a_nm a) (a_tree a)) a)
                      end
                end
              else run_loop n' attrs inpf off a
          end
      end
  end.

(** [RunFormation(avp, inpf)]; [attrs0] is the uninitialised row buffer. *)
Definition RunFormation (attrs0 : row) (inpf : list row) (a : AVP) : option (Z * AVP) :=
  let a := with_tree (rt_init (a_nv a) (a_nm a) (a_tree a)) a in
  match run_loop (nRowsToRead a) attrs0 inpf 0 a with
  | None => None
  | Some (rc, off, a) =>
      if negb (rc =? 0) then Some (rc, a)
      else if negb (numberOfChunks a =? 0)%nat && negb (rt_count (a_tree a) =? 0) then
        match close_chunk off a with
        | None => None
        | Some a =>
            match WriteChunkToDisk (a_tree a) (fileOfChunks a) with
            | None => None
            | Some (rc, f) =>
                let a := with_chunkfile f a in
                Some (if negb (rc =? 0) then ADC_WRITE_FAILED else ADC_OK, a)
            end
        end
      else Some (ADC_OK, a)
  end.
End RunFormation.

(** ** MultiWayMerge

    The pool is used as a buffer of [numberOfChunks] sections of
    [regSubChunkSize] rows; [iPos = mwBufRecSizeInInt*(iChunk*regSubChunkSize +
    posSubChunk)] is the first word of slot [iChunk*regSubChunkSize +
    posSubChunk], so the model indexes the buffer by slots. *)

(** [SeekAndReadNextSubChunk]: [num] rows from byte [off] of the file into the
    buffer from slot [k]; a short file leaves the rest of the slots alone. *)
Definition SeekAndReadNextSubChunk (buf : list row) (k : nat) (file : list row)
    (recSize off : Z) (num : nat) : option (list row) :=
  if (off <? 0) || (length buf <? k + num)%nat then None
  else
    let rows := take num (drop (Z.to_nat (off / recSize)) file) in
    Some (take k buf ++ rows ++ drop (k + length rows) buf).

Definition ReadSubChunk (recSize : Z) (iChunk reg : nat) (file : list row)
    (chunks : list CHUNKS) (buf : list row) : option (list CHUNKS * list row) :=
  match chunks !! iChunk with
  | None => None
  | Some c =>
      if (0 <? curChunkNum c)%nat then
        if (curChunkNum c <? reg)%nat then
          match SeekAndReadNextSubChunk buf (iChunk * reg + (reg - curChunkNum c)) file recSize
                  (chunkOffset c) (curChunkNum c) with
          | None => None
          | Some buf' =>
              Some (<[iChunk := mkCHUNKS 0 (-1) (reg - curChunkNum c) (curChunkNum c)]> chunks, buf')
          end
        else
          match SeekAndReadNextSubChunk buf (iChunk * reg) file recSize (chunkOffset c) reg with
          | None => None
          | Some buf' =>
              Some (<[iChunk := mkCHUNKS (curChunkNum c - reg)
                        (s64 (chunkOffset c + u32 (Z.of_nat reg * recSize))) 0 reg]> chunks, buf')
          end
      else Some (chunks, buf)
  end.

(** [for (i = 0; i < numberOfChunks; i++) ReadSubChunk(..., i, ...)]. *)
Fixpoint read_all (recSize : Z) (i n reg : nat) (file : list row)
    (chunks : list CHUNKS) (buf : list row) : option (list CHUNKS * list row) :=
  match n with
  | O => Some (chunks, buf)
  | S n' =>
      match ReadSubChunk recSize i reg file chunks buf with
      | None => None
      | Some (chunks, buf) => read_all recSize (S i) n' reg file chunks buf
      end
  end.

(** The row a chunk would deliver next. *)
Definition peek (reg iChunk : nat) (c : CHUNKS) (buf : list row) : option row :=
  buf !! (iChunk * reg + posSubChunk c)%nat.

(** The first [for] of the loop: the first chunk with a buffered row. *)
Fixpoint first_chunk (reg i n : nat) (chunks : list CHUNKS) (buf : list row)
    (cur : nat * row) : option (nat * row) :=
  match n with
  | O => Some cur
  | S n' =>
      match chunks !! i with
      | None => None
      | Some c =>
          if (0 <? curSubChunk c)%nat then
            match peek reg i c buf with Some r => Some (i, r) | None => None end
          else first_chunk reg (S i) n' chunks buf cur
      end
  end.

(** The second [for]: a chunk with a smaller key takes over. *)
Fixpoint min_chunk (nv reg i n : nat) (chunks : list CHUNKS) (buf : list row)
    (cur : nat * row) : option (nat * row) :=
  match n with
  | O => Some cur
  | S n' =>
      match chunks !! i with
      | None => None
      | Some c =>
          if (0 <? curSubChunk c)%nat then
            match peek reg i c buf with
            | None => None
            | Some r =>
                if KeyComp (ks r) (ks (snd cur)) nv <? 0
                then min_chunk nv reg (S i) n' chunks buf (i, r)
                else min_chunk nv reg (S i) n' chunks buf cur
            end
          else min_chunk nv reg (S i) n' chunks buf cur
      end
  end.

(** [for (i = 0; i < nm; i++) checksums[i] += nViewRows * m[i] % measbound]:
    here the product is [int64] and the remainder truncates. *)
Fixpoint merge_checksums (nm : nat) (n : Z) (cs m : list Z) : list Z :=
  match nm, cs, m with
  | S nm', c :: cs', x :: m' =>
      s64 (c + Z.rem (s64 (n * x)) measbound) :: merge_checksums nm' n cs' m'
  | _, _, _ => cs
  end.

(** What the loop of [MultiWayMerge] changes. *)
Record mstate := mkM {
  m_chunks : list CHUNKS;
  m_buf : list row;
  m_min : nat * row;              (* min_r_chunk, min_r_buf *)
  m_out : option row;             (* outputBuffer, None while first_one *)
  m_view : FILE;
  m_nrows : Z;
  m_sums : sums
}.

(** Writing [outputBuffer] to the view with its sums. *)
Definition emit (nm : nat) (out : row) (m : mstate) : Z * mstate :=
  let '(rc, f) := WriteToFile out (m_view m) in
  if negb (rc =? 0) then (rc, mkM (m_chunks m) (m_buf m) (m_min m) (m_out m) f (m_nrows m) (m_sums m))
  else
    let n := u32 (m_nrows m + 1) in
    (ADC_OK, mkM (m_chunks m) (m_buf m) (m_min m) (m_out m) f n
      (mkSums (add_measures nm (mSums (m_sums m)) (ms out))
              (merge_checksums nm n (checksums (m_sums m)) (ms out)))).

(** Aggregation of the row [r] just taken with the output buffer. *)
Definition absorb (nm nv : nat) (r : row) (m : mstate) : Z * mstate :=
  let set_out o m :=
    mkM (m_chunks m) (m_buf m) (m_min m) (Some o) (m_view m) (m_nrows m) (m_sums m) in
  match m_out m with
  | None => (ADC_OK, set_out r m)
  | Some out =>
      if KeyComp (ks out) (ks r) nv =? 0 then (ADC_OK, set_out (merge_row nm out r) m)
      else
        let '(rc, m') := emit nm out m in
        if negb (rc =? 0) then (rc, m') else (ADC_OK, set_out r m')
  end.

Definition exhausted (c : CHUNKS) : bool :=
  (curSubChunk c =? 0)%nat && (curChunkNum c =? 0)%nat.

(** One round of [while(1)]: the boolean says whether the loop goes on. *)
Definition merge_round (nm nv reg n : nat) (recSize : Z) (file : list row) (m : mstate) :
    option (Z * bool * mstate) :=
  match first_chunk reg 0 n (m_chunks m) (m_buf m) (m_min m) with
  | None => None
  | Some cur =>
      match min_chunk nv reg (fst cur) (n - fst cur) (m_chunks m) (m_buf m) cur with
      | None => None
      | Some (i, r) =>
          match m_chunks m !! i with
          | None => None
          | Some c =>
              let chunks :=
                if negb (curSubChunk c =? 0)%nat
                then <[i := mkCHUNKS (curChunkNum c) (chunkOffset c) (S (posSubChunk c))
                              (curSubChunk c - 1)]> (m_chunks m)
                else m_chunks m in
              let '(rc, m) := absorb nm nv r
                (mkM chunks (m_buf m) (i, r) (m_out m) (m_view m) (m_nrows m) (m_sums m)) in
              if negb (rc =? 0) then Some (rc, false, m)
              else if forallb exhausted (take n (m_chunks m)) then Some (ADC_OK, false, m)
              else
                match m_chunks m !! i with
                | None => None
                | Some c =>
                    if (curSubChunk c =? 0)%nat then
                      match ReadSubChunk recSize i reg file (m_chunks m) (m_buf m) with
                      | None => None
                      | Some (chunks, buf) =>
                          Some (ADC_OK, true, mkM chunks buf (m_min m) (m_out m) (m_view m)
                                                (m_nrows m) (m_sums m))
                      end
                    else Some (ADC_OK, true, m)
                end
          end
      end
  end.

Fixpoint merge_loop (fuel nm nv reg n : nat) (recSize : Z) (file : list row) (m : mstate) :
    option (Z * mstate) :=
  match fuel with
  | O => None
  | S fuel' =>
      match merge_round nm nv reg n recSize file m with
      | None => None
      | Some (rc, true, m') => merge_loop fuel' nm nv reg n recSize file m'
      | Some (rc, false, m') => Some (rc, m')
      end
  end.

(** [MultiWayMerge(avp)].  [pool] is what the memory pool holds on entry, seen
    as rows, and [min0] the uninitialised [min_r_chunk], [min_r_buf].  Every
    round takes one row, so the rows of all chunks bound the rounds. *)
Definition MultiWayMerge {T} (pool : list row) (min0 : nat * row) (a : ADC_VIEW_CNTL T) :
    option (Z * ADC_VIEW_CNTL T) :=
  let n := numberOfChunks a in
  let reg := Z.to_nat (a_memoryLimit a / Z.of_nat n / outRecSize a) in
  let finish (m : mstate) (total : Z) :=
    mkADC (a_nm a) (a_nv a) (selection a) (nRowsToRead a) (outRecSize a) (a_memoryLimit a)
      (a_tree a) n (m_chunks m) (fileOfChunks a) (m_view m) (m_nrows m) total (m_sums m) in
  let m0 c b := mkM c b min0 None (viewFile a) 0 (a_sums a) in
  if (n =? 0)%nat then None (* division by zero *)
  else if (reg =? 0)%nat then
    Some (ADC_INTERNAL_ERROR, finish (m0 (chunksParams a) pool) (totalOfViewRows a))
  else
    match read_all (outRecSize a) 0 n reg (frows (fileOfChunks a)) (chunksParams a) pool with
    | None => None
    | Some (chunks, buf) =>
        match merge_loop (S (list_sum (curChunkNum <$> chunksParams a))) (a_nm a) (a_nv a) reg n
                (outRecSize a) (frows (fileOfChunks a)) (m0 chunks buf) with
        | None => None
        | Some (rc, m) =>
            if negb (rc =? 0) then Some (rc, finish m (totalOfViewRows a))
            else
              match m_out m with
              | None => None
              | Some out =>
                  let '(rc, m) := emit (a_nm a) out m in
                  if negb (rc =? 0) then Some (rc, finish m (totalOfViewRows a))
                  else Some (ADC_OK, finish m (u32 (totalOfViewRows a + m_nrows m)))
              end
        end
    end.

(** ** One view of the cube

    The block of [ComputeGivenGroupbys] that builds the view whose
    parameters [InitAdcViewCntl] has set: run formation from [inpf], then the
    tree is written out, or the runs are merged. *)

Section BuildView.
Context {T : Type} `{RowTree T}.

(** [if (!adccntlp->numberOfChunks) { ... }]. *)
Definition write_tree (a : ADC_VIEW_CNTL T) : option (Z * ADC_VIEW_CNTL T) :=
  let rows := rt_count (a_tree a) in
  match WriteViewToDiskCS (a_nm a) (a_tree a) (a_sums a, 0, viewFile a) with
  | None => None
  | Some (rc, (s, _, f)) =>
      let a := mkADC (a_nm a) (a_nv a) (selection a) (nRowsToRead a) (outRecSize a)
        (a_memoryLimit a) (a_tree a) (numberOfChunks a) (chunksParams a)
        (fileOfChunks a) f rows (u32 (totalOfViewRows a + rows)) s in
      Some (if negb (rc =? ADC_OK) then ADC_WRITE_FAILED else ADC_OK, a)
  end.

Definition build_view (attrs0 : row) (inpf pool : list row) (min0 : nat * row)
    (a : ADC_VIEW_CNTL T) : option (Z * ADC_VIEW_CNTL T) :=
  match RunFormation attrs0 inpf a with
  | None => None
  | Some (rc, a) =>
      if negb (rc =? ADC_OK) then Some (rc, a)
      else if (numberOfChunks a =? 0)%nat then write_tree a
      else MultiWayMerge pool min0 a
  end.
End BuildView.
