(* ===== verification/RunSpec.v ===== *)
(** * RunFormation: the runs it leaves are the aggregated pieces of its input

    The loop invariant [run_inv] describes the chunk table, the chunk file and
    the tree after some input rows; [RunFormation] never faults and returns
    one of its three codes, each with what it says about the state. *)

From Stdlib Require Import ZArith Lia Sorted.
From stdpp Require Import base gmap numbers option list.
From S2P Require Import Prelude Rows RBTree RBSpec ViewFiles ExtSort.

(** ** Projection to the selected dimensions *)

Definition selection_ok (nd nv : nat) (sel : list nat) : Prop :=
  (nv <= length sel)%nat /\ Forall (fun i => (1 <= i <= nd)%nat) (take nv sel).

Lemma SelectToView_ok nd nm nv sel r :
  selection_ok nd nv sel -> row_ok nd nm r ->
  exists v, SelectToView r sel nm nv = Some v /\ row_ok nv nm v /\ ms v = ms r
    /\ forall j i, (j < nv)%nat -> sel !! j = Some i -> ks v !! j = ks r !! (i - 1)%nat.
Proof.
  intros [Hlen Hsel] [Hk Hm]. unfold SelectToView.
  assert (H : exists keys,
    mapM (fun i => match i with O => None | S j => ks r !! j end) (take nv sel) = Some keys).
  { apply mapM_is_Some_2. eapply Forall_impl; [exact Hsel|].
    intros [|i] Hi; simpl in *; [lia|]. apply lookup_lt_is_Some. lia. }
  destruct H as [keys Hkeys]. rewrite Hkeys. eexists. split; [reflexivity|].
  pose proof (length_mapM _ _ _ Hkeys) as Hl. rewrite length_take in Hl.
  split; [split; cbn [ks ms]; [lia|rewrite length_take; lia]|].
  split; [cbn [ms]; by rewrite take_ge by lia|].
  intros j i Hj Hi. cbn [ks]. apply mapM_Some_1 in Hkeys.
  assert (Ht : take nv sel !! j = Some i) by (by rewrite lookup_take_lt).
  destruct (Forall2_lookup_l _ _ _ _ _ Hkeys Ht) as (k & Hk' & Hki).
  rewrite Hk'. destruct i as [|i]; [discriminate|]. simpl. by rewrite Nat.sub_0_r, Hki.
Qed.

Section RunSpec.
Context {T : Type} `{RowTreeLaws T}.
Abbreviation AVP := (ADC_VIEW_CNTL T).
Implicit Types (a : AVP) (runs : list (list row)).

(** The rows of the input as the view sees them. *)
Definition selected (a : AVP) (inp vs : list row) : Prop :=
  Forall2 (fun r v => SelectToView r (selection a) (a_nm a) (a_nv a) = Some v
                      /\ row_ok (a_nv a) (a_nm a) v) inp vs.

(** Entry [i] of the chunk table describes run [i] of the chunk file. *)
Definition run_table (recSize : Z) runs (chunks : list CHUNKS) : Prop :=
  forall i run, runs !! i = Some run ->
    exists p c, chunks !! i = Some (mkCHUNKS (length run)
      (recSize * Z.of_nat (length (concat (take i runs)))) p c).

(** What the run formation does not touch. *)
Definition same_view (a0 a : AVP) : Prop :=
  a_nm a = a_nm a0 /\ a_nv a = a_nv a0 /\ selection a = selection a0
  /\ outRecSize a = outRecSize a0 /\ a_memoryLimit a = a_memoryLimit a0
  /\ viewFile a = viewFile a0 /\ nViewRows a = nViewRows a0
  /\ totalOfViewRows a = totalOfViewRows a0 /\ a_sums a = a_sums a0.

(** [done] has been cut into the pieces [gs], whose aggregates are the runs,
    and [g], whose aggregate is in the tree. *)
Definition pieces (nd nm : nat) (done : list row) runs (cur : list row) : Prop :=
  exists gs g, done = concat gs ++ g /\ runs = aggregate nd nm <$> gs
    /\ cur = aggregate nd nm g /\ Forall (fun p => p <> []) gs.

Record chunks_ok (a0 : AVP) runs (off : Z) (a : AVP) : Prop := {
  co_same : same_view a0 a;
  co_number : numberOfChunks a = length runs;
  co_table : run_table (outRecSize a0) runs (chunksParams a);
  co_size : length (chunksParams a) = MAX_NUM_OF_CHUNKS;
  co_file : frows (fileOfChunks a) = concat runs;
  co_space : (fspace (fileOfChunks a) + length (concat runs))%nat = fspace (fileOfChunks a0);
  co_off : off = outRecSize a0 * Z.of_nat (length (concat runs));
  co_offbound : 0 <= off <= Z.of_nat (length runs) * 2 ^ 32
}.

Record run_inv (a0 : AVP) (done : list row) runs (cur : list row) (off : Z) (a : AVP) : Prop := {
  ri_chunks : chunks_ok a0 runs off a;
  ri_tree : rt_inv (a_nv a0) (a_nm a0) (a_tree a) cur;
  ri_notfull : rt_full (a_tree a) = 0;
  ri_few : (length runs < MAX_NUM_OF_CHUNKS)%nat;
  ri_pieces : pieces (a_nv a0) (a_nm a0) done runs cur
}.

(** What the caller guarantees about the control block. *)
Record avp_ok (a : AVP) : Prop := {
  ao_dims : dims_ok (a_nv a) (a_nm a);
  ao_rec : outRecSize a = DIM_FSZ * Z.of_nat (a_nv a) + MSR_FSZ * Z.of_nat (a_nm a);
  ao_tree : rt_wf (a_tree a);
  ao_chunks : length (chunksParams a) = MAX_NUM_OF_CHUNKS
}.

Lemma pieces_length nd nm done runs cur : pieces nd nm done runs cur ->
  (length (concat runs) + length cur <= length done)%nat.
Proof.
  intros (gs & g & -> & -> & -> & _). rewrite length_app. pose proof (aggregate_length nd nm g).
  enough (length (concat (aggregate nd nm <$> gs)) <= length (concat gs))%nat by lia.
  induction gs as [|g' gs IH]; cbn; [done|]. rewrite !length_app.
  pose proof (aggregate_length nd nm g'). lia.
Qed.

Lemma concat_snoc {A} (ls : list (list A)) l : concat (ls ++ [l]) = concat ls ++ l.
Proof. rewrite concat_app. cbn. by rewrite app_nil_r. Qed.

Lemma pieces_close nd nm done runs cur : pieces nd nm done runs cur -> cur <> [] ->
  pieces nd nm done (runs ++ [cur]) [].
Proof.
  intros (gs & g & -> & -> & -> & Hne) Hcur. exists (gs ++ [g]), [].
  rewrite concat_snoc, app_nil_r, fmap_app. split_and!; auto.
  apply Forall_app. split; [done|]. apply Forall_singleton. by intros ->.
Qed.

Lemma run_table_snoc recSize runs run chunks p c :
  run_table recSize runs chunks -> (length runs < length chunks)%nat ->
  run_table recSize (runs ++ [run])
    (<[length runs := mkCHUNKS (length run)
        (recSize * Z.of_nat (length (concat runs))) p c]> chunks).
Proof.
  intros Ht Hl i r Hi. destruct (decide (i = length runs)) as [->|Hne].
  - rewrite list_lookup_insert_eq by done.
    rewrite lookup_app_r, Nat.sub_diag in Hi by lia. injection Hi as <-.
    exists p, c. by rewrite take_app_length.
  - assert (i < length runs)%nat.
    { apply lookup_lt_Some in Hi. rewrite length_app in Hi. simpl in Hi. lia. }
    rewrite lookup_app_l in Hi by lia. rewrite list_lookup_insert_ne by done.
    rewrite take_app_le by lia. by apply Ht.
Qed.

(** Closing the current run: the chunk table, the offset and the file. *)
Lemma chunks_close a0 runs cur off a :
  avp_ok a0 -> chunks_ok a0 runs off a -> (length runs < MAX_NUM_OF_CHUNKS)%nat ->
  rt_inv (a_nv a0) (a_nm a0) (a_tree a) cur ->
  exists a', close_chunk off a = Some a' /\ a_tree a' = a_tree a
    /\ numberOfChunks a' = S (length runs) /\ fileOfChunks a' = fileOfChunks a
    /\ forall t' f', f' = snd (write_rows cur (fileOfChunks a)) -> (length cur <= fspace (fileOfChunks a))%nat ->
       chunks_ok a0 (runs ++ [cur]) (next_offset off a') (with_tree t' (with_chunkfile f' a')).
Proof.
  intros Hok [Hsame Hn Ht Hsz Hf Hsp Hoff Hob] Hlt Hi.
  unfold close_chunk. rewrite Hn.
  destruct (lookup_lt_is_Some_2 (chunksParams a) (length runs)) as [c Hc]; [lia|].
  rewrite Hc. eexists. split; [reflexivity|]. split_and!; try done.
  intros t' f' -> Hspace. unfold write_rows. cbn [snd].
  rewrite (rt_count_inv _ _ _ _ Hi), Nat2Z.id.
  destruct Hsame as (E1 & E2 & E3 & E4 & E5 & E6 & E7 & E8 & E9).
  pose proof (rt_bytes _ _ _ _ Hi) as Hb. rewrite <- (ao_rec _ Hok) in Hb.
  assert (0 <= outRecSize a0) by (rewrite (ao_rec _ Hok); unfold DIM_FSZ, MSR_FSZ; lia).
  constructor; cbn [chunksParams numberOfChunks fileOfChunks frows fspace with_tree
    with_chunkfile with_chunks].
  - done.
  - rewrite length_app. simpl. lia.
  - rewrite Hoff. apply run_table_snoc; [done|lia].
  - by rewrite length_insert.
  - rewrite take_ge by lia. by rewrite Hf, concat_snoc.
  - rewrite concat_snoc, length_app. lia.
  - unfold next_offset. cbn [a_tree outRecSize with_chunks].
    rewrite (rt_count_inv _ _ _ _ Hi), E4, (wrapu_id 32) by (unfold in_u; nia).
    rewrite concat_snoc, length_app, wraps_id; unfold in_s, MAX_NUM_OF_CHUNKS in *; nia.
  - unfold next_offset. cbn [a_tree outRecSize with_chunks].
    rewrite (rt_count_inv _ _ _ _ Hi), E4, (wrapu_id 32) by (unfold in_u; nia).
    rewrite length_app, wraps_id; cbn [length]; unfold in_s, MAX_NUM_OF_CHUNKS in *; nia.
Qed.

(** The outcomes of the loop and of the routine. *)
Definition too_many (a : AVP) : Prop := numberOfChunks a = MAX_NUM_OF_CHUNKS.

Definition run_post (a0 : AVP) (all : list row) (rc : Z) (a : AVP) (good : Prop) : Prop :=
  rc = ADC_OK /\ good
  \/ rc = ADC_INTERNAL_ERROR /\ too_many a
  \/ rc = ADC_WRITE_FAILED /\ (fspace (fileOfChunks a0) < length all)%nat.

Lemma run_insert a0 done runs cur off a v :
  run_inv a0 done runs cur off a -> row_ok (a_nv a0) (a_nm a0) v ->
  exists t, rt_insert v (a_tree a) = Some (0, t)
    /\ rt_inv (a_nv a0) (a_nm a0) t (agg_insert (a_nv a0) (a_nm a0) v cur)
    /\ chunks_ok a0 runs off (with_tree t a)
    /\ pieces (a_nv a0) (a_nm a0) (done ++ [v]) runs (agg_insert (a_nv a0) (a_nm a0) v cur).
Proof.
  intros [Hc Ht Hf Hl Hp] Hv.
  destruct (rt_insert_inv _ _ _ _ _ Ht Hf Hv) as (t & Hins & Hi).
  exists t. split_and!; auto; [by destruct Hc|].
  destruct Hp as (gs & g & -> & -> & -> & Hne). exists gs, (g ++ [v]).
  by rewrite aggregate_snoc, <- app_assoc.
Qed.

Lemma run_loop_spec a0 all inp : forall vs done runs cur off a attrs rest,
  avp_ok a0 -> run_inv a0 done runs cur off a -> selected a0 inp vs -> all = done ++ vs ->
  exists rc off' a', run_loop (length inp) attrs (inp ++ rest) off a = Some (rc, off', a')
    /\ run_post a0 all rc a' (exists runs' cur', run_inv a0 all runs' cur' off' a').
Proof.
  induction inp as [|r inp IH]; intros vs done runs cur off a attrs rest Hok Hinv Hsel Hall;
    inversion Hsel as [|? v ? vs' [Hv Hrow] Hsel']; subst; cbn [run_loop length app].
  { eexists _, _, _. split; [reflexivity|]. left. rewrite app_nil_r. eauto. }
  destruct (run_insert _ _ _ _ _ _ _ Hinv Hrow) as (t & Hins & Ht & Hc & Hp).
  destruct (co_same _ _ _ _ (ri_chunks _ _ _ _ _ _ Hinv)) as (E1 & E2 & E3 & _).
  rewrite E1, E2, E3, Hv, Hins.
  assert (Happ : done ++ v :: vs' = (done ++ [v]) ++ vs') by (by rewrite <- app_assoc).
  destruct (Z.eqb_spec (rt_full t) 0) as [Hfull|Hfull]; cbn [negb].
  { apply (IH vs' (done ++ [v]) runs (agg_insert (a_nv a0) (a_nm a0) v cur)); auto.
    split; auto. by destruct Hinv. }
  destruct (chunks_close a0 runs (agg_insert (a_nv a0) (a_nm a0) v cur) off (with_tree t a)
    Hok Hc (ri_few _ _ _ _ _ _ Hinv) Ht) as (a1 & Hcl & Ht1 & Hn1 & Hf1 & Hnext).
  rewrite Hcl. destruct (Nat.leb_spec MAX_NUM_OF_CHUNKS (numberOfChunks a1)) as [Hmany|Hfew].
  { eexists _, _, _. split; [reflexivity|]. right; left. split; [done|].
    pose proof (ri_few _ _ _ _ _ _ Hinv). unfold too_many. lia. }
  rewrite Ht1, Hf1. cbn [a_tree with_tree].
  rewrite (WriteChunkToDisk_spec _ _ _ _ _ Ht). unfold write_rows at 1.
  destruct (Nat.leb_spec (length (agg_insert (a_nv a0) (a_nm a0) v cur))
              (fspace (fileOfChunks (with_tree t a)))) as [Hsp|Hsp]; cbn [negb Z.eqb ADC_OK].
  - specialize (Hnext (rt_init (a_nv a0) (a_nm a0) t) _ eq_refl Hsp).
    destruct (co_same _ _ _ _ Hnext) as (F1 & F2 & _). cbn in F1, F2.
    cbn [a_nv a_nm a_tree with_chunkfile]. rewrite F1, F2, Ht1.
    cbn [a_tree with_tree].
    apply (IH vs' (done ++ [v]) (runs ++ [agg_insert (a_nv a0) (a_nm a0) v cur]) []); auto.
    split; [exact Hnext| | | |by apply pieces_close, agg_insert_not_nil]; cbn [a_tree with_tree].
    + apply rt_init_inv; [by eapply rt_inv_wf|apply Hok].
    + apply rt_init_empty.
    + rewrite length_app. simpl. lia.
  - eexists _, _, _. split; [reflexivity|]. right; right. split; [done|].
    pose proof (pieces_length _ _ _ _ _ Hp) as Hlen.
    pose proof (co_space _ _ _ _ Hc). rewrite Happ, (length_app (done ++ [v])). lia.
Qed.

(** The state [RunFormation] leaves: no run and everything in the tree, or
    the input cut into non-empty pieces whose aggregates are the runs. *)
Definition run_result (a0 : AVP) (vs : list row) (a : AVP) : Prop :=
  (exists off, chunks_ok a0 [] off a) /\ numberOfChunks a = O
    /\ rt_inv (a_nv a0) (a_nm a0) (a_tree a) (aggregate (a_nv a0) (a_nm a0) vs)
  \/ rt_wf (a_tree a) /\ exists gs off, gs <> [] /\ Forall (fun g => g <> []) gs /\ vs = concat gs
      /\ chunks_ok a0 (aggregate (a_nv a0) (a_nm a0) <$> gs) off a.

Lemma RunFormation_start a0 :
  avp_ok a0 -> numberOfChunks a0 = O -> frows (fileOfChunks a0) = [] ->
  run_inv a0 [] [] [] 0 (with_tree (rt_init (a_nv a0) (a_nm a0) (a_tree a0)) a0).
Proof.
  intros Hok Hn Hf. split; cbn.
  - split; cbn; auto; [done| |apply Hok|lia|lia].
    intros i run Hi. by rewrite lookup_nil in Hi.
  - apply rt_init_inv; apply Hok.
  - apply rt_init_empty.
  - unfold MAX_NUM_OF_CHUNKS. lia.
  - by exists [], [].
Qed.

Lemma run_finish a0 vs runs cur off a :
  avp_ok a0 -> run_inv a0 vs runs cur off a ->
  exists rc a', (if negb (numberOfChunks a =? 0)%nat && negb (rt_count (a_tree a) =? 0) then
        match close_chunk off a with
        | None => None
        | Some a =>
            match WriteChunkToDisk (a_tree a) (fileOfChunks a) with
            | None => None
            | Some (rc, f) =>
                let a := with_chunkfile f a in
                Some (if negb (rc =? 0) then ADC_WRITE_FAILED else ADC_OK, a)
            end
        end
      else Some (ADC_OK, a)) = Some (rc, a')
    /\ run_post a0 vs rc a' (run_result a0 vs a').
Proof.
  intros Hok [Hc Ht Hf Hl Hp].
  pose proof (co_number _ _ _ _ Hc) as Hn. rewrite Hn, (rt_count_inv _ _ _ _ Ht).
  destruct runs as [|run runs]; cbn [length Nat.eqb negb andb].
  { eexists _, _. split; [reflexivity|]. left. split; [done|]. left. split; [eauto|].
    split; [done|]. destruct Hp as ([|] & g & -> & [=] & -> & _). done. }
  destruct cur as [|c cur].
  { eexists _, _. split; [reflexivity|]. left. split; [done|]. right. split; [by eapply rt_inv_wf|].
    destruct Hp as (gs & g & -> & Hgs & Hg & Hne). exists gs, off. rewrite <- Hgs.
    split; [by intros ->|]. split; [done|]. split; [|done].
    destruct g as [|x g _] using rev_ind; [by rewrite app_nil_r|].
    rewrite aggregate_snoc in Hg. by apply eq_sym, agg_insert_not_nil in Hg. }
  destruct (chunks_close a0 (run :: runs) (c :: cur) off a Hok Hc Hl Ht)
    as (a1 & Hcl & Ht1 & Hn1 & Hf1 & Hnext).
  rewrite Hcl, Ht1, Hf1, (WriteChunkToDisk_spec _ _ _ _ _ Ht).
  destruct (Z.eqb_spec (Z.of_nat (length (c :: cur))) 0); [simpl in *; lia|]. cbn [negb].
  eexists _, _. split; [reflexivity|].
  destruct (Nat.leb_spec (length (c :: cur)) (fspace (fileOfChunks a))) as [Hsp|Hsp];
    cbn [negb Z.eqb ADC_OK].
  - left. split; [done|]. right. split.
    { cbn [a_tree with_chunkfile]. rewrite Ht1. by eapply rt_inv_wf. }
    apply pieces_close in Hp; [|done].
    destruct Hp as (gs & g & -> & Hgs & Hg & Hne). exists gs, (next_offset off a1).
    split; [by intros ->|]. split; [done|].
    split.
    + destruct g as [|x g _] using rev_ind; [by rewrite app_nil_r|].
      rewrite aggregate_snoc in Hg. by apply eq_sym, agg_insert_not_nil in Hg.
    + rewrite <- Hgs. exact (Hnext (a_tree a1) _ eq_refl Hsp).
  - right; right. split; [done|]. pose proof (pieces_length _ _ _ _ _ Hp) as Hlen.
    pose proof (co_space _ _ _ _ Hc). lia.
Qed.

(** The whole routine. *)
Lemma RunFormation_run a0 inp rest vs attrs0 :
  avp_ok a0 -> numberOfChunks a0 = O -> frows (fileOfChunks a0) = [] ->
  length inp = nRowsToRead a0 -> selected a0 inp vs ->
  exists rc a', RunFormation attrs0 (inp ++ rest) a0 = Some (rc, a')
    /\ run_post a0 vs rc a' (run_result a0 vs a').
Proof.
  intros Hok Hn Hf Hl Hsel. unfold RunFormation.
  cbn [nRowsToRead with_tree]. rewrite <- Hl.
  destruct (run_loop_spec a0 vs inp vs [] [] [] 0
    (with_tree (rt_init (a_nv a0) (a_nm a0) (a_tree a0)) a0) attrs0 rest Hok
    (RunFormation_start _ Hok Hn Hf) Hsel eq_refl)
    as (rc & off & a1 & -> & [[-> (runs & cur & Hinv)]|[[-> Hm]|[-> Hw]]]);
    cbn [negb Z.eqb Pos.eqb ADC_OK ADC_INTERNAL_ERROR ADC_WRITE_FAILED].
  - by apply run_finish with runs cur.
  - eexists _, _. split; [reflexivity|]. right; left. done.
  - eexists _, _. split; [reflexivity|]. right; right. done.
Qed.
End RunSpec.
