(* ===== verification/MergeSpec.v ===== *)
(** * MultiWayMerge: merging the runs gives the aggregated view

    [minv] is the invariant of the merge loop: every chunk stands for a list
    of rows still to come, part in the buffer section of the chunk and part in
    the chunk file; the rows already taken have been aggregated into the view
    file and the output buffer. *)

From Stdlib Require Import ZArith Lia Sorted.
From stdpp Require Import base gmap numbers option list.
From S2P Require Import Prelude Rows RBTree RBSpec ViewFiles ExtSort RunSpec.

Section Buffer.
Context (reg : nat).

(** Section [i] of the buffer. *)
Definition sect (i : nat) (buf : list row) : list row := take reg (drop (i * reg) buf).

Lemma sect_lookup i buf x : (x < reg)%nat -> sect i buf !! x = buf !! (i * reg + x)%nat.
Proof. intros Hx. unfold sect. by rewrite lookup_take_lt, lookup_drop. Qed.

Lemma sect_length i buf : ((i + 1) * reg <= length buf)%nat -> length (sect i buf) = reg.
Proof. intros H. unfold sect. rewrite length_take, length_drop. lia. Qed.

(** A write inside section [i] leaves the other sections alone. *)
Lemma splice_other i j k rows (buf : list row) :
  (k + length rows <= reg)%nat -> ((i + 1) * reg <= length buf)%nat -> i <> j ->
  sect j (take (i * reg + k) buf ++ rows ++ drop (i * reg + k + length rows) buf) = sect j buf.
Proof.
  intros Hk Hlen Hij. apply list_eq. intros x. destruct (decide (x < reg)%nat) as [Hx|Hx].
  - rewrite !sect_lookup by done.
    assert (j * reg + x < i * reg + k \/ i * reg + k + length rows <= j * reg + x)%nat as [H|H] by nia.
    + rewrite lookup_app_l by (rewrite length_take; nia). by rewrite lookup_take_lt.
    + rewrite lookup_app_r by (rewrite length_take; nia).
      rewrite lookup_app_r by (rewrite length_take; nia).
      rewrite lookup_drop, length_take. f_equal. nia.
  - rewrite !lookup_ge_None_2; [done|..]; unfold sect; rewrite length_take; lia.
Qed.

(** A write that fills the end of section [i]. *)
Lemma splice_same i k rows (buf : list row) :
  (k + length rows = reg)%nat -> ((i + 1) * reg <= length buf)%nat ->
  drop k (sect i (take (i * reg + k) buf ++ rows ++ drop (i * reg + k + length rows) buf)) = rows.
Proof.
  intros Hk Hlen. unfold sect.
  rewrite drop_app_le by (rewrite length_take; nia).
  rewrite take_app_ge by (rewrite length_drop, length_take; nia).
  rewrite drop_app_ge by (rewrite length_drop, length_take; nia).
  rewrite length_drop, length_take.
  replace (k - (min (i * reg + k) (length buf) - i * reg))%nat with 0%nat by nia.
  rewrite drop_0. apply take_app_length'. nia.
Qed.

Lemma splice_length k rows (buf : list row) : (k + length rows <= length buf)%nat ->
  length (take k buf ++ rows ++ drop (k + length rows) buf) = length buf.
Proof. intros H. rewrite !length_app, length_take, length_drop. lia. Qed.
End Buffer.

Section MergeSpec.
Context (nm nv reg n : nat) (recSize : Z) (file : list row).
Context (Hreg : (0 < reg)%nat) (Hrec : 0 < recSize)
        (Hsmall : Z.of_nat reg * recSize < 2 ^ 32)
        (Hfile : recSize * Z.of_nat (length file) < 2 ^ 62).

(** Chunk [i] still has the rows [l] to deliver. *)
Record chunk_ok (i : nat) (c : CHUNKS) (buf l : list row) : Prop := {
  ck_reg : (posSubChunk c + curSubChunk c)%nat = reg;
  ck_rows : exists o, l = drop (posSubChunk c) (sect reg i buf)
                          ++ take (curChunkNum c) (drop o file)
              /\ (curChunkNum c = 0%nat \/
                  chunkOffset c = recSize * Z.of_nat o /\ (o + curChunkNum c <= length file)%nat)
}.

(** Reading [num] rows to the end of section [i]. *)
Lemma read_section i o off buf k num :
  ((i + 1) * reg <= length buf)%nat -> (k + num = reg)%nat ->
  off = recSize * Z.of_nat o -> (o + num <= length file)%nat ->
  let rows := take num (drop o file) in
  exists buf', SeekAndReadNextSubChunk buf (i * reg + k) file recSize off num = Some buf'
    /\ length buf' = length buf /\ drop k (sect reg i buf') = rows
    /\ forall j, j <> i -> sect reg j buf' = sect reg j buf.
Proof.
  intros Hb Hk Hoff Ho rows.
  assert (Hl : length rows = num) by (unfold rows; rewrite length_take, length_drop; lia).
  unfold SeekAndReadNextSubChunk. rewrite Hoff, Z.mul_comm, Z.div_mul, Nat2Z.id by lia.
  destruct (Z.ltb_spec (Z.of_nat o * recSize) 0); [nia|].
  destruct (Nat.ltb_spec (length buf) (i * reg + k + num)); [nia|]. cbn [orb].
  fold rows. eexists. split; [reflexivity|]. split_and!.
  - apply splice_length. nia.
  - apply splice_same; lia.
  - intros j Hj. apply splice_other; auto; lia.
Qed.

(** Refilling a section. *)
Lemma ReadSubChunk_spec i c chunks buf o :
  chunks !! i = Some c -> ((i + 1) * reg <= length buf)%nat ->
  (0 < curChunkNum c)%nat -> chunkOffset c = recSize * Z.of_nat o ->
  (o + curChunkNum c <= length file)%nat ->
  exists c' buf', ReadSubChunk recSize i reg file chunks buf = Some (<[i := c']> chunks, buf')
    /\ length buf' = length buf /\ (0 < curSubChunk c')%nat
    /\ chunk_ok i c' buf' (take (curChunkNum c) (drop o file))
    /\ forall j, j <> i -> sect reg j buf' = sect reg j buf.
Proof.
  intros Hc Hb Hpos Hoff Hlen. unfold ReadSubChunk. rewrite Hc.
  rewrite (proj2 (Nat.ltb_lt _ _) Hpos).
  destruct (Nat.ltb_spec (curChunkNum c) reg) as [Hs|Hs].
  - destruct (read_section i o (chunkOffset c) buf (reg - curChunkNum c) (curChunkNum c))
      as (buf' & Hrun & Hbl & Hd & Ho); [lia|lia|done|lia|].
    rewrite Hrun. eexists _, _. split; [reflexivity|]. split_and!; auto.
    split; cbn [posSubChunk curSubChunk curChunkNum chunkOffset]; [lia|].
    exists o. cbn [take]. rewrite Hd, app_nil_r. auto.
  - destruct (read_section i o (chunkOffset c) buf 0 reg)
      as (buf' & Hrun & Hbl & Hd & Ho); [lia|lia|done|lia|].
    rewrite Nat.add_0_r in Hrun. rewrite Hrun.
    eexists _, _. split; [reflexivity|]. split_and!; auto.
    split; cbn [posSubChunk curSubChunk curChunkNum chunkOffset]; [lia|].
    exists (o + reg)%nat. rewrite Hd. split.
    + rewrite <- drop_drop. rewrite <- (take_drop reg (take (curChunkNum c) (drop o file))).
      rewrite take_take, Nat.min_l by lia. f_equal. by rewrite skipn_firstn_comm.
    + right. rewrite Hoff, (wrapu_id 32), wraps_id; unfold in_u, in_s; nia.
Qed.

(** ** Looking at the chunks *)

Lemma chunk_length i c buf l : ((i + 1) * reg <= length buf)%nat -> chunk_ok i c buf l ->
  length l = (curSubChunk c + curChunkNum c)%nat.
Proof.
  intros Hb [Hr (o & -> & Ho)]. rewrite length_app, length_drop, sect_length by done.
  rewrite length_take, length_drop. lia.
Qed.

(** The next row of a chunk, and the chunk after it was taken. *)
Lemma chunk_head i c buf l : ((i + 1) * reg <= length buf)%nat -> chunk_ok i c buf l ->
  (0 < curSubChunk c)%nat ->
  exists x l', l = x :: l' /\ peek reg i c buf = Some x
    /\ chunk_ok i (mkCHUNKS (curChunkNum c) (chunkOffset c) (S (posSubChunk c))
                     (curSubChunk c - 1)) buf l'.
Proof.
  intros Hb [Hr (o & -> & Ho)] Hpos.
  destruct (lookup_lt_is_Some_2 (sect reg i buf) (posSubChunk c)) as [x Hx].
  { rewrite sect_length by done. lia. }
  rewrite (drop_S _ _ _ Hx). exists x. eexists. split; [reflexivity|]. split.
  - unfold peek. rewrite sect_lookup in Hx by lia. done.
  - split; cbn; [lia|]. eauto.
Qed.

(** A chunk with an empty section. *)
Lemma chunk_drained i c buf l : ((i + 1) * reg <= length buf)%nat -> chunk_ok i c buf l ->
  curSubChunk c = 0%nat ->
  exists o, l = take (curChunkNum c) (drop o file) /\ (curChunkNum c = 0%nat \/
    chunkOffset c = recSize * Z.of_nat o /\ (o + curChunkNum c <= length file)%nat).
Proof.
  intros Hb [Hr (o & -> & Ho)] H0. exists o. split; [|done].
  rewrite drop_ge; [done|]. rewrite sect_length by done. lia.
Qed.

Lemma chunk_ok_sect i c buf buf' l :
  sect reg i buf' = sect reg i buf -> chunk_ok i c buf l -> chunk_ok i c buf' l.
Proof. intros E [Hr Ho]. split; [done|]. by rewrite E. Qed.

Record chunks_rep (rem : list (list row)) (chunks : list CHUNKS) (buf : list row) : Prop := {
  cr_length : length rem = n;
  cr_buf : (n * reg <= length buf)%nat;
  cr_chunk : forall i l, rem !! i = Some l -> exists c, chunks !! i = Some c
    /\ chunk_ok i c buf l /\ (l <> [] -> (0 < curSubChunk c)%nat)
}.

Lemma section_fits rem chunks buf i l :
  chunks_rep rem chunks buf -> rem !! i = Some l -> ((i + 1) * reg <= length buf)%nat.
Proof. intros [Hl Hb _] Hi. apply lookup_lt_Some in Hi. nia. Qed.

(** The state of a chunk in the code against the rows it stands for. *)
Lemma chunk_view rem chunks buf i l :
  chunks_rep rem chunks buf -> rem !! i = Some l ->
  exists c, chunks !! i = Some c /\ chunk_ok i c buf l /\
    match l with
    | [] => curSubChunk c = 0%nat /\ curChunkNum c = 0%nat
    | x :: _ => (0 < curSubChunk c)%nat /\ peek reg i c buf = Some x
    end.
Proof.
  intros Hr Hi. pose proof (section_fits _ _ _ _ _ Hr Hi) as Hb.
  destruct (cr_chunk _ _ _ Hr i l Hi) as (c & Hc & Hok & Hne).
  exists c. split_and!; auto. destruct l as [|x l].
  - pose proof (chunk_length _ _ _ _ Hb Hok) as Hl. simpl in Hl. lia.
  - destruct (chunk_head _ _ _ _ Hb Hok) as (y & l' & [= -> ->] & Hp & _); auto.
Qed.

Lemma first_chunk_spec rem chunks buf cur k : forall i,
  chunks_rep rem chunks buf -> (i + k <= n)%nat ->
  (exists j x l, (i <= j < i + k)%nat /\ rem !! j = Some (x :: l)) ->
  exists j x l, first_chunk reg i k chunks buf cur = Some (j, x) /\ (i <= j < i + k)%nat
    /\ rem !! j = Some (x :: l) /\ forall j', (i <= j' < j)%nat -> rem !! j' = Some [].
Proof.
  induction k as [|k IH]; intros i Hr Hk (j & x & l & Hj & Hx); [lia|].
  destruct (lookup_lt_is_Some_2 rem i) as [li Hi]; [rewrite (cr_length _ _ _ Hr); lia|].
  destruct (chunk_view _ _ _ _ _ Hr Hi) as (c & Hc & _ & Hv).
  cbn [first_chunk]. rewrite Hc. destruct li as [|y li].
  - destruct Hv as [-> _]. cbn [Nat.ltb Nat.leb].
    destruct (IH (S i)) as (j' & x' & l' & Hf & Hj' & Hx' & Hlow); auto; [lia| |].
    { exists j, x, l. split; [|done]. destruct (decide (i = j)) as [->|]; [congruence|lia]. }
    exists j', x', l'. split_and!; auto; [lia|lia|].
    intros q Hq. destruct (decide (q = i)) as [->|]; [done|]. apply Hlow. lia.
  - destruct Hv as [Hpos Hp]. rewrite (proj2 (Nat.ltb_lt _ _) Hpos), Hp.
    exists i, y, li. split_and!; auto; [lia|]. intros. lia.
Qed.

Context (rem : list (list row)) (Hrows : Forall (Forall (row_ok nv nm)) rem)
        (Hsorted : Forall (view_sorted nv) rem).

Lemma rem_ok i l : rem !! i = Some l -> Forall (row_ok nv nm) l /\ view_sorted nv l.
Proof. intros H. rewrite Forall_lookup in Hrows, Hsorted. eauto. Qed.

Lemma head_ok i x l : rem !! i = Some (x :: l) -> row_ok nv nm x.
Proof. intros H. apply rem_ok in H as [H _]. by inversion H. Qed.

Lemma min_chunk_spec chunks buf k : forall i j0 x0 l0,
  chunks_rep rem chunks buf -> (i + k <= n)%nat -> rem !! j0 = Some (x0 :: l0) ->
  exists j x l, min_chunk nv reg i k chunks buf (j0, x0) = Some (j, x)
    /\ rem !! j = Some (x :: l) /\ ~ key_lt nv x0 x
    /\ forall j' y l', (i <= j' < i + k)%nat -> rem !! j' = Some (y :: l') -> ~ key_lt nv y x.
Proof.
  induction k as [|k IH]; intros i j0 x0 l0 Hr Hk H0; cbn [min_chunk].
  { exists j0, x0, l0. split_and!; auto; [apply key_lt_irrefl|]. intros. lia. }
  destruct (lookup_lt_is_Some_2 rem i) as [li Hi]; [rewrite (cr_length _ _ _ Hr); lia|].
  destruct (chunk_view _ _ _ _ _ Hr Hi) as (c & Hc & _ & Hv). rewrite Hc.
  assert (Hskip : forall j1 x1 l1, rem !! j1 = Some (x1 :: l1) -> ~ key_lt nv x0 x1 ->
    (forall y l', li = y :: l' -> ~ key_lt nv y x1) ->
    exists j x l, min_chunk nv reg (S i) k chunks buf (j1, x1) = Some (j, x)
      /\ rem !! j = Some (x :: l) /\ ~ key_lt nv x0 x
      /\ forall j' y l', (i <= j' < i + S k)%nat -> rem !! j' = Some (y :: l') -> ~ key_lt nv y x).
  { intros j1 x1 l1 H1 H01 Hli.
    destruct (IH (S i) j1 x1 l1 Hr ltac:(lia) H1) as (j & x & l & Hm & Hx & Hx1 & Hall).
    assert (Hstep : forall y, row_ok nv nm y -> ~ key_lt nv y x1 -> ~ key_lt nv y x).
    { intros y Hy Hn Hl. apply Hn.
      destruct (key_cases nv nm x1 x) as [A|[A|A]]; eauto using head_ok; [done|..].
      - by apply (key_lt_ks_r nv y x1 x).
      - eapply (key_lt_trans nv nm y x x1); eauto using head_ok. }
    exists j, x, l. split_and!; eauto using head_ok.
    intros j' y l' Hj' Hy. destruct (decide (j' = i)) as [->|]; [|apply (Hall j' y l'); auto; lia].
    rewrite Hi in Hy. injection Hy as ->. eauto using head_ok. }
  destruct li as [|y li].
  - destruct Hv as [-> _]. cbn [Nat.ltb Nat.leb]. apply (Hskip j0 x0 l0); auto using key_lt_irrefl.
    done.
  - destruct Hv as [Hpos Hp]. rewrite (proj2 (Nat.ltb_lt _ _) Hpos), Hp. cbn [snd].
    destruct (Z.ltb_spec (KeyComp (ks y) (ks x0) nv) 0) as [Hlt|Hge].
    + apply (Hskip i y li); auto.
      * unfold key_lt. rewrite (KeyComp_antisym (ks y)). lia.
      * intros ? ? [= <- <-]. apply key_lt_irrefl.
    + apply (Hskip j0 x0 l0); auto using key_lt_irrefl.
      intros ? ? [= <- <-]. unfold key_lt. lia.
Qed.

(** Together the two loops pick a row with a smallest key. *)
Lemma pick_spec chunks buf cur : chunks_rep rem chunks buf -> concat rem <> [] ->
  exists cur' j x l, first_chunk reg 0 n chunks buf cur = Some cur'
    /\ min_chunk nv reg (fst cur') (n - fst cur') chunks buf cur' = Some (j, x)
    /\ rem !! j = Some (x :: l) /\ Forall (fun y => ~ key_lt nv y x) (concat rem).
Proof.
  intros Hr Hne.
  assert (Hex : exists j x l, (0 <= j < 0 + n)%nat /\ rem !! j = Some (x :: l)).
  { destruct (concat rem) as [|x l] eqn:E; [done|].
    assert (Hin : x ∈ concat rem) by (rewrite E; constructor).
    apply list_elem_of_In, in_concat in Hin as ([|y lx] & Hlx & Hin); [done|].
    apply list_elem_of_In, list_elem_of_lookup in Hlx as [j Hj].
    exists j, y, lx. split; [|done]. apply lookup_lt_Some in Hj.
    rewrite (cr_length _ _ _ Hr) in Hj. lia. }
  destruct (first_chunk_spec rem chunks buf cur n 0 Hr ltac:(lia) Hex)
    as (j0 & x0 & l0 & Hf & Hj0 & Hx0 & Hlow).
  destruct (min_chunk_spec chunks buf (n - j0) j0 j0 x0 l0 Hr ltac:(lia) Hx0)
    as (j & x & l & Hm & Hx & _ & Hall).
  exists (j0, x0), j, x, l. split_and!; auto.
  apply Forall_concat, Forall_forall. intros li Hli.
  apply list_elem_of_lookup in Hli as [i Hi].
  destruct li as [|y li]; [constructor|].
  assert (Hy : ~ key_lt nv y x).
  { destruct (decide (i < j0)%nat); [rewrite Hlow in Hi by lia; done|].
    apply (Hall i y li); [|done]. apply lookup_lt_Some in Hi.
    rewrite (cr_length _ _ _ Hr) in Hi. lia. }
  destruct (rem_ok _ _ Hi) as [Hok Hs]. inversion Hs as [|? ? Hs' Hyl]; subst.
  inversion Hok as [|? ? Hoky Hokl]; subst. constructor; [done|].
  apply (Forall_impl2 _ _ _ li Hokl Hyl). intros z Hz Hyz Hzx. apply Hy.
  apply (key_lt_trans nv nm y z x); eauto using head_ok.
Qed.

(** Taking the picked row. *)
Lemma take_row chunks buf j x l : chunks_rep rem chunks buf -> rem !! j = Some (x :: l) ->
  exists c, chunks !! j = Some c /\ (0 < curSubChunk c)%nat
    /\ chunk_ok j (mkCHUNKS (curChunkNum c) (chunkOffset c) (S (posSubChunk c))
                     (curSubChunk c - 1)) buf l
    /\ concat rem ≡ₚ x :: concat (<[j := l]> rem).
Proof.
  intros Hr Hj. destruct (chunk_view _ _ _ _ _ Hr Hj) as (c & Hc & Hok & Hpos & _).
  pose proof (section_fits _ _ _ _ _ Hr Hj) as Hb.
  destruct (chunk_head _ _ _ _ Hb Hok Hpos) as (y & l' & [= -> ->] & _ & Hok').
  exists c. split_and!; auto.
  rewrite <- (take_drop_middle rem j (y :: l') Hj) at 1.
  rewrite insert_take_drop by (by eapply lookup_lt_Some).
  rewrite !concat_app. cbn. solve_Permutation.
Qed.

(** After a row was taken and, if need be, the section refilled, the chunks
    stand for the remaining rows. *)
Lemma refill_spec chunks buf j x l c :
  chunks_rep rem chunks buf -> rem !! j = Some (x :: l) -> chunks !! j = Some c ->
  chunk_ok j (mkCHUNKS (curChunkNum c) (chunkOffset c) (S (posSubChunk c))
                (curSubChunk c - 1)) buf l ->
  let c1 := mkCHUNKS (curChunkNum c) (chunkOffset c) (S (posSubChunk c)) (curSubChunk c - 1) in
  exists chunks' buf',
    (if (curSubChunk c1 =? 0)%nat
     then ReadSubChunk recSize j reg file (<[j := c1]> chunks) buf
     else Some (<[j := c1]> chunks, buf)) = Some (chunks', buf')
    /\ chunks_rep (<[j := l]> rem) chunks' buf'.
Proof.
  intros Hr Hj Hc Hok c1. pose proof (section_fits _ _ _ _ _ Hr Hj) as Hb.
  assert (Hlj : (j < length rem)%nat) by (by eapply lookup_lt_Some).
  assert (Hlc : (j < length chunks)%nat) by (by eapply lookup_lt_Some).
  assert (Hgen : forall c' buf', length buf' = length buf ->
    (forall i, i <> j -> sect reg i buf' = sect reg i buf) -> chunk_ok j c' buf' l ->
    (l <> [] -> (0 < curSubChunk c')%nat) ->
    chunks_rep (<[j := l]> rem) (<[j := c']> chunks) buf').
  { intros c' buf' Hbl Hsect Hc' Hne. split.
    - rewrite length_insert. apply Hr.
    - rewrite Hbl. apply Hr.
    - intros i li Hi. destruct (decide (i = j)) as [->|Hij].
      + rewrite list_lookup_insert_eq in Hi by done. injection Hi as <-.
        exists c'. rewrite list_lookup_insert_eq by done. auto.
      + rewrite list_lookup_insert_ne in Hi by done.
        destruct (cr_chunk _ _ _ Hr i li Hi) as (ci & Hci & Hoki & Hnei).
        exists ci. rewrite list_lookup_insert_ne by done. split_and!; auto. by apply (chunk_ok_sect i ci buf); auto. }
  destruct (Nat.eqb_spec (curSubChunk c1) 0) as [H0|H0].
  - destruct (chunk_drained _ _ _ _ Hb Hok H0) as (o & Hl & Ho).
    unfold ReadSubChunk. rewrite list_lookup_insert_eq by done.
    destruct (Nat.ltb_spec 0 (curChunkNum c1)) as [Hpos|Hz].
    + destruct Ho as [Ho|[Hoff Hlen]]; [simpl in *; lia|].
      destruct (ReadSubChunk_spec j c1 (<[j := c1]> chunks) buf o) as
        (c' & buf' & Hrun & Hbl & Hcur & Hok' & Hsect); auto.
      { by rewrite list_lookup_insert_eq. }
      unfold ReadSubChunk in Hrun. rewrite list_lookup_insert_eq in Hrun by done.
      rewrite (proj2 (Nat.ltb_lt _ _) Hpos) in Hrun. rewrite Hrun.
      eexists _, _. split; [reflexivity|]. rewrite list_insert_insert_eq.
      apply Hgen; auto. rewrite Hl. exact Hok'.
    + eexists _, _. split; [reflexivity|]. apply Hgen; auto.
      intros Hne. exfalso. apply Hne. rewrite Hl.
      by replace (curChunkNum _) with 0%nat by (simpl in *; lia).
  - eexists _, _. split; [reflexivity|]. apply Hgen; auto. lia.
Qed.
End MergeSpec.

(** ** The view that is written *)

(** The checksums of rows that are written as the rows [n+1], [n+2], ... *)
Fixpoint mcs_rows (nm : nat) (n : Z) (l : list row) (cs : list Z) : list Z :=
  match l with
  | [] => cs
  | r :: l' => let n' := u32 (n + 1) in mcs_rows nm n' l' (merge_checksums nm n' cs (ms r))
  end.

Lemma mcs_rows_snoc nm r l : forall n cs, 
  mcs_rows nm (u32 n) (l ++ [r]) cs
  = merge_checksums nm (u32 (n + Z.of_nat (S (length l)))) (mcs_rows nm (u32 n) l cs) (ms r).
Proof.
  induction l as [|x l IH]; intros n cs; cbn [app mcs_rows length].
  - by rewrite wrapu_add_l by lia.
  - rewrite wrapu_add_l by lia. rewrite IH. f_equal. f_equal. lia.
Qed.

(** The part [vr] of the view has been written. *)
Record logged (nm : nat) (v0 : FILE) (s0 : sums) (vr : list row) (m : mstate) : Prop := {
  lg_space : (length vr <= fspace v0)%nat;
  lg_view : m_view m = mkFILE (frows v0 ++ vr) (fspace v0 - length vr);
  lg_nrows : m_nrows m = u32 (Z.of_nat (length vr));
  lg_sums : m_sums m = mkSums (sum_rows nm vr (mSums s0)) (mcs_rows nm 0 vr (checksums s0))
}.

Section Emit.
Context (nm nv : nat) (v0 : FILE) (s0 : sums).

Lemma write_rows_short l vr : length vr = fspace v0 -> vr `prefix_of` l -> (length vr < length l)%nat ->
  write_rows l v0 = (ADC_WRITE_FAILED, mkFILE (frows v0 ++ vr) 0).
Proof.
  intros Hl [k ->] Hlt. unfold write_rows. rewrite length_app in *.
  destruct (Nat.leb_spec (length vr + length k) (fspace v0)); [lia|].
  rewrite <- Hl, take_app_length. f_equal. f_equal. lia.
Qed.

Lemma write_rows_all l : (length l <= fspace v0)%nat ->
  write_rows l v0 = (ADC_OK, mkFILE (frows v0 ++ l) (fspace v0 - length l)).
Proof.
  intros Hl. unfold write_rows. rewrite take_ge by done.
  by destruct (Nat.leb_spec (length l) (fspace v0)); [|lia].
Qed.

Lemma emit_spec vr out m : logged nm v0 s0 vr m ->
  (exists m', emit nm out m = (ADC_OK, m') /\ logged nm v0 s0 (vr ++ [out]) m'
     /\ m_chunks m' = m_chunks m /\ m_buf m' = m_buf m)
  \/ (exists m', emit nm out m = (ADC_WRITE_FAILED, m') /\ length vr = fspace v0
     /\ m_view m' = mkFILE (frows v0 ++ vr) 0).
Proof.
  intros [Hs Hv Hn Hsum]. unfold emit, WriteToFile, fwrite. rewrite Hv. cbn [fspace frows].
  destruct (fspace v0 - length vr)%nat as [|sp] eqn:E; cbn [Z.eqb ADC_WRITE_FAILED negb].
  - right. eexists. split; [reflexivity|]. split; [lia|done].
  - left. eexists. split; [reflexivity|]. split_and!; [|done..].
    split; cbn [m_view m_nrows m_sums]; rewrite ?length_app; cbn [length].
    + lia.
    + rewrite <- app_assoc. f_equal. lia.
    + rewrite Hn, wrapu_add_l by lia. f_equal. lia.
    + rewrite Hsum, Hn, wrapu_add_l by lia. cbn [mSums checksums]. f_equal.
      * unfold sum_rows. by rewrite fold_left_app.
      * pose proof (mcs_rows_snoc nm out vr 0 (checksums s0)) as Hc.
        change (u32 0) with 0 in Hc. rewrite Hc. f_equal. f_equal. lia.
Qed.
End Emit.

(** ** The loop *)

Section MergeLoop.
Context (nm nv reg n : nat) (recSize : Z) (file : list row) (v0 : FILE) (s0 : sums).
Context (Hreg : (0 < reg)%nat) (Hrec : 0 < recSize)
        (Hsmall : Z.of_nat reg * recSize < 2 ^ 32)
        (Hfile : recSize * Z.of_nat (length file) < 2 ^ 62).
Abbreviation ok := (row_ok nv nm).
Abbreviation rep_chunks := (chunks_rep reg n recSize file).

(** [total] is the view of all rows: [vr] of it is written, the row [out] is
    in the output buffer and the rows [rem] are still to be taken. *)
Definition pending (total vr : list row) (out : option row) (l : list row) : Prop :=
  match out with
  | None => vr = [] /\ total = insert_all nv nm l []
  | Some o => total = vr ++ insert_all nv nm l [o] /\ ok o /\ Forall (fun y => ~ key_lt nv y o) l
  end.

Record minv (total : list row) (rem : list (list row)) (m : mstate) : Prop := {
  mi_rep : rep_chunks rem (m_chunks m) (m_buf m);
  mi_rows : Forall (Forall ok) rem;
  mi_sorted : Forall (view_sorted nv) rem;
  mi_view : exists vr, logged nm v0 s0 vr m /\ pending total vr (m_out m) (concat rem)
}.

Lemma insert_all_skip o l v : Forall (key_lt nv o) l ->
  insert_all nv nm l (o :: v) = o :: insert_all nv nm l v.
Proof.
  intros H. revert v. induction H as [|x l Hx Hl IH]; intros v; [done|].
  by rewrite !insert_all_cons, (ins_gt nv nm x o v Hx), IH.
Qed.

(** Taking a smallest row [x] of [x :: l]. *)
Lemma pending_same total vr o x l : pending total vr (Some o) (x :: l) -> ok x ->
  Forall ok l -> KeyComp (ks o) (ks x) nv = 0 ->
  pending total vr (Some (merge_row nm o x)) l.
Proof.
  intros (-> & Ho & Hl) Hx Hok E. apply KeyComp_eq in E; [|apply Ho|apply Hx].
  split_and!; [|by apply merge_row_ok|by inversion Hl].
  by rewrite insert_all_cons, (ins_eq nv nm x o []).
Qed.

Lemma pending_next total vr o x l : pending total vr (Some o) (x :: l) -> ok x ->
  Forall ok l -> KeyComp (ks o) (ks x) nv <> 0 -> Forall (fun y => ~ key_lt nv y x) l ->
  pending total (vr ++ [o]) (Some x) l
  /\ total = (vr ++ [o]) ++ insert_all nv nm l [x].
Proof.
  intros (-> & Ho & Hl) Hx Hok E Hmin. inversion Hl as [|? ? Hxo _]; subst.
  assert (Hox : key_lt nv o x).
  { destruct (key_cases nv nm o x Ho Hx) as [A|[A|A]]; [done| |done].
    rewrite A, KeyComp_refl in E. done. }
  assert (Heq : vr ++ insert_all nv nm (x :: l) [o] = (vr ++ [o]) ++ insert_all nv nm l [x]).
  { rewrite <- app_assoc. f_equal. rewrite insert_all_cons, (ins_gt nv nm x o [] Hox). apply insert_all_skip.
    apply (Forall_impl2 _ _ _ l Hok Hmin). intros y Hy Hn.
    destruct (key_cases nv nm x y Hx Hy) as [A|[A|A]]; [|by apply (key_lt_ks_r nv o x y A)|done].
    by apply (key_lt_trans nv nm o x y). }
  split; [|done]. by split_and!.
Qed.

Lemma pending_first total vr x l : pending total vr None (x :: l) -> ok x ->
  Forall (fun y => ~ key_lt nv y x) l -> vr = [] /\ pending total [] (Some x) l.
Proof. intros [-> ->] Hx Hl. by split_and!. Qed.

Lemma pending_perm total vr out l l' : l ≡ₚ l' -> Forall ok l -> 
  pending total vr out l -> pending total vr out l'.
Proof.
  intros Hp Hok. destruct out as [o|]; cbn.
  - intros (-> & Ho & Hl). split_and!; [|done|by rewrite <- Hp].
    f_equal. apply insert_all_perm; auto.
  - intros [-> ->]. split; [done|]. by apply insert_all_perm.
Qed.

(** The outcome of aggregating one row. *)
Lemma absorb_spec total vr x l m :
  logged nm v0 s0 vr m -> pending total vr (m_out m) (x :: l) -> ok x -> Forall ok l ->
  Forall (fun y => ~ key_lt nv y x) l ->
  exists rc m', absorb nm nv x m = (rc, m') /\
    (rc = ADC_OK /\ m_chunks m' = m_chunks m /\ m_buf m' = m_buf m
       /\ (exists vr' o, logged nm v0 s0 vr' m' /\ m_out m' = Some o /\ pending total vr' (Some o) l)
     \/ rc = ADC_WRITE_FAILED /\ write_rows total v0 = (rc, m_view m')).
Proof.
  intros Hlog Hp Hx Hok Hmin. unfold absorb. destruct (m_out m) as [o|].
  - destruct (Z.eqb_spec (KeyComp (ks o) (ks x) nv) 0) as [E|E].
    + eexists _, _. split; [reflexivity|]. left. split_and!; try done.
      exists vr, (merge_row nm o x). split_and!; [by destruct Hlog|done|by apply pending_same].
    + destruct (pending_next _ _ _ _ _ Hp Hx Hok E Hmin) as [Hn Ht].
      destruct (emit_spec nm v0 s0 vr o m Hlog) as [(m' & -> & Hlog' & Hc & Hb)|(m' & -> & Hl & Hv)].
      * eexists _, _. split; [reflexivity|]. left. split_and!; try done.
        exists (vr ++ [o]), x. split_and!; [by destruct Hlog'|done|done].
      * eexists _, _. split; [reflexivity|]. right. split; [done|]. rewrite Hv.
        apply write_rows_short; [done|..]; rewrite Ht, <- !app_assoc.
        -- by apply prefix_app_r.
        -- rewrite !length_app. simpl. lia.
  - destruct (pending_first _ _ _ _ Hp Hx Hmin) as [-> Hp'].
    eexists _, _. split; [reflexivity|]. left. split_and!; try done.
    exists [], x. split_and!; [by destruct Hlog|done|done].
Qed.

(** The loop stops when every chunk is empty. *)
Lemma exhausted_spec (rem : list (list row)) chunks : length rem = n ->
  (forall i l, rem !! i = Some l -> exists c, chunks !! i = Some c
     /\ length l = (curSubChunk c + curChunkNum c)%nat) ->
  forallb exhausted (take n chunks) = true <-> concat rem = [].
Proof.
  intros Hn Hrep. rewrite forallb_forall. split.
  - intros Hall. enough (Forall (fun l => l = []) rem) as Hnil.
    { clear -Hnil. induction Hnil as [|l rem -> _ IH]; [done|exact IH]. }
    apply Forall_forall. intros l Hl. apply list_elem_of_lookup in Hl as [i Hi].
    destruct (Hrep i l Hi) as (c & Hc & Hlen).
    assert (Hx : exhausted c = true).
    { apply Hall, list_elem_of_In, list_elem_of_lookup. exists i.
      rewrite lookup_take_lt; [done|]. apply lookup_lt_Some in Hi. lia. }
    unfold exhausted in Hx. apply andb_prop in Hx as [?%Nat.eqb_eq ?%Nat.eqb_eq].
    destruct l; [done|]. simpl in Hlen. lia.
  - intros Hnil c Hc. apply list_elem_of_In, list_elem_of_lookup in Hc as [i Hi].
    apply lookup_take_Some in Hi as [Hi Hlt].
    destruct (lookup_lt_is_Some_2 rem i) as [l Hl]; [lia|].
    destruct (Hrep i l Hl) as (c' & Hc' & Hlen). rewrite Hi in Hc'. injection Hc' as <-.
    assert (l = []) as ->.
    { destruct l as [|x l]; [done|]. exfalso. apply (not_elem_of_nil x). rewrite <- Hnil.
      apply list_elem_of_In, in_concat. exists (x :: l). split; [|by left].
      apply list_elem_of_In, list_elem_of_lookup. eauto. }
    unfold exhausted. simpl in Hlen. apply andb_true_intro. split; apply Nat.eqb_eq; lia.
Qed.

Lemma chunk_lengths rem chunks buf j c l : rep_chunks rem chunks buf ->
  (j < n)%nat -> chunks !! j <> None -> chunk_ok reg recSize file j c buf l ->
  forall i l', <[j := l]> rem !! i = Some l' -> exists c', <[j := c]> chunks !! i = Some c'
    /\ length l' = (curSubChunk c' + curChunkNum c')%nat.
Proof.
  intros Hr Hj Hcj Hok i l' Hi. pose proof (cr_length _ _ _ _ _ _ _ Hr) as Hn.
  assert (Hb : forall q, (q < n)%nat -> ((q + 1) * reg <= length buf)%nat).
  { intros q Hq. pose proof (cr_buf _ _ _ _ _ _ _ Hr). nia. }
  destruct (decide (i = j)) as [->|Hij].
  - rewrite list_lookup_insert_eq in Hi by lia. injection Hi as <-.
    exists c. rewrite list_lookup_insert_eq.
    + split; [done|]. by apply (chunk_length reg recSize file Hreg Hrec j c buf); auto.
    + apply lookup_lt_is_Some. by destruct (chunks !! j).
  - rewrite list_lookup_insert_ne in Hi by done.
    destruct (cr_chunk _ _ _ _ _ _ _ Hr i l' Hi) as (c' & Hc & Hok' & _).
    exists c'. rewrite list_lookup_insert_ne by done. split; [done|].
    apply lookup_lt_Some in Hi. apply (chunk_length reg recSize file Hreg Hrec i c' buf); [apply Hb; lia|done].
Qed.

Definition round_ok (total : list row) (rem : list (list row)) (b : bool) (m' : mstate) : Prop :=
  if b then exists rem', S (length (concat rem')) = length (concat rem) /\ concat rem' <> []
                         /\ minv total rem' m'
  else exists vr o, logged nm v0 s0 vr m' /\ m_out m' = Some o /\ total = vr ++ [o].

Lemma merge_round_spec total rem m : minv total rem m -> concat rem <> [] ->
  exists rc b m', merge_round nm nv reg n recSize file m = Some (rc, b, m') /\
    (rc = ADC_OK /\ round_ok total rem b m'
     \/ rc = ADC_WRITE_FAILED /\ b = false /\ write_rows total v0 = (rc, m_view m')).
Proof.
  intros [Hr Hrows Hsort (vr & Hlog & Hpend)] Hne. unfold merge_round.
  destruct (pick_spec nm nv reg n recSize file Hreg Hrec rem Hrows Hsort (m_chunks m) (m_buf m) (m_min m) Hr Hne)
    as (cur & j & x & l & -> & -> & Hj & Hmin).
  destruct (take_row reg n recSize file Hreg Hrec rem (m_chunks m) (m_buf m) j x l Hr Hj)
    as (c & Hc & Hpos & Hok & Hperm).
  rewrite Hc. destruct (Nat.eqb_spec (curSubChunk c) 0); [lia|]. cbn [negb].
  assert (Hall : Forall ok (x :: concat (<[j:=l]> rem))).
  { rewrite <- Hperm. by apply Forall_concat. }
  inversion Hall as [|? ? Hx Hrest]; subst.
  assert (Hmin' : Forall (fun y => ~ key_lt nv y x) (concat (<[j:=l]> rem))).
  { rewrite Hperm in Hmin. by inversion Hmin. }
  set (c1 := mkCHUNKS _ _ (S _) _) in *.
  destruct (absorb_spec total vr x (concat (<[j:=l]> rem))
    (mkM (<[j := c1]> (m_chunks m)) (m_buf m) (j, x) (m_out m) (m_view m) (m_nrows m) (m_sums m)))
    as (rc & m' & -> & [(-> & Hc' & Hb' & vr' & o & Hlog' & Ho & Hp')|[-> Hw]]); auto.
  { by destruct Hlog. }
  { eapply pending_perm; [exact Hperm|by apply Forall_concat|exact Hpend]. }
  2: { eexists _, _, _. split; [reflexivity|]. right. split_and!; auto. }
  cbn [negb Z.eqb ADC_OK m_chunks m_buf] in *. rewrite Hc'.
  assert (Hrem' : Forall (Forall ok) (<[j:=l]> rem) /\ Forall (view_sorted nv) (<[j:=l]> rem)).
  { split; apply Forall_insert; auto.
    - rewrite Forall_lookup in Hrows. specialize (Hrows _ _ Hj). by inversion Hrows.
    - rewrite Forall_lookup in Hsort. specialize (Hsort _ _ Hj). by inversion Hsort. }
  assert (Hjn : (j < n)%nat).
  { rewrite <- (cr_length _ _ _ _ _ _ _ Hr). by eapply lookup_lt_Some. }
  pose proof (exhausted_spec (<[j:=l]> rem) (<[j:=c1]> (m_chunks m))) as Hex.
  rewrite length_insert in Hex. specialize (Hex (cr_length _ _ _ _ _ _ _ Hr)).
  specialize (Hex (chunk_lengths _ _ _ _ c1 l Hr Hjn ltac:(by rewrite Hc) Hok)).
  destruct (forallb exhausted _).
  { eexists _, _, _. split; [reflexivity|]. left. split; [done|].
    exists vr', o. split_and!; auto. destruct Hp' as [-> _].
    by rewrite (proj1 Hex eq_refl). }
  rewrite list_lookup_insert_eq by (by eapply lookup_lt_Some).
  destruct (refill_spec reg n recSize file Hreg Hrec Hsmall Hfile rem
    (m_chunks m) (m_buf m) j x l c Hr Hj Hc Hok) as (chunks' & buf' & Hrun & Hr').
  fold c1 in Hrun. rewrite Hb'.
  assert (Hlen : S (length (concat (<[j:=l]> rem))) = length (concat rem)).
  { apply Permutation_length in Hperm. simpl in Hperm. lia. }
  assert (Hne' : concat (<[j:=l]> rem) <> []) by (intros E; by apply Hex in E).
  destruct (curSubChunk c1 =? 0)%nat.
  - rewrite Hrun. eexists _, _, _. split; [reflexivity|]. left. split; [done|].
    exists (<[j:=l]> rem). split_and!; auto. destruct Hrem'.
    split; cbn [m_chunks m_buf m_out]; auto. exists vr'. rewrite Ho.
    split; [by destruct Hlog'|done].
  - injection Hrun as <- <-. eexists _, _, _. split; [reflexivity|]. left. split; [done|].
    exists (<[j:=l]> rem). split_and!; auto. destruct Hrem'.
    split; auto; [by rewrite Hc', Hb'|]. exists vr'. by rewrite Ho.
Qed.

Lemma merge_loop_spec total fuel : forall rem m, minv total rem m -> concat rem <> [] ->
  (length (concat rem) <= fuel)%nat ->
  exists rc m', merge_loop fuel nm nv reg n recSize file m = Some (rc, m') /\
    (rc = ADC_OK /\ round_ok total rem false m'
     \/ rc = ADC_WRITE_FAILED /\ write_rows total v0 = (rc, m_view m')).
Proof.
  induction fuel as [|fuel IH]; intros rem m Hm Hne Hf.
  { destruct (concat rem); [done|simpl in Hf; lia]. }
  cbn [merge_loop].
  destruct (merge_round_spec total rem m Hm Hne) as (rc & b & m' & -> & [[-> Hok]|(-> & -> & Hw)]).
  - destruct b; [|eauto 10]. destruct Hok as (rem' & Hl & Hne' & Hm').
    apply (IH rem' m' Hm' Hne'). lia.
  - eauto 10.
Qed.
End MergeLoop.

(** ** Filling the buffer *)

Section ReadAll.
Context (reg n : nat) (recSize : Z) (runs : list (list row)).
Abbreviation file := (concat runs).
Context (Hreg : (0 < reg)%nat) (Hrec : 0 < recSize)
        (Hsmall : Z.of_nat reg * recSize < 2 ^ 32)
        (Hfile : recSize * Z.of_nat (length file) < 2 ^ 62).
Context (Hn : length runs = n) (Hne : Forall (fun r => r <> []) runs).

Lemma concat_slice i run : runs !! i = Some run ->
  take (length run) (drop (length (concat (take i runs))) file) = run
  /\ (length (concat (take i runs)) + length run <= length file)%nat.
Proof.
  intros Hi. rewrite <- (take_drop_middle runs i run Hi) at 2 4.
  rewrite concat_app, drop_app_length. cbn. rewrite take_app_length, !length_app.
  split; [done|lia].
Qed.

(** The first [i] chunks are in the buffer, the others in the file only. *)
Definition partly_read (i : nat) (chunks : list CHUNKS) (buf : list row) : Prop :=
  forall q run, runs !! q = Some run ->
    if decide (q < i)%nat
    then exists c, chunks !! q = Some c /\ chunk_ok reg recSize file q c buf run
                   /\ (0 < curSubChunk c)%nat
    else exists p c, chunks !! q = Some (mkCHUNKS (length run)
           (recSize * Z.of_nat (length (concat (take q runs)))) p c).

Lemma read_one i run chunks buf : (n * reg <= length buf)%nat -> runs !! i = Some run ->
  partly_read i chunks buf ->
  exists chunks' buf', ReadSubChunk recSize i reg file chunks buf = Some (chunks', buf')
    /\ length buf' = length buf /\ partly_read (S i) chunks' buf'.
Proof.
  intros Hb Hi Hp. pose proof (Hp i run Hi) as Hrow. rewrite decide_False in Hrow by lia.
  destruct Hrow as (p & c & Hc). destruct (concat_slice i run Hi) as [Hsl Hlen].
  assert (Hin : (i < n)%nat) by (rewrite <- Hn; by eapply lookup_lt_Some).
  assert (Hpos : (0 < length run)%nat).
  { rewrite Forall_lookup in Hne. specialize (Hne _ _ Hi). destruct run; [done|simpl; lia]. }
  destruct (ReadSubChunk_spec reg recSize file Hreg Hrec Hsmall Hfile i _ chunks buf
    (length (concat (take i runs))) Hc)
    as (c' & buf' & Hrun & Hbl & Hcur & Hok & Hsect); cbn; eauto; [nia|].
  eexists _, _. split; [exact Hrun|]. split; [done|]. intros q run' Hq.
  destruct (decide (q = i)) as [->|Hqi].
  - rewrite decide_True by lia. rewrite Hi in Hq. injection Hq as <-.
    exists c'. rewrite list_lookup_insert_eq by (by eapply lookup_lt_Some).
    cbn in Hok. rewrite Hsl in Hok. auto.
  - specialize (Hp q run' Hq). rewrite list_lookup_insert_ne by done.
    destruct (decide (q < i)%nat) as [Hlt|Hge].
    + rewrite decide_True by lia. destruct Hp as (cq & Hcq & Hokq & Hposq).
      exists cq. split_and!; auto. by apply (chunk_ok_sect reg recSize file q cq buf); auto.
    + by rewrite decide_False by lia.
Qed.

Lemma read_all_spec k : forall i chunks buf, (n * reg <= length buf)%nat ->
  (i + k = n)%nat -> partly_read i chunks buf ->
  exists chunks' buf', read_all recSize i k reg file chunks buf = Some (chunks', buf')
    /\ chunks_rep reg n recSize file runs chunks' buf'.
Proof.
  induction k as [|k IH]; intros i chunks buf Hb Hk Hp; cbn [read_all].
  - eexists _, _. split; [reflexivity|]. split; auto. intros q run Hq.
    specialize (Hp q run Hq). rewrite decide_True in Hp by (apply lookup_lt_Some in Hq; lia).
    destruct Hp as (c & Hc & Hok & Hpos). eauto.
  - destruct (lookup_lt_is_Some_2 runs i) as [run Hrun]; [lia|].
    destruct (read_one i run chunks buf Hb Hrun Hp) as (chunks' & buf' & -> & Hbl & Hp').
    apply IH; [by rewrite Hbl|lia|done].
Qed.
End ReadAll.

(** The fuel: the table counts the rows of all runs. *)
Lemma run_table_sum recSize runs chunks : run_table recSize runs chunks ->
  (length (concat runs) <= list_sum (curChunkNum <$> chunks))%nat.
Proof.
  intros Ht.
  assert (H : forall i, (i <= length runs)%nat ->
    (length (concat (take i runs)) <= list_sum (take i (curChunkNum <$> chunks)))%nat).
  { induction i as [|i IH]; intros Hi; [simpl; lia|].
    destruct (lookup_lt_is_Some_2 runs i) as [run Hrun]; [lia|].
    destruct (Ht i run Hrun) as (p & c & Hc).
    assert (Hc' : (curChunkNum <$> chunks) !! i = Some (length run)).
    { by rewrite list_lookup_fmap, Hc. }
    rewrite (take_S_r _ _ _ Hrun), (take_S_r _ _ _ Hc').
    rewrite concat_snoc, length_app, list_sum_app. simpl. specialize (IH ltac:(lia)). lia. }
  specialize (H (length runs) ltac:(lia)). rewrite firstn_all in H.
  rewrite <- (take_drop (length runs) (curChunkNum <$> chunks)), list_sum_app. lia.
Qed.

(** ** MultiWayMerge *)

Section Merge.
Context {T : Type} `{RowTreeLaws T}.
Implicit Types a : ADC_VIEW_CNTL T.

Definition sub_chunk_size a : nat :=
  Z.to_nat (a_memoryLimit a / Z.of_nat (numberOfChunks a) / outRecSize a).

(** The pool, seen as rows of the view. *)
Definition pool_rows a (pool : list row) : Prop :=
  0 <= a_memoryLimit a < 2 ^ 32 /\ length pool = Z.to_nat (a_memoryLimit a / outRecSize a).

(** What the merge leaves when it wrote the whole view. *)
Definition merged a (total : list row) (rc : Z) a' : Prop :=
  write_rows total (viewFile a) = (rc, viewFile a')
  /\ (rc = ADC_OK ->
       nViewRows a' = u32 (Z.of_nat (length total))
       /\ totalOfViewRows a' = u32 (totalOfViewRows a + u32 (Z.of_nat (length total)))
       /\ a_sums a' = mkSums (sum_rows (a_nm a) total (mSums (a_sums a)))
                             (mcs_rows (a_nm a) 0 total (checksums (a_sums a)))).

Lemma sub_chunks_fit a pool : (0 < numberOfChunks a)%nat -> 0 < outRecSize a ->
  pool_rows a pool ->
  (numberOfChunks a * sub_chunk_size a <= length pool)%nat
  /\ Z.of_nat (sub_chunk_size a) * outRecSize a < 2 ^ 32.
Proof.
  intros Hn Hr [Hm Hp]. unfold sub_chunk_size. rewrite Hp.
  set (n := Z.of_nat (numberOfChunks a)). assert (0 < n) by lia.
  assert (0 <= a_memoryLimit a / n) by (apply Z.div_pos; lia).
  assert (0 <= a_memoryLimit a / n / outRecSize a) by (apply Z.div_pos; lia).
  pose proof (Z.mul_div_le (a_memoryLimit a / n) (outRecSize a) Hr).
  pose proof (Z.mul_div_le (a_memoryLimit a) n ltac:(lia)).
  assert (n * (a_memoryLimit a / n / outRecSize a) <= a_memoryLimit a / outRecSize a).
  { apply Z.div_le_lower_bound; nia. }
  split; [|nia]. apply Nat2Z.inj_le. rewrite Nat2Z.inj_mul, !Z2Nat.id; [done|..].
  - apply Z.div_pos; lia.
  - done.
Qed.

Lemma merge_run a pool min0 runs :
  runs <> [] -> Forall (fun r => r <> []) runs ->
  Forall (Forall (row_ok (a_nv a) (a_nm a))) runs -> Forall (view_sorted (a_nv a)) runs ->
  numberOfChunks a = length runs -> run_table (outRecSize a) runs (chunksParams a) ->
  frows (fileOfChunks a) = concat runs -> 0 < outRecSize a ->
  outRecSize a * Z.of_nat (length (concat runs)) < 2 ^ 62 ->
  pool_rows a pool -> (0 < sub_chunk_size a)%nat ->
  exists rc a', MultiWayMerge pool min0 a = Some (rc, a')
    /\ merged a (aggregate (a_nv a) (a_nm a) (concat runs)) rc a'.
Proof.
  intros Hruns Hne Hok Hsort Hn Htab Hfile Hrec Hlen Hpool Hreg.
  destruct (sub_chunks_fit a pool) as [Hfit Hsmall]; auto.
  { rewrite Hn. destruct runs; [done|simpl; lia]. }
  assert (Hcat : concat runs <> []).
  { destruct Hne as [|[|] ?]; done. }
  unfold MultiWayMerge. fold (sub_chunk_size a).
  destruct (Nat.eqb_spec (numberOfChunks a) 0) as [E|_]; [destruct runs; simpl in *; [done|lia]|].
  destruct (Nat.eqb_spec (sub_chunk_size a) 0); [lia|]. rewrite Hfile.
  destruct (read_all_spec (sub_chunk_size a) (numberOfChunks a) (outRecSize a) runs Hreg Hrec
    Hsmall Hlen (eq_sym Hn) Hne (numberOfChunks a) 0 (chunksParams a) pool Hfit eq_refl)
    as (chunks & buf & -> & Hrep).
  { intros q run Hq. rewrite decide_False by lia. by apply Htab. }
  destruct (merge_loop_spec (a_nm a) (a_nv a) (sub_chunk_size a) (numberOfChunks a)
    (outRecSize a) (concat runs) (viewFile a) (a_sums a) Hreg Hrec Hsmall Hlen
    (aggregate (a_nv a) (a_nm a) (concat runs)) (S (list_sum (curChunkNum <$> chunksParams a)))
    runs (mkM chunks buf min0 None (viewFile a) 0 (a_sums a)))
    as (rc & m & -> & [[-> (vr & o & Hlog & Ho & Htot)]|[-> Hw]]); auto.
  - split; auto. exists []. split; [|done]. split; simpl; [lia| |done|by destruct (a_sums a)].
    rewrite app_nil_r, Nat.sub_0_r. by destruct (viewFile a).
  - pose proof (run_table_sum _ _ _ Htab). lia.
  - cbn [negb Z.eqb ADC_OK]. rewrite Ho.
    destruct (emit_spec (a_nm a) (viewFile a) (a_sums a) vr o m Hlog)
      as [(m' & -> & [Hs Hv Hnr Hsum] & _)|(m' & -> & Hl & Hv)]; cbn [negb Z.eqb ADC_OK ADC_WRITE_FAILED].
    + eexists _, _. split; [reflexivity|]. rewrite Htot. split; cbn.
      * rewrite Hv. by apply write_rows_all.
      * intros _. by rewrite Hnr, Hsum.
    + eexists _, _. split; [reflexivity|]. split; [|done]. cbn. rewrite Hv, Htot.
      apply write_rows_short; [done|by apply prefix_app_r|]. rewrite length_app. simpl. lia.
  - cbn [negb Z.eqb ADC_WRITE_FAILED]. eexists _, _. split; [reflexivity|]. by split.
Qed.

Lemma chunks_few a0 a runs off : chunks_ok a0 runs off a ->
  (length runs <= MAX_NUM_OF_CHUNKS)%nat.
Proof.
  intros Hc. destruct runs as [|run runs _] using rev_ind; [simpl; lia|].
  rewrite length_app. simpl.
  destruct (co_table _ _ _ _ Hc (length runs) run) as (p & c & Hl).
  { by rewrite lookup_app_r, Nat.sub_diag by lia. }
  apply lookup_lt_Some in Hl. rewrite (co_size _ _ _ _ Hc) in Hl. lia.
Qed.

(** After [RunFormation]. *)
Lemma MultiWayMerge_run a0 a gs off pool min0 :
  avp_ok a0 -> gs <> [] -> Forall (fun g => g <> []) gs ->
  Forall (row_ok (a_nv a0) (a_nm a0)) (concat gs) ->
  (0 < a_nm a0 \/ 0 < a_nv a0)%nat ->
  chunks_ok a0 (aggregate (a_nv a0) (a_nm a0) <$> gs) off a ->
  pool_rows a pool -> (0 < sub_chunk_size a)%nat ->
  exists rc a', MultiWayMerge pool min0 a = Some (rc, a')
    /\ merged a (aggregate (a_nv a0) (a_nm a0) (concat gs)) rc a'.
Proof.
  intros Hok Hgs Hne Hrows Hpos Hc Hpool Hreg.
  destruct (co_same _ _ _ _ Hc) as (E1 & E2 & E3 & E4 & _).
  assert (Hg : Forall (Forall (row_ok (a_nv a0) (a_nm a0))) gs).
  { apply Forall_forall. intros g Hin. rewrite Forall_forall in Hrows |- *. intros r Hr.
    apply Hrows. apply list_elem_of_In, in_concat. exists g. by rewrite <- !list_elem_of_In. }
  assert (Hrec : 0 < outRecSize a0) by (rewrite (ao_rec _ Hok); unfold DIM_FSZ, MSR_FSZ; lia).
  rewrite <- E1, <- E2 in *.
  rewrite <- (aggregate_of_runs (a_nv a) (a_nm a) gs) by done.
  apply merge_run; rewrite ?E4; auto.
  - intros Hnil. by apply fmap_nil_inv in Hnil.
  - apply Forall_fmap. apply (Forall_impl _ _ _ Hne). intros g Hgn Hnil.
    destruct g as [|x g _] using rev_ind; [done|].
    cbn in Hnil. rewrite aggregate_snoc in Hnil. by apply agg_insert_not_nil in Hnil.
  - apply Forall_fmap. apply (Forall_impl _ _ _ Hg). intros g. apply aggregate_ok.
  - apply Forall_fmap. apply (Forall_impl _ _ _ Hg). intros g. apply aggregate_sorted.
  - apply Hc.
  - apply Hc.
  - apply Hc.
  - pose proof (co_off _ _ _ _ Hc). pose proof (co_offbound _ _ _ _ Hc).
    pose proof (chunks_few _ _ _ _ Hc) as Hfew. unfold MAX_NUM_OF_CHUNKS in Hfew. lia.
Qed.
End Merge.
