(* ===== verification/BuildSpec.v ===== *)
(** * One view of the cube, whichever way it is built

    [build_view] appends the aggregated view of the projected rows to the view
    file; it fails only when a file is full, when the runs do not fit the
    chunk table, or when the pool cannot hold a row of every run. *)

From Stdlib Require Import ZArith Lia Sorted.
From stdpp Require Import base gmap numbers option list.
From S2P Require Import Prelude Rows RBTree RBSpec ViewFiles ExtSort RunSpec MergeSpec.

(** ** The length of the chunk table never changes *)

Lemma ReadSubChunk_length recSize i reg file chunks buf chunks' buf' :
  ReadSubChunk recSize i reg file chunks buf = Some (chunks', buf') ->
  length chunks' = length chunks.
Proof.
  unfold ReadSubChunk. intros Hrun. repeat case_match; simplify_eq; by rewrite ?length_insert.
Qed.

Lemma read_all_length recSize n reg file : forall i chunks buf chunks' buf',
  read_all recSize i n reg file chunks buf = Some (chunks', buf') ->
  length chunks' = length chunks.
Proof.
  induction n as [|n IH]; cbn [read_all]; intros i chunks buf chunks' buf' Hrun; [by simplify_eq|].
  destruct (ReadSubChunk _ _ _ _ _ _) as [[c b]|] eqn:E; [|done].
  rewrite (IH _ _ _ _ _ Hrun). by eapply ReadSubChunk_length.
Qed.

Lemma emit_chunks nm out m : m_chunks (snd (emit nm out m)) = m_chunks m.
Proof. unfold emit. destruct (WriteToFile _ _) as [rc f]. by destruct (negb _). Qed.

Lemma absorb_chunks nm nv r m : m_chunks (snd (absorb nm nv r m)) = m_chunks m.
Proof.
  unfold absorb. destruct (m_out m) as [out|]; [|done]. destruct (_ =? 0); [done|].
  rewrite <- (emit_chunks nm out m). destruct (emit nm out m) as [rc m']. by destruct (negb _).
Qed.

Lemma merge_round_length nm nv reg n recSize file m rc b m' :
  merge_round nm nv reg n recSize file m = Some (rc, b, m') ->
  length (m_chunks m') = length (m_chunks m).
Proof.
  unfold merge_round. intros Hrun. repeat case_match; simplify_eq; cbn [m_chunks];
    repeat match goal with
    | E : absorb ?a ?b ?r ?m = (_, _) |- _ =>
        pose proof (absorb_chunks a b r m) as Ha; rewrite E in Ha; cbn [snd m_chunks] in Ha; clear E
    | E : ReadSubChunk _ _ _ _ _ _ = Some _ |- _ => apply ReadSubChunk_length in E
    end; repeat match goal with
    | E : length _ = length (m_chunks _) |- _ => rewrite E; clear E
    | E : m_chunks _ = _ |- _ => rewrite E; clear E end; by rewrite ?length_insert.
Qed.

Lemma merge_loop_length fuel nm nv reg n recSize file : forall m rc m',
  merge_loop fuel nm nv reg n recSize file m = Some (rc, m') ->
  length (m_chunks m') = length (m_chunks m).
Proof.
  induction fuel as [|fuel IH]; cbn [merge_loop]; intros m rc m' Hrun; [done|].
  destruct (merge_round nm nv reg n recSize file m) as [[[rc1 b] m1]|] eqn:E; [|done].
  apply merge_round_length in E. rewrite <- E. destruct b; [by eapply IH|by simplify_eq].
Qed.

(** What [MultiWayMerge] does not touch. *)
Lemma MultiWayMerge_frame {T} pool min0 (a : ADC_VIEW_CNTL T) rc a' :
  MultiWayMerge pool min0 a = Some (rc, a') ->
  a_nm a' = a_nm a /\ a_nv a' = a_nv a /\ outRecSize a' = outRecSize a
  /\ a_memoryLimit a' = a_memoryLimit a /\ a_tree a' = a_tree a
  /\ fileOfChunks a' = fileOfChunks a /\ numberOfChunks a' = numberOfChunks a
  /\ length (chunksParams a') = length (chunksParams a).
Proof.
  unfold MultiWayMerge. intros Hrun. repeat case_match; simplify_eq; split_and!; try done;
    cbn [chunksParams];
    repeat match goal with
    | E : emit ?nm ?out ?m = (_, _) |- _ =>
        pose proof (emit_chunks nm out m) as He; rewrite E in He; cbn [snd] in He; rewrite He; clear E
    | E : merge_loop _ _ _ _ _ _ _ _ = Some _ |- _ =>
        apply merge_loop_length in E; cbn [m_chunks] in E; rewrite E
    | E : read_all _ _ _ _ _ _ _ = Some _ |- _ => apply read_all_length in E; rewrite E
    end; done.
Qed.

Section BuildSpec.
Context {T : Type} `{RowTreeLaws T}.
Implicit Types a : ADC_VIEW_CNTL T.

(** The view [v] was appended to the view file, with its sums. *)
Record built a0 a (v : list row) : Prop := {
  bt_space : (length v <= fspace (viewFile a0))%nat;
  bt_view : viewFile a = mkFILE (frows (viewFile a0) ++ v) (fspace (viewFile a0) - length v);
  bt_rows : nViewRows a = Z.of_nat (length v);
  bt_total : totalOfViewRows a = u32 (totalOfViewRows a0 + Z.of_nat (length v));
  bt_msums : mSums (a_sums a) = sum_rows (a_nm a0) v (mSums (a_sums a0));
  bt_checksums : checksums (a_sums a) =
    if (numberOfChunks a =? 0)%nat then fst (cs_rows (a_nm a0) v (checksums (a_sums a0)) 0)
    else mcs_rows (a_nm a0) 0 v (checksums (a_sums a0))
}.

(** What the next view can rely on. *)
Record reusable a0 a : Prop := {
  ru_nm : a_nm a = a_nm a0;
  ru_nv : a_nv a = a_nv a0;
  ru_rec : outRecSize a = outRecSize a0;
  ru_mem : a_memoryLimit a = a_memoryLimit a0;
  ru_tree : rt_wf (a_tree a);
  ru_table : length (chunksParams a) = MAX_NUM_OF_CHUNKS;
  ru_chunkfile : (fspace (fileOfChunks a) + length (frows (fileOfChunks a)))%nat
                 = fspace (fileOfChunks a0)
}.

Definition view_outcome a0 (vs : list row) (rc : Z) a : Prop :=
  let v := aggregate (a_nv a0) (a_nm a0) vs in
  rc = ADC_OK /\ built a0 a v /\ reusable a0 a
  \/ rc = ADC_WRITE_FAILED /\ ((fspace (fileOfChunks a0) < length vs)%nat
                               \/ (fspace (viewFile a0) < length v)%nat)
  \/ rc = ADC_INTERNAL_ERROR /\ (numberOfChunks a = MAX_NUM_OF_CHUNKS \/ sub_chunk_size a = 0%nat).

Lemma write_rows_cases l f :
  (length l <= fspace f)%nat /\ write_rows l f = (ADC_OK, mkFILE (frows f ++ l) (fspace f - length l))
  \/ (fspace f < length l)%nat /\ fst (write_rows l f) = ADC_WRITE_FAILED.
Proof.
  destruct (decide (length l <= fspace f)%nat) as [Hl|Hl].
  - left. split; [done|]. by apply write_rows_all.
  - right. split; [lia|]. unfold write_rows. by destruct (Nat.leb_spec (length l) (fspace f)); [lia|].
Qed.

(** The tree held the whole view: it is written if the file has room. *)
Lemma write_tree_run a0 a off vs :
  chunks_ok a0 [] off a -> numberOfChunks a = 0%nat ->
  rt_inv (a_nv a0) (a_nm a0) (a_tree a) (aggregate (a_nv a0) (a_nm a0) vs) ->
  let v := aggregate (a_nv a0) (a_nm a0) vs in
  exists rc a', write_tree a = Some (rc, a') /\ a_tree a' = a_tree a /\ numberOfChunks a' = 0%nat
    /\ (rc = ADC_OK /\ built a0 a' v /\ reusable a0 a'
        \/ rc = ADC_WRITE_FAILED /\ (fspace (viewFile a0) < length v)%nat).
Proof.
  intros Hc Hn Ht v. unfold write_tree.
  destruct (co_same _ _ _ _ Hc) as (E1 & E2 & E3 & E4 & E5 & E6 & E7 & E8 & E9).
  destruct (WriteViewToDiskCS_run (a_nv a0) (a_nm a0) (a_tree a) v (a_sums a) (viewFile a) Ht)
    as (s' & o' & Hrun & Hs). rewrite E1, Hrun.
  eexists _, _. split; [reflexivity|]. split; [done|]. split; [exact Hn|].
  destruct (write_rows_cases v (viewFile a)) as [[Hl Hw]|[Hl Hw]].
  - left. rewrite Hw. cbn [fst snd negb Z.eqb ADC_OK]. split; [done|].
    rewrite (Hs Hl), E9, (rt_count_inv _ _ _ _ Ht). rewrite E6 in Hl. fold v.
    split; split; cbn; rewrite ?E6, ?E8, ?Hn; auto; try done.
    + by eapply rt_inv_wf.
    + apply Hc.
    + rewrite (co_file _ _ _ _ Hc). apply (co_space _ _ _ _ Hc).
  - right. rewrite Hw. cbn. rewrite <- E6. auto.
Qed.

Lemma build_in_memory a0 a off vs :
  chunks_ok a0 [] off a -> numberOfChunks a = 0%nat ->
  rt_inv (a_nv a0) (a_nm a0) (a_tree a) (aggregate (a_nv a0) (a_nm a0) vs) ->
  exists rc a', write_tree a = Some (rc, a') /\ view_outcome a0 vs rc a'.
Proof.
  intros Hc Hn Ht. destruct (write_tree_run a0 a off vs Hc Hn Ht) as (rc & a' & Hrun & _ & _ & Hres).
  exists rc, a'. split; [exact Hrun|]. unfold view_outcome. tauto.
Qed.

(** The view was merged from runs. *)
Lemma build_merged a0 a gs off pool min0 :
  avp_ok a0 -> rt_wf (a_tree a) -> gs <> [] -> Forall (fun g => g <> []) gs ->
  Forall (row_ok (a_nv a0) (a_nm a0)) (concat gs) -> Z.of_nat (length (concat gs)) < 2 ^ 32 ->
  chunks_ok a0 (aggregate (a_nv a0) (a_nm a0) <$> gs) off a -> pool_rows a0 pool ->
  exists rc a', MultiWayMerge pool min0 a = Some (rc, a') /\ view_outcome a0 (concat gs) rc a'.
Proof.
  intros Hok Hwf Hgs Hne Hrows Hlen Hc Hpool.
  destruct (co_same _ _ _ _ Hc) as (E1 & E2 & E3 & E4 & E5 & E6 & E7 & E8 & E9).
  assert (Hn : numberOfChunks a <> 0%nat).
  { rewrite (co_number _ _ _ _ Hc), length_fmap. by destruct gs. }
  destruct (Nat.eq_dec (sub_chunk_size a) 0%nat) as [Hz|Hz].
  { unfold MultiWayMerge. fold (sub_chunk_size a). rewrite Hz. apply Nat.eqb_neq in Hn.
    rewrite Hn. eexists _, _. split; [reflexivity|]. right; right. split; [done|]. by right. }
  destruct (MultiWayMerge_run a0 a gs off pool min0) as (rc & a' & Hrun & Hw & Hres); auto.
  { right. destruct (ao_dims _ Hok). lia. }
  { unfold pool_rows in *. by rewrite E4, E5. }
  { lia. }
  exists rc, a'. split; [exact Hrun|]. unfold view_outcome.
  set (v := aggregate _ _ _) in *. rewrite E6 in Hw.
  destruct (MultiWayMerge_frame _ _ _ _ _ Hrun) as (F1 & F2 & F3 & F4 & F5 & F6 & F7 & F8).
  destruct (write_rows_cases v (viewFile a0)) as [[Hl Hw']|[Hl Hw']].
  - left. rewrite Hw in Hw'. injection Hw' as -> Hv.
    destruct (Hres eq_refl) as (R1 & R2 & R3). rewrite E1, E9 in R3.
    assert (Hv32 : in_u 32 (Z.of_nat (length v))).
    { pose proof (aggregate_length (a_nv a0) (a_nm a0) (concat gs)) as Hag.
      fold v in Hag. unfold in_u. lia. }
    rewrite (wrapu_id 32 (Z.of_nat (length v))) in R1, R2 by done. rewrite E8 in R2.
    apply Nat.eqb_neq in Hn. split; [done|].
    split; split; rewrite ?F1, ?F2, ?F3, ?F4, ?F5, ?F6, ?F7, ?F8, ?R3, ?Hn; auto.
    + apply Hc.
    + rewrite (co_file _ _ _ _ Hc). apply (co_space _ _ _ _ Hc).
  - right; left. rewrite Hw in Hw'. cbn in Hw'. auto.
Qed.

Lemma selected_rows a inp vs : selected a inp vs ->
  length vs = length inp /\ Forall (row_ok (a_nv a) (a_nm a)) vs.
Proof.
  induction 1 as [|r v inp vs [_ Hv] _ [IH1 IH2]]; [done|]. simpl. split; [lia|by constructor].
Qed.

Lemma build_run a0 inp rest vs attrs0 pool min0 :
  avp_ok a0 -> numberOfChunks a0 = O -> frows (fileOfChunks a0) = [] ->
  length inp = nRowsToRead a0 -> Z.of_nat (nRowsToRead a0) < 2 ^ 32 ->
  selected a0 inp vs -> pool_rows a0 pool ->
  exists rc a', build_view attrs0 (inp ++ rest) pool min0 a0 = Some (rc, a')
    /\ view_outcome a0 vs rc a'.
Proof.
  intros Hok Hn Hf Hl H32 Hsel Hpool. destruct (selected_rows _ _ _ Hsel) as [Hvl Hvr].
  destruct (RunFormation_run a0 inp rest vs attrs0 Hok Hn Hf Hl Hsel)
    as (rc & a & Hrun & [[-> Hres]|[[-> Hm]|[-> Hw]]]); unfold build_view; rewrite Hrun;
    cbn [negb Z.eqb Pos.eqb ADC_OK ADC_INTERNAL_ERROR ADC_WRITE_FAILED].
  - destruct Hres as [([off Hc] & Hz & Ht)|(Hwf & gs & off & Hgs & Hne & -> & Hc)].
    + rewrite (proj2 (Nat.eqb_eq _ _) Hz). by eapply build_in_memory.
    + destruct (Nat.eqb_spec (numberOfChunks a) 0) as [E|_].
      { rewrite (co_number _ _ _ _ Hc), length_fmap in E. by destruct gs. }
      eapply build_merged; eauto. lia.
  - eexists _, _. split; [reflexivity|]. right; right. split; [done|]. by left.
  - eexists _, _. split; [reflexivity|]. right; left. split; [done|]. by left.
Qed.
End BuildSpec.

(** ** The two checksums

    The tree walk numbers the measures it has seen, in [uint64]; the merge
    numbers the rows, in [uint32], and multiplies in [int64].  With one
    measure, no negative sum and no overflow they agree. *)

Definition one_measure (bound : Z) (r : row) : Prop := exists x, ms r = [x] /\ 0 <= x < bound.

Lemma checksums_agree l : forall c k, 0 <= k -> k + Z.of_nat (length l) < 2 ^ 32 ->
  Forall (one_measure (2 ^ 31)) l -> fst (cs_rows 1 l [c] k) = mcs_rows 1 k l [c].
Proof.
  induction l as [|r l IH]; intros c k Hk Hlen Hl; [done|].
  inversion Hl as [|? ? (x & Hx & Hb) Hl']; subst. cbn [length] in Hlen.
  cbn [cs_rows mcs_rows]. rewrite Hx. cbn [add_checksums merge_checksums].
  rewrite (wrapu_id 64 (k + 1)), (wrapu_id 32 (k + 1)), (wrapu_id 64 x) by (unfold in_u; lia).
  rewrite (wrapu_id 64 ((k + 1) * x)) by (unfold in_u; nia).
  rewrite (wraps_id 64 ((k + 1) * x)) by (unfold in_s; nia).
  rewrite Z.rem_mod_nonneg by (unfold measbound; nia).
  apply IH; auto; lia.
Qed.
