(* ===== verification/TreeTheorems.v ===== *)
(** * Theorems about the red-black tree and the aggregated view

    The correctness statements of DC/rbt.c, each with an application to a
    small tree. *)

From Stdlib Require Import ZArith Lia Sorted.
From stdpp Require Import base gmap numbers option list.
From S2P Require Import Prelude Rows RBTree RBShape RBRefine RBSpec ViewFiles.

Open Scope cmd_scope.

(** An empty tree for one dimension and one measure with a pool of 160 bytes,
    four nodes. *)
Definition demo_tree : RBTree :=
  CreateEmptyTree 7 (repeat 5 64) (repeat NULL 64) 1 1 160.

(** Inserting rows one after the other. *)
Fixpoint insert_rows (rows : list row) : cmd RBTree Z :=
  match rows with
  | [] => ret 0
  | r :: rows' => TreeInsert r ;;; insert_rows rows'
  end.

Lemma CreateEmptyTree_run c d n nd' nm' limit :
  arrays_ok n d -> dims_ok nd' nm' -> 144 <= limit < 2 ^ 32 ->
  rbt_inv (CreateEmptyTree c d n nd' nm' limit) E.
Proof.
  intros Harr Hd Hl.
  assert (Hw : pool_wf (CreateEmptyTree c d n nd' nm' limit)) by (split; cbn; [done|lia]).
  pose proof (InitializeTree_inv nd' nm' _ Hw Hd) as Hi.
  unfold InitializeTree in Hi. cbn in Hi. exact Hi.
Qed.

Lemma demo_inv : rbt_inv demo_tree E.
Proof.
  apply CreateEmptyTree_run; [split; reflexivity|unfold dims_ok, MAX_NUM_OF_DIMS, MAX_NUM_OF_MEAS; lia|lia].
Qed.

(** As long as the pool has a node for every row, all rows go in. *)
Lemma insert_rows_run rows : forall st t,
  rbt_inv st t -> Z.of_nat (length rows) <= freeNodeCounter st ->
  Forall (row_ok (nd st) (nm st)) rows ->
  exists st' t', insert_rows rows st = Some (0, st') /\ rbt_inv st' t'
    /\ inorder t' = insert_all (nd st) (nm st) rows (inorder t)
    /\ nd st' = nd st /\ nm st' = nm st.
Proof.
  induction rows as [|r rows IH]; intros st t Hi Hfree Hrows; cbn [length] in Hfree.
  { exists st, t. cbn. auto. }
  inversion Hrows as [|? ? Hr Hrows']; subst.
  destruct (TreeInsert_inv st t r Hi ltac:(lia) Hr) as (st1 & Hrun & Hi1 & Hn & Hm & Hl).
  assert (Hfree1 : freeNodeCounter st - 1 <= freeNodeCounter st1).
  { rewrite (inv_free _ _ Hi), (inv_free _ _ Hi1), (inv_nodes _ _ Hi), (inv_nodes _ _ Hi1).
    rewrite (inv_nodesize _ _ Hi), (inv_nodesize _ _ Hi1), Hn, Hm, Hl.
    rewrite (inv_count _ _ Hi), (inv_count _ _ Hi1).
    pose proof (agg_insert_length (nd st) (nm st) r (inorder t)) as Hlen.
    rewrite <- ins_inorder with (a := memaddr st) in Hlen; [|done|apply Hi].
    rewrite !length_inorder in Hlen. lia. }
  rewrite <- Hn, <- Hm in Hrows'.
  destruct (IH st1 _ Hi1 ltac:(lia) Hrows') as (st' & t' & Hrun' & Hi' & Hin & Hn' & Hm').
  exists st', t'. cbn [insert_rows]. rewrite (bind_run _ _ _ _ _ Hrun), Hrun'.
  split_and!; auto; [|congruence..]. rewrite Hin, Hn, Hm.
  by rewrite ins_inorder by (done || apply Hi).
Qed.

(** C38: [TreeInsert] is memory safe and correct.  On a tree whose pool has a
    free node it never faults: every pointer it follows is a node, every index
    of the path arrays is below [MAX_TREE_HEIGHT] and the new node fits the
    pool.  It returns 0 and leaves a well-formed red-black tree whose in-order
    rows are the old ones with the new row inserted at its key, or added to
    the measures of the row that has the key. *)
Theorem TreeInsert_correct st t attrs :
  rbt_inv st t -> 0 < freeNodeCounter st -> row_ok (nd st) (nm st) attrs ->
  exists st' t', TreeInsert attrs st = Some (0, st') /\ rbt_inv st' t'
    /\ inorder t' = agg_insert (nd st) (nm st) attrs (inorder t)
    /\ nd st' = nd st /\ nm st' = nm st /\ memoryLimit st' = memoryLimit st.
Proof.
  intros Hi Hfree Hrow. destruct (TreeInsert_inv st t attrs Hi Hfree Hrow) as (st' & Hrun & Hi' & Hrest).
  exists st', (ins (nd st) (nm st) attrs (memaddr st) t). split_and!; try apply Hrest; auto.
  by apply ins_inorder; [|apply Hi].
Qed.

Lemma TreeInsert_correct_witness :
  exists st' t', TreeInsert (Row [5] [3]) demo_tree = Some (0, st') /\ rbt_inv st' t'
    /\ inorder t' = [Row [5] [3]].
Proof.
  destruct (TreeInsert_correct demo_tree E (Row [5] [3]) demo_inv ltac:(reflexivity)
    ltac:(split; reflexivity)) as (st' & t' & H1 & H2 & H3 & _).
  exists st', t'. split_and!; auto.
Defined.

(** A tree that satisfies the invariant is balanced and fits its pool: it
    has at most [2^27] nodes, no path is longer than 56 nodes, so the path
    arrays of [MAX_TREE_HEIGHT] = 64 entries are never exceeded, and all nodes
    lie inside the [memoryLimit] bytes of the pool. *)
Theorem tree_bounds st t :
  rbt_inv st t ->
  (height t <= 56 < MAX_TREE_HEIGHT)%nat /\ count st <= 2 ^ 27
  /\ Forall (fun a => 0 <= a < memaddr st) (foot t) /\ memaddr st <= memoryLimit st
  /\ NoDup (foot t).
Proof.
  intros Hi. pose proof (rbt_inv_nodes_bound _ _ Hi) as Hb.
  pose proof (inv_bound _ _ Hi) as Hf. rewrite (inv_free _ _ Hi) in Hf.
  destruct (tree_node_size_bounds _ _ (inv_dims _ _ Hi)) as [[H1 H2] _].
  rewrite <- (inv_nodesize _ _ Hi) in *. split_and!.
  - destruct (tok_rb _ _ _ (inv_tree _ _ Hi)) as [n Hn].
    apply (rb_log_height t n 28 Hn). apply Nat2Z.inj_lt. rewrite Nat2Z.inj_pow.
    change (Z.of_nat 2 ^ Z.of_nat 28) with (2 ^ 28). rewrite (inv_count _ _ Hi) in Hf. lia.
  - unfold MAX_TREE_HEIGHT. lia.
  - lia.
  - apply Hi.
  - rewrite (inv_memaddr _ _ Hi). rewrite (inv_nodes _ _ Hi) in Hf.
    pose proof (Z.mul_div_le (memoryLimit st) (treeNodeSize st)). nia.
  - pose proof (inv_sep _ _ Hi) as Hs. unfold separate in Hs. cbn [kfoot] in Hs.
    rewrite app_nil_r in Hs. by apply NoDup_cons in Hs as [_ Hs].
Qed.

Lemma tree_bounds_witness : (height E <= 56 < MAX_TREE_HEIGHT)%nat /\ count demo_tree <= 2 ^ 27.
Proof. destruct (tree_bounds demo_tree E demo_inv) as (H1 & H2 & _). split; auto. Defined.

(** A pool shared over many insertions.  If the pool has at least as many
    free nodes as there are rows, inserting them all into the empty tree that
    [InitializeTree] leaves succeeds, whatever the tree held before, and the
    tree then holds exactly the aggregated view of the rows: its in-order
    sequence is [aggregate], and [count] is the number of distinct keys. *)
Theorem insert_rows_aggregate st nd' nm' rows :
  pool_wf st -> dims_ok nd' nm' -> Forall (row_ok nd' nm') rows ->
  Z.of_nat (length rows) <= memoryLimit st / tree_node_size nd' nm' ->
  exists st' t', insert_rows rows (InitializeTree nd' nm' st) = Some (0, st') /\ rbt_inv st' t'
    /\ inorder t' = aggregate nd' nm' rows
    /\ count st' = Z.of_nat (length (aggregate nd' nm' rows)).
Proof.
  intros Hw Hd Hrows Hfree.
  destruct (insert_rows_run rows _ E (InitializeTree_inv nd' nm' st Hw Hd)) as
    (st' & t' & Hrun & Hi & Hin & _); cbn; auto.
  exists st', t'. cbn in Hin. split_and!; auto.
  rewrite (inv_count _ _ Hi), <- length_inorder. by rewrite Hin.
Qed.

Lemma insert_rows_aggregate_witness :
  exists st' t', insert_rows [Row [5] [3]; Row [1] [2]; Row [6] [3]] (InitializeTree 1 1 demo_tree)
      = Some (0, st') /\ rbt_inv st' t' /\ inorder t' = [Row [1] [2]; Row [11] [3]].
Proof.
  destruct (insert_rows_aggregate demo_tree 1 1 [Row [5] [3]; Row [1] [2]; Row [6] [3]])
    as (st' & t' & H1 & H2 & H3 & _).
  - split; [split; reflexivity|split; [discriminate|reflexivity]].
  - unfold dims_ok, MAX_NUM_OF_DIMS, MAX_NUM_OF_MEAS. lia.
  - repeat constructor.
  - vm_compute. discriminate.
  - exists st', t'. split_and!; auto.
Defined.

(** What a view means.  The aggregated view of a list of rows is strictly
    increasing in the key order of [KeyComp], its row for a key carries the
    [int64] sums of the measures of all input rows with that key, and a key
    that occurs in no row has no row in the view. *)
Theorem aggregate_characterised nd nm rows k :
  Forall (row_ok nd nm) rows ->
  view_sorted nd (aggregate nd nm rows)
  /\ lookup_key k (aggregate nd nm rows) = key_total nm k rows.
Proof. intros H. split; [by apply aggregate_sorted|by apply lookup_aggregate]. Qed.

Lemma aggregate_characterised_witness :
  view_sorted 1 (aggregate 1 1 [Row [5] [3]; Row [1] [2]; Row [6] [3]])
  /\ lookup_key [3] (aggregate 1 1 [Row [5] [3]; Row [1] [2]; Row [6] [3]]) = Some [11].
Proof.
  apply (aggregate_characterised 1 1 [Row [5] [3]; Row [1] [2]; Row [6] [3]] [3]).
  repeat constructor.
Defined.

(** The order in which rows are inserted does not matter: permuted inputs
    give the same view, because [int64] addition, wrap-around included, is
    commutative and associative. *)
Theorem aggregate_order nd nm rows rows' :
  rows ≡ₚ rows' -> Forall (row_ok nd nm) rows ->
  aggregate nd nm rows = aggregate nd nm rows'.
Proof. apply aggregate_perm. Qed.

Lemma aggregate_order_witness :
  aggregate 1 1 [Row [2 ^ 63 - 1] [3]; Row [1] [2]; Row [6] [3]]
  = aggregate 1 1 [Row [6] [3]; Row [1] [2]; Row [2 ^ 63 - 1] [3]].
Proof.
  apply (aggregate_order 1 1 [Row [2 ^ 63 - 1] [3]; Row [1] [2]; Row [6] [3]]
    [Row [6] [3]; Row [1] [2]; Row [2 ^ 63 - 1] [3]]); [solve_Permutation|repeat constructor].
Defined.

(** The traversals of the tree.  [WriteViewToDiskCS] writes the rows in key
    order; it returns [ADC_OK] exactly when all rows fit the file, and then
    has added every measure to [mSums] and to the checksums; otherwise it
    returns [ADC_WRITE_FAILED] after as many rows as fit.
    [WriteChunkToDisk] writes the same rows. *)
Theorem traversal_correct st t s f :
  rbt_inv st t -> 144 <= memoryLimit st ->
  WriteChunkToDisk st f = Some (write_rows (inorder t) f)
  /\ exists s' o', WriteViewToDiskCS (nm st) st (s, 0, f)
       = Some (fst (write_rows (inorder t) f), (s', o', snd (write_rows (inorder t) f)))
     /\ ((length (inorder t) <= fspace f)%nat ->
          s' = mkSums (sum_rows (nm st) (inorder t) (mSums s))
                      (fst (cs_rows (nm st) (inorder t) (checksums s) 0))).
Proof.
  intros Hi Hl.
  assert (Hr : rt_inv (nd st) (nm st) st (inorder t)) by (exists t; auto).
  split; [by apply (WriteChunkToDisk_spec (nd st) (nm st))|].
  by apply (WriteViewToDiskCS_run (nd st) (nm st)).
Qed.

Lemma traversal_correct_witness :
  WriteChunkToDisk demo_tree (mkFILE [] 3) = Some (write_rows [] (mkFILE [] 3)).
Proof.
  apply (traversal_correct demo_tree E (mkSums [0] [0]) (mkFILE [] 3) demo_inv).
  discriminate.
Defined.

(** [CreateEmptyTree] and [InitializeTree] establish the invariant with no
    node in use, whatever the memory they get contains. *)
Theorem tree_creation c d n nd' nm' limit st nd2 nm2 :
  arrays_ok n d -> dims_ok nd' nm' -> 144 <= limit < 2 ^ 32 ->
  pool_wf st -> dims_ok nd2 nm2 ->
  rbt_inv (CreateEmptyTree c d n nd' nm' limit) E /\ rbt_inv (InitializeTree nd2 nm2 st) E.
Proof.
  intros. split; [by apply CreateEmptyTree_run|by apply InitializeTree_inv].
Qed.

Lemma tree_creation_witness :
  rbt_inv demo_tree E /\ rbt_inv (InitializeTree 2 1 demo_tree) E.
Proof.
  apply (tree_creation 7 (repeat 5 64) (repeat NULL 64) 1 1 160 demo_tree 2 1).
  - split; reflexivity.
  - unfold dims_ok, MAX_NUM_OF_DIMS, MAX_NUM_OF_MEAS. lia.
  - split; [discriminate|reflexivity].
  - split; [split; reflexivity|split; [discriminate|reflexivity]].
  - unfold dims_ok, MAX_NUM_OF_DIMS, MAX_NUM_OF_MEAS. lia.
Defined.
