(* ===== verification/ViewTheorems.v ===== *)
(** * Theorems about building one view

    The correctness statements of the external sort of DC/extbuild.c with the
    red-black tree of DC/rbt.c, each with an application to a small view. *)

From Stdlib Require Import ZArith Lia Sorted.
From stdpp Require Import base gmap numbers option list.
From S2P Require Import Prelude Rows RBTree RBSpec ViewFiles ExtSort RunSpec MergeSpec BuildSpec.

(** A control block for views of one dimension and one measure over a pool of
    [limit] bytes, with room for [space] rows in each file. *)
Definition demo_avp (nRows : nat) (limit : Z) (space : nat) : ADC_VIEW_CNTL RBTree :=
  mkADC 1 1 [2%nat] nRows 12 limit
    (CreateEmptyTree 7 (repeat 5 64) (repeat NULL 64) 1 1 limit)
    0 (repeat (mkCHUNKS 9 9 9 9) MAX_NUM_OF_CHUNKS) (mkFILE [] space) (mkFILE [] space)
    0 0 (mkSums [0] [0]).

Definition demo_input : list row :=
  [Row [5] [1; 3]; Row [1] [1; 2]; Row [6] [2; 3]; Row [7] [1; 9]; Row [8] [1; 1];
   Row [9] [1; 7]; Row [2] [2; 2]].

Definition demo_rows : list row :=
  [Row [5] [3]; Row [1] [2]; Row [6] [3]; Row [7] [9]; Row [8] [1]; Row [9] [7]; Row [2] [2]].

Lemma demo_ok limit space : 144 <= limit < 2 ^ 32 -> avp_ok (demo_avp 7 limit space).
Proof.
  intros Hl. split; [|reflexivity|split; [split; reflexivity|exact Hl]|reflexivity].
  unfold dims_ok, MAX_NUM_OF_DIMS, MAX_NUM_OF_MEAS. cbn. lia.
Qed.

Lemma demo_selected limit space : selected (demo_avp 7 limit space) demo_input demo_rows.
Proof. unfold selected. repeat constructor. Qed.

(** [SelectToView] is the projection to the selected dimensions.  With a
    selection of dimension numbers between 1 and [nd] it stays inside the
    input row, keeps the measures, and puts the attribute of dimension
    [ix[j]] at position [j]. *)
Theorem SelectToView_correct nd nm nv sel r :
  selection_ok nd nv sel -> row_ok nd nm r ->
  exists v, SelectToView r sel nm nv = Some v /\ row_ok nv nm v /\ ms v = ms r
    /\ forall j i, (j < nv)%nat -> sel !! j = Some i -> ks v !! j = ks r !! (i - 1)%nat.
Proof. apply SelectToView_ok. Qed.

Lemma SelectToView_correct_witness :
  exists v, SelectToView (Row [5] [10; 20; 30]) [3%nat; 1%nat] 1 2 = Some v /\ row_ok 2 1 v
    /\ ms v = [5].
Proof.
  destruct (SelectToView_correct 3 1 2 [3%nat; 1%nat] (Row [5] [10; 20; 30])) as (v & H1 & H2 & H3 & _).
  - split; cbn; [lia|repeat constructor; lia].
  - split; reflexivity.
  - exists v. auto.
Defined.

(** [RunFormation] never faults and reports one of three outcomes.  On
    [ADC_OK] either no run was written and the tree holds the whole aggregated
    view, or the input was cut into non-empty consecutive pieces whose
    aggregated views are the runs: they follow one another in the chunk file
    and the chunk table has the length and the exact byte offset of each.  It
    fails with [ADC_INTERNAL_ERROR] only when the chunk table is full, and
    with [ADC_WRITE_FAILED] only when the chunk file is. *)
Theorem RunFormation_correct (a : ADC_VIEW_CNTL RBTree) inp rest vs attrs0 :
  avp_ok a -> numberOfChunks a = O -> frows (fileOfChunks a) = [] ->
  length inp = nRowsToRead a -> selected a inp vs ->
  exists rc a', RunFormation attrs0 (inp ++ rest) a = Some (rc, a')
    /\ run_post a vs rc a' (run_result a vs a').
Proof. apply RunFormation_run. Qed.

Lemma RunFormation_correct_witness :
  exists rc a', RunFormation (Row [] []) (demo_input ++ []) (demo_avp 7 160 10) = Some (rc, a')
    /\ run_post (demo_avp 7 160 10) demo_rows rc a'
         (run_result (demo_avp 7 160 10) demo_rows a').
Proof.
  apply (RunFormation_correct (demo_avp 7 160 10) demo_input [] demo_rows (Row [] [])); auto.
  - apply demo_ok. lia.
  - apply demo_selected.
Defined.

(** [MultiWayMerge] merges the runs into one view.  Given a chunk table
    that describes sorted, non-empty runs of the chunk file and a pool with
    room for at least one row of each run, it terminates without a fault, and
    what it appends to the view file is the aggregated view of the rows of all
    runs; rows with equal keys in different runs are added up.  It returns
    [ADC_OK] exactly when the view fits the file, and then [nViewRows],
    [totalOfViewRows], [mSums] and the checksums are those of that view. *)
Theorem MultiWayMerge_correct (a : ADC_VIEW_CNTL RBTree) pool min0 runs :
  runs <> [] -> Forall (fun r => r <> []) runs ->
  Forall (Forall (row_ok (a_nv a) (a_nm a))) runs -> Forall (view_sorted (a_nv a)) runs ->
  numberOfChunks a = length runs -> run_table (outRecSize a) runs (chunksParams a) ->
  frows (fileOfChunks a) = concat runs -> 0 < outRecSize a ->
  outRecSize a * Z.of_nat (length (concat runs)) < 2 ^ 62 ->
  pool_rows a pool -> (0 < sub_chunk_size a)%nat ->
  exists rc a', MultiWayMerge pool min0 a = Some (rc, a')
    /\ merged a (aggregate (a_nv a) (a_nm a) (concat runs)) rc a'.
Proof. apply merge_run. Qed.

Definition demo_runs : list (list row) :=
  [[Row [1] [2]; Row [5] [4]]; [Row [7] [1]; Row [2] [2]; Row [3] [6]]].

Definition demo_chunked : ADC_VIEW_CNTL RBTree :=
  mkADC 1 1 [2%nat] 5 12 30 (CreateEmptyTree 7 (repeat 5 64) (repeat NULL 64) 1 1 160)
    2 [mkCHUNKS 2 0 0 0; mkCHUNKS 3 24 1 1] (mkFILE (concat demo_runs) 0) (mkFILE [] 10)
    0 0 (mkSums [0] [0]).

Lemma MultiWayMerge_correct_witness :
  exists rc a', MultiWayMerge [Row [] []; Row [] []] (4%nat, Row [] []) demo_chunked = Some (rc, a')
    /\ write_rows [Row [7] [1]; Row [3] [2]; Row [5] [4]; Row [3] [6]] (mkFILE [] 10)
       = (rc, viewFile a').
Proof.
  destruct (MultiWayMerge_correct demo_chunked [Row [] []; Row [] []] (4%nat, Row [] []) demo_runs)
    as (rc & a' & Hrun & Hm & _).
  - discriminate.
  - repeat constructor; discriminate.
  - repeat constructor.
  - repeat constructor.
  - reflexivity.
  - intros [|[|i]] run Hi; simplify_eq/=; [exists 0%nat, 0%nat|exists 1%nat, 1%nat]; reflexivity.
  - reflexivity.
  - reflexivity.
  - reflexivity.
  - split; [split; [discriminate|reflexivity]|reflexivity].
  - apply Nat.ltb_lt. reflexivity.
  - exists rc, a'. auto.
Defined.

(** C18: A view is built correctly, whichever way it is built.  The block of
    [ComputeGivenGroupbys] for one view never faults, and on [ADC_OK] it has
    appended the aggregated view of the projected input rows to the view
    file, with the right row count and sums.  Whether the pool was large
    enough for the tree to hold the view or runs had to be written and merged
    makes no difference to the view.  Otherwise the return code tells that a
    file is full, or that the pool is too small for the number of runs. *)
Theorem build_view_correct (a : ADC_VIEW_CNTL RBTree) inp rest vs attrs0 pool min0 :
  avp_ok a -> numberOfChunks a = O -> frows (fileOfChunks a) = [] ->
  length inp = nRowsToRead a -> Z.of_nat (nRowsToRead a) < 2 ^ 32 ->
  selected a inp vs -> pool_rows a pool ->
  exists rc a', build_view attrs0 (inp ++ rest) pool min0 a = Some (rc, a')
    /\ view_outcome a vs rc a'.
Proof. apply build_run. Qed.

Lemma build_view_correct_witness :
  exists rc a', build_view (Row [] []) (demo_input ++ []) (repeat (Row [] []) 13) (0%nat, Row [] [])
      (demo_avp 7 160 10) = Some (rc, a')
    /\ view_outcome (demo_avp 7 160 10) demo_rows rc a'.
Proof.
  apply (build_view_correct (demo_avp 7 160 10) demo_input [] demo_rows (Row [] [])
    (repeat (Row [] []) 13) (0%nat, Row [] [])); auto; try reflexivity.
  - apply demo_ok. lia.
  - apply demo_selected.
  - split; [split; [discriminate|reflexivity]|reflexivity].
Defined.

(** With one measure the checksum of a view does not depend on how the view
    was built, as long as the sums are below [2^31]: the number the tree walk
    computes, in [uint64], and the number the merge computes, in [int64] with
    a 32-bit row count, are the same. *)
Theorem checksums_one_measure v c :
  Z.of_nat (length v) < 2 ^ 32 -> Forall (one_measure (2 ^ 31)) v ->
  fst (cs_rows 1 v [c] 0) = mcs_rows 1 0 v [c].
Proof. intros Hl Hv. by apply checksums_agree. Qed.

Lemma checksums_one_measure_witness :
  fst (cs_rows 1 demo_rows [0] 0) = mcs_rows 1 0 demo_rows [0].
Proof.
  apply (checksums_one_measure demo_rows 0); [reflexivity|].
  unfold demo_rows. repeat constructor; eexists; (split; [reflexivity|lia]).
Defined.

(** With two measures the walk counts two per row and the merge one. *)
Definition demo_two (limit : Z) : ADC_VIEW_CNTL RBTree :=
  mkADC 2 1 [1%nat] 6 20 limit
    (CreateEmptyTree 7 (repeat 5 64) (repeat NULL 64) 1 2 limit)
    0 (repeat (mkCHUNKS 9 9 9 9) MAX_NUM_OF_CHUNKS) (mkFILE [] 10) (mkFILE [] 10)
    0 0 (mkSums [0; 0] [0; 0]).

Definition demo_two_rows : list row :=
  [Row [1; 1] [1]; Row [1; 1] [2]; Row [1; 1] [3]; Row [1; 1] [4]; Row [1; 1] [5]; Row [1; 1] [6]].

Definition build_two (limit : Z) (pool : nat) : option (Z * list row * list Z) :=
  match build_view (Row [] []) demo_two_rows (repeat (Row [] []) pool) (0%nat, Row [] [])
          (demo_two limit) with
  | Some (rc, a) => Some (rc, frows (viewFile a), checksums (a_sums a))
  | None => None
  end.

(** With two measures the checksums do depend on it: for the same six rows
    a pool that holds the view and a pool that forces an external sort both
    report [ADC_OK] and write the same view, but the checksums differ, since
    [WriteViewToDiskCS] increments its counter once per measure and
    [MultiWayMerge] counts rows. *)
Theorem checksums_two_measures_differ :
  exists v cs cs', build_two 400 20 = Some (ADC_OK, v, cs) /\ build_two 160 8 = Some (ADC_OK, v, cs')
    /\ cs = [36; 42] /\ cs' = [21; 21].
Proof. eexists _, _, _. split_and!; vm_compute; reflexivity. Qed.
