(* ===== verification/JobBits.v ===== *)
(** * Groupbys as bit tuples: the bit routines of DC/jobcntl.c

    A groupby, the set of dimensions a view keeps, is a bit mask with the
    first dimension in the most significant bit of a 64-bit or 32-bit word.
    The loops are translated with the mask they shift; the lemmas read them
    as statements about [Z.testbit]. *)

From Stdlib Require Import ZArith Lia Sorted.
From stdpp Require Import base numbers option list.
From S2P Require Import Prelude.

Definition MLB : Z := 2 ^ 63.
Definition MLB32 : Z := 2 ^ 31.

(** [s & m] as a C condition. *)
Definition hits (s m : Z) : bool := negb (Z.land s m =? 0).

Definition SetOneBit (s pos : Z) : Z := Z.lor s (Z.shiftr MLB pos).

Definition SetOneBit32 (s pos : Z) : Z := Z.lor s (Z.shiftr MLB32 pos).

Fixpoint Mlo32_loop (n : nat) (om x k : Z) : Z :=
  match n with
  | O => k
  | S n' => if hits om x then k else Mlo32_loop n' (Z.shiftr om 1) x (k + 1)
  end.

Definition Mlo32 (x : Z) : Z := Mlo32_loop 32 MLB32 x 0.

Fixpoint mro32_loop (n : nat) (om x k : Z) : Z :=
  match n with
  | O => k
  | S n' => if hits om x then k else mro32_loop n' (u32 (Z.shiftl om 1)) x (k - 1)
  end.

Definition mro32 (x : Z) : Z := mro32_loop 32 1 x 32.

(** Here [om] is an [int32]: it starts as [INT_MIN] and its right shift keeps
    the sign. *)
Fixpoint setLeadingOnes32_loop (n : nat) (om x : Z) : Z :=
  match n with
  | O => x
  | S n' => setLeadingOnes32_loop n' (Z.shiftr om 1) (Z.lor x (u32 om))
  end.

Definition setLeadingOnes32 (n : Z) : Z := setLeadingOnes32_loop (Z.to_nat n) (- 2 ^ 31) 0.

Fixpoint NumberOfOnes_loop (n : nat) (s ob nOnes : Z) : Z :=
  match n with
  | O => nOnes
  | S n' => NumberOfOnes_loop n' s (Z.shiftr ob 1) (if hits s ob then u32 (nOnes + 1) else nOnes)
  end.

Definition NumberOfOnes (s : Z) : Z := NumberOfOnes_loop 64 s MLB 0.

Fixpoint countTupleOnes_loop (n : nat) (t ob cnt : Z) : Z :=
  match n with
  | O => cnt
  | S n' => countTupleOnes_loop n' t (u64 (Z.shiftl ob 1)) (if hits t ob then u32 (cnt + 1) else cnt)
  end.

Definition countTupleOnes (binRepTuple : Z) (numDims : nat) : Z :=
  countTupleOnes_loop numDims binRepTuple 1 0.

(** The entries the loop stores in [selTuple]; [*numOfUnits] is their number. *)
Fixpoint GetRegTuple_loop (n i : nat) (t oc : Z) : list nat :=
  match n with
  | O => []
  | S n' => (if hits t oc then [S i] else []) ++ GetRegTuple_loop n' (S i) t (Z.shiftr oc 1)
  end.

Definition GetRegTupleFromBin64 (binRepTuple : Z) (numDims : nat) : list nat :=
  GetRegTuple_loop numDims 0 binRepTuple MLB.

Definition getRegTupleFromBin32 (binRepTuple : Z) (numDims : nat) : list nat :=
  GetRegTuple_loop numDims 0 binRepTuple MLB32.

(** [(uint32)(bin64RepTuple >> (64-nd)) << (32-nd)]. *)
Definition tuple32 (bin64 : Z) (nd : nat) : Z :=
  u32 (Z.shiftl (u32 (Z.shiftr bin64 (64 - Z.of_nat nd))) (32 - Z.of_nat nd)).

Fixpoint FromParent_loop (n k : nat) (bin32 ut32 oc : Z) : list nat :=
  match n with
  | O => []
  | S n' =>
      let k' := if hits bin32 oc then S k else k in
      (if hits bin32 oc && hits ut32 oc then [k'] else [])
        ++ FromParent_loop n' k' bin32 ut32 (Z.shiftr oc 1)
  end.

Definition GetRegTupleFromParent (bin64 bin32 : Z) (nd : nat) : list nat :=
  FromParent_loop nd 0 bin32 (tuple32 bin64 nd) MLB32.

(** [for (i = 0; i < numDims; i++) SetOneBit(binRepTuple, selTuple[i]-1)]. *)
Definition CreateBinTuple (selTuple : list nat) : Z :=
  fold_left (fun b d => SetOneBit b (Z.of_nat d - 1)) selTuple 0.

(** The digits [WriteOne32Tuple] and [WriteOne64Tuple] print. *)
Fixpoint tuple_digits (l : nat) (s ob : Z) : list bool :=
  match l with
  | O => []
  | S l' => hits s ob :: tuple_digits l' s (Z.shiftr ob 1)
  end.

Definition WriteOne32Tuple (s : Z) (l : nat) : list bool := tuple_digits l s MLB32.
Definition WriteOne64Tuple (s : Z) (l : nat) : list bool := tuple_digits l s MLB.

(** ** The masks *)

Lemma hits_pow2 s j : 0 <= j -> hits s (2 ^ j) = Z.testbit s j.
Proof.
  intros Hj. unfold hits. destruct (Z.testbit s j) eqn:E.
  - apply negb_true_iff, Z.eqb_neq. intros H0.
    assert (Z.testbit (Z.land s (2 ^ j)) j = false) by (rewrite H0; apply Z.bits_0).
    rewrite Z.land_spec, E, Z.pow2_bits_true in H by lia. done.
  - apply negb_false_iff, Z.eqb_eq. apply Z.bits_inj'. intros i Hi.
    rewrite Z.land_spec, Z.bits_0, Z.pow2_bits_eqb by lia.
    destruct (Z.eqb_spec j i) as [->|]; [by rewrite E|by rewrite andb_false_r].
Qed.

Lemma hits_comm s m : hits s m = hits m s.
Proof. unfold hits. by rewrite Z.land_comm. Qed.

Lemma shiftr_pow2 w i : 0 <= i <= w -> Z.shiftr (2 ^ w) i = 2 ^ (w - i).
Proof. intros H. rewrite Z.shiftr_div_pow2, <- Z.pow_sub_r by lia. done. Qed.

Lemma shiftr_pow2_1 w : 0 < w -> Z.shiftr (2 ^ w) 1 = 2 ^ (w - 1).
Proof. intros H. apply shiftr_pow2. lia. Qed.

(** Dimension [d] of a tuple whose first dimension is bit [w]. *)
Definition has_dim (w : Z) (t : Z) (d : nat) : bool := Z.testbit t (w + 1 - Z.of_nat d).

Lemma GetRegTuple_loop_spec w t n : forall i, Z.of_nat (i + n) <= w + 1 ->
  GetRegTuple_loop n i t (2 ^ (w - Z.of_nat i)) = List.filter (has_dim w t) (seq (S i) n).
Proof.
  induction n as [|n IH]; intros i Hi; [done|]. cbn [GetRegTuple_loop seq List.filter].
  rewrite hits_pow2 by lia. unfold has_dim at 1.
  replace (w + 1 - Z.of_nat (S i)) with (w - Z.of_nat i) by lia.
  assert (Hrest : GetRegTuple_loop n (S i) t (Z.shiftr (2 ^ (w - Z.of_nat i)) 1)
                  = List.filter (has_dim w t) (seq (S (S i)) n)).
  { destruct n as [|n]; [done|]. rewrite shiftr_pow2_1 by lia.
    replace (w - Z.of_nat i - 1) with (w - Z.of_nat (S i)) by lia. apply IH. lia. }
  rewrite Hrest. by destruct (Z.testbit t (w - Z.of_nat i)).
Qed.

Lemma GetRegTupleFromBin64_filter t n : (n <= 64)%nat ->
  GetRegTupleFromBin64 t n = List.filter (has_dim 63 t) (seq 1 n).
Proof. intros H. apply (GetRegTuple_loop_spec 63 t n 0). lia. Qed.

Lemma getRegTupleFromBin32_filter t n : (n <= 32)%nat ->
  getRegTupleFromBin32 t n = List.filter (has_dim 31 t) (seq 1 n).
Proof. intros H. apply (GetRegTuple_loop_spec 31 t n 0). lia. Qed.

(** ** From the 64-bit to the 32-bit representation *)

Lemma tuple32_bit t nd j : (1 <= nd <= 32)%nat -> 0 <= j < 32 ->
  Z.testbit (tuple32 t nd) j
  = if j <? 32 - Z.of_nat nd then false else Z.testbit t (j + 32).
Proof.
  intros Hnd Hj. unfold tuple32, wrapu. rewrite Z.mod_pow2_bits_low by lia.
  rewrite Z.shiftl_spec by lia. destruct (Z.ltb_spec j (32 - Z.of_nat nd)).
  - apply Z.testbit_neg_r. lia.
  - rewrite Z.mod_pow2_bits_low by lia. rewrite Z.shiftr_spec by lia. f_equal. lia.
Qed.

Lemma tuple32_dim t nd d : (1 <= nd <= 32)%nat -> (1 <= d <= nd)%nat ->
  has_dim 31 (tuple32 t nd) d = has_dim 63 t d.
Proof.
  intros Hnd Hd. unfold has_dim. rewrite tuple32_bit by lia.
  destruct (Z.ltb_spec (31 + 1 - Z.of_nat d) (32 - Z.of_nat nd)); [lia|]. f_equal. lia.
Qed.

Lemma tuple32_range t nd : in_u 32 (tuple32 t nd).
Proof. apply wrapu_range. lia. Qed.

(** A groupby mask is a subset of another: [(a & b) == a]. *)
Definition subset (a b : Z) : bool := Z.land a b =? a.

Lemma subset_spec a b j : subset a b = true -> Z.testbit a j = true -> Z.testbit b j = true.
Proof.
  intros H%Z.eqb_eq Ha. rewrite <- H, Z.land_spec in Ha. by apply andb_true_iff in Ha as [_ ?].
Qed.

Lemma subset_dim w a b d : subset a b = true -> has_dim w a d = true -> has_dim w b d = true.
Proof. apply subset_spec. Qed.

(** ** Dimension numbers relative to a parent *)

Lemma FromParent_loop_spec bin32 ut32 n : forall i k, (i + n <= 32)%nat ->
  (forall d, has_dim 31 ut32 d = true -> has_dim 31 bin32 d = true) ->
  Forall2 (fun d r => (k < r)%nat
             /\ List.filter (has_dim 31 bin32) (seq (S i) n) !! (r - k - 1)%nat = Some d)
    (List.filter (has_dim 31 ut32) (seq (S i) n))
    (FromParent_loop n k bin32 ut32 (2 ^ (31 - Z.of_nat i))).
Proof.
  induction n as [|n IH]; intros i k Hi Hsub; [constructor|].
  cbn [FromParent_loop seq List.filter]. rewrite !hits_pow2 by lia.
  assert (Hbit : forall t, Z.testbit t (31 - Z.of_nat i) = has_dim 31 t (S i)).
  { intros t. unfold has_dim. f_equal. lia. }
  rewrite !Hbit.
  assert (Hrest : forall k', Forall2 (fun d r => (k' < r)%nat
             /\ List.filter (has_dim 31 bin32) (seq (S (S i)) n) !! (r - k' - 1)%nat = Some d)
    (List.filter (has_dim 31 ut32) (seq (S (S i)) n))
    (FromParent_loop n k' bin32 ut32 (Z.shiftr (2 ^ (31 - Z.of_nat i)) 1))).
  { intros k'. destruct n as [|n]; [constructor|]. rewrite shiftr_pow2_1 by lia.
    replace (31 - Z.of_nat i - 1) with (31 - Z.of_nat (S i)) by lia. apply IH; [lia|done]. }
  destruct (has_dim 31 ut32 (S i)) eqn:Hu.
  - rewrite (Hsub _ Hu). cbn [andb app]. constructor.
    + split; [lia|]. by replace (S k - k - 1)%nat with 0%nat by lia.
    + eapply Forall2_impl; [apply Hrest|]. intros d r [Hr Hl]. split; [lia|].
      replace (r - k - 1)%nat with (S (r - S k - 1)) by lia. exact Hl.
  - rewrite andb_false_r. cbn [app]. destruct (has_dim 31 bin32 (S i)).
    + eapply Forall2_impl; [apply Hrest|]. intros d r [Hr Hl]. split; [lia|].
      replace (r - k - 1)%nat with (S (r - S k - 1)) by lia. exact Hl.
    + apply Hrest.
Qed.

Lemma filter_dims_eq t t' nd :
  (forall d, (1 <= d <= nd)%nat -> has_dim 31 t d = has_dim 63 t' d) ->
  List.filter (has_dim 31 t) (seq 1 nd) = List.filter (has_dim 63 t') (seq 1 nd).
Proof. intros H. apply filter_ext_in. intros d Hd%in_seq. apply H. lia. Qed.

(** The relative numbers name the dimensions of the child among the dimensions
    of the parent. *)
Lemma FromParent_lookup t64 par nd : (1 <= nd <= 32)%nat ->
  subset (tuple32 t64 nd) par = true ->
  Forall2 (fun d r => (0 < r)%nat /\ getRegTupleFromBin32 par nd !! (r - 1)%nat = Some d)
    (GetRegTupleFromBin64 t64 nd) (GetRegTupleFromParent t64 par nd).
Proof.
  intros Hnd Hs. rewrite GetRegTupleFromBin64_filter, getRegTupleFromBin32_filter by lia.
  rewrite <- (filter_dims_eq (tuple32 t64 nd) t64 nd) by (intros; by apply tuple32_dim).
  eapply Forall2_impl.
  - apply (FromParent_loop_spec par (tuple32 t64 nd) nd 0 0); [lia|].
    intros d. by apply subset_dim.
  - intros d r [Hr Hl]. rewrite Nat.sub_0_r in Hl. auto.
Qed.

(** ** Building a mask from dimension numbers *)

Lemma CreateBinTuple_bit sel j : Forall (fun d => (1 <= d <= 64)%nat) sel -> 0 <= j ->
  forall b, Z.testbit (fold_left (fun b d => SetOneBit b (Z.of_nat d - 1)) sel b) j
  = Z.testbit b j || existsb (fun d => j =? 64 - Z.of_nat d) sel.
Proof.
  intros Hsel Hj. induction Hsel as [|d sel Hd Hsel IH]; intros b; cbn [fold_left existsb].
  { by rewrite orb_false_r. }
  rewrite IH. unfold SetOneBit at 1, MLB. rewrite shiftr_pow2, Z.lor_spec, Z.pow2_bits_eqb by lia.
  rewrite <- orb_assoc. do 2 f_equal. rewrite Z.eqb_sym. f_equal. lia.
Qed.

Lemma CreateBinTuple_dim sel d : Forall (fun d => (1 <= d <= 64)%nat) sel -> (1 <= d <= 64)%nat ->
  has_dim 63 (CreateBinTuple sel) d = bool_decide (d ∈ sel).
Proof.
  intros Hsel Hd. unfold has_dim, CreateBinTuple. rewrite CreateBinTuple_bit by (done || lia).
  rewrite Z.bits_0. cbn [orb]. apply Bool.eq_iff_eq_true. rewrite existsb_exists, bool_decide_eq_true.
  split.
  - intros (d' & Hin & E%Z.eqb_eq). rewrite list_elem_of_In. by replace d with d' by lia.
  - intros Hin. exists d. rewrite <- list_elem_of_In. split; [done|]. apply Z.eqb_eq. lia.
Qed.

Lemma filter_mem_sorted sel : forall a n, StronglySorted lt sel ->
  Forall (fun d => (a <= d < a + n)%nat) sel ->
  List.filter (fun d => bool_decide (d ∈ sel)) (seq a n) = sel.
Proof.
  induction sel as [|d sel IH]; intros a n Hs Hr.
  { clear. revert a. induction n as [|n IHn]; intros a; [done|]. cbn [seq List.filter].
    rewrite bool_decide_eq_false_2 by apply not_elem_of_nil. apply IHn. }
  inversion Hs as [|? ? Hs' Hlt]; subst. inversion Hr as [|? ? Hd Hr']; subst.
  replace n with ((d - a) + S (n - (d - a) - 1))%nat by lia. rewrite seq_app, List.filter_app.
  replace (a + (d - a))%nat with d by lia. cbn [seq List.filter].
  rewrite bool_decide_eq_true_2 by constructor.
  assert (Hpre : List.filter (fun d0 => bool_decide (d0 ∈ d :: sel)) (seq a (d - a)) = []).
  { transitivity (List.filter (fun _ => false) (seq a (d - a))); [|apply List.filter_false].
    apply filter_ext_in. intros x Hx%in_seq.
    apply bool_decide_eq_false_2. rewrite elem_of_cons. intros [->|Hx']; [lia|].
    rewrite Forall_forall in Hlt. specialize (Hlt x Hx'). lia. }
  rewrite Hpre. cbn [app]. f_equal.
  etransitivity; [|apply (IH (S d) (n - (d - a) - 1)%nat Hs')].
  - apply filter_ext_in. intros x Hx%in_seq. apply bool_decide_ext. rewrite elem_of_cons.
    split; [intros [->|]; [lia|done]|by right].
  - rewrite Forall_forall in Hlt, Hr' |- *. intros x Hx. specialize (Hlt x Hx). specialize (Hr' x Hx).
    simpl in *. lia.
Qed.

(** ** Round trips *)

Lemma reg_tuple_sorted t n : (n <= 64)%nat ->
  StronglySorted lt (GetRegTupleFromBin64 t n)
  /\ Forall (fun d => (1 <= d <= n)%nat) (GetRegTupleFromBin64 t n).
Proof.
  intros Hn. rewrite GetRegTupleFromBin64_filter by done. generalize (has_dim 63 t). intros f.
  assert (H : forall a, StronglySorted lt (List.filter f (seq a n))
    /\ Forall (fun d => (a <= d < a + n)%nat) (List.filter f (seq a n))).
  { clear Hn. induction n as [|n IH]; intros a; cbn [seq List.filter]; [repeat constructor|].
    destruct (IH (S a)) as [Hs Hr].
    assert (Hr' : Forall (fun d => (a <= d < a + S n)%nat) (List.filter f (seq (S a) n))).
    { eapply Forall_impl; [exact Hr|]. simpl. lia. }
    destruct (f a); [|auto]. split; constructor; auto; [|lia].
    eapply Forall_impl; [exact Hr|]. simpl. lia. }
  destruct (H 1%nat) as [Hs Hr]. split; [done|]. eapply Forall_impl; [exact Hr|]. simpl. lia.
Qed.

Lemma reg_of_bin sel n : (n <= 64)%nat -> StronglySorted lt sel ->
  Forall (fun d => (1 <= d <= n)%nat) sel ->
  GetRegTupleFromBin64 (CreateBinTuple sel) n = sel.
Proof.
  intros Hn Hs Hr. rewrite GetRegTupleFromBin64_filter by done.
  rewrite <- (filter_mem_sorted sel 1 n) at 2; auto.
  - apply filter_ext_in. intros d Hd%in_seq. apply CreateBinTuple_dim; [|lia].
    eapply Forall_impl; [exact Hr|]. simpl. lia.
  - eapply Forall_impl; [exact Hr|]. simpl. lia.
Qed.

(** A 64-bit tuple over [n] dimensions has no other bits. *)
Definition tuple_ok (n : nat) (t : Z) : Prop := 0 <= t < 2 ^ 64 /\ t mod 2 ^ (64 - Z.of_nat n) = 0.

Lemma tuple_ok_low n t j : (n <= 64)%nat -> tuple_ok n t -> 0 <= j < 64 - Z.of_nat n ->
  Z.testbit t j = false.
Proof.
  intros Hn [_ Hm] Hj. rewrite <- (Z.mod_pow2_bits_low t (64 - Z.of_nat n)) by lia.
  rewrite Hm. apply Z.bits_0.
Qed.

Lemma tuple_ok_high n t j : tuple_ok n t -> 64 <= j -> Z.testbit t j = false.
Proof.
  intros [Ht _] Hj. rewrite <- (Z.mod_small t (2 ^ 64)) by done.
  apply Z.mod_pow2_bits_high. lia.
Qed.

Lemma tuple_ok_eq n t t' : (n <= 64)%nat -> tuple_ok n t -> tuple_ok n t' ->
  (forall d, (1 <= d <= n)%nat -> has_dim 63 t d = has_dim 63 t' d) -> t = t'.
Proof.
  intros Hn Ht Ht' H. apply Z.bits_inj'. intros j Hj.
  destruct (Z.lt_ge_cases j (64 - Z.of_nat n)).
  { by rewrite !(tuple_ok_low n) by (done || lia). }
  destruct (Z.lt_ge_cases j 64); [|by rewrite !(tuple_ok_high n) by done].
  specialize (H (Z.to_nat (64 - j)) ltac:(lia)). unfold has_dim in H.
  by replace (63 + 1 - Z.of_nat (Z.to_nat (64 - j))) with j in H by lia.
Qed.

Lemma bin_of_reg t n : (1 <= n <= 64)%nat -> tuple_ok n t ->
  CreateBinTuple (GetRegTupleFromBin64 t n) = t.
Proof.
  intros Hn Ht. destruct (reg_tuple_sorted t n ltac:(lia)) as [_ Hr].
  assert (Hr64 : Forall (fun d => (1 <= d <= 64)%nat) (GetRegTupleFromBin64 t n)).
  { eapply Forall_impl; [exact Hr|]. simpl. lia. }
  assert (Hbit : forall j, 0 <= j -> Z.testbit (CreateBinTuple (GetRegTupleFromBin64 t n)) j
    = existsb (fun d => j =? 64 - Z.of_nat d) (GetRegTupleFromBin64 t n)).
  { intros j Hj. unfold CreateBinTuple. by rewrite CreateBinTuple_bit, Z.bits_0. }
  assert (Hout : forall j, 0 <= j -> ~ 64 - Z.of_nat n <= j < 64 ->
    Z.testbit (CreateBinTuple (GetRegTupleFromBin64 t n)) j = false).
  { intros j Hj Ho. rewrite Hbit by done. apply not_true_is_false. intros Hex.
    apply existsb_exists in Hex as (d & Hd & E%Z.eqb_eq). rewrite <- list_elem_of_In in Hd.
    rewrite Forall_forall in Hr. specialize (Hr d Hd). simpl in Hr. lia. }
  apply Z.bits_inj'. intros j Hj.
  destruct (decide (64 - Z.of_nat n <= j < 64)) as [Hin|Ho].
  - replace j with (63 + 1 - Z.of_nat (Z.to_nat (64 - j))) by lia.
    change (has_dim 63 (CreateBinTuple (GetRegTupleFromBin64 t n)) (Z.to_nat (64 - j))
            = has_dim 63 t (Z.to_nat (64 - j))).
    rewrite CreateBinTuple_dim by (done || lia). rewrite GetRegTupleFromBin64_filter by lia.
    apply Bool.eq_iff_eq_true. rewrite bool_decide_eq_true, list_elem_of_In, filter_In, in_seq.
    split; [tauto|]. intros. split; [lia|done].
  - rewrite Hout by done. symmetry. destruct (Z.lt_ge_cases j 64).
    + apply (tuple_ok_low n); auto; lia.
    + by apply (tuple_ok_high n).
Qed.

(** ** Counting dimensions *)

Lemma NumberOfOnes_loop_spec s n : forall i c, (i + n <= 64)%nat -> 0 <= c -> c + Z.of_nat n < 2 ^ 32 ->
  NumberOfOnes_loop n s (2 ^ (63 - Z.of_nat i)) c
  = c + Z.of_nat (length (List.filter (has_dim 63 s) (seq (S i) n))).
Proof.
  induction n as [|n IH]; intros i c Hi Hc Hb; [simpl; lia|].
  cbn [NumberOfOnes_loop seq List.filter]. rewrite hits_pow2 by lia.
  assert (Hd : Z.testbit s (63 - Z.of_nat i) = has_dim 63 s (S i)) by (unfold has_dim; f_equal; lia).
  rewrite Hd, (wrapu_id 32) by (unfold in_u; lia).
  assert (Hnext : forall c', 0 <= c' -> c' + Z.of_nat n < 2 ^ 32 ->
    NumberOfOnes_loop n s (Z.shiftr (2 ^ (63 - Z.of_nat i)) 1) c'
    = c' + Z.of_nat (length (List.filter (has_dim 63 s) (seq (S (S i)) n)))).
  { intros c' H1 H2. destruct n as [|n]; [simpl; lia|]. rewrite shiftr_pow2_1 by lia.
    replace (63 - Z.of_nat i - 1) with (63 - Z.of_nat (S i)) by lia. apply IH; lia. }
  destruct (has_dim 63 s (S i)); rewrite Hnext by lia; cbn [length]; lia.
Qed.

Lemma NumberOfOnes_spec s :
  NumberOfOnes s = Z.of_nat (length (List.filter (has_dim 63 s) (seq 1 64))).
Proof.
  unfold NumberOfOnes. change MLB with (2 ^ (63 - Z.of_nat 0)).
  rewrite NumberOfOnes_loop_spec by lia. by rewrite Z.add_0_l.
Qed.

Lemma length_filter_app {A} (f : A -> bool) l1 l2 :
  length (List.filter f (l1 ++ l2)) = (length (List.filter f l1) + length (List.filter f l2))%nat.
Proof. by rewrite List.filter_app, length_app. Qed.

(** Both representations of a tuple have as many ones as the view has
    dimensions. *)
Lemma NumberOfOnes_tuple32 t n : (1 <= n <= 32)%nat ->
  NumberOfOnes (tuple32 t n) = Z.of_nat (length (GetRegTupleFromBin64 t n)).
Proof.
  intros Hn. rewrite NumberOfOnes_spec, GetRegTupleFromBin64_filter by lia. f_equal.
  replace 64%nat with (32 + n + (32 - n))%nat by lia. rewrite !seq_app, !length_filter_app.
  assert (H0 : forall a k, (a + k <= 33 \/ 33 + n <= a /\ a + k <= 65)%nat -> (1 <= a)%nat ->
    length (List.filter (has_dim 63 (tuple32 t n)) (seq a k)) = 0%nat).
  { intros a k Hk Ha. transitivity (length (List.filter (fun _ => false) (seq a k)));
      [|by rewrite List.filter_false]. f_equal. apply filter_ext_in. intros d Hd%in_seq.
    unfold has_dim. destruct Hk as [Hk|Hk].
    - pose proof (tuple32_range t n) as Hr. rewrite <- (Z.mod_small _ _ Hr).
      apply Z.mod_pow2_bits_high. lia.
    - rewrite tuple32_bit by lia. destruct (Z.ltb_spec (63 + 1 - Z.of_nat d) (32 - Z.of_nat n)); [done|lia]. }
  rewrite (H0 1 32)%nat, (H0 (1 + (32 + n)) (32 - n))%nat by lia.
  rewrite Nat.add_0_r. cbn [Nat.add]. rewrite <- (Nat.add_0_l (length (List.filter (has_dim 63 t) _))).
  f_equal. clear H0.
  assert (H : forall k a, (1 <= a)%nat -> (a + k <= S n)%nat ->
    length (List.filter (has_dim 63 (tuple32 t n)) (seq (32 + a) k))
    = length (List.filter (has_dim 63 t) (seq a k))).
  { induction k as [|k IH]; intros a Ha Hk; [done|]. cbn [seq List.filter].
    assert (E : has_dim 63 (tuple32 t n) (32 + a) = has_dim 63 t a).
    { rewrite <- (tuple32_dim t n a) by lia. unfold has_dim. f_equal. lia. }
    rewrite E. replace (S (32 + a)) with (32 + S a)%nat by lia. specialize (IH (S a)).
    destruct (has_dim 63 t a); cbn [length]; rewrite IH by lia; done. }
  apply (H n 1%nat); lia.
Qed.

(** ** Leading and trailing ones *)

Lemma setLeadingOnes32_all : forallb (fun n => setLeadingOnes32 (Z.of_nat n) =? 2 ^ 32 - 2 ^ (32 - Z.of_nat n))
  (seq 0 33) = true.
Proof. vm_compute. reflexivity. Qed.

Lemma setLeadingOnes32_spec n : 0 <= n <= 32 -> setLeadingOnes32 n = 2 ^ 32 - 2 ^ (32 - n).
Proof.
  intros Hn. pose proof setLeadingOnes32_all as H. rewrite forallb_forall in H.
  specialize (H (Z.to_nat n)). rewrite in_seq, Z2Nat.id in H by lia. apply Z.eqb_eq, H. lia.
Qed.

(** [Mlo32 x] zeros, then a one. *)
Lemma Mlo32_loop_spec x n : forall i, Z.of_nat (i + n) = 32 ->
  (forall j, 31 - Z.of_nat i < j < 32 -> Z.testbit x j = false) ->
  let k := Mlo32_loop n (2 ^ (31 - Z.of_nat i)) x (Z.of_nat i) in
  Z.of_nat i <= k <= 32 /\ (forall j, 31 - k < j < 32 -> Z.testbit x j = false)
  /\ (k < 32 -> Z.testbit x (31 - k) = true).
Proof.
  induction n as [|n IH]; intros i Hi Hz k; cbn [Mlo32_loop] in k.
  { subst k. split; [lia|]. split; [done|lia]. }
  subst k. rewrite hits_comm, hits_pow2 by lia.
  destruct (Z.testbit x (31 - Z.of_nat i)) eqn:E; [split; [lia|]; split; [done|auto]|].
  replace (Z.of_nat i + 1) with (Z.of_nat (S i)) by lia.
  assert (Hz' : forall j, 31 - Z.of_nat (S i) < j < 32 -> Z.testbit x j = false).
  { intros j Hj. destruct (decide (j = 31 - Z.of_nat i)) as [->|]; [done|apply Hz; lia]. }
  destruct n as [|n].
  - cbn [Mlo32_loop]. split; [lia|]. split; [|lia]. intros j Hj. apply Hz'. lia.
  - rewrite shiftr_pow2_1 by lia.
    replace (31 - Z.of_nat i - 1) with (31 - Z.of_nat (S i)) by lia.
    destruct (IH (S i) ltac:(lia) Hz') as (H1 & H2 & H3). split; [lia|]. auto.
Qed.

Lemma Mlo32_spec x : let k := Mlo32 x in
  0 <= k <= 32 /\ (forall j, 31 - k < j < 32 -> Z.testbit x j = false)
  /\ (k < 32 -> Z.testbit x (31 - k) = true).
Proof. apply (Mlo32_loop_spec x 32 0); [lia|]. intros j Hj. simpl in Hj. lia. Qed.

(** [32 - mro32 x] trailing zeros, then a one. *)
Lemma mro32_loop_spec x n : forall i, Z.of_nat (i + n) = 32 ->
  (forall j, 0 <= j < Z.of_nat i -> Z.testbit x j = false) ->
  let k := mro32_loop n (2 ^ Z.of_nat i) x (32 - Z.of_nat i) in
  0 <= k <= 32 - Z.of_nat i /\ (forall j, 0 <= j < 32 - k -> Z.testbit x j = false)
  /\ (0 < k -> Z.testbit x (32 - k) = true).
Proof.
  induction n as [|n IH]; intros i Hi Hz k; cbn [mro32_loop] in k.
  { subst k. split; [lia|]. split; [intros j Hj; apply Hz; lia|lia]. }
  subst k. rewrite hits_comm, hits_pow2 by lia.
  destruct (Z.testbit x (Z.of_nat i)) eqn:E.
  { split; [lia|]. split; [intros j Hj; apply Hz; lia|].
    intros _. by replace (32 - (32 - Z.of_nat i)) with (Z.of_nat i) by lia. }
  replace (32 - Z.of_nat i - 1) with (32 - Z.of_nat (S i)) by lia.
  assert (Hz' : forall j, 0 <= j < Z.of_nat (S i) -> Z.testbit x j = false).
  { intros j Hj. destruct (decide (j = Z.of_nat i)) as [->|]; [done|apply Hz; lia]. }
  destruct n as [|n].
  - cbn [mro32_loop]. split; [lia|]. split; [|lia]. intros j Hj. apply Hz'. lia.
  - rewrite Z.shiftl_mul_pow2, <- Z.pow_add_r by lia.
    replace (Z.of_nat i + 1) with (Z.of_nat (S i)) by lia.
    rewrite (wrapu_id 32).
    + destruct (IH (S i) ltac:(lia) Hz') as (H1 & H2 & H3). split; [lia|]. auto.
    + split; [apply Z.pow_nonneg; lia|apply Z.pow_lt_mono_r; lia].
Qed.

Lemma mro32_spec x : let k := mro32 x in
  0 <= k <= 32 /\ (forall j, 0 <= j < 32 - k -> Z.testbit x j = false)
  /\ (0 < k -> Z.testbit x (32 - k) = true).
Proof. apply (mro32_loop_spec x 32 0); [lia|]. intros j Hj. simpl in Hj. lia. Qed.
