(* ===== verification/JobPool.v ===== *)
(** * The job pool of DC/jobcntl.c

    The views that have been made are kept in the array [jpp], one stretch per
    number of dimensions ("layer"), described by [lpp].  [GetParent] looks for
    a made view a new view can be computed from.  [None] is an index outside
    an array. *)

From Stdlib Require Import ZArith Lia.
From stdpp Require Import base numbers option list.
From S2P Require Import Prelude JobBits.

Inductive parent := smallestParent | prefixedParent | sharedSortParent | noneParent.

#[export] Instance parent_eq_dec : EqDecision parent.
Proof. solve_decision. Defined.

Record JOB_POOL := mkJob { grpb : Z; j_nv : nat; nRows : Z; j_viewOffset : Z }.

Record LAYER := mkLayer {
  layerIndex : nat;
  layerQuantityLimit : nat;
  layerCurrentPopulation : nat
}.

(** The fields of [ADC_VIEW_CNTL] the routines use. *)
Record pool := mkPool {
  nTopDims : nat;
  groupby : Z;
  jpp : list JOB_POOL;
  lpp : list LAYER;
  smallestParentLevel : nat;
  viewOffset : Z;
  nParentViewRows : Z;
  parBinRepTuple : Z
}.

(** [for (combsNbyK=1, l=1; l<=k; l++) combsNbyK = combsNbyK*(n-l+1)/l]. *)
Fixpoint combs_loop (m : nat) (n l c : Z) : Z :=
  match m with
  | O => c
  | S m' => combs_loop m' n (l + 1) (u32 (c * u32 (n - l + 1)) / l)
  end.

Definition NumOfCombsFromNbyK (n k : nat) : Z :=
  if (n <? k)%nat then 0 else combs_loop k (Z.of_nat n) 1 1.

(** The layer loop of [NewAdcViewCntl]:
    [for (j = 1, i = 1; i <= nd; i++) { k = NumOfCombsFromNbyK(nd, i); ... j += k; ... }]. *)
Fixpoint layer_loop (m nd i j : nat) : list LAYER :=
  match m with
  | O => []
  | S m' =>
      let k := Z.to_nat (NumOfCombsFromNbyK nd i) in
      mkLayer j k 0 :: layer_loop m' nd (S i) (j + k)
  end.

(** [JobPoolInit(jpp, n, nd)]. *)
Definition JobPoolInit (n : nat) : list JOB_POOL := repeat (mkJob 0 0 0 0) n.

(** The pool [NewAdcViewCntl] sets up; [lpp[0]] and the parent fields keep
    what [malloc] left there. *)
Definition new_pool (garbage : LAYER) (level : nat) (off rows par g : Z) (nd : nat) : pool :=
  let nViewLimit := (2 ^ nd - 1)%nat in
  mkPool nd g (JobPoolInit (nViewLimit + 1)) (garbage :: layer_loop nd nd 1 1) level off rows par.

(** [JobPoolUpdate(avp)]. *)
Definition JobPoolUpdate (nv : nat) (nViewRows accViewFileOffset : Z) (p : pool) : option pool :=
  match lpp p !! nv with
  | None => None
  | Some l =>
      let k := (layerIndex l + layerCurrentPopulation l)%nat in
      if (k <? length (jpp p))%nat then
        Some (mkPool (nTopDims p) (groupby p)
          (<[k := mkJob (groupby p) nv nViewRows accViewFileOffset]> (jpp p))
          (<[nv := mkLayer (layerIndex l) (layerQuantityLimit l) (S (layerCurrentPopulation l))]> (lpp p))
          (smallestParentLevel p) (viewOffset p) (nParentViewRows p) (parBinRepTuple p))
      else None
  end.

(** The best view of a kind so far: its number of rows and its index.  It is
    [None] while the "first time" flag is set. *)
Abbreviation best := (option (Z * nat)).

Definition better (cur : best) (rows : Z) (ig : nat) : best :=
  match cur with
  | None => Some (rows, ig)
  | Some (m, _) => if rows <? m then Some (rows, ig) else cur
  end.

(** The inner [for] of the three searches, over the [n] views of a layer from
    index [ig]: [fits] decides which kinds a view counts for. *)
Section Scan.
Context {K : Type} (fits : Z -> K -> Z -> nat -> K).

Fixpoint scan_layer (n ig : nat) (js : list JOB_POOL) (s : K) : option K :=
  match n with
  | O => Some s
  | S n' =>
      match js !! ig with
      | None => None
      | Some e => scan_layer n' (S ig) js (fits (grpb e) s (nRows e) ig)
      end
  end.
End Scan.

(** The parent fields for the view at index [ig] of the pool. *)
Definition take_parent (level ig : nat) (p : pool) : option pool :=
  match jpp p !! ig with
  | None => None
  | Some e => Some (mkPool (nTopDims p) (groupby p) (jpp p) (lpp p) level
                      (j_viewOffset e) (nRows e) (grpb e))
  end.

(** ** GetParent *)

Record kinds := mkKinds { sp : best; pf : best; ss : best }.

Definition parent_fits (g bin pfm mlo lom : Z) (t : Z) (s : kinds) (rows : Z) (ig : nat) : kinds :=
  if Z.land g t =? g then
    mkKinds (better (sp s) rows ig)
      (if Z.land t pfm =? bin then better (pf s) rows ig else pf s)
      (if hits t mlo && negb (hits t lom) then better (ss s) rows ig else ss s)
  else s.

(** The [for] over the levels.  A level that finds a view ends it, so the
    flags are always clear when the next level starts. *)
Fixpoint GetParent_levels (m level : nat) (bin pfm mlo lom : Z) (p : pool) : option (parent * pool) :=
  match m with
  | O => Some (noneParent, p)
  | S m' =>
      match lpp p !! level with
      | None => None
      | Some l =>
          match scan_layer (parent_fits (groupby p) bin pfm mlo lom)
                  (layerCurrentPopulation l) (layerIndex l) (jpp p) (mkKinds None None None) with
          | None => None
          | Some s =>
              let result k ig :=
                match take_parent level ig p with Some p' => Some (k, p') | None => None end in
              match pf s, ss s, sp s with
              | Some (_, ig), _, _ => result prefixedParent ig
              | None, Some (_, ig), _ => result sharedSortParent ig
              | None, None, Some (_, ig) => result smallestParent ig
              | None, None, None => GetParent_levels m' (S level) bin pfm mlo lom p
              end
          end
      end
  end.

Definition GetParent (bin : Z) (p : pool) : option (parent * pool) :=
  let l := Z.to_nat (NumberOfOnes bin) in
  let g := groupby p in
  let pfm := setLeadingOnes32 (mro32 g) in
  let mlo := SetOneBit32 0 (Mlo32 g) in
  let lom := setLeadingOnes32 (Mlo32 g) in
  GetParent_levels (S (nTopDims p) - l) l bin pfm mlo lom p.

(** ** GetSmallestParent and GetPrefixedParent

    The boolean is the return value [found]. *)
Definition one_fits (cond : Z -> bool) (g t : Z) (s : best) (rows : Z) (ig : nat) : best :=
  if Z.land g t =? g then if cond t then better s rows ig else s else s.

Fixpoint one_levels (cond : Z -> bool) (m level : nat) (p : pool) : option (bool * pool) :=
  match m with
  | O => Some (false, p)
  | S m' =>
      match lpp p !! level with
      | None => None
      | Some l =>
          match scan_layer (one_fits cond (groupby p))
                  (layerCurrentPopulation l) (layerIndex l) (jpp p) None with
          | None => None
          | Some (Some (_, ig)) =>
              match take_parent level ig p with Some p' => Some (true, p') | None => None end
          | Some None => one_levels cond m' (S level) p
          end
      end
  end.

Definition GetSmallestParent (bin : Z) (p : pool) : option (bool * pool) :=
  let l := Z.to_nat (NumberOfOnes bin) in
  one_levels (fun _ => true) (S (nTopDims p) - l) l p.

Definition GetPrefixedParent (bin : Z) (p : pool) : option (bool * pool) :=
  let l := Z.to_nat (NumberOfOnes bin) in
  let tm := setLeadingOnes32 (mro32 (groupby p)) in
  one_levels (fun t => Z.land t tm =? bin) (S (nTopDims p) - l) l p.
