(* ===== verification/JobPoolSpec.v ===== *)
(** * The job pool: combinatorics and invariant

    The layers of the pool are stretches of [binom nd l] entries that tile the
    array; a layer can hold every groupby of its size.  [pool_rep] relates the
    arrays to the lists of views made so far. *)

From Stdlib Require Import ZArith Lia Sorted.
From stdpp Require Import base numbers option list.
From S2P Require Import Prelude JobBits JobPool.

(** ** Binomial coefficients *)

Fixpoint binom (n k : nat) : Z :=
  match n, k with
  | _, O => 1
  | O, S _ => 0
  | S n', S k' => binom n' k' + binom n' (S k')
  end.

Lemma binom_0_r n : binom n 0 = 1.
Proof. by destruct n. Qed.

Lemma binom_bounds n : forall k, 0 <= binom n k <= 2 ^ Z.of_nat n.
Proof.
  induction n as [|n IH]; intros [|k]; cbn [binom]; [lia|cbn; lia| |].
  - rewrite Nat2Z.inj_succ, Z.pow_succ_r by lia. pose proof (Z.pow_pos_nonneg 2 (Z.of_nat n)). lia.
  - rewrite Nat2Z.inj_succ, Z.pow_succ_r by lia. pose proof (IH k). pose proof (IH (S k)). lia.
Qed.

Lemma binom_above n : forall k, (n < k)%nat -> binom n k = 0.
Proof.
  induction n as [|n IH]; intros [|k] Hk; try lia; [done|]. cbn [binom]. rewrite !IH by lia. done.
Qed.

Lemma binom_next n : forall k,
  Z.of_nat (S k) * binom n (S k) = (Z.of_nat n - Z.of_nat k) * binom n k.
Proof.
  induction n as [|n IH]; intros k.
  { destruct k; cbn [binom]; lia. }
  cbn [binom]. destruct k as [|k].
  - specialize (IH 0%nat). rewrite binom_0_r in *. lia.
  - pose proof (IH k) as H1. pose proof (IH (S k)) as H2. cbn [binom]. nia.
Qed.

(** [NumOfCombsFromNbyK] is the binomial coefficient, without overflow. *)
Lemma combs_loop_spec n m : forall l, (n <= 20)%nat -> (l + m <= n)%nat ->
  combs_loop m (Z.of_nat n) (Z.of_nat l + 1) (binom n l) = binom n (l + m).
Proof.
  induction m as [|m IH]; intros l Hn Hl; cbn [combs_loop].
  { by rewrite Nat.add_0_r. }
  pose proof (binom_bounds n l) as Hb. pose proof (binom_next n l) as Hnext.
  assert (2 ^ Z.of_nat n <= 2 ^ 20) by (apply Z.pow_le_mono_r; lia).
  rewrite (wrapu_id 32 (Z.of_nat n - _ + 1)) by (unfold in_u; lia).
  rewrite (wrapu_id 32) by (unfold in_u; nia).
  replace (binom n l * (Z.of_nat n - (Z.of_nat l + 1) + 1)) with (binom n (S l) * (Z.of_nat l + 1)) by nia.
  rewrite Z.div_mul by lia.
  replace (Z.of_nat l + 1 + 1) with (Z.of_nat (S l) + 1) by lia.
  rewrite IH by lia. f_equal. lia.
Qed.

Lemma NumOfCombs_binom n k : (n <= 20)%nat -> NumOfCombsFromNbyK n k = binom n k.
Proof.
  intros Hn. unfold NumOfCombsFromNbyK. destruct (Nat.ltb_spec n k) as [H|H].
  - by rewrite binom_above.
  - pose proof (combs_loop_spec n k 0 Hn ltac:(lia)) as Hc. rewrite binom_0_r in Hc. exact Hc.
Qed.

(** ** The layers tile the array *)

Definition slots (nd l : nat) : nat := Z.to_nat (binom nd l).

Fixpoint layer_start (nd l : nat) : nat :=
  match l with
  | O => 0
  | S l' => layer_start nd l' + slots nd l'
  end.

Lemma layer_start_mono nd l l' : (l < l')%nat -> (layer_start nd l + slots nd l <= layer_start nd l')%nat.
Proof. induction 1; cbn [layer_start]; lia. Qed.

Lemma slots_0 nd : slots nd 0 = 1%nat.
Proof. unfold slots. by rewrite binom_0_r. Qed.

Lemma slots_pascal nd l : slots (S nd) (S l) = (slots nd l + slots nd (S l))%nat.
Proof.
  unfold slots. cbn [binom]. pose proof (binom_bounds nd l). pose proof (binom_bounds nd (S l)). lia.
Qed.

Lemma layer_start_pascal nd l : 
  layer_start (S nd) (S l) = (layer_start nd (S l) + layer_start nd l)%nat.
Proof.
  induction l as [|l IH]; [cbn [layer_start]; by rewrite !slots_0|].
  change (layer_start (S nd) (S (S l))) with (layer_start (S nd) (S l) + slots (S nd) (S l))%nat.
  rewrite IH, slots_pascal. cbn [layer_start]. lia.
Qed.

Lemma layer_start_total nd : layer_start nd (S nd) = (2 ^ nd)%nat.
Proof.
  induction nd as [|nd IH]; [done|]. rewrite layer_start_pascal.
  change (layer_start nd (S (S nd))) with (layer_start nd (S nd) + slots nd (S nd))%nat.
  assert (slots nd (S nd) = 0%nat) as -> by (unfold slots; rewrite binom_above by lia; done).
  rewrite IH. cbn [Nat.pow]. lia.
Qed.

Lemma layer_loop_lookup nd m : (nd <= 20)%nat -> forall i q, (1 <= i)%nat -> (q < m)%nat ->
  layer_loop m nd i (layer_start nd i) !! q
  = Some (mkLayer (layer_start nd (i + q)) (slots nd (i + q)) 0).
Proof.
  intros Hnd. induction m as [|m IH]; intros i q Hi Hq; [lia|]. cbn [layer_loop].
  rewrite NumOfCombs_binom by done. fold (slots nd i). destruct q as [|q].
  - by rewrite Nat.add_0_r.
  - change (layer_start nd i + slots nd i)%nat with (layer_start nd (S i)).
    etransitivity; [exact (IH (S i) q ltac:(lia) ltac:(lia))|]. do 2 f_equal; f_equal; lia.
Qed.

(** ** A layer has room for all groupbys of its size *)

Fixpoint choose {A} (l : list A) (k : nat) : list (list A) :=
  match k with
  | O => [[]]
  | S k' => match l with
            | [] => []
            | x :: l' => (cons x <$> choose l' k') ++ choose l' k
            end
  end.

Lemma length_choose {A} (l : list A) : forall k, Z.of_nat (length (choose l k)) = binom (length l) k.
Proof.
  induction l as [|x l IH]; intros [|k]; try done.
  cbn [choose length binom]. rewrite length_app, length_fmap, Nat2Z.inj_add, !IH. done.
Qed.

Lemma filter_choose {A} (f : A -> bool) l : List.filter f l ∈ choose l (length (List.filter f l)).
Proof.
  induction l as [|x l IH]; cbn [List.filter]; [by constructor|].
  destruct (f x); cbn [length choose].
  - apply elem_of_app. left. apply list_elem_of_fmap. eauto.
  - destruct (length (List.filter f l)) as [|k] eqn:E.
    + apply nil_length_inv in E. rewrite E. cbn [choose]. constructor.
    + cbn [choose]. apply elem_of_app. right. exact IH.
Qed.

Lemma groupbys_fit nd l ts : (1 <= nd <= 64)%nat -> NoDup ts ->
  Forall (fun t => tuple_ok nd t /\ length (GetRegTupleFromBin64 t nd) = l) ts ->
  (length ts <= slots nd l)%nat.
Proof.
  intros Hnd Hdup Hts.
  rewrite <- (length_map (fun t => GetRegTupleFromBin64 t nd) ts).
  replace (slots nd l) with (length (choose (seq 1 nd) l)).
  2: { unfold slots. pose proof (length_choose (seq 1 nd) l) as Hc. rewrite length_seq in Hc. lia. }
  apply NoDup_incl_length.
  - apply NoDup_ListNoDup. apply NoDup_fmap_2_strong; [|done].
    rewrite Forall_forall in Hts. intros t t' Ht Ht' E.
    rewrite <- (bin_of_reg t nd), <- (bin_of_reg t' nd), E; auto; by apply Hts.
  - intros sel Hin. apply in_map_iff in Hin as (t & <- & Ht). rewrite <- list_elem_of_In. apply list_elem_of_In in Ht.
    rewrite Forall_forall in Hts. destruct (Hts t Ht) as [_ <-].
    rewrite GetRegTupleFromBin64_filter by lia. apply filter_choose.
Qed.

(** ** The invariant of the pool *)

(** [made l] are the views of [l] dimensions in the pool. *)
Record pool_rep (p : pool) (made : nat -> list JOB_POOL) : Prop := {
  pr_dims : (1 <= nTopDims p <= 20)%nat;
  pr_jobs : length (jpp p) = (2 ^ nTopDims p)%nat;
  pr_layer : forall l, (1 <= l <= nTopDims p)%nat ->
    lpp p !! l = Some (mkLayer (layer_start (nTopDims p) l) (slots (nTopDims p) l) (length (made l)));
  pr_room : forall l, (1 <= l <= nTopDims p)%nat -> (length (made l) <= slots (nTopDims p) l)%nat;
  pr_entry : forall l i, (1 <= l <= nTopDims p)%nat -> (i < length (made l))%nat ->
    jpp p !! (layer_start (nTopDims p) l + i)%nat = made l !! i
}.

Lemma new_pool_rep garbage level off rows par g nd : (1 <= nd <= 20)%nat ->
  pool_rep (new_pool garbage level off rows par g nd) (fun _ => []).
Proof.
  intros Hnd. split; cbn [nTopDims jpp lpp new_pool length].
  - done.
  - unfold JobPoolInit. rewrite repeat_length. pose proof (Nat.pow_nonzero 2 nd). lia.
  - intros [|l] Hl; [lia|]. pose proof (layer_loop_lookup nd nd ltac:(lia) 1 l ltac:(lia) ltac:(lia)) as Hlk.
    change (layer_start nd 1) with (slots nd 0) in Hlk. rewrite slots_0 in Hlk. exact Hlk.
  - lia.
  - lia.
Qed.

(** The layers fit the array. *)
Lemma layer_inside nd l i : (l <= nd)%nat -> (i < slots nd l)%nat ->
  (layer_start nd l + i < 2 ^ nd)%nat.
Proof.
  intros Hl Hi. rewrite <- layer_start_total. pose proof (layer_start_mono nd l (S nd) ltac:(lia)). lia.
Qed.

Lemma layers_disjoint nd l l' i i' : l <> l' -> (i < slots nd l)%nat -> (i' < slots nd l')%nat ->
  (layer_start nd l + i <> layer_start nd l' + i')%nat.
Proof.
  intros Hl Hi Hi'. destruct (Nat.lt_total l l') as [H|[H|H]]; [|done|].
  - pose proof (layer_start_mono nd l l' H). lia.
  - pose proof (layer_start_mono nd l' l H). lia.
Qed.

Definition add_made (l : nat) (e : JOB_POOL) (made : nat -> list JOB_POOL) : nat -> list JOB_POOL :=
  fun l' => if decide (l' = l) then made l ++ [e] else made l'.

Lemma JobPoolUpdate_run p made nv rows off :
  pool_rep p made -> (1 <= nv <= nTopDims p)%nat -> (length (made nv) < slots (nTopDims p) nv)%nat ->
  exists p', JobPoolUpdate nv rows off p = Some p'
    /\ pool_rep p' (add_made nv (mkJob (groupby p) nv rows off) made)
    /\ nTopDims p' = nTopDims p /\ groupby p' = groupby p.
Proof.
  intros Hp Hnv Hroom. unfold JobPoolUpdate. rewrite (pr_layer _ _ Hp nv Hnv).
  cbn [layerIndex layerQuantityLimit layerCurrentPopulation].
  pose proof (layer_inside (nTopDims p) nv (length (made nv)) ltac:(lia) Hroom) as Hin.
  rewrite (pr_jobs _ _ Hp), (proj2 (Nat.ltb_lt _ _) Hin).
  eexists. split; [reflexivity|]. split; [|done].
  assert (Hlpp : (nv < length (lpp p))%nat) by (eapply lookup_lt_Some, (pr_layer _ _ Hp); done).
  split; cbn [nTopDims jpp lpp groupby]; unfold add_made.
  - apply Hp.
  - rewrite length_insert. apply Hp.
  - intros l Hl. destruct (decide (l = nv)) as [->|Hne].
    + rewrite list_lookup_insert_eq by done. rewrite length_app. cbn. do 2 f_equal. lia.
    + rewrite list_lookup_insert_ne by done. by apply Hp.
  - intros l Hl. destruct (decide (l = nv)) as [->|Hne]; [rewrite length_app; cbn; lia|by apply Hp].
  - intros l i Hl Hi. destruct (decide (l = nv)) as [->|Hne].
    + rewrite length_app in Hi. cbn in Hi. destruct (decide (i = length (made nv))) as [->|Hne].
      * rewrite list_lookup_insert_eq by (rewrite (pr_jobs _ _ Hp); done).
        by rewrite lookup_app_r, Nat.sub_diag by lia.
      * rewrite list_lookup_insert_ne by lia. rewrite lookup_app_l by lia. apply Hp; lia.
    + rewrite list_lookup_insert_ne; [by apply Hp|].
      pose proof (pr_room _ _ Hp l Hl). apply layers_disjoint; auto; lia.
Qed.

(** ** The searches *)

(** What scanning a layer computes: a fold over its views. *)
Lemma scan_layer_fold {K} (fits : Z -> K -> Z -> nat -> K) js es : forall ig s,
  (forall i, (i < length es)%nat -> js !! (ig + i)%nat = es !! i) ->
  scan_layer fits (length es) ig js s
  = Some (fst (fold_left (fun '(s, ig) e => (fits (grpb e) s (nRows e) ig, S ig)) es (s, ig))).
Proof.
  induction es as [|e es IH]; intros ig s H; [done|]. cbn [length scan_layer fold_left].
  pose proof (H 0%nat ltac:(simpl; lia)) as H0. rewrite Nat.add_0_r in H0. cbn in H0. rewrite H0.
  apply IH. intros i Hi. specialize (H (S i) ltac:(simpl; lia)).
  by replace (S ig + i)%nat with (ig + S i)%nat by lia.
Qed.

(** [b] is the first view with the fewest rows among those of [es] that
    satisfy [P], the views being numbered from [i0]. *)
Definition is_best (P : JOB_POOL -> bool) (es : list JOB_POOL) (i0 : nat) (b : best) : Prop :=
  match b with
  | None => Forall (fun e => P e = false) es
  | Some (m, ig) => exists e, (i0 <= ig)%nat /\ es !! (ig - i0)%nat = Some e /\ P e = true /\ nRows e = m
      /\ Forall (fun e' => P e' = true -> m <= nRows e') es
  end.

Lemma better_spec P es i0 b e : is_best P es i0 b ->
  is_best P (es ++ [e]) i0 (if P e then better b (nRows e) (i0 + length es) else b).
Proof.
  intros Hb. destruct b as [[m ig]|]; cbn [is_best better] in *.
  - destruct Hb as (e0 & Hi & He0 & HP & Hm & Hall).
    assert (Hold : (P e = true -> m <= nRows e) -> is_best P (es ++ [e]) i0 (Some (m, ig))).
    { intros H. exists e0. split_and!; auto.
      - rewrite lookup_app_l; [done|]. by eapply lookup_lt_Some.
      - apply Forall_app. split; [done|]. by apply Forall_singleton. }
    destruct (P e) eqn:HPe; [|by apply Hold].
    destruct (Z.ltb_spec (nRows e) m) as [Hlt|Hge]; [|by apply Hold].
    exists e. rewrite Nat.add_comm, Nat.add_sub, lookup_app_r, Nat.sub_diag by lia.
    split_and!; auto; [lia|]. apply Forall_app. split; [|by apply Forall_singleton].
    eapply Forall_impl; [exact Hall|]. simpl. intros e' H HP'. specialize (H HP'). lia.
  - destruct (P e) eqn:HPe.
    + exists e. rewrite Nat.add_comm, Nat.add_sub, lookup_app_r, Nat.sub_diag by lia.
      split_and!; auto; [lia|]. apply Forall_app. split; [|by apply Forall_singleton].
      eapply Forall_impl; [exact Hb|]. simpl. congruence.
    + apply Forall_app. split; [done|]. by apply Forall_singleton.
Qed.

(** A view of [es] that satisfies [P] and has the fewest rows of those. *)
Definition smallest_of (P : JOB_POOL -> bool) (es : list JOB_POOL) (e : JOB_POOL) : Prop :=
  e ∈ es /\ P e = true /\ Forall (fun e' => P e' = true -> nRows e <= nRows e') es.

Lemma is_best_smallest P es i0 m ig : is_best P es i0 (Some (m, ig)) ->
  exists e, (i0 <= ig)%nat /\ es !! (ig - i0)%nat = Some e /\ smallest_of P es e.
Proof.
  intros (e & Hi & He & HP & Hm & Hall). exists e. unfold smallest_of. split_and!; auto.
  - apply list_elem_of_lookup. eauto.
  - by rewrite Hm.
Qed.

(** [take_parent] on a view of layer [l]. *)
Lemma take_parent_run p made l ig e : pool_rep p made -> (1 <= l <= nTopDims p)%nat ->
  (layer_start (nTopDims p) l <= ig)%nat -> made l !! (ig - layer_start (nTopDims p) l)%nat = Some e ->
  take_parent l ig p = Some (mkPool (nTopDims p) (groupby p) (jpp p) (lpp p) l
                               (j_viewOffset e) (nRows e) (grpb e)).
Proof.
  intros Hp Hl Hig He. unfold take_parent.
  pose proof (pr_entry _ _ Hp l (ig - layer_start (nTopDims p) l) Hl) as Hentry.
  rewrite He in Hentry. replace (layer_start (nTopDims p) l + _)%nat with ig in Hentry by lia.
  rewrite Hentry; [done|]. by eapply lookup_lt_Some.
Qed.

Section Search.
Context (p : pool) (made : nat -> list JOB_POOL) (Hp : pool_rep p made).
Abbreviation g := (groupby p).
Abbreviation start := (layer_start (nTopDims p)).

(** The parent fields after [e], a view of layer [l], was chosen. *)
Definition parent_is (l : nat) (e : JOB_POOL) (p' : pool) : Prop :=
  p' = mkPool (nTopDims p) g (jpp p) (lpp p) l (j_viewOffset e) (nRows e) (grpb e).

Definition none_at (P : JOB_POOL -> bool) (l : nat) : Prop := Forall (fun e => P e = false) (made l).

Definition above (e : JOB_POOL) : bool := subset g (grpb e).

Definition search_found (P : JOB_POOL -> bool) (lo hi : nat) (p' : pool) : Prop :=
  exists l e, (lo <= l < hi)%nat /\ smallest_of P (made l) e /\ parent_is l e p'
    /\ forall l', (lo <= l' < l)%nat -> none_at P l'.

(** *** One kind of parent *)

Lemma one_fits_fold cond i0 es :
  let P e := above e && cond (grpb e) in
  let r := fold_left (fun '(s, ig) e => (one_fits cond g (grpb e) s (nRows e) ig, S ig)) es (None, i0) in
  is_best P es i0 (fst r) /\ snd r = (i0 + length es)%nat.
Proof.
  intros P. induction es as [|e es IH] using rev_ind; cbn zeta in *.
  { cbn. split; [constructor|lia]. }
  rewrite fold_left_app, length_app. cbn [fold_left].
  destruct (fold_left _ es (None, i0)) as [s ig]. cbn [fst snd] in *. destruct IH as [Hb ->].
  split; [|cbn; lia]. pose proof (better_spec P es i0 s e Hb) as H.
  unfold one_fits. fold (subset g (grpb e)). change (P e) with (subset g (grpb e) && cond (grpb e)) in H.
  by destruct (subset g (grpb e)), (cond (grpb e)).
Qed.

Lemma one_levels_spec cond m : forall l, (1 <= l)%nat -> (l + m <= S (nTopDims p))%nat ->
  let P e := above e && cond (grpb e) in
  exists b p', one_levels cond m l p = Some (b, p') /\
    (b = true /\ search_found P l (l + m) p'
     \/ b = false /\ p' = p /\ forall l', (l <= l' < l + m)%nat -> none_at P l').
Proof.
  induction m as [|m IH]; intros l Hl Hm P; cbn [one_levels].
  { eexists _, _. split; [reflexivity|]. right. split_and!; auto. lia. }
  rewrite (pr_layer _ _ Hp l) by lia. cbn [layerCurrentPopulation layerIndex].
  rewrite (scan_layer_fold _ _ (made l)) by (intros; apply Hp; lia).
  destruct (one_fits_fold cond (start l) (made l)) as [Hb _]. fold P in Hb.
  destruct (fst _) as [[mr ig]|].
  - apply is_best_smallest in Hb as (e & Hig & He & Hs).
    rewrite (take_parent_run p made l ig e Hp) by (done || lia).
    eexists _, _. split; [reflexivity|]. left. split; [done|].
    exists l, e. split_and!; [lia|lia|auto|done|intros; lia].
  - destruct (IH (S l) ltac:(lia) ltac:(lia)) as (b & p' & Hrun & [[-> Hf]|(-> & -> & Hn)]);
      rewrite Hrun; eexists _, _; (split; [reflexivity|]).
    + left. split; [done|]. destruct Hf as (l1 & e & Hl1 & Hs & Hpar & Hlow).
      exists l1, e. split_and!; [lia|lia|done|done|]. intros l' Hl'.
      destruct (decide (l' = l)) as [->|]; [exact Hb|apply Hlow; lia].
    + right. split_and!; auto. intros l' Hl'.
      destruct (decide (l' = l)) as [->|]; [exact Hb|apply Hn; lia].
Qed.

(** *** The three kinds of [GetParent] *)

Section Kinds.
Context (bin pfm mlo lom : Z).

Definition prefixed (e : JOB_POOL) : bool := above e && (Z.land (grpb e) pfm =? bin).
Definition shared (e : JOB_POOL) : bool := above e && (hits (grpb e) mlo && negb (hits (grpb e) lom)).

(** The view the kind [k] prefers in a layer. *)
Definition chosen (k : parent) (es : list JOB_POOL) (e : JOB_POOL) : Prop :=
  match k with
  | prefixedParent => smallest_of prefixed es e
  | sharedSortParent => smallest_of shared es e
  | smallestParent => smallest_of above es e
  | noneParent => False
  end.

Definition found_parent (lo hi : nat) (k : parent) (p' : pool) : Prop :=
  exists l e, (lo <= l < hi)%nat /\ chosen k (made l) e /\ parent_is l e p'
    /\ forall l', (lo <= l' < l)%nat -> none_at above l'.

Lemma parent_fits_fold i0 es :
  let r := fold_left (fun '(s, ig) e =>
             (parent_fits g bin pfm mlo lom (grpb e) s (nRows e) ig, S ig)) es
             (mkKinds None None None, i0) in
  is_best above es i0 (sp (fst r)) /\ is_best prefixed es i0 (pf (fst r))
  /\ is_best shared es i0 (ss (fst r)) /\ snd r = (i0 + length es)%nat.
Proof.
  induction es as [|e es IH] using rev_ind; cbn zeta in *.
  { cbn. split_and!; [constructor..|lia]. }
  rewrite fold_left_app, length_app. cbn [fold_left].
  destruct (fold_left _ es _) as [[sp0 pf0 ss0] ig]. cbn [fst snd sp pf ss] in *.
  destruct IH as (Hsp & Hpf & Hss & ->). split_and!; [..|cbn; lia].
  - pose proof (better_spec above es i0 sp0 e Hsp) as H. unfold parent_fits.
    fold (subset g (grpb e)). change (above e) with (subset g (grpb e)) in H. by destruct (subset g (grpb e)).
  - pose proof (better_spec prefixed es i0 pf0 e Hpf) as H. unfold parent_fits.
    fold (subset g (grpb e)). change (prefixed e) with (subset g (grpb e) && (Z.land (grpb e) pfm =? bin)) in H.
    by destruct (subset g (grpb e)), (_ =? bin).
  - pose proof (better_spec shared es i0 ss0 e Hss) as H. unfold parent_fits.
    fold (subset g (grpb e)). change (shared e) with
      (subset g (grpb e) && (hits (grpb e) mlo && negb (hits (grpb e) lom))) in H.
    by destruct (subset g (grpb e)), (hits _ mlo && _).
Qed.

Lemma GetParent_levels_spec m : forall l, (1 <= l)%nat -> (l + m <= S (nTopDims p))%nat ->
  exists k p', GetParent_levels m l bin pfm mlo lom p = Some (k, p') /\
    (k <> noneParent /\ found_parent l (l + m) k p'
     \/ k = noneParent /\ p' = p /\ forall l', (l <= l' < l + m)%nat -> none_at above l').
Proof.
  induction m as [|m IH]; intros l Hl Hm; cbn [GetParent_levels].
  { eexists _, _. split; [reflexivity|]. right. split_and!; auto. lia. }
  rewrite (pr_layer _ _ Hp l) by lia. cbn [layerCurrentPopulation layerIndex].
  rewrite (scan_layer_fold _ _ (made l)) by (intros; apply Hp; lia).
  destruct (parent_fits_fold (start l) (made l)) as (Hsp & Hpf & Hss & _).
  assert (Hhit : forall k P mr ig, is_best P (made l) (start l) (Some (mr, ig)) ->
    k <> noneParent -> (forall e, smallest_of P (made l) e -> chosen k (made l) e) ->
    exists k' p', match take_parent l ig p with Some p' => Some (k, p') | None => None end
                  = Some (k', p') /\
      (k' <> noneParent /\ found_parent l (l + S m) k' p'
       \/ k' = noneParent /\ p' = p /\ forall l', (l <= l' < l + S m)%nat -> none_at above l')).
  { intros k P mr ig Hb Hk Hch. apply is_best_smallest in Hb as (e & Hig & He & Hs).
    rewrite (take_parent_run p made l ig e Hp) by (done || lia).
    eexists _, _. split; [reflexivity|]. left. split; [done|].
    exists l, e. split_and!; [lia|lia|auto|done|intros; lia]. }
  destruct (pf _) as [[mr ig]|]; [by eapply Hhit|].
  destruct (ss _) as [[mr ig]|]; [by eapply Hhit|].
  destruct (sp _) as [[mr ig]|]; [by eapply Hhit|].
  destruct (IH (S l) ltac:(lia) ltac:(lia)) as (k & p' & Hrun & [[Hk Hf]|(-> & -> & Hn)]);
    rewrite Hrun; eexists _, _; (split; [reflexivity|]).
  - left. split; [done|]. destruct Hf as (l1 & e & Hl1 & Hs & Hpar & Hlow).
    exists l1, e. split_and!; [lia|lia|done|done|]. intros l' Hl'.
    destruct (decide (l' = l)) as [->|]; [exact Hsp|apply Hlow; lia].
  - right. split_and!; auto. intros l' Hl'.
    destruct (decide (l' = l)) as [->|]; [exact Hsp|apply Hn; lia].
Qed.
End Kinds.
End Search.
