(* ===== verification/HeapSort.v ===== *)
(** * The heap sorts of DC/jobcntl.c

    [vszsort] and [onessort] are the same heap sort on arrays of records with
    different key fields, [restore] and [restoreo] the same sift-down; they
    are modelled once, over the key.  Indices count from one as in the code;
    [None] is an access outside the array or an endless loop. *)

From Stdlib Require Import ZArith Lia Sorted.
From stdpp Require Import base numbers option list.
From S2P Require Import Prelude.

Record TUPLE_VIEWSIZE := mkTV { viewsize : Z; tv_tuple : Z }.
Record TUPLE_ONES := mkTO { nOnes : Z; to_tuple : Z }.

Section Heap.
Context {A : Type} (key : A -> Z).

(** [iW = x[i].key; x[i].key = x[j].key; x[j].key = iW;] and the same for the
    tuple. *)
Definition swap_at (i j : nat) (x : list A) : option (list A) :=
  match x !! i, x !! j with
  | Some a, Some b => Some (<[j := a]> (<[i := b]> x))
  | _, _ => None
  end.

(** [if (tj < l && x[tj-1].key < x[tj].key) m = tj+1; else m = tj;]. *)
Definition larger_child (x : list A) (tj l : nat) : option nat :=
  if (tj <? l)%nat then
    match x !! (tj - 1)%nat, x !! tj with
    | Some a, Some b => Some (if key a <? key b then S tj else tj)
    | _, _ => None
    end
  else Some tj.

(** [while (j <= hl) ...]; [j = l] ends the loop. *)
Fixpoint restore_loop (fuel : nat) (x : list A) (j l : nat) : option (list A) :=
  match fuel with
  | O => None
  | S fuel' =>
      if (j <=? Nat.div2 l)%nat then
        match larger_child x (j * 2) l with
        | None => None
        | Some m =>
            match x !! (m - 1)%nat, x !! (j - 1)%nat with
            | Some xm, Some xj =>
                if key xj <? key xm then
                  match swap_at (m - 1) (j - 1) x with
                  | Some x' => restore_loop fuel' x' m l
                  | None => None
                  end
                else restore_loop fuel' x l l
            | _, _ => None
            end
        end
      else Some x
  end.

(** [restore(x, f, l)]: [j] grows in every round and is at most [l] when the
    loop ends. *)
Definition restore (x : list A) (f l : nat) : option (list A) := restore_loop (S (S l)) x f l.

(** [for (i = n>>1; i >= 1; i--) restore(x, i, n)]. *)
Fixpoint build_heap (i n : nat) (x : list A) : option (list A) :=
  match i with
  | O => Some x
  | S i' => match restore x i n with Some x' => build_heap i' n x' | None => None end
  end.

(** [for (i = n; i >= 2; i--) { swap x[0], x[i-1]; restore(x, 1, i-1); }]. *)
Fixpoint sort_down (i : nat) (x : list A) : option (list A) :=
  match i with
  | O | S O => Some x
  | S im1 =>
      match swap_at 0 im1 x with
      | None => None
      | Some x1 => match restore x1 1 im1 with Some x' => sort_down im1 x' | None => None end
      end
  end.

Definition heap_sort (x : list A) (n : nat) : option (list A) :=
  match build_heap (Nat.div2 n) n x with
  | Some x' => sort_down n x'
  | None => None
  end.
End Heap.

Definition vszsort (x : list TUPLE_VIEWSIZE) (n : nat) : option (list TUPLE_VIEWSIZE) :=
  heap_sort viewsize x n.

Definition onessort (x : list TUPLE_ONES) (n : nat) : option (list TUPLE_ONES) :=
  heap_sort nOnes x n.

(** ** Sift-down *)

Section HeapSpec.
Context {A : Type} (key : A -> Z).
Implicit Types x : list A.

(** The key at position [j], counting from one. *)
Definition kat x (j : nat) : Z := match x !! (j - 1)%nat with Some a => key a | None => 0 end.

Lemma swap_run x m j : (1 <= m <= length x)%nat -> (1 <= j <= length x)%nat ->
  exists x', swap_at (m - 1) (j - 1) x = Some x' /\ x' ≡ₚ x
    /\ (forall q, (1 <= q)%nat -> q <> m -> q <> j -> x' !! (q - 1)%nat = x !! (q - 1)%nat)
    /\ kat x' m = kat x j /\ kat x' j = kat x m.
Proof.
  intros Hm Hj. unfold swap_at, kat.
  destruct (lookup_lt_is_Some_2 x (m - 1)) as [a Ha]; [lia|].
  destruct (lookup_lt_is_Some_2 x (j - 1)) as [b Hb]; [lia|].
  rewrite Ha, Hb. eexists. split; [reflexivity|]. split; [by apply Permutation_insert_swap|].
  split_and!.
  - intros q Hq Hqm Hqj. rewrite !list_lookup_insert_ne by lia. done.
  - destruct (decide (m = j)) as [->|Hne].
    + rewrite list_lookup_insert_eq by (rewrite length_insert; lia). by simplify_eq.
    + rewrite list_lookup_insert_ne, list_lookup_insert_eq by lia. done.
  - by rewrite list_lookup_insert_eq by (rewrite length_insert; lia).
Qed.

Lemma kat_eq x x' q : x' !! (q - 1)%nat = x !! (q - 1)%nat -> kat x' q = kat x q.
Proof. unfold kat. by intros ->. Qed.

Definition child (p c : nat) : Prop := c = (2 * p)%nat \/ c = S (2 * p).

(** Every node from [f] on is at least its children. *)
Definition heap x (f l : nat) : Prop :=
  forall p c, (f <= p)%nat -> child p c -> (c <= l)%nat -> kat x c <= kat x p.

(** ... except perhaps [j], whose children are below its parent. *)
Definition almost_heap x (f j l : nat) : Prop :=
  (forall p c, (f <= p)%nat -> p <> j -> child p c -> (c <= l)%nat -> kat x c <= kat x p)
  /\ (forall p c, (f <= p)%nat -> child p j -> child j c -> (c <= l)%nat -> kat x c <= kat x p).

Lemma larger_child_run x j l : (1 <= j)%nat -> (2 * j <= l <= length x)%nat ->
  exists m, larger_child key x (j * 2) l = Some m /\ child j m /\ (m <= l)%nat
    /\ forall c, child j c -> (c <= l)%nat -> kat x c <= kat x m.
Proof.
  intros Hj Hl. unfold larger_child. destruct (Nat.ltb_spec (j * 2) l) as [H|H].
  - destruct (lookup_lt_is_Some_2 x (j * 2 - 1)) as [a Ha]; [lia|].
    destruct (lookup_lt_is_Some_2 x (j * 2)) as [b Hb]; [lia|]. rewrite Ha, Hb.
    assert (Ka : kat x (2 * j) = key a).
    { unfold kat. replace (2 * j - 1)%nat with (j * 2 - 1)%nat by lia. by rewrite Ha. }
    assert (Kb : kat x (S (2 * j)) = key b).
    { unfold kat. replace (S (2 * j) - 1)%nat with (j * 2)%nat by lia. by rewrite Hb. }
    eexists. split; [reflexivity|]. unfold child.
    replace (j * 2)%nat with (2 * j)%nat by lia.
    destruct (Z.ltb_spec (key a) (key b)); (split; [auto|]; split; [lia|]);
      intros c [->| ->] Hc; lia.
  - eexists. split; [reflexivity|]. unfold child. split; [lia|]. split; [lia|].
    intros c Hc Hcl. replace c with (j * 2)%nat by lia. lia.
Qed.

Lemma swap_almost_heap x x' f j m l : (1 <= f)%nat -> almost_heap x f j l -> child j m -> (m <= l)%nat ->
  (forall c, child j c -> (c <= l)%nat -> kat x c <= kat x m) -> kat x j < kat x m ->
  (forall q, (1 <= q)%nat -> q <> m -> q <> j -> x' !! (q - 1)%nat = x !! (q - 1)%nat) ->
  kat x' m = kat x j -> kat x' j = kat x m -> (f <= j)%nat -> almost_heap x' f m l.
Proof.
  intros Hf1 [H1 H2] Hm Hml Hmax Hlt Hother Em Ej Hf.
  assert (Hk : forall q, (1 <= q)%nat -> q <> m -> q <> j -> kat x' q = kat x q).
  { intros q Hq Hqm Hqj. by apply kat_eq, Hother. }
  unfold almost_heap, child in *. split.
  - intros p c Hp Hpm Hc Hcl. destruct (decide (p = j)) as [->|Hpj].
    + rewrite Ej. destruct (decide (c = m)) as [->|]; [lia|].
      rewrite Hk by lia. by apply Hmax.
    + rewrite (Hk p) by lia. destruct (decide (c = j)) as [->|Hcj].
      * rewrite Ej. apply H2; auto.
      * rewrite Hk by lia. by apply H1.
  - intros p c Hp Hpm Hc Hcl. replace p with j by lia. rewrite Ej, Hk by lia.
    apply H1; auto; lia.
Qed.

Lemma almost_heap_done x f j l : almost_heap x f j l ->
  (forall c, child j c -> (c <= l)%nat -> kat x c <= kat x j) -> heap x f l.
Proof.
  intros [H1 _] H p c Hp Hc Hcl. destruct (decide (p = j)) as [->|]; [by apply H|by apply H1].
Qed.

(** [restore] turns an almost-heap into a heap and moves nothing beyond [l]. *)
Lemma restore_loop_run f l fuel : forall x j, (1 <= f <= j)%nat -> (1 <= l <= length x)%nat ->
  (j <= l \/ Nat.div2 l < j)%nat -> (S l - j < fuel)%nat -> almost_heap x f j l ->
  exists x', restore_loop key fuel x j l = Some x' /\ x' ≡ₚ x /\ heap x' f l
    /\ drop l x' = drop l x.
Proof.
  induction fuel as [|fuel IH]; intros x j Hf Hl Hjl Hfuel Hah; [lia|]. cbn [restore_loop].
  pose proof (Nat.div2_odd l) as Hdiv. pose proof (Nat.le_div2 l) as Hdl.
  destruct (Nat.leb_spec j (Nat.div2 l)) as [Hj|Hj].
  - assert (Hjl2 : (2 * j <= l)%nat) by (destruct (Nat.odd l); simpl in Hdiv; lia).
    destruct (larger_child_run x j l) as (m & -> & Hm & Hml & Hmax); [lia|lia|].
    assert (Hjm : (j < m)%nat) by (unfold child in Hm; lia).
    destruct (lookup_lt_is_Some_2 x (m - 1)) as [xm Hxm]; [lia|].
    destruct (lookup_lt_is_Some_2 x (j - 1)) as [xj Hxj]; [lia|].
    rewrite Hxm, Hxj.
    assert (Em : kat x m = key xm) by (unfold kat; by rewrite Hxm).
    assert (Ej : kat x j = key xj) by (unfold kat; by rewrite Hxj).
    destruct (Z.ltb_spec (key xj) (key xm)) as [Hlt|Hge].
    + destruct (swap_run x m j) as (x1 & -> & Hp1 & Ho1 & Em1 & Ej1); [lia|lia|].
      assert (Hlen : length x1 = length x) by (by rewrite Hp1).
      destruct (IH x1 m) as (x' & -> & Hp & Hh & Hd); [lia|lia|lia|lia| |].
      { apply (swap_almost_heap x x1 f j m l); auto; lia. }
      exists x'. split; [done|]. split; [by rewrite Hp|]. split; [done|]. rewrite Hd.
      apply list_eq. intros q. rewrite !lookup_drop.
      specialize (Ho1 (S (l + q))). replace (S (l + q) - 1)%nat with (l + q)%nat in Ho1 by lia.
      apply Ho1; lia.
    + destruct fuel as [|fuel]; [lia|]. cbn [restore_loop].
      destruct (Nat.leb_spec l (Nat.div2 l)); [destruct (Nat.odd l); simpl in Hdiv; lia|].
      exists x. split_and!; auto. apply (almost_heap_done x f j l); auto.
      intros c Hc Hcl. specialize (Hmax c Hc Hcl). lia.
  - exists x. split_and!; auto. apply (almost_heap_done x f j l); auto.
    intros c Hc Hcl. unfold child in Hc. destruct (Nat.odd l); simpl in Hdiv; lia.
Qed.

Lemma restore_run x f l : (1 <= f)%nat -> (1 <= l <= length x)%nat -> (f <= l)%nat ->
  (forall p c, (f < p)%nat -> child p c -> (c <= l)%nat -> kat x c <= kat x p) ->
  exists x', restore key x f l = Some x' /\ x' ≡ₚ x /\ heap x' f l /\ drop l x' = drop l x.
Proof.
  intros Hf Hl Hfl Hh. apply restore_loop_run; auto; [lia|]. unfold almost_heap, child in *. split.
  - intros p c Hp Hne Hc Hcl. apply Hh; auto; lia.
  - intros p c Hp Hc1. lia.
Qed.

(** ** The two phases *)

Lemma build_heap_run n i : forall x, (n <= length x)%nat -> (2 * i <= n)%nat ->
  heap x (S i) n ->
  exists x', build_heap key i n x = Some x' /\ x' ≡ₚ x /\ heap x' 1 n /\ drop n x' = drop n x.
Proof.
  induction i as [|i IH]; intros x Hn Hi Hh; cbn [build_heap].
  { exists x. auto. }
  destruct (restore_run x (S i) n) as (x1 & -> & Hp1 & Hh1 & Hd1); [lia|lia|lia| |].
  { intros p c Hp. apply Hh. lia. }
  destruct (IH x1) as (x' & -> & Hp & Hh' & Hd); [by rewrite Hp1|lia|done|].
  exists x'. split_and!; auto; [by rewrite Hp|by rewrite Hd].
Qed.

Lemma heap_max x l q : heap x 1 l -> (1 <= q <= l)%nat -> kat x q <= kat x 1.
Proof.
  intros Hh. induction q as [q IH] using lt_wf_ind. intros Hq.
  destruct (decide (q = 1)%nat) as [->|Hne]; [lia|].
  pose proof (Nat.div2_odd q) as Hdiv.
  assert (Hc : child (Nat.div2 q) q) by (unfold child; destruct (Nat.odd q); simpl in Hdiv; lia).
  assert (1 <= Nat.div2 q < q)%nat by (unfold child in Hc; lia).
  etransitivity; [apply (Hh (Nat.div2 q) q); auto; lia|]. apply IH; lia.
Qed.

(** Positions after [i] are final: nothing before is larger. *)
Definition settled x (i : nat) : Prop :=
  forall p q, (1 <= p < q)%nat -> (i < q <= length x)%nat -> kat x p <= kat x q.

(** Permuting the first [i] entries keeps what is settled. *)
Lemma settled_perm x x' i : (i <= length x)%nat -> x' ≡ₚ x -> drop i x' = drop i x ->
  settled x i -> settled x' i.
Proof.
  intros Hi Hp Hd Hs p q Hpq Hq.
  assert (Hlen : length x' = length x) by (by rewrite Hp).
  assert (Htail : forall r, (i < r)%nat -> x' !! (r - 1)%nat = x !! (r - 1)%nat).
  { intros r Hr. assert (E : drop i x' !! (r - 1 - i)%nat = drop i x !! (r - 1 - i)%nat) by by rewrite Hd.
    rewrite !lookup_drop in E. by replace (i + (r - 1 - i))%nat with (r - 1)%nat in E by lia. }
  rewrite (kat_eq x x' q) by (apply Htail; lia).
  destruct (decide (i < p)%nat) as [Hip|Hip].
  { rewrite (kat_eq x x' p) by (apply Htail; lia). apply Hs; lia. }
  assert (Hperm : take i x' ≡ₚ take i x).
  { apply (Permutation_app_inv_r (drop i x)). rewrite <- Hd at 1. by rewrite !take_drop. }
  destruct (lookup_lt_is_Some_2 x' (p - 1)) as [a Ha]; [lia|].
  assert (Hin : a ∈ take i x).
  { rewrite <- Hperm. apply list_elem_of_lookup. exists (p - 1)%nat. rewrite lookup_take_lt; [done|lia]. }
  apply list_elem_of_lookup in Hin as [r Hr]. apply lookup_take_Some in Hr as [Hr Hri].
  unfold kat at 1. rewrite Ha. specialize (Hs (S r) q). unfold kat in Hs at 1.
  replace (S r - 1)%nat with r in Hs by lia. rewrite Hr in Hs. apply Hs; lia.
Qed.

Lemma swap_settles x x' i : (2 <= i <= length x)%nat -> heap x 1 i -> settled x i ->
  length x' = length x ->
  (forall q, (1 <= q)%nat -> q <> 1%nat -> q <> i -> x' !! (q - 1)%nat = x !! (q - 1)%nat) ->
  kat x' 1 = kat x i -> kat x' i = kat x 1 -> settled x' (i - 1).
Proof.
  intros Hi Hh Hs Hlen Ho E1 Ei p q Hpq Hq.
  assert (Hk : forall r, (1 <= r)%nat -> r <> 1%nat -> r <> i -> kat x' r = kat x r).
  { intros r Hr1 Hr2 Hr3. by apply kat_eq, Ho. }
  destruct (decide (q = i)) as [->|Hqi].
  - rewrite Ei. destruct (decide (p = 1)%nat) as [->|Hp1].
    + rewrite E1. apply (heap_max x i); auto; lia.
    + rewrite Hk by lia. apply (heap_max x i); auto; lia.
  - rewrite (Hk q) by lia. destruct (decide (p = 1)%nat) as [->|Hp1]; [rewrite E1; apply Hs; lia|].
    destruct (decide (p = i)) as [->|Hpi]; [rewrite Ei; apply Hs; lia|].
    rewrite Hk by lia. apply Hs; lia.
Qed.

Lemma sort_down_step i x :
  sort_down key (S (S i)) x
  = match swap_at 0 (S i) x with
    | None => None
    | Some x1 => match restore key x1 1 (S i) with
                 | Some x' => sort_down key (S i) x'
                 | None => None
                 end
    end.
Proof. done. Qed.

Lemma sort_down_run i : forall x, (i <= length x)%nat -> heap x 1 i -> settled x i ->
  exists x', sort_down key i x = Some x' /\ x' ≡ₚ x /\ settled x' 1.
Proof.
  induction i as [|[|i] IH]; intros x Hi Hh Hs.
  - exists x. split_and!; auto. intros p q Hpq Hq. apply Hs; lia.
  - exists x. auto.
  - rewrite sort_down_step.
    destruct (swap_run x 1 (S (S i))) as (x1 & Hsw & Hp1 & Ho1 & E1 & Ei); [lia|lia|].
    replace (S (S i) - 1)%nat with (S i) in Hsw by lia. change (1 - 1)%nat with 0%nat in Hsw.
    rewrite Hsw. assert (Hlen : length x1 = length x) by (by rewrite Hp1).
    assert (Hs1 : settled x1 (S i)) by (apply (swap_settles x x1 (S (S i))); auto; lia).
    destruct (restore_run x1 1 (S i)) as (x2 & -> & Hp2 & Hh2 & Hd2); [lia|lia|lia| |].
    { intros p c Hp Hc Hcl. unfold child in Hc.
      rewrite (kat_eq x x1 c), (kat_eq x x1 p) by (apply Ho1; lia). apply Hh; auto; lia. }
    assert (Hlen2 : length x2 = length x1) by (by rewrite Hp2).
    destruct (IH x2) as (x' & -> & Hp & Hs'); [lia|done| |].
    { apply (settled_perm x1 x2); auto. lia. }
    exists x'. split_and!; auto. by rewrite Hp, Hp2.
Qed.

Lemma settled_sorted x : settled x 1 -> StronglySorted (fun a b => key a <= key b) x.
Proof.
  induction x as [|a x IH]; intros Hs; [constructor|]. constructor.
  - apply IH. intros p q Hpq Hq. specialize (Hs (S p) (S q)). cbn [length] in Hs.
    unfold kat in *. replace (S p - 1)%nat with (S (p - 1)) in Hs by lia.
    replace (S q - 1)%nat with (S (q - 1)) in Hs by lia. cbn in Hs. apply Hs; lia.
  - apply Forall_forall. intros b Hb. apply list_elem_of_lookup in Hb as [i Hi].
    specialize (Hs 1%nat (S (S i))). unfold kat in Hs.
    change ((a :: x) !! (S (S i) - 1)%nat) with (x !! i) in Hs. rewrite Hi in Hs.
    apply Hs; [lia|]. apply lookup_lt_Some in Hi. simpl. lia.
Qed.

(** The heap sort sorts. *)
Lemma heap_sort_run x : exists x', heap_sort key x (length x) = Some x' /\ x' ≡ₚ x
  /\ StronglySorted (fun a b => key a <= key b) x'.
Proof.
  unfold heap_sort. pose proof (Nat.div2_odd (length x)) as Hdiv.
  destruct (build_heap_run (length x) (Nat.div2 (length x)) x) as (x1 & -> & Hp1 & Hh1 & _); [lia|lia| |].
  { intros p c Hp Hc Hcl. unfold child in Hc. destruct (Nat.odd _); simpl in Hdiv; lia. }
  assert (Hlen : length x1 = length x) by (by rewrite Hp1).
  destruct (sort_down_run (length x) x1) as (x' & -> & Hp & Hs); [lia|done| |].
  { intros p q Hpq Hq. lia. }
  exists x'. split_and!; [done|by rewrite Hp|by apply settled_sorted].
Qed.
End HeapSpec.
