(* ===== verification/Cube.v ===== *)
(** * Computing the views of the cube: ComputeGivenGroupbys of DC/extbuild.c

    The loop reads the groupbys from [groupbyFile], looks for a made view the
    new one can be computed from, sets up the control block and builds the
    view.  The input is either the input file or a stretch of the view file,
    which the same loop has written before.

    A file of rows is a list of rows; a byte offset must be the start of a
    row, and a read must ask for the size of the rows it finds there,
    otherwise the result is [None].  The build is the default one: neither
    [IN_CORE] nor [OPTIMIZATION] is defined, so every kind of parent is used
    through [RunFormation]. *)

From Stdlib Require Import ZArith Lia Sorted Ascii String.
From stdpp Require Import base gmap numbers option list.
From S2P Require Import Prelude Rows RBTree ViewFiles ExtSort JobBits JobPool HeapSort.

(** ** swap8 of DC/adc.c *)

Fixpoint bytes_of (n : nat) (w : Z) : list Z :=
  match n with
  | O => []
  | S n' => w mod 256 :: bytes_of n' (w / 256)
  end.

Fixpoint of_bytes (l : list Z) : Z :=
  match l with
  | [] => 0
  | b :: l' => b + 256 * of_bytes l'
  end.

(** [t = p[i]; p[i] = p[j]; p[j] = t]. *)
Definition swap_bytes (i j : nat) (p : list Z) : list Z :=
  <[j := nth i p 0]> (<[i := nth j p 0]> p).

Definition swap4 (num : Z) : Z :=
  of_bytes (swap_bytes 1 2 (swap_bytes 0 3 (bytes_of 4 num))).

Definition swap8 (num : Z) : Z :=
  of_bytes (swap_bytes 3 4 (swap_bytes 2 5 (swap_bytes 1 6 (swap_bytes 0 7 (bytes_of 8 num))))).

(** ** The control block *)

(** [GetRecSize(nd, nm)]. *)
Definition GetRecSize (nd nm : nat) : Z := DIM_FSZ * Z.of_nat nd + MSR_FSZ * Z.of_nat nm.

Record cube (T : Type) := mkCube {
  c_pool : pool;
  c_view : ADC_VIEW_CNTL T;
  c_nd : nat;
  c_inpRecSize : Z;
  c_nInputRecs : nat;
  c_input : list row;
  accViewFileOffset : Z;
  totchs : list Z;
  totalViewFileSize : Z;
  viewSizesFile : list (Z * Z)
}.
Arguments mkCube {T}. Arguments c_pool {T}. Arguments c_view {T}. Arguments c_nd {T}.
Arguments c_inpRecSize {T}. Arguments c_nInputRecs {T}. Arguments c_input {T}.
Arguments accViewFileOffset {T}. Arguments totchs {T}. Arguments totalViewFileSize {T}.
Arguments viewSizesFile {T}.

(** Memory the code reads before it writes it: the row buffer of
    [RunFormation], the pool when [MultiWayMerge] starts to fill it, and the
    minimum of its loop. *)
Record junk := mkJunk { jk_attrs : row; jk_pool : nat -> row; jk_min : nat * row }.

Definition junk_pool (j : junk) {T} (a : ADC_VIEW_CNTL T) : list row :=
  jk_pool j <$> seq 0 (Z.to_nat (a_memoryLimit a / outRecSize a)).

Definition row_bytes (r : row) : Z :=
  DIM_FSZ * Z.of_nat (length (ks r)) + MSR_FSZ * Z.of_nat (length (ms r)).

(** [FSEEK(f, off, SEEK_SET)]: the rows from byte [off] on. *)
Fixpoint rows_at (off : Z) (rows : list row) : option (list row) :=
  if off =? 0 then Some rows
  else match rows with
       | [] => None
       | r :: rows' => if off <? row_bytes r then None else rows_at (off - row_bytes r) rows'
       end.

Section Cube.
Context {T : Type} `{RowTree T}.
Implicit Types c : cube T.

(** [InitAdcViewCntl(adccntl, nSelectedDims, selection, fromParent)]. *)
Definition InitAdcViewCntl (nSelectedDims : nat) (sel : list nat) (fromParent : bool) c : cube T :=
  let a := c_view c in
  let p := c_pool c in
  let nd' := if fromParent then smallestParentLevel p else nTopDims p in
  let rows := if fromParent then Z.to_nat (nParentViewRows p) else c_nInputRecs c in
  let nm := a_nm a in
  mkCube p
    (mkADC nm nSelectedDims (take nSelectedDims sel ++ drop nSelectedDims (selection a)) rows
      (GetRecSize nSelectedDims nm) (a_memoryLimit a) (a_tree a) 0 (chunksParams a)
      (fileOfChunks a) (viewFile a) 0 (totalOfViewRows a)
      (mkSums (repeat 0 nm ++ drop nm (mSums (a_sums a))) (checksums (a_sums a))))
    nd' (GetRecSize nd' nm) (c_nInputRecs c) (c_input c)
    (accViewFileOffset c) (totchs c) (totalViewFileSize c) (viewSizesFile c).

(** The rows the view is computed from: those of the input file, or of the
    view file from [viewOffset]. *)
Definition source_rows (fromParent : bool) c : option (list row) :=
  let rows :=
    if fromParent then rows_at (viewOffset (c_pool c)) (frows (viewFile (c_view c)))
    else Some (c_input c) in
  match rows with
  | None => None
  | Some l =>
      if forallb (fun r => row_bytes r =? c_inpRecSize c) (take (nRowsToRead (c_view c)) l)
      then Some l else None
  end.

(** [for (i = 0; i < nm; i++) adccntlp->checksums[i] = 0]. *)
Definition clear_checksums (a : ADC_VIEW_CNTL T) : ADC_VIEW_CNTL T :=
  mkADC (a_nm a) (a_nv a) (selection a) (nRowsToRead a) (outRecSize a) (a_memoryLimit a)
    (a_tree a) (numberOfChunks a) (chunksParams a) (fileOfChunks a) (viewFile a) (nViewRows a)
    (totalOfViewRows a)
    (mkSums (mSums (a_sums a)) (repeat 0 (a_nm a) ++ drop (a_nm a) (checksums (a_sums a)))).

(** [FSEEK(adccntlp->fileOfChunks, 0L, SEEK_SET)]: what was written can be
    overwritten. *)
Definition rewind (f : FILE) : FILE := mkFILE [] (fspace f + length (frows f)).

(** The end of the loop body, after the view was built; [sel32] is
    [(uint32)(binRepTuple >> (64-nTopDims))]. *)
Definition finish_view (sel32 : Z) (a : ADC_VIEW_CNTL T) (p : pool) c : cube T :=
  mkCube p (with_chunkfile (rewind (fileOfChunks a)) a) (c_nd c) (c_inpRecSize c)
    (c_nInputRecs c) (c_input c)
    (s64 (accViewFileOffset c + u32 (nViewRows a * outRecSize a)))
    (add_measures (a_nm a) (totchs c) (checksums (a_sums a)))
    (u64 (totalViewFileSize c + u32 (outRecSize a * nViewRows a)))
    (viewSizesFile c ++ [(sel32, nViewRows a)]).

Definition set_groupby (g : Z) (p : pool) : pool :=
  mkPool (nTopDims p) g (jpp p) (lpp p) (smallestParentLevel p) (viewOffset p)
    (nParentViewRows p) (parBinRepTuple p).

(** The loop body before the view is built: [w] is the word that was read. *)
Definition prepare_view (w : Z) c : option (parent * cube T) :=
  let binRepTuple := swap8 w in
  let nTop := nTopDims (c_pool c) in
  let sel := GetRegTupleFromBin64 binRepTuple nTop in
  let ut32 := tuple32 binRepTuple nTop in
  match GetParent ut32 (set_groupby ut32 (c_pool c)) with
  | None => None
  | Some (smp, p) =>
      let fromParent := negb (bool_decide (smp = noneParent)) in
      let sel' := if fromParent
                  then GetRegTupleFromParent binRepTuple (parBinRepTuple p) nTop else sel in
      Some (smp, InitAdcViewCntl (length sel) (sel' ++ drop (length sel') sel) fromParent
        (mkCube p (clear_checksums (c_view c)) (c_nd c) (c_inpRecSize c) (c_nInputRecs c)
           (c_input c) (accViewFileOffset c) (totchs c) (totalViewFileSize c) (viewSizesFile c)))
  end.

(** The loop body. *)
Definition view_step (j : junk) (w : Z) c : option (Z * cube T) :=
  match prepare_view w c with
  | None => None
  | Some (smp, c) =>
      match source_rows (negb (bool_decide (smp = noneParent))) c with
      | None => None
      | Some inpf =>
          match build_view (jk_attrs j) inpf (junk_pool j (c_view c)) (jk_min j) (c_view c) with
          | None => None
          | Some (rc, a) =>
              if negb (rc =? ADC_OK)
              then Some (rc, mkCube (c_pool c) a (c_nd c) (c_inpRecSize c) (c_nInputRecs c)
                               (c_input c) (accViewFileOffset c) (totchs c)
                               (totalViewFileSize c) (viewSizesFile c))
              else
                match JobPoolUpdate (a_nv a) (nViewRows a) (accViewFileOffset c) (c_pool c) with
                | None => None
                | Some p => Some (ADC_OK, finish_view
                    (u32 (Z.shiftr (swap8 w) (64 - Z.of_nat (nTopDims p)))) a p c)
                end
          end
      end
  end.

(** The [while] over the words of [groupbyFile]; [js] is the junk each view
    finds. *)
Fixpoint groupby_loop (js : nat -> junk) (nViews : nat) (ws : list Z) c : option (Z * cube T) :=
  match ws with
  | [] => Some (ADC_OK, c)
  | w :: ws' =>
      match view_step (js nViews) w c with
      | None => None
      | Some (rc, c') =>
          if negb (rc =? ADC_OK) then Some (rc, c') else groupby_loop js (S nViews) ws' c'
      end
  end.
End Cube.

(** ** NewAdcViewCntl

    What [malloc] leaves in the parts of the control block that are not
    initialised. *)
Record fresh_block := mkFresh {
  fb_nv : nat;
  fb_selection : list nat;
  fb_chunks : list CHUNKS;
  fb_rootclr : Z;
  fb_drcts : list Z;
  fb_nodes : list ptr;
  fb_layer : LAYER;
  fb_level : nat;
  fb_viewOffset : Z;
  fb_parentRows : Z;
  fb_parent : Z;
  fb_groupby : Z;
  fb_viewRows : Z;
  fb_sums : list Z;
  fb_checksums : list Z;
  fb_totchs : list Z
}.

(** [NewAdcViewCntl(adcpp, pnum)] when all files can be opened and all memory
    is available.  [input] is the contents of the input file; the other files
    are created empty and have room for [vspace] and [cspace] rows.
    [outRecSize] is computed from the [nv] that [malloc] left: the assignment
    to [nv] comes later, and [InitAdcViewCntl] recomputes the size. *)
Definition NewAdcViewCntl (g : fresh_block) (nd nm nInputRecs : nat) (memoryLimit : Z)
    (input : list row) (vspace cspace : nat) : cube RBTree :=
  mkCube
    (new_pool (fb_layer g) (fb_level g) (fb_viewOffset g) (fb_parentRows g) (fb_parent g)
       (fb_groupby g) nd)
    (mkADC nm nd (seq 1 nd ++ drop nd (fb_selection g)) 0 (GetRecSize (fb_nv g) nm) memoryLimit
       (CreateEmptyTree (fb_rootclr g) (fb_drcts g) (fb_nodes g) nd nm memoryLimit)
       0 (fb_chunks g) (mkFILE [] cspace) (mkFILE [] vspace) (fb_viewRows g) 0
       (mkSums (repeat 0 nm ++ drop nm (fb_sums g)) (repeat 0 nm ++ drop nm (fb_checksums g))))
    nd (GetRecSize nd nm) nInputRecs input 0 (repeat 0 nm ++ drop nm (fb_totchs g)) 0 [].

(** ** Partitioning the cube: PartitionCube and MultiFileProcJobs of DC/jobcntl.c

    [PartitionCube] reads the selections and sizes of the views from the text
    file [CalculateVeiwSizes] (DC/adc.c) has written, sorts them by size, and
    [MultiFileProcJobs] deals them to the tasks and writes the groupby file of
    its own task.  Text is a list of the words [fscanf("%s")] returns.
    [None] is an access outside an array or a loop that does not end. *)

Local Open Scope string_scope.
Local Open Scope list_scope.
Local Open Scope Z_scope.

(** ** Numbers as text *)

Definition digit (c : ascii) : option Z :=
  let n := Z.of_nat (nat_of_ascii c) in
  if (48 <=? n) && (n <=? 57) then Some (n - 48) else None.

(** [atoi] on the words of the file: digits up to the first other character.
    The files hold no signs and no numbers beyond [INT_MAX]. *)
Fixpoint atoi_from (acc : Z) (s : string) : Z :=
  match s with
  | EmptyString => acc
  | String c s' => match digit c with Some d => atoi_from (10 * acc + d) s' | None => acc end
  end.

Definition atoi (s : string) : Z := atoi_from 0 s.

(** ["%lld"] of a number that is not negative. *)
Fixpoint decimal_from (fuel : nat) (n : Z) (acc : string) : string :=
  let c := ascii_of_nat (48 + Z.to_nat (n mod 10)) in
  match fuel with
  | O => String c acc
  | S fuel' => if n <? 10 then String c acc else decimal_from fuel' (n / 10) (String c acc)
  end.

Definition decimal (n : Z) : string := decimal_from 64 n "".

(** ** The file of view sizes *)

(** The words of one view as [CalculateVeiwSizes] prints it. *)
Definition view_words (v : list nat * Z) : list string :=
  "Selection:" :: ((fun d => decimal (Z.of_nat d)) <$> fst v) ++ ["View"; "Size:"; decimal (snd v)].

(** The file: the views, and the line with the totals. *)
Definition sizes_file (vs : list (list nat * Z)) (bytes tuples : Z) : list string :=
  concat (view_words <$> vs)
  ++ ["Total"; "in"; "bytes:"; decimal bytes; "Number"; "of"; "tuples:"; decimal tuples].

(** [while (fscanf(f, "%s", inps)) { if (strcmp(inps, "View") == 0) break;
     sel[k++] = atoi(inps); }] with [uint32 sel[64]]. *)
Fixpoint read_selection (sel : list nat) (words : list string) : option (list nat * list string) :=
  match words with
  | [] => None
  | w :: words' =>
      if String.eqb w "View" then Some (sel, words')
      else if (List.length sel <? 64)%nat then read_selection (sel ++ [Z.to_nat (atoi w)]) words'
      else None
  end.

(** The outer [while] of [PartitionCube]; [limit] is the length of
    [tuplesAndSizes]. *)
Fixpoint read_views (fuel limit : nat) (nInputRecs : Z) (sel : list nat)
    (tv : list TUPLE_VIEWSIZE) (words : list string) : option (list TUPLE_VIEWSIZE) :=
  match fuel with
  | O => None
  | S fuel' =>
      match words with
      | [] => Some tv
      | w :: words' =>
          if String.eqb w "Selection:" then
            match read_selection sel words' with
            | None => None
            | Some (sel', words'') => read_views fuel' limit nInputRecs sel' tv words''
            end
          else if String.eqb w "Size:" then
            match words' with
            | [] => None
            | n :: words'' =>
                let sz := atoi n in
                let sz := if nInputRecs <? sz then nInputRecs else sz in
                if (List.length tv <? limit)%nat then
                  read_views fuel' limit nInputRecs []
                    (tv ++ [mkTV sz (CreateBinTuple sel)]) words''
                else None
            end
          else read_views fuel' limit nInputRecs sel tv words'
      end
  end.

(** ** MultiFileProcJobs *)

(** The state [pn], [direction] of the deal after a view was dealt. *)
Definition snake_step (nTasks : nat) (st : nat * bool) : nat * bool :=
  let '(pn, direction) := st in
  let '(direction, dChange) :=
    if negb direction && (pn =? nTasks - 1)%nat then (true, true) else (direction, false) in
  let '(direction, dChange) :=
    if direction && (pn =? 0)%nat then (false, true) else (direction, dChange) in
  (if negb dChange then if direction then (pn - 1)%nat else S pn else pn, direction).

(** [for (pn = 0, gbi = 0, ii = nViews-1; ii >= 0; ii--)]: the tuples the task
    keeps in [gbuf], of which the pool has room for [room], and [nGroupbys]. *)
Fixpoint deal (nTasks taskNumber room : nat) (st : nat * bool) (views : list TUPLE_VIEWSIZE)
    (gbuf : list Z) (nGroupbys : list nat) : option (list Z * list nat) :=
  match views with
  | [] => Some (gbuf, nGroupbys)
  | v :: views' =>
      let pn := fst st in
      let mine := (pn =? taskNumber)%nat in
      if mine && (room <=? List.length gbuf)%nat then None
      else
        match nGroupbys !! pn with
        | None => None
        | Some n =>
            deal nTasks taskNumber room (snake_step nTasks st) views'
              (if mine then gbuf ++ [tv_tuple v] else gbuf) (<[pn := S n]> nGroupbys)
        end
  end.

Definition MAX_NUMBER_OF_TASKS : nat := 256.

(** The number of tasks that [DC] sets from the number of threads. *)
Definition number_of_tasks (threads : nat) : nat :=
  if (MAX_NUMBER_OF_TASKS <? threads)%nat then MAX_NUMBER_OF_TASKS else threads.

(** [nGroupbys] and [vszs] have [MAX_NUMBER_OF_TASKS] entries, and the loop at
    the start sets [nTasks] of them; the others are never set, so that a use of
    one of them is a fault too.  A task whose number is not below [nTasks] finds
    no [i] in the last loop and writes nothing. *)
Definition MultiFileProcJobs (nTopDims nTasks taskNumber : nat) (memoryLimit : Z)
    (views : list TUPLE_VIEWSIZE) : option (list Z) :=
  if (MAX_NUMBER_OF_TASKS <? nTasks)%nat then None
  else
    match deal nTasks taskNumber (Z.to_nat (memoryLimit / 8)) (0%nat, false) (rev views) []
            (repeat 0%nat nTasks) with
    | None => None
    | Some (gbuf, nGroupbys) =>
        if (taskNumber <? nTasks)%nat then
          match nGroupbys !! taskNumber with
          | None => None
          | Some n =>
              let toptr := (fun t => mkTO (countTupleOnes t nTopDims) t) <$> gbuf in
              match onessort toptr n with
              | None => None
              | Some toptr =>
                  Some ((fun e => swap8 (u64 (Z.shiftl (to_tuple e) (64 - Z.of_nat nTopDims)))) <$> rev toptr)
              end
          end
        else Some []
    end.

(** ** PartitionCube *)

Definition PartitionCube (nTopDims nTasks taskNumber : nat) (memoryLimit nInputRecs : Z)
    (words : list string) : option (list Z) :=
  let nViewLimit := (2 ^ nTopDims - 1)%nat in
  match read_views (S (List.length words)) nViewLimit nInputRecs [] [] words with
  | None => None
  | Some tv =>
      match vszsort tv (List.length tv) with
      | None => None
      | Some tv =>
          MultiFileProcJobs nTopDims nTasks taskNumber memoryLimit
            ((fun e => mkTV (viewsize e) (Z.shiftr (tv_tuple e) (64 - Z.of_nat nTopDims))) <$> tv)
      end
  end.
