(* ===== verification/CubeSpec.v ===== *)
(** * The cube is computed correctly

    [view_of input t] is the view of the groupby [t] by definition: the
    aggregated projection of the input.  The loop of [ComputeGivenGroupbys]
    appends these views to the view file one after the other, although it
    computes most of them from views it made before.  If the pool has more nodes
    than the input has rows, no view needs the external sort, and a full view
    file is the only failure left. *)

From Stdlib Require Import ZArith Lia Sorted.
From stdpp Require Import base gmap numbers option list.
From S2P Require Import Prelude Rows RBTree RBShape RBSpec ViewFiles ExtSort RunSpec MergeSpec BuildSpec JobBits JobPool JobPoolSpec Cube.

(** ** swap8 *)

Lemma bytes_of_bytes l : Forall (in_u 8) l -> bytes_of (length l) (of_bytes l) = l.
Proof.
  induction 1 as [|b l Hb Hl IH]; [done|]. cbn [length of_bytes bytes_of]. unfold in_u in Hb.
  change (2 ^ 8) with 256 in Hb.
  rewrite (Z.mul_comm 256), Z.mod_add, Z.mod_small, Z.div_add, Z.div_small by lia.
  by rewrite Z.add_0_l, IH.
Qed.

Lemma of_bytes_of n : forall w, 0 <= w < 256 ^ Z.of_nat n -> of_bytes (bytes_of n w) = w.
Proof.
  induction n as [|n IH]; intros w Hw; cbn [bytes_of of_bytes]; [simpl in Hw; lia|].
  rewrite Nat2Z.inj_succ, Z.pow_succ_r in Hw by lia.
  rewrite IH; [pose proof (Z.div_mod w 256); lia|].
  split; [apply Z.div_pos; lia|]. apply Z.div_lt_upper_bound; lia.
Qed.

Lemma bytes_of_range n : forall w, Forall (in_u 8) (bytes_of n w) /\ length (bytes_of n w) = n.
Proof.
  induction n as [|n IH]; intros w; [done|]. cbn [bytes_of length]. destruct (IH (w / 256)) as [H1 H2].
  split; [constructor; [apply (Z.mod_pos_bound w 256); lia|done]|lia].
Qed.

Lemma swap8_rev l : length l = 8%nat ->
  swap_bytes 3 4 (swap_bytes 2 5 (swap_bytes 1 6 (swap_bytes 0 7 l))) = rev l.
Proof. intros Hl. do 8 (destruct l as [|? l]; [discriminate|]). by destruct l. Qed.

Lemma swap4_rev l : length l = 4%nat -> swap_bytes 1 2 (swap_bytes 0 3 l) = rev l.
Proof. intros Hl. do 4 (destruct l as [|? l]; [discriminate|]). by destruct l. Qed.

Lemma swap_rev_involutive n w : 0 <= w < 256 ^ Z.of_nat n ->
  of_bytes (rev (bytes_of n (of_bytes (rev (bytes_of n w))))) = w.
Proof.
  intros Hw. destruct (bytes_of_range n w) as [Hr Hl].
  rewrite <- Hl at 1. rewrite <- length_rev at 1.
  rewrite bytes_of_bytes by (by apply Forall_rev). rewrite rev_involutive. by apply of_bytes_of.
Qed.

Lemma swap8_swap8 w : in_u 64 w -> swap8 (swap8 w) = w.
Proof.
  intros Hw. unfold swap8. rewrite !swap8_rev by apply bytes_of_range. by apply swap_rev_involutive.
Qed.

Lemma swap4_swap4 w : in_u 32 w -> swap4 (swap4 w) = w.
Proof.
  intros Hw. unfold swap4. rewrite !swap4_rev by apply bytes_of_range. by apply swap_rev_involutive.
Qed.

Lemma of_bytes_range l : Forall (in_u 8) l -> 0 <= of_bytes l < 256 ^ Z.of_nat (length l).
Proof.
  induction 1 as [|b l Hb Hl IH]; [done|]. cbn [of_bytes length].
  rewrite Nat2Z.inj_succ, Z.pow_succ_r by lia. unfold in_u in Hb. change (2 ^ 8) with 256 in Hb. lia.
Qed.

(** ** Offsets in the view file *)

Definition bytes (rows : list row) : Z := foldr (fun r z => row_bytes r + z) 0 rows.

Lemma bytes_app l1 l2 : bytes (l1 ++ l2) = bytes l1 + bytes l2.
Proof. unfold bytes. induction l1; simpl; lia. Qed.

Lemma rows_at_bytes l1 l2 : Forall (fun r => 0 < row_bytes r) l1 -> 
  rows_at (bytes l1) (l1 ++ l2) = Some l2.
Proof.
  induction 1 as [|r l1 Hr Hl IH]; cbn [app bytes foldr]; [by destruct l2|].
  fold (bytes l1). cbn [rows_at].
  assert (Hb : 0 <= bytes l1) by (clear IH; induction Hl; cbn [bytes foldr]; [done|fold (bytes l); lia]).
  destruct (Z.eqb_spec (row_bytes r + bytes l1) 0); [lia|].
  destruct (Z.ltb_spec (row_bytes r + bytes l1) (row_bytes r)); [lia|].
  by replace (row_bytes r + bytes l1 - row_bytes r) with (bytes l1) by lia.
Qed.

Lemma row_ok_bytes nd nm r : row_ok nd nm r -> row_bytes r = GetRecSize nd nm.
Proof. intros [H1 H2]. unfold row_bytes, GetRecSize. by rewrite H1, H2. Qed.

Lemma rows_ok_bytes nd nm l : Forall (row_ok nd nm) l -> bytes l = Z.of_nat (length l) * GetRecSize nd nm.
Proof.
  induction 1 as [|r l Hr Hl IH]; [done|]. cbn [bytes foldr]. fold (bytes l).
  rewrite IH, (row_ok_bytes nd nm r Hr). cbn [length]. lia.
Qed.

(** ** Projections *)

(** The row of the dimensions [sel], which count from one. *)
Definition project (sel : list nat) (r : row) : row :=
  Row (ms r) ((fun d => nth (d - 1) (ks r) 0) <$> sel).

Definition sel_ok (nd : nat) (sel : list nat) : Prop := Forall (fun d => (1 <= d <= nd)%nat) sel.

Lemma project_key_map nd nm sel : key_map nd nm (length sel) (project sel).
Proof.
  split.
  - intros r [Hk Hm]. split; [|done]. split; cbn; [by rewrite length_fmap|done].
  - intros r r' _ _ E. cbn. by rewrite E.
Qed.

Lemma SelectToView_project nd nm sel arr r : sel_ok nd sel -> row_ok nd nm r ->
  SelectToView r (sel ++ arr) nm (length sel) = Some (project sel r).
Proof.
  intros Hs [Hk Hm]. unfold SelectToView. rewrite take_app_length.
  assert (E : mapM (fun i => match i with O => None | S j => ks r !! j end) sel
              = Some ((fun d => nth (d - 1) (ks r) 0) <$> sel)).
  { induction Hs as [|d sel Hd Hs IH]; [done|]. cbn [mapM mret]. destruct d as [|d]; [lia|].
    destruct (lookup_lt_is_Some_2 (ks r) d) as [x Hx]; [lia|].
    unfold mbind, option_bind. cbn. rewrite Hx. cbn in IH.
    setoid_rewrite IH. cbn. rewrite Nat.sub_0_r. by rewrite (nth_lookup_Some _ _ _ _ Hx). }
  rewrite E. unfold project. by rewrite take_ge by lia.
Qed.

(** Projecting in two steps: [rel] are the positions of [sel] in [psel]. *)
Lemma project_compose psel sel rel r :
  Forall2 (fun d k => (0 < k)%nat /\ psel !! (k - 1)%nat = Some d) sel rel ->
  project rel (project psel r) = project sel r.
Proof.
  intros Hrel. unfold project. cbn. f_equal.
  induction Hrel as [|d k sel rel [Hk Hd] Hrel IH]; [done|]. cbn. f_equal; [|exact IH].
  apply nth_lookup_Some. by rewrite list_lookup_fmap, Hd.
Qed.

Lemma project_selected nd nm sel arr l :
  sel_ok nd sel -> Forall (row_ok nd nm) l ->
  Forall2 (fun r v => SelectToView r (sel ++ arr) nm (length sel) = Some v
                      /\ row_ok (length sel) nm v) l (project sel <$> l).
Proof.
  intros Hs Hl. induction Hl as [|r l Hr Hl IH]; constructor; [|exact IH].
  split; [by apply (SelectToView_project nd)|]. by apply (project_key_map nd nm sel).
Qed.

(** ** The invariant of the loop *)

Section CubeSpec.
Context {T : Type} `{RowTreeLaws T}.
Context (nTop nm : nat) (input : list row) (mem : Z).
Implicit Types (c : cube T) (a : ADC_VIEW_CNTL T) (done : list Z).

Abbreviation dims t := (GetRegTupleFromBin64 t nTop).

(** The view of the groupby [t]. *)
Definition view_of (t : Z) : list row :=
  aggregate (length (dims t)) nm (project (dims t) <$> input).

Definition good_tuple (t : Z) : Prop := tuple_ok nTop t /\ t <> 0.

(** The pool entry of [t] when the views of [pre] were made before. *)
Definition job_of (pre : list Z) (t : Z) : JOB_POOL :=
  mkJob (tuple32 t nTop) (length (dims t)) (Z.of_nat (length (view_of t)))
    (bytes (concat (view_of <$> pre))).

Fixpoint jobs (pre ts : list Z) : list JOB_POOL :=
  match ts with
  | [] => []
  | t :: ts' => job_of pre t :: jobs (pre ++ [t]) ts'
  end.

Definition made (done : list Z) (l : nat) : list JOB_POOL :=
  List.filter (fun e => (j_nv e =? l)%nat) (jobs [] done).

Record cube_inv (done : list Z) (c : cube T) : Prop := {
  ci_pool : pool_rep (c_pool c) (made done);
  ci_top : nTopDims (c_pool c) = nTop;
  ci_good : Forall good_tuple done;
  ci_nodup : NoDup done;
  ci_view : frows (viewFile (c_view c)) = concat (view_of <$> done);
  ci_acc : accViewFileOffset c = bytes (frows (viewFile (c_view c)));
  ci_nm : a_nm (c_view c) = nm;
  ci_mem : a_memoryLimit (c_view c) = mem;
  ci_tree : rt_wf (a_tree (c_view c));
  ci_table : length (chunksParams (c_view c)) = MAX_NUM_OF_CHUNKS;
  ci_chunks : frows (fileOfChunks (c_view c)) = [];
  ci_input : c_input c = input;
  ci_recs : c_nInputRecs c = length input;
  ci_sizes : viewSizesFile c = (fun t => (u32 (Z.shiftr t (64 - Z.of_nat nTop)),
                                          Z.of_nat (length (view_of t)))) <$> done
}.

Context (HnTop : (1 <= nTop <= MAX_NUM_OF_DIMS)%nat) (Hnm : (nm <= MAX_NUM_OF_MEAS)%nat).
Context (Hinput : Forall (row_ok nTop nm) input) (Hmem : 0 <= mem < 2 ^ 32).
Context (Hbytes : Z.of_nat (length input) * GetRecSize nTop nm < 2 ^ 32).

Lemma nTop_small : (1 <= nTop <= 20)%nat.
Proof. exact HnTop. Qed.

Lemma dims_ok_tuple t : sel_ok nTop (dims t).
Proof. apply reg_tuple_sorted. pose proof nTop_small. lia. Qed.

Lemma dims_length t : good_tuple t -> (1 <= length (dims t) <= nTop)%nat.
Proof.
  pose proof nTop_small. intros [Hok Hne]. split.
  - destruct (dims t) eqn:E; [|simpl; lia]. exfalso. apply Hne.
    rewrite <- (bin_of_reg t nTop) by (done || lia). by rewrite E.
  - rewrite GetRegTupleFromBin64_filter by lia.
    pose proof (filter_length_le (has_dim 63 t) (seq 1 nTop)) as Hle. by rewrite length_seq in Hle.
Qed.

Lemma view_of_ok t : Forall (row_ok (length (dims t)) nm) (view_of t).
Proof. apply aggregate_ok. eapply map_ok; [apply project_key_map|exact Hinput]. Qed.

Lemma view_of_length t : (length (view_of t) <= length input)%nat.
Proof. unfold view_of. etransitivity; [apply aggregate_length|]. by rewrite length_fmap. Qed.

Lemma view_of_positive t : good_tuple t -> Forall (fun r => 0 < row_bytes r) (view_of t).
Proof.
  intros Ht. pose proof (dims_length t Ht). apply (Forall_impl _ _ _ (view_of_ok t)).
  intros r Hr. rewrite (row_ok_bytes _ _ _ Hr). unfold GetRecSize, DIM_FSZ, MSR_FSZ. lia.
Qed.

Lemma GetRecSize_mono l : (l <= nTop)%nat -> 0 <= GetRecSize l nm <= GetRecSize nTop nm.
Proof. unfold GetRecSize, DIM_FSZ, MSR_FSZ. lia. Qed.

Lemma view_of_bytes t : good_tuple t ->
  bytes (view_of t) = Z.of_nat (length (view_of t)) * GetRecSize (length (dims t)) nm
  /\ 0 <= bytes (view_of t) < 2 ^ 32.
Proof.
  intros Ht. pose proof (dims_length t Ht). pose proof (view_of_length t).
  pose proof (GetRecSize_mono (length (dims t)) ltac:(lia)).
  rewrite (rows_ok_bytes (length (dims t)) nm) by apply view_of_ok. split; [done|nia].
Qed.

(** ** The jobs *)

Lemma jobs_snoc ts t : forall pre, jobs pre (ts ++ [t]) = jobs pre ts ++ [job_of (pre ++ ts) t].
Proof.
  induction ts as [|x ts IH]; intros pre; cbn [app jobs]; [by rewrite app_nil_r|].
  by rewrite IH, <- app_assoc.
Qed.

Lemma jobs_elem e ts : forall pre, e ∈ jobs pre ts ->
  exists ts1 t ts2, ts = ts1 ++ t :: ts2 /\ e = job_of (pre ++ ts1) t.
Proof.
  induction ts as [|t ts IH]; intros pre He; [by apply not_elem_of_nil in He|].
  cbn [jobs] in He. apply elem_of_cons in He as [->|He].
  - exists [], t, ts. by rewrite app_nil_r.
  - destruct (IH _ He) as (ts1 & t' & ts2 & -> & ->). exists (t :: ts1), t', ts2.
    by rewrite <- app_assoc.
Qed.

Lemma made_elem done l e : e ∈ made done l ->
  exists pre t post, done = pre ++ t :: post /\ e = job_of pre t /\ length (dims t) = l.
Proof.
  unfold made. rewrite list_elem_of_In, filter_In, <- list_elem_of_In.
  intros [He Hl%Nat.eqb_eq]. destruct (jobs_elem _ _ _ He) as (pre & t & post & -> & ->).
  exists pre, t, post. auto.
Qed.

Lemma made_snoc done t l :
  made (done ++ [t]) l = add_made (length (dims t)) (job_of done t) (made done) l.
Proof.
  unfold made, add_made. rewrite jobs_snoc, List.filter_app. cbn [List.filter j_nv job_of].
  destruct (Nat.eqb_spec (length (dims t)) l) as [<-|Hne]; [by rewrite decide_True|].
  rewrite decide_False by done. apply app_nil_r.
Qed.

Lemma made_length done l :
  length (made done l) = length (List.filter (fun t => (length (dims t) =? l)%nat) done).
Proof.
  unfold made. generalize (@nil Z) as pre. induction done as [|t ts IH]; intros pre; [done|].
  cbn [jobs List.filter j_nv job_of]. destruct (_ =? l)%nat; cbn [length]; by rewrite IH.
Qed.

(** A new groupby finds room in its layer. *)
Lemma made_room done t : Forall good_tuple (done ++ [t]) -> NoDup (done ++ [t]) ->
  (length (made done (length (dims t))) < slots nTop (length (dims t)))%nat.
Proof.
  intros Hg Hd. set (l := length (dims t)).
  pose proof (groupbys_fit nTop l (List.filter (fun t => (length (dims t) =? l)%nat) (done ++ [t]))) as Hfit.
  assert (S (length (made done l)) <= slots nTop l)%nat; [|lia].
  rewrite made_length. etransitivity; [|apply Hfit].
  - rewrite List.filter_app, length_app. cbn [List.filter]. fold l. rewrite Nat.eqb_refl. simpl. lia.
  - pose proof nTop_small. lia.
  - apply NoDup_ListNoDup. apply List.NoDup_filter. by apply NoDup_ListNoDup.
  - apply Forall_forall. intros x Hx. rewrite list_elem_of_In, filter_In, <- list_elem_of_In in Hx.
    destruct Hx as [Hx Hl%Nat.eqb_eq]. rewrite Forall_forall in Hg. split; [by apply Hg|done].
Qed.

(** ** Setting a view up *)

(** [c1] is ready to build the view of [t] from the rows [inp], which it
    sees as [vs]. *)
Record ready (t : Z) done c c1 (inp vs : list row) : Prop := {
  rd_avp : avp_ok (c_view c1);
  rd_nchunks : numberOfChunks (c_view c1) = O;
  rd_chunkfile : frows (fileOfChunks (c_view c1)) = [];
  rd_rows : length inp = nRowsToRead (c_view c1);
  rd_rows32 : Z.of_nat (nRowsToRead (c_view c1)) < 2 ^ 32;
  rd_selected : selected (c_view c1) inp vs;
  rd_vs : aggregate (length (dims t)) nm vs = view_of t;
  rd_nv : a_nv (c_view c1) = length (dims t);
  rd_nm : a_nm (c_view c1) = nm;
  rd_mem : a_memoryLimit (c_view c1) = mem;
  rd_view : viewFile (c_view c1) = viewFile (c_view c);
  rd_tree : a_tree (c_view c1) = a_tree (c_view c);
  rd_few : (length vs <= length input)%nat;
  rd_checksums : exists rest, checksums (a_sums (c_view c1)) = repeat 0 nm ++ rest;
  rd_totchs : totchs c1 = totchs c;
  rd_pool : pool_rep (c_pool c1) (made done);
  rd_top : nTopDims (c_pool c1) = nTop;
  rd_groupby : groupby (c_pool c1) = tuple32 t nTop;
  rd_input : c_input c1 = c_input c;
  rd_recs : c_nInputRecs c1 = c_nInputRecs c;
  rd_acc : accViewFileOffset c1 = accViewFileOffset c;
  rd_sizes : viewSizesFile c1 = viewSizesFile c
}.

Lemma input_small : Z.of_nat (length input) < 2 ^ 32.
Proof.
  pose proof nTop_small. unfold GetRecSize, DIM_FSZ, MSR_FSZ in Hbytes. nia.
Qed.

(** The parts that do not depend on where the rows come from. *)
Lemma init_ready t done c p (fromParent : bool) sel inp :
  cube_inv done c -> good_tuple t -> length sel = length (dims t) ->
  pool_rep p (made done) -> nTopDims p = nTop -> groupby p = tuple32 t nTop ->
  let c0 := mkCube p (clear_checksums (c_view c)) (c_nd c) (c_inpRecSize c) (c_nInputRecs c)
              (c_input c) (accViewFileOffset c) (totchs c) (totalViewFileSize c)
              (viewSizesFile c) in
  let c1 := InitAdcViewCntl (length (dims t)) (sel ++ drop (length sel) (dims t)) fromParent c0 in
  let nd := c_nd c1 in
  sel_ok nd sel -> Forall (row_ok nd nm) inp -> length inp = nRowsToRead (c_view c1) ->
  (length inp <= length input)%nat ->
  aggregate (length (dims t)) nm (project sel <$> inp) = view_of t ->
  ready t done c c1 inp (project sel <$> inp).
Proof.
  intros Hc Ht Hsel Hp Htop Hg c0 c1 nd Hs Hinp Hlen Hle Hv. destruct Hc.
  pose proof (dims_length t Ht) as Hd. pose proof nTop_small. pose proof input_small.
  constructor; try (unfold c1, c0, InitAdcViewCntl, clear_checksums; cbn; auto; fail).
  - split; unfold c1, c0, InitAdcViewCntl, clear_checksums; cbn; rewrite ?ci_nm0; auto.
    unfold dims_ok, MAX_NUM_OF_DIMS in *. lia.
  - rewrite <- Hlen. lia.
  - unfold selected, c1, c0, InitAdcViewCntl, clear_checksums.
    cbn [c_view a_nm a_nv selection]. rewrite ci_nm0.
    rewrite <- Hsel, take_app_length.
    eapply project_selected; [exact Hs|exact Hinp].
  - by rewrite length_fmap.
  - unfold c1, c0, InitAdcViewCntl, clear_checksums. cbn. rewrite ci_nm0. eauto.
Qed.

Lemma source_run (fromParent : bool) nd c1 inp rest :
  (if fromParent then rows_at (viewOffset (c_pool c1)) (frows (viewFile (c_view c1)))
   else Some (c_input c1)) = Some (inp ++ rest) ->
  c_inpRecSize c1 = GetRecSize nd nm ->
  Forall (row_ok nd nm) inp -> nRowsToRead (c_view c1) = length inp ->
  source_rows fromParent c1 = Some (inp ++ rest).
Proof.
  intros Hrows Hr Hi Hn. unfold source_rows. rewrite Hrows, Hn, take_app_length, Hr.
  assert (E : forallb (fun r => row_bytes r =? GetRecSize nd nm) inp = true); [|by rewrite E].
  apply forallb_forall. intros r Hin. rewrite <- list_elem_of_In in Hin.
  rewrite Forall_forall in Hi. apply Z.eqb_eq, row_ok_bytes. by apply Hi.
Qed.

(** The rows of a made view are where the pool says. *)
Lemma parent_rows pre t post : Forall good_tuple (pre ++ t :: post) ->
  rows_at (bytes (concat (view_of <$> pre))) (concat (view_of <$> pre ++ t :: post))
  = Some (view_of t ++ concat (view_of <$> post)).
Proof.
  intros Hg. rewrite fmap_app, concat_app. apply rows_at_bytes.
  apply Forall_app in Hg as [Hg _]. induction Hg as [|x pre Hx Hg IH]; [constructor|].
  cbn. apply Forall_app. split; [by apply view_of_positive|exact IH].
Qed.

(** A view can be computed from the view of a superset. *)
Lemma view_of_parent t t' :
  subset (tuple32 t nTop) (tuple32 t' nTop) = true ->
  let rel := GetRegTupleFromParent t (tuple32 t' nTop) nTop in
  length rel = length (dims t) /\ sel_ok (length (dims t')) rel
  /\ aggregate (length (dims t)) nm (project rel <$> view_of t') = view_of t.
Proof.
  clear Hnm Hmem Hbytes. intros Hsub rel. pose proof nTop_small.
  pose proof (FromParent_lookup t (tuple32 t' nTop) nTop ltac:(lia) Hsub) as Hrel. fold rel in Hrel.
  assert (Hps : getRegTupleFromBin32 (tuple32 t' nTop) nTop = dims t').
  { rewrite getRegTupleFromBin32_filter, GetRegTupleFromBin64_filter by lia.
    apply filter_dims_eq. intros. apply tuple32_dim; lia. }
  rewrite Hps in Hrel. pose proof (Forall2_length _ _ _ Hrel) as Hlen.
  split_and!; [done| |].
  - apply Forall_forall. intros k Hk. apply list_elem_of_lookup in Hk as [i Hi].
    destruct (Forall2_lookup_r _ _ _ _ _ Hrel Hi) as (d & _ & Hk & Hd).
    apply lookup_lt_Some in Hd. lia.
  - rewrite Hlen. unfold view_of at 1.
    rewrite (aggregate_rollup (length (dims t')) (length rel) nm (project rel)).
    + unfold view_of. rewrite Hlen. f_equal. rewrite <- list_fmap_compose.
      apply list_fmap_ext. intros i r _. cbn. by apply project_compose.
    + apply project_key_map.
    + eapply map_ok; [apply project_key_map|exact Hinput].
Qed.

Lemma GetParent_run t done c : cube_inv done c -> good_tuple t ->
  let p0 := set_groupby (tuple32 t nTop) (c_pool c) in
  exists smp p, GetParent (tuple32 t nTop) p0 = Some (smp, p) /\ pool_rep p (made done)
    /\ nTopDims p = nTop /\ groupby p = tuple32 t nTop /\
    (smp = noneParent
     \/ smp <> noneParent /\ exists pre t' post, done = pre ++ t' :: post
          /\ subset (tuple32 t nTop) (tuple32 t' nTop) = true
          /\ smallestParentLevel p = length (dims t')
          /\ viewOffset p = bytes (concat (view_of <$> pre))
          /\ nParentViewRows p = Z.of_nat (length (view_of t'))
          /\ parBinRepTuple p = tuple32 t' nTop).
Proof.
  intros Hc Ht p0. pose proof (dims_length t Ht) as Hd. pose proof nTop_small.
  assert (Hp0 : pool_rep p0 (made done)) by (destruct (ci_pool _ _ Hc); by split).
  pose proof (ci_top _ _ Hc) as Htop.
  unfold GetParent. rewrite NumberOfOnes_tuple32, Nat2Z.id by lia.
  cbn [nTopDims groupby set_groupby p0]. rewrite Htop. fold p0.
  edestruct (GetParent_levels_spec p0 (made done) Hp0) as (smp & p & Hrun & Hres);
    [| |rewrite Hrun]; [lia|cbn; lia|].
  exists smp, p. split; [done|].
  destruct Hres as [[Hk (l & e & Hl & Hch & Hpar & _)]|(-> & -> & _)].
  - unfold parent_is in Hpar. subst p. split_and!; try done; [by destruct Hp0; split|]. right. split; [done|].
    assert (He : e ∈ made done l /\ above p0 e = true).
    { destruct smp; cbn [chosen] in Hch; [..|done]; destruct Hch as (Hin & HP & _); split; auto.
      - by apply andb_true_iff in HP as [HP _].
      - by apply andb_true_iff in HP as [HP _]. }
    destruct He as [He Hab]. destruct (made_elem _ _ _ He) as (pre & t' & post & -> & -> & Hlen).
    exists pre, t', post. by split_and!.
  - split_and!; try done. by left.
Qed.

(** The body up to the build finds the rows it needs. *)
Lemma prepare_run t done c : cube_inv done c -> good_tuple t ->
  exists smp c1 inp rest vs, prepare_view (swap8 t) c = Some (smp, c1)
    /\ source_rows (negb (bool_decide (smp = noneParent))) c1 = Some (inp ++ rest)
    /\ ready t done c c1 inp vs.
Proof.
  intros Hc Ht. pose proof (dims_length t Ht) as Hd. pose proof nTop_small.
  unfold prepare_view. rewrite swap8_swap8 by apply Ht. rewrite (ci_top _ _ Hc).
  destruct (GetParent_run t done c Hc Ht) as (smp & p & -> & Hp & Htop & Hg & Hcase).
  destruct Hcase as [->|[Hk (pre & t' & post & Hdone & Hsub & Hlev & Hoff & Hrows & Hpar)]].
  - rewrite bool_decide_eq_true_2 by done. cbn [negb].
    eexists _, _, input, [], _. split; [reflexivity|]. split.
    + apply (source_run false nTop); cbn; rewrite ?Htop, ?(ci_nm _ _ Hc), ?(ci_recs _ _ Hc),
        ?(ci_input _ _ Hc), ?app_nil_r; auto.
    + apply init_ready; auto; cbn; rewrite ?Htop, ?(ci_recs _ _ Hc); auto.
      apply dims_ok_tuple.
  - rewrite bool_decide_eq_false_2 by done. cbn [negb]. rewrite Hpar.
    destruct (view_of_parent t t' Hsub) as (Hlen & Hs & Hv).
    pose proof (ci_good _ _ Hc) as Hgood. rewrite Hdone in Hgood.
    eexists _, _, (view_of t'), _, _. split; [reflexivity|]. split.
    + rewrite bool_decide_eq_false_2 by done. apply (source_run true (length (dims t'))); cbn; auto using view_of_ok;
        rewrite ?Hlev, ?(ci_nm _ _ Hc), ?Hrows, ?Nat2Z.id; auto.
      rewrite Hoff, (ci_view _ _ Hc), Hdone. by apply parent_rows.
    + apply init_ready; auto; cbn; rewrite ?Hlev, ?Hrows, ?Nat2Z.id; auto using view_of_ok, view_of_length.
Qed.

Lemma pool_rep_ext p m1 m2 : (forall l, m1 l = m2 l) -> pool_rep p m1 -> pool_rep p m2.
Proof.
  intros E Hp. split; [apply Hp|apply Hp| | |].
  - intros l Hl. rewrite <- E. by apply Hp.
  - intros l Hl. rewrite <- E. by apply Hp.
  - intros l i Hl Hi. rewrite <- E in *. by apply Hp.
Qed.

Lemma acc_bound done : Forall good_tuple done ->
  0 <= bytes (concat (view_of <$> done)) <= Z.of_nat (length done) * 2 ^ 32.
Proof.
  induction 1 as [|t done Ht Hg IH]; [done|]. cbn [fmap list_fmap concat length].
  rewrite bytes_app. destruct (view_of_bytes t Ht) as [_ Hb]. lia.
Qed.

(** After the build: the pool, the offset and the files. *)
Lemma finish_inv t done c c1 inp vs a p :
  cube_inv done c -> ready t done c c1 inp vs -> Forall good_tuple (done ++ [t]) ->
  NoDup (done ++ [t]) -> Z.of_nat (length done) < 2 ^ 30 ->
  built (c_view c1) a (view_of t) -> reusable (c_view c1) a ->
  pool_rep p (add_made (length (dims t)) (job_of done t) (made done)) -> nTopDims p = nTop ->
  cube_inv (done ++ [t]) (finish_view (u32 (Z.shiftr t (64 - Z.of_nat nTop))) a p c1).
Proof.
  intros Hc Hr Hgood Hnodup Hmany Hb Hru Hp Htop.
  pose proof (proj1 (Forall_app _ _ _) Hgood) as [Hg1 Ht]. apply Forall_cons in Ht as [Ht _].
  destruct (view_of_bytes t Ht) as [Hvb Hvr]. pose proof (acc_bound done Hg1) as Hacc.
  assert (Hview : frows (viewFile a) = concat (view_of <$> (done ++ [t]))).
  { rewrite (bt_view _ _ _ Hb). cbn [frows].
    rewrite (rd_view _ _ _ _ _ _ Hr), (ci_view _ _ Hc), fmap_app, concat_app. cbn.
    by rewrite app_nil_r. }
  split; cbn [finish_view c_pool c_view viewFile accViewFileOffset with_chunkfile a_nm
    a_memoryLimit a_tree chunksParams fileOfChunks frows rewind c_input c_nInputRecs
    viewSizesFile]; auto.
  - eapply pool_rep_ext; [|exact Hp]. intros l. symmetry. apply made_snoc.
  - rewrite Hview, fmap_app, concat_app, bytes_app. cbn [fmap list_fmap concat].
    rewrite app_nil_r, (rd_acc _ _ _ _ _ _ Hr), (ci_acc _ _ Hc), (ci_view _ _ Hc).
    rewrite (bt_rows _ _ _ Hb), (ru_rec _ _ Hru), (ao_rec _ (rd_avp _ _ _ _ _ _ Hr)).
    rewrite (rd_nv _ _ _ _ _ _ Hr), (rd_nm _ _ _ _ _ _ Hr). fold (GetRecSize (length (dims t)) nm).
    rewrite <- Hvb, (wrapu_id 32), wraps_id; unfold in_u, in_s; lia.
  - rewrite (ru_nm _ _ Hru). apply Hr.
  - rewrite (ru_mem _ _ Hru). apply Hr.
  - apply Hru.
  - apply Hru.
  - rewrite (rd_input _ _ _ _ _ _ Hr). apply Hc.
  - rewrite (rd_recs _ _ _ _ _ _ Hr). apply Hc.
  - rewrite (rd_sizes _ _ _ _ _ _ Hr), (ci_sizes _ _ Hc), fmap_app. cbn.
    by rewrite (bt_rows _ _ _ Hb).
Qed.

Lemma snoc_good t done c : cube_inv done c -> good_tuple t -> t ∉ done ->
  Forall good_tuple (done ++ [t]) /\ NoDup (done ++ [t]).
Proof.
  intros Hc Ht Hnew. split.
  - apply Forall_app. split; [apply Hc|]. by apply Forall_singleton.
  - apply NoDup_app. split_and!; [apply Hc| |apply NoDup_singleton]. set_solver.
Qed.

(** The end of a round whose view was built. *)
Lemma finish_run t done c c1 inp vs a : cube_inv done c -> good_tuple t -> t ∉ done ->
  Z.of_nat (length done) < 2 ^ 30 -> ready t done c c1 inp vs ->
  built (c_view c1) a (view_of t) -> reusable (c_view c1) a ->
  exists p', JobPoolUpdate (a_nv a) (nViewRows a) (accViewFileOffset c1) (c_pool c1) = Some p'
    /\ cube_inv (done ++ [t])
         (finish_view (u32 (Z.shiftr (swap8 (swap8 t)) (64 - Z.of_nat (nTopDims p')))) a p' c1).
Proof.
  intros Hc Ht Hnew Hmany Hr Hb Hru. destruct (snoc_good t done c Hc Ht Hnew) as [Hgood Hnodup].
  destruct (JobPoolUpdate_run (c_pool c1) (made done) (a_nv a) (nViewRows a) (accViewFileOffset c1))
    as (p' & Hrun & Hp' & Htop' & Hg'); [apply Hr|..].
  { rewrite (ru_nv _ _ Hru), (rd_nv _ _ _ _ _ _ Hr), (rd_top _ _ _ _ _ _ Hr). by apply dims_length. }
  { rewrite (ru_nv _ _ Hru), (rd_nv _ _ _ _ _ _ Hr), (rd_top _ _ _ _ _ _ Hr). by apply made_room. }
  exists p'. split; [exact Hrun|].
  rewrite Htop', (rd_top _ _ _ _ _ _ Hr), swap8_swap8 by apply Ht.
  apply (finish_inv t done c c1 inp vs a p'); auto; [|by rewrite Htop'; apply Hr].
  rewrite (ru_nv _ _ Hru), (rd_nv _ _ _ _ _ _ Hr), (rd_groupby _ _ _ _ _ _ Hr), (bt_rows _ _ _ Hb),
    (rd_acc _ _ _ _ _ _ Hr), (ci_acc _ _ Hc), (ci_view _ _ Hc) in Hp'. exact Hp'.
Qed.

(** One round of the loop. *)
Lemma view_step_run j t done c : cube_inv done c -> good_tuple t -> t ∉ done ->
  Z.of_nat (length done) < 2 ^ 30 ->
  exists rc c', view_step j (swap8 t) c = Some (rc, c')
    /\ (rc = ADC_OK /\ cube_inv (done ++ [t]) c' \/ rc = ADC_WRITE_FAILED \/ rc = ADC_INTERNAL_ERROR).
Proof.
  intros Hc Ht Hnew Hmany. unfold view_step.
  destruct (prepare_run t done c Hc Ht) as (smp & c1 & inp & rest & vs & -> & -> & Hr).
  destruct (build_run (c_view c1) inp rest vs (jk_attrs j) (junk_pool j (c_view c1)) (jk_min j))
    as (rc & a & -> & Hout); try apply Hr.
  { split; [rewrite (rd_mem _ _ _ _ _ _ Hr); exact Hmem|]. unfold junk_pool.
    by rewrite length_fmap, length_seq. }
  destruct Hout as [(-> & Hb & Hru)|[[-> _]|[-> _]]]; cbn [negb Z.eqb Pos.eqb ADC_OK
    ADC_WRITE_FAILED ADC_INTERNAL_ERROR]; [|by eauto 10..].
  rewrite (rd_nv _ _ _ _ _ _ Hr), (rd_nm _ _ _ _ _ _ Hr), (rd_vs _ _ _ _ _ _ Hr) in Hb.
  destruct (finish_run t done c c1 inp vs a Hc Ht Hnew Hmany Hr Hb Hru) as (p' & -> & Hinv).
  eexists _, _. split; [reflexivity|]. by left.
Qed.

(** The whole loop. *)
Lemma groupby_loop_run js ts : forall n done c, cube_inv done c -> Forall good_tuple ts ->
  NoDup (done ++ ts) -> Z.of_nat (length done + length ts) <= 2 ^ 30 ->
  exists rc c', groupby_loop js n (swap8 <$> ts) c = Some (rc, c')
    /\ (rc = ADC_OK /\ cube_inv (done ++ ts) c'
        \/ rc = ADC_WRITE_FAILED \/ rc = ADC_INTERNAL_ERROR).
Proof.
  induction ts as [|t ts IH]; intros n done c Hc Hg Hd Hlen.
  { eexists _, _. split; [reflexivity|]. left. by rewrite app_nil_r. }
  cbn [fmap list_fmap groupby_loop length] in *. inversion Hg as [|? ? Ht Hg']; subst.
  replace (done ++ t :: ts) with ((done ++ [t]) ++ ts) in * by (by rewrite <- app_assoc).
  destruct (view_step_run (js n) t done c Hc Ht) as (rc & c' & -> & [[-> Hc']|Herr]).
  - apply NoDup_app in Hd as [Hd _]. apply NoDup_app in Hd as (_ & Hd & _). set_solver.
  - lia.
  - cbn [negb Z.eqb ADC_OK]. apply IH; auto. rewrite length_app. cbn. lia.
  - exists rc, c'. destruct Herr as [-> | ->]; cbn; auto.
Qed.
End CubeSpec.

(** ** Memory of a tree *)

(** The bytes of its pool, and when it cannot be full. *)
Class RowTreeMemory (T : Type) `{RowTreeLaws T} := {
  rt_memory : T -> Z;
  rt_init_memory nd nm t : rt_memory (rt_init nd nm t) = rt_memory t;
  rt_insert_memory nd nm t l r z t' :
    rt_inv nd nm t l -> rt_full t = 0 -> row_ok nd nm r -> rt_insert r t = Some (z, t') ->
    rt_memory t' = rt_memory t;
  rt_not_full nd nm t l :
    rt_inv nd nm t l -> Z.of_nat (length l) < rt_memory t / tree_node_size nd nm -> rt_full t = 0
}.

#[export] Instance rbt_memory : RowTreeMemory RBTree.
Proof.
  refine {| rt_memory := memoryLimit |}; cbn.
  - done.
  - intros nd' nm' st l r z st' (tr & Hi & <- & <- & <- & Hl) Hf Hr Hrun.
    destruct (TreeInsert_inv st tr r Hi (rbt_free _ _ Hi Hl Hf) Hr) as (st1 & Hrun1 & _ & _ & _ & Hlim).
    rewrite Hrun in Hrun1. by injection Hrun1 as _ ->.
  - intros nd' nm' st l (tr & Hi & <- & <- & <- & Hl) Hlen. rewrite (inv_full _ _ Hi).
    rewrite <- (inv_nodesize _ _ Hi), <- (inv_nodes _ _ Hi), length_inorder in Hlen.
    rewrite (inv_free _ _ Hi), (inv_count _ _ Hi).
    destruct (Z.eqb_spec (nNodesLimit st - Z.of_nat (RBShape.size tr)) 0); [lia|]. by rewrite andb_false_r.
Defined.

Section Capacity.
Context {T : Type} `{RowTreeMemory T}.
Abbreviation AVP := (ADC_VIEW_CNTL T).

(** ** Run formation leaves no runs *)

Lemma run_loop_fits (a0 : AVP) all inp : forall vs done cur off a attrs rest,
  avp_ok a0 -> run_inv a0 done [] cur off a -> selected a0 inp vs -> all = done ++ vs ->
  rt_memory (a_tree a) = rt_memory (a_tree a0) ->
  Z.of_nat (length all) < rt_memory (a_tree a0) / tree_node_size (a_nv a0) (a_nm a0) ->
  exists off' a' cur', run_loop (length inp) attrs (inp ++ rest) off a = Some (ADC_OK, off', a')
    /\ run_inv a0 all [] cur' off' a' /\ rt_memory (a_tree a') = rt_memory (a_tree a0).
Proof.
  induction inp as [|r inp IH]; intros vs done cur off a attrs rest Hok Hinv Hsel Hall Hmem Hfit;
    inversion Hsel as [|? v ? vs' [Hv Hrow] Hsel']; subst; cbn [run_loop length app].
  { eexists _, _, _. split; [reflexivity|]. rewrite app_nil_r. eauto. }
  destruct (run_insert _ _ _ _ _ _ _ Hinv Hrow) as (t & Hins & Ht & Hc & Hp).
  destruct (co_same _ _ _ _ (ri_chunks _ _ _ _ _ _ Hinv)) as (E1 & E2 & E3 & _).
  assert (Hm : rt_memory t = rt_memory (a_tree a0)).
  { rewrite <- Hmem. eapply rt_insert_memory; [apply Hinv|apply Hinv|exact Hrow|exact Hins]. }
  rewrite E1, E2, E3, Hv, Hins.
  assert (Happ : done ++ v :: vs' = (done ++ [v]) ++ vs') by (by rewrite <- app_assoc).
  assert (Hfull : rt_full t = 0).
  { apply (rt_not_full _ _ _ _ Ht). rewrite Hm. pose proof (pieces_length _ _ _ _ _ Hp) as Hl.
    cbn [concat length] in Hl. rewrite Happ, length_app in Hfit. lia. }
  rewrite Hfull. cbn [negb Z.eqb].
  apply (IH vs' (done ++ [v]) (agg_insert (a_nv a0) (a_nm a0) v cur)); auto.
  split; auto. by destruct Hinv.
Qed.

Lemma RunFormation_fits (a0 : AVP) inp rest vs attrs0 :
  avp_ok a0 -> numberOfChunks a0 = O -> frows (fileOfChunks a0) = [] ->
  length inp = nRowsToRead a0 -> selected a0 inp vs ->
  Z.of_nat (length vs) < rt_memory (a_tree a0) / tree_node_size (a_nv a0) (a_nm a0) ->
  exists off a', RunFormation attrs0 (inp ++ rest) a0 = Some (ADC_OK, a')
    /\ chunks_ok a0 [] off a' /\ numberOfChunks a' = O
    /\ rt_inv (a_nv a0) (a_nm a0) (a_tree a') (aggregate (a_nv a0) (a_nm a0) vs)
    /\ rt_memory (a_tree a') = rt_memory (a_tree a0).
Proof.
  intros Hok Hn Hf Hl Hsel Hfit. unfold RunFormation.
  cbn [nRowsToRead with_tree]. rewrite <- Hl.
  destruct (run_loop_fits a0 vs inp vs [] [] 0
    (with_tree (rt_init (a_nv a0) (a_nm a0) (a_tree a0)) a0) attrs0 rest Hok
    (RunFormation_start _ Hok Hn Hf) Hsel eq_refl (rt_init_memory _ _ _) Hfit)
    as (off & a1 & cur & -> & Hinv & Hm). cbn [negb Z.eqb ADC_OK].
  destruct Hinv as [Hc Ht _ _ Hp]. pose proof (co_number _ _ _ _ Hc) as Hnum. cbn [length] in Hnum.
  rewrite Hnum. cbn [Nat.eqb negb andb]. exists off, a1. split_and!; auto.
  destruct Hp as ([|] & g & -> & [=] & -> & _). done.
Qed.

Lemma build_fits (a0 : AVP) inp rest vs attrs0 pool min0 :
  avp_ok a0 -> numberOfChunks a0 = O -> frows (fileOfChunks a0) = [] ->
  length inp = nRowsToRead a0 -> selected a0 inp vs ->
  Z.of_nat (length vs) < rt_memory (a_tree a0) / tree_node_size (a_nv a0) (a_nm a0) ->
  let v := aggregate (a_nv a0) (a_nm a0) vs in
  exists rc a', build_view attrs0 (inp ++ rest) pool min0 a0 = Some (rc, a')
    /\ rt_memory (a_tree a') = rt_memory (a_tree a0) /\ numberOfChunks a' = O
    /\ (rc = ADC_OK /\ built a0 a' v /\ reusable a0 a'
        \/ rc = ADC_WRITE_FAILED /\ (fspace (viewFile a0) < length v)%nat).
Proof.
  intros Hok Hn Hf Hl Hsel Hfit v.
  destruct (RunFormation_fits a0 inp rest vs attrs0 Hok Hn Hf Hl Hsel Hfit)
    as (off & a & Hrun & Hc & Hz & Ht & Hm).
  unfold build_view. rewrite Hrun. cbn [negb Z.eqb ADC_OK]. rewrite (proj2 (Nat.eqb_eq _ _) Hz).
  destruct (write_tree_run a0 a off vs Hc Hz Ht) as (rc & a' & Hw & Htree & Hnc & Hres).
  exists rc, a'. rewrite Htree. done.
Qed.

(** ** The checksum of a view with one measure *)

Fixpoint view_checksum (l : list row) (c ordern : Z) : Z :=
  match l with
  | [] => c
  | r :: l' =>
      match ms r with
      | x :: _ => let o := u64 (ordern + 1) in view_checksum l' (s64 (c + u64 (o * u64 x) mod measbound)) o
      | [] => view_checksum l' c ordern
      end
  end.

Lemma cs_rows_one l : forall c o rest, fst (cs_rows 1 l (c :: rest) o) = view_checksum l c o :: rest.
Proof.
  induction l as [|r l IH]; intros c o rest; [done|]. cbn [cs_rows view_checksum].
  destruct (ms r) as [|x xs]; cbn [add_checksums]; apply IH.
Qed.

(** ** The loop *)

Section Loop.
Context (nTop nm : nat) (input : list row) (mem : Z).
Context (HnTop : (1 <= nTop <= MAX_NUM_OF_DIMS)%nat) (Hnm : (nm <= MAX_NUM_OF_MEAS)%nat).
Context (Hinput : Forall (row_ok nTop nm) input) (Hmem : 0 <= mem < 2 ^ 32).
Context (Hbytes : Z.of_nat (length input) * GetRecSize nTop nm < 2 ^ 32).

(** A pool of this many bytes has more nodes of any view than there are rows. *)
Definition enough (bytes : Z) : Prop :=
  (Z.of_nat (length input) + 1) * (32 + 4 * Z.of_nat nTop + 8 * Z.of_nat nm) <= bytes.

Lemma enough_nodes bytes nv : enough bytes -> (1 <= nv <= nTop)%nat ->
  Z.of_nat (length input) < bytes / tree_node_size nv nm.
Proof.
  intros He Hnv. unfold enough, MAX_NUM_OF_DIMS, MAX_NUM_OF_MEAS in *.
  assert (Hsz : 0 < tree_node_size nv nm <= 32 + 4 * Z.of_nat nTop + 8 * Z.of_nat nm).
  { destruct (tree_node_size_bounds nv nm) as [[? _] _]; [unfold dims_ok, MAX_NUM_OF_DIMS, MAX_NUM_OF_MEAS; lia|].
    split; [lia|]. unfold tree_node_size, sizeof_treeNode, DIM_FSZ, MSR_FSZ.
    rewrite (wrapu_id 32) by (unfold in_u; lia).
    destruct (negb _); [rewrite (wrapu_id 32) by (unfold in_u; lia)|]; lia. }
  apply Z.lt_le_trans with (Z.of_nat (length input) + 1); [lia|]. apply Z.div_le_lower_bound; nia.
Qed.

Abbreviation view_of := (view_of nTop nm input).

(** The checksums of the views of [ts], added up. *)
Definition checksum_of (ts : list Z) : Z := foldr (fun t s => view_checksum (view_of t) 0 0 + s) 0 ts.

Lemma checksum_of_snoc ts t : checksum_of (ts ++ [t]) = checksum_of ts + view_checksum (view_of t) 0 0.
Proof. induction ts as [|t' ts IH]; cbn [app checksum_of foldr] in *; [lia|]. fold (checksum_of (ts ++ [t])). fold (checksum_of ts). lia. Qed.

(** Memory, the rest of the view file, and [totchs[0]]. *)
Definition roomy (done : list Z) (space : nat) (c : cube T) : Prop :=
  enough (rt_memory (a_tree (c_view c)))
  /\ (fspace (viewFile (c_view c)) + length (concat (view_of <$> done)))%nat = space
  /\ (nm = 1%nat -> exists rest, totchs c = s64 (checksum_of done) :: rest).

Lemma view_step_fits j t done c space :
  cube_inv nTop nm input mem done c -> roomy done space c -> good_tuple nTop t -> t ∉ done ->
  Z.of_nat (length done) < 2 ^ 30 ->
  exists rc c', view_step j (swap8 t) c = Some (rc, c')
    /\ (rc = ADC_OK /\ cube_inv nTop nm input mem (done ++ [t]) c' /\ roomy (done ++ [t]) space c'
        \/ rc = ADC_WRITE_FAILED /\ (space < length (concat (view_of <$> (done ++ [t]))))%nat).
Proof.
  intros Hc (Hen & Hsp & Hch) Ht Hnew Hmany. unfold view_step.
  destruct (prepare_run nTop nm input mem HnTop Hnm Hinput Hbytes t done c Hc Ht)
    as (smp & c1 & inp & rest & vs & -> & -> & Hr).
  pose proof (dims_length nTop nm input HnTop Hnm t Ht) as Hd. pose proof Hr as [Havp Hnch Hcf Hrows _ Hsel rd_vs rd_nv rd_nm _ rd_view rd_tree rd_few [crest Hcs] Htot _ _ _ _ _ _ _].
  destruct (build_fits (c_view c1) inp rest vs (jk_attrs j) (junk_pool j (c_view c1)) (jk_min j))
    as (rc & a & -> & Hm & Hnc & Hout); auto.
  { rewrite rd_tree, rd_nv, rd_nm. pose proof (enough_nodes _ _ Hen Hd). lia. }
  rewrite rd_nv, rd_nm, rd_vs, rd_view in Hout. rewrite rd_tree in Hm.
  assert (Hlen : length (concat (view_of <$> (done ++ [t])))
    = (length (concat (view_of <$> done)) + length (view_of t))%nat).
  { rewrite fmap_app, concat_app, length_app. cbn. by rewrite app_nil_r. }
  destruct Hout as [(-> & Hb & Hru)|[-> Hfull]];
    cbn [negb Z.eqb Pos.eqb ADC_OK ADC_WRITE_FAILED].
  - destruct (finish_run nTop nm input mem HnTop Hnm Hinput Hmem Hbytes t done c c1 inp vs a
      Hc Ht Hnew Hmany Hr Hb Hru) as (p' & -> & Hinv).
    eexists _, _. split; [reflexivity|]. left. split_and!; [done|exact Hinv|].
    unfold roomy. cbn [finish_view c_view with_chunkfile a_tree viewFile totchs]. split_and!.
    + by rewrite Hm.
    + rewrite Hlen, (bt_view _ _ _ Hb), rd_view. cbn [fspace].
      pose proof (bt_space _ _ _ Hb) as Hs. rewrite rd_view in Hs. lia.
    + intros E1. destruct (Hch E1) as [trest Hrest]. rewrite (ru_nm _ _ Hru), rd_nm, Htot, Hrest, E1.
      rewrite (bt_checksums _ _ _ Hb), Hnc, Hcs, rd_nm, E1. cbn [Nat.eqb repeat app]. rewrite cs_rows_one.
      cbn [add_measures]. rewrite wraps_add_l, checksum_of_snoc, <- E1 by lia. by exists trest.
  - eexists _, _. split; [reflexivity|]. right. split; [done|]. rewrite Hlen. lia.
Qed.

Lemma groupby_loop_fits js ts : forall n done c space,
  cube_inv nTop nm input mem done c -> roomy done space c -> Forall (good_tuple nTop) ts ->
  NoDup (done ++ ts) -> Z.of_nat (length done + length ts) <= 2 ^ 30 ->
  exists rc c', groupby_loop js n (swap8 <$> ts) c = Some (rc, c')
    /\ (rc = ADC_OK /\ cube_inv nTop nm input mem (done ++ ts) c'
          /\ (nm = 1%nat -> exists rest, totchs c' = s64 (checksum_of (done ++ ts)) :: rest)
        \/ rc = ADC_WRITE_FAILED /\ (space < length (concat (view_of <$> (done ++ ts))))%nat).
Proof.
  induction ts as [|t ts IH]; intros n done c space Hc Hroom Hg Hd Hlen.
  { eexists _, _. split; [reflexivity|]. left. rewrite app_nil_r. split_and!; [done|done|apply Hroom]. }
  cbn [fmap list_fmap groupby_loop length] in *. inversion Hg as [|? ? Ht Hg']; subst.
  replace (done ++ t :: ts) with ((done ++ [t]) ++ ts) in * by (by rewrite <- app_assoc).
  destruct (view_step_fits (js n) t done c space Hc Hroom Ht)
    as (rc & c' & -> & [(-> & Hc' & Hroom')|[-> Hfull]]).
  - apply NoDup_app in Hd as [Hd _]. apply NoDup_app in Hd as (_ & Hd & _). set_solver.
  - lia.
  - cbn [negb Z.eqb ADC_OK]. apply IH; auto. rewrite length_app. cbn. lia.
  - cbn [negb Z.eqb Pos.eqb ADC_WRITE_FAILED]. eexists _, _. split; [reflexivity|]. right. split; [done|].
    rewrite fmap_app, concat_app, length_app. lia.
Qed.
End Loop.
End Capacity.
