(* ===== verification/CubeTheorems.v ===== *)
(** * Theorems about the cube

    The whole computation of [ComputeGivenGroupbys], the job pool and the bit
    tuples, each with an application to a small cube. *)

From Stdlib Require Import ZArith Lia Sorted.
From stdpp Require Import base gmap numbers option list.
From S2P Require Import Prelude Rows RBTree RBSpec ViewFiles ExtSort BuildSpec JobBits JobPool JobPoolSpec Cube CubeSpec.

(** The arrays of the fresh block have the sizes that are allocated. *)
Definition fresh_ok (g : fresh_block) : Prop :=
  length (fb_chunks g) = MAX_NUM_OF_CHUNKS
  /\ length (fb_nodes g) = MAX_TREE_HEIGHT /\ length (fb_drcts g) = MAX_TREE_HEIGHT.

Lemma NewAdcViewCntl_inv g nd nm mem input vspace cspace :
  fresh_ok g -> (1 <= nd <= MAX_NUM_OF_DIMS)%nat -> 144 <= mem < 2 ^ 32 ->
  cube_inv nd nm input mem [] (NewAdcViewCntl g nd nm (length input) mem input vspace cspace).
Proof.
  intros (Hc & Hn & Hd) Hnd Hmem. unfold MAX_NUM_OF_DIMS in Hnd.
  constructor; cbn; auto; [|constructor|split; [by split|done]].
  apply (pool_rep_ext _ (fun _ => [])); [done|]. by apply new_pool_rep.
Qed.

(** A small cube: two dimensions, one measure, three views. *)
Definition demo_block : fresh_block :=
  mkFresh 3 [] (repeat (mkCHUNKS 9 9 9 9) MAX_NUM_OF_CHUNKS) 7 (repeat 5 64) (repeat NULL 64)
    (mkLayer 0 0 0) 3 3 3 3 3 3 [5] [6] [7].

Definition cube_input : list row := [Row [5] [1; 3]; Row [1] [1; 2]; Row [6] [2; 3]; Row [4] [1; 3]].

Definition cube_groupbys : list Z := [2 ^ 63 + 2 ^ 62; 2 ^ 62; 2 ^ 63].

Definition demo_cube : cube RBTree := NewAdcViewCntl demo_block 2 1 4 160 cube_input 30 30.

Definition demo_junk : nat -> junk := fun _ => mkJunk (Row [] []) (fun _ => Row [] []) (0%nat, Row [] []).

Lemma cube_groupbys_good : Forall (good_tuple 2) cube_groupbys.
Proof. repeat constructor; discriminate. Qed.

Lemma cube_input_ok : Forall (row_ok 2 1) cube_input.
Proof. repeat constructor. Qed.

(** C3: The cube is computed correctly.  Starting from the control block
    [NewAdcViewCntl] sets up, the loop of [ComputeGivenGroupbys] over a list of
    distinct groupbys never faults: it stays inside the job pool, the layers,
    the chunk table, the tree pool and the rows of the view file.  When it
    ends with [ADC_OK] the view file holds, in the order of the groupbys, the
    view of each one, that is the input projected to the dimensions of the
    groupby and aggregated, although most views are computed from views made
    before; and the sizes file holds the size of each view.  Otherwise it
    reports a full file or a pool too small for the external sort. *)
Theorem cube_correct g nd nm mem input vspace cspace js ts :
  fresh_ok g -> (1 <= nd <= MAX_NUM_OF_DIMS)%nat -> (nm <= MAX_NUM_OF_MEAS)%nat ->
  144 <= mem < 2 ^ 32 -> Forall (row_ok nd nm) input ->
  Z.of_nat (length input) * GetRecSize nd nm < 2 ^ 32 ->
  Forall (good_tuple nd) ts -> NoDup ts -> Z.of_nat (length ts) <= 2 ^ 30 ->
  exists rc c,
    groupby_loop js 0 (swap8 <$> ts) (NewAdcViewCntl g nd nm (length input) mem input vspace cspace)
      = Some (rc, c)
    /\ (rc = ADC_OK
        /\ frows (viewFile (c_view c)) = concat (view_of nd nm input <$> ts)
        /\ viewSizesFile c = (fun t => (u32 (Z.shiftr t (64 - Z.of_nat nd)),
                                        Z.of_nat (length (view_of nd nm input t)))) <$> ts
        \/ rc = ADC_WRITE_FAILED \/ rc = ADC_INTERNAL_ERROR).
Proof.
  intros Hg Hnd Hnm Hmem Hin Hb Hts Hdup Hlen.
  pose proof (NewAdcViewCntl_inv g nd nm mem input vspace cspace Hg Hnd Hmem) as Hinv.
  destruct (groupby_loop_run nd nm input mem Hnd Hnm Hin ltac:(lia) Hb js ts 0 [] _ Hinv Hts Hdup Hlen)
    as (rc & c & Hrun & [[-> Hc]|Herr]); exists rc, c || exists ADC_OK, c; (split; [exact Hrun|]).
  - left. split_and!; [done|apply Hc|apply Hc].
  - by right.
Qed.

Lemma cube_correct_witness :
  exists rc c, groupby_loop demo_junk 0 (swap8 <$> cube_groupbys) demo_cube = Some (rc, c)
    /\ (rc = ADC_OK
        /\ frows (viewFile (c_view c)) = concat (view_of 2 1 cube_input <$> cube_groupbys)
        /\ viewSizesFile c = (fun t => (u32 (Z.shiftr t (64 - Z.of_nat 2)),
                                        Z.of_nat (length (view_of 2 1 cube_input t)))) <$> cube_groupbys
        \/ rc = ADC_WRITE_FAILED \/ rc = ADC_INTERNAL_ERROR).
Proof.
  apply (cube_correct demo_block 2 1 160 cube_input 30 30 demo_junk cube_groupbys).
  - repeat split.
  - unfold MAX_NUM_OF_DIMS. lia.
  - unfold MAX_NUM_OF_MEAS. lia.
  - lia.
  - exact cube_input_ok.
  - reflexivity.
  - exact cube_groupbys_good.
  - apply (bool_decide_unpack _). vm_compute. exact I.
  - discriminate.
Defined.

(** The small cube is computed, with the expected rows. *)
Example demo_cube_views :
  (match groupby_loop demo_junk 0 (swap8 <$> cube_groupbys) demo_cube with
   | Some (rc, c) => Some (rc, frows (viewFile (c_view c)), totchs c)
   | None => None
   end)
  = Some (ADC_OK, [Row [1] [1; 2]; Row [9] [1; 3]; Row [6] [2; 3]; Row [1] [2]; Row [15] [3];
                   Row [10] [1]; Row [6] [2]], [90]).
Proof. vm_compute. reflexivity. Qed.

(** A view can be rolled up.  If the dimensions of the groupby [t] are among
    those of [t'], then the dimension numbers [GetRegTupleFromParent] computes
    relative to [t'] are valid for the rows of the view of [t'], and projecting
    and aggregating that view gives the view of [t]. *)
Theorem rollup_correct nd nm input t t' :
  (1 <= nd <= MAX_NUM_OF_DIMS)%nat -> Forall (row_ok nd nm) input ->
  subset (tuple32 t nd) (tuple32 t' nd) = true ->
  let rel := GetRegTupleFromParent t (tuple32 t' nd) nd in
  length rel = length (GetRegTupleFromBin64 t nd)
  /\ sel_ok (length (GetRegTupleFromBin64 t' nd)) rel
  /\ aggregate (length (GetRegTupleFromBin64 t nd)) nm (project rel <$> view_of nd nm input t')
     = view_of nd nm input t.
Proof. intros Hnd Hin. by apply view_of_parent. Qed.

Lemma rollup_correct_witness :
  aggregate 1 1 (project [2%nat] <$> view_of 2 1 cube_input (2 ^ 63 + 2 ^ 62))
  = view_of 2 1 cube_input (2 ^ 62).
Proof.
  apply (rollup_correct 2 1 cube_input (2 ^ 62) (2 ^ 63 + 2 ^ 62)).
  - unfold MAX_NUM_OF_DIMS. lia.
  - exact cube_input_ok.
  - reflexivity.
Defined.

(** Bit tuples and dimension lists are two forms of the same groupby:
    [GetRegTupleFromBin64] lists the dimensions of a tuple in increasing order
    and [CreateBinTuple] gives the tuple back, and every increasing list of
    dimension numbers comes back from the tuple it creates. *)
Theorem tuple_round_trip n t sel :
  (1 <= n <= 64)%nat -> tuple_ok n t -> StronglySorted lt sel -> sel_ok n sel ->
  CreateBinTuple (GetRegTupleFromBin64 t n) = t
  /\ GetRegTupleFromBin64 (CreateBinTuple sel) n = sel
  /\ StronglySorted lt (GetRegTupleFromBin64 t n) /\ sel_ok n (GetRegTupleFromBin64 t n).
Proof.
  intros Hn Ht Hs Hr. split_and!.
  - by apply bin_of_reg.
  - apply reg_of_bin; auto. lia.
  - apply reg_tuple_sorted. lia.
  - apply reg_tuple_sorted. lia.
Qed.

Lemma tuple_round_trip_witness :
  CreateBinTuple (GetRegTupleFromBin64 (2 ^ 63 + 2 ^ 61) 3) = 2 ^ 63 + 2 ^ 61
  /\ GetRegTupleFromBin64 (CreateBinTuple [1%nat; 3%nat]) 3 = [1%nat; 3%nat].
Proof.
  destruct (tuple_round_trip 3 (2 ^ 63 + 2 ^ 61) [1%nat; 3%nat]) as (H1 & H2 & _).
  - lia.
  - split; [split; [discriminate|reflexivity]|reflexivity].
  - repeat constructor; lia.
  - repeat constructor; lia.
  - auto.
Defined.

(** The number of dimensions of a view is the number of ones of its tuple:
    [NumberOfOnes] counts the bits of a 64-bit word, and for the 32-bit form of
    a tuple it is the length of the dimension list. *)
Theorem NumberOfOnes_correct s t n :
  (1 <= n <= 32)%nat ->
  NumberOfOnes s = Z.of_nat (length (List.filter (fun i => Z.testbit s (64 - Z.of_nat i)) (seq 1 64)))
  /\ NumberOfOnes (tuple32 t n) = Z.of_nat (length (GetRegTupleFromBin64 t n)).
Proof. intros Hn. split; [apply NumberOfOnes_spec|by apply NumberOfOnes_tuple32]. Qed.

Lemma NumberOfOnes_correct_witness :
  NumberOfOnes (tuple32 (2 ^ 63 + 2 ^ 61) 3)
  = Z.of_nat (length (GetRegTupleFromBin64 (2 ^ 63 + 2 ^ 61) 3)).
Proof. apply (NumberOfOnes_correct 0 (2 ^ 63 + 2 ^ 61) 3). lia. Defined.

(** The masks of the parent search.  [setLeadingOnes32 n] has exactly the
    [n] leading bits set, although it is computed with a signed shift;
    [Mlo32 x] is the number of leading zeros of [x] and [32 - mro32 x] the
    number of its trailing zeros. *)
Theorem mask_routines n x :
  0 <= n <= 32 ->
  setLeadingOnes32 n = 2 ^ 32 - 2 ^ (32 - n)
  /\ (0 <= Mlo32 x <= 32 /\ (forall j, 31 - Mlo32 x < j < 32 -> Z.testbit x j = false)
      /\ (Mlo32 x < 32 -> Z.testbit x (31 - Mlo32 x) = true))
  /\ (0 <= mro32 x <= 32 /\ (forall j, 0 <= j < 32 - mro32 x -> Z.testbit x j = false)
      /\ (0 < mro32 x -> Z.testbit x (32 - mro32 x) = true)).
Proof.
  intros Hn. split; [by apply setLeadingOnes32_spec|]. split; [apply Mlo32_spec|apply mro32_spec].
Qed.

Lemma mask_routines_witness : setLeadingOnes32 3 = 2 ^ 32 - 2 ^ (32 - 3).
Proof. apply (mask_routines 3 0). lia. Defined.

(** [NumOfCombsFromNbyK] computes the binomial coefficient exactly, without
    overflow of its 32-bit arithmetic, for all cubes the benchmark supports. *)
Theorem NumOfCombs_correct n k :
  (n <= MAX_NUM_OF_DIMS)%nat -> NumOfCombsFromNbyK n k = binom n k.
Proof. apply NumOfCombs_binom. Qed.

Lemma NumOfCombs_correct_witness : NumOfCombsFromNbyK 20 10 = binom 20 10.
Proof. apply (NumOfCombs_correct 20 10). unfold MAX_NUM_OF_DIMS. lia. Defined.

(** The layers tile the job pool.  In the pool [NewAdcViewCntl] allocates,
    layer [l] starts where layer [l-1] ends and has room for all groupbys of
    [l] dimensions, the last layer ends at the end of the array, and any list
    of distinct groupbys of [l] dimensions fits layer [l]. *)
Theorem layers_tile garbage level off rows par g nd l ts :
  (1 <= nd <= MAX_NUM_OF_DIMS)%nat -> (1 <= l <= nd)%nat -> NoDup ts ->
  Forall (fun t => tuple_ok nd t /\ length (GetRegTupleFromBin64 t nd) = l) ts ->
  let p := new_pool garbage level off rows par g nd in
  lpp p !! l = Some (mkLayer (layer_start nd l) (slots nd l) 0)
  /\ layer_start nd (S l) = (layer_start nd l + slots nd l)%nat
  /\ (layer_start nd l + slots nd l <= length (jpp p))%nat
  /\ layer_start nd (S nd) = length (jpp p)
  /\ (length ts <= slots nd l)%nat.
Proof.
  intros Hnd Hl Hdup Hts p. unfold MAX_NUM_OF_DIMS in Hnd.
  pose proof (new_pool_rep garbage level off rows par g nd Hnd) as Hp. fold p in Hp.
  split_and!.
  - apply (pr_layer _ _ Hp). exact Hl.
  - done.
  - rewrite (pr_jobs _ _ Hp). cbn [nTopDims new_pool p]. rewrite <- layer_start_total.
    apply layer_start_mono. lia.
  - rewrite (pr_jobs _ _ Hp). apply layer_start_total.
  - apply groupbys_fit; auto. lia.
Qed.

Lemma layers_tile_witness :
  let p := new_pool (mkLayer 0 0 0) 0 0 0 0 0 3 in
  lpp p !! 2%nat = Some (mkLayer (layer_start 3 2) (slots 3 2) 0) /\ layer_start 3 4 = length (jpp p).
Proof.
  destruct (layers_tile (mkLayer 0 0 0) 0 0 0 0 0 3 2 []) as (H1 & _ & _ & H2 & _).
  - unfold MAX_NUM_OF_DIMS. lia.
  - lia.
  - constructor.
  - constructor.
  - split; [exact H1|exact H2].
Defined.

(** [JobPoolUpdate] records a new view at the end of its layer, inside the
    array, and leaves the views of all layers that were there before. *)
Theorem JobPoolUpdate_correct p made nv rows off :
  pool_rep p made -> (1 <= nv <= nTopDims p)%nat -> (length (made nv) < slots (nTopDims p) nv)%nat ->
  exists p', JobPoolUpdate nv rows off p = Some p'
    /\ pool_rep p' (add_made nv (mkJob (groupby p) nv rows off) made)
    /\ nTopDims p' = nTopDims p /\ groupby p' = groupby p.
Proof. apply JobPoolUpdate_run. Qed.

Definition demo_pool : pool := new_pool (mkLayer 0 0 0) 0 0 0 0 (2 ^ 31) 2.

Lemma demo_pool_rep : pool_rep demo_pool (fun _ => []).
Proof. apply new_pool_rep. lia. Qed.

Lemma JobPoolUpdate_correct_witness :
  exists p', JobPoolUpdate 1 7 0 demo_pool = Some p'
    /\ pool_rep p' (add_made 1 (mkJob (2 ^ 31) 1 7 0) (fun _ => [])).
Proof.
  destruct (JobPoolUpdate_correct demo_pool (fun _ => []) 1 7 0 demo_pool_rep) as (p' & H1 & H2 & _).
  - cbn. lia.
  - apply Nat.ltb_lt. reflexivity.
  - exists p'. auto.
Defined.

(** [GetParent] finds a parent if there is one.  It never reads outside the
    pool.  If it reports a parent, the parent fields describe a made view
    whose dimensions include those of the new groupby, in the lowest layer
    that has one, and among the views of the preferred kind in that layer
    (prefixed, shared sort, any) one with the fewest rows.  If it reports
    [noneParent], no made view includes the groupby. *)
Theorem GetParent_correct p made l :
  pool_rep p made -> NumberOfOnes (groupby p) = Z.of_nat l -> (1 <= l <= nTopDims p)%nat ->
  let bin := groupby p in
  exists k p', GetParent bin p = Some (k, p') /\
    (k <> noneParent
     /\ found_parent p made bin (setLeadingOnes32 (mro32 bin)) (SetOneBit32 0 (Mlo32 bin))
          (setLeadingOnes32 (Mlo32 bin)) l (S (nTopDims p)) k p'
     \/ k = noneParent /\ p' = p
        /\ forall l', (l <= l' <= nTopDims p)%nat -> none_at made (above p) l').
Proof.
  intros Hp Hones Hl bin. unfold GetParent, bin. rewrite Hones, Nat2Z.id.
  edestruct (GetParent_levels_spec p made Hp) as (k & p' & Hrun & Hres); [| |rewrite Hrun]; [lia|lia|].
  exists k, p'. split; [done|].
  replace (l + (S (nTopDims p) - l))%nat with (S (nTopDims p)) in Hres by lia.
  destruct Hres as [Hf|(-> & -> & Hn)]; [by left|]. right. split_and!; auto. intros l' Hl'. apply Hn. lia.
Qed.

Lemma GetParent_correct_witness :
  exists k p', GetParent (2 ^ 31) demo_pool = Some (k, p').
Proof.
  destruct (GetParent_correct demo_pool (fun _ => []) 1 demo_pool_rep) as (k & p' & H1 & _).
  - reflexivity.
  - cbn. lia.
  - exists k, p'. exact H1.
Defined.

(** [GetSmallestParent] and [GetPrefixedParent] search the same pool for one
    kind of parent: each reports a made view of its kind, with the fewest rows
    in the lowest layer that has one, exactly when there is one. *)
Theorem one_parent_correct p made bin l :
  pool_rep p made -> NumberOfOnes bin = Z.of_nat l -> (1 <= l <= nTopDims p)%nat ->
  let tm := setLeadingOnes32 (mro32 (groupby p)) in
  let result P b p' :=
    b = true /\ search_found p made P l (S (nTopDims p)) p'
    \/ b = false /\ p' = p /\ forall l', (l <= l' <= nTopDims p)%nat -> none_at made P l' in
  (exists b p', GetSmallestParent bin p = Some (b, p')
     /\ result (fun e => above p e && true) b p')
  /\ (exists b p', GetPrefixedParent bin p = Some (b, p')
     /\ result (fun e => above p e && (Z.land (grpb e) tm =? bin)) b p').
Proof.
  intros Hp Hones Hl tm result.
  assert (H : forall cond, exists b p', one_levels cond (S (nTopDims p) - l) l p = Some (b, p')
     /\ result (fun e => above p e && cond (grpb e)) b p').
  { intros cond.
    destruct (one_levels_spec p made Hp cond (S (nTopDims p) - l) l ltac:(lia) ltac:(lia))
      as (b & p' & Hrun & Hres). exists b, p'. split; [done|].
    replace (l + (S (nTopDims p) - l))%nat with (S (nTopDims p)) in Hres by lia.
    destruct Hres as [Hf|(-> & -> & Hn)]; [by left|]. right. split_and!; auto.
    intros l' Hl'. apply Hn. lia. }
  unfold GetSmallestParent, GetPrefixedParent. rewrite Hones, Nat2Z.id. split.
  - apply (H (fun _ => true)).
  - apply (H (fun t => Z.land t tm =? bin)).
Qed.

Lemma one_parent_correct_witness :
  exists b p', GetSmallestParent (2 ^ 31) demo_pool = Some (b, p').
Proof.
  destruct (one_parent_correct demo_pool (fun _ => []) (2 ^ 31) 1 demo_pool_rep) as [(b & p' & H & _) _].
  - reflexivity.
  - cbn. lia.
  - exists b, p'. exact H.
Defined.

(** [swap8] and [swap4] reverse the bytes of a word, so that swapping twice
    gives the word back: what [MultiFileProcJobs] writes to the groupby file
    is what [ComputeGivenGroupbys] reads. *)
Theorem swap_involutive w w' :
  in_u 64 w -> in_u 32 w' -> swap8 (swap8 w) = w /\ swap4 (swap4 w') = w'.
Proof. intros. split; [by apply swap8_swap8|by apply swap4_swap4]. Qed.

Lemma swap_involutive_witness :
  swap8 (swap8 0x0123456789ABCDEF) = 0x0123456789ABCDEF /\ swap4 (swap4 0x01234567) = 0x01234567.
Proof. apply (swap_involutive 0x0123456789ABCDEF 0x01234567); split; discriminate || reflexivity. Defined.
