(* ===== verification/PartitionSpec.v ===== *)
(** * The partition of the cube is a partition

    Reading back what [CalculateVeiwSizes] printed gives the views; the tasks
    together get every view exactly once, evenly dealt; and every task makes
    its views in the order of decreasing dimension, so that parents come
    before children. *)

From Stdlib Require Import ZArith Lia Sorted Ascii String.
From stdpp Require Import base numbers option sorting list.
From S2P Require Import Prelude JobBits HeapSort Cube CubeSpec.

Local Open Scope string_scope.
Local Open Scope list_scope.
Local Open Scope Z_scope.

(** ** Numbers *)

Lemma digit_decimal d : 0 <= d < 10 -> digit (ascii_of_nat (48 + Z.to_nat d)) = Some d.
Proof.
  intros Hd. assert (Hn : (Z.to_nat d < 10)%nat) by lia.
  rewrite <- (Z2Nat.id d) at 2 by lia. clear Hd. revert Hn. generalize (Z.to_nat d). intros n Hn.
  do 10 (destruct n as [|n]; [reflexivity|]). lia.
Qed.

Lemma atoi_decimal_from fuel : forall n acc a, 0 <= n < 10 ^ Z.of_nat (S fuel) ->
  exists k, atoi_from a (decimal_from fuel n acc) = atoi_from (10 ^ Z.of_nat k * a + n) acc.
Proof.
  induction fuel as [|fuel IH]; intros n acc a Hn; cbn [decimal_from].
  - change (10 ^ Z.of_nat 1) with 10 in Hn. exists 1%nat.
    cbn [atoi_from]. rewrite digit_decimal by (apply Z.mod_pos_bound; lia).
    rewrite Z.mod_small by lia. done.
  - destruct (Z.ltb_spec n 10) as [H|H].
    + exists 1%nat. cbn [atoi_from]. rewrite digit_decimal by (apply Z.mod_pos_bound; lia).
      rewrite Z.mod_small by lia. done.
    + rewrite Nat2Z.inj_succ, Z.pow_succ_r in Hn by lia.
      destruct (IH (n / 10) (String (ascii_of_nat (48 + Z.to_nat (n mod 10))) acc) a) as [k ->].
      { split; [apply Z.div_pos; lia|]. apply Z.div_lt_upper_bound; lia. }
      exists (S k). cbn [atoi_from]. rewrite digit_decimal by (apply Z.mod_pos_bound; lia).
      f_equal. rewrite Nat2Z.inj_succ, Z.pow_succ_r by lia. pose proof (Z.div_mod n 10). lia.
Qed.

Lemma atoi_decimal n : 0 <= n < 10 ^ 65 -> atoi (decimal n) = n.
Proof.
  intros Hn. unfold atoi, decimal. destruct (atoi_decimal_from 64 n "" 0 Hn) as [k ->].
  cbn [atoi_from]. lia.
Qed.

(** A number is not a keyword: it starts with a digit. *)
Lemma decimal_from_head fuel : forall n acc, 0 <= n ->
  exists c s, decimal_from fuel n acc = String c s /\ digit c <> None.
Proof.
  assert (Hd : forall n, digit (ascii_of_nat (48 + Z.to_nat (n mod 10))) <> None).
  { intros n. rewrite digit_decimal; [done|]. apply Z.mod_pos_bound. lia. }
  induction fuel as [|fuel IH]; intros n acc Hn; cbn [decimal_from]; [by eauto|].
  destruct (n <? 10); [by eauto|]. apply IH. apply Z.div_pos; lia.
Qed.

Lemma decimal_not n c s : 0 <= n -> digit c = None -> String.eqb (decimal n) (String c s) = false.
Proof.
  intros Hn Hc. destruct (decimal_from_head 64 n "" Hn) as (c' & s' & E & Hd).
  unfold decimal. rewrite E. apply String.eqb_neq. intros [= -> _]. done.
Qed.

(** ** Reading the file of sizes *)

Definition view_entry (nInputRecs : Z) (v : list nat * Z) : TUPLE_VIEWSIZE :=
  mkTV (if nInputRecs <? snd v then nInputRecs else snd v) (CreateBinTuple (fst v)).

Definition view_ok (nd : nat) (v : list nat * Z) : Prop :=
  sel_ok nd (fst v) /\ StronglySorted lt (fst v) /\ fst v <> [] /\ 0 <= snd v < 2 ^ 31.

Lemma sorted_length nd sel : sel_ok nd sel -> StronglySorted lt sel -> (List.length sel <= nd)%nat.
Proof.
  intros Hr Hs. enough (H : forall a, (a <= S nd)%nat -> Forall (fun d => (a <= d <= nd)%nat) sel ->
    (List.length sel + a <= S nd)%nat) by (specialize (H 1%nat ltac:(lia) Hr); lia).
  clear Hr. induction Hs as [|d sel Hs IH Hlt]; intros a Ha Hr; cbn [List.length]; [lia|].
  inversion Hr as [|? ? Hd Hr']; subst. specialize (IH (S d)).
  enough (List.length sel + S d <= S nd)%nat by lia. apply IH; [lia|].
  apply Forall_forall. intros x Hx. rewrite Forall_forall in Hlt, Hr'.
  specialize (Hlt x Hx). specialize (Hr' x Hx). simpl in *. lia.
Qed.

Lemma read_selection_run sel : forall acc rest, (List.length acc + List.length sel <= 64)%nat ->
  Forall (fun d => (d <= 64)%nat) sel ->
  read_selection acc (((fun d => decimal (Z.of_nat d)) <$> sel) ++ "View" :: rest)
  = Some (acc ++ sel, rest).
Proof.
  induction sel as [|d sel IH]; intros acc rest Hl Hd.
  - cbn. by rewrite app_nil_r.
  - inversion Hd as [|? ? Hd0 Hd']; subst. rewrite fmap_cons. cbn [app read_selection].
    rewrite (decimal_not (Z.of_nat d) "V" "iew"); [|lia|done]. cbn [List.length] in Hl.
    destruct (Nat.ltb_spec (List.length acc) 64); [|lia].
    rewrite IH; [|rewrite length_app; cbn; lia|done].
    rewrite atoi_decimal, Nat2Z.id by (split; [lia|]; apply Z.le_lt_trans with 64; [lia|done]). by rewrite <- app_assoc.
Qed.

(** Other words are skipped. *)
Lemma read_views_skip fuel limit n sel tv w ws : String.eqb w "Selection:" = false ->
  String.eqb w "Size:" = false ->
  read_views (S fuel) limit n sel tv (w :: ws) = read_views fuel limit n sel tv ws.
Proof. intros H1 H2. cbn [read_views]. by rewrite H1, H2. Qed.

Lemma read_views_view nd fuel limit n v tv ws : (nd <= 64)%nat -> view_ok nd v ->
  (List.length tv < limit)%nat ->
  read_views (S (S fuel)) limit n [] tv (view_words v ++ ws)
  = read_views fuel limit n [] (tv ++ [view_entry n v]) ws.
Proof.
  intros Hnd (Hr & Hs & Hne & Hsz) Hlim. unfold view_words. cbn [app read_views].
  rewrite String.eqb_refl, <- app_assoc. cbn [app].
  pose proof (sorted_length nd (fst v) Hr Hs) as Hlen.
  rewrite read_selection_run; [|cbn; lia|].
  2: { eapply Forall_impl; [exact Hr|]. cbn. lia. }
  cbn [app read_views String.eqb Ascii.eqb Bool.eqb andb].
  destruct (Nat.ltb_spec (List.length tv) limit); [|lia].
  rewrite atoi_decimal by (split; [lia|]; transitivity (2 ^ 31); [lia|reflexivity]). done.
Qed.

(** What [CalculateVeiwSizes] wrote is read back. *)
Lemma read_views_run nd limit n vs : forall fuel tv tail, (nd <= 64)%nat -> Forall (view_ok nd) vs ->
  (List.length tv + List.length vs <= limit)%nat ->
  Forall (fun w => String.eqb w "Selection:" = false /\ String.eqb w "Size:" = false) tail ->
  (2 * List.length vs + List.length tail < fuel)%nat ->
  read_views fuel limit n [] tv (concat (view_words <$> vs) ++ tail) = Some (tv ++ (view_entry n <$> vs)).
Proof.
  induction vs as [|v vs IH]; intros fuel tv tail Hnd Hvs Hlim Htail Hf.
  - cbn [fmap list_fmap concat app] in *. rewrite app_nil_r. clear Hvs Hlim.
    revert fuel Hf. induction Htail as [|w tail [H1 H2] Htail IH]; intros [|fuel] Hf; cbn [List.length] in Hf.
    + lia.
    + done.
    + lia.
    + rewrite read_views_skip by done. apply IH. cbn [List.length]. lia.
  - inversion Hvs as [|? ? Hv Hvs']; subst. cbn [List.length] in *.
    destruct fuel as [|[|fuel]]; [lia|lia|].
    rewrite fmap_cons. cbn [concat]. rewrite <- app_assoc, (read_views_view nd) by (done || lia).
    rewrite IH; try done; [|rewrite length_app; cbn; lia|lia].
    by rewrite <- app_assoc.
Qed.

Lemma sizes_file_tail bytes tuples : 0 <= bytes -> 0 <= tuples ->
  Forall (fun w => String.eqb w "Selection:" = false /\ String.eqb w "Size:" = false)
    ["Total"; "in"; "bytes:"; decimal bytes; "Number"; "of"; "tuples:"; decimal tuples].
Proof. intros Hb Ht. repeat constructor; by apply decimal_not. Qed.

Lemma view_words_length v : (2 <= List.length (view_words v))%nat.
Proof. unfold view_words. cbn [List.length]. rewrite length_app. cbn. lia. Qed.

Lemma sizes_file_run nd limit n vs bytes tuples : (nd <= 64)%nat -> Forall (view_ok nd) vs ->
  (List.length vs <= limit)%nat -> 0 <= bytes -> 0 <= tuples ->
  let ws := sizes_file vs bytes tuples in
  read_views (S (List.length ws)) limit n [] [] ws = Some (view_entry n <$> vs).
Proof.
  intros Hnd Hvs Hlim Hb Ht ws. unfold ws, sizes_file.
  rewrite (read_views_run nd); [done|done|done|done|by apply sizes_file_tail|].
  rewrite length_app. enough (2 * List.length vs <= List.length (concat (view_words <$> vs)))%nat
    by (cbn [List.length]; lia).
  clear. induction vs as [|v vs IH]; [done|]. rewrite fmap_cons. cbn [concat List.length].
  rewrite length_app. pose proof (view_words_length v). lia.
Qed.

(** ** The deal *)

(** The views task [q] gets. *)
Fixpoint dealt (nTasks q : nat) (st : nat * bool) (views : list TUPLE_VIEWSIZE) : list TUPLE_VIEWSIZE :=
  match views with
  | [] => []
  | v :: views' =>
      let rest := dealt nTasks q (snake_step nTasks st) views' in
      if (fst st =? q)%nat then v :: rest else rest
  end.

Lemma snake_step_bound nTasks st : (fst st < nTasks)%nat -> (fst (snake_step nTasks st) < nTasks)%nat.
Proof.
  destruct st as [pn d]. unfold snake_step. cbn [fst]. intros H.
  destruct d; cbn [negb andb]; repeat (case_match; simplify_eq/=); try lia;
    repeat match goal with H : (_ =? _)%nat = false |- _ => apply Nat.eqb_neq in H end; lia.
Qed.

Lemma dealt_length nTasks q views : forall st,
  (List.length (dealt nTasks q st views) <= List.length views)%nat.
Proof.
  induction views as [|v views IH]; intros st; cbn [dealt List.length]; [lia|].
  specialize (IH (snake_step nTasks st)). case_match; cbn [List.length]; lia.
Qed.

Lemma deal_run nTasks task room views : forall st gbuf ns,
  (fst st < nTasks)%nat -> List.length ns = nTasks ->
  (List.length gbuf + List.length (dealt nTasks task st views) <= room)%nat ->
  exists ns', deal nTasks task room st views gbuf ns
      = Some (gbuf ++ (tv_tuple <$> dealt nTasks task st views), ns')
    /\ forall q, (q < nTasks)%nat ->
        ns' !! q = (fun n => (n + List.length (dealt nTasks q st views))%nat) <$> ns !! q.
Proof.
  induction views as [|v views IH]; intros st gbuf ns Hst Hns Hroom; cbn [deal dealt] in *.
  - exists ns. split; [by rewrite app_nil_r|]. intros q Hq.
    destruct (ns !! q); cbn; [|done]. f_equal. lia.
  - destruct (lookup_lt_is_Some_2 ns (fst st)) as [n Hn]; [lia|]. rewrite Hn.
    destruct (IH (snake_step nTasks st) (if (fst st =? task)%nat then gbuf ++ [tv_tuple v] else gbuf)
      (<[fst st := S n]> ns)) as (ns' & Hrun & Hc).
    + by apply snake_step_bound.
    + by rewrite length_insert.
    + destruct (fst st =? task)%nat; [|done]. rewrite length_app. cbn [List.length] in *. lia.
    + exists ns'. split.
      * destruct (fst st =? task)%nat; cbn [andb]; [|done].
        destruct (Nat.leb_spec room (List.length gbuf)); [cbn [List.length] in Hroom; lia|].
        rewrite Hrun. by rewrite <- app_assoc.
      * intros q Hq. rewrite Hc by done. destruct (Nat.eqb_spec (fst st) q) as [<-|Hne].
        -- rewrite list_lookup_insert_eq by lia. rewrite Hn. cbn. f_equal. lia.
        -- by rewrite list_lookup_insert_ne.
Qed.

(** A task beyond their number gets nothing. *)
Lemma dealt_beyond nTasks q views : forall st, (fst st < nTasks <= q)%nat -> dealt nTasks q st views = [].
Proof.
  induction views as [|v views IH]; intros st H; cbn [dealt]; [done|].
  pose proof (snake_step_bound nTasks st ltac:(lia)). rewrite IH by lia. by rewrite (proj2 (Nat.eqb_neq _ _)) by lia.
Qed.

(** The tasks share the views out among them. *)
Lemma concat_insert_one {A} (f g : nat -> list A) (v : A) a m : forall b, (b <= a < b + m)%nat ->
  g a = v :: f a -> (forall q, q <> a -> g q = f q) ->
  concat (g <$> seq b m) ≡ₚ v :: concat (f <$> seq b m).
Proof.
  induction m as [|m IH]; intros b Ha Hga Hg; [lia|]. cbn [seq]. rewrite !fmap_cons. cbn [concat].
  destruct (decide (a = b)) as [->|Hne].
  - rewrite Hga. cbn [app]. apply Permutation_cons; [done|]. apply Permutation_app_head. erewrite list_fmap_ext; [done|].
    intros i q Hq. apply lookup_seq in Hq. apply Hg. lia.
  - rewrite (Hg b) by done. rewrite (IH (S b)) by (done || lia). by rewrite Permutation_middle.
Qed.

Lemma dealt_partition nTasks views : forall st, (fst st < nTasks)%nat ->
  concat ((fun q => dealt nTasks q st views) <$> seq 0 nTasks) ≡ₚ views.
Proof.
  induction views as [|v views IH]; intros st Hst.
  - cbn [dealt]. generalize (seq 0 nTasks). intros l. by induction l.
  - rewrite (concat_insert_one (fun q => dealt nTasks q (snake_step nTasks st) views) _ v (fst st)).
    + f_equiv. apply IH. by apply snake_step_bound.
    + lia.
    + cbn [dealt]. by rewrite Nat.eqb_refl.
    + intros q Hq. cbn [dealt]. by destruct (Nat.eqb_spec (fst st) q).
Qed.

(** The counts while the deal goes up or down, [k] full passes being over. *)
Definition snake_counts (nTasks k : nat) (st : nat * bool) (c : nat -> nat) : Prop :=
  forall q, (q < nTasks)%nat -> c q = if if snd st then (fst st <? q)%nat else (q <? fst st)%nat
                                      then S k else k.

Lemma snake_counts_step nTasks k st c : (fst st < nTasks)%nat -> snake_counts nTasks k st c ->
  exists k', snake_counts nTasks k' (snake_step nTasks st)
    (fun q => if (fst st =? q)%nat then S (c q) else c q).
Proof.
  intros Hst Hc. unfold snake_counts in *. destruct st as [pn d]. cbn [fst snd] in *.
  assert (Hb : exists k', forall q, (q < nTasks)%nat ->
    (if (pn =? q)%nat then S (c q) else c q)
    = if if snd (snake_step nTasks (pn, d)) then (fst (snake_step nTasks (pn, d)) <? q)%nat
         else (q <? fst (snake_step nTasks (pn, d)))%nat then S k' else k'); [|exact Hb].
  unfold snake_step.
  destruct d; cbn [negb andb];
    [destruct (Nat.eqb_spec pn 0)|destruct (Nat.eqb_spec pn (nTasks - 1)); [destruct (Nat.eqb_spec pn 0)|]];
    cbn [andb negb fst snd]; try (destruct (Nat.eqb_spec pn 0); [lia|]); cbn [andb negb fst snd];
    [exists (S k)|exists k|exists (S k)|exists (S k)|exists k];
    intros q Hq; rewrite (Hc q Hq);
    destruct (Nat.eqb_spec pn q); repeat case_match; try lia;
    repeat match goal with
      | H : (_ <? _)%nat = true |- _ => apply Nat.ltb_lt in H
      | H : (_ <? _)%nat = false |- _ => apply Nat.ltb_ge in H
    end; lia.
Qed.

Lemma dealt_balanced nTasks views : forall st k c, (fst st < nTasks)%nat -> snake_counts nTasks k st c ->
  exists k', forall q, (q < nTasks)%nat ->
    (k' <= c q + List.length (dealt nTasks q st views) <= S k')%nat.
Proof.
  induction views as [|v views IH]; intros st k c Hst Hc.
  - exists k. intros q Hq. rewrite (Hc q Hq). cbn [dealt List.length]. case_match; lia.
  - destruct (snake_counts_step nTasks k st c Hst Hc) as [k1 Hc1].
    destruct (IH _ _ _ (snake_step_bound _ _ Hst) Hc1) as [k' Hk]. exists k'. intros q Hq.
    specialize (Hk q Hq). cbn [dealt]. destruct (Nat.eqb_spec (fst st) q); cbn [List.length] in *; lia.
Qed.

Lemma dealt_even nTasks views q q' : (q < nTasks)%nat -> (q' < nTasks)%nat ->
  (List.length (dealt nTasks q (0%nat, false) views)
   <= S (List.length (dealt nTasks q' (0%nat, false) views)))%nat.
Proof.
  intros Hq Hq'. destruct (dealt_balanced nTasks views (0%nat, false) 0 (fun _ => 0%nat)) as [k Hk].
  - cbn. lia.
  - by intros q0 _.
  - pose proof (Hk q Hq). pose proof (Hk q' Hq'). lia.
Qed.

(** ** The tuples *)

Lemma countTupleOnes_loop_spec t nd n : forall i c, (nd <= 64)%nat -> (i + n = nd)%nat ->
  0 <= c -> c + Z.of_nat n < 2 ^ 32 ->
  countTupleOnes_loop n (Z.shiftr t (64 - Z.of_nat nd)) (2 ^ Z.of_nat i) c
  = c + Z.of_nat (List.length (List.filter (has_dim 63 t) (seq 1 n))).
Proof.
  induction n as [|n IH]; intros i c Hnd Hi Hc Hb; [simpl; lia|].
  cbn [countTupleOnes_loop]. rewrite seq_S, length_filter_app, hits_pow2, Z.shiftr_spec by lia.
  assert (Hd : Z.testbit t (Z.of_nat i + (64 - Z.of_nat nd)) = has_dim 63 t (1 + n))
    by (unfold has_dim; f_equal; lia).
  rewrite Hd, (wrapu_id 32) by (unfold in_u; lia).
  assert (Hnext : forall c', 0 <= c' -> c' + Z.of_nat n < 2 ^ 32 ->
    countTupleOnes_loop n (Z.shiftr t (64 - Z.of_nat nd)) (u64 (Z.shiftl (2 ^ Z.of_nat i) 1)) c'
    = c' + Z.of_nat (List.length (List.filter (has_dim 63 t) (seq 1 n)))).
  { intros c' H1 H2. destruct n as [|n]; [simpl; lia|]. rewrite Z.shiftl_mul_pow2 by lia.
    change (2 ^ 1) with 2. rewrite Z.mul_comm, <- Z.pow_succ_r, <- Nat2Z.inj_succ by lia.
    rewrite (wrapu_id 64); [apply IH; lia|]. split; [lia|]. apply Z.pow_lt_mono_r; lia. }
  cbn [List.filter].
  destruct (has_dim 63 t (1 + n)); rewrite Hnext by lia; cbn [List.length]; lia.
Qed.

Lemma countTupleOnes_spec t nd : (nd <= 64)%nat ->
  countTupleOnes (Z.shiftr t (64 - Z.of_nat nd)) nd = Z.of_nat (List.length (GetRegTupleFromBin64 t nd)).
Proof.
  intros Hnd. unfold countTupleOnes. change 1 with (2 ^ Z.of_nat 0).
  rewrite countTupleOnes_loop_spec, GetRegTupleFromBin64_filter by lia. lia.
Qed.

Lemma shift_back t nd : (nd <= 64)%nat -> tuple_ok nd t ->
  u64 (Z.shiftl (Z.shiftr t (64 - Z.of_nat nd)) (64 - Z.of_nat nd)) = t.
Proof.
  intros Hnd [Hr Hm]. rewrite Z.shiftl_mul_pow2, Z.shiftr_div_pow2 by lia.
  replace (t / 2 ^ (64 - Z.of_nat nd) * 2 ^ (64 - Z.of_nat nd)) with t; [by apply wrapu_id|].
  pose proof (Z.div_mod t (2 ^ (64 - Z.of_nat nd)) ltac:(lia)). lia.
Qed.

Lemma CreateBinTuple_ok nd sel : (1 <= nd <= 64)%nat -> sel_ok nd sel -> tuple_ok nd (CreateBinTuple sel).
Proof.
  intros Hnd Hr.
  assert (Hr64 : Forall (fun d => (1 <= d <= 64)%nat) sel)
    by (eapply Forall_impl; [exact Hr|]; simpl; lia).
  assert (Hbit : forall j, 0 <= j -> Z.testbit (CreateBinTuple sel) j = true ->
    64 - Z.of_nat nd <= j < 64).
  { intros j Hj. unfold CreateBinTuple. rewrite CreateBinTuple_bit, Z.bits_0 by done. cbn [orb].
    intros (d & Hd & E%Z.eqb_eq)%existsb_exists. rewrite <- list_elem_of_In in Hd.
    unfold sel_ok in Hr. rewrite Forall_forall in Hr. specialize (Hr d Hd). simpl in Hr. lia. }
  assert (Hlow : CreateBinTuple sel mod 2 ^ (64 - Z.of_nat nd) = 0).
  { apply Z.bits_inj'. intros j Hj. rewrite Z.bits_0. destruct (Z.lt_ge_cases j (64 - Z.of_nat nd)).
    - rewrite Z.mod_pow2_bits_low by lia. apply not_true_is_false. intros E%Hbit; lia.
    - apply Z.mod_pow2_bits_high. lia. }
  split; [|done]. assert (E : CreateBinTuple sel = CreateBinTuple sel mod 2 ^ 64).
  { apply Z.bits_inj'. intros j Hj. destruct (Z.lt_ge_cases j 64).
    - by rewrite Z.mod_pow2_bits_low by lia.
    - rewrite Z.mod_pow2_bits_high by lia. apply not_true_is_false. intros E%Hbit; lia. }
  rewrite E. apply Z.mod_pos_bound. lia.
Qed.

(** ** One task *)

Definition dims_of (nd : nat) (t : Z) : Z := Z.of_nat (List.length (GetRegTupleFromBin64 t nd)).

(** The order of the groupby file: no view comes after one with fewer
    dimensions. *)
Definition by_dims (nd : nat) : list Z -> Prop := StronglySorted (fun t t' => dims_of nd t' <= dims_of nd t).

Lemma StronglySorted_rev_map {A B} (R : A -> A -> Prop) (R' : B -> B -> Prop) (f : A -> B) l :
  StronglySorted R l -> (forall a b, a ∈ l -> b ∈ l -> R a b -> R' (f b) (f a)) ->
  StronglySorted R' (f <$> rev l).
Proof.
  induction 1 as [|a l Hs IH Ha]; intros Hf; [constructor|]. cbn [rev]. rewrite fmap_app.
  apply StronglySorted_app_2.
  - intros x1 x2 (y & -> & Hy)%list_elem_of_fmap ->%list_elem_of_singleton.
    rewrite list_elem_of_In, <- in_rev, <- list_elem_of_In in Hy.
    rewrite Forall_forall in Ha. apply Hf; [by left|by right|]. by apply Ha.
  - apply IH. intros b c Hb Hc. apply Hf; by right.
  - repeat constructor.
Qed.

Lemma lookup_repeat0 {A} (a : A) n : forall q, (q < n)%nat -> repeat a n !! q = Some a.
Proof. induction n as [|n IH]; intros [|q] Hq; cbn; [lia|lia|done|]. apply IH. lia. Qed.

Lemma dealt_fmap nTasks q f views : forall st,
  dealt nTasks q st (f <$> views) = f <$> dealt nTasks q st views.
Proof.
  induction views as [|v views IH]; intros st; [done|]. rewrite fmap_cons. cbn [dealt].
  rewrite IH. by case_match.
Qed.

Definition ones_entry (nd : nat) (t : Z) : TUPLE_ONES :=
  let t' := Z.shiftr t (64 - Z.of_nat nd) in mkTO (countTupleOnes t' nd) t'.

Definition entry_tuple (nd : nat) (e : TUPLE_ONES) : Z := u64 (Z.shiftl (to_tuple e) (64 - Z.of_nat nd)).

Lemma onessort_groupbys nd ts : (1 <= nd <= 64)%nat -> Forall (tuple_ok nd) ts ->
  exists toptr, onessort (ones_entry nd <$> ts) (List.length ts) = Some toptr
    /\ (entry_tuple nd <$> rev toptr) ≡ₚ ts /\ by_dims nd (entry_tuple nd <$> rev toptr).
Proof.
  intros Hnd Hok. destruct (heap_sort_run nOnes (ones_entry nd <$> ts)) as (toptr & Hrun & Hp & Hs).
  rewrite length_fmap in Hrun. exists toptr. split; [exact Hrun|]. split.
  - rewrite <- (Permutation_rev toptr), Hp, <- list_fmap_compose.
    erewrite list_fmap_ext; [by rewrite list_fmap_id|]. intros i t Ht. cbn. apply shift_back; [lia|].
    by apply (Forall_lookup_1 _ _ _ _ Hok Ht).
  - apply StronglySorted_rev_map with (1 := Hs). intros a b Ha Hb.
    rewrite Hp in Ha, Hb. rewrite Forall_forall in Hok.
    apply list_elem_of_fmap in Ha as (ta & -> & Hta). apply list_elem_of_fmap in Hb as (tb & -> & Htb).
    unfold ones_entry, entry_tuple. cbn [nOnes to_tuple].
    rewrite !countTupleOnes_spec, !shift_back by (auto || lia). done.
Qed.

Lemma MultiFileProcJobs_run nd nTasks task mem (views : list TUPLE_VIEWSIZE) :
  (1 <= nd <= 64)%nat -> (1 <= nTasks <= MAX_NUMBER_OF_TASKS)%nat -> Z.of_nat (List.length views) <= mem / 8 ->
  Forall (fun v => tuple_ok nd (tv_tuple v)) views ->
  exists out, MultiFileProcJobs nd nTasks task mem
      ((fun e => mkTV (viewsize e) (Z.shiftr (tv_tuple e) (64 - Z.of_nat nd))) <$> views)
      = Some (swap8 <$> out)
    /\ out ≡ₚ tv_tuple <$> dealt nTasks task (0%nat, false) (rev views) /\ by_dims nd out.
Proof.
  intros Hnd Htasks Hmem Hok. unfold MultiFileProcJobs. set (sh := fun e => mkTV _ _).
  rewrite (proj2 (Nat.ltb_ge _ _)) by lia.
  rewrite <- map_rev. change (map sh (rev views)) with (sh <$> rev views).
  set (mine := dealt nTasks task (0%nat, false) (rev views)).
  assert (Hmine : Forall (tuple_ok nd) (tv_tuple <$> mine)).
  { destruct (Nat.lt_ge_cases task nTasks) as [Htask|Htask]; [|unfold mine; rewrite dealt_beyond by (cbn; lia); constructor].
    apply Forall_fmap, Forall_forall. intros v Hv. rewrite Forall_forall in Hok. apply Hok.
    rewrite list_elem_of_In, in_rev, <- list_elem_of_In.
    rewrite <- (dealt_partition nTasks (rev views) (0%nat, false)) by (cbn; lia).
    rewrite list_elem_of_In, in_concat. exists mine. rewrite <- !list_elem_of_In. split; [|done].
    apply list_elem_of_fmap. exists task. split; [done|]. apply elem_of_seq. lia. }
  destruct (deal_run nTasks task (Z.to_nat (mem / 8)) (sh <$> rev views) (0%nat, false) []
    (repeat 0%nat nTasks)) as (ns & Hrun & Hns).
  - cbn. lia.
  - apply repeat_length.
  - pose proof (dealt_length nTasks task (sh <$> rev views) (0%nat, false)) as Hl.
    rewrite length_fmap, length_rev in Hl. cbn [List.length]. lia.
  - rewrite Hrun. cbn [app]. destruct (Nat.ltb_spec task nTasks) as [Htask|Htask].
    2:{ exists []. unfold mine. rewrite dealt_beyond by (cbn; lia). split_and!; [done|done|constructor]. }
    rewrite Hns by done. rewrite lookup_repeat0, !dealt_fmap by done. cbn [fmap option_fmap option_map].
    fold mine. rewrite length_fmap.
    destruct (onessort_groupbys nd (tv_tuple <$> mine) Hnd Hmine) as (toptr & Hsort & Hp & Hd).
    rewrite length_fmap in Hsort. rewrite <- !list_fmap_compose in *.
    cbn [Nat.add]. unfold compose in *. cbn [tv_tuple sh] in *. unfold ones_entry in Hsort. cbn [id]. rewrite Hsort.
    exists (entry_tuple nd <$> rev toptr). split; [by rewrite <- list_fmap_compose|done].
Qed.

(** ** All tasks *)

Definition view_tuple (v : list nat * Z) : Z := CreateBinTuple (fst v).

Lemma view_entries_tuples n (vs : list (list nat * Z)) : tv_tuple <$> (view_entry n <$> vs) = view_tuple <$> vs.
Proof. by rewrite <- list_fmap_compose. Qed.

Lemma view_tuple_ok nd v : (1 <= nd <= 64)%nat -> view_ok nd v -> tuple_ok nd (view_tuple v).
Proof. intros Hnd (Hr & _). by apply CreateBinTuple_ok. Qed.

(** The order in which the views are dealt: from the largest to the smallest. *)
Lemma vszsort_views n (vs : list (list nat * Z)) : exists tv,
  vszsort (view_entry n <$> vs) (List.length (view_entry n <$> vs)) = Some tv
  /\ tv ≡ₚ view_entry n <$> vs /\ StronglySorted (fun a b => viewsize a <= viewsize b) tv.
Proof. apply heap_sort_run. Qed.

Lemma PartitionCube_run nd nTasks mem n (vs : list (list nat * Z)) bytes tuples :
  (1 <= nd <= 64)%nat -> (1 <= nTasks <= MAX_NUMBER_OF_TASKS)%nat -> Forall (view_ok nd) vs -> (List.length vs <= 2 ^ nd - 1)%nat ->
  Z.of_nat (List.length vs) <= mem / 8 -> 0 <= bytes -> 0 <= tuples ->
  exists tv, tv ≡ₚ view_entry n <$> vs /\ StronglySorted (fun a b => viewsize a <= viewsize b) tv
    /\ forall task, exists out,
      PartitionCube nd nTasks task mem n (sizes_file vs bytes tuples) = Some (swap8 <$> out)
      /\ out ≡ₚ tv_tuple <$> dealt nTasks task (0%nat, false) (rev tv) /\ by_dims nd out.
Proof.
  intros Hnd Htasks Hvs Hlim Hmem Hb Ht. destruct (vszsort_views n vs) as (tv & Hsort & Hp & Hs).
  exists tv. split_and!; [done|done|]. intros task. unfold PartitionCube.
  rewrite (sizes_file_run nd) by (done || lia). rewrite Hsort.
  apply MultiFileProcJobs_run; [done|done| |].
  - rewrite Hp, length_fmap. done.
  - rewrite Hp. apply Forall_fmap. eapply Forall_impl; [exact Hvs|]. intros v Hv. by apply view_tuple_ok.
Qed.
