(* ===== verification/PartitionTheorems.v ===== *)
(** * Theorems about the partition of the cube

    The heap sorts, the distribution of the views over the tasks, and the
    whole of a parallel run: the tasks together compute the cube. *)

From Stdlib Require Import ZArith Lia Sorted String.
From stdpp Require Import base gmap numbers option sorting list.
From S2P Require Import Prelude Rows RBTree RBSpec ViewFiles ExtSort BuildSpec JobBits JobPool JobPoolSpec HeapSort Cube CubeSpec CubeTheorems PartitionSpec.

(** Both heap sorts of DC/jobcntl.c sort: they stay inside the array, end,
    return a permutation of the records, and the key field (the view size, the
    number of ones) does not decrease. *)
Theorem heap_sorts_correct (x : list TUPLE_VIEWSIZE) (y : list TUPLE_ONES) :
  (exists x', vszsort x (List.length x) = Some x' /\ x' ≡ₚ x
     /\ StronglySorted (fun a b => viewsize a <= viewsize b) x')
  /\ (exists y', onessort y (List.length y) = Some y' /\ y' ≡ₚ y
     /\ StronglySorted (fun a b => nOnes a <= nOnes b) y').
Proof. split; apply heap_sort_run. Qed.

Lemma dealt_views_perm (nTasks : nat) (tv : list TUPLE_VIEWSIZE) : (0 < nTasks)%nat ->
  concat ((fun q => tv_tuple <$> dealt nTasks q (0%nat, false) (rev tv)) <$> seq 0 nTasks)
  ≡ₚ tv_tuple <$> tv.
Proof.
  intros H.
  transitivity (tv_tuple <$> concat ((fun q => dealt nTasks q (0%nat, false) (rev tv)) <$> seq 0 nTasks)).
  2: { rewrite dealt_partition by (cbn; lia). by rewrite <- Permutation_rev. }
  generalize (seq 0 nTasks). intros l. induction l as [|q l IH]; [done|].
  rewrite !fmap_cons. cbn [concat]. rewrite fmap_app. by f_equiv.
Qed.

Lemma concat_perm {A} (f g : nat -> list A) l : (forall q, q ∈ l -> f q ≡ₚ g q) ->
  concat (f <$> l) ≡ₚ concat (g <$> l).
Proof.
  intros H. induction l as [|q l IH]; [done|]. rewrite !fmap_cons. cbn [concat].
  rewrite (H q) by left. rewrite IH; [done|]. intros. apply H. by right.
Qed.

(** A task per number below [nTasks], from what each of them has. *)
Lemma collect {A} (P : nat -> A -> Prop) n : (forall q, (q < n)%nat -> exists a, P q a) ->
  A -> exists f : nat -> A, forall q, (q < n)%nat -> P q (f q).
Proof.
  intros H a0. induction n as [|n IH].
  - exists (fun _ => a0). lia.
  - destruct IH as [f Hf]; [intros; apply H; lia|]. destruct (H n ltac:(lia)) as [a Ha].
    exists (fun q => if (q =? n)%nat then a else f q). intros q Hq.
    destruct (Nat.eqb_spec q n) as [->|]; [done|]. apply Hf. lia.
Qed.

Lemma concat_beyond {A} (f : nat -> list A) k m : (forall q, (k <= q)%nat -> f q = []) -> concat (f <$> seq k m) = [].
Proof. revert k. induction m as [|m IH]; intros k H; [done|]. cbn [seq]. rewrite fmap_cons. cbn [concat]. rewrite H by lia. apply IH. intros; apply H; lia. Qed.

Lemma number_of_tasks_bound threads : (0 < threads)%nat -> (1 <= number_of_tasks threads <= MAX_NUMBER_OF_TASKS)%nat /\ (number_of_tasks threads <= threads)%nat.
Proof. unfold number_of_tasks, MAX_NUMBER_OF_TASKS. destruct (Nat.ltb_spec 256 threads); lia. Qed.

Lemma PartitionCube_all nd threads mem n (vs : list (list nat * Z)) bytes tuples :
  (1 <= nd <= 64)%nat -> (0 < threads)%nat -> Forall (view_ok nd) vs ->
  (List.length vs <= 2 ^ nd - 1)%nat -> Z.of_nat (List.length vs) <= mem / 8 ->
  0 <= bytes -> 0 <= tuples -> let nTasks := number_of_tasks threads in
  exists outs : nat -> list Z,
    (forall task, (task < threads)%nat ->
       PartitionCube nd nTasks task mem n (sizes_file vs bytes tuples) = Some (swap8 <$> outs task)
       /\ by_dims nd (outs task))
    /\ concat (outs <$> seq 0 threads) ≡ₚ view_tuple <$> vs
    /\ (forall q q', (q < nTasks)%nat -> (q' < nTasks)%nat ->
         (List.length (outs q) <= S (List.length (outs q')))%nat).
Proof.
  intros Hnd Hthreads Hvs Hlim Hmem Hb Ht nTasks. destruct (number_of_tasks_bound threads Hthreads) as [Htasks Hle]. fold nTasks in Htasks, Hle.
  destruct (PartitionCube_run nd nTasks mem n vs bytes tuples Hnd Htasks Hvs Hlim Hmem Hb Ht)
    as (tv & Hp & _ & Hrun).
  destruct (collect _ threads (fun q _ => Hrun q) []) as [outs Houts]. exists outs. split_and!.
  - intros task Htask. by destruct (Houts task Htask) as (H1 & _ & H2).
  - rewrite (concat_perm outs (fun q => tv_tuple <$> dealt nTasks q (0%nat, false) (rev tv))).
    + replace threads with (nTasks + (threads - nTasks))%nat by lia. rewrite seq_app, fmap_app, concat_app.
      rewrite (concat_beyond _ (0 + nTasks)) by (intros q Hq; rewrite dealt_beyond by (cbn; lia); done).
      rewrite app_nil_r, dealt_views_perm, Hp by lia. by rewrite view_entries_tuples.
    + intros q Hq%elem_of_seq. destruct (Houts q) as (_ & H & _); [lia|done].
  - intros q q' Hq Hq'. destruct (Houts q ltac:(lia)) as (_ & H & _). destruct (Houts q' ltac:(lia)) as (_ & H' & _).
    apply Permutation_length in H, H'. rewrite H, H', !length_fmap. by apply dealt_even.
Qed.

(** [PartitionCube] partitions the cube.  Given the file of view sizes that
    [CalculateVeiwSizes] writes, every task reads all the views back and ends
    without a fault, and the groupby files of the tasks together hold every
    view exactly once.  The number of views of two tasks differs by at most
    one, and in each file no view comes after one with fewer dimensions. *)
Theorem PartitionCube_correct nd threads mem n (vs : list (list nat * Z)) bytes tuples :
  (1 <= nd <= 64)%nat -> (0 < threads)%nat -> Forall (view_ok nd) vs ->
  (List.length vs <= 2 ^ nd - 1)%nat -> Z.of_nat (List.length vs) <= mem / 8 ->
  0 <= bytes -> 0 <= tuples -> let nTasks := number_of_tasks threads in
  exists outs : nat -> list Z,
    (forall task, (task < threads)%nat ->
       PartitionCube nd nTasks task mem n (sizes_file vs bytes tuples) = Some (swap8 <$> outs task)
       /\ by_dims nd (outs task))
    /\ concat (outs <$> seq 0 threads) ≡ₚ view_tuple <$> vs
    /\ (forall q q', (q < nTasks)%nat -> (q' < nTasks)%nat ->
         (List.length (outs q) <= S (List.length (outs q')))%nat).
Proof. apply PartitionCube_all. Qed.

Definition demo_views : list (list nat * Z) := [([1%nat; 2%nat], 4); ([2%nat], 2); ([1%nat], 2)].

Lemma demo_views_ok : Forall (view_ok 2) demo_views.
Proof. repeat constructor; cbn; lia || discriminate. Qed.

Lemma PartitionCube_correct_witness :
  exists outs : nat -> list Z,
    (forall task, (task < 2)%nat ->
       PartitionCube 2 2 task 160 4 (sizes_file demo_views 40 8) = Some (swap8 <$> outs task)
       /\ by_dims 2 (outs task))
    /\ concat (outs <$> seq 0 2) ≡ₚ view_tuple <$> demo_views
    /\ (forall q q', (q < 2)%nat -> (q' < 2)%nat ->
         (List.length (outs q) <= S (List.length (outs q')))%nat).
Proof.
  apply (PartitionCube_correct 2 2 160 4 demo_views 40 8).
  - lia.
  - lia.
  - exact demo_views_ok.
  - cbn. lia.
  - discriminate.
  - lia.
  - lia.
Defined.

Example demo_partition :
  PartitionCube 2 2 0 160 4 (sizes_file demo_views 40 8) = Some (swap8 <$> [2 ^ 63 + 2 ^ 62])
  /\ PartitionCube 2 2 1 160 4 (sizes_file demo_views 40 8) = Some (swap8 <$> [2 ^ 63; 2 ^ 62]).
Proof. split; vm_compute; reflexivity. Qed.

(** ** A parallel run *)

Lemma view_tuple_good nd v : (1 <= nd <= 64)%nat -> view_ok nd v -> good_tuple nd (view_tuple v).
Proof.
  intros Hnd Hv. split; [by apply view_tuple_ok|]. destruct Hv as (Hr & Hs & Hne & _).
  intros E. pose proof (reg_of_bin (fst v) nd ltac:(lia) Hs Hr) as Hreg. unfold view_tuple in E.
  rewrite E in Hreg. rewrite <- Hreg in Hne. apply Hne.
  rewrite GetRegTupleFromBin64_filter by lia. unfold has_dim.
  erewrite filter_ext_in; [by apply List.filter_false|]. intros d _. apply Z.bits_0.
Qed.

Lemma view_tuple_NoDup nd (vs : list (list nat * Z)) : (1 <= nd <= 64)%nat -> Forall (view_ok nd) vs ->
  NoDup (fst <$> vs) -> NoDup (view_tuple <$> vs).
Proof.
  intros Hnd Hvs. induction Hvs as [|v vs Hv Hvs IH]; [constructor|]. rewrite !fmap_cons, !NoDup_cons.
  intros [Hn Hd]. split; [|by apply IH]. intros (v' & E & Hv')%list_elem_of_fmap. apply Hn.
  rewrite Forall_forall in Hvs. specialize (Hvs v' Hv').
  apply list_elem_of_fmap. exists v'. split; [|done]. destruct Hv as (Hr & Hs & _), Hvs as (Hr' & Hs' & _).
  rewrite <- (reg_of_bin (fst v) nd), <- (reg_of_bin (fst v') nd) by (done || lia).
  unfold view_tuple in E. by rewrite E.
Qed.

Lemma elem_of_concat {A} (x : A) (f : nat -> list A) q l : q ∈ l -> x ∈ f q -> x ∈ concat (f <$> l).
Proof.
  intros Hq Hx. rewrite list_elem_of_In, in_concat. exists (f q). rewrite <- !list_elem_of_In.
  split; [|done]. apply list_elem_of_fmap. by exists q.
Qed.

Lemma NoDup_concat_one {A} (f : nat -> list A) q l : q ∈ l -> NoDup (concat (f <$> l)) -> NoDup (f q).
Proof.
  induction 1 as [q l|q q' l Hq IH]; rewrite fmap_cons; cbn [concat]; rewrite NoDup_app; [tauto|].
  intros (_ & _ & H). by apply IH.
Qed.

(** One task: a part of the views, computed on a control block of its own. *)
Lemma task_run g nd nm mem input vspace cspace js (vs : list (list nat * Z)) (f : nat -> list Z) q nTasks :
  fresh_ok g -> (1 <= nd <= MAX_NUM_OF_DIMS)%nat -> (nm <= MAX_NUM_OF_MEAS)%nat ->
  144 <= mem < 2 ^ 32 -> Forall (row_ok nd nm) input ->
  Z.of_nat (List.length input) * GetRecSize nd nm < 2 ^ 32 ->
  Forall (view_ok nd) vs -> NoDup (fst <$> vs) -> Z.of_nat (List.length vs) <= mem / 8 ->
  (q < nTasks)%nat -> concat (f <$> seq 0 nTasks) ≡ₚ view_tuple <$> vs ->
  exists rc c,
    groupby_loop js 0 (swap8 <$> f q) (NewAdcViewCntl g nd nm (List.length input) mem input vspace cspace)
      = Some (rc, c)
    /\ (rc = ADC_OK /\ frows (viewFile (c_view c)) = concat (view_of nd nm input <$> f q)
        \/ rc = ADC_WRITE_FAILED \/ rc = ADC_INTERNAL_ERROR).
Proof.
  intros Hg Hnd Hnm Hmem Hin Hb Hvs Hdup Hlen Hq Hp.
  pose proof (NewAdcViewCntl_inv g nd nm mem input vspace cspace Hg Hnd Hmem) as Hinv.
  assert (Hseq : q ∈ seq 0 nTasks) by (apply elem_of_seq; lia). unfold MAX_NUM_OF_DIMS in Hnd.
  destruct (groupby_loop_run nd nm input mem Hnd Hnm Hin ltac:(lia) Hb js (f q) 0 [] _ Hinv)
    as (rc & c & Hrun & Hres).
  - apply Forall_forall. intros t Ht. pose proof (elem_of_concat t f q _ Hseq Ht) as Hc.
    rewrite Hp in Hc. apply list_elem_of_fmap in Hc as (v & -> & Hv).
    rewrite Forall_forall in Hvs. apply view_tuple_good; [lia|auto].
  - apply (NoDup_concat_one f q _ Hseq). rewrite Hp. apply (view_tuple_NoDup nd); auto; lia.
  - cbn [List.length Nat.add]. apply Permutation_length in Hp. rewrite length_fmap in Hp.
    enough (List.length (f q) <= List.length (concat (f <$> seq 0 nTasks)))%nat.
    { transitivity (mem / 8); [lia|]. apply Z.div_le_upper_bound; lia. }
    clear -Hseq. induction Hseq as [q l|q q' l Hq IH]; rewrite fmap_cons; cbn [concat];
      rewrite length_app; lia.
  - exists rc, c. split; [done|]. destruct Hres as [[-> Hc]|Herr]; [|by right].
    left. split; [done|]. apply Hc.
Qed.

(** The views a task made, in the order of its groupby file. *)
Definition task_views nd nm input (c : cube RBTree) (out : list Z) : Prop :=
  frows (viewFile (c_view c)) = concat (view_of nd nm input <$> out).

(** C17: A parallel run computes the cube, with any number of threads; above
    [MAX_NUMBER_OF_TASKS] the number of tasks is cut to it, as [DC] does, and the
    threads beyond get no view.  Every task partitions the same file of
    view sizes, takes its groupby file and runs the loop of
    [ComputeGivenGroupbys] on a control block of its own.  No task faults, and
    if all of them end with [ADC_OK], the view files together hold the view of
    every selection of the sizes file exactly once. *)
Theorem parallel_cube_correct (g : nat -> fresh_block) nd nm threads mem input vspace cspace
    (js : nat -> nat -> junk) (vs : list (list nat * Z)) bytes tuples :
  (forall q, fresh_ok (g q)) -> (1 <= nd <= MAX_NUM_OF_DIMS)%nat -> (nm <= MAX_NUM_OF_MEAS)%nat ->
  144 <= mem < 2 ^ 32 -> Forall (row_ok nd nm) input ->
  Z.of_nat (List.length input) * GetRecSize nd nm < 2 ^ 32 ->
  (0 < threads)%nat -> Forall (view_ok nd) vs -> NoDup (fst <$> vs) ->
  (List.length vs <= 2 ^ nd - 1)%nat -> Z.of_nat (List.length vs) <= mem / 8 ->
  0 <= bytes -> 0 <= tuples ->
  exists (outs : nat -> list Z) (rcs : nat -> Z) (cs : nat -> cube RBTree),
    (forall q, (q < threads)%nat ->
       exists ws, PartitionCube nd (number_of_tasks threads) q mem (Z.of_nat (List.length input)) (sizes_file vs bytes tuples) = Some ws
       /\ groupby_loop (js q) 0 ws (NewAdcViewCntl (g q) nd nm (List.length input) mem input vspace cspace)
          = Some (rcs q, cs q)
       /\ (rcs q = ADC_OK \/ rcs q = ADC_WRITE_FAILED \/ rcs q = ADC_INTERNAL_ERROR)
       /\ (rcs q = ADC_OK -> task_views nd nm input (cs q) (outs q)))
    /\ concat (outs <$> seq 0 threads) ≡ₚ view_tuple <$> vs.
Proof.
  intros Hg Hnd Hnm Hmem Hin Hsz Htasks Hvs Hdup Hlim Hroom Hb Ht. pose proof Hnd as Hnd'.
  unfold MAX_NUM_OF_DIMS in Hnd'.
  destruct (PartitionCube_all nd threads mem (Z.of_nat (List.length input)) vs bytes tuples)
    as (outs & Hpart & Hperm & _); auto; [lia|].
  destruct (collect (fun q rc_c =>
     groupby_loop (js q) 0 (swap8 <$> outs q)
       (NewAdcViewCntl (g q) nd nm (List.length input) mem input vspace cspace) = Some rc_c
     /\ (fst rc_c = ADC_OK /\ frows (viewFile (c_view (snd rc_c))) = concat (view_of nd nm input <$> outs q)
         \/ fst rc_c = ADC_WRITE_FAILED \/ fst rc_c = ADC_INTERNAL_ERROR)) threads) as [f Hf].
  - intros q Hq. destruct (task_run (g q) nd nm mem input vspace cspace (js q) vs outs q threads)
      as (rc & c & Hrun & Hres); auto. by exists (rc, c).
  - exact (0, NewAdcViewCntl (g 0%nat) nd nm (List.length input) mem input vspace cspace).
  - exists outs, (fun q => fst (f q)), (fun q => snd (f q)). split; [|done]. intros q Hq.
    exists (swap8 <$> outs q). destruct (Hf q Hq) as [Hrun Hres]. split_and!.
    + by apply Hpart.
    + by rewrite Hrun, <- surjective_pairing.
    + tauto.
    + intros E. destruct Hres as [[_ H]|[H|H]]; [done|rewrite E in H; discriminate..].
Qed.

Lemma parallel_cube_correct_witness :
  exists (outs : nat -> list Z) (rcs : nat -> Z) (cs : nat -> cube RBTree),
    (forall q, (q < 2)%nat ->
       exists ws, PartitionCube 2 2 q 160 4 (sizes_file demo_views 40 8) = Some ws
       /\ groupby_loop demo_junk 0 ws (NewAdcViewCntl demo_block 2 1 4 160 cube_input 30 30)
          = Some (rcs q, cs q)
       /\ (rcs q = ADC_OK \/ rcs q = ADC_WRITE_FAILED \/ rcs q = ADC_INTERNAL_ERROR)
       /\ (rcs q = ADC_OK -> task_views 2 1 cube_input (cs q) (outs q)))
    /\ concat (outs <$> seq 0 2) ≡ₚ view_tuple <$> demo_views.
Proof.
  apply (parallel_cube_correct (fun _ => demo_block) 2 1 2 160 cube_input 30 30 (fun _ => demo_junk)
    demo_views 40 8).
  - repeat split.
  - unfold MAX_NUM_OF_DIMS. lia.
  - unfold MAX_NUM_OF_MEAS. lia.
  - lia.
  - exact cube_input_ok.
  - reflexivity.
  - lia.
  - exact demo_views_ok.
  - apply (bool_decide_unpack _). vm_compute. exact I.
  - cbn. lia.
  - discriminate.
  - lia.
  - lia.
Defined.
