(* ===== verification/Factor.v ===== *)
(** * Primes and factorisations: DC/adc.c

    [ListFirstPrimes] fills a table of primes, [GetFactorization] a table with
    the factorisation of every number below the last of them, each from the
    entry of its quotient by its smallest prime divisor ([ExtendFactors]).
    [None] is an access outside an array, a read of an entry that was not
    stored yet (such an entry is zero and the code divides by it), or a NULL
    entry of [fctlist]. *)

From Stdlib Require Import ZArith Lia.
From stdpp Require Import base gmap numbers option list.
From S2P Require Import Prelude.

(** ** ListFirstPrimes *)

Section Primes.
(** [prlist] has room for this many entries. *)
Variable cap : nat.

(** [prlist[prnum++] = nmb]. *)
Definition push_prime (nmb : Z) (prlist : list Z) : option (list Z) :=
  if (length prlist <? cap)%nat then Some (prlist ++ [nmb]) else None.

(** [for (j = 0; prlist[j]*prlist[j] <= nmb; j++)] from entry [j] on:
    the first stored prime that divides [nmb], if there is one. *)
Fixpoint first_divisor (nmb : Z) (from_j : list Z) : option (option Z) :=
  match from_j with
  | [] => None
  | p :: rest =>
      if p * p <=? nmb then
        if nmb - p * (nmb / p) =? 0 then Some (Some p) else first_divisor nmb rest
      else Some None
  end.

(** [for (nmb = 8; nmb < mpr; nmb++)] with [n] rounds to go. *)
Fixpoint primes_loop (n : nat) (nmb : Z) (prlist : list Z) : option (list Z) :=
  match n with
  | O => Some prlist
  | S n' =>
      match first_divisor nmb prlist with
      | None => None
      | Some (Some _) => primes_loop n' (nmb + 1) prlist
      | Some None =>
          match push_prime nmb prlist with
          | None => None
          | Some prlist' => primes_loop n' (nmb + 1) prlist'
          end
      end
  end.

(** The table, whose length is the returned [prnum]. *)
Definition ListFirstPrimes (mpr : Z) : option (list Z) :=
  if (4 <=? cap)%nat then primes_loop (Z.to_nat (mpr - 8)) 8 [2; 3; 5; 7] else None.
End Primes.

(** ** GetFactorization *)

Record Factorization := mkFct { mlt : list Z; exp : list Z; fdim : nat }.

(** [f->mlt[k] = m; f->exp[k] = e]. *)
Definition set_factor (k : nat) (m e : Z) (f : Factorization) : option Factorization :=
  if ((k <? length (mlt f)) && (k <? length (exp f)))%nat
  then Some (mkFct (<[k := m]> (mlt f)) (<[k := e]> (exp f)) (fdim f)) else None.

(** The loop of [ExtendFactors] with [n] rounds to go, in round [i]. *)
Fixpoint extend_loop (n i : nat) (firstdiv : Z) (divfct : Factorization) (multnum : nat)
    (fdivused : bool) (nmbfct : Factorization) : option Factorization :=
  match n with
  | O => Some nmbfct
  | S n' =>
      match mlt divfct !! i, exp divfct !! i with
      | Some m, Some e =>
          if m =? 1 then
            if fdivused then Some nmbfct else set_factor multnum firstdiv 1 nmbfct
          else
            let '(k, e', multnum', used') :=
              if m <? firstdiv then (i, e, S multnum, fdivused)
              else if m =? firstdiv then (i, e + 1, multnum, true)
              else (if fdivused then i else S i, e, multnum, fdivused) in
            match set_factor k m e' nmbfct with
            | None => None
            | Some f => extend_loop n' (S i) firstdiv divfct multnum' used' f
            end
      | _, _ => None
      end
  end.

Abbreviation fct_table := (gmap Z Factorization).

Definition ExtendFactors (nmb firstdiv : Z) (nmbfct : Factorization) (fctlist : fct_table)
    : option Factorization :=
  match fctlist !! (nmb / firstdiv) with
  | None => None
  | Some divfct => extend_loop (fdim divfct) 0 firstdiv divfct 0 false nmbfct
  end.

(** [while (isft > 0) { len++; isft = isft >> 1; }]. *)
Fixpoint bit_length (fuel : nat) (isft : Z) : nat :=
  match fuel with
  | O => 0
  | S fuel' => if 0 <? isft then S (bit_length fuel' (Z.shiftr isft 1)) else 0
  end.

(** The entry allocated for [i]: all factors one, all exponents zero. *)
Definition fresh_fct (i : Z) : Factorization :=
  let len := bit_length 64 i in
  mkFct (repeat 1 (Nat.max len 1)) (repeat 0 (Nat.max len 1)) len.

(** One round of [for (i = 0; i < prlist[prnum-1]; i++)].  [repeat] stands
    for what [malloc] leaves when [i = 0]; that entry is never read. *)
Definition factor_step (prlist : list Z) (i : Z) (fctlist : fct_table) : option fct_table :=
  let fct := fresh_fct i in
  match first_divisor i prlist with
  | None => None
  | Some d =>
      let fct' :=
        match d with
        | Some firstdiv =>
            if firstdiv * firstdiv =? i then set_factor 0 firstdiv 2 fct
            else ExtendFactors i firstdiv fct fctlist
        | None => set_factor 0 i 1 fct
        end in
      match fct' with
      | None => None
      | Some f => Some (<[i := f]> fctlist)
      end
  end.

Fixpoint factor_loop (n : nat) (prlist : list Z) (i : Z) (fctlist : fct_table) : option fct_table :=
  match n with
  | O => Some fctlist
  | S n' =>
      match factor_step prlist i fctlist with
      | None => None
      | Some t => factor_loop n' prlist (i + 1) t
      end
  end.

Definition GetFactorization (prlist : list Z) : option fct_table :=
  match last prlist with
  | None => None
  | Some lastp =>
      let two := mkFct [2; 1] [1; 0] 2 in
      let three := mkFct [3; 1] [1; 0] 2 in
      factor_loop (Z.to_nat lastp) prlist 0 (<[3 := three]> (<[2 := two]> ∅))
  end.
