(* ===== verification/FactorSpec.v ===== *)
(** * The tables of primes and of factorisations are right *)

From Stdlib Require Import ZArith Lia Znumtheory Sorted.
From stdpp Require Import base gmap numbers option list.
From S2P Require Import Prelude Factor.

(** ** Prime divisors *)

Lemma prime_divisor n : 1 < n -> exists q, prime q /\ (q | n).
Proof.
  intros Hn. assert (H0 : 0 <= n) by lia. revert Hn. pattern n. apply Z_lt_induction; [|exact H0].
  clear n H0. intros n IH Hn.
  destruct (prime_dec n) as [Hp|Hp].
  - exists n. split; [done|]. apply Z.divide_refl.
  - destruct (not_prime_divide n Hn Hp) as (m & Hm & Hd). destruct (IH m) as (q & Hq & Hqm); [lia|lia|].
    exists q. split; [done|]. by transitivity m.
Qed.

Lemma small_prime_divisor n : 1 < n -> ~ prime n -> exists q, prime q /\ (q | n) /\ q * q <= n.
Proof.
  intros Hn Hp. destruct (not_prime_divide n Hn Hp) as (m & Hm & [c Hc]).
  assert (Hsmall : exists d, 1 < d /\ (d | n) /\ d * d <= n).
  { destruct (Z.le_gt_cases m c).
    - exists m. split_and!; [lia|by exists c|nia].
    - exists c. split_and!; [nia|exists m; lia|nia]. }
  destruct Hsmall as (d & Hd1 & Hdn & Hdd). destruct (prime_divisor d Hd1) as (q & Hq & Hqd).
  exists q. split_and!; [done|by transitivity d|]. apply Z.divide_pos_le in Hqd; [|lia].
  apply prime_ge_2 in Hq. nia.
Qed.

(** Trial division up to the root. *)
Definition primeb (n : Z) : bool :=
  (2 <=? n) && forallb (fun d => (n <? d * d) || negb (n mod d =? 0)) (Z.of_nat <$> seq 2 (Z.to_nat (Z.sqrt n))).

Lemma primeb_prime n : primeb n = true -> prime n.
Proof.
  unfold primeb. intros [Hn Hall]%andb_prop. apply Z.leb_le in Hn.
  destruct (prime_dec n) as [?|Hp]; [done|]. destruct (small_prime_divisor n ltac:(lia) Hp) as (q & Hq & Hd & Hqq).
  apply prime_ge_2 in Hq. rewrite forallb_forall in Hall.
  assert (Hin : In q (Z.of_nat <$> seq 2 (Z.to_nat (Z.sqrt n)))).
  { apply in_map_iff. exists (Z.to_nat q). rewrite in_seq, Z2Nat.id by lia. split; [done|].
    pose proof (Z.sqrt_le_square n q ltac:(lia) ltac:(lia)) as Hs. lia. }
  specialize (Hall q Hin). apply orb_prop in Hall as [H%Z.ltb_lt|H]; [lia|].
  apply negb_true_iff, Z.eqb_neq in H. destruct H. by apply Z.mod_divide; [lia|].
Qed.

Lemma divides_test n p : p <> 0 -> (n - p * (n / p) =? 0) = true <-> (p | n).
Proof.
  intros Hp. rewrite Z.eqb_eq, <- Z.mod_eq by done. split; intros H; by apply Z.mod_divide.
Qed.

(** ** The search for the first divisor *)

Lemma first_divisor_spec nmb l : StronglySorted Z.lt l -> Forall prime l -> (exists q, q ∈ l /\ nmb < q * q) ->
  exists r, first_divisor nmb l = Some r /\
    match r with
    | Some p => p ∈ l /\ (p | nmb) /\ p * p <= nmb /\ forall q, q ∈ l -> q < p -> ~ (q | nmb)
    | None => forall q, q ∈ l -> q * q <= nmb -> ~ (q | nmb)
    end.
Proof.
  intros Hs. induction Hs as [|p l Hs IH Hp]; intros Hpr (q & Hq & Hqn); [by apply not_elem_of_nil in Hq|].
  inversion Hpr as [|? ? Hpp Hpr']; subst. apply prime_ge_2 in Hpp. cbn [first_divisor].
  rewrite Forall_forall in Hp.
  destruct (Z.leb_spec (p * p) nmb) as [Hle|Hgt].
  - destruct (nmb - p * (nmb / p) =? 0) eqn:E.
    + exists (Some p). apply divides_test in E; [|lia]. split_and!; [done|by left|done|done|].
      intros q' Hq' Hlt. apply elem_of_cons in Hq' as [->|Hq']; [lia|]. specialize (Hp q' Hq'). lia.
    + destruct IH as (r & -> & Hr); [done| |].
      { apply elem_of_cons in Hq as [->|Hq]; [lia|]. by exists q. }
      exists r. split; [done|].
      assert (Hnd : ~ (p | nmb)).
      { intros H. apply (divides_test nmb p) in H; [congruence|lia]. }
      destruct r as [d|].
      * destruct Hr as (H1 & H2 & H3 & H4). split_and!; [by right|done|done|].
        intros q' [->|Hq']%elem_of_cons; [done|]. by apply H4.
      * intros q' [->|Hq']%elem_of_cons; [done|]. by apply Hr.
  - exists None. split; [done|]. intros q' [->|Hq']%elem_of_cons Hqq; [lia|].
    specialize (Hp q' Hq'). nia.
Qed.

(** All primes below [n], in order. *)
Definition primes_below (n : Z) (l : list Z) : Prop :=
  StronglySorted Z.lt l /\ forall q, q ∈ l <-> prime q /\ q < n.

Lemma primes_below_prime n l : primes_below n l -> Forall prime l.
Proof. intros [_ H]. apply Forall_forall. intros q Hq. by apply H. Qed.

(** What the search means when the list has all primes that matter. *)
Lemma first_divisor_primes n nmb l : primes_below n l -> 1 < nmb <= n ->
  (exists q, q ∈ l /\ nmb < q * q) ->
  exists r, first_divisor nmb l = Some r /\
    match r with
    | Some p => prime p /\ (p | nmb) /\ p * p <= nmb /\ forall q, prime q -> q < p -> ~ (q | nmb)
    | None => prime nmb
    end.
Proof.
  intros Hl Hnmb Hex. destruct (first_divisor_spec nmb l) as (r & Hr & Hspec); auto.
  - apply Hl.
  - by eapply primes_below_prime.
  - exists r. split; [done|]. destruct r as [p|].
    + destruct Hspec as (H1 & H2 & H3 & H4). apply Hl in H1 as [H1 H1']. split_and!; auto.
      intros q Hq Hlt. apply H4; [|done]. apply Hl. split; [done|lia].
    + destruct (prime_dec nmb) as [?|Hp]; [done|].
      destruct (small_prime_divisor nmb ltac:(lia) Hp) as (q & Hq & Hd & Hqq).
      destruct (Hspec q); auto. apply Hl. split; [done|]. pose proof (prime_ge_2 q Hq). nia.
Qed.

(** ** ListFirstPrimes *)

(** Below this bound the table always has a prime whose square is larger. *)
Definition prime_limit : Z := 2203 * 2203.

Lemma large_prime nmb l : 8 <= nmb < prime_limit -> primes_below nmb l -> exists q, q ∈ l /\ nmb < q * q.
Proof.
  intros Hn [_ Hl]. unfold prime_limit in Hn.
  destruct (Z.lt_ge_cases nmb 49); [|destruct (Z.lt_ge_cases nmb (47 * 47))].
  - exists 7. split; [|lia]. apply Hl. split; [by apply primeb_prime|lia].
  - exists 47. split; [|lia]. apply Hl. split; [by apply primeb_prime|lia].
  - exists 2203. split; [|lia]. apply Hl. split; [by apply primeb_prime; vm_compute|lia].
Qed.

Lemma primes_below_length n l : 0 <= n -> primes_below n l -> (length l <= Z.to_nat n)%nat.
Proof.
  intros Hn [Hs Hl]. enough (H : forall a, Forall (fun q => a <= q < n) l -> a <= n ->
    Z.of_nat (length l) <= n - a).
  { specialize (H 0). rewrite Forall_forall in H. enough (Z.of_nat (length l) <= n - 0) by lia.
    apply H; [|lia]. intros q [Hq ?]%Hl. apply prime_ge_2 in Hq. lia. }
  clear Hl. induction Hs as [|q l Hs IH Hq]; intros a Hr Ha; cbn [length]; [lia|].
  inversion Hr as [|? ? Hqr Hr']; subst. specialize (IH (q + 1)).
  enough (Z.of_nat (length l) <= n - (q + 1)) by lia. apply IH; [|lia].
  rewrite Forall_forall in *. intros x Hx. specialize (Hq x Hx). specialize (Hr' x Hx). lia.
Qed.

Lemma primes_below_skip nmb l : primes_below nmb l -> ~ prime nmb -> primes_below (nmb + 1) l.
Proof.
  intros [Hs Hl] Hp. split; [done|]. intros q. rewrite Hl. split; intros [Hq Hlt]; (split; [done|]); [lia|].
  destruct (Z.eq_dec q nmb) as [->|]; [done|lia].
Qed.

Lemma primes_below_push nmb l : primes_below nmb l -> prime nmb -> primes_below (nmb + 1) (l ++ [nmb]).
Proof.
  intros [Hs Hl] Hp. split.
  - assert (Hlt : Forall (fun q => q < nmb) l) by (apply Forall_forall; intros q Hq; by apply Hl).
    clear Hl. induction Hs as [|q l Hs IH Hq]; cbn; [repeat constructor|].
    inversion Hlt; subst. constructor; [by apply IH|]. apply Forall_app. split; [done|by constructor].
  - intros q. rewrite elem_of_app, Hl, list_elem_of_singleton. split.
    + intros [[Hq ?]| ->]; (split; [done|lia]).
    + intros [Hq Hlt]. destruct (Z.eq_dec q nmb); [by right|left]. split; [done|lia].
Qed.

Lemma primes_loop_run cap n : forall nmb l, 8 <= nmb -> nmb + Z.of_nat n <= prime_limit ->
  (Z.to_nat nmb + n <= cap)%nat -> primes_below nmb l ->
  exists l', primes_loop cap n nmb l = Some l' /\ primes_below (nmb + Z.of_nat n) l'.
Proof.
  induction n as [|n IH]; intros nmb l Hnmb Hlim Hcap Hl.
  - exists l. by rewrite Z.add_0_r.
  - cbn [primes_loop]. replace (nmb + Z.of_nat (S n)) with ((nmb + 1) + Z.of_nat n) by lia.
    destruct (first_divisor_primes nmb nmb l) as (r & -> & Hr); [done|lia|apply large_prime; [lia|done]|].
    destruct r as [p|].
    + apply IH; [lia|lia|lia|]. apply primes_below_skip; [done|]. intros Hp.
      destruct Hr as (Hpp & Hd & Hsq & _). apply prime_ge_2 in Hpp.
      destruct (prime_divisors nmb Hp p Hd) as [?|[?|[?|?]]]; nia.
    + unfold push_prime. pose proof (primes_below_length nmb l ltac:(lia) Hl).
      destruct (Nat.ltb_spec (length l) cap); [|lia]. apply IH; [lia|lia|lia|]. by apply primes_below_push.
Qed.

Lemma primes_below_8 : primes_below 8 [2; 3; 5; 7].
Proof.
  split; [repeat constructor|]. intros q. rewrite list_elem_of_In. cbn. split.
  - intros [H|[H|[H|[H|[]]]]]; subst q; (split; [by apply primeb_prime|lia]).
  - intros [Hq Hlt]. pose proof (prime_ge_2 q Hq).
    assert (Hc : q = 2 \/ q = 3 \/ q = 4 \/ q = 5 \/ q = 6 \/ q = 7) by lia.
    destruct Hc as [Hc|[Hc|[Hc|[Hc|[Hc|Hc]]]]]; subst q; auto.
    + destruct (prime_divisors 4 Hq 2) as [?|[?|[?|?]]]; [by exists 2|lia..].
    + destruct (prime_divisors 6 Hq 2) as [?|[?|[?|?]]]; [by exists 3|lia..].
Qed.

Lemma ListFirstPrimes_run cap mpr : 8 <= mpr <= prime_limit -> (Z.to_nat mpr <= cap)%nat ->
  exists l, ListFirstPrimes cap mpr = Some l /\ primes_below mpr l.
Proof.
  intros Hm Hcap. unfold ListFirstPrimes. destruct (Nat.leb_spec 4 cap); [|lia].
  destruct (primes_loop_run cap (Z.to_nat (mpr - 8)) 8 [2; 3; 5; 7]) as (l & Hl & Hp); try lia.
  - exact primes_below_8.
  - exists l. split; [done|]. by replace (8 + Z.of_nat (Z.to_nat (mpr - 8))) with mpr in Hp by lia.
Qed.

(** ** Factorisations *)

Definition value (l : list (Z * Z)) : Z := foldr (fun pe v => fst pe ^ snd pe * v) 1 l.

(** [l] is the factorisation of [n]: increasing primes with positive
    exponents. *)
Definition factors_of (n : Z) (l : list (Z * Z)) : Prop :=
  Forall (fun pe => prime (fst pe) /\ 0 < snd pe) l
  /\ StronglySorted (fun a b => fst a < fst b) l /\ value l = n.

(** The arrays of an entry: the factors [w], then [r] unused slots. *)
Definition fill (d : nat) (w : list (Z * Z)) (r : nat) : Factorization :=
  mkFct ((fst <$> w) ++ repeat 1 r) ((snd <$> w) ++ repeat 0 r) d.

(** An entry of the table: there is an unused slot, which ends the loops. *)
Definition fct_rep (n : Z) (f : Factorization) : Prop :=
  exists l r, factors_of n l /\ (0 < r)%nat /\ f = fill (length l + r) l r.

Lemma value_ge_pow2 l : Forall (fun pe => prime (fst pe) /\ 0 < snd pe) l -> 2 ^ Z.of_nat (length l) <= value l.
Proof.
  induction 1 as [|[p e] l [Hp He] Hl IH]; [done|]. cbn [length value foldr fst snd] in *.
  rewrite Nat2Z.inj_succ, Z.pow_succ_r by lia. apply prime_ge_2 in Hp. fold (value l).
  assert (2 <= p ^ e); [|nia]. transitivity (p ^ 1); [lia|]. apply Z.pow_le_mono_r; lia.
Qed.

Lemma value_pos l : Forall (fun pe => prime (fst pe) /\ 0 < snd pe) l -> 0 < value l.
Proof. intros H. apply value_ge_pow2 in H. pose proof (Z.pow_pos_nonneg 2 (Z.of_nat (length l))). lia. Qed.

Lemma value_divide l p e : (p, e) ∈ l -> 0 < e -> (p | value l).
Proof.
  intros Hin He. induction l as [|x l IH]; [by apply not_elem_of_nil in Hin|].
  cbn [value foldr]; fold (value l). apply elem_of_cons in Hin as [<-|Hin]; cbn [fst snd].
  - apply Z.divide_mul_l. exists (p ^ (e - 1)). rewrite Z.mul_comm, <- Z.pow_succ_r by lia. f_equal. lia.
  - apply Z.divide_mul_r. by apply IH.
Qed.

Lemma bit_length_spec fuel : forall n, 0 <= n < 2 ^ Z.of_nat fuel -> n < 2 ^ Z.of_nat (bit_length fuel n).
Proof.
  induction fuel as [|fuel IH]; intros n Hn; cbn [bit_length]; [cbn in Hn; lia|].
  destruct (Z.ltb_spec 0 n); [|cbn; lia]. rewrite Z.shiftr_div_pow2 by lia. change (2 ^ 1) with 2.
  rewrite Nat2Z.inj_succ, Z.pow_succ_r in * by lia. pose proof (Z.div_mod n 2 ltac:(lia)).
  pose proof (Z.mod_pos_bound n 2 ltac:(lia)). specialize (IH (n / 2)).
  enough (n / 2 < 2 ^ Z.of_nat (bit_length fuel (n / 2))) by lia. apply IH. lia.
Qed.

(** There is always an unused slot. *)
Lemma factors_fit n l : factors_of n l -> 0 <= n < 2 ^ 64 -> (length l < bit_length 64 n)%nat.
Proof.
  intros (Hl & _ & Hv) Hn. pose proof (value_ge_pow2 l Hl) as Hge. rewrite Hv in Hge.
  pose proof (bit_length_spec 64 n Hn) as Hlt.
  assert (Hpow : 2 ^ Z.of_nat (length l) < 2 ^ Z.of_nat (bit_length 64 n)) by lia.
  apply Z.pow_lt_mono_r_iff in Hpow; lia.
Qed.

Lemma fresh_fill n : (0 < bit_length 64 n)%nat -> fresh_fct n = fill (bit_length 64 n) [] (bit_length 64 n).
Proof. intros H. unfold fresh_fct, fill. by rewrite Nat.max_l by lia. Qed.

Lemma set_factor_fill d w r m e :
  set_factor (length w) m e (fill d w (S r)) = Some (fill d (w ++ [(m, e)]) r).
Proof.
  unfold set_factor, fill. cbn [mlt exp fdim repeat]. rewrite !length_app, !length_fmap. cbn [length].
  destruct (Nat.ltb_spec (length w) (length w + S (length (repeat 1 r)))); [|lia].
  destruct (Nat.ltb_spec (length w) (length w + S (length (repeat 0 r)))); [|lia]. cbn [andb].
  rewrite !insert_app_r_alt by (rewrite length_fmap; lia). rewrite !length_fmap, Nat.sub_diag.
  cbn. rewrite !fmap_app, <- !app_assoc. done.
Qed.

Lemma set_factor_first d x w r m e : set_factor 0 m e (fill d (x :: w) r) = Some (fill d ((m, e) :: w) r).
Proof. done. Qed.

Lemma fill_lookup d w r i :
  (forall m e, w !! i = Some (m, e) -> mlt (fill d w r) !! i = Some m /\ exp (fill d w r) !! i = Some e)
  /\ (i = length w -> (0 < r)%nat -> mlt (fill d w r) !! i = Some 1 /\ exp (fill d w r) !! i = Some 0).
Proof.
  split.
  - intros m e H. cbn. pose proof (lookup_lt_Some _ _ _ H).
    rewrite !lookup_app_l by (rewrite length_fmap; lia). rewrite !list_lookup_fmap, H. done.
  - intros -> Hr. cbn. rewrite !lookup_app_r by (rewrite length_fmap; lia).
    rewrite !length_fmap, Nat.sub_diag. destruct r; [lia|done].
Qed.

Lemma extend_rest d d0 firstdiv k l2 : (1 < firstdiv) -> (0 < k)%nat ->
  forall l1 w r (used : bool), Forall (fun pe => firstdiv < fst pe) l2 ->
  length w = (length l1 + if used then 0 else 1)%nat ->
  extend_loop (length l2 + k) (length l1) firstdiv (fill d0 (l1 ++ l2) k) 0 used
    (fill d w (length l2 + r))
  = if used then Some (fill d (w ++ l2) r) else set_factor 0 firstdiv 1 (fill d (w ++ l2) r).
Proof.
  intros Hf Hk. induction l2 as [|[m e] l2 IH]; intros l1 w r used Hl Hw.
  - rewrite !app_nil_r. cbn [length Nat.add]. destruct k as [|k]; [lia|]. cbn [extend_loop].
    destruct (fill_lookup d0 l1 (S k) (length l1)) as [_ H]. destruct (H eq_refl ltac:(lia)) as [-> ->]. done.
  - inversion Hl as [|? ? Hm Hl']; subst. cbn [fst] in Hm. cbn [length Nat.add extend_loop].
    destruct (fill_lookup d0 (l1 ++ (m, e) :: l2) k (length l1)) as [H _].
    destruct (H m e) as [-> ->]; [by apply list_lookup_middle|].
    destruct (Z.eqb_spec m 1); [lia|]. destruct (Z.ltb_spec m firstdiv); [lia|].
    destruct (Z.eqb_spec m firstdiv); [lia|].
    replace (if used then length l1 else S (length l1)) with (length w) by (destruct used; lia).
    rewrite set_factor_fill. replace (S (length l1)) with (length (l1 ++ [(m, e)])) by (rewrite length_app; cbn; lia).
    replace (l1 ++ (m, e) :: l2) with ((l1 ++ [(m, e)]) ++ l2) by (by rewrite <- app_assoc).
    rewrite IH; [by rewrite <- app_assoc|done|]. rewrite !length_app. cbn [length]. lia.
Qed.

(** The new factorisation: one more of the smallest prime. *)
Definition add_factor (p : Z) (l : list (Z * Z)) : list (Z * Z) :=
  match l with
  | (q, e) :: l' => if q =? p then (p, e + 1) :: l' else (p, 1) :: l
  | [] => [(p, 1)]
  end.

Lemma add_factor_factors p n l : prime p -> factors_of n l -> Forall (fun pe => p <= fst pe) l ->
  factors_of (p * n) (add_factor p l).
Proof.
  intros Hp (Hl & Hs & Hv) Hge. destruct l as [|[q e] l]; cbn [add_factor].
  - cbn in Hv. subst n. split_and!; [constructor; [by split|constructor]|repeat constructor|cbn; lia].
  - inversion Hl as [|? ? [Hq He] Hl']; subst. inversion Hs as [|? ? Hs' Hql]; subst.
    inversion Hge as [|? ? Hpq Hge']; subst. cbn [fst snd] in *.
    destruct (Z.eqb_spec q p) as [->|Hne].
    + split_and!.
      * constructor; [split; [done|cbn; lia]|done].
      * constructor; [done|]. exact Hql.
      * cbn [value foldr fst snd]. rewrite Z.pow_add_r by lia. lia.
    + split_and!.
      * constructor; [split; [done|cbn; lia]|]. by constructor.
      * constructor; [by constructor|]. constructor; [cbn; lia|].
        eapply Forall_impl; [exact Hql|]. cbn. lia.
      * cbn [value foldr fst snd]. lia.
Qed.

Lemma extend_loop_run p n m l r : prime p -> factors_of m l -> (0 < r)%nat ->
  Forall (fun pe => p <= fst pe) l -> factors_of n (add_factor p l) -> 0 <= n < 2 ^ 64 ->
  exists f, extend_loop (length l + r) 0 p (fill (length l + r) l r) 0 false (fresh_fct n) = Some f
    /\ fct_rep n f.
Proof.
  intros Hp (_ & Hs & _) Hr Hge Hn Hb. pose proof (factors_fit n _ Hn Hb) as Hfit.
  set (len := bit_length 64 n) in *. rewrite fresh_fill by (fold len; lia). fold len. clearbody len.
  pose proof (prime_ge_2 p Hp) as Hp2.
  assert (Hlen : exists r', (0 < r')%nat /\ len = (length (add_factor p l) + r')%nat).
  { exists (len - length (add_factor p l))%nat. lia. }
  destruct Hlen as (r' & Hr' & ->). clear Hfit.
  assert (Hdone : fct_rep n (fill (length (add_factor p l) + r') (add_factor p l) r')) by by exists (add_factor p l), r'.
  set (len := (length (add_factor p l) + r')%nat) in Hdone |- * at 1. clearbody len.
  destruct l as [|[q e] l]; cbn [add_factor] in *.
  - destruct r as [|r]; [lia|].
    cbn [length Nat.add extend_loop repeat fill mlt exp lookup list_lookup app fmap list_fmap].
    eexists. split; [reflexivity|]. exact Hdone.
  - inversion Hge as [|? ? Hpq Hge']; subst. inversion Hs as [|? ? Hs' Hql]; subst. cbn [fst] in *.
    destruct (Z.eqb_spec q p) as [->|Hne].
    + cbn [length Nat.add extend_loop].
      destruct (fill_lookup (S (length l + r)) ((p, e) :: l) r 0) as [H _].
      destruct (H p e eq_refl) as [-> ->]. destruct (Z.eqb_spec p 1); [lia|].
      rewrite Z.ltb_irrefl, Z.eqb_refl. rewrite (set_factor_fill len []). cbn [app].
      rewrite (extend_rest len _ p r l ltac:(lia) Hr [(p, e)] [(p, e + 1)] _ true); [|exact Hql|done].
      eexists. split; [reflexivity|]. exact Hdone.
    + change (fill len [] (length ((p, 1) :: (q, e) :: l) + r'))
        with (fill len [(1, 0)] (length ((q, e) :: l) + r')).
      rewrite (extend_rest len _ p r ((q, e) :: l) ltac:(lia) Hr [] [(1, 0)] _ false).
      * eexists. split; [apply set_factor_first|]. exact Hdone.
      * constructor; [cbn; lia|]. eapply Forall_impl; [exact Hql|]. cbn. lia.
      * done.
Qed.

(** ** The table *)

(** All entries from 2 on. *)
Definition table_below (i : Z) (t : fct_table) : Prop :=
  forall n, 2 <= n < i -> exists f, t !! n = Some f /\ fct_rep n f.

Lemma one_factor_rep n p e : factors_of n [(p, e)] -> 0 <= n < 2 ^ 64 ->
  exists f, set_factor 0 p e (fresh_fct n) = Some f /\ fct_rep n f.
Proof.
  intros Hn Hb. pose proof (factors_fit n _ Hn Hb) as Hfit. rewrite fresh_fill by lia.
  destruct (bit_length 64 n) as [|len]; [lia|]. rewrite (set_factor_fill _ []).
  eexists. split; [reflexivity|]. exists [(p, e)], len. cbn in *. split_and!; [done|lia|done].
Qed.

Lemma prime_factors n : prime n -> factors_of n [(n, 1)].
Proof.
  intros Hp. split_and!; [constructor; [by split|constructor]|repeat constructor|].
  cbn. rewrite Z.pow_1_r. lia.
Qed.

Lemma square_factors p : prime p -> factors_of (p * p) [(p, 2)].
Proof.
  intros Hp. split_and!; [constructor; [by split|constructor]|repeat constructor|]. cbn. lia.
Qed.

(** The factors of a divisor are at least the smallest prime divisor. *)
Lemma factors_ge p n l : (forall q, prime q -> q < p -> ~ (q | p * n)) -> factors_of n l ->
  Forall (fun pe => p <= fst pe) l.
Proof.
  intros Hmin (Hl & _ & Hv). apply Forall_forall. intros [q e] Hin. cbn [fst].
  rewrite Forall_forall in Hl. destruct (Hl _ Hin) as [Hq He]. cbn [fst snd] in *.
  destruct (Z.le_gt_cases p q); [done|]. exfalso. apply (Hmin q Hq); [lia|].
  apply Z.divide_mul_r. rewrite <- Hv. by apply (value_divide l q e).
Qed.

Lemma factor_step_run N prlist i t : primes_below N prlist -> 2 <= i <= N -> i < 2 ^ 64 ->
  (exists q, q ∈ prlist /\ i < q * q) -> table_below i t ->
  exists t', factor_step prlist i t = Some t' /\ table_below (i + 1) t'.
Proof.
  intros Hpr Hi Hb Hbig Ht. unfold factor_step.
  destruct (first_divisor_primes N i prlist Hpr) as (r & -> & Hr); [lia|done|].
  enough (Hf : exists f, match r with
      | Some firstdiv => if firstdiv * firstdiv =? i then set_factor 0 firstdiv 2 (fresh_fct i)
                         else ExtendFactors i firstdiv (fresh_fct i) t
      | None => set_factor 0 i 1 (fresh_fct i) end = Some f /\ fct_rep i f).
  { destruct Hf as (f & -> & Hf). eexists. split; [reflexivity|]. intros n Hn.
    destruct (Z.eq_dec n i) as [->|Hne].
    - rewrite lookup_insert_eq. by exists f.
    - rewrite lookup_insert_ne by done. apply Ht. lia. }
  destruct r as [p|].
  - destruct Hr as (Hp & [c Hc] & Hsq & Hmin). pose proof (prime_ge_2 p Hp).
    destruct (Z.eqb_spec (p * p) i) as [<-|Hne].
    + apply one_factor_rep; [by apply square_factors|lia].
    + unfold ExtendFactors. assert (E : i = p * c) by lia. clear Hc. subst i. rewrite Z.mul_comm, Z.div_mul by lia.
      destruct (Ht c) as (f & -> & l & k & Hl & Hk & ->); [nia|].
      rewrite (Z.mul_comm c p). pose proof (factors_ge p c l Hmin Hl).
      eapply extend_loop_run; try done; [by apply add_factor_factors|lia].
  - apply one_factor_rep; [by apply prime_factors|lia].
Qed.

Lemma factor_loop_run N prlist n : forall i t, primes_below N prlist -> 2 <= i -> i + Z.of_nat n <= N ->
  N < 2 ^ 64 -> (exists q, q ∈ prlist /\ i + Z.of_nat n <= q) -> table_below i t ->
  exists t', factor_loop n prlist i t = Some t' /\ table_below (i + Z.of_nat n) t'.
Proof.
  induction n as [|n IH]; intros i t Hpr Hi Hn Hb (q & Hq & Hqn) Ht.
  - exists t. by rewrite Z.add_0_r.
  - cbn [factor_loop]. destruct (factor_step_run N prlist i t) as (t' & -> & Ht'); try done; try lia.
    + exists q. split; [done|]. nia.
    + replace (i + Z.of_nat (S n)) with ((i + 1) + Z.of_nat n) by lia.
      apply IH; try done; try lia. exists q. split; [done|]. lia.
Qed.

(** The rounds for zero and one store entries that are not factorisations. *)
Lemma factor_step_small N prlist q i t : primes_below N prlist -> q ∈ prlist -> 0 <= i <= 1 ->
  exists t', factor_step prlist i t = Some t'.
Proof.
  intros Hpr Hq Hi. unfold factor_step. destruct (first_divisor_spec i prlist) as (r & -> & Hr).
  - apply Hpr.
  - by eapply primes_below_prime.
  - exists q. split; [done|]. apply Hpr in Hq as [Hq _]. apply prime_ge_2 in Hq. nia.
  - destruct r as [p|].
    + destruct Hr as (Hpin & _ & Hsq & _). apply Hpr in Hpin as [Hpp _]. apply prime_ge_2 in Hpp. nia.
    + assert (Hc : i = 0 \/ i = 1) by lia. destruct Hc; subst i; by eexists.
Qed.

Lemma GetFactorization_run N prlist lastp : primes_below N prlist -> N < 2 ^ 64 -> last prlist = Some lastp ->
  2 <= lastp ->
  exists t, GetFactorization prlist = Some t /\ table_below lastp t.
Proof.
  intros Hpr Hb Hlast H2. unfold GetFactorization. rewrite Hlast.
  assert (Hin : lastp ∈ prlist) by (apply last_Some in Hlast as [l ->]; apply elem_of_app; right; by left).
  replace (Z.to_nat lastp) with (S (S (Z.to_nat (lastp - 2)))) by lia.
  pose proof (proj2 Hpr lastp) as [[Hp HN] _]; [done|].
  set (t0 := <[3:=_]> _). cbn [factor_loop]. 
  destruct (factor_step_small N prlist lastp 0 t0) as [t1 ->]; [done|done|lia|]. change (0 + 1) with 1.
  destruct (factor_step_small N prlist lastp 1 t1) as [t2 ->]; [done|done|lia|]. change (1 + 1) with 2.
  destruct (factor_loop_run N prlist (Z.to_nat (lastp - 2)) 2 t2) as (t' & Hrun & Ht'); try done; try lia.
  - exists lastp. split; [done|lia].
  - intros n Hn. lia.
  - exists t'. split; [done|]. by replace (2 + Z.of_nat (Z.to_nat (lastp - 2))) with lastp in Ht' by lia.
Qed.

(** ** Multiplicities of primes

    The exponent of a prime in a number, what products, greatest common
    divisors and least common multiples do to it, and that a positive number
    is determined by the exponents of all primes. *)

(** [q ^ k] is the largest power of [q] that divides [n]. *)
Definition val (q n k : Z) : Prop := 0 <= k /\ (q ^ k | n) /\ ~ (q ^ (k + 1) | n).

Lemma pow_divide q i j : 0 <= i <= j -> (q ^ i | q ^ j).
Proof. intros H. exists (q ^ (j - i)). rewrite <- Z.pow_add_r by lia. f_equal. lia. Qed.

Lemma val_divide q n k j : val q n k -> 0 <= j -> (q ^ j | n) <-> j <= k.
Proof.
  intros (Hk & Hd & Hnd) Hj. split.
  - intros H. destruct (Z.le_gt_cases j k); [done|]. destruct Hnd. transitivity (q ^ j); [|done].
    apply pow_divide. lia.
  - intros H. transitivity (q ^ k); [|done]. apply pow_divide. lia.
Qed.

Lemma val_unique q n i j : val q n i -> val q n j -> i = j.
Proof.
  intros Hi Hj. pose proof (val_divide q n i j Hi ltac:(apply Hj)) as [H1 _].
  pose proof (val_divide q n j i Hj ltac:(apply Hi)) as [H2 _].
  specialize (H1 ltac:(apply Hj)). specialize (H2 ltac:(apply Hi)). lia.
Qed.

Section Prime.
Variable q : Z.
Hypothesis Hq : prime q.

Lemma q_ge_2 : 2 <= q.
Proof using Hq. by apply prime_ge_2. Qed.

Lemma val_decomp n k : 0 <= k -> val q n k <-> exists m, n = q ^ k * m /\ ~ (q | m).
Proof using Hq.
  intros Hk. pose proof q_ge_2. assert (0 < q ^ k) by (apply Z.pow_pos_nonneg; lia). split.
  - intros (_ & [m Hm] & Hnd). exists m. split; [lia|]. intros [c Hc]. apply Hnd. exists c.
    rewrite Z.pow_add_r, Z.pow_1_r by lia. rewrite Hm, Hc. ring.
  - intros (m & -> & Hm). split_and!; [done|by exists m; ring|]. intros [c Hc]. apply Hm. exists c.
    rewrite Z.pow_add_r, Z.pow_1_r in Hc by lia. apply (Z.mul_reg_l _ _ (q ^ k)); [lia|]. rewrite Hc. ring.
Qed.

Lemma val_mul a b i j : val q a i -> val q b j -> val q (a * b) (i + j).
Proof using Hq.
  intros Ha Hb. assert (0 <= i) by apply Ha. assert (0 <= j) by apply Hb.
  apply val_decomp in Ha as (a' & -> & Ha'); [|done]. apply val_decomp in Hb as (b' & -> & Hb'); [|done].
  apply val_decomp; [lia|]. exists (a' * b'). split; [rewrite Z.pow_add_r by lia; ring|].
  intros [?|?]%prime_mult; auto.
Qed.

Lemma val_exists n : 0 < n -> exists k, val q n k.
Proof using Hq.
  intros Hn. assert (H0 : 0 <= n) by lia. revert Hn. pattern n. apply Z_lt_induction; [|exact H0].
  clear n H0. intros n IH Hn. pose proof q_ge_2. destruct (Zdivide_dec q n) as [[c Hc]|Hnd].
  - destruct (IH c) as [k Hk]; [nia|nia|]. exists (k + 1). assert (0 <= k) by apply Hk.
    apply val_decomp in Hk as (m & -> & Hm); [|done]. apply val_decomp; [lia|]. exists m. split; [|done].
    rewrite Hc, Z.pow_add_r, Z.pow_1_r by lia. ring.
  - exists 0. apply val_decomp; [lia|]. exists n. split; [|done]. rewrite Z.pow_0_r. ring.
Qed.

Lemma val_gcd a b i j : val q a i -> val q b j -> val q (Z.gcd a b) (Z.min i j).
Proof using Hq.
  intros Ha Hb. assert (0 <= i) by apply Ha. assert (0 <= j) by apply Hb. split_and!; [lia| |].
  - apply Z.gcd_greatest.
    + apply (val_divide _ _ i); [done|lia|lia].
    + apply (val_divide _ _ j); [done|lia|lia].
  - intros H'. assert (H1 : (q ^ (Z.min i j + 1) | a)) by (transitivity (Z.gcd a b); [done|apply Z.gcd_divide_l]).
    assert (H2 : (q ^ (Z.min i j + 1) | b)) by (transitivity (Z.gcd a b); [done|apply Z.gcd_divide_r]).
    apply (val_divide _ _ i) in H1; [|done|lia]. apply (val_divide _ _ j) in H2; [|done|lia]. lia.
Qed.

Lemma val_quot_gcd n e i j : 0 < n -> val q n i -> val q e j -> val q (n / Z.gcd n e) (Z.max 0 (i - j)).
Proof using Hq.
  intros Hn Hi Hj. pose proof (val_gcd n e i j Hi Hj) as Hg.
  destruct (Z.gcd_divide_l n e) as [c Hc]. pose proof (Z.gcd_nonneg n e).
  assert (Hg0 : 0 < Z.gcd n e).
  { destruct (Z.eq_dec (Z.gcd n e) 0) as [E|]; [rewrite E in Hc; lia|lia]. }
  assert (Hc0 : 0 < c) by (apply (Z.mul_pos_cancel_r c (Z.gcd n e)); lia).
  rewrite Hc at 1. rewrite Z.div_mul by lia. destruct (val_exists c Hc0) as [k Hk].
  pose proof (val_mul _ _ _ _ Hk Hg) as Hkg. rewrite <- Hc in Hkg.
  pose proof (val_unique _ _ _ _ Hkg Hi). replace (Z.max 0 (i - j)) with k by lia. done.
Qed.

Lemma val_lcm a b i j : 0 < a -> 0 < b -> val q a i -> val q b j -> val q (Z.lcm a b) (Z.max i j).
Proof using Hq.
  intros Ha Hb Hi Hj. pose proof (val_gcd a b i j Hi Hj) as Hg.
  assert (E : Z.lcm a b * Z.gcd a b = a * b).
  { unfold Z.lcm. destruct (Z.gcd_divide_r a b) as [c Hc]. pose proof (Z.gcd_nonneg a b).
    assert (0 < Z.gcd a b).
    { destruct (Z.eq_dec (Z.gcd a b) 0) as [E|]; [rewrite E in Hc; lia|lia]. }
    rewrite Hc at 1. rewrite Z.div_mul by lia.
    rewrite Z.abs_eq by nia. rewrite <- Z.mul_assoc, <- Hc. done. }
  pose proof (Z.lcm_nonneg a b). assert (Hl : 0 < Z.lcm a b).
  { destruct (Z.eq_dec (Z.lcm a b) 0) as [E0|]; [rewrite E0 in E; nia|lia]. }
  destruct (val_exists _ Hl) as [k Hk]. pose proof (val_mul _ _ _ _ Hk Hg) as Hkg. rewrite E in Hkg.
  pose proof (val_unique _ _ _ _ Hkg (val_mul _ _ _ _ Hi Hj)). replace (Z.max i j) with k by lia. done.
Qed.

Lemma val_one : val q 1 0.
Proof using Hq.
  pose proof q_ge_2. apply val_decomp; [lia|]. exists 1. split; [done|]. intros H1.
  apply Z.divide_1_r_nonneg in H1; lia.
Qed.

Lemma prime_divides_pow p e : prime p -> 0 <= e -> (q | p ^ e) -> q = p.
Proof using Hq.
  intros Hp He. pattern e. apply natlike_ind; [| |done].
  - intros H1. pose proof q_ge_2. apply Z.divide_1_r_nonneg in H1; lia.
  - intros x Hx IH. rewrite Z.pow_succ_r by done. intros [H|H]%prime_mult; auto.
    by apply prime_div_prime.
Qed.

Lemma val_prime_pow p e : prime p -> 0 <= e -> val q (p ^ e) (if p =? q then e else 0).
Proof using Hq.
  intros Hp He. destruct (Z.eqb_spec p q) as [->|Hne].
  - apply val_decomp; [done|]. exists 1. split; [ring|]. intros H1. pose proof q_ge_2.
    apply Z.divide_1_r_nonneg in H1; lia.
  - apply val_decomp; [lia|]. exists (p ^ e). split; [rewrite Z.pow_0_r; ring|]. intros H1.
    apply Hne. symmetry. by apply (prime_divides_pow p e).
Qed.

(** Dividing out another prime. *)
Lemma coprime_pow_divide p k b : prime p -> p <> q -> 0 <= k -> (p ^ k | q * b) -> (p ^ k | b).
Proof using Hq.
  intros Hp Hne Hk H. apply Gauss with q; [done|]. apply Zgcd_1_rel_prime. apply Z.coprime_pow_l; [done|].
  apply Zgcd_1_rel_prime. apply rel_prime_sym, prime_rel_prime; [done|].
  intros Hd. apply prime_divisors in Hd; [|done]. pose proof q_ge_2. pose proof (prime_ge_2 p Hp). lia.
Qed.
End Prime.

Lemma divide_of_vals a : 0 < a -> forall b, 0 < b ->
  (forall q i, prime q -> val q a i -> (q ^ i | b)) -> (a | b).
Proof.
  intros Ha. assert (H0 : 0 <= a) by lia. revert Ha. pattern a. apply Z_lt_induction; [|exact H0].
  clear a H0. intros a IH Ha b Hb H. destruct (Z.eq_dec a 1) as [->|Hne]; [apply Z.divide_1_l|].
  destruct (prime_divisor a ltac:(lia)) as (q & Hq & [a' Ha']). pose proof (prime_ge_2 q Hq).
  destruct (val_exists q Hq a Ha) as [k Hk].
  assert (Hk1 : 1 <= k) by (apply (val_divide q a k 1 Hk); [lia|]; exists a'; rewrite Z.pow_1_r; done).
  assert (Hqb : (q | b)) by (transitivity (q ^ k); [exists (q ^ (k - 1)); rewrite Z.mul_comm, <- Z.pow_succ_r by lia; f_equal; lia|by apply H]).
  destruct Hqb as [b' Hb']. enough (Hd : (a' | b')).
  { destruct Hd as [c Hc]. exists c. rewrite Hb', Hc, Ha'. ring. }
  apply IH; [nia|nia|nia|]. intros p i Hp Hi. assert (0 <= i) by apply Hi.
  assert (Hi' : val p a (i + if q =? p then 1 else 0)).
  { rewrite Ha'. apply val_mul; [done|done|]. rewrite <- (Z.pow_1_r q) at 1.
    apply val_prime_pow; [done|done|lia]. }
  pose proof (H p _ Hp Hi') as Hd. destruct (Z.eqb_spec q p) as [->|Hqp].
  - destruct Hd as [c Hc]. exists c. rewrite Z.pow_add_r, Z.pow_1_r in Hc by lia.
    apply (Z.mul_reg_r _ _ p); [lia|]. rewrite <- Hb', Hc. ring.
  - rewrite Z.add_0_r in Hd. apply (coprime_pow_divide q Hq p i b' Hp ltac:(congruence) ltac:(done)).
    by replace (q * b') with b by lia.
Qed.

Lemma eq_of_vals a b : 0 < a -> 0 < b -> (forall q i, prime q -> val q a i -> val q b i) -> a = b.
Proof.
  intros Ha Hb H. apply Z.divide_antisym_nonneg; [lia|lia| |].
  - apply divide_of_vals; [done|done|]. intros q i Hq Hi. apply (H q i Hq Hi).
  - apply divide_of_vals; [done|done|]. intros q i Hq Hi. destruct (val_exists q Hq a Ha) as [j Hj].
    pose proof (val_unique _ _ _ _ Hi (H q j Hq Hj)) as ->. apply Hj.
Qed.
