(* ===== verification/Generator.v ===== *)
(** * The data generator: GetNextTuple and GenerateADC of DC/adc.c

    Every attribute is a sequence of residues modulo a prime.  The static
    variables of [GetNextTuple] and the global [adcgen], which the first call
    overwrites, are the state.  [None] is an access outside an array. *)

From Stdlib Require Import ZArith Lia Ascii String.
From stdpp Require Import base gmap numbers option sorting list.
From S2P Require Import Prelude Factor Cube Rows ViewFiles.

Local Open Scope string_scope.
Local Open Scope list_scope.
Local Open Scope Z_scope.

(** ** The sizes of the views: GetLCM and CalculateVeiwSizes of DC/adc.c

    The generator makes attribute [i] of the tuples by repeated multiplication
    with a power of a generator modulo the prime [adcprime[i]], so the number
    of different tuples over a set of attributes is the least common multiple
    of the orders of the multipliers.  [GetLCM] computes it from the table of
    factorisations, and [CalculateVeiwSizes] writes it for the views of the
    cube.  [None] is an access outside an array. *)

(** ** The constants *)

Definition adcprime : list Z :=
  [421; 601; 631; 701; 883; 419; 443; 647; 21737; 31769;
   1427; 18353; 22817; 34337; 98717; 3527; 8693; 9677; 11093; 18233].

Definition adcexp : list Z :=
  [11; 13; 17; 19; 23; 23; 29; 31; 37; 41; 41; 43; 47; 53; 59; 3; 5; 7; 11; 13].

Definition adcexpS : list Z := [11; 13; 17; 19; 23].

Definition adcexpW : list Z :=
  [2*2; 2*2*2*5; 2*3; 2*2*5; 2*3*7; 23; 29; 31; 2*2; 2*2*19].

Definition adcexpA : list Z :=
  [2*2; 2*2*2*5; 2*3; 2*2*5; 2*3*7; 2*19; 2*13; 2*19; 2*2*2*13*19; 2*2*2*19*19;
   2*23; 2*2*2*2; 2*2*2*2*2*23; 2*2*2*2*2; 2*2*23].

Definition adcexpB : list Z :=
  [2*2*7; 2*2*2*5; 2*3*7; 2*2*5*7; 2*3*7*7; 2*19; 2*13; 2*19; 2*2*2*13*19; 2*2*2*19*19;
   2*31; 2*2*2*2*31; 2*2*2*2*2*31; 2*2*2*2*2*29; 2*2*29; 2*43; 2*2; 2*2; 2*2*47; 2*2*2*43].

Definition UpPrimeLim : Z := 100000.
Definition LARGE_NUM : Z := 0x4FFFFFFFFFFFFFFF.
Definition maxprmfctr : Z := 59.

(** ** GetLCM *)

(** The loop over [k]: the exponent of [fct] is lowered by its exponent in
    the factorisation [g]. *)
Fixpoint cancel (n k : nat) (fct lexp : Z) (g : Factorization) : option Z :=
  match n with
  | O => Some lexp
  | S n' =>
      match mlt g !! k, exp g !! k with
      | Some m, Some e =>
          if m =? 1 then Some lexp
          else if negb (fct =? m) then cancel n' (S k) fct lexp g
          else Some (lexp - e)
      | _, _ => None
      end
  end.

(** The loop over [j]: [expons[fct]] becomes at least the exponent. *)
Fixpoint raise_expons (n j : nat) (f g : Factorization) (expons : list Z) : option (list Z) :=
  match n with
  | O => Some expons
  | S n' =>
      match mlt f !! j, exp f !! j with
      | Some fct, Some e =>
          match cancel (fdim g) 0 fct e g, expons !! Z.to_nat fct with
          | Some lexp, Some x =>
              raise_expons n' (S j) f g (if x <? lexp then <[Z.to_nat fct := lexp]> expons else expons)
          | _, _ => None
          end
      | _, _ => None
      end
  end.

(** [while (mask > 0)]; [fuel] bounds the number of bits. *)
Fixpoint mask_loop (fuel : nat) (mask : Z) (i : nat) (fctlist : fct_table) (adcexpons : list Z)
    (expons : list Z) : option (list Z) :=
  match fuel with
  | O => None
  | S fuel' =>
      if 0 <? mask then
        if mask =? 2 * (mask / 2) then
          mask_loop fuel' (Z.shiftr mask 1) (S i) fctlist adcexpons expons
        else
          match adcprime !! i, adcexpons !! i with
          | Some pr, Some genexp =>
              match fctlist !! (pr - 1), fctlist !! genexp with
              | Some f, Some g =>
                  match raise_expons (fdim f) 0 f g expons with
                  | Some expons' => mask_loop fuel' (Z.shiftr mask 1) (S i) fctlist adcexpons expons'
                  | None => None
                  end
              | _, _ => None
              end
          | _, _ => None
          end
      else Some expons
  end.

(** [while (expons[i] > 0) { LCM *= i; if (LCM > LARGE_NUM/maxprmfctr) return LCM; expons[i]--; }];
    the flag says that the function has returned. *)
Fixpoint lcm_while (e : nat) (i LCM : Z) : Z * bool :=
  match e with
  | O => (LCM, false)
  | S e' =>
      let LCM := s64 (LCM * i) in
      if LARGE_NUM / maxprmfctr <? LCM then (LCM, true) else lcm_while e' i LCM
  end.

(** [for (i = 0; i <= maxprmfctr; i++)] from [i] on. *)
Fixpoint lcm_loop (expons : list Z) (i LCM : Z) : Z :=
  match expons with
  | [] => LCM
  | e :: rest =>
      let '(LCM, ret) := lcm_while (Z.to_nat e) i LCM in
      if ret then LCM else lcm_loop rest (i + 1) LCM
  end.

Definition GetLCM (mask : Z) (fctlist : fct_table) (adcexpons : list Z) : option Z :=
  match mask_loop 64 mask 0 fctlist adcexpons (repeat 0 (Z.to_nat (maxprmfctr + 1))) with
  | None => None
  | Some expons => Some (lcm_loop expons 0 1)
  end.

(** ** CalculateVeiwSizes *)

Record DC_view := mkDC { vsize : Z; vidx : Z }.

#[export] Instance DC_view_eq_dec : EqDecision DC_view.
Proof. solve_decision. Defined.

Definition CompareViewsBySize (v0 v1 : DC_view) : Z :=
  if vsize v1 <? vsize v0 then 1
  else if vsize v0 <? vsize v1 then -1
  else if vidx v1 <? vidx v0 then 1
  else if vidx v0 <? vidx v1 then -1
  else 0.

(** [qsort] with this comparison. *)
Definition view_le (v0 v1 : DC_view) : Prop := CompareViewsBySize v0 v1 <= 0.

#[export] Instance view_le_dec v0 v1 : Decision (view_le v0 v1).
Proof. unfold view_le. apply _. Defined.

Definition qsort_views (l : list DC_view) : list DC_view := merge_sort view_le l.

(** The exponents of the classes; in another class no LCM is computed. *)
Definition class_expons (clss : ascii) : option (list Z) :=
  if Ascii.eqb clss "U" then Some adcexp
  else if Ascii.eqb clss "S" then Some adcexpS
  else if Ascii.eqb clss "W" then Some adcexpW
  else if Ascii.eqb clss "A" then Some adcexpA
  else if Ascii.eqb clss "B" then Some adcexpB
  else None.

Definition view_size (clss : ascii) (tnum : Z) (fctlist : fct_table) (i : Z) : option Z :=
  let LCM := match class_expons clss with
             | Some e => GetLCM i fctlist e
             | None => Some 1
             end in
  match LCM with
  | None => None
  | Some LCM => Some (if tnum <? LCM then tnum else LCM)
  end.

(** [for (i = 1; i < (1<<dcdim); i++)]: the entries of [dcview] from [i]. *)
Fixpoint dcview_loop (n : nat) (i : Z) (clss : ascii) (tnum : Z) (fctlist : fct_table)
    : option (list DC_view) :=
  match n with
  | O => Some []
  | S n' =>
      match view_size clss tnum fctlist i, dcview_loop n' (i + 1) clss tnum fctlist with
      | Some sz, Some l => Some (mkDC sz i :: l)
      | _, _ => None
      end
  end.

(** The step over the sorted views. *)
Definition vinc_of (clss : ascii) : nat :=
  if Ascii.eqb clss "U" then 2 ^ 3
  else if Ascii.eqb clss "A" then 2 ^ 6
  else if Ascii.eqb clss "B" then 2 ^ 14
  else 1%nat.

(** [for (i = minvn; i < maxvn; i += vinc)] over [dcview]. *)
Fixpoint every (fuel vinc : nat) (l : list DC_view) : list DC_view :=
  match fuel, l with
  | S fuel', v :: _ => v :: every fuel' vinc (drop vinc l)
  | _, _ => []
  end.

(** [for (j = 0; j < dcdim; j++) if ((idx>>j) & 0x1==1)]: the printed
    dimension numbers. *)
Fixpoint selection_loop (n : nat) (j : nat) (idx : Z) : list nat :=
  match n with
  | O => []
  | S n' => (if negb (Z.land (Z.shiftr idx (Z.of_nat j)) 1 =? 0) then [S j] else [])
            ++ selection_loop n' (S j) idx
  end.

Definition printed (dcdim : nat) (v : DC_view) : list nat * Z := (selection_loop dcdim 0 (vidx v), vsize v).

(** [totalInBytes] and [nCubeTuples]. *)
Definition count_view (tot : Z * Z) (v : list nat * Z) : Z * Z :=
  (u64 (fst tot + u64 (8 + 4 * Z.of_nat (List.length (fst v))) * snd v), u64 (snd tot + snd v)).

(** The views the file lists, from the computed sizes. *)
Definition listed_views (dcdim : nat) (clss : ascii) (l : list DC_view) : list (list nat * Z) :=
  printed dcdim <$> every (2 ^ dcdim) (vinc_of clss) (drop 1 (qsort_views (mkDC 0 0 :: l))).

Definition write_sizes (vs : list (list nat * Z)) : list string :=
  let tot := fold_left count_view vs (0, 0) in sizes_file vs (fst tot) (snd tot).

(** The words of the file that is written; [lim] is [UpPrimeLim]. *)
Definition CalculateVeiwSizes (lim : Z) (dcdim : nat) (tnum : Z) (clss : ascii) : option (list string) :=
  match ListFirstPrimes (Z.to_nat lim) lim with
  | None => None
  | Some prlist =>
      match GetFactorization prlist with
      | None => None
      | Some fctlist =>
          match dcview_loop (2 ^ dcdim - 1) 1 clss tnum fctlist with
          | None => None
          | Some l => Some (write_sizes (listed_views dcdim clss l))
          end
      end
  end.

(** ** The generator *)

Local Abbreviation length := List.length.

Definition adcgen0 : list Z := [2; 7; 3; 2; 2; 2; 2; 5; 31; 7; 2; 3; 3; 3; 2; 5; 2; 2; 2; 3].

Record generator := mkGen {
  g_tuplenum : Z;
  seed : list Z;
  adcgen : list Z
}.

(** The state of a program that starts: static memory is zero. *)
Definition gen_start : generator := mkGen 0 (repeat 0 20) adcgen0.

Definition maxdim : nat := 20.

(** [locexp]. *)
Definition locexp_of (clss : ascii) : list Z :=
  if Ascii.eqb clss "S" then adcexpS
  else if Ascii.eqb clss "W" then adcexpW
  else if Ascii.eqb clss "A" then adcexpA
  else if Ascii.eqb clss "B" then adcexpB
  else adcexp.

(** [for (j = 0; j < locexp[i]-1; j++) { tmpgen *= adcgen[i]; tmpgen = tmpgen%adcprime[i]; }]
    with [int tmpgen]. *)
Fixpoint power_loop (n : nat) (g p tmpgen : Z) : Z :=
  match n with
  | O => tmpgen
  | S n' => power_loop n' g p (s32 (Z.rem (s32 (tmpgen * g)) p))
  end.

(** The two loops of the first call, for the attributes from [i] on: the
    multipliers and the first seeds. *)
Fixpoint init_loop (n i : nat) (locexp : list Z) (st : generator) : option generator :=
  match n with
  | O => Some st
  | S n' =>
      match adcgen st !! i, locexp !! i, adcprime !! i with
      | Some g, Some e, Some p =>
          if (i <? length (seed st))%nat then
            init_loop n' (S i) locexp
              (mkGen (g_tuplenum st) (<[i := (p + 1) / 2]> (seed st))
                 (<[i := power_loop (Z.to_nat (e - 1)) g p (s32 g)]> (adcgen st)))
          else None
      | _, _, _ => None
      end
  end.

(** [for (i = 0; i < dcdim; i++) { attr[i] = ...; seed[i] = attr[i]; ... }]:
    the attributes from [i] on, the new seeds and [maxattr]. *)
Fixpoint attr_loop (n i : nat) (gens seeds : list Z) (maxattr : Z) : option (list Z * list Z * Z) :=
  match n with
  | O => Some ([], seeds, maxattr)
  | S n' =>
      match seeds !! i, gens !! i, adcprime !! i with
      | Some s, Some g, Some p =>
          let a := s64 (s * g) in
          let a := s64 (a - s64 (p * Z.quot a p)) in
          match attr_loop n' (S i) gens (<[i := a]> seeds) (if maxattr <? a then s32 a else maxattr) with
          | Some (attr, seeds', m) => Some (a :: attr, seeds', m)
          | None => None
          end
      | _, _, _ => None
      end
  end.

(** [for (i = 0; i < measnum; i++) { meas[i] = seed[i]*maxattr; meas[i] -= measbound*(meas[i]/measbound); }]. *)
Definition measure (maxattr s : Z) : Z :=
  let m := s64 (s * maxattr) in s64 (m - s64 (measbound * Z.quot m measbound)).

(** The attributes and measures of the next tuple, or [None] inside when the
    function returns zero. *)
Definition GetNextTuple (dcdim measnum : nat) (clss : ascii) (st : generator)
    : option (option (list Z * list Z) * generator) :=
  if (maxdim <? dcdim)%nat then Some (None, st)
  else if measbound <? Z.of_nat measnum then Some (None, st)
  else
    match (if g_tuplenum st =? 0 then init_loop dcdim 0 (locexp_of clss) st else Some st) with
    | None => None
    | Some st =>
        match attr_loop dcdim 0 (adcgen st) (seed st) 0 with
        | None => None
        | Some (attr, seeds, maxattr) =>
            if (length seeds <? measnum)%nat then None
            else Some (Some (attr, measure maxattr <$> take measnum seeds),
                       mkGen (s32 (g_tuplenum st + 1)) seeds (adcgen st))
        end
    end.

(** ** GenerateADC *)

Record ADC_PAR := mkPar {
  ndid : Z;
  dim : nat;
  mnum : nat;
  tuplenum : Z;
  inverse_endian : Z;
  filename : string;
  clss : ascii
}.

Definition initADCpar : ADC_PAR := mkPar 0 5 1 100 0 "ADC" "U".

(** What is written for one tuple: the measures, then the attributes as
    [int]s, in the other byte order if the parameter asks for it. *)
Definition written_row (inverse : Z) (attr mes : list Z) : row :=
  let inv := inverse =? 1 in
  Row ((fun mv => if inv then s64 (swap8 (u64 mv)) else mv) <$> mes)
      ((fun a => if inv then swap4 (u32 a) else u32 a) <$> attr).

(** [for (i = 0; i < tplnum; i++)]: the rows of the file, or [None] inside
    when a tuple cannot be made. *)
Fixpoint generate_loop (n : nat) (par : ADC_PAR) (st : generator)
    : option (option (list row) * generator) :=
  match n with
  | O => Some (Some [], st)
  | S n' =>
      match GetNextTuple (dim par) (mnum par) (clss par) st with
      | None => None
      | Some (None, st') => Some (None, st')
      | Some (Some (attr, mes), st') =>
          match generate_loop n' par st' with
          | Some (Some rows, st'') =>
              Some (Some (written_row (inverse_endian par) attr mes :: rows), st'')
          | r => r
          end
      end
  end.

(** The data file and the file of view sizes; the function returns one. *)
Definition GenerateADC (lim : Z) (par : ADC_PAR) (st : generator)
    : option (option (list row * list string) * generator) :=
  match generate_loop (Z.to_nat (s32 (tuplenum par))) par st with
  | None => None
  | Some (None, st') => Some (None, st')
  | Some (Some rows, st') =>
      match CalculateVeiwSizes lim (dim par) (tuplenum par) (clss par) with
      | None => None
      | Some words => Some (Some (rows, words), st')
      end
  end.
