(* ===== verification/ViewSizesSpec.v ===== *)
(** * GetLCM computes least common multiples

    The array of exponents represents a number, each attribute of the mask
    multiplies it up to the least common multiple, and the final product is
    that number unless it is too large to matter. *)

From Stdlib Require Import ZArith Lia Znumtheory Sorted Ascii String.
From stdpp Require Import base gmap numbers option sorting list.
From S2P Require Import Prelude Factor FactorSpec JobBits Cube CubeSpec PartitionSpec Generator.

Local Open Scope list_scope.
Local Open Scope Z_scope.
Local Abbreviation length := List.length.

(** ** Exponents *)

Fixpoint expo (q : Z) (l : list (Z * Z)) : Z :=
  match l with
  | [] => 0
  | (p, e) :: l' => if q =? p then e else expo q l'
  end.

Lemma expo_notin q l : q ∉ l.*1 -> expo q l = 0.
Proof.
  induction l as [|[p e] l IH]; [done|]. rewrite fmap_cons, not_elem_of_cons. intros [H1 H2]. cbn [expo].
  destruct (Z.eqb_spec q p); [done|]. by apply IH.
Qed.

Lemma expo_nonneg q l : Forall (fun pe => prime (fst pe) /\ 0 < snd pe) l -> 0 <= expo q l.
Proof. induction 1 as [|[p e] l [_ He] Hl IH]; cbn in *; [lia|]. destruct (q =? p); lia. Qed.

Lemma sorted_notin p (l : list (Z * Z)) : Forall (fun b => p < fst b) l -> p ∉ l.*1.
Proof.
  intros H (b & -> & Hb)%list_elem_of_fmap. rewrite Forall_forall in H. specialize (H b Hb). cbn in H. lia.
Qed.

Lemma val_factors q n l : prime q -> factors_of n l -> val q n (expo q l).
Proof.
  intros Hq (Hl & Hs & <-). induction Hl as [|[p e] l [Hp He] Hl IH]; [by apply val_one|].
  inversion Hs as [|? ? Hs' Hgt]; subst. cbn [value foldr expo fst snd] in *. fold (value l).
  specialize (IH Hs'). pose proof (val_mul q Hq _ _ _ _ (val_prime_pow q Hq p e Hp ltac:(lia)) IH) as H.
  rewrite (Z.eqb_sym q p). destruct (Z.eqb_spec p q) as [->|Hne]; [|done].
  rewrite (expo_notin q l) in H; [by rewrite Z.add_0_r in H|]. by apply (sorted_notin q l).
Qed.

Lemma cancel_run d r q l2 : (0 < r)%nat -> Forall (fun pe => prime (fst pe) /\ 0 < snd pe) l2 ->
  forall l1 x, cancel (length l2 + r) (length l1) q x (fill d (l1 ++ l2) r) = Some (x - expo q l2).
Proof.
  intros Hr. induction 1 as [|[m e] l2 [Hm He] Hl IH]; intros l1 x.
  - rewrite app_nil_r. cbn [List.length Nat.add expo]. destruct r as [|r]; [lia|]. cbn [cancel].
    destruct (fill_lookup d l1 (S r) (length l1)) as [_ H]. destruct (H eq_refl ltac:(lia)) as [-> ->].
    cbn. by rewrite Z.sub_0_r.
  - cbn [List.length Nat.add expo cancel].
    destruct (fill_lookup d (l1 ++ (m, e) :: l2) r (length l1)) as [H _].
    destruct (H m e) as [-> ->]; [by apply list_lookup_middle|]. apply prime_ge_2 in Hm. cbn [fst] in Hm.
    destruct (Z.eqb_spec m 1); [lia|]. destruct (q =? m); [done|]. cbn [negb].
    replace (S (length l1)) with (length (l1 ++ [(m, e)])) by (rewrite length_app; cbn; lia).
    replace (l1 ++ (m, e) :: l2) with ((l1 ++ [(m, e)]) ++ l2) by (by rewrite <- app_assoc). apply IH.
Qed.

(** ** Raising the exponents *)

Definition bump (expons : list Z) (qe : Z * Z) : list Z :=
  let q := Z.to_nat (fst qe) in if nth q expons 0 <? snd qe then <[q := snd qe]> expons else expons.

Lemma bump_length expons qe : length (bump expons qe) = length expons.
Proof. unfold bump. case_match; [apply length_insert|done]. Qed.

Lemma nth_bump q expons p e : 0 <= q -> 0 <= p -> (Z.to_nat p < length expons)%nat ->
  nth (Z.to_nat q) (bump expons (p, e)) 0
  = if q =? p then Z.max (nth (Z.to_nat q) expons 0) e else nth (Z.to_nat q) expons 0.
Proof.
  intros Hq Hp Hlen. unfold bump. cbn [fst snd]. destruct (Z.eqb_spec q p) as [->|Hne].
  - destruct (Z.ltb_spec (nth (Z.to_nat p) expons 0) e); [|lia].
    rewrite (nth_lookup_Some _ _ _ e); [lia|]. apply list_lookup_insert_eq. lia.
  - case_match; [|done]. rewrite !nth_lookup, list_lookup_insert_ne by lia. done.
Qed.

Lemma nth_bumps q l : 0 <= q -> forall expons, StronglySorted (fun a b => fst a < fst b) l ->
  Forall (fun pe => 0 <= fst pe < Z.of_nat (length expons)) l -> 0 <= nth (Z.to_nat q) expons 0 ->
  nth (Z.to_nat q) (fold_left bump l expons) 0 = Z.max (nth (Z.to_nat q) expons 0) (expo q l).
Proof.
  intros Hq. induction l as [|[p e] l IH]; intros expons Hs Hl Hx; cbn [fold_left expo]; [lia|].
  inversion Hs as [|? ? Hs' Hgt]; subst. inversion Hl as [|? ? Hp Hl']; subst. cbn [fst] in *.
  rewrite IH; [|done|by rewrite bump_length|]; rewrite nth_bump by lia; [|destruct (q =? p); lia].
  destruct (Z.eqb_spec q p) as [->|Hne]; [|done]. rewrite (expo_notin p l); [lia|].
  by apply (sorted_notin p l).
Qed.

Definition lower (g : list (Z * Z)) (qe : Z * Z) : Z * Z := (fst qe, snd qe - expo (fst qe) g).

Lemma nth_lookup_lt (l : list Z) i : (i < length l)%nat -> l !! i = Some (nth i l 0).
Proof. intros H. destruct (lookup_lt_is_Some_2 l i H) as [x Hx]. by rewrite (nth_lookup_Some _ _ _ _ Hx). Qed.

Section Raise.
Context (d d' r r' : nat) (lg : list (Z * Z)).
Context (Hr' : (0 < r')%nat) (Hlg : Forall (fun pe => prime (fst pe) /\ 0 < snd pe) lg).
Context (Hd' : d' = (length lg + r')%nat).

Lemma cancel_entry q x : cancel (fdim (fill d' lg r')) 0 q x (fill d' lg r') = Some (x - expo q lg).
Proof using Hr' Hlg Hd'. cbn [fdim fill]. rewrite Hd' at 1. by apply (cancel_run d' r' q lg Hr' Hlg []). Qed.

(** The unused slots change nothing. *)
Lemma raise_padding l expons n : forall k, (k + n = r)%nat -> (1 < length expons)%nat -> nth 1 expons 0 = 0 ->
  raise_expons n (length l + k) (fill d l r) (fill d' lg r') expons = Some expons.
Proof using Hr' Hlg Hd'.
  intros k Hk Hlen H1. revert k Hk. induction n as [|n IH]; intros k Hk; [done|]. cbn [raise_expons].
  assert (Hm : mlt (fill d l r) !! (length l + k)%nat = Some 1 /\ exp (fill d l r) !! (length l + k)%nat = Some 0).
  { cbn. rewrite !lookup_app_r by (rewrite length_fmap; lia). rewrite !length_fmap.
    replace (length l + k - length l)%nat with k by lia. by rewrite !lookup_repeat0 by lia. }
  destruct Hm as [-> ->]. rewrite cancel_entry, (expo_notin 1 lg).
  - rewrite (nth_lookup_lt expons) by (cbn; lia). change (Z.to_nat 1) with 1%nat. rewrite H1. cbn [Z.sub Z.ltb Z.compare].
    replace (S (length l + k)) with (length l + S k)%nat by lia. apply IH. lia.
  - intros (pe & E & Hin)%list_elem_of_fmap. rewrite Forall_forall in Hlg. destruct (Hlg pe Hin) as [Hp _].
    apply prime_ge_2 in Hp. lia.
Qed.

Lemma raise_run l2 : forall l1 expons, Forall (fun pe => 2 <= fst pe < Z.of_nat (length expons)) l2 ->
  (1 < length expons)%nat -> nth 1 expons 0 = 0 ->
  raise_expons (length l2 + r) (length l1) (fill d (l1 ++ l2) r) (fill d' lg r') expons
  = Some (fold_left bump (lower lg <$> l2) expons).
Proof using Hr' Hlg Hd'.
  induction l2 as [|[m e] l2 IH]; intros l1 expons Hl Hlen H1.
  - rewrite app_nil_r. cbn [List.length Nat.add]. rewrite <- (Nat.add_0_r (length l1)) at 1.
    by apply raise_padding.
  - apply Forall_cons in Hl as [Hm Hl']. cbn [fst] in Hm. cbn [List.length Nat.add raise_expons].
    destruct (fill_lookup d (l1 ++ (m, e) :: l2) r (length l1)) as [H _].
    destruct (H m e) as [-> ->]; [by apply list_lookup_middle|]. rewrite cancel_entry.
    rewrite (nth_lookup_lt expons) by lia. rewrite fmap_cons. cbn [fold_left].
    change (if nth (Z.to_nat m) expons 0 <? e - expo m lg then <[Z.to_nat m:=e - expo m lg]> expons else expons)
      with (bump expons (lower lg (m, e))).
    replace (S (length l1)) with (length (l1 ++ [(m, e)])) by (rewrite length_app; cbn; lia).
    replace (l1 ++ (m, e) :: l2) with ((l1 ++ [(m, e)]) ++ l2) by (by rewrite <- app_assoc).
    apply IH; rewrite ?bump_length; [done|done|].
    unfold lower. cbn [fst snd]. pose proof (nth_bump 1 expons m (e - expo m lg)) as Hb.
    change (Z.to_nat 1) with 1%nat in Hb. rewrite Hb by lia. destruct (Z.eqb_spec 1 m); [lia|done].
Qed.
End Raise.

(** ** The array represents the least common multiple *)

Definition expons_rep (L : Z) (expons : list Z) : Prop :=
  length expons = 60%nat /\ 0 < L
  /\ (forall i, 0 <= i -> 0 <= nth (Z.to_nat i) expons 0 /\ (nth (Z.to_nat i) expons 0 <> 0 -> prime i))
  /\ forall q, prime q -> val q L (nth (Z.to_nat q) expons 0).

Lemma expons_rep_start : expons_rep 1 (repeat 0 (Z.to_nat (maxprmfctr + 1))).
Proof.
  assert (H0 : forall i, nth i (repeat 0 (Z.to_nat (maxprmfctr + 1))) 0 = 0) by (intros; apply nth_repeat).
  split_and!; [done|lia| |].
  - intros i Hi. rewrite H0. lia.
  - intros q Hq. rewrite H0. by apply val_one.
Qed.

(** All prime divisors fit the array. *)
Definition smooth (n : Z) : Prop := forall q, prime q -> (q | n) -> q <= maxprmfctr.

Lemma expo_lower q lf lg : expo q (lower lg <$> lf)
  = if bool_decide (q ∈ lf.*1) then expo q lf - expo q lg else 0.
Proof.
  induction lf as [|[p e] lf IH]; [by rewrite bool_decide_false by apply not_elem_of_nil|].
  rewrite !fmap_cons. unfold lower at 1. cbn [expo fst snd]. destruct (Z.eqb_spec q p) as [->|Hne].
  - rewrite bool_decide_true by by left. done.
  - rewrite IH. erewrite bool_decide_ext; [reflexivity|]. rewrite elem_of_cons. tauto.
Qed.

Lemma raise_rep L n e f g expons : expons_rep L expons -> 0 < n -> 0 < e -> smooth n ->
  fct_rep n f -> fct_rep e g ->
  exists expons', raise_expons (fdim f) 0 f g expons = Some expons'
    /\ expons_rep (Z.lcm L (n / Z.gcd n e)) expons'.
Proof.
  intros (Hlen & HL & Hx & Hv) Hn He Hsm (lf & r & Hf & Hr & ->) (lg & r' & Hg & Hr' & ->).
  pose proof Hf as (Hlf & Hsf & Hvf). pose proof Hg as (Hlg & Hsg & Hvg).
  assert (Hfit : Forall (fun pe => 2 <= fst pe < Z.of_nat (length expons)) lf).
  { apply Forall_forall. intros [q x] Hin. rewrite Forall_forall in Hlf. destruct (Hlf _ Hin) as [Hq Hpos].
    cbn [fst snd] in *. pose proof (prime_ge_2 q Hq). split; [done|]. rewrite Hlen.
    enough (q <= maxprmfctr) by (unfold maxprmfctr in *; lia). apply Hsm; [done|]. rewrite <- Hvf.
    by apply (value_divide lf q x). }
  assert (H1 : nth 1 expons 0 = 0).
  { destruct (Hx 1 ltac:(lia)) as [_ H]. change (Z.to_nat 1) with 1%nat in H.
    destruct (Z.eq_dec (nth 1 expons 0) 0) as [?|Hne]; [done|]. by apply H, prime_ge_2 in Hne. }
  exists (fold_left bump (lower lg <$> lf) expons). split.
  { cbn [fdim fill]. apply (raise_run _ (length lg + r') r r' lg Hr' Hlg eq_refl lf []); [done|lia|done]. }
  assert (Hs' : StronglySorted (fun a b => fst a < fst b) (lower lg <$> lf)).
  { clear -Hsf. induction Hsf as [|a l Hs IH Ha]; [constructor|]. rewrite fmap_cons. constructor; [done|].
    apply Forall_fmap. eapply Forall_impl; [exact Ha|]. done. }
  assert (Hfit' : Forall (fun pe => 0 <= fst pe < Z.of_nat (length expons)) (lower lg <$> lf)).
  { apply Forall_fmap. eapply Forall_impl; [exact Hfit|]. cbn. lia. }
  assert (Hnth : forall i, 0 <= i -> nth (Z.to_nat i) (fold_left bump (lower lg <$> lf) expons) 0
    = Z.max (nth (Z.to_nat i) expons 0) (expo i (lower lg <$> lf))).
  { intros i Hi. apply nth_bumps; [done|done|done|]. by apply Hx. }
  assert (Hm : 0 < n / Z.gcd n e).
  { apply Z.div_str_pos. split.
    - pose proof (Z.gcd_nonneg n e). enough (Z.gcd n e <> 0) by lia. intros E. apply Z.gcd_eq_0_l in E. lia.
    - apply Z.divide_pos_le; [done|]. apply Z.gcd_divide_l. }
  split_and!.
  - rewrite <- Hlen. clear. generalize (lower lg <$> lf). intros l. revert expons.
    induction l as [|x l IH]; intros expons; [done|]. cbn [fold_left]. by rewrite IH, bump_length.
  - pose proof (Z.lcm_nonneg L (n / Z.gcd n e)). enough (Z.lcm L (n / Z.gcd n e) <> 0) by lia.
    intros E. apply Z.lcm_eq_0 in E. lia.
  - intros i Hi. rewrite Hnth by done. destruct (Hx i Hi) as [Hx0 Hxp]. split; [lia|]. intros Hne.
    destruct (Z.eq_dec (nth (Z.to_nat i) expons 0) 0) as [E|E]; [|by apply Hxp].
    rewrite E, expo_lower in Hne. destruct (bool_decide_reflect (i ∈ lf.*1)) as [Hin|]; [|lia].
    apply list_elem_of_fmap in Hin as (pe & -> & Hin). rewrite Forall_forall in Hlf. by apply Hlf.
  - intros q Hq. pose proof (prime_ge_2 q Hq). rewrite Hnth by lia.
    pose proof (val_quot_gcd q Hq n e _ _ Hn (val_factors q n lf Hq Hf) (val_factors q e lg Hq Hg)) as Hquot.
    pose proof (val_lcm q Hq L _ _ _ HL Hm (Hv q Hq) Hquot) as Hlcm.
    replace (Z.max (nth (Z.to_nat q) expons 0) (expo q (lower lg <$> lf)))
      with (Z.max (nth (Z.to_nat q) expons 0) (Z.max 0 (expo q lf - expo q lg))); [done|].
    destruct (Hx q ltac:(lia)) as [Hx0 _]. rewrite expo_lower. destruct (bool_decide_reflect (q ∈ lf.*1)) as [Hin|Hin]; [lia|].
    rewrite (expo_notin q lf Hin). pose proof (expo_nonneg q lg Hlg). lia.
Qed.

(** ** The mask *)

(** The order of the multiplier of an attribute. *)
Definition order_of (pe : Z * Z) : Z := (fst pe - 1) / Z.gcd (fst pe - 1) (snd pe).

Fixpoint lcm_dims (pes : list (Z * Z)) (mask : Z) : Z :=
  match pes with
  | [] => 1
  | pe :: pes' => if Z.odd mask then Z.lcm (order_of pe) (lcm_dims pes' (mask / 2)) else lcm_dims pes' (mask / 2)
  end.

(** What the tables must provide for an attribute. *)
Definition dim_ok (lim : Z) (pe : Z * Z) : Prop :=
  2 <= fst pe - 1 < lim /\ 2 <= snd pe < lim /\ smooth (fst pe - 1).

Lemma lcm_dims_pos lim pes : Forall (dim_ok lim) pes -> forall mask, 0 < lcm_dims pes mask.
Proof.
  induction 1 as [|pe pes [Hp _] Hpes IH]; intros mask; cbn [lcm_dims]; [lia|]. case_match; [|done].
  specialize (IH (mask / 2)). pose proof (Z.lcm_nonneg (order_of pe) (lcm_dims pes (mask / 2))).
  enough (Z.lcm (order_of pe) (lcm_dims pes (mask / 2)) <> 0) by lia. intros E. apply Z.lcm_eq_0 in E.
  enough (0 < order_of pe) by lia. apply Z.div_str_pos. split.
  - pose proof (Z.gcd_nonneg (fst pe - 1) (snd pe)). enough (Z.gcd (fst pe - 1) (snd pe) <> 0) by lia.
    intros E'. apply Z.gcd_eq_0_l in E'. lia.
  - apply Z.divide_pos_le; [lia|]. apply Z.gcd_divide_l.
Qed.

Lemma mask_loop_run lim t es : table_below lim t ->
  forall rest, Forall (dim_ok lim) rest -> forall fuel mask i L expons,
  rest = drop i (zip adcprime es) -> 0 <= mask < 2 ^ Z.of_nat (length rest) ->
  (length rest < fuel)%nat -> expons_rep L expons ->
  exists expons', mask_loop fuel mask i t es expons = Some expons'
    /\ expons_rep (Z.lcm L (lcm_dims rest mask)) expons'.
Proof.
  intros Ht rest Hrest. induction Hrest as [|[p e] rest (Hp & He & Hsm) Hrest IH];
    intros fuel mask i L expons Hdrop Hmask Hfuel Hrep; (destruct fuel as [|fuel]; [lia|]); cbn [mask_loop].
  - destruct (Z.ltb_spec 0 mask); [cbn in Hmask; lia|]. exists expons. split; [done|]. cbn [lcm_dims].
    rewrite Z.lcm_1_r, Z.abs_eq by (destruct Hrep as (_ & ? & _); lia). done.
  - cbn [fst snd List.length lcm_dims] in *.
    assert (Hz : zip adcprime es !! i = Some (p, e)).
    { rewrite <- (Nat.add_0_r i). rewrite <- lookup_drop, <- Hdrop. done. }
    assert (Hdrop' : rest = drop (S i) (zip adcprime es)).
    { rewrite <- Nat.add_1_r, <- drop_drop, <- Hdrop. done. }
    assert (Hhalf : 0 <= mask / 2 < 2 ^ Z.of_nat (length rest)).
    { rewrite Nat2Z.inj_succ, Z.pow_succ_r in Hmask by lia. split; [apply Z.div_pos; lia|].
      apply Z.div_lt_upper_bound; lia. }
    rewrite Z.shiftr_div_pow2 by lia. change (2 ^ 1) with 2.
    pose proof (Z.div_mod mask 2 ltac:(lia)) as Hdm. pose proof (Zmod_odd mask) as Hodd.
    destruct (Z.ltb_spec 0 mask) as [Hpos|Hpos].
    + destruct (Z.eqb_spec mask (2 * (mask / 2))) as [Heven|Hne].
      * destruct (Z.odd mask); [lia|]. apply IH; auto. lia.
      * destruct (Z.odd mask); [|lia]. apply lookup_zip_with_Some in Hz as (p0 & e0 & [= <- <-] & -> & ->).
        destruct (Ht (p - 1) Hp) as (f & -> & Hf). destruct (Ht e He) as (g & -> & Hg).
        destruct (raise_rep L (p - 1) e f g expons Hrep ltac:(lia) ltac:(lia) Hsm Hf Hg) as (expons1 & -> & Hrep1).
        destruct (IH fuel (mask / 2) (S i) _ expons1 Hdrop' Hhalf ltac:(lia) Hrep1) as (expons' & Hrun & Hrep').
        exists expons'. split; [done|]. rewrite Z.lcm_assoc. exact Hrep'.
    + assert (mask = 0) by lia. subst mask. exists expons. split; [done|]. cbn [Z.odd].
      change (0 / 2) with 0. enough (E : lcm_dims rest 0 = 1).
      { rewrite E, Z.lcm_1_r, Z.abs_eq by (destruct Hrep as (_ & ? & _); lia). done. }
      clear. induction rest as [|pe rest IH]; [done|]. cbn [lcm_dims Z.odd]. by change (0 / 2) with 0.
Qed.

(** ** The product *)

Fixpoint product (expons : list Z) (i : Z) : Z :=
  match expons with
  | [] => 1
  | e :: rest => i ^ e * product rest (i + 1)
  end.

(** Entries that are not zero stand at indices from 2 to 59. *)
Definition bases_ok (expons : list Z) (i : Z) : Prop :=
  forall k, 0 <= nth k expons 0 /\ (nth k expons 0 <> 0 -> 2 <= i + Z.of_nat k <= maxprmfctr).

Lemma bases_ok_cons e expons i : bases_ok (e :: expons) i ->
  0 <= e /\ (e <> 0 -> 2 <= i <= maxprmfctr) /\ bases_ok expons (i + 1).
Proof.
  intros H. pose proof (H 0%nat) as H0. cbn in H0. rewrite Z.add_0_r in H0. split_and!; [lia|tauto|].
  intros k. specialize (H (S k)). cbn [nth] in H. replace (i + 1 + Z.of_nat k) with (i + Z.of_nat (S k)) by lia. done.
Qed.

Lemma product_pos expons : forall i, bases_ok expons i -> 0 < product expons i.
Proof.
  induction expons as [|e expons IH]; intros i H; cbn [product]; [lia|].
  apply bases_ok_cons in H as (He & Hi & Hrest). apply Z.mul_pos_pos; [|by apply IH].
  destruct (Z.eq_dec e 0) as [->|Hne]; [lia|]. apply Z.pow_pos_nonneg; lia.
Qed.

Definition lcm_bound : Z := LARGE_NUM / maxprmfctr.

(** The result is the full product, or a partial one beyond the bound. *)
Definition capped (full r : Z) : Prop := full <= lcm_bound /\ r = full \/ lcm_bound < full /\ lcm_bound < r <= full.

Lemma lcm_while_run i e : forall LCM, 2 <= i <= maxprmfctr -> 1 <= LCM <= lcm_bound ->
  (exists r, lcm_while e i LCM = (r, true) /\ lcm_bound < r <= LCM * i ^ Z.of_nat e)
  \/ lcm_while e i LCM = (LCM * i ^ Z.of_nat e, false) /\ LCM * i ^ Z.of_nat e <= lcm_bound.
Proof.
  induction e as [|e IH]; intros LCM Hi HL; cbn [lcm_while].
  - right. change (i ^ Z.of_nat 0) with 1. rewrite Z.mul_1_r. split; [done|lia].
  - assert (Hs : s64 (LCM * i) = LCM * i).
    { apply wraps_id; [lia|]. unfold in_s, lcm_bound, maxprmfctr in *.
      assert (LCM * i <= LARGE_NUM / 59 * 59) by nia. 
      assert (LARGE_NUM / 59 * 59 < 2 ^ (64 - 1)) by reflexivity. nia. }
    rewrite Hs, Nat2Z.inj_succ, Z.pow_succ_r, Z.mul_assoc by lia.
    assert (0 < i ^ Z.of_nat e) by (apply Z.pow_pos_nonneg; lia).
    fold lcm_bound. destruct (Z.ltb_spec lcm_bound (LCM * i)).
    + left. exists (LCM * i). split; [done|]. nia.
    + destruct (IH (LCM * i) Hi ltac:(nia)) as [(r & E & Hr)|H']; [left; by exists r|by right].
Qed.

Lemma lcm_loop_run expons : forall i LCM, bases_ok expons i -> 1 <= LCM <= lcm_bound ->
  capped (LCM * product expons i) (lcm_loop expons i LCM).
Proof.
  induction expons as [|e expons IH]; intros i LCM H HL; cbn [lcm_loop product].
  - left. rewrite Z.mul_1_r. split; [lia|done].
  - pose proof (bases_ok_cons _ _ _ H) as (He & Hi & Hrest). pose proof (product_pos _ _ Hrest) as Hpos.
    rewrite Z.mul_assoc. destruct (Z.eq_dec e 0) as [->|Hne].
    + cbn [Z.to_nat lcm_while]. rewrite Z.pow_0_r, Z.mul_1_r. by apply IH.
    + assert (0 < i ^ e) by (apply Z.pow_pos_nonneg; lia).
      destruct (lcm_while_run i (Z.to_nat e) LCM (Hi Hne) HL) as [(r & -> & Hr)|[-> Hle]]; rewrite Z2Nat.id in * by lia.
      * right. split; nia.
      * apply IH; [done|]. split; [nia|done].
Qed.

Lemma val_product q expons : prime q -> forall i, 0 <= i ->
  (forall k, 0 <= nth k expons 0 /\ (nth k expons 0 <> 0 -> prime (i + Z.of_nat k))) ->
  val q (product expons i) (if q <? i then 0 else nth (Z.to_nat (q - i)) expons 0).
Proof.
  intros Hq. pose proof (prime_ge_2 q Hq). induction expons as [|e expons IH]; intros i Hi H'; cbn [product].
  - replace (if q <? i then 0 else nth (Z.to_nat (q - i)) [] 0) with 0; [by apply val_one|].
    case_match; [done|]. by destruct (Z.to_nat (q - i)).
  - destruct (H' 0%nat) as [He Hp]. cbn [nth] in He, Hp. rewrite Z.add_0_r in Hp.
    assert (Hrest := IH (i + 1) ltac:(lia)).
    assert (Hnext : forall k, 0 <= nth k expons 0 /\ (nth k expons 0 <> 0 -> prime (i + 1 + Z.of_nat k))).
    { intros k. specialize (H' (S k)). cbn [nth] in H'.
      by replace (i + 1 + Z.of_nat k) with (i + Z.of_nat (S k)) by lia. }
    specialize (Hrest Hnext).
    assert (Hpow : val q (i ^ e) (if i =? q then e else 0)).
    { destruct (Z.eq_dec e 0) as [->|Hne]; [|by apply val_prime_pow; auto].
      rewrite Z.pow_0_r. destruct (i =? q); by apply val_one. }
    pose proof (val_mul q Hq _ _ _ _ Hpow Hrest) as Hmul.
    assert (E : (if q <? i then 0 else nth (Z.to_nat (q - i)) (e :: expons) 0)
      = (if i =? q then e else 0) + (if q <? i + 1 then 0 else nth (Z.to_nat (q - (i + 1))) expons 0)); [|by rewrite E].
    destruct (Z.eqb_spec i q) as [->|Hne].
    + rewrite Z.ltb_irrefl, Z.sub_diag. destruct (Z.ltb_spec q (q + 1)); [|lia]. rewrite Z.add_0_r. done.
    + destruct (Z.ltb_spec q i), (Z.ltb_spec q (i + 1)); try lia.
      replace (Z.to_nat (q - i)) with (S (Z.to_nat (q - (i + 1)))) by lia. cbn [nth]. lia.
Qed.

Lemma product_of_rep L expons : expons_rep L expons -> product expons 0 = L /\ bases_ok expons 0.
Proof.
  intros (Hlen & HL & Hx & Hv).
  assert (Hk : forall k, 0 <= nth k expons 0 /\ (nth k expons 0 <> 0 -> prime (0 + Z.of_nat k))).
  { intros k. specialize (Hx (Z.of_nat k) ltac:(lia)). by rewrite Nat2Z.id in Hx. }
  assert (Hb : bases_ok expons 0).
  { intros k. destruct (Hk k) as [H0 Hp]. split; [done|]. intros Hne. specialize (Hp Hne).
    apply prime_ge_2 in Hp. split; [done|]. destruct (Nat.le_gt_cases 60 k).
    - rewrite nth_overflow in Hne by lia. done.
    - unfold maxprmfctr. lia. }
  split; [|done]. apply eq_of_vals; [by apply product_pos|done|]. intros q i Hq Hi.
  pose proof (val_product q expons Hq 0 ltac:(lia) Hk) as Hp. rewrite Z.sub_0_r in Hp.
  pose proof (prime_ge_2 q Hq). destruct (Z.ltb_spec q 0); [lia|].
  rewrite (val_unique _ _ _ _ Hi Hp). by apply Hv.
Qed.

(** ** GetLCM *)

Lemma GetLCM_run lim t es mask : table_below lim t -> Forall (dim_ok lim) (zip adcprime es) ->
  (length (zip adcprime es) < 64)%nat -> 0 <= mask < 2 ^ Z.of_nat (length (zip adcprime es)) ->
  exists r, GetLCM mask t es = Some r /\ capped (lcm_dims (zip adcprime es) mask) r.
Proof.
  intros Ht Hes Hlen Hmask. unfold GetLCM.
  destruct (mask_loop_run lim t es Ht _ Hes 64 mask 0 1 _ eq_refl Hmask Hlen expons_rep_start)
    as (expons & -> & Hrep).
  eexists. split; [reflexivity|]. rewrite Z.lcm_1_l in Hrep.
  rewrite Z.abs_eq in Hrep by (pose proof (lcm_dims_pos lim _ Hes mask); lia).
  destruct (product_of_rep _ _ Hrep) as [<- Hb]. rewrite <- (Z.mul_1_l (product expons 0)).
  apply lcm_loop_run; [done|]. split; [lia|]. discriminate.
Qed.

(** ** The constants are good *)

Definition fact59 : Z := foldr Z.mul 1 (Z.of_nat <$> seq 1 59).

Lemma prime_divides_product q l : prime q -> (q | foldr Z.mul 1 l) -> exists x, x ∈ l /\ (q | x).
Proof.
  intros Hq. induction l as [|x l IH]; cbn [foldr].
  - intros H. apply prime_ge_2 in Hq. apply Z.divide_1_r_nonneg in H; lia.
  - intros H. destruct (prime_mult q Hq _ _ H) as [H'|H'].
    + exists x. split; [by left|done].
    + destruct (IH H') as (y & Hy & Hd). exists y. split; [by right|done].
Qed.

Lemma smooth_of_fact n : n <> 0 -> fact59 mod n = 0 -> smooth n.
Proof.
  intros Hn Hm q Hq Hd. apply Z.mod_divide in Hm; [|done].
  destruct (prime_divides_product q (Z.of_nat <$> seq 1 59) Hq) as (x & Hx & Hqx); [by transitivity n|].
  apply list_elem_of_fmap in Hx as (k & -> & Hk%elem_of_seq). apply Z.divide_pos_le in Hqx; [|lia].
  unfold maxprmfctr. lia.
Qed.

Definition dim_okb (pe : Z * Z) : bool :=
  (2 <=? fst pe - 1) && (fst pe <=? 98717) && (2 <=? snd pe) && (snd pe <? 98717)
  && (fact59 mod (fst pe - 1) =? 0).

Lemma dims_okb_ok lim pes : 98717 <= lim -> forallb dim_okb pes = true -> Forall (dim_ok lim) pes.
Proof.
  intros Hlim H. apply Forall_forall. intros pe Hpe%list_elem_of_In. rewrite forallb_forall in H.
  specialize (H pe Hpe). unfold dim_okb in H. rewrite !andb_true_iff, !Z.leb_le, Z.ltb_lt, Z.eqb_eq in H.
  split_and!; [lia|lia|lia|lia|]. apply smooth_of_fact; [lia|apply H].
Qed.

(** The exponents of a class, for at most as many attributes as it has. *)
Definition class_ok (clss : ascii) (dcdim : nat) (es : list Z) : Prop :=
  class_expons clss = Some es /\ (1 <= dcdim <= length es)%nat.

Lemma class_expons_cases clss es : class_expons clss = Some es ->
  es = adcexp \/ es = adcexpS \/ es = adcexpW \/ es = adcexpA \/ es = adcexpB.
Proof. unfold class_expons. repeat case_match; intros; simplify_eq; tauto. Qed.

Lemma class_dims clss es lim : class_expons clss = Some es -> 98717 <= lim ->
  Forall (dim_ok lim) (zip adcprime es) /\ length (zip adcprime es) = length es /\ (length es <= 20)%nat.
Proof.
  intros H Hlim. destruct (class_expons_cases _ _ H) as [E|[E|[E|[E|E]]]]; subst es;
    (split; [apply dims_okb_ok; [done|vm_compute; reflexivity]|]); split; cbn; lia.
Qed.

(** ** The computed sizes *)

Definition size_of (es : list Z) (tnum i : Z) : Z := Z.min tnum (lcm_dims (zip adcprime es) i).

Lemma view_size_run clss dcdim es lim t tnum i : class_ok clss dcdim es -> table_below lim t ->
  98717 <= lim -> tnum <= lcm_bound -> 0 <= i < 2 ^ Z.of_nat dcdim ->
  view_size clss tnum t i = Some (size_of es tnum i).
Proof.
  intros [Hc Hd] Ht Hlim Htn Hi. unfold view_size. rewrite Hc.
  destruct (class_dims clss es lim Hc Hlim) as (Hes & Hlen & H20).
  destruct (GetLCM_run lim t es i Ht Hes) as (r & -> & Hr); [lia| |].
  { rewrite Hlen. split; [lia|]. eapply Z.lt_le_trans; [apply Hi|]. apply Z.pow_le_mono_r; lia. }
  f_equal. unfold size_of. destruct Hr as [[? ->]|[? ?]]; destruct (Z.ltb_spec tnum r) || destruct (Z.ltb_spec tnum (lcm_dims (zip adcprime es) i)); lia.
Qed.

Lemma dcview_loop_run clss dcdim es lim t tnum n : class_ok clss dcdim es -> table_below lim t ->
  98717 <= lim -> tnum <= lcm_bound -> forall i, (i + n <= 2 ^ dcdim)%nat ->
  dcview_loop n (Z.of_nat i) clss tnum t
  = Some ((fun k => mkDC (size_of es tnum (Z.of_nat k)) (Z.of_nat k)) <$> seq i n).
Proof.
  intros Hc Ht Hlim Htn. induction n as [|n IH]; intros i Hi; [done|]. cbn [dcview_loop seq].
  rewrite (view_size_run clss dcdim es lim) by (done || (split; [lia|]; pose proof (Nat2Z.inj_pow 2 dcdim); lia)).
  replace (Z.of_nat i + 1) with (Z.of_nat (S i)) by lia. rewrite IH by lia. done.
Qed.

Lemma size_of_pos clss es tnum i : class_expons clss = Some es -> 1 <= tnum -> 1 <= size_of es tnum i.
Proof.
  intros Hc Ht. unfold size_of. destruct (class_dims clss es 98717 Hc ltac:(lia)) as (Hes & _).
  pose proof (lcm_dims_pos 98717 _ Hes i). lia.
Qed.

(** ** Sorting and listing *)

#[local] Instance view_le_total : Total view_le.
Proof. intros a b. unfold view_le, CompareViewsBySize. repeat case_match; lia. Qed.

#[local] Instance view_le_trans : Transitive view_le.
Proof.
  intros a b c. unfold view_le, CompareViewsBySize.
  repeat match goal with |- context [?x <? ?y] => destruct (Z.ltb_spec x y) end; lia.
Qed.

Lemma qsort_views_spec l : qsort_views l ≡ₚ l /\ StronglySorted view_le (qsort_views l).
Proof. split; [apply merge_sort_Permutation|apply StronglySorted_merge_sort; apply _]. Qed.

(** The entry of the empty selection comes first, and is skipped. *)
Lemma skip_empty l : Forall (fun v => 1 <= vsize v) l ->
  drop 1 (qsort_views (mkDC 0 0 :: l)) ≡ₚ l
  /\ StronglySorted view_le (drop 1 (qsort_views (mkDC 0 0 :: l))).
Proof.
  intros Hl. destruct (qsort_views_spec (mkDC 0 0 :: l)) as [Hp Hs].
  destruct (qsort_views (mkDC 0 0 :: l)) as [|v s]; [by apply Permutation_nil_cons in Hp|]. cbn [drop].
  inversion Hs as [|? ? Hs' Hv]; subst. split; [|done].
  enough (v = mkDC 0 0) as -> by by apply Permutation_cons_inv in Hp.
  assert (Hin : mkDC 0 0 ∈ v :: s) by (rewrite Hp; by left).
  apply elem_of_cons in Hin as [<-|Hin]; [done|]. exfalso.
  rewrite Forall_forall in Hv, Hl. specialize (Hv _ Hin). 
  assert (Hvl : v ∈ mkDC 0 0 :: l) by (rewrite <- Hp; by left).
  apply elem_of_cons in Hvl as [->|Hvl].
  - apply Permutation_cons_inv in Hp. rewrite Hp in Hin. specialize (Hl _ Hin). cbn in Hl. lia.
  - specialize (Hl _ Hvl). unfold view_le, CompareViewsBySize in Hv. cbn in Hv.
    destruct (Z.ltb_spec 0 (vsize v)); lia.
Qed.

Lemma every_sublist vinc : (0 < vinc)%nat -> forall fuel l, sublist (every fuel vinc l) l.
Proof.
  intros Hv. induction fuel as [|fuel IH]; intros [|v l]; cbn [every]; try apply sublist_nil_l.
  destruct vinc as [|vinc]; [lia|]. cbn [drop]. apply sublist_skip.
  etransitivity; [apply IH|]. apply sublist_drop.
Qed.

Lemma every_all fuel : forall l, (length l <= fuel)%nat -> every fuel 1 l = l.
Proof.
  induction fuel as [|fuel IH]; intros [|v l] H; cbn [every List.length] in *; [done|lia|done|].
  cbn [drop]. rewrite drop_0. f_equal. apply IH. lia.
Qed.

(** ** The printed selections *)

Definition sel_of (dcdim : nat) (k : nat) : list nat := selection_loop dcdim 0 (Z.of_nat k).

Lemma selection_loop_filter idx n : forall j,
  selection_loop n j idx = List.filter (fun d => Z.testbit idx (Z.of_nat d - 1)) (seq (S j) n).
Proof.
  induction n as [|n IH]; intros j; [done|]. cbn [selection_loop seq List.filter]. rewrite IH.
  change (negb (Z.land (Z.shiftr idx (Z.of_nat j)) 1 =? 0)) with (hits (Z.shiftr idx (Z.of_nat j)) (2 ^ 0)).
  rewrite hits_pow2, Z.shiftr_spec, Z.add_0_l by lia. replace (Z.of_nat (S j) - 1) with (Z.of_nat j) by lia.
  by destruct (Z.testbit idx (Z.of_nat j)).
Qed.

Lemma sel_of_elem dcdim k d : d ∈ sel_of dcdim k <-> (1 <= d <= dcdim)%nat /\ Z.testbit (Z.of_nat k) (Z.of_nat d - 1) = true.
Proof.
  unfold sel_of. rewrite selection_loop_filter, list_elem_of_In, filter_In, in_seq. split; intros [? ?]; (split; [lia|done]).
Qed.

Lemma filter_seq_sorted (f : nat -> bool) n : forall a, StronglySorted lt (List.filter f (seq a n)).
Proof.
  induction n as [|n IH]; intros a; [constructor|]. cbn [seq List.filter]. case_match; [|done].
  constructor; [done|]. apply Forall_forall. intros d Hd. rewrite list_elem_of_In, filter_In, in_seq in Hd. lia.
Qed.

Lemma nat_bits_zero dcdim k : (k < 2 ^ dcdim)%nat ->
  (forall j, (j < dcdim)%nat -> Z.testbit (Z.of_nat k) (Z.of_nat j) = false) -> k = 0%nat.
Proof.
  intros Hk H. enough (Z.of_nat k = 0) by lia. apply Z.bits_inj'. intros j Hj. rewrite Z.bits_0.
  destruct (Z.lt_ge_cases j (Z.of_nat dcdim)).
  - replace j with (Z.of_nat (Z.to_nat j)) by lia. apply H. lia.
  - pose proof (Nat2Z.inj_pow 2 dcdim) as Hp. rewrite <- (Z.mod_small (Z.of_nat k) (2 ^ Z.of_nat dcdim)) by lia.
    apply Z.mod_pow2_bits_high. lia.
Qed.

Lemma sel_of_ok dcdim k : sel_ok dcdim (sel_of dcdim k) /\ StronglySorted lt (sel_of dcdim k)
  /\ ((1 <= k < 2 ^ dcdim)%nat -> sel_of dcdim k <> []).
Proof.
  split_and!.
  - apply Forall_forall. intros d Hd%sel_of_elem. lia.
  - unfold sel_of. rewrite selection_loop_filter. apply filter_seq_sorted.
  - intros Hk E. enough (k = 0%nat) by lia. apply (nat_bits_zero dcdim); [lia|]. intros j Hj.
    apply not_true_is_false. intros Hb. assert (Hin : S j ∈ sel_of dcdim k).
    { apply sel_of_elem. split; [lia|]. by replace (Z.of_nat (S j) - 1) with (Z.of_nat j) by lia. }
    rewrite E in Hin. by apply not_elem_of_nil in Hin.
Qed.

Lemma sel_of_inj dcdim k k' : (k < 2 ^ dcdim)%nat -> (k' < 2 ^ dcdim)%nat -> sel_of dcdim k = sel_of dcdim k' -> k = k'.
Proof.
  intros Hk Hk' E. enough (H : Z.of_nat k = Z.of_nat k') by lia. apply Z.bits_inj'. intros j Hj.
  destruct (Z.lt_ge_cases j (Z.of_nat dcdim)).
  - assert (Hd : forall m, Z.testbit (Z.of_nat m) j = true <-> S (Z.to_nat j) ∈ sel_of dcdim m).
    { intros m. rewrite sel_of_elem. replace (Z.of_nat (S (Z.to_nat j)) - 1) with j by lia.
      split; [intros; split; [lia|done]|tauto]. }
    apply Bool.eq_iff_eq_true. by rewrite !Hd, E.
  - pose proof (Nat2Z.inj_pow 2 dcdim) as Hp.
    rewrite <- (Z.mod_small (Z.of_nat k) (2 ^ Z.of_nat dcdim)), <- (Z.mod_small (Z.of_nat k') (2 ^ Z.of_nat dcdim)) by lia.
    by rewrite !Z.mod_pow2_bits_high by lia.
Qed.

(** ** CalculateVeiwSizes *)

Definition listed (dcdim : nat) (es : list Z) (tnum : Z) (k : nat) : list nat * Z :=
  (sel_of dcdim k, size_of es tnum (Z.of_nat k)).

Lemma last_of_primes l : primes_below UpPrimeLim l -> exists lastp, last l = Some lastp /\ 98717 <= lastp.
Proof.
  intros [Hs Hl].
  assert (Hin : 98717 ∈ l) by (apply Hl; split; [by apply primeb_prime; vm_compute|done]).
  clear Hl. destruct (last l) as [lastp|] eqn:E.
  - exists lastp. split; [done|]. apply last_Some in E as [l' ->].
    apply elem_of_app in Hin as [Hin|Hin]; [|by apply list_elem_of_singleton in Hin; subst].
    apply (StronglySorted_app_1_elem_of Z.lt l' [lastp] 98717 lastp) in Hs; [lia|done|by left].
  - apply last_None in E. subst l. by apply not_elem_of_nil in Hin.
Qed.

Lemma sublist_fmap {A B} (f : A -> B) l1 l2 : sublist l1 l2 -> sublist (f <$> l1) (f <$> l2).
Proof. induction 1; cbn; by constructor. Qed.

Lemma listed_views_run clss dcdim es tnum : class_ok clss dcdim es -> 1 <= tnum ->
  exists ks, listed_views dcdim clss ((fun k => mkDC (size_of es tnum (Z.of_nat k)) (Z.of_nat k)) <$> seq 1 (2 ^ dcdim - 1))
      = listed dcdim es tnum <$> ks
    /\ NoDup ks /\ (forall k, k ∈ ks -> (1 <= k < 2 ^ dcdim)%nat) /\ ks <> []
    /\ (vinc_of clss = 1%nat -> ks ≡ₚ seq 1 (2 ^ dcdim - 1)).
Proof.
  intros [Hc Hd] Htn. set (f := fun k => mkDC _ _). set (l := f <$> _).
  assert (Hpos : Forall (fun v => 1 <= vsize v) l).
  { apply Forall_fmap, Forall_forall. intros k _. cbn. by apply (size_of_pos clss). }
  destruct (skip_empty l Hpos) as [Hp _]. unfold listed_views. set (s := drop 1 _) in *.
  assert (Hv : (0 < vinc_of clss)%nat) by (unfold vinc_of; repeat case_match; cbn; lia).
  pose proof (every_sublist (vinc_of clss) Hv (2 ^ dcdim) s) as Hsub. set (ev := every _ _ s) in *.
  assert (Hev : Forall (fun v => exists k, v = f k /\ (1 <= k < 2 ^ dcdim)%nat) ev).
  { apply Forall_forall. intros v Hin. apply (elem_of_sublist _ _ _) with (2 := Hsub) in Hin. rewrite Hp in Hin.
    apply list_elem_of_fmap in Hin as (k & -> & Hk%elem_of_seq). exists k. split; [done|lia]. }
  assert (Hperm : forall x, x ≡ₚ l -> (fun v => Z.to_nat (vidx v)) <$> x ≡ₚ seq 1 (2 ^ dcdim - 1)).
  { intros x ->. unfold l. rewrite <- list_fmap_compose. erewrite list_fmap_ext; [by rewrite list_fmap_id|].
    intros i k _. cbn. apply Nat2Z.id. }
  exists ((fun v => Z.to_nat (vidx v)) <$> ev). split_and!.
  - rewrite <- list_fmap_compose. apply list_fmap_ext. intros i v Hi. cbn.
    destruct (Forall_lookup_1 _ _ _ _ Hev Hi) as (k & -> & _). unfold printed, listed, sel_of. cbn.
    by rewrite Nat2Z.id.
  - apply (sublist_NoDup _ ((fun v => Z.to_nat (vidx v)) <$> s)); [|by apply sublist_fmap].
    rewrite (Hperm s Hp). apply NoDup_seq.
  - intros k (v & -> & Hin)%list_elem_of_fmap. rewrite Forall_forall in Hev.
    destruct (Hev v Hin) as (k & -> & Hk). cbn. by rewrite Nat2Z.id.
  - apply Permutation_length in Hp. unfold l in Hp. rewrite length_fmap, length_seq in Hp.
    assert (H2 : (2 ^ 1 <= 2 ^ dcdim)%nat) by (apply Nat.pow_le_mono_r; lia). cbn in H2.
    unfold ev. destruct s as [|v s']; [cbn in Hp; lia|]. destruct (2 ^ dcdim)%nat; [lia|]. done.
  - intros Hone. apply Hperm. unfold ev. rewrite Hone, every_all; [done|].
    rewrite (Permutation_length Hp). unfold l. rewrite length_fmap, length_seq. lia.
Qed.

Lemma CalculateVeiwSizes_run clss dcdim es tnum : class_ok clss dcdim es -> 1 <= tnum <= lcm_bound ->
  exists ks, CalculateVeiwSizes UpPrimeLim dcdim tnum clss = Some (write_sizes (listed dcdim es tnum <$> ks))
    /\ NoDup ks /\ (forall k, k ∈ ks -> (1 <= k < 2 ^ dcdim)%nat) /\ ks <> []
    /\ (vinc_of clss = 1%nat -> ks ≡ₚ seq 1 (2 ^ dcdim - 1)).
Proof.
  intros Hc Htn. destruct (listed_views_run clss dcdim es tnum Hc ltac:(lia)) as (ks & E & Hks).
  exists ks. split; [|done]. unfold CalculateVeiwSizes.
  destruct (ListFirstPrimes_run (Z.to_nat UpPrimeLim) UpPrimeLim) as (prlist & -> & Hpr); [split; discriminate|lia|].
  destruct (last_of_primes prlist Hpr) as (lastp & Hlast & Hge).
  destruct (GetFactorization_run UpPrimeLim prlist lastp Hpr eq_refl Hlast ltac:(lia)) as (t & -> & Ht).
  change 1 with (Z.of_nat 1).
  rewrite (dcview_loop_run clss dcdim es lastp) by (done || lia || (pose proof (Nat.pow_nonzero 2 dcdim); lia)).
  by rewrite <- E.
Qed.
