(* ===== verification/GeneratorSpec.v ===== *)
(** * The generated data

    The attributes are periodic sequences whose periods are the orders of the
    multipliers; so the number of different keys of a view is what [GetLCM]
    computed. *)

From Stdlib Require Import ZArith Lia Znumtheory Zpow_facts Sorted Ascii String.
From stdpp Require Import base gmap numbers option sorting list.
From S2P Require Import Prelude Rows Cube ViewFiles Factor FactorSpec JobBits CubeSpec PartitionSpec Generator ViewSizesSpec.

Local Open Scope list_scope.
Local Open Scope Z_scope.
Local Abbreviation length := List.length.

(** ** Orders modulo [p] *)

Section Order.
Context (p m : Z) (Hp : 1 < p).

Lemma mod_mul_one x y : x mod p = 1 -> (x * y) mod p = 1 -> y mod p = 1.
Proof using Hp. intros Hx H. rewrite <- H. rewrite <- Z.mul_mod_idemp_l, Hx, Z.mul_1_l by lia. done. Qed.

Lemma pow_mul_one a k : 0 <= a -> 0 <= k -> m ^ a mod p = 1 -> m ^ (a * k) mod p = 1.
Proof using Hp.
  intros Ha Hk H. rewrite Z.pow_mul_r by done. rewrite Zpower_mod by lia. rewrite H, Z.pow_1_l by done.
  apply Z.mod_small. lia.
Qed.

Lemma gcd_one a : 0 <= a -> forall b, 0 <= b -> m ^ a mod p = 1 -> m ^ b mod p = 1 ->
  m ^ (Z.gcd a b) mod p = 1.
Proof using Hp.
  intros Ha. pattern a. apply Z_lt_induction; [|exact Ha]. clear a Ha. intros a IH b Hb H1 H2.
  destruct (Z.eq_dec a 0) as [->|Hne]; [by rewrite Z.gcd_0_l, Z.abs_eq|].
  destruct (Z.lt_ge_cases a 0) as [?|Ha]; [by rewrite Z.pow_neg_r, Z.mod_0_l in H1 by lia|].
  rewrite <- Z.gcd_mod by lia. pose proof (Z.mod_pos_bound b a ltac:(lia)).
  apply IH; [lia|lia| |done].
  apply (mod_mul_one (m ^ (a * (b / a)))).
  - apply pow_mul_one; [lia|apply Z.div_pos; lia|done].
  - rewrite <- Z.pow_add_r by (pose proof (Z.div_pos b a); nia). by rewrite <- Z.div_mod by lia.
Qed.

(** The exponents with value one are the multiples of the order. *)
Lemma order_divides o n : 0 < o -> 0 <= n -> m ^ o mod p = 1 ->
  (forall q, prime q -> (q | o) -> m ^ (o / q) mod p <> 1) -> m ^ n mod p = 1 <-> (o | n).
Proof using Hp.
  intros Ho Hn H1 Hmin. split.
  - intros H. pose proof (gcd_one o ltac:(lia) n Hn H1 H) as Hg.
    destruct (Z.gcd_divide_l o n) as [c Hc]. pose proof (Z.gcd_nonneg o n).
    assert (Hg0 : 0 < Z.gcd o n) by (destruct (Z.eq_dec (Z.gcd o n) 0) as [E|]; [rewrite E in Hc; lia|lia]).
    assert (Hc0 : 0 < c) by (apply (Z.mul_pos_cancel_r c (Z.gcd o n)); lia).
    destruct (Z.eq_dec c 1) as [->|Hne].
    + rewrite Z.mul_1_l in Hc. rewrite Hc. apply Z.gcd_divide_r.
    + exfalso. destruct (prime_divisor c ltac:(lia)) as (q & Hq & [c' Hc']). pose proof (prime_ge_2 q Hq).
      assert (E : o = Z.gcd o n * c' * q) by (rewrite Hc at 1; rewrite Hc'; ring).
      apply (Hmin q Hq); [by exists (Z.gcd o n * c')|]. rewrite E at 1. rewrite Z.div_mul by lia.
      apply pow_mul_one; [lia|nia|done].
  - intros [c ->]. assert (0 <= c) by nia. rewrite Z.mul_comm. apply pow_mul_one; [lia|done|done].
Qed.

(** ... so that the powers repeat with this period. *)
Lemma power_period o s a b : 0 < o -> m ^ o mod p = 1 ->
  (forall q, prime q -> (q | o) -> m ^ (o / q) mod p <> 1) -> (2 * s) mod p = 1 ->
  0 <= a <= b -> (s * m ^ a) mod p = (s * m ^ b) mod p <-> (o | b - a).
Proof using Hp.
  intros Ho H1 Hmin Hs Hab. rewrite <- (order_divides o (b - a) Ho ltac:(lia) H1 Hmin).
  assert (Hb : m ^ b = m ^ a * m ^ (b - a)) by (rewrite <- Z.pow_add_r by lia; f_equal; lia).
  assert (Hinv : (m ^ (o * a - a) * m ^ a) mod p = 1).
  { rewrite <- Z.pow_add_r by nia. replace (o * a - a + a) with (o * a) by lia.
    apply pow_mul_one; [lia|lia|done]. }
  split.
  - intros E. assert (E' : (m ^ (o * a - a) * (2 * (s * m ^ a))) mod p = (m ^ (o * a - a) * (2 * (s * m ^ b))) mod p).
    { rewrite (Z.mul_mod (m ^ (o * a - a)) (2 * (s * m ^ a))), (Z.mul_mod (m ^ (o * a - a)) (2 * (s * m ^ b))) by lia.
      rewrite (Z.mul_mod 2 (s * m ^ a)), (Z.mul_mod 2 (s * m ^ b)) by lia. by rewrite E. }
    replace (m ^ (o * a - a) * (2 * (s * m ^ a))) with (2 * s * (m ^ (o * a - a) * m ^ a)) in E' by ring.
    replace (m ^ (o * a - a) * (2 * (s * m ^ b))) with (2 * s * (m ^ (o * a - a) * m ^ a) * m ^ (b - a)) in E'
      by (rewrite Hb; ring).
    assert (Hone : (2 * s * (m ^ (o * a - a) * m ^ a)) mod p = 1).
    { rewrite Z.mul_mod, Hs, Hinv by lia. apply Z.mod_small. lia. }
    apply (mod_mul_one (2 * s * (m ^ (o * a - a) * m ^ a))); [done|]. by rewrite <- E'.
  - intros H. rewrite Hb, Z.mul_assoc, (Z.mul_mod (s * m ^ a) (m ^ (b - a))), H, Z.mul_1_r by lia.
    by rewrite Z.mod_mod by lia.
Qed.
End Order.

(** ** The multipliers *)

Definition prime_at (i : nat) : Z := nth i adcprime 0.
Definition mult_at (es : list Z) (i : nat) : Z := nth i adcgen0 0 ^ nth i es 0 mod prime_at i.

(** Attribute [i] of tuple [k], counting tuples from one. *)
Definition attr_at (es : list Z) (i k : nat) : Z :=
  ((prime_at i + 1) / 2 * mult_at es i ^ Z.of_nat k) mod prime_at i.

Definition order_okb (pge : Z * Z * Z) : bool :=
  let '(p, g, e) := pge in
  let m := Zpow_mod g e p in
  let o := order_of (p, e) in
  (2 <? p) && (p <? 2 ^ 17) && Z.odd p && (1 <=? g) && (g <=? 31) && (g <? p) && (1 <=? e) && (0 <? o)
  && (Zpow_mod m o p =? 1)
  && forallb (fun q => negb (o mod q =? 0) || negb (Zpow_mod m (o / q) p =? 1)) (Z.of_nat <$> seq 2 58).

Definition constants (es : list Z) : list (Z * Z * Z) := zip (zip adcprime adcgen0) es.

Lemma class_orders clss es : class_expons clss = Some es -> forallb order_okb (constants es) = true.
Proof.
  intros H. destruct (class_expons_cases _ _ H) as [E|[E|[E|[E|E]]]]; subst es; vm_compute; reflexivity.
Qed.

Record dim_good (es : list Z) (i : nat) : Prop := {
  dg_prime : 2 < prime_at i < 2 ^ 17;
  dg_odd : Z.odd (prime_at i) = true;
  dg_gen : 1 <= nth i adcgen0 0 <= 31 /\ nth i adcgen0 0 < prime_at i;
  dg_exp : 1 <= nth i es 0;
  dg_order : 0 < order_of (prime_at i, nth i es 0);
  dg_one : mult_at es i ^ order_of (prime_at i, nth i es 0) mod prime_at i = 1;
  dg_min : forall q, prime q -> (q | order_of (prime_at i, nth i es 0)) ->
    mult_at es i ^ (order_of (prime_at i, nth i es 0) / q) mod prime_at i <> 1
}.

Lemma class_dim_good clss es i : class_expons clss = Some es -> (i < length es)%nat -> dim_good es i.
Proof.
  intros Hc Hi. pose proof (class_orders clss es Hc) as Hall.
  destruct (class_dims clss es 98717 Hc ltac:(lia)) as (Hok & Hlen & H20).
  assert (Hp : adcprime !! i = Some (prime_at i)) by (apply nth_lookup_lt; cbn; lia).
  assert (Hg : adcgen0 !! i = Some (nth i adcgen0 0)) by (apply nth_lookup_lt; cbn; lia).
  assert (He : es !! i = Some (nth i es 0)) by (by apply nth_lookup_lt).
  set (p := prime_at i) in *. set (g := nth i adcgen0 0) in *. set (e := nth i es 0) in *.
  assert (Hz : zip (zip adcprime adcgen0) es !! i = Some (p, g, e)).
  { apply lookup_zip_with_Some. exists (p, g), e. split_and!; [done| |done].
    apply lookup_zip_with_Some. by exists p, g. }
  assert (Hz' : zip adcprime es !! i = Some (p, e)) by (apply lookup_zip_with_Some; by exists p, e).
  pose proof (Forall_lookup_1 _ _ _ _ Hok Hz') as (_ & _ & Hsm). cbn [fst] in Hsm.
  rewrite forallb_forall in Hall. specialize (Hall (p, g, e)).
  rewrite <- list_elem_of_In in Hall. specialize (Hall (list_elem_of_lookup_2 _ _ _ Hz)).
  unfold order_okb in Hall. rewrite !andb_true_iff, !Z.ltb_lt, !Z.leb_le, Z.eqb_eq in Hall.
  destruct Hall as (((((((((H1 & H2) & H3) & H4) & H5) & H5') & H6) & H7) & H8) & H9).
  assert (Hm : Zpow_mod g e p = mult_at es i) by (rewrite Zpow_mod_correct by lia; done).
  rewrite Hm in *. rewrite Zpow_mod_correct in H8 by lia.
  constructor; fold p g e; try done.
  intros q Hq Hd E. rewrite forallb_forall in H9. pose proof (prime_ge_2 q Hq).
  assert (Hq59 : q <= 59).
  { apply Hsm; [done|]. transitivity (order_of (p, e)); [done|]. exists (Z.gcd (p - 1) e).
    unfold order_of. cbn [fst snd]. rewrite Z.mul_comm. destruct (Z.gcd_divide_l (p - 1) e) as [c Hc'].
    rewrite Hc' at 2. rewrite Z.div_mul; [by rewrite Hc' at 1|]. intros E0. rewrite E0 in Hc'. lia. }
  assert (Hin : In q (Z.of_nat <$> seq 2 58)).
  { apply in_map_iff. exists (Z.to_nat q). rewrite in_seq. lia. }
  specialize (H9 q Hin). apply orb_prop in H9 as [H9|H9]; apply negb_true_iff, Z.eqb_neq in H9.
  - apply H9. by apply Z.mod_divide; [lia|].
  - apply H9. by rewrite Zpow_mod_correct by lia.
Qed.

(** Two tuples agree in an attribute exactly if the order divides the
    distance. *)
Lemma attr_period es i a b : dim_good es i -> (a <= b)%nat ->
  attr_at es i a = attr_at es i b <-> (order_of (prime_at i, nth i es 0) | Z.of_nat b - Z.of_nat a).
Proof.
  intros [Hp Hodd _ _ Ho H1 Hmin] Hab. unfold attr_at.
  apply power_period; [lia|done|done|done| |lia].
  assert (E : 2 * ((prime_at i + 1) / 2) = prime_at i + 1).
  { pose proof (Z.div_mod (prime_at i + 1) 2 ltac:(lia)). rewrite (Zmod_odd (prime_at i + 1)) in H.
    replace (Z.odd (prime_at i + 1)) with false in H; [lia|]. rewrite Z.odd_add, Hodd. done. }
  rewrite E. replace (prime_at i + 1) with (1 + 1 * prime_at i) by lia.
  rewrite Z.mod_add by lia. apply Z.mod_small. lia.
Qed.

Lemma lcm_dims_divide pes : forall mask n, 0 <= mask ->
  (lcm_dims pes mask | n) <-> forall i pe, pes !! i = Some pe -> Z.testbit mask (Z.of_nat i) = true -> (order_of pe | n).
Proof.
  induction pes as [|pe pes IH]; intros mask n Hmask; cbn [lcm_dims].
  - split; [done|]. intros _. apply Z.divide_1_l.
  - assert (Hrest : (lcm_dims pes (mask / 2) | n) <-> forall i pe', (pe :: pes) !! S i = Some pe' ->
      Z.testbit mask (Z.of_nat (S i)) = true -> (order_of pe' | n)).
    { rewrite IH by (apply Z.div_pos; lia).
      assert (Hbit : forall i, Z.testbit (mask / 2) (Z.of_nat i) = Z.testbit mask (Z.of_nat (S i))).
      { intros i. change (mask / 2) with (mask / 2 ^ 1). rewrite <- (Z.shiftr_div_pow2 mask 1) by lia.
        rewrite Z.shiftr_spec by lia. f_equal. lia. }
      split; intros H i pe' Hl Hb; (apply (H i pe' Hl); rewrite Hbit in * || rewrite <- Hbit in * ; done). }
    destruct (Z.odd mask) eqn:Hodd.
    + split.
      * intros H [|i] pe' Hl Hb.
        -- injection Hl as <-. transitivity (Z.lcm (order_of pe) (lcm_dims pes (mask / 2))); [apply Z.divide_lcm_l|done].
        -- revert Hl Hb. apply Hrest. transitivity (Z.lcm (order_of pe) (lcm_dims pes (mask / 2))); [apply Z.divide_lcm_r|done].
      * intros H. apply Z.lcm_least.
        -- apply (H 0%nat pe eq_refl). by rewrite Z.bit0_odd.
        -- apply Hrest. intros i pe' Hl Hb. by apply (H (S i) pe').
    + rewrite Hrest. split.
      * intros H [|i] pe' Hl Hb; [by rewrite Z.bit0_odd, Hodd in Hb|]. by apply (H i).
      * intros H i pe' Hl Hb. by apply (H (S i)).
Qed.

(** ** The tuples *)

Lemma locexp_class cl es : class_expons cl = Some es -> locexp_of cl = es.
Proof.
  unfold class_expons, locexp_of. destruct (Ascii.eqb_spec cl "U") as [->|Hne].
  - cbn. by intros [= <-].
  - repeat case_match; by intros [= <-].
Qed.

Lemma power_loop_run g p n : 1 <= g <= 31 -> 2 < p < 2 ^ 17 -> forall x, 0 <= x < p ->
  power_loop n g p x = if (n =? 0)%nat then x else (x * g ^ Z.of_nat n) mod p.
Proof.
  intros Hg Hp. induction n as [|n IH]; intros x Hx; [done|]. cbn [power_loop].
  rewrite (wraps_id 32 (x * g)) by (unfold in_s; nia). rewrite Z.rem_mod_nonneg by nia.
  pose proof (Z.mod_pos_bound (x * g) p ltac:(lia)). rewrite wraps_id by (unfold in_s; lia).
  rewrite IH by done. rewrite Nat2Z.inj_succ, Z.pow_succ_r by lia. cbn [Nat.eqb].
  destruct (Nat.eqb_spec n 0) as [->|_].
  - change (g ^ Z.of_nat 0) with 1. by rewrite Z.mul_1_r.
  - rewrite Z.mul_mod_idemp_l by lia. f_equal. ring.
Qed.

Lemma multiplier_run es i : dim_good es i ->
  power_loop (Z.to_nat (nth i es 0 - 1)) (nth i adcgen0 0) (prime_at i) (s32 (nth i adcgen0 0)) = mult_at es i.
Proof.
  intros [Hp _ [Hg Hgp] He _ _ _]. rewrite wraps_id by (unfold in_s; lia).
  rewrite power_loop_run by lia. unfold mult_at. rewrite Z2Nat.id by lia.
  rewrite <- Z.pow_succ_r by lia. replace (Z.succ (nth i es 0 - 1)) with (nth i es 0) by lia.
  destruct (Nat.eqb_spec (Z.to_nat (nth i es 0 - 1)) 0) as [E|]; [|done].
  replace (nth i es 0) with 1 by lia. rewrite Z.pow_1_r, Z.mod_small; lia.
Qed.

Section Run.
Context (es : list Z) (dcdim : nat).
Hypothesis Hgood : forall i, (i < dcdim)%nat -> dim_good es i.
Hypothesis Hdim : (dcdim <= length es)%nat.
Hypothesis H20 : (dcdim <= 20)%nat.

Lemma prime_lookup i : (i < dcdim)%nat -> adcprime !! i = Some (prime_at i).
Proof. intros. apply nth_lookup_lt. cbn. lia. Qed.

(** The arrays after [k] tuples. *)
Record gen_at (k : nat) (st : generator) : Prop := {
  ga_seeds : length (seed st) = 20%nat;
  ga_gen : forall i, (i < dcdim)%nat -> adcgen st !! i = Some (mult_at es i);
  ga_seed : forall i, (i < dcdim)%nat -> seed st !! i = Some (attr_at es i k)
}.

Lemma attr_range i k : (i < dcdim)%nat -> 0 <= attr_at es i k < prime_at i.
Proof. intros Hi. destruct (Hgood i Hi). apply Z.mod_pos_bound. lia. Qed.

Lemma attr_next i k : (i < dcdim)%nat -> (attr_at es i k * mult_at es i) mod prime_at i = attr_at es i (S k).
Proof.
  intros Hi. destruct (Hgood i Hi). unfold attr_at. rewrite Z.mul_mod_idemp_l by lia.
  rewrite Nat2Z.inj_succ, Z.pow_succ_r by lia. f_equal. ring.
Qed.

Lemma init_loop_run n : forall i st, (i + n = dcdim)%nat -> length (seed st) = 20%nat ->
  (forall j, (j < i)%nat -> adcgen st !! j = Some (mult_at es j) /\ seed st !! j = Some (attr_at es j 0)) ->
  (forall j, (i <= j < dcdim)%nat -> adcgen st !! j = Some (nth j adcgen0 0)) ->
  exists st', init_loop n i es st = Some st' /\ gen_at 0 st' /\ g_tuplenum st' = g_tuplenum st.
Proof.
  induction n as [|n IH]; intros i st Hi Hlen Hdone Hrest.
  - exists st. split_and!; [done| |done]. constructor; [done|..]; intros j Hj; apply Hdone; lia.
  - cbn [init_loop]. rewrite (Hrest i) by lia. rewrite (nth_lookup_lt es i) by lia. rewrite prime_lookup by lia.
    destruct (Nat.ltb_spec i (length (seed st))); [|lia]. rewrite multiplier_run by (apply Hgood; lia).
    assert (Hgl : (i < length (adcgen st))%nat) by (apply lookup_lt_is_Some_1; rewrite (Hrest i) by lia; eauto).
    destruct (IH (S i) (mkGen (g_tuplenum st) (<[i:=(prime_at i + 1) / 2]> (seed st))
      (<[i:=mult_at es i]> (adcgen st)))) as (st' & -> & Hst'); cbn [seed adcgen g_tuplenum] in *.
    + lia.
    + by rewrite length_insert.
    + intros j Hj. destruct (decide (j = i)) as [->|Hne].
      * rewrite !list_lookup_insert_eq by lia. split; [done|]. f_equal. unfold attr_at.
        change (mult_at es i ^ Z.of_nat 0) with 1. rewrite Z.mul_1_r. symmetry. apply Z.mod_small.
        destruct (Hgood i) as [Hp _]; [lia|]. split; [apply Z.div_pos; lia|]. apply Z.div_lt_upper_bound; lia.
      * rewrite !list_lookup_insert_ne by done. apply Hdone. lia.
    + intros j Hj. rewrite list_lookup_insert_ne by lia. apply Hrest. lia.
    + exists st'. done.
Qed.

Lemma attr_loop_run k gens n : forall i seeds mx, (i + n = dcdim)%nat -> length seeds = 20%nat ->
  (forall j, (j < dcdim)%nat -> gens !! j = Some (mult_at es j)) ->
  (forall j, (i <= j < dcdim)%nat -> seeds !! j = Some (attr_at es j k)) ->
  exists seeds' mx', attr_loop n i gens seeds mx = Some ((fun j => attr_at es j (S k)) <$> seq i n, seeds', mx')
    /\ length seeds' = 20%nat
    /\ (forall j, (j < i)%nat -> seeds' !! j = seeds !! j)
    /\ (forall j, (i <= j < dcdim)%nat -> seeds' !! j = Some (attr_at es j (S k))).
Proof.
  induction n as [|n IH]; intros i seeds mx Hi Hlen Hg Hs.
  - exists seeds, mx. split_and!; try done. intros j Hj. lia.
  - cbn [attr_loop seq]. rewrite (Hs i), (Hg i), prime_lookup by lia.
    pose proof (attr_range i k ltac:(lia)) as Hr. destruct (Hgood i ltac:(lia)) as [Hp _ _ _ _ _ _].
    assert (Hm : 0 <= mult_at es i < prime_at i) by (apply Z.mod_pos_bound; lia).
    assert (Hb : 0 <= attr_at es i k * mult_at es i < 2 ^ 34) by nia.
    rewrite (wraps_id 64 (attr_at es i k * mult_at es i)) by (unfold in_s; lia).
    rewrite Z.quot_div_nonneg by lia.
    pose proof (Z.div_mod (attr_at es i k * mult_at es i) (prime_at i) ltac:(lia)) as Hdm.
    pose proof (Z.mod_pos_bound (attr_at es i k * mult_at es i) (prime_at i) ltac:(lia)) as Hmb.
    rewrite (wraps_id 64 (prime_at i * _)) by (unfold in_s; lia).
    replace (attr_at es i k * mult_at es i - prime_at i * (attr_at es i k * mult_at es i / prime_at i))
      with (attr_at es i (S k)) by (rewrite <- attr_next by lia; lia).
    pose proof (attr_range i (S k) ltac:(lia)). rewrite (wraps_id 64 (attr_at es i (S k))) by (unfold in_s; lia).
    destruct (IH (S i) (<[i := attr_at es i (S k)]> seeds) (if mx <? attr_at es i (S k) then s32 (attr_at es i (S k)) else mx))
      as (seeds' & mx' & -> & Hlen' & Hlow & Hhigh); [lia|by rewrite length_insert|done| |].
    + intros j Hj. rewrite list_lookup_insert_ne by lia. apply Hs. lia.
    + exists seeds', mx'. split_and!; [done|done| |].
      * intros j Hj. rewrite Hlow by lia. by rewrite list_lookup_insert_ne by lia.
      * intros j Hj. destruct (decide (j = i)) as [->|Hne].
        -- rewrite Hlow by lia. by rewrite list_lookup_insert_eq by lia.
        -- apply Hhigh. lia.
Qed.

(** The state after [k] tuples. *)
Definition state_at (k : nat) (st : generator) : Prop :=
  k = 0%nat /\ st = gen_start \/ (1 <= k)%nat /\ g_tuplenum st = Z.of_nat k /\ gen_at k st.

Lemma GetNextTuple_run cl nm k st : locexp_of cl = es -> (nm <= 20)%nat -> Z.of_nat (S k) < 2 ^ 31 ->
  state_at k st ->
  exists mes st', GetNextTuple dcdim nm cl st
      = Some (Some ((fun j => attr_at es j (S k)) <$> seq 0 dcdim, mes), st')
    /\ length mes = nm /\ state_at (S k) st'.
Proof.
  intros Hcl Hnm Hk Hst. unfold GetNextTuple. destruct (Nat.ltb_spec maxdim dcdim); [unfold maxdim in *; lia|].
  destruct (Z.ltb_spec measbound (Z.of_nat nm)); [unfold measbound in *; lia|].
  assert (Hinit : exists st1, (if g_tuplenum st =? 0 then init_loop dcdim 0 (locexp_of cl) st else Some st) = Some st1
    /\ gen_at k st1 /\ g_tuplenum st1 = Z.of_nat k).
  { destruct Hst as [[-> ->]|(Hk1 & Htn & Hga)].
    - cbn [g_tuplenum gen_start Z.eqb]. rewrite Hcl.
      destruct (init_loop_run dcdim 0 gen_start) as (st1 & -> & Hga & Htn); [lia|done|lia| |by exists st1].
      intros j Hj. cbn [adcgen gen_start]. apply nth_lookup_lt. cbn. lia.
    - rewrite Htn. destruct (Z.eqb_spec (Z.of_nat k) 0); [lia|]. by exists st. }
  destruct Hinit as (st1 & -> & [Hlen Hg Hs] & Htn).
  destruct (attr_loop_run k (adcgen st1) dcdim 0 (seed st1) 0) as (seeds & mx & -> & Hlen' & _ & Hs');
    [lia|done|done|intros j Hj; apply Hs; lia|].
  destruct (Nat.ltb_spec (length seeds) nm); [lia|]. eexists _, _. split; [reflexivity|]. split.
  - rewrite length_fmap, length_take. lia.
  - right. split; [lia|]. cbn [g_tuplenum seed adcgen]. split.
    + rewrite Htn, wraps_id by (unfold in_s; lia). lia.
    + constructor; cbn [seed adcgen]; [done|done|]. intros j Hj. apply Hs'. lia.
Qed.

(** The key of tuple [k] as it is written. *)
Definition key_at (inverse : Z) (i k : nat) : Z :=
  if inverse =? 1 then swap4 (u32 (attr_at es i k)) else u32 (attr_at es i k).

Lemma generate_loop_run par n : forall k st, dim par = dcdim -> locexp_of (clss par) = es -> (mnum par <= 20)%nat ->
  Z.of_nat (k + n) < 2 ^ 31 -> state_at k st ->
  exists rows st', generate_loop n par st = Some (Some rows, st')
    /\ ks <$> rows = (fun k' => (fun i => key_at (inverse_endian par) i k') <$> seq 0 dcdim) <$> seq (S k) n
    /\ Forall (row_ok dcdim (mnum par)) rows.
Proof.
  intros k0 st0 Hd Hcl Hnm. revert k0 st0. induction n as [|n IH]; intros k st Hk Hst.
  - eexists [], st. by split_and!.
  - cbn [generate_loop seq]. rewrite Hd.
    destruct (GetNextTuple_run (clss par) (mnum par) k st Hcl Hnm ltac:(lia) Hst) as (mes & st1 & -> & Hmes & Hst1).
    destruct (IH (S k) st1 ltac:(lia) Hst1) as (rows & st' & -> & Hks & Hok).
    eexists _, _. split; [reflexivity|]. rewrite !fmap_cons, Hks. split.
    + f_equal. unfold written_row. cbn [ks]. rewrite <- list_fmap_compose. done.
    + constructor; [|done]. split; cbn [ks ms written_row]; rewrite !length_fmap; [by rewrite length_seq|done].
Qed.

Lemma key_at_inj inverse i k k' : (i < dcdim)%nat -> key_at inverse i k = key_at inverse i k' <-> attr_at es i k = attr_at es i k'.
Proof.
  intros Hi. unfold key_at. pose proof (attr_range i k Hi). pose proof (attr_range i k' Hi).
  destruct (Hgood i Hi) as [Hp _ _ _ _ _ _].
  rewrite !wrapu_id by (unfold in_u; lia). case_match; [|done]. split; [|by intros ->].
  intros E. rewrite <- (swap4_swap4 (attr_at es i k)), <- (swap4_swap4 (attr_at es i k')) by (unfold in_u; lia).
  by rewrite E.
Qed.
End Run.

(** ** Counting keys *)

Lemma agg_insert_keys nd nm r v key : row_ok nd nm r -> Forall (row_ok nd nm) v ->
  key ∈ ks <$> agg_insert nd nm r v <-> key = ks r \/ key ∈ ks <$> v.
Proof.
  intros Hr Hv. induction Hv as [|x v Hx Hv IH].
  - cbn. rewrite list_elem_of_singleton, elem_of_nil. tauto.
  - destruct (key_cases nd nm r x Hr Hx) as [H|[H|H]].
    + rewrite ins_lt by done. rewrite !fmap_cons, !elem_of_cons. tauto.
    + rewrite ins_eq by done. rewrite !fmap_cons, !elem_of_cons. cbn [merge_row ks]. rewrite H. tauto.
    + rewrite ins_gt by done. rewrite !fmap_cons, !elem_of_cons, IH. tauto.
Qed.

Lemma aggregate_keys nd nm l key : Forall (row_ok nd nm) l ->
  key ∈ ks <$> aggregate nd nm l <-> key ∈ ks <$> l.
Proof.
  induction l as [|r l IH] using rev_ind; [done|]. intros [Hl Hr]%Forall_app.
  rewrite aggregate_snoc, agg_insert_keys, (IH Hl), fmap_app, elem_of_app.
  - cbn. rewrite list_elem_of_singleton. tauto.
  - by inversion Hr.
  - by apply aggregate_ok.
Qed.

Lemma aggregate_keys_NoDup nd nm l : Forall (row_ok nd nm) l -> NoDup (ks <$> aggregate nd nm l).
Proof.
  intros Hl. pose proof (aggregate_sorted nd nm l Hl) as Hs. induction Hs as [|r v Hs IH Hr]; [constructor|].
  rewrite fmap_cons. constructor; [|done]. intros (r' & E & Hr')%list_elem_of_fmap.
  rewrite Forall_forall in Hr. specialize (Hr r' Hr'). unfold key_lt in Hr. rewrite E, KeyComp_refl in Hr. lia.
Qed.

(** A sequence that repeats with period [L] has [min N L] values in its
    first [N] members. *)
Lemma distinct_count {A} (f : nat -> A) (L : Z) (N : nat) (V : list A) : 0 < L ->
  (forall a b, (a <= b)%nat -> f a = f b <-> (L | Z.of_nat b - Z.of_nat a)) ->
  NoDup V -> (forall x, x ∈ V <-> x ∈ f <$> seq 1 N) -> Z.of_nat (length V) = Z.min (Z.of_nat N) L.
Proof.
  intros HL Hf HV Hsame. set (M := Z.to_nat (Z.min (Z.of_nat N) L)).
  enough (Hp : V ≡ₚ f <$> seq 1 M).
  { rewrite (Permutation_length Hp), length_fmap, length_seq. unfold M. lia. }
  apply NoDup_Permutation; [done| |].
  - apply NoDup_ListNoDup, (NoDup_nth _ (f 0%nat)). rewrite length_fmap, length_seq. intros i j Hi Hj.
    assert (Hnth : forall i, (i < M)%nat -> nth i (f <$> seq 1 M) (f 0%nat) = f (S i)).
    { intros n Hn. apply nth_lookup_Some. rewrite list_lookup_fmap, lookup_seq_lt by done. done. }
    rewrite !Hnth by done. intros E.
    assert (Hcase : forall a b, (a <= b < M)%nat -> f (S a) = f (S b) -> a = b).
    { intros a b Hab Hfe. apply Hf in Hfe; [|lia]. destruct Hfe as [c Hc].
      assert (c = 0); [|lia]. unfold M in Hab. nia. }
    destruct (Nat.le_gt_cases i j); [by apply Hcase|]. symmetry. apply Hcase; [lia|done].
  - intros x. rewrite Hsame, !list_elem_of_fmap. split.
    + intros (k & -> & Hk%elem_of_seq). pose proof (Z.mod_pos_bound (Z.of_nat k - 1) L HL) as Hm.
      pose proof (Z.div_mod (Z.of_nat k - 1) L ltac:(lia)) as Hd.
      assert (0 <= (Z.of_nat k - 1) / L) by (apply Z.div_pos; lia).
      exists (S (Z.to_nat ((Z.of_nat k - 1) mod L))). split.
      * symmetry. apply Hf; [nia|]. exists ((Z.of_nat k - 1) / L). lia.
      * apply elem_of_seq. unfold M. nia.
    + intros (k & -> & Hk%elem_of_seq). exists k. split; [done|]. apply elem_of_seq. unfold M in Hk. lia.
Qed.

(** ** Sizes of the views of generated data *)

Lemma fmap_eq_iff {A B} (f g : A -> B) (l : list A) : f <$> l = g <$> l <-> forall x, x ∈ l -> f x = g x.
Proof.
  induction l as [|a l IH]; [split; [by intros _ x ?%not_elem_of_nil|done]|].
  rewrite !fmap_cons. split.
  - intros [= E1 E2] x [->|Hx]%elem_of_cons; [done|]. by apply IH.
  - intros H. f_equal; [apply H; by left|]. apply IH. intros x Hx. apply H. by right.
Qed.

Section Sizes.
Context (cl : ascii) (es : list Z) (dcdim nm : nat) (inverse : Z) (rows : list row).
Hypothesis Hc : class_ok cl dcdim es.
Hypothesis Hrows : Forall (row_ok dcdim nm) rows.
Hypothesis Hks : ks <$> rows
  = (fun k => (fun i => key_at es inverse i k) <$> seq 0 dcdim) <$> seq 1 (length rows).

Lemma dims_good i : (i < dcdim)%nat -> dim_good es i.
Proof. destruct Hc as [Hc1 Hc2]. intros Hi. apply (class_dim_good cl); [done|lia]. Qed.

Lemma key_inj i k k' : (i < dcdim)%nat -> key_at es inverse i k = key_at es inverse i k' <-> attr_at es i k = attr_at es i k'.
Proof.
  destruct Hc as [Hc1 Hc2]. destruct (class_dims cl es 98717 Hc1 ltac:(lia)) as (_ & _ & H20).
  apply key_at_inj; [exact dims_good|lia..].
Qed.

(** The projected key of tuple [k]. *)
Definition proj_key (sel : list nat) (k : nat) : list Z := (fun d => key_at es inverse (d - 1) k) <$> sel.

Lemma projected_keys sel : sel_ok dcdim sel -> ks <$> (project sel <$> rows) = proj_key sel <$> seq 1 (length rows).
Proof.
  intros Hsel. rewrite <- list_fmap_compose.
  assert (E : (ks ∘ project sel) <$> rows = (fun key => (fun d => nth (d - 1) key 0) <$> sel) <$> (ks <$> rows))
    by (by rewrite <- list_fmap_compose).
  rewrite E, Hks, <- list_fmap_compose. apply list_fmap_ext. intros j k _. cbn. unfold proj_key.
  apply fmap_eq_iff. intros d Hd. unfold sel_ok in Hsel. rewrite Forall_forall in Hsel.
  specialize (Hsel d Hd). cbn in Hsel. apply nth_lookup_Some.
  rewrite list_lookup_fmap, lookup_seq_lt by lia. done.
Qed.

Lemma proj_key_period idx a b : (idx < 2 ^ dcdim)%nat -> (a <= b)%nat ->
  proj_key (sel_of dcdim idx) a = proj_key (sel_of dcdim idx) b
  <-> (lcm_dims (zip adcprime es) (Z.of_nat idx) | Z.of_nat b - Z.of_nat a).
Proof.
  intros Hidx Hab. destruct Hc as [Hc1 Hc2]. destruct (class_dims cl es 98717 Hc1 ltac:(lia)) as (_ & Hlen & H20).
  unfold proj_key. rewrite fmap_eq_iff, lcm_dims_divide by lia.
  assert (Hz : forall i, (i < dcdim)%nat -> zip adcprime es !! i = Some (prime_at i, nth i es 0)).
  { intros i Hi. apply lookup_zip_with_Some. exists (prime_at i), (nth i es 0).
    split_and!; [done|apply nth_lookup_lt; cbn; lia|apply nth_lookup_lt; lia]. }
  split.
  - intros H i pe Hl Hb.
    assert (Hi : (i < dcdim)%nat).
    { destruct (Nat.lt_ge_cases i dcdim); [done|]. pose proof (Nat2Z.inj_pow 2 dcdim) as Hp.
      rewrite <- (Z.mod_small (Z.of_nat idx) (2 ^ Z.of_nat dcdim)), Z.mod_pow2_bits_high in Hb by lia. done. }
    rewrite Hz in Hl by done. injection Hl as <-. apply (attr_period es i a b (dims_good i Hi) Hab).
    apply (key_inj i a b Hi). specialize (H (S i)).
    cbn [Nat.sub] in H. rewrite Nat.sub_0_r in H. apply H. apply sel_of_elem. split; [lia|].
    by replace (Z.of_nat (S i) - 1) with (Z.of_nat i) by lia.
  - intros H d [Hd Hb]%sel_of_elem. apply (key_inj (d - 1)); [lia|].
    apply (attr_period es (d - 1) a b (dims_good (d - 1) ltac:(lia)) Hab).
    apply (H (d - 1)%nat (prime_at (d - 1), nth (d - 1) es 0)); [apply Hz; lia|].
    by replace (Z.of_nat (d - 1)) with (Z.of_nat d - 1) by lia.
Qed.

Lemma generated_view_size idx : (idx < 2 ^ dcdim)%nat ->
  Z.of_nat (length (view_of dcdim nm rows (CreateBinTuple (sel_of dcdim idx))))
  = size_of es (Z.of_nat (length rows)) (Z.of_nat idx).
Proof.
  intros Hidx. destruct Hc as [Hc1 Hc2]. destruct (class_dims cl es 98717 Hc1 ltac:(lia)) as (Hok & Hlen & H20).
  destruct (sel_of_ok dcdim idx) as (Hsel & Hsort & _). unfold view_of.
  rewrite (reg_of_bin (sel_of dcdim idx) dcdim) by (done || lia).
  set (sel := sel_of dcdim idx) in *.
  assert (Hproj : Forall (row_ok (length sel) nm) (project sel <$> rows)).
  { apply Forall_fmap. eapply Forall_impl; [exact Hrows|]. intros r Hr. by apply (project_key_map dcdim nm sel). }
  rewrite <- (length_fmap ks). apply (distinct_count (proj_key sel)).
  - apply (lcm_dims_pos 98717 _ Hok).
  - intros a b Hab. by apply proj_key_period.
  - by apply aggregate_keys_NoDup.
  - intros x. rewrite aggregate_keys by done. by rewrite projected_keys.
Qed.
End Sizes.
