(* ===== verification/Benchmark.v ===== *)
(** * The benchmark: ViewSizesVerification and ComputeGivenGroupbys of
      DC/extbuild.c, DC and Verify of DC/dc.c

    After the views were made, the recorded view sizes are compared with the
    file of the generator.  The tasks run in parallel; each adds its results
    to a shared record in a critical section, in any order. *)

From Stdlib Require Import ZArith Lia Ascii String.
From stdpp Require Import base gmap numbers option list.
From S2P Require Import Prelude Rows RBTree ViewFiles ExtSort JobBits JobPool Cube Generator.

Local Open Scope string_scope.
Local Open Scope list_scope.
Local Open Scope Z_scope.
Local Abbreviation length := List.length.

Definition ADC_VERIFICATION_FAILED : Z := 7.

(** ** ViewSizesVerification *)

(** [for (i = 0; i <= nViewLimit; i++) viewCounts[i] = 0]: the counters are
    the pool, read as 32-bit words; [n] is [nViewLimit + 1]. *)
Definition zero_counts (n : nat) (pool : list Z) : option (list Z) :=
  if (length pool <? n)%nat then None else Some (repeat 0 n ++ drop n pool).

(** [while (fread(...)) viewCounts[selection_viewSize[0]] = selection_viewSize[1]]. *)
Fixpoint record_counts (sizes : list (Z * Z)) (viewCounts : list Z) : option (list Z) :=
  match sizes with
  | [] => Some viewCounts
  | (sel, n) :: sizes' =>
      if (Z.to_nat sel <? length viewCounts)%nat
      then record_counts sizes' (<[Z.to_nat sel := n]> viewCounts) else None
  end.

(** The loop over the words of the sizes file: the return code and the flag
    [verificationFailed]. *)
Fixpoint verify_words (fuel : nat) (nTop : nat) (nInputRecs numberOfMadeViews : Z)
    (viewCounts : list Z) (sel : list nat) (failed : Z) (words : list string) : option (Z * Z) :=
  match fuel with
  | O => None
  | S fuel' =>
      match words with
      | [] => Some (ADC_OK, failed)
      | w :: words' =>
          if String.eqb w "Selection:" then
            match read_selection sel words' with
            | None => None
            | Some (sel', words'') =>
                verify_words fuel' nTop nInputRecs numberOfMadeViews viewCounts sel' failed words''
            end
          else if String.eqb w "Size:" then
            match words' with
            | [] => None
            | n :: words'' =>
                let sz := u32 (atoi n) in
                let tx := CreateBinTuple sel in
                let iTx := u32 (Z.shiftr tx (64 - Z.of_nat nTop)) in
                let failed := if numberOfMadeViews =? 0 then 1 else 0 in
                match viewCounts !! Z.to_nat iTx with
                | None => None
                | Some x =>
                    if negb (x =? 0) && negb (x =? sz) && negb (x =? nInputRecs)
                    then Some (ADC_VERIFICATION_FAILED, 1)
                    else verify_words fuel' nTop nInputRecs numberOfMadeViews viewCounts [] failed words''
                end
            end
          else verify_words fuel' nTop nInputRecs numberOfMadeViews viewCounts sel failed words'
      end
  end.

Definition ViewSizesVerification (nTop : nat) (nInputRecs numberOfMadeViews : Z) (pool : list Z)
    (sizes : list (Z * Z)) (words : list string) (failed : Z) : option (Z * Z) :=
  match zero_counts (2 ^ nTop) pool with
  | None => None
  | Some viewCounts =>
      match record_counts sizes viewCounts with
      | None => None
      | Some viewCounts =>
          verify_words (S (length words)) nTop nInputRecs numberOfMadeViews viewCounts [] failed words
      end
  end.

(** ** ComputeGivenGroupbys

    [pool] is what the memory pool holds, as 32-bit words, when the loop over
    the groupbys has ended; [failed] is [verificationFailed] before the
    call.  The result is the return code, [verificationFailed],
    [numberOfMadeViews], which is set only after the loop, and the rest of the
    control block. *)
Definition ComputeGivenGroupbys {T} `{RowTree T} (js : nat -> junk) (ws : list Z) (pool : list Z)
    (words : list string) (failed : Z) (c : cube T) : option (Z * Z * Z * cube T) :=
  match groupby_loop js 0 ws c with
  | None => None
  | Some (rc, c') =>
      if negb (rc =? ADC_OK) then Some (rc, failed, 0, c')
      else
        let numberOfMadeViews := u32 (Z.of_nat (length ws)) in
        match ViewSizesVerification (nTopDims (c_pool c')) (Z.of_nat (c_nInputRecs c'))
                numberOfMadeViews pool (viewSizesFile c') words failed with
        | None => None
        | Some (rc, failed) =>
            Some (if negb (rc =? ADC_OK) then ADC_VERIFICATION_FAILED else ADC_OK, failed,
                  numberOfMadeViews, c')
        end
  end.

(** ** DC *)

(** What a task brings to the critical section. *)
Record task_result := mkTask {
  tk_failed : Z;
  tk_views : Z;
  tk_bytes : Z;
  tk_rows : Z;
  tk_checksum : Z
}.

Record PAR_VIEW_ST := mkPVS {
  verificationFailed : Z;
  totalViewTuples : Z;
  totalViewSizesInBytes : Z;
  totalNumberOfMadeViews : Z;
  checksum : Z
}.

Definition pvs_start : PAR_VIEW_ST := mkPVS 0 0 0 0 0.

(** The critical section. *)
Definition critical (s : PAR_VIEW_ST) (r : task_result) : PAR_VIEW_ST :=
  let failed := s32 (verificationFailed s + tk_failed r) in
  if tk_failed r =? 0 then
    mkPVS failed (u32 (totalViewTuples s + tk_rows r)) (u64 (totalViewSizesInBytes s + tk_bytes r))
      (u32 (totalNumberOfMadeViews s + tk_views r)) (u64 (checksum s + tk_checksum r))
  else
    mkPVS failed (totalViewTuples s) (totalViewSizesInBytes s) (totalNumberOfMadeViews s) (checksum s).

(** The tasks enter it one after the other, in the order of the list. *)
Definition collect_tasks (rs : list task_result) : PAR_VIEW_ST := fold_left critical rs pvs_start.

(** The body of the parallel region up to the critical section, for task [q]:
    [rows] and [words] are the contents of the input file and of the sizes
    file, [g], [js] and [pool] the memory the task gets. *)
Definition DC_task (nd nm nTasks q : nat) (mem : Z) (g : fresh_block) (vspace cspace : nat)
    (js : nat -> junk) (pool : list Z) (rows : list row) (words : list string) : option task_result :=
  match PartitionCube nd nTasks q mem (Z.of_nat (length rows)) words with
  | None => None
  | Some ws =>
      match ComputeGivenGroupbys js ws pool words 0
              (NewAdcViewCntl g nd nm (length rows) mem rows vspace cspace) with
      | None => None
      | Some (_, failed, made, c) =>
          Some (mkTask failed made (totalViewFileSize c)
                  (totalOfViewRows (c_view c)) (hd 0 (totchs c)))
      end
  end.

Definition checksumS : Z := 464620213.
Definition checksumW : Z := 434318 + 1000000 * 1401796.
Definition checksumA : Z := 178042 + 1000000 * 7141688.
Definition checksumB : Z := 700453 + 1000000 * 9348365.

Definition Verify (checksum : Z) (clss : ascii) : Z :=
  if Ascii.eqb clss "S" then if checksum =? checksumS then 0 else 1
  else if Ascii.eqb clss "W" then if checksum =? checksumW then 0 else 1
  else if Ascii.eqb clss "A" then if checksum =? checksumA then 0 else 1
  else if Ascii.eqb clss "B" then if checksum =? checksumB then 0 else 1
  else -1.

(** [verified] of [DC]: 1, 0, or -1 when the class has no checksum. *)
Definition verdict (s : PAR_VIEW_ST) (clss : ascii) : Z :=
  let failed := Verify (s64 (checksum s)) clss in
  if failed =? -1 then -1 else if failed =? 0 then 1 else 0.

(** ** main *)

(** [memoryLimit] when the command line gives none, as a [uint32]. *)
Definition estimated_memory (par : ADC_PAR) : Z :=
  u32 (tuplenum par * (50 + 5 * Z.of_nat (dim par))).

(** The parameters of a class, which override those of the parameter file. *)
Definition class_params (par : ADC_PAR) : ADC_PAR :=
  let set d n := mkPar (ndid par) d 1 n (inverse_endian par) (filename par) (clss par) in
  if Ascii.eqb (clss par) "S" then set 5%nat 1000
  else if Ascii.eqb (clss par) "W" then set 10%nat 100000
  else if Ascii.eqb (clss par) "A" then set 15%nat 1000000
  else if Ascii.eqb (clss par) "B" then set 20%nat 10000000
  else par.
