(* ===== verification/BenchmarkSpec.v ===== *)
(** * The verification of the view sizes succeeds

    The sizes the generator predicted are those of the views that were made,
    so the comparison at the end of a task never fails. *)

From Stdlib Require Import ZArith Lia Sorted Ascii String.
From stdpp Require Import base gmap numbers option sorting list.
From S2P Require Import Prelude Rows RBTree RBSpec ViewFiles ExtSort BuildSpec JobBits JobPool JobPoolSpec Cube CubeSpec CubeTheorems PartitionSpec PartitionTheorems Generator ViewSizesSpec GeneratorSpec Benchmark.

Local Open Scope string_scope.
Local Open Scope list_scope.
Local Open Scope Z_scope.
Local Abbreviation length := List.length.

(** ** Indices of tuples *)

Definition tuple_index (nTop : nat) (t : Z) : Z := u32 (Z.shiftr t (64 - Z.of_nat nTop)).

Lemma tuple_index_bound nTop t : (1 <= nTop <= 20)%nat -> tuple_ok nTop t ->
  tuple_index nTop t = Z.shiftr t (64 - Z.of_nat nTop) /\ 0 <= tuple_index nTop t < 2 ^ Z.of_nat nTop.
Proof.
  intros Hn [Ht _]. unfold tuple_index. rewrite Z.shiftr_div_pow2 by lia.
  assert (Hb : 0 <= t / 2 ^ (64 - Z.of_nat nTop) < 2 ^ Z.of_nat nTop).
  { split; [apply Z.div_pos; lia|]. apply Z.div_lt_upper_bound; [lia|].
    rewrite <- Z.pow_add_r by lia. replace (64 - Z.of_nat nTop + Z.of_nat nTop) with 64 by lia. lia. }
  assert (2 ^ Z.of_nat nTop <= 2 ^ 20) by (apply Z.pow_le_mono_r; lia).
  rewrite (wrapu_id 32) by (unfold in_u; lia). done.
Qed.

Lemma tuple_index_inj nTop t t' : (1 <= nTop <= 20)%nat -> tuple_ok nTop t -> tuple_ok nTop t' ->
  tuple_index nTop t = tuple_index nTop t' -> t = t'.
Proof.
  intros Hn Ht Ht' E. destruct (tuple_index_bound nTop t Hn Ht) as [E1 _].
  destruct (tuple_index_bound nTop t' Hn Ht') as [E2 _].
  rewrite <- (shift_back t nTop), <- (shift_back t' nTop) by (done || lia). congruence.
Qed.

(** ** The counters *)

Section Counts.
Context (nTop : nat) (size : Z -> Z).
Hypothesis Hn : (1 <= nTop <= 20)%nat.

Definition entry (t : Z) : Z * Z := (tuple_index nTop t, size t).

(** A counter of a tuple is zero or the size of its view. *)
Definition counts_ok (viewCounts : list Z) : Prop :=
  (2 ^ nTop <= length viewCounts)%nat
  /\ forall t, tuple_ok nTop t -> exists x, viewCounts !! Z.to_nat (tuple_index nTop t) = Some x /\ (x = 0 \/ x = size t).

Lemma index_small t : tuple_ok nTop t -> (Z.to_nat (tuple_index nTop t) < 2 ^ nTop)%nat.
Proof using Hn.
  intros Ht. destruct (tuple_index_bound nTop t Hn Ht) as [_ Hb]. pose proof (Nat2Z.inj_pow 2 nTop). lia.
Qed.

Lemma zero_counts_ok pool : (2 ^ nTop <= length pool)%nat ->
  exists vc, zero_counts (2 ^ nTop) pool = Some vc /\ counts_ok vc.
Proof using Hn.
  intros Hl. unfold zero_counts. destruct (Nat.ltb_spec (length pool) (2 ^ nTop)); [lia|].
  eexists. split; [reflexivity|]. split; [rewrite length_app, repeat_length, length_drop; lia|].
  intros t Ht. exists 0. split; [|by left]. pose proof (index_small t Ht).
  rewrite lookup_app_l by (rewrite repeat_length; done). by apply lookup_repeat0.
Qed.

Lemma record_counts_ok ts : Forall (tuple_ok nTop) ts -> forall vc, counts_ok vc ->
  exists vc', record_counts (entry <$> ts) vc = Some vc' /\ counts_ok vc'.
Proof using Hn.
  induction 1 as [|t ts Ht Hts IH]; intros vc [Hl Hvc]; [by exists vc|].
  rewrite fmap_cons. cbn [record_counts entry]. pose proof (index_small t Ht).
  destruct (Nat.ltb_spec (Z.to_nat (tuple_index nTop t)) (length vc)); [|lia].
  apply IH. split; [by rewrite length_insert|]. intros t' Ht'.
  destruct (decide (Z.to_nat (tuple_index nTop t') = Z.to_nat (tuple_index nTop t))) as [E|Hne].
  - rewrite E, list_lookup_insert_eq by lia. exists (size t). split; [done|]. right.
    destruct (tuple_index_bound nTop t Hn Ht), (tuple_index_bound nTop t' Hn Ht').
    f_equal. symmetry. apply (tuple_index_inj nTop); auto. lia.
  - rewrite list_lookup_insert_ne by done. by apply Hvc.
Qed.

(** ** Reading the sizes file again *)

Lemma verify_skip fuel rn nm vc sel failed w ws : String.eqb w "Selection:" = false ->
  String.eqb w "Size:" = false ->
  verify_words (S fuel) nTop rn nm vc sel failed (w :: ws) = verify_words fuel nTop rn nm vc sel failed ws.
Proof. intros H1 H2. cbn [verify_words]. by rewrite H1, H2. Qed.

Lemma verify_view fuel rn nm vc failed v ws : counts_ok vc -> view_ok nTop v -> snd v = size (view_tuple v) ->
  verify_words (S (S fuel)) nTop rn nm vc [] failed (view_words v ++ ws)
  = verify_words fuel nTop rn nm vc [] (if nm =? 0 then 1 else 0) ws.
Proof using Hn.
  intros [Hl Hvc] Hv Hsz. pose proof (view_tuple_ok nTop v ltac:(lia) Hv) as Hok.
  destruct (Hvc _ Hok) as (x & Hx & Hcase). destruct Hv as (Hr & Hs & Hne & Hb).
  unfold view_words. cbn [app verify_words]. rewrite String.eqb_refl, <- app_assoc. cbn [app].
  pose proof (sorted_length nTop (fst v) Hr Hs).
  rewrite read_selection_run; [|cbn; lia|].
  2: { eapply Forall_impl; [exact Hr|]. intros d Hd. cbn beta in Hd. lia. }
  cbn [app verify_words String.eqb Ascii.eqb Bool.eqb andb].
  fold (view_tuple v). fold (tuple_index nTop (view_tuple v)). rewrite Hx.
  rewrite atoi_decimal by (split; [lia|]; transitivity (2 ^ 31); [lia|reflexivity]).
  rewrite (wrapu_id 32 (snd v)) by (unfold in_u; lia).
  destruct Hcase as [->| ->]; [done|]. rewrite <- Hsz, Z.eqb_refl. cbn [negb].
  by rewrite andb_false_r.
Qed.

Lemma verify_run rn nm vc vs : counts_ok vc -> Forall (view_ok nTop) vs ->
  Forall (fun v => snd v = size (view_tuple v)) vs -> forall fuel failed tail,
  Forall (fun w => String.eqb w "Selection:" = false /\ String.eqb w "Size:" = false) tail ->
  (2 * length vs + length tail < fuel)%nat ->
  verify_words fuel nTop rn nm vc [] failed (concat (view_words <$> vs) ++ tail)
  = Some (ADC_OK, if bool_decide (vs = []) then failed else if nm =? 0 then 1 else 0).
Proof using Hn.
  intros Hvc. induction vs as [|v vs IH]; intros Hvs Hsz fuel failed tail Htail Hf.
  - cbn [fmap list_fmap concat app] in *. rewrite bool_decide_true by done. clear -Htail Hf.
    revert fuel Hf. induction Htail as [|w tail [H1 H2] Htail IH]; intros [|fuel] Hf; cbn [List.length] in Hf.
    + lia.
    + done.
    + lia.
    + rewrite verify_skip by done. apply IH. cbn [List.length]. lia.
  - inversion Hvs as [|? ? Hv Hvs']; subst. inversion Hsz as [|? ? Hs Hsz']; subst. cbn [List.length] in *.
    destruct fuel as [|[|fuel]]; [lia|lia|]. rewrite fmap_cons. cbn [concat].
    rewrite <- app_assoc, verify_view by done. rewrite IH; auto; [|lia].
    rewrite (bool_decide_false (v :: vs = [])) by done. by destruct (bool_decide (vs = [])).
Qed.

Lemma ViewSizesVerification_run rn nm pool ts vs b tt failed :
  (2 ^ nTop <= length pool)%nat -> Forall (tuple_ok nTop) ts -> Forall (view_ok nTop) vs ->
  Forall (fun v => snd v = size (view_tuple v)) vs -> 0 <= b -> 0 <= tt ->
  ViewSizesVerification nTop rn nm pool (entry <$> ts) (sizes_file vs b tt) failed
  = Some (ADC_OK, if bool_decide (vs = []) then failed else if nm =? 0 then 1 else 0).
Proof using Hn.
  intros Hl Hts Hvs Hsz Hb Ht. unfold ViewSizesVerification.
  destruct (zero_counts_ok pool Hl) as (vc & -> & Hvc).
  destruct (record_counts_ok ts Hts vc Hvc) as (vc' & -> & Hvc').
  unfold sizes_file. apply verify_run; auto using sizes_file_tail.
  rewrite length_app. enough (2 * length vs <= length (concat (view_words <$> vs)))%nat
    by (cbn [List.length]; lia).
  clear. induction vs as [|v vs IH]; [done|]. rewrite fmap_cons. cbn [concat List.length].
  rewrite length_app. pose proof (view_words_length v). lia.
Qed.
End Counts.

(** ** The files of the generator *)

Lemma count_view_nonneg vs : forall tot, 0 <= fst tot -> 0 <= snd tot ->
  0 <= fst (fold_left count_view vs tot) /\ 0 <= snd (fold_left count_view vs tot).
Proof.
  induction vs as [|v vs IH]; intros tot H1 H2; [done|]. cbn [fold_left]. apply IH; cbn [count_view fst snd];
    apply wrapu_range; lia.
Qed.

Lemma listed_ok cl es dcdim tnum k : class_ok cl dcdim es -> 1 <= tnum < 2 ^ 31 -> (1 <= k < 2 ^ dcdim)%nat ->
  view_ok dcdim (listed dcdim es tnum k).
Proof.
  intros [Hc _] Ht Hk. destruct (sel_of_ok dcdim k) as (H1 & H2 & H3). split_and!; cbn [listed fst snd]; auto.
  - pose proof (size_of_pos cl es tnum (Z.of_nat k) Hc ltac:(lia)). lia.
  - unfold size_of. lia.
Qed.

Section Task.
Context (par : ADC_PAR) (es : list Z) (rows : list row) (ks : list nat).
Hypothesis Hc : class_ok (clss par) (dim par) es.
Hypothesis Hnm : (mnum par <= MAX_NUM_OF_MEAS)%nat.
Hypothesis Htn : 1 <= tuplenum par < 2 ^ 31.
Hypothesis Hrows : Forall (row_ok (dim par) (mnum par)) rows.
Hypothesis Hlen : Z.of_nat (length rows) = tuplenum par.
Hypothesis Hks : NoDup ks /\ (forall k, k ∈ ks -> (1 <= k < 2 ^ dim par)%nat).

Abbreviation vs := (listed (dim par) es (tuplenum par) <$> ks).

Lemma dims_20 : (1 <= dim par <= 20)%nat.
Proof. destruct Hc as [H1 H2]. destruct (class_dims _ es 98717 H1 ltac:(lia)) as (_ & _ & H20). lia. Qed.

Lemma vs_ok : Forall (view_ok (dim par)) vs.
Proof.
  apply Forall_fmap, Forall_forall. intros k Hk. apply (listed_ok (clss par)); auto. by apply Hks.
Qed.

Lemma vs_nodup : NoDup (fst <$> vs).
Proof.
  destruct Hks as [Hd Hr]. rewrite <- list_fmap_compose. clear -Hd Hr. induction Hd as [|k l Hk Hd IH]; [constructor|].
  rewrite fmap_cons. constructor.
  - intros (k' & E & Hk')%list_elem_of_fmap. cbn in E. apply sel_of_inj in E; [by subst|..].
    + apply (Hr k). by left.
    + apply (Hr k'). by right.
  - apply IH. intros k' Hk'. apply Hr. by right.
Qed.

Lemma vs_length : (length vs <= 2 ^ dim par - 1)%nat.
Proof.
  destruct Hks as [Hd Hr]. rewrite length_fmap.
  transitivity (length (seq 1 (2 ^ dim par - 1))); [|by rewrite length_seq].
  apply submseteq_length, NoDup_submseteq; [done|]. intros k Hk. apply elem_of_seq. specialize (Hr k Hk). lia.
Qed.

Definition made_size (t : Z) : Z := Z.of_nat (length (view_of (dim par) (mnum par) rows t)).

Hypothesis Hsizes : forall k, (k < 2 ^ dim par)%nat ->
  made_size (CreateBinTuple (sel_of (dim par) k)) = size_of es (tuplenum par) (Z.of_nat k).

Lemma vs_sizes : Forall (fun v => snd v = made_size (view_tuple v)) vs.
Proof.
  apply Forall_fmap, Forall_forall. intros k Hk. cbn [listed fst snd view_tuple]. unfold compose.
  unfold view_tuple. cbn [listed fst snd]. symmetry. apply Hsizes. by apply Hks.
Qed.

Context (mem : Z) (g : fresh_block) (vspace cspace : nat) (js : nat -> junk) (pool : list Z).
Hypothesis Hg : fresh_ok g.
Hypothesis Hbytes : tuplenum par * GetRecSize (dim par) (mnum par) < 2 ^ 32.
Hypothesis Hmem : (tuplenum par + 1) * (32 + 4 * Z.of_nat (dim par) + 8 * Z.of_nat (mnum par)) <= mem < 2 ^ 32.
Hypothesis Hmin144 : 144 <= mem.
Hypothesis Hroom : 8 * 2 ^ Z.of_nat (dim par) <= mem.
Hypothesis Hpool : Z.of_nat (length pool) = mem / 4.
Hypothesis Hspace : 2 ^ Z.of_nat (dim par) * tuplenum par <= Z.of_nat vspace.

Abbreviation start := (NewAdcViewCntl g (dim par) (mnum par) (length rows) mem rows vspace cspace).

Lemma views_fit ts : NoDup ts -> Forall (good_tuple (dim par)) ts ->
  (length ts <= 2 ^ dim par)%nat ->
  (length (concat (view_of (dim par) (mnum par) rows <$> ts)) <= vspace)%nat.
Proof.
  intros Hd Hg' Hl. enough (length (concat (view_of (dim par) (mnum par) rows <$> ts)) <= length ts * length rows)%nat.
  { pose proof (Nat2Z.inj_pow 2 (dim par)). nia. }
  clear -Hrows Hnm. induction ts as [|t ts IH]; [done|]. rewrite fmap_cons. cbn [concat List.length].
  rewrite length_app. pose proof (view_of_length (dim par) (mnum par) rows t). lia.
Qed.

(** A task with the groupbys [ts], some of the listed views. *)
Lemma task_passes ts : NoDup ts -> (forall t, t ∈ ts -> t ∈ view_tuple <$> vs) ->
  exists c, ComputeGivenGroupbys js (swap8 <$> ts) pool (write_sizes vs) 0 start
      = Some (ADC_OK, if bool_decide (vs = []) then 0 else if bool_decide (ts = []) then 1 else 0,
              Z.of_nat (length ts), c)
    /\ frows (viewFile (c_view c)) = concat (view_of (dim par) (mnum par) rows <$> ts)
    /\ (mnum par = 1%nat -> exists rest, totchs c = s64 (checksum_of (dim par) (mnum par) rows ts) :: rest).
Proof.
  intros Hd Hin. pose proof dims_20 as H20. pose proof vs_ok as Hok.
  assert (Hgood : Forall (good_tuple (dim par)) ts).
  { apply Forall_forall. intros t Ht. apply Hin in Ht. apply list_elem_of_fmap in Ht as (v & -> & Hv).
    rewrite Forall_forall in Hok. apply view_tuple_good; [lia|]. by apply Hok. }
  assert (Hl : (length ts <= 2 ^ dim par - 1)%nat).
  { etransitivity; [|apply vs_length]. rewrite <- (length_fmap view_tuple vs).
    apply submseteq_length, NoDup_submseteq; [done|]. exact Hin. }
  assert (Hnd : (1 <= dim par <= MAX_NUM_OF_DIMS)%nat) by (unfold MAX_NUM_OF_DIMS; lia).
  assert (Hmin : 144 <= mem < 2 ^ 32).
  { split; [exact Hmin144|apply Hmem]. }
  pose proof (NewAdcViewCntl_inv g (dim par) (mnum par) mem rows vspace cspace Hg Hnd Hmin) as Hinv.
  assert (Hb : Z.of_nat (length rows) * GetRecSize (dim par) (mnum par) < 2 ^ 32) by (by rewrite Hlen).
  assert (Hpow : Z.of_nat (2 ^ dim par) = 2 ^ Z.of_nat (dim par)) by apply (Nat2Z.inj_pow 2 (dim par)).
  assert (2 ^ Z.of_nat (dim par) <= 2 ^ 20) by (apply Z.pow_le_mono_r; lia).
  destruct (groupby_loop_fits (dim par) (mnum par) rows mem Hnd Hnm Hrows ltac:(lia) Hb js ts 0 [] start vspace Hinv)
    as (rc & c & Hrun & Hres).
  - unfold roomy. split_and!.
    + unfold enough. rewrite Hlen. exact (proj1 Hmem).
    + cbn [fmap list_fmap concat List.length]. apply Nat.add_0_r.
    + intros E1. rewrite E1. cbn. by eexists.
  - exact Hgood.
  - exact Hd.
  - cbn [List.length]. lia.
  - destruct Hres as [(-> & Hc' & Hch)|[-> Hfull]].
    + exists c. unfold ComputeGivenGroupbys. rewrite Hrun. cbn [negb Z.eqb ADC_OK]. cbn [app] in Hc'.
      pose proof (ci_top _ _ _ _ _ _ Hc') as Htop. pose proof (ci_sizes _ _ _ _ _ _ Hc') as Hsz. rewrite Htop, Hsz.
      unfold write_sizes. set (tot := fold_left _ _ _).
      assert (Htot : 0 <= fst tot /\ 0 <= snd tot) by (apply count_view_nonneg; cbn; lia).
      rewrite (ViewSizesVerification_run (dim par) made_size H20 _ _ pool ts vs).
      * cbn [negb Z.eqb ADC_OK]. split; [|split; [apply Hc'|exact Hch]].
        rewrite length_fmap, wrapu_id by (unfold in_u; lia). f_equal. f_equal. f_equal. f_equal. clear.
        destruct ts as [|t ts]; [done|]. rewrite (bool_decide_false (t :: ts = [])) by done. done.
      * assert (2 ^ Z.of_nat (dim par) <= mem / 4) by (apply Z.div_le_lower_bound; lia). lia.
      * eapply Forall_impl; [exact Hgood|]. by intros t [? _].
      * done.
      * apply vs_sizes.
      * apply Htot.
      * apply Htot.
    + exfalso. cbn [app] in Hfull. pose proof (views_fit ts Hd Hgood ltac:(lia)). lia.
Qed.
End Task.

(** ** What the generator hands over *)

Lemma GenerateADC_run par es :
  class_ok (clss par) (dim par) es -> (mnum par <= 20)%nat -> 1 <= tuplenum par < 2 ^ 31 ->
  exists rows idxs st,
    GenerateADC UpPrimeLim par gen_start
      = Some (Some (rows, write_sizes (listed (dim par) es (tuplenum par) <$> idxs)), st)
    /\ Forall (row_ok (dim par) (mnum par)) rows /\ Z.of_nat (length rows) = tuplenum par
    /\ (NoDup idxs /\ (forall k, k ∈ idxs -> (1 <= k < 2 ^ dim par)%nat)) /\ idxs <> []
    /\ (vinc_of (clss par) = 1%nat -> idxs ≡ₚ seq 1 (2 ^ dim par - 1))
    /\ forall k, (k < 2 ^ dim par)%nat ->
         made_size par rows (CreateBinTuple (sel_of (dim par) k)) = size_of es (tuplenum par) (Z.of_nat k).
Proof.
  intros Hc Hnm Htn. pose proof Hc as [Hc1 Hc2].
  destruct (class_dims _ es 98717 Hc1 ltac:(lia)) as (_ & _ & H20).
  destruct (CalculateVeiwSizes_run (clss par) (dim par) es (tuplenum par) Hc) as (idxs & Hrun & Hd & Hr & Hne & Hall).
  { split; [lia|]. transitivity (2 ^ 31); [lia|discriminate]. }
  destruct (generate_loop_run es (dim par) (dims_good (clss par) es (dim par) Hc) ltac:(lia) ltac:(lia)
    par (Z.to_nat (tuplenum par)) 0 gen_start eq_refl (locexp_class _ _ Hc1) Hnm ltac:(lia)
    (or_introl (conj eq_refl eq_refl))) as (rows & st & Hgen & Hks & Hok).
  exists rows, idxs, st.
  assert (Hlen : length rows = Z.to_nat (tuplenum par)).
  { rewrite <- (length_fmap Rows.ks), Hks, length_fmap. apply length_seq. }
  rewrite <- Hlen in Hks.
  split_and!; [|exact Hok|lia|exact Hd|exact Hr|exact Hne|exact Hall|].
  - unfold GenerateADC. rewrite wraps_id by (unfold in_s; lia). rewrite Hgen.
    rewrite Hrun. reflexivity.
  - intros k Hk. unfold made_size.
    rewrite (generated_view_size (clss par) es (dim par) (mnum par) (inverse_endian par) rows Hc Hok Hks k Hk).
    f_equal. lia.
Qed.
