(* ===== verification/BenchmarkTheorems.v ===== *)
(** * Theorems about the generator and the whole benchmark *)

From Stdlib Require Import ZArith Lia Znumtheory Sorted Ascii String.
From stdpp Require Import base gmap numbers option sorting list.
From S2P Require Import Prelude Rows RBTree RBSpec ViewFiles ExtSort BuildSpec JobBits JobPool JobPoolSpec Cube CubeSpec CubeTheorems PartitionSpec PartitionTheorems Factor FactorSpec Generator ViewSizesSpec GeneratorSpec Benchmark BenchmarkSpec.

Local Open Scope string_scope.
Local Open Scope list_scope.
Local Open Scope Z_scope.
Local Abbreviation length := List.length.

(** ** Tables *)

(** [ListFirstPrimes] makes the table of all primes below its bound, in
    increasing order, without leaving the array: the search for a divisor
    always stops at a stored prime, for every bound up to 2203 squared. *)
Theorem ListFirstPrimes_correct cap mpr :
  8 <= mpr <= 2203 * 2203 -> (Z.to_nat mpr <= cap)%nat ->
  exists l, ListFirstPrimes cap mpr = Some l /\ StronglySorted Z.lt l
    /\ forall q, q ∈ l <-> prime q /\ q < mpr.
Proof. intros H1 H2. destruct (ListFirstPrimes_run cap mpr H1 H2) as (l & Hl & Hs & Hq). by exists l. Qed.

Lemma ListFirstPrimes_correct_witness :
  exists l, ListFirstPrimes 100 60 = Some l /\ StronglySorted Z.lt l
    /\ forall q, q ∈ l <-> prime q /\ q < 60.
Proof. apply (ListFirstPrimes_correct 100 60); lia. Defined.

(** [GetFactorization] stores for every number from two up to the last
    prime of the table its factorisation: increasing primes with positive
    exponents whose product is the number, followed by at least one unused
    slot, which ends the loops that read the entry.  It never leaves an
    array. *)
Theorem GetFactorization_correct n prlist lastp :
  StronglySorted Z.lt prlist -> (forall q, q ∈ prlist <-> prime q /\ q < n) ->
  n < 2 ^ 64 -> last prlist = Some lastp ->
  exists t, GetFactorization prlist = Some t
    /\ forall k, 2 <= k < lastp -> exists f l r, t !! k = Some f
         /\ mlt f = l.*1 ++ repeat 1 r /\ exp f = l.*2 ++ repeat 0 r /\ (0 < r)%nat
         /\ fdim f = (length l + r)%nat
         /\ Forall (fun pe => prime pe.1 /\ 0 < pe.2) l /\ StronglySorted (fun a b => a.1 < b.1) l
         /\ foldr (fun pe v => pe.1 ^ pe.2 * v) 1 l = k.
Proof.
  intros Hs Hq Hn Hlast. assert (Hin : lastp ∈ prlist).
  { apply last_Some in Hlast as [l ->]. apply elem_of_app. right. by left. }
  apply Hq in Hin as [Hp _]. apply prime_ge_2 in Hp.
  destruct (GetFactorization_run n prlist lastp (conj Hs Hq) Hn Hlast Hp) as (t & Ht & Htab).
  exists t. split; [exact Ht|]. intros k Hk.
  destruct (Htab k Hk) as (f & Hf & l & r & (H1 & H2 & H3) & Hr & ->). by exists (fill (length l + r) l r), l, r.
Qed.

Lemma GetFactorization_correct_witness :
  exists t, GetFactorization [2; 3; 5; 7] = Some t /\ exists f, t !! 6 = Some f.
Proof.
  destruct (GetFactorization_correct 8 [2; 3; 5; 7] 7) as (t & Ht & H).
  - apply primes_below_8.
  - apply primes_below_8.
  - reflexivity.
  - reflexivity.
  - exists t. split; [exact Ht|]. destruct (H 6 ltac:(lia)) as (f & _ & _ & Hf & _). by exists f.
Defined.

(** The set of attributes of a mask. *)
Definition in_mask (mask : Z) (i : nat) : Prop := Z.testbit mask (Z.of_nat i) = true.

(** [GetLCM] computes a least common multiple.  For every class and every
    set of its attributes there is a number that is divisible by exactly the
    multiples of (p-1)/gcd(p-1, e) over the attributes of the set, and
    [GetLCM] returns it, unless it exceeds [LARGE_NUM/maxprmfctr]; then the
    result exceeds that bound too.  The exponents stay inside their array and
    the product does not overflow. *)
Theorem GetLCM_correct lim t clss es mask :
  class_expons clss = Some es -> 98717 <= lim -> table_below lim t ->
  0 <= mask < 2 ^ Z.of_nat (length es) ->
  exists L r, GetLCM mask t es = Some r /\ 0 < L
    /\ (forall n, (L | n) <-> forall i p e, adcprime !! i = Some p -> es !! i = Some e -> in_mask mask i ->
          ((p - 1) / Z.gcd (p - 1) e | n))
    /\ (L <= LARGE_NUM / maxprmfctr /\ r = L
        \/ LARGE_NUM / maxprmfctr < L /\ LARGE_NUM / maxprmfctr < r <= L).
Proof.
  intros Hc Hlim Ht Hm. destruct (class_dims clss es lim Hc Hlim) as (Hes & Hlen & H20).
  destruct (GetLCM_run lim t es mask Ht Hes) as (r & Hr & Hcap); [lia|by rewrite Hlen|].
  exists (lcm_dims (zip adcprime es) mask), r. split_and!; [exact Hr|by apply (lcm_dims_pos lim)| |exact Hcap].
  intros n. rewrite lcm_dims_divide by lia. split.
  - intros H i p e Hp He Hi. apply (H i (p, e)); [|exact Hi]. apply lookup_zip_with_Some. by exists p, e.
  - intros H i pe Hpe Hi. apply lookup_zip_with_Some in Hpe as (p & e & -> & Hp & He). by apply (H i p e).
Qed.

(** Any table serves the empty mask; the real one is used by the next theorems. *)
Lemma full_table : exists lim t prlist, ListFirstPrimes (Z.to_nat UpPrimeLim) UpPrimeLim = Some prlist
  /\ GetFactorization prlist = Some t /\ 98717 <= lim /\ table_below lim t.
Proof.
  destruct (ListFirstPrimes_run (Z.to_nat UpPrimeLim) UpPrimeLim) as (prlist & Hl & Hpr); [split; discriminate|lia|].
  destruct (last_of_primes prlist Hpr) as (lastp & Hlast & Hge).
  destruct (GetFactorization_run UpPrimeLim prlist lastp Hpr eq_refl Hlast ltac:(lia)) as (t & Ht & Htab).
  exists lastp, t, prlist. split; [exact Hl|]. split; [exact Ht|]. split; [exact Hge|exact Htab].
Qed.

Lemma GetLCM_correct_witness :
  exists t L r, GetLCM 31 t adcexpS = Some r /\ 0 < L
    /\ (L <= LARGE_NUM / maxprmfctr /\ r = L
        \/ LARGE_NUM / maxprmfctr < L /\ LARGE_NUM / maxprmfctr < r <= L).
Proof.
  destruct full_table as (lim & t & prlist & _ & _ & Hlim & Ht).
  destruct (GetLCM_correct lim t "S" adcexpS 31) as (L & r & H1 & H2 & _ & H4).
  - reflexivity.
  - exact Hlim.
  - exact Ht.
  - split; [discriminate|reflexivity].
  - exists t, L, r. auto.
Defined.

(** ** The generated data *)

(** C37: [GenerateADC] writes the data it should and predicts its view sizes.
    For every class, number of attributes and number of tuples it supports,
    it never faults and writes [tuplenum] rows.  The views it lists are
    different, not empty sets of dimensions, all of them in the classes
    without a step, and the size it writes for a view is exactly the number of
    rows of that view of the data it has just written. *)
Theorem GenerateADC_correct par es :
  class_ok (clss par) (dim par) es -> (mnum par <= 20)%nat -> 1 <= tuplenum par < 2 ^ 31 ->
  exists rows vs st bytes tuples,
    GenerateADC UpPrimeLim par gen_start = Some (Some (rows, sizes_file vs bytes tuples), st)
    /\ Forall (row_ok (dim par) (mnum par)) rows /\ Z.of_nat (length rows) = tuplenum par
    /\ NoDup (fst <$> vs) /\ Forall (view_ok (dim par)) vs
    /\ (vinc_of (clss par) = 1%nat -> length vs = (2 ^ dim par - 1)%nat)
    /\ Forall (fun v => snd v = Z.of_nat (length (view_of (dim par) (mnum par) rows (CreateBinTuple (fst v))))) vs.
Proof.
  intros Hc Hnm Htn.
  destruct (GenerateADC_run par es Hc Hnm Htn) as (rows & idxs & st & Hrun & Hok & Hlen & Hidx & Hne & Hall & Hsz).
  set (vs := listed (dim par) es (tuplenum par) <$> idxs) in *.
  exists rows, vs, st, (fst (fold_left count_view vs (0, 0))), (snd (fold_left count_view vs (0, 0))).
  split; [exact Hrun|]. split; [exact Hok|]. split; [exact Hlen|].
  split; [by apply vs_nodup|]. split; [by apply vs_ok|]. split.
  - intros H1. unfold vs. rewrite length_fmap, (Permutation_length (Hall H1)). apply length_seq.
  - by apply vs_sizes.
Qed.

(** The default parameters of class S. *)
Definition params_S : ADC_PAR := class_params (mkPar 0 5 1 100 0 "ADC" "S").

Lemma class_S_ok : class_ok "S" 5 adcexpS.
Proof. split; [reflexivity|cbn; lia]. Qed.

Lemma GenerateADC_correct_witness :
  exists rows vs st bytes tuples,
    GenerateADC UpPrimeLim params_S gen_start = Some (Some (rows, sizes_file vs bytes tuples), st)
    /\ Z.of_nat (length rows) = 1000 /\ length vs = 31%nat.
Proof.
  destruct (GenerateADC_correct params_S adcexpS class_S_ok) as (rows & vs & st & b & t & H1 & _ & H2 & _ & _ & H3 & _).
  - cbn. lia.
  - cbn. lia.
  - exists rows, vs, st, b, t. split; [exact H1|]. split; [exact H2|]. exact (H3 eq_refl).
Defined.

(** ** The whole run *)

(** The tasks of a run with the data and the sizes file of the generator:
    each has its part of the views, makes exactly these, passes the
    verification and, with one measure, reports their checksum; a task without views reports a failed verification. *)
Definition run_passes (par : ADC_PAR) (threads : nat) (mem : Z) (g : nat -> fresh_block)
    (vspace cspace : nat) (js : nat -> nat -> junk) (pools : nat -> list Z)
    (rows : list row) (words : list string) (outs : nat -> list Z) : Prop :=
  forall q, (q < threads)%nat ->
    PartitionCube (dim par) (number_of_tasks threads) q mem (tuplenum par) words = Some (swap8 <$> outs q)
    /\ exists c failed,
         ComputeGivenGroupbys (js q) (swap8 <$> outs q) (pools q) words 0
           (NewAdcViewCntl (g q) (dim par) (mnum par) (length rows) mem rows vspace cspace)
         = Some (ADC_OK, failed, Z.of_nat (length (outs q)), c)
         /\ failed = (if bool_decide (outs q = []) then 1 else 0)
         /\ frows (viewFile (c_view c)) = concat (view_of (dim par) (mnum par) rows <$> outs q)
         /\ (mnum par = 1%nat -> exists rest, totchs c = s64 (checksum_of (dim par) (mnum par) rows (outs q)) :: rest).

(** What the parameters must satisfy: a class of the generator with at most
    its number of attributes, at most four measures, a pool with room for a
    node per tuple and for a counter per view, and a view file large enough. *)
Definition run_ok (par : ADC_PAR) (es : list Z) (mem : Z) (vspace : nat) : Prop :=
  class_ok (clss par) (dim par) es /\ (mnum par <= MAX_NUM_OF_MEAS)%nat /\ 1 <= tuplenum par < 2 ^ 31
  /\ tuplenum par * GetRecSize (dim par) (mnum par) < 2 ^ 32
  /\ (tuplenum par + 1) * (32 + 4 * Z.of_nat (dim par) + 8 * Z.of_nat (mnum par)) <= mem < 2 ^ 32
  /\ 144 <= mem /\ 8 * 2 ^ Z.of_nat (dim par) <= mem
  /\ 2 ^ Z.of_nat (dim par) * tuplenum par <= Z.of_nat vspace.

Lemma concat_part {A} (f : nat -> list A) n l q : (q < n)%nat -> concat (f <$> seq 0 n) ≡ₚ l -> NoDup l ->
  NoDup (f q) /\ forall x, x ∈ f q -> x ∈ l.
Proof.
  intros Hq Hp Hd. assert (Hs : q ∈ seq 0 n) by (apply elem_of_seq; lia). split.
  - apply (NoDup_concat_one f q _ Hs). by rewrite Hp.
  - intros x Hx. rewrite <- Hp. by apply (elem_of_concat x f q).
Qed.

Lemma benchmark_run par es mem vspace threads g cspace js pools :
  run_ok par es mem vspace -> (0 < threads)%nat -> (forall q, fresh_ok (g q)) ->
  (forall q, Z.of_nat (length (pools q)) = mem / 4) ->
  exists rows words st idxs outs,
    let vs := listed (dim par) es (tuplenum par) <$> idxs in
    GenerateADC UpPrimeLim par gen_start = Some (Some (rows, words), st)
    /\ Z.of_nat (length rows) = tuplenum par /\ vs <> []
    /\ run_passes par threads mem g vspace cspace js pools rows words outs
    /\ concat (outs <$> seq 0 threads) ≡ₚ view_tuple <$> vs
    /\ NoDup (fst <$> vs) /\ Forall (view_ok (dim par)) vs
    /\ Forall (row_ok (dim par) (mnum par)) rows
    /\ (vinc_of (clss par) = 1%nat -> idxs ≡ₚ seq 1 (2 ^ dim par - 1)).
Proof.
  intros (Hc & Hnm & Htn & Hbytes & Hmem & Hmin & Hroom & Hspace) Htasks Hg Hpools.
  pose proof Hnm as Hnm'. unfold MAX_NUM_OF_MEAS in Hnm'.
  destruct (GenerateADC_run par es Hc ltac:(lia) Htn) as (rows & idxs & st & Hrun & Hok & Hlen & Hidx & Hne & Hall & Hsz).
  set (vs := listed (dim par) es (tuplenum par) <$> idxs) in *.
  assert (Hvs : Forall (view_ok (dim par)) vs) by (by apply vs_ok).
  assert (Hdup : NoDup (fst <$> vs)) by (by apply vs_nodup).
  assert (Hvl : (length vs <= 2 ^ dim par - 1)%nat) by (by eapply vs_length).
  assert (H20 : (1 <= dim par <= 20)%nat) by (by eapply dims_20). pose proof (Nat2Z.inj_pow 2 (dim par)) as Hpow.
  assert (Hvne : vs <> []) by (unfold vs; by destruct idxs).
  set (tot := fold_left count_view vs (0, 0)).
  assert (Htot : 0 <= fst tot /\ 0 <= snd tot) by (apply count_view_nonneg; cbn; lia).
  destruct (PartitionCube_all (dim par) threads mem (tuplenum par) vs (fst tot) (snd tot))
    as (outs & Hpart & Hperm & _); [lia|exact Htasks|exact Hvs|exact Hvl| |apply Htot|apply Htot|].
  { apply Z.div_le_lower_bound; lia. }
  exists rows, (write_sizes vs), st, idxs, outs. cbv zeta. fold vs. split; [exact Hrun|]. split; [exact Hlen|]. split; [exact Hvne|].
  split; [|split; [exact Hperm|split; [exact Hdup|split; [exact Hvs|split; [exact Hok|exact Hall]]]]].
  intros q Hq. split; [by apply Hpart|].
    destruct (concat_part outs threads _ q Hq Hperm) as [Hd Hin].
    { apply (view_tuple_NoDup (dim par)); auto. lia. }
    destruct (task_passes par es rows idxs Hc Hnm Htn Hok Hlen Hidx Hsz mem (g q) vspace cspace (js q) (pools q)
      (Hg q) Hbytes Hmem Hmin Hroom (Hpools q) Hspace (outs q) Hd Hin) as (c & Hcomp & Hview & Hch).
    fold vs in Hcomp. rewrite (bool_decide_false (vs = [])) in Hcomp by exact Hvne.
    exists c, (if bool_decide (outs q = []) then 1 else 0). split; [exact Hcomp|]. split; [reflexivity|]. split; [exact Hview|exact Hch].
Qed.

(** C2: The benchmark verifies itself.  The data and the sizes file come from
    [GenerateADC]; for any number of threads, of which the first
    [MAX_NUMBER_OF_TASKS] get views, every task partitions the sizes file, runs
    [ComputeGivenGroupbys] on a control block of its own whatever memory it
    gets, and ends with [ADC_OK]: no fault, no failed write, no internal error
    and no mismatch of view sizes.  Each task has made exactly its views, and
    together the tasks have made every listed view of the cube once. *)
Theorem benchmark_correct par es mem vspace threads g cspace js pools :
  run_ok par es mem vspace -> (0 < threads)%nat -> (forall q, fresh_ok (g q)) ->
  (forall q, Z.of_nat (length (pools q)) = mem / 4) ->
  exists rows words st vs outs,
    GenerateADC UpPrimeLim par gen_start = Some (Some (rows, words), st)
    /\ Z.of_nat (length rows) = tuplenum par /\ vs <> []
    /\ run_passes par threads mem g vspace cspace js pools rows words outs
    /\ concat (outs <$> seq 0 threads) ≡ₚ view_tuple <$> vs
    /\ NoDup (fst <$> vs) /\ Forall (view_ok (dim par)) vs
    /\ (vinc_of (clss par) = 1%nat -> length vs = (2 ^ dim par - 1)%nat).
Proof.
  intros Hok Ht Hg Hp. destruct (benchmark_run par es mem vspace threads g cspace js pools Hok Ht Hg Hp)
    as (rows & words & st & idxs & outs & H1 & H2 & H3 & H4 & H5 & H6 & H7 & _ & Hall).
  exists rows, words, st, (listed (dim par) es (tuplenum par) <$> idxs), outs. split_and!; try assumption.
  intros Hinc. rewrite length_fmap, (Permutation_length (Hall Hinc)). apply length_seq.
Qed.

Lemma run_ok_S : run_ok params_S adcexpS (estimated_memory params_S) 32000.
Proof.
  unfold run_ok. split; [exact class_S_ok|]. unfold MAX_NUM_OF_MEAS.
  change (estimated_memory params_S) with 75000. cbn [params_S class_params mnum tuplenum dim clss Ascii.eqb Bool.eqb].
  repeat split; discriminate || reflexivity || (cbn; lia).
Qed.

Lemma benchmark_correct_witness :
  exists rows words st vs outs,
    GenerateADC UpPrimeLim params_S gen_start = Some (Some (rows, words), st)
    /\ run_passes params_S 4 75000 (fun _ => demo_block) 32000 0 (fun _ => demo_junk) (fun _ => repeat 7 18750)
         rows words outs
    /\ concat (outs <$> seq 0 4) ≡ₚ view_tuple <$> vs /\ length vs = 31%nat.
Proof.
  destruct (benchmark_correct params_S adcexpS 75000 32000 4 (fun _ => demo_block) 0 (fun _ => demo_junk)
    (fun _ => repeat 7 18750)) as (rows & words & st & vs & outs & H1 & _ & _ & H2 & H3 & _ & _ & H4).
  - exact run_ok_S.
  - lia.
  - repeat split.
  - intros _. rewrite repeat_length. reflexivity.
  - exists rows, words, st, vs, outs. split; [exact H1|]. split; [exact H2|]. split; [exact H3|]. exact (H4 eq_refl).
Defined.

(** The default memory is enough.  For the classes S, W, A and B, with the
    number of attributes and tuples [ParseParFile] and [main] set, the
    estimate [main] makes for the pool satisfies all conditions of
    [benchmark_correct]; only the view file must have room for the cube. *)
Theorem estimated_memory_correct par vspace :
  clss par = "S"%char \/ clss par = "W"%char \/ clss par = "A"%char \/ clss par = "B"%char ->
  2 ^ Z.of_nat (dim (class_params par)) * tuplenum (class_params par) <= Z.of_nat vspace ->
  exists es, class_expons (clss par) = Some es
    /\ run_ok (class_params par) es (estimated_memory (class_params par)) vspace.
Proof.
  destruct par as [id d m n inv name cl]. cbn [clss]. intros Hcl.
  destruct Hcl as [->|[->|[->| ->]]]; intros Hv; (eexists; split; [reflexivity|]); unfold run_ok, class_ok;
    cbn [class_params mnum tuplenum dim clss Ascii.eqb Bool.eqb] in *; unfold MAX_NUM_OF_MEAS.
  - change (estimated_memory _) with 75000. repeat split; (discriminate || reflexivity || assumption || (cbn; lia)).
  - change (estimated_memory _) with 10000000. repeat split; (discriminate || reflexivity || assumption || (cbn; lia)).
  - change (estimated_memory _) with 125000000. repeat split; (discriminate || reflexivity || assumption || (cbn; lia)).
  - change (estimated_memory _) with 1500000000. repeat split; (discriminate || reflexivity || assumption || (cbn; lia)).
Qed.

Lemma estimated_memory_correct_witness :
  exists es, class_expons "S" = Some es /\ run_ok params_S es (estimated_memory params_S) 32000.
Proof.
  apply (estimated_memory_correct (mkPar 0 5 1 100 0 "ADC" "S") 32000).
  - left. reflexivity.
  - discriminate.
Defined.

(** ** The critical section *)

Lemma critical_comm s a b : critical (critical s a) b = critical (critical s b) a.
Proof.
  unfold critical. destruct (tk_failed a =? 0), (tk_failed b =? 0);
    cbn [verificationFailed totalViewTuples totalViewSizesInBytes totalNumberOfMadeViews checksum];
    rewrite ?wrapu_add_l, ?wraps_add_l by lia; f_equal; try done; f_equal; lia.
Qed.

(** The order of the tasks does not matter.  The tasks add their results to
    the shared record one at a time in the critical section of [DC]; whatever
    order they enter it in, the totals, the checksum and hence the verdict of
    the benchmark are the same. *)
Theorem task_order_irrelevant rs rs' clss :
  rs ≡ₚ rs' -> collect_tasks rs = collect_tasks rs'
    /\ verdict (collect_tasks rs) clss = verdict (collect_tasks rs') clss.
Proof.
  intros Hp. enough (E : collect_tasks rs = collect_tasks rs') by (by rewrite E).
  unfold collect_tasks. generalize pvs_start. induction Hp as [|r l l' Hp IH|r r' l|l1 l2 l3 H1 IH1 H2 IH2];
    intros s; cbn [fold_left].
  - reflexivity.
  - apply IH.
  - by rewrite critical_comm.
  - by rewrite IH1.
Qed.

Lemma task_order_irrelevant_witness :
  collect_tasks [mkTask 0 3 40 8 464620000; mkTask 0 1 2 3 213] = collect_tasks [mkTask 0 1 2 3 213; mkTask 0 3 40 8 464620000].
Proof. apply (task_order_irrelevant _ _ "S"). apply perm_swap. Defined.

Example verdict_S : verdict (collect_tasks [mkTask 0 3 40 8 464620000; mkTask 0 1 2 3 213]) "S" = 1.
Proof. reflexivity. Qed.

(** ** The checksum of a run *)

Lemma collect_checksum rs : Forall (fun r => tk_failed r = 0 \/ tk_checksum r = 0) rs -> forall s,
  checksum (fold_left critical rs s) mod 2 ^ 64 = (checksum s + foldr (fun r z => tk_checksum r + z) 0 rs) mod 2 ^ 64.
Proof.
  induction 1 as [|r rs Hr Hrs IH]; intros s; cbn [fold_left foldr]; [by rewrite Z.add_0_r|].
  rewrite IH. unfold critical. destruct (Z.eqb_spec (tk_failed r) 0) as [E|E]; cbn [checksum].
  - unfold wrapu. rewrite Zplus_mod_idemp_l. f_equal. lia.
  - destruct Hr as [?| ->]; [done|]. done.
Qed.

Lemma checksum_of_app nd nm rows l l' : checksum_of nd nm rows (l ++ l') = checksum_of nd nm rows l + checksum_of nd nm rows l'.
Proof. induction l as [|t l IH]; [done|]. unfold checksum_of in *. cbn [app foldr]. lia. Qed.

#[export] Instance checksum_of_perm nd nm rows : Proper ((≡ₚ) ==> (=)) (checksum_of nd nm rows).
Proof.
  intros l l' Hp. unfold checksum_of. induction Hp; cbn [foldr]; lia.
Qed.

Lemma s64_sum_eq nd nm rows (outs : nat -> list Z) qs :
  foldr (fun q z => s64 (checksum_of nd nm rows (outs q)) + z) 0 qs mod 2 ^ 64
  = checksum_of nd nm rows (concat (outs <$> qs)) mod 2 ^ 64.
Proof.
  induction qs as [|q qs IH]; [done|]. rewrite fmap_cons. cbn [foldr concat]. rewrite checksum_of_app.
  rewrite Z.add_mod, IH, (Z.add_mod (checksum_of _ _ _ _)) by done. f_equal. f_equal. apply wraps_mod. lia.
Qed.

(** The checksum the run adds up, as [Verify] sees it. *)
Lemma run_checksum par threads mem g vspace cspace js pools rows words outs qs :
  run_passes par threads mem g vspace cspace js pools rows words outs -> mnum par = 1%nat ->
  Z.of_nat (length rows) = tuplenum par -> qs ≡ₚ seq 0 threads ->
  exists rs, mapM (fun q => DC_task (dim par) (mnum par) (number_of_tasks threads) q mem (g q) vspace cspace (js q) (pools q) rows words) qs
      = Some rs
    /\ s64 (checksum (collect_tasks rs)) = s64 (checksum_of (dim par) (mnum par) rows (concat (outs <$> seq 0 threads))).
Proof.
  intros Hrun Hm Hlen Hqs.
  assert (Hin : Forall (fun q => (q < threads)%nat) qs).
  { apply Forall_forall. intros q Hq. rewrite Hqs in Hq. apply elem_of_seq in Hq. lia. }
  enough (H : exists rs, mapM (fun q => DC_task (dim par) (mnum par) (number_of_tasks threads) q mem (g q) vspace cspace (js q) (pools q) rows words) qs
      = Some rs /\ Forall (fun r => tk_failed r = 0 \/ tk_checksum r = 0) rs
    /\ foldr (fun r z => tk_checksum r + z) 0 rs
       = foldr (fun q z => s64 (checksum_of (dim par) (mnum par) rows (outs q)) + z) 0 qs).
  { destruct H as (rs & Hrs & Hf & Hsum). exists rs. split; [exact Hrs|]. apply wraps_congr.
    unfold collect_tasks. rewrite (collect_checksum rs Hf pvs_start), Hsum. cbn [pvs_start checksum]. rewrite Z.add_0_l.
    rewrite s64_sum_eq. by rewrite Hqs. }
  clear Hqs. induction Hin as [|q qs Hq Hin (rs & Hrs & Hf & Hsum)].
  { exists []. by split_and!. }
  destruct (Hrun q Hq) as (Hpart & c & failed & Hcomp & Hfail & _ & Hch). destruct (Hch Hm) as [rest Htot].
  eexists (_ :: rs). split; [|split; [constructor; [|exact Hf]|]].
  - assert (E : DC_task (dim par) (mnum par) (number_of_tasks threads) q mem (g q) vspace cspace (js q) (pools q) rows words
      = Some (mkTask failed (Z.of_nat (length (outs q))) (totalViewFileSize c) (totalOfViewRows (c_view c)) (hd 0 (totchs c)))).
    { unfold DC_task. by rewrite Hlen, Hpart, Hcomp. }
    cbn [mapM]. rewrite E. cbn [mbind option_bind]. rewrite Hrs. reflexivity.
  - cbn [tk_failed tk_checksum]. rewrite Hfail, Htot. cbn [hd].
    destruct (bool_decide_reflect (outs q = [])) as [E|E]; [right|by left]. by rewrite E.
  - cbn [foldr tk_checksum]. rewrite Htot, Hsum. reflexivity.
Qed.

Lemma checksum_run par es mem vspace threads g cspace js pools qs :
  run_ok par es mem vspace -> mnum par = 1%nat -> (0 < threads)%nat -> (forall q, fresh_ok (g q)) ->
  (forall q, Z.of_nat (length (pools q)) = mem / 4) -> qs ≡ₚ seq 0 threads ->
  exists rows words st idxs rs,
    GenerateADC UpPrimeLim par gen_start = Some (Some (rows, words), st)
    /\ Forall (row_ok (dim par) 1) rows
    /\ mapM (fun q => DC_task (dim par) 1 (number_of_tasks threads) q mem (g q) vspace cspace (js q) (pools q) rows words) qs = Some rs
    /\ s64 (checksum (collect_tasks rs))
       = s64 (checksum_of (dim par) 1 rows ((fun k => CreateBinTuple (sel_of (dim par) k)) <$> idxs))
    /\ NoDup idxs /\ (vinc_of (clss par) = 1%nat -> idxs ≡ₚ seq 1 (2 ^ dim par - 1)).
Proof.
  intros Hok Hm Ht Hg Hp Hqs. destruct (benchmark_run par es mem vspace threads g cspace js pools Hok Ht Hg Hp)
    as (rows & words & st & idxs & outs & Hgen & Hlen & _ & Hpass & Hperm & Hdup & _ & Hrows & Hall).
  destruct (run_checksum par threads mem g vspace cspace js pools rows words outs qs Hpass Hm Hlen Hqs) as (rs & Hrs & Hsum).
  rewrite Hm in *. exists rows, words, st, idxs, rs. split_and!; [exact Hgen|exact Hrows|exact Hrs| |by do 2 apply NoDup_fmap_1 in Hdup|exact Hall].
  rewrite Hsum, Hperm, <- list_fmap_compose. reflexivity.
Qed.

(** The checksum of a run depends only on the data.  With one measure, for
    any number of tasks, any memory they find and any order in which they
    enter the critical section, the checksum [DC] hands to [Verify] is the sum
    of the checksums of the listed views of the cube of the generated rows. *)
Theorem reported_checksum par es mem vspace threads g cspace js pools qs :
  run_ok par es mem vspace -> mnum par = 1%nat -> (0 < threads)%nat -> (forall q, fresh_ok (g q)) ->
  (forall q, Z.of_nat (length (pools q)) = mem / 4) -> qs ≡ₚ seq 0 threads ->
  exists rows words st idxs rs,
    GenerateADC UpPrimeLim par gen_start = Some (Some (rows, words), st)
    /\ mapM (fun q => DC_task (dim par) 1 (number_of_tasks threads) q mem (g q) vspace cspace (js q) (pools q) rows words) qs = Some rs
    /\ s64 (checksum (collect_tasks rs))
       = s64 (checksum_of (dim par) 1 rows ((fun k => CreateBinTuple (sel_of (dim par) k)) <$> idxs))
    /\ NoDup idxs /\ (vinc_of (clss par) = 1%nat -> idxs ≡ₚ seq 1 (2 ^ dim par - 1)).
Proof.
  intros Hok Hm Ht Hg Hp Hqs. destruct (checksum_run par es mem vspace threads g cspace js pools qs Hok Hm Ht Hg Hp Hqs)
    as (rows & words & st & idxs & rs & H1 & _ & H2). by exists rows, words, st, idxs, rs.
Qed.

Lemma reported_checksum_witness :
  exists rows words st rs,
    GenerateADC UpPrimeLim params_S gen_start = Some (Some (rows, words), st)
    /\ mapM (fun q => DC_task 5 1 3 q 75000 demo_block 32000 0 demo_junk (repeat 7 18750) rows words) [2; 0; 1]%nat = Some rs.
Proof.
  destruct (reported_checksum params_S adcexpS 75000 32000 3 (fun _ => demo_block) 0 (fun _ => demo_junk)
    (fun _ => repeat 7 18750) [2; 0; 1]%nat) as (rows & words & st & idxs & rs & H1 & H2 & _).
  - exact run_ok_S.
  - reflexivity.
  - lia.
  - repeat split.
  - intros _. rewrite repeat_length. reflexivity.
  - apply Permutation_trans with [0; 2; 1]%nat; [apply perm_swap|]. apply perm_skip, perm_swap.
  - exists rows, words, st, rs. split; [exact H1|exact H2].
Defined.
