(* ===== verification/ClassS.v ===== *)
(** * The checksum of class S

    The checksums of the tasks add up to the checksum of the cube; for class S
    the checksum of the cube is computed here from its definition and is the
    number the benchmark compares with. *)

From Stdlib Require Import ZArith Lia Sorted Ascii String Mergesort Orders.
From stdpp Require Import base gmap numbers option sorting list.
From S2P Require Import Prelude Rows RBTree RBSpec ViewFiles ExtSort BuildSpec JobBits JobPool JobPoolSpec Cube CubeSpec CubeTheorems PartitionSpec PartitionTheorems Generator ViewSizesSpec GeneratorSpec Benchmark BenchmarkSpec BenchmarkTheorems.

Local Open Scope string_scope.
Local Open Scope list_scope.
Local Open Scope Z_scope.
Local Abbreviation length := List.length.

(** ** A fast way to aggregate

    Inserting the rows from the largest to the smallest key takes one
    comparison each, and the order does not change the view. *)

Module RowOrder <: TotalLeBool.
Definition t : Type := row.
Definition leb (a b : row) : bool := KeyComp (ks b) (ks a) 5 <=? 0.
Lemma leb_total a b : leb a b = true \/ leb b a = true.
Proof. unfold leb. rewrite (KeyComp_antisym (ks b) (ks a)), !Z.leb_le. lia. Qed.
End RowOrder.

Module RowSort := Sort RowOrder.

Definition fast_aggregate (nd nm : nat) (rows : list row) : list row := aggregate nd nm (RowSort.sort rows).

Lemma fast_aggregate_eq nd nm rows : Forall (row_ok nd nm) rows -> fast_aggregate nd nm rows = aggregate nd nm rows.
Proof. intros H. symmetry. apply aggregate_perm; [|done]. apply RowSort.Permuted_sort. Qed.

Definition fast_checksum (rows : list row) (k : nat) : Z :=
  let sel := sel_of 5 k in view_checksum (fast_aggregate (length sel) 1 (project sel <$> rows)) 0 0.

Definition fast_total (rows : list row) : Z := foldr (fun k s => fast_checksum rows k + s) 0 (seq 1 31).

Definition rows_total (r : option (option (list row) * generator)) : option Z :=
  match r with
  | Some (Some rows, _) => Some (fast_total rows)
  | _ => None
  end.

Lemma class_S_total_eq :
  rows_total (generate_loop (Z.to_nat (s32 (tuplenum params_S))) params_S gen_start) = Some checksumS.
Proof. vm_compute. reflexivity. Qed.

Lemma fast_checksum_eq rows k : Forall (row_ok 5 1) rows ->
  fast_checksum rows k = view_checksum (view_of 5 1 rows (CreateBinTuple (sel_of 5 k))) 0 0.
Proof.
  intros Hrows. unfold fast_checksum, view_of. destruct (sel_of_ok 5 k) as (Hsel & Hsort & _).
  rewrite (reg_of_bin (sel_of 5 k) 5) by (done || lia). cbv zeta. rewrite fast_aggregate_eq; [done|].
  apply Forall_fmap. eapply Forall_impl; [exact Hrows|]. intros r Hr. by apply (project_key_map 5 1).
Qed.

Lemma fast_total_eq rows idxs : Forall (row_ok 5 1) rows -> idxs ≡ₚ seq 1 31 ->
  checksum_of 5 1 rows ((fun k => CreateBinTuple (sel_of 5 k)) <$> idxs) = fast_total rows.
Proof.
  intros Hrows Hp. rewrite Hp. unfold fast_total, checksum_of. clear Hp.
  induction (seq 1 31) as [|k l IH]; [done|]. cbn [fmap list_fmap foldr]. rewrite IH, fast_checksum_eq by done. done.
Qed.

Lemma GenerateADC_rows lim par st rows words st' : GenerateADC lim par st = Some (Some (rows, words), st') ->
  generate_loop (Z.to_nat (s32 (tuplenum par))) par st = Some (Some rows, st').
Proof.
  unfold GenerateADC. destruct (generate_loop _ par st) as [[[rows'|] st1]|]; [|discriminate..].
  destruct (CalculateVeiwSizes _ _ _ _); [|discriminate]. by intros [= -> _ ->].
Qed.

Lemma rows_total_inv r rows st z : rows_total r = Some z -> r = Some (Some rows, st) -> fast_total rows = z.
Proof. intros H ->. by injection H. Qed.

(** The rows [GenerateADC] writes for class S. *)
Lemma class_S_rows rows words st :
  GenerateADC UpPrimeLim params_S gen_start = Some (Some (rows, words), st) -> fast_total rows = checksumS.
Proof. intros Hgen%GenerateADC_rows. exact (rows_total_inv _ rows st checksumS class_S_total_eq Hgen). Qed.

(** C1: A run of class S verifies.  With the generator's data for class S, for
    any number of threads (tasks are cut to 256, as [DC] does), any pool that is
    large enough, any memory the tasks find and any order in which they finish,
    the checksum of the run is the constant [checksumS] of [Verify], and the
    benchmark reports a successful verification. *)
Theorem class_S_verified mem vspace threads g cspace js pools qs :
  run_ok params_S adcexpS mem vspace -> (0 < threads)%nat -> (forall q, fresh_ok (g q)) ->
  (forall q, Z.of_nat (length (pools q)) = mem / 4) -> qs ≡ₚ seq 0 threads ->
  exists rows words st rs,
    GenerateADC UpPrimeLim params_S gen_start = Some (Some (rows, words), st)
    /\ mapM (fun q => DC_task 5 1 (number_of_tasks threads) q mem (g q) vspace cspace (js q) (pools q) rows words) qs = Some rs
    /\ verdict (collect_tasks rs) "S" = 1.
Proof.
  intros Hok Ht Hg Hp Hqs.
  destruct (checksum_run params_S adcexpS mem vspace threads g cspace js pools qs Hok eq_refl Ht Hg Hp Hqs)
    as (rows & words & st & idxs & rs & Hgen & Hrows & Hrs & Hsum & _ & Hall).
  exists rows, words, st, rs. split; [exact Hgen|]. split; [exact Hrs|].
  unfold verdict. rewrite Hsum. change (dim params_S) with 5%nat.
  rewrite (fast_total_eq rows idxs Hrows (Hall eq_refl)), (class_S_rows _ _ _ Hgen). reflexivity.
Qed.

Lemma class_S_verified_witness :
  exists rows words st rs,
    GenerateADC UpPrimeLim params_S gen_start = Some (Some (rows, words), st)
    /\ mapM (fun q => DC_task 5 1 3 q 75000 demo_block 32000 0 demo_junk (repeat 7 18750) rows words) [0; 2; 1]%nat = Some rs
    /\ verdict (collect_tasks rs) "S" = 1.
Proof.
  apply (class_S_verified 75000 32000 3 (fun _ => demo_block) 0 (fun _ => demo_junk) (fun _ => repeat 7 18750)).
  - exact run_ok_S.
  - lia.
  - repeat split.
  - intros _. rewrite repeat_length. reflexivity.
  - apply perm_skip, perm_swap.
Defined.
