(* ===== verification/TftpBuf.v ===== *)
(** * The double buffer of the TFTP server: iputils-ns/tftpsubs.c and tftp.h

    Two packet buffers sit between the file and the network: [read_ahead]
    fills the free one while the other is on its way, [write_behind] empties
    one while the other is being received.  Both convert between local text
    and netascii when asked to.

    A packet buffer is the list of its [PKTSIZE] bytes; the header is kept in
    the byte order of a little-endian host, as [htons] and [ntohs] on such a
    host exchange the two bytes.  Disks have room: [write] and [putc]
    succeed. *)

From Stdlib Require Import ZArith Lia.
From stdpp Require Import base numbers option list.
From S2P Require Import Prelude.

Local Open Scope Z_scope.

Definition SEGSIZE : nat := 512.
Definition PKTSIZE : nat := SEGSIZE + 4.

Definition RRQ : Z := 1.
Definition WRQ : Z := 2.
Definition DATA : Z := 3.
Definition ACK : Z := 4.
Definition ERROR : Z := 5.

(** ** Packets *)

(** The [short] at byte [i], and storing one. *)
Definition get16 (i : nat) (p : list Z) : Z := s16 (nth i p 0 + 256 * nth (S i) p 0).

Definition put16 (i : nat) (v : Z) (p : list Z) : list Z :=
  <[S i := Z.shiftr (u16 v) 8]> (<[i := u8 v]> p).

(** [ntohs] and [htons] on a little-endian host. *)
Definition swap16 (v : Z) : Z := Z.lor (Z.shiftl (Z.land (u16 v) 255) 8) (Z.shiftr (u16 v) 8).
Abbreviation ntohs := swap16.
Abbreviation htons := swap16.

Definition th_opcode (p : list Z) : Z := get16 0 p.
Definition th_block (p : list Z) : Z := get16 2 p.
Definition set_opcode (v : Z) (p : list Z) : list Z := put16 0 v p.
Definition set_block (v : Z) (p : list Z) : list Z := put16 2 v p.

(** [n] bytes arrive in a buffer. *)
Definition recv_into (bytes : list Z) (p : list Z) : list Z :=
  let b := take PKTSIZE bytes in b ++ drop (length b) p.

(** ** The buffers *)

Record bf := mkBf { counter : Z; buf : list Z }.

Definition BF_ALLOC : Z := -3.
Definition BF_FREE : Z := -2.

(** The globals of the file; an index of [bfs] is 0 ([false]) or 1. *)
Record bufs := mkBufs {
  bfs0 : bf;
  bfs1 : bf;
  nextone : bool;
  current : bool;
  newline : bool;
  prevchar : Z
}.

Definition get_bf (i : bool) (s : bufs) : bf := if i then bfs1 s else bfs0 s.

Definition set_bf (i : bool) (b : bf) (s : bufs) : bufs :=
  if i then mkBufs (bfs0 s) b (nextone s) (current s) (newline s) (prevchar s)
  else mkBufs b (bfs1 s) (nextone s) (current s) (newline s) (prevchar s).

Definition set_counter (i : bool) (c : Z) (s : bufs) : bufs := set_bf i (mkBf c (buf (get_bf i s))) s.
Definition set_nextone (x : bool) (s : bufs) : bufs :=
  mkBufs (bfs0 s) (bfs1 s) x (current s) (newline s) (prevchar s).
Definition set_current (x : bool) (s : bufs) : bufs :=
  mkBufs (bfs0 s) (bfs1 s) (nextone s) x (newline s) (prevchar s).
Definition set_crlf (nl : bool) (pc : Z) (s : bufs) : bufs :=
  mkBufs (bfs0 s) (bfs1 s) (nextone s) (current s) nl pc.

Definition rw_init (x : bool) (s : bufs) : bufs :=
  mkBufs (mkBf BF_ALLOC (buf (bfs0 s))) (mkBf BF_FREE (buf (bfs1 s))) x false false (-1).

Definition w_init : bufs -> bufs := rw_init false.
Definition r_init : bufs -> bufs := rw_init true.

(** ** Reading *)

(** A file open for reading: the bytes not read yet, and the [errno] of the
    error that is met behind them, if there is one. *)
Record rfile := mkR { rrest : list Z; rerr : option Z }.

(** [read(fd, p, n)]: the bytes, or -1. *)
Definition read (n : nat) (f : rfile) : option (list Z) * rfile :=
  match rrest f, rerr f with
  | [], Some _ => (None, f)
  | l, _ => (Some (take n l), mkR (drop n l) (rerr f))
  end.

Definition put_data (bytes : list Z) (p : list Z) : list Z :=
  take 4 p ++ bytes ++ drop (4 + length bytes) p.

(** The loop of [read_ahead] with the conversion; [n] is [SEGSIZE - i].  It
    returns the bytes it stores. *)
Fixpoint fill_ascii (n : nat) (nl : bool) (pc : Z) (l : list Z) : list Z * bool * Z * list Z :=
  match n with
  | O => ([], nl, pc, l)
  | S n' =>
      if nl then
        let c := if pc =? 10 then 10 else 0 in
        let '(out, nl', pc', l') := fill_ascii n' false pc l in (c :: out, nl', pc', l')
      else
        match l with
        | [] => ([], nl, pc, l)
        | c :: l1 =>
            if (c =? 10) || (c =? 13) then
              let '(out, nl', pc', l') := fill_ascii n' true c l1 in (13 :: out, nl', pc', l')
            else
              let '(out, nl', pc', l') := fill_ascii n' false pc l1 in (c :: out, nl', pc', l')
        end
  end.

Definition read_ahead (convert : bool) (f : rfile) (s : bufs) : rfile * bufs :=
  let i := nextone s in
  let b := get_bf i s in
  if negb (counter b =? BF_FREE) then (f, s)
  else
    let s := set_nextone (negb i) s in
    if negb convert then
      match read SEGSIZE f with
      | (None, f') => (f', set_bf i (mkBf (-1) (buf b)) s)
      | (Some bytes, f') =>
          (f', set_bf i (mkBf (Z.of_nat (length bytes)) (put_data bytes (buf b))) s)
      end
    else
      let '(out, nl, pc, l) := fill_ascii SEGSIZE (newline s) (prevchar s) (rrest f) in
      (mkR l (rerr f),
       set_crlf nl pc (set_bf i (mkBf (Z.of_nat (length out)) (put_data out (buf b))) s)).

(** The size it returns; the buffer it hands out is that of [current]. *)
Definition readit (convert : bool) (f : rfile) (s : bufs) : Z * rfile * bufs :=
  let s := set_counter (current s) BF_FREE s in
  let s := set_current (negb (current s)) s in
  let '(f, s) := if counter (get_bf (current s) s) =? BF_FREE
                 then read_ahead convert f s else (f, s) in
  (counter (get_bf (current s) s), f, s).

(** ** Writing *)

(** A file open for writing: its contents and the position. *)
Record wfile := mkW { wcontent : list Z; wpos : nat }.

Definition putc (c : Z) (f : wfile) : wfile :=
  mkW (take (wpos f) (wcontent f) ++ [c] ++ drop (S (wpos f)) (wcontent f)) (S (wpos f)).

(** [write(fd, buf, count)]. *)
Definition write (bytes : list Z) (f : wfile) : wfile := foldl (fun f c => putc c f) f bytes.

(** [fseek(file, -1, 1)]: it fails at the start of the file. *)
Definition seek_back (f : wfile) : wfile := mkW (wcontent f) (Nat.pred (wpos f)).

(** The loop of [write_behind] with the conversion. *)
Fixpoint drain_ascii (bytes : list Z) (pc : Z) (f : wfile) : Z * wfile :=
  match bytes with
  | [] => (pc, f)
  | c :: bytes' =>
      if pc =? 13 then
        if c =? 10 then drain_ascii bytes' c (putc c (seek_back f))
        else if c =? 0 then drain_ascii bytes' c f
        else drain_ascii bytes' c (putc c f)
      else drain_ascii bytes' c (putc c f)
  end.

(** The [count] bytes of data of a packet. *)
Definition th_data (count : Z) (p : list Z) : list Z := take (Z.to_nat count) (drop 4 p).

Definition write_behind (convert : bool) (f : wfile) (s : bufs) : Z * wfile * bufs :=
  let i := nextone s in
  let b := get_bf i s in
  if counter b <? -1 then (0, f, s)
  else
    let count := counter b in
    let s := set_nextone (negb i) (set_counter i BF_FREE s) in
    if count <=? 0 then (-1, f, s)
    else
      let bytes := th_data count (buf b) in
      if negb convert then (count, write bytes f, s)
      else
        let '(pc, f) := drain_ascii bytes (prevchar s) f in
        (count, f, set_crlf (newline s) pc s).

Definition writeit (convert : bool) (ct : Z) (f : wfile) (s : bufs) : Z * wfile * bufs :=
  let s := set_counter (current s) ct s in
  let s := set_current (negb (current s)) s in
  let '(f, s) := if negb (counter (get_bf (current s) s) =? BF_FREE)
                 then let '(_, f, s) := write_behind convert f s in (f, s) else (f, s) in
  (ct, f, set_counter (current s) BF_ALLOC s).
