(* ===== verification/TftpBufSpec.v ===== *)
(** * The double buffer delivers the file in segments

    A file is sent as the stream of its bytes, converted or not, cut into
    segments of [SEGSIZE] bytes.  The reader hands out the segments in order,
    whenever [read_ahead] is called; the writer puts the bytes it is given in
    the file in order; netascii is undone by the receiving side. *)

From Stdlib Require Import ZArith Lia.
From stdpp Require Import base numbers option list.
From S2P Require Import Prelude TftpBuf.

Local Open Scope Z_scope.

#[local] Ltac Zify.zify_post_hook ::= Z.div_mod_to_equations.

(** ** Bytes and headers *)

Definition is_byte (b : Z) : Prop := 0 <= b < 256.

Lemma swap16_bytes a b : is_byte a -> is_byte b -> swap16 (a + 256 * b) = 256 * a + b.
Proof.
  unfold is_byte, swap16, wrapu. intros Ha Hb. rewrite (Z.mod_small (a + 256 * b)) by lia.
  change 255 with (Z.ones 8). rewrite Z.land_ones, Z.shiftl_mul_pow2, Z.shiftr_div_pow2 by lia.
  change (2 ^ 8) with 256. replace ((a + 256 * b) mod 256) with a by lia.
  replace ((a + 256 * b) / 256) with b by lia. rewrite <- Z.add_nocarry_lor; [lia|].
  apply Z.bits_inj'. intros n Hn. rewrite Z.land_spec, Z.bits_0. change 256 with (2 ^ 8).
  destruct (Z.lt_ge_cases n 8) as [H|H].
  - by rewrite Z.mul_pow2_bits_low.
  - rewrite (Z.bits_above_log2 b), andb_false_r; [done|lia|].
    destruct (Z.eq_dec b 0) as [->|]; [cbn; lia|]. apply Z.log2_lt_pow2; [lia|].
    apply Z.lt_le_trans with (2 ^ 8); [cbn; lia|]. apply Z.pow_le_mono_r; lia.
Qed.

Lemma swap16_u16 v : swap16 (u16 v) = swap16 v.
Proof. unfold swap16, wrapu. by rewrite Z.mod_mod. Qed.

Lemma swap16_s16 v : swap16 (s16 v) = swap16 v.
Proof. unfold swap16, wrapu. change 65536 with (2 ^ 16). by rewrite wraps_mod. Qed.

(** The bytes of a short on the wire, most significant first. *)
Definition wire16 (v : Z) : list Z := [Z.shiftr (u16 v) 8; u8 v].

Definition packet (opcode block : Z) (data : list Z) : list Z := wire16 opcode ++ wire16 block ++ data.

Lemma wire16_bytes v : Forall is_byte (wire16 v).
Proof.
  unfold wire16, wrapu, is_byte. repeat constructor; try (apply Z.mod_pos_bound; lia).
  - apply Z.shiftr_nonneg, Z.mod_pos_bound. lia.
  - rewrite Z.shiftr_div_pow2 by lia. apply Z.div_lt_upper_bound; [lia|]. apply Z.mod_pos_bound. lia.
Qed.

Lemma u8_split v : u16 v = u8 v + 256 * Z.shiftr (u16 v) 8.
Proof.
  unfold wrapu. rewrite Z.shiftr_div_pow2 by lia. change (2 ^ 8) with 256. change (2 ^ 16) with (256 * 256).
  rewrite Z.rem_mul_r by lia. lia.
Qed.

(** Storing [htons v] puts the bytes of [v] on the wire. *)
Lemma put16_htons v : [u8 (htons v); Z.shiftr (u16 (htons v)) 8] = wire16 v.
Proof.
  pose proof (wire16_bytes v) as Hb. inversion Hb as [|? ? H1 Hb']; subst. inversion Hb' as [|? ? H2 _]; subst.
  rewrite <- (swap16_u16 v), u8_split, swap16_bytes by done. unfold wire16, is_byte in *.
  set (a := u8 v) in *. set (b := Z.shiftr (u16 v) 8) in *. unfold wrapu.
  rewrite (Z.mod_small (256 * a + b) (2 ^ 16)) by lia.
  rewrite Z.shiftr_div_pow2 by lia. change (2 ^ 8) with 256.
  f_equal; [|f_equal]; lia.
Qed.

(** A received short, read in place and turned with [ntohs]. *)
Lemma get16_wire v a b : [a; b] = wire16 v -> s16 (ntohs (s16 (a + 256 * b))) = s16 v.
Proof.
  intros E. pose proof (wire16_bytes v) as Hb. rewrite <- E in Hb.
  inversion Hb as [|? ? H1 Hb']; subst. inversion Hb' as [|? ? H2 _]; subst.
  rewrite swap16_s16, swap16_bytes by done. injection E as -> ->.
  apply wraps_congr. rewrite Z.add_comm. pose proof (u8_split v) as Hu. unfold wrapu in Hu at 1.
  rewrite <- Hu, Z.mod_mod by lia. done.
Qed.

Lemma header_split (p : list Z) : (4 <= length p)%nat -> exists a b c d r, p = a :: b :: c :: d :: r.
Proof. destruct p as [|a [|b [|c [|d r]]]]; cbn; intros; try lia. by exists a, b, c, d, r. Qed.

(** ** Netascii *)

Definition encode1 (c : Z) : list Z := if c =? 10 then [13; 10] else if c =? 13 then [13; 0] else [c].
Definition encode (l : list Z) : list Z := l ≫= encode1.

(** The stream still to be delivered when the converter is in the given state. *)
Definition pending (nl : bool) (pc : Z) (l : list Z) : list Z :=
  (if nl then [if pc =? 10 then 10 else 0] else []) ++ encode l.

Lemma fill_ascii_spec n : forall nl pc l, let '(out, nl', pc', l') := fill_ascii n nl pc l in
  out = take n (pending nl pc l) /\ pending nl' pc' l' = drop n (pending nl pc l).
Proof.
  induction n as [|n IH]; intros nl pc l; [done|]. cbn [fill_ascii]. destruct nl.
  - specialize (IH false pc l). destruct (fill_ascii n false pc l) as [[[out nl'] pc'] l'].
    destruct IH as [-> ->]. done.
  - destruct l as [|c l1]; [done|]. change (pending false pc (c :: l1)) with (encode1 c ++ pending false pc l1).
    unfold encode1. destruct (Z.eqb_spec c 10) as [->|Hc]; [|destruct (Z.eqb_spec c 13) as [->|Hc']]; cbn [orb].
    + specialize (IH true 10 l1). destruct (fill_ascii n true 10 l1) as [[[out nl'] pc'] l']. by destruct IH as [-> ->].
    + specialize (IH true 13 l1). destruct (fill_ascii n true 13 l1) as [[[out nl'] pc'] l']. by destruct IH as [-> ->].
    + specialize (IH false pc l1). destruct (fill_ascii n false pc l1) as [[[out nl'] pc'] l']. by destruct IH as [-> ->].
Qed.

(** ** The file being written *)

(** [l] was written over the old contents [old], from the start. *)
Definition wrote (old l : list Z) (f : wfile) : Prop :=
  wcontent f = l ++ drop (length l) old /\ wpos f = length l.

Lemma putc_wrote old l c f : wrote old l f -> wrote old (l ++ [c]) (putc c f).
Proof.
  intros [Hc Hp]. unfold wrote, putc. cbn. rewrite Hc, Hp, length_app. cbn. split; [|lia].
  rewrite take_app_length, <- app_assoc. f_equal. cbn. f_equal.
  rewrite drop_app_ge, drop_drop by lia. f_equal. lia.
Qed.

Lemma write_wrote old bytes : forall l f, wrote old l f -> wrote old (l ++ bytes) (write bytes f).
Proof.
  induction bytes as [|c bytes IH]; intros l f H; [by rewrite app_nil_r|].
  rewrite (app_assoc l [c] bytes : l ++ c :: bytes = _). apply IH. by apply putc_wrote.
Qed.

Lemma seek_putc_wrote old l x c f : wrote old (l ++ [x]) f -> wrote old (l ++ [c]) (putc c (seek_back f)).
Proof.
  intros [Hc Hp]. rewrite length_app in Hp. cbn in Hp. unfold wrote, putc, seek_back. cbn. rewrite Hc, Hp, !length_app. cbn.
  replace (Nat.pred (length l + 1)) with (length l) by lia. split; [|lia].
  rewrite <- app_assoc, take_app_length, <- app_assoc. f_equal. cbn. f_equal.
  rewrite drop_app_ge by lia. replace (S (length l) - length l)%nat with 1%nat by lia. done.
Qed.

(** What the converter makes of one more byte: the previous byte and what was
    written so far. *)
Definition undo (st : Z * list Z) (c : Z) : Z * list Z :=
  let '(pc, out) := st in
  if pc =? 13 then
    if c =? 10 then (c, take (pred (length out)) out ++ [c])
    else if c =? 0 then (c, out) else (c, out ++ [c])
  else (c, out ++ [c]).

Definition sink (convert : bool) (st : Z * list Z) (bytes : list Z) : Z * list Z :=
  if convert then foldl undo st bytes else (fst st, snd st ++ bytes).

Definition sink_ok (st : Z * list Z) : Prop := fst st = 13 -> last (snd st) = Some 13.

Lemma undo_ok st c : sink_ok st -> sink_ok (undo st c).
Proof.
  destruct st as [pc out]. unfold sink_ok, undo. cbn. intros H. destruct (Z.eqb_spec pc 13) as [->|Hp].
  - destruct (Z.eqb_spec c 10) as [->|]; [done|]. destruct (Z.eqb_spec c 0) as [->|]; [done|].
    cbn. intros ->. by rewrite last_snoc.
  - cbn. intros ->. by rewrite last_snoc.
Qed.

Lemma drain_ascii_spec old bytes : forall pc out f, wrote old out f -> sink_ok (pc, out) ->
  let '(pc', f') := drain_ascii bytes pc f in
  let '(pc1, out') := foldl undo (pc, out) bytes in
  pc' = pc1 /\ wrote old out' f' /\ sink_ok (pc1, out').
Proof.
  induction bytes as [|c bytes IH]; intros pc out f Hw Hok; [done|].
  pose proof (undo_ok (pc, out) c Hok) as Hok'. cbn [drain_ascii foldl]. unfold undo in *.
  destruct (Z.eqb_spec pc 13) as [->|Hp].
  - specialize (Hok eq_refl). cbn in Hok. apply last_Some in Hok as [l ->].
    destruct (Z.eqb_spec c 10) as [->|]; [|destruct (Z.eqb_spec c 0) as [->|]].
    + apply IH; [|done]. replace (take (pred (length (l ++ [13]))) (l ++ [13])) with l; [by apply seek_putc_wrote with 13|].
      rewrite length_app. cbn. replace (pred (length l + 1)) with (length l) by lia. by rewrite take_app_length.
    + by apply IH.
    + apply IH; [by apply putc_wrote|done].
  - apply IH; [by apply putc_wrote|done].
Qed.

(** Undoing netascii gives the text back. *)
Lemma undo_encode l : forall pc out, pc <> 13 -> exists pc', pc' <> 13 /\ foldl undo (pc, out) (encode l) = (pc', out ++ l).
Proof.
  induction l as [|c l IH]; intros pc out Hp; [exists pc; by rewrite app_nil_r|].
  change (encode (c :: l)) with (encode1 c ++ encode l). rewrite foldl_app. unfold encode1.
  destruct (Z.eqb_spec c 10) as [->|H10]; [|destruct (Z.eqb_spec c 13) as [->|H13]];
    cbn [foldl undo]; rewrite (proj2 (Z.eqb_neq pc 13)) by done.
  - cbn [undo Z.eqb Pos.eqb]. replace (take (pred (length (out ++ [13]))) (out ++ [13])) with out.
    2:{ rewrite length_app. cbn. replace (pred (length out + 1)) with (length out) by lia. by rewrite take_app_length. }
    destruct (IH 10 (out ++ [10])) as (pc' & H & E); [done|]. exists pc'. split; [done|]. rewrite E, <- app_assoc. done.
  - cbn [undo Z.eqb Pos.eqb]. destruct (IH 0 (out ++ [13])) as (pc' & H & E); [done|]. exists pc'. split; [done|].
    rewrite E, <- app_assoc. done.
  - destruct (IH c (out ++ [c])) as (pc' & H & E); [done|]. exists pc'. split; [done|]. rewrite E, <- app_assoc. done.
Qed.

(** ** The stream and its segments *)

Definition wire (convert : bool) (l : list Z) : list Z := if convert then encode l else l.

(** What sending a text and receiving it leaves is the text. *)
Lemma sink_wire convert l : exists pc, sink convert (-1, []) (wire convert l) = (pc, l).
Proof.
  destruct convert; cbn; [|by exists (-1)]. destruct (undo_encode l (-1) []) as (pc & _ & E); [done|]. by exists pc.
Qed.

Lemma sink_app convert st a b : sink convert st (a ++ b) = sink convert (sink convert st a) b.
Proof. destruct convert; cbn; [by rewrite foldl_app|]. by rewrite app_assoc. Qed.

Definition segment (st : list Z) (k : nat) : list Z := take SEGSIZE (drop (k * SEGSIZE) st).

Lemma SEGSIZE_pos : (0 < SEGSIZE)%nat.
Proof. unfold SEGSIZE. lia. Qed.

#[global] Opaque SEGSIZE PKTSIZE.

Lemma SEGSIZE_divide n : (n = SEGSIZE * (n / SEGSIZE) + n mod SEGSIZE /\ n mod SEGSIZE < SEGSIZE)%nat.
Proof. pose proof SEGSIZE_pos. split; [apply Nat.div_mod_eq|]. apply Nat.mod_upper_bound. lia. Qed.

(** The number of segments: the last one is shorter than the others. *)
Definition segments (st : list Z) : nat := S (length st / SEGSIZE).

Lemma segment_full st k : (S k < segments st)%nat -> length (segment st k) = SEGSIZE.
Proof.
  unfold segments, segment. intros H. rewrite length_take, length_drop.
  pose proof SEGSIZE_pos.
  assert ((S k * SEGSIZE <= length st)%nat).
  { etransitivity; [|apply (Nat.mul_div_le (length st) SEGSIZE); lia]. rewrite Nat.mul_comm.
    apply Nat.mul_le_mono_l. lia. }
  lia.
Qed.

Lemma segment_last st k : S k = segments st -> (length (segment st k) < SEGSIZE)%nat.
Proof.
  unfold segments, segment. intros ->%Nat.succ_inj. rewrite length_take, length_drop.
  pose proof (SEGSIZE_divide (length st)) as H. revert H.
  generalize (length st / SEGSIZE)%nat, (length st mod SEGSIZE)%nat. intros q r. lia.
Qed.

Lemma segments_concat st n : concat (segment st <$> seq 0 n) = take (n * SEGSIZE) st.
Proof.
  induction n as [|n IH]; [done|]. rewrite seq_S, fmap_app, concat_app, IH. cbn [fmap list_fmap concat]. rewrite app_nil_r.
  unfold segment. cbn [Nat.add]. rewrite take_take_drop. f_equal. lia.
Qed.

Lemma segments_all st : concat (segment st <$> seq 0 (segments st)) = st.
Proof.
  rewrite segments_concat. apply take_ge. unfold segments.
  pose proof (SEGSIZE_divide (length st)) as H. revert H.
  generalize (length st / SEGSIZE)%nat, (length st mod SEGSIZE)%nat. intros q r. lia.
Qed.

(** ** The reader *)

Lemma get_set_bf i j b s : get_bf i (set_bf j b s) = if Bool.eqb i j then b else get_bf i s.
Proof. by destruct i, j. Qed.

Section Reader.
Context (convert : bool) (st : list Z) (err : option Z).

(** The rest of the stream. *)
Definition stream (f : rfile) (s : bufs) : list Z :=
  if convert then pending (newline s) (prevchar s) (rrest f) else rrest f.

(** Reading segment [k] meets the error of the file. *)
Definition read_fails (k : nat) : Prop :=
  convert = false /\ err <> None /\ (length st <= k * SEGSIZE)%nat.

(** The buffer has segment [k], or the error. *)
Definition holds (k : nat) (b : bf) : Prop :=
  length (buf b) = PKTSIZE
  /\ (read_fails k /\ counter b = -1
      \/ ~ read_fails k /\ counter b = Z.of_nat (length (segment st k))
         /\ take (length (segment st k)) (drop 4 (buf b)) = segment st k).

(** [k] segments were handed out; [s] is the state between two calls. *)
Record reader (k : nat) (f : rfile) (s : bufs) : Prop := {
  rd_err : rerr f = err;
  rd_len : forall i, length (buf (get_bf i s)) = PKTSIZE;
  rd_current : (0 < k)%nat -> holds (pred k) (get_bf (current s) s);
  rd_busy : counter (get_bf (current s) s) <> BF_FREE;
  rd_next :
    counter (get_bf (negb (current s)) s) = BF_FREE /\ nextone s = negb (current s)
      /\ stream f s = drop (k * SEGSIZE) st
    \/ holds k (get_bf (negb (current s)) s) /\ nextone s = current s
      /\ stream f s = drop (S k * SEGSIZE) st
}.

Lemma holds_not_free k b : holds k b -> counter b <> BF_FREE.
Proof. unfold BF_FREE. intros (_ & [[_ ->]|(_ & -> & _)]); lia. Qed.

Lemma put_data_holds k p : length p = PKTSIZE -> ~ read_fails k ->
  holds k (mkBf (Z.of_nat (length (segment st k))) (put_data (segment st k) p)).
Proof.
  intros Hp Hr. assert (Hl : (length (segment st k) <= SEGSIZE)%nat) by (unfold segment; rewrite length_take; lia).
  assert (Hpk : PKTSIZE = (SEGSIZE + 4)%nat) by reflexivity.
  assert (H4 : length (take 4 p) = 4%nat) by (rewrite length_take; lia).
  split.
  - cbn [buf]. unfold put_data. rewrite !length_app, length_drop, H4. lia.
  - right. split_and!; [done|done|]. cbn [buf]. unfold put_data.
    rewrite drop_app_length' by done. by rewrite take_app_length.
Qed.

Lemma fill_nextone k f s i : counter (get_bf (nextone s) s) = BF_FREE -> nextone s = i ->
  rerr f = err -> (forall j, length (buf (get_bf j s)) = PKTSIZE) -> stream f s = drop (k * SEGSIZE) st ->
  let '(f', s') := read_ahead convert f s in
  rerr f' = err /\ holds k (get_bf i s') /\ get_bf (negb i) s' = get_bf (negb i) s
  /\ nextone s' = negb i /\ current s' = current s /\ stream f' s' = drop (S k * SEGSIZE) st.
Proof.
  intros Hfree Hi Herr Hlen Hst. unfold read_ahead. rewrite Hfree. cbn [negb Z.eqb BF_FREE Pos.eqb].
  assert (Hdrop : drop (S k * SEGSIZE) st = drop SEGSIZE (stream f s)) by (rewrite Hst, drop_drop; f_equal; lia).
  assert (Hseg : segment st k = take SEGSIZE (stream f s)) by (unfold segment; by rewrite Hst).
  subst i. rewrite Hdrop. unfold stream, read_fails in *. destruct convert eqn:Ec; cbn [negb].
  - pose proof (fill_ascii_spec SEGSIZE (newline s) (prevchar s) (rrest f)) as Hf.
    cbn [set_nextone newline prevchar].
    destruct (fill_ascii SEGSIZE (newline s) (prevchar s) (rrest f)) as [[[out nl] pc] l]. destruct Hf as [-> Hp].
    rewrite <- Hseg. split_and!.
    + done.
    + assert (Hb : get_bf (nextone s) (set_crlf nl pc (set_bf (nextone s) (mkBf (Z.of_nat (length (segment st k))) (put_data (segment st k) (buf (get_bf (nextone s) s)))) (set_nextone (negb (nextone s)) s)))
        = mkBf (Z.of_nat (length (segment st k))) (put_data (segment st k) (buf (get_bf (nextone s) s)))) by (by destruct (nextone s)).
      rewrite Hb. apply put_data_holds; [done|]. unfold read_fails. rewrite Ec. by intros [? _].
    + by destruct (nextone s).
    + by destruct (nextone s).
    + by destruct (nextone s).
    + destruct (nextone s); exact Hp.
  - unfold read. destruct (rrest f) as [|c l] eqn:Hl; [destruct (rerr f) as [e|] eqn:He|].
    + split_and!; [congruence| |by destruct (nextone s)..|by rewrite Hl, drop_nil].
      assert (Hb : get_bf (nextone s) (set_bf (nextone s) (mkBf (-1) (buf (get_bf (nextone s) s))) (set_nextone (negb (nextone s)) s))
        = mkBf (-1) (buf (get_bf (nextone s) s))) by (by destruct (nextone s)).
      rewrite Hb. split; [apply Hlen|]. left. split; [|done]. split_and!; [done|by rewrite <- Herr|].
      assert (Hz : length (drop (k * SEGSIZE) st) = 0%nat) by (by rewrite <- Hst). rewrite length_drop in Hz. lia.
    + split_and!; [done| |by destruct (nextone s)..].
      assert (Hb : forall x, get_bf (nextone s) (set_bf (nextone s) x (set_nextone (negb (nextone s)) s)) = x) by (by destruct (nextone s)).
      rewrite Hb, <- Hseg. apply put_data_holds; [apply Hlen|]. unfold read_fails. rewrite <- Herr. by intros (_ & ? & _).
    + split_and!; [done| |by destruct (nextone s)..].
      assert (Hb : forall x, get_bf (nextone s) (set_bf (nextone s) x (set_nextone (negb (nextone s)) s)) = x) by (by destruct (nextone s)).
      rewrite Hb, <- Hseg. apply put_data_holds; [apply Hlen|]. intros (_ & _ & Hle).
      assert (Hz : length (drop (k * SEGSIZE) st) = S (length l)) by (by rewrite <- Hst). rewrite length_drop in Hz. lia.
Qed.

Lemma read_ahead_reader k f s : reader k f s ->
  let '(f', s') := read_ahead convert f s in
  reader k f' s' /\ current s' = current s /\ get_bf (current s) s' = get_bf (current s) s.
Proof.
  intros [He Hl Hc Hb [(Hf & Hn & Hs)|(Hh & Hn & Hs)]].
  - pose proof (fill_nextone k f s _ ltac:(by rewrite Hn) Hn He Hl Hs) as H.
    destruct (read_ahead convert f s) as [f' s']. rewrite negb_involutive in H.
    destruct H as (He' & Hh & Hcur & Hn' & Hc' & Hs'). split_and!; [|done|done].
    split; rewrite ?Hc', ?Hcur; auto.
    intros i. destruct (Bool.bool_dec i (current s)) as [->|Hne]; [by rewrite Hcur|].
    replace i with (negb (current s)) by (by destruct i, (current s)). apply Hh.
  - unfold read_ahead. rewrite Hn. destruct (Z.eqb_spec (counter (get_bf (current s) s)) BF_FREE) as [E|_]; [done|].
    cbn [negb]. split_and!; [|done|done]. split; auto.
Qed.

Lemma readit_reader k f s : reader k f s ->
  let '(size, f', s') := readit convert f s in
  reader (S k) f' s' /\ size = counter (get_bf (current s') s') /\ holds k (get_bf (current s') s').
Proof.
  intros [He Hl Hc Hb Hnext]. unfold readit. set (c := current s).
  set (s1 := set_current (negb c) (set_counter c BF_FREE s)).
  assert (E1 : get_bf (negb c) s1 = get_bf (negb c) s) by (unfold s1; by destruct c).
  assert (E2 : counter (get_bf c s1) = BF_FREE) by (unfold s1; by destruct c).
  assert (E3 : forall i, length (buf (get_bf i s1)) = PKTSIZE).
  { intros i. rewrite <- (Hl i). unfold s1. by destruct i, c. }
  assert (E4 : stream f s1 = stream f s) by (unfold s1; by destruct c).
  assert (E5 : nextone s1 = nextone s) by (unfold s1; by destruct c).
  assert (E6 : current s1 = negb c) by (unfold s1; by destruct c).
  assert (E0 : current (set_counter c BF_FREE s) = c) by (unfold set_counter, set_bf, c; by destruct (current s) eqn:E).
  rewrite E0. fold s1.
  rewrite E6, E1. fold c in Hnext. destruct Hnext as [(Hf & Hn & Hs)|(Hh & Hn & Hs)].
  - rewrite Hf. cbn [Z.eqb BF_FREE Pos.eqb].
    pose proof (fill_nextone k f s1 (negb c) ltac:(by rewrite E5, Hn, E1) ltac:(by rewrite E5) He E3 ltac:(by rewrite E4)) as H.
    destruct (read_ahead convert f s1) as [f' s']. rewrite negb_involutive in H.
    destruct H as (He' & Hh & Hcur & Hn' & Hc' & Hs'). rewrite Hc', E6. split_and!; [|done|done].
    split; rewrite ?Hc', ?E6, ?negb_involutive; auto.
    + intros i. destruct (Bool.bool_dec i c) as [->|Hne]; [by rewrite Hcur|].
      replace i with (negb c) by (by destruct i, c). apply Hh.
    + by apply holds_not_free in Hh.
    + left. by rewrite Hcur.
  - pose proof (holds_not_free _ _ Hh) as Hnf. rewrite (proj2 (Z.eqb_neq _ _) Hnf).
    rewrite E6, E1. split_and!; [|done|done].
    split; rewrite ?E6, ?negb_involutive, ?E1; auto. left. by rewrite E5, E4.
Qed.

Lemma header_reader k f s p : reader k f s -> length p = PKTSIZE ->
  drop 4 p = drop 4 (buf (get_bf (current s) s)) ->
  reader k f (set_bf (current s) (mkBf (counter (get_bf (current s) s)) p) s).
Proof.
  intros [He Hl Hc Hb Hn] Hp Hd. set (c := current s) in *.
  assert (E1 : forall b, current (set_bf c b s) = c) by (intros b; unfold set_bf, c; by destruct (current s)).
  assert (E2 : forall b, nextone (set_bf c b s) = nextone s) by (intros b; by destruct c).
  assert (E3 : forall b, stream f (set_bf c b s) = stream f s) by (intros b; by destruct c).
  assert (E4 : forall b, get_bf (negb c) (set_bf c b s) = get_bf (negb c) s) by (intros b; by destruct c).
  assert (E5 : forall b, get_bf c (set_bf c b s) = b) by (intros b; by destruct c).
  split; rewrite ?E1, ?E2, ?E3, ?E4, ?E5; auto.
  - intros i. destruct (Bool.bool_dec i c) as [->|Hne]; [by rewrite E5|].
    replace i with (negb c) by (by destruct i, c). by rewrite E4.
  - intros Hk. destruct (Hc Hk) as [_ H]. split; [done|]. cbn [buf counter]. by rewrite Hd.
Qed.

Lemma r_init_reader f s : (forall i, length (buf (get_bf i s)) = PKTSIZE) -> rerr f = err ->
  wire convert (rrest f) = st -> reader 0 f (r_init s).
Proof.
  intros Hl He Hs. split; cbn; auto; try lia.
  intros [|]; [apply (Hl true)|apply (Hl false)].
Qed.
End Reader.

(** ** The writer *)

Section Writer.
Context (convert : bool) (old : list Z).

(** Everything received so far was written. *)
Record idle (st : Z * list Z) (f : wfile) (s : bufs) : Prop := {
  id_wrote : wrote old (snd st) f;
  id_sink : convert = true -> fst st = prevchar s /\ sink_ok st;
  id_len : forall i, length (buf (get_bf i s)) = PKTSIZE;
  id_cur : counter (get_bf (current s) s) = BF_ALLOC;
  id_other : counter (get_bf (negb (current s)) s) = BF_FREE;
  id_next : nextone s = current s
}.

(** The last [data] is still in the other buffer. *)
Record holding (st : Z * list Z) (data : list Z) (f : wfile) (s : bufs) : Prop := {
  ho_wrote : wrote old (snd st) f;
  ho_sink : convert = true -> fst st = prevchar s /\ sink_ok st;
  ho_len : forall i, length (buf (get_bf i s)) = PKTSIZE;
  ho_cur : counter (get_bf (current s) s) = BF_ALLOC;
  ho_other : counter (get_bf (negb (current s)) s) = Z.of_nat (length data);
  ho_data : take (length data) (drop 4 (buf (get_bf (negb (current s)) s))) = data;
  ho_next : nextone s = negb (current s)
}.

Lemma w_init_idle f s : wcontent f = old -> wpos f = 0%nat ->
  (forall i, length (buf (get_bf i s)) = PKTSIZE) -> idle (-1, []) f (w_init s).
Proof.
  intros Hc Hp Hl. split; [split; cbn; [by rewrite drop_0|done]|by intros _| |done..].
  intros [|]; [apply (Hl true)|apply (Hl false)].
Qed.

Lemma write_behind_idle st f s : idle st f s -> write_behind convert f s = (0, f, s).
Proof. intros [_ _ _ Hc _ Hn]. unfold write_behind. by rewrite Hn, Hc. Qed.

Lemma write_behind_holding st data f s : holding st data f s ->
  exists z f' s', write_behind convert f s = (z, f', s') /\ idle (sink convert st data) f' s'
    /\ current s' = current s /\ get_bf (current s) s' = get_bf (current s) s
    /\ buf (get_bf (negb (current s)) s') = buf (get_bf (negb (current s)) s).
Proof.
  intros [Hw Hs Hl Hc Ho Hd Hn]. unfold write_behind. rewrite Hn, Ho. set (c := current s) in *.
  destruct (Z.ltb_spec (Z.of_nat (length data)) (-1)) as [|_]; [lia|]. cbv zeta.
  set (s1 := set_nextone (negb (negb c)) (set_counter (negb c) BF_FREE s)).
  assert (E1 : current s1 = c) by (unfold s1, set_counter, set_bf, c; by destruct (current s)).
  assert (E2 : get_bf c s1 = get_bf c s) by (unfold s1; by destruct c).
  assert (E3 : counter (get_bf (negb c) s1) = BF_FREE) by (unfold s1; by destruct c).
  assert (E4 : forall i, length (buf (get_bf i s1)) = PKTSIZE) by (intros i; rewrite <- (Hl i); unfold s1; by destruct i, c).
  assert (E5 : nextone s1 = c) by (unfold s1; by destruct c).
  assert (E6 : prevchar s1 = prevchar s) by (unfold s1; by destruct c).
  assert (E7 : buf (get_bf (negb c) s1) = buf (get_bf (negb c) s)) by (unfold s1; by destruct c).
  unfold th_data. rewrite Nat2Z.id, Hd.
  destruct (Z.leb_spec (Z.of_nat (length data)) 0) as [Hz|_].
  { assert (data = []) as -> by (destruct data; [done|cbn in Hz; lia]).
    eexists _, _, _. split; [reflexivity|]. split_and!; try done.
    replace (sink convert st []) with st by (destruct convert, st; cbn; by rewrite ?app_nil_r).
    split; rewrite ?E1, ?E2, ?E3, ?E5, ?E6; auto. }
  unfold sink. destruct convert eqn:Ecv; cbn [negb].
  - destruct st as [pc out]. destruct (Hs eq_refl) as [Hpc Hok]. cbn in Hpc. subst pc.
    pose proof (drain_ascii_spec old data (prevchar s) out f Hw Hok) as Hdr. rewrite E6.
    destruct (drain_ascii data (prevchar s) f) as [pc' f'], (foldl undo (prevchar s, out) data) as [pc1 out'].
    destruct Hdr as (-> & Hw' & Hok'). eexists _, _, _. split; [reflexivity|]. split_and!; try done.
    split; cbn [set_crlf current nextone prevchar get_bf]; rewrite ?E1, ?E5; auto.
    + by rewrite <- Hc, <- E2.
  - eexists _, _, _. split; [reflexivity|]. split_and!; try done.
    split; rewrite ?E1, ?E2, ?E3, ?E5, ?E6; auto; [|congruence]. cbn. by apply write_wrote.
Qed.

Lemma writeit_idle st f s data : idle st f s -> (length data <= SEGSIZE)%nat ->
  take (length data) (drop 4 (buf (get_bf (current s) s))) = data ->
  exists s', writeit convert (Z.of_nat (length data)) f s = (Z.of_nat (length data), f, s')
    /\ holding st data f s' /\ current s' = negb (current s)
    /\ forall i, buf (get_bf i s') = buf (get_bf i s).
Proof.
  intros [Hw Hs Hl Hc Ho Hn] Hlen Hd. unfold writeit. set (c := current s) in *.
  assert (E0 : current (set_counter c (Z.of_nat (length data)) s) = c) by (unfold set_counter, set_bf, c; by destruct (current s)).
  rewrite E0. set (s1 := set_current (negb c) (set_counter c (Z.of_nat (length data)) s)).
  assert (E1 : get_bf (negb c) s1 = get_bf (negb c) s) by (unfold s1; by destruct c).
  assert (E6 : current s1 = negb c) by (unfold s1; by destruct c).
  rewrite E6, E1, Ho. cbn [negb Z.eqb BF_FREE Pos.eqb]. rewrite E6.
  eexists. split; [reflexivity|]. set (s2 := set_counter (negb c) BF_ALLOC s1).
  assert (F1 : current s2 = negb c) by (unfold s2, s1; by destruct c).
  assert (F2 : counter (get_bf (negb c) s2) = BF_ALLOC) by (unfold s2, s1; by destruct c).
  assert (F3 : counter (get_bf c s2) = Z.of_nat (length data)) by (unfold s2, s1; by destruct c).
  assert (F4 : forall i, buf (get_bf i s2) = buf (get_bf i s)) by (intros i; unfold s2, s1; by destruct i, c).
  assert (F5 : nextone s2 = nextone s) by (unfold s2, s1; by destruct c).
  assert (F6 : prevchar s2 = prevchar s) by (unfold s2, s1; by destruct c).
  split_and!; [|done|done]. split; rewrite ?F1, ?negb_involutive, ?F2, ?F3, ?F4, ?F5, ?F6; auto.
  intros i. by rewrite F4.
Qed.
End Writer.
