(* ===== verification/TftpServer.v ===== *)
(** * The TFTP server: iputils-ns/tftpd.c

    Handling of a request ([main], [tftp], [validate_access], [nak]) and the
    two transfers ([sendfile], [recvfile]).

    A transfer waits for the network in one place only, the [recv] of its
    inner loop, which ends with a packet, with an error, or because the alarm
    goes off and [timer] jumps back to the last send.  The transfer is
    therefore a machine that takes one such event at a time.  [sends] says
    which of its calls of [send] succeed (all, when the list is at its
    end). *)

From Stdlib Require Import ZArith Lia Ascii String.
From stdpp Require Import base numbers option list.
From S2P Require Import Prelude TftpBuf.

Local Open Scope string_scope.
Local Open Scope list_scope.
Local Open Scope Z_scope.
Local Abbreviation length := List.length.

Definition bytes_of (s : string) : list Z := (fun c => Z.of_nat (nat_of_ascii c)) <$> list_ascii_of_string s.

(** ** nak *)

Definition EUNDEF : Z := 0.
Definition ENOTFOUND : Z := 1.
Definition EACCESS : Z := 2.
Definition ENOSPACE : Z := 3.
Definition EBADOP : Z := 4.
Definition EBADID : Z := 5.
Definition EEXISTS : Z := 6.
Definition ENOUSER : Z := 7.

Definition errmsgs : list (Z * string) :=
  [(EUNDEF, "Undefined error code"); (ENOTFOUND, "File not found"); (EACCESS, "Access violation");
   (ENOSPACE, "Disk full or allocation exceeded"); (EBADOP, "Illegal TFTP operation");
   (EBADID, "Unknown transfer ID"); (EEXISTS, "File already exists"); (ENOUSER, "No such user")].

Definition find_errmsg (error : Z) : option (Z * string) :=
  list_find (fun pe => fst pe = error) errmsgs ≫= fun x => Some (snd x).

(** The bytes [nak] sends from [buf]; [strerror] is the C library's. *)
Definition nak (strerror : Z -> string) (error : Z) (p : list Z) : list Z :=
  let p := set_opcode (htons ERROR) p in
  let p := set_block (htons error) p in
  let '(msg, p) := match find_errmsg error with
                   | Some pe => (snd pe, p)
                   | None => (strerror (error - 100), set_block EUNDEF p)
                   end in
  let len := length (bytes_of msg) in
  take (len + 5) (take 4 p ++ bytes_of msg ++ [0] ++ drop (5 + len) p).

(** ** tftp *)

(** The first [while]: [cp] is an index of [buf]. *)
Fixpoint skip_string (fuel : nat) (p : list Z) (size cp : nat) : option nat :=
  match fuel with
  | O => None
  | S fuel' =>
      if (cp <? size)%nat then
        match p !! cp with
        | None => None
        | Some c => if c =? 0 then Some cp else skip_string fuel' p size (S cp)
        end
      else Some cp
  end.

Definition tolower (c : Z) : Z := if (65 <=? c) && (c <=? 90) then c + 32 else c.

(** The C string at index [i]: the bytes up to the next zero, [None] when the
    array ends before it. *)
Fixpoint c_string (l : list Z) : option (list Z) :=
  match l with
  | [] => None
  | c :: l' => if c =? 0 then Some [] else cons c <$> c_string l'
  end.

(** [f_convert] of the formats. *)
Definition formats (mode : list Z) : option bool :=
  if decide (mode = bytes_of "netascii") then Some true
  else if decide (mode = bytes_of "octet") then Some false
  else None.

Inductive request :=
  | Nak (code : Z)
  | Request (filename : list Z) (convert : bool).

(** The part of [tftp] that reads the request; [p] is [buf], [size] the number
    of bytes that were received.  [None] is a read outside [buf]. *)
Definition parse_request (p : list Z) (size : nat) : option request :=
  match skip_string (S size) p size 2 with
  | None => None
  | Some cp =>
      match p !! cp with
      | None => None
      | Some c =>
          if negb (c =? 0) then Some (Nak EBADOP)
          else
            let mode := S cp in
            match skip_string (S size) p size mode with
            | None => None
            | Some cp =>
                match p !! cp with
                | None => None
                | Some c =>
                    if negb (c =? 0) then Some (Nak EBADOP)
                    else
                      match c_string (drop 2 p), c_string (drop mode p) with
                      | Some filename, Some m =>
                          match formats (tolower <$> m) with
                          | None => Some (Nak EBADOP)
                          | Some convert => Some (Request filename convert)
                          end
                      | _, _ => None
                      end
                end
            end
      end
  end.

(** ** validate_access *)

Definition SLASH : Z := 47.
Definition DOT : Z := 46.

(** What the loop over [filename] finds: [first] at its first byte, [prev] the
    byte before [cp]. *)
Fixpoint bad_path (first : bool) (prev : Z) (l : list Z) : bool :=
  match l with
  | [] => false
  | c :: l' =>
      ((c =? DOT) && (first || bool_decide (take 4 (prev :: l) = [SLASH; DOT; DOT; SLASH])))
      || bad_path false c l'
  end.

(** What the file system knows of a path: [stat] and [open]. *)
Record fs := mkFS {
  fs_stat : list Z -> Z + Z;        (* errno or st_mode *)
  fs_open : list Z -> Z -> Z + unit (* errno, or the file is open *)
}.

Definition ENOENT : Z := 2.

(** The return code, and the path that was opened when it is 0.  [dir] is
    [dirs[0]]. *)
Definition validate_access (s : fs) (dir : option (list Z)) (filename : list Z) (mode : Z)
    : Z * option (list Z) :=
  if bad_path true 0 filename then (EACCESS, None)
  else
    let filename := match filename with c :: l => if c =? SLASH then l else filename | [] => [] end in
    match dir with
    | None => (EACCESS, None)
    | Some d =>
        let path := take 1534 (d ++ [SLASH] ++ filename) in
        match fs_stat s path with
        | inl errno => (if errno =? ENOENT then ENOTFOUND else EACCESS, None)
        | inr st_mode =>
            let need := if mode =? RRQ then 4 else 2 in
            if Z.land st_mode need =? 0 then (EACCESS, None)
            else
              match fs_open s path (if mode =? RRQ then 0 else 1) with
              | inl errno => (errno + 100, None)
              | inr _ => (0, Some path)
              end
        end
    end.

(** ** main and tftp

    What the server does with the [n] bytes of the first packet in [buf]. *)
Inductive action :=
  | Quit                                          (* not a request: exit(1) *)
  | SendNak (packet : list Z)
  | SendFile (path : list Z) (convert : bool)     (* sendfile *)
  | RecvFile (path : list Z) (convert : bool).    (* recvfile *)

Definition tftp (strerror : Z -> string) (s : fs) (dir : option (list Z)) (p : list Z) (size : nat)
    : option action :=
  match parse_request p size with
  | None => None
  | Some (Nak code) => Some (SendNak (nak strerror code p))
  | Some (Request filename convert) =>
      match validate_access s dir filename (th_opcode p) with
      | (0, Some path) =>
          Some (if th_opcode p =? WRQ then RecvFile path convert else SendFile path convert)
      | (ecode, _) => Some (SendNak (nak strerror ecode p))
      end
  end.

Definition handle_packet (strerror : Z -> string) (s : fs) (dir : option (list Z)) (p : list Z) (n : nat)
    : option action :=
  let p := set_opcode (ntohs (th_opcode p)) p in
  if (th_opcode p =? RRQ) || (th_opcode p =? WRQ) then tftp strerror s dir p n else Some Quit.

(** ** The network *)

Definition TIMEOUT : Z := 5.
Definition rexmtval : Z := TIMEOUT.
Definition maxtimeout : Z := 5 * TIMEOUT.
Definition MSG_CONFIRM : Z := 0x800.

Inductive arrival :=
  | Pkt (bytes : list Z)
  | RecvErr (errno : Z).

(** [early] says that it had arrived before the last one was handled, so that
    [synchnet] finds it. *)
Inductive event :=
  | Arrives (early : bool) (a : arrival)
  | Timeout.

(** The signal handler [timer]: [None] when it gives up. *)
Definition timer (timeout : Z) : option Z :=
  let t := timeout + rexmtval in if maxtimeout <=? t then None else Some t.

(** [send(peer, ...)]: whether it succeeds. *)
Definition send (sends : list bool) : bool * list bool :=
  match sends with [] => (true, []) | b :: l => (b, l) end.

(** How a handler goes on: it waits for the next event, having called
    [synchnet] or not, or it has ended. *)
Inductive control (S R : Type) :=
  | Wait (flushed : bool) (s : S)
  | End (r : R).
Arguments Wait {S R}. Arguments End {S R}.

Section Machine.
Context {S R : Type} (handler : S -> event -> list (list Z) * control S R).

(** Handles the events in order.  [synchnet] throws away what has arrived
    already; a pending error ends it, too.  The packets that were sent, and
    how it ended; [inl] when the events have run out. *)
Fixpoint run_events (flushed : bool) (s : S) (evs : list event) : list (list Z) * (S + R) :=
  match evs with
  | [] => ([], inl s)
  | e :: evs' =>
      match flushed, e with
      | true, Arrives true (Pkt _) => run_events true s evs'
      | true, Arrives true (RecvErr _) => run_events false s evs'
      | _, _ =>
          let '(out, c) := handler s e in
          match c with
          | End r => (out, inr r)
          | Wait flushed s' => let '(outs, r) := run_events flushed s' evs' in (out ++ outs, r)
          end
      end
  end.

(** From the control a start routine leaves. *)
Definition run_from (start : list (list Z) * control S R) (evs : list event) : list (list Z) * (S + R) :=
  let '(out, c) := start in
  match c with
  | End r => (out, inr r)
  | Wait flushed s => let '(outs, r) := run_events flushed s evs in (out ++ outs, r)
  end.
End Machine.

(** ** sendfile *)

Record sender := mkSender {
  s_bufs : bufs;
  s_file : rfile;
  s_ackbuf : list Z;
  s_block : Z;
  s_size : Z;
  s_timeout : Z;
  s_confirmed : Z;
  s_sends : list bool
}.

Inductive sent :=
  | SentAll         (* the loop has ended *)
  | SentAbort       (* goto abort *)
  | SentExit.       (* exit(1) of timer *)

Section Transfer.
Context (strerror : Z -> string) (convert : bool).

(** From [send_data] to the [recv]. *)
Definition send_data (s : sender) : list (list Z) * control sender sent :=
  let '(ok, sends) := send (s_sends s) in
  if negb ok then ([], End SentAbort)
  else
    let dp := buf (get_bf (current (s_bufs s)) (s_bufs s)) in
    let '(f, b) := read_ahead convert (s_file s) (s_bufs s) in
    ([take (Z.to_nat (s_size s + 4)) dp],
     Wait false (mkSender b f (s_ackbuf s) (s_block s) (s_size s) (s_timeout s) 0 sends)).

(** From the [do] to [send_data]. *)
Definition next_data (s : sender) : list (list Z) * control sender sent :=
  let '(size, f, b) := readit convert (s_file s) (s_bufs s) in
  if size <? 0 then
    ([nak strerror (default 0 (rerr f) + 100) (repeat 0 PKTSIZE)], End SentAbort)
  else
    let i := current b in
    let dp := set_block (htons (u16 (s_block s))) (set_opcode (htons (u16 DATA)) (buf (get_bf i b))) in
    send_data (mkSender (set_bf i (mkBf (counter (get_bf i b)) dp) b) f (s_ackbuf s) (s_block s)
                 size 0 (s_confirmed s) (s_sends s)).

Definition set_s_ackbuf (p : list Z) (s : sender) : sender :=
  mkSender (s_bufs s) (s_file s) p (s_block s) (s_size s) (s_timeout s) (s_confirmed s) (s_sends s).

(** What follows the [recv], or the alarm, and the rest of the loop up to the
    next [recv]. *)
Definition sender_event (s : sender) (e : event) : list (list Z) * control sender sent :=
  match e with
  | Timeout =>
      match timer (s_timeout s) with
      | None => ([], End SentExit)
      | Some t => send_data (mkSender (s_bufs s) (s_file s) (s_ackbuf s) (s_block s) (s_size s) t 0 (s_sends s))
      end
  | Arrives _ (RecvErr _) => ([], End SentAbort)
  | Arrives _ (Pkt bytes) =>
      let ap := recv_into bytes (s_ackbuf s) in
      let ap := set_opcode (ntohs (th_opcode ap)) ap in
      let ap := set_block (ntohs (th_block ap)) ap in
      let s := set_s_ackbuf ap s in
      if th_opcode ap =? ERROR then ([], End SentAbort)
      else if th_opcode ap =? ACK then
        if th_block ap =? s_block s then
          if s_size s =? Z.of_nat SEGSIZE
          then next_data (mkSender (s_bufs s) (s_file s) ap (s32 (s_block s + 1)) (s_size s)
                            (s_timeout s) MSG_CONFIRM (s_sends s))
          else ([], End SentAll)
        else if th_block ap =? s_block s - 1 then
          let '(out, c) := send_data s in
          (out, match c with Wait _ s' => Wait true s' | End r => End r end)
        else ([], Wait true s)
      else ([], Wait false s)
  end.

Definition sendfile (b : bufs) (f : rfile) (ackbuf : list Z) (sends : list bool) (evs : list event)
    : list (list Z) * (sender + sent) :=
  run_from sender_event (next_data (mkSender (r_init b) f ackbuf 1 0 0 0 sends)) evs.

(** ** recvfile *)

Record receiver := mkReceiver {
  r_bufs : bufs;
  r_file : wfile;
  r_ackbuf : list Z;
  r_block : Z;
  r_timeout : Z;
  r_confirmed : Z;
  r_sends : list bool;
  r_last : bool        (* waiting in the last [recv], after the final ack *)
}.

Inductive received :=
  | ReceivedAll (f : wfile)
  | ReceivedAbort (f : wfile)
  | ReceivedExit (f : wfile).

Definition set_ack (block : Z) (p : list Z) : list Z :=
  set_block (htons (u16 block)) (set_opcode (htons (u16 ACK)) p).

(** From [send_ack] to the [recv]. *)
Definition send_ack (s : receiver) : list (list Z) * control receiver received :=
  let '(ok, sends) := send (r_sends s) in
  if negb ok then ([], End (ReceivedAbort (r_file s)))
  else
    let '(_, f, b) := write_behind convert (r_file s) (r_bufs s) in
    ([take 4 (r_ackbuf s)],
     Wait false (mkReceiver b f (r_ackbuf s) (r_block s) (r_timeout s) 0 sends false)).

(** From the [do] to [send_ack]. *)
Definition next_ack (s : receiver) : list (list Z) * control receiver received :=
  send_ack (mkReceiver (r_bufs s) (r_file s) (set_ack (r_block s) (r_ackbuf s)) (s32 (r_block s + 1)) 0
              (r_confirmed s) (r_sends s) false).

(** After the [do]: the final ack, up to the last [recv]. *)
Definition final_ack (s : receiver) : list (list Z) * control receiver received :=
  let '(_, f, b) := write_behind convert (r_file s) (r_bufs s) in
  let ap := set_ack (r_block s) (r_ackbuf s) in
  let '(ok, sends) := send (r_sends s) in
  (if ok then [take 4 ap] else [],
   Wait false (mkReceiver b f ap (r_block s) (r_timeout s) (r_confirmed s) sends true)).

Definition dp_of (s : receiver) : list Z := buf (get_bf (current (r_bufs s)) (r_bufs s)).

Definition set_dp (p : list Z) (s : receiver) : receiver :=
  let i := current (r_bufs s) in
  mkReceiver (set_bf i (mkBf (counter (get_bf i (r_bufs s))) p) (r_bufs s)) (r_file s) (r_ackbuf s)
    (r_block s) (r_timeout s) (r_confirmed s) (r_sends s) (r_last s).

(** The last [recv] reads into [buf], but [dp] is looked at. *)
Definition last_event (s : receiver) (e : event) : list (list Z) * control receiver received :=
  match e with
  | Timeout => ([], End (ReceivedAll (r_file s)))
  | Arrives _ (RecvErr _) => ([], End (ReceivedAll (r_file s)))
  | Arrives _ (Pkt bytes) =>
      let n := length (take PKTSIZE bytes) in
      let dp := dp_of s in
      (if (4 <=? n)%nat && (th_opcode dp =? DATA) && (r_block s =? th_block dp)
          && fst (send (r_sends s))
       then [take 4 (r_ackbuf s)] else [],
       End (ReceivedAll (r_file s)))
  end.

Definition receiver_event (s : receiver) (e : event) : list (list Z) * control receiver received :=
  if r_last s then last_event s e
  else
    match e with
    | Timeout =>
        match timer (r_timeout s) with
        | None => ([], End (ReceivedExit (r_file s)))
        | Some t => send_ack (mkReceiver (r_bufs s) (r_file s) (r_ackbuf s) (r_block s) t 0 (r_sends s) false)
        end
    | Arrives _ (RecvErr _) => ([], End (ReceivedAbort (r_file s)))
    | Arrives _ (Pkt bytes) =>
        let n := length (take PKTSIZE bytes) in
        let dp := recv_into bytes (dp_of s) in
        let dp := set_opcode (ntohs (th_opcode dp)) dp in
        let dp := set_block (ntohs (th_block dp)) dp in
        let s := set_dp dp s in
        if th_opcode dp =? ERROR then ([], End (ReceivedAbort (r_file s)))
        else if th_opcode dp =? DATA then
          if th_block dp =? r_block s then
            let '(size, f, b) := writeit convert (Z.of_nat n - 4) (r_file s) (r_bufs s) in
            let s := mkReceiver b f (r_ackbuf s) (r_block s) (r_timeout s) MSG_CONFIRM (r_sends s) false in
            if size =? Z.of_nat SEGSIZE then next_ack s else final_ack s
          else if th_block dp =? r_block s - 1 then
            let '(out, c) := send_ack s in
            (out, match c with Wait _ s' => Wait true s' | End r => End r end)
          else ([], Wait true s)
        else ([], Wait false s)
    end.

Definition recvfile (b : bufs) (f : wfile) (ackbuf : list Z) (sends : list bool) (evs : list event)
    : list (list Z) * (receiver + received) :=
  run_from receiver_event (next_ack (mkReceiver (w_init b) f ackbuf 0 0 0 sends false)) evs.
End Transfer.
