(* ===== verification/TftpSend.v ===== *)
(** * The sender sends every segment in order

    An invariant of the machine of [sendfile]: while it waits, the segment with
    the number of the current block is in the current buffer under its
    header.  Section [StopAndWait] holds what it shares with the receiver. *)

From Stdlib Require Import ZArith Lia Ascii String.
From stdpp Require Import base numbers option list.
From S2P Require Import Prelude TftpBuf TftpServer TftpBufSpec.

Local Open Scope Z_scope.
Local Abbreviation length := List.length.

(** ** Stop and wait

    What the two transfers have in common: the machine is at some block [k],
    an event makes it repeat the packet of block [k], go on to the packet of
    block [k + 1], end, or do nothing; and each block has a limited number of
    timeouts. *)

#[export] Instance event_is_timeout (e : event) : Decision (e = Timeout).
Proof. destruct e; [right; discriminate|by left]. Defined.

Definition timeouts (evs : list event) : nat := length (filter (fun e => e = Timeout) evs).

Lemma timeouts_cons e evs : timeouts (e :: evs) = ((if decide (e = Timeout) then 1 else 0) + timeouts evs)%nat.
Proof. unfold timeouts. rewrite filter_cons. by destruct (decide (e = Timeout)). Qed.

(** The numbers of the packets sent: each is the last one or the next. *)
Inductive advances : nat -> list nat -> nat -> Prop :=
  | adv_end k : advances k [] k
  | adv_same k ks k' : advances k ks k' -> advances k (k :: ks) k'
  | adv_next k ks k' : advances (S k) ks k' -> advances k (S k :: ks) k'.

Lemma advances_le k ks k' : advances k ks k' -> (k <= k')%nat.
Proof. induction 1; lia. Qed.

(** Nothing between the first and the last packet is left out. *)
Lemma advances_all k ks k' : advances k ks k' -> forall i, (k < i <= k')%nat -> i ∈ ks.
Proof.
  induction 1 as [k|k ks k' H IH|k ks k' H IH]; intros i Hi; [lia| |].
  - right. by apply IH.
  - destruct (decide (i = S k)) as [->|]; [by left|]. right. apply IH. lia.
Qed.

Lemma advances_range k ks k' : advances k ks k' -> forall i, i ∈ ks -> (k <= i <= k')%nat.
Proof.
  induction 1 as [k|k ks k' H IH|k ks k' H IH]; intros i Hi; [by apply elem_of_nil in Hi|..];
    apply elem_of_cons in Hi as [->|Hi]; pose proof (advances_le _ _ _ H); try lia; apply IH in Hi; lia.
Qed.

Section StopAndWait.
Context {S R : Type} (handler : S -> event -> list (list Z) * control S R).
Context (inv : nat -> S -> Prop) (clock : S -> Z) (pkt : nat -> list Z).
Context (ended : nat -> list (list Z) -> R -> Prop) (good : event -> Prop).

(** What one event may do at block [k]. *)
Inductive reacts (k : nat) (s : S) (e : event) : list (list Z) -> control S R -> Prop :=
  | re_quiet fl s' : inv k s' -> clock s' = clock s -> e <> Timeout -> reacts k s e [] (Wait fl s')
  | re_again fl s' : inv k s' ->
      clock s' = (match e with Timeout => clock s + rexmtval | _ => clock s end) ->
      reacts k s e [pkt k] (Wait fl s')
  | re_next fl s' : inv (k + 1)%nat s' -> e <> Timeout -> reacts k s e [pkt (k + 1)%nat] (Wait fl s')
  | re_end out r : ended k out r -> reacts k s e out (End r).

Hypothesis Hclock : forall k s, inv k s -> 0 <= clock s <= 4 * rexmtval.
Hypothesis Hstep : forall k s e, inv k s -> good e -> let '(out, c) := handler s e in reacts k s e out c.

(** Four timeouts for every block, and those of the current one. *)
Definition total (k : nat) (s : S) : Z := 4 * rexmtval * Z.of_nat k + clock s.

(** From block [k] on the machine has sent the packets of [ks], while there
    were [n] timeouts. *)
Definition progressed (k : nat) (s : S) (n : nat) (res : list (list Z) * (S + R)) : Prop :=
  let '(outs, r) := res in
  exists ks k' rest, advances k ks k' /\ outs = (pkt <$> ks) ++ rest
    /\ match r with
       | inl s' => rest = [] /\ inv k' s' /\ total k s + rexmtval * Z.of_nat n <= total k' s'
       | inr x => ended k' rest x
       end.

Lemma progressed_cons k s k1 s1 n n1 ks1 res :
  total k s + rexmtval * Z.of_nat n <= total k1 s1 + rexmtval * Z.of_nat n1 ->
  progressed k1 s1 n1 res -> (forall ks k', advances k1 ks k' -> advances k (ks1 ++ ks) k') ->
  progressed k s n ((pkt <$> ks1) ++ fst res, snd res).
Proof.
  intros Hc H2 Happ. destruct res as [outs r]. destruct H2 as (ks & k' & rest & Ha & -> & Hst).
  exists (ks1 ++ ks), k', rest. split_and!; [by apply Happ| |].
  - cbn. by rewrite fmap_app, app_assoc.
  - destruct r; cbn [snd]; [|done]. destruct Hst as (? & ? & ?). split_and!; [done|done|lia].
Qed.

Lemma run_progress evs : Forall good evs -> forall fl k s, inv k s -> progressed k s (timeouts evs) (run_events handler fl s evs).
Proof.
  induction 1 as [|e evs Hg Hgs IH]; intros fl k s H; cbn [run_events].
  { exists [], k, []. split_and!; [constructor|done|done|done|]. cbn. lia. }
  assert (Hskip : forall fl', e <> Timeout -> progressed k s (timeouts (e :: evs)) (run_events handler fl' s evs)).
  { intros fl' He. rewrite timeouts_cons, decide_False by done. apply IH, H. }
  assert (Hgo : progressed k s (timeouts (e :: evs)) (let '(out, c) := handler s e in
      match c with
      | End r => (out, inr r)
      | Wait flushed s' => let '(outs, r) := run_events handler flushed s' evs in (out ++ outs, r)
      end)).
  { pose proof (Hstep k s e H Hg) as He. pose proof (Hclock _ _ H) as Hclk.
    destruct (handler s e) as [out c]. rewrite timeouts_cons.
    destruct He as [fl' s' H' Ht Hn|fl' s' H' Ht|fl' s' H' Hn|out r Hr]; [| | |by exists [], k, out; split_and!; [constructor|..]];
      rewrite (surjective_pairing (run_events _ _ _ _)); cbn [fst snd].
    - apply (progressed_cons k s k s' _ (timeouts evs) []); [|by apply IH|done].
      rewrite decide_False by done. unfold total. lia.
    - apply (progressed_cons k s k s' _ (timeouts evs) [k]); [|by apply IH|by constructor].
      unfold total. rewrite Ht. destruct e; [rewrite decide_False by done|rewrite decide_True by done]; lia.
    - apply (progressed_cons k s (k + 1) s' _ (timeouts evs) [(k + 1)%nat]); [|by apply IH|].
      + rewrite decide_False by done. pose proof (Hclock _ _ H'). unfold total. lia.
      + intros ks k'. rewrite Nat.add_1_r. by constructor. }
  destruct fl; [|exact Hgo]. destruct e as [[|] [bytes|errno]|]; try exact Hgo; by apply Hskip.
Qed.
End StopAndWait.

(** ** The invariant of [sendfile] *)

Local Open Scope list_scope.

Section Sender.
Context (strerror : Z -> string) (convert : bool) (st : list Z) (err : option Z).

Abbreviation reader := (reader convert st err).
Abbreviation fails := (read_fails convert st err).

(** The packet of segment [k], which is block [k + 1]. *)
Definition data_packet (k : nat) : list Z := packet DATA (Z.of_nat k + 1) (segment st k).

Definition errno_packet : list Z := nak strerror (default 0 err + 100) (repeat 0 PKTSIZE).

(** What the loop keeps, apart from the file and the acks. *)
Record sending (k : nat) (s : sender) : Prop := {
  sd_reader : reader (S k) (s_file s) (s_bufs s);
  sd_header : take 4 (buf (get_bf (current (s_bufs s)) (s_bufs s))) = wire16 DATA ++ wire16 (Z.of_nat k + 1);
  sd_block : s_block s = Z.of_nat k + 1;
  sd_size : s_size s = Z.of_nat (length (segment st k));
  sd_ok : ~ fails k;
  sd_few : (k < segments st)%nat;
  sd_short : Z.of_nat k <= 32767;
  sd_timeout : 0 <= s_timeout s < maxtimeout;
  sd_clock : (rexmtval | s_timeout s)
}.

Lemma data_packet_sent k p : length p = PKTSIZE -> take 4 p = wire16 DATA ++ wire16 (Z.of_nat k + 1) ->
  take (length (segment st k)) (drop 4 p) = segment st k ->
  take (Z.to_nat (Z.of_nat (length (segment st k)) + 4)) p = data_packet k.
Proof.
  intros Hl Hh Hd. replace (Z.to_nat _) with (4 + length (segment st k))%nat by lia.
  rewrite <- (take_drop 4 p), Hh at 1. rewrite take_app_add'; [|done]. rewrite Hd. unfold data_packet, packet.
  by rewrite app_assoc.
Qed.

Lemma send_data_run k s : sending k s ->
  send_data convert s = ([], End SentAbort) /\ head (s_sends s) = Some false
  \/ exists s', send_data convert s = ([data_packet k], Wait false s') /\ sending k s' /\ s_timeout s' = s_timeout s
       /\ s_sends s' = tail (s_sends s).
Proof.
  intros H. pose proof (sd_reader _ _ H) as Hr. unfold send_data.
  destruct (send (s_sends s)) as [[|] sends] eqn:Es; cbn [negb].
  2:{ left. split; [done|]. destruct (s_sends s) as [|x l]; by inversion Es. }
  right.
  pose proof (rd_current _ _ _ _ _ _ Hr ltac:(lia)) as (Hlen & [[Hf _]|(_ & _ & Hd)]); [by destruct (sd_ok _ _ H)|].
  cbn [pred] in Hd.
  pose proof (read_ahead_reader _ _ _ _ _ _ Hr) as Ha.
  destruct (read_ahead convert (s_file s) (s_bufs s)) as [f b]. destruct Ha as (Hr' & Hc & Hb).
  eexists. split; [rewrite (sd_size _ _ H), (data_packet_sent k); [reflexivity|done|apply H|done]|].
  split; [|split; [done|]]. 2:{ cbn. destruct (s_sends s); by injection Es. }
  destruct H. split; cbn [s_file s_bufs s_block s_size s_timeout]; auto. by rewrite Hc, Hb.
Qed.

(** The header of a data packet, in the buffer. *)
Lemma set_header_take p opcode block : (4 <= length p)%nat ->
  take 4 (set_block (htons (u16 block)) (set_opcode (htons (u16 opcode)) p)) = wire16 opcode ++ wire16 block
  /\ drop 4 (set_block (htons (u16 block)) (set_opcode (htons (u16 opcode)) p)) = drop 4 p
  /\ length (set_block (htons (u16 block)) (set_opcode (htons (u16 opcode)) p)) = length p.
Proof.
  intros Hp. destruct (header_split p Hp) as (a & b & c & d & r & ->).
  rewrite !swap16_u16, <- !put16_htons. done.
Qed.

Lemma next_data_run k s : reader k (s_file s) (s_bufs s) -> s_block s = Z.of_nat k + 1 ->
  (k < segments st)%nat -> Z.of_nat k <= 32767 ->
  next_data strerror convert s = ([errno_packet], End SentAbort) /\ fails k
  \/ next_data strerror convert s = ([], End SentAbort) /\ head (s_sends s) = Some false
  \/ exists s', next_data strerror convert s = ([data_packet k], Wait false s') /\ sending k s' /\ s_timeout s' = 0
       /\ s_sends s' = tail (s_sends s).
Proof.
  intros Hr Hb Hk H15. unfold next_data. pose proof (readit_reader _ _ _ _ _ _ Hr) as H.
  destruct (readit convert (s_file s) (s_bufs s)) as [[size f] b]. destruct H as (Hr' & -> & Hlen & Hh).
  destruct Hh as [[Hf Hc]|(Hok & Hc & Hd)].
  - left. rewrite Hc. cbn [Z.ltb Z.compare]. rewrite (rd_err _ _ _ _ _ _ Hr'). done.
  - right. rewrite Hc. destruct (Z.ltb_spec (Z.of_nat (length (segment st k))) 0) as [|_]; [lia|].
    assert (H4 : (4 <= length (buf (get_bf (current b) b)))%nat) by (rewrite Hlen; change PKTSIZE with (SEGSIZE + 4)%nat; lia).
    destruct (set_header_take _ DATA (s_block s) H4) as (Ht & Hdr & Hl). set (dp := set_block _ _) in *.
    clearbody dp. rewrite Hb in Ht.
    match goal with |- context [send_data convert ?s0] => set (s1 := s0) end.
    assert (H1 : sending k s1).
    { unfold s1. rewrite <- Hc. split; cbn [s_file s_bufs s_block s_size s_timeout]; auto.
      - apply header_reader; [done|by rewrite Hl|done].
      - rewrite <- Ht. unfold set_bf. by destruct (current b).
      - by unfold maxtimeout, TIMEOUT.
      - apply Z.divide_0_r. }
    destruct (send_data_run k s1 H1) as [[-> Hsend]|(s' & -> & H')]; [by left|]. right. exists s'. auto.
Qed.

(** How the transfer may end at segment [k], and what it sends then. *)
Definition ended (k : nat) (rest : list (list Z)) (r : sent) : Prop :=
  (k < segments st)%nat /\ Z.of_nat k <= 32767
  /\ match r with
     | SentAll => rest = [] /\ S k = segments st /\ Z.of_nat k < 32767
     | SentAbort => rest = [] \/ rest = [errno_packet] /\ fails (k + 1)
     | SentExit => rest = []
     end.

Lemma th_block_range p : - 2 ^ 15 <= th_block p < 2 ^ 15.
Proof. apply (wraps_range 16). lia. Qed.

Lemma segment_length k : (length (segment st k) <= SEGSIZE)%nat.
Proof. unfold segment. rewrite length_take. lia. Qed.

Lemma last_segment k : (k < segments st)%nat -> S k = segments st <-> Z.of_nat (length (segment st k)) <> Z.of_nat SEGSIZE.
Proof.
  intros Hk. split.
  - intros H. apply segment_last in H. lia.
  - intros H. destruct (decide (S k = segments st)) as [E|E]; [done|]. destruct H. f_equal. apply segment_full. lia.
Qed.

Lemma set_s_ackbuf_sending k ap s : sending k s -> sending k (set_s_ackbuf ap s).
Proof. intros []. by split. Qed.

Lemma sender_event_run k s e : sending k s ->
  let '(out, c) := sender_event strerror convert s e in reacts sending s_timeout data_packet ended k s e out c.
Proof.
  intros H. pose proof (sd_few _ _ H) as Hfew. pose proof (sd_short _ _ H) as Hshort.
  assert (Hab : ended k [] SentAbort) by (split_and!; auto).
  destruct e as [early [bytes|errno]|]; cbn [sender_event].
  - set (ap := set_block _ _). pose proof (th_block_range ap) as Hrange. pose proof (set_s_ackbuf_sending k ap s H) as Hs.
    change (2 ^ 15) with 32768 in Hrange.
    destruct (th_opcode ap =? ERROR); [by constructor|]. destruct (th_opcode ap =? ACK); [|by apply re_quiet].
    cbn [set_s_ackbuf s_block s_size s_bufs s_file s_timeout s_sends].
    destruct (Z.eqb_spec (th_block ap) (s_block s)) as [Eb|_].
    + rewrite (sd_size _ _ H). pose proof (sd_block _ _ H) as Hblk.
      destruct (Z.eqb_spec (Z.of_nat (length (segment st k))) (Z.of_nat SEGSIZE)) as [Ef|Ef].
      * assert (S k <> segments st) as Hne by (intros E; by apply (last_segment k Hfew) in E).
        match goal with |- context [next_data strerror convert ?s0] => set (s1 := s0) end.
        destruct (next_data_run (k + 1) s1) as [[-> Hf]|[[-> _]|(s' & -> & H' & Ht & Hn)]]; cbn [s1 s_file s_bufs s_block].
        -- rewrite Nat.add_1_r. apply H.
        -- rewrite Hblk, wraps_id by (unfold in_s; lia). lia.
        -- lia.
        -- lia.
        -- constructor. split_and!; auto.
        -- by constructor.
        -- by apply re_next.
      * apply re_end. split_and!; [done|done|done|by apply (last_segment k Hfew)|lia].
    + destruct (th_block ap =? s_block s - 1); [|by apply re_quiet].
      destruct (send_data_run k _ Hs) as [[-> _]|(s' & -> & H' & Ht & Hn)]; [by constructor|]. by apply re_again.
  - by constructor.
  - unfold timer. destruct (Z.leb_spec maxtimeout (s_timeout s + rexmtval)) as [|Hlt]; [constructor; by split_and!|].
    match goal with |- context [send_data convert ?s0] => set (s1 := s0) end.
    assert (H1 : sending k s1).
    { destruct H. split; cbn; auto; [unfold rexmtval, TIMEOUT in *; lia|]. by apply Z.divide_add_r. }
    destruct (send_data_run k s1 H1) as [[-> _]|(s' & -> & H' & Ht & Hn)]; [by constructor|]. by apply re_again.
Qed.

Lemma sending_clock k s : sending k s -> 0 <= s_timeout s <= 4 * rexmtval.
Proof.
  intros H. pose proof (sd_timeout _ _ H) as Ht. destruct (sd_clock _ _ H) as [z Hz].
  unfold maxtimeout, rexmtval, TIMEOUT in *. lia.
Qed.

(** ** The whole transfer *)

Lemma sendfile_run b f ackbuf sends evs :
  (forall i, length (buf (get_bf i b)) = PKTSIZE) -> rerr f = err -> wire convert (rrest f) = st ->
  let '(outs, r) := sendfile strerror convert b f ackbuf sends evs in
  r = inr SentAbort /\ (outs = [] \/ outs = [errno_packet] /\ fails 0)
  \/ exists ks k rest, advances 0 ks k /\ outs = data_packet 0 :: (data_packet <$> ks) ++ rest
       /\ (k < segments st)%nat /\ Z.of_nat k <= 32767
       /\ match r with
          | inl s => rest = [] /\ (timeouts evs <= 4 * segments st)%nat
          | inr x => ended k rest x
          end.
Proof.
  intros Hl He Hs. unfold sendfile.
  pose proof (r_init_reader convert st err f b Hl He Hs) as Hr.
  destruct (next_data_run 0 (mkSender (r_init b) f ackbuf 1 0 0 0 sends) Hr eq_refl) as [[-> Hf]|[[-> _]|(s' & -> & H' & Ht & Hn)]].
  - unfold segments. lia.
  - lia.
  - cbn [run_from]. left. auto.
  - cbn [run_from]. left. auto.
  - cbn [run_from]. pose proof (run_progress _ _ _ _ _ (fun _ => True) sending_clock (fun k s e H _ => sender_event_run k s e H) evs ltac:(by apply Forall_forall) false 0 s' H') as Hrun.
    destruct (run_events _ false s' evs) as [outs r]. destruct Hrun as (ks & k & rest & Ha & -> & Hst).
    right. exists ks, k, rest. split; [done|]. split; [done|]. destruct r as [s1|x].
    + destruct Hst as (-> & Hs1 & Hc). pose proof (sending_clock _ _ Hs1). pose proof (sd_few _ _ Hs1).
      split; [done|]. split; [apply Hs1|]. split; [done|]. unfold total, rexmtval, TIMEOUT in *. lia.
    + pose proof Hst as (? & ? & _). auto.
Qed.

(** ** Progress when the acks arrive *)

Definition ack_packet (block : Z) : list Z := packet ACK block [].

Lemma get16_stored v : s16 (u8 v + 256 * Z.shiftr (u16 v) 8) = s16 v.
Proof. rewrite <- u8_split. apply wraps_congr. unfold wrapu. by rewrite Z.mod_mod. Qed.

(** A packet of at least four bytes, received and turned to host order. *)
Lemma recv_header opcode block data p :
  let ap := recv_into (packet opcode block data) p in
  let ap := set_opcode (ntohs (th_opcode ap)) ap in
  let ap := set_block (ntohs (th_block ap)) ap in
  th_opcode ap = s16 opcode /\ th_block ap = s16 block.
Proof.
  unfold recv_into, packet. assert (H4 : exists r, PKTSIZE = S (S (S (S r)))) by (exists SEGSIZE; change PKTSIZE with (SEGSIZE + 4)%nat; lia).
  destruct H4 as [r ->]. destruct (wire16 opcode) as [|a [|b [|]]] eqn:E1; try discriminate.
  destruct (wire16 block) as [|c [|d [|]]] eqn:E2; try discriminate. cbn -[wraps swap16 u8 u16].
  unfold th_opcode, th_block, set_opcode, set_block, put16, get16. cbn -[wraps swap16 wrapu].
  rewrite !get16_stored. split; [by apply (get16_wire opcode)|by apply (get16_wire block)].
Qed.

Definition acked (k : nat) (early : bool) : event := Arrives early (Pkt (ack_packet (Z.of_nat k + 1))).

(** All sends succeed from here on. *)
Lemma timeouts_live n : forall k s evs, sending k s -> s_sends s = [] -> s_timeout s + rexmtval * Z.of_nat n < maxtimeout ->
  exists s', sending k s' /\ s_sends s' = []
    /\ run_events (sender_event strerror convert) false s (repeat Timeout n ++ evs)
       = (repeat (data_packet k) n ++ fst (run_events (sender_event strerror convert) false s' evs),
          snd (run_events (sender_event strerror convert) false s' evs)).
Proof.
  induction n as [|n IH]; intros k s evs H Hs Ht.
  { exists s. split_and!; [done|done|]. cbn. apply surjective_pairing. }
  cbn [repeat app run_events sender_event]. unfold timer.
  destruct (Z.leb_spec maxtimeout (s_timeout s + rexmtval)) as [Hle|Hlt]; [unfold rexmtval, maxtimeout, TIMEOUT in *; lia|].
  match goal with |- context [send_data convert ?s0] => set (s1 := s0) end.
  assert (H1 : sending k s1).
  { destruct H. split; cbn; auto; [unfold rexmtval, TIMEOUT in *; lia|]. by apply Z.divide_add_r. }
  destruct (send_data_run k s1 H1) as [[_ Hh]|(s' & -> & H' & Ht' & Hn)]; [unfold s1 in Hh; cbn in Hh; by rewrite Hs in Hh|].
  destruct (IH k s' evs H') as (s2 & H2 & Hs2 & E); [rewrite Hn; cbn; by rewrite Hs| |].
  { rewrite Ht'. cbn. unfold rexmtval, maxtimeout, TIMEOUT in *. lia. }
  exists s2. split_and!; [done|done|]. rewrite E. done.
Qed.

Lemma ack_live k s early evs : sending k s -> s_sends s = [] -> Z.of_nat k < 32767 -> ~ fails (S k) ->
  (S k = segments st
   /\ run_events (sender_event strerror convert) false s (acked k early :: evs) = ([], inr SentAll))
  \/ ((S k < segments st)%nat /\ exists s', sending (S k) s' /\ s_sends s' = [] /\ s_timeout s' = 0
       /\ run_events (sender_event strerror convert) false s (acked k early :: evs)
          = (data_packet (S k) :: fst (run_events (sender_event strerror convert) false s' evs),
             snd (run_events (sender_event strerror convert) false s' evs))).
Proof.
  intros H Hs Hk Hf. pose proof (sd_few _ _ H) as Hfew. pose proof (sd_block _ _ H) as Hblk.
  cbn [run_events acked sender_event]. destruct (recv_header ACK (Z.of_nat k + 1) [] (s_ackbuf s)) as [Ho Hb].
  fold (ack_packet (Z.of_nat k + 1)) in Ho, Hb. set (ap := set_block _ _) in *.
  rewrite Ho, Hb. change (s16 ACK) with ACK. cbn [Z.eqb ACK ERROR Pos.eqb].
  rewrite wraps_id by (unfold in_s; lia). cbn [set_s_ackbuf s_block s_size s_bufs s_file s_timeout s_sends].
  rewrite Hblk, Z.eqb_refl, (sd_size _ _ H).
  destruct (Z.eqb_spec (Z.of_nat (length (segment st k))) (Z.of_nat SEGSIZE)) as [Ef|Ef].
  2:{ left. split; [by apply (last_segment k Hfew)|]. by destruct early. }
  right. assert (S k <> segments st) as Hne by (intros E; by apply (last_segment k Hfew) in E). split; [lia|].
  match goal with |- context [next_data strerror convert ?s0] => set (s1 := s0) end.
  destruct (next_data_run (S k) s1) as [[_ Hf']|[[_ Hh]|(s' & -> & H' & Ht & Hn)]]; cbn [s1 s_file s_bufs s_block].
  - apply H.
  - rewrite wraps_id by (unfold in_s; lia). lia.
  - lia.
  - lia.
  - done.
  - unfold s1 in Hh. cbn in Hh. by rewrite Hs in Hh.
  - exists s'. split_and!; [done|by rewrite Hn; cbn; rewrite Hs|done|].
    rewrite (surjective_pairing (run_events _ _ _ _)). by destruct early.
Qed.

(** The events of a transfer from block [k + 1] on: up to four timeouts before
    each ack. *)
Definition heard (k n : nat) (lost : nat -> nat) (early : nat -> bool) : list event :=
  concat ((fun i => repeat Timeout (lost i) ++ [acked i (early i)]) <$> seq k n).

Lemma acks_live n : forall k s lost early, sending k s -> s_sends s = [] -> s_timeout s = 0 ->
  (k + n = segments st)%nat -> Z.of_nat (segments st) <= 32767 -> err = None -> (forall i, (lost i <= 4)%nat) ->
  exists outs, run_events (sender_event strerror convert) false s (heard k n lost early) = (outs, inr SentAll)
    /\ outs = tail (concat ((fun i => repeat (data_packet i) (S (lost i))) <$> seq k n)).
Proof.
  induction n as [|n IH]; intros k s lost early H Hs Ht Hn Hm He Hl.
  { pose proof (sd_few _ _ H). lia. }
  pose proof (sd_few _ _ H) as Hfew. unfold heard. cbn [seq fmap list_fmap concat]. rewrite <- app_assoc.
  destruct (timeouts_live (lost k) k s ([acked k (early k)] ++ heard (S k) n lost early) H Hs) as (s1 & H1 & Hs1 & E).
  { rewrite Ht. specialize (Hl k). unfold rexmtval, maxtimeout, TIMEOUT. lia. }
  fold (heard (S k) n lost early). rewrite E. clear E.
  destruct (ack_live k s1 (early k) (heard (S k) n lost early) H1 Hs1) as [[E1 E2]|(Hlt & s2 & H2 & Hs2 & Ht2 & E)].
  - lia.
  - intros (_ & Hne & _). by rewrite He in Hne.
  - cbn [app]. rewrite E2. assert (n = 0%nat) as -> by lia. eexists. split; [reflexivity|].
    cbn [fst seq fmap list_fmap concat repeat tail app]. by rewrite !app_nil_r.
  - cbn [app]. rewrite E. destruct (IH (S k) s2 lost early H2 Hs2 Ht2) as (outs & E3 & E4); try done; [lia|].
    rewrite E3. eexists. split; [reflexivity|]. rewrite E4. cbn [fst].
    destruct n as [|n]; [lia|]. cbn [seq fmap list_fmap concat repeat tail app]. done.
Qed.
End Sender.
