(* ===== verification/TftpRecv.v ===== *)
(** * The receiver writes what was sent

    An invariant of the machine of [recvfile]: while it waits for block
    [j + 1], the first [j] segments are in the file, converted, and nothing
    else is.  What arrives may be lost, repeated or out of order, as long as a
    data packet carries the segment of its number. *)

From Stdlib Require Import ZArith Lia Ascii String.
From stdpp Require Import base numbers option list.
From S2P Require Import Prelude TftpBuf TftpBufSpec TftpServer TftpSend.

Local Open Scope Z_scope.
Local Open Scope list_scope.
Local Abbreviation length := List.length.

Section Receiver.
Context (convert : bool) (st old : list Z).

(** A packet a faithful sender of [st] may have sent. *)
Definition honest (bytes : list Z) : Prop :=
  exists opcode block data, bytes = packet opcode block data /\ (length data <= SEGSIZE)%nat
    /\ (s16 opcode = DATA -> exists k, block = Z.of_nat k + 1 /\ (k < segments st)%nat
          /\ Z.of_nat k <= 32767 /\ data = segment st k).

Definition honest_event (e : event) : Prop :=
  match e with Arrives _ (Pkt bytes) => honest bytes | _ => True end.

(** What the first [j] segments leave in the file. *)
Definition stored (j : nat) : Z * list Z := sink convert (-1, []) (concat (segment st <$> seq 0 j)).

Lemma stored_S j : stored (S j) = sink convert (stored j) (segment st j).
Proof.
  unfold stored. rewrite seq_S, fmap_app, concat_app, sink_app. cbn [fmap list_fmap concat Nat.add]. by rewrite app_nil_r.
Qed.

Record receiving (j : nat) (s : receiver) : Prop := {
  rc_idle : idle convert old (stored j) (r_file s) (r_bufs s);
  rc_ack : take 4 (r_ackbuf s) = ack_packet (Z.of_nat j);
  rc_acklen : (4 <= length (r_ackbuf s))%nat;
  rc_block : r_block s = Z.of_nat j + 1;
  rc_few : (j < segments st)%nat;
  rc_short : Z.of_nat j <= 32767;
  rc_timeout : 0 <= r_timeout s < maxtimeout;
  rc_clock : (rexmtval | r_timeout s);
  rc_stale : let p := buf (get_bf (negb (current (r_bufs s))) (r_bufs s)) in
    if decide (j = 0%nat) then th_opcode p <> DATA else th_block p = Z.of_nat j;
  rc_last : r_last s = false
}.

(** After the final ack. *)
Record finishing (s : receiver) : Prop := {
  fn_idle : idle convert old (stored (segments st)) (r_file s) (r_bufs s);
  fn_stale : th_opcode (dp_of s) <> DATA \/ th_block (dp_of s) <> r_block s;
  fn_timeout : 0 <= r_timeout s < maxtimeout;
  fn_clock : (rexmtval | r_timeout s);
  fn_last : r_last s = true
}.

Definition waiting (j : nat) (s : receiver) : Prop := receiving j s \/ (j <= segments st)%nat /\ finishing s.

Definition ack (j : nat) : list Z := ack_packet (Z.of_nat j).

(** The file at the end. *)
Definition left_in (j : nat) (f : wfile) : Prop := wrote old (snd (stored j)) f.

Definition got (j : nat) (rest : list (list Z)) (r : received) : Prop :=
  rest = [] /\ (j <= segments st)%nat
  /\ match r with
     | ReceivedAll f => left_in (segments st) f
     | ReceivedAbort f | ReceivedExit f => exists i, (i <= segments st)%nat /\ left_in i f
     end.

Lemma send_ack_run j s st0 : take 4 (r_ackbuf s) = ack j ->
  (forall b f, (exists z, write_behind convert (r_file s) (r_bufs s) = (z, f, b)) ->
     receiving j (mkReceiver b f (r_ackbuf s) (r_block s) (r_timeout s) 0 (tail (r_sends s)) false)) ->
  wrote old st0 (r_file s) ->
  send_ack convert s = ([], End (ReceivedAbort (r_file s)))
  \/ exists s', send_ack convert s = ([ack j], Wait false s') /\ receiving j s' /\ r_timeout s' = r_timeout s.
Proof.
  intros Ha Hw Hst. unfold send_ack. destruct (send (r_sends s)) as [[|] sends] eqn:Es; cbn [negb]; [|by left]. right.
  assert (Ht : sends = tail (r_sends s)) by (destruct (r_sends s); by inversion Es). subst sends.
  destruct (write_behind convert (r_file s) (r_bufs s)) as [[z f] b] eqn:Eb.
  eexists. split; [by rewrite Ha|]. split; [|done]. apply Hw. by exists z.
Qed.

Lemma ack_again j s : receiving j s ->
  send_ack convert s = ([], End (ReceivedAbort (r_file s)))
  \/ exists s', send_ack convert s = ([ack j], Wait false s') /\ receiving j s' /\ r_timeout s' = r_timeout s.
Proof.
  intros H. apply (send_ack_run j s (snd (stored j))); [apply H| |apply H].
  intros b f [z E]. rewrite (write_behind_idle _ _ _ _ _ (rc_idle _ _ H)) in E. injection E as _ <- <-.
  destruct H. by split.
Qed.

Lemma recv_data opcode block data p : length p = PKTSIZE -> (length data <= SEGSIZE)%nat ->
  let bytes := packet opcode block data in
  let dp := recv_into bytes p in
  let dp := set_opcode (ntohs (th_opcode dp)) dp in
  let dp := set_block (ntohs (th_block dp)) dp in
  Z.of_nat (length (take PKTSIZE bytes)) - 4 = Z.of_nat (length data)
  /\ length dp = PKTSIZE /\ take (length data) (drop 4 dp) = data.
Proof.
  intros Hp Hd. assert (Hpk : PKTSIZE = (SEGSIZE + 4)%nat) by reflexivity. cbv zeta.
  assert (E : exists a b c d, packet opcode block data = a :: b :: c :: d :: data) by (by repeat eexists).
  destruct E as (a & b & c & d & ->).
  unfold recv_into. rewrite (take_ge (a :: b :: c :: d :: data)) by (cbn; lia). split; [cbn; lia|].
  unfold set_block, set_opcode, put16. rewrite !length_insert, length_app, length_drop. split; [cbn; lia|].
  rewrite !drop_insert_lt by lia. generalize (drop (length (a :: b :: c :: d :: data)) p). intros r.
  change (drop 4 ((a :: b :: c :: d :: data) ++ r)) with (data ++ r). by rewrite take_app_length.
Qed.

Lemma idle_set_dp st0 f b p : idle convert old st0 f b -> length p = PKTSIZE ->
  idle convert old st0 f (set_bf (current b) (mkBf (counter (get_bf (current b) b)) p) b).
Proof.
  intros [Hw Hs Hl Hc Ho Hn] Hp. destruct (current b) eqn:E; (split; cbn; rewrite ?E; auto);
    (intros [|]; cbn; auto); [apply (Hl false)|apply (Hl true)].
Qed.

Lemma set_dp_receiving j s p : receiving j s -> length p = PKTSIZE -> receiving j (set_dp p s).
Proof.
  intros H Hp. destruct H. split; cbn [set_dp r_file r_bufs r_ackbuf r_block r_timeout r_last]; auto.
  - by apply idle_set_dp.
  - destruct (current (r_bufs s)) eqn:E; cbn [set_bf current get_bf]; rewrite E; done.
Qed.

Lemma dp_set_dp s p : dp_of (set_dp p s) = p /\ current (r_bufs (set_dp p s)) = current (r_bufs s).
Proof.
  unfold dp_of, set_dp. cbn [r_bufs]. destruct (current (r_bufs s)) eqn:E; cbn [set_bf current get_bf];
    rewrite E; done.
Qed.

Lemma set_ack_take b p : (4 <= length p)%nat -> take 4 (set_ack b p) = ack_packet b /\ (4 <= length (set_ack b p))%nat.
Proof.
  intros Hp. destruct (set_header_take p ACK b Hp) as (H1 & _ & H3). unfold set_ack. rewrite H1, H3. split; [|done].
  unfold ack_packet, packet. by rewrite app_nil_r.
Qed.

(** The packet of block [j + 1] is taken. *)
Lemma accept_run j s : receiving j s -> take (length (segment st j)) (drop 4 (dp_of s)) = segment st j ->
  th_block (dp_of s) = Z.of_nat j + 1 ->
  let '(size, f, b) := writeit convert (Z.of_nat (length (segment st j))) (r_file s) (r_bufs s) in
  let s' := mkReceiver b f (r_ackbuf s) (r_block s) (r_timeout s) MSG_CONFIRM (r_sends s) false in
  size = Z.of_nat (length (segment st j))
  /\ ((S j < segments st)%nat ->
        next_ack convert s' = ([], End (ReceivedAbort f)) /\ left_in j f
        \/ exists s'', next_ack convert s' = ([ack (j + 1)], Wait false s'') /\ receiving (j + 1) s'')
  /\ (S j = segments st -> exists out s'', final_ack convert s' = (out, Wait false s'')
        /\ (out = [] \/ out = [ack (j + 1)]) /\ finishing s'' /\ r_timeout s'' = r_timeout s).
Proof.
  intros H Hd Hb. pose proof (th_block_range (dp_of s)) as Hrange. rewrite Hb in Hrange. change (2 ^ 15) with 32768 in Hrange.
  destruct (writeit_idle convert old (stored j) (r_file s) (r_bufs s) (segment st j) (rc_idle _ _ H) (segment_length st j) Hd)
    as (b & -> & Hh & Hcur & Hbuf). cbv zeta. split; [done|].
  destruct (write_behind_holding _ _ _ _ _ _ Hh) as (z & f' & b' & Ew & Hi & Hc' & Hg & Hg').
  rewrite <- stored_S in Hi. destruct (set_ack_take (r_block s) (r_ackbuf s) (rc_acklen _ _ H)) as [Hack Hacklen].
  rewrite (rc_block _ _ H) in Hack at 2. pose proof (rc_block _ _ H) as Hblk. split.
  - intros Hlt. unfold next_ack. cbn [r_bufs r_file r_ackbuf r_block r_sends r_confirmed].
    match goal with |- context [send_ack convert ?s0] => set (s1 := s0) end.
    destruct (send_ack_run (j + 1) s1 (snd (stored j))) as [->|(s' & -> & H' & Ht)].
    + cbn [s1 r_ackbuf]. rewrite Hack. unfold ack. f_equal. lia.
    + intros b0 f0 [z0 E]. cbn [s1 r_file r_bufs r_ackbuf r_block r_timeout r_sends] in *. rewrite Ew in E. injection E as _ <- <-.
      rewrite Hblk in *. rewrite wraps_id by (unfold in_s; lia).
      rewrite Nat.add_1_r. split; cbn [r_file r_bufs r_ackbuf r_block r_timeout r_last];
        [done|rewrite Hack; f_equal; lia|done|lia|lia|lia|by unfold maxtimeout, TIMEOUT|apply Z.divide_0_r| |done].
      rewrite Hc', Hg', Hbuf, Hcur, negb_involutive. fold (dp_of s). cbv zeta. rewrite Hb.
      destruct (decide (S j = 0%nat)); lia.
    + apply Hh.
    + left. split; [done|]. apply Hh.
    + right. by exists s'.
  - intros Hlast. unfold final_ack. cbn [r_bufs r_file r_ackbuf r_block r_sends r_confirmed]. rewrite Ew.
    destruct (send (r_sends s)) as [ok sends]. eexists _, _. split; [reflexivity|]. split_and!; [|split|done].
    + destruct ok; [right|by left]. rewrite Hack. unfold ack. repeat f_equal. lia.
    + cbn. by rewrite <- Hlast.
    + unfold dp_of. cbn [r_bufs r_block]. rewrite Hc', Hg, Hbuf, Hcur, Hblk. pose proof (rc_stale _ _ H) as Hs. cbv zeta in Hs.
      destruct (decide (j = 0%nat)); [by left|right]. rewrite Hs. lia.
    + apply H.
    + apply H.
    + done.
Qed.

Lemma waiting_clock j s : waiting j s -> 0 <= r_timeout s <= 4 * rexmtval.
Proof.
  assert (H : forall t, 0 <= t < maxtimeout -> (rexmtval | t) -> 0 <= t <= 4 * rexmtval).
  { intros t Ht [z Hz]. unfold maxtimeout, rexmtval, TIMEOUT in *. lia. }
  intros [H'|[_ H']]; destruct H'; auto.
Qed.

Lemma last_event_silent s x y : finishing s -> x && (th_opcode (dp_of s) =? DATA) && (r_block s =? th_block (dp_of s)) && y = false.
Proof.
  intros H. destruct (fn_stale _ H) as [Hs|Hs].
  - by rewrite (proj2 (Z.eqb_neq _ _) Hs), andb_false_r.
  - rewrite (proj2 (Z.eqb_neq (r_block s) _)) by done. by rewrite andb_false_r.
Qed.

Lemma last_event_run j s e : finishing s -> (j <= segments st)%nat ->
  let '(out, c) := last_event s e in reacts waiting r_timeout ack got j s e out c.
Proof.
  intros H Hj. assert (Hg : got j [] (ReceivedAll (r_file s))) by (split_and!; [done|done|apply H]).
  destruct e as [early [bytes|errno]|]; cbn [last_event]; try by constructor.
  rewrite last_event_silent by done. by constructor.
Qed.

Lemma receiver_event_run j s e : waiting j s -> honest_event e ->
  let '(out, c) := receiver_event convert s e in reacts waiting r_timeout ack got j s e out c.
Proof.
  intros [H|[Hj H]] Hon; unfold receiver_event.
  2:{ rewrite (fn_last _ H). by apply last_event_run. }
  rewrite (rc_last _ _ H). pose proof (rc_few _ _ H) as Hfew.
  assert (Hab : forall f, left_in j f -> got j [] (ReceivedAbort f)) by (intros f Hf; split_and!; [done|lia|by exists j; split; [lia|]]).
  destruct e as [early [bytes|errno]|].
  - destruct Hon as (opcode & block & data & -> & Hlen & Hdata).
    assert (Hp : length (dp_of s) = PKTSIZE) by apply H.
    destruct (recv_header opcode block data (dp_of s)) as [Ho Hb].
    destruct (recv_data opcode block data (dp_of s) Hp Hlen) as (Hn & Hdl & Hdd).
    set (dp := set_block _ _) in *. clearbody dp. rewrite Hn. clear Hn. rewrite Ho, Hb.
    pose proof (set_dp_receiving j s dp H Hdl) as H1. destruct (dp_set_dp s dp) as [E1 _].
    destruct (s16 opcode =? ERROR); [constructor; apply Hab, H1|].
    destruct (Z.eqb_spec (s16 opcode) DATA) as [Hop|_]; [|by apply re_quiet; [left|..]].
    destruct (Hdata Hop) as (k & -> & Hk & Hk15 & ->). change (r_block (set_dp dp s)) with (r_block s). rewrite (rc_block _ _ H).
    destruct (Z.eqb_spec (s16 (Z.of_nat k + 1)) (Z.of_nat j + 1)) as [Eb|Nb].
    + assert (k = j) as ->.
      { destruct (Z.eq_dec (Z.of_nat k) 32767) as [E|E]; [rewrite E in Eb; replace (s16 (32767 + 1)) with (Z.opp 32768) in Eb by reflexivity; lia|].
        rewrite wraps_id in Eb by (unfold in_s; lia). lia. }
      rewrite Eb in Hb. pose proof (accept_run j (set_dp dp s) H1) as Ha. rewrite E1 in Ha. specialize (Ha Hdd Hb).
      destruct (writeit convert _ _ _) as [[size f] b]. destruct Ha as (-> & Hnext & Hlast).
      change (r_block (set_dp dp s)) with (r_block s) in *. rewrite <- (rc_block _ _ H). 
      destruct (Z.eqb_spec (Z.of_nat (length (segment st j))) (Z.of_nat SEGSIZE)) as [Ef|Ef].
      * assert (S j <> segments st) as Hne by (intros E; by apply (last_segment st j Hfew) in E).
        destruct (Hnext ltac:(lia)) as [[-> Hf]|(s'' & -> & H'')].
        -- constructor. by apply Hab.
        -- apply re_next; [by left|done].
      * apply (last_segment st j Hfew) in Ef. destruct (Hlast Ef) as (out & s'' & -> & Hout & Hfin & Ht).
        destruct Hout as [-> | ->].
        -- apply re_quiet; [right; split; [lia|done]|done|done].
        -- apply re_next; [right; split; [lia|done]|done].
    + destruct (s16 (Z.of_nat k + 1) =? Z.of_nat j + 1 - 1); [|by apply re_quiet; [left|..]].
      destruct (ack_again j _ H1) as [->|(s' & -> & H' & Ht)]; [constructor; apply Hab, H1|].
      apply re_again; [by left|done].
  - constructor. apply Hab, H.
  - unfold timer. destruct (Z.leb_spec maxtimeout (r_timeout s + rexmtval)) as [|Hlt].
    { constructor. split_and!; [done|lia|exists j; split; [lia|apply H]]. }
    match goal with |- context [send_ack convert ?s0] => set (s1 := s0) end.
    assert (H1 : receiving j s1).
    { pose proof (rc_timeout _ _ H). destruct H. split; cbn; auto; [unfold rexmtval, TIMEOUT in *; lia|]. by apply Z.divide_add_r. }
    destruct (ack_again j s1 H1) as [->|(s' & -> & H' & Ht)]; [constructor; apply Hab, H1|].
    apply re_again; [by left|done].
Qed.

Lemma recvfile_run b f ackbuf sends evs :
  (forall i, length (buf (get_bf i b)) = PKTSIZE) -> th_opcode (buf (bfs1 b)) <> DATA -> (4 <= length ackbuf)%nat ->
  wcontent f = old -> wpos f = 0%nat -> Forall honest_event evs ->
  let '(outs, r) := recvfile convert b f ackbuf sends evs in
  r = inr (ReceivedAbort f) /\ outs = [] /\ wcontent f = old
  \/ exists ks j rest, advances 0 ks j /\ outs = ack 0 :: (ack <$> ks) ++ rest
       /\ match r with
          | inl s => rest = [] /\ waiting j s /\ (timeouts evs <= 4 * (segments st + 1))%nat
          | inr x => got j rest x
          end.
Proof.
  intros Hl Hz Ha Hc Hp Hev. unfold recvfile, next_ack. cbn [r_bufs r_file r_ackbuf r_block r_sends r_confirmed].
  match goal with |- context [send_ack convert ?x] => set (s0 := x) end.
  pose proof (w_init_idle convert old f b Hc Hp Hl) as Hi.
  destruct (set_ack_take 0 ackbuf Ha) as [Hack Hacklen].
  assert (Hst0 : stored 0 = (-1, [])) by (unfold stored; by destruct convert). rewrite <- Hst0 in Hi.
  assert (H0 : receiving 0 s0).
  { split; cbn [s0 r_file r_bufs r_ackbuf r_block r_timeout r_last];
      [done|done|done|done|unfold segments; lia|lia|by unfold maxtimeout, TIMEOUT|apply Z.divide_0_r|done|done]. }
  destruct (ack_again 0 s0 H0) as [->|(s' & -> & H' & Ht)]; cbn [run_from]; [by left|].
  pose proof (run_progress _ _ _ _ _ honest_event waiting_clock receiver_event_run evs Hev false 0 s' (or_introl H')) as Hrun.
  destruct (run_events _ false s' evs) as [outs r]. destruct Hrun as (ks & j & rest & Had & -> & Hst). right.
  exists ks, j, rest. split; [done|]. split; [done|]. destruct r as [s1|x]; [|done].
  destruct Hst as (-> & Hw & Htot). split_and!; [done|done|].
  pose proof (waiting_clock _ _ Hw). assert (j <= segments st)%nat by (destruct Hw as [Hw|[Hw _]]; [apply rc_few in Hw; lia|done]).
  pose proof (waiting_clock 0 s' (or_introl H')). unfold total, rexmtval, TIMEOUT in *. lia.
Qed.
End Receiver.

(** ** Any peer

    What arrives need not come from a sender of any file.  A block that is
    taken has a number of 16 bits, so there are not more than 32767 of them, and
    between two of them the alarm goes off four times at most. *)

Section AnyPeer.
Context (convert : bool).

Record limited (s : receiver) : Prop := {
  lm_block : 0 <= r_block s <= 32768;
  lm_timeout : 0 <= r_timeout s <= 4 * rexmtval;
  lm_clock : (rexmtval | r_timeout s)
}.

Definition spent (s : receiver) : Z := 4 * rexmtval * r_block s + r_timeout s.

(** [n] times the alarm goes off on the way from [s]. *)
Definition limits (n : Z) (s : receiver) (c : control receiver received) : Prop :=
  match c with Wait _ s' => limited s' /\ spent s + rexmtval * n <= spent s' | End _ => True end.

Lemma send_ack_limits s : limited s -> limits 0 s (send_ack convert s).2.
Proof.
  intros [H1 H2 H3]. unfold send_ack. destruct (send (r_sends s)) as [[] sends]; cbn [negb]; [|done].
  destruct (write_behind convert (r_file s) (r_bufs s)) as [[z f] b]. cbn [snd limits]. split; [by split|]. unfold spent. cbn. lia.
Qed.

Lemma receiver_limits s e : limited s -> limits (if decide (e = Timeout) then 1 else 0) s (receiver_event convert s e).2.
Proof.
  intros H. unfold receiver_event. destruct (r_last s); [by destruct e as [early []|]|].
  destruct e as [early [bytes|errno]|]; [rewrite decide_False by done|done|rewrite decide_True by done].
  - set (dp := set_block _ _). pose proof (th_block_range dp) as Hr. change (2 ^ 15) with 32768 in Hr.
    assert (Hs : limited (set_dp dp s)) by (destruct H; by split).
    destruct (_ =? ERROR); [done|]. destruct (_ =? DATA); [|split; [done|unfold spent; cbn; lia]].
    change (r_block (set_dp dp s)) with (r_block s). destruct (Z.eqb_spec (th_block dp) (r_block s)) as [E|_].
    + destruct (writeit convert _ _ _) as [[size f] b]. destruct H as [H1 H2 H3]. destruct (size =? _).
      * unfold next_ack. cbn [r_bufs r_file r_ackbuf r_block r_sends r_confirmed]. rewrite wraps_id by (unfold in_s; lia).
        match goal with |- context [send_ack convert ?x] => set (s1 := x) end.
        assert (L : limited s1) by (split; cbn; [lia|unfold rexmtval, TIMEOUT; lia|apply Z.divide_0_r]).
        pose proof (send_ack_limits s1 L) as HL. destruct (snd (send_ack convert s1)); [|done]. destruct HL as [HL1 HL2]. split; [done|].
        unfold spent, rexmtval, TIMEOUT in *. cbn in *. lia.
      * unfold final_ack. cbn [r_bufs r_file r_ackbuf r_block r_timeout r_sends r_confirmed set_dp].
        destruct (write_behind convert f b) as [[z f'] b']. destruct (send (r_sends s)) as [ok sends]. cbn [snd limits].
        split; [by split|]. unfold spent. cbn. lia.
    + destruct (_ =? r_block s - 1); [|split; [done|unfold spent; cbn; lia]].
      pose proof (send_ack_limits _ Hs) as HL. destruct (send_ack convert (set_dp dp s)) as [out [fl s'|r]]; [exact HL|done].
  - destruct H as [H1 H2 H3]. unfold timer. destruct (Z.leb_spec maxtimeout (r_timeout s + rexmtval)) as [|Hlt]; [done|].
    match goal with |- context [send_ack convert ?x] => set (s1 := x) end.
    assert (L : limited s1).
    { split; cbn; [done| |by apply Z.divide_add_r]. destruct H3 as [z Hz]. unfold maxtimeout, rexmtval, TIMEOUT in *. lia. }
    pose proof (send_ack_limits s1 L) as HL. destruct (snd (send_ack convert s1)); [|done]. destruct HL as [HL1 HL2]. split; [done|].
    unfold spent in *. cbn in *. lia.
Qed.

Lemma events_limit evs : forall fl s, limited s -> forall s', snd (run_events (receiver_event convert) fl s evs) = inl s' ->
  limited s' /\ spent s + rexmtval * Z.of_nat (timeouts evs) <= spent s'.
Proof.
  induction evs as [|e evs IH]; intros fl s H s'; cbn [run_events]; [intros [= <-]; split; [done|cbn; lia]|].
  rewrite timeouts_cons.
  assert (Hgo : snd (let '(out, c) := receiver_event convert s e in match c with End r => (out, inr r)
      | Wait flushed s' => let '(outs, r) := run_events (receiver_event convert) flushed s' evs in (out ++ outs, r) end) = inl s' ->
    limited s' /\ spent s + rexmtval * Z.of_nat ((if decide (e = Timeout) then 1 else 0) + timeouts evs) <= spent s').
  { pose proof (receiver_limits s e H) as HL. destruct (receiver_event convert s e) as [out [fl' s1|r]]; cbn [snd limits] in *; [|done].
    destruct HL as [L1 L2]. rewrite (surjective_pairing (run_events _ _ _ _)). cbn [snd]. intros E.
    destruct (IH fl' s1 L1 s' E) as [M1 M2]. split; [done|]. destruct (decide (e = Timeout)); lia. }
  destruct fl; [|exact Hgo]. destruct e as [[|] [bytes|errno]|]; try exact Hgo; intros E; rewrite decide_False by done; exact (IH _ s H s' E).
Qed.

Lemma recvfile_limit b f ackbuf sends evs s : snd (recvfile convert b f ackbuf sends evs) = inl s ->
  Z.of_nat (timeouts evs) <= 4 * 32768.
Proof.
  unfold recvfile, next_ack. cbn [r_bufs r_file r_ackbuf r_block r_sends r_confirmed]. change (s32 (0 + 1)) with 1.
  match goal with |- context [send_ack convert ?x] => set (s0 := x) end.
  assert (H0 : limited s0) by (split; cbn; [lia|unfold rexmtval, TIMEOUT; lia|apply Z.divide_0_r]).
  pose proof (send_ack_limits s0 H0) as HL. destruct (send_ack convert s0) as [out [fl s1|r]]; cbn [snd limits run_from] in *; [|done].
  destruct HL as [L1 L2]. rewrite (surjective_pairing (run_events _ _ _ _)). cbn [snd]. intros E.
  destruct (events_limit evs fl s1 L1 s E) as [[M1 M2 _] M3]. unfold spent, rexmtval, TIMEOUT in *. cbn in L2. lia.
Qed.
End AnyPeer.
