(* ===== verification/TftpRequest.v ===== *)
(** * Requests

    What [tftp] makes of the bytes of a request, and which paths
    [validate_access] opens. *)

From Stdlib Require Import ZArith Lia Ascii String.
From stdpp Require Import base numbers option list.
From S2P Require Import Prelude TftpBuf TftpBufSpec TftpServer.

Local Open Scope Z_scope.
Local Open Scope list_scope.
Local Abbreviation length := List.length.

(** ** Strings in a buffer *)

Definition no_nul (l : list Z) : Prop := Forall (fun c => c <> 0) l.

(** The scan stops at the zero that ends the string. *)
Lemma skip_string_stop l : forall fuel pre rest size, no_nul l -> (length l < fuel)%nat ->
  (length pre + length l < size)%nat ->
  skip_string fuel (pre ++ l ++ [0] ++ rest) size (length pre) = Some (length pre + length l)%nat.
Proof.
  induction l as [|c l IH]; intros fuel pre rest size Hl Hf Hs; (destruct fuel as [|fuel]; [cbn in Hf; lia|]); cbn [skip_string].
  - rewrite (proj2 (Nat.ltb_lt _ _)) by (cbn in Hs; lia). rewrite lookup_app_r, Nat.sub_diag by lia. cbn. f_equal. lia.
  - inversion Hl as [|? ? Hc Hl']; subst. rewrite (proj2 (Nat.ltb_lt _ _)) by lia.
    rewrite lookup_app_r, Nat.sub_diag by lia. cbn [app lookup list_lookup].
    rewrite (proj2 (Z.eqb_neq c 0) Hc).
    specialize (IH fuel (pre ++ [c]) rest size Hl' ltac:(cbn in Hf; lia)). rewrite length_app in IH. cbn [length] in IH, Hs.
    rewrite <- app_assoc in IH. cbn [app] in IH.
    replace (S (length pre)) with (length pre + 1)%nat by lia.
    rewrite IH by lia. f_equal. cbn. lia.
Qed.

Lemma c_string_app l rest : no_nul l -> c_string (l ++ 0 :: rest) = Some l.
Proof. induction 1 as [|c l Hc _ IH]; [done|]. cbn [app c_string]. rewrite (proj2 (Z.eqb_neq c 0) Hc), IH. done. Qed.

(** ** The request *)

(** The packet of a request. *)
Definition request_packet (opcode : Z) (filename mode : list Z) : list Z :=
  wire16 opcode ++ filename ++ [0] ++ mode ++ [0].

Lemma parse_request_run a b filename mode rest : no_nul filename -> no_nul mode ->
  parse_request (a :: b :: filename ++ [0] ++ mode ++ [0] ++ rest) (length filename + length mode + 4)
  = Some (match formats (tolower <$> mode) with None => Nak EBADOP | Some c => Request filename c end).
Proof.
  intros Hf Hm. unfold parse_request. set (size := (length filename + length mode + 4)%nat).
  set (p := a :: b :: _).
  assert (Ep : p = [a; b] ++ filename ++ [0] ++ (mode ++ [0] ++ rest)) by done.
  assert (E1 : skip_string (S size) p size 2 = Some (2 + length filename)%nat).
  { rewrite Ep. apply (skip_string_stop filename (S size) [a; b]); [done|unfold size; lia|unfold size; cbn; lia]. }
  rewrite E1. assert (L1 : p !! (2 + length filename)%nat = Some 0).
  { rewrite Ep, (lookup_app_r [a; b]) by (cbn; lia). rewrite lookup_app_r by (cbn; lia).
    replace (2 + length filename - length [a; b] - length filename)%nat with 0%nat by (cbn; lia). done. }
  rewrite L1. cbn [negb Z.eqb].
  set (pre := [a; b] ++ filename ++ [0]). assert (Ep2 : p = pre ++ mode ++ [0] ++ rest).
  { unfold p, pre. by rewrite <- !app_assoc. }
  assert (Hpre : S (2 + length filename) = length pre) by (unfold pre; rewrite !length_app; cbn; lia).
  rewrite Hpre. assert (E2 : skip_string (S size) p size (length pre) = Some (length pre + length mode)%nat).
  { rewrite Ep2. apply skip_string_stop; [done|unfold size; lia|unfold size; rewrite <- Hpre; lia]. }
  rewrite E2. assert (L2 : p !! (length pre + length mode)%nat = Some 0).
  { rewrite Ep2, lookup_app_r by lia. rewrite lookup_app_r by lia.
    replace (length pre + length mode - length pre - length mode)%nat with 0%nat by lia. done. }
  rewrite L2. cbn [negb Z.eqb]. assert (D1 : drop 2 p = filename ++ 0 :: (mode ++ [0] ++ rest)) by done.
  assert (D2 : drop (length pre) p = mode ++ 0 :: rest) by (rewrite Ep2; by rewrite drop_app_length).
  rewrite D1, D2, !c_string_app by done. by destruct (formats _).
Qed.

(** ** Reading a request never leaves the buffer *)

Lemma skip_string_bounds fuel : forall p size cp, (size <= length p)%nat -> (size - cp < fuel)%nat ->
  exists cp', skip_string fuel p size cp = Some cp' /\ (cp <= cp' <= Nat.max size cp)%nat.
Proof.
  induction fuel as [|fuel IH]; intros p size cp Hs Hf; [lia|]. cbn [skip_string].
  destruct (Nat.ltb_spec cp size) as [Hlt|Hge]; [|exists cp; split; [done|lia]].
  destruct (lookup_lt_is_Some_2 p cp) as [c Hc]; [lia|]. rewrite Hc.
  destruct (c =? 0); [exists cp; split; [done|lia]|].
  destruct (IH p size (S cp) Hs ltac:(lia)) as (cp' & -> & H). exists cp'. split; [done|lia].
Qed.

Lemma c_string_found p i cp : (i <= cp)%nat -> p !! cp = Some 0 -> is_Some (c_string (drop i p)).
Proof.
  intros Hi Hc. assert (H : drop i p !! (cp - i)%nat = Some 0) by (rewrite lookup_drop; by replace (i + (cp - i))%nat with cp by lia).
  revert H. generalize (drop i p), (cp - i)%nat. clear. intros l n. revert l.
  induction n as [|n IH]; intros [|c l] H; try discriminate; cbn in *.
  - injection H as ->. by eexists.
  - destruct (c =? 0); [by eexists|]. destruct (IH l H) as [x ->]. by eexists.
Qed.

Lemma parse_request_safe p size : (size + 2 <= length p)%nat -> (4 <= length p)%nat -> is_Some (parse_request p size).
Proof.
  intros Hs H4. unfold parse_request.
  destruct (skip_string_bounds (S size) p size 2 ltac:(lia) ltac:(lia)) as (cp & -> & Hcp).
  destruct (lookup_lt_is_Some_2 p cp) as [c Hc]; [lia|]. rewrite Hc.
  destruct (Z.eqb_spec c 0) as [->|_]; cbn [negb]; [|by eexists].
  destruct (skip_string_bounds (S size) p size (S cp) ltac:(lia) ltac:(lia)) as (cp2 & -> & Hcp2).
  destruct (lookup_lt_is_Some_2 p cp2) as [c2 Hc2]; [lia|]. rewrite Hc2.
  destruct (Z.eqb_spec c2 0) as [->|_]; cbn [negb]; [|by eexists].
  destruct (c_string_found p 2 cp ltac:(lia) Hc) as [x ->].
  destruct (c_string_found p (S cp) cp2 ltac:(lia) Hc2) as [y ->]. destruct (formats _); by eexists.
Qed.

(** ** Paths *)

(** The parts of a path between the slashes. *)
Fixpoint components (l : list Z) : list (list Z) :=
  match l with
  | [] => [[]]
  | c :: l' =>
      if c =? SLASH then [] :: components l'
      else match components l' with
           | [] => [[c]]
           | d :: ds => (c :: d) :: ds
           end
  end.

Definition DOTDOT : list Z := [DOT; DOT].

(** Whatever stands before a slash is not [..]. *)
Definition stays_inside (l : list Z) : Prop := Forall (fun d => d <> DOTDOT) (removelast (components l)).

Lemma components_ne l : components l <> [].
Proof. destruct l as [|c l]; [done|]. cbn. destruct (c =? SLASH); [done|]. by destruct (components l). Qed.

Lemma bad_path_spec l : forall first prev, bad_path first prev l = false ->
  (first = true -> head l <> Some DOT)
  /\ (prev = SLASH -> forall r, l <> DOT :: DOT :: SLASH :: r)
  /\ forall a r, l <> a ++ SLASH :: DOT :: DOT :: SLASH :: r.
Proof.
  induction l as [|c l IH]; intros first prev H; [split_and!; [done..|intros [|] ?; done]|].
  cbn [bad_path] in H. apply orb_false_iff in H as [H1 H2]. destruct (IH false c H2) as (_ & Hs & Ha). split_and!.
  - intros -> [= ->]. done.
  - intros -> r [= -> ->]. cbn in H1. apply orb_false_iff in H1 as [_ H1]. by apply bool_decide_eq_false in H1.
  - intros [|x a] r [= -> ->].
    + by apply (Hs eq_refl r).
    + by apply (Ha a r).
Qed.

Lemma component_at l : forall i d, components l !! i = Some d -> (S i < length (components l))%nat ->
  exists pre r, l = pre ++ d ++ SLASH :: r /\ if decide (i = 0%nat) then pre = [] else exists p', pre = p' ++ [SLASH].
Proof.
  induction l as [|c l IH]; intros i d Hd Hi; [cbn in Hi; lia|]. cbn [components] in *.
  destruct (Z.eqb_spec c SLASH) as [->|Hc].
  - destruct i as [|i].
    + injection Hd as <-. exists [], l. by rewrite decide_True.
    + destruct (IH i d Hd ltac:(cbn in Hi; lia)) as (pre & r & -> & Hpre). exists (SLASH :: pre), r. split; [done|].
      rewrite decide_False by done. destruct (decide (i = 0%nat)); [subst; by exists []|].
      destruct Hpre as [p' ->]. by exists (SLASH :: p').
  - destruct (components l) as [|d0 ds] eqn:El; [cbn in Hi; lia|]. destruct i as [|i].
    + injection Hd as <-. destruct (IH 0%nat d0 eq_refl Hi) as (pre & r & -> & Hpre). rewrite decide_True in Hpre by done.
      subst pre. exists [], r. by rewrite decide_True.
    + destruct (IH (S i) d Hd Hi) as (pre & r & -> & Hpre). rewrite decide_False in Hpre by done. destruct Hpre as [p' ->].
      exists (c :: p' ++ [SLASH]), r. rewrite decide_False by done. split; [done|]. by exists (c :: p').
Qed.

Lemma stays_inside_intro l : (forall r, l <> DOT :: DOT :: SLASH :: r) ->
  (forall a r, l <> a ++ SLASH :: DOT :: DOT :: SLASH :: r) -> stays_inside l.
Proof.
  intros H1 H2. apply Forall_lookup. intros i d Hd ->.
  assert (Hi : (S i < length (components l))%nat).
  { apply lookup_lt_Some in Hd. rewrite removelast_firstn_len, length_take in Hd. pose proof (components_ne l).
    destruct (components l); [done|]. cbn in *. lia. }
  rewrite removelast_firstn_len, lookup_take_Some in Hd. destruct Hd as [Hd _].
  destruct (component_at l i DOTDOT Hd Hi) as (pre & r & -> & Hpre). destruct (decide (i = 0%nat)).
  - subst. by apply (H1 r).
  - destruct Hpre as [p' ->]. rewrite <- app_assoc in H2. by apply (H2 p' r).
Qed.

(** ** validate_access *)

Definition strip_slash (l : list Z) : list Z :=
  match l with c :: l' => if c =? SLASH then l' else l | [] => [] end.

Lemma validate_access_run s dir filename mode path : validate_access s dir filename mode = (0, Some path) ->
  exists d st_mode, dir = Some d /\ path = take 1534 (d ++ [SLASH] ++ strip_slash filename)
    /\ stays_inside (strip_slash filename) /\ head filename <> Some DOT
    /\ fs_stat s path = inr st_mode /\ Z.land st_mode (if mode =? RRQ then 4 else 2) <> 0
    /\ fs_open s path (if mode =? RRQ then 0 else 1) = inr tt.
Proof.
  unfold validate_access. destruct (bad_path true 0 filename) eqn:Hb; [done|].
  destruct (bad_path_spec filename true 0 Hb) as (Hh & _ & Ha). fold (strip_slash filename).
  destruct dir as [d|]; [|done]. destruct (fs_stat s _) as [errno|st_mode] eqn:Hst; [by destruct (errno =? ENOENT)|].
  destruct (Z.eqb_spec (Z.land st_mode (if mode =? RRQ then 4 else 2)) 0) as [|Hm]; [done|].
  destruct (fs_open s _ _) as [e|[]] eqn:Ho; [done|]. intros [= <-].
  exists d, st_mode. split_and!; try done; [|by apply Hh]. unfold strip_slash. destruct filename as [|c l]; [by constructor|].
  destruct (Z.eqb_spec c SLASH) as [->|Hc]; apply stays_inside_intro.
  - intros r ->. by apply (Ha [] r).
  - intros a r ->. by apply (Ha (SLASH :: a) r).
  - intros r [= -> ->]. by apply Hh.
  - done.
Qed.

(** ** nak *)

(** The code and the message of an error. *)
Definition error_code (error : Z) : Z := if (0 <=? error) && (error <=? 7) then error else EUNDEF.
Definition error_message (strerror : Z -> string) (error : Z) : list Z :=
  bytes_of (match find_errmsg error with Some pe => snd pe | None => strerror (error - 100) end).

Lemma find_errmsg_some error : match find_errmsg error with
  | Some pe => pe ∈ errmsgs /\ fst pe = error /\ error_code error = error
  | None => ~ 0 <= error <= 7 /\ error_code error = EUNDEF
  end.
Proof.
  unfold find_errmsg. destruct (list_find _ errmsgs) as [[i pe]|] eqn:E; cbn [mbind option_bind snd].
  - apply list_find_Some in E as (Hi & Hp & _). apply list_elem_of_lookup_2 in Hi. split_and!; [done|done|]. subst error.
    unfold errmsgs in Hi. repeat (apply elem_of_cons in Hi as [-> |Hi]; [done|]). by apply not_elem_of_nil in Hi.
  - apply list_find_None in E. assert (~ 0 <= error <= 7) as Hne.
    { unfold errmsgs, EUNDEF, ENOTFOUND, EACCESS, ENOSPACE, EBADOP, EBADID, EEXISTS, ENOUSER in E.
      repeat (apply Forall_cons in E as [? E]; cbn in *). lia. }
    split; [done|]. unfold error_code. destruct (Z.leb_spec 0 error), (Z.leb_spec error 7); try done. lia.
Qed.

Lemma nak_run strerror error p : length p = PKTSIZE ->
  nak strerror error p = packet ERROR (error_code error) (error_message strerror error ++ [0]).
Proof.
  intros Hp. unfold nak, error_message. pose proof (find_errmsg_some error) as He.
  assert (H4 : (4 <= length p)%nat) by (rewrite Hp; change PKTSIZE with (SEGSIZE + 4)%nat; lia).
  destruct (header_split p H4) as (a & b & c & d & r & ->).
  assert (H : forall v code msg p1, [u8 v; Z.shiftr (u16 v) 8] = wire16 code ->
    p1 = set_block v (set_opcode (htons ERROR) (a :: b :: c :: d :: r)) ->
    take (length msg + 5) (take 4 p1 ++ msg ++ [0] ++ drop (5 + length msg) p1) = packet ERROR code (msg ++ [0])).
  { intros v code msg p1 Hv ->. unfold packet. rewrite <- Hv, <- put16_htons.
    unfold set_block, set_opcode, put16. cbn [insert list_insert].
    generalize (drop (5 + length msg) (u8 (htons ERROR) :: Z.shiftr (u16 (htons ERROR)) 8 :: u8 v :: Z.shiftr (u16 v) 8 :: r)). intros rest.
    cbn [take app]. replace (length msg + 5)%nat with (4 + (length msg + 1))%nat by lia. cbn [Nat.add take app].
    do 4 f_equal. rewrite (app_assoc msg [0] rest : msg ++ 0 :: rest = _).
    change (take 0 r) with (@nil Z). cbn [app]. rewrite take_app_length'; [done|]. rewrite length_app. cbn. lia. }
  destruct (find_errmsg error) as [pe|].
  - destruct He as (_ & _ & ->). apply (H (htons error)); [apply put16_htons|done].
  - rewrite (proj2 He). eapply (H EUNDEF); [reflexivity|done].
Qed.
