(* ===== verification/TftpTheorems.v ===== *)
(** * Theorems about the TFTP server

    The transfers in both directions, their composition, their end, the
    requests and the error messages. *)

From Stdlib Require Import ZArith Lia Ascii String.
From stdpp Require Import base numbers option list.
From S2P Require Import Prelude TftpBuf TftpBufSpec TftpServer TftpSend TftpRecv TftpRequest.

Local Open Scope string_scope.
Local Open Scope list_scope.
Local Open Scope Z_scope.
Local Abbreviation length := List.length.

(** The buffers as the loader leaves them. *)
Definition zero_bufs : bufs :=
  mkBufs (mkBf 0 (repeat 0 PKTSIZE)) (mkBf 0 (repeat 0 PKTSIZE)) false false false 0.

(** Buffers of the right size, and no packet in the second. *)
Definition bufs_ok (b : bufs) : Prop :=
  length (buf (bfs0 b)) = PKTSIZE /\ length (buf (bfs1 b)) = PKTSIZE /\ th_opcode (buf (bfs1 b)) <> DATA.

Lemma bufs_ok_len b : bufs_ok b -> forall i, length (buf (get_bf i b)) = PKTSIZE.
Proof. intros (H0 & H1 & _) [|]; done. Qed.

Lemma zero_bufs_ok : bufs_ok zero_bufs.
Proof. unfold bufs_ok, zero_bufs. cbn [buf bfs0 bfs1]. rewrite repeat_length. split_and!; [done|done|]. vm_compute. discriminate. Qed.

Definition no_errors (_ : Z) : string := "Error".

(** ** Sending *)

(** C20: [sendfile] sends the file.  Whatever arrives, gets lost or fails, the
    packets it sends are the data packets of the segments of the file (of its
    netascii form in netascii mode), each with its number, beginning with the
    first, every packet a repetition of the last one or its successor; an
    error of the disk adds one error packet.  When the transfer ends normally,
    all segments were sent, and there were at most 32767 of them. *)
Theorem sendfile_correct strerror convert b f ackbuf sends evs :
  bufs_ok b ->
  let st := wire convert (rrest f) in
  let '(outs, r) := sendfile strerror convert b f ackbuf sends evs in
  exists ks rest, outs = (data_packet st <$> ks) ++ rest
    /\ (ks = [] /\ r = inr SentAbort \/ exists k ks', ks = 0%nat :: ks' /\ advances 0 ks' k /\ (k < segments st)%nat)
    /\ (rest = [] \/ r = inr SentAbort /\ rerr f <> None /\ rest = [errno_packet strerror (rerr f)])
    /\ (r = inr SentAll -> (forall k, (k < segments st)%nat -> k ∈ ks) /\ Z.of_nat (segments st) <= 32767).
Proof.
  intros Hb st.
  pose proof (sendfile_run strerror convert st (rerr f) b f ackbuf sends evs (bufs_ok_len b Hb) eq_refl eq_refl) as H.
  destruct (sendfile strerror convert b f ackbuf sends evs) as [outs r].
  destruct H as [[-> H]|(ks & k & rest & Ha & -> & Hk & Hs & Hr)].
  - destruct H as [->|[-> (_ & He & _)]].
    + exists [], []. split_and!; [done|by left|by left|done].
    + exists [], [errno_packet strerror (rerr f)]. split_and!; [done|by left|by right|done].
  - exists (0%nat :: ks), rest. split_and!; [done|right; by exists k, ks| |].
    + destruct r as [s|[| |]]; [by left; destruct Hr|destruct Hr as (_ & _ & -> & _); by left| |destruct Hr as (_ & _ & ->); by left].
      destruct Hr as (_ & _ & [->|[-> (_ & He & _)]]); [by left|by right].
    + intros ->. destruct Hr as (_ & _ & _ & Hl & H15). split; [|lia].
      intros i Hi. destruct i as [|i]; [by left|]. right. apply (advances_all 0 ks k Ha). lia.
Qed.

Lemma sendfile_correct_witness :
  let '(outs, r) := sendfile no_errors true zero_bufs (mkR [65; 10] None) (repeat 0 PKTSIZE) []
                      [Timeout; acked 0 false] in
  outs = [[0; 3; 0; 1; 65; 13; 10]; [0; 3; 0; 1; 65; 13; 10]] /\ r = inr SentAll
  /\ exists ks, outs = data_packet [65; 13; 10] <$> ks.
Proof.
  pose proof (sendfile_correct no_errors true zero_bufs (mkR [65; 10] None) (repeat 0 PKTSIZE) []
    [Timeout; acked 0 false] zero_bufs_ok) as H.
  assert (E : sendfile no_errors true zero_bufs (mkR [65; 10] None) (repeat 0 PKTSIZE) [] [Timeout; acked 0 false]
    = ([[0; 3; 0; 1; 65; 13; 10]; [0; 3; 0; 1; 65; 13; 10]], inr SentAll)) by (vm_compute; reflexivity).
  cbv zeta in H. rewrite E in H |- *. destruct H as (ks & rest & Ho & _ & Hrest & _). split; [reflexivity|]. split; [reflexivity|].
  exists ks. destruct Hrest as [Hrest|(Hr & _)]; [|discriminate Hr]. rewrite Hrest, app_nil_r in Ho. exact Ho.
Defined.



(** ** Receiving *)

Lemma stored_all convert text : snd (stored convert (wire convert text) (segments (wire convert text))) = text.
Proof. unfold stored. rewrite segments_all. destruct (sink_wire convert text) as [pc ->]. done. Qed.

(** C21: [recvfile] stores the file.  If every data packet that arrives carries
    the segment of its number of some text, in the form of the mode, then,
    whatever is lost, repeated, delayed or refused: the acknowledgements it
    sends begin with number 0 and each repeats the last one or is its
    successor, and the file holds what the segments received so far stand for.
    When the transfer ends normally, the text has been written over the old
    contents of the file, from its start. *)
Theorem recvfile_correct convert text b f ackbuf sends evs :
  bufs_ok b -> (4 <= length ackbuf)%nat -> wpos f = 0%nat ->
  let st := wire convert text in
  Forall (honest_event st) evs ->
  let '(outs, r) := recvfile convert b f ackbuf sends evs in
  (exists ks, outs = ack <$> ks
     /\ (ks = [] \/ exists j ks', ks = 0%nat :: ks' /\ advances 0 ks' j /\ (j <= segments st)%nat))
  /\ match r with
     | inl s => exists j, (j <= segments st)%nat /\ wrote (wcontent f) (snd (stored convert st j)) (r_file s)
     | inr (ReceivedAll f') => wcontent f' = text ++ drop (length text) (wcontent f)
     | inr (ReceivedAbort f') | inr (ReceivedExit f') =>
         exists j, (j <= segments st)%nat /\ wrote (wcontent f) (snd (stored convert st j)) f'
     end.
Proof.
  intros Hb Ha Hp st Hev.
  pose proof (recvfile_run convert st (wcontent f) b f ackbuf sends evs (bufs_ok_len b Hb) (proj2 (proj2 Hb)) Ha eq_refl Hp Hev) as H.
  destruct (recvfile convert b f ackbuf sends evs) as [outs r].
  destruct H as [(-> & -> & _)|(ks & j & rest & Had & -> & Hr)].
  - split; [exists []; by split; [|left]|]. exists 0%nat. split; [lia|].
    replace (snd (stored convert st 0)) with (@nil Z) by (unfold stored; by destruct convert). split; [done|done].
  - assert (rest = [] /\ (j <= segments st)%nat) as [-> Hj].
    { destruct r as [s|x]; [|by destruct Hr as (? & ? & _)]. destruct Hr as (-> & [Hw|[Hw _]] & _); [|done].
      split; [done|]. apply rc_few in Hw. lia. }
    rewrite app_nil_r. split; [exists (0%nat :: ks); split; [done|right; by exists j, ks]|].
    destruct r as [s|x].
    + destruct Hr as (_ & [Hw|[_ Hw]] & _); [exists j|exists (segments st)]; (split; [lia|apply Hw]).
    + destruct Hr as (_ & _ & Hr). destruct x as [f'|f'|f']; [|exact Hr..].
      destruct Hr as [Hr _]. unfold st in Hr. by rewrite stored_all in Hr.
Qed.

Lemma honest_data st k : (k < segments st)%nat -> Z.of_nat k <= 32767 -> honest st (data_packet st k).
Proof.
  intros Hk H15. exists DATA, (Z.of_nat k + 1), (segment st k). split_and!; [done|apply segment_length|].
  intros _. by exists k.
Qed.

Lemma recvfile_correct_witness :
  let evs := [Arrives false (Pkt [0; 3; 0; 1; 65; 13; 10]); Timeout] in
  let '(outs, r) := recvfile true zero_bufs (mkW [66; 66; 66] 0) (repeat 0 PKTSIZE) [] evs in
  outs = [[0; 4; 0; 0]; [0; 4; 0; 1]] /\ r = inr (ReceivedAll (mkW [65; 10; 66] 2))
  /\ [65; 10; 66] = [65; 10] ++ drop 2 [66; 66; 66].
Proof.
  assert (Hh : Forall (honest_event (wire true [65; 10])) [Arrives false (Pkt [0; 3; 0; 1; 65; 13; 10]); Timeout]).
  { constructor; [|by constructor; [|constructor]].
    apply (honest_data [65; 13; 10] 0); [unfold segments; lia|lia]. }
  pose proof (recvfile_correct true [65; 10] zero_bufs (mkW [66; 66; 66] 0) (repeat 0 PKTSIZE) []
    [Arrives false (Pkt [0; 3; 0; 1; 65; 13; 10]); Timeout] zero_bufs_ok) as H.
  assert (E : recvfile true zero_bufs (mkW [66; 66; 66] 0) (repeat 0 PKTSIZE) [] [Arrives false (Pkt [0; 3; 0; 1; 65; 13; 10]); Timeout]
    = ([[0; 4; 0; 0]; [0; 4; 0; 1]], inr (ReceivedAll (mkW [65; 10; 66] 2)))) by (vm_compute; reflexivity).
  cbv zeta in H |- *. rewrite E in H |- *. split; [reflexivity|]. split; [reflexivity|].
  exact (proj2 (H ltac:(rewrite repeat_length; change PKTSIZE with (SEGSIZE + 4)%nat; lia) eq_refl Hh)).
Defined.

(** ** Both ends *)

(** C4: A file arrives as it was sent.  Let one server send a file, in whatever
    circumstances, and another receive in the same mode, hearing only timeouts,
    errors and packets of the first one, any of them lost, repeated or
    reordered.  If the receiver ends normally, its file begins with exactly
    the bytes of the file that was sent; what is left of a longer old file
    follows. *)
Theorem transfer_correct strerror convert b f ackbuf sends evs b' f' ackbuf' sends' evs' :
  bufs_ok b -> bufs_ok b' -> (4 <= length ackbuf')%nat -> wpos f' = 0%nat -> rerr f = None ->
  let outs := fst (sendfile strerror convert b f ackbuf sends evs) in
  Forall (fun e => match e with Arrives _ (Pkt bytes) => bytes ∈ outs | _ => True end) evs' ->
  forall file, snd (recvfile convert b' f' ackbuf' sends' evs') = inr (ReceivedAll file) ->
  wcontent file = rrest f ++ drop (length (rrest f)) (wcontent f').
Proof.
  intros Hb Hb' Ha Hp Herr outs Hev file Hfile. set (st := wire convert (rrest f)).
  assert (Hh : Forall (honest_event st) evs').
  { pose proof (sendfile_run strerror convert st (rerr f) b f ackbuf sends evs (bufs_ok_len b Hb) eq_refl eq_refl) as H.
    unfold outs in Hev. destruct (sendfile strerror convert b f ackbuf sends evs) as [out r]. cbn [fst] in Hev.
    eapply Forall_impl; [exact Hev|]. intros [early [bytes|errno]|] He; [|done..]. cbn.
    destruct H as [[_ [->|[_ (_ & Hne & _)]]]|(ks & k & rest & Hadv & -> & Hk & H15 & Hr)].
    - by apply not_elem_of_nil in He.
    - done.
    - assert (rest = []) as ->.
      { destruct r as [s|[| |]]; [by destruct Hr|by destruct Hr as (_ & _ & -> & _)| |by destruct Hr as (_ & _ & ->)].
        destruct Hr as (_ & _ & [->|[_ (_ & Hne & _)]]); done. }
      rewrite app_nil_r in He. apply elem_of_cons in He as [->|He]; [apply honest_data; [unfold segments; lia|lia]|].
      apply list_elem_of_fmap in He as (i & -> & Hi). apply (advances_range _ _ _ Hadv) in Hi. apply honest_data; lia. }
  pose proof (recvfile_run convert st (wcontent f') b' f' ackbuf' sends' evs' (bufs_ok_len b' Hb') (proj2 (proj2 Hb')) Ha eq_refl Hp Hh) as H.
  destruct (recvfile convert b' f' ackbuf' sends' evs') as [outs' r']. cbn in Hfile. subst r'.
  destruct H as [([=] & _)|(ks & j & rest & _ & _ & _ & _ & Hr)].
  destruct Hr as [Hr _]. unfold st in Hr. by rewrite stored_all in Hr.
Qed.

Lemma transfer_correct_witness :
  wcontent (mkW [65; 10; 66] 2) = [65; 10] ++ drop 2 [66; 66; 66].
Proof.
  apply (transfer_correct no_errors true zero_bufs (mkR [65; 10] None) (repeat 0 PKTSIZE) [] [acked 0 false]
    zero_bufs (mkW [66; 66; 66] 0) (repeat 0 PKTSIZE) [] [Arrives false (Pkt [0; 3; 0; 1; 65; 13; 10]); Timeout]).
  - exact zero_bufs_ok.
  - exact zero_bufs_ok.
  - rewrite repeat_length. change PKTSIZE with (SEGSIZE + 4)%nat. lia.
  - reflexivity.
  - reflexivity.
  - assert (E : fst (sendfile no_errors true zero_bufs (mkR [65; 10] None) (repeat 0 PKTSIZE) [] [acked 0 false])
      = [[0; 3; 0; 1; 65; 13; 10]]) by (vm_compute; reflexivity).
    rewrite E. constructor; [by left|]. constructor; [done|constructor].
  - vm_compute. reflexivity.
Defined.

(** ** The end of a transfer *)

(** C39: No transfer waits for ever, whatever arrives, is lost or fails.  While
    the server sends a file and keeps waiting, the alarm cannot go off more than
    four times for each segment; while it receives one, not more than four times
    for each of the 32768 numbers that an acknowledgement may have, whoever the
    peer is and whatever it sends.  After more timeouts the transfer has ended.
    If the data packets are those of a sender of a text then four timeouts for
    each of its segments and for the last acknowledgement are enough. *)
Theorem transfers_terminate strerror convert b rf wf ackbuf sends evs :
  bufs_ok b -> (4 <= length ackbuf)%nat -> wpos wf = 0%nat ->
  ((4 * segments (wire convert (rrest rf)) < timeouts evs)%nat ->
     exists r, snd (sendfile strerror convert b rf ackbuf sends evs) = inr r)
  /\ (4 * 32768 < Z.of_nat (timeouts evs) ->
     exists r, snd (recvfile convert b wf ackbuf sends evs) = inr r)
  /\ (forall st, Forall (honest_event st) evs -> (4 * (segments st + 1) < timeouts evs)%nat ->
     exists r, snd (recvfile convert b wf ackbuf sends evs) = inr r).
Proof.
  intros Hb Ha Hp. split_and!.
  - intros Ht. pose proof (sendfile_run strerror convert _ (rerr rf) b rf ackbuf sends evs (bufs_ok_len b Hb) eq_refl eq_refl) as H.
    destruct (sendfile strerror convert b rf ackbuf sends evs) as [outs r]. cbn.
    destruct r as [s|x]; [|by exists x]. destruct H as [([=] & _)|(ks & k & rest & _ & _ & _ & _ & _ & Hs)]. lia.
  - intros Ht. pose proof (recvfile_limit convert b wf ackbuf sends evs) as H.
    destruct (snd (recvfile convert b wf ackbuf sends evs)) as [s|x]; [|by exists x]. specialize (H s eq_refl). lia.
  - intros st Hev Ht.
    pose proof (recvfile_run convert st (wcontent wf) b wf ackbuf sends evs (bufs_ok_len b Hb) (proj2 (proj2 Hb)) Ha eq_refl Hp Hev) as H.
    destruct (recvfile convert b wf ackbuf sends evs) as [outs r]. cbn.
    destruct r as [s|x]; [|by exists x]. destruct H as [([=] & _)|(ks & j & rest & _ & _ & _ & _ & Hs)]. lia.
Qed.

Lemma timeouts_repeat n : timeouts (repeat Timeout n) = n.
Proof. induction n as [|n IH]; [done|]. cbn [repeat]. rewrite timeouts_cons, IH. by rewrite decide_True. Qed.

(** A reader that goes away; a peer that sends a block of no use and then
    nothing; and a sender of one byte that does not hear the first
    acknowledgement. *)
Lemma transfers_terminate_witness :
  (exists r, snd (sendfile no_errors false zero_bufs (mkR [1; 2] None) (repeat 0 PKTSIZE) [] (repeat Timeout 5)) = inr r)
  /\ (exists r, snd (recvfile false zero_bufs (mkW [] 0) (repeat 0 PKTSIZE) []
        (Arrives false (Pkt [0; 3; 0; 9]) :: repeat Timeout (Z.to_nat 131073))) = inr r)
  /\ (exists r, snd (recvfile false zero_bufs (mkW [] 0) (repeat 0 PKTSIZE) []
        (Arrives false (Pkt [0; 3; 0; 1; 65]) :: repeat Timeout 9)) = inr r).
Proof.
  assert (Ha : (4 <= length (repeat 0 PKTSIZE))%nat) by (rewrite repeat_length; change PKTSIZE with (SEGSIZE + 4)%nat; lia).
  split_and!.
  - apply (transfers_terminate no_errors false zero_bufs (mkR [1; 2] None) (mkW [] 0) (repeat 0 PKTSIZE) [] (repeat Timeout 5) zero_bufs_ok Ha eq_refl).
    vm_compute. lia.
  - apply (transfers_terminate no_errors false zero_bufs (mkR [] None) (mkW [] 0) (repeat 0 PKTSIZE) [] _ zero_bufs_ok Ha eq_refl).
    rewrite timeouts_cons, decide_False, timeouts_repeat by done. rewrite Nat.add_0_l, Z2Nat.id by lia. lia.
  - apply (transfers_terminate no_errors false zero_bufs (mkR [] None) (mkW [] 0) (repeat 0 PKTSIZE) [] _ zero_bufs_ok Ha eq_refl) with (st := [65]).
    + constructor; [apply (honest_data [65] 0); [unfold segments; lia|lia]|]. by apply Forall_forall; intros e He%list_elem_of_In%repeat_spec; subst.
    + rewrite timeouts_cons, decide_False, timeouts_repeat by done. vm_compute. lia.
Defined.

(** The last acknowledgement is sent once.  When all data has arrived,
    [recvfile] sends the final acknowledgement and listens once more, to repeat
    it if the peer repeats its last packet.  It never does: it looks at a
    buffer that holds an older packet.  Whatever arrives then, nothing is
    sent. *)
Theorem final_ack_sent_once convert st b f ackbuf sends evs s e :
  bufs_ok b -> (4 <= length ackbuf)%nat -> wpos f = 0%nat -> Forall (honest_event st) evs ->
  snd (recvfile convert b f ackbuf sends evs) = inl s -> r_last s = true ->
  receiver_event convert s e = ([], End (ReceivedAll (r_file s))).
Proof.
  intros Hb Ha Hp Hev Hs Hl.
  pose proof (recvfile_run convert st (wcontent f) b f ackbuf sends evs (bufs_ok_len b Hb) (proj2 (proj2 Hb)) Ha eq_refl Hp Hev) as H.
  destruct (recvfile convert b f ackbuf sends evs) as [outs r]. cbn in Hs. subst r.
  destruct H as [([=] & _)|(ks & j & rest & _ & _ & _ & [Hw|[_ Hw]] & _)]; [by rewrite (rc_last _ _ _ _ _ Hw) in Hl|].
  unfold receiver_event. rewrite Hl. destruct e as [early [bytes|errno]|]; cbn [last_event]; [|done..].
  by rewrite (last_event_silent convert st (wcontent f)).
Qed.

Lemma final_ack_sent_once_witness :
  exists s, snd (recvfile false zero_bufs (mkW [] 0) (repeat 0 PKTSIZE) [] [Arrives false (Pkt [0; 3; 0; 1; 65])]) = inl s
    /\ receiver_event false s (Arrives false (Pkt [0; 3; 0; 1; 65])) = ([], End (ReceivedAll (mkW [65] 1))).
Proof.
  destruct (snd (recvfile false zero_bufs (mkW [] 0) (repeat 0 PKTSIZE) [] [Arrives false (Pkt [0; 3; 0; 1; 65])])) as [s|x] eqn:E;
    [|vm_compute in E; discriminate].
  exists s. split; [reflexivity|].
  assert (Hf : r_file s = mkW [65] 1 /\ r_last s = true) by (vm_compute in E; injection E as <-; split; reflexivity).
  destruct Hf as [Hf Hl]. rewrite <- Hf.
  apply (final_ack_sent_once false [65] zero_bufs (mkW [] 0) (repeat 0 PKTSIZE) [] [Arrives false (Pkt [0; 3; 0; 1; 65])] s).
  - exact zero_bufs_ok.
  - rewrite repeat_length. change PKTSIZE with (SEGSIZE + 4)%nat. lia.
  - reflexivity.
  - constructor; [|constructor]. apply (honest_data [65] 0); [unfold segments; lia|lia].
  - exact E.
  - exact Hl.
Defined.

(** ** Requests and errors *)

(** A request is read as it was written.  For every file name and mode
    without zero bytes, in a packet that fits the buffer, [tftp] finds the file
    name and, without regard to upper and lower case, the mode; other modes are
    refused as illegal operations.  Reading any packet of at most
    [PKTSIZE - 2] bytes stays inside the buffer. *)
Theorem request_correct opcode filename mode rest p size :
  no_nul filename -> no_nul mode -> length p = PKTSIZE -> (size + 2 <= PKTSIZE)%nat ->
  parse_request (request_packet opcode filename mode ++ rest) (length (request_packet opcode filename mode))
    = Some (match formats (tolower <$> mode) with None => Nak EBADOP | Some c => Request filename c end)
  /\ is_Some (parse_request p size).
Proof.
  intros Hf Hm Hp Hs. split; [|apply parse_request_safe; rewrite Hp; [done|]; change PKTSIZE with (SEGSIZE + 4)%nat; lia].
  unfold request_packet. rewrite !length_app. cbn [wire16 length].
  replace (2 + (length filename + (1 + (length mode + 1))))%nat with (length filename + length mode + 4)%nat by lia.
  rewrite <- !app_assoc. apply (parse_request_run _ _ filename mode rest Hf Hm).
Qed.

Lemma request_correct_witness :
  parse_request (request_packet RRQ (bytes_of "boot") (bytes_of "OcTet") ++ repeat 0 500) 13
    = Some (Request (bytes_of "boot") false).
Proof.
  apply (request_correct RRQ (bytes_of "boot") (bytes_of "OcTet") (repeat 0 500) (repeat 0 PKTSIZE) 9).
  - repeat constructor; discriminate.
  - repeat constructor; discriminate.
  - apply repeat_length.
  - change PKTSIZE with (SEGSIZE + 4)%nat. pose proof SEGSIZE_pos. vm_compute. lia.
Defined.

(** A full packet without a zero makes [tftp] read behind the buffer. *)
Example request_overrun : parse_request (repeat 65 PKTSIZE) PKTSIZE = None.
Proof. vm_compute. reflexivity. Qed.

(** Only files below the directory of the server are opened.  If
    [validate_access] accepts a file name, the server has a directory, the path
    it opens is that directory, a slash and the name, in which no part before
    a slash is [..] and which does not begin with a dot, the file is readable
    or writable for everyone as the request needs, and it is open. *)
Theorem validate_access_correct s dir filename mode path :
  validate_access s dir filename mode = (0, Some path) ->
  exists d st_mode, dir = Some d /\ path = take 1534 (d ++ [SLASH] ++ strip_slash filename)
    /\ stays_inside (strip_slash filename) /\ head filename <> Some DOT
    /\ fs_stat s path = inr st_mode /\ Z.land st_mode (if mode =? RRQ then 4 else 2) <> 0
    /\ fs_open s path (if mode =? RRQ then 0 else 1) = inr tt.
Proof. apply validate_access_run. Qed.

(** A file system in which every path is a file of mode 0666. *)
Definition open_fs : fs := mkFS (fun _ => inr 438) (fun _ _ => inr tt).

Lemma validate_access_correct_witness :
  exists d st_mode, Some (bytes_of "/tftpboot") = Some d /\ fs_stat open_fs (bytes_of "/tftpboot/a/b") = inr st_mode
    /\ stays_inside (strip_slash (bytes_of "/a/b")).
Proof.
  destruct (validate_access_correct open_fs (Some (bytes_of "/tftpboot")) (bytes_of "/a/b") RRQ (bytes_of "/tftpboot/a/b"))
    as (d & m & H1 & _ & H2 & _ & H3 & _).
  - vm_compute. reflexivity.
  - exists d, m. auto.
Defined.

(** A name that ends in [/..] is not refused. *)
Example dotdot_accepted : fst (validate_access open_fs (Some (bytes_of "/tftpboot")) (bytes_of "/..") RRQ) = 0.
Proof. vm_compute. reflexivity. Qed.

(** [nak] sends a well-formed error packet: the opcode, the code, which is
    that of the error if TFTP has one and 0 otherwise, and the message with its
    zero.  For the errors of TFTP the message is that of the table. *)
Theorem nak_correct strerror error p :
  length p = PKTSIZE ->
  nak strerror error p = packet ERROR (error_code error) (error_message strerror error ++ [0])
  /\ (0 <= error <= 7 -> exists m, (error, m) ∈ errmsgs /\ error_message strerror error = bytes_of m).
Proof.
  intros Hp. split; [by apply nak_run|]. intros He. unfold error_message.
  pose proof (find_errmsg_some error) as Hf. destruct (find_errmsg error) as [[e m]|]; [|by destruct Hf].
  destruct Hf as (Hin & <- & _). by exists m.
Qed.

Lemma nak_correct_witness :
  nak no_errors 113 (repeat 0 PKTSIZE) = packet ERROR 0 (bytes_of "Error" ++ [0]).
Proof. apply (nak_correct no_errors 113 (repeat 0 PKTSIZE)). apply repeat_length. Defined.
