(* ===== verification/Ping.v ===== *)
(** * The engine of ping: iputils-ns/ping.h and ping_common.c

    The counters and statistics of a run, the table of received sequence
    numbers, the window of outstanding probes, the pacing of [pinger] and the
    final report.  Times are nanoseconds, as this version of ping measures
    them.

    The globals of the program are the fields of [ping]; what the command line
    fixes is in [config].  What the system answers (the clock, the result of a
    send, the error queue) is an argument.  [long] counters do not overflow. *)

From Stdlib Require Import ZArith Lia.
From stdpp Require Import base numbers option list.
From S2P Require Import Prelude.

Local Open Scope Z_scope.

(** ** Times *)

Record timespec := mkTime { tv_sec : Z; tv_nsec : Z }.

Definition tvsub (out inn : timespec) : timespec :=
  let ns := tv_nsec out - tv_nsec inn in
  if ns <? 0 then mkTime (tv_sec out - 1 - tv_sec inn) (ns + 1000000000)
  else mkTime (tv_sec out - tv_sec inn) ns.

(** A [struct timespec] in memory: two 64-bit words, low byte first. *)
Fixpoint le_bytes (n : nat) (v : Z) : list Z :=
  match n with O => [] | S n' => u8 v :: le_bytes n' (Z.shiftr v 8) end.

Fixpoint le_value (l : list Z) : Z :=
  match l with [] => 0 | b :: l' => b + 256 * le_value l' end.

Definition encode_time (t : timespec) : list Z := le_bytes 8 (u64 (tv_sec t)) ++ le_bytes 8 (u64 (tv_nsec t)).

Definition decode_time (p : list Z) : option timespec :=
  if (16 <=? length p)%nat
  then Some (mkTime (s64 (le_value (take 8 p))) (s64 (le_value (take 8 (drop 8 p))))) else None.

(** ** State *)

Definition F_FLOOD : Z := 0x001.
Definition F_INTERVAL : Z := 0x002.
Definition F_QUIET : Z := 0x010.
Definition F_VERBOSE : Z := 0x100.
Definition F_FLOOD_POLL : Z := 0x800.
Definition F_LATENCY : Z := 0x1000.
Definition F_ADAPTIVE : Z := 0x4000.
Definition F_OUTSTANDING : Z := 0x100000.

Definition MININTERVAL : Z := 10.
Definition MINUSERINTERVAL : Z := 200.
Definition SCHINT (a : Z) : Z := if a <=? MININTERVAL then MININTERVAL else a.
Definition MAX_DUP_CHK : Z := 0x10000.
Definition BITMAP_SHIFT : Z := 6.

(** What the options fix before the loop starts. *)
Record config := mkConfig {
  npackets : Z;
  preload : Z;
  deadline : Z;
  lingertime : Z;
  uid : Z;
  datalen : Z;
  ident : Z;             (* as the packet holds it *)
  whereto : Z;
  socktype_raw : bool    (* SOCK_RAW, or SOCK_DGRAM *)
}.

(** A time stamp has its 16 bytes. *)
Definition timing (c : config) : bool := 16 <=? datalen c.

Record ping := mkPing {
  options : Z;
  confirm_flag : Z;
  confirm : Z;
  nreceived : Z;
  nrepeats : Z;
  ntransmitted : Z;
  nchecksum : Z;
  nerrors : Z;
  interval : Z;
  rtt_addend : Z;
  rtt : Z;
  tmin : Z;
  tmax : Z;
  tsum : Z;
  tsum2 : Z;
  pipesize : Z;
  acked : Z;
  rcvd_tbl : list Z;
  tokens : Z;
  oom_count : Z;
  cur_time : timespec;
  waittime : Z;
  outpack : list Z;
  old_rr : list Z;
  exiting : bool
}.

Definition set_options (x : Z) (s : ping) : ping :=
  mkPing x (confirm_flag s) (confirm s) (nreceived s) (nrepeats s) (ntransmitted s) (nchecksum
    s) (nerrors s) (interval s) (rtt_addend s) (rtt s) (tmin s) (tmax s) (tsum s) (tsum2 s)
    (pipesize s) (acked s) (rcvd_tbl s) (tokens s) (oom_count s) (cur_time s) (waittime s)
    (outpack s) (old_rr s) (exiting s).
Definition set_confirm_flag (x : Z) (s : ping) : ping :=
  mkPing (options s) x (confirm s) (nreceived s) (nrepeats s) (ntransmitted s) (nchecksum s)
    (nerrors s) (interval s) (rtt_addend s) (rtt s) (tmin s) (tmax s) (tsum s) (tsum2 s)
    (pipesize s) (acked s) (rcvd_tbl s) (tokens s) (oom_count s) (cur_time s) (waittime s)
    (outpack s) (old_rr s) (exiting s).
Definition set_confirm (x : Z) (s : ping) : ping :=
  mkPing (options s) (confirm_flag s) x (nreceived s) (nrepeats s) (ntransmitted s) (nchecksum
    s) (nerrors s) (interval s) (rtt_addend s) (rtt s) (tmin s) (tmax s) (tsum s) (tsum2 s)
    (pipesize s) (acked s) (rcvd_tbl s) (tokens s) (oom_count s) (cur_time s) (waittime s)
    (outpack s) (old_rr s) (exiting s).
Definition set_nreceived (x : Z) (s : ping) : ping :=
  mkPing (options s) (confirm_flag s) (confirm s) x (nrepeats s) (ntransmitted s) (nchecksum s)
    (nerrors s) (interval s) (rtt_addend s) (rtt s) (tmin s) (tmax s) (tsum s) (tsum2 s)
    (pipesize s) (acked s) (rcvd_tbl s) (tokens s) (oom_count s) (cur_time s) (waittime s)
    (outpack s) (old_rr s) (exiting s).
Definition set_nrepeats (x : Z) (s : ping) : ping :=
  mkPing (options s) (confirm_flag s) (confirm s) (nreceived s) x (ntransmitted s) (nchecksum s)
    (nerrors s) (interval s) (rtt_addend s) (rtt s) (tmin s) (tmax s) (tsum s) (tsum2 s)
    (pipesize s) (acked s) (rcvd_tbl s) (tokens s) (oom_count s) (cur_time s) (waittime s)
    (outpack s) (old_rr s) (exiting s).
Definition set_ntransmitted (x : Z) (s : ping) : ping :=
  mkPing (options s) (confirm_flag s) (confirm s) (nreceived s) (nrepeats s) x (nchecksum s)
    (nerrors s) (interval s) (rtt_addend s) (rtt s) (tmin s) (tmax s) (tsum s) (tsum2 s)
    (pipesize s) (acked s) (rcvd_tbl s) (tokens s) (oom_count s) (cur_time s) (waittime s)
    (outpack s) (old_rr s) (exiting s).
Definition set_nchecksum (x : Z) (s : ping) : ping :=
  mkPing (options s) (confirm_flag s) (confirm s) (nreceived s) (nrepeats s) (ntransmitted s) x
    (nerrors s) (interval s) (rtt_addend s) (rtt s) (tmin s) (tmax s) (tsum s) (tsum2 s)
    (pipesize s) (acked s) (rcvd_tbl s) (tokens s) (oom_count s) (cur_time s) (waittime s)
    (outpack s) (old_rr s) (exiting s).
Definition set_nerrors (x : Z) (s : ping) : ping :=
  mkPing (options s) (confirm_flag s) (confirm s) (nreceived s) (nrepeats s) (ntransmitted s)
    (nchecksum s) x (interval s) (rtt_addend s) (rtt s) (tmin s) (tmax s) (tsum s) (tsum2 s)
    (pipesize s) (acked s) (rcvd_tbl s) (tokens s) (oom_count s) (cur_time s) (waittime s)
    (outpack s) (old_rr s) (exiting s).
Definition set_interval (x : Z) (s : ping) : ping :=
  mkPing (options s) (confirm_flag s) (confirm s) (nreceived s) (nrepeats s) (ntransmitted s)
    (nchecksum s) (nerrors s) x (rtt_addend s) (rtt s) (tmin s) (tmax s) (tsum s) (tsum2 s)
    (pipesize s) (acked s) (rcvd_tbl s) (tokens s) (oom_count s) (cur_time s) (waittime s)
    (outpack s) (old_rr s) (exiting s).
Definition set_rtt_addend (x : Z) (s : ping) : ping :=
  mkPing (options s) (confirm_flag s) (confirm s) (nreceived s) (nrepeats s) (ntransmitted s)
    (nchecksum s) (nerrors s) (interval s) x (rtt s) (tmin s) (tmax s) (tsum s) (tsum2 s)
    (pipesize s) (acked s) (rcvd_tbl s) (tokens s) (oom_count s) (cur_time s) (waittime s)
    (outpack s) (old_rr s) (exiting s).
Definition set_rtt (x : Z) (s : ping) : ping :=
  mkPing (options s) (confirm_flag s) (confirm s) (nreceived s) (nrepeats s) (ntransmitted s)
    (nchecksum s) (nerrors s) (interval s) (rtt_addend s) x (tmin s) (tmax s) (tsum s) (tsum2 s)
    (pipesize s) (acked s) (rcvd_tbl s) (tokens s) (oom_count s) (cur_time s) (waittime s)
    (outpack s) (old_rr s) (exiting s).
Definition set_tmin (x : Z) (s : ping) : ping :=
  mkPing (options s) (confirm_flag s) (confirm s) (nreceived s) (nrepeats s) (ntransmitted s)
    (nchecksum s) (nerrors s) (interval s) (rtt_addend s) (rtt s) x (tmax s) (tsum s) (tsum2 s)
    (pipesize s) (acked s) (rcvd_tbl s) (tokens s) (oom_count s) (cur_time s) (waittime s)
    (outpack s) (old_rr s) (exiting s).
Definition set_tmax (x : Z) (s : ping) : ping :=
  mkPing (options s) (confirm_flag s) (confirm s) (nreceived s) (nrepeats s) (ntransmitted s)
    (nchecksum s) (nerrors s) (interval s) (rtt_addend s) (rtt s) (tmin s) x (tsum s) (tsum2 s)
    (pipesize s) (acked s) (rcvd_tbl s) (tokens s) (oom_count s) (cur_time s) (waittime s)
    (outpack s) (old_rr s) (exiting s).
Definition set_tsum (x : Z) (s : ping) : ping :=
  mkPing (options s) (confirm_flag s) (confirm s) (nreceived s) (nrepeats s) (ntransmitted s)
    (nchecksum s) (nerrors s) (interval s) (rtt_addend s) (rtt s) (tmin s) (tmax s) x (tsum2 s)
    (pipesize s) (acked s) (rcvd_tbl s) (tokens s) (oom_count s) (cur_time s) (waittime s)
    (outpack s) (old_rr s) (exiting s).
Definition set_tsum2 (x : Z) (s : ping) : ping :=
  mkPing (options s) (confirm_flag s) (confirm s) (nreceived s) (nrepeats s) (ntransmitted s)
    (nchecksum s) (nerrors s) (interval s) (rtt_addend s) (rtt s) (tmin s) (tmax s) (tsum s) x
    (pipesize s) (acked s) (rcvd_tbl s) (tokens s) (oom_count s) (cur_time s) (waittime s)
    (outpack s) (old_rr s) (exiting s).
Definition set_pipesize (x : Z) (s : ping) : ping :=
  mkPing (options s) (confirm_flag s) (confirm s) (nreceived s) (nrepeats s) (ntransmitted s)
    (nchecksum s) (nerrors s) (interval s) (rtt_addend s) (rtt s) (tmin s) (tmax s) (tsum s)
    (tsum2 s) x (acked s) (rcvd_tbl s) (tokens s) (oom_count s) (cur_time s) (waittime s)
    (outpack s) (old_rr s) (exiting s).
Definition set_acked (x : Z) (s : ping) : ping :=
  mkPing (options s) (confirm_flag s) (confirm s) (nreceived s) (nrepeats s) (ntransmitted s)
    (nchecksum s) (nerrors s) (interval s) (rtt_addend s) (rtt s) (tmin s) (tmax s) (tsum s)
    (tsum2 s) (pipesize s) x (rcvd_tbl s) (tokens s) (oom_count s) (cur_time s) (waittime s)
    (outpack s) (old_rr s) (exiting s).
Definition set_rcvd_tbl (x : list Z) (s : ping) : ping :=
  mkPing (options s) (confirm_flag s) (confirm s) (nreceived s) (nrepeats s) (ntransmitted s)
    (nchecksum s) (nerrors s) (interval s) (rtt_addend s) (rtt s) (tmin s) (tmax s) (tsum s)
    (tsum2 s) (pipesize s) (acked s) x (tokens s) (oom_count s) (cur_time s) (waittime s)
    (outpack s) (old_rr s) (exiting s).
Definition set_tokens (x : Z) (s : ping) : ping :=
  mkPing (options s) (confirm_flag s) (confirm s) (nreceived s) (nrepeats s) (ntransmitted s)
    (nchecksum s) (nerrors s) (interval s) (rtt_addend s) (rtt s) (tmin s) (tmax s) (tsum s)
    (tsum2 s) (pipesize s) (acked s) (rcvd_tbl s) x (oom_count s) (cur_time s) (waittime s)
    (outpack s) (old_rr s) (exiting s).
Definition set_oom_count (x : Z) (s : ping) : ping :=
  mkPing (options s) (confirm_flag s) (confirm s) (nreceived s) (nrepeats s) (ntransmitted s)
    (nchecksum s) (nerrors s) (interval s) (rtt_addend s) (rtt s) (tmin s) (tmax s) (tsum s)
    (tsum2 s) (pipesize s) (acked s) (rcvd_tbl s) (tokens s) x (cur_time s) (waittime s)
    (outpack s) (old_rr s) (exiting s).
Definition set_cur_time (x : timespec) (s : ping) : ping :=
  mkPing (options s) (confirm_flag s) (confirm s) (nreceived s) (nrepeats s) (ntransmitted s)
    (nchecksum s) (nerrors s) (interval s) (rtt_addend s) (rtt s) (tmin s) (tmax s) (tsum s)
    (tsum2 s) (pipesize s) (acked s) (rcvd_tbl s) (tokens s) (oom_count s) x (waittime s)
    (outpack s) (old_rr s) (exiting s).
Definition set_waittime (x : Z) (s : ping) : ping :=
  mkPing (options s) (confirm_flag s) (confirm s) (nreceived s) (nrepeats s) (ntransmitted s)
    (nchecksum s) (nerrors s) (interval s) (rtt_addend s) (rtt s) (tmin s) (tmax s) (tsum s)
    (tsum2 s) (pipesize s) (acked s) (rcvd_tbl s) (tokens s) (oom_count s) (cur_time s) x
    (outpack s) (old_rr s) (exiting s).
Definition set_outpack (x : list Z) (s : ping) : ping :=
  mkPing (options s) (confirm_flag s) (confirm s) (nreceived s) (nrepeats s) (ntransmitted s)
    (nchecksum s) (nerrors s) (interval s) (rtt_addend s) (rtt s) (tmin s) (tmax s) (tsum s)
    (tsum2 s) (pipesize s) (acked s) (rcvd_tbl s) (tokens s) (oom_count s) (cur_time s)
    (waittime s) x (old_rr s) (exiting s).
Definition set_old_rr (x : list Z) (s : ping) : ping :=
  mkPing (options s) (confirm_flag s) (confirm s) (nreceived s) (nrepeats s) (ntransmitted s)
    (nchecksum s) (nerrors s) (interval s) (rtt_addend s) (rtt s) (tmin s) (tmax s) (tsum s)
    (tsum2 s) (pipesize s) (acked s) (rcvd_tbl s) (tokens s) (oom_count s) (cur_time s)
    (waittime s) (outpack s) x (exiting s).
Definition set_exiting (x : bool) (s : ping) : ping :=
  mkPing (options s) (confirm_flag s) (confirm s) (nreceived s) (nrepeats s) (ntransmitted s)
    (nchecksum s) (nerrors s) (interval s) (rtt_addend s) (rtt s) (tmin s) (tmax s) (tsum s)
    (tsum2 s) (pipesize s) (acked s) (rcvd_tbl s) (tokens s) (oom_count s) (cur_time s)
    (waittime s) (outpack s) (old_rr s) x.

Definition has (s : ping) (flag : Z) : bool := negb (Z.land (options s) flag =? 0).

(** ** The table of received sequence numbers *)

Definition A (bit : Z) (tbl : list Z) : option Z := tbl !! Z.to_nat (Z.shiftr bit BITMAP_SHIFT).
Definition B (bit : Z) : Z := u64 (Z.shiftl 1 (Z.land bit (Z.shiftl 1 BITMAP_SHIFT - 1))).

(** [None] is an access outside the table. *)
Definition rcvd_set (seq : Z) (tbl : list Z) : option (list Z) :=
  let bit := seq mod MAX_DUP_CHK in
  match A bit tbl with
  | None => None
  | Some w => Some (<[Z.to_nat (Z.shiftr bit BITMAP_SHIFT) := Z.lor w (B bit)]> tbl)
  end.

Definition rcvd_clear (seq : Z) (tbl : list Z) : option (list Z) :=
  let bit := seq mod MAX_DUP_CHK in
  match A bit tbl with
  | None => None
  | Some w => Some (<[Z.to_nat (Z.shiftr bit BITMAP_SHIFT) := Z.land w (u64 (Z.lnot (B bit)))]> tbl)
  end.

Definition rcvd_test (seq : Z) (tbl : list Z) : option Z :=
  let bit := seq mod MAX_DUP_CHK in
  match A bit tbl with
  | None => None
  | Some w => Some (Z.land w (B bit))
  end.

(** ** The window of outstanding probes *)

Definition in_flight (s : ping) : Z :=
  let diff := u16 (u16 (ntransmitted s) - acked s) in
  if diff <=? 0x7FFF then diff else s32 (ntransmitted s - nreceived s - nerrors s).

Definition acknowledge (seq : Z) (s : ping) : ping :=
  let diff := u16 (u16 (ntransmitted s) - seq) in
  if diff <=? 0x7FFF then
    let s := if pipesize s <? diff + 1 then set_pipesize (diff + 1) s else s in
    if (0 <? s16 (seq - acked s)) || (0x7FFF <? u16 (ntransmitted s) - acked s)
    then set_acked seq s else s
  else s.

Definition advance_ntransmitted (s : ping) : ping :=
  let s := set_ntransmitted (ntransmitted s + 1) s in
  if 0x7FFF <? u16 (ntransmitted s) - acked s
  then set_acked (u16 (u16 (ntransmitted s) + 1)) s else s.

(** ** Intervals *)

Definition update_interval (c : config) (s : ping) : ping :=
  let est := if negb (rtt s =? 0) then s32 (Z.quot (rtt s) 8) else s32 (interval s * 1000) in
  let i := Z.quot (s32 (est + rtt_addend s + 500)) 1000 in
  set_interval (if negb (uid c =? 0) && (i <? MINUSERINTERVAL) then MINUSERINTERVAL else i) s.

(** [__schedule_exit]: the delay, and the state with [waittime]; the timer it
    starts is set to [waittime] microseconds. *)
Definition schedule_exit_slow (c : config) (next : Z) (s : ping) : Z * ping :=
  if negb (waittime s =? 0) then (next, s)
  else
    let w := if negb (nreceived s =? 0) then
               let w := u64 (2 * tmax s) in
               if w <? u64 (s32 (1000 * interval s)) then u64 (s32 (1000 * interval s)) else w
             else u64 (s32 (lingertime c * 1000)) in
    let next := if (next <? 0) || (next <? w / 1000) then s32 (w / 1000) else next in
    (next, set_waittime w s).

Definition schedule_exit (c : config) (next : Z) (s : ping) : Z * ping :=
  if negb (npackets c =? 0) && (npackets c <=? ntransmitted s) && (deadline c =? 0)
  then schedule_exit_slow c next s else (next, s).

(** ** The functions of a protocol

    [ping_func_set_st]: what IPv4 and IPv6 do each in its way. *)

(** What the error queue of the socket holds: an error of this host, or an ICMP
    error about the packet whose first bytes are given. *)
Inductive queued :=
  | LocalError
  | IcmpError (target : Z) (icmph : list Z)
  | OtherError.

(** A packet received: the buffer after its arrival, the number of bytes, the
    time of arrival, and the clock when it is read again.  A datagram socket
    has the options in a control message: the memory from its data on, and
    [cmsg_len]. *)
Record message := mkMessage {
  msg_buf : list Z;
  msg_cc : Z;
  msg_retopts : option (list Z * Z);
  msg_time : timespec;
  msg_clock : timespec
}.

(** What is said about a packet. *)
Inductive shown :=
  | Silent
  | Flooded (bad : bool)
  | Truncated
  | Line (time : option (Z * Z)) (dup bad : bool) (wrong : option (Z * Z * Z))
  | Other.

Class FuncSet := {
  (** From the clock and the result of the system call: the result and the new
      state. *)
  send_probe : config -> timespec -> Z -> ping -> option (Z * ping);
  (** The result and [errno]. *)
  receive_error_msg : config -> option queued -> Z -> ping -> option (Z * Z * ping);
  (** Whether the packet was for someone else. *)
  parse_reply : config -> message -> ping -> option (bool * shown * ping)
}.

(** ** pinger *)

Definition ENOMEM : Z := 12.
Definition EAGAIN : Z := 11.
Definition EINVAL : Z := 22.
Definition ENOBUFS : Z := 105.

(** One call of [send_probe]: the clock, the result of the system call and
    [errno], and the error queue when it is looked at. *)
Record attempt := mkAttempt { at_clock : timespec; at_sent : Z; at_errno : Z; at_queue : option queued }.

Inductive next_probe :=
  | Next (ms : Z)          (* when to be called again *)
  | Aborted.               (* abort() *)

(** After a hard local error: the probe counts as sent. *)
Definition hard_local_error (s : ping) : next_probe * ping :=
  let s := set_tokens 0 (advance_ntransmitted s) in (Next (SCHINT (interval s)), s).

(** The device queue is full: the bucket is emptied, the interval may grow, and
    the delay before the next attempt is chosen. *)
Definition no_buffers (c : config) (s : ping) : Z * ping :=
  let s := set_tokens 0 s in
  let s := set_rtt_addend (s32 (rtt_addend s + (if rtt s <? 8 * 50000 then Z.quot (rtt s) 8 else 50000))) s in
  let s := if has s F_ADAPTIVE then update_interval c s else s in
  let nores := Z.min (SCHINT (Z.quot (interval s) 2)) 500 in
  (nores, set_oom_count (s32 (oom_count s + 1)) s).

Section Pinger.
Context {F : FuncSet}.

(** From [resend:] on.  [None] when more answers of the system are needed, or
    when the memory is not what the code takes it for. *)
Fixpoint send_loop (c : config) (sys : list attempt) (s : ping) : option (next_probe * ping) :=
  match sys with
  | [] => None
  | a :: sys' =>
      match send_probe c (at_clock a) (at_sent a) s with
      | None => None
      | Some (i, s) =>
          if i =? 0 then
            let s := advance_ntransmitted (set_oom_count 0 s) in
            Some (Next (s32 (interval s - tokens s)), s)
          else if 0 <? i then Some (Aborted, s)
          else if (at_errno a =? ENOBUFS) || (at_errno a =? ENOMEM) then
            let '(nores, s) := no_buffers c s in
            if s32 (oom_count s * nores) <? lingertime c then Some (Next nores, s)
            else Some (hard_local_error s)
          else if at_errno a =? EAGAIN then
            Some (Next MININTERVAL, set_tokens (s32 (tokens s + interval s)) s)
          else
            match receive_error_msg c (at_queue a) (at_errno a) s with
            | None => None
            | Some (r, errno, s) =>
                if 0 <? r then Some (hard_local_error s)
                else
                  let '(errno, s) :=
                    if (r =? 0) && negb (confirm_flag s =? 0) && (errno =? EINVAL)
                    then (0, set_confirm_flag 0 s) else (errno, s) in
                  if errno =? 0 then send_loop c sys' s else Some (hard_local_error s)
            end
      end
  end.

(** Whether [pinger] has sent enough. *)
Definition sent_enough (c : config) (s : ping) : bool :=
  exiting s || (negb (npackets c =? 0) && (npackets c <=? ntransmitted s) && (deadline c =? 0)).

(** The tokens [pinger] has for this probe: [inl] when it is too early. *)
Definition take_tokens (c : config) (now : timespec) (s : ping) : Z + ping :=
  if tv_sec (cur_time s) =? 0 then
    inr (set_tokens (s32 (interval s * (preload c - 1))) (set_cur_time now s))
  else
    let ntokens := (tv_sec now - tv_sec (cur_time s)) * 1000
                   + Z.quot (tv_nsec now - tv_nsec (cur_time s)) 1000000 in
    if (interval s =? 0) && (ntokens <? MININTERVAL) && (preload c <=? in_flight s)
    then inl (MININTERVAL - ntokens)
    else
      let ntokens := ntokens + tokens s in
      let ntokens := Z.min ntokens (s32 (interval s * preload c)) in
      if ntokens <? interval s then inl (interval s - ntokens)
      else inr (set_tokens (ntokens - interval s) (set_cur_time now s)).

Definition pinger (c : config) (now : timespec) (sys : list attempt) (s : ping) : option (next_probe * ping) :=
  if sent_enough c s then Some (Next 1000, s)
  else
    match take_tokens c now s with
    | inl ms => Some (Next (s32 ms), s)
    | inr s => send_loop c sys s
    end.

End Pinger.

(** ** gather_statistics *)

(** The round trip time: the time stamp of the packet is subtracted from the
    time of its arrival; if that is negative, the clock is read again
    ([now]) and the latency mode is entered. *)
Definition triptime (tv sent now : timespec) (s : ping) : Z * ping :=
  let time (t : timespec) := s64 (tv_sec t * 1000000000 + tv_nsec t) in
  let t := time (tvsub tv sent) in
  if t <? 0 then
    if has s F_LATENCY then (0, s)
    else
      let s := set_options (Z.lor (options s) F_LATENCY) s in
      let t := time (tvsub now sent) in ((if t <? 0 then 0 else t), s)
  else (t, s).

(** The sums. *)
Definition account (c : config) (t : Z) (s : ping) : ping :=
  let s := set_tsum (u64 (tsum s + t)) s in
  let s := set_tsum2 (u64 (tsum2 s + t * t)) s in
  let s := if t <? tmin s then set_tmin t s else s in
  let s := if tmax s <? t then set_tmax t s else s in
  let s := if rtt s =? 0 then set_rtt (t * 8) s else set_rtt (rtt s + (t - Z.quot (rtt s) 8)) s in
  if has s F_ADAPTIVE then update_interval c s else s.

(** The [n] bytes from byte 16 of the data on are compared with those sent: the
    first that differs, the one sent and the one received. *)
Fixpoint wrong_data (n : nat) (i : Z) (cp dp : list Z) : option (option (Z * Z * Z)) :=
  match n with
  | O => Some None
  | S n' =>
      match cp, dp with
      | x :: cp', y :: dp' => if x =? y then wrong_data n' (i + 1) cp' dp' else Some (Some (i, y, x))
      | _, _ => None
      end
  end.

Definition check_data (c : config) (ptr : list Z) (s : ping) : option (option (Z * Z * Z)) :=
  wrong_data (Z.to_nat (datalen c - 16)) 16 (drop 16 ptr) (drop 24 (outpack s)).

(** What is printed about a reply. *)
Definition show_reply (c : config) (ptr : list Z) (cc triptime : Z) (dup csfailed : bool) (s : ping) : option shown :=
  if has s F_QUIET then Some Silent
  else if has s F_FLOOD then Some (Flooded csfailed)
  else if cc <? datalen c + 8 then Some Truncated
  else
    match check_data c ptr s with
    | None => None
    | Some wrong =>
        Some (Line (if timing c then Some (Z.quot triptime 1000000, Z.rem triptime 1000000) else None) dup csfailed wrong)
    end.

(** A reply of [cc] bytes is counted and its time noted; [ptr] is what follows
    the header of the ICMP packet in memory, [tv] the time it arrived. *)
Definition noted (c : config) (ptr : list Z) (cc seq : Z) (csfailed : bool) (tv now : timespec) (s : ping) : option (Z * ping) :=
  let s := set_nreceived (nreceived s + 1) s in
  let s := if csfailed then s else acknowledge seq s in
  if timing c && (8 + 16 <=? cc) then
    match decode_time ptr with
    | None => None
    | Some sent =>
        let '(t, s) := triptime tv sent now s in
        Some (t, if csfailed then s else account c t s)
    end
  else Some (0, s).

(** Good, corrupt or repeated: the table is looked at. *)
Definition filed (seq : Z) (csfailed : bool) (s : ping) : option (bool * ping) :=
  if csfailed then
    Some (false, set_nreceived (nreceived s - 1) (set_nchecksum (nchecksum s + 1) s))
  else
    match rcvd_test seq (rcvd_tbl s) with
    | None => None
    | Some b =>
        if negb (b =? 0) then
          Some (true, set_nreceived (nreceived s - 1) (set_nrepeats (nrepeats s + 1) s))
        else
          match rcvd_set seq (rcvd_tbl s) with
          | None => None
          | Some tbl => Some (false, set_rcvd_tbl tbl s)
          end
    end.

Definition gather_statistics (c : config) (ptr : list Z) (cc seq : Z) (csfailed : bool) (tv now : timespec) (s : ping)
    : option (shown * ping) :=
  match noted c ptr cc seq csfailed tv now s with
  | None => None
  | Some (t, s) =>
      match filed seq csfailed s with
      | None => None
      | Some (dup, s) =>
          let s := set_confirm (confirm_flag s) s in
          match show_reply c ptr cc t dup csfailed s with
          | None => None
          | Some shown => Some (shown, s)
          end
      end
  end.

(** Its result is 1 when the caller has nothing to add. *)
Definition gathered (sh : shown) : bool :=
  match sh with Silent | Truncated => true | _ => false end.

(** ** The report *)

(** The loop of [llsqrt]; it runs [2^k] times at most. *)
Fixpoint llsqrt_loop (k : nat) (a : Z) (st : (Z * Z) + Z) : (Z * Z) + Z :=
  match st with
  | inr x => inr x
  | inl (prev, x) =>
      match k with
      | O => if x <? prev then inl (x, (x + a / x) / 2) else inr x
      | S k' => llsqrt_loop k' a (llsqrt_loop k' a st)
      end
  end.

Definition llsqrt (a : Z) : option Z :=
  if 0 <? a then
    match llsqrt_loop 63 a (inl (2 ^ 63 - 1, a)) with inr x => Some x | inl _ => None end
  else Some a.

(** The numbers [finish] prints. *)
Record report := mkReport {
  rp_average : Z;
  rp_mdev : Z;
  rp_loss_num : Z;       (* packet loss, in percent, is this number ... *)
  rp_loss_den : Z;       (* ... divided by this one *)
  rp_time_ms : Z;
  rp_exit : bool         (* exit status 1 *)
}.

Definition finish (c : config) (start_time : timespec) (s : ping) : option report :=
  let tv := tvsub (cur_time s) start_time in
  let n := nreceived s + nrepeats s in
  let avg := if negb (nreceived s =? 0) && timing c then tsum s / n else tsum s in
  let avg2 := if negb (nreceived s =? 0) && timing c then tsum2 s / n else tsum2 s in
  match (if negb (nreceived s =? 0) && timing c then llsqrt (s64 (u64 (avg2 - u64 (avg * avg)))) else Some 0) with
  | None => None
  | Some mdev =>
      Some (mkReport avg mdev ((ntransmitted s - nreceived s) * 100) (ntransmitted s)
              (Z.quot (1000000000 * tv_sec tv + tv_nsec tv + 500000) 1000000)
              ((nreceived s =? 0) || (negb (deadline c =? 0) && (nreceived s <? npackets c))))
  end.

(** [status]: the loss in percent and the average. *)
Definition status (c : config) (s : ping) : Z * Z :=
  (if negb (ntransmitted s =? 0)
   then s32 (Z.quot ((ntransmitted s - nreceived s) * 100) (ntransmitted s)) else 0,
   if negb (nreceived s =? 0) && timing c then tsum s / (nreceived s + nrepeats s) else 0).
