(* ===== verification/PingSpec.v ===== *)
(** * What the engine of ping computes

    The table is a set of sequence numbers, the window a pair of counters, the
    statistics the sums over the replies; [llsqrt] is an integer square
    root. *)

From Stdlib Require Import ZArith Lia.
From stdpp Require Import base gmap numbers option list.
From S2P Require Import Prelude Ping.

Local Open Scope Z_scope.

(** ** The table as a set *)

Definition table_ok (tbl : list Z) : Prop := length tbl = 1024%nat /\ Forall (in_u 64) tbl.

Definition marked (tbl : list Z) (seq : Z) : bool :=
  Z.testbit (tbl !!! Z.to_nat (seq / 64)) (seq mod 64).

Lemma word_index bit : 0 <= bit < MAX_DUP_CHK -> (Z.to_nat (bit / 64) < 1024)%nat.
Proof. unfold MAX_DUP_CHK. intros H. assert (bit / 64 < 1024) by (apply Z.div_lt_upper_bound; lia). lia. Qed.

Lemma B_pow bit : 0 <= bit -> B bit = 2 ^ (bit mod 64).
Proof.
  intros H. unfold B, BITMAP_SHIFT. change (Z.shiftl 1 6 - 1) with (Z.ones 6). rewrite Z.land_ones by lia.
  rewrite Z.shiftl_1_l. change (2 ^ 6) with 64. pose proof (Z.mod_pos_bound bit 64 ltac:(lia)).
  apply wrapu_id. split; [lia|]. apply Z.pow_lt_mono_r; lia.
Qed.

Lemma A_word bit tbl : table_ok tbl -> 0 <= bit < MAX_DUP_CHK ->
  A bit tbl = Some (tbl !!! Z.to_nat (bit / 64)) /\ in_u 64 (tbl !!! Z.to_nat (bit / 64)).
Proof.
  intros [Hl Hw] Hb. unfold A, BITMAP_SHIFT. rewrite Z.shiftr_div_pow2 by lia. change (2 ^ 6) with 64.
  destruct (lookup_lt_is_Some_2 tbl (Z.to_nat (bit / 64))) as [w Hx]; [rewrite Hl; by apply word_index|].
  rewrite (list_lookup_total_correct _ _ _ Hx). split; [done|]. by apply (Forall_lookup_1 _ _ _ _ Hw Hx).
Qed.

Lemma split_seq a b : 0 <= a -> 0 <= b -> a / 64 = b / 64 -> a mod 64 = b mod 64 -> a = b.
Proof. intros Ha Hb Hd Hm. rewrite (Z.div_mod a 64), (Z.div_mod b 64), Hd, Hm by lia. done. Qed.

Section Table.
Context (tbl : list Z) (seq : Z) (Htbl : table_ok tbl) (Hseq : 0 <= seq < MAX_DUP_CHK).

Lemma rcvd_test_run : exists b, rcvd_test seq tbl = Some b /\ negb (b =? 0) = marked tbl seq.
Proof.
  unfold rcvd_test. rewrite Z.mod_small by done. destruct (A_word seq tbl Htbl Hseq) as [-> Hw].
  eexists. split; [reflexivity|]. rewrite B_pow by lia. unfold marked.
  set (w := tbl !!! _) in *. pose proof (Z.mod_pos_bound seq 64 ltac:(lia)) as Hm.
  destruct (Z.testbit w (seq mod 64)) eqn:E; [destruct (Z.eqb_spec (Z.land w (2 ^ (seq mod 64))) 0) as [H|]; [|done]
    |apply Bool.negb_false_iff, Z.eqb_eq].
  - exfalso. assert (Z.testbit (Z.land w (2 ^ (seq mod 64))) (seq mod 64) = false) as Ht by (rewrite H; apply Z.bits_0).
    rewrite Z.land_spec, E, Z.pow2_bits_true in Ht by lia. done.
  - apply Z.bits_inj'. intros n Hn. rewrite Z.land_spec, Z.bits_0. destruct (Z.eq_dec n (seq mod 64)) as [->|Hne]; [by rewrite E|].
    rewrite Z.pow2_bits_false by lia. apply andb_false_r.
Qed.

(** Replacing the word of [seq]. *)
Lemma marked_insert w q : 0 <= q < MAX_DUP_CHK ->
  marked (<[Z.to_nat (seq / 64) := w]> tbl) q
  = if decide (q / 64 = seq / 64) then Z.testbit w (q mod 64) else marked tbl q.
Proof.
  intros Hq. unfold marked. destruct Htbl as [Hl _]. destruct (decide (q / 64 = seq / 64)) as [E|E].
  - rewrite E, list_lookup_total_insert_eq; [done|]. rewrite Hl. by apply word_index.
  - rewrite list_lookup_total_insert_ne; [done|]. intros H. apply E. apply Z2Nat.inj; [apply Z.div_pos; lia..|done].
Qed.

Lemma table_insert w : in_u 64 w -> table_ok (<[Z.to_nat (seq / 64) := w]> tbl).
Proof. intros Hw. destruct Htbl as [Hl Hf]. split; [by rewrite length_insert|]. by apply Forall_insert. Qed.

Lemma rcvd_set_run : exists tbl', rcvd_set seq tbl = Some tbl' /\ table_ok tbl'
  /\ forall q, 0 <= q < MAX_DUP_CHK -> marked tbl' q = bool_decide (q = seq) || marked tbl q.
Proof.
  unfold rcvd_set. rewrite Z.mod_small by done. destruct (A_word seq tbl Htbl Hseq) as [-> Hw].
  unfold BITMAP_SHIFT. rewrite Z.shiftr_div_pow2, B_pow by lia. change (2 ^ 6) with 64.
  pose proof (Z.mod_pos_bound seq 64 ltac:(lia)) as Hm.
  eexists. split; [reflexivity|]. split.
  - apply table_insert. destruct Hw as [H1 H2]. split; [apply Z.lor_nonneg; split; [done|apply Z.pow_nonneg; lia]|].
    apply Z.log2_lt_cancel. rewrite Z.log2_pow2, Z.log2_lor by (try apply Z.pow_nonneg; lia).
    rewrite Z.log2_pow2 by lia. apply Z.max_lub_lt; [|lia].
    destruct (Z.eq_dec (tbl !!! Z.to_nat (seq / 64)) 0) as [->|]; [cbn; lia|]. apply Z.log2_lt_pow2; lia.
  - intros q Hq. rewrite marked_insert by done. pose proof (Z.mod_pos_bound q 64 ltac:(lia)) as Hmq.
    destruct (decide (q / 64 = seq / 64)) as [E|E].
    + unfold marked. rewrite Z.lor_spec, E. destruct (bool_decide_reflect (q = seq)) as [->|Hne].
      * rewrite Z.pow2_bits_true by lia. apply orb_true_r.
      * rewrite Z.pow2_bits_false by (intros H; apply Hne; apply split_seq; lia). by rewrite orb_false_r.
    + rewrite bool_decide_false by (by intros ->). done.
Qed.

Lemma rcvd_clear_run : exists tbl', rcvd_clear seq tbl = Some tbl' /\ table_ok tbl'
  /\ forall q, 0 <= q < MAX_DUP_CHK -> marked tbl' q = negb (bool_decide (q = seq)) && marked tbl q.
Proof.
  unfold rcvd_clear. rewrite Z.mod_small by done. destruct (A_word seq tbl Htbl Hseq) as [-> Hw].
  unfold BITMAP_SHIFT. rewrite Z.shiftr_div_pow2, B_pow by lia. change (2 ^ 6) with 64.
  pose proof (Z.mod_pos_bound seq 64 ltac:(lia)) as Hm. set (w := tbl !!! _) in *.
  eexists. split; [reflexivity|]. split.
  - apply table_insert. destruct Hw as [H1 H2]. split; [apply Z.land_nonneg; by left|].
    destruct (Z.eq_dec (Z.land w (u64 (Z.lnot (2 ^ (seq mod 64))))) 0) as [->|Hne]; [done|].
    apply Z.log2_lt_cancel. rewrite Z.log2_pow2 by lia.
    apply Z.le_lt_trans with (Z.log2 w); [|destruct (Z.eq_dec w 0) as [->|]; [cbn; lia|apply Z.log2_lt_pow2; lia]].
    etransitivity; [apply Z.log2_land; [done|apply wrapu_range; lia]|]. lia.
  - intros q Hq. rewrite marked_insert by done. pose proof (Z.mod_pos_bound q 64 ltac:(lia)) as Hmq.
    assert (Hb : forall n, 0 <= n < 64 -> Z.testbit (u64 (Z.lnot (2 ^ (seq mod 64)))) n = negb (n =? seq mod 64)).
    { intros n Hn. unfold wrapu. rewrite Z.mod_pow2_bits_low, Z.lnot_spec by lia.
      destruct (Z.eqb_spec n (seq mod 64)) as [->|]; [by rewrite Z.pow2_bits_true by lia|by rewrite Z.pow2_bits_false by lia]. }
    destruct (decide (q / 64 = seq / 64)) as [E|E].
    + unfold marked. rewrite Z.land_spec, Hb, E by done. fold w. destruct (bool_decide_reflect (q = seq)) as [->|Hne].
      * by rewrite Z.eqb_refl, andb_false_r.
      * rewrite (proj2 (Z.eqb_neq _ _)) by (intros H; apply Hne; apply split_seq; lia). by rewrite andb_true_r.
    + rewrite bool_decide_false by (by intros ->). done.
Qed.
End Table.

(** ** The square root *)

Definition sqrt_step (a : Z) (st : (Z * Z) + Z) : (Z * Z) + Z :=
  match st with
  | inr x => inr x
  | inl (prev, x) => if x <? prev then inl (x, (x + a / x) / 2) else inr x
  end.

Lemma iter_inr a n x : Nat.iter n (sqrt_step a) (inr x) = inr x.
Proof. induction n as [|n IH]; [done|]. by rewrite Nat.iter_succ, IH. Qed.

Lemma llsqrt_loop_iter a k : forall st, llsqrt_loop k a st = Nat.iter (2 ^ k) (sqrt_step a) st.
Proof.
  induction k as [|k IH]; intros [[prev x]|x]; try (by rewrite iter_inr); [done|].
  cbn [llsqrt_loop]. rewrite !IH. rewrite Nat.pow_succ_r'. replace (2 * 2 ^ k)%nat with (2 ^ k + 2 ^ k)%nat by lia.
  by rewrite Nat.iter_add.
Qed.

Lemma newton_below a x : 0 < a -> 0 < x -> Z.sqrt a <= (x + a / x) / 2.
Proof.
  intros Ha Hx. pose proof (Z.sqrt_spec a ltac:(lia)) as [H1 _]. set (s := Z.sqrt a) in *.
  assert (0 <= s) by apply Z.sqrt_nonneg. apply Z.div_le_lower_bound; [lia|].
  pose proof (Z.div_mod a x ltac:(lia)). pose proof (Z.mod_pos_bound a x Hx). set (q := a / x) in *.
  assert (0 <= q) by (apply Z.div_pos; lia). destruct (Z.le_gt_cases (2 * s) (x + q)) as [|Hgt]; [done|exfalso].
  assert (4 * (s * s) < 4 * (x * (q + 1))) by nia.
  assert (4 * (x * (q + 1)) <= (x + q + 1) * (x + q + 1)) by (pose proof (Z.square_nonneg (x - (q + 1))); nia).
  assert ((x + q + 1) * (x + q + 1) <= (2 * s) * (2 * s)) by nia. lia.
Qed.

Lemma newton_above a x : 0 < a -> Z.sqrt a < x -> (x + a / x) / 2 < x.
Proof.
  intros Ha Hx. pose proof (Z.sqrt_spec a ltac:(lia)) as [_ H2]. pose proof (Z.sqrt_nonneg a).
  assert (a / x < x) by (apply Z.div_lt_upper_bound; nia). apply Z.div_lt_upper_bound; lia.
Qed.

Lemma newton_root a : 0 < a -> (Z.sqrt a + a / Z.sqrt a) / 2 = Z.sqrt (a + 1).
Proof.
  intros Ha. pose proof (Z.sqrt_spec a ltac:(lia)) as [H1 H2].
  assert (Hs : 0 < Z.sqrt a) by (apply Z.sqrt_pos; lia). set (s := Z.sqrt a) in *.
  destruct (Z.eq_dec (a + 1) (Z.succ s * Z.succ s)) as [E|E].
  - rewrite E, Z.sqrt_square by lia. replace (a / s) with (s + 2).
    + symmetry. apply Z.div_unique with 0; lia.
    + apply Z.div_unique with 0; lia.
  - assert (Es : Z.sqrt (a + 1) = s) by (apply Z.sqrt_unique; lia). rewrite Es.
    assert (Hq : s <= a / s <= s + 1).
    { split; [apply Z.div_le_lower_bound; lia|]. apply Z.lt_succ_r. apply Z.div_lt_upper_bound; nia. }
    symmetry. apply Z.div_unique with (a / s - s); lia.
Qed.

Lemma sqrt_iter a n : forall prev x, 0 < a -> Z.sqrt a <= x < prev -> x - Z.sqrt a + 2 <= Z.of_nat n ->
  Nat.iter n (sqrt_step a) (inl (prev, x)) = inr (Z.sqrt (a + 1)).
Proof.
  induction n as [|n IH]; intros prev x Ha Hx Hn; [lia|].
  assert (Hs : 0 < Z.sqrt a) by (apply Z.sqrt_pos; lia).
  rewrite Nat.iter_succ_r. cbn [sqrt_step]. rewrite (proj2 (Z.ltb_lt _ _)) by lia.
  destruct (Z.eq_dec x (Z.sqrt a)) as [->|Hne].
  - rewrite newton_root by done. destruct n as [|n]; [lia|]. rewrite Nat.iter_succ_r. cbn [sqrt_step].
    rewrite (proj2 (Z.ltb_ge _ _)); [apply iter_inr|]. apply Z.sqrt_le_mono. lia.
  - apply IH; [done| |].
    + split; [apply newton_below; lia|apply newton_above; lia].
    + pose proof (newton_above a x Ha ltac:(lia)). lia.
Qed.

Lemma llsqrt_run a : 0 < a < 2 ^ 63 - 1 -> llsqrt a = Some (Z.sqrt (a + 1)).
Proof.
  intros Ha. unfold llsqrt. rewrite (proj2 (Z.ltb_lt _ _)) by lia. rewrite llsqrt_loop_iter.
  assert (Hn : Z.of_nat (2 ^ 63) = 2 ^ 63) by (rewrite Nat2Z.inj_pow; reflexivity).
  revert Hn. generalize (2 ^ 63)%nat. intros n Hn. rewrite sqrt_iter; [done|lia| |].
  - split; [|lia]. apply Z.sqrt_le_lin. lia.
  - assert (0 < Z.sqrt a) by (apply Z.sqrt_pos; lia). destruct (Z.eq_dec a 1) as [->|]; [cbn; lia|].
    pose proof (Z.sqrt_lt_lin a ltac:(lia)). rewrite Hn. lia.
Qed.

(** ** The window *)

(** [a] is the number of the last acknowledged probe, without the reduction to
    16 bits. *)
Definition window (a : Z) (s : ping) : Prop := acked s = u16 a /\ 0 <= ntransmitted s - a <= 0x7FFF.

Lemma u16_diff n a : 0 <= n - a <= 0x7FFF ->
  u16 (u16 n - u16 a) = n - a /\ u16 n - u16 a <= 0x7FFF.
Proof.
  intros H. split.
  - unfold wrapu. rewrite <- Zminus_mod. apply Z.mod_small. lia.
  - unfold wrapu. change (2 ^ 16) with 65536.
    pose proof (Z.mod_pos_bound n 65536 ltac:(lia)). pose proof (Z.mod_pos_bound a 65536 ltac:(lia)).
    pose proof (Z.div_mod n 65536 ltac:(lia)). pose proof (Z.div_mod a 65536 ltac:(lia)).
    assert (n / 65536 = a / 65536 \/ n / 65536 = a / 65536 + 1) as [E|E]; [|rewrite E in *; lia|rewrite E in *; lia].
    assert (a / 65536 <= n / 65536) by (apply Z.div_le_mono; lia).
    assert (n / 65536 <= (a + 65536) / 65536) by (apply Z.div_le_mono; lia).
    replace (a + 65536) with (a + 1 * 65536) in * by lia. rewrite Z.div_add in * by lia. lia.
Qed.

Lemma in_flight_run a s : window a s -> in_flight s = ntransmitted s - a.
Proof.
  intros [Ha Hw]. unfold in_flight. rewrite Ha. destruct (u16_diff (ntransmitted s) a Hw) as [-> _].
  by rewrite (proj2 (Z.leb_le _ _)) by lia.
Qed.

Lemma acknowledge_run a m s : window a s -> 0 <= ntransmitted s - m <= 0x7FFF ->
  window (Z.max a m) (acknowledge (u16 m) s)
  /\ pipesize (acknowledge (u16 m) s) = Z.max (pipesize s) (ntransmitted s - m + 1).
Proof.
  intros [Ha Hw] Hm. unfold acknowledge. destruct (u16_diff (ntransmitted s) m Hm) as [-> _].
  rewrite (proj2 (Z.leb_le _ _)) by lia.
  set (s1 := if pipesize s <? ntransmitted s - m + 1 then set_pipesize (ntransmitted s - m + 1) s else s).
  assert (E1 : acked s1 = acked s) by (unfold s1; by destruct (_ <? _)).
  assert (E2 : ntransmitted s1 = ntransmitted s) by (unfold s1; by destruct (_ <? _)).
  assert (E3 : pipesize s1 = Z.max (pipesize s) (ntransmitted s - m + 1)).
  { unfold s1. destruct (Z.ltb_spec (pipesize s) (ntransmitted s - m + 1)); cbn; lia. }
  rewrite E1, E2, Ha. destruct (u16_diff (ntransmitted s) a Hw) as [_ H2]. rewrite (proj2 (Z.ltb_ge 0x7FFF _)), orb_false_r by lia.
  assert (E4 : s16 (u16 m - u16 a) = m - a).
  { rewrite (wraps_congr 16 _ (m - a)); [apply wraps_id; [lia|unfold in_s; lia]|]. unfold wrapu. by rewrite <- Zminus_mod. }
  rewrite E4. unfold window. destruct (Z.ltb_spec 0 (m - a)).
  - cbn [set_acked acked ntransmitted pipesize]. rewrite E2, E3. rewrite Z.max_r by lia. done.
  - rewrite E1, E2, E3, Ha, Z.max_l by lia. done.
Qed.

Lemma advance_run a s : window a s -> ntransmitted s + 1 - a <= 0x7FFF -> window a (advance_ntransmitted s).
Proof.
  intros [Ha Hw] Hn. unfold advance_ntransmitted. cbn [set_ntransmitted ntransmitted acked]. rewrite Ha.
  destruct (u16_diff (ntransmitted s + 1) a ltac:(lia)) as [_ H]. rewrite (proj2 (Z.ltb_ge 0x7FFF _)) by lia.
  split; [done|]. cbn. lia.
Qed.

Lemma advance_fields s : let s' := advance_ntransmitted s in
  ntransmitted s' = ntransmitted s + 1 /\ tokens s' = tokens s /\ interval s' = interval s
  /\ cur_time s' = cur_time s /\ options s' = options s /\ rcvd_tbl s' = rcvd_tbl s.
Proof. unfold advance_ntransmitted. cbv zeta. by destruct (_ <? _). Qed.

Lemma acknowledge_fields seq s : let s' := acknowledge seq s in
  ntransmitted s' = ntransmitted s /\ tokens s' = tokens s /\ interval s' = interval s /\ cur_time s' = cur_time s
  /\ options s' = options s /\ rcvd_tbl s' = rcvd_tbl s /\ nreceived s' = nreceived s /\ nrepeats s' = nrepeats s
  /\ nchecksum s' = nchecksum s /\ tsum s' = tsum s /\ tsum2 s' = tsum2 s /\ tmin s' = tmin s /\ tmax s' = tmax s
  /\ rtt s' = rtt s.
Proof.
  unfold acknowledge. cbv zeta. destruct (_ <=? _); [|by split_and!].
  destruct (pipesize s <? _); destruct (_ || _); by split_and!.
Qed.
