(* ===== verification/PingReply.v ===== *)
(** * What ping counts, and what a protocol promises to the engine

    The counters and the table of received numbers are a [tally]: the set of
    the numbers seen since they were last sent, the good, repeated and corrupt
    replies, and the round trip times.  [FuncSetLaws] is what the engine needs
    to know of the functions of a protocol. *)

From Stdlib Require Import ZArith Lia.
From stdpp Require Import base gmap numbers option list.
From S2P Require Import Prelude Ping PingSpec.

Local Open Scope Z_scope.

(** ** The abstract count *)

Record tally := mkTally { seen : gset Z; good : Z; dups : Z; bad : Z; times : list Z }.

Definition no_replies : tally := mkTally ∅ 0 0 0 [].

(** A probe is sent again under its number. *)
Definition tally_probe (seq : Z) (t : tally) : tally :=
  mkTally (seen t ∖ {[seq]}) (good t) (dups t) (bad t) (times t).

(** A reply: its number, whether its checksum is wrong, its round trip time. *)
Record reply := mkReply { re_seq : Z; re_bad : bool; re_time : option Z }.

Definition tally_reply (r : reply) (t : tally) : tally :=
  if re_bad r then mkTally (seen t) (good t) (dups t) (bad t + 1) (times t)
  else
    let dup := bool_decide (re_seq r ∈ seen t) in
    mkTally ({[re_seq r]} ∪ seen t) (if dup then good t else good t + 1) (if dup then dups t + 1 else dups t) (bad t)
      (option_list (re_time r) ++ times t).

Definition total (l : list Z) : Z := foldr Z.add 0 l.
Definition squares (l : list Z) : Z := foldr (fun x acc => x * x + acc) 0 l.
Definition smallest (l : list Z) : Z := foldr Z.min (2 ^ 63 - 1) l.
Definition largest (l : list Z) : Z := foldr Z.max 0 l.

Record tallies (s : ping) (t : tally) : Prop := {
  tl_seen : forall q, 0 <= q < MAX_DUP_CHK -> marked (rcvd_tbl s) q = bool_decide (q ∈ seen t);
  tl_good : nreceived s = good t;
  tl_dups : nrepeats s = dups t;
  tl_bad : nchecksum s = bad t;
  tl_sum : tsum s = u64 (total (times t));
  tl_squares : tsum2 s = u64 (squares (times t));
  tl_min : tmin s = smallest (times t);
  tl_max : tmax s = largest (times t)
}.

(** The counters of [s'] are those of [s]. *)
Definition same_counts (s s' : ping) : Prop :=
  rcvd_tbl s' = rcvd_tbl s /\ nreceived s' = nreceived s /\ nrepeats s' = nrepeats s /\ nchecksum s' = nchecksum s
  /\ tsum s' = tsum s /\ tsum2 s' = tsum2 s /\ tmin s' = tmin s /\ tmax s' = tmax s.

Lemma tallies_same s s' t : same_counts s s' -> tallies s t -> tallies s' t.
Proof. intros (E1 & E2 & E3 & E4 & E5 & E6 & E7 & E8) []. split; intros; congruence || (rewrite E1; auto). Qed.

(** ** What a packet says

    The account of a run is kept apart from the code: for every packet, the
    reply it stands for ([heard]), and for every reply the time it took
    ([trip]), are read off the packet, the time of its arrival and the clock. *)

Definition nanos (t : timespec) : Z := 1000000000 * tv_sec t + tv_nsec t.

(** The nanoseconds from [b] to [a], in a [long long]. *)
Definition elapsed (a b : timespec) : Z := s64 (nanos a - nanos b).

(** A reply: its number, whether its checksum is wrong, the time stamp in its
    data. *)
Record heard := mkHeard { he_seq : Z; he_bad : bool; he_stamp : option timespec }.

(** The round trip time of a probe stamped [sent] that came back at [tv].  If
    that is before it was sent, the clock is read instead, the first time; from
    then on ([late]) such a time is zero. *)
Definition trip (late : bool) (tv now sent : timespec) : Z :=
  if 0 <=? elapsed tv sent then elapsed tv sent else if late then 0 else Z.max 0 (elapsed now sent).

Record ledger := mkLedger { lg_late : bool; lg_tally : tally }.

(** A packet is entered once, if it is a reply. *)
Definition enter (m : message) (h : option heard) (g : ledger) : ledger :=
  match h with
  | None => g
  | Some h =>
      mkLedger (lg_late g || from_option (fun sent => elapsed (msg_time m) sent <? 0) false (he_stamp h))
        (tally_reply (mkReply (he_seq h) (he_bad h) (trip (lg_late g) (msg_time m) (msg_clock m) <$> he_stamp h)) (lg_tally g))
  end.

(** The state of ping agrees with the ledger. *)
Definition books (s : ping) (g : ledger) : Prop := tallies s (lg_tally g) /\ has s F_LATENCY = lg_late g.

Definition ledger_of (s : ping) (t : tally) : ledger := mkLedger (has s F_LATENCY) t.

(** ** What a reply leaves alone *)

Record received_only (s s' : ping) : Prop := {
  ro_ntransmitted : ntransmitted s' = ntransmitted s;
  ro_tokens : tokens s' = tokens s;
  ro_cur_time : cur_time s' = cur_time s;
  ro_outpack : outpack s' = outpack s;
  ro_adaptive : has s' F_ADAPTIVE = has s F_ADAPTIVE;
  ro_interval : has s F_ADAPTIVE = false -> interval s' = interval s
}.

Lemma received_only_refl s : received_only s s.
Proof. by split. Qed.

Lemma received_only_trans s1 s2 s3 : received_only s1 s2 -> received_only s2 s3 -> received_only s1 s3.
Proof.
  intros [A1 A2 A3 A4 A5 A6] [B1 B2 B3 B4 B5 B6]. split; try congruence. intros H. rewrite B6, A6; congruence.
Qed.

Lemma acknowledge_counts seq s : same_counts s (acknowledge seq s) /\ received_only s (acknowledge seq s).
Proof.
  unfold acknowledge. destruct (_ <=? _); [|by repeat split].
  destruct (pipesize s <? _); destruct (_ || _); by repeat split.
Qed.

Lemma land_lor_flag x f g : Z.land f g = 0 -> Z.land (Z.lor x f) g = Z.land x g.
Proof. intros H. rewrite Z.land_comm, Z.land_lor_distr_r, (Z.land_comm g f), H, Z.lor_0_r. apply Z.land_comm. Qed.

Lemma triptime_run tv sent now s : let '(t, s') := triptime tv sent now s in
  0 <= t < 2 ^ 63 /\ same_counts s s' /\ received_only s s'.
Proof.
  unfold triptime. assert (Hr : forall z, in_s 64 (s64 z)) by (intros z; apply wraps_range; lia).
  set (t1 := s64 _). assert (H1 := Hr _ : in_s 64 t1). unfold in_s in H1. clearbody t1.
  destruct (Z.ltb_spec t1 0); [|split; [lia|by repeat split]].
  destruct (has s F_LATENCY); [split; [lia|by repeat split]|].
  set (t2 := s64 _). assert (H2 := Hr _ : in_s 64 t2). unfold in_s in H2. clearbody t2.
  split; [destruct (Z.ltb_spec t2 0); lia|]. split; [by repeat split|].
  split; try done. unfold has. cbn [set_options options]. by rewrite land_lor_flag.
Qed.

Lemma tvsub_nanos a b : tv_sec (tvsub a b) * 1000000000 + tv_nsec (tvsub a b) = nanos a - nanos b.
Proof. unfold tvsub, nanos. destruct (_ <? 0); cbn [tv_sec tv_nsec]; lia. Qed.

(** The time [triptime] gives is the one of the account. *)
Lemma triptime_trip tv sent now s :
  fst (triptime tv sent now s) = trip (has s F_LATENCY) tv now sent
  /\ has (snd (triptime tv sent now s)) F_LATENCY = has s F_LATENCY || (elapsed tv sent <? 0).
Proof.
  unfold triptime, trip. rewrite !tvsub_nanos. fold (elapsed tv sent) (elapsed now sent). rewrite Z.leb_antisym.
  destruct (elapsed tv sent <? 0); cbn [negb]; [|cbn [fst snd]; by rewrite orb_false_r].
  destruct (has s F_LATENCY) eqn:E; [cbn [fst snd orb]; by rewrite E|]. cbn [fst snd orb]. split.
  - destruct (Z.ltb_spec (elapsed now sent) 0); lia.
  - unfold has. cbn [set_options options]. rewrite Z.land_lor_distr_l, Z.land_diag. apply negb_true_iff, Z.eqb_neq.
    intros H%Z.lor_eq_0_iff. destruct H as [_ H]. discriminate H.
Qed.

Lemma trip_range late tv now sent : 0 <= trip late tv now sent < 2 ^ 63.
Proof.
  unfold trip. assert (Hr : forall z, in_s 64 (s64 z)) by (intros z; apply wraps_range; lia).
  assert (H1 := Hr _ : in_s 64 (elapsed tv sent)). assert (H2 := Hr _ : in_s 64 (elapsed now sent)). unfold in_s in H1, H2.
  destruct (Z.leb_spec 0 (elapsed tv sent)); [lia|]. destruct late; lia.
Qed.

Lemma update_interval_counts c s : same_counts s (update_interval c s)
  /\ (has s F_ADAPTIVE = true -> received_only s (update_interval c s)).
Proof. split; [by repeat split|]. intros H. split; try done. by rewrite H. Qed.

(** The sums with one more time. *)
Lemma account_run c t s :
  let s' := account c t s in
  received_only s s' /\ rcvd_tbl s' = rcvd_tbl s /\ nreceived s' = nreceived s /\ nrepeats s' = nrepeats s
  /\ nchecksum s' = nchecksum s /\ tsum s' = u64 (tsum s + t) /\ tsum2 s' = u64 (tsum2 s + t * t)
  /\ tmin s' = Z.min t (tmin s) /\ tmax s' = Z.max t (tmax s).
Proof.
  unfold account. cbv zeta.
  set (s1 := set_tsum2 _ _). assert (A : received_only s s1 /\ rcvd_tbl s1 = rcvd_tbl s /\ nreceived s1 = nreceived s
    /\ nrepeats s1 = nrepeats s /\ nchecksum s1 = nchecksum s /\ tsum s1 = u64 (tsum s + t) /\ tsum2 s1 = u64 (tsum2 s + t * t)
    /\ tmin s1 = tmin s /\ tmax s1 = tmax s) by (by repeat split).
  destruct A as (A0 & A1 & A2 & A3 & A4 & A5 & A6 & A7 & A8). clearbody s1.
  set (s2 := if t <? tmin s1 then _ else _). assert (B : received_only s1 s2 /\ rcvd_tbl s2 = rcvd_tbl s1 /\ nreceived s2 = nreceived s1
    /\ nrepeats s2 = nrepeats s1 /\ nchecksum s2 = nchecksum s1 /\ tsum s2 = tsum s1 /\ tsum2 s2 = tsum2 s1
    /\ tmin s2 = Z.min t (tmin s1) /\ tmax s2 = tmax s1).
  { unfold s2. destruct (Z.ltb_spec t (tmin s1)); repeat split; cbn; lia. }
  destruct B as (B0 & B1 & B2 & B3 & B4 & B5 & B6 & B7 & B8). clearbody s2.
  set (s3 := if tmax s2 <? t then _ else _). assert (C : received_only s2 s3 /\ rcvd_tbl s3 = rcvd_tbl s2 /\ nreceived s3 = nreceived s2
    /\ nrepeats s3 = nrepeats s2 /\ nchecksum s3 = nchecksum s2 /\ tsum s3 = tsum s2 /\ tsum2 s3 = tsum2 s2
    /\ tmin s3 = tmin s2 /\ tmax s3 = Z.max t (tmax s2)).
  { unfold s3. destruct (Z.ltb_spec (tmax s2) t); repeat split; cbn; lia. }
  destruct C as (C0 & C1 & C2 & C3 & C4 & C5 & C6 & C7 & C8). clearbody s3.
  set (s4 := if rtt s3 =? 0 then _ else _). assert (D : received_only s3 s4 /\ same_counts s3 s4) by (unfold s4; destruct (_ =? _); by repeat split).
  destruct D as (D0 & D). clearbody s4. set (s5 := if has s4 F_ADAPTIVE then _ else _).
  assert (E : received_only s4 s5 /\ same_counts s4 s5).
  { unfold s5. destruct (has s4 F_ADAPTIVE) eqn:Ha; [|by repeat split]. destruct (update_interval_counts c s4). auto. }
  destruct E as (E0 & E). destruct D as (? & ? & ? & ? & ? & ? & ? & ?), E as (? & ? & ? & ? & ? & ? & ? & ?).
  split; [|repeat split; congruence]. eapply received_only_trans; [|exact E0]. eapply received_only_trans; [|exact D0].
  eapply received_only_trans; [|exact C0]. by eapply received_only_trans.
Qed.

Lemma account_options c t s : options (account c t s) = options s.
Proof.
  unfold account. cbv zeta. repeat (match goal with |- context [if ?b then _ else _] => destruct b end); done.
Qed.

(** ** One reply *)

Lemma wrong_data_total n : forall i cp dp, (n <= length cp)%nat -> (n <= length dp)%nat -> exists w, wrong_data n i cp dp = Some w.
Proof.
  induction n as [|n IH]; intros i [|x cp] [|y dp] H1 H2; cbn [length] in *; try lia; try (by eexists).
  cbn [wrong_data]. destruct (x =? y); [apply IH; lia|by eexists].
Qed.

Lemma wrong_data_none n : forall i cp dp, (n <= length cp)%nat -> (n <= length dp)%nat ->
  wrong_data n i cp dp = Some None <-> take n cp = take n dp.
Proof.
  induction n as [|n IH]; intros i [|x cp] [|y dp] H1 H2; cbn [length] in *; try lia; try done.
  cbn [wrong_data take]. destruct (Z.eqb_spec x y) as [->|Hne]; [|by split; congruence].
  rewrite IH by lia. split; congruence.
Qed.

(** The data is there to be compared. *)
Definition readable (c : config) (ptr : list Z) (s : ping) : Prop :=
  (Z.to_nat (datalen c) <= length ptr)%nat /\ (Z.to_nat (datalen c) + 8 <= length (outpack s))%nat.

Lemma check_data_total c ptr s : readable c ptr s -> exists w, check_data c ptr s = Some w.
Proof. intros [H1 H2]. apply wrong_data_total; rewrite length_drop; lia. Qed.

Lemma show_reply_total c ptr cc t dup cs s : readable c ptr s -> exists sh, show_reply c ptr cc t dup cs s = Some sh.
Proof.
  intros H. unfold show_reply. destruct (has s F_QUIET); [by eexists|]. destruct (has s F_FLOOD); [by eexists|].
  destruct (_ <? _); [by eexists|]. destruct (check_data_total c ptr s H) as [w ->]. by eexists.
Qed.

Lemma u64_add a b : u64 (u64 a + b) = u64 (b + a).
Proof. rewrite wrapu_add_l by lia. f_equal. lia. Qed.

Lemma tallies_time s s' t x : tallies s t -> rcvd_tbl s' = rcvd_tbl s -> nreceived s' = nreceived s -> nrepeats s' = nrepeats s ->
  nchecksum s' = nchecksum s -> tsum s' = u64 (tsum s + x) -> tsum2 s' = u64 (tsum2 s + x * x) ->
  tmin s' = Z.min x (tmin s) -> tmax s' = Z.max x (tmax s) ->
  tallies s' (mkTally (seen t) (good t) (dups t) (bad t) (x :: times t)).
Proof.
  intros [] ? ? ? ? E5 E6 E7 E8. split; cbn [seen good dups bad times]; try congruence.
  - intros q Hq. rewrite H. auto.
  - rewrite E5, tl_sum0. cbn. apply u64_add.
  - rewrite E6, tl_squares0. cbn. apply u64_add.
  - rewrite E7, tl_min0. done.
  - rewrite E8, tl_max0. done.
Qed.

(** The round trip time of a reply, when it is taken. *)
Definition reply_time (c : config) (ptr : list Z) (cc : Z) (tv now : timespec) (s : ping) : option Z :=
  if timing c && (24 <=? cc) then (fun sent => fst (triptime tv sent now s)) <$> decode_time ptr else None.

Lemma triptime_options tv sent now s s' : options s' = options s -> fst (triptime tv sent now s') = fst (triptime tv sent now s).
Proof. intros E. unfold triptime, has. rewrite E. destruct (_ <? 0); [|done]. by destruct (negb _). Qed.

Lemma noted_run c ptr cc seq cs tv now s t : tallies s t -> (timing c = true -> (16 <= length ptr)%nat) ->
  exists x s', noted c ptr cc seq cs tv now s = Some (x, s') /\ received_only s s' /\ rcvd_tbl s' = rcvd_tbl s
    /\ tallies (set_nreceived (nreceived s' - 1) s')
         (mkTally (seen t) (good t) (dups t) (bad t)
            (if cs then times t else option_list (reply_time c ptr cc tv now s) ++ times t)).
Proof.
  intros Ht Hl. unfold noted, reply_time. cbv zeta.
  set (s1 := if cs then _ else _).
  assert (H1 : received_only s s1 /\ same_counts (set_nreceived (nreceived s + 1) s) s1).
  { unfold s1. set (s0 := set_nreceived _ s). assert (received_only s s0) by (by repeat split). destruct cs; [by repeat split|].
    destruct (acknowledge_counts seq s0). split; [by eapply received_only_trans|done]. }
  assert (Ho : options s1 = options s).
  { unfold s1. destruct cs; [done|]. by destruct (acknowledge_fields seq (set_nreceived (nreceived s + 1) s)) as (_ & _ & _ & _ & -> & _). }
  clearbody s1. destruct H1 as [R1 S1].
  assert (T1 : tallies (set_nreceived (nreceived s1 - 1) s1) t).
  { destruct S1 as (E1 & E2 & E3 & E4 & E5 & E6 & E7 & E8). eapply tallies_same; [|exact Ht].
    repeat split; cbn [set_nreceived rcvd_tbl nreceived nrepeats nchecksum tsum tsum2 tmin tmax]; rewrite ?E1, ?E2, ?E3, ?E4, ?E5, ?E6, ?E7, ?E8; cbn; lia || done. }
  assert (Etbl : rcvd_tbl s1 = rcvd_tbl s) by apply S1.
  destruct (timing c) eqn:Etm; cbn [andb]; cycle 1.
  { eexists _, _. split; [reflexivity|]. split; [done|]. split; [done|]. destruct t, cs; exact T1. }
  change (8 + 16) with 24. destruct (24 <=? cc); cycle 1.
  { eexists _, _. split; [reflexivity|]. split; [done|]. split; [done|]. destruct t, cs; exact T1. }
  unfold decode_time. rewrite (proj2 (Nat.leb_le _ _)) by auto. set (sent := mkTime _ _). cbn [fmap option_fmap option_map].
  rewrite <- (triptime_options tv sent now s s1 Ho). pose proof (triptime_run tv sent now s1) as Hr.
  destruct (triptime tv sent now s1) as [x s2]. destruct Hr as (Hx & S2 & R2). cbn [fst].
  assert (T2 : tallies (set_nreceived (nreceived s2 - 1) s2) t).
  { eapply tallies_same; [|exact T1]. destruct S2 as (E1 & E2 & E3 & E4 & E5 & E6 & E7 & E8). repeat split; cbn; congruence. }
  assert (Etbl2 : rcvd_tbl s2 = rcvd_tbl s) by (transitivity (rcvd_tbl s1); [apply S2|done]).
  destruct cs.
  { eexists _, _. split; [reflexivity|]. split; [by eapply received_only_trans|]. split; [done|]. by destruct t. }
  destruct (account_run c x s2) as (R3 & E1 & E2 & E3 & E4 & E5 & E6 & E7 & E8). eexists _, _. split; [reflexivity|].
  split; [eapply received_only_trans; [exact R1|]; by eapply received_only_trans|]. split; [congruence|].
  cbn [option_list app]. eapply tallies_time; [exact T2|cbn; congruence..].
Qed.

Lemma filed_run seq cs s t : tallies (set_nreceived (nreceived s - 1) s) t -> table_ok (rcvd_tbl s) -> 0 <= seq < MAX_DUP_CHK ->
  exists s', filed seq cs s = Some (negb cs && bool_decide (seq ∈ seen t), s') /\ received_only s s' /\ table_ok (rcvd_tbl s')
    /\ tallies s' (tally_reply (mkReply seq cs None) t).
Proof.
  intros Ht Hok Hq. unfold filed, tally_reply. cbn [re_bad re_seq re_time option_list app]. destruct cs; cbn [negb andb].
  { eexists. split; [reflexivity|]. split; [by repeat split|]. split; [done|]. destruct Ht. split; cbn in *; auto. lia. }
  destruct (rcvd_test_run (rcvd_tbl s) seq Hok Hq) as (b & -> & ->).
  pose proof (tl_seen _ _ Ht seq Hq) as Em. cbn in Em. rewrite Em. destruct (bool_decide_reflect (seq ∈ seen t)) as [Hin|Hin].
  { eexists. split; [reflexivity|]. split; [by repeat split|]. split; [done|].
    replace ({[seq]} ∪ seen t) with (seen t) by set_solver. destruct Ht. split; cbn in *; auto. lia. }
  destruct (rcvd_set_run (rcvd_tbl s) seq Hok Hq) as (tbl & -> & Hok' & Hm).
  eexists. split; [reflexivity|]. split; [by repeat split|]. split; [done|].
  destruct Ht as [T1 T2 T3 T4 T5 T6 T7 T8]. split; cbn in *; auto; [|lia].
  intros q Hqq. rewrite Hm, T1 by done. destruct (bool_decide_reflect (q = seq)) as [->|Hne]; cbn [orb].
  - symmetry. apply bool_decide_eq_true. set_solver.
  - apply bool_decide_ext. set_solver.
Qed.

(** The reply [gather_statistics] sees. *)
Definition gathered_reply (c : config) (ptr : list Z) (cc seq : Z) (cs : bool) (tv now : timespec) (s : ping) : reply :=
  mkReply seq cs (reply_time c ptr cc tv now s).

Lemma tally_reply_time seq cs x t :
  tally_reply (mkReply seq cs None) (mkTally (seen t) (good t) (dups t) (bad t) (if cs then times t else option_list x ++ times t))
  = tally_reply (mkReply seq cs x) t.
Proof. unfold tally_reply. by destruct cs. Qed.

Lemma gather_run c ptr cc seq cs tv now s t :
  tallies s t -> table_ok (rcvd_tbl s) -> readable c ptr s -> 0 <= seq < MAX_DUP_CHK ->
  exists sh s', gather_statistics c ptr cc seq cs tv now s = Some (sh, s') /\ received_only s s' /\ table_ok (rcvd_tbl s')
    /\ tallies s' (tally_reply (gathered_reply c ptr cc seq cs tv now s) t)
    /\ (forall x d b w, sh = Line x d b w -> b = cs /\ d = negb cs && bool_decide (seq ∈ seen t)).
Proof.
  intros Ht Hok Hr Hq. unfold gather_statistics.
  destruct (noted_run c ptr cc seq cs tv now s t Ht) as (x & s1 & -> & R1 & Etbl & T1).
  { unfold timing. intros E%Z.leb_le. destruct Hr. lia. }
  destruct (filed_run seq cs s1 _ T1 ltac:(by rewrite Etbl) Hq) as (s2 & -> & R2 & Hok2 & T2).
  rewrite tally_reply_time in T2. set (s3 := set_confirm _ s2).
  assert (R3 : received_only s s3).
  { eapply received_only_trans; [exact R1|]. eapply received_only_trans; [exact R2|]. by repeat split. }
  destruct (show_reply_total c ptr cc x (negb cs && bool_decide (seq ∈ seen t)) cs s3) as [sh Esh].
  { destruct Hr as [H1 H2]. split; [done|]. by rewrite (ro_outpack _ _ R3). }
  cbn [seen]. rewrite Esh. eexists _, _. split; [reflexivity|]. split; [done|]. split; [done|]. split.
  { eapply tallies_same; [|exact T2]. by repeat split. }
  intros y d b w ->. unfold show_reply in Esh.
  destruct (has s3 F_QUIET); [done|]. destruct (has s3 F_FLOOD); [done|]. destruct (cc <? _); [done|].
  destruct (check_data c ptr s3); [|done]. by injection Esh as _ <- <- _.
Qed.

Lemma noted_late c ptr cc seq cs tv now s x s' : noted c ptr cc seq cs tv now s = Some (x, s') ->
  has s' F_LATENCY = has s F_LATENCY
    || from_option (fun sent => elapsed tv sent <? 0) false (if timing c && (24 <=? cc) then decode_time ptr else None).
Proof.
  unfold noted. cbv zeta. set (s1 := if cs then _ else _).
  assert (Ho : has s1 F_LATENCY = has s F_LATENCY).
  { unfold s1. destruct cs; [done|]. unfold has. by destruct (acknowledge_fields seq (set_nreceived (nreceived s + 1) s)) as (_ & _ & _ & _ & -> & _). }
  clearbody s1. rewrite <- Ho. change (8 + 16) with 24. destruct (_ && _); [|intros [= _ <-]; by rewrite orb_false_r].
  destruct (decode_time ptr) as [sent|]; [|done]. cbn [from_option]. rewrite <- (proj2 (triptime_trip tv sent now s1)).
  destruct (triptime tv sent now s1) as [t s2]. destruct cs; intros [= _ <-]; [done|]. unfold has. by rewrite account_options.
Qed.

Lemma filed_options seq cs s d s' : filed seq cs s = Some (d, s') -> options s' = options s.
Proof.
  unfold filed. destruct cs; [by intros [= _ <-]|]. destruct (rcvd_test seq (rcvd_tbl s)); [|done].
  destruct (negb _); [by intros [= _ <-]|]. destruct (rcvd_set seq (rcvd_tbl s)); [|done]. by intros [= _ <-].
Qed.

Lemma gather_late c ptr cc seq cs tv now s sh s' : gather_statistics c ptr cc seq cs tv now s = Some (sh, s') ->
  has s' F_LATENCY = has s F_LATENCY
    || from_option (fun sent => elapsed tv sent <? 0) false (if timing c && (24 <=? cc) then decode_time ptr else None).
Proof.
  unfold gather_statistics. destruct (noted _ _ _ _ _ _ _ _) as [[t s1]|] eqn:E1; [|done].
  destruct (filed seq cs s1) as [[dup s2]|] eqn:E2; [|done]. destruct (show_reply _ _ _ _ _ _ _); [|done]. intros [= _ <-].
  rewrite <- (noted_late _ _ _ _ _ _ _ _ _ _ E1). unfold has. cbn [set_confirm options]. by rewrite (filed_options _ _ _ _ _ E2).
Qed.

(** The reply whose data is at [ptr], as the account has it. *)
Definition heard_at (c : config) (ptr : list Z) (cc seq : Z) (cs : bool) : heard :=
  mkHeard seq cs (if timing c && (24 <=? cc) then decode_time ptr else None).

Lemma gather_books c ptr cc seq cs m s t :
  tallies s t -> table_ok (rcvd_tbl s) -> readable c ptr s -> 0 <= seq < MAX_DUP_CHK ->
  exists sh s', gather_statistics c ptr cc seq cs (msg_time m) (msg_clock m) s = Some (sh, s') /\ received_only s s' /\ table_ok (rcvd_tbl s')
    /\ books s' (enter m (Some (heard_at c ptr cc seq cs)) (ledger_of s t)).
Proof.
  intros Ht Hok Hr Hq. destruct (gather_run c ptr cc seq cs (msg_time m) (msg_clock m) s t Ht Hok Hr Hq) as (sh & s' & E & R & Htbl & T & _).
  exists sh, s'. split; [done|]. split; [done|]. split; [done|]. split; [|by apply gather_late in E].
  cbn [enter lg_tally lg_late ledger_of heard_at he_seq he_bad he_stamp]. unfold gathered_reply, reply_time in T.
  destruct (_ && _); [|exact T]. destruct (decode_time ptr) as [sent|]; [|exact T]. cbn [fmap option_fmap option_map] in *.
  by rewrite (proj1 (triptime_trip _ _ _ _)) in T.
Qed.

(** ** The interface of a protocol *)

(** The memory the engine and the protocol share. *)
Record ping_ok (c : config) (s : ping) : Prop := {
  ok_datalen : 0 <= datalen c;
  ok_table : table_ok (rcvd_tbl s);
  ok_pack : datalen c + 8 <= Z.of_nat (length (outpack s));
  ok_bytes : Forall (in_u 8) (outpack s)
}.

Definition reply_ok (r : reply) : Prop :=
  0 <= re_seq r < MAX_DUP_CHK /\ match re_time r with Some t => 0 <= t < 2 ^ 63 | None => True end.

(** Errors touch only their counter and the window. *)
Definition errors_only (s s' : ping) : Prop :=
  s' = set_nerrors (nerrors s') (set_acked (acked s') (set_pipesize (pipesize s') s)).

Class FuncSetLaws (F : FuncSet) := {
  (** What the kernel may deliver. *)
  message_ok : config -> message -> Prop;
  (** The reply a packet stands for, when the probes carry the data given. *)
  reads : config -> list Z -> message -> option heard;
  (** A probe clears its number, rewrites the header and the time stamp of the
      packet and may clear [confirm]. *)
  send_probe_law c now i s : ping_ok c s -> exists o tbl k,
    send_probe c now i s = Some (if datalen c + 8 =? i then 0 else i, set_confirm k (set_outpack o (set_rcvd_tbl tbl s)))
    /\ rcvd_clear (u16 (ntransmitted s + 1)) (rcvd_tbl s) = Some tbl
    /\ length o = length (outpack s) /\ Forall (in_u 8) o /\ drop 24 o = drop 24 (outpack s);
  receive_error_law c q errno s : exists r errno' s',
    receive_error_msg c q errno s = Some (r, errno', s') /\ errors_only s s';
  reads_range c data m h : message_ok c m -> reads c data m = Some h -> 0 <= he_seq h < MAX_DUP_CHK;
  (** A packet is counted once, for the reply it is, or not at all. *)
  parse_reply_law c m s t : ping_ok c s -> message_ok c m -> tallies s t -> exists notours sh s',
    parse_reply c m s = Some (notours, sh, s') /\ received_only s s' /\ table_ok (rcvd_tbl s')
    /\ books s' (enter m (reads c (drop 24 (outpack s)) m) (ledger_of s t))
}.

Lemma enter_counts m h g : (forall x, h = Some x -> 0 <= he_seq x < MAX_DUP_CHK) ->
  lg_tally (enter m h g) = lg_tally g \/ exists r, reply_ok r /\ lg_tally (enter m h g) = tally_reply r (lg_tally g).
Proof.
  intros Hq. destruct h as [h|]; [right|by left]. eexists. split; [|reflexivity]. split; [by apply Hq|]. cbn [re_time].
  destruct (he_stamp h); [|done]. apply trip_range.
Qed.

(** The law without the account. *)
Lemma parse_reply_counts {F : FuncSet} {L : FuncSetLaws F} c m s t : ping_ok c s -> message_ok c m -> tallies s t ->
  exists notours sh s', parse_reply c m s = Some (notours, sh, s') /\ received_only s s' /\ table_ok (rcvd_tbl s')
    /\ (tallies s' t \/ exists r, reply_ok r /\ tallies s' (tally_reply r t)).
Proof.
  intros Hok Hm Ht. destruct (parse_reply_law c m s t Hok Hm Ht) as (no & sh & s' & E & R & Htbl & B & _).
  exists no, sh, s'. split; [done|]. split; [done|]. split; [done|].
  destruct (enter_counts m (reads c (drop 24 (outpack s)) m) (ledger_of s t)) as [Eg|(r & Hr & Eg)];
    [intros x Hx; by eapply reads_range|rewrite Eg in B; by left|rewrite Eg in B; right; by exists r].
Qed.

Lemma errors_only_counts s s' : errors_only s s' -> same_counts s s' /\ received_only s s'.
Proof. intros ->. by repeat split. Qed.

Lemma received_ok c s s' : ping_ok c s -> received_only s s' -> table_ok (rcvd_tbl s') -> ping_ok c s'.
Proof. intros [] R H. split; try done; by rewrite (ro_outpack _ _ R). Qed.

Lemma errors_ok c s s' : ping_ok c s -> errors_only s s' -> ping_ok c s'.
Proof. intros H E. destruct (errors_only_counts _ _ E) as [S R]. eapply received_ok; [done..|]. destruct S as (-> & _). apply H. Qed.

Lemma seq_range n : 0 <= u16 n < MAX_DUP_CHK.
Proof. apply (wrapu_range 16). lia. Qed.

(** Sending a probe, for the tally. *)
Lemma probe_tallies c s o tbl t : ping_ok c s -> rcvd_clear (u16 (ntransmitted s + 1)) (rcvd_tbl s) = Some tbl ->
  length o = length (outpack s) -> Forall (in_u 8) o ->
  let s' := set_outpack o (set_rcvd_tbl tbl s) in
  ping_ok c s' /\ (tallies s t -> tallies s' (tally_probe (u16 (ntransmitted s + 1)) t)).
Proof.
  intros [H1 H2 H3 H4] Hc Hl Hb. destruct (rcvd_clear_run (rcvd_tbl s) _ H2 (seq_range (ntransmitted s + 1))) as (tbl' & E & Hok & Hm).
  rewrite Hc in E. injection E as <-. split; [by split; cbn; rewrite ?Hl|].
  intros []. split; cbn; auto. intros q Hq. rewrite Hm, tl_seen0 by done.
  destruct (bool_decide_reflect (q = u16 (ntransmitted s + 1))) as [->|Hne]; cbn [negb andb].
  - symmetry. apply bool_decide_eq_false. set_solver.
  - apply bool_decide_ext. set_solver.
Qed.
