(* ===== verification/PingPace.v ===== *)
(** * The pace of the probes

    [pinger] keeps a bucket of tokens, one per millisecond, and a probe costs
    [interval] of them. *)

From Stdlib Require Import ZArith Lia.
From stdpp Require Import base numbers option list gmap.
From S2P Require Import Prelude Ping PingSpec PingReply.

Local Open Scope Z_scope.

(** ** What [send_loop] does, step by step *)

Section Steps.
Context {F : FuncSet} {L : FuncSetLaws F} (c : config).

(** From one [resend:] to the last. *)
Inductive resent : ping -> ping -> Prop :=
  | resent_refl s : resent s s
  | resent_probe s o tbl s' :
      rcvd_clear (u16 (ntransmitted s + 1)) (rcvd_tbl s) = Some tbl -> length o = length (outpack s) -> Forall (in_u 8) o ->
      drop 24 o = drop 24 (outpack s) -> resent (set_outpack o (set_rcvd_tbl tbl s)) s' -> resent s s'
  | resent_error s s1 s' : errors_only s s1 -> resent s1 s' -> resent s s'
  | resent_confirm s s' : resent (set_confirm_flag 0 s) s' -> resent s s'
  | resent_free k s s' : resent (set_confirm k s) s' -> resent s s'.

(** How a call ends. *)
Inductive finished (s : ping) : ping -> Prop :=
  | finished_sent : finished s (advance_ntransmitted (set_oom_count 0 s))
  | finished_abort : finished s s
  | finished_full : finished s (snd (no_buffers c s))
  | finished_again : finished s (set_tokens (s32 (tokens s + interval s)) s)
  | finished_hard : finished s (snd (hard_local_error s))
  | finished_stuck : finished s (snd (hard_local_error (snd (no_buffers c s)))).

Lemma resent_trans s1 s2 s3 : resent s1 s2 -> resent s2 s3 -> resent s1 s3.
Proof.
  intros H12 H23. revert H23. induction H12; intros H23; [done|eapply resent_probe; eauto|eapply resent_error; eauto|apply resent_confirm; auto|eapply resent_free; eauto].
Qed.

Lemma resent_keeps s s' : resent s s' ->
  ntransmitted s' = ntransmitted s /\ tokens s' = tokens s /\ cur_time s' = cur_time s /\ interval s' = interval s
  /\ options s' = options s.
Proof.
  induction 1 as [|s o tbl s' _ _ _ _ _ IH|s s1 s' He _ IH|s s' _ IH|k s s' _ IH]; [done|done| |done|done].
  rewrite He in IH. exact IH.
Qed.

Lemma resent_ok s s' : resent s s' -> ping_ok c s -> ping_ok c s'.
Proof.
  induction 1 as [|s o tbl s' Hc Hl Hb Hd _ IH|s s1 s' He _ IH|s s' _ IH|k s s' _ IH]; intros Hok; [done|..].
  - apply IH. exact (proj1 (probe_tallies c s o tbl no_replies Hok Hc Hl Hb)).
  - apply IH. by eapply errors_ok.
  - apply IH. by destruct Hok.
  - apply IH. by destruct Hok.
Qed.

(** Probes take numbers out of the set seen, and count nothing. *)
Definition same_tally (t t' : tally) : Prop :=
  good t' = good t /\ dups t' = dups t /\ bad t' = bad t /\ times t' = times t.

Lemma resent_tallies s s' t : resent s s' -> ping_ok c s -> tallies s t -> exists t', same_tally t t' /\ tallies s' t'.
Proof.
  intros H. revert t. induction H as [|s o tbl s' Hc Hl Hb Hd _ IH|s s1 s' He _ IH|s s' _ IH|k s s' _ IH]; intros t Hok Ht.
  - by exists t.
  - destruct (probe_tallies c s o tbl t Hok Hc Hl Hb) as [Hok' Ht']. by destruct (IH _ Hok' (Ht' Ht)) as (t' & ? & ?); exists t'.
  - apply IH; [by eapply errors_ok|]. eapply tallies_same; [|done]. by apply errors_only_counts.
  - apply IH; [by destruct Hok|]. eapply tallies_same; [|done]. by repeat split.
  - apply IH; [by destruct Hok|]. eapply tallies_same; [|done]. by repeat split.
Qed.

Lemma finished_counts s s' : finished s s' -> same_counts s s' /\ outpack s' = outpack s.
Proof.
  destruct 1; unfold hard_local_error, no_buffers, advance_ntransmitted; cbv zeta; cbn [snd];
    repeat (match goal with |- context [if ?b then _ else _] => destruct b end); by repeat split.
Qed.

Lemma finished_ok s s' : finished s s' -> ping_ok c s -> ping_ok c s'.
Proof.
  intros [S E]%finished_counts [H1 H2 H3 H4]. split; rewrite ?E; try done. by destruct S as (-> & _).
Qed.

Lemma probe_free_ok s o tbl k : ping_ok c s -> rcvd_clear (u16 (ntransmitted s + 1)) (rcvd_tbl s) = Some tbl ->
  length o = length (outpack s) -> Forall (in_u 8) o -> ping_ok c (set_confirm k (set_outpack o (set_rcvd_tbl tbl s))).
Proof. intros Hok Hc Hl Hb. by destruct (proj1 (probe_tallies c s o tbl no_replies Hok Hc Hl Hb)). Qed.

(** At least one probe is made. *)
Definition attempted (s s0 : ping) : Prop := exists o tbl,
  rcvd_clear (u16 (ntransmitted s + 1)) (rcvd_tbl s) = Some tbl /\ length o = length (outpack s) /\ Forall (in_u 8) o
  /\ drop 24 o = drop 24 (outpack s) /\ resent (set_outpack o (set_rcvd_tbl tbl s)) s0.

Lemma attempted_resent s s0 : attempted s s0 -> resent s s0.
Proof. intros (o & tbl & H1 & H2 & H3 & H4 & H5). by eapply resent_probe. Qed.

Lemma attempted_trans s s1 s2 : attempted s s1 -> resent s1 s2 -> attempted s s2.
Proof. intros (o & tbl & H1 & H2 & H3 & H4 & H5) H. exists o, tbl. split_and!; try done. by eapply resent_trans. Qed.

Lemma send_loop_attempts sys : forall s r s', ping_ok c s -> send_loop c sys s = Some (r, s') ->
  exists s0, attempted s s0 /\ finished s0 s'.
Proof.
  induction sys as [|a sys IH]; intros s r s' Hok; [done|]. cbn [send_loop].
  destruct (send_probe_law c (at_clock a) (at_sent a) s Hok) as (o & tbl & k & -> & Hc & Hl & Hb & Hd).
  pose proof (probe_free_ok s o tbl k Hok Hc Hl Hb) as Hok0. set (s0 := set_confirm k _) in *.
  assert (Hr : attempted s s0) by (exists o, tbl; split_and!; [done..|]; apply (resent_free k), resent_refl). clearbody s0.
  set (i := if datalen c + 8 =? at_sent a then 0 else at_sent a).
  destruct (i =? 0); [intros [= _ <-]; eauto using finished|].
  destruct (0 <? i); [intros [= _ <-]; eauto using finished|].
  destruct ((at_errno a =? ENOBUFS) || (at_errno a =? ENOMEM)).
  { pose proof (finished_full s0) as H1. pose proof (finished_stuck s0) as H2. destruct (no_buffers c s0) as [nores s1].
    destruct (_ <? lingertime c); [intros [= _ <-]; eauto|]. intros E%(inj Some)%(f_equal snd). cbn [snd] in *. rewrite E in H2. eauto. }
  destruct (at_errno a =? EAGAIN); [intros [= _ <-]; eauto using finished|].
  destruct (receive_error_law c (at_queue a) (at_errno a) s0) as (r0 & errno & s1 & -> & He).
  assert (Hr1 : attempted s s1) by (eapply attempted_trans; [done|]; eapply resent_error; [done|apply resent_refl]).
  assert (Hhard : forall s2, attempted s s2 -> Some (hard_local_error s2) = Some (r, s') -> exists s0, attempted s s0 /\ finished s0 s').
  { intros s2 H2 E%(inj Some)%(f_equal snd). cbn [snd] in E. rewrite <- E. eauto using finished. }
  destruct (0 <? r0); [by apply Hhard|].
  set (p := if (r0 =? 0) && _ && _ then (0, set_confirm_flag 0 s1) else (errno, s1)).
  assert (Hr2 : attempted s (snd p)) by (unfold p; destruct (_ && _); [eapply attempted_trans; [exact Hr1|apply resent_confirm, resent_refl]|exact Hr1]).
  destruct p as [errno' s2]. cbn [snd] in Hr2. destruct (errno' =? 0); [|by apply Hhard]. intros Hrec.
  destruct (IH s2 r s' (resent_ok _ _ (attempted_resent _ _ Hr2) Hok) Hrec) as (s3 & ? & ?). eauto using attempted_trans, attempted_resent.
Qed.

Lemma send_loop_steps sys s r s' : ping_ok c s -> send_loop c sys s = Some (r, s') -> exists s0, resent s s0 /\ finished s0 s'.
Proof. intros Hok E. destruct (send_loop_attempts sys s r s' Hok E) as (s0 & H & ?). eauto using attempted_resent. Qed.

(** An attempt that settles the matter: sent, or out of memory, or the socket
    full. *)
Definition settles (a : attempt) : Prop :=
  0 <= at_sent a \/ at_errno a = ENOBUFS \/ at_errno a = ENOMEM \/ at_errno a = EAGAIN.

Lemma send_loop_total sys : forall s, ping_ok c s -> Exists settles sys -> exists r s', send_loop c sys s = Some (r, s').
Proof.
  induction sys as [|a sys IH]; intros s Hok Hex; [by inversion Hex|]. cbn [send_loop].
  destruct (send_probe_law c (at_clock a) (at_sent a) s Hok) as (o & tbl & k & -> & Hc & Hl & Hb & Hd).
  pose proof (probe_free_ok s o tbl k Hok Hc Hl Hb) as Hok0. set (s0 := set_confirm k _) in *. clearbody s0.
  assert (Hhard : forall s2, exists r s', Some (hard_local_error s2) = Some (r, s')) by (intros s2; destruct (hard_local_error s2); eauto).
  set (i := if datalen c + 8 =? at_sent a then 0 else at_sent a).
  destruct (Z.eqb_spec i 0); [eauto|]. destruct (Z.ltb_spec 0 i); [eauto|].
  destruct (Z.eqb_spec (at_errno a) ENOBUFS) as [|N1]; cbn [orb]; [destruct (no_buffers c s0), (_ <? lingertime c); eauto|].
  destruct (Z.eqb_spec (at_errno a) ENOMEM) as [|N2]; cbn [orb]; [destruct (no_buffers c s0), (_ <? lingertime c); eauto|].
  destruct (Z.eqb_spec (at_errno a) EAGAIN) as [|N3]; [eauto|].
  assert (Hex' : Exists settles sys).
  { inversion Hex as [? ? [Hs|[|[|]]]|]; subst; try done. unfold i in *. destruct (Z.eqb_spec (datalen c + 8) (at_sent a)); lia. }
  destruct (receive_error_law c (at_queue a) (at_errno a) s0) as (r0 & errno & s1 & -> & He). destruct (0 <? r0); [done|].
  pose proof (errors_ok _ _ _ Hok0 He) as Hok1. destruct (_ && _); cbn [fst snd].
  - apply IH; [|done]. by destruct Hok1.
  - destruct (errno =? 0); [by apply IH|done].
Qed.
End Steps.

(** ** The bucket *)

Definition time_ok (t : timespec) : Prop := 0 < tv_sec t /\ 0 <= tv_nsec t < 1000000000.

(** The milliseconds [pinger] sees pass are at most those that have passed and
    one more. *)
Lemma elapsed_bound a b :
  1000000 * ((tv_sec b - tv_sec a) * 1000 + Z.quot (tv_nsec b - tv_nsec a) 1000000) <= nanos b - nanos a + 999999.
Proof.
  unfold nanos. pose proof (Z.quot_rem' (tv_nsec b - tv_nsec a) 1000000) as Hq.
  pose proof (Z.rem_bound_abs (tv_nsec b - tv_nsec a) 1000000 ltac:(lia)). lia.
Qed.

Section Pace.
Context {F : FuncSet} {L : FuncSetLaws F} (c : config) (I : Z).
Hypothesis HI : 0 <= I.
Hypothesis Hpre : 1 <= preload c.
Hypothesis Hcap : I * preload c < 2 ^ 31.

(** The state when the interval is fixed. *)
Record paced (s : ping) : Prop := {
  pc_interval : interval s = I;
  pc_fixed : has s F_ADAPTIVE = false;
  pc_tokens : 0 <= tokens s <= I * preload c
}.

Lemma finished_paced s s' : paced s -> tokens s + I <= I * preload c -> finished c s s' ->
  paced s' /\ cur_time s' = cur_time s /\ (ntransmitted s' = ntransmitted s \/ ntransmitted s' = ntransmitted s + 1)
  /\ tokens s' + I * (ntransmitted s' - ntransmitted s) <= tokens s + I.
Proof.
  intros [P1 P2 P3] Ht H.
  assert (Hhard : forall s, paced s -> paced (snd (hard_local_error s)) /\ cur_time (snd (hard_local_error s)) = cur_time s
    /\ ntransmitted (snd (hard_local_error s)) = ntransmitted s + 1 /\ tokens (snd (hard_local_error s)) = 0).
  { intros s0 [Q1 Q2 Q3]. unfold hard_local_error, advance_ntransmitted. cbv zeta.
    destruct (_ <? _); (split; [split; [done|done|cbn; nia]|by split_and!]). }
  assert (Hfull : paced (snd (no_buffers c s)) /\ cur_time (snd (no_buffers c s)) = cur_time s
    /\ ntransmitted (snd (no_buffers c s)) = ntransmitted s /\ tokens (snd (no_buffers c s)) = 0).
  { unfold no_buffers. set (x := s32 (rtt_addend _ + _)).
    assert (E : has (set_rtt_addend x (set_tokens 0 s)) F_ADAPTIVE = false) by done. rewrite E.
    split; [split; [done|done|cbn; nia]|by split_and!]. }
  destruct H.
  - unfold advance_ntransmitted. cbv zeta. destruct (_ <? _); (split; [by split|split_and!; [done|by right|cbn; nia]]).
  - split; [by split|]. split_and!; [done|by left|lia].
  - destruct Hfull as (? & -> & -> & ->). split_and!; [done|done|by left|lia].
  - rewrite P1, wraps_id by (unfold in_s; lia). split; [split; [done|done|cbn; lia]|]. split_and!; [done|by left|cbn; lia].
  - destruct (Hhard s) as (? & -> & -> & ->); [by split|]. split_and!; [done|done|by right|lia].
  - destruct Hfull as (Hp & Hc & Hn & Ht0). destruct (Hhard _ Hp) as (? & -> & -> & ->). rewrite Hc, Hn.
    split_and!; [done|done|by right|lia].
Qed.

Lemma send_loop_paced sys s r s' : ping_ok c s -> paced s -> tokens s + I <= I * preload c -> send_loop c sys s = Some (r, s') ->
  paced s' /\ cur_time s' = cur_time s /\ (ntransmitted s' = ntransmitted s \/ ntransmitted s' = ntransmitted s + 1)
  /\ tokens s' + I * (ntransmitted s' - ntransmitted s) <= tokens s + I.
Proof.
  intros Hok [P1 P2 P3] Ht (s0 & Hr & Hf)%send_loop_steps; [|done].
  destruct (resent_keeps _ _ Hr) as (E1 & E2 & E3 & E4 & E5). rewrite <- E1, <- E2, <- E3. apply finished_paced; [|lia|done].
  split; [congruence|unfold has in *; congruence|lia].
Qed.
End Pace.

(** ** The loop of ping: main_loop of iputils-ns/ping_common.c

    A round sends the probes that are due, waits, and receives what has
    arrived.  The answers of the system to a round are its script: the signals
    that came, the clock and the sends, the result of [poll], the results of
    [recvmsg].  [None] is a script that is too short. *)

Definition EINTR : Z := 4.
Definition INT_MAX : Z := 2 ^ 31 - 1.

(** A result of [recvmsg]; after an error the error queue may be read. *)
Inductive received :=
  | RecvError (errno : Z) (queue : option queued)
  | RecvPacket (m : message).

Record round := mkRound {
  rd_signal : bool;                               (* SIGINT or SIGALRM *)
  rd_calls : list (timespec * list attempt);      (* one for each call of pinger *)
  rd_poll : option bool;                          (* nothing, or whether POLLERR is set *)
  rd_recv : list received
}.

Inductive outcome :=
  | Finished (s : ping)
  | AbortedIn (s : ping).

(** How a round waits. *)
Inductive waiting :=
  | Spin
  | Poll (ms : Z)
  | Block.

Definition wait (hz next : Z) (s : ping) : waiting :=
  let polled := has s F_ADAPTIVE || has s F_FLOOD_POLL in
  if polled || (next <? SCHINT (interval s)) then
    let short := if Z.rem 1000 hz =? 0 then next <=? Z.quot 1000 hz
                 else (next <? Z.quot INT_MAX hz) && (next * hz <=? 1000) in
    if short && (in_flight s =? 0) then Spin
    else if polled || negb (interval s =? 0) then Poll (if short then MININTERVAL else next) else Block
  else Block.

(** The conditions to leave. *)
Definition loop_over (c : config) (s : ping) : bool :=
  exiting s || (negb (npackets c =? 0) && (npackets c <=? nreceived s + nerrors s))
  || (negb (deadline c =? 0) && negb (nerrors s =? 0)).

Section Loop.
Context {F : FuncSet}.

(** [do ... while (next <= 0)] *)
Fixpoint probes (c : config) (calls : list (timespec * list attempt)) (s : ping) : option (option Z * ping) :=
  match calls with
  | [] => None
  | (now, sys) :: calls' =>
      match pinger c now sys s with
      | None => None
      | Some (Aborted, s) => Some (None, s)
      | Some (Next next, s) =>
          let '(next, s) := schedule_exit c next s in
          if next <=? 0 then probes c calls' s else Some (Some next, s)
      end
  end.

(** The inner loop: until there is nothing left, or nothing is in flight. *)
Fixpoint receive (c : config) (recv_error : bool) (l : list received) (s : ping) : option ping :=
  match l with
  | [] => None
  | RecvError errno q :: l' =>
      if ((errno =? EAGAIN) && negb recv_error) || (errno =? EINTR) then Some s
      else
        match receive_error_msg c q errno s with
        | None => None
        | Some (r, errno, s) =>
            if (r =? 0) && negb (errno =? 0) then Some s
            else if in_flight s =? 0 then Some s else receive c false l' s
        end
  | RecvPacket m :: l' =>
      match parse_reply c m s with
      | None => None
      | Some (_, _, s) => if in_flight s =? 0 then Some s else receive c recv_error l' s
      end
  end.

Fixpoint main_loop (c : config) (hz : Z) (rounds : list round) (s : ping) : option outcome :=
  match rounds with
  | [] => None
  | r :: rounds' =>
      let s := if rd_signal r then set_exiting true s else s in
      if loop_over c s then Some (Finished s)
      else
        match probes c (rd_calls r) s with
        | None => None
        | Some (None, s) => Some (AbortedIn s)
        | Some (Some next, s) =>
            match wait hz next s, rd_poll r with
            | Poll _, None => main_loop c hz rounds' s
            | Poll _, Some err =>
                match receive c err (rd_recv r) s with None => None | Some s => main_loop c hz rounds' s end
            | _, _ =>
                match receive c false (rd_recv r) s with None => None | Some s => main_loop c hz rounds' s end
            end
        end
  end.
End Loop.

(** ** Invariants of the loop *)

Definition calls_of (rounds : list round) : nat := sum_list (length ∘ rd_calls <$> rounds).

Section Invariant.
Context {F : FuncSet} {L : FuncSetLaws F} (c : config).

(** What may happen in a round: the clock satisfies [Q], and the messages are
    what the kernel may deliver. *)
Definition delivered (x : received) : Prop := match x with RecvPacket m => message_ok c m | RecvError _ _ => True end.

Definition round_ok (Q : timespec -> Prop) (r : round) : Prop :=
  Forall (Q ∘ fst) (rd_calls r) /\ Forall delivered (rd_recv r).

(** [P n] holds after [n] calls of [pinger]. *)
Context (Q : timespec -> Prop) (P : nat -> ping -> Prop).
Hypothesis Pok : forall n s, P n s -> ping_ok c s /\ exists t, tallies s t.
Hypothesis Pexit : forall n s, P n s -> P n (set_exiting true s).
Hypothesis Pwait : forall n s w, P n s -> P n (set_waittime w s).
Hypothesis Ppinger : forall n s now sys r s', P n s -> Q now -> pinger c now sys s = Some (r, s') -> P (S n) s'.
Hypothesis Perror : forall n s s', P n s -> errors_only s s' -> P n s'.
Hypothesis Preply : forall n s s', P n s -> received_only s s' -> table_ok (rcvd_tbl s') ->
  (forall t, tallies s t -> tallies s' t \/ exists r, reply_ok r /\ tallies s' (tally_reply r t)) -> P n s'.

Lemma probes_inv calls : forall n s next s', Forall (Q ∘ fst) calls -> P n s -> probes c calls s = Some (next, s') ->
  exists k, (k <= length calls)%nat /\ P (n + k) s'.
Proof.
  induction calls as [|[now sys] calls IH]; intros n s next s' HQ HP; [done|]. cbn [probes length]. inversion HQ as [|? ? Hq HQ']; subst.
  destruct (pinger c now sys s) as [[a s1]|] eqn:E; [|done]. pose proof (Ppinger _ _ _ _ _ _ HP Hq E) as H1.
  assert (Hend : forall s2, P (S n) s2 -> s2 = s' -> exists k, (k <= S (length calls))%nat /\ P (n + k) s').
  { intros s2 H2 <-. exists 1%nat. split; [lia|]. by rewrite Nat.add_1_r. }
  destruct a as [ms|]; [|by intros [= _ <-]; eauto].
  assert (H2 : P (S n) (snd (schedule_exit c ms s1))).
  { unfold schedule_exit, schedule_exit_slow. destruct (_ && _); [|done]. destruct (negb (waittime s1 =? 0)); [done|]. by apply Pwait. }
  destruct (schedule_exit c ms s1) as [next1 s2]. cbn [snd] in H2. destruct (next1 <=? 0); [|by intros [= _ <-]; eauto].
  intros Hrec. destruct (IH _ _ _ _ HQ' H2 Hrec) as (k & Hk & Hk'). exists (S k). split; [lia|]. by rewrite Nat.add_succ_r.
Qed.

Lemma receive_inv n l : forall e s s', Forall delivered l -> P n s -> receive c e l s = Some s' -> P n s'.
Proof.
  induction l as [|[errno q|m] l IH]; intros e s s' Hl HP; [done|..]; inversion Hl as [|? ? Hx Hr]; subst; cbn [receive].
  - destruct (_ || _); [by intros [= <-]|]. destruct (receive_error_law c q errno s) as (r & errno' & s1 & -> & He).
    pose proof (Perror _ _ _ HP He). destruct (_ && _); [by intros [= <-]|]. destruct (in_flight s1 =? 0); [by intros [= <-]|]. by apply IH.
  - destruct (Pok n s HP) as (Hok & t & Ht).
    destruct (parse_reply_counts c m s t Hok Hx Ht) as (no & sh & s1 & E & R & Htbl & _). rewrite E.
    assert (P1 : P n s1).
    { apply (Preply n s s1 HP R Htbl). intros t' Ht'. destruct (parse_reply_counts c m s t' Hok Hx Ht') as (? & ? & ? & E' & _ & _ & H').
      rewrite E in E'. by injection E' as <- <- <-. } destruct (in_flight s1 =? 0); [by intros [= <-]|]. by apply IH.
Qed.

Lemma main_loop_inv hz rounds : forall n s s', Forall (round_ok Q) rounds -> P n s ->
  main_loop c hz rounds s = Some (Finished s') -> exists k, (k <= calls_of rounds)%nat /\ P (n + k) s'.
Proof.
  induction rounds as [|r rounds IH]; intros n s s' Hr HP; [done|]. cbn [main_loop]. inversion Hr as [|? ? [HQ H1] H2]; subst.
  set (s0 := if rd_signal r then _ else s). assert (P0 : P n s0) by (unfold s0; destruct (rd_signal r); auto). clearbody s0.
  destruct (loop_over c s0); [intros [= <-]; exists 0%nat; split; [lia|by rewrite Nat.add_0_r]|].
  destruct (probes c (rd_calls r) s0) as [[[next|] s1]|] eqn:E; [|done..].
  destruct (probes_inv _ _ _ _ _ HQ P0 E) as (k1 & Hk1 & P1).
  assert (Hrec : forall s2, P (n + k1) s2 -> main_loop c hz rounds s2 = Some (Finished s') ->
    exists k, (k <= calls_of (r :: rounds))%nat /\ P (n + k) s').
  { intros s2 P2 E2. destruct (IH _ _ _ H2 P2 E2) as (k2 & Hk2 & P3). exists (k1 + k2)%nat.
    split; [unfold calls_of in *; cbn; lia|by rewrite Nat.add_assoc]. }
  destruct (wait hz next s1), (rd_poll r) as [err|]; try (by apply Hrec);
    destruct (receive c _ (rd_recv r) s1) eqn:E2; try done; eapply Hrec; by eapply receive_inv.
Qed.
End Invariant.
