(* ===== verification/PingRun.v ===== *)
(** * Whole runs of ping

    What holds of the counters, the probes and the report when [main_loop]
    ends, for any protocol that keeps [FuncSetLaws]. *)

From Stdlib Require Import ZArith Lia.
From stdpp Require Import base gmap numbers option list.
From S2P Require Import Prelude Ping PingSpec PingReply PingPace.

Local Open Scope Z_scope.

Section Run.
Context {F : FuncSet} {L : FuncSetLaws F} (c : config).

(** ** One call of [pinger] *)

Lemma take_tokens_keeps now s s' : take_tokens c now s = inr s' ->
  cur_time s' = now /\ ntransmitted s' = ntransmitted s /\ options s' = options s /\ interval s' = interval s
  /\ same_counts s s' /\ outpack s' = outpack s.
Proof.
  unfold take_tokens. destruct (_ =? 0); [intros [= <-]; by repeat split|].
  destruct (_ && _); [done|]. destruct (_ <? interval s); [done|]. intros [= <-]. by repeat split.
Qed.

Lemma ping_ok_counts s s' : same_counts s s' -> outpack s' = outpack s -> ping_ok c s -> ping_ok c s'.
Proof. intros (E & _) Eo []. split; rewrite ?E, ?Eo; done. Qed.

Lemma pinger_tallies now sys s r s' t : ping_ok c s -> tallies s t -> pinger c now sys s = Some (r, s') ->
  ping_ok c s' /\ exists t', same_tally t t' /\ tallies s' t'.
Proof.
  intros Hok Ht. unfold pinger. destruct (sent_enough c s); [intros [= _ <-]; split; [done|by exists t]|].
  destruct (take_tokens c now s) as [ms|s1] eqn:E; [intros [= _ <-]; split; [done|by exists t]|].
  destruct (take_tokens_keeps _ _ _ E) as (_ & _ & _ & _ & S1 & O1). pose proof (ping_ok_counts _ _ S1 O1 Hok) as Hok1.
  intros (s2 & Hr & Hf)%send_loop_steps; [|done].
  destruct (resent_tallies c _ _ t Hr Hok1) as (t' & Hs & Ht'); [by eapply tallies_same|].
  split; [eapply finished_ok; [done|]; by eapply resent_ok|]. exists t'. split; [done|].
  destruct (finished_counts _ _ _ Hf). by eapply tallies_same.
Qed.

Lemma finished_transmitted s s' : finished c s s' -> ntransmitted s' = ntransmitted s \/ ntransmitted s' = ntransmitted s + 1.
Proof.
  destruct 1; unfold hard_local_error, no_buffers, advance_ntransmitted; cbv zeta; cbn [snd];
    repeat (match goal with |- context [if ?b then _ else _] => destruct b end); auto.
Qed.

Lemma pinger_transmitted now sys s r s' : ping_ok c s -> pinger c now sys s = Some (r, s') ->
  ntransmitted s' = ntransmitted s \/ (sent_enough c s = false /\ ntransmitted s' = ntransmitted s + 1).
Proof.
  intros Hok. unfold pinger. destruct (sent_enough c s); [intros [= _ <-]; by left|].
  destruct (take_tokens c now s) as [ms|s1] eqn:E; [intros [= _ <-]; by left|].
  destruct (take_tokens_keeps _ _ _ E) as (_ & <- & _ & _ & S1 & O1).
  intros (s2 & Hr & Hf)%send_loop_steps; [|by eapply ping_ok_counts].
  destruct (resent_keeps _ _ Hr) as (<- & _). destruct (finished_transmitted _ _ Hf); auto.
Qed.

(** ** The counters *)

Definition time_range (t : Z) : Prop := 0 <= t < 2 ^ 63.

Record tally_ok (t : tally) : Prop := {
  ta_times : Forall time_range (times t);
  ta_length : Z.of_nat (length (times t)) <= good t + dups t;
  ta_good : 0 <= good t;
  ta_dups : 0 <= dups t
}.

Definition counted (s : ping) : Prop := ping_ok c s /\ exists t, tally_ok t /\ tallies s t.

Lemma tally_reply_ok r t : reply_ok r -> tally_ok t -> tally_ok (tally_reply r t).
Proof.
  intros [_ Hr] [H1 H2 H3 H4]. unfold tally_reply. destruct (re_bad r); [by split|].
  destruct (bool_decide _), (re_time r); split; cbn; try lia; try done; by constructor.
Qed.

Lemma same_tally_ok t t' : same_tally t t' -> tally_ok t -> tally_ok t'.
Proof. intros (E1 & E2 & E3 & E4) [H1 H2 H3 H4]. split; rewrite ?E1, ?E2, ?E4; done. Qed.

Lemma counted_pinger now sys s r s' : counted s -> pinger c now sys s = Some (r, s') -> counted s'.
Proof.
  intros (Hok & t & Hto & Ht) E. destruct (pinger_tallies _ _ _ _ _ t Hok Ht E) as (Hok' & t' & Hs & Ht').
  split; [done|]. exists t'. split; [by eapply same_tally_ok|done].
Qed.

Lemma counted_same s s' : counted s -> same_counts s s' -> outpack s' = outpack s -> counted s'.
Proof.
  intros (Hok & t & Hto & Ht) S O. split; [by eapply ping_ok_counts|]. exists t. split; [done|]. by eapply tallies_same.
Qed.

Lemma counted_errors s s' : counted s -> errors_only s s' -> counted s'.
Proof. intros H He. destruct (errors_only_counts _ _ He) as [S R]. eapply counted_same; [done..|apply R]. Qed.

Lemma counted_reply s s' : counted s -> received_only s s' -> table_ok (rcvd_tbl s') ->
  (forall t, tallies s t -> tallies s' t \/ exists r, reply_ok r /\ tallies s' (tally_reply r t)) -> counted s'.
Proof.
  intros (Hok & t & Hto & Ht) R Htbl Hc. split; [by eapply received_ok|].
  destruct (Hc t Ht) as [?|(r & ? & ?)]; [by exists t|]. eexists. split; [|done]. by apply tally_reply_ok.
Qed.

(** To show something of a whole run, one looks at [pinger] and at the fields
    that replies leave alone. *)
Lemma whole_run_inv (Q : timespec -> Prop) (R : nat -> ping -> Prop) hz rounds n s s' :
  (forall n s s', R n s -> received_only s s' -> R n s') ->
  (forall n s now sys r s', counted s -> R n s -> Q now -> pinger c now sys s = Some (r, s') -> R (S n) s') ->
  Forall (round_ok c Q) rounds -> counted s -> R n s -> main_loop c hz rounds s = Some (Finished s') ->
  counted s' /\ exists k, (k <= calls_of rounds)%nat /\ R (n + k)%nat s'.
Proof.
  intros Hrec Hping Hr Hc HR E.
  destruct (main_loop_inv c Q (fun n s => counted s /\ R n s)) with (hz := hz) (rounds := rounds) (n := n) (s := s) (s' := s')
    as (k & Hk & Hc' & HR'); try done; [..|by split; [|exists k]].
  - intros m s0 [(Hok & t & _ & Ht) _]. eauto.
  - intros m s0 [H1 H2]. split; [eapply counted_same; [done|by repeat split..]|]. eapply Hrec; [done|]. by repeat split.
  - intros m s0 w [H1 H2]. split; [eapply counted_same; [done|by repeat split..]|]. eapply Hrec; [done|]. by repeat split.
  - intros m s0 now sys r s1 [H1 H2] Hq Ep. split; [by eapply counted_pinger|by eapply Hping].
  - intros m s0 s1 [H1 H2] He. split; [by eapply counted_errors|]. eapply Hrec; [done|]. by apply errors_only_counts.
  - intros m s0 s1 [H1 H2] R0 Htbl Hx. split; [by eapply counted_reply|by eapply Hrec].
Qed.

(** ** The number of probes *)

Lemma limit_run hz rounds s s' : npackets c <> 0 -> deadline c = 0 -> Forall (round_ok c (fun _ => True)) rounds ->
  counted s -> ntransmitted s <= npackets c -> main_loop c hz rounds s = Some (Finished s') ->
  counted s' /\ ntransmitted s' <= npackets c.
Proof.
  intros Hn Hd Hr Hs Hw E.
  destruct (whole_run_inv (fun _ => True) (fun _ s => ntransmitted s <= npackets c) hz rounds 0 s s') as (? & k & _ & ?); try done.
  - intros _ s0 s1 H R. by rewrite (ro_ntransmitted _ _ R).
  - intros _ s0 now sys r s1 Hc H _ Ep. destruct (pinger_transmitted _ _ _ _ _ (proj1 Hc) Ep) as [->|[Hse ->]]; [done|].
    unfold sent_enough in Hse. rewrite Hd in Hse. apply orb_false_iff in Hse as [_ Hse]. rewrite andb_true_r in Hse.
    apply andb_false_iff in Hse as [Hse|Hse]; [|apply Z.leb_gt in Hse; lia]. apply negb_false_iff, Z.eqb_eq in Hse. done.
Qed.

(** ** The pace *)

Section PaceRun.
Context (I start : Z).
Hypothesis HI : 0 <= I.
Hypothesis Hpre : 1 <= preload c.
Hypothesis Hcap : I * preload c < 2 ^ 31.

(** A reading of the clock after the start. *)
Definition clock_ok (now : timespec) : Prop := 0 < tv_sec now /\ start <= nanos now.

(** Before the first probe, or with a bucket that pays for the probes sent. *)
Definition on_pace (n : nat) (s : ping) : Prop :=
  paced c I s /\
  ((tv_sec (cur_time s) = 0 /\ ntransmitted s = 0)
   \/ (tv_sec (cur_time s) <> 0
      /\ 1000000 * (tokens s + I * ntransmitted s) <= 1000000 * (I * preload c) + (nanos (cur_time s) - start) + 999999 * Z.of_nat n)).

Lemma take_tokens_paced now s s' : paced c I s -> take_tokens c now s = inr s' ->
  paced c I s' /\ tokens s' + I <= I * preload c
  /\ tokens s' + I <= (if tv_sec (cur_time s) =? 0 then I * preload c
                       else tokens s + (tv_sec now - tv_sec (cur_time s)) * 1000 + Z.quot (tv_nsec now - tv_nsec (cur_time s)) 1000000).
Proof.
  intros [P1 P2 P3]. unfold take_tokens. rewrite P1. destruct (_ =? 0).
  { intros [= <-]. cbn [tokens set_tokens]. rewrite wraps_id by (unfold in_s; nia). split; [split; [done|done|cbn; nia]|nia]. }
  destruct (_ && _); [done|]. rewrite wraps_id by (unfold in_s; nia). set (m := Z.min _ _). destruct (Z.ltb_spec m I); [done|].
  intros [= <-]. unfold m in *. cbn [tokens set_tokens]. split; [split; [done|done|cbn; lia]|lia].
Qed.

Lemma pace_pinger n s now sys r s' : counted s -> on_pace n s -> clock_ok now -> pinger c now sys s = Some (r, s') -> on_pace (S n) s'.
Proof.
  intros Hc [Hp Hpot] [Hq1 Hq2]. unfold pinger.
  assert (Hsame : on_pace (S n) s) by (split; [done|destruct Hpot as [?|[? ?]]; [by left|right; split; [done|lia]]]).
  destruct (sent_enough c s); [by intros [= _ <-]|].
  destruct (take_tokens c now s) as [ms|s1] eqn:E; [by intros [= _ <-]|].
  destruct (take_tokens_paced _ _ _ Hp E) as (Hp1 & Hcap1 & Htok). destruct (take_tokens_keeps _ _ _ E) as (Ec & En & _ & _ & S1 & O1).
  intros Es. destruct (send_loop_paced c I HI Hpre Hcap sys s1 r s') as (Hp2 & Ec2 & _ & Hpot2); [|done..|].
  { eapply ping_ok_counts; [done..|]. apply Hc. }
  split; [done|]. right. rewrite Ec2, Ec. split; [lia|]. rewrite En in Hpot2. pose proof (elapsed_bound (cur_time s) now).
  destruct Hpot as [[H0 HN]|[H0 HN]].
  - rewrite H0 in Htok. cbn in Htok. nia.
  - rewrite (proj2 (Z.eqb_neq _ _)) in Htok by done. nia.
Qed.

Lemma pace_run hz rounds s s' : Forall (round_ok c clock_ok) rounds -> counted s -> on_pace 0 s ->
  main_loop c hz rounds s = Some (Finished s') -> exists k, (k <= calls_of rounds)%nat /\ on_pace k s'.
Proof.
  intros Hr Hc Hp E. destruct (whole_run_inv clock_ok on_pace hz rounds 0 s s') as (_ & ?); try done.
  - intros n s0 s1 [[P1 P2 P3] Hpot] R. unfold on_pace. rewrite (ro_ntransmitted _ _ R), (ro_tokens _ _ R), (ro_cur_time _ _ R).
    split; [|done]. split; [by rewrite (ro_interval _ _ R)|by rewrite (ro_adaptive _ _ R)|by rewrite (ro_tokens _ _ R)].
  - intros n s0 now sys r s1. apply pace_pinger.
Qed.
End PaceRun.
End Run.

(** ** The account of a run

    The events of a run are the probes it makes and the packets [recvmsg] hands
    to it, in their order.  [settle] counts them without the code of ping. *)

Inductive event :=
  | Sending (seq : Z)
  | Arrived (m : message).

Section Log.
Context {F : FuncSet} (c : config).

(** [pinger] makes a probe unless it has made enough, or has no tokens for it. *)
Definition pinger_log (now : timespec) (s : ping) : list event :=
  if sent_enough c s then []
  else match take_tokens c now s with inl _ => [] | inr _ => [Sending (u16 (ntransmitted s + 1))] end.

Fixpoint probes_log (calls : list (timespec * list attempt)) (s : ping) : list event :=
  match calls with
  | [] => []
  | (now, sys) :: calls' =>
      pinger_log now s ++
      match pinger c now sys s with
      | Some (Next next, s) => let '(next, s) := schedule_exit c next s in if next <=? 0 then probes_log calls' s else []
      | _ => []
      end
  end.

Fixpoint receive_log (recv_error : bool) (l : list received) (s : ping) : list event :=
  match l with
  | [] => []
  | RecvError errno q :: l' =>
      if ((errno =? EAGAIN) && negb recv_error) || (errno =? EINTR) then []
      else
        match receive_error_msg c q errno s with
        | None => []
        | Some (r, errno, s) =>
            if (r =? 0) && negb (errno =? 0) then [] else if in_flight s =? 0 then [] else receive_log false l' s
        end
  | RecvPacket m :: l' =>
      Arrived m ::
      match parse_reply c m s with
      | None => []
      | Some (_, _, s) => if in_flight s =? 0 then [] else receive_log recv_error l' s
      end
  end.

Fixpoint events (hz : Z) (rounds : list round) (s : ping) : list event :=
  match rounds with
  | [] => []
  | r :: rounds' =>
      let s := if rd_signal r then set_exiting true s else s in
      if loop_over c s then []
      else
        probes_log (rd_calls r) s ++
        match probes c (rd_calls r) s with
        | Some (Some next, s) =>
            match wait hz next s, rd_poll r with
            | Poll _, None => events hz rounds' s
            | Poll _, Some err =>
                receive_log err (rd_recv r) s
                ++ match receive c err (rd_recv r) s with None => [] | Some s => events hz rounds' s end
            | _, _ =>
                receive_log false (rd_recv r) s
                ++ match receive c false (rd_recv r) s with None => [] | Some s => events hz rounds' s end
            end
        | _ => []
        end
  end.
End Log.

Section Account.
Context {F : FuncSet} {L : FuncSetLaws F} (c : config) (data : list Z).

Definition post (g : ledger) (e : event) : ledger :=
  match e with
  | Sending seq => mkLedger (lg_late g) (tally_probe seq (lg_tally g))
  | Arrived m => enter m (reads c data m) g
  end.

Definition settle (g : ledger) (l : list event) : ledger := foldl post g l.

(** The state agrees with the ledger [g], and its probes carry [data]. *)
Definition balanced (s : ping) (g : ledger) : Prop := ping_ok c s /\ books s g /\ drop 24 (outpack s) = data.

Lemma balanced_same s s' g : same_counts s s' -> options s' = options s -> outpack s' = outpack s -> balanced s g -> balanced s' g.
Proof.
  intros S O P (Hok & [B1 B2] & D). split; [by eapply ping_ok_counts|]. split; [|by rewrite P].
  split; [by eapply tallies_same|]. unfold has in *. by rewrite O.
Qed.

Lemma balanced_errors s s' g : errors_only s s' -> balanced s g -> balanced s' g.
Proof. intros He. destruct (errors_only_counts _ _ He) as [S R]. apply balanced_same; [done|by rewrite He|apply R]. Qed.

Lemma tally_probe_again q t : q ∉ seen t -> tally_probe q t = t.
Proof. intros H. destruct t as [se g d b ti]. unfold tally_probe. cbn in *. f_equal. set_solver. Qed.

Lemma balanced_probe s o tbl g : rcvd_clear (u16 (ntransmitted s + 1)) (rcvd_tbl s) = Some tbl -> length o = length (outpack s) ->
  Forall (in_u 8) o -> drop 24 o = drop 24 (outpack s) -> balanced s g ->
  balanced (set_outpack o (set_rcvd_tbl tbl s)) (post g (Sending (u16 (ntransmitted s + 1)))).
Proof.
  intros Hc Hl Hb Hd (Hok & [B1 B2] & D). destruct (probe_tallies c s o tbl (lg_tally g) Hok Hc Hl Hb) as [Hok' Ht].
  split; [done|]. split; [split; [by apply Ht|done]|]. cbn [outpack set_outpack]. congruence.
Qed.

(** A probe that is made again changes nothing. *)
Lemma balanced_resent s s' g : resent s s' -> u16 (ntransmitted s + 1) ∉ seen (lg_tally g) -> balanced s g -> balanced s' g.
Proof.
  induction 1 as [|s o tbl s' Hc Hl Hb Hd _ IH|s s1 s' He _ IH|s s' _ IH|k s s' _ IH]; intros Hq B; [done|..].
  - apply IH; [done|]. pose proof (balanced_probe s o tbl g Hc Hl Hb Hd B) as B'. cbn [post] in B'.
    rewrite tally_probe_again in B' by done. by destruct g.
  - apply IH; [by rewrite He|]. by eapply balanced_errors.
  - apply IH; [done|]. apply (balanced_same s); [by repeat split|done|done|done].
  - apply IH; [done|]. apply (balanced_same s); [by repeat split|done|done|done].
Qed.

Lemma finished_options s s' : finished c s s' -> options s' = options s.
Proof.
  destruct 1; unfold hard_local_error, no_buffers, advance_ntransmitted; cbv zeta; cbn [snd];
    repeat (match goal with |- context [if ?b then _ else _] => destruct b end); done.
Qed.

Lemma pinger_balanced now sys s r s' g : balanced s g -> pinger c now sys s = Some (r, s') -> balanced s' (settle g (pinger_log c now s)).
Proof.
  intros B. unfold pinger, pinger_log. destruct (sent_enough c s); [by intros [= _ <-]|].
  destruct (take_tokens c now s) as [ms|s1] eqn:E; [by intros [= _ <-]|].
  destruct (take_tokens_keeps _ _ _ _ E) as (_ & En & Eo & _ & S1 & O1). pose proof (balanced_same _ _ _ S1 Eo O1 B) as B1.
  intros (s2 & (o & tbl & Hc & Hl & Hb & Hd & Hr) & Hf)%send_loop_attempts; [|apply B1]. destruct (finished_counts _ _ _ Hf) as [S2 O2].
  eapply balanced_same; [exact S2|by apply finished_options|exact O2|]. eapply balanced_resent; [exact Hr| |].
  - cbn [ntransmitted set_outpack set_rcvd_tbl settle foldl post lg_tally tally_probe seen]. rewrite En. set_solver.
  - rewrite <- En. by apply balanced_probe.
Qed.

Lemma settle_app g l1 l2 : settle g (l1 ++ l2) = settle (settle g l1) l2.
Proof. apply foldl_app. Qed.

Lemma probes_balanced calls : forall s next s' g, balanced s g -> probes c calls s = Some (next, s') -> balanced s' (settle g (probes_log c calls s)).
Proof.
  induction calls as [|[now sys] calls IH]; intros s next s' g B; [done|]. cbn [probes probes_log].
  destruct (pinger c now sys s) as [[a s1]|] eqn:E; [|done]. rewrite settle_app. pose proof (pinger_balanced _ _ _ _ _ _ B E) as B1.
  destruct a as [ms|]; [|by intros [= _ <-]].
  assert (B2 : balanced (snd (schedule_exit c ms s1)) (settle g (pinger_log c now s))).
  { unfold schedule_exit, schedule_exit_slow. destruct (_ && _); [|done]. destruct (negb (waittime s1 =? 0)); [done|].
    apply (balanced_same s1); [by repeat split|done|done|done]. }
  destruct (schedule_exit c ms s1) as [next1 s2]. cbn [snd] in B2. destruct (next1 <=? 0); [by apply IH|]. by intros [= _ <-].
Qed.

Lemma receive_balanced l : forall e s s' g, Forall (delivered c) l -> balanced s g -> receive c e l s = Some s' ->
  balanced s' (settle g (receive_log c e l s)).
Proof.
  induction l as [|[errno q|m] l IH]; intros e s s' g Hl B; [done|..]; inversion Hl as [|? ? Hx Hr]; subst; cbn [receive receive_log].
  - destruct (_ || _); [by intros [= <-]|]. destruct (receive_error_law c q errno s) as (r & errno' & s1 & -> & He).
    pose proof (balanced_errors _ _ _ He B). destruct (_ && _); [by intros [= <-]|]. destruct (in_flight s1 =? 0); [by intros [= <-]|]. by apply IH.
  - pose proof B as (Hok & [B1 B2] & D). destruct (parse_reply_law c m s (lg_tally g) Hok Hx B1) as (no & sh & s1 & -> & R & Htbl & Bk).
    assert (Bn : balanced s1 (post g (Arrived m))).
    { split; [by eapply received_ok|]. split; [|by rewrite (ro_outpack _ _ R)]. unfold ledger_of in Bk. rewrite D, B2 in Bk. by destruct g. }
    change (settle g (Arrived m :: ?l)) with (settle (post g (Arrived m)) l). destruct (in_flight s1 =? 0); [by intros [= <-]|]. by apply IH.
Qed.

(** When the loop ends, the state of ping is the account of what happened. *)
Lemma main_loop_balanced hz rounds : forall s s' g, Forall (round_ok c (fun _ => True)) rounds -> balanced s g ->
  main_loop c hz rounds s = Some (Finished s') -> balanced s' (settle g (events c hz rounds s)).
Proof.
  induction rounds as [|r rounds IH]; intros s s' g Hr B; [done|]. cbn [main_loop events]. inversion Hr as [|? ? [_ H1] H2]; subst.
  set (s0 := if rd_signal r then _ else s).
  assert (B0 : balanced s0 g) by (unfold s0; destruct (rd_signal r); [apply (balanced_same s); [by repeat split|done|done|done]|done]). clearbody s0.
  destruct (loop_over c s0); [by intros [= <-]|]. destruct (probes c (rd_calls r) s0) as [[[next|] s1]|] eqn:E; [|done..].
  rewrite settle_app. pose proof (probes_balanced _ _ _ _ _ B0 E) as B1.
  assert (Hrec : forall e s2, receive c e (rd_recv r) s1 = Some s2 -> main_loop c hz rounds s2 = Some (Finished s') ->
    balanced s' (settle (settle g (probes_log c (rd_calls r) s0)) (receive_log c e (rd_recv r) s1 ++ events c hz rounds s2))).
  { intros e s2 E2 E3. rewrite settle_app. apply IH; [done| |done]. by eapply receive_balanced. }
  destruct (wait hz next s1), (rd_poll r) as [err|]; try (by apply IH);
    destruct (receive c _ (rd_recv r) s1) eqn:E2; try done; by apply Hrec.
Qed.

(** What the kernel may deliver. *)
Definition arrived_ok (e : event) : Prop := match e with Arrived m => message_ok c m | Sending _ => True end.

Lemma settled_ok g l : Forall arrived_ok l ->
  tally_ok (lg_tally g) -> tally_ok (lg_tally (settle g l)).
Proof.
  intros Hl. revert g. induction Hl as [|e l He _ IH]; intros g Hg; [done|]. cbn [settle foldl]. apply IH.
  destruct e as [q|m]; cbn [post]; [by destruct Hg|].
  destruct (enter_counts m (reads c data m) g) as [->|(r & Hr & ->)]; [intros x Hx; by eapply reads_range|done|by apply tally_reply_ok].
Qed.

Lemma receive_log_ok e l : forall s, Forall (delivered c) l ->
  Forall arrived_ok (receive_log c e l s).
Proof.
  revert e. induction l as [|[errno q|m] l IH]; intros e s Hl; cbn [receive_log]; [constructor|inversion Hl; subst..].
  - destruct (_ || _); [constructor|]. destruct (receive_error_msg c q errno s) as [[[r errno'] s1]|]; [|constructor].
    destruct (_ && _); [constructor|]. destruct (_ =? 0); [constructor|by apply IH].
  - constructor; [done|]. destruct (parse_reply c m s) as [[[no sh] s1]|]; [|constructor]. destruct (_ =? 0); [constructor|by apply IH].
Qed.

Lemma probes_log_ok calls : forall s, Forall arrived_ok (probes_log c calls s).
Proof.
  induction calls as [|[now sys] calls IH]; intros s; cbn [probes_log]; [constructor|]. apply Forall_app. split.
  - unfold pinger_log. destruct (sent_enough c s); [constructor|]. destruct (take_tokens c now s); repeat constructor.
  - destruct (pinger c now sys s) as [[[ms|] s1]|]; try constructor. destruct (schedule_exit c ms s1) as [n s2]. destruct (n <=? 0); [done|constructor].
Qed.

Lemma events_ok hz rounds : forall s, Forall (round_ok c (fun _ => True)) rounds ->
  Forall arrived_ok (events c hz rounds s).
Proof.
  induction rounds as [|r rounds IH]; intros s Hr; cbn [events]; [constructor|]. inversion Hr as [|? ? [_ H1] H2]; subst.
  destruct (loop_over c _); [constructor|]. apply Forall_app. split; [apply probes_log_ok|].
  destruct (probes c (rd_calls r) _) as [[[next|] s1]|]; try constructor.
  assert (H : forall e, Forall arrived_ok
    (receive_log c e (rd_recv r) s1 ++ match receive c e (rd_recv r) s1 with None => [] | Some s => events c hz rounds s end)).
  { intros e. apply Forall_app. split; [by apply receive_log_ok|]. destruct (receive c e (rd_recv r) s1); [by apply IH|constructor]. }
  destruct (wait hz next s1), (rd_poll r) as [err|]; auto.
Qed.

(** The account of a run of the loop from [s] on. *)
Definition account_of (hz : Z) (rounds : list round) (s : ping) : tally :=
  lg_tally (settle (ledger_of s no_replies) (events c hz rounds s)).
End Account.

(** ** The report: finish of iputils-ns/ping_common.c

    Average and deviation of the round trip times, as long as the sums fit
    their 64 bits. *)

(** The square of a sum and the sum of the squares. *)
Lemma total_squares l : total l * total l <= Z.of_nat (length l) * squares l /\ 0 <= squares l.
Proof.
  induction l as [|x l [IH1 IH2]]; [cbn; lia|]. change (total (x :: l)) with (x + total l). change (squares (x :: l)) with (x * x + squares l).
  cbn [length]. rewrite Nat2Z.inj_succ. set (n := Z.of_nat (length l)) in *. set (T := total l) in *. set (S := squares l) in *.
  assert (0 <= n) by (unfold n; lia). split; [|nia]. destruct (Z.eq_dec n 0) as [E|E].
  - assert (T = 0) by nia. nia.
  - assert (2 * x * T <= n * (x * x) + S); [|nia].
    assert (n * (2 * x * T) <= n * (n * (x * x) + S)); [|nia]. pose proof (Z.square_nonneg (n * x - T)). nia.
Qed.

Lemma total_nonneg l : Forall time_range l -> 0 <= total l.
Proof. induction 1 as [|x l Hx _ IH]; [done|]. unfold time_range in Hx. cbn. fold (total l). lia. Qed.

(** The mean of the squares is at least the square of the mean, also as the code
    rounds them. *)
Lemma variance_nonneg l n : Forall time_range l -> Z.of_nat (length l) <= n -> 0 < n ->
  0 <= squares l / n - (total l / n) * (total l / n).
Proof.
  intros Hl Hn Hp. destruct (total_squares l) as [H1 H2]. pose proof (total_nonneg l Hl).
  pose proof (Z.mul_div_le (total l) n Hp) as H3. assert (0 <= total l / n) by (apply Z.div_pos; lia). set (f := total l / n) in *.
  enough (f * f <= squares l / n) by lia. apply Z.div_le_lower_bound; [done|].
  assert ((n * f) * (n * f) <= total l * total l) by nia. assert (total l * total l <= n * squares l) by nia. nia.
Qed.

Lemma total_le_squares l : Forall time_range l -> total l <= squares l.
Proof.
  induction 1 as [|x l Hx _ IH]; [done|]. unfold time_range in Hx. change (total (x :: l)) with (x + total l).
  change (squares (x :: l)) with (x * x + squares l). nia.
Qed.

Definition variance (l : list Z) (n : Z) : Z := squares l / n - (total l / n) * (total l / n).

Lemma report_run c start s t : tallies s t -> tally_ok t -> timing c = true -> 0 < good t -> squares (times t) < 2 ^ 63 - 1 ->
  exists r, finish c start s = Some r /\
  let n := good t + dups t in
  rp_average r = total (times t) / n
  /\ rp_mdev r = (if variance (times t) n =? 0 then 0 else Z.sqrt (variance (times t) n + 1))
  /\ rp_loss_num r = (ntransmitted s - good t) * 100 /\ rp_loss_den r = ntransmitted s.
Proof.
  intros [T1 T2 T3 T4 T5 T6 T7 T8] [A1 A2 A3 A4] Htm Hg Hsq. unfold finish. rewrite T2, T3, T5, T6, Htm.
  rewrite (proj2 (Z.eqb_neq (good t) 0)) by lia. cbn [negb andb]. destruct (total_squares (times t)) as [_ Hs0].
  pose proof (total_nonneg _ A1). pose proof (total_le_squares _ A1). set (n := good t + dups t). assert (Hn : 0 < n) by (unfold n; lia).
  rewrite !(wrapu_id 64) with (z := total _) by (unfold in_u; lia). rewrite !(wrapu_id 64) with (z := squares _) by (unfold in_u; lia).
  pose proof (variance_nonneg (times t) n A1 ltac:(unfold n; lia) Hn) as Hv. fold (variance (times t) n) in Hv.
  assert (Hsn : 0 <= squares (times t) / n <= squares (times t)) by (split; [apply Z.div_pos; lia|apply Z.div_le_upper_bound; nia]).
  assert (Hff : 0 <= (total (times t) / n) * (total (times t) / n) <= squares (times t) / n) by (split; [apply Z.square_nonneg|unfold variance in Hv; lia]).
  rewrite (wrapu_id 64) with (z := total _ / n * _) by (unfold in_u; lia). fold (variance (times t) n).
  assert (Hvb : variance (times t) n < 2 ^ 63 - 1) by (unfold variance; lia).
  rewrite (wrapu_id 64) by (unfold in_u; lia). rewrite wraps_id by (unfold in_s; lia).
  destruct (Z.eqb_spec (variance (times t) n) 0) as [E|E].
  - rewrite E. unfold llsqrt. cbn [Z.ltb Z.compare]. eexists. split; [reflexivity|]. by split_and!.
  - rewrite llsqrt_run by lia. eexists. split; [reflexivity|]. by split_and!.
Qed.

(** [pinger] waits long enough: after the delay it names and one millisecond
    more, the bucket pays for a probe. *)
Lemma take_tokens_progress c I now now' s ms : 0 < I -> I * preload c < 2 ^ 31 -> 1 <= preload c -> interval s = I ->
  take_tokens c now s = inl ms -> nanos now + 1000000 * (ms + 1) <= nanos now' -> exists s', take_tokens c now' s = inr s'.
Proof.
  intros HI Hcap Hpre Hi. unfold take_tokens. rewrite Hi. destruct (_ =? 0); [done|].
  rewrite (proj2 (Z.eqb_neq I 0)) by lia. cbn [andb]. rewrite wraps_id by (unfold in_s; nia).
  set (n := (tv_sec now - _) * 1000 + _). set (n' := (tv_sec now' - _) * 1000 + _).
  destruct (Z.ltb_spec (Z.min (n + tokens s) (I * preload c)) I) as [Hlt|]; [|done]. intros [= <-] Ht.
  assert (Hn : n - 1 + (I - (n + tokens s)) + 1 <= n').
  { unfold n, n', nanos in *. rewrite Z.min_l in Ht by nia.
    pose proof (Z.quot_rem' (tv_nsec now - tv_nsec (cur_time s)) 1000000). pose proof (Z.rem_bound_abs (tv_nsec now - tv_nsec (cur_time s)) 1000000 ltac:(lia)).
    pose proof (Z.quot_rem' (tv_nsec now' - tv_nsec (cur_time s)) 1000000). pose proof (Z.rem_bound_abs (tv_nsec now' - tv_nsec (cur_time s)) 1000000 ltac:(lia)). lia. }
  rewrite (proj2 (Z.ltb_ge _ _)); [by eexists|]. apply Z.min_glb; [|nia]. lia.
Qed.
