(* ===== verification/PingOptions.v ===== *)
(** * The IP options of a reply: pr_options of iputils-ns/ping.c

    The routine walks the options of an IP header and prints the routes and
    time stamps they recorded.  [mem] is the memory from the first option on;
    a read outside it, or a copy larger than [old_rr], is [None]. *)

From Stdlib Require Import ZArith Lia.
From stdpp Require Import base numbers option list.
From S2P Require Import Prelude.

Local Open Scope Z_scope.

Definition IPOPT_EOL : Z := 0.
Definition IPOPT_NOP : Z := 1.
Definition IPOPT_RR : Z := 7.
Definition IPOPT_TS : Z := 68.
Definition IPOPT_LSRR : Z := 131.
Definition IPOPT_SSRR : Z := 137.
Definition IPOPT_MINOFF : Z := 4.
Definition IPOPT_TS_TSONLY : Z := 0.
Definition MAX_IPOPTLEN : Z := 40.

(** What is printed of a time stamp option. *)
Inductive stamp :=
  | Hop (address : list Z)
  | Absolute (standard : bool) (ms : Z)
  | Relative (standard : bool) (ms : Z).

Inductive option_text :=
  | NopText
  | SourceRoute (strict : bool) (addresses : list (list Z))
  | NoRoute
  | SameRoute
  | RecordRoute (addresses : list (list Z))
  | NoStamps
  | TimeStamps (stamps : list stamp) (unrecorded : Z)
  | UnknownOption (kind : Z).

(** The [for (;;)] loops of LSRR, SSRR and RR: an address is printed, the count
    goes down by 4, and the loop ends when it is at most [low]. *)
Fixpoint addresses (fuel : nat) (cp : list Z) (j low : Z) : option (list (list Z)) :=
  match fuel, cp with
  | S fuel', a :: b :: c :: d :: cp' =>
      if j - 4 <=? low then Some [[a; b; c; d]]
      else match addresses fuel' cp' (j - 4) low with
           | None => None
           | Some l => Some ([a; b; c; d] :: l)
           end
  | _, _ => None
  end.

(** One time: relative to the one before of its kind, if there was one. *)
Definition print_time (l stdtime nonstdtime : Z) : stamp * Z * Z :=
  if negb (Z.land l 0x80000000 =? 0) then
    let v := Z.land l 0x7fffffff in
    (if nonstdtime =? 0 then Absolute false v else Relative false (v - nonstdtime), stdtime, s32 v)
  else (if stdtime =? 0 then Absolute true l else Relative true (l - stdtime), s32 l, nonstdtime).

(** The loop of the time stamp option. *)
Fixpoint stamps (fuel : nat) (tsonly : bool) (cp : list Z) (i stdtime nonstdtime : Z) : option (list stamp) :=
  match fuel with
  | O => None
  | S fuel' =>
      let time (cp : list Z) (i : Z) : option (list stamp) :=
        match cp with
        | a :: b :: c :: d :: cp' =>
            let l := Z.shiftl (Z.shiftl (Z.shiftl a 8 + b) 8 + c) 8 + d in
            let '(st, stdtime, nonstdtime) := print_time l stdtime nonstdtime in
            if i - 4 <=? 0 then Some [st]
            else match stamps fuel' tsonly cp' (i - 4) stdtime nonstdtime with
                 | None => None
                 | Some r => Some (st :: r)
                 end
        | _ => None
        end in
      if tsonly then time cp i
      else
        match cp with
        | a :: b :: c :: d :: cp' =>
            if i - 4 <=? 0 then Some [Hop [a; b; c; d]]
            else match time cp' (i - 4) with
                 | None => None
                 | Some r => Some (Hop [a; b; c; d] :: r)
                 end
        | _ => None
        end
  end.

(** One option other than EOL and NOP; [old_rr] is the last route, its length
    [old_rrlen]. *)
Definition print_option (flood : bool) (kind : Z) (cp : list Z) (old_rr : list Z) : option (option_text * list Z) :=
  if (kind =? IPOPT_SSRR) || (kind =? IPOPT_LSRR) then
    match cp !! 1%nat with
    | None => None
    | Some j =>
        if IPOPT_MINOFF <? j then
          match addresses (Z.to_nat j) (drop 2 cp) j IPOPT_MINOFF with
          | None => None
          | Some l => Some (SourceRoute (kind =? IPOPT_SSRR) l, old_rr)
          end
        else Some (SourceRoute (kind =? IPOPT_SSRR) [], old_rr)
    end
  else if kind =? IPOPT_RR then
    match cp !! 1%nat, cp !! 2%nat with
    | Some j, Some i =>
        let i := (if j <? i then j else i) - IPOPT_MINOFF in
        if i <=? 0 then Some (NoRoute, old_rr)
        else if (length (drop 2 cp) <? Z.to_nat i)%nat then None
        else if bool_decide (take (Z.to_nat i) (drop 2 cp) = old_rr) && negb flood then Some (SameRoute, old_rr)
        else if MAX_IPOPTLEN <? i then None
        else
          match addresses (Z.to_nat i) (drop 3 cp) i 0 with
          | None => None
          | Some l => Some (RecordRoute l, take (Z.to_nat i) (drop 2 cp))
          end
    | _, _ => None
    end
  else if kind =? IPOPT_TS then
    match cp !! 1%nat, cp !! 2%nat with
    | Some j, Some i =>
        let i := (if j <? i then j else i) - 5 in
        if i <=? 0 then Some (NoStamps, old_rr)
        else
          match cp !! 3%nat with
          | None => None
          | Some flags =>
              match stamps (Z.to_nat i) (Z.land flags 0xF =? IPOPT_TS_TSONLY) (drop 4 cp) i 0 0 with
              | None => None
              | Some l => Some (TimeStamps l (Z.shiftr flags 4), old_rr)
              end
          end
    | _, _ => None
    end
  else Some (UnknownOption kind, old_rr).

(** The loop over the options; [totlen] goes down in every round. *)
Fixpoint options_loop (fuel : nat) (flood : bool) (optptr : list Z) (totlen : Z) (old_rr : list Z)
    : option (list option_text * list Z) :=
  if totlen <=? 0 then Some ([], old_rr)
  else
    match fuel, optptr !! 0%nat with
    | S fuel', Some kind =>
        if kind =? IPOPT_EOL then Some ([], old_rr)
        else if kind =? IPOPT_NOP then
          match options_loop fuel' flood (drop 1 optptr) (totlen - 1) old_rr with
          | None => None
          | Some (l, old_rr) => Some (NopText :: l, old_rr)
          end
        else
          match optptr !! 1%nat with
          | None => None
          | Some optlen =>
              if (optlen <? 2) || (totlen <? optlen) then Some ([], old_rr)
              else
                match print_option flood kind optptr old_rr with
                | None => None
                | Some (text, old_rr) =>
                    match options_loop fuel' flood (drop (Z.to_nat optlen) optptr) (totlen - optlen) old_rr with
                    | None => None
                    | Some (l, old_rr) => Some (text :: l, old_rr)
                    end
                end
          end
    | _, _ => None
    end.

Definition pr_options (flood : bool) (mem : list Z) (hlen : Z) (old_rr : list Z) : option (list option_text * list Z) :=
  let totlen := hlen - 20 in options_loop (Z.to_nat totlen) flood mem totlen old_rr.

(** ** It stays within the header and two bytes more

    The one thing that can go wrong is the copy into [old_rr].  A record-route
    option holds more than its 40 bytes only if the options are longer than
    those of an IP header. *)

(** The bytes of the route at [cp], the pointer included. *)
Definition route_length (cp : list Z) : Z :=
  let olen := default 0 (cp !! 1%nat) in
  let ptr := default 0 (cp !! 2%nat) in
  (if olen <? ptr then olen else ptr) - IPOPT_MINOFF.

Definition wide (kind : Z) (cp : list Z) : bool := (kind =? IPOPT_RR) && (MAX_IPOPTLEN <? route_length cp).

(** Is there a route wider than [old_rr] among the options? *)
Fixpoint wide_loop (fuel : nat) (optptr : list Z) (totlen : Z) : bool :=
  if totlen <=? 0 then false
  else
    match fuel, optptr !! 0%nat with
    | S fuel', Some kind =>
        if kind =? IPOPT_EOL then false
        else if kind =? IPOPT_NOP then wide_loop fuel' (drop 1 optptr) (totlen - 1)
        else
          match optptr !! 1%nat with
          | None => false
          | Some optlen =>
              if (optlen <? 2) || (totlen <? optlen) then false
              else wide kind optptr || wide_loop fuel' (drop (Z.to_nat optlen) optptr) (totlen - optlen)
          end
    | _, _ => false
    end.

Definition wide_route (mem : list Z) (totlen : Z) : bool := wide_loop (Z.to_nat totlen) mem totlen.

Lemma addresses_total fuel : forall cp j low, (0 < fuel)%nat -> j - low <= 4 * Z.of_nat fuel -> j - low + 3 <= Z.of_nat (length cp) -> 0 < j - low ->
  exists l, addresses fuel cp j low = Some l.
Proof.
  induction fuel as [|fuel IH]; intros cp j low Hf Hj Hl Hp; [lia|].
  destruct cp as [|a [|b [|c [|d cp]]]]; cbn [length] in Hl; [lia..|]. cbn [addresses].
  destruct (Z.leb_spec (j - 4) low); [by eexists|]. destruct (IH cp (j - 4) low) as [l ->]; [lia..|]. by eexists.
Qed.

Lemma stamps_total fuel : forall tsonly cp i t1 t2, i <= Z.of_nat fuel -> i + 3 <= Z.of_nat (length cp) -> 0 < i ->
  exists l, stamps fuel tsonly cp i t1 t2 = Some l.
Proof.
  induction fuel as [|fuel IH]; intros tsonly cp i t1 t2 Hf Hl Hi; [lia|].
  assert (Htime : forall cp i, i <= Z.of_nat (S fuel) -> i + 3 <= Z.of_nat (length cp) -> 0 < i -> exists l,
    match cp with
    | a :: b :: c :: d :: cp' =>
        let l := Z.shiftl (Z.shiftl (Z.shiftl a 8 + b) 8 + c) 8 + d in
        let '(st, stdtime, nonstdtime) := print_time l t1 t2 in
        if i - 4 <=? 0 then Some [st]
        else match stamps fuel tsonly cp' (i - 4) stdtime nonstdtime with
             | None => None
             | Some r => Some (st :: r)
             end
    | _ => None
    end = Some l).
  { clear cp i Hf Hl Hi. intros cp i Hf Hl Hi. destruct cp as [|a [|b [|c [|d cp]]]]; cbn [length] in Hl; [lia..|].
    cbv zeta. destruct (print_time _ t1 t2) as [[st u1] u2]. destruct (Z.leb_spec (i - 4) 0); [by eexists|].
    destruct (IH tsonly cp (i - 4) u1 u2) as [l ->]; [lia..|]. by eexists. }
  cbn [stamps]. destruct tsonly; [by apply Htime|].
  destruct cp as [|a [|b [|c [|d cp]]]]; cbn [length] in Hl; [lia..|].
  destruct (Z.leb_spec (i - 4) 0); [by eexists|]. destruct (Htime cp (i - 4)) as [l E]; [lia..|].
  cbv zeta in E |- *. rewrite E. by eexists.
Qed.

Lemma lookup_byte (cp : list Z) i : Forall (in_u 8) cp -> (i < length cp)%nat -> exists b, cp !! i = Some b /\ 0 <= b < 256.
Proof. intros Hb Hi. destruct (lookup_lt_is_Some_2 cp i Hi) as [b E]. exists b. split; [done|]. by apply (Forall_lookup_1 _ _ _ _ Hb E). Qed.

Lemma print_option_total flood kind cp old_rr optlen :
  Forall (in_u 8) cp -> cp !! 1%nat = Some optlen -> 2 <= optlen -> wide kind cp = false -> optlen + 2 <= Z.of_nat (length cp) ->
  exists text old', print_option flood kind cp old_rr = Some (text, old').
Proof.
  intros Hb H1 Ho Hw Hl. unfold wide, route_length in Hw. unfold print_option. rewrite H1 in Hw |- *.
  destruct (lookup_byte cp 2 Hb ltac:(lia)) as (p & E2 & Hp). destruct (lookup_byte cp 3 Hb ltac:(lia)) as (f & E3 & Hf).
  rewrite E2 in Hw |- *. cbn [default from_option id] in Hw. set (m := if optlen <? p then optlen else p) in *. assert (Hm : m <= optlen) by (unfold m; destruct (Z.ltb_spec optlen p); lia).
  destruct (_ || _).
  { unfold IPOPT_MINOFF. destruct (Z.ltb_spec 4 optlen); [|by eexists _, _].
    destruct (addresses_total (Z.to_nat optlen) (drop 2 cp) optlen 4) as [l ->]; [rewrite ?length_drop; lia..|]. by eexists _, _. }
  destruct (kind =? IPOPT_RR).
  { unfold IPOPT_MINOFF, MAX_IPOPTLEN in *. apply Z.ltb_ge in Hw. destruct (Z.leb_spec (m - 4) 0); [by eexists _, _|].
    rewrite length_drop. destruct (Nat.ltb_spec (length cp - 2) (Z.to_nat (m - 4))); [lia|].
    destruct (_ && _); [by eexists _, _|]. destruct (Z.ltb_spec 40 (m - 4)); [lia|].
    destruct (addresses_total (Z.to_nat (m - 4)) (drop 3 cp) (m - 4) 0) as [l ->]; [rewrite ?length_drop; lia..|]. by eexists _, _. }
  destruct (kind =? IPOPT_TS); [|by eexists _, _].
  destruct (Z.leb_spec (m - 5) 0); [by eexists _, _|]. rewrite E3.
  destruct (stamps_total (Z.to_nat (m - 5)) (Z.land f 0xF =? IPOPT_TS_TSONLY) (drop 4 cp) (m - 5) 0 0) as [l ->];
    [rewrite ?length_drop; lia..|]. by eexists _, _.
Qed.

Lemma options_loop_total flood fuel : forall mem totlen old_rr,
  Forall (in_u 8) mem -> totlen <= Z.of_nat fuel -> wide_loop fuel mem totlen = false -> totlen + 2 <= Z.of_nat (length mem) ->
  exists l old', options_loop fuel flood mem totlen old_rr = Some (l, old').
Proof.
  induction fuel as [|fuel IH]; intros mem totlen old_rr Hb Hf Hw Hl; cbn [options_loop].
  { rewrite (proj2 (Z.leb_le _ _)) by lia. by eexists _, _. }
  cbn [wide_loop] in Hw. destruct (Z.leb_spec totlen 0); [by eexists _, _|].
  destruct (lookup_byte mem 0 Hb ltac:(lia)) as (kind & E0 & Hk). destruct (lookup_byte mem 1 Hb ltac:(lia)) as (optlen & E1 & Ho).
  rewrite E0 in Hw |- *. destruct (kind =? IPOPT_EOL); [by eexists _, _|]. destruct (kind =? IPOPT_NOP).
  { destruct (IH (drop 1 mem) (totlen - 1) old_rr) as (l & old' & ->); [by apply Forall_drop|lia|done|rewrite ?length_drop; lia|]. by eexists _, _. }
  rewrite E1 in Hw |- *. destruct (Z.ltb_spec optlen 2); [by eexists _, _|]. destruct (Z.ltb_spec totlen optlen); [by eexists _, _|]. cbn [orb] in Hw |- *.
  apply orb_false_iff in Hw as [Hw1 Hw2]. destruct (print_option_total flood kind mem old_rr optlen Hb E1) as (text & old1 & ->); [lia|done|lia|].
  destruct (IH (drop (Z.to_nat optlen) mem) (totlen - optlen) old1) as (l & old' & ->);
    [by apply Forall_drop|lia|done|rewrite ?length_drop; lia|]. by eexists _, _.
Qed.

(** Options no longer than those of a header have none. *)
Lemma narrow_loop fuel : forall mem totlen, totlen <= 44 -> wide_loop fuel mem totlen = false.
Proof.
  induction fuel as [|fuel IH]; intros mem totlen Ht; cbn [wide_loop]; destruct (totlen <=? 0); try done.
  destruct (mem !! 0%nat) as [kind|]; [|done]. destruct (kind =? IPOPT_EOL); [done|]. destruct (kind =? IPOPT_NOP); [apply IH; lia|].
  destruct (mem !! 1%nat) as [optlen|] eqn:E1; [|done]. destruct (Z.ltb_spec optlen 2); [done|]. destruct (Z.ltb_spec totlen optlen); [done|]. cbn [orb].
  rewrite IH by lia. rewrite orb_false_r. unfold wide, route_length. rewrite E1. cbn [default from_option id].
  apply andb_false_intro2, Z.ltb_ge. unfold MAX_IPOPTLEN, IPOPT_MINOFF. destruct (Z.ltb_spec optlen (default 0 (mem !! 2%nat))); lia.
Qed.

Lemma narrow_route mem totlen : totlen <= 44 -> wide_route mem totlen = false.
Proof. apply narrow_loop. Qed.

Lemma pr_options_safe flood mem hlen old_rr : Forall (in_u 8) mem -> wide_route mem (hlen - 20) = false -> hlen - 18 <= Z.of_nat (length mem) ->
  exists l old', pr_options flood mem hlen old_rr = Some (l, old').
Proof. intros Hb Hh Hl. apply options_loop_total; [done|lia|done|lia]. Qed.

Lemma pr_options_total flood mem hlen old_rr : Forall (in_u 8) mem -> hlen <= 64 -> hlen - 18 <= Z.of_nat (length mem) ->
  exists l old', pr_options flood mem hlen old_rr = Some (l, old').
Proof. intros Hb Hh Hl. apply pr_options_safe; [done|apply narrow_route; lia|done]. Qed.

(** ** What it prints of a recorded route *)

Lemma addresses_run (addrs : list (list Z)) rest : Forall (fun a => length a = 4%nat) addrs ->
  forall fuel j low, (length addrs <= fuel)%nat -> 4 * Z.of_nat (length addrs) - 4 < j - low <= 4 * Z.of_nat (length addrs) ->
  addrs <> [] -> addresses fuel (concat addrs ++ rest) j low = Some addrs.
Proof.
  induction addrs as [|a addrs IH]; intros H4 fuel j low Hf Hj Hne; [done|]. inversion H4 as [|? ? Ha Hr]; subst.
  destruct a as [|a0 [|a1 [|a2 [|a3 [|]]]]]; try done. destruct fuel as [|fuel]; [cbn in Hf; lia|]. cbn [concat app addresses length] in *.
  destruct addrs as [|a' addrs]; [rewrite (proj2 (Z.leb_le _ _)) by (cbn [length] in *; lia); done|].
  rewrite (proj2 (Z.leb_gt _ _)) by (cbn [length] in *; lia). rewrite IH; [done|done|lia|cbn [length] in *; lia|done].
Qed.

Lemma length_concat4 (addrs : list (list Z)) : Forall (fun a => length a = 4%nat) addrs -> length (concat addrs) = (4 * length addrs)%nat.
Proof. induction 1 as [|a l Ha _ IH]; [done|]. cbn [concat length]. rewrite length_app, IH, Ha. lia. Qed.

Lemma options_loop_end fuel flood mem totlen old : totlen <= 0 -> options_loop fuel flood mem totlen old = Some ([], old).
Proof. intros H. destruct fuel; cbn [options_loop]; by rewrite (proj2 (Z.leb_le _ _)). Qed.

Lemma options_loop_nop fuel flood mem totlen old l old' : 0 < totlen -> options_loop fuel flood mem (totlen - 1) old = Some (l, old') ->
  options_loop (S fuel) flood (IPOPT_NOP :: mem) totlen old = Some (NopText :: l, old').
Proof. intros H E. cbn [options_loop lookup list_lookup]. rewrite (proj2 (Z.leb_gt _ _)) by done. cbn. by rewrite drop_0, E. Qed.

Lemma options_loop_last fuel flood kind len mem old text old' : kind <> IPOPT_EOL -> kind <> IPOPT_NOP -> 2 <= len ->
  print_option flood kind (kind :: len :: mem) old = Some (text, old') ->
  options_loop (S fuel) flood (kind :: len :: mem) len old = Some ([text], old').
Proof.
  intros H1 H2 Hl E. cbn [options_loop lookup list_lookup]. rewrite (proj2 (Z.leb_gt _ _)) by lia.
  rewrite (proj2 (Z.eqb_neq _ _)), (proj2 (Z.eqb_neq _ _)) by done. rewrite (proj2 (Z.ltb_ge _ _)), Z.ltb_irrefl by lia. cbn [orb].
  rewrite E, options_loop_end by lia. done.
Qed.

(** The option as [k] routers fill it. *)
Lemma route_printed flood addrs rest old : Forall (fun a => length a = 4%nat) addrs -> (0 < length addrs <= 9)%nat ->
  let mem := [IPOPT_NOP; IPOPT_RR; 39; 4 + 4 * Z.of_nat (length addrs)] ++ concat addrs ++ replicate (36 - 4 * length addrs) 0 ++ rest in
  exists old', pr_options flood mem 60 old = Some ([NopText; RecordRoute addrs], old')
    \/ pr_options flood mem 60 old = Some ([NopText; SameRoute], old).
Proof.
  intros H4 Hn mem. set (tail := concat addrs ++ _) in mem. assert (Ht : (36 <= length tail)%nat).
  { unfold tail. rewrite !length_app, length_replicate, length_concat4 by done. lia. }
  set (ptr := 4 + 4 * Z.of_nat (length addrs)) in *.
  assert (Ei : 4 * Z.of_nat (length addrs) - 4 < (if 39 <? ptr then 39 else ptr) - 4 <= 4 * Z.of_nat (length addrs)).
  { unfold ptr. destruct (Z.ltb_spec 39 (4 + 4 * Z.of_nat (length addrs))); lia. }
  set (i := (if 39 <? ptr then 39 else ptr) - 4) in *.
  assert (Ep : print_option flood IPOPT_RR (IPOPT_RR :: 39 :: ptr :: tail) old
    = (if bool_decide (take (Z.to_nat i) (ptr :: tail) = old) && negb flood then Some (SameRoute, old)
       else Some (RecordRoute addrs, take (Z.to_nat i) (ptr :: tail)))).
  { unfold print_option. change (IPOPT_RR =? IPOPT_SSRR) with false. change (IPOPT_RR =? IPOPT_LSRR) with false. change (IPOPT_RR =? IPOPT_RR) with true.
    cbn [orb lookup list_lookup]. unfold IPOPT_MINOFF, MAX_IPOPTLEN. fold i. rewrite (proj2 (Z.leb_gt _ _)) by lia.
    change (drop 2 (IPOPT_RR :: 39 :: ptr :: tail)) with (ptr :: tail). change (drop 3 (IPOPT_RR :: 39 :: ptr :: tail)) with tail.
    rewrite (proj2 (Nat.ltb_ge _ _)) by (cbn [length]; lia). destruct (_ && _); [done|]. rewrite (proj2 (Z.ltb_ge _ _)) by lia.
    unfold tail at 1. rewrite addresses_run; [done|done|lia|lia|by destruct addrs; [cbn in Hn; lia|]]. }
  assert (El : forall text old', print_option flood IPOPT_RR (IPOPT_RR :: 39 :: ptr :: tail) old = Some (text, old') ->
    pr_options flood mem 60 old = Some ([NopText; text], old')).
  { intros text old' E. apply (options_loop_nop 39); [lia|]. by apply (options_loop_last 38). }
  destruct (_ && _); [exists old; right|eexists; left]; by apply El.
Qed.
