(* ===== verification/PingPacket.v ===== *)
(** * The packets of IPv4: iputils-ns/ping.c

    [ping4_send_probe] builds an echo request in [outpack], with the time in
    its data and the checksum of RFC 1071; [ping4_parse_reply] takes apart
    what the raw socket delivers, and [ping4_receive_error_msg] what the error
    queue holds.  Memory is a list of bytes and the host is little-endian;
    [None] is an access outside a buffer. *)

From Stdlib Require Import ZArith Lia.
From stdpp Require Import base numbers option list.
From S2P Require Import Prelude Ping PingOptions.

Local Open Scope Z_scope.

(** ** Memory *)

Definition load (off n : nat) (p : list Z) : option (list Z) :=
  if (off + n <=? length p)%nat then Some (take n (drop off p)) else None.

Definition memcpy (off : nat) (bytes p : list Z) : option (list Z) :=
  if (off + length bytes <=? length p)%nat
  then Some (take off p ++ bytes ++ drop (off + length bytes) p) else None.

Definition load16 (off : nat) (p : list Z) : option Z := le_value <$> load off 2 p.
Definition load16_net (off : nat) (p : list Z) : option Z := (fun l => le_value (reverse l)) <$> load off 2 p.
Definition load32 (off : nat) (p : list Z) : option Z := le_value <$> load off 4 p.

(** ** The checksum *)

Fixpoint sum_words (w : list Z) (sum : Z) : Z :=
  match w with
  | a :: b :: w' => sum_words w' (s32 (sum + (a + 256 * b)))
  | [a] => s32 (sum + a)
  | [] => sum
  end.

Definition in_cksum (addr : list Z) (csum : Z) : Z :=
  let sum := sum_words addr csum in
  let sum := s32 (Z.shiftr sum 16 + Z.land sum 0xffff) in
  let sum := s32 (sum + Z.shiftr sum 16) in
  u16 (Z.lnot sum).

(** ** Sending *)

Definition ICMP_ECHOREPLY : Z := 0.
Definition ICMP_DEST_UNREACH : Z := 3.
Definition ICMP_SOURCE_QUENCH : Z := 4.
Definition ICMP_REDIRECT : Z := 5.
Definition ICMP_ECHO : Z := 8.
Definition ICMP_TIME_EXCEEDED : Z := 11.
Definition ICMP_PARAMETERPROB : Z := 12.

(** [struct icmphdr] of an echo: type, code, checksum, id, sequence number in
    network order. *)
Definition echo_header (c : config) (seq : Z) : list Z :=
  [ICMP_ECHO; 0; 0; 0] ++ le_bytes 2 (ident c) ++ reverse (le_bytes 2 seq).

Definition ping4_send_probe (c : config) (now : timespec) (sent : Z) (s : ping) : option (Z * ping) :=
  let seq := u16 (ntransmitted s + 1) in
  p ← memcpy 0 (echo_header c seq) (outpack s);
  tbl ← rcvd_clear seq (rcvd_tbl s);
  p ← (if timing c then memcpy 8 (if has s F_LATENCY then encode_time now else replicate 16 0) p else Some p);
  let cc := datalen c + 8 in
  pkt ← load 0 (Z.to_nat cc) p;
  p ← memcpy 2 (le_bytes 2 (in_cksum pkt 0)) p;
  p ← (if timing c && negb (has s F_LATENCY) then
         p ← memcpy 8 (encode_time now) p;
         checksum ← load16 2 p;
         memcpy 2 (le_bytes 2 (in_cksum (encode_time now) (u16 (Z.lnot checksum)))) p
       else Some p);
  Some (if cc =? sent then 0 else sent, set_outpack p (set_rcvd_tbl tbl s)).

(** ** Receiving *)

Definition is_ours (c : config) (id : Z) : bool := negb (socktype_raw c) || (id =? ident c).

Definition contains_pattern_in_payload (c : config) (ptr : list Z) (s : ping) : option bool :=
  wrong ← check_data c ptr s; Some (match wrong with None => true | Some _ => false end).

(** [pr_iph] of the header a message quotes; the text of the header itself is
    left out. *)
Definition pr_iph (flood : bool) (ip : list Z) (old : list Z) : option (list option_text * list Z) :=
  b0 ← ip !! 0%nat; pr_options flood (drop 20 ip) (4 * Z.land b0 15) old.

Definition is_error_type (type : Z) : bool :=
  (type =? ICMP_SOURCE_QUENCH) || (type =? ICMP_REDIRECT) || (type =? ICMP_DEST_UNREACH)
  || (type =? ICMP_TIME_EXCEEDED) || (type =? ICMP_PARAMETERPROB).

(** A message about a packet: when that is one of ours, an error acknowledges
    it. *)
Definition parse_error (c : config) (type cc : Z) (icp : list Z) (s : ping) : option (bool * shown * ping) :=
  b8 ← icp !! 8%nat;
  let ihl := Z.land b8 15 in
  if (cc <? 8 + 20 + 8) || (cc <? 8 + ihl * 4 + 8) then Some (true, Silent, s)
  else
    let icp1 := drop (8 + Z.to_nat (ihl * 4)) icp in
    type1 ← icp1 !! 0%nat;
    daddr ← load32 24 icp;
    id1 ← load16 4 icp1;
    if negb (type1 =? ICMP_ECHO) || negb (daddr =? whereto c) || negb (is_ours c id1) then Some (true, Silent, s)
    else if negb (type =? ICMP_REDIRECT) && negb (type =? ICMP_SOURCE_QUENCH) then
      seq ← load16_net 6 icp1; Some (false, Silent, acknowledge seq s)
    else if has s F_QUIET || has s F_FLOOD then Some (true, Silent, s)
    else if has s F_VERBOSE then
      '(_, old) ← pr_iph (has s F_FLOOD) (drop 8 icp) (old_rr s); Some (true, Other, set_old_rr old s)
    else Some (true, Other, s).

(** The ICMP part of the packet; [opts] and [optlen] are the options of its IP
    header. *)
Definition parse_icmp (c : config) (cc : Z) (icp : list Z) (opts : list Z) (optlen : Z) (m : message) (s : ping)
    : option (bool * shown * ping) :=
  pkt ← load 0 (Z.to_nat cc) icp;
  let csfailed := negb (in_cksum pkt 0 =? 0) in
  type ← icp !! 0%nat;
  if type =? ICMP_ECHOREPLY then
    id ← load16 4 icp;
    if negb (is_ours c id) then Some (true, Silent, s)
    else
      same ← contains_pattern_in_payload c (drop 8 icp) s;
      if negb same then Some (true, Silent, s)
      else
        seq ← load16_net 6 icp;
        '(sh, s) ← gather_statistics c (drop 8 icp) cc seq csfailed (msg_time m) (msg_clock m) s;
        if gathered sh || has s F_FLOOD then Some (false, sh, s)
        else '(_, old) ← pr_options (has s F_FLOOD) opts (optlen + 20) (old_rr s); Some (false, sh, set_old_rr old s)
  else if type =? ICMP_ECHO then Some (true, Silent, s)
  else if is_error_type type then parse_error c type cc icp s
  else Some (false, Other, s).

Definition ping4_parse_reply (c : config) (m : message) (s : ping) : option (bool * shown * ping) :=
  if socktype_raw c then
    b0 ← msg_buf m !! 0%nat;
    let ihl := Z.land b0 15 in
    let hlen := ihl * 4 in
    if (msg_cc m <? hlen + 8) || (ihl <? 5) then Some (true, Silent, s)
    else parse_icmp c (msg_cc m - hlen) (drop (Z.to_nat hlen) (msg_buf m)) (drop 20 (msg_buf m)) (hlen - 20) m s
  else
    let '(opts, optlen) := default (msg_buf m, 0) (msg_retopts m) in
    parse_icmp c (msg_cc m) (msg_buf m) opts optlen m s.

(** The result, [errno] and the new state; no element in the queue means that
    there is nothing to receive. *)
Definition ping4_receive_error_msg (c : config) (q : option queued) (errno : Z) (s : ping) : option (Z * Z * ping) :=
  match q with
  | None => Some (0, errno, s)
  | Some LocalError => Some (-1, errno, if has s F_QUIET then s else set_nerrors (nerrors s + 1) s)
  | Some (IcmpError target icmph) =>
      if (length icmph <? 8)%nat then Some (0, 0, s)
      else
        type ← icmph !! 0%nat;
        id ← load16 4 icmph;
        if negb (target =? whereto c) || negb (type =? ICMP_ECHO) || negb (is_ours c id) then Some (0, 0, s)
        else
          seq ← load16_net 6 icmph;
          Some (1, errno, set_nerrors (nerrors s + 1) (acknowledge seq s))
  | Some OtherError => Some (0, errno, s)
  end.

#[export] Instance ping4_func_set : FuncSet := {|
  send_probe := ping4_send_probe;
  receive_error_msg := ping4_receive_error_msg;
  parse_reply := ping4_parse_reply
|}.

(** ** The Internet checksum: in_cksum of iputils-ns/ping.c

    The routine is the one's complement sum of the 16-bit words: its sum does
    not overflow, a packet that carries its own checksum sums to zero, and
    adding words to a finished checksum is the checksum of all of them. *)

(** The sum of the words; an odd byte is the low one of its word. *)
Fixpoint wsum (w : list Z) : Z :=
  match w with
  | a :: b :: w' => a + 256 * b + wsum w'
  | [a] => a
  | [] => 0
  end.

(** The one's complement sum of numbers adding up to [x]. *)
Definition ones_sum (x : Z) : Z := if x =? 0 then 0 else 1 + (x - 1) mod 65535.

Lemma list_pair_ind (P : list Z -> Prop) : P [] -> (forall a, P [a]) -> (forall a b l, P l -> P (a :: b :: l)) -> forall l, P l.
Proof. exact (list_ind2 P). Qed.

Lemma wsum_bounds l : Forall (in_u 8) l -> 0 <= wsum l /\ 2 * wsum l <= 65535 * Z.of_nat (length l + 1).
Proof.
  induction l as [|a|a b l IH] using list_pair_ind; intros Hl; cbn [wsum length]; [lia|..].
  - inversion Hl as [|? ? Ha _]; subst. unfold in_u in Ha. lia.
  - inversion Hl as [|? ? Ha H1]; inversion H1 as [|? ? Hb H2]; subst. unfold in_u in Ha, Hb. destruct (IH H2). lia.
Qed.

Lemma wsum_app l l' : Nat.Even (length l) -> wsum (l ++ l') = wsum l + wsum l'.
Proof.
  induction l as [|a|a b l IH] using list_pair_ind; cbn [wsum length app]; intros He; [done|by destruct He; lia|].
  rewrite IH; [lia|]. destruct He as [k Hk]. exists (k - 1)%nat. lia.
Qed.

(** The accumulator does not overflow. *)
Lemma sum_words_run l : forall acc, Forall (in_u 8) l -> 0 <= acc -> acc + wsum l < 2 ^ 31 -> sum_words l acc = acc + wsum l.
Proof.
  induction l as [|a|a b l IH] using list_pair_ind; intros acc Hl Ha Hm; cbn [sum_words wsum] in *; [lia|..].
  - inversion Hl as [|? ? H1 _]; subst. unfold in_u in H1. apply wraps_id; [lia|]. unfold in_s. lia.
  - inversion Hl as [|? ? H1 H2]; inversion H2 as [|? ? H3 H4]; subst. unfold in_u in H1, H3.
    pose proof (proj1 (wsum_bounds l H4)). rewrite wraps_id by (unfold in_s; lia). rewrite IH; [lia|done|lia..].
Qed.

Lemma ones_sum_unique x v : 0 <= x -> 0 <= v <= 65535 -> (v = 0 <-> x = 0) -> (exists k, x = v + 65535 * k) -> v = ones_sum x.
Proof.
  intros Hx Hv H0 [k Hk]. unfold ones_sum. destruct (Z.eqb_spec x 0); [tauto|].
  assert (v <> 0) by tauto. assert (Hm : (x - 1) mod 65535 = v - 1) by (symmetry; apply (Z.mod_unique _ _ k); lia).
  rewrite Hm. lia.
Qed.

(** Folding the carries back. *)
Lemma fold_run x : 0 <= x < 2 ^ 31 ->
  let y := s32 (Z.shiftr x 16 + Z.land x 0xffff) in u16 (Z.lnot (s32 (y + Z.shiftr y 16))) = 65535 - ones_sum x.
Proof.
  intros Hx y. unfold y. clear y. change (Z.land x 0xffff) with (Z.land x (Z.ones 16)). rewrite Z.land_ones, Z.shiftr_div_pow2 by lia.
  change (2 ^ 16) with 65536. pose proof (Z.div_mod x 65536 ltac:(lia)) as Hd. pose proof (Z.mod_pos_bound x 65536 ltac:(lia)) as Hm.
  assert (Hq : 0 <= x / 65536 < 32768) by (split; [apply Z.div_pos|apply Z.div_lt_upper_bound]; lia).
  set (y := x / 65536 + x mod 65536) in *. rewrite (wraps_id 32 y) by (unfold in_s; lia). rewrite Z.shiftr_div_pow2 by lia.
  change (2 ^ 16) with 65536. assert (Ey : y = x / 65536 + x mod 65536) by done. clearbody y.
  assert (Hy : y / 65536 = 0 /\ y < 65536 \/ y / 65536 = 1 /\ 65536 <= y).
  { destruct (Z.lt_ge_cases y 65536); [left; split; [apply Z.div_small; lia|done]|right; split; [|done]].
    symmetry. apply Z.div_unique with (y - 65536); lia. }
  rewrite wraps_id by (unfold in_s; lia). unfold wrapu, Z.lnot. change (2 ^ 16) with 65536.
  destruct Hy as [[-> Hy]|[-> Hy]].
  - rewrite <- (ones_sum_unique x y); [|lia|lia|lia|exists (x / 65536); lia]. symmetry. apply (Z.mod_unique _ _ (-1)); lia.
  - rewrite <- (ones_sum_unique x (y - 65535)); [|lia|lia|lia|exists (x / 65536 + 1); lia]. symmetry. apply (Z.mod_unique _ _ (-2)); lia.
Qed.

Lemma in_cksum_run l csum : Forall (in_u 8) l -> (length l <= Z.to_nat 65534)%nat -> 0 <= csum <= 65535 ->
  in_cksum l csum = 65535 - ones_sum (csum + wsum l).
Proof.
  intros Hl Hn Hc. destruct (wsum_bounds l Hl) as [H1 H2]. unfold in_cksum.
  rewrite sum_words_run by (lia || done). apply fold_run. lia.
Qed.

Lemma ones_sum_range x : 0 <= ones_sum x <= 65535.
Proof. unfold ones_sum. destruct (_ =? _); [lia|]. pose proof (Z.mod_pos_bound (x - 1) 65535 ltac:(lia)). lia. Qed.

Lemma ones_sum_zero x : 0 <= x -> ones_sum x = 0 <-> x = 0.
Proof. unfold ones_sum. intros Hx. destruct (Z.eqb_spec x 0); [tauto|]. pose proof (Z.mod_pos_bound (x - 1) 65535 ltac:(lia)). lia. Qed.

Lemma ones_sum_congr x : 0 <= x -> exists k, x = ones_sum x + 65535 * k /\ 0 <= k.
Proof.
  intros Hx. unfold ones_sum. destruct (Z.eqb_spec x 0) as [->|]; [by exists 0|].
  exists ((x - 1) / 65535). pose proof (Z.div_mod (x - 1) 65535 ltac:(lia)). split; [lia|]. apply Z.div_pos; lia.
Qed.

Lemma ones_sum_add x y : 0 <= x -> 0 <= y -> ones_sum (ones_sum x + y) = ones_sum (x + y).
Proof.
  intros Hx Hy. destruct (ones_sum_congr x Hx) as (k & Hk & Hk0). pose proof (ones_sum_range x). pose proof (ones_sum_zero x Hx) as Hz.
  pose proof (ones_sum_range (ones_sum x + y)). pose proof (ones_sum_zero (ones_sum x + y) ltac:(lia)).
  destruct (ones_sum_congr (ones_sum x + y) ltac:(lia)) as (k' & Hk' & _).
  apply ones_sum_unique; [lia|lia|lia|]. exists (k + k'). lia.
Qed.

(** A sum and its complement. *)
Lemma ones_sum_complement x : 0 <= x -> ones_sum (x + (65535 - ones_sum x)) = 65535.
Proof.
  intros Hx. destruct (ones_sum_congr x Hx) as (k & Hk & Hk0). pose proof (ones_sum_range x).
  symmetry. apply ones_sum_unique; [lia|lia|lia|]. exists k. lia.
Qed.
