(* ===== verification/PingFour.v ===== *)
(** * IPv4 keeps the promises of a protocol

    The packet a probe sends, byte by byte; the memory [ping4_parse_reply] and
    [ping4_receive_error_msg] read is there; what they count. *)

From Stdlib Require Import ZArith Lia.
From stdpp Require Import base gmap numbers option list.
From S2P Require Import Prelude Ping PingSpec PingReply PingOptions PingPacket PingPace.

Local Open Scope Z_scope.

(** ** Bytes *)

Lemma length_le_bytes n : forall v, length (le_bytes n v) = n.
Proof. induction n as [|n IH]; intros v; [done|]. cbn. by rewrite IH. Qed.

Lemma le_bytes_range n : forall v, Forall (in_u 8) (le_bytes n v).
Proof. induction n as [|n IH]; intros v; constructor; [apply wrapu_range; lia|apply IH]. Qed.

Lemma le_value_bytes n : forall v, le_value (le_bytes n v) = v mod 2 ^ (8 * Z.of_nat n).
Proof.
  induction n as [|n IH]; intros v; cbn [le_bytes le_value]; [by rewrite Z.mod_1_r|].
  rewrite IH, Z.shiftr_div_pow2 by lia. unfold wrapu. change (2 ^ 8) with 256.
  replace (8 * Z.of_nat (S n)) with (8 + 8 * Z.of_nat n) by lia. rewrite Z.pow_add_r by lia. change (2 ^ 8) with 256.
  rewrite Z.rem_mul_r; [done|done|]. apply Z.pow_pos_nonneg; lia.
Qed.

Lemma le_value_range l : Forall (in_u 8) l -> 0 <= le_value l < 2 ^ (8 * Z.of_nat (length l)).
Proof.
  induction 1 as [|b l Hb _ IH]; cbn [le_value length]; [cbn; lia|]. unfold in_u in Hb.
  replace (8 * Z.of_nat (S (length l))) with (8 + 8 * Z.of_nat (length l)) by lia. rewrite Z.pow_add_r by lia. change (2 ^ 8) with 256 in *. lia.
Qed.

Lemma length_encode_time t : length (encode_time t) = 16%nat.
Proof. done. Qed.

Lemma encode_time_range t : Forall (in_u 8) (encode_time t).
Proof. apply Forall_app. split; apply le_bytes_range. Qed.

(** Writing a time and reading it back. *)
Lemma decode_encode t rest : in_s 64 (tv_sec t) -> in_s 64 (tv_nsec t) -> decode_time (encode_time t ++ rest) = Some t.
Proof.
  intros H1 H2. unfold decode_time. rewrite length_app, length_encode_time. cbn [Nat.leb Nat.add]. unfold encode_time.
  rewrite <- app_assoc, take_app_length' by (by rewrite length_le_bytes).
  rewrite drop_app_length', take_app_length' by (by rewrite length_le_bytes). rewrite !le_value_bytes.
  change (8 * Z.of_nat 8) with 64. assert (E : forall z, in_s 64 z -> s64 (u64 z mod 2 ^ 64) = z).
  { intros z Hz. rewrite <- (wraps_id 64 z) at 2 by (lia || done). apply wraps_congr. unfold wrapu. by rewrite !Zmod_mod. }
  rewrite !E by done. by destruct t.
Qed.

(** ** Copying into a buffer *)

Lemma memcpy_app a b b' d : length b = length b' -> memcpy (length a) b (a ++ b' ++ d) = Some (a ++ b ++ d).
Proof.
  intros E. unfold memcpy. rewrite !length_app. rewrite (proj2 (Nat.leb_le _ _)) by lia.
  rewrite take_app_length. f_equal. f_equal. f_equal. rewrite E, <- drop_drop, drop_app_length. by rewrite drop_app_length.
Qed.

Lemma memcpy_front b b' d : length b = length b' -> memcpy 0 b (b' ++ d) = Some (b ++ d).
Proof. exact (memcpy_app [] b b' d). Qed.

Lemma load_some off n p : (off + n <= length p)%nat -> load off n p = Some (take n (drop off p)).
Proof. intros H. unfold load. by rewrite (proj2 (Nat.leb_le _ _)). Qed.

Lemma split_at {A} n (p : list A) : (n <= length p)%nat -> exists h q, p = h ++ q /\ length h = n.
Proof. intros H. exists (take n p), (drop n p). split; [by rewrite take_drop|]. rewrite length_take. lia. Qed.

(** ** Sending *)

Section Probe.
Context (c : config) (now : timespec) (s : ping).

Definition probe_seq : Z := u16 (ntransmitted s + 1).

(** The header around a checksum. *)
Definition header (ck : Z) : list Z :=
  [ICMP_ECHO; 0] ++ le_bytes 2 ck ++ le_bytes 2 (ident c) ++ reverse (le_bytes 2 probe_seq).

(** The time the data starts with. *)
Definition stamp_bytes : list Z := if timing c then encode_time now else [].

Definition zero_bytes : list Z := if timing c then (if has s F_LATENCY then encode_time now else replicate 16 0) else [].

(** The rest of the packet, and of the buffer. *)
Definition payload : list Z := drop (8 + length stamp_bytes) (outpack s).

Definition packet_len : nat := Z.to_nat (datalen c + 8).

(** The checksum the code arrives at, in one step or in two. *)
Definition probe_checksum : Z :=
  let ck := in_cksum (take packet_len (header 0 ++ zero_bytes ++ payload)) 0 in
  if timing c && negb (has s F_LATENCY) then in_cksum (encode_time now) (u16 (Z.lnot ck)) else ck.

Definition probe_packet : list Z := header probe_checksum ++ stamp_bytes ++ payload.

Lemma length_header ck : length (header ck) = 8%nat.
Proof. done. Qed.

Lemma load16_header ck rest : 0 <= ck < 65536 -> load16 2 (header ck ++ rest) = Some ck.
Proof.
  intros H. unfold load16. rewrite load_some by (rewrite length_app, length_header; lia). unfold header.
  change (take 2 (drop 2 (([ICMP_ECHO; 0] ++ le_bytes 2 ck ++ le_bytes 2 (ident c) ++ reverse (le_bytes 2 probe_seq)) ++ rest)))
    with (le_bytes 2 ck).
  cbn [fmap option_fmap option_map]. rewrite le_value_bytes. f_equal. apply Z.mod_small. done.
Qed.

Lemma header_memcpy ck ck' rest : memcpy 2 (le_bytes 2 ck') (header ck ++ rest) = Some (header ck' ++ rest).
Proof. exact (memcpy_app [ICMP_ECHO; 0] (le_bytes 2 ck') (le_bytes 2 ck) (le_bytes 2 (ident c) ++ reverse (le_bytes 2 probe_seq) ++ rest) eq_refl). Qed.

Lemma in_cksum_range l x : 0 <= in_cksum l x < 65536.
Proof. apply (wrapu_range 16). lia. Qed.

Lemma ping4_send_run i : ping_ok c s -> exists tbl,
  rcvd_clear probe_seq (rcvd_tbl s) = Some tbl /\
  ping4_send_probe c now i s = Some (if datalen c + 8 =? i then 0 else i, set_outpack probe_packet (set_rcvd_tbl tbl s)).
Proof.
  intros [H1 H2 H3 H4]. destruct (rcvd_clear_run (rcvd_tbl s) probe_seq H2 (seq_range _)) as (tbl & Htbl & _).
  exists tbl. split; [done|]. unfold ping4_send_probe. fold probe_seq.
  destruct (split_at (8 + length stamp_bytes) (outpack s)) as (h0 & q & Eo & Eh).
  { unfold stamp_bytes, timing in *. destruct (Z.leb_spec 16 (datalen c)); rewrite ?length_encode_time; cbn [length]; lia. }
  assert (Eq : payload = q) by (unfold payload; rewrite Eo, <- Eh; apply drop_app_length).
  destruct (split_at 8 h0 ltac:(lia)) as (h & t0 & -> & Eh8). rewrite length_app in Eh.
  assert (Et : length t0 = length stamp_bytes) by lia. rewrite Eo, <- app_assoc.
  change (echo_header c probe_seq) with (header 0). rewrite memcpy_front by (by rewrite length_header).
  cbn [mbind option_bind]. rewrite Htbl. cbn [mbind option_bind].
  assert (E1 : (if timing c then memcpy 8 (if has s F_LATENCY then encode_time now else replicate 16 0) (header 0 ++ t0 ++ q)
    else Some (header 0 ++ t0 ++ q)) = Some (header 0 ++ zero_bytes ++ q)).
  { unfold zero_bytes, stamp_bytes in *. destruct (timing c); [|by destruct t0].
    apply (memcpy_app (header 0)). rewrite Et. by destruct (has s F_LATENCY). }
  rewrite E1. cbn [mbind option_bind]. assert (Ez : length zero_bytes = length stamp_bytes).
  { unfold zero_bytes, stamp_bytes. destruct (timing c); [|done]. by destruct (has s F_LATENCY). }
  rewrite load_some; cycle 1.
  { rewrite Eo, !length_app in H3. rewrite !length_app, length_header, Ez. lia. }
  cbn [mbind option_bind]. rewrite header_memcpy. cbn [mbind option_bind]. fold packet_len. change (drop 0 ?x) with x.
  set (ck := in_cksum (take packet_len (header 0 ++ zero_bytes ++ q)) 0).
  assert (E2 : (if timing c && negb (has s F_LATENCY) then
         p ← memcpy 8 (encode_time now) (header ck ++ zero_bytes ++ q);
         checksum ← load16 2 p;
         memcpy 2 (le_bytes 2 (in_cksum (encode_time now) (u16 (Z.lnot checksum)))) p
       else Some (header ck ++ zero_bytes ++ q)) = Some probe_packet).
  { unfold probe_packet, probe_checksum. rewrite Eq. fold ck. unfold zero_bytes, stamp_bytes in *. destruct (timing c); [|done].
    destruct (has s F_LATENCY); cbn [andb negb]; [done|].
    change 8%nat with (length (header ck)). rewrite memcpy_app by done. cbn [mbind option_bind].
    rewrite load16_header by apply in_cksum_range. cbn [mbind option_bind]. apply header_memcpy. }
  rewrite E2. done.
Qed.

Lemma header_range ck : Forall (in_u 8) (header ck).
Proof.
  unfold header. repeat (apply Forall_app; split); try apply le_bytes_range; [|apply Forall_reverse, le_bytes_range].
  repeat (apply Forall_cons; split); [unfold in_u, ICMP_ECHO; lia..|constructor].
Qed.

Lemma stamp_range : Forall (in_u 8) stamp_bytes.
Proof. unfold stamp_bytes. destruct (timing c); [apply encode_time_range|constructor]. Qed.

Lemma probe_packet_shape : ping_ok c s ->
  length probe_packet = length (outpack s) /\ Forall (in_u 8) probe_packet /\ drop 24 probe_packet = drop 24 (outpack s).
Proof.
  intros [H1 H2 H3 H4]. assert (Hs : (8 + length stamp_bytes <= length (outpack s))%nat /\ (length stamp_bytes <= 16)%nat).
  { unfold stamp_bytes, timing in *. destruct (Z.leb_spec 16 (datalen c)); rewrite ?length_encode_time; cbn [length]; lia. }
  unfold probe_packet, payload. split; [|split].
  - rewrite !length_app, length_drop, length_header. lia.
  - apply Forall_app. split; [apply header_range|]. apply Forall_app. split; [apply stamp_range|by apply Forall_drop].
  - rewrite app_assoc, drop_app_ge by (rewrite length_app, length_header; lia). rewrite length_app, length_header, drop_drop.
    f_equal. lia.
Qed.
End Probe.

(** ** The checksum of a probe *)

Lemma even_header c s ck : Nat.Even (length (header c s ck)).
Proof. by exists 4%nat. Qed.

Lemma wsum_header c s ck : 0 <= ck < 65536 -> wsum (header c s ck) = wsum (header c s 0) + ck.
Proof.
  intros H. assert (E : u8 ck + 256 * u8 (Z.shiftr ck 8) = ck).
  { rewrite Z.shiftr_div_pow2 by lia. unfold wrapu. change (2 ^ 8) with 256. pose proof (Z.div_mod ck 256 ltac:(lia)).
    rewrite (Z.mod_small (ck / 256)); [lia|]. split; [apply Z.div_pos|apply Z.div_lt_upper_bound]; lia. }
  cbn [header app le_bytes wsum]. change (u8 0) with 0. change (u8 (Z.shiftr 0 8)) with 0. lia.
Qed.

Lemma take_packet c s ck t q : length t = length (stamp_bytes c (mkTime 0 0)) -> ping_ok c s ->
  take (packet_len c) (header c s ck ++ t ++ q) = header c s ck ++ t ++ take (packet_len c - 8 - length t) q.
Proof.
  intros Ht [H1 _ H3 _]. assert (Hl : (8 + length t <= packet_len c)%nat).
  { rewrite Ht. unfold packet_len, stamp_bytes, timing. destruct (Z.leb_spec 16 (datalen c)); rewrite ?length_encode_time; cbn [length]; lia. }
  rewrite take_app_ge by (rewrite length_header; lia). rewrite length_header, take_app_ge by lia. done.
Qed.

Lemma probe_checksum_ok c now s : ping_ok c s -> datalen c <= 65507 ->
  in_cksum (take (packet_len c) (probe_packet c now s)) 0 = 0.
Proof.
  intros Hok Hd. pose proof Hok as [H1 _ _ H4].
  assert (Hst : length (stamp_bytes c now) = length (stamp_bytes c (mkTime 0 0))) by (unfold stamp_bytes; by destruct (timing c)).
  assert (Hz : length (zero_bytes c now s) = length (stamp_bytes c now)).
  { unfold zero_bytes, stamp_bytes. destruct (timing c); [|done]. by destruct (has s F_LATENCY). }
  assert (He : Nat.Even (length (stamp_bytes c now))) by (unfold stamp_bytes; destruct (timing c); [by exists 8%nat|by exists 0%nat]).
  unfold probe_packet. rewrite take_packet by done. set (k := (packet_len c - 8 - length (stamp_bytes c now))%nat).
  set (q := take k (payload c now s)). assert (Hq : Forall (in_u 8) q) by (apply Forall_take, Forall_drop, H4).
  assert (Hlen : forall ck t, length t = length (stamp_bytes c now) ->
    (length (header c s ck ++ t ++ q) <= Z.to_nat 65534)%nat).
  { intros ck t Et. rewrite !length_app, length_header, Et. unfold q. rewrite length_take. unfold k, packet_len.
    unfold stamp_bytes. destruct (timing c); rewrite ?length_encode_time; cbn [length]; lia. }
  assert (Hsum : forall ck t, 0 <= ck < 65536 -> Forall (in_u 8) t -> length t = length (stamp_bytes c now) ->
    in_cksum (header c s ck ++ t ++ q) 0 = 65535 - ones_sum (wsum (header c s 0) + ck + (wsum t + wsum q))).
  { intros ck t Hc Hb Et. rewrite in_cksum_run; [|apply Forall_app_2; [apply header_range|by apply Forall_app_2]|by apply Hlen|lia].
    rewrite wsum_app by apply even_header. rewrite (wsum_app t) by (by rewrite Et). by rewrite wsum_header. }
  pose proof (proj1 (wsum_bounds _ (header_range c s 0))) as W0. pose proof (proj1 (wsum_bounds _ Hq)) as Wq.
  pose proof (proj1 (wsum_bounds _ (stamp_range c now))) as Wt.
  rewrite Hsum by (done || apply stamp_range || (unfold probe_checksum; destruct (_ && _); apply in_cksum_range)).
  assert (Eck : probe_checksum c now s = 65535 - ones_sum (wsum (header c s 0) + (wsum (stamp_bytes c now) + wsum q))).
  { unfold probe_checksum. rewrite take_packet by (done || lia || congruence). rewrite Hz. fold k q.
    rewrite Hsum; [|lia|unfold zero_bytes; destruct (timing c); [destruct (has s F_LATENCY); [apply encode_time_range|]|constructor]|done].
    2: { apply Forall_replicate. split; lia. }
    rewrite Z.add_0_r. unfold zero_bytes, stamp_bytes. destruct (timing c); cbn [andb]; [|done].
    destruct (has s F_LATENCY); cbn [negb]; [done|]. change (wsum (replicate 16 0)) with 0. rewrite Z.add_0_l.
    pose proof (ones_sum_range (wsum (header c s 0) + wsum q)). unfold Z.lnot.
    replace (u16 (Z.pred (- (65535 - ones_sum (wsum (header c s 0) + wsum q))))) with (ones_sum (wsum (header c s 0) + wsum q)).
    2: { apply (Z.mod_unique _ _ (-1)); lia. }
    rewrite in_cksum_run by (apply encode_time_range || done || (rewrite length_encode_time; lia)).
    unfold stamp_bytes in Wt. rewrite ones_sum_add by (try lia; apply wsum_bounds, encode_time_range). f_equal. f_equal. lia. }
  rewrite Eck. set (x := wsum (header c s 0) + (wsum (stamp_bytes c now) + wsum q)).
  replace (wsum (header c s 0) + (65535 - ones_sum x) + (wsum (stamp_bytes c now) + wsum q)) with (x + (65535 - ones_sum x)) by (unfold x; lia).
  rewrite ones_sum_complement by (unfold x; lia). done.
Qed.

(** ** Receiving *)

Lemma load16_some off p : Forall (in_u 8) p -> (off + 2 <= length p)%nat -> exists v, load16 off p = Some v /\ 0 <= v < 65536.
Proof.
  intros Hb H. unfold load16. rewrite load_some by done. eexists. split; [reflexivity|].
  pose proof (le_value_range (take 2 (drop off p)) ltac:(by apply Forall_take, Forall_drop)) as Hr.
  rewrite length_take, length_drop in Hr. replace (Nat.min 2 (length p - off)) with 2%nat in Hr by lia. done.
Qed.

Lemma load16_net_some off p : Forall (in_u 8) p -> (off + 2 <= length p)%nat -> exists v, load16_net off p = Some v /\ 0 <= v < 65536.
Proof.
  intros Hb H. unfold load16_net. rewrite load_some by done. eexists. split; [reflexivity|].
  pose proof (le_value_range (reverse (take 2 (drop off p))) ltac:(by apply Forall_reverse, Forall_take, Forall_drop)) as Hr.
  rewrite length_reverse, length_take, length_drop in Hr. replace (Nat.min 2 (length p - off)) with 2%nat in Hr by lia. done.
Qed.

(** The reply that the ICMP packet of [cc] bytes at [icp] is: an echo reply with
    our identifier (a datagram socket gets no others) and the data of our
    probes. *)
Definition reads_icmp (c : config) (data : list Z) (cc : Z) (icp : list Z) : option heard :=
  let n := Z.to_nat (datalen c - 16) in
  if bool_decide (head icp = Some ICMP_ECHOREPLY)
     && (negb (socktype_raw c) || (le_value (take 2 (drop 4 icp)) =? ident c))
     && bool_decide (take n (drop 24 icp) = take n data)
  then Some (mkHeard (le_value (reverse (take 2 (drop 6 icp)))) (negb (in_cksum (take (Z.to_nat cc) icp) 0 =? 0))
               (if timing c && (24 <=? cc)
                then Some (mkTime (s64 (le_value (take 8 (drop 8 icp)))) (s64 (le_value (take 8 (drop 16 icp))))) else None))
  else None.

(** Behind the IP header, which only a raw socket gets. *)
Definition reads4 (c : config) (data : list Z) (m : message) : option heard :=
  if socktype_raw c then
    let hlen := 4 * Z.land (default 0 (head (msg_buf m))) 15 in
    if (20 <=? hlen) && (hlen + 8 <=? msg_cc m)
    then reads_icmp c data (msg_cc m - hlen) (drop (Z.to_nat hlen) (msg_buf m)) else None
  else reads_icmp c data (msg_cc m) (msg_buf m).

(** The memory of an ICMP packet in the buffer, and of the options. *)
Record icmp_ok (c : config) (cc : Z) (icp opts : list Z) (optlen : Z) : Prop := {
  io_bytes : Forall (in_u 8) icp;
  io_len : datalen c + 76 <= Z.of_nat (length icp);
  io_cc : cc <= Z.of_nat (length icp);
  io_opts : Forall (in_u 8) opts;
  io_optmem : optlen + 2 <= Z.of_nat (length opts)
}.

(** The packet [m], which is the reply [h] or none, is entered. *)
Definition counts (s s' : ping) (m : message) (h : option heard) (t : tally) : Prop :=
  received_only s s' /\ table_ok (rcvd_tbl s') /\ books s' (enter m h (ledger_of s t)).

Lemma counts_none s m t : table_ok (rcvd_tbl s) -> tallies s t -> counts s s m None t.
Proof. intros H1 H2. split; [apply received_only_refl|]. split; [done|]. by split. Qed.

Lemma counts_same s s' s'' m h t : counts s s' m h t -> same_counts s' s'' -> received_only s' s'' -> options s'' = options s' -> counts s s'' m h t.
Proof.
  intros (R & Htbl & B1 & B2) S R' O. split; [by eapply received_only_trans|]. split; [destruct S as (-> & _); done|].
  split; [by eapply tallies_same|]. unfold has in *. by rewrite O.
Qed.

Lemma counts_old_rr s s' m h t o : counts s s' m h t -> counts s (set_old_rr o s') m h t.
Proof. intros H. eapply counts_same; [exact H|by repeat split..]. Qed.

Lemma acknowledge_options seq s : options (acknowledge seq s) = options s.
Proof. by destruct (acknowledge_fields seq s) as (_ & _ & _ & _ & -> & _). Qed.

Lemma counts_acknowledge s m t seq : table_ok (rcvd_tbl s) -> tallies s t -> counts s (acknowledge seq s) m None t.
Proof. intros H1 H2. destruct (acknowledge_counts seq s). eapply counts_same; [by apply counts_none|done|done|apply acknowledge_options]. Qed.

Lemma land_15 b : 0 <= Z.land b 15 <= 15.
Proof. change 15 with (Z.ones 4) at 1 2. rewrite Z.land_ones by lia. pose proof (Z.mod_pos_bound b (2 ^ 4) ltac:(lia)). lia. Qed.

Lemma parse_error_run c type cc icp opts optlen m s t : ping_ok c s -> icmp_ok c cc icp opts optlen -> tallies s t ->
  exists no sh s', parse_error c type cc icp s = Some (no, sh, s') /\ counts s s' m None t.
Proof.
  intros Hok [I1 I2 I3 _ _] Ht. pose proof (ok_datalen _ _ Hok) as Hd. pose proof (counts_none s m t (ok_table _ _ Hok) Ht) as Hn.
  unfold parse_error. destruct (lookup_byte icp 8 I1 ltac:(lia)) as (b8 & -> & Hb8). cbn [mbind option_bind].
  pose proof (land_15 b8) as Hi. set (ihl := Z.land b8 15) in *. clearbody ihl.
  destruct (Z.ltb_spec cc (8 + 20 + 8)); [by eexists _, _, _|]. destruct (Z.ltb_spec cc (8 + ihl * 4 + 8)); [by eexists _, _, _|]. cbn [orb].
  set (icp1 := drop _ icp). assert (B1 : Forall (in_u 8) icp1) by (by apply Forall_drop).
  assert (L1 : (8 <= length icp1)%nat) by (unfold icp1; rewrite length_drop; lia).
  destruct (lookup_byte icp1 0 B1 ltac:(lia)) as (type1 & -> & _). cbn [mbind option_bind].
  unfold load32. rewrite load_some by lia. cbn [fmap option_fmap option_map mbind option_bind].
  destruct (load16_some 4 icp1 B1 ltac:(lia)) as (id1 & -> & _). cbn [mbind option_bind].
  destruct (_ || _); [by eexists _, _, _|]. destruct (_ && _).
  { destruct (load16_net_some 6 icp1 B1 ltac:(lia)) as (seq & -> & _). cbn [mbind option_bind]. eexists _, _, _. split; [reflexivity|].
    apply counts_acknowledge; [apply Hok|done]. }
  destruct (_ || _); [by eexists _, _, _|]. destruct (has s F_VERBOSE); [|by eexists _, _, _].
  unfold pr_iph. rewrite lookup_drop. destruct (lookup_byte icp (8 + 0) I1 ltac:(lia)) as (b & -> & Hb). cbn [mbind option_bind].
  pose proof (land_15 b) as Hi'. destruct (pr_options_total (has s F_FLOOD) (drop 20 (drop 8 icp)) (4 * Z.land b 15) (old_rr s)) as (l & old & ->).
  - by apply Forall_drop, Forall_drop.
  - lia.
  - rewrite !length_drop. lia.
  - cbn [mbind option_bind]. eexists _, _, _. split; [reflexivity|]. by apply counts_old_rr.
Qed.

Lemma check_data_reads c icp s : readable c (drop 8 icp) s -> let n := Z.to_nat (datalen c - 16) in
  check_data c (drop 8 icp) s = Some None <-> take n (drop 24 icp) = take n (drop 24 (outpack s)).
Proof.
  intros [H1 H2] n. unfold check_data. rewrite wrong_data_none by (rewrite ?length_drop in *; lia). by rewrite drop_drop.
Qed.

Lemma head_lookup (l : list Z) : head l = l !! 0%nat.
Proof. by destruct l. Qed.

(** What the account reads is what the code hands to [gather_statistics]. *)
Lemma reads_icmp_run c cc icp opts optlen s type id seq w : icmp_ok c cc icp opts optlen -> 0 <= datalen c -> readable c (drop 8 icp) s ->
  icp !! 0%nat = Some type -> load16 4 icp = Some id -> load16_net 6 icp = Some seq -> check_data c (drop 8 icp) s = Some w ->
  reads_icmp c (drop 24 (outpack s)) cc icp
  = if (type =? ICMP_ECHOREPLY) && is_ours c id && match w with None => true | Some _ => false end
    then Some (heard_at c (drop 8 icp) cc seq (negb (in_cksum (take (Z.to_nat cc) icp) 0 =? 0))) else None.
Proof.
  intros [I1 I2 I3 _ _] Hd Hr Ht Hid Hseq Hw. unfold reads_icmp, load16, load16_net, is_ours, heard_at in *.
  rewrite load_some in Hid, Hseq by lia. injection Hid as <-. injection Hseq as <-. rewrite head_lookup, Ht.
  pose proof (check_data_reads c icp s Hr) as Hc. cbv zeta in Hc. rewrite Hw in Hc.
  rewrite (bool_decide_ext (take _ _ = _) (w = None)) by (rewrite <- Hc; split; congruence).
  rewrite (bool_decide_ext (Some type = _) (type = ICMP_ECHOREPLY)) by (split; congruence).
  unfold decode_time. rewrite (proj2 (Nat.leb_le _ _)) by (rewrite length_drop; lia). rewrite drop_drop.
  destruct (Z.eqb_spec type ICMP_ECHOREPLY) as [->|Hne]; [rewrite (bool_decide_true (_ = _)) by done|by rewrite bool_decide_false].
  cbn [andb]. by destruct w.
Qed.

(** Only a route wider than [old_rr] takes the code out of its memory. *)
Lemma parse_icmp_cases c cc icp opts optlen m s t : ping_ok c s -> icmp_ok c cc icp opts optlen -> tallies s t ->
  (exists no sh s', parse_icmp c cc icp opts optlen m s = Some (no, sh, s')
     /\ counts s s' m (reads_icmp c (drop 24 (outpack s)) cc icp) t)
  \/ (parse_icmp c cc icp opts optlen m s = None /\ wide_route opts optlen = true).
Proof.
  intros Hok Hi Ht. pose proof Hi as [I1 I2 I3 I4 I6]. pose proof (ok_datalen _ _ Hok) as Hd. pose proof (ok_pack _ _ Hok) as Hpk.
  pose proof (counts_none s m t (ok_table _ _ Hok) Ht) as Hn. unfold parse_icmp. rewrite load_some by lia. cbn [mbind option_bind].
  change (drop 0 icp) with icp. set (cs := negb (_ =? 0)).
  assert (Hr : readable c (drop 8 icp) s) by (split; rewrite ?length_drop; lia).
  destruct (lookup_byte icp 0 I1 ltac:(lia)) as (type & E0 & _). destruct (load16_some 4 icp I1 ltac:(lia)) as (id & E4 & _).
  destruct (load16_net_some 6 icp I1 ltac:(lia)) as (seq & E6 & Hq). destruct (check_data_total c (drop 8 icp) s Hr) as [w Ew].
  rewrite (reads_icmp_run c cc icp opts optlen s type id seq w) by done. fold cs. rewrite E0. cbn [mbind option_bind].
  destruct (type =? ICMP_ECHOREPLY); cbn [andb].
  { rewrite E4. cbn [mbind option_bind]. destruct (is_ours c id); cbn [negb andb]; [|left; by eexists _, _, _].
    unfold contains_pattern_in_payload. rewrite Ew. cbn [mbind option_bind].
    destruct w; cbn [negb]; [left; by eexists _, _, _|]. rewrite E6. cbn [mbind option_bind].
    destruct (gather_books c (drop 8 icp) cc seq cs m s t Ht (ok_table _ _ Hok) Hr Hq) as (sh & s1 & -> & C1).
    cbn [mbind option_bind]. destruct (_ || _); [left; by eexists _, _, _|].
    destruct (pr_options (has s1 F_FLOOD) opts (optlen + 20) (old_rr s1)) as [[l old]|] eqn:Eo; cbn [mbind option_bind].
    - left. eexists _, _, _. split; [reflexivity|]. by apply counts_old_rr.
    - right. split; [done|]. destruct (wide_route opts optlen) eqn:Ewide; [done|].
      destruct (pr_options_safe (has s1 F_FLOOD) opts (optlen + 20) (old_rr s1)) as (l & old & E); [done| |lia|congruence].
      by replace (optlen + 20 - 20) with optlen by lia. }
  left. destruct (type =? ICMP_ECHO); [by eexists _, _, _|].
  destruct (is_error_type type); [by eapply parse_error_run|by eexists _, _, _].
Qed.

(** What the kernel delivers: a buffer of [packlen] bytes at least, filled with
    [msg_cc] of them, and the options of the packet, with the length that is
    written in the header of their control message. *)
Definition delivered4 (c : config) (m : message) : Prop :=
  Forall (in_u 8) (msg_buf m) /\ datalen c + 136 <= Z.of_nat (length (msg_buf m)) /\ 0 <= msg_cc m <= Z.of_nat (length (msg_buf m))
  /\ match msg_retopts m with
     | None => True
     | Some (o, n) => Forall (in_u 8) o /\ n + 2 <= Z.of_nat (length o)
     end.

(** A datagram socket gives options with a route that [old_rr] cannot hold. *)
Definition route_too_wide (c : config) (m : message) : bool :=
  negb (socktype_raw c) && match msg_retopts m with None => false | Some (o, n) => wide_route o n end.

Definition message4_ok (c : config) (m : message) : Prop := delivered4 c m /\ route_too_wide c m = false.

Lemma ping4_parse_cases c m s t : ping_ok c s -> delivered4 c m -> tallies s t ->
  (exists no sh s', ping4_parse_reply c m s = Some (no, sh, s') /\ counts s s' m (reads4 c (drop 24 (outpack s)) m) t)
  \/ (ping4_parse_reply c m s = None /\ route_too_wide c m = true).
Proof.
  intros Hok (M1 & M2 & M3 & M4) Ht. pose proof (ok_datalen _ _ Hok) as Hd. pose proof (counts_none s m t (ok_table _ _ Hok) Ht) as Hn.
  unfold ping4_parse_reply, reads4, route_too_wide. destruct (socktype_raw c); cbn [negb andb].
  - rewrite head_lookup. destruct (lookup_byte (msg_buf m) 0 M1 ltac:(lia)) as (b0 & -> & _). cbn [mbind option_bind default from_option id]. pose proof (land_15 b0).
    replace (4 * Z.land b0 15) with (Z.land b0 15 * 4) by lia.
    destruct (Z.ltb_spec (msg_cc m) (Z.land b0 15 * 4 + 8)).
    { left. rewrite (proj2 (Z.leb_gt _ (msg_cc m))), andb_false_r by lia. by eexists _, _, _. }
    destruct (Z.ltb_spec (Z.land b0 15) 5); cbn [orb]; [left; rewrite (proj2 (Z.leb_gt 20 _)) by lia; by eexists _, _, _|].
    rewrite (proj2 (Z.leb_le 20 _)), (proj2 (Z.leb_le _ (msg_cc m))) by lia. cbn [andb].
    destruct (parse_icmp_cases c (msg_cc m - Z.land b0 15 * 4) (drop (Z.to_nat (Z.land b0 15 * 4)) (msg_buf m)) (drop 20 (msg_buf m)) (Z.land b0 15 * 4 - 20) m s t)
      as [?|[_ Hw]]; [done| |done|by left|].
    + split; try (by apply Forall_drop); rewrite ?length_drop; lia.
    + rewrite narrow_route in Hw by lia. done.
  - destruct (msg_retopts m) as [[o n]|]; cbn [default from_option id].
    + apply parse_icmp_cases; [done| |done]. destruct M4. by split; try lia.
    + destruct (parse_icmp_cases c (msg_cc m) (msg_buf m) (msg_buf m) 0 m s t) as [?|[_ Hw]]; [done| |done|by left|by rewrite narrow_route in Hw].
      split; try done; lia.
Qed.

Lemma ping4_parse_run c m s t : ping_ok c s -> message4_ok c m -> tallies s t ->
  exists no sh s', ping4_parse_reply c m s = Some (no, sh, s') /\ counts s s' m (reads4 c (drop 24 (outpack s)) m) t.
Proof. intros Hok [Hm Hw] Ht. destruct (ping4_parse_cases c m s t Hok Hm Ht) as [?|[_ E]]; [done|]. by rewrite Hw in E. Qed.

Lemma seq_field_range off p : Forall (in_u 8) p -> 0 <= le_value (reverse (take 2 (drop off p))) < MAX_DUP_CHK.
Proof.
  intros Hb. pose proof (le_value_range (reverse (take 2 (drop off p))) ltac:(by apply Forall_reverse, Forall_take, Forall_drop)) as Hr.
  rewrite length_reverse, length_take in Hr. unfold MAX_DUP_CHK.
  set (k := Nat.min 2 (length (drop off p))) in *. assert (Hk : (k <= 2)%nat) by (unfold k; lia). clearbody k.
  destruct k as [|[|[|]]]; cbn in Hr; lia.
Qed.

Lemma reads4_range c data m h : delivered4 c m -> reads4 c data m = Some h -> 0 <= he_seq h < MAX_DUP_CHK.
Proof.
  intros (M1 & _). assert (Hi : forall cc icp, Forall (in_u 8) icp -> reads_icmp c data cc icp = Some h -> 0 <= he_seq h < MAX_DUP_CHK).
  { intros cc icp Hb. unfold reads_icmp. destruct (_ && _); [|done]. intros E%(inj Some). rewrite <- E. cbn [he_seq]. by apply seq_field_range. }
  unfold reads4. destruct (socktype_raw c); [|by apply Hi]. destruct (_ && _); [|done]. by apply Hi, Forall_drop.
Qed.

Lemma ping4_error_run c q errno s : exists r errno' s',
  ping4_receive_error_msg c q errno s = Some (r, errno', s') /\ errors_only s s'.
Proof.
  assert (H0 : errors_only s s) by (by destruct s).
  destruct q as [[|target icmph|]|]; cbn [ping4_receive_error_msg]; try (by eexists _, _, _).
  { eexists _, _, _. split; [reflexivity|]. by destruct (has s F_QUIET), s. }
  destruct (Nat.ltb_spec (length icmph) 8); [by eexists _, _, _|].
  destruct (lookup_lt_is_Some_2 icmph 0 ltac:(lia)) as [b ->]. cbn [mbind option_bind].
  unfold load16, load16_net. rewrite !load_some by lia. cbn [fmap option_fmap option_map mbind option_bind].
  destruct (_ || _); [by eexists _, _, _|]. eexists _, _, _. split; [reflexivity|].
  unfold errors_only, acknowledge. destruct (_ <=? _); [|by destruct s]. destruct (pipesize s <? _); destruct (_ || _); by destruct s.
Qed.

#[export] Instance ping4_laws : FuncSetLaws ping4_func_set.
Proof.
  refine {| message_ok := message4_ok; reads := reads4 |}.
  - intros c now i s Hok. destruct (ping4_send_run c now s i Hok) as (tbl & Htbl & E). exists (probe_packet c now s), tbl, (confirm s).
    split; [etransitivity; [exact E|by destruct s]|]. split; [exact Htbl|]. by destruct (probe_packet_shape c now s Hok) as (? & ? & ?).
  - intros c q errno s. apply ping4_error_run.
  - intros c data m h [Hm _]. by apply reads4_range.
  - intros c m s t Hok Hm Ht. destruct (ping4_parse_run c m s t Hok Hm Ht) as (no & sh & s' & E & R & Htbl & H). by exists no, sh, s'.
Defined.

(** ** The data is compared once *)

Lemma noted_outpack c ptr cc seq cs tv now s x s' : noted c ptr cc seq cs tv now s = Some (x, s') -> outpack s' = outpack s.
Proof.
  unfold noted. cbv zeta. set (s1 := if cs then _ else _).
  assert (E1 : outpack s1 = outpack s).
  { unfold s1. destruct cs; [done|]. apply (proj2 (acknowledge_counts seq (set_nreceived (nreceived s + 1) s))). }
  clearbody s1. destruct (_ && _); [|intros [= _ <-]; done]. destruct (decode_time ptr) as [sent|]; [|done].
  pose proof (triptime_run tv sent now s1) as H. destruct (triptime tv sent now s1) as [t s2]. destruct H as (_ & _ & R).
  destruct cs; intros [= _ <-]; [rewrite <- E1; apply R|].
  destruct (account_run c t s2) as (R' & _). rewrite (ro_outpack _ _ R'), (ro_outpack _ _ R). done.
Qed.

Lemma filed_outpack seq cs s d s' : filed seq cs s = Some (d, s') -> outpack s' = outpack s.
Proof.
  unfold filed. destruct cs; [by intros [= _ <-]|]. destruct (rcvd_test seq (rcvd_tbl s)); [|done].
  destruct (negb _); [by intros [= _ <-]|]. destruct (rcvd_set seq (rcvd_tbl s)); [|done]. by intros [= _ <-].
Qed.

Lemma gather_checked c ptr cc seq cs tv now s x d b w s' :
  gather_statistics c ptr cc seq cs tv now s = Some (Line x d b w, s') -> check_data c ptr s = Some w.
Proof.
  unfold gather_statistics. destruct (noted c ptr cc seq cs tv now s) as [[t s1]|] eqn:E1; [|done].
  destruct (filed seq cs s1) as [[dup s2]|] eqn:E2; [|done]. set (s3 := set_confirm _ s2).
  assert (Eo : outpack s3 = outpack s) by (rewrite <- (noted_outpack _ _ _ _ _ _ _ _ _ _ E1), <- (filed_outpack _ _ _ _ _ E2); done).
  destruct (show_reply c ptr cc t dup cs s3) as [sh|] eqn:E3; [|done]. intros [= -> _]. unfold show_reply in E3.
  destruct (has s3 F_QUIET); [done|]. destruct (has s3 F_FLOOD); [done|]. destruct (cc <? _); [done|].
  unfold check_data in *. rewrite Eo in E3. destruct (wrong_data _ _ _ _); [|done]. by injection E3 as _ _ _ ->.
Qed.

Lemma parse_icmp_no_wrong c cc icp opts optlen m s no x d b w s' :
  parse_icmp c cc icp opts optlen m s = Some (no, Line x d b w, s') -> w = None.
Proof.
  unfold parse_icmp, contains_pattern_in_payload. destruct (load 0 _ icp); [|done]. cbn [mbind option_bind]. set (cs := negb (_ =? 0)).
  destruct (icp !! 0%nat) as [type|]; [|done]. cbn [mbind option_bind]. destruct (type =? ICMP_ECHOREPLY).
  - destruct (load16 4 icp); [|done]. cbn [mbind option_bind]. destruct (negb (is_ours _ _)); [done|].
    destruct (check_data c (drop 8 icp) s) as [[?|]|] eqn:Ec; cbn [mbind option_bind negb]; [done| |done].
    destruct (load16_net 6 icp) as [seq|]; [|done]. cbn [mbind option_bind].
    destruct (gather_statistics _ _ _ _ _ _ _ _) as [[sh s1]|] eqn:Eg; [|done]. cbn [mbind option_bind].
    intros H. assert (Es : sh = Line x d b w).
    { destruct (_ || _); [by injection H as _ -> _|]. destruct (pr_options _ _ _ _) as [[txt old]|]; [|done]. by injection H as _ -> _. }
    subst sh. apply gather_checked in Eg. congruence.
  - destruct (type =? ICMP_ECHO); [done|]. destruct (is_error_type type); [|done]. unfold parse_error.
    repeat (match goal with
            | |- context [mbind _ ?o] => destruct o; [|done]; cbn [mbind option_bind]
            | |- context [if ?b then _ else _] => destruct b
            end; try done).
    all: destruct p; done.
Qed.

Lemma parse_no_wrong c m s no x d b w s' : ping4_parse_reply c m s = Some (no, Line x d b w, s') -> w = None.
Proof.
  unfold ping4_parse_reply. destruct (socktype_raw c).
  - destruct (msg_buf m !! 0%nat); [|done]. cbn [mbind option_bind]. destruct (_ || _); [done|]. apply parse_icmp_no_wrong.
  - destruct (default _ _) as [opts optlen]. apply parse_icmp_no_wrong.
Qed.

(** ** From a probe to its echo

    The packet [ping4_send_probe] sends, sent back by a host that answers
    echo requests, is a good reply for [ping4_parse_reply], with the number of
    the probe and the time between the two. *)

(** The answer of a host to an echo request: the type is that of a reply, the
    checksum is right, the rest is what was sent (RFC 792). *)
Definition echo_of (pkt r : list Z) : Prop :=
  Forall (in_u 8) r /\ in_cksum r 0 = 0 /\ exists k1 k2, r = [ICMP_ECHOREPLY; 0; k1; k2] ++ drop 4 pkt.

Lemma triptime_forward tv sent now s : 0 <= nanos tv - nanos sent < 2 ^ 63 ->
  fst (triptime tv sent now s) = nanos tv - nanos sent.
Proof.
  intros H. unfold triptime. assert (E : s64 (tv_sec (tvsub tv sent) * 1000000000 + tv_nsec (tvsub tv sent)) = nanos tv - nanos sent).
  { unfold tvsub. destruct (_ <? 0); cbn [tv_sec tv_nsec]; rewrite wraps_id; unfold nanos, in_s in *; lia. }
  rewrite E, (proj2 (Z.ltb_ge _ _)) by lia. done.
Qed.

Section Echo.
Context (c : config) (now : timespec) (s : ping).
Hypothesis Hok : ping_ok c s.
Hypothesis Hident : 0 <= ident c < 65536.

(** The bytes of the reply. *)
Lemma echo_bytes r : echo_of (take (packet_len c) (probe_packet c now s)) r -> exists k1 k2,
  r = [ICMP_ECHOREPLY; 0; k1; k2] ++ le_bytes 2 (ident c) ++ reverse (le_bytes 2 (probe_seq s))
      ++ stamp_bytes c now ++ take (packet_len c - 8 - length (stamp_bytes c now)) (payload c now s).
Proof.
  intros (_ & _ & k1 & k2 & ->). exists k1, k2. unfold probe_packet. rewrite take_packet; [done| |done].
  unfold stamp_bytes. by destruct (timing c).
Qed.

Lemma length_echo r : echo_of (take (packet_len c) (probe_packet c now s)) r -> Z.of_nat (length r) = datalen c + 8.
Proof.
  intros (k1 & k2 & ->)%echo_bytes. pose proof Hok as [H1 _ H3 _]. rewrite !length_app, length_reverse, !length_le_bytes, length_take.
  unfold payload. rewrite length_drop. unfold packet_len, stamp_bytes, timing. destruct (Z.leb_spec 16 (datalen c)); rewrite ?length_encode_time; cbn [length]; lia.
Qed.

Lemma echo_fields r rest : echo_of (take (packet_len c) (probe_packet c now s)) r ->
  (r ++ rest) !! 0%nat = Some ICMP_ECHOREPLY /\ load16 4 (r ++ rest) = Some (ident c) /\ load16_net 6 (r ++ rest) = Some (probe_seq s)
  /\ drop 8 (r ++ rest) = stamp_bytes c now ++ take (packet_len c - 8 - length (stamp_bytes c now)) (payload c now s) ++ rest.
Proof.
  intros (k1 & k2 & ->)%echo_bytes. rewrite <- !app_assoc. set (q := take _ _). set (t := stamp_bytes c now). split; [done|].
  unfold load16, load16_net. rewrite !load_some by (rewrite !length_app, length_reverse, !length_le_bytes; cbn [length]; lia).
  cbn [fmap option_fmap option_map].
  change (take 2 (drop 4 ([ICMP_ECHOREPLY; 0; k1; k2] ++ le_bytes 2 (ident c) ++ reverse (le_bytes 2 (probe_seq s)) ++ t ++ q ++ rest)))
    with (le_bytes 2 (ident c)).
  change (take 2 (drop 6 ([ICMP_ECHOREPLY; 0; k1; k2] ++ le_bytes 2 (ident c) ++ reverse (le_bytes 2 (probe_seq s)) ++ t ++ q ++ rest)))
    with (reverse (le_bytes 2 (probe_seq s))).
  rewrite reverse_involutive, !le_value_bytes. split_and!; [f_equal; by apply Z.mod_small| |done].
  f_equal. apply Z.mod_small. apply seq_range.
Qed.

(** The data that comes back is what [outpack] still holds. *)
Lemma echo_data r rest s' : echo_of (take (packet_len c) (probe_packet c now s)) r -> drop 24 (outpack s') = drop 24 (outpack s) ->
  check_data c (drop 8 (r ++ rest)) s' = Some None.
Proof.
  intros He Ed. destruct (echo_fields r rest He) as (_ & _ & _ & ->). unfold check_data. rewrite Ed. pose proof Hok as [H1 _ H3 _].
  destruct (Z.lt_ge_cases (datalen c) 17) as [Hs|Hs]; [by replace (Z.to_nat (datalen c - 16)) with 0%nat by lia|].
  assert (Et : stamp_bytes c now = encode_time now) by (unfold stamp_bytes, timing; by rewrite (proj2 (Z.leb_le _ _)) by lia).
  unfold payload. rewrite Et, length_encode_time. change (drop 16 (encode_time now ++ ?x)) with x. change (8 + 16)%nat with 24%nat.
  set (n := Z.to_nat (datalen c - 16)). replace (packet_len c - 8 - 16)%nat with n by (unfold n, packet_len; lia).
  assert (Hn : (n <= length (drop 24 (outpack s)))%nat) by (rewrite length_drop; lia).
  apply wrong_data_none; [rewrite length_app, length_take; lia|done|].
  rewrite take_app_le by (rewrite length_take; lia). rewrite take_take. f_equal. lia.
Qed.

Lemma echo_time r rest tv clock s' : echo_of (take (packet_len c) (probe_packet c now s)) r ->
  in_s 64 (tv_sec now) -> in_s 64 (tv_nsec now) -> 0 <= nanos tv - nanos now < 2 ^ 63 ->
  reply_time c (drop 8 (r ++ rest)) (datalen c + 8) tv clock s' = if timing c then Some (nanos tv - nanos now) else None.
Proof.
  intros He H1 H2 H3. destruct (echo_fields r rest He) as (_ & _ & _ & ->). unfold reply_time, stamp_bytes. destruct (timing c) eqn:Et; [|done].
  unfold timing in Et. apply Z.leb_le in Et. rewrite (proj2 (Z.leb_le 24 _)) by lia. cbn [andb].
  rewrite decode_encode by done. cbn. by rewrite triptime_forward.
Qed.

(** The ICMP part of the packet that brings the echo. *)
Lemma echo_parse r rest opts optlen m s' t : echo_of (take (packet_len c) (probe_packet c now s)) r ->
  in_s 64 (tv_sec now) -> in_s 64 (tv_nsec now) -> 0 <= nanos (msg_time m) - nanos now < 2 ^ 63 ->
  icmp_ok c (datalen c + 8) (r ++ rest) opts optlen -> wide_route opts optlen = false -> ping_ok c s' -> drop 24 (outpack s') = drop 24 (outpack s) -> tallies s' t ->
  exists sh s3, parse_icmp c (datalen c + 8) (r ++ rest) opts optlen m s' = Some (false, sh, s3)
  /\ tallies s3 (tally_reply (mkReply (probe_seq s) false (if timing c then Some (nanos (msg_time m) - nanos now) else None)) t).
Proof.
  intros He H1 H2 Htime [I1 I2 I3 I4 I6] Hw Hok' Hpat Ht. pose proof (length_echo r He) as Hlr. pose proof (ok_datalen _ _ Hok) as Hd.
  destruct (echo_fields r rest He) as (F1 & F2 & F3 & _). pose proof (echo_data r rest s' He Hpat) as F4.
  pose proof (echo_time r rest (msg_time m) (msg_clock m) s' He H1 H2 Htime) as F5.
  unfold parse_icmp. rewrite load_some by (rewrite length_app; lia). cbn [mbind option_bind]. change (drop 0 (r ++ rest)) with (r ++ rest).
  rewrite take_app_length' by lia. destruct He as (_ & Hck & _). rewrite Hck. cbn [Z.eqb negb]. rewrite F1. cbn [mbind option_bind ICMP_ECHOREPLY Z.eqb].
  rewrite F2. cbn [mbind option_bind]. unfold is_ours. rewrite Z.eqb_refl, orb_true_r. cbn [negb].
  unfold contains_pattern_in_payload. rewrite F4. cbn [mbind option_bind negb]. rewrite F3. cbn [mbind option_bind].
  destruct (gather_run c (drop 8 (r ++ rest)) (datalen c + 8) (probe_seq s) false (msg_time m) (msg_clock m) s' t Ht (ok_table _ _ Hok'))
    as (sh & s3 & Eg & _ & _ & T3 & _); [|apply seq_range|].
  { destruct Hok' as [O1 _ O3 _]. split; rewrite ?length_drop, ?length_app; lia. }
  rewrite Eg. cbn [mbind option_bind]. unfold gathered_reply in T3. rewrite F5 in T3.
  destruct (gathered sh || has s3 F_FLOOD); [by exists sh, s3|].
  destruct (pr_options_safe (has s3 F_FLOOD) opts (optlen + 20) (old_rr s3)) as (l & old & ->);
    [done|by replace (optlen + 20 - 20) with optlen by lia|lia|].
  cbn [mbind option_bind]. exists sh, (set_old_rr old s3). split; [done|]. eapply tallies_same; [|exact T3]. by repeat split.
Qed.
End Echo.
