(* ===== verification/PingSetup.v ===== *)
(** * The options of ping and the setup of a run

    The option loop of [main] and the IP options of [ping4_run] in
    iputils-ns/ping.c, [fill] and [setup] of ping_common.c.  An option comes
    with what [atoi], [strtod] or [strtol] make of its argument; exits with
    status 2 are the value [Exit]. *)

From Stdlib Require Import ZArith Lia.
From stdpp Require Import base numbers option list.
From S2P Require Import Prelude Ping PingOptions PingPacket.

Local Open Scope Z_scope.

Definition F_NUMERIC : Z := 0x004.
Definition F_PINGFILLED : Z := 0x008.
Definition F_RROUTE : Z := 0x020.
Definition F_SO_DEBUG : Z := 0x040.
Definition F_SO_DONTROUTE : Z := 0x080.
Definition F_TIMESTAMP : Z := 0x200.
Definition F_SOURCEROUTE : Z := 0x400.
Definition F_AUDIBLE : Z := 0x2000.
Definition F_STRICTSOURCE : Z := 0x8000.
Definition F_NOLOOP : Z := 0x10000.
Definition F_TTL : Z := 0x20000.
Definition F_MARK : Z := 0x40000.
Definition F_PTIMEOFDAY : Z := 0x80000.

Definition MAXPACKET : Z := 128000.
Definition DEFDATALEN : Z := 64 - 8.
Definition MAXWAIT : Z := 10.
Definition NROUTES : Z := 9.
Definition INTMAX : Z := 2 ^ 31 - 1.

(** ** The pattern of option -p *)

Definition isxdigit (ch : Z) : bool :=
  ((48 <=? ch) && (ch <=? 57)) || ((65 <=? ch) && (ch <=? 70)) || ((97 <=? ch) && (ch <=? 102)).

Definition xdigit (ch : Z) : Z := if ch <=? 57 then ch - 48 else if ch <=? 70 then ch - 55 else ch - 87.

(** [sscanf] with [n] times "%2x". *)
Fixpoint scan_pattern (n : nat) (l : list Z) : list Z :=
  match n, l with
  | S n', a :: b :: l' => (16 * xdigit a + xdigit b) :: scan_pattern n' l'
  | S _, [a] => [xdigit a]
  | _, _ => []
  end.

(** The pattern is laid down again and again. *)
Fixpoint lay (fuel : nat) (pat : list Z) (kk : Z) (last : Z) (p : list Z) : option (list Z) :=
  match fuel with
  | O => None
  | S fuel' =>
      if kk <=? last then
        match memcpy (8 + Z.to_nat kk) pat p with
        | None => None
        | Some p => lay fuel' pat (kk + Z.of_nat (length pat)) last p
        end
      else Some p
  end.

Inductive result {A : Type} :=
  | Done (a : A)
  | Exit.
Arguments result A : clear implicits.

Definition fill (patp : list Z) (packet : list Z) : option (result (list Z)) :=
  if forallb isxdigit patp then
    let pat := scan_pattern 16 patp in
    let ii := Z.of_nat (length pat) in
    if 0 <? ii then
      p ← lay (S (length packet)) pat 0 (u32 (Z.of_nat (length packet) - (8 + ii))) packet; Some (Done p)
    else Some (Done packet)
  else Some Exit.

(** ** The options *)

Inductive opt :=
  | Opt_b | Opt_R | Opt_T (ts_type : option Z)
  | Opt_a | Opt_A | Opt_B | Opt_c (n : Z) | Opt_d | Opt_D
  | Opt_i (valid : bool) (ms : Z)
  | Opt_l (n : Z) | Opt_L | Opt_m (valid : bool) (mark : Z) | Opt_M (pmtudisc : option Z) | Opt_n | Opt_O | Opt_f
  | Opt_p (pattern : list Z) | Opt_q | Opt_Q (tos : option Z) | Opt_r | Opt_s (n : Z) | Opt_S (n : Z) | Opt_t (n : Z)
  | Opt_U | Opt_v | Opt_w (n : Z) | Opt_W (n : Z).

(** The globals the options set. *)
Record settings := mkSettings {
  st_options : Z;
  st_broadcast : bool;
  st_ts_type : Z;
  st_npackets : Z;
  st_interval : Z;
  st_preload : Z;
  st_mark : Z;
  st_pmtudisc : Z;
  st_tos : Z;
  st_datalen : Z;
  st_sndbuf : Z;
  st_ttl : Z;
  st_deadline : Z;
  st_lingertime : Z;
  st_outpack : list Z
}.

Definition defaults : settings :=
  mkSettings 0 false 0 0 1000 1 0 (-1) 0 DEFDATALEN 0 0 0 (MAXWAIT * 1000) (replicate (Z.to_nat MAXPACKET) 0).

Definition put_options (x : Z) (s : settings) : settings :=
  mkSettings x (st_broadcast s) (st_ts_type s) (st_npackets s) (st_interval s) (st_preload s)
    (st_mark s) (st_pmtudisc s) (st_tos s) (st_datalen s) (st_sndbuf s) (st_ttl s) (st_deadline
    s) (st_lingertime s) (st_outpack s).
Definition put_broadcast (x : bool) (s : settings) : settings :=
  mkSettings (st_options s) x (st_ts_type s) (st_npackets s) (st_interval s) (st_preload s)
    (st_mark s) (st_pmtudisc s) (st_tos s) (st_datalen s) (st_sndbuf s) (st_ttl s) (st_deadline
    s) (st_lingertime s) (st_outpack s).
Definition put_ts_type (x : Z) (s : settings) : settings :=
  mkSettings (st_options s) (st_broadcast s) x (st_npackets s) (st_interval s) (st_preload s)
    (st_mark s) (st_pmtudisc s) (st_tos s) (st_datalen s) (st_sndbuf s) (st_ttl s) (st_deadline
    s) (st_lingertime s) (st_outpack s).
Definition put_npackets (x : Z) (s : settings) : settings :=
  mkSettings (st_options s) (st_broadcast s) (st_ts_type s) x (st_interval s) (st_preload s)
    (st_mark s) (st_pmtudisc s) (st_tos s) (st_datalen s) (st_sndbuf s) (st_ttl s) (st_deadline
    s) (st_lingertime s) (st_outpack s).
Definition put_interval (x : Z) (s : settings) : settings :=
  mkSettings (st_options s) (st_broadcast s) (st_ts_type s) (st_npackets s) x (st_preload s)
    (st_mark s) (st_pmtudisc s) (st_tos s) (st_datalen s) (st_sndbuf s) (st_ttl s) (st_deadline
    s) (st_lingertime s) (st_outpack s).
Definition put_preload (x : Z) (s : settings) : settings :=
  mkSettings (st_options s) (st_broadcast s) (st_ts_type s) (st_npackets s) (st_interval s) x
    (st_mark s) (st_pmtudisc s) (st_tos s) (st_datalen s) (st_sndbuf s) (st_ttl s) (st_deadline
    s) (st_lingertime s) (st_outpack s).
Definition put_mark (x : Z) (s : settings) : settings :=
  mkSettings (st_options s) (st_broadcast s) (st_ts_type s) (st_npackets s) (st_interval s)
    (st_preload s) x (st_pmtudisc s) (st_tos s) (st_datalen s) (st_sndbuf s) (st_ttl s)
    (st_deadline s) (st_lingertime s) (st_outpack s).
Definition put_pmtudisc (x : Z) (s : settings) : settings :=
  mkSettings (st_options s) (st_broadcast s) (st_ts_type s) (st_npackets s) (st_interval s)
    (st_preload s) (st_mark s) x (st_tos s) (st_datalen s) (st_sndbuf s) (st_ttl s) (st_deadline
    s) (st_lingertime s) (st_outpack s).
Definition put_tos (x : Z) (s : settings) : settings :=
  mkSettings (st_options s) (st_broadcast s) (st_ts_type s) (st_npackets s) (st_interval s)
    (st_preload s) (st_mark s) (st_pmtudisc s) x (st_datalen s) (st_sndbuf s) (st_ttl s)
    (st_deadline s) (st_lingertime s) (st_outpack s).
Definition put_datalen (x : Z) (s : settings) : settings :=
  mkSettings (st_options s) (st_broadcast s) (st_ts_type s) (st_npackets s) (st_interval s)
    (st_preload s) (st_mark s) (st_pmtudisc s) (st_tos s) x (st_sndbuf s) (st_ttl s)
    (st_deadline s) (st_lingertime s) (st_outpack s).
Definition put_sndbuf (x : Z) (s : settings) : settings :=
  mkSettings (st_options s) (st_broadcast s) (st_ts_type s) (st_npackets s) (st_interval s)
    (st_preload s) (st_mark s) (st_pmtudisc s) (st_tos s) (st_datalen s) x (st_ttl s)
    (st_deadline s) (st_lingertime s) (st_outpack s).
Definition put_ttl (x : Z) (s : settings) : settings :=
  mkSettings (st_options s) (st_broadcast s) (st_ts_type s) (st_npackets s) (st_interval s)
    (st_preload s) (st_mark s) (st_pmtudisc s) (st_tos s) (st_datalen s) (st_sndbuf s) x
    (st_deadline s) (st_lingertime s) (st_outpack s).
Definition put_deadline (x : Z) (s : settings) : settings :=
  mkSettings (st_options s) (st_broadcast s) (st_ts_type s) (st_npackets s) (st_interval s)
    (st_preload s) (st_mark s) (st_pmtudisc s) (st_tos s) (st_datalen s) (st_sndbuf s) (st_ttl
    s) x (st_lingertime s) (st_outpack s).
Definition put_lingertime (x : Z) (s : settings) : settings :=
  mkSettings (st_options s) (st_broadcast s) (st_ts_type s) (st_npackets s) (st_interval s)
    (st_preload s) (st_mark s) (st_pmtudisc s) (st_tos s) (st_datalen s) (st_sndbuf s) (st_ttl
    s) (st_deadline s) x (st_outpack s).
Definition put_outpack (x : list Z) (s : settings) : settings :=
  mkSettings (st_options s) (st_broadcast s) (st_ts_type s) (st_npackets s) (st_interval s)
    (st_preload s) (st_mark s) (st_pmtudisc s) (st_tos s) (st_datalen s) (st_sndbuf s) (st_ttl
    s) (st_deadline s) (st_lingertime s) x.

Definition flag (f : Z) (s : settings) : settings := put_options (Z.lor (st_options s) f) s.
Definition isset (s : settings) (f : Z) : bool := negb (Z.land (st_options s) f =? 0).

(** One round of the option loop; [uid] is the user. *)
Definition parse_option (uid : Z) (o : opt) (s : settings) : option (result settings) :=
  let ok s := Some (Done s) in
  match o with
  | Opt_b => ok (put_broadcast true s)
  | Opt_R => if isset s F_TIMESTAMP then Some Exit else ok (flag F_RROUTE s)
  | Opt_T ty =>
      if isset s F_RROUTE then Some Exit
      else match ty with None => Some Exit | Some ty => ok (put_ts_type ty (flag F_TIMESTAMP s)) end
  | Opt_a => ok (flag F_AUDIBLE s)
  | Opt_A => ok (flag F_ADAPTIVE s)
  | Opt_B => ok (flag F_STRICTSOURCE s)
  | Opt_c n => if n <=? 0 then Some Exit else ok (put_npackets n s)
  | Opt_d => ok (flag F_SO_DEBUG s)
  | Opt_D => ok (flag F_PTIMEOFDAY s)
  | Opt_i valid ms => if valid then ok (flag F_INTERVAL (put_interval ms s)) else Some Exit
  | Opt_l n =>
      if n <=? 0 then Some Exit
      else
        let n := if MAX_DUP_CHK <? n then MAX_DUP_CHK else n in
        if negb (uid =? 0) && (3 <? n) then Some Exit else ok (put_preload n s)
  | Opt_L => ok (flag F_NOLOOP s)
  | Opt_m valid m => if (m <? 0) || negb valid then Some Exit else ok (flag F_MARK (put_mark m s))
  | Opt_M None => Some Exit
  | Opt_M (Some d) => ok (put_pmtudisc d s)
  | Opt_n => ok (flag F_NUMERIC s)
  | Opt_O => ok (flag F_OUTSTANDING s)
  | Opt_f => ok (flag (Z.lor F_FLOOD F_NUMERIC) s)
  | Opt_p pat =>
      r ← fill pat (st_outpack s);
      match r with Exit => Some Exit | Done p => ok (put_outpack p (flag F_PINGFILLED s)) end
  | Opt_q => ok (flag F_QUIET s)
  | Opt_Q None => Some Exit
  | Opt_Q (Some tos) => if 255 <? tos then Some Exit else ok (put_tos tos s)
  | Opt_r => ok (flag F_SO_DONTROUTE s)
  | Opt_s n => if (n <? 0) || (MAXPACKET - 8 <? n) then Some Exit else ok (put_datalen n s)
  | Opt_S n => if n <=? 0 then Some Exit else ok (put_sndbuf n s)
  | Opt_t n => if (n <? 0) || (255 <? n) then Some Exit else ok (put_ttl n (flag F_TTL s))
  | Opt_U => ok (flag F_LATENCY s)
  | Opt_v => ok (flag F_VERBOSE s)
  | Opt_w n => if n <? 0 then Some Exit else ok (put_deadline n s)
  | Opt_W n => if (n <? 0) || (INTMAX / 1000000 <? n) then Some Exit else ok (put_lingertime (n * 1000) s)
  end.

Fixpoint parse_options (uid : Z) (l : list opt) (s : settings) : option (result settings) :=
  match l with
  | [] => Some (Done s)
  | o :: l' =>
      r ← parse_option uid o s;
      match r with Exit => Some Exit | Done s => parse_options uid l' s end
  end.

(** ** The IP options of the probes *)

Definition IPOPT_TS_PRESPEC : Z := 3.

(** The number of addresses before the target, from the number of arguments;
    [None] is the usage message.  The second part is the new value of the
    flags. *)
Definition routes (argc : Z) (s : settings) : option (Z * settings) :=
  if 1 <? argc then
    if isset s F_RROUTE then None
    else if isset s F_TIMESTAMP then
      if negb (st_ts_type s =? IPOPT_TS_PRESPEC) || (5 <? argc) then None else Some (argc - 1, s)
    else if 10 <? argc then None else Some (argc - 1, flag F_SOURCEROUTE s)
  else Some (0, s).

(** [rspace]: 40 bytes. *)
Definition rspace : list Z := replicate (Z.to_nat (3 + 4 * NROUTES + 1)) 0.

Definition record_route : option (list Z) := memcpy 0 [IPOPT_NOP; IPOPT_RR; 39; IPOPT_MINOFF] rspace.

(** The addresses [route] are stored every [step] bytes. *)
Fixpoint store_routes (step : nat) (i : nat) (route : list (list Z)) (p : list Z) : option (list Z) :=
  match route with
  | [] => Some p
  | a :: route' => p ← memcpy (4 + i * step) a p; store_routes step (S i) route' p
  end.

Definition time_stamp (ts_type : Z) (route : list (list Z)) : option (list Z) :=
  let nroute := Z.of_nat (length route) in
  p ← memcpy 0 [IPOPT_TS; if ts_type =? IPOPT_TS_PRESPEC then 4 + nroute * 8
                          else if ts_type =? IPOPT_TS_TSONLY then 40 else 36; 5; ts_type] rspace;
  if ts_type =? IPOPT_TS_PRESPEC then store_routes 8 0 route p else Some p.

Definition source_route (strict : bool) (route : list (list Z)) : option (list Z) :=
  let nroute := Z.of_nat (length route) in
  p ← memcpy 0 [IPOPT_NOP; if strict then IPOPT_SSRR else IPOPT_LSRR; 3 + nroute * 4; IPOPT_MINOFF] rspace;
  store_routes 4 0 route p.

(** ** setup *)

(** The globals when the loop is entered. *)
Definition fresh (options interval : Z) (outpack : list Z) : ping :=
  mkPing options 0x800 0 0 0 0 0 0 interval 0 0 (2 ^ 63 - 1) 0 0 0 (-1) 0 (replicate 1024 0) 0 0 (mkTime 0 0) 0 outpack [] false.

Definition configure (uid ident whereto : Z) (raw : bool) (s : settings) : config :=
  mkConfig (st_npackets s) (st_preload s) (st_deadline s) (st_lingertime s) uid (st_datalen s) ident whereto raw.

Inductive setup_error := MinimalInterval | IllegalPreload.

(** The checks, the mode of waiting, and the data of the probes. *)
Definition setup (uid : Z) (rcvtimeo_fails : bool) (s : settings) : option (ping + setup_error) :=
  let interval := if isset s F_FLOOD && negb (isset s F_INTERVAL) then 0 else st_interval s in
  if negb (uid =? 0) && (interval <? MINUSERINTERVAL) then Some (inr MinimalInterval)
  else if Z.quot INTMAX (st_preload s) <=? interval then Some (inr IllegalPreload)
  else
    let options := if rcvtimeo_fails then Z.lor (st_options s) F_FLOOD_POLL else st_options s in
    p ← (if isset s F_PINGFILLED then Some (st_outpack s) else memcpy 8 (u8 <$> seqZ 0 (st_datalen s)) (st_outpack s));
    Some (inl (fresh options interval p)).

Definition IP_PMTUDISC_DO : Z := 2.

Definition optlen_of (s : settings) : Z :=
  if isset s F_RROUTE || isset s F_TIMESTAMP || isset s F_SOURCEROUTE then 40 else 0.

(** The checks of [ping4_run]: a broadcast of a user keeps to a slow pace and
    does not fragment, and a packet has to fit. *)
Definition ping4_checks (uid : Z) (multicast : bool) (s : settings) : result settings :=
  let wide := st_broadcast s || multicast in
  if wide && negb (uid =? 0) && (st_interval s <? 1000) then Exit
  else if wide && negb (uid =? 0) && (0 <=? st_pmtudisc s) && negb (st_pmtudisc s =? IP_PMTUDISC_DO) then Exit
  else
    let s := if wide && (st_pmtudisc s <? 0) then put_pmtudisc IP_PMTUDISC_DO s else s in
    if 0xFFFF - 8 - optlen_of s - 20 <? st_datalen s then Exit else Done s.

(** The sizes of the socket's buffers: what is sent, what is asked for, and what
    the warning compares with. *)
Definition sock_setbufs (s : settings) : Z * Z * Z :=
  let hold := st_datalen s + 8 in
  let alloc := hold + (Z.quot (hold + 511) 512) * (optlen_of s + 20 + 16 + 64 + 160) in
  let sndbuf := if st_sndbuf s =? 0 then alloc else st_sndbuf s in
  let rcvbuf := s32 (alloc * st_preload s) in
  (sndbuf, if rcvbuf <? 65536 then 65536 else rcvbuf, rcvbuf).
