(* ===== verification/PingSetupSpec.v ===== *)
(** * What the options and the setup of ping guarantee *)

From Stdlib Require Import ZArith Lia.
From stdpp Require Import base gmap numbers option list.
From S2P Require Import Prelude Ping PingSpec PingReply PingOptions PingPacket PingFour PingRun PingSetup.

Local Open Scope Z_scope.

(** ** The pattern *)

Definition repeated (n : nat) (pat : list Z) : list Z := concat (replicate n pat).

Lemma length_repeated n pat : length (repeated n pat) = (n * length pat)%nat.
Proof. induction n as [|n IH]; [done|]. change (repeated (S n) pat) with (pat ++ repeated n pat). rewrite length_app, IH. lia. Qed.

Lemma lookup_repeated n pat : forall j, (j < n * length pat)%nat -> repeated n pat !! j = pat !! (j mod length pat)%nat.
Proof.
  induction n as [|n IH]; intros j Hj; [lia|]. change (repeated (S n) pat) with (pat ++ repeated n pat).
  destruct (decide (j < length pat)%nat) as [H|H].
  - rewrite lookup_app_l by done. by rewrite Nat.mod_small.
  - rewrite lookup_app_r, IH by lia. f_equal. rewrite <- (Nat.Div0.mod_add (j - length pat) 1). f_equal. lia.
Qed.

Lemma lay_run pat n : forall fuel P q, (8 <= length P)%nat -> (0 < length pat)%nat -> (n < fuel)%nat ->
  (n * length pat <= length q < (n + 1) * length pat)%nat ->
  lay fuel pat (Z.of_nat (length P) - 8) (Z.of_nat (length (P ++ q)) - (8 + Z.of_nat (length pat))) (P ++ q)
  = Some (P ++ repeated n pat ++ drop (n * length pat) q).
Proof.
  induction n as [|n IH]; intros fuel P q HP Hpat Hf Hq; (destruct fuel as [|fuel]; [lia|]); cbn [lay].
  - rewrite (proj2 (Z.leb_gt _ _)) by (rewrite length_app; lia). by rewrite drop_0.
  - rewrite (proj2 (Z.leb_le _ _)) by (rewrite length_app; lia). replace (8 + Z.to_nat (Z.of_nat (length P) - 8))%nat with (length P) by lia.
    destruct (split_at (length pat) q ltac:(lia)) as (b & d & -> & Eb). rewrite memcpy_app by done.
    rewrite length_app, Eb in Hq. rewrite !length_app, Eb.
    pose proof (IH fuel (P ++ pat) d ltac:(rewrite length_app; lia) Hpat ltac:(lia) ltac:(lia)) as E.
    rewrite <- app_assoc, !length_app in E. replace (Z.of_nat (length P) - 8 + Z.of_nat (length pat)) with (Z.of_nat (length P + length pat) - 8) by lia.
    rewrite E. f_equal. rewrite <- app_assoc. f_equal. change (repeated (S n) pat) with (pat ++ repeated n pat). rewrite <- app_assoc.
    do 2 f_equal. replace (S n * length pat)%nat with (length b + n * length pat)%nat by lia. rewrite <- drop_drop. by rewrite drop_app_length.
Qed.

Lemma length_scan n : forall l, (length (scan_pattern n l) <= n)%nat.
Proof. induction n as [|n IH]; intros [|a [|b l]]; cbn; try lia. specialize (IH l). lia. Qed.

Lemma xdigit_range ch : isxdigit ch = true -> 0 <= xdigit ch < 16.
Proof.
  unfold isxdigit, xdigit. intros H. rewrite !orb_true_iff, !andb_true_iff, !Z.leb_le in H.
  destruct (Z.leb_spec ch 57); [lia|]. destruct (Z.leb_spec ch 70); lia.
Qed.

Lemma scan_range n : forall l, forallb isxdigit l = true -> Forall (in_u 8) (scan_pattern n l).
Proof.
  induction n as [|n IH]; intros l H; [constructor|].
  destruct l as [|a [|b l]]; cbn [scan_pattern]; [constructor|..]; cbn [forallb] in H; rewrite !andb_true_iff in H.
  - destruct H as [Ha _]. repeat constructor; pose proof (xdigit_range a Ha); lia.
  - destruct H as (Ha & Hb & Hl). pose proof (xdigit_range a Ha). pose proof (xdigit_range b Hb).
    constructor; [unfold in_u; lia|by apply IH].
Qed.

(** [fill] changes nothing before byte 8 and repeats the pattern from there
    on. *)
Lemma fill_run patp p : forallb isxdigit patp = true -> (24 <= length p)%nat -> Z.of_nat (length p) < 2 ^ 32 -> let pat := scan_pattern 16 patp in
  pat <> [] -> exists n, (n * length pat <= length p - 8 < (n + 1) * length pat)%nat
    /\ fill patp p = Some (Done (take 8 p ++ repeated n pat ++ drop (8 + n * length pat) p)).
Proof.
  intros Hx H8 H32 pat Hne. assert (Hp : (0 < length pat)%nat) by (destruct pat; [done|cbn; lia]). pose proof (length_scan 16 patp) as Hl. fold pat in Hl.
  exists ((length p - 8) / length pat)%nat. set (n := ((length p - 8) / length pat)%nat).
  assert (Hn : (n * length pat <= length p - 8 < (n + 1) * length pat)%nat).
  { unfold n. pose proof (Nat.div_mod (length p - 8) (length pat) ltac:(lia)). pose proof (Nat.mod_upper_bound (length p - 8) (length pat) ltac:(lia)). nia. }
  split; [done|]. unfold fill. rewrite Hx. fold pat. rewrite (proj2 (Z.ltb_lt _ _)) by lia.
  pose proof (lay_run pat n (S (length p)) (take 8 p) (drop 8 p)) as E. rewrite take_drop, length_take, length_drop in E.
  rewrite drop_drop in E. replace (Nat.min 8 (length p)) with 8%nat in E by lia. change (Z.of_nat 8 - 8) with 0 in E.
  rewrite wrapu_id by (unfold in_u; lia). rewrite E; [done|lia|lia|nia|done].
Qed.

Lemma fill_total patp p : (24 <= length p)%nat -> Z.of_nat (length p) < 2 ^ 32 -> Forall (in_u 8) p -> exists r, fill patp p = Some r /\
  match r with Exit => True | Done p' => length p' = length p /\ Forall (in_u 8) p' end.
Proof.
  intros H8 H32 Hb. destruct (forallb isxdigit patp) eqn:Hx; [|exists Exit; unfold fill; by rewrite Hx].
  destruct (scan_pattern 16 patp) as [|b pat] eqn:Es.
  { exists (Done p). unfold fill. by rewrite Hx, Es. }
  destruct (fill_run patp p Hx H8 H32) as (n & Hn & ->); [by rewrite Es|]. eexists. split; [reflexivity|]. split.
  - rewrite !length_app, length_repeated, length_take, length_drop. lia.
  - apply Forall_app_2; [by apply Forall_take|]. apply Forall_app_2; [|by apply Forall_drop].
    apply Forall_concat. apply Forall_replicate. by apply scan_range.
Qed.

(** ** The options *)

Record settings_ok (uid : Z) (s : settings) : Prop := {
  so_preload : 1 <= st_preload s <= MAX_DUP_CHK;
  so_user : uid <> 0 -> st_preload s <= 3;
  so_npackets : 0 <= st_npackets s;
  so_interval : 0 <= st_interval s < INTMAX;
  so_datalen : 0 <= st_datalen s <= MAXPACKET - 8;
  so_ttl : 0 <= st_ttl s <= 255;
  so_tos : st_tos s <= 255;
  so_deadline : 0 <= st_deadline s;
  so_lingertime : 0 <= st_lingertime s <= INTMAX / 1000;
  so_one : isset s F_RROUTE && isset s F_TIMESTAMP = false;
  so_len : Z.of_nat (length (st_outpack s)) = MAXPACKET;
  so_bytes : Forall (in_u 8) (st_outpack s)
}.

(** The numbers of [strtod]: the conversion of a value below [INT_MAX/1000 - 1]. *)
Definition opt_ok (o : opt) : Prop := match o with Opt_i true ms => 0 <= ms < INTMAX | _ => True end.

Lemma isset_flag f g s : isset (flag f s) g = isset s g || negb (Z.land f g =? 0).
Proof.
  unfold isset, flag. cbn [put_options st_options]. rewrite (Z.land_comm (Z.lor _ _)), Z.land_lor_distr_r, (Z.land_comm g), (Z.land_comm g f).
  set (a := Z.land (st_options s) g). set (b := Z.land f g). destruct (Z.eqb_spec a 0) as [->|Ha]; [by rewrite Z.lor_0_l|].
  destruct (Z.eqb_spec (Z.lor a b) 0) as [E|E]; [|done]. by apply Z.lor_eq_0_iff in E as [? _].
Qed.

Lemma flag_ok uid f s : Z.land f F_RROUTE = 0 -> Z.land f F_TIMESTAMP = 0 -> settings_ok uid s -> settings_ok uid (flag f s).
Proof. intros H1 H2 []. split; try done. by rewrite !isset_flag, H1, H2, !orb_false_r. Qed.

Lemma parse_option_ok uid o s : opt_ok o -> settings_ok uid s -> exists r, parse_option uid o s = Some r /\
  match r with Exit => True | Done s' => settings_ok uid s' end.
Proof.
  intros Ho Hs. pose proof Hs as [S1 S2 S3 S4 S5 S6 S7 S8 S9 S10 S11 S12].
  assert (Hf : forall f s, Z.land f F_RROUTE = 0 -> Z.land f F_TIMESTAMP = 0 -> settings_ok uid s ->
    exists r, Some (Done (flag f s)) = Some r /\ match r with Exit => True | Done s' => settings_ok uid s' end).
  { intros f s0 H1 H2 H3. eexists. split; [reflexivity|]. by apply flag_ok. }
  assert (Hd : forall s0, settings_ok uid s0 -> exists r, Some (Done s0) = Some r /\ match r with Exit => True | Done s' => settings_ok uid s' end) by eauto.
  assert (Hx : exists r, Some Exit = Some r /\ match r with Exit => True | Done s' => settings_ok uid s' end) by (by exists Exit).
  destruct o; cbn [parse_option]; try (by apply Hf).
  - apply Hd. by split.
  - destruct (isset s F_TIMESTAMP) eqn:E; [done|]. apply Hd. split; try done. rewrite !isset_flag, E. apply andb_false_r.
  - destruct (isset s F_RROUTE) eqn:E; [done|]. destruct ts_type; [|done]. apply Hd. split; try done.
    change (isset (flag F_TIMESTAMP s) F_RROUTE && isset (flag F_TIMESTAMP s) F_TIMESTAMP = false). by rewrite !isset_flag, E.
  - destruct (Z.leb_spec n 0); [done|]. apply Hd. split; try done. cbn. lia.
  - destruct valid; [|done]. apply Hf; [done..|]. by split.
  - destruct (Z.leb_spec n 0); [done|]. set (n' := if MAX_DUP_CHK <? n then _ else n).
    assert (Hn : 1 <= n' <= MAX_DUP_CHK) by (unfold n', MAX_DUP_CHK; destruct (Z.ltb_spec 0x10000 n); lia).
    destruct (Z.eqb_spec uid 0); cbn [negb andb]; [apply Hd; by split|]. destruct (Z.ltb_spec 3 n'); [done|]. apply Hd. by split.
  - destruct (_ || _); [done|]. apply Hf; [done..|]. by split.
  - destruct pmtudisc; [|done]. apply Hd. by split.
  - destruct (fill_total pattern (st_outpack s)) as (r & -> & Hr); [unfold MAXPACKET in *; lia..|done|]. cbn [mbind option_bind].
    destruct r as [p|]; [|done]. apply Hd. destruct Hr as [Hl Hb]. destruct (flag_ok uid F_PINGFILLED s) as []; try done. split; try done. cbn. lia.
  - destruct tos as [tos|]; [|done]. destruct (Z.ltb_spec 255 tos); [done|]. apply Hd. by split.
  - destruct (Z.ltb_spec n 0); [done|]. destruct (Z.ltb_spec (MAXPACKET - 8) n); [done|]. apply Hd. by split.
  - destruct (Z.leb_spec n 0); [done|]. apply Hd. by split.
  - destruct (Z.ltb_spec n 0); [done|]. destruct (Z.ltb_spec 255 n); [done|]. apply Hd. destruct (flag_ok uid F_TTL s) as []; done.
  - destruct (Z.ltb_spec n 0); [done|]. apply Hd. by split.
  - destruct (Z.ltb_spec n 0); [done|]. destruct (Z.ltb_spec (INTMAX / 1000000) n); [done|]. apply Hd. split; try done. cbn.
    change (INTMAX / 1000000) with 2147 in *. change (INTMAX / 1000) with 2147483. lia.
Qed.

Lemma parse_options_ok uid l : forall s, Forall opt_ok l -> settings_ok uid s -> exists r, parse_options uid l s = Some r /\
  match r with Exit => True | Done s' => settings_ok uid s' end.
Proof.
  induction l as [|o l IH]; intros s Hl Hs; [by eexists|]. inversion Hl as [|? ? Ho Hl']; subst. cbn [parse_options].
  destruct (parse_option_ok uid o s Ho Hs) as ([s'|] & -> & Hr); cbn [mbind option_bind]; [by apply IH|by exists Exit].
Qed.

Lemma defaults_ok uid : settings_ok uid defaults.
Proof.
  split; [vm_compute; intuition discriminate..| |].
  - unfold defaults, MAXPACKET. cbn [st_outpack]. rewrite length_replicate. lia.
  - apply Forall_replicate. split; lia.
Qed.

(** ** The setup *)

Lemma fresh_tallies options interval p : tallies (fresh options interval p) no_replies.
Proof.
  split; try done. intros q Hq. cbn [fresh rcvd_tbl]. unfold marked. rewrite bool_decide_false by set_solver.
  replace (replicate 1024 0 !!! Z.to_nat (q / 64)) with 0; [apply Z.bits_0|].
  symmetry. apply list_lookup_total_correct, lookup_replicate_2. by apply word_index.
Qed.

Lemma no_replies_ok : tally_ok no_replies.
Proof. split; try done; by constructor. Qed.

Lemma fresh_counted c options interval p : 0 <= datalen c -> datalen c + 8 <= Z.of_nat (length p) -> Forall (in_u 8) p ->
  counted c (fresh options interval p).
Proof.
  intros H1 H2 H3. split; [|exists no_replies; split; [apply no_replies_ok|apply fresh_tallies]].
  split; try done. split; [done|]. apply Forall_replicate. split; lia.
Qed.

(** The checks keep the settings. *)
Lemma ping4_checks_ok uid multicast s s' : settings_ok uid s -> ping4_checks uid multicast s = Done s' ->
  settings_ok uid s' /\ st_datalen s' <= 65507 /\ st_preload s' = st_preload s /\ st_outpack s' = st_outpack s
  /\ st_datalen s' = st_datalen s.
Proof.
  intros Hs. unfold ping4_checks. destruct (_ && _ && _); [done|]. destruct (_ && _ && _); [done|]. set (s1 := if _ && _ then _ else s).
  assert (H1 : settings_ok uid s1 /\ st_preload s1 = st_preload s /\ st_outpack s1 = st_outpack s /\ st_datalen s1 = st_datalen s).
  { unfold s1. destruct (_ && _); [|done]. split; [|done]. by destruct Hs. }
  clearbody s1. destruct (Z.ltb_spec (0xFFFF - 8 - optlen_of s1 - 20) (st_datalen s1)); [done|]. intros [= <-].
  destruct H1 as (? & ? & ? & ?). split_and!; try done. unfold optlen_of in *. destruct (_ || _); lia.
Qed.

Lemma routes_ok uid argc s n s' : settings_ok uid s -> routes argc s = Some (n, s') -> settings_ok uid s'.
Proof.
  intros Hs. unfold routes. destruct (1 <? argc); [|by intros [= _ <-]]. destruct (isset s F_RROUTE); [done|].
  destruct (isset s F_TIMESTAMP); [destruct (_ || _); [done|by intros [= _ <-]]|].
  destruct (10 <? argc); [done|]. intros [= _ <-]. by apply flag_ok.
Qed.

Lemma setup_total uid fails s : settings_ok uid s -> exists r, setup uid fails s = Some r.
Proof.
  intros Hs. unfold setup. destruct (_ && _); [by eexists|]. destruct (_ <=? _); [by eexists|].
  destruct (isset s F_PINGFILLED); [by eexists|]. destruct Hs. unfold memcpy. rewrite length_fmap, length_seqZ.
  rewrite (proj2 (Nat.leb_le _ _)) by lia. by eexists.
Qed.

(** A run that was set up. *)
Lemma setup_run uid fails s st ident whereto raw : settings_ok uid s -> setup uid fails s = Some (inl st) ->
  let c := configure uid ident whereto raw s in
  counted c st /\ 0 <= interval st /\ interval st * preload c < 2 ^ 31 /\ (uid <> 0 -> MINUSERINTERVAL <= interval st)
  /\ st = fresh (options st) (interval st) (outpack st)
  /\ length (outpack st) = length (st_outpack s)
  /\ (isset s F_PINGFILLED = false -> forall j, 0 <= j < st_datalen s -> outpack st !! Z.to_nat (8 + j) = Some (u8 j)).
Proof.
  intros Hs. pose proof Hs as [S1 S2 S3 S4 S5 S6 S7 S8 S9 _ S11 S12]. unfold setup. set (iv := if _ && _ then 0 else st_interval s).
  assert (Hiv : 0 <= iv) by (unfold iv; destruct (isset s F_FLOOD && negb (isset s F_INTERVAL)); [done|apply S4]).
  destruct (negb (uid =? 0) && (iv <? MINUSERINTERVAL)) eqn:Eu; [done|].
  destruct (Z.leb_spec (Z.quot INTMAX (st_preload s)) iv) as [|Hq]; [done|].
  set (data := u8 <$> seqZ 0 (st_datalen s)). assert (Hdata : length data = Z.to_nat (st_datalen s)) by (unfold data; by rewrite length_fmap, length_seqZ).
  assert (Hp : exists p, (if isset s F_PINGFILLED then Some (st_outpack s) else memcpy 8 data (st_outpack s)) = Some p
    /\ length p = length (st_outpack s) /\ Forall (in_u 8) p
    /\ (isset s F_PINGFILLED = false -> forall j, 0 <= j < st_datalen s -> p !! Z.to_nat (8 + j) = Some (u8 j))).
  { destruct (isset s F_PINGFILLED); [by eexists|]. unfold memcpy. rewrite (proj2 (Nat.leb_le _ _)) by lia.
    eexists. split; [reflexivity|]. split; [rewrite !length_app, length_take, length_drop; lia|]. split.
    - apply Forall_app_2; [by apply Forall_take|]. apply Forall_app_2; [|by apply Forall_drop].
      unfold data. apply Forall_fmap, Forall_forall. intros x _. apply wrapu_range. lia.
    - intros _ j Hj. rewrite lookup_app_r; rewrite length_take; [|lia]. rewrite lookup_app_l by lia. unfold data.
      rewrite list_lookup_fmap, lookup_seqZ_lt by lia. cbn [fmap option_fmap option_map]. do 2 f_equal. lia. }
  destruct Hp as (p & -> & Hl & Hb & Hj). cbn [mbind option_bind]. intros [= <-]. cbv zeta. cbn [fresh interval outpack options].
  split; [apply fresh_counted; cbn; [lia|lia|done]|]. split; [done|]. split; [|split; [|split; [done|split; [done|done]]]].
  - cbn [configure preload]. rewrite Z.quot_div_nonneg in Hq by (unfold INTMAX; lia).
    pose proof (Z.mul_div_le INTMAX (st_preload s) ltac:(lia)). unfold INTMAX in *. nia.
  - intros Hu. rewrite (proj2 (Z.eqb_neq _ _)) in Eu by done. cbn [negb andb] in Eu. by apply Z.ltb_ge in Eu.
Qed.
