(* ===== verification/PingTheorems.v ===== *)
(** * The properties of ping *)

From Stdlib Require Import ZArith Lia.
From stdpp Require Import base gmap numbers option list.
From S2P Require Import Prelude Ping PingSpec PingReply PingOptions PingPacket PingFour PingPace PingRun PingSetup PingSetupSpec.

Local Open Scope Z_scope.

(** A run that is about to enter the loop. *)
Record ready (c : config) (st : ping) : Prop := {
  rdy_datalen : 0 <= datalen c <= 65507;
  rdy_preload : 1 <= preload c;
  rdy_interval : 0 <= interval st;
  rdy_cap : interval st * preload c < 2 ^ 31;
  rdy_fresh : st = fresh (options st) (interval st) (outpack st);
  rdy_pack : datalen c + 8 <= Z.of_nat (length (outpack st));
  rdy_bytes : Forall (in_u 8) (outpack st)
}.

Lemma ready_counted c st : ready c st -> counted c st.
Proof. intros [? ? ? ? -> ? ?]. apply fresh_counted; [lia|done..]. Qed.

(** A run to look at: one probe with 16 bytes of data, and its reply. *)
Definition demo_config : config := mkConfig 1 1 0 10000 0 16 1 0x0100007f true.
Definition demo_start : ping := fresh 0 1000 (replicate 24 7).
Definition demo_sent : timespec := mkTime 100 5000.
Definition demo_arrival : timespec := mkTime 100 2005000.
Definition demo_packet : list Z := take 24 (probe_packet demo_config demo_sent demo_start).
Definition demo_reply : list Z :=
  let r := [0; 0; 0; 0] ++ drop 4 demo_packet in [0; 0] ++ le_bytes 2 (in_cksum r 0) ++ drop 4 demo_packet.
Definition demo_message : message :=
  mkMessage (0x45 :: replicate 19 0 ++ demo_reply ++ replicate 116 0) 44 None demo_arrival demo_arrival.
Definition demo_round : round := mkRound false [(demo_sent, [mkAttempt demo_sent 24 0 None])] None [RecvPacket demo_message].
Definition demo_rounds : list round := [demo_round; mkRound false [] None []].
Definition demo_end : ping :=
  match main_loop demo_config 100 demo_rounds demo_start with Some (Finished s) => s | _ => demo_start end.

Lemma bytes_of_forallb (l : list Z) : forallb (fun b => (0 <=? b) && (b <? 256)) l = true -> Forall (in_u 8) l.
Proof.
  intros H. apply Forall_forall. intros b Hb%list_elem_of_In. rewrite forallb_forall in H. specialize (H b Hb).
  apply andb_true_iff in H as [?%Z.leb_le ?%Z.ltb_lt]. by split.
Qed.

Lemma demo_ready : ready demo_config demo_start.
Proof. split; cbn; try lia; try done. by apply bytes_of_forallb. Qed.

Lemma demo_message_ok : message4_ok demo_config demo_message.
Proof.
  split; [|done]. split; [by apply bytes_of_forallb|]. split; [vm_compute; discriminate|]. split; [vm_compute; intuition discriminate|done].
Qed.

Lemma demo_rounds_ok start : start <= nanos demo_sent -> Forall (round_ok demo_config (clock_ok start)) demo_rounds.
Proof.
  intros H. assert (Hc : clock_ok start demo_sent) by (split; [done|exact H]).
  apply Forall_cons. split; [split|apply Forall_cons; split; [split|]]; try apply Forall_nil_2.
  - apply Forall_cons. split; [exact Hc|apply Forall_nil_2].
  - apply Forall_cons. split; [exact demo_message_ok|apply Forall_nil_2].
Qed.

Lemma demo_tallies : tallies demo_start no_replies.
Proof. apply fresh_tallies. Qed.

(** For any protocol. *)
Lemma report_any {F : FuncSet} {L : FuncSetLaws F} c st hz rounds start s' :
  ready c st -> Forall (round_ok c (fun _ => True)) rounds -> main_loop c hz rounds st = Some (Finished s') ->
  let t := account_of c (drop 24 (outpack st)) hz rounds st in
  let n := good t + dups t in
  nreceived s' = good t /\ nrepeats s' = dups t /\ nchecksum s' = bad t
  /\ tmin s' = smallest (times t) /\ tmax s' = largest (times t)
  /\ (timing c = true -> 0 < good t -> squares (times t) < 2 ^ 63 - 1 -> exists r, finish c start s' = Some r
      /\ rp_average r = total (times t) / n
      /\ rp_mdev r = (if variance (times t) n =? 0 then 0 else Z.sqrt (variance (times t) n + 1))
      /\ rp_loss_num r = (ntransmitted s' - good t) * 100 /\ rp_loss_den r = ntransmitted s').
Proof.
  intros Hr Hrounds E t n.
  assert (B : balanced c (drop 24 (outpack st)) st (ledger_of st no_replies)).
  { split; [apply (ready_counted _ _ Hr)|]. split; [|done]. split; [|done]. rewrite (rdy_fresh _ _ Hr). apply fresh_tallies. }
  destruct (main_loop_balanced c (drop 24 (outpack st)) hz rounds st s' _ Hrounds B E) as (_ & [Ht _] & _).
  assert (Hto : tally_ok t) by (apply settled_ok; [by apply events_ok|apply no_replies_ok]).
  fold (account_of c (drop 24 (outpack st)) hz rounds st) in Ht. fold t in Ht. pose proof Ht as [_ T2 T3 T4 _ _ T7 T8].
  split_and!; try done. intros Htm Hg Hsq. by apply report_run.
Qed.

(** C6: The report is that of the packets received.  Whatever the network and
    the clock do, when the loop of ping ends its counters are those of
    [account_of]: every packet that [recvmsg] returned is read once; if it is
    an echo reply with our identifier and data it is bad (its checksum is
    wrong), good (the first since its number was last sent) or repeated, and
    unless it is bad it adds the time from the stamp in its data to its
    arrival.  Smallest and largest time are those reported, and if the squares
    of the times do not overflow, [finish] prints their mean over good and
    repeated replies and their deviation as [llsqrt] rounds it.  (The packets
    are such that [parse_reply_safe] gives a result: none has a recorded route
    of more than 40 bytes.) *)
Theorem report_correct c st hz rounds start s' :
  ready c st -> Forall (round_ok c (fun _ => True)) rounds -> main_loop c hz rounds st = Some (Finished s') ->
  let t := account_of c (drop 24 (outpack st)) hz rounds st in
  let n := good t + dups t in
  nreceived s' = good t /\ nrepeats s' = dups t /\ nchecksum s' = bad t
  /\ tmin s' = smallest (times t) /\ tmax s' = largest (times t)
  /\ (timing c = true -> 0 < good t -> squares (times t) < 2 ^ 63 - 1 -> exists r, finish c start s' = Some r
      /\ rp_average r = total (times t) / n
      /\ rp_mdev r = (if variance (times t) n =? 0 then 0 else Z.sqrt (variance (times t) n + 1))
      /\ rp_loss_num r = (ntransmitted s' - good t) * 100 /\ rp_loss_den r = ntransmitted s').
Proof. apply report_any. Qed.

(** Two milliseconds from the probe to its reply, which comes twice; the second
    is read in another round.  One reply is good, one repeated, and both have
    their time. *)
Definition demo_twice : list round :=
  [demo_round; mkRound false [(mkTime 101 6000, [mkAttempt (mkTime 101 6000) 24 0 None])] None [RecvPacket demo_message; RecvError EAGAIN None];
   mkRound true [] None []].
Definition demo_two : config := mkConfig 2 1 0 10000 0 16 1 0x0100007f true.
Definition demo_twice_end : ping :=
  match main_loop demo_two 100 demo_twice demo_start with Some (Finished s) => s | _ => demo_start end.

Lemma report_correct_witness :
  (nreceived demo_twice_end, nrepeats demo_twice_end, nchecksum demo_twice_end) = (1, 1, 0)
  /\ tmin demo_twice_end = smallest [2000000; 2000000] /\ tmax demo_twice_end = largest [2000000; 2000000]
  /\ exists r, finish demo_two demo_sent demo_twice_end = Some r /\ rp_average r = 2000000 /\ rp_mdev r = 0 /\ rp_loss_num r = 100 /\ rp_loss_den r = 2.
Proof.
  assert (Hr : ready demo_two demo_start) by (split; cbn; try lia; try done; by apply bytes_of_forallb).
  assert (Hok : Forall (round_ok demo_two (fun _ => True)) demo_twice).
  { repeat (apply Forall_cons; split); try apply Forall_nil_2; split; repeat (apply Forall_cons; split); try apply Forall_nil_2; try exact I; exact demo_message_ok. }
  assert (Ht : account_of demo_two (drop 24 (outpack demo_start)) 100 demo_twice demo_start
    = mkTally (seen (account_of demo_two (drop 24 (outpack demo_start)) 100 demo_twice demo_start)) 1 1 0 [2000000; 2000000]) by (vm_compute; reflexivity).
  pose proof (report_correct demo_two demo_start 100 demo_twice demo_sent demo_twice_end Hr Hok ltac:(vm_compute; reflexivity)) as H.
  cbv zeta in H. rewrite Ht in H. cbn [good dups bad times] in H. destruct H as (E1 & E2 & E3 & E4 & E5 & H).
  rewrite E1, E2, E3. split; [reflexivity|]. split; [exact E4|]. split; [exact E5|].
  destruct H as (r & Ef & Ea & Em & El & Ed); [reflexivity|lia|vm_compute; reflexivity|]. exists r. split; [exact Ef|].
  split; [exact Ea|]. split; [exact Em|]. split; [etransitivity; [exact El|vm_compute; reflexivity]|etransitivity; [exact Ed|vm_compute; reflexivity]].
Defined.

(** C8: The probes of a run keep to the pace that was asked for.  With a count
    and no deadline, no more probes go out than the count.  With a fixed
    interval of [I] milliseconds, the probes sent cost no more than the time
    from the start to the last of them, and the [preload] probes that are sent
    for nothing; every look at the clock may gain less than a millisecond. *)
Theorem probes_limited c st hz rounds start s' :
  ready c st -> has st F_ADAPTIVE = false -> Forall (round_ok c (clock_ok start)) rounds ->
  main_loop c hz rounds st = Some (Finished s') ->
  (npackets c <> 0 -> deadline c = 0 -> 0 <= npackets c -> ntransmitted s' <= npackets c)
  /\ (0 < ntransmitted s' -> 1000000 * (interval st * ntransmitted s')
       <= 1000000 * (interval st * preload c) + (nanos (cur_time s') - start) + 999999 * Z.of_nat (calls_of rounds)).
Proof.
  intros Hr Ha Hrounds E. pose proof (ready_counted _ _ Hr) as Hc. pose proof Hr as [R1 R2 R3 R4 R5 R6 R7].
  assert (Hlim : Forall (round_ok c (fun _ => True)) rounds).
  { eapply Forall_impl; [exact Hrounds|]. intros r [H1 H2]. split; [|done]. by eapply Forall_impl; [exact H1|]. }
  split.
  - intros Hn Hd H0. destruct (limit_run c hz rounds st s' Hn Hd Hlim Hc) as [_ ?]; try done. rewrite R5. exact H0.
  - intros HN. destruct (pace_run c (interval st) start R3 R2 R4 hz rounds st s' Hrounds Hc) as (k & Hk & [_ _ Htok] & Hpot); [|done|].
    + split; [split; [done|done|]|left; by rewrite R5]. assert (E0 : tokens st = 0) by (by rewrite R5). rewrite E0. nia.
    + destruct Hpot as [[_ H]|[_ H]]; [lia|]. rewrite Z.mul_add_distr_l in H. lia.
Qed.

Lemma probes_limited_witness :
  (npackets demo_config <> 0 -> deadline demo_config = 0 -> 0 <= npackets demo_config -> ntransmitted demo_end <= npackets demo_config)
  /\ (0 < ntransmitted demo_end -> 1000000 * (interval demo_start * ntransmitted demo_end)
       <= 1000000 * (interval demo_start * preload demo_config) + (nanos (cur_time demo_end) - nanos demo_sent)
          + 999999 * Z.of_nat (calls_of demo_rounds)).
Proof.
  apply (probes_limited demo_config demo_start 100 demo_rounds (nanos demo_sent) demo_end).
  - exact demo_ready.
  - reflexivity.
  - apply demo_rounds_ok. lia.
  - vm_compute. reflexivity.
Defined.

(** [pinger] does not stall: when it finds that it is too early and names a
    delay, then a call after that delay and one millisecond more finds the
    bucket full enough, and if the system settles the send, the call returns
    having sent, given up on or retried the probe. *)
Theorem pinger_progress c st s now now' ms sys :
  ready c st -> 0 < interval st -> ping_ok c s -> interval s = interval st -> sent_enough c s = false ->
  take_tokens c now s = inl ms -> nanos now + 1000000 * (ms + 1) <= nanos now' -> Exists settles sys ->
  pinger c now sys s = Some (Next (s32 ms), s)
  /\ exists s1 r s', take_tokens c now' s = inr s1 /\ pinger c now' sys s = Some (r, s').
Proof.
  intros [R1 R2 R3 R4 R5 R6 R7] HI Hok Hi Hse Ht Hnow Hsys. unfold pinger. rewrite Hse, Ht. split; [done|].
  destruct (take_tokens_progress c (interval st) now now' s ms) as [s1 E]; try done. rewrite E.
  destruct (take_tokens_keeps _ _ _ _ E) as (_ & _ & _ & _ & S1 & O1).
  destruct (send_loop_total c sys s1) as (r & s' & Es); [by eapply ping_ok_counts|done|]. by exists s1, r, s'.
Qed.

(** A probe one second before; the clock is 400 ms later. *)
Definition demo_waiting : ping := set_ntransmitted 1 (set_cur_time (mkTime 100 0) (fresh 0 1000 (replicate 24 7))).
Definition demo_more : config := mkConfig 0 1 0 10000 0 16 1 0x0100007f true.

Lemma pinger_progress_witness :
  pinger demo_more (mkTime 100 400000000) [mkAttempt demo_sent 24 0 None] demo_waiting = Some (Next (s32 600), demo_waiting)
  /\ exists s1 r s', take_tokens demo_more (mkTime 101 1000000) demo_waiting = inr s1
     /\ pinger demo_more (mkTime 101 1000000) [mkAttempt demo_sent 24 0 None] demo_waiting = Some (r, s').
Proof.
  apply (pinger_progress demo_more demo_start).
  - split; cbn; try lia; try done. by apply bytes_of_forallb.
  - reflexivity.
  - destruct (ready_counted demo_config demo_start demo_ready) as [[O1 O2 O3 O4] _]. by split.
  - reflexivity.
  - reflexivity.
  - vm_compute. reflexivity.
  - vm_compute. discriminate.
  - constructor. left. cbn. lia.
Defined.

(** C36: The command line and the setup.  Any sequence of options is either
    refused or leaves settings within their ranges; the pattern and the data
    are written inside the packet.  If the checks and [setup] accept the
    settings, the run is ready: in particular the interval times the preload
    fits an [int], a user other than root has an interval of 200 ms and a
    preload of 3 at most, and the data of the probes is 0, 1, 2, ... unless a
    pattern was given. *)
Theorem setup_correct uid argc multicast fails id target raw opts :
  Forall opt_ok opts ->
  exists r, parse_options uid opts defaults = Some r /\
  forall s n s1 s2, r = Done s -> routes argc s = Some (n, s1) -> ping4_checks uid multicast s1 = Done s2 ->
    (exists x, setup uid fails s2 = Some x) /\
    forall st, setup uid fails s2 = Some (inl st) ->
      ready (configure uid id target raw s2) st /\ settings_ok uid s2
      /\ (uid <> 0 -> MINUSERINTERVAL <= interval st /\ st_preload s2 <= 3)
      /\ (isset s2 F_PINGFILLED = false -> forall j, 0 <= j < st_datalen s2 -> outpack st !! Z.to_nat (8 + j) = Some (u8 j)).
Proof.
  intros Ho. destruct (parse_options_ok uid opts defaults Ho (defaults_ok uid)) as (r & E & Hr). exists r. split; [done|].
  intros s n s1 s2 -> H1 H2. pose proof (routes_ok _ _ _ _ _ Hr H1) as Hs1.
  destruct (ping4_checks_ok _ _ _ _ Hs1 H2) as (Hs2 & Hd & _). split; [by apply setup_total|]. intros st H3.
  destruct (setup_run uid fails s2 st id target raw Hs2 H3) as (Hc & Hi & Hcap & Hu & Hf & Hl & Hj).
  pose proof Hs2 as [S1 S2 S3 S4 S5 S6 S7 S8 S9 _ S11 S12]. destruct Hc as [[O1 O2 O3 O4] _].
  split; [|split; [done|split; [intros; split; auto|done]]]. split; try done; cbn; lia.
Qed.

Lemma setup_correct_witness :
  Forall opt_ok [Opt_c 3; Opt_i true 200; Opt_p [97; 53]] /\
  exists r, parse_options 1000 [Opt_c 3; Opt_i true 200; Opt_p [97; 53]] defaults = Some r /\
  forall s n s1 s2, r = Done s -> routes 1 s = Some (n, s1) -> ping4_checks 1000 false s1 = Done s2 ->
    (exists x, setup 1000 false s2 = Some x) /\
    forall st, setup 1000 false s2 = Some (inl st) ->
      ready (configure 1000 7 8 true s2) st /\ settings_ok 1000 s2
      /\ (1000 <> 0 -> MINUSERINTERVAL <= interval st /\ st_preload s2 <= 3)
      /\ (isset s2 F_PINGFILLED = false -> forall j, 0 <= j < st_datalen s2 -> outpack st !! Z.to_nat (8 + j) = Some (u8 j)).
Proof.
  assert (H : Forall opt_ok [Opt_c 3; Opt_i true 200; Opt_p [97; 53]]).
  { apply Forall_cons. split; [exact I|]. apply Forall_cons. split; [cbn; unfold INTMAX; lia|]. apply Forall_cons. split; [exact I|apply Forall_nil_2]. }
  split; [exact H|]. exact (setup_correct 1000 1 false false 7 8 true _ H).
Defined.

(** C34: A probe and its echo.  The packet [ping4_send_probe] hands to the kernel
    has a right checksum, although the time is added after the checksum is
    first computed.  If a host answers it, and the answer arrives while the
    data of the probes is the same, [ping4_parse_reply] counts it as a good
    reply (or a repeated one) with the number of the probe; its round trip
    time is the time between the two calls of the clock. *)
Theorem echo_round_trip c now s s1 sent r ip rest m s2 t :
  ping_ok c s -> datalen c <= 65507 -> 0 <= ident c < 65536 -> socktype_raw c = true ->
  in_s 64 (tv_sec now) -> in_s 64 (tv_nsec now) ->
  ping4_send_probe c now sent s = Some (0, s1) -> echo_of (take (Z.to_nat (datalen c + 8)) (outpack s1)) r ->
  head ip = Some 0x45 -> length ip = 20%nat ->
  msg_buf m = ip ++ r ++ rest -> msg_cc m = 20 + Z.of_nat (length r) -> message4_ok c m ->
  0 <= nanos (msg_time m) - nanos now < 2 ^ 63 ->
  ping_ok c s2 -> drop 24 (outpack s2) = drop 24 (outpack s1) -> tallies s2 t ->
  in_cksum (take (Z.to_nat (datalen c + 8)) (outpack s1)) 0 = 0
  /\ exists sh s3, ping4_parse_reply c m s2 = Some (false, sh, s3)
     /\ tallies s3 (tally_reply (mkReply (u16 (ntransmitted s + 1)) false
                                   (if timing c then Some (nanos (msg_time m) - nanos now) else None)) t).
Proof.
  intros Hok Hd Hid Hraw Ht1 Ht2 Hsend He Hip Hlen Hbuf Hcc [(M1 & M2 & M3 & _) _] Htime Hok2 Hpat Ht.
  destruct (ping4_send_run c now s sent Hok) as (tbl & _ & Es). rewrite Hsend in Es. injection Es as _ ->.
  cbn [set_outpack outpack] in *. change (Z.to_nat (datalen c + 8)) with (packet_len c) in *.
  split; [by apply probe_checksum_ok|]. destruct (probe_packet_shape c now s Hok) as (_ & _ & Ed). rewrite Ed in Hpat.
  pose proof (length_echo c now s Hok r He) as Hlr. pose proof (ok_datalen _ _ Hok) as Hd0.
  unfold ping4_parse_reply. rewrite Hraw. destruct ip as [|b0 ip]; [done|]. injection Hip as ->. rewrite Hbuf in *.
  change (((0x45 :: ip) ++ r ++ rest) !! 0%nat) with (Some 0x45). cbn [mbind option_bind]. change (Z.land 0x45 15) with 5.
  rewrite Hcc, (proj2 (Z.ltb_ge _ (5 * 4 + 8))) by lia. change (5 <? 5) with false. cbn [orb]. change (Z.to_nat (5 * 4)) with 20%nat.
  rewrite !drop_app_length' by done. replace (20 + Z.of_nat (length r) - 5 * 4) with (datalen c + 8) by lia.
  apply Forall_app in M1 as [_ M1]. rewrite length_app, Hlen in M2. apply echo_parse; try done. split; try done; lia.
Qed.

Lemma demo_echo : echo_of demo_packet demo_reply.
Proof. split; [by apply bytes_of_forallb|]. split; [done|]. by exists 18, 235. Qed.

Lemma echo_round_trip_witness :
  in_cksum (take 24 (probe_packet demo_config demo_sent demo_start)) 0 = 0
  /\ exists sh s3, ping4_parse_reply demo_config demo_message demo_start = Some (false, sh, s3)
     /\ tallies s3 (tally_reply (mkReply 1 false (Some 2000000)) no_replies).
Proof.
  destruct (ready_counted demo_config demo_start demo_ready) as [Hok _].
  apply (echo_round_trip demo_config demo_sent demo_start
           (set_outpack (probe_packet demo_config demo_sent demo_start) demo_start) 24 demo_reply (0x45 :: replicate 19 0) (replicate 116 0)
           demo_message demo_start no_replies); try done.
  - exact demo_echo.
  - exact demo_message_ok.
  - exact demo_tallies.
Defined.

(** C35: Parsing a packet.  Whatever bytes arrive in the receive buffer,
    [ping4_parse_reply] reads inside it and enters the packet for the reply it
    is, once, or not at all; it leaves the probes, the bucket and (but for
    adaptive ping) the interval alone, and never reports a wrong data byte: a
    reply whose data differs is taken for someone else's.  The one exception
    is the record-route option of a datagram socket, whose length the code
    takes from the control message, header included: it can leave its memory
    only if a route is wider than the 40 bytes of [old_rr]. *)
Theorem parse_reply_safe c m s t :
  ping_ok c s -> delivered4 c m -> tallies s t ->
  match ping4_parse_reply c m s with
  | Some (notours, sh, s') =>
      ping_ok c s' /\ received_only s s'
      /\ books s' (enter m (reads4 c (drop 24 (outpack s)) m) (ledger_of s t))
      /\ (forall x d b w, sh = Line x d b w -> w = None)
  | None => socktype_raw c = false /\ exists o n, msg_retopts m = Some (o, n) /\ 44 < n /\ wide_route o n = true
  end.
Proof.
  intros Hok Hm Ht. destruct (ping4_parse_cases c m s t Hok Hm Ht) as [(no & sh & s' & E & R & Htbl & B)|[-> Hw]].
  - rewrite E. split; [by eapply received_ok|]. split; [done|]. split; [done|]. intros x d b w ->. by eapply parse_no_wrong.
  - apply andb_true_iff in Hw as [Hraw%negb_true_iff Hw]. split; [done|]. destruct (msg_retopts m) as [[o n]|]; [|done].
    exists o, n. split_and!; try done. destruct (Z.lt_ge_cases 44 n); [done|]. by rewrite narrow_route in Hw by done.
Qed.

(** A packet with a time stamp, on a raw socket; and one on a datagram socket
    with a full route of 40 bytes, whose control message has 56. *)
Definition demo_route : message :=
  mkMessage (demo_reply ++ replicate 136 0) 24
    (Some ([IPOPT_NOP; IPOPT_RR; 39; 40] ++ replicate 36 9 ++ replicate 18 0, 56)) demo_arrival demo_arrival.
Definition demo_dgram : config := mkConfig 1 1 0 10000 0 16 1 0x0100007f false.

Lemma parse_reply_safe_witness :
  (exists no sh s', ping4_parse_reply demo_config demo_message demo_start = Some (no, sh, s')
     /\ books s' (enter demo_message (Some (mkHeard 1 false (Some demo_sent))) (ledger_of demo_start no_replies)))
  /\ (exists no sh s', ping4_parse_reply demo_dgram demo_route demo_start = Some (no, sh, s')
     /\ books s' (enter demo_route (Some (mkHeard 1 false (Some demo_sent))) (ledger_of demo_start no_replies))).
Proof.
  assert (Hok : forall raw, ping_ok (mkConfig 1 1 0 10000 0 16 1 0x0100007f raw) demo_start).
  { intros raw. destruct (ready_counted demo_config demo_start demo_ready) as [[O1 O2 O3 O4] _]. by split. }
  pose proof (parse_reply_safe demo_config demo_message demo_start no_replies (Hok true) (proj1 demo_message_ok) demo_tallies) as H1.
  assert (Hm : delivered4 demo_dgram demo_route).
  { split; [by apply bytes_of_forallb|]. split; [vm_compute; discriminate|]. split; [vm_compute; intuition discriminate|].
    split; [by apply bytes_of_forallb|vm_compute; discriminate]. }
  pose proof (parse_reply_safe demo_dgram demo_route demo_start no_replies (Hok false) Hm demo_tallies) as H2.
  assert (R1 : reads4 demo_config (drop 24 (outpack demo_start)) demo_message = Some (mkHeard 1 false (Some demo_sent))) by (vm_compute; reflexivity).
  assert (R2 : reads4 demo_dgram (drop 24 (outpack demo_start)) demo_route = Some (mkHeard 1 false (Some demo_sent))) by (vm_compute; reflexivity).
  rewrite R1 in H1. rewrite R2 in H2.
  assert (E1 : bool_decide (ping4_parse_reply demo_config demo_message demo_start = None) = false) by (vm_compute; reflexivity).
  assert (E2 : bool_decide (ping4_parse_reply demo_dgram demo_route demo_start = None) = false) by (vm_compute; reflexivity).
  split.
  - revert H1 E1. generalize (ping4_parse_reply demo_config demo_message demo_start). intros [[[no sh] s']|] H1 E1; [|discriminate].
    exists no, sh, s'. split; [reflexivity|]. apply H1.
  - revert H2 E2. generalize (ping4_parse_reply demo_dgram demo_route demo_start). intros [[[no sh] s']|] H2 E2; [|discriminate].
    exists no, sh, s'. split; [reflexivity|]. apply H2.
Defined.

(** The checksum.  For up to 65534 bytes the sum does not overflow and is
    the complement of the one's complement sum of the words; a right packet in
    which one word is changed fails, unless the change is between the two
    zeros of that arithmetic. *)
Theorem checksum_correct :
  (forall l csum, Forall (in_u 8) l -> Z.of_nat (length l) <= 65534 -> 0 <= csum <= 65535 ->
     in_cksum l csum = 65535 - ones_sum (csum + wsum l))
  /\ (forall l1 a b a' b' l2, Nat.Even (length l1) -> Forall (in_u 8) (l1 ++ [a; b] ++ l2) -> in_u 8 a' -> in_u 8 b' ->
     Z.of_nat (length (l1 ++ [a; b] ++ l2)) <= 65534 ->
     in_cksum (l1 ++ [a; b] ++ l2) 0 = 0 -> in_cksum (l1 ++ [a'; b'] ++ l2) 0 = 0 ->
     a + 256 * b = a' + 256 * b' \/ (a + 256 * b = 0 /\ a' + 256 * b' = 65535) \/ (a + 256 * b = 65535 /\ a' + 256 * b' = 0)).
Proof.
  split; [intros l csum Hl Hn Hc; apply in_cksum_run; [done|lia|done]|].
  intros l1 a b a' b' l2 He Hl Ha' Hb' Hn. apply Forall_app in Hl as [H1 H2]. apply Forall_app in H2 as [Hab H2].
  assert (Hab' : Forall (in_u 8) [a'; b']) by (by repeat (apply Forall_cons; split); [..|apply Forall_nil_2]).
  assert (Hn' : Z.of_nat (length (l1 ++ [a'; b'] ++ l2)) <= 65534) by (rewrite !length_app in *; cbn [length] in *; lia).
  rewrite (in_cksum_run (l1 ++ [a; b] ++ l2)), (in_cksum_run (l1 ++ [a'; b'] ++ l2)) by (lia || by repeat apply Forall_app_2).
  assert (W : forall u v, wsum (l1 ++ [u; v] ++ l2) = wsum l1 + (u + 256 * v + wsum l2)) by (intros; by rewrite wsum_app by done). rewrite !W.
  pose proof (proj1 (wsum_bounds _ H1)). pose proof (proj1 (wsum_bounds _ H2)).
  inversion Hab as [|? ? Ha Hb0]; inversion Hb0 as [|? ? Hb _]; subst. unfold in_u in Ha, Hb, Ha', Hb'.
  intros E1 E2. match type of E1 with _ - ones_sum ?x = 0 => destruct (ones_sum_congr x ltac:(lia)) as (k & Hk & _) end.
  match type of E2 with _ - ones_sum ?x = 0 => destruct (ones_sum_congr x ltac:(lia)) as (k' & Hk' & _) end.
  assert (65535 * (k - k') = a + 256 * b - (a' + 256 * b')) by lia.
  assert (k - k' = 0 \/ k - k' = 1 \/ k - k' = -1) as [?|[?|?]] by lia; lia.
Qed.

(** The recorded route.  [pr_options] reads at most two bytes past the
    header it is given and ends; it prints exactly the addresses that [k]
    routers recorded in the option ping -R sends (unless they are those of the
    last reply). *)
Theorem options_printed flood :
  (forall mem hlen old, Forall (in_u 8) mem -> hlen <= 64 -> hlen - 18 <= Z.of_nat (length mem) ->
     exists l old', pr_options flood mem hlen old = Some (l, old'))
  /\ (forall addrs rest old, Forall (fun a => length a = 4%nat) addrs -> (0 < length addrs <= 9)%nat ->
     record_route = Some ([IPOPT_NOP; IPOPT_RR; 39; 4] ++ replicate 36 0) /\
     let mem := [IPOPT_NOP; IPOPT_RR; 39; 4 + 4 * Z.of_nat (length addrs)] ++ concat addrs ++ replicate (36 - 4 * length addrs) 0 ++ rest in
     exists old', pr_options flood mem 60 old = Some ([NopText; RecordRoute addrs], old')
       \/ pr_options flood mem 60 old = Some ([NopText; SameRoute], old)).
Proof.
  split; [intros; by apply pr_options_total|]. intros addrs rest old H4 Hn. split; [done|].
  destruct (route_printed flood addrs rest old H4 Hn) as (old' & H). by exists old'.
Qed.

(** The addresses of a source route are read one byte too early, at the
    pointer. *)
Example source_route_misread :
  pr_options false ([IPOPT_LSRR; 7; 8; 10; 0; 0; 1] ++ replicate 20 0) 27 [] = Some ([SourceRoute false [[8; 10; 0; 0]]], []).
Proof. reflexivity. Qed.

(** A datagram socket passes the length of the control message, header
    included: a route of more than 40 bytes overruns [old_rr]. *)
Example old_rr_overrun : pr_options false ([IPOPT_RR; 56; 56] ++ replicate 60 1) (56 + 20) [] = None.
Proof. reflexivity. Qed.

(** The square root of the deviation: for every positive [a] below
    [2^63 - 1] the loop ends, with the root of [a + 1] rounded down. *)
Theorem llsqrt_correct a : 0 < a < 2 ^ 63 - 1 -> llsqrt a = Some (Z.sqrt (a + 1)).
Proof. apply llsqrt_run. Qed.

Lemma llsqrt_correct_witness : 0 < 1000000 < 2 ^ 63 - 1 /\ llsqrt 1000000 = Some (Z.sqrt (1000000 + 1)).
Proof. split; [lia|]. apply (llsqrt_correct 1000000). lia. Defined.

(** The window of outstanding probes.  While fewer than 32768 probes are
    unanswered, the 16-bit arithmetic is that of the counters: [in_flight] is
    the number of probes since the last acknowledged one, an acknowledgement
    of probe [m] moves the window to the larger of the two and [pipesize] to
    the largest distance seen, and a new probe leaves it in place. *)
Theorem window_correct a s : window a s ->
  in_flight s = ntransmitted s - a
  /\ (forall m, 0 <= ntransmitted s - m <= 0x7FFF ->
        window (Z.max a m) (acknowledge (u16 m) s)
        /\ pipesize (acknowledge (u16 m) s) = Z.max (pipesize s) (ntransmitted s - m + 1))
  /\ (ntransmitted s + 1 - a <= 0x7FFF ->
        window a (advance_ntransmitted s) /\ in_flight (advance_ntransmitted s) = ntransmitted s + 1 - a).
Proof.
  intros H. split; [by apply in_flight_run|]. split; [intros m Hm; by apply acknowledge_run|]. intros Hn.
  pose proof (advance_run a s H Hn) as H'. split; [done|]. rewrite (in_flight_run a) by done.
  by destruct (advance_fields s) as (-> & _).
Qed.

Definition demo_window : ping := set_acked (u16 70000) (set_ntransmitted 70003 demo_start).

Lemma window_correct_witness :
  in_flight demo_window = 70003 - 70000
  /\ (forall m, 0 <= 70003 - m <= 0x7FFF ->
        window (Z.max 70000 m) (acknowledge (u16 m) demo_window)
        /\ pipesize (acknowledge (u16 m) demo_window) = Z.max (pipesize demo_window) (70003 - m + 1))
  /\ (70003 + 1 - 70000 <= 0x7FFF ->
        window 70000 (advance_ntransmitted demo_window) /\ in_flight (advance_ntransmitted demo_window) = 70003 + 1 - 70000).
Proof. apply (window_correct 70000 demo_window). split; [reflexivity|vm_compute; intuition discriminate]. Defined.

(** Three replies after 4 seconds each: the squares overflow, and a deviation
    is printed where there is none. *)
Example mdev_overflow :
  let s := fold_right (account demo_config) (set_nreceived 3 (set_ntransmitted 3 demo_start)) [4000000000; 4000000000; 4000000000] in
  rp_mdev <$> finish demo_config demo_sent s = Some (Z.sqrt (6148914691236517205 + 1)).
Proof. vm_compute. reflexivity. Qed.

(** Adaptive ping takes nanoseconds for microseconds: after a round trip of
    50 ms the next probe is due in 50 s. *)
Example adaptive_interval : interval (account demo_config 50000000 (set_options F_ADAPTIVE demo_start)) = 50000.
Proof. reflexivity. Qed.
