(* ===== verification/PingSix.v ===== *)
(** * ping for IPv6: iputils-ns/ping6_common.c

    The functions of the protocol: echo requests and node information queries
    (RFC 4620), replies and errors.  An IPv6 address is the value of its sixteen
    bytes, low byte first; the hop limit of a packet is only printed and left
    out.  A query sets [datalen] to 0 before anything is received, so a run with
    queries has a [config] with that length.

    MD5 ([md5]) and the resolver ([dn_expand], [dn_comp]) are libraries: they are
    arguments.  The build is the default one: a nonce is a digest
    (PING6_NONCE_MEMORY is 0) and there is no routing header. *)

From Stdlib Require Import ZArith Lia String Ascii.
From stdpp Require Import base numbers option list.
From S2P Require Import Prelude Ping PingPacket.

Local Open Scope list_scope.
Local Open Scope Z_scope.
Local Abbreviation length := List.length.

Definition ICMP6_ECHO_REQUEST : Z := 128.
Definition ICMP6_ECHO_REPLY : Z := 129.
Definition ICMPV6_NI_QUERY : Z := 139.
Definition ICMPV6_NI_REPLY : Z := 140.
Definition IPPROTO_ICMPV6 : Z := 58.

Definition NI_SUBJ_IPV6 : Z := 0.
Definition NI_SUBJ_NAME : Z := 1.
Definition NI_SUBJ_IPV4 : Z := 2.
Definition NI_SUCCESS : Z := 0.
Definition NI_REFUSED : Z := 1.
Definition NI_UNKNOWN : Z := 2.
Definition NI_QTYPE_NAME : Z := 2.
Definition NI_QTYPE_IPV6ADDR : Z := 3.
Definition NI_QTYPE_IPV4ADDR : Z := 4.
Definition NI_NONCE_SIZE : nat := 8.

(** ** The query *)

(** The global variables [ni_query], [ni_flag] and the subject with its
    [ni_subject_len] bytes; flags are in network order. *)
Record niquery := mkNi {
  ni_query : Z;
  ni_flag : Z;
  ni_subject : option (list Z);
  ni_subject_type : Z;
  ni_group : option (list Z * option string)   (* the four bytes of the digest and the scope *)
}.

Definition no_query : niquery := mkNi (-1) 0 None (-1) None.

Definition niquery_is_enabled (q : niquery) : bool := 0 <=? ni_query q.

Definition niquery_is_subject_valid (q : niquery) : bool :=
  (0 <=? ni_subject_type q) && match ni_subject q with Some _ => true | None => false end.

(** ** The nonce *)

Section Protocol.
Context (md5 : list Z -> list Z).
(** [ni_nonce_secret] as bytes. *)
Context (secret : list Z).

(** The static variables of [niquery_nonce]. *)
Record digest_cache := mkCache { dc_seq : Z; dc_digest : list Z }.
Definition no_digest : digest_cache := mkCache (-1) (replicate 16 0).

Definition refresh (nonce : list Z) (fill : bool) (k : digest_cache) : option digest_cache :=
  raw ← load16 0 nonce;
  if fill || negb (dc_seq k =? raw) || (dc_seq k <? 0) then
    two ← load 0 2 nonce; Some (mkCache raw (md5 (secret ++ two)))
  else Some k.

(** The result, the nonce and the variables. *)
Definition niquery_nonce (nonce : list Z) (fill : bool) (k : digest_cache) : option (Z * list Z * digest_cache) :=
  k ← refresh nonce fill k;
  d ← load 0 (NI_NONCE_SIZE - 2) (dc_digest k);
  if fill then
    nonce ← memcpy 2 d nonce; Some (0, nonce, k)
  else
    rest ← load 2 (NI_NONCE_SIZE - 2) nonce;
    if negb (bool_decide (rest = d)) then Some (-1, nonce, k)
    else seq ← load16_net 0 nonce; Some (seq, nonce, k).

Definition niquery_fill_nonce (seq : Z) (nonce : list Z) (k : digest_cache) : option (list Z * digest_cache) :=
  nonce ← memcpy 0 (reverse (le_bytes 2 seq)) nonce;
  '(_, nonce, k) ← niquery_nonce nonce true k;
  Some (nonce, k).

Definition niquery_check_nonce (nonce : list Z) (k : digest_cache) : option (Z * digest_cache) :=
  '(seq, _, k) ← niquery_nonce nonce false k; Some (seq, k).

(** ** Sending *)

(** [struct timeval]: seconds and microseconds. *)
Definition encode_timeval (t : timespec) : list Z :=
  le_bytes 8 (u64 (tv_sec t)) ++ le_bytes 8 (u64 (Z.quot (tv_nsec t) 1000)).

Definition echo6_header (c : config) (seq : Z) : list Z :=
  [ICMP6_ECHO_REQUEST; 0; 0; 0] ++ le_bytes 2 (ident c) ++ reverse (le_bytes 2 seq).

(** The packet and its length. *)
Definition build_echo (c : config) (now : timespec) (s : ping) : option (list Z * Z) :=
  p ← memcpy 0 (echo6_header c (u16 (ntransmitted s + 1))) (outpack s);
  p ← (if timing c then memcpy 8 (encode_timeval now) p else Some p);
  Some (p, datalen c + 8).

Definition build_niquery (q : niquery) (s : ping) (k : digest_cache) : option (list Z * Z * digest_cache) :=
  p ← memcpy 2 [0; 0] (outpack s);
  p ← memcpy 0 [ICMPV6_NI_QUERY] p;
  nonce ← load 8 NI_NONCE_SIZE p;
  '(nonce, k) ← niquery_fill_nonce (u16 (ntransmitted s + 1)) nonce k;
  p ← memcpy 8 nonce p;
  p ← memcpy 1 [u8 (ni_subject_type q)] p;
  p ← memcpy 4 (reverse (le_bytes 2 (ni_query q))) p;
  p ← memcpy 6 (le_bytes 2 (ni_flag q)) p;
  subject ← ni_subject q;
  p ← memcpy 16 subject p;
  Some (p, 16 + Z.of_nat (length subject), k).

Definition ping6_send_probe (q : niquery) (c : config) (now : timespec) (sent : Z) (k : digest_cache) (s : ping)
    : option (Z * digest_cache * ping) :=
  tbl ← rcvd_clear (u16 (ntransmitted s + 1)) (rcvd_tbl s);
  '(p, len, k) ← (if niquery_is_enabled q then build_niquery q s k
                  else '(p, len) ← build_echo c now s; Some (p, len, k));
  Some (if sent =? len then 0 else sent, k, set_confirm 0 (set_outpack p (set_rcvd_tbl tbl s))).

(** ** Errors *)

Definition ping6_receive_error_msg (c : config) (q : option queued) (errno : Z) (s : ping) : option (Z * Z * ping) :=
  match q with
  | None => Some (0, errno, s)
  | Some LocalError => Some (-1, errno, if has s F_QUIET then s else set_nerrors (nerrors s + 1) s)
  | Some (IcmpError target icmph) =>
      if (length icmph <? 8)%nat then Some (0, 0, s)
      else
        type ← icmph !! 0%nat;
        id ← load16 4 icmph;
        if negb (target =? whereto c) || negb (type =? ICMP6_ECHO_REQUEST) || negb (is_ours c id) then Some (0, 0, s)
        else Some (1, errno, set_nerrors (nerrors s + 1) s)
  | Some OtherError => Some (0, errno, s)
  end.

(** ** The text of a node information reply *)

Context (dn_expand : list Z -> nat -> option (nat * list Z)).

Inductive ni_text :=
  | TooShort
  | Names (names : list (list Z * bool)) (truncated : bool)     (* with a final dot or not *)
  | Addresses (af : Z) (addrs : list (list Z)) (truncated flag : bool)
  | UnknownQtype (qtype : Z)
  | Refused
  | Unknown
  | UnknownCode (code : Z).

(** From [p] to [endp]: [dn_expand msg off] are the bytes used by the name at
    [off] in the message that starts behind the header, and the name. *)
Fixpoint names_loop (fuel : nat) (nih : list Z) (p endp : nat) (acc : list (list Z * bool)) : option ni_text :=
  if (endp <=? p)%nat then Some (Names acc false)
  else
    match fuel with
    | O => None
    | S fuel =>
        match dn_expand (take (endp - 16)%nat (drop 16 nih)) (p - 16)%nat with
        | None => Some (Names acc true)
        | Some (ret, name) =>
            fqdn ← (if (p + ret <? endp)%nat then (fun b => negb (b =? 0)) <$> nih !! (p + ret)%nat else Some true);
            names_loop fuel nih (p + ret + Nat.b2n (negb fqdn))%nat endp (acc ++ [(name, fqdn)])
        end
    end.

Definition pr_niquery_reply_name (nih : list Z) (len : Z) : option ni_text :=
  if len - (16 + 4) <? 0 then Some TooShort
  else names_loop (Z.to_nat len) nih 20 (Z.to_nat len) [].

Fixpoint addrs_loop (fuel : nat) (nih : list Z) (aflen p endp : nat) (acc : list (list Z)) : option (list (list Z) * bool) :=
  if (endp <=? p)%nat then Some (acc, false)
  else
    match fuel with
    | O => None
    | S fuel =>
        if (endp <? p + 4 + aflen)%nat then Some (acc, true)
        else
          a ← load (p + 4)%nat aflen nih;
          addrs_loop fuel nih aflen (p + 4 + aflen)%nat endp (acc ++ [a])
    end.

Definition pr_niquery_reply_addr (nih : list Z) (len : Z) : option ni_text :=
  qtype ← load16_net 4 nih;
  flags ← load16 6 nih;
  let '(af, aflen) := if qtype =? NI_QTYPE_IPV4ADDR then (2, 4%nat) else if qtype =? NI_QTYPE_IPV6ADDR then (10, 16%nat) else (0, 0%nat) in
  let flag := negb (af =? 0) && negb (Z.land flags 0x0100 =? 0) in
  if len <? 0 then Some TooShort
  else '(l, tr) ← addrs_loop (Z.to_nat len) nih aflen 16 (Z.to_nat len) []; Some (Addresses af l tr flag).

Definition pr_niquery_reply (nih : list Z) (len : Z) : option ni_text :=
  code ← nih !! 1%nat;
  if code =? NI_SUCCESS then
    qtype ← load16_net 4 nih;
    if qtype =? NI_QTYPE_NAME then pr_niquery_reply_name nih len
    else if (qtype =? NI_QTYPE_IPV4ADDR) || (qtype =? NI_QTYPE_IPV6ADDR) then pr_niquery_reply_addr nih len
    else Some (UnknownQtype qtype)
  else if code =? NI_REFUSED then Some Refused
  else if code =? NI_UNKNOWN then Some Unknown
  else Some (UnknownCode code).

(** ** Receiving *)

(** The packet a message quotes, behind an IPv6 header and perhaps a fragment
    header. *)
Definition parse_error6 (c : config) (cc : Z) (buf : list Z) (s : ping) : option (bool * shown * ping) :=
  if cc <? 8 + 40 + 8 then Some (true, Silent, s)
  else
    daddr ← load (8 + 24) 16 buf;
    if negb (le_value daddr =? whereto c) then Some (true, Silent, s)
    else
      nxt ← buf !! (8 + 6)%nat;
      '(nexthdr, icmph1) ← (if nxt =? 44 then n ← buf !! 48%nat; Some (n, 56%nat) else Some (nxt, 48%nat));
      if nexthdr =? IPPROTO_ICMPV6 then
        type1 ← buf !! icmph1;
        if negb (type1 =? ICMP6_ECHO_REQUEST) then Some (true, Silent, s)
        else
          id1 ← load16 (icmph1 + 4) buf;
          if negb (is_ours c id1) then Some (true, Silent, s)
          else
            seq ← load16_net (icmph1 + 6) buf;
            let s := acknowledge seq s in
            let s := set_nerrors (nerrors s + 1) s in
            Some (false, if has s F_FLOOD then Silent else Other, s)
      else if negb (has s F_VERBOSE) || negb (uid c =? 0) then Some (true, Silent, s)
      else Some (false, Other, s).

(** The text of a node information reply is printed by [gather_statistics]
    unless ping is quiet or floods. *)
Definition ping6_parse_reply (c : config) (m : message) (k : digest_cache) (s : ping)
    : option (bool * shown * option ni_text * digest_cache * ping) :=
  let buf := msg_buf m in
  let cc := msg_cc m in
  if cc <? 8 then Some (true, if has s F_VERBOSE then Other else Silent, None, k, s)
  else
    type ← buf !! 0%nat;
    if type =? ICMP6_ECHO_REPLY then
      id ← load16 4 buf;
      if negb (is_ours c id) then Some (true, Silent, None, k, s)
      else
        same ← contains_pattern_in_payload c (drop 8 buf) s;
        if negb same then Some (true, Silent, None, k, s)
        else
          seq ← load16_net 6 buf;
          '(sh, s) ← gather_statistics c (drop 8 buf) cc seq false (msg_time m) (msg_clock m) s;
          Some (false, sh, None, k, s)
    else if type =? ICMPV6_NI_REPLY then
      nonce ← load 8 NI_NONCE_SIZE buf;
      '(seq, k) ← niquery_check_nonce nonce k;
      if seq <? 0 then Some (true, Silent, None, k, s)
      else
        '(sh, s) ← gather_statistics c (drop 8 buf) cc seq false (msg_time m) (msg_clock m) s;
        text ← (match sh with Truncated | Line _ _ _ _ => Some <$> pr_niquery_reply buf cc | _ => Some None end);
        Some (false, sh, text, k, s)
    else '(no, sh, s) ← parse_error6 c cc buf s; Some (no, sh, None, k, s).

End Protocol.

(** ** The functions of the protocol

    With echo requests.  No secret has then been chosen, and the static
    variables only save the computation of a digest (see PingSixSpec). *)
Definition no_secret : list Z := replicate 24 0.

Definition ping6_func_set (md5 : list Z -> list Z) (dn_expand : list Z -> nat -> option (nat * list Z)) : FuncSet := {|
  send_probe c now i s := '(r, _, s) ← ping6_send_probe md5 no_secret no_query c now i no_digest s; Some (r, s);
  receive_error_msg := ping6_receive_error_msg;
  parse_reply c m s := '(no, sh, _, _, s) ← ping6_parse_reply md5 no_secret dn_expand c m no_digest s; Some (no, sh, s)
|}.
