(* ===== verification/PingSixSpec.v ===== *)
(** * IPv6 keeps the promises of a protocol

    The functions of ping6_common.c as an instance of the interface of the
    engine; the nonce of a query; the text of a reply. *)

From Stdlib Require Import ZArith Lia.
From stdpp Require Import base gmap numbers option list.
From S2P Require Import Prelude Ping PingSpec PingReply PingOptions PingPacket PingFour PingSix.

Local Open Scope Z_scope.

(** ** Sending *)

Lemma length_timeval t : length (encode_timeval t) = 16%nat.
Proof. unfold encode_timeval. by rewrite length_app, !length_le_bytes. Qed.

Lemma timeval_range t : Forall (in_u 8) (encode_timeval t).
Proof. apply Forall_app. split; apply le_bytes_range. Qed.

(** A [timeval] read as a [timespec]: the microseconds are taken for
    nanoseconds. *)
Lemma decode_timeval t rest : in_s 64 (tv_sec t) -> 0 <= tv_nsec t < 1000000000 ->
  decode_time (encode_timeval t ++ rest) = Some (mkTime (tv_sec t) (tv_nsec t / 1000)).
Proof.
  intros Hs Hn. assert (0 <= tv_nsec t / 1000 < 1000000) by (split; [apply Z.div_pos; lia|apply Z.div_lt_upper_bound; lia]).
  unfold encode_timeval. rewrite Z.quot_div_nonneg by lia.
  pose proof (decode_encode (mkTime (tv_sec t) (tv_nsec t / 1000)) rest) as D. unfold encode_time in D. cbn [tv_sec tv_nsec] in D.
  apply D; [done|]. unfold in_s. lia.
Qed.

Definition stamp6 (c : config) (now : timespec) : list Z := if timing c then encode_timeval now else [].

(** The packet [build_echo] leaves. *)
Definition probe6 (c : config) (now : timespec) (s : ping) : list Z :=
  echo6_header c (u16 (ntransmitted s + 1)) ++ stamp6 c now ++ drop (8 + length (stamp6 c now)) (outpack s).

Lemma length_header6 c seq : length (echo6_header c seq) = 8%nat.
Proof. done. Qed.

Lemma stamp6_fits c now s : ping_ok c s -> (8 + length (stamp6 c now) <= length (outpack s))%nat /\ (length (stamp6 c now) <= 16)%nat.
Proof.
  intros [H1 _ H3 _]. unfold stamp6, timing in *. destruct (Z.leb_spec 16 (datalen c)); rewrite ?length_timeval; cbn [length]; lia.
Qed.

Lemma build_echo_run c now s : ping_ok c s -> build_echo c now s = Some (probe6 c now s, datalen c + 8).
Proof.
  intros Hok. destruct (stamp6_fits c now s Hok) as [Hl _]. unfold build_echo, probe6. set (h := echo6_header c _).
  destruct (split_at (8 + length (stamp6 c now)) (outpack s) Hl) as (h0 & q & Eo & Eh).
  destruct (split_at 8 h0 ltac:(lia)) as (a & t & -> & Ea). rewrite length_app in Eh.
  rewrite Eo. rewrite drop_app_length' by (rewrite length_app; lia). rewrite <- app_assoc, memcpy_front by (by rewrite Ea).
  cbn [mbind option_bind]. unfold stamp6 in *. destruct (timing c); cbn [mbind option_bind].
  - change 8%nat with (length h). rewrite memcpy_app by (rewrite length_timeval in *; lia). done.
  - destruct t; [done|]. cbn [length] in Eh. lia.
Qed.

Lemma probe6_shape c now s : ping_ok c s ->
  length (probe6 c now s) = length (outpack s) /\ Forall (in_u 8) (probe6 c now s) /\ drop 24 (probe6 c now s) = drop 24 (outpack s).
Proof.
  intros Hok. destruct (stamp6_fits c now s Hok) as [Hl Hs]. destruct Hok as [_ _ _ H4]. unfold probe6. set (h := echo6_header c _).
  assert (Lh : length h = 8%nat) by done. split; [|split].
  - rewrite !length_app, length_drop. lia.
  - apply Forall_app. split.
    + unfold h, echo6_header. repeat (apply Forall_cons; split; [by split|]). apply Forall_app. split; [apply le_bytes_range|]. apply Forall_reverse, le_bytes_range.
    + apply Forall_app. split; [unfold stamp6; destruct (timing c); [apply timeval_range|constructor]|by apply Forall_drop].
  - rewrite app_assoc, drop_app_ge by (rewrite length_app; lia). rewrite length_app, drop_drop. f_equal. lia.
Qed.

(** ** Errors *)

Lemma ping6_error_run c q errno s : exists r errno' s',
  ping6_receive_error_msg c q errno s = Some (r, errno', s') /\ errors_only s s'.
Proof.
  assert (H0 : errors_only s s) by (by destruct s).
  destruct q as [[|target icmph|]|]; cbn [ping6_receive_error_msg]; try (by eexists _, _, _).
  { eexists _, _, _. split; [reflexivity|]. by destruct (has s F_QUIET), s. }
  destruct (Nat.ltb_spec (length icmph) 8); [by eexists _, _, _|].
  destruct (lookup_lt_is_Some_2 icmph 0 ltac:(lia)) as [b ->]. cbn [mbind option_bind].
  unfold load16. rewrite !load_some by lia. cbn [fmap option_fmap option_map mbind option_bind].
  destruct (_ || _); [by eexists _, _, _|]. eexists _, _, _. split; [reflexivity|]. by destruct s.
Qed.

(** ** The nonce *)

Lemma le_bytes_value l : Forall (in_u 8) l -> le_bytes (length l) (le_value l) = l.
Proof.
  induction 1 as [|b l Hb _ IH]; [done|]. cbn [length le_bytes le_value]. unfold in_u in Hb. change (2 ^ 8) with 256 in Hb. f_equal.
  - unfold wrapu. change (2 ^ 8) with 256. rewrite (Z.mul_comm 256), Z.mod_add by lia. by apply Z.mod_small.
  - rewrite Z.shiftr_div_pow2 by lia. change (2 ^ 8) with 256. rewrite (Z.mul_comm 256), Z.div_add by lia. rewrite (Z.div_small b) by lia. exact IH.
Qed.

Section Library.
Context (md5 : list Z -> list Z) (Hmd5 : forall l, length (md5 l) = 16%nat).
Context (dn_expand : list Z -> nat -> option (nat * list Z)) (Hdn : forall m off ret name, dn_expand m off = Some (ret, name) -> (0 < ret)%nat).

Section Nonce.
Context (secret : list Z).

(** The digest of a sequence number, as two bytes. *)
Definition tag (two : list Z) : list Z := take 6 (md5 (secret ++ two)).

Definition nonce_of (seq : Z) : list Z := reverse (le_bytes 2 seq) ++ tag (reverse (le_bytes 2 seq)).

Definition valid_nonce (nonce : list Z) : Prop := drop 2 nonce = tag (take 2 nonce).

#[export] Instance valid_nonce_dec nonce : Decision (valid_nonce nonce).
Proof. unfold valid_nonce. apply _. Defined.

(** The variables hold the digest of their number, or nothing. *)
Definition cache_ok (k : digest_cache) : Prop :=
  length (dc_digest k) = 16%nat /\ (0 <= dc_seq k -> dc_digest k = md5 (secret ++ le_bytes 2 (dc_seq k))).

Lemma no_digest_ok : cache_ok no_digest.
Proof. split; [done|]. cbn. lia. Qed.

Lemma refresh_run nonce fill k : cache_ok k -> Forall (in_u 8) nonce -> (2 <= length nonce)%nat ->
  exists k', refresh md5 secret nonce fill k = Some k' /\ cache_ok k' /\ dc_digest k' = md5 (secret ++ take 2 nonce).
Proof.
  intros [Hl Hk] Hb Hn. unfold refresh, load16. rewrite !load_some by lia. cbn [fmap option_fmap option_map mbind option_bind].
  rewrite drop_0. set (two := take 2 nonce). assert (L2 : length two = 2%nat) by (unfold two; rewrite length_take; lia).
  assert (B2 : Forall (in_u 8) two) by (by apply Forall_take). pose proof (le_bytes_value two B2) as E. rewrite L2 in E.
  destruct (fill || _ || _) eqn:G.
  - eexists. split; [done|]. split; [|done]. split; cbn [dc_digest dc_seq]; [by apply Hmd5|]. intros _. by rewrite E.
  - exists k. split; [done|]. split; [done|]. apply orb_false_iff in G as [G G3]. apply orb_false_iff in G as [_ G2].
    apply negb_false_iff, Z.eqb_eq in G2. apply Z.ltb_ge in G3. rewrite (Hk G3), G2. f_equal. f_equal. exact E.
Qed.

Lemma length_tag two : length (tag two) = 6%nat.
Proof. unfold tag. rewrite length_take, Hmd5. done. Qed.

Lemma check_nonce_run nonce k : cache_ok k -> Forall (in_u 8) nonce -> length nonce = 8%nat -> exists k', cache_ok k' /\
  niquery_check_nonce md5 secret nonce k = Some (if decide (valid_nonce nonce) then le_value (reverse (take 2 nonce)) else -1, k').
Proof.
  intros Hk Hb Hn. destruct (refresh_run nonce false k Hk Hb ltac:(lia)) as (k' & E & Hk' & Ed). exists k'. split; [done|].
  unfold niquery_check_nonce, niquery_nonce. rewrite E. cbn [mbind option_bind]. rewrite (load_some _ _ (dc_digest k')) by (destruct Hk' as [-> _]; cbn; lia).
  cbn [mbind option_bind]. rewrite !load_some by (rewrite Hn; cbn; lia). unfold load16_net. rewrite load_some by lia.
  cbn [mbind option_bind fmap option_fmap option_map]. rewrite Ed, drop_0. change (NI_NONCE_SIZE - 2)%nat with 6%nat. fold (tag (take 2 nonce)).
  assert (El : take 6 (drop 2 nonce) = drop 2 nonce) by (apply take_ge; rewrite length_drop; lia). rewrite El.
  unfold valid_nonce. destruct (decide _) as [Hv|Hv].
  - by rewrite bool_decide_eq_true_2.
  - by rewrite bool_decide_eq_false_2.
Qed.

Lemma fill_nonce_run seq nonce k : cache_ok k -> length nonce = 8%nat -> Forall (in_u 8) nonce -> exists k', cache_ok k' /\
  niquery_fill_nonce md5 secret seq nonce k = Some (nonce_of seq, k').
Proof.
  intros Hk Hn Hb. set (two := reverse (le_bytes 2 seq)). assert (L2 : length two = 2%nat) by done.
  destruct (split_at 2 nonce ltac:(lia)) as (a & q & -> & Ha). rewrite length_app in Hn.
  assert (Hb2 : Forall (in_u 8) (two ++ q)).
  { apply Forall_app in Hb as [_ Hb]. apply Forall_app. split; [apply Forall_reverse, le_bytes_range|done]. }
  destruct (refresh_run (two ++ q) true k Hk Hb2 ltac:(rewrite length_app; lia)) as (k' & E & Hk' & Ed). exists k'. split; [done|].
  rewrite take_app_le, (take_ge two) in Ed by lia.
  unfold niquery_fill_nonce. fold two. rewrite memcpy_front by lia. cbn [mbind option_bind]. unfold niquery_nonce. rewrite E.
  cbn [mbind option_bind]. rewrite (load_some _ _ (dc_digest k')) by (destruct Hk' as [-> _]; cbn; lia). cbn [mbind option_bind]. rewrite Ed, drop_0.
  change (NI_NONCE_SIZE - 2)%nat with 6%nat. fold (tag two). pose proof (length_tag two).
  pose proof (memcpy_app two (tag two) q [] ltac:(lia)) as M. rewrite L2, !app_nil_r in M. rewrite M. done.
Qed.

End Nonce.

(** ** The text of a reply *)

Lemma names_loop_total nih endp : (endp <= length nih)%nat -> forall fuel p acc, (endp <= p + fuel)%nat ->
  exists text, names_loop dn_expand fuel nih p endp acc = Some text.
Proof.
  intros Hl. induction fuel as [|fuel IH]; intros p acc Hf; cbn [names_loop]; destruct (Nat.leb_spec endp p); try (by eexists); [lia|].
  destruct (dn_expand _ _) as [[ret name]|] eqn:E; [|by eexists]. apply Hdn in E.
  destruct (Nat.ltb_spec (p + ret) endp) as [Hp|Hp].
  - destruct (lookup_lt_is_Some_2 nih (p + ret) ltac:(lia)) as [b ->]. cbn. apply IH. lia.
  - cbn. apply IH. lia.
Qed.

Lemma addrs_loop_total nih aflen endp : (endp <= length nih)%nat -> forall fuel p acc, (endp <= p + fuel)%nat ->
  exists l tr, addrs_loop fuel nih aflen p endp acc = Some (l, tr).
Proof.
  intros Hl. induction fuel as [|fuel IH]; intros p acc Hf; cbn [addrs_loop]; destruct (Nat.leb_spec endp p); try (by eexists _, _); [lia|].
  destruct (Nat.ltb_spec endp (p + 4 + aflen)); [by eexists _, _|]. rewrite load_some by lia. cbn. apply IH. lia.
Qed.

Lemma pr_niquery_reply_total nih len : (16 <= length nih)%nat -> len <= Z.of_nat (length nih) -> exists text, pr_niquery_reply dn_expand nih len = Some text.
Proof.
  intros Hl Hlen. unfold pr_niquery_reply, pr_niquery_reply_name, pr_niquery_reply_addr.
  destruct (lookup_lt_is_Some_2 nih 1 ltac:(lia)) as [code ->]. cbn [mbind option_bind].
  unfold load16_net, load16. rewrite !load_some by lia. cbn [fmap option_fmap option_map mbind option_bind].
  set (qtype := le_value _).
  destruct (code =? NI_SUCCESS); [|repeat destruct (_ =? _); by eexists].
  destruct (qtype =? NI_QTYPE_NAME).
  - destruct (_ <? 0); [by eexists|]. apply names_loop_total; lia.
  - destruct (_ || _); [|by eexists]. destruct (if qtype =? NI_QTYPE_IPV4ADDR then _ else _) as [af aflen].
    destruct (len <? 0); [by eexists|].
    destruct (addrs_loop_total nih aflen (Z.to_nat len) ltac:(lia) (Z.to_nat len) 16 []) as (l & tr & ->); [lia|]. by eexists.
Qed.

(** ** Receiving *)

(** A buffer of [packlen] bytes at least, filled with [msg_cc] of them. *)
Definition message6_ok (c : config) (m : message) : Prop :=
  Forall (in_u 8) (msg_buf m) /\ datalen c + 4152 <= Z.of_nat (length (msg_buf m)) /\ 0 <= msg_cc m <= Z.of_nat (length (msg_buf m)).

(** The reply that the packet is: an echo reply with our identifier and the data
    of our probes, or a node information reply with a nonce of ours.  Its time
    stamp is what the code takes for one: the sixteen bytes after the header. *)
Definition reads6 (secret : list Z) (c : config) (data : list Z) (m : message) : option heard :=
  let buf := msg_buf m in
  let n := Z.to_nat (datalen c - 16) in
  let reply seq := mkHeard seq false
    (if timing c && (24 <=? msg_cc m) then Some (mkTime (s64 (le_value (take 8 (drop 8 buf)))) (s64 (le_value (take 8 (drop 16 buf))))) else None) in
  if msg_cc m <? 8 then None
  else if bool_decide (head buf = Some ICMP6_ECHO_REPLY) then
    if (negb (socktype_raw c) || (le_value (take 2 (drop 4 buf)) =? ident c)) && bool_decide (take n (drop 24 buf) = take n data)
    then Some (reply (le_value (reverse (take 2 (drop 6 buf))))) else None
  else if bool_decide (head buf = Some ICMPV6_NI_REPLY) then
    if bool_decide (valid_nonce secret (take 8 (drop 8 buf))) then Some (reply (le_value (reverse (take 2 (drop 8 buf))))) else None
  else None.

Lemma reads6_range secret c data m h : message6_ok c m -> reads6 secret c data m = Some h -> 0 <= he_seq h < MAX_DUP_CHK.
Proof.
  intros (M1 & _). unfold reads6. cbv zeta. destruct (_ <? 8); [done|].
  destruct (bool_decide _); [|destruct (bool_decide (_ = Some ICMPV6_NI_REPLY)); [|done]];
    match goal with |- (if ?b then _ else _) = _ -> _ => destruct b end; try done; intros E%(inj Some); rewrite <- E; cbn [he_seq]; by apply seq_field_range.
Qed.

Lemma heard_stamp (c : config) (buf : list Z) cc seq cs : (24 <= length buf)%nat -> heard_at c (drop 8 buf) cc seq cs
  = mkHeard seq cs (if timing c && (24 <=? cc) then Some (mkTime (s64 (le_value (take 8 (drop 8 buf)))) (s64 (le_value (take 8 (drop 16 buf))))) else None).
Proof. intros H. unfold heard_at, decode_time. rewrite (proj2 (Nat.leb_le _ _)) by (rewrite length_drop; lia). by rewrite drop_drop. Qed.

Lemma counts_nerrors s s' m h t n : counts s s' m h t -> counts s (set_nerrors n s') m h t.
Proof. intros H. eapply counts_same; [exact H|by repeat split..]. Qed.

Lemma parse_error6_run c cc buf m s t : ping_ok c s -> Forall (in_u 8) buf -> (64 <= length buf)%nat -> tallies s t ->
  exists no sh s', parse_error6 c cc buf s = Some (no, sh, s') /\ counts s s' m None t.
Proof.
  intros Hok Hb Hl Ht. pose proof (counts_none s m t (ok_table _ _ Hok) Ht) as Hn. unfold parse_error6.
  destruct (cc <? _); [by eexists _, _, _|]. rewrite load_some by lia. cbn [mbind option_bind].
  destruct (negb _); [by eexists _, _, _|].
  destruct (lookup_byte buf (8 + 6) Hb ltac:(lia)) as (nxt & -> & _). cbn [mbind option_bind].
  assert (Hx : exists nexthdr i, (if nxt =? 44 then n ← buf !! 48%nat; Some (n, 56%nat) else Some (nxt, 48%nat)) = Some (nexthdr, i) /\ (i <= 56)%nat).
  { destruct (nxt =? 44); [|by exists nxt, 48%nat; split; [|lia]].
    destruct (lookup_byte buf 48 Hb ltac:(lia)) as (n & -> & _). exists n, 56%nat. done. }
  destruct Hx as (nexthdr & i & -> & Hi). cbn [mbind option_bind].
  destruct (nexthdr =? IPPROTO_ICMPV6).
  - destruct (lookup_byte buf i Hb ltac:(lia)) as (type & -> & _). cbn [mbind option_bind]. destruct (negb _); [by eexists _, _, _|].
    destruct (load16_some (i + 4) buf Hb ltac:(lia)) as (id & -> & _). cbn [mbind option_bind]. destruct (negb _); [by eexists _, _, _|].
    destruct (load16_net_some (i + 6) buf Hb ltac:(lia)) as (seq & -> & _). cbn [mbind option_bind].
    eexists _, _, _. split; [reflexivity|]. apply counts_nerrors, counts_acknowledge; [apply Hok|done].
  - destruct (_ || _); by eexists _, _, _.
Qed.

(** The rest of a reply that is counted. *)
Lemma gather6_run c m seq s t : ping_ok c s -> message6_ok c m -> tallies s t -> 0 <= seq < MAX_DUP_CHK ->
  exists sh s', gather_statistics c (drop 8 (msg_buf m)) (msg_cc m) seq false (msg_time m) (msg_clock m) s = Some (sh, s')
    /\ counts s s' m (Some (heard_at c (drop 8 (msg_buf m)) (msg_cc m) seq false)) t.
Proof.
  intros Hok (M1 & M2 & M3) Ht Hq. pose proof (ok_datalen _ _ Hok). pose proof (ok_pack _ _ Hok).
  apply gather_books; try done; [apply Hok|]. split; rewrite ?length_drop; lia.
Qed.

Lemma ping6_parse_run secret k c m s t : cache_ok secret k -> ping_ok c s -> message6_ok c m -> tallies s t ->
  exists no sh text k' s', ping6_parse_reply md5 secret dn_expand c m k s = Some (no, sh, text, k', s') /\ cache_ok secret k'
    /\ counts s s' m (reads6 secret c (drop 24 (outpack s)) m) t.
Proof.
  intros Hk Hok Hm Ht. pose proof Hm as (M1 & M2 & M3). pose proof (ok_datalen _ _ Hok). pose proof (ok_pack _ _ Hok).
  pose proof (counts_none s m t (ok_table _ _ Hok) Ht) as Hn. unfold ping6_parse_reply, reads6. cbv zeta.
  destruct (msg_cc m <? 8); [by eexists _, _, _, _, _|]. rewrite head_lookup.
  destruct (lookup_byte (msg_buf m) 0 M1 ltac:(lia)) as (type & -> & _). cbn [mbind option_bind].
  rewrite (bool_decide_ext (Some type = Some ICMP6_ECHO_REPLY) (type = ICMP6_ECHO_REPLY)) by (split; congruence).
  rewrite (bool_decide_ext (Some type = Some ICMPV6_NI_REPLY) (type = ICMPV6_NI_REPLY)) by (split; congruence).
  assert (Hst : forall seq, mkHeard seq false (if timing c && (24 <=? msg_cc m) then _ else None) = heard_at c (drop 8 (msg_buf m)) (msg_cc m) seq false)
    by (intros seq; symmetry; apply heard_stamp; lia). rewrite !Hst.
  destruct (Z.eqb_spec type ICMP6_ECHO_REPLY) as [E|E]; [rewrite bool_decide_true by done|rewrite bool_decide_false by done;
    destruct (Z.eqb_spec type ICMPV6_NI_REPLY) as [E'|E']; [rewrite (bool_decide_true (type = _)) by done|rewrite bool_decide_false by done]].
  - unfold load16, load16_net. rewrite !load_some by lia. cbn [fmap option_fmap option_map mbind option_bind]. unfold is_ours.
    destruct (_ || _); cbn [negb andb]; [|by eexists _, _, _, _, _].
    assert (Hr : readable c (drop 8 (msg_buf m)) s) by (split; rewrite ?length_drop; lia).
    pose proof (check_data_reads c (msg_buf m) s Hr) as Hc. cbv zeta in Hc.
    unfold contains_pattern_in_payload. destruct (check_data_total c (drop 8 (msg_buf m)) s Hr) as [w Ew]. rewrite Ew in Hc |- *. cbn [mbind option_bind].
    rewrite (bool_decide_ext (take _ _ = _) (w = None)) by (rewrite <- Hc; split; congruence).
    destruct w; [rewrite bool_decide_false by done; by eexists _, _, _, _, _|rewrite bool_decide_true by done]. cbn [negb].
    destruct (gather6_run c m _ s t Hok Hm Ht (seq_field_range 6 (msg_buf m) M1)) as (sh & s1 & -> & C). by eexists _, _, _, _, _.
  - rewrite load_some by (unfold NI_NONCE_SIZE; lia). cbn [mbind option_bind]. change NI_NONCE_SIZE with 8%nat. set (nonce := take 8 _).
    assert (Ln : length nonce = 8%nat) by (unfold nonce; rewrite length_take, length_drop; lia).
    assert (Bn : Forall (in_u 8) nonce) by (by apply Forall_take, Forall_drop).
    destruct (check_nonce_run secret nonce k Hk Bn Ln) as (k' & Hk' & ->). cbn [mbind option_bind].
    assert (Et : take 2 nonce = take 2 (drop 8 (msg_buf m))) by (unfold nonce; by rewrite take_take). rewrite Et.
    pose proof (seq_field_range 8 (msg_buf m) M1) as Hv.
    destruct (decide _); [rewrite bool_decide_true by done|rewrite bool_decide_false by done; by eexists _, _, _, _, _]. rewrite (proj2 (Z.ltb_ge _ _)) by lia.
    destruct (gather6_run c m _ s t Hok Hm Ht Hv) as (sh & s1 & -> & C). cbn [mbind option_bind].
    destruct (pr_niquery_reply_total (msg_buf m) (msg_cc m) ltac:(lia) ltac:(lia)) as [text Etext].
    destruct sh; rewrite ?Etext; cbn; by eexists _, _, _, _, _.
  - destruct (parse_error6_run c (msg_cc m) (msg_buf m) m s t Hok M1 ltac:(lia) Ht) as (no & sh & s' & -> & C). by eexists _, _, _, _, _.
Qed.

(** IPv6 keeps the laws of the interface. *)
Definition ping6_laws : FuncSetLaws (ping6_func_set md5 dn_expand).
Proof.
  refine {| message_ok := message6_ok; reads := reads6 no_secret |}.
  - intros c now i s Hok. pose proof Hok as [_ H2 _ _].
    destruct (rcvd_clear_run (rcvd_tbl s) _ H2 (seq_range (ntransmitted s + 1))) as (tbl & Htbl & _).
    destruct (probe6_shape c now s Hok) as (? & ? & ?). exists (probe6 c now s), tbl, 0. split; [|done].
    cbn [send_probe ping6_func_set]. unfold ping6_send_probe. rewrite Htbl. cbn [mbind option_bind niquery_is_enabled no_query ni_query Z.leb Z.compare].
    rewrite build_echo_run by done. cbn [mbind option_bind]. by rewrite (Z.eqb_sym i).
  - intros c q errno s. apply ping6_error_run.
  - intros c data m h. apply reads6_range.
  - intros c m s t Hok Hm Ht. destruct (ping6_parse_run no_secret no_digest c m s t (no_digest_ok _) Hok Hm Ht) as (no & sh & text & k' & s' & E & _ & R & Htbl & H).
    exists no, sh, s'. split; [|done]. cbn [parse_reply ping6_func_set]. by rewrite E.
Defined.

End Library.
