(* ===== verification/PingFilter.v ===== *)
(** * The socket filters of ping

    [ping4_install_filter] of ping.c and [ping6_install_filter] of
    ping6_common.c give the kernel a program that drops the echo replies of
    other processes.  The instructions of the packet filter that these programs
    use, the programs, and what they drop. *)

From Stdlib Require Import ZArith Lia.
From stdpp Require Import base gmap numbers option list.
From S2P Require Import Prelude Ping PingSpec PingReply PingOptions PingPacket PingFour PingSix PingSixSpec.

Local Open Scope Z_scope.

(** ** The machine *)

Inductive insn :=
  | LDX_MSH (k : nat)              (* BPF_LDX|BPF_B|BPF_MSH *)
  | LD_H_ABS (k : nat)             (* BPF_LD|BPF_H|BPF_ABS *)
  | LD_B_ABS (k : nat)
  | LD_H_IND (k : nat)             (* BPF_LD|BPF_H|BPF_IND *)
  | LD_B_IND (k : nat)
  | JEQ (k : Z) (jt jf : nat)      (* BPF_JMP|BPF_JEQ|BPF_K *)
  | RET (k : Z).                   (* BPF_RET|BPF_K *)

Definition half (p : list Z) (i : nat) : option Z := load16_net i p.

(** The number of bytes to keep: 0 drops the packet, as does a load outside
    it.  Jumps go forward, so the program ends within its length. *)
Fixpoint bpf_run (fuel : nat) (prog : list insn) (p : list Z) (a : Z) (x : nat) : Z :=
  match fuel, prog with
  | S fuel, i :: prog =>
      let load (v : option Z) := match v with Some a => bpf_run fuel prog p a x | None => 0 end in
      match i with
      | LDX_MSH k => match p !! k with Some b => bpf_run fuel prog p a (Z.to_nat (4 * Z.land b 15)) | None => 0 end
      | LD_H_ABS k => load (half p k)
      | LD_B_ABS k => load (p !! k)
      | LD_H_IND k => load (half p (x + k))
      | LD_B_IND k => load (p !! (x + k)%nat)
      | JEQ k jt jf => bpf_run fuel (drop (if a =? k then jt else jf) prog) p a x
      | RET k => k
      end
  | _, _ => 0
  end.

Definition bpf (prog : list insn) (p : list Z) : Z := bpf_run (length prog) prog p 0 0.

(** ** The programs *)

Definition htons (x : Z) : Z := le_value (reverse (le_bytes 2 x)).

Definition ping4_insns (c : config) : list insn :=
  [LDX_MSH 0; LD_H_IND 4; JEQ (htons (ident c)) 0 1; RET 0xFFFFFFFF;
   LD_B_IND 0; JEQ ICMP_ECHOREPLY 1 0; RET 0xFFFFFFF; RET 0].

Definition ping6_insns (c : config) : list insn :=
  [LD_H_ABS 4; JEQ (htons (ident c)) 0 1; RET 0xFFFFFFFF;
   LD_B_ABS 0; JEQ ICMP6_ECHO_REPLY 1 0; RET 0xFFFFFFFF; RET 0].

(** ** What they drop *)

Lemma half_net p i a b : p !! i = Some a -> p !! S i = Some b -> half p i = Some (b + 256 * a).
Proof.
  intros Ha Hb. unfold half, load16_net. rewrite load_some by (apply lookup_lt_Some in Hb; lia).
  rewrite (drop_S _ _ _ Ha), (drop_S _ _ _ Hb). cbn [take fmap option_fmap option_map]. f_equal.
  rewrite take_0. change (reverse [a; b]) with [b; a]. cbn [le_value]. lia.
Qed.

Lemma half_none p i : (length p < i + 2)%nat -> half p i = None.
Proof. intros H. unfold half, load16_net, load. by rewrite (proj2 (Nat.leb_gt _ _)). Qed.

(** The number in the packet is ours, in either order of bytes. *)
Lemma half_ident a b id : in_u 8 a -> in_u 8 b -> 0 <= id < 65536 ->
  (b + 256 * a =? htons id) = (a + 256 * b =? id).
Proof.
  intros Ha Hb Hid. unfold in_u in *. change (2 ^ 8) with 256 in *.
  assert (E : htons id = id / 256 + 256 * (id mod 256)).
  { unfold htons. cbn [le_bytes]. change (reverse [?a; ?b]) with [b; a]. cbn [le_value]. rewrite Z.shiftr_div_pow2 by lia. unfold wrapu. change (2 ^ 8) with 256.
    rewrite (Z.mod_small (id / 256)) by (split; [apply Z.div_pos; lia|apply Z.div_lt_upper_bound; lia]). lia. }
  rewrite E. pose proof (Z.div_mod id 256 ltac:(lia)). pose proof (Z.mod_pos_bound id 256 ltac:(lia)).
  destruct (Z.eqb_spec (a + 256 * b) id), (Z.eqb_spec (b + 256 * a) (id / 256 + 256 * (id mod 256))); try done; exfalso; lia.
Qed.

(** A reply for another process: an echo reply with a number that is not ours.
    [off] is where the ICMP header begins. *)
Definition foreign (c : config) (type : Z) (off : nat) (p : list Z) : Prop :=
  p !! off = Some type /\ load16 (off + 4) p <> Some (ident c).

Lemma load16_pair (p : list Z) i a b : p !! i = Some a -> p !! S i = Some b -> load16 i p = Some (a + 256 * b).
Proof.
  intros Ha Hb. unfold load16. rewrite load_some by (apply lookup_lt_Some in Hb; lia).
  rewrite (drop_S _ _ _ Ha), (drop_S _ _ _ Hb). cbn [take fmap option_fmap option_map]. rewrite take_0. f_equal. cbn [le_value]. lia.
Qed.

(** The common end of both programs. *)
Lemma ident_test c (p : list Z) off : Forall (in_u 8) p -> 0 <= ident c < 65536 -> (off + 6 <= length p)%nat ->
  exists v, half p (off + 4) = Some v /\ (v =? htons (ident c)) = bool_decide (load16 (off + 4) p = Some (ident c)).
Proof.
  intros Hb Hid Hl. destruct (lookup_byte p (off + 4) Hb ltac:(lia)) as (a & Ea & Ha). destruct (lookup_byte p (S (off + 4)) Hb ltac:(lia)) as (b & Eb & Hb').
  exists (b + 256 * a). split; [by apply half_net|]. rewrite half_ident by done. rewrite (load16_pair p _ _ _ Ea Eb).
  destruct (Z.eqb_spec (a + 256 * b) (ident c)) as [->|E]; [by rewrite bool_decide_eq_true_2|]. rewrite bool_decide_eq_false_2; [done|]. congruence.
Qed.

Lemma ping6_filter_run c p : Forall (in_u 8) p -> 0 <= ident c < 65536 ->
  bpf (ping6_insns c) p = 0 <-> (length p < 6)%nat \/ foreign c ICMP6_ECHO_REPLY 0 p.
Proof.
  intros Hb Hid. unfold bpf, ping6_insns. cbn [length bpf_run]. destruct (Nat.lt_ge_cases (length p) 6) as [Hl|Hl].
  { rewrite half_none by lia. tauto. }
  destruct (ident_test c p 0 Hb Hid ltac:(lia)) as (v & Ev & Et). cbn [Nat.add] in *. rewrite Ev, Et. unfold foreign. cbn [Nat.add].
  destruct (lookup_byte p 0 Hb ltac:(lia)) as (t & E0 & _). rewrite E0.
  case_bool_decide as Ei; cbn [drop bpf_run]; rewrite ?E0, ?Eo.
  - split; [done|]. intros [|[_ H]]; [lia|done].
  - destruct (Z.eqb_spec t ICMP6_ECHO_REPLY) as [->|Ht]; cbn [drop bpf_run].
    + split; [auto|done].
    + split; [done|]. intros [|[[= ?] _]]; [lia|done].
Qed.

Lemma ping4_filter_run c p b0 : Forall (in_u 8) p -> 0 <= ident c < 65536 -> p !! 0%nat = Some b0 ->
  let off := Z.to_nat (4 * Z.land b0 15) in
  bpf (ping4_insns c) p = 0 <-> (length p < off + 6)%nat \/ foreign c ICMP_ECHOREPLY off p.
Proof.
  intros Hb Hid E0 off. unfold bpf, ping4_insns. cbn [length bpf_run]. rewrite E0. fold off. destruct (Nat.lt_ge_cases (length p) (off + 6)) as [Hl|Hl].
  { rewrite half_none by lia. tauto. }
  destruct (ident_test c p off Hb Hid ltac:(lia)) as (v & Ev & Et). rewrite Ev, Et. unfold foreign.
  destruct (lookup_byte p off Hb ltac:(lia)) as (t & Eo & _). rewrite Eo.
  case_bool_decide as Ei; cbn [drop bpf_run]; rewrite ?Nat.add_0_r, ?Eo; cbn [drop bpf_run].
  - split; [done|]. intros [|[_ H]]; [lia|done].
  - destruct (Z.eqb_spec t ICMP_ECHOREPLY) as [->|Ht]; cbn [drop bpf_run].
    + split; [auto|done].
    + split; [done|]. intros [|[[= ?] _]]; [lia|done].
Qed.
