(* ===== verification/PingSixSetup.v ===== *)
(** * ping for IPv6: the options of a query and the start

    The suboptions of -N (ping6_common.c), and the decisions of [ping6_run]
    before its loop: the target, the subject of a query, the limits for
    multicast, the time stamp, the size of the buffer and the types of ICMP
    messages that the socket lets through.  Name resolution is an argument. *)

From Stdlib Require Import ZArith Lia String Ascii.
From stdpp Require Import base numbers option list.
From S2P Require Import Prelude Ping PingPacket PingSix.

Local Open Scope list_scope.
Local Open Scope Z_scope.
Local Abbreviation length := List.length.

Inductive attempted (A : Type) := Exited (code : Z) | Went (a : A).
Arguments Exited {A}. Arguments Went {A}.

Definition NI_IPV6ADDR_F_ALL : Z := 0x0200.
Definition NI_IPV6ADDR_F_COMPAT : Z := 0x0400.
Definition NI_IPV6ADDR_F_LINKLOCAL : Z := 0x0800.
Definition NI_IPV6ADDR_F_SITELOCAL : Z := 0x1000.
Definition NI_IPV6ADDR_F_GLOBAL : Z := 0x2000.
Definition NI_IPV4ADDR_F_ALL : Z := NI_IPV6ADDR_F_ALL.

(** ** The handlers *)

Definition with_query (t f : Z) (q : niquery) : niquery := mkNi t f (ni_subject q) (ni_subject_type q) (ni_group q).

(** [None] is the result -1. *)
Definition niquery_set_qtype (type : Z) (q : niquery) : option niquery :=
  if niquery_is_enabled q && negb (ni_query q =? type) then None else Some (with_query type (ni_flag q) q).

Definition niquery_set_subject_type (type : Z) (q : niquery) : option niquery :=
  if niquery_is_subject_valid q && negb (ni_subject_type q =? type) then None
  else Some (mkNi (ni_query q) (ni_flag q) (ni_subject q) type (ni_group q)).

(** What getaddrinfo gives for a name and a family: the bytes of the address. *)
Record resolver := mkResolver {
  rs_getaddrinfo : Z -> string -> option (list Z);
  rs_idn : string -> option string;
  rs_dn_comp : string -> Z -> option (list Z);
  rs_md5 : list Z -> list Z
}.

Definition niquery_option_subject_addr_handler (rs : resolver) (data : Z) (arg : string) (q : niquery) : option niquery :=
  q ← niquery_set_subject_type data q;
  let '(family, len) := if data =? NI_SUBJ_IPV6 then (10, 16%nat) else (2, 4%nat) in
  addr ← rs_getaddrinfo rs family arg;
  Some (mkNi (ni_query q) (ni_flag q) (Some (take len addr)) data (ni_group q)).

Definition lower (c : ascii) : ascii :=
  let n := nat_of_ascii c in if (65 <=? n)%nat && (n <=? 90)%nat then ascii_of_nat (n + 32) else c.

Fixpoint canonical (s : string) : string :=
  match s with EmptyString => EmptyString | String c s => String (lower c) (canonical s) end.

Fixpoint dots (s : string) : nat :=
  match s with EmptyString => 0 | String c s => (if Ascii.eqb c "." then 1 else 0) + dots s end.

(** The part before the first '%' and the one behind it. *)
Fixpoint cut_scope (s : string) : string * option string :=
  match s with
  | EmptyString => (EmptyString, None)
  | String c s' => if Ascii.eqb c "%" then (EmptyString, Some s') else let '(a, b) := cut_scope s' in (String c a, b)
  end.

Definition IFNAMSIZ : nat := 16.

(** -1 goes on to the next option; the exits end the program. *)
Definition niquery_option_subject_name_handler (rs : resolver) (data : Z) (arg : string) (q : niquery) : attempted (option niquery) :=
  match niquery_set_subject_type NI_SUBJ_NAME q with
  | None => Went None
  | Some q =>
      match rs_idn rs arg with
      | None => Exited 2
      | Some idn =>
          let '(host, scope) := cut_scope idn in
          if match scope with Some sc => (IFNAMSIZ <=? String.length sc)%nat | None => false end then Exited 1
          else
            let namelen := Z.of_nat (String.length host) in
            let canonname := canonical host in
            let fqdn := if data =? 0 then (if (dots host =? 0)%nat then -1 else 1) else data in
            let buflen := namelen + 3 + 1 in
            match rs_dn_comp rs canonname buflen with
            | None => Exited 1
            | Some buf =>
                if buflen <=? Z.of_nat (length buf) then Exited 1
                else
                  let digest := rs_md5 rs (take (Z.to_nat (default 0 (head buf))) buf) in
                  let subject := if fqdn <? 0 then buf ++ [0] else buf in
                  Went (Some (mkNi (ni_query q) (ni_flag q) (Some subject) (ni_subject_type q) (Some (take 4 digest, scope))))
            end
      end
  end.

(** ** The table *)

Inductive handler_kind := HQtype (type : Z) | HFlag (type : Z) | HAddr | HName | HHelp.

Record niquery_option := mkOption { no_name : string; no_arg : bool; no_data : Z; no_handler : handler_kind }.

Definition niquery_options : list niquery_option :=
  [mkOption "name" false 0 (HQtype NI_QTYPE_NAME);
   mkOption "fqdn" false 0 (HQtype NI_QTYPE_NAME);
   mkOption "ipv6" false 0 (HQtype NI_QTYPE_IPV6ADDR);
   mkOption "ipv6-all" false NI_IPV6ADDR_F_ALL (HFlag NI_QTYPE_IPV6ADDR);
   mkOption "ipv6-compatible" false NI_IPV6ADDR_F_COMPAT (HFlag NI_QTYPE_IPV6ADDR);
   mkOption "ipv6-linklocal" false NI_IPV6ADDR_F_LINKLOCAL (HFlag NI_QTYPE_IPV6ADDR);
   mkOption "ipv6-sitelocal" false NI_IPV6ADDR_F_SITELOCAL (HFlag NI_QTYPE_IPV6ADDR);
   mkOption "ipv6-global" false NI_IPV6ADDR_F_GLOBAL (HFlag NI_QTYPE_IPV6ADDR);
   mkOption "ipv4" false 0 (HQtype NI_QTYPE_IPV4ADDR);
   mkOption "ipv4-all" false NI_IPV4ADDR_F_ALL (HFlag NI_QTYPE_IPV4ADDR);
   mkOption "subject-ipv6" true NI_SUBJ_IPV6 HAddr;
   mkOption "subject-ipv4" true NI_SUBJ_IPV4 HAddr;
   mkOption "subject-name" true 0 HName;
   mkOption "subject-fqdn" true (-1) HName;
   mkOption "help" false 0 HHelp].

Definition call_handler (rs : resolver) (p : niquery_option) (arg : string) (q : niquery) : attempted (option niquery) :=
  match no_handler p with
  | HQtype type => Went (niquery_set_qtype type q)
  | HFlag type =>
      Went (match niquery_set_qtype type q with
            | None => None
            | Some q => Some (with_query (ni_query q) (Z.lor (ni_flag q) (no_data p)) q)
            end)
  | HAddr => Went (niquery_option_subject_addr_handler rs (no_data p) arg q)
  | HName => niquery_option_subject_name_handler rs (no_data p) arg q
  | HHelp => Exited 2
  end.

(** What follows a name in the argument: [Some rest] if the argument begins with
    the name. *)
Fixpoint after (name opt_arg : string) : option string :=
  match name, opt_arg with
  | EmptyString, rest => Some rest
  | String a name, String b rest => if Ascii.eqb a b then after name rest else None
  | String _ _, EmptyString => None
  end.

(** The argument for the handler if the option is the one named: the text
    behind '=', or nothing. *)
Definition option_argument (p : niquery_option) (opt_arg : string) : option string :=
  match after (no_name p) opt_arg with
  | Some EmptyString => if no_arg p then None else Some EmptyString
  | Some (String c rest) => if no_arg p && Ascii.eqb c "=" then Some rest else None
  | None => None
  end.

(** The loop over the table, and the help at its end.  A handler that refuses
    may have changed the subject, but then nothing follows but the help. *)
Fixpoint niquery_option_loop (rs : resolver) (table : list niquery_option) (opt_arg : string) (q : niquery) : attempted niquery :=
  match table with
  | [] => Exited 2
  | p :: table =>
      match option_argument p opt_arg with
      | None => niquery_option_loop rs table opt_arg q
      | Some arg =>
          match call_handler rs p arg q with
          | Exited code => Exited code
          | Went (Some q) => Went q
          | Went None => niquery_option_loop rs table opt_arg q
          end
      end
  end.

Definition niquery_option_handler (rs : resolver) (opt_arg : string) (q : niquery) : attempted niquery :=
  niquery_option_loop rs niquery_options opt_arg q.

Fixpoint niquery_arguments (rs : resolver) (l : list string) (q : niquery) : attempted niquery :=
  match l with
  | [] => Went q
  | a :: l => match niquery_option_handler rs a q with Exited code => Exited code | Went q => niquery_arguments rs l q end
  end.

(** ** The start *)

Record start6 := mkStart6 {
  st6_query : niquery;
  st6_whereto : list Z;
  st6_numeric : bool;
  st6_pmtudisc : Z;
  st6_timing : bool;
  st6_packlen : Z;
  st6_hold : Z;
  st6_passes : list Z                   (* the types the socket's ICMP6_FILTER passes *)
}.

Definition IPV6_PMTUDISC_DO : Z := 2.

Fixpoint has_colon (s : string) : bool :=
  match s with EmptyString => false | String c s => Ascii.eqb c ":" || has_colon s end.

(** The name to look up: an argument, or the group of the name in question.
    The inner [None] is a null pointer. *)
Definition ping6_target (q : niquery) (group : list Z * option string -> string) (args : list string) : attempted (option string) :=
  match args with
  | [t] => Went (Some t)
  | [] => if (ni_query q <? 0) && negb (ni_subject_type q =? NI_SUBJ_NAME) then Exited 2 else Went (group <$> ni_group q)
  | _ => Exited 2
  end.

Definition ping6_subject (q : niquery) (whereto : list Z) : niquery :=
  if niquery_is_enabled q && negb (niquery_is_subject_valid q)
  then mkNi (ni_query q) (ni_flag q) (Some whereto) NI_SUBJ_IPV6 (ni_group q) else q.

(** The limits for multicast and the new [pmtudisc]. *)
Definition multicast_checks (whereto : list Z) (uid interval pmtudisc : Z) : attempted Z :=
  if default 0 (head whereto) =? 255 then
    if negb (uid =? 0) && (interval <? 1000) then Exited 2
    else if negb (uid =? 0) && (0 <=? pmtudisc) && negb (pmtudisc =? IPV6_PMTUDISC_DO) then Exited 2
    else Went (if pmtudisc <? 0 then IPV6_PMTUDISC_DO else pmtudisc)
  else Went pmtudisc.

Definition timing6 (q : niquery) (datalen : Z) : bool := (16 <=? datalen) && (ni_query q <? 0).
Definition packlen6 (datalen : Z) : Z := datalen + 8 + 4096 + 40 + 8.
Definition hold6 (datalen : Z) : Z := let hold := datalen + 8 in hold + Z.quot (hold + 511) 512 * (40 + 16 + 64 + 160).

(** The errors, and the reply that is waited for; a datagram socket has no
    filter of types. *)
Definition icmp6_passes (q : niquery) : list Z :=
  [1; 2; 3; 4; if niquery_is_enabled q then ICMPV6_NI_REPLY else ICMP6_ECHO_REPLY].

(** [getaddrinfo] fails for a null pointer. *)
Definition ping6_start (q : niquery) (group : list Z * option string -> string) (args : list string) (lookup : string -> option (list Z))
    (uid interval pmtudisc datalen : Z) (raw : bool) : attempted start6 :=
  match ping6_target q group args with
  | Exited code => Exited code
  | Went None => Exited 2
  | Went (Some target) =>
      match lookup target with
      | None => Exited 2
      | Some whereto =>
          match multicast_checks whereto uid interval pmtudisc with
          | Exited code => Exited code
          | Went pmtudisc =>
              Went (mkStart6 (ping6_subject q whereto) whereto (has_colon target) pmtudisc (timing6 q datalen) (packlen6 datalen)
                      (hold6 datalen) (if raw then icmp6_passes q else []))
          end
      end
  end.

(** ** What the options mean *)

Fixpoint find_option (table : list niquery_option) (w : string) : option (niquery_option * string) :=
  match table with
  | [] => None
  | p :: table => match option_argument p w with Some arg => Some (p, arg) | None => find_option table w end
  end.

Lemma after_eq name : forall w rest, after name w = Some rest -> w = String.append name rest.
Proof.
  induction name as [|a name IH]; intros w rest; cbn [after]; [by intros [= <-]|]. destruct w as [|b w]; [done|].
  destruct (Ascii.eqb_spec a b) as [->|]; [|done]. intros H. apply IH in H as ->. done.
Qed.

(** A word is the name of an option, or its name, '=' and the argument. *)
Lemma option_argument_eq p w arg : option_argument p w = Some arg ->
  if no_arg p then w = String.append (no_name p) (String "=" arg) else w = String.append (no_name p) EmptyString.
Proof.
  unfold option_argument. destruct (after (no_name p) w) as [rest|] eqn:E; [|done]. apply after_eq in E. destruct rest as [|c rest].
  - destruct (no_arg p); [done|]. by intros _.
  - destruct (no_arg p); cbn [andb]; [|done]. destruct (Ascii.eqb_spec c "=") as [->|]; [|done]. by intros [= <-].
Qed.

(** No word is two options. *)
Lemma option_unique i p w arg rs q : niquery_options !! i = Some p -> option_argument p w = Some arg ->
  niquery_option_loop rs (drop (S i) niquery_options) w q = Exited 2.
Proof.
  intros Hi Ha%option_argument_eq.
  do 15 (destruct i as [|i]; [cbn in Hi; injection Hi as <-; cbn [no_arg] in Ha; subst w; reflexivity|]). done.
Qed.

Lemma find_option_loop rs w q table k : table = drop k niquery_options ->
  niquery_option_loop rs table w q =
    match find_option table w with
    | None => Exited 2
    | Some (p, arg) => match call_handler rs p arg q with Exited code => Exited code | Went (Some q) => Went q | Went None => Exited 2 end
    end.
Proof.
  revert k. induction table as [|p table IH]; intros k Hk; cbn [niquery_option_loop find_option]; [done|].
  assert (Hp : niquery_options !! k = Some p) by (rewrite <- (Nat.add_0_r k), <- lookup_drop, <- Hk; done).
  assert (Ht : table = drop (S k) niquery_options) by (by rewrite (drop_S _ _ _ Hp) in Hk; injection Hk).
  destruct (option_argument p w) as [arg|] eqn:Ea; [|by apply (IH (S k))].
  destruct (call_handler rs p arg q) as [code|[q'|]]; try done. rewrite Ht. by eapply option_unique.
Qed.

(** What an option asks for. *)
Definition qtype_of (p : niquery_option) : option Z := match no_handler p with HQtype t | HFlag t => Some t | _ => None end.
Definition flag_of (p : niquery_option) : Z := match no_handler p with HFlag _ => no_data p | _ => 0 end.
Definition subject_of (p : niquery_option) : option Z :=
  match no_handler p with HAddr => Some (no_data p) | HName => Some NI_SUBJ_NAME | _ => None end.

Definition meant (l : list string) : list niquery_option := omap (fun w => fst <$> find_option niquery_options w) l.

(** The query agrees with the options seen. *)
Record agrees (ps : list niquery_option) (q : niquery) : Prop := {
  ag_qtype : forall p t, p ∈ ps -> qtype_of p = Some t -> ni_query q = t;
  ag_none : (forall p, p ∈ ps -> qtype_of p = None) -> ni_query q = -1;
  ag_flag : ni_flag q = foldr Z.lor 0 (flag_of <$> ps);
  ag_subject : forall p t, p ∈ ps -> subject_of p = Some t -> ni_subject_type q = t /\ ni_subject q <> None;
  ag_no_subject : (forall p, p ∈ ps -> subject_of p = None) -> ni_subject q = None /\ ni_subject_type q = -1
}.

Lemma agrees_nil : agrees [] no_query.
Proof. split; try done; intros p t Hp; by apply elem_of_nil in Hp. Qed.

Lemma find_option_known table w p arg : find_option table w = Some (p, arg) -> p ∈ table.
Proof.
  induction table as [|p' table IH]; cbn [find_option]; [done|]. destruct (option_argument p' w); [intros [= -> _]; apply list_elem_of_here|].
  intros H. apply list_elem_of_further, IH, H.
Qed.

Lemma known_types p : p ∈ niquery_options -> (forall t, qtype_of p = Some t -> 0 <= t) /\ (forall t, subject_of p = Some t -> 0 <= t).
Proof.
  revert p. apply Forall_forall. unfold niquery_options.
  repeat (apply Forall_cons; split; [split; intros t; cbv; by intros [= <-] || done|]). apply Forall_nil_2.
Qed.

Lemma lor_snoc l x : foldr Z.lor 0 (l ++ [x]) = Z.lor (foldr Z.lor 0 l) x.
Proof. induction l as [|y l IH]; cbn; [by rewrite Z.lor_0_r|]. by rewrite IH, Z.lor_assoc. Qed.

Lemma elem_snoc {A} (P : A -> Prop) (l : list A) x : (forall y, y ∈ l ++ [x] -> P y) <-> (forall y, y ∈ l -> P y) /\ P x.
Proof.
  split.
  - intros H. split; [intros y Hy|]; apply H, elem_of_app; [by left|right; by apply list_elem_of_singleton].
  - intros [H1 H2] y [Hy|Hy%list_elem_of_singleton]%elem_of_app; [by apply H1|by subst].
Qed.

(** A query option: the type is fixed, and its flag is added. *)
Lemma agrees_qtype ps q p t q' : agrees ps q -> Forall (fun p => p ∈ niquery_options) ps -> p ∈ niquery_options ->
  qtype_of p = Some t -> subject_of p = None -> niquery_set_qtype t q = Some q' ->
  agrees (ps ++ [p]) (with_query t (Z.lor (ni_flag q) (flag_of p)) q).
Proof.
  intros [A1 A2 A3 A4 A5] Hps Hp Hq Hs Hset. rewrite Forall_forall in Hps.
  assert (Hold : forall p' t', p' ∈ ps -> qtype_of p' = Some t' -> t' = t).
  { intros p' t' Hin Ht'. pose proof (A1 _ _ Hin Ht') as E. pose proof (proj1 (known_types p' (Hps _ Hin)) _ Ht') as Hpos.
    unfold niquery_set_qtype, niquery_is_enabled in Hset. rewrite E in Hset. rewrite (proj2 (Z.leb_le _ _)) in Hset by lia.
    by destruct (Z.eqb_spec t' t). }
  split; cbn [with_query ni_query ni_flag ni_subject ni_subject_type].
  - intros p' t' [Hin|Hin%list_elem_of_singleton]%elem_of_app Ht'; [symmetry; by eapply Hold|subst; congruence].
  - intros Hn%elem_snoc. destruct Hn as [_ Hn]. congruence.
  - rewrite fmap_app. cbn. by rewrite lor_snoc, A3.
  - intros p' t' [Hin|Hin%list_elem_of_singleton]%elem_of_app Ht'; [by eapply A4|subst; congruence].
  - intros Hn%elem_snoc. destruct Hn as [Hn _]. by apply A5.
Qed.

(** A subject option: the subject is replaced by one of the same type. *)
Lemma agrees_subject ps q p t subject group q1 : agrees ps q -> Forall (fun p => p ∈ niquery_options) ps -> p ∈ niquery_options ->
  qtype_of p = None -> flag_of p = 0 -> subject_of p = Some t -> niquery_set_subject_type t q = Some q1 ->
  agrees (ps ++ [p]) (mkNi (ni_query q) (ni_flag q) (Some subject) t group).
Proof.
  intros [A1 A2 A3 A4 A5] Hps Hp Hq Hf Hs Hset. rewrite Forall_forall in Hps.
  assert (Hold : forall p' t', p' ∈ ps -> subject_of p' = Some t' -> t' = t).
  { intros p' t' Hin Ht'. destruct (A4 _ _ Hin Ht') as [E Hsome]. pose proof (proj2 (known_types p' (Hps _ Hin)) _ Ht') as Hpos.
    unfold niquery_set_subject_type, niquery_is_subject_valid in Hset. rewrite E in Hset. rewrite (proj2 (Z.leb_le _ _)) in Hset by lia.
    destruct (ni_subject q); [|done]. by destruct (Z.eqb_spec t' t). }
  split; cbn [ni_query ni_flag ni_subject ni_subject_type].
  - intros p' t' [Hin|Hin%list_elem_of_singleton]%elem_of_app Ht'; [by eapply A1|subst; congruence].
  - intros Hn%elem_snoc. destruct Hn as [Hn _]. by apply A2.
  - rewrite fmap_app. cbn. by rewrite lor_snoc, Hf, Z.lor_0_r.
  - intros p' t' [Hin|Hin%list_elem_of_singleton]%elem_of_app Ht'; (split; [|done]); [symmetry; by eapply Hold|subst; congruence].
  - intros Hn%elem_snoc. destruct Hn as [_ Hn]. congruence.
Qed.

Lemma agrees_step rs ps q p arg q' : agrees ps q -> Forall (fun p => p ∈ niquery_options) ps -> p ∈ niquery_options ->
  call_handler rs p arg q = Went (Some q') -> agrees (ps ++ [p]) q'.
Proof.
  intros Ha Hps Hp. unfold call_handler. destruct (no_handler p) as [t|t| | |] eqn:Eh; [| | | |done].
  - intros [= E]. pose proof (agrees_qtype ps q p t q' Ha Hps Hp) as H. unfold qtype_of, subject_of, flag_of in H. rewrite Eh, Z.lor_0_r in H.
    specialize (H eq_refl eq_refl E). unfold niquery_set_qtype in E. destruct (_ && _); [done|]. by injection E as <-.
  - destruct (niquery_set_qtype t q) as [q1|] eqn:E; [|done]. intros [= <-].
    pose proof (agrees_qtype ps q p t q1 Ha Hps Hp) as H. unfold qtype_of, subject_of, flag_of in H. rewrite Eh in H.
    specialize (H eq_refl eq_refl E). unfold niquery_set_qtype in E. destruct (_ && _); [done|]. by injection E as <-.
  - unfold niquery_option_subject_addr_handler. intros [= H].
    destruct (niquery_set_subject_type (no_data p) q) as [q1|] eqn:E; [|done]. cbn [mbind option_bind] in H.
    assert (Eq : ni_query q1 = ni_query q /\ ni_flag q1 = ni_flag q).
    { unfold niquery_set_subject_type in E. destruct (_ && _); [done|]. by injection E as <-. } destruct Eq as [Eq1 Eq2].
    destruct (if no_data p =? NI_SUBJ_IPV6 then _ else _) as [family len]. destruct (rs_getaddrinfo rs family arg); [|done]. cbn in H. injection H as <-.
    rewrite Eq1, Eq2. eapply agrees_subject; try done; unfold qtype_of, flag_of, subject_of; by rewrite Eh.
  - unfold niquery_option_subject_name_handler. destruct (niquery_set_subject_type NI_SUBJ_NAME q) as [q1|] eqn:E; [|done].
    assert (Eq : ni_query q1 = ni_query q /\ ni_flag q1 = ni_flag q /\ ni_subject_type q1 = NI_SUBJ_NAME).
    { unfold niquery_set_subject_type in E. destruct (_ && _); [done|]. by injection E as <-. } destruct Eq as (Eq1 & Eq2 & Eq3).
    destruct (rs_idn rs arg); [|done]. destruct (cut_scope _) as [host scope]. destruct (match scope with Some _ => _ | None => _ end); [done|].
    destruct (rs_dn_comp rs _ _); [|done]. destruct (_ <=? _); [done|]. intros [= <-]. rewrite Eq1, Eq2, Eq3.
    eapply agrees_subject; try done; unfold qtype_of, flag_of, subject_of; by rewrite Eh.
Qed.

Lemma arguments_run rs l : forall ps q q', agrees ps q -> Forall (fun p => p ∈ niquery_options) ps ->
  niquery_arguments rs l q = Went q' -> length (meant l) = length l /\ agrees (ps ++ meant l) q'.
Proof.
  induction l as [|w l IH]; intros ps q q' Ha Hps; cbn [niquery_arguments].
  - intros [= <-]. cbn. by rewrite app_nil_r.
  - unfold niquery_option_handler. rewrite (find_option_loop rs w q niquery_options 0) by done.
    destruct (find_option niquery_options w) as [[p arg]|] eqn:Ef; [|done].
    destruct (call_handler rs p arg q) as [code|[q1|]] eqn:Ec; try done. intros H.
    pose proof (find_option_known _ _ _ _ Ef) as Hp.
    destruct (IH (ps ++ [p]) q1 q' (agrees_step _ _ _ _ _ _ Ha Hps Hp Ec)) as [H1 H2]; [|exact H|].
    { apply Forall_app. split; [done|]. by apply Forall_singleton. }
    cbn [meant omap list_omap]. rewrite Ef. cbn [fmap option_fmap option_map length]. split; [f_equal; exact H1|].
    by rewrite <- app_assoc in H2.
Qed.
