(* ===== verification/PingSixTheorems.v ===== *)
(** * ping for IPv6: the properties *)

From Stdlib Require Import ZArith Lia String.
From stdpp Require Import base gmap numbers option list.
From S2P Require Import Prelude Ping PingSpec PingReply PingPace PingRun PingOptions PingPacket PingFour PingTheorems PingSix PingSixSpec PingFilter PingSixSetup.

Local Open Scope list_scope.
Local Open Scope Z_scope.
Local Abbreviation length := List.length.

(** ** The report *)

Section Library.
Context (md5 : list Z -> list Z) (Hmd5 : forall l, length (md5 l) = 16%nat).
Context (dn_expand : list Z -> nat -> option (nat * list Z)) (Hdn : forall m off ret name, dn_expand m off = Some (ret, name) -> (0 < ret)%nat).

#[local] Instance echo6 : FuncSet := ping6_func_set md5 dn_expand.
#[local] Instance echo6_laws : FuncSetLaws echo6 := ping6_laws md5 Hmd5 dn_expand Hdn.

(** The loop of ping with the functions of IPv6: the report is that of the
    packets received, with [reads6] to read them.  The time stamp of a reply is
    a [timeval] that is read as a [timespec], so the times of this account are
    those of the code and not the round trips (see [echo6_time]).  (MD5 gives
    sixteen bytes; the resolver's dn_expand uses at least one byte of a
    packet.) *)
Theorem ping6_report_correct c st hz rounds start s' :
  ready c st -> Forall (round_ok c (fun _ => True)) rounds -> main_loop c hz rounds st = Some (Finished s') ->
  let t := account_of c (drop 24 (outpack st)) hz rounds st in
  let n := good t + dups t in
  nreceived s' = good t /\ nrepeats s' = dups t /\ nchecksum s' = bad t
  /\ tmin s' = smallest (times t) /\ tmax s' = largest (times t)
  /\ (timing c = true -> 0 < good t -> squares (times t) < 2 ^ 63 - 1 -> exists r, finish c start s' = Some r
      /\ rp_average r = total (times t) / n
      /\ rp_mdev r = (if variance (times t) n =? 0 then 0 else Z.sqrt (variance (times t) n + 1))
      /\ rp_loss_num r = (ntransmitted s' - good t) * 100 /\ rp_loss_den r = ntransmitted s').
Proof. apply report_any. Qed.

(** ** The echo *)

(** The answer of RFC 4443: type and checksum change, the rest comes back. *)
Definition echo6_of (pkt r : list Z) : Prop := exists k1 k2, r = [ICMP6_ECHO_REPLY; 0; k1; k2] ++ drop 4 pkt.

Section Echo.
Context (c : config) (now : timespec) (s : ping).
Hypothesis Hok : ping_ok c s.
Hypothesis Hident : 0 <= ident c < 65536.

Lemma echo6_bytes r : echo6_of (take (packet_len c) (probe6 c now s)) r -> exists k1 k2,
  r = [ICMP6_ECHO_REPLY; 0; k1; k2] ++ le_bytes 2 (ident c) ++ reverse (le_bytes 2 (u16 (ntransmitted s + 1)))
      ++ stamp6 c now ++ take (packet_len c - 8 - length (stamp6 c now)) (drop (8 + length (stamp6 c now)) (outpack s)).
Proof.
  intros (k1 & k2 & ->). exists k1, k2. f_equal. unfold probe6. set (q := drop _ (outpack s)).
  destruct (stamp6_fits c now s Hok) as [Hl _]. pose proof Hok as [H1 _ H3 _].
  rewrite take_app_ge by (rewrite length_header6; unfold packet_len; lia). rewrite length_header6.
  rewrite take_app_ge by (unfold packet_len, stamp6, timing; destruct (Z.leb_spec 16 (datalen c)); rewrite ?length_timeval; cbn [length]; lia).
  done.
Qed.

Lemma length_echo6 r : echo6_of (take (packet_len c) (probe6 c now s)) r -> Z.of_nat (length r) = datalen c + 8.
Proof.
  intros (k1 & k2 & ->)%echo6_bytes. pose proof Hok as [H1 _ H3 _]. rewrite !length_app, length_reverse, !length_le_bytes, length_take, length_drop.
  unfold packet_len, stamp6, timing. destruct (Z.leb_spec 16 (datalen c)); rewrite ?length_timeval; cbn [length]; lia.
Qed.

Lemma echo6_fields r rest : echo6_of (take (packet_len c) (probe6 c now s)) r ->
  (r ++ rest) !! 0%nat = Some ICMP6_ECHO_REPLY /\ load16 4 (r ++ rest) = Some (ident c)
  /\ load16_net 6 (r ++ rest) = Some (u16 (ntransmitted s + 1))
  /\ drop 8 (r ++ rest) = stamp6 c now ++ take (packet_len c - 8 - length (stamp6 c now)) (drop (8 + length (stamp6 c now)) (outpack s)) ++ rest.
Proof.
  intros (k1 & k2 & ->)%echo6_bytes. rewrite <- !app_assoc. set (q := take _ _). set (t := stamp6 c now). set (n := u16 (ntransmitted s + 1)). split; [done|].
  unfold load16, load16_net. rewrite !load_some by (rewrite !length_app, length_reverse, !length_le_bytes; cbn [length]; lia).
  cbn [fmap option_fmap option_map].
  change (take 2 (drop 4 ([ICMP6_ECHO_REPLY; 0; k1; k2] ++ le_bytes 2 (ident c) ++ reverse (le_bytes 2 n) ++ t ++ q ++ rest))) with (le_bytes 2 (ident c)).
  change (take 2 (drop 6 ([ICMP6_ECHO_REPLY; 0; k1; k2] ++ le_bytes 2 (ident c) ++ reverse (le_bytes 2 n) ++ t ++ q ++ rest))) with (reverse (le_bytes 2 n)).
  rewrite reverse_involutive, !le_value_bytes. split_and!; [f_equal; by apply Z.mod_small| |done].
  f_equal. apply Z.mod_small. apply seq_range.
Qed.

Lemma echo6_data r rest s' : echo6_of (take (packet_len c) (probe6 c now s)) r -> drop 24 (outpack s') = drop 24 (outpack s) ->
  check_data c (drop 8 (r ++ rest)) s' = Some None.
Proof.
  intros He Ed. destruct (echo6_fields r rest He) as (_ & _ & _ & ->). unfold check_data. rewrite Ed. pose proof Hok as [H1 _ H3 _].
  destruct (Z.lt_ge_cases (datalen c) 17) as [Hs|Hs]; [by replace (Z.to_nat (datalen c - 16)) with 0%nat by lia|].
  assert (Et : stamp6 c now = encode_timeval now) by (unfold stamp6, timing; by rewrite (proj2 (Z.leb_le _ _)) by lia).
  rewrite Et, length_timeval. change (8 + 16)%nat with 24%nat. rewrite drop_app_length' by (by rewrite length_timeval).
  set (n := Z.to_nat (datalen c - 16)). replace (packet_len c - 8 - 16)%nat with n by (unfold n, packet_len; lia).
  assert (Hn : (n <= length (drop 24 (outpack s)))%nat) by (rewrite length_drop; lia).
  apply wrong_data_none; [rewrite length_app, length_take; lia|done|].
  rewrite take_app_le by (rewrite length_take; lia). rewrite take_take. f_equal. lia.
Qed.
End Echo.

(** An echo over IPv6 is counted under its number, but its time is wrong.
    [build_echo] writes a [timeval], which [gather_statistics] reads as a
    [timespec]: the time recorded is the time that passed plus the
    nanoseconds of the second at which the probe was sent, less a thousandth
    of them, so up to 0.999 seconds too much. *)
Theorem echo6_time c now s s1 sent r rest m k s2 t :
  ping_ok c s -> 0 <= ident c < 65536 -> timing c = true ->
  in_s 64 (tv_sec now) -> 0 <= tv_nsec now < 1000000000 ->
  send_probe c now sent s = Some (0, s1) -> echo6_of (take (Z.to_nat (datalen c + 8)) (outpack s1)) r ->
  msg_buf m = r ++ rest -> msg_cc m = Z.of_nat (length r) -> message6_ok c m ->
  nanos now <= nanos (msg_time m) < 2 ^ 62 -> 0 <= nanos now ->
  ping_ok c s2 -> drop 24 (outpack s2) = drop 24 (outpack s1) -> tallies s2 t ->
  exists sh s3, ping6_parse_reply md5 no_secret dn_expand c m k s2 = Some (false, sh, None, k, s3)
     /\ tallies s3 (tally_reply (mkReply (u16 (ntransmitted s + 1)) false
          (Some (nanos (msg_time m) - nanos now + (tv_nsec now - tv_nsec now / 1000)))) t).
Proof.
  intros Hok Hid Htm Hs Hns Hsend He Hbuf Hcc Hm Htime H0 Hok2 Hpat Ht.
  assert (E1 : outpack s1 = probe6 c now s).
  { revert Hsend. cbn. unfold ping6_send_probe. destruct (rcvd_clear _ _); [|done]. cbn. rewrite build_echo_run by done. cbn. by intros [= _ <-]. }
  rewrite E1 in *. change (Z.to_nat (datalen c + 8)) with (packet_len c) in *.
  destruct (probe6_shape c now s Hok) as (_ & _ & Ed). rewrite Ed in Hpat.
  pose proof (length_echo6 c now s Hok r He) as Hlr. destruct (echo6_fields c now s Hok Hid r rest He) as (F1 & F2 & F3 & F4).
  pose proof (echo6_data c now s Hok Hid r rest s2 He Hpat) as F5. pose proof (ok_datalen _ _ Hok) as Hd. pose proof (ok_pack _ _ Hok2) as Hp2.
  destruct Hm as (M1 & M2 & M3). rewrite Hbuf in M1, M2, M3.
  unfold ping6_parse_reply. rewrite Hbuf, Hcc, Hlr, (proj2 (Z.ltb_ge _ 8)), F1 by lia. cbn [mbind option_bind]. rewrite Z.eqb_refl, F2.
  cbn [mbind option_bind]. unfold is_ours. rewrite Z.eqb_refl, orb_true_r. cbn [negb].
  unfold contains_pattern_in_payload. rewrite F5. cbn [mbind option_bind negb]. rewrite F3. cbn [mbind option_bind].
  destruct (gather_run c (drop 8 (r ++ rest)) (datalen c + 8) (u16 (ntransmitted s + 1)) false (msg_time m) (msg_clock m) s2 t Ht (ok_table _ _ Hok2))
    as (sh & s3 & Eg & _ & _ & T3 & _); [|apply seq_range|].
  { split; rewrite ?length_drop; lia. }
  rewrite Eg. cbn [mbind option_bind]. exists sh, s3. split; [done|].
  unfold gathered_reply in T3. enough (Et : reply_time c (drop 8 (r ++ rest)) (datalen c + 8) (msg_time m) (msg_clock m) s2
    = Some (nanos (msg_time m) - nanos now + (tv_nsec now - tv_nsec now / 1000))) by (by rewrite Et in T3).
  unfold reply_time. rewrite Htm. unfold timing in Htm. apply Z.leb_le in Htm. rewrite (proj2 (Z.leb_le 24 _)) by lia. cbn [andb].
  rewrite F4. unfold stamp6. unfold timing. rewrite (proj2 (Z.leb_le _ _)) by lia. rewrite decode_timeval by done. cbn [fmap option_fmap option_map].
  f_equal. assert (Hq : 0 <= tv_nsec now / 1000 <= tv_nsec now) by (split; [apply Z.div_pos; lia|apply Z.div_le_upper_bound; lia]).
  rewrite triptime_forward; unfold nanos in *; cbn [tv_sec tv_nsec]; lia.
Qed.
End Library.

(** ** A run to look at *)

Definition demo_md5 (l : list Z) : list Z := replicate 16 (u8 (foldr Z.add 0 l)).
Definition demo_dn (m : list Z) (off : nat) : option (nat * list Z) := None.

Lemma demo_md5_length l : length (demo_md5 l) = 16%nat.
Proof. done. Qed.
Lemma demo_dn_uses m off ret name : demo_dn m off = Some (ret, name) -> (0 < ret)%nat.
Proof. done. Qed.

Definition demo6_config : config := mkConfig 1 1 0 10000 0 16 1 1 true.
Definition demo6_packet : list Z := take 24 (probe6 demo6_config demo_sent demo_start).
Definition demo6_message : message :=
  mkMessage (([ICMP6_ECHO_REPLY; 0; 7; 7] ++ drop 4 demo6_packet) ++ replicate 4200 0) 24 None demo_arrival demo_arrival.
Definition demo6_rounds : list round :=
  [mkRound false [(demo_sent, [mkAttempt demo_sent 24 0 None])] None [RecvPacket demo6_message]; mkRound false [] None []].
Definition demo6_end : ping :=
  match @main_loop (echo6 demo_md5 demo_dn) demo6_config 100 demo6_rounds demo_start with Some (Finished s) => s | _ => demo_start end.

Lemma demo6_message_ok : message6_ok demo6_config demo6_message.
Proof. split; [by apply bytes_of_forallb|]. split; [vm_compute; discriminate|vm_compute; intuition discriminate]. Qed.

Lemma demo6_ready : ready demo6_config demo_start.
Proof. split; cbn; try lia; try done. by apply bytes_of_forallb. Qed.

(** The reply of the demo run is counted with the time [echo6_time] gives. *)
Example ping6_report_run :
  times (@account_of (echo6 demo_md5 demo_dn) (echo6_laws demo_md5 demo_md5_length demo_dn demo_dn_uses)
    demo6_config (drop 24 (outpack demo_start)) 100 demo6_rounds demo_start) = [2004995]
  /\ nreceived demo6_end = 1 /\ tmin demo6_end = 2004995.
Proof. vm_compute. by split_and!. Qed.

(** The demo probe is sent 5000 ns into a second and answered after two
    milliseconds; 2004995 ns are recorded. *)
Lemma echo6_time_witness : exists sh s3,
  ping6_parse_reply demo_md5 no_secret demo_dn demo6_config demo6_message no_digest demo_start = Some (false, sh, None, no_digest, s3)
  /\ tallies s3 (tally_reply (mkReply 1 false (Some 2004995)) no_replies).
Proof.
  destruct (ready_counted demo6_config demo_start demo6_ready) as [Hok _].
  apply (echo6_time demo_md5 demo_dn demo6_config demo_sent demo_start
    (set_confirm 0 (set_outpack (probe6 demo6_config demo_sent demo_start) demo_start)) 24 ([ICMP6_ECHO_REPLY; 0; 7; 7] ++ drop 4 demo6_packet) (replicate 4200 0)
    demo6_message no_digest demo_start no_replies); try done.
  - by exists 7, 7.
  - exact demo6_message_ok.
  - exact demo_tallies.
Defined.

(** ** The nonce of a query *)

(** Uses of the nonce functions, in any order, as far as the static variables
    are concerned. *)
Inductive nonce_use := Fill (seq : Z) (old : list Z) | Checks (nonce : list Z).

Definition use_ok (u : nonce_use) : Prop :=
  match u with Fill _ l | Checks l => Forall (in_u 8) l /\ length l = 8%nat end.

Fixpoint uses (md5 : list Z -> list Z) (secret : list Z) (l : list nonce_use) (k : digest_cache) : option digest_cache :=
  match l with
  | [] => Some k
  | Fill seq old :: l => '(_, k) ← niquery_fill_nonce md5 secret seq old k; uses md5 secret l k
  | Checks nonce :: l => '(_, k) ← niquery_check_nonce md5 secret nonce k; uses md5 secret l k
  end.

Lemma uses_run md5 secret l : (forall l, length (md5 l) = 16%nat) -> forall k, cache_ok md5 secret k -> Forall use_ok l ->
  exists k', uses md5 secret l k = Some k' /\ cache_ok md5 secret k'.
Proof.
  intros Hmd5. induction l as [|u l IH]; intros k Hk Hl; [by exists k|]. apply Forall_cons in Hl as [Hu Hl].
  destruct u as [seq old|nonce]; destruct Hu as [Hb Hn]; cbn [uses].
  - destruct (fill_nonce_run md5 Hmd5 secret seq old k Hk Hn Hb) as (k' & Hk' & ->). by apply IH.
  - destruct (check_nonce_run md5 Hmd5 secret nonce k Hk Hb Hn) as (k' & Hk' & ->). by apply IH.
Qed.

(** C11: The digest that [niquery_nonce] keeps from one call to the next never
    shows: after any queries and replies, the nonce of a query is its number
    followed by six bytes of the MD5 of the secret and the number; a reply with
    the nonce of a query gives the number back, and any other nonce is
    refused.  (MD5 gives sixteen bytes, each below 256.) *)
Theorem nonce_correct md5 secret l seq old nonce :
  (forall x, length (md5 x) = 16%nat) -> (forall x, Forall (in_u 8) (md5 x)) -> Forall use_ok l ->
  0 <= seq < 65536 -> use_ok (Fill seq old) -> use_ok (Checks nonce) ->
  exists k, uses md5 secret l no_digest = Some k /\
  (exists k', niquery_fill_nonce md5 secret seq old k = Some (nonce_of md5 secret seq, k')) /\
  (exists k', niquery_check_nonce md5 secret (nonce_of md5 secret seq) k = Some (seq, k')) /\
  ((forall n, 0 <= n < 65536 -> nonce <> nonce_of md5 secret n) -> exists k', niquery_check_nonce md5 secret nonce k = Some (-1, k')).
Proof.
  intros Hmd5 Hb Hl Hseq [Ho1 Ho2] [Hn1 Hn2]. destruct (uses_run md5 secret l Hmd5 no_digest (no_digest_ok _ _) Hl) as (k & E & Hk).
  exists k. split; [done|]. split; [by destruct (fill_nonce_run md5 Hmd5 secret seq old k Hk Ho2 Ho1) as (k' & _ & ?); exists k'|].
  set (two := reverse (le_bytes 2 seq)). assert (L2 : length two = 2%nat) by done.
  assert (T2 : take 2 (nonce_of md5 secret seq) = two) by done.
  assert (B : Forall (in_u 8) (nonce_of md5 secret seq)).
  { apply Forall_app. split; [apply Forall_reverse, le_bytes_range|]. apply Forall_take, Hb. }
  split.
  - destruct (check_nonce_run md5 Hmd5 secret (nonce_of md5 secret seq) k Hk B) as (k' & _ & Ec).
    { unfold nonce_of. rewrite length_app, length_tag by done. done. }
    exists k'. rewrite Ec. rewrite decide_True by done. rewrite T2. unfold two. rewrite reverse_involutive, le_value_bytes. f_equal. f_equal. by apply Z.mod_small.
  - intros Hno. destruct (check_nonce_run md5 Hmd5 secret nonce k Hk Hn1 Hn2) as (k' & _ & Ec). exists k'. rewrite Ec.
    rewrite decide_False; [done|]. intros Hv. set (n := le_value (reverse (take 2 nonce))).
    assert (B2 : Forall (in_u 8) (reverse (take 2 nonce))) by (by apply Forall_reverse, Forall_take).
    assert (L : length (reverse (take 2 nonce)) = 2%nat) by (rewrite length_reverse, length_take, Hn2; done).
    pose proof (le_value_range _ B2) as Hr. rewrite L in Hr. apply (Hno n); [exact Hr|].
    unfold nonce_of, n. pose proof (le_bytes_value _ B2) as El. rewrite L in El. rewrite El, reverse_involutive, <- Hv. by rewrite take_drop.
Qed.

Lemma nonce_correct_witness : exists k, uses demo_md5 [1] [Fill 5 (replicate 8 0); Checks (replicate 8 9)] no_digest = Some k /\
  exists k', niquery_check_nonce demo_md5 [1] (nonce_of demo_md5 [1] 5) k = Some (5, k').
Proof.
  destruct (nonce_correct demo_md5 [1] [Fill 5 (replicate 8 0); Checks (replicate 8 9)] 5 (replicate 8 0) (replicate 8 9)) as (k & E & _ & H & _).
  - exact demo_md5_length.
  - intros x. apply Forall_replicate. apply (wrapu_range 8). lia.
  - repeat (constructor; [split; [by apply bytes_of_forallb|done]|]). constructor.
  - lia.
  - split; [by apply bytes_of_forallb|done].
  - split; [by apply bytes_of_forallb|done].
  - exists k. by split.
Defined.

(** ** The filters *)

Lemma load16_within (buf : list Z) off n : (off + 6 <= n)%nat -> (n <= length buf)%nat -> load16 (off + 4) (take n buf) = load16 4 (drop off buf).
Proof.
  intros H1 H2. unfold load16. rewrite !load_some by (rewrite ?length_take, ?length_drop; lia). do 2 f_equal.
  rewrite drop_drop, !take_drop_commute, take_take. f_equal. f_equal. lia.
Qed.

Lemma filter6_drops md5 secret dn_expand c m k s : 0 <= ident c < 65536 -> socktype_raw c = true -> message6_ok c m ->
  bpf (ping6_insns c) (take (Z.to_nat (msg_cc m)) (msg_buf m)) = 0 ->
  exists sh, ping6_parse_reply md5 secret dn_expand c m k s = Some (true, sh, None, k, s).
Proof.
  intros Hid Hraw (M1 & M2 & M3) Hf. apply ping6_filter_run in Hf; [|by apply Forall_take|done].
  assert (Lp : length (take (Z.to_nat (msg_cc m)) (msg_buf m)) = Z.to_nat (msg_cc m)) by (rewrite length_take; lia).
  unfold ping6_parse_reply. destruct (Z.ltb_spec (msg_cc m) 8) as [Hc|Hc]; [by eexists|].
  destruct Hf as [Hf|[H0 H4]]; [lia|]. rewrite lookup_take_lt in H0 by lia. rewrite H0. cbn [mbind option_bind]. rewrite Z.eqb_refl.
  rewrite (load16_within (msg_buf m) 0) in H4 by lia. rewrite drop_0 in H4.
  destruct (load16_some 4 (msg_buf m) M1 ltac:(lia)) as (id & E & _). rewrite E in *. cbn [mbind option_bind]. unfold is_ours. rewrite Hraw.
  destruct (Z.eqb_spec id (ident c)) as [->|]; [done|]. by eexists.
Qed.

Lemma filter4_drops c m s : 0 <= ident c < 65536 -> socktype_raw c = true -> 0 <= datalen c -> message4_ok c m ->
  bpf (ping4_insns c) (take (Z.to_nat (msg_cc m)) (msg_buf m)) = 0 -> ping4_parse_reply c m s = Some (true, Silent, s).
Proof.
  intros Hid Hraw Hd [(M1 & M2 & M3 & _) _] Hf. unfold ping4_parse_reply. rewrite Hraw.
  destruct (lookup_byte (msg_buf m) 0 M1 ltac:(lia)) as (b0 & E0 & _). rewrite E0. cbn [mbind option_bind]. pose proof (land_15 b0) as H15.
  destruct (Z.ltb_spec (msg_cc m) (Z.land b0 15 * 4 + 8)) as [Hc|Hc]; [done|]. destruct (Z.ltb_spec (Z.land b0 15) 5) as [Hh|Hh]; [done|]. cbn [orb].
  set (p := take _ _) in Hf. assert (Lp : length p = Z.to_nat (msg_cc m)) by (unfold p; rewrite length_take; lia).
  apply (ping4_filter_run c p b0) in Hf; [|by apply Forall_take|done|unfold p; rewrite lookup_take_lt by lia; done].
  replace (Z.land b0 15 * 4) with (4 * Z.land b0 15) in * by lia. set (off := Z.to_nat (4 * Z.land b0 15)) in *.
  destruct Hf as [Hf|[Ht Hi]]; [lia|]. unfold p in Ht, Hi. rewrite lookup_take_lt in Ht by lia. rewrite load16_within in Hi by lia.
  unfold parse_icmp. rewrite load_some by (rewrite length_drop; lia). cbn [mbind option_bind].
  assert (Et : drop off (msg_buf m) !! 0%nat = Some ICMP_ECHOREPLY) by (rewrite lookup_drop, Nat.add_0_r; exact Ht).
  rewrite Et. cbn [mbind option_bind]. rewrite Z.eqb_refl.
  destruct (load16_some 4 (drop off (msg_buf m)) ltac:(by apply Forall_drop) ltac:(rewrite length_drop; lia)) as (id & E & _).
  rewrite E in *. cbn [mbind option_bind]. unfold is_ours. rewrite Hraw. by destruct (Z.eqb_spec id (ident c)) as [->|].
Qed.

(** C33: The programs that ping gives to the kernel drop nothing that it would
    count.  On a raw socket a packet the filter drops is one that the parser
    leaves to others with the state unchanged, for IPv4 and IPv6; and a packet
    with our number in the place of the identifier always passes. *)
Theorem filters_transparent md5 secret dn_expand c : 0 <= ident c < 65536 -> socktype_raw c = true -> 0 <= datalen c ->
  (forall m s, message4_ok c m -> bpf (ping4_insns c) (take (Z.to_nat (msg_cc m)) (msg_buf m)) = 0 ->
     ping4_parse_reply c m s = Some (true, Silent, s)) /\
  (forall m k s, message6_ok c m -> bpf (ping6_insns c) (take (Z.to_nat (msg_cc m)) (msg_buf m)) = 0 ->
     exists sh, ping6_parse_reply md5 secret dn_expand c m k s = Some (true, sh, None, k, s)) /\
  (forall p b0, Forall (in_u 8) p -> p !! 0%nat = Some b0 -> load16 (Z.to_nat (4 * Z.land b0 15) + 4) p = Some (ident c) ->
     bpf (ping4_insns c) p <> 0) /\
  (forall p, Forall (in_u 8) p -> load16 4 p = Some (ident c) -> bpf (ping6_insns c) p <> 0).
Proof.
  intros Hid Hraw Hd. split; [intros m s Hm Hf; by apply filter4_drops|]. split; [intros m k s Hm Hf; by apply filter6_drops|].
  assert (Hl : forall i p, load16 i p = Some (ident c) -> (i + 2 <= length p)%nat).
  { intros i p. unfold load16, load. destruct (Nat.leb_spec (i + 2) (length p)); [done|]. done. }
  split.
  - intros p b0 Hp H0 Hi Hf. apply (ping4_filter_run c p b0 Hp Hid H0) in Hf as [Hf|[_ Hf]]; [|done]. apply Hl in Hi. lia.
  - intros p Hp Hi Hf. apply (ping6_filter_run c p Hp Hid) in Hf as [Hf|[_ Hf]]; [|done]. apply Hl in Hi. lia.
Qed.

(** The reply of the demo, for a process with another number. *)
Definition other6_config : config := mkConfig 1 1 0 10000 0 16 2 1 true.

Lemma filters_transparent_witness : bpf (ping6_insns demo6_config) (take 24 (msg_buf demo6_message)) <> 0 /\
  exists sh, ping6_parse_reply demo_md5 no_secret demo_dn other6_config demo6_message no_digest demo_start = Some (true, sh, None, no_digest, demo_start).
Proof.
  split; [by vm_compute|].
  destruct (filters_transparent demo_md5 no_secret demo_dn other6_config) as (_ & H & _); [cbn; lia|reflexivity|cbn; lia|].
  apply H; [exact demo6_message_ok|]. vm_compute. reflexivity.
Defined.

(** ** The options of a query *)

Lemma handler_exit rs w q code : niquery_option_handler rs w q = Exited code -> code = 1 \/ code = 2.
Proof.
  unfold niquery_option_handler. rewrite (find_option_loop rs w q niquery_options 0) by done.
  destruct (find_option niquery_options w) as [[p arg]|]; [|intros [= <-]; auto].
  destruct (call_handler rs p arg q) as [x|[q1|]] eqn:E; [|done|intros [= <-]; auto]. intros [= <-].
  unfold call_handler, niquery_option_subject_name_handler in E.
  repeat (case_match; simplify_eq; auto).
Qed.

Lemma arguments_exit rs l : forall q code, niquery_arguments rs l q = Exited code -> code = 1 \/ code = 2.
Proof.
  induction l as [|w l IH]; intros q code; cbn [niquery_arguments]; [done|].
  destruct (niquery_option_handler rs w q) as [x|q1] eqn:E; [|apply IH]. intros [= <-]. by eapply handler_exit.
Qed.

(** C40: Any sequence of -N options, with any resolver, ends the program with code
    1 or 2, or every word is an option of the table and the query agrees with
    all of them: its type is that of each query option (and there is none only
    if none was given), its flags are exactly those asked for, and its subject
    has the type that each subject option names. *)
Theorem niquery_options_correct rs l :
  match niquery_arguments rs l no_query with
  | Exited code => code = 1 \/ code = 2
  | Went q => length (meant l) = length l /\ agrees (meant l) q
  end.
Proof.
  destruct (niquery_arguments rs l no_query) as [code|q] eqn:E; [by eapply arguments_exit|].
  by apply (arguments_run rs l [] no_query q agrees_nil (Forall_nil_2 _)).
Qed.

(** Flags add up, and a bare host name becomes the subject in lower case with a
    null byte behind it. *)
Definition demo_resolver : resolver :=
  mkResolver (fun _ _ => None) Some (fun s _ => if String.eqb s "host" then Some [4; 104; 111; 115; 116; 0] else None) demo_md5.

Lemma demo_query : niquery_arguments demo_resolver ["ipv6-all"; "ipv6-global"; "subject-name=Host"]%string no_query
  = Went (mkNi NI_QTYPE_IPV6ADDR 0x2200 (Some [4; 104; 111; 115; 116; 0; 0]) NI_SUBJ_NAME (Some (replicate 4 (u8 (4 + 104 + 111 + 115)), None)))
  /\ niquery_arguments demo_resolver ["ipv6"; "ipv4"]%string no_query = Exited 2.
Proof. by vm_compute. Qed.
