(* ===== verification/IntSort.v ===== *)
(** * The integer sort benchmark: NPB-CPUTests/IS/is.c

    Keys are drawn from a linear congruential generator that is computed in
    double precision, ranked by a parallel bucket sort, and the ranks verified.
    USE_BUCKETS is defined, as in the source; OpenMP is modelled by a
    [schedule]: how the loops are divided among the threads and in which order
    their steps take place.

    [None] is an access outside an array, a conversion to [int] out of range, or
    an operation on doubles whose result would have to be rounded. *)

From Stdlib Require Import ZArith Lia.
From stdpp Require Import base numbers option list.
From S2P Require Import Prelude.

Local Open Scope Z_scope.

(** ** Classes *)

Inductive class := CS | CW | CA | CB | CC | CD.

Definition TOTAL_KEYS_LOG_2 (c : class) : Z := match c with CS => 16 | CW => 20 | CA => 23 | CB => 25 | CC => 27 | CD => 31 end.
Definition MAX_KEY_LOG_2 (c : class) : Z := match c with CS => 11 | CW => 16 | CA => 19 | CB => 21 | CC => 23 | CD => 27 end.
Definition NUM_BUCKETS_LOG_2 (c : class) : Z := match c with CS => 9 | _ => 10 end.

Definition NUM_KEYS (c : class) : Z := Z.shiftl 1 (TOTAL_KEYS_LOG_2 c).
Definition MAX_KEY (c : class) : Z := Z.shiftl 1 (MAX_KEY_LOG_2 c).
Definition NUM_BUCKETS (c : class) : Z := Z.shiftl 1 (NUM_BUCKETS_LOG_2 c).
Definition MAX_ITERATIONS : Z := 10.

(** INT_TYPE is long in class D and int otherwise: its bits, and arithmetic in
    it. *)
Definition INT_TYPE (c : class) : Z := match c with CD => 64 | _ => 32 end.
Definition int (c : class) (z : Z) : Z := wraps (INT_TYPE c) z.

Definition test_index_array (c : class) : list Z :=
  match c with
  | CS => [48427; 17148; 23627; 62548; 4431]
  | CW => [357773; 934767; 875723; 898999; 404505]
  | CA => [2112377; 662041; 5336171; 3642833; 4250760]
  | CB => [41869; 812306; 5102857; 18232239; 26860214]
  | CC => [44172927; 72999161; 74326391; 129606274; 21736814]
  | CD => [1317351170; 995930646; 1157283250; 1503301535; 1453734525]
  end.

Definition test_rank_array (c : class) : list Z :=
  match c with
  | CS => [0; 18; 346; 64917; 65463]
  | CW => [1249; 11698; 1039987; 1043896; 1048018]
  | CA => [104; 17523; 123928; 8288932; 8388264]
  | CB => [33422937; 10244; 59149; 33135281; 99]
  | CC => [61147; 882988; 266290; 133997595; 133525895]
  | CD => [1; 36538729; 1978098519; 2145192618; 2147425337]
  end.

(** ** Doubles

    The value [mant * 2 ^ expo]; a result is representable if its odd part has
    at most 53 bits. *)

Record double := D { mant : Z; expo : Z }.

Fixpoint odd_part (p : positive) : positive := match p with xO q => odd_part q | _ => p end.

Definition representable (m : Z) : bool :=
  match m with Z0 => true | Zpos p | Zneg p => Zpos (odd_part p) <? 2 ^ 53 end.

Definition exact (m e : Z) : option double := if representable m then Some (D m e) else None.

Definition dmul (a b : double) : option double := exact (mant a * mant b) (expo a + expo b).

Definition align (f : Z -> Z -> Z) (a b : double) : option double :=
  let e := Z.min (expo a) (expo b) in exact (f (mant a * 2 ^ (expo a - e)) (mant b * 2 ^ (expo b - e))) e.

Definition dadd : double -> double -> option double := align Z.add.
Definition dsub : double -> double -> option double := align Z.sub.

(** Conversion to an integer type of [w] bits truncates. *)
Definition to_int (w : Z) (a : double) : option Z :=
  let v := if 0 <=? expo a then mant a * 2 ^ expo a else Z.quot (mant a) (2 ^ (- expo a)) in
  if (- 2 ^ (w - 1) <=? v) && (v <? 2 ^ (w - 1)) then Some v else None.

Definition of_int (j : Z) : double := D j 0.

(** ** randlc *)

(** [n] multiplications with [f], from 1: the constants R23, R46, T23, T46. *)
Fixpoint power (n : nat) (f : double) : option double :=
  match n with O => Some (D 1 0) | S n' => x ← power n' f; dmul f x end.

Record constants := mkConst { R23 : double; R46 : double; T23 : double; T46 : double }.

Definition randlc_constants : option constants :=
  r23 ← power 23 (D 1 (-1)); t23 ← power 23 (D 2 0); r46 ← power 46 (D 1 (-1)); t46 ← power 46 (D 2 0);
  Some (mkConst r23 r46 t23 t46).

(** [a = 2^23 * a1 + a2] *)
Definition break_up (k : constants) (a : double) : option (double * double) :=
  t1 ← dmul (R23 k) a; j ← to_int 32 t1;
  t ← dmul (T23 k) (of_int j); a2 ← dsub a t;
  Some (of_int j, a2).

(** The new [X] and the number returned. *)
Definition randlc (X A : double) : option (double * double) :=
  k ← randlc_constants;
  '(A1, A2) ← break_up k A;
  '(X1, X2) ← break_up k X;
  p ← dmul A1 X2; q ← dmul A2 X1; T1 ← dadd p q;
  u ← dmul (R23 k) T1; j ← to_int 32 u;
  t ← dmul (T23 k) (of_int j); Zd ← dsub T1 t;
  v ← dmul (T23 k) Zd; w ← dmul A2 X2; T3 ← dadd v w;
  y ← dmul (R46 k) T3; j ← to_int 32 y;
  z ← dmul (T46 k) (of_int j); X' ← dsub T3 z;
  r ← dmul (R46 k) X';
  Some (X', r).

(** ** find_my_seed *)

(** [while (kk > 1)] *)
Fixpoint seed_loop (fuel : nat) (kk : Z) (t1 t2 : double) : option (double * double) :=
  match fuel with
  | O => None
  | S fuel' =>
      if 1 <? kk then
        let ik := Z.quot kk 2 in
        if 2 * ik =? kk then '(t2, _) ← randlc t2 t2; seed_loop fuel' ik t1 t2
        else '(t1, _) ← randlc t1 t2; seed_loop fuel' (kk - 1) t1 t2
      else Some (t1, t2)
  end.

Definition find_my_seed (kn np nn : Z) (s a : double) : option double :=
  if kn =? 0 then Some s
  else
    let mq := Z.quot (Z.quot nn 4 + np - 1) np in
    let nq := mq * 4 * kn in
    '(t1, t2) ← seed_loop 128 nq s a;
    '(t1, _) ← randlc t1 t2; Some t1.

(** ** create_seq *)

Definition next_key (c : class) (k : Z) (s an : double) : option (Z * double) :=
  '(s, x) ← randlc s an;
  '(s, r) ← randlc s an; x ← dadd x r;
  '(s, r) ← randlc s an; x ← dadd x r;
  '(s, r) ← randlc s an; x ← dadd x r;
  p ← dmul (of_int k) x; key ← to_int (INT_TYPE c) p;
  Some (key, s).

(** The keys of the loop of one thread, [n] of them. *)
Fixpoint keys_loop (c : class) (n : nat) (k : Z) (s an : double) : option (list Z) :=
  match n with
  | O => Some []
  | S n' => '(key, s) ← next_key c k s an; l ← keys_loop c n' k s an; Some (key :: l)
  end.

(** What thread [myid] of [num_procs] stores, from index [k1] on. *)
Definition create_block (c : class) (num_procs myid : Z) (seed a : double) : option (Z * list Z) :=
  let mq := Z.quot (int c (NUM_KEYS c + num_procs - 1)) num_procs in
  let k1 := int c (mq * myid) in
  let k2 := Z.min (int c (k1 + mq)) (NUM_KEYS c) in
  s ← find_my_seed myid num_procs (4 * NUM_KEYS c) seed a;
  l ← keys_loop c (Z.to_nat (k2 - k1)) (Z.quot (MAX_KEY c) 4) s a;
  Some (k1, l).

(** ** Arrays *)

Definition geti (l : list Z) (i : Z) : option Z := if 0 <=? i then l !! Z.to_nat i else None.

Definition seti (i v : Z) (l : list Z) : option (list Z) :=
  if (0 <=? i) && (i <? Z.of_nat (length l)) then Some (<[Z.to_nat i := v]> l) else None.

(** A sequence of assignments, index and value. *)
Fixpoint apply_writes (ws : list (Z * Z)) (buf : list Z) : option (list Z) :=
  match ws with [] => Some buf | (p, v) :: ws' => buf ← seti p v buf; apply_writes ws' buf end.

(** The threads store their blocks in [key_array]. *)
Definition block_writes (b : Z * list Z) : list (Z * Z) := zip (seqZ (fst b) (Z.of_nat (length (snd b)))) (snd b).

Definition create_seq (c : class) (num_procs : Z) (interleave : list (list (Z * Z)) -> list (Z * Z)) (seed a : double)
    (key_array : list Z) : option (list Z) :=
  blocks ← mapM (fun t => create_block c num_procs t seed a) (seqZ 0 num_procs);
  apply_writes (interleave (block_writes <$> blocks)) key_array.

(** ** rank *)

(** [w[idx k]++] for every key [k]. *)
Fixpoint histogram (idx : Z -> Z) (keys w : list Z) : option (list Z) :=
  match keys with
  | [] => Some w
  | k :: keys' => v ← geti w (idx k); w ← seti (idx k) (v + 1) w; histogram idx keys' w
  end.

(** The sum of the [i]-th elements of some rows of [bucket_size]. *)
Fixpoint column (rows : list (list Z)) (i : Z) : option Z :=
  match rows with [] => Some 0 | r :: rows' => v ← geti r i; s ← column rows' i; Some (v + s) end.

(** [bucket_ptrs[i], ...] for [n] buckets, from the one before. *)
Fixpoint next_ptrs (n : nat) (i prev : Z) (before after : list (list Z)) : option (list Z) :=
  match n with
  | O => Some []
  | S n' =>
      x ← column before i; y ← column after (i - 1);
      let p := prev + x + y in
      l ← next_ptrs n' (i + 1) p before after; Some (p :: l)
  end.

Definition start_ptrs (nb : Z) (myid : nat) (bucket_size : list (list Z)) : option (list Z) :=
  p0 ← column (take myid bucket_size) 0;
  l ← next_ptrs (Z.to_nat (nb - 1)) 1 p0 (take myid bucket_size) (drop myid bucket_size);
  Some (p0 :: l).

(** The assignments to [key_buff2] of one thread, and its pointers afterwards. *)
Fixpoint scatter (shift : Z) (keys ptrs : list Z) : option (list (Z * Z) * list Z) :=
  match keys with
  | [] => Some ([], ptrs)
  | k :: keys' =>
      p ← geti ptrs (Z.shiftr k shift);
      ptrs ← seti (Z.shiftr k shift) (p + 1) ptrs;
      '(ws, ptrs) ← scatter shift keys' ptrs; Some ((p, k) :: ws, ptrs)
  end.

(** [bucket_ptrs[i] += bucket_size[k][i]] for the later threads. *)
Fixpoint add_later (later : list (list Z)) (i : Z) (ptrs : list Z) : option (list Z) :=
  match ptrs with
  | [] => Some []
  | p :: ptrs' => x ← column later i; l ← add_later later (i + 1) ptrs'; Some (p + x :: l)
  end.

(** Thread [myid] with its block of the keys: the assignments and the final
    pointers. *)
Definition distribute (shift nb : Z) (bucket_size : list (list Z)) (myid : nat) (keys : list Z)
    : option (list (Z * Z) * list Z) :=
  ptrs ← start_ptrs nb myid bucket_size;
  '(ws, ptrs) ← scatter shift keys ptrs;
  ptrs ← (if (myid <? length bucket_size - 1)%nat then add_later (drop (S myid) bucket_size) 0 ptrs else Some ptrs);
  Some (ws, ptrs).

(** [n] cells from [k] on are set to 0. *)
Fixpoint clear (n : nat) (k : Z) (buf : list Z) : option (list Z) :=
  match n with O => Some buf | S n' => buf ← seti k 0 buf; clear n' (k + 1) buf end.

(** [key_buff_ptr[key_buff_ptr2[k]]++] for [n] values of [k]. *)
Fixpoint populate (n : nat) (k : Z) (buff2 buf : list Z) : option (list Z) :=
  match n with
  | O => Some buf
  | S n' => key ← geti buff2 k; v ← geti buf key; buf ← seti key (v + 1) buf; populate n' (k + 1) buff2 buf
  end.

(** [key_buff_ptr[k] += key_buff_ptr[k-1]] for [n] values of [k]. *)
Fixpoint accumulate (n : nat) (k : Z) (buf : list Z) : option (list Z) :=
  match n with
  | O => Some buf
  | S n' => a ← geti buf k; b ← geti buf (k - 1); buf ← seti k (a + b) buf; accumulate n' (k + 1) buf
  end.

(** The first key of a bucket in [key_buff2]. *)
Definition bucket_start (ptrs : list Z) (i : Z) : option Z := if 0 <? i then geti ptrs (i - 1) else Some 0.

(** The ranks of the keys of bucket [i]. *)
Definition rank_bucket (num_bucket_keys : Z) (ptrs buff2 : list Z) (i : Z) (buff1 : list Z) : option (list Z) :=
  let k1 := i * num_bucket_keys in
  b ← clear (Z.to_nat num_bucket_keys) k1 buff1;
  m ← bucket_start ptrs i; e ← geti ptrs i;
  b ← populate (Z.to_nat (e - m)) m buff2 b;
  v ← geti b k1; b ← seti k1 (v + m) b;
  accumulate (Z.to_nat (num_bucket_keys - 1)) (k1 + 1) b.

(** The buckets in the order in which the threads get to them, each with the
    thread. *)
Fixpoint rank_buckets (num_bucket_keys : Z) (ptrs : list (list Z)) (buff2 : list Z) (order : list (Z * nat)) (buff1 : list Z)
    : option (list Z) :=
  match order with
  | [] => Some buff1
  | (i, t) :: order' =>
      p ← ptrs !! t; b ← rank_bucket num_bucket_keys p buff2 i buff1;
      rank_buckets num_bucket_keys ptrs buff2 order' b
  end.

(** What OpenMP decides: the division of a loop in contiguous blocks, one for
    each thread, the interleaving of assignments, and the order of the
    buckets. *)
Record schedule := mkSchedule {
  sc_split : list Z -> list (list Z);
  sc_interleave : list (list (Z * Z)) -> list (Z * Z);
  sc_order : list (Z * nat)
}.

Record is_state := mkIs {
  key_array : list Z;
  key_buff1 : list Z;
  key_buff2 : list Z;
  bucket_ptrs : list (list Z);     (* of each thread *)
  key_buff_ptr_global : bool;      (* key_buff1, or else NULL *)
  passed_verification : Z
}.

(** The parallel region. *)
Definition rank_keys (c : class) (sc : schedule) (keys buff1 buff2 : list Z) : option (list Z * list Z * list (list Z)) :=
  let shift := MAX_KEY_LOG_2 c - NUM_BUCKETS_LOG_2 c in
  let nb := NUM_BUCKETS c in
  let blocks := sc_split sc keys in
  sizes ← mapM (fun b => histogram (fun k => Z.shiftr k shift) b (replicate (Z.to_nat nb) 0)) blocks;
  done ← mapM (fun '(t, b) => distribute shift nb sizes t b) (imap pair blocks);
  buff2 ← apply_writes (sc_interleave sc (fst <$> done)) buff2;
  buff1 ← rank_buckets (Z.shiftl 1 shift) (snd <$> done) buff2 (sc_order sc) buff1;
  Some (buff1, buff2, snd <$> done).

(** The rank test key [i] should have. *)
Definition expected_rank (c : class) (iteration i : Z) (test_rank : Z) : Z :=
  match c with
  | CS => if i <=? 2 then test_rank + iteration else test_rank - iteration
  | CW => if i <? 2 then test_rank + (iteration - 2) else test_rank - iteration
  | CA => if i <=? 2 then test_rank + (iteration - 1) else test_rank - (iteration - 1)
  | CB => if (i =? 1) || (i =? 2) || (i =? 4) then test_rank + iteration else test_rank - iteration
  | CC => if i <=? 2 then test_rank + iteration else test_rank - iteration
  | CD => if i <? 2 then test_rank + iteration else test_rank - iteration
  end.

(** The partial verification, from test key [i] on. *)
Fixpoint partial_verify (c : class) (iteration : Z) (buff1 : list Z) (i : Z) (vals ranks : list Z) (passed : Z) : option Z :=
  match vals, ranks with
  | k :: vals', r :: ranks' =>
      if (0 <? k) && (k <=? NUM_KEYS c - 1) then
        key_rank ← geti buff1 (k - 1);
        partial_verify c iteration buff1 (i + 1) vals' ranks'
          (if key_rank =? expected_rank c iteration i r then passed + 1 else passed)
      else partial_verify c iteration buff1 (i + 1) vals' ranks' passed
  | _, _ => Some passed
  end.

Definition rank (c : class) (sc : schedule) (iteration : Z) (s : is_state) : option is_state :=
  a ← seti iteration iteration (key_array s);
  a ← seti (iteration + MAX_ITERATIONS) (MAX_KEY c - iteration) a;
  vals ← mapM (geti a) (test_index_array c);
  '(b1, b2, ptrs) ← rank_keys c sc a (key_buff1 s) (key_buff2 s);
  passed ← partial_verify c iteration b1 0 vals (test_rank_array c) (passed_verification s);
  Some (mkIs a b1 b2 ptrs (key_buff_ptr_global s || (iteration =? MAX_ITERATIONS)) passed).

(** ** full_verify *)

(** The keys of one bucket: the assignments to [key_array], and the ranks. *)
Fixpoint sort_bucket (n : nat) (i : Z) (buff2 ranks : list Z) : option (list (Z * Z) * list Z) :=
  match n with
  | O => Some ([], ranks)
  | S n' =>
      key ← geti buff2 i; v ← geti ranks key; ranks ← seti key (v - 1) ranks;
      '(ws, ranks) ← sort_bucket n' (i + 1) buff2 ranks; Some ((v - 1, key) :: ws, ranks)
  end.

Fixpoint sort_buckets (ptrs : list (list Z)) (buff2 : list Z) (order : list (Z * nat)) (ranks : list Z)
    : option (list (list (Z * Z)) * list Z) :=
  match order with
  | [] => Some ([], ranks)
  | (j, t) :: order' =>
      p ← ptrs !! t; k1 ← bucket_start p j; e ← geti p j;
      '(ws, ranks) ← sort_bucket (Z.to_nat (e - k1)) k1 buff2 ranks;
      '(ws', ranks) ← sort_buckets ptrs buff2 order' ranks; Some (ws :: ws', ranks)
  end.

(** The keys out of sort. *)
Fixpoint out_of_sort (l : list Z) : Z :=
  match l with
  | a :: l' => match l' with b :: _ => (if b <? a then 1 else 0) + out_of_sort l' | [] => 0 end
  | [] => 0
  end.

Definition full_verify (sc : schedule) (s : is_state) : option is_state :=
  ranks ← (if key_buff_ptr_global s then Some (key_buff1 s) else None);
  '(ws, ranks) ← sort_buckets (bucket_ptrs s) (key_buff2 s) (sc_order sc) ranks;
  a ← apply_writes (sc_interleave sc ws) (key_array s);
  let j := out_of_sort a in
  Some (mkIs a ranks (key_buff2 s) (bucket_ptrs s) (key_buff_ptr_global s)
          (if j =? 0 then passed_verification s + 1 else passed_verification s)).

(** ** main *)

Fixpoint iterate (c : class) (sc : Z -> schedule) (n : nat) (iteration : Z) (s : is_state) : option is_state :=
  match n with O => Some s | S n' => s ← rank c (sc iteration) iteration s; iterate c sc n' (iteration + 1) s end.

(** Global variables are zero when the program starts. *)
Definition is_start (c : class) : is_state :=
  mkIs (replicate (Z.to_nat (NUM_KEYS c)) 0) (replicate (Z.to_nat (MAX_KEY c)) 0)
       (replicate (Z.to_nat (NUM_KEYS c)) 0) [] false 0.

(** alloc_key_buff clears [key_buff2]. *)
Definition alloc_key_buff (c : class) (s : is_state) : is_state :=
  mkIs (key_array s) (key_buff1 s) (replicate (Z.to_nat (NUM_KEYS c)) 0) (bucket_ptrs s) (key_buff_ptr_global s)
       (passed_verification s).

(** The benchmark, given the number of threads that generate the keys and the
    schedules: whether it is reported as successful, and the last state. *)
Definition is_main (c : class) (num_procs : Z) (interleave : list (list (Z * Z)) -> list (Z * Z)) (sc : Z -> schedule)
    : option (bool * is_state) :=
  a ← create_seq c num_procs interleave (D 314159265 0) (D 1220703125 0) (key_array (is_start c));
  let s := alloc_key_buff c (mkIs a (key_buff1 (is_start c)) (key_buff2 (is_start c)) [] false 0) in
  s ← rank c (sc 0) 1 s;
  let s := mkIs (key_array s) (key_buff1 s) (key_buff2 s) (bucket_ptrs s) (key_buff_ptr_global s) 0 in
  s ← iterate c sc (Z.to_nat MAX_ITERATIONS) 1 s;
  s ← full_verify (sc (MAX_ITERATIONS + 1)) s;
  Some (passed_verification s =? 5 * MAX_ITERATIONS + 1, s).
