(* ===== verification/IntSortArray.v ===== *)
(** * Arrays of IS as functions on indices

    An array of [n] cells is [vec n f].  The loops of the program become
    equations between functions, and assignments made in any order that agree
    with the final contents and reach every cell produce these contents. *)

From Stdlib Require Import ZArith Lia Sorted.
From stdpp Require Import base numbers option list sorting.
From S2P Require Import Prelude IntSort.

Local Open Scope Z_scope.

Definition vec (n : Z) (f : Z -> Z) : list Z := f <$> seqZ 0 n.

Definition upd (f : Z -> Z) (i v : Z) : Z -> Z := fun j => if j =? i then v else f j.

Lemma vec_lookup n f (i : nat) : Z.of_nat i < n -> vec n f !! i = Some (f (Z.of_nat i)).
Proof. intros H. unfold vec. by rewrite list_lookup_fmap, lookup_seqZ_lt by lia. Qed.

Lemma vec_length n f : length (vec n f) = Z.to_nat n.
Proof. unfold vec. by rewrite length_fmap, length_seqZ. Qed.

Lemma vec_ext n f g : (forall i, 0 <= i < n -> f i = g i) -> vec n f = vec n g.
Proof. intros H. apply list_fmap_ext. intros i x [-> ?]%lookup_seqZ. apply H. lia. Qed.

Lemma geti_vec n f i : 0 <= i < n -> geti (vec n f) i = Some (f i).
Proof.
  intros H. unfold geti. rewrite (proj2 (Z.leb_le _ _)), vec_lookup by lia. by rewrite Z2Nat.id by lia.
Qed.

Lemma seti_vec n f i v : 0 <= i < n -> seti i v (vec n f) = Some (vec n (upd f i v)).
Proof.
  intros H. unfold seti. rewrite vec_length, Z2Nat.id by lia.
  rewrite (proj2 (Z.leb_le _ _)), (proj2 (Z.ltb_lt _ _)) by lia. cbn [andb]. f_equal.
  apply list_eq. intros j. destruct (decide (Z.of_nat j < n)).
  - rewrite (vec_lookup _ (upd f i v)) by done. unfold upd. destruct (Z.eqb_spec (Z.of_nat j) i) as [<-|Hi].
    + rewrite Nat2Z.id, list_lookup_insert_eq; [done|]. rewrite vec_length. lia.
    + rewrite list_lookup_insert_ne, vec_lookup by lia. done.
  - rewrite !lookup_ge_None_2; [done|..]; rewrite ?length_insert, vec_length; lia.
Qed.

Lemma upd_eq f i v : upd f i v i = v.
Proof. unfold upd. by rewrite Z.eqb_refl. Qed.

Lemma upd_ne f i v j : j <> i -> upd f i v j = f j.
Proof. intros H. unfold upd. by destruct (Z.eqb_spec j i). Qed.

(** Any array is a [vec]. *)
Definition at_index (l : list Z) (i : Z) : Z := default 0 (geti l i).

Lemma vec_of_list l : l = vec (Z.of_nat (length l)) (at_index l).
Proof.
  apply list_eq. intros j. destruct (decide (j < length l)%nat) as [Hj|Hj].
  - rewrite vec_lookup by lia. unfold at_index, geti. rewrite (proj2 (Z.leb_le _ _)), Nat2Z.id by lia.
    by destruct (lookup_lt_is_Some_2 l j Hj) as [x ->].
  - rewrite !lookup_ge_None_2; [done|..]; rewrite ?vec_length; lia.
Qed.

Lemma vec_replicate n v : 0 <= n -> replicate (Z.to_nat n) v = vec n (fun _ => v).
Proof.
  intros H. rewrite (vec_of_list (replicate _ v)), length_replicate, Z2Nat.id by done. apply vec_ext.
  intros i Hi. unfold at_index, geti. rewrite (proj2 (Z.leb_le _ _)), lookup_replicate_2 by lia. done.
Qed.

(** ** Assignments *)

(** The assignment gives cell [p] the value it has in [g]. *)
Definition agrees (n : Z) (g : Z -> Z) (w : Z * Z) : Prop := 0 <= fst w < n /\ snd w = g (fst w).

Lemma apply_writes_vec n g ws : forall f, Forall (agrees n g) ws ->
  (forall p, 0 <= p < n -> p ∈ ws.*1 \/ f p = g p) -> apply_writes ws (vec n f) = Some (vec n g).
Proof.
  induction ws as [|[p v] ws IH]; intros f Ha Hc; simpl.
  - f_equal. apply vec_ext. intros i Hi. destruct (Hc i Hi) as [H|]; [by apply not_elem_of_nil in H|done].
  - apply Forall_cons in Ha as [[Hp Hv] Ha]. simpl in Hp, Hv. rewrite seti_vec by done. cbn [mbind option_bind].
    apply IH; [done|]. intros q Hq. destruct (decide (q = p)) as [->|Hqp].
    + right. by rewrite upd_eq.
    + destruct (Hc q Hq) as [H|H]; [|right; by rewrite upd_ne].
      simpl in H. apply elem_of_cons in H as [->|H]; [done|by left].
Qed.

(** Assignments of several threads, interleaved in any way. *)
Lemma apply_writes_fill n g (wss : list (list (Z * Z))) ws buf : 0 <= n -> Z.of_nat (length buf) = n -> ws ≡ₚ concat wss ->
  Forall (Forall (agrees n g)) wss -> (forall p, 0 <= p < n -> Exists (fun w => p ∈ w.*1) wss) ->
  apply_writes ws buf = Some (vec n g).
Proof.
  intros Hn Hl Hp Ha Hc. rewrite (vec_of_list buf), Hl. apply apply_writes_vec.
  - rewrite Hp. by apply Forall_concat.
  - intros p Hpn. left. rewrite Hp. destruct (proj1 (Exists_exists _ _) (Hc p Hpn)) as (w & Hw & Hin).
    apply list_elem_of_fmap in Hin as (x & -> & Hx). apply list_elem_of_fmap_2. apply list_elem_of_In, in_concat.
    exists w. by rewrite <- !list_elem_of_In.
Qed.

(** A loop that succeeds in every round. *)
Lemma mapM_all {A B} (f : A -> option B) g l : (forall x, x ∈ l -> f x = Some (g x)) -> mapM f l = Some (g <$> l).
Proof.
  intros H. apply mapM_Some_2. induction l as [|x l IH]; [constructor|]. constructor.
  - apply H. left.
  - apply IH. intros y Hy. apply H. by right.
Qed.

(** Decides the comparisons of a goal. *)
Ltac compare_cases :=
  repeat match goal with
  | |- context [?a <=? ?b] => destruct (Z.leb_spec a b)
  | |- context [?a <? ?b] => destruct (Z.ltb_spec a b)
  | |- context [?a =? ?b] => destruct (Z.eqb_spec a b)
  end; simpl; try lia.

(** ** Counting and bucket order

    [count P l] is the number of elements with [P]; [bucketed idx n l] is [l]
    with the elements of bucket 0 first, then those of bucket 1 and so on, each
    in the order they have in [l]: the abstract result of a bucket sort.  With
    the identity for [idx] it is the sorted list. *)

Fixpoint count (P : Z -> bool) (l : list Z) : Z :=
  match l with [] => 0 | x :: l' => (if P x then 1 else 0) + count P l' end.

Lemma count_app P l l' : count P (l ++ l') = count P l + count P l'.
Proof. induction l as [|x l IH]; [done|]. simpl. rewrite IH. lia. Qed.

Lemma count_nonneg P l : 0 <= count P l.
Proof. induction l as [|x l IH]; simpl; [lia|]. destruct (P x); lia. Qed.

Lemma count_ext P Q l : Forall (fun x => P x = Q x) l -> count P l = count Q l.
Proof. induction 1 as [|x l H _ IH]; [done|]. simpl. by rewrite H, IH. Qed.

Lemma count_perm P l l' : l ≡ₚ l' -> count P l = count P l'.
Proof. induction 1; simpl; lia. Qed.

Lemma count_none P l : Forall (fun x => P x = false) l -> count P l = 0.
Proof. induction 1 as [|x l H _ IH]; [done|]. simpl. rewrite H. lia. Qed.

Lemma count_all P l : Forall (fun x => P x = true) l -> count P l = Z.of_nat (length l).
Proof. induction 1 as [|x l H _ IH]; [done|]. simpl. rewrite H. lia. Qed.

Lemma count_filter P Q l : count P (List.filter Q l) = count (fun x => P x && Q x) l.
Proof. induction l as [|x l IH]; [done|]. simpl. destruct (Q x); simpl; rewrite IH; destruct (P x); simpl; lia. Qed.

Lemma count_length P l : count P l = Z.of_nat (length (List.filter P l)).
Proof. induction l as [|x l IH]; [done|]. simpl. destruct (P x); simpl; lia. Qed.

(** Those below [b] and those at [b] are those below [b + 1]. *)
Lemma count_next (idx : Z -> Z) b l :
  count (fun x => idx x <? b + 1) l = count (fun x => idx x <? b) l + count (fun x => idx x =? b) l.
Proof.
  induction l as [|x l IH]; [done|]. simpl.
  destruct (Z.ltb_spec (idx x) (b + 1)), (Z.ltb_spec (idx x) b), (Z.eqb_spec (idx x) b); lia.
Qed.

(** The [j]-th element with [P]. *)
Lemma count_split P l j : 0 <= j < count P l ->
  exists pre x post, l = pre ++ x :: post /\ P x = true /\ count P pre = j.
Proof.
  revert j. induction l as [|x l IH]; intros j Hj; simpl in Hj; [lia|]. destruct (P x) eqn:E.
  - destruct (decide (j = 0)) as [->|Hne]; [by exists [], x, l|].
    destruct (IH (j - 1)) as (pre & y & post & -> & Hy & Hc); [lia|].
    exists (x :: pre), y, post. simpl. rewrite E. split_and!; [done..|lia].
  - destruct (IH j) as (pre & y & post & -> & Hy & Hc); [lia|].
    exists (x :: pre), y, post. simpl. rewrite E. split_and!; [done..|lia].
Qed.

Lemma filter_prefix P pre x post : P x = true ->
  List.filter P (pre ++ x :: post) !! Z.to_nat (count P pre) = Some x.
Proof.
  intros H. rewrite List.filter_app, lookup_app_r; rewrite count_length, Nat2Z.id; [|done].
  rewrite Nat.sub_diag. simpl. by rewrite H.
Qed.

(** ** Bucket order *)

Section Bucketed.
Context (idx : Z -> Z).

Definition bucket (b : Z) (l : list Z) : list Z := List.filter (fun x => idx x =? b) l.

Definition bucketed (n : Z) (l : list Z) : list Z := concat ((fun b => bucket b l) <$> seqZ 0 n).

(** The elements of the buckets before [b]. *)
Definition before (b : Z) (l : list Z) : Z := count (fun x => idx x <? b) l.
Definition inside (b : Z) (l : list Z) : Z := count (fun x => idx x =? b) l.

Lemma before_next b l : before (b + 1) l = before b l + inside b l.
Proof. apply count_next. Qed.

Lemma bucketed_add n m l : 0 <= n -> 0 <= m ->
  bucketed (n + m) l = bucketed n l ++ concat ((fun b => bucket b l) <$> seqZ n m).
Proof. intros Hn Hm. unfold bucketed. by rewrite seqZ_app, fmap_app, concat_app by done. Qed.

Lemma bucketed_next n l : 0 <= n -> bucketed (n + 1) l = bucketed n l ++ bucket n l.
Proof.
  intros H. rewrite bucketed_add by lia. f_equal. unfold seqZ. simpl. apply app_nil_r.
Qed.

Context (n : Z) (l : list Z) (Hn : 0 <= n) (Hl : Forall (fun x => 0 <= idx x < n) l).

Lemma before_0 : before 0 l = 0.
Proof. apply count_none. eapply Forall_impl; [exact Hl|]. cbn beta. intros x Hx. apply Z.ltb_ge. lia. Qed.

Lemma before_end : before n l = Z.of_nat (length l).
Proof. apply count_all. eapply Forall_impl; [exact Hl|]. cbn beta. intros x Hx. apply Z.ltb_lt. lia. Qed.

Lemma bucketed_length b : 0 <= b -> Z.of_nat (length (bucketed b l)) = before b l.
Proof.
  intros Hb. pattern b. apply natlike_ind; [by rewrite before_0| |done].
  intros k Hk IH. rewrite <- Z.add_1_r, bucketed_next, length_app, Nat2Z.inj_add, IH, before_next by done.
  f_equal. symmetry. apply count_length.
Qed.

Lemma bucketed_length_all : Z.of_nat (length (bucketed n l)) = Z.of_nat (length l).
Proof. rewrite bucketed_length by done. apply before_end. Qed.

Lemma bucket_length b : inside b l = Z.of_nat (length (bucket b l)).
Proof. apply count_length. Qed.

Lemma bucketed_lookup b j : 0 <= b < n -> 0 <= j < inside b l ->
  geti (bucketed n l) (before b l + j) = bucket b l !! Z.to_nat j.
Proof.
  intros Hb Hj. rewrite bucket_length in Hj. pose proof (bucketed_length b ltac:(lia)) as Hlen.
  replace n with (b + 1 + (n - b - 1)) by lia. rewrite bucketed_add, bucketed_next by lia.
  unfold geti. rewrite (proj2 (Z.leb_le _ _)) by lia.
  rewrite <- (assoc_L (++)), lookup_app_r by lia. rewrite lookup_app_l by lia. f_equal. lia.
Qed.

Lemma bucketed_cover p : 0 <= p < Z.of_nat (length l) ->
  exists b j, 0 <= b < n /\ 0 <= j < inside b l /\ p = before b l + j.
Proof.
  rewrite <- before_end. generalize Hn. pattern n at 1 2 3. apply natlike_ind; [|intros k Hk IH|done]; intros Hk' Hp.
  - rewrite before_0 in Hp. lia.
  - rewrite <- Z.add_1_r, before_next in Hp. destruct (decide (p < before k l)).
    + destruct IH as (b & j & ? & ? & ?); [lia..|]. exists b, j. lia.
    + exists k, (p - before k l). lia.
Qed.

(** ** It is a permutation *)

Lemma filter_next b k : List.filter (fun x => idx x <? b + 1) k ≡ₚ List.filter (fun x => idx x <? b) k ++ bucket b k.
Proof.
  unfold bucket. induction k as [|x k IH]; [done|]. simpl.
  destruct (Z.ltb_spec (idx x) (b + 1)), (Z.ltb_spec (idx x) b), (Z.eqb_spec (idx x) b); try lia; simpl.
  - by rewrite IH.
  - by rewrite IH, Permutation_middle.
  - done.
Qed.

Lemma bucketed_filter b : 0 <= b -> bucketed b l ≡ₚ List.filter (fun x => idx x <? b) l.
Proof.
  intros Hb. pattern b. apply natlike_ind; [|intros k Hk IH|done].
  - assert (H : length (List.filter (fun x => idx x <? 0) l) = 0%nat)
      by (apply Nat2Z.inj; rewrite <- count_length; apply before_0).
    by apply nil_length_inv in H as ->.
  - rewrite <- Z.add_1_r, filter_next, bucketed_next, IH by done. done.
Qed.

Lemma bucketed_perm : bucketed n l ≡ₚ l.
Proof.
  rewrite bucketed_filter by done. rewrite List.forallb_filter_id; [done|]. apply forallb_forall. intros x Hx%list_elem_of_In.
  rewrite Forall_forall in Hl. apply Z.ltb_lt. by apply Hl.
Qed.
End Bucketed.

(** Buckets of one value make the list sorted. *)
Lemma bucketed_sorted n l : 0 <= n -> Sorted Z.le (bucketed id n l).
Proof.
  intros Hn. enough (H : StronglySorted Z.le (bucketed id n l) /\ Forall (fun x => x < n) (bucketed id n l))
    by apply StronglySorted_Sorted, H.
  pattern n. apply natlike_ind; [repeat constructor|intros k Hk [IH1 IH2]|done].
  rewrite <- Z.add_1_r, bucketed_next by done.
  assert (Hb : Forall (fun x => x = k) (bucket id k l)).
  { apply Forall_forall. intros x [_ Hx]%list_elem_of_In%filter_In. by apply Z.eqb_eq in Hx. }
  assert (Hs : StronglySorted Z.le (bucket id k l)).
  { induction Hb as [|x m -> Hm IH]; constructor; [done|]. eapply Forall_impl; [exact Hm|]. intros y ->. lia. }
  split.
  - apply StronglySorted_app_2; try done. intros x y Hx Hy. rewrite Forall_forall in IH2, Hb.
    rewrite (Hb y Hy). specialize (IH2 x Hx). lia.
  - apply Forall_app. split; [eapply Forall_impl; [exact IH2|]; simpl; lia|].
    eapply Forall_impl; [exact Hb|]. intros x ->. lia.
Qed.
