(* ===== verification/IntSortRand.v ===== *)
(** * The keys of IS: randlc, find_my_seed and create_seq

    The double precision arithmetic of randlc is exact and computes the
    congruence; a thread jumps to its part of the sequence; and the keys are
    the same for any number of threads. *)

From Stdlib Require Import ZArith Zpow_facts Lia.
From stdpp Require Import base numbers option list.
From S2P Require Import Prelude IntSort IntSortArray.

Local Open Scope Z_scope.

(** ** Exact arithmetic *)

Lemma odd_part_le p : (odd_part p <= p)%positive.
Proof. induction p as [p IH|p IH|]; simpl; lia. Qed.

Lemma representable_small m : 0 <= m < 2 ^ 53 -> representable m = true.
Proof.
  intros H. destruct m as [|p|p]; [done| |lia]. unfold representable. apply Z.ltb_lt.
  pose proof (odd_part_le p). lia.
Qed.

Lemma representable_double m : representable (2 * m) = representable m.
Proof. by destruct m. Qed.

(** A power of two changes only the exponent. *)
Lemma representable_shift e m : 0 <= e -> representable (2 ^ e * m) = representable m.
Proof.
  intros He. pattern e. apply natlike_ind; [by rewrite Z.mul_1_l| |done].
  intros k Hk IH. rewrite Z.pow_succ_r, <- Z.mul_assoc, representable_double by done. done.
Qed.

Lemma exact_small m e : 0 <= m < 2 ^ 53 -> exact m e = Some (D m e).
Proof. intros H. unfold exact. by rewrite representable_small. Qed.

Lemma dmul_small m e m' e' : 0 <= m * m' < 2 ^ 53 -> dmul (D m e) (D m' e') = Some (D (m * m') (e + e')).
Proof. apply exact_small. Qed.

Lemma dmul_int m m' : 0 <= m * m' < 2 ^ 53 -> dmul (D m 0) (D m' 0) = Some (D (m * m') 0).
Proof. apply dmul_small. Qed.

Lemma dmul_frac e m : 0 <= m < 2 ^ 53 -> dmul (D 1 (- e)) (D m 0) = Some (D m (- e)).
Proof. intros H. rewrite dmul_small, Z.mul_1_l, Z.add_0_r by lia. done. Qed.

Lemma dadd_small e m m' : 0 <= m + m' < 2 ^ 53 -> dadd (D m e) (D m' e) = Some (D (m + m') e).
Proof.
  intros H. unfold dadd, align. cbn [mant expo]. rewrite Z.min_id, Z.sub_diag, Z.pow_0_r, !Z.mul_1_r. by apply exact_small.
Qed.

Lemma dsub_small e m m' : 0 <= m - m' < 2 ^ 53 -> dsub (D m e) (D m' e) = Some (D (m - m') e).
Proof.
  intros H. unfold dsub, align. cbn [mant expo]. rewrite Z.min_id, Z.sub_diag, Z.pow_0_r, !Z.mul_1_r. by apply exact_small.
Qed.

(** Conversion to an integer takes the integral part. *)
Lemma to_int_floor w m e : 0 < e -> 0 <= m -> m / 2 ^ e < 2 ^ (w - 1) -> to_int w (D m (- e)) = Some (m / 2 ^ e).
Proof.
  intros He Hm Hw. unfold to_int. cbn [mant expo]. destruct (Z.leb_spec 0 (- e)); [lia|].
  rewrite Z.opp_involutive, Z.quot_div_nonneg by lia.
  assert (0 <= m / 2 ^ e) by (apply Z.div_pos; lia).
  rewrite (proj2 (Z.leb_le _ _)), (proj2 (Z.ltb_lt _ _)) by lia. done.
Qed.

(** ** randlc *)

Lemma randlc_constants_eq : randlc_constants = Some (mkConst (D 1 (-23)) (D 1 (-46)) (D (2 ^ 23) 0) (D (2 ^ 46) 0)).
Proof. reflexivity. Qed.

Notation consts := (mkConst (D 1 (-23)) (D 1 (-46)) (D (2 ^ 23) 0) (D (2 ^ 46) 0)).

Lemma break_up_eq a : 0 <= a < 2 ^ 46 -> break_up consts (D a 0) = Some (D (a / 2 ^ 23) 0, D (a mod 2 ^ 23) 0).
Proof.
  intros Ha. unfold break_up. cbn [R23 T23].
  assert (Hq : 0 <= a / 2 ^ 23 < 2 ^ 23) by (split; [apply Z.div_pos; lia|apply Z.div_lt_upper_bound; lia]).
  pose proof (Z.div_mod a (2 ^ 23)). pose proof (Z.mod_pos_bound a (2 ^ 23)).
  change (-23) with (- (23)). rewrite dmul_frac by lia. cbn [mbind option_bind]. rewrite to_int_floor by lia. cbn [mbind option_bind]. unfold of_int.
  rewrite dmul_int by lia. cbn [mbind option_bind].
  rewrite dsub_small by lia. cbn [mbind option_bind]. repeat f_equal. lia.
Qed.

(** The linear congruential generator. *)
Definition lcg (x a : Z) : Z := (a * x) mod 2 ^ 46.

Lemma lcg_range x a : 0 <= lcg x a < 2 ^ 46.
Proof. apply Z.mod_pos_bound. lia. Qed.

(** The product of two numbers in base [2^23], modulo [2^46]. *)
Lemma lcg_digits a1 a2 x1 x2 :
  lcg (2 ^ 23 * x1 + x2) (2 ^ 23 * a1 + a2) = (2 ^ 23 * ((a1 * x2 + a2 * x1) mod 2 ^ 23) + a2 * x2) mod 2 ^ 46.
Proof.
  unfold lcg. pose proof (Z.div_mod (a1 * x2 + a2 * x1) (2 ^ 23)) as E.
  set (q := (a1 * x2 + a2 * x1) / 2 ^ 23) in *. set (r := (a1 * x2 + a2 * x1) mod 2 ^ 23) in *.
  replace ((2 ^ 23 * a1 + a2) * (2 ^ 23 * x1 + x2))
    with (2 ^ 23 * (a1 * x2 + a2 * x1) + a2 * x2 + a1 * x1 * 2 ^ 46) by (change (2 ^ 46) with (2 ^ 23 * 2 ^ 23); lia).
  rewrite Z.mod_add, E by lia.
  replace (2 ^ 23 * (2 ^ 23 * q + r) + a2 * x2) with (2 ^ 23 * r + a2 * x2 + q * 2 ^ 46)
    by (change (2 ^ 46) with (2 ^ 23 * 2 ^ 23); lia).
  by rewrite Z.mod_add by lia.
Qed.

(** What randlc does with the digits. *)
Lemma randlc_digits a1 a2 x1 x2 (d := 2 ^ 23) : 0 <= a1 < d -> 0 <= a2 < d -> 0 <= x1 < d -> 0 <= x2 < d ->
  let t1 := a1 * x2 + a2 * x1 in
  let t3 := d * (t1 mod d) + a2 * x2 in
  (u ← dmul (D 1 (-23)) (D t1 0); j ← to_int 32 u;
   t ← dmul (D d 0) (of_int j); Zd ← dsub (D t1 0) t;
   v ← dmul (D d 0) Zd; w ← dmul (D a2 0) (D x2 0); T3 ← dadd v w;
   y ← dmul (D 1 (-46)) T3; j ← to_int 32 y;
   z ← dmul (D (2 ^ 46) 0) (of_int j); X' ← dsub T3 z;
   r ← dmul (D 1 (-46)) X';
   Some (X', r)) = Some (D (t3 mod 2 ^ 46) 0, D (t3 mod 2 ^ 46) (-46)).
Proof.
  intros Ha1 Ha2 Hx1 Hx2 t1 t3.
  assert (0 <= a1 * x2 <= (d - 1) * (d - 1)) by nia. assert (0 <= a2 * x1 <= (d - 1) * (d - 1)) by nia.
  assert (Hax : 0 <= a2 * x2 <= (d - 1) * (d - 1)) by nia.
  assert (Ht1 : 0 <= t1 < 2 * (d * d)) by lia. pose proof (Z.mod_pos_bound t1 d ltac:(lia)) as Hm.
  pose proof (Z.div_mod t1 d ltac:(lia)) as Ed.
  assert (Hq : 0 <= t1 / d < 2 * d) by (split; [apply Z.div_pos; lia|apply Z.div_lt_upper_bound; lia]).
  assert (Ht3 : 0 <= t3 < 2 * 2 ^ 46) by (change (2 ^ 46) with (d * d); lia).
  assert (Hq3 : 0 <= t3 / 2 ^ 46 < 2) by (split; [apply Z.div_pos; lia|apply Z.div_lt_upper_bound; lia]).
  pose proof (Z.div_mod t3 (2 ^ 46) ltac:(lia)) as Ed3. pose proof (Z.mod_pos_bound t3 (2 ^ 46) ltac:(lia)) as Hm3.
  clearbody t1. unfold of_int.
  change (-23) with (- (23)). change (-46) with (- (46)).
  rewrite (dmul_frac 23) by lia. cbn [mbind option_bind].
  rewrite to_int_floor by (change (2 ^ 23) with d; lia). cbn [mbind option_bind]. change (2 ^ 23) with d.
  rewrite (dmul_int d) by lia. cbn [mbind option_bind]. rewrite dsub_small by lia. cbn [mbind option_bind].
  replace (t1 - d * (t1 / d)) with (t1 mod d) by lia.
  rewrite (dmul_int d) by lia. cbn [mbind option_bind]. rewrite (dmul_int a2) by lia. cbn [mbind option_bind].
  rewrite dadd_small by lia. cbn [mbind option_bind]. fold t3. clearbody t3.
  rewrite (dmul_frac 46) by lia. cbn [mbind option_bind].
  rewrite to_int_floor by lia. cbn [mbind option_bind].
  rewrite (dmul_int (2 ^ 46)) by lia. cbn [mbind option_bind]. rewrite dsub_small by lia. cbn [mbind option_bind].
  replace (t3 - 2 ^ 46 * (t3 / 2 ^ 46)) with (t3 mod 2 ^ 46) by lia.
  by rewrite (dmul_frac 46) by lia.
Qed.

Lemma randlc_eq x a : 0 <= x < 2 ^ 46 -> 0 <= a < 2 ^ 46 ->
  randlc (D x 0) (D a 0) = Some (D (lcg x a) 0, D (lcg x a) (-46)).
Proof.
  intros Hx Ha. unfold randlc. rewrite randlc_constants_eq. cbn [mbind option_bind].
  rewrite !break_up_eq by done. cbn [mbind option_bind R23 R46 T23 T46].
  assert (0 <= a / 2 ^ 23 < 2 ^ 23) by (split; [apply Z.div_pos; lia|apply Z.div_lt_upper_bound; lia]).
  assert (0 <= x / 2 ^ 23 < 2 ^ 23) by (split; [apply Z.div_pos; lia|apply Z.div_lt_upper_bound; lia]).
  pose proof (Z.mod_pos_bound a (2 ^ 23) ltac:(lia)). pose proof (Z.mod_pos_bound x (2 ^ 23) ltac:(lia)).
  assert (E : lcg x a = lcg (2 ^ 23 * (x / 2 ^ 23) + x mod 2 ^ 23) (2 ^ 23 * (a / 2 ^ 23) + a mod 2 ^ 23))
    by (rewrite <- !Z.div_mod by lia; done).
  rewrite E, lcg_digits.
  rewrite (dmul_int (a / _)), (dmul_int (a mod _) (x / _)) by nia. cbn [mbind option_bind].
  rewrite dadd_small by nia. cbn [mbind option_bind].
  by apply randlc_digits.
Qed.

(** ** find_my_seed *)

(** The generator [n] steps after [x]. *)
Definition jump (x a n : Z) : Z := (a ^ n * x) mod 2 ^ 46.

Lemma jump_range x a n : 0 <= jump x a n < 2 ^ 46.
Proof. apply Z.mod_pos_bound. lia. Qed.

Lemma jump_0 x a : 0 <= x < 2 ^ 46 -> jump x a 0 = x.
Proof. intros H. unfold jump. rewrite Z.pow_0_r, Z.mul_1_l. by apply Z.mod_small. Qed.

Lemma jump_step x a n : 0 <= n -> lcg (jump x a n) a = jump x a (n + 1).
Proof.
  intros H. unfold lcg, jump. rewrite Z.mul_mod_idemp_r, Z.add_1_r, Z.pow_succ_r, Z.mul_assoc by lia. done.
Qed.

Lemma jump_add x a m n : 0 <= m -> 0 <= n -> jump (jump x a m) a n = jump x a (m + n).
Proof.
  intros Hm Hn. unfold jump. rewrite Z.mul_mod_idemp_r, Z.mul_assoc, <- Z.pow_add_r, (Z.add_comm n) by lia. done.
Qed.

Lemma jump_even x a n : 0 <= n -> jump x (lcg a a) n = jump x a (2 * n).
Proof.
  intros H. unfold jump, lcg. rewrite <- Z.mul_mod_idemp_l, <- Zpow_facts.Zpower_mod, Z.mul_mod_idemp_l by lia.
  rewrite Z.pow_mul_l, <- Z.pow_add_r by lia. do 3 f_equal. lia.
Qed.

Lemma jump_odd x a n : 0 < n -> jump (lcg x a) a (n - 1) = jump x a n.
Proof.
  intros H. unfold jump, lcg. rewrite Z.mul_mod_idemp_r, Z.mul_assoc by lia.
  rewrite (Z.mul_comm _ a), <- Z.pow_succ_r by lia. do 3 f_equal. lia.
Qed.

Lemma seed_loop_S fuel kk t1 t2 :
  seed_loop (S fuel) kk t1 t2 =
  (if 1 <? kk then
     let ik := Z.quot kk 2 in
     if 2 * ik =? kk then '(t2, _) ← randlc t2 t2; seed_loop fuel ik t1 t2
     else '(t1, _) ← randlc t1 t2; seed_loop fuel (kk - 1) t1 t2
   else Some (t1, t2)).
Proof. reflexivity. Qed.

(** Two rounds halve the exponent. *)
Lemma seed_loop_eq fuel : forall k kk t1 t2, 1 <= kk < 2 ^ Z.of_nat k -> (2 * k <= fuel)%nat ->
  0 <= t1 < 2 ^ 46 -> 0 <= t2 < 2 ^ 46 ->
  exists t1' t2', seed_loop fuel kk (D t1 0) (D t2 0) = Some (D t1' 0, D t2' 0) /\
    0 <= t1' < 2 ^ 46 /\ 0 <= t2' < 2 ^ 46 /\ lcg t1' t2' = jump t1 t2 kk.
Proof.
  induction fuel as [fuel IH] using lt_wf_ind. intros k kk t1 t2 Hkk Hf Ht1 Ht2.
  destruct k as [|k]; [simpl in Hkk; lia|]. destruct fuel as [|fuel]; [lia|]. rewrite seed_loop_S.
  rewrite Nat2Z.inj_succ, Z.pow_succ_r in Hkk by lia.
  destruct (Z.ltb_spec 1 kk).
  2:{ exists t1, t2. split_and!; try lia; try done. replace kk with 1 by lia. unfold jump, lcg. by rewrite Z.pow_1_r. }
  cbv zeta. rewrite Z.quot_div_nonneg by lia. pose proof (Z.div_mod kk 2). pose proof (Z.mod_pos_bound kk 2).
  destruct (Z.eqb_spec (2 * (kk / 2)) kk) as [He|Ho].
  - rewrite randlc_eq by done. cbn [mbind option_bind].
    destruct (IH fuel ltac:(lia) k (kk / 2) t1 (lcg t2 t2)) as (t1' & t2' & E & ? & ? & Ej); [lia..|done|apply lcg_range|].
    exists t1', t2'. rewrite E, Ej, jump_even, He by lia. done.
  - rewrite randlc_eq by done. cbn [mbind option_bind]. destruct fuel as [|fuel]; [lia|]. rewrite seed_loop_S.
    destruct (Z.ltb_spec 1 (kk - 1)); [|lia]. cbv zeta. rewrite Z.quot_div_nonneg by lia.
    replace ((kk - 1) / 2) with (kk / 2) by (apply (Z.div_unique _ _ _ 0); lia).
    destruct (Z.eqb_spec (2 * (kk / 2)) (kk - 1)); [|lia]. rewrite randlc_eq by done. cbn [mbind option_bind].
    destruct (IH fuel ltac:(lia) k (kk / 2) (lcg t1 t2) (lcg t2 t2)) as (t1' & t2' & E & ? & ? & Ej);
      [lia..|apply lcg_range|apply lcg_range|].
    exists t1', t2'. rewrite E, Ej, jump_even by lia. split_and!; try lia; try done.
    rewrite <- (jump_odd t1 t2 kk) by lia. f_equal. lia.
Qed.

Lemma find_my_seed_eq kn np nn s a (mq := (nn / 4 + np - 1) / np) : 0 <= kn -> 1 <= np -> 4 <= nn -> 4 * mq * kn < 2 ^ 64 ->
  0 <= s < 2 ^ 46 -> 0 <= a < 2 ^ 46 ->
  find_my_seed kn np nn (D s 0) (D a 0) = Some (D (jump s a (4 * mq * kn)) 0).
Proof.
  intros Hkn Hnp Hnn Hb Hs Ha. unfold find_my_seed. destruct (Z.eqb_spec kn 0) as [->|Hk].
  { rewrite Z.mul_0_r, jump_0 by done. done. }
  assert (1 <= nn / 4) by (apply Z.div_le_lower_bound; lia).
  rewrite !(Z.quot_div_nonneg nn) by lia. rewrite Z.quot_div_nonneg by lia. fold mq.
  assert (1 <= mq) by (apply Z.div_le_lower_bound; lia).
  destruct (seed_loop_eq 128 64 (mq * 4 * kn) s a) as (t1 & t2 & E & ? & ? & Ej); [nia|lia|done..|].
  rewrite E. cbn [mbind option_bind]. rewrite randlc_eq by done. cbn [mbind option_bind].
  rewrite Ej. do 3 f_equal. lia.
Qed.

(** ** Keys *)

(** The [i]-th key of the benchmark: the mean of four numbers of the sequence,
    scaled to [0, MAX_KEY). *)
Definition key_of (c : class) (s a i : Z) : Z :=
  (MAX_KEY c / 4 * (jump s a (4 * i + 1) + jump s a (4 * i + 2) + jump s a (4 * i + 3) + jump s a (4 * i + 4))) / 2 ^ 46.

Lemma key_of_range c s a i : 0 <= key_of c s a i < MAX_KEY c.
Proof.
  unfold key_of. pose proof (jump_range s a (4 * i + 1)). pose proof (jump_range s a (4 * i + 2)).
  pose proof (jump_range s a (4 * i + 3)). pose proof (jump_range s a (4 * i + 4)).
  assert (E : MAX_KEY c = 4 * (MAX_KEY c / 4) /\ 0 < MAX_KEY c / 4) by (destruct c; vm_compute; auto).
  destruct E as [E Hp]. split; [apply Z.div_pos; nia|]. rewrite E at 2. apply Z.div_lt_upper_bound; nia.
Qed.

Lemma MAX_KEY_quarter c : Z.quot (MAX_KEY c) 4 = 2 ^ (MAX_KEY_LOG_2 c - 2) /\ MAX_KEY c / 4 = 2 ^ (MAX_KEY_LOG_2 c - 2) /\
  0 <= MAX_KEY_LOG_2 c - 2 /\ MAX_KEY c < 2 ^ (INT_TYPE c - 1).
Proof. destruct c; vm_compute; intuition discriminate. Qed.

Lemma next_key_eq c s a i : 0 <= i -> 0 <= a < 2 ^ 46 ->
  next_key c (Z.quot (MAX_KEY c) 4) (D (jump s a (4 * i)) 0) (D a 0)
    = Some (key_of c s a i, D (jump s a (4 * (i + 1))) 0).
Proof.
  intros Hi Ha. pose proof (key_of_range c s a i) as Hk. unfold key_of in *.
  destruct (MAX_KEY_quarter c) as (Eq & Ed & Hlog & Hw). rewrite Eq, Ed in *. unfold next_key, of_int.
  pose proof (jump_range s a) as Hr.
  pose proof (Hr (4 * i + 1)). pose proof (Hr (4 * i + 2)). pose proof (Hr (4 * i + 3)). pose proof (Hr (4 * i + 4)).
  do 4 (rewrite randlc_eq, jump_step by (done || lia); cbn [mbind option_bind]).
  replace (4 * i + 1 + 1) with (4 * i + 2) by lia. replace (4 * i + 2 + 1) with (4 * i + 3) by lia.
  replace (4 * i + 3 + 1) with (4 * i + 4) by lia.
  rewrite dadd_small by lia. cbn [mbind option_bind]. rewrite dadd_small by lia. cbn [mbind option_bind].
  rewrite dadd_small by lia. cbn [mbind option_bind].
  set (x := jump s a (4 * i + 1) + _ + _ + _) in *.
  unfold dmul, exact. cbn [mant expo]. rewrite representable_shift, representable_small by lia. cbn [mbind option_bind].
  change (0 + -46) with (- (46)). rewrite to_int_floor by lia. cbn [mbind option_bind].
  do 4 f_equal. lia.
Qed.

Lemma keys_loop_eq c s a n : forall i, 0 <= i -> 0 <= a < 2 ^ 46 ->
  keys_loop c n (Z.quot (MAX_KEY c) 4) (D (jump s a (4 * i)) 0) (D a 0) = Some (key_of c s a <$> seqZ i (Z.of_nat n)).
Proof.
  induction n as [|n IH]; intros i Hi Ha; [done|].
  cbn [keys_loop]. rewrite next_key_eq by done. cbn [mbind option_bind]. rewrite IH by lia. cbn [mbind option_bind].
  rewrite (seqZ_cons i) by lia. cbn [fmap list_fmap]. repeat f_equal; lia.
Qed.

(** ** create_seq *)

(** The blocks of the threads: [block_size] keys each, less at the end. *)
Definition block_size (c : class) (np : Z) : Z := (NUM_KEYS c + np - 1) / np.

Lemma NUM_KEYS_bounds c : 2 ^ 16 <= NUM_KEYS c <= 2 ^ 31 /\ NUM_KEYS c + 2 ^ 30 < 2 ^ (INT_TYPE c - 1).
Proof. destruct c; vm_compute; intuition discriminate. Qed.

Lemma int_id c z : 0 <= z < 2 ^ (INT_TYPE c - 1) -> int c z = z.
Proof. intros H. apply wraps_id; [by destruct c|]. unfold in_s. lia. Qed.

Lemma block_size_bounds c np : 1 <= np ->
  1 <= block_size c np /\ NUM_KEYS c <= block_size c np * np <= NUM_KEYS c + np - 1.
Proof.
  intros Hnp. unfold block_size. pose proof (NUM_KEYS_bounds c).
  pose proof (Z.div_mod (NUM_KEYS c + np - 1) np). pose proof (Z.mod_pos_bound (NUM_KEYS c + np - 1) np).
  assert (1 <= (NUM_KEYS c + np - 1) / np) by (apply Z.div_le_lower_bound; lia). lia.
Qed.

Lemma create_block_eq c np t s a : 1 <= np < 2 ^ 30 -> 0 <= t < np -> 0 <= s < 2 ^ 46 -> 0 <= a < 2 ^ 46 ->
  create_block c np t (D s 0) (D a 0) =
    Some (block_size c np * t,
          key_of c s a <$> seqZ (block_size c np * t)
            (Z.max 0 (Z.min (block_size c np * (t + 1)) (NUM_KEYS c) - block_size c np * t))).
Proof.
  intros Hnp Ht Hs Ha. pose proof (NUM_KEYS_bounds c) as [Hk Hw]. pose proof (block_size_bounds c np ltac:(lia)) as [Hb1 Hb].
  assert (block_size c np * t + block_size c np <= block_size c np * np) by nia.
  unfold create_block. rewrite (int_id c (_ - 1)), Z.quot_div_nonneg by lia. fold (block_size c np).
  rewrite (int_id c (_ * t)), int_id by nia. rewrite find_my_seed_eq; try done; try lia.
  - rewrite (Z.mul_comm 4 (NUM_KEYS c)), Z.div_mul by lia. fold (block_size c np). cbn [mbind option_bind].
    rewrite <- Z.mul_assoc, keys_loop_eq by nia. cbn [mbind option_bind].
    do 4 f_equal. lia.
  - rewrite (Z.mul_comm 4 (NUM_KEYS c)), Z.div_mul by lia. fold (block_size c np). nia.
Qed.

Lemma block_writes_agree c s a k1 n : 0 <= k1 -> k1 + n <= NUM_KEYS c ->
  Forall (agrees (NUM_KEYS c) (key_of c s a)) (block_writes (k1, key_of c s a <$> seqZ k1 n)).
Proof.
  intros Hk Hn. apply Forall_forall. intros [p v] H. unfold block_writes in H. simpl in H.
  apply list_elem_of_lookup in H as (i & H). apply lookup_zip_with_Some in H as (x & y & E & Hx & Hy). simplify_eq.
  rewrite list_lookup_fmap in Hy. apply fmap_Some in Hy as (z & Hz & ->).
  apply lookup_seqZ in Hx as [-> ?]. apply lookup_seqZ in Hz as [-> ?]. split; simpl; [lia|done].
Qed.

Lemma block_writes_pos k1 l : (block_writes (k1, l)).*1 = seqZ k1 (Z.of_nat (length l)).
Proof. unfold block_writes. simpl. apply fst_zip. rewrite length_seqZ. lia. Qed.

Lemma create_seq_eq c np interleave s a arr :
  1 <= np < 2 ^ 30 -> (forall l, interleave l ≡ₚ concat l) -> 0 <= s < 2 ^ 46 -> 0 <= a < 2 ^ 46 ->
  Z.of_nat (length arr) = NUM_KEYS c ->
  create_seq c np interleave (D s 0) (D a 0) arr = Some (vec (NUM_KEYS c) (key_of c s a)).
Proof.
  intros Hnp Hi Hs Ha Hl. pose proof (NUM_KEYS_bounds c) as [Hk _]. pose proof (block_size_bounds c np ltac:(lia)) as [Hb1 Hb].
  set (B := block_size c np) in *.
  set (blk t := (B * t, key_of c s a <$> seqZ (B * t) (Z.max 0 (Z.min (B * (t + 1)) (NUM_KEYS c) - B * t)))).
  unfold create_seq. rewrite (mapM_all _ blk).
  2:{ intros t Ht%elem_of_seqZ. apply create_block_eq; lia. }
  cbn [mbind option_bind]. apply (apply_writes_fill _ _ (block_writes <$> (blk <$> seqZ 0 np))); try done; [lia|..].
  - apply Forall_fmap, Forall_fmap, Forall_forall. intros t Ht%elem_of_seqZ. unfold compose, blk. fold B.
    destruct (decide (B * t <= NUM_KEYS c)); [apply block_writes_agree; nia|].
    rewrite Z.max_l by lia. constructor.
  - intros p Hp. apply Exists_exists. exists (block_writes (blk (p / B))).
    pose proof (Z.div_mod p B). pose proof (Z.mod_pos_bound p B).
    assert (0 <= p / B < np) by (split; [apply Z.div_pos; lia|apply Z.div_lt_upper_bound; lia]).
    split; [by apply list_elem_of_fmap_2, list_elem_of_fmap_2, elem_of_seqZ|].
    unfold blk. rewrite block_writes_pos, length_fmap, length_seqZ. apply elem_of_seqZ. nia.
Qed.
