(* ===== verification/IntSortRank.v ===== *)
(** * The ranking of IS: rank and full_verify

    For any division of the keys among the threads, any interleaving of their
    assignments and any order of the buckets, the parallel bucket sort puts the
    keys in bucket order in [key_buff2] and leaves in [key_buff1], for every
    value, the number of keys that are not greater. *)

From Stdlib Require Import ZArith Lia Sorted.
From stdpp Require Import base numbers option list sets.
From S2P Require Import Prelude IntSort IntSortArray.

Local Open Scope Z_scope.

Lemma histogram_vec idx n keys : forall f, Forall (fun k => 0 <= idx k < n) keys ->
  histogram idx keys (vec n f) = Some (vec n (fun i => f i + inside idx i keys)).
Proof.
  induction keys as [|k keys IH]; intros f Hk.
  - simpl. f_equal. apply vec_ext. intros i Hi. unfold inside. simpl. lia.
  - apply Forall_cons in Hk as [Hk Hks]. cbn [histogram]. rewrite geti_vec by done. cbn [mbind option_bind].
    rewrite seti_vec by done. cbn [mbind option_bind]. rewrite IH by done. f_equal. apply vec_ext. intros i Hi.
    unfold upd, inside. simpl. rewrite (Z.eqb_sym (idx k) i). destruct (Z.eqb_spec i (idx k)) as [->|]; lia.
Qed.

(** ** Distribution to the buckets *)

Section Distribution.
Context (shift nb : Z).
Let bk (k : Z) : Z := Z.shiftr k shift.

(** The row of [bucket_size] of a block of keys. *)
Definition sizes (blk : list Z) : list Z := vec nb (fun i => inside bk i blk).

Lemma geti_sizes blk i : 0 <= i < nb -> geti (sizes blk) i = Some (inside bk i blk).
Proof. apply geti_vec. Qed.

Lemma column_sizes blks i : 0 <= i < nb -> column (sizes <$> blks) i = Some (inside bk i (concat blks)).
Proof.
  intros Hi. induction blks as [|b blks IH]; [done|]. cbn [fmap list_fmap column concat].
  rewrite geti_sizes by done. cbn [mbind option_bind]. rewrite IH. cbn [mbind option_bind].
  unfold inside. by rewrite count_app.
Qed.

Context (blocks : list (list Z)).
Let K : list Z := concat blocks.
Context (Hnb : 0 < nb) (HK : Forall (fun k => 0 <= bk k < nb) K).

(** The place of the next key of bucket [b], after the keys [pre]. *)
Definition place (pre : list Z) (b : Z) : Z := before bk b K + inside bk b pre.

Lemma next_ptrs_eq rest pre n : K = concat pre ++ concat rest -> forall i, 1 <= i -> i + Z.of_nat n <= nb ->
  next_ptrs n i (place (concat pre) (i - 1)) (sizes <$> pre) (sizes <$> rest) = Some (place (concat pre) <$> seqZ i (Z.of_nat n)).
Proof.
  intros E. induction n as [|n IH]; intros i Hi Hn; [done|]. cbn [next_ptrs].
  rewrite !column_sizes by lia. cbn [mbind option_bind].
  assert (Ep : place (concat pre) (i - 1) + inside bk i (concat pre) + inside bk (i - 1) (concat rest) = place (concat pre) i).
  { pose proof (before_next bk (i - 1) K) as Hb. replace (i - 1 + 1) with i in Hb by lia.
    assert (inside bk (i - 1) K = inside bk (i - 1) (concat pre) + inside bk (i - 1) (concat rest))
      by (rewrite E; apply count_app).
    unfold place. lia. }
  rewrite Ep. replace (place (concat pre) i) with (place (concat pre) (i + 1 - 1)) at 1 by (f_equal; lia).
  rewrite IH by lia. cbn [mbind option_bind]. rewrite (seqZ_cons i) by lia. cbn [fmap list_fmap]. repeat f_equal; lia.
Qed.

Lemma start_ptrs_eq t : start_ptrs nb t (sizes <$> blocks) = Some (vec nb (place (concat (take t blocks)))).
Proof.
  unfold start_ptrs. rewrite <- fmap_take, <- fmap_drop, column_sizes by lia. cbn [mbind option_bind].
  assert (E0 : inside bk 0 (concat (take t blocks)) = place (concat (take t blocks)) (1 - 1)).
  { unfold place. simpl. by rewrite (before_0 bk nb) by done. }
  rewrite E0, next_ptrs_eq by (lia || by rewrite <- concat_app, take_drop). cbn [mbind option_bind].
  unfold vec. rewrite (seqZ_cons 0 nb) by lia. cbn [fmap list_fmap]. repeat f_equal; lia.
Qed.

(** The assignments for [keys], after [pre]. *)
Fixpoint placing (pre keys : list Z) : list (Z * Z) :=
  match keys with [] => [] | k :: keys' => (place pre (bk k), k) :: placing (pre ++ [k]) keys' end.

Lemma scatter_eq keys : forall pre, Forall (fun k => 0 <= bk k < nb) keys ->
  scatter shift keys (vec nb (place pre)) = Some (placing pre keys, vec nb (place (pre ++ keys))).
Proof.
  induction keys as [|k keys IH]; intros pre Hk; [by rewrite app_nil_r|].
  apply Forall_cons in Hk as [Hk Hks]. cbn [scatter placing]. fold (bk k).
  rewrite geti_vec by done. cbn [mbind option_bind]. rewrite seti_vec by done. cbn [mbind option_bind].
  rewrite (vec_ext _ _ (place (pre ++ [k]))).
  2:{ intros i Hi. unfold upd, place, inside. rewrite count_app. simpl.
      rewrite (Z.eqb_sym (bk k) i). destruct (Z.eqb_spec i (bk k)) as [->|]; lia. }
  rewrite IH by done. cbn [mbind option_bind]. by rewrite <- (assoc_L (++)).
Qed.

Lemma add_later_eq later f n : forall i, 0 <= i -> i + Z.of_nat n <= nb ->
  add_later (sizes <$> later) i (f <$> seqZ i (Z.of_nat n))
    = Some ((fun j => f j + inside bk j (concat later)) <$> seqZ i (Z.of_nat n)).
Proof.
  induction n as [|n IH]; intros i Hi Hn; [done|]. rewrite !(seqZ_cons i) by lia. cbn [fmap list_fmap add_later].
  rewrite column_sizes by lia. cbn [mbind option_bind]. replace (Z.pred (Z.of_nat (S n))) with (Z.of_nat n) by lia.
  replace (Z.succ i) with (i + 1) by lia. by rewrite IH by lia.
Qed.

(** In the end every thread has the ends of the buckets. *)
Lemma distribute_eq t blk : blocks !! t = Some blk ->
  distribute shift nb (sizes <$> blocks) t blk =
    Some (placing (concat (take t blocks)) blk, vec nb (fun b => before bk (b + 1) K)).
Proof.
  intros Ht. pose proof (lookup_lt_Some _ _ _ Ht) as Hlt.
  assert (E : K = (concat (take t blocks) ++ blk) ++ concat (drop (S t) blocks)).
  { unfold K. rewrite <- (take_drop_middle blocks t blk Ht) at 1. rewrite concat_app. simpl. by rewrite (assoc_L (++)). }
  unfold distribute. rewrite start_ptrs_eq. cbn [mbind option_bind]. rewrite scatter_eq.
  2:{ rewrite E in HK. by apply Forall_app in HK as [[_ ?]%Forall_app _]. }
  cbn [mbind option_bind]. rewrite length_fmap. destruct (Nat.ltb_spec t (length blocks - 1)).
  - unfold vec. rewrite <- fmap_drop, <- (Z2Nat.id nb) at 1 by lia. rewrite add_later_eq by lia. cbn [mbind option_bind].
    rewrite Z2Nat.id by lia. do 2 f_equal. apply list_fmap_ext. intros _ b _. unfold place. rewrite before_next.
    enough (inside bk b K = inside bk b (concat (take t blocks) ++ blk) + inside bk b (concat (drop (S t) blocks))) by lia.
    rewrite E at 1. apply count_app.
  - cbn [mbind option_bind]. do 2 f_equal. apply vec_ext. intros b _. unfold place. rewrite before_next. f_equal.
    rewrite drop_ge, app_nil_r in E by lia. by rewrite E at 1.
Qed.

Lemma placing_app keys keys' : forall pre, placing pre (keys ++ keys') = placing pre keys ++ placing (pre ++ keys) keys'.
Proof.
  induction keys as [|k keys IH]; intros pre; simpl; [by rewrite app_nil_r|]. by rewrite IH, <- (assoc_L (++)).
Qed.

(** The assignments of all threads are those of one thread. *)
Lemma placing_concat blks : forall pre,
  concat (imap (fun t b => placing (pre ++ concat (take t blks)) b) blks) = placing pre (concat blks).
Proof.
  induction blks as [|b blks IH]; intros pre; [done|]. rewrite imap_cons. simpl concat. rewrite placing_app, app_nil_r. f_equal.
  rewrite <- IH. f_equal. apply imap_ext. intros t c _. simpl. by rewrite (assoc_L (++)).
Qed.

Lemma placing_elem w keys : forall pre,
  w ∈ placing pre keys <-> exists a k b, keys = a ++ k :: b /\ w = (place (pre ++ a) (bk k), k).
Proof.
  induction keys as [|k keys IH]; intros pre; simpl.
  - rewrite elem_of_nil. split; [done|]. intros ([|??] & ? & ? & ? & _); simplify_eq/=.
  - rewrite elem_of_cons, IH. split.
    + intros [->|(a & k' & b & -> & ->)]; [exists [], k, keys; by rewrite app_nil_r|].
      exists (k :: a), k', b. by rewrite <- (assoc_L (++)).
    + intros ([|k1 a] & k' & b & E & ->); simplify_eq/=; [left; by rewrite app_nil_r|].
      right. exists a, k', b. by rewrite <- (assoc_L (++)).
Qed.

Lemma placing_agrees : Forall (agrees (Z.of_nat (length K)) (at_index (bucketed bk nb K))) (placing [] K).
Proof.
  apply Forall_forall. intros w (a & k & b & E & ->)%placing_elem. simpl. rewrite Forall_forall in HK.
  assert (Hk : 0 <= bk k < nb) by (apply HK; rewrite E; set_solver).
  assert (Hi : inside bk (bk k) a < inside bk (bk k) K).
  { rewrite E. unfold inside. rewrite count_app. simpl. rewrite Z.eqb_refl. pose proof (count_nonneg (fun x => bk x =? bk k) b). lia. }
  pose proof (count_nonneg (fun x => bk x =? bk k) a : 0 <= inside bk (bk k) a) as Ha.
  rewrite <- Forall_forall in HK.
  assert (Hg : geti (bucketed bk nb K) (place a (bk k)) = Some k).
  { unfold place. rewrite bucketed_lookup by (done || lia). rewrite E. apply filter_prefix. apply Z.eqb_refl. }
  split; simpl; [|unfold at_index; by rewrite Hg]. rewrite <- (bucketed_length_all bk nb) by (done || lia).
  unfold geti in Hg. destruct (Z.leb_spec 0 (place a (bk k))); [|done]. apply lookup_lt_Some in Hg. lia.
Qed.

Lemma placing_covers p : 0 <= p < Z.of_nat (length K) -> p ∈ (placing [] K).*1.
Proof.
  intros Hp. destruct (bucketed_cover bk nb K ltac:(lia) HK p Hp) as (b & j & Hb & Hj & ->).
  destruct (count_split (fun x => bk x =? b) K j Hj) as (pre & k & post & E & Hk%Z.eqb_eq & Hc).
  apply list_elem_of_fmap. exists (place pre b, k). split; [unfold place, inside; simpl; lia|].
  apply placing_elem. exists pre, k, post. by rewrite Hk.
Qed.
End Distribution.

(** ** Loops over a bucket *)

Lemma clear_vec N n : forall k f, 0 <= k -> k + Z.of_nat n <= N ->
  clear n k (vec N f) = Some (vec N (fun j => if (k <=? j) && (j <? k + Z.of_nat n) then 0 else f j)).
Proof.
  induction n as [|n IH]; intros k f Hk Hn.
  - simpl. f_equal. apply vec_ext. intros j Hj. compare_cases.
  - cbn [clear]. rewrite seti_vec by lia. cbn [mbind option_bind]. rewrite IH by lia. f_equal. apply vec_ext. intros j Hj. unfold upd.
    compare_cases.
Qed.

Lemma populate_histogram buff2 seg : forall k buf, 0 <= k -> (forall j x, seg !! j = Some x -> geti buff2 (k + Z.of_nat j) = Some x) ->
  populate (length seg) k buff2 buf = histogram id seg buf.
Proof.
  induction seg as [|x seg IH]; intros k buf Hk H; [done|]. cbn [length populate histogram].
  pose proof (H 0%nat x eq_refl) as Hx. rewrite Z.add_0_r in Hx. rewrite Hx. cbn [mbind option_bind]. change (id x) with x.
  destruct (geti buf x) as [v|]; [|done]. cbn [mbind option_bind]. destruct (seti x (v + 1) buf) as [buf'|]; [|done].
  cbn [mbind option_bind]. apply IH; [lia|]. intros j y Hj. specialize (H (S j) y Hj). by replace (k + 1 + Z.of_nat j) with (k + Z.of_nat (S j)) by lia.
Qed.

(** [g] is the running sum. *)
Lemma accumulate_vec N g n : forall k f, 1 <= k -> k + Z.of_nat n <= N -> f (k - 1) = g (k - 1) ->
  (forall j, k <= j < k + Z.of_nat n -> g j = f j + g (j - 1)) ->
  accumulate n k (vec N f) = Some (vec N (fun j => if (k <=? j) && (j <? k + Z.of_nat n) then g j else f j)).
Proof.
  induction n as [|n IH]; intros k f Hk Hn Hg H.
  - simpl. f_equal. apply vec_ext. intros j Hj. compare_cases.
  - cbn [accumulate]. rewrite geti_vec by lia. cbn [mbind option_bind]. rewrite geti_vec by lia. cbn [mbind option_bind].
    rewrite seti_vec by lia. cbn [mbind option_bind]. rewrite IH; [|lia..| |].
    + f_equal. apply vec_ext. intros j Hj. unfold upd. pose proof (H k ltac:(lia)).
      destruct (decide (j = k)) as [->|]; compare_cases.
    + replace (k + 1 - 1) with k by lia. rewrite upd_eq, H, Hg by lia. done.
    + intros j Hj. rewrite upd_ne by lia. apply H. lia.
Qed.

(** ** Ranks *)

Section Ranking.
Context (shift nb : Z) (K : list Z).
Let bk (k : Z) : Z := Z.shiftr k shift.
Let size : Z := Z.shiftl 1 shift.
Context (Hs : 0 <= shift) (Hnb : 0 < nb) (HK : Forall (fun k => 0 <= k < nb * size) K).

(** What [rank] leaves in [key_buff1]: the keys that are not greater. *)
Definition ranks (k : Z) : Z := before id (k + 1) K.

Definition ends : list Z := vec nb (fun b => before bk (b + 1) K).

Lemma size_eq : size = 2 ^ shift.
Proof. unfold size. by rewrite Z.shiftl_1_l. Qed.

Lemma size_pos : 0 < size.
Proof. rewrite size_eq. lia. Qed.

Lemma bk_range k b : bk k = b <-> b * size <= k < (b + 1) * size.
Proof.
  unfold bk. rewrite Z.shiftr_div_pow2, <- size_eq by done. pose proof size_pos.
  pose proof (Z.div_mod k size). pose proof (Z.mod_pos_bound k size). split; [intros <-; nia|].
  intros Hb. symmetry. apply (Z.div_unique _ _ _ (k - b * size)); lia.
Qed.

Lemma bk_lt k b : bk k < b <-> k < b * size.
Proof. pose proof (proj1 (bk_range k (bk k)) eq_refl). pose proof size_pos. nia. Qed.

Lemma keys_bk : Forall (fun k => 0 <= bk k < nb) K.
Proof.
  eapply Forall_impl; [exact HK|]. cbn beta. intros k Hk. rewrite bk_lt. split; [|lia].
  unfold bk. apply Z.shiftr_nonneg. lia.
Qed.

Lemma before_bk b : before bk b K = before id (b * size) K.
Proof.
  apply count_ext, Forall_forall. intros k _. apply eq_iff_eq_true. rewrite !Z.ltb_lt. apply bk_lt.
Qed.

Lemma inside_bucket b k : bk k = b -> inside id k (bucket bk b K) = inside id k K.
Proof.
  intros Hb. unfold inside, bucket. rewrite count_filter. apply count_ext, Forall_forall. intros x _. unfold id.
  destruct (Z.eqb_spec x k) as [->|]; [|done]. rewrite Hb. by rewrite Z.eqb_refl.
Qed.

Lemma inside_other b k : bk k <> b -> inside id k (bucket bk b K) = 0.
Proof.
  intros Hb. apply count_none, Forall_forall. intros x [_ Hx%Z.eqb_eq]%list_elem_of_In%filter_In. unfold id.
  destruct (Z.eqb_spec x k) as [->|]; done.
Qed.

Lemma ranks_next k : ranks k = inside id k K + ranks (k - 1).
Proof. unfold ranks. rewrite before_next. replace (k - 1 + 1) with k by lia. lia. Qed.

(** The keys of a bucket are between the ends of the one before and its own. *)
Lemma bucket_start_eq b : 0 <= b < nb -> bucket_start ends b = Some (before bk b K).
Proof.
  intros Hb. unfold bucket_start. destruct (Z.ltb_spec 0 b).
  - unfold ends. rewrite geti_vec by lia. do 2 f_equal. lia.
  - replace b with 0 by lia. by rewrite (before_0 bk nb) by (done || apply keys_bk).
Qed.

Lemma bucket_cells b j x : 0 <= b < nb -> bucket bk b K !! j = Some x ->
  geti (bucketed bk nb K) (before bk b K + Z.of_nat j) = Some x.
Proof.
  intros Hb Hj. pose proof (lookup_lt_Some _ _ _ Hj). 
  rewrite (bucketed_lookup bk nb K keys_bk) by (rewrite ?bucket_length; lia). by rewrite Nat2Z.id.
Qed.

Lemma bucket_count b : Z.to_nat (before bk (b + 1) K - before bk b K) = length (bucket bk b K).
Proof. rewrite before_next, bucket_length. lia. Qed.

(** The keys before a bucket and the population of its first value. *)
Lemma first_rank b : inside id (b * size) (bucket bk b K) + before bk b K = ranks (b * size).
Proof.
  pose proof size_pos. rewrite inside_bucket by (apply bk_range; nia).
  unfold ranks. rewrite before_next, before_bk. lia.
Qed.

Lemma rank_bucket_eq b f : 0 <= b < nb ->
  rank_bucket size ends (bucketed bk nb K) b (vec (nb * size) f)
    = Some (vec (nb * size) (fun k => if bk k =? b then ranks k else f k)).
Proof.
  intros Hb. pose proof size_pos. unfold rank_bucket.
  assert (b * size + size <= nb * size) by nia.
  rewrite clear_vec by nia. cbn [mbind option_bind]. rewrite bucket_start_eq by done. cbn [mbind option_bind].
  unfold ends. rewrite geti_vec by done. cbn [mbind option_bind]. rewrite bucket_count, populate_histogram.
  2:{ apply count_nonneg. } 2:{ intros j x. by apply bucket_cells. }
  rewrite histogram_vec.
  2:{ apply Forall_forall. intros k [Hk _]%list_elem_of_In%filter_In. apply list_elem_of_In in Hk.
      rewrite Forall_forall in HK. by apply HK. }
  cbn [mbind option_bind]. rewrite geti_vec by nia. cbn [mbind option_bind]. rewrite seti_vec by nia. cbn [mbind option_bind].
  rewrite (accumulate_vec _ ranks); [|nia..| |].
  - f_equal. apply vec_ext. intros k Hk. rewrite !Z2Nat.id by lia. unfold upd. pose proof (bk_range k b).
    destruct (Z.eqb_spec k (b * size)) as [->|]; [pose proof (first_rank b); compare_cases|].
    destruct (Z.eqb_spec (bk k) b) as [Hk1|Hk1]; [compare_cases|rewrite inside_other by done; compare_cases].
  - replace (b * size + 1 - 1) with (b * size) by lia. rewrite upd_eq, <- first_rank. compare_cases.
  - intros k Hk. rewrite Z2Nat.id in Hk by lia. rewrite upd_ne, ranks_next, inside_bucket by (lia || apply bk_range; lia).
    rewrite Z2Nat.id by lia. compare_cases.
Qed.

(** The buckets in any order, each by any thread. *)
Lemma rank_buckets_eq ptrs order : forall f,
  Forall (fun '(b, t) => 0 <= b < nb /\ ptrs !! t = Some ends) order ->
  (forall k, 0 <= k < nb * size -> bk k ∈ order.*1 \/ f k = ranks k) ->
  rank_buckets size ptrs (bucketed bk nb K) order (vec (nb * size) f) = Some (vec (nb * size) ranks).
Proof.
  induction order as [|[b t] order IH]; intros f Ho Hc.
  - simpl. f_equal. apply vec_ext. intros k Hk. destruct (Hc k Hk) as [H|]; [by apply not_elem_of_nil in H|done].
  - apply Forall_cons in Ho as [[Hb Ht] Ho]. cbn [rank_buckets]. rewrite Ht. cbn [mbind option_bind].
    rewrite rank_bucket_eq by done. cbn [mbind option_bind]. apply IH; [done|]. intros k Hk.
    destruct (Z.eqb_spec (bk k) b); [by right|]. destruct (Hc k Hk) as [H|]; [|by right].
    simpl in H. apply elem_of_cons in H as [?|?]; [done|by left].
Qed.

(** ** Sorting by rank *)

(** The ranks after [pre] have been put in place, and the assignments. *)
Definition left_ranks (pre : list Z) (k : Z) : Z := ranks k - inside id k pre.

Fixpoint sorting (pre keys : list Z) : list (Z * Z) :=
  match keys with [] => [] | k :: keys' => (left_ranks pre k - 1, k) :: sorting (pre ++ [k]) keys' end.

Lemma sorting_app keys keys' : forall pre, sorting pre (keys ++ keys') = sorting pre keys ++ sorting (pre ++ keys) keys'.
Proof.
  induction keys as [|k keys IH]; intros pre; simpl; [by rewrite app_nil_r|]. by rewrite IH, <- (assoc_L (++)).
Qed.

Lemma sorting_elem w keys : forall pre,
  w ∈ sorting pre keys <-> exists a k b, keys = a ++ k :: b /\ w = (left_ranks (pre ++ a) k - 1, k).
Proof.
  induction keys as [|k keys IH]; intros pre; simpl.
  - rewrite elem_of_nil. split; [done|]. intros ([|??] & ? & ? & ? & _); simplify_eq/=.
  - rewrite elem_of_cons, IH. split.
    + intros [->|(a & k' & b & -> & ->)]; [exists [], k, keys; by rewrite app_nil_r|].
      exists (k :: a), k', b. by rewrite <- (assoc_L (++)).
    + intros ([|k1 a] & k' & b & E & ->); simplify_eq/=; [left; by rewrite app_nil_r|].
      right. exists a, k', b. by rewrite <- (assoc_L (++)).
Qed.

Lemma sort_bucket_eq N buff2 seg : forall i pre, 0 <= i -> Forall (fun k => 0 <= k < N) seg ->
  (forall j x, seg !! j = Some x -> geti buff2 (i + Z.of_nat j) = Some x) ->
  sort_bucket (length seg) i buff2 (vec N (left_ranks pre)) = Some (sorting pre seg, vec N (left_ranks (pre ++ seg))).
Proof.
  induction seg as [|k seg IH]; intros i pre Hi Hk H; [by rewrite app_nil_r|].
  apply Forall_cons in Hk as [Hk Hks]. cbn [length sort_bucket sorting].
  pose proof (H 0%nat k eq_refl) as Hx. rewrite Z.add_0_r in Hx. rewrite Hx. cbn [mbind option_bind].
  rewrite geti_vec by done. cbn [mbind option_bind]. rewrite seti_vec by done. cbn [mbind option_bind].
  rewrite (vec_ext _ _ (left_ranks (pre ++ [k]))).
  2:{ intros j Hj. unfold upd, left_ranks, inside. rewrite count_app. simpl. unfold id. rewrite (Z.eqb_sym k j).
      destruct (Z.eqb_spec j k) as [->|]; lia. }
  rewrite IH; [|lia|done|].
  - cbn [mbind option_bind]. by rewrite <- (assoc_L (++)).
  - intros j x Hj. specialize (H (S j) x Hj). by replace (i + 1 + Z.of_nat j) with (i + Z.of_nat (S j)) by lia.
Qed.

Lemma bucket_keys b : Forall (fun k => 0 <= k < nb * size) (bucket bk b K).
Proof.
  apply Forall_forall. intros k [Hk _]%list_elem_of_In%filter_In. apply list_elem_of_In in Hk.
  rewrite Forall_forall in HK. by apply HK.
Qed.

Lemma sort_buckets_eq ptrs order : forall pre,
  Forall (fun '(b, t) => 0 <= b < nb /\ ptrs !! t = Some ends) order ->
  let W := concat ((fun b => bucket bk b K) <$> order.*1) in
  exists wss, sort_buckets ptrs (bucketed bk nb K) order (vec (nb * size) (left_ranks pre))
                = Some (wss, vec (nb * size) (left_ranks (pre ++ W))) /\ concat wss = sorting pre W.
Proof.
  induction order as [|[b t] order IH]; intros pre Ho W; [exists []; unfold W; simpl; by rewrite app_nil_r|].
  apply Forall_cons in Ho as [[Hb Ht] Ho]. cbn [sort_buckets]. rewrite Ht. cbn [mbind option_bind].
  rewrite bucket_start_eq by done. cbn [mbind option_bind]. unfold ends. rewrite geti_vec by done. cbn [mbind option_bind].
  rewrite bucket_count, sort_bucket_eq; [|apply count_nonneg|apply bucket_keys|intros j x; by apply bucket_cells].
  cbn [mbind option_bind]. destruct (IH (pre ++ bucket bk b K) Ho) as (wss & E & Hw). rewrite E. cbn [mbind option_bind].
  exists (sorting pre (bucket bk b K) :: wss). unfold W. simpl. rewrite Hw, sorting_app, <- (assoc_L (++)). done.
Qed.

(** The keys in the order in which the buckets come. *)
Section Sorted.
Context (W : list Z) (HW : W ≡ₚ K).
Let MAX : Z := nb * size.

Lemma inside_W k : inside id k W = inside id k K.
Proof. by apply count_perm. Qed.

Lemma sorting_agrees : Forall (agrees (Z.of_nat (length K)) (at_index (bucketed id MAX K))) (sorting [] W).
Proof.
  apply Forall_forall. intros w (a & k & b & E & ->)%sorting_elem. simpl.
  assert (Hk : 0 <= k < MAX) by (rewrite Forall_forall in HK; apply HK; rewrite <- HW, E; set_solver).
  assert (Ei : inside id k K = inside id k a + 1 + inside id k b).
  { rewrite <- inside_W, E. unfold inside. rewrite count_app. simpl. unfold id. rewrite Z.eqb_refl. lia. }
  pose proof (count_nonneg (fun x => id x =? k) a : 0 <= inside id k a) as Ha.
  pose proof (count_nonneg (fun x => id x =? k) b : 0 <= inside id k b) as Hb.
  assert (Hg : geti (bucketed id MAX K) (left_ranks a k - 1) = Some k).
  { unfold left_ranks, ranks. rewrite before_next, Ei.
    replace (before id k K + (inside id k a + 1 + inside id k b) - inside id k a - 1) with (before id k K + inside id k b) by lia.
    rewrite (bucketed_lookup id MAX K HK) by lia.
    assert (Hlt : (Z.to_nat (inside id k b) < length (bucket id k K))%nat) by (apply Nat2Z.inj_lt; rewrite <- bucket_length; lia).
    destruct (lookup_lt_is_Some_2 _ _ Hlt) as [x Hx]. rewrite Hx. apply list_elem_of_lookup_2, list_elem_of_In, filter_In in Hx as [_ Hx].
    by apply Z.eqb_eq in Hx as <-. }
  split; simpl; [|unfold at_index; by rewrite Hg]. rewrite <- (bucketed_length_all id MAX) by (done || lia).
  unfold geti in Hg. destruct (Z.leb_spec 0 (left_ranks a k - 1)); [|done]. apply lookup_lt_Some in Hg. lia.
Qed.

Lemma sorting_covers p : 0 <= p < Z.of_nat (length K) -> p ∈ (sorting [] W).*1.
Proof.
  intros Hp. destruct (bucketed_cover id MAX K ltac:(pose proof size_pos; nia) HK p Hp) as (k & j & Hk & Hj & ->).
  destruct (count_split (fun x => id x =? k) W (inside id k K - 1 - j)) as (pre & x & post & E & Hx%Z.eqb_eq & Hc).
  { fold (inside id k W). rewrite inside_W. lia. }
  unfold id in Hx. subst x. apply list_elem_of_fmap. exists (left_ranks pre k - 1, k).
  split; [|apply sorting_elem; by exists pre, k, post].
  unfold left_ranks, ranks. simpl. rewrite before_next. unfold inside at 2. lia.
Qed.
End Sorted.
End Ranking.

(** ** The parallel region and full_verify *)

(** What OpenMP guarantees: a static schedule gives each of [n] threads a
    contiguous block, all assignments are made, and each bucket is handled once
    by one of the threads. *)
Record schedule_ok (nb : Z) (n : nat) (sc : schedule) : Prop := {
  so_split : forall l, concat (sc_split sc l) = l;
  so_threads : forall l, length (sc_split sc l) = n;
  so_interleave : forall l, sc_interleave sc l ≡ₚ concat l;
  so_order : (sc_order sc).*1 ≡ₚ seqZ 0 nb;
  so_team : Forall (fun t => (t < n)%nat) (sc_order sc).*2
}.

Definition shift_of (c : class) : Z := MAX_KEY_LOG_2 c - NUM_BUCKETS_LOG_2 c.
Definition bucket_of (c : class) (k : Z) : Z := Z.shiftr k (shift_of c).

Lemma MAX_KEY_buckets c : MAX_KEY c = NUM_BUCKETS c * Z.shiftl 1 (shift_of c) /\ 0 <= shift_of c /\ 0 < NUM_BUCKETS c.
Proof. destruct c; vm_compute; intuition discriminate. Qed.

Definition keys_ok (c : class) (keys : list Z) : Prop :=
  Z.of_nat (length keys) = NUM_KEYS c /\ Forall (fun k => 0 <= k < MAX_KEY c) keys.

Lemma keys_ok_range c keys : keys_ok c keys -> Forall (fun k => 0 <= k < NUM_BUCKETS c * Z.shiftl 1 (shift_of c)) keys.
Proof. intros [_ H]. by rewrite <- (proj1 (MAX_KEY_buckets c)). Qed.

Lemma order_buckets c n sc (ptr : list Z) : schedule_ok (NUM_BUCKETS c) n sc ->
  Forall (fun '(b, t) => 0 <= b < NUM_BUCKETS c /\ replicate n ptr !! t = Some ptr) (sc_order sc).
Proof.
  intros [_ _ _ Ho Ht]. apply Forall_forall. intros [b t] H. split.
  - assert (Hb : b ∈ (sc_order sc).*1) by (apply list_elem_of_fmap; by exists (b, t)).
    rewrite Ho in Hb. apply elem_of_seqZ in Hb. lia.
  - apply lookup_replicate_2. rewrite Forall_forall in Ht. apply Ht, list_elem_of_fmap. by exists (b, t).
Qed.

(** The results of the threads. *)
Lemma threads_ends {A} (f : nat -> list Z -> A) (ptr : list Z) blocks :
  snd <$> ((fun '(t, b) => (f t b, ptr)) <$> imap pair blocks) = replicate (length blocks) ptr.
Proof.
  apply list_eq. intros i. rewrite !list_lookup_fmap, list_lookup_imap.
  destruct (blocks !! i) eqn:E; simpl; [symmetry; apply lookup_replicate_2; by eapply lookup_lt_Some|].
  symmetry. apply lookup_ge_None_2. rewrite length_replicate. by apply lookup_ge_None_1.
Qed.

Lemma threads_writes {A} (f : nat -> list Z -> A) (ptr : list Z) blocks :
  fst <$> ((fun '(t, b) => (f t b, ptr)) <$> imap pair blocks) = imap f blocks.
Proof.
  apply list_eq. intros i. rewrite !list_lookup_fmap, !list_lookup_imap. by destruct (blocks !! i).
Qed.

Lemma apply_placing shift nb blocks ws buf (K := concat blocks) : 0 < nb ->
  Forall (fun k => 0 <= Z.shiftr k shift < nb) K -> ws ≡ₚ placing shift blocks [] K -> length buf = length K ->
  apply_writes ws buf = Some (bucketed (fun k => Z.shiftr k shift) nb K).
Proof.
  intros Hnb HK Hp Hl.
  rewrite (vec_of_list (bucketed _ nb K)), bucketed_length_all by (done || lia).
  apply (apply_writes_fill _ _ [placing shift blocks [] K]); [lia|lia|by rewrite Hp; simpl; rewrite app_nil_r|..].
  - apply Forall_singleton. by apply placing_agrees.
  - intros p Hq. left. by apply (placing_covers shift nb).
Qed.

Lemma rank_keys_eq c n sc keys b1 b2 : schedule_ok (NUM_BUCKETS c) n sc -> keys_ok c keys ->
  Z.of_nat (length b1) = MAX_KEY c -> Z.of_nat (length b2) = NUM_KEYS c ->
  rank_keys c sc keys b1 b2 =
    Some (vec (MAX_KEY c) (ranks keys), bucketed (bucket_of c) (NUM_BUCKETS c) keys,
          replicate n (ends (shift_of c) (NUM_BUCKETS c) keys)).
Proof.
  intros Hsc Hk Hb1 Hb2. pose proof (keys_ok_range c keys Hk) as HK. destruct Hk as [Hlen _].
  destruct (MAX_KEY_buckets c) as (EM & Hs & Hnb). pose proof (order_buckets c n sc (ends (shift_of c) (NUM_BUCKETS c) keys) Hsc) as Hord.
  destruct Hsc as [Hsplit Hthr Hint Hord1 _].
  unfold rank_keys. fold (shift_of c). set (blocks := sc_split sc keys).
  assert (Ek : concat blocks = keys) by apply Hsplit.
  pose proof (keys_bk (shift_of c) (NUM_BUCKETS c) keys Hs HK) as Hbk.
  rewrite (mapM_all _ (sizes (shift_of c) (NUM_BUCKETS c))).
  2:{ intros b Hb. rewrite vec_replicate, histogram_vec; [done| |lia].
      apply Forall_forall. intros k Hkb. rewrite Forall_forall in Hbk. apply Hbk. rewrite <- Ek.
      apply list_elem_of_In, in_concat. exists b. by rewrite <- !list_elem_of_In. }
  cbn [mbind option_bind].
  rewrite (mapM_all _ (fun '(t, b) => (placing (shift_of c) blocks (concat (take t blocks)) b, ends (shift_of c) (NUM_BUCKETS c) keys))).
  2:{ intros [t b] (i & Hi)%list_elem_of_lookup. rewrite list_lookup_imap in Hi.
      destruct (blocks !! i) as [b'|] eqn:E; simplify_eq/=. rewrite distribute_eq by (done || by rewrite Ek).
      by rewrite Ek. }
  cbn [mbind option_bind]. rewrite threads_writes, threads_ends, (Hthr keys : length blocks = n).
  rewrite (apply_placing (shift_of c) (NUM_BUCKETS c) blocks).
  - cbn [mbind option_bind]. rewrite Ek, (vec_of_list b1), Hb1, EM.
    rewrite (rank_buckets_eq (shift_of c)); try done. intros k Hk. left. rewrite Hord1. apply elem_of_seqZ.
    pose proof (bk_lt (shift_of c) Hs k (NUM_BUCKETS c)). cbv beta zeta in *.
    pose proof (proj2 (Z.shiftr_nonneg k (shift_of c))). lia.
  - done.
  - by rewrite Ek.
  - rewrite Hint, <- (placing_concat _ _ blocks []). done.
  - rewrite Ek. lia.
Qed.
