(* ===== verification/IntSortMain.v ===== *)
(** * The IS benchmark as a whole

    One iteration, the final sort and the verdict, in terms of the keys
    alone. *)

From Stdlib Require Import ZArith Lia Sorted Uint63.
From stdpp Require Import base numbers option list sets sorting.
From S2P Require Import Prelude IntSort IntSortArray IntSortRand IntSortRank.

Local Open Scope Z_scope.

(** ** One iteration *)

(** The two keys that an iteration changes. *)
Definition plant (c : class) (it : Z) (keys : list Z) : list Z :=
  <[Z.to_nat (it + MAX_ITERATIONS) := MAX_KEY c - it]> (<[Z.to_nat it := it]> keys).

(** A test key is as it should be: it has the right number of smaller keys. *)
Definition test_ok (c : class) (it : Z) (keys : list Z) (i idx r : Z) : bool :=
  let k := at_index keys idx in
  (0 <? k) && (k <=? NUM_KEYS c - 1) && (before id k keys =? expected_rank c it i r).

Fixpoint tests_passed (c : class) (it : Z) (keys : list Z) (i : Z) (idxs rs : list Z) : Z :=
  match idxs, rs with
  | idx :: idxs', r :: rs' => (if test_ok c it keys i idx r then 1 else 0) + tests_passed c it keys (i + 1) idxs' rs'
  | _, _ => 0
  end.

Definition passes (c : class) (it : Z) (keys : list Z) : Z := tests_passed c it keys 0 (test_index_array c) (test_rank_array c).

Lemma geti_lt l i : 0 <= i < Z.of_nat (length l) -> geti l i = Some (at_index l i).
Proof. intros H. rewrite (vec_of_list l) at 1. by apply geti_vec. Qed.

Lemma seti_lt l i v : 0 <= i < Z.of_nat (length l) -> seti i v l = Some (<[Z.to_nat i := v]> l).
Proof.
  intros H. unfold seti. by rewrite (proj2 (Z.leb_le _ _)), (proj2 (Z.ltb_lt _ _)) by lia.
Qed.

Lemma at_index_range c keys i : keys_ok c keys -> 0 <= i < NUM_KEYS c -> 0 <= at_index keys i < MAX_KEY c.
Proof.
  intros [Hl Hk] Hi. rewrite <- Hl in Hi. pose proof (geti_lt keys i Hi) as H. unfold geti in H.
  destruct (Z.leb_spec 0 i); [|done]. rewrite Forall_lookup in Hk. by eapply Hk.
Qed.

Lemma class_bounds c : 20 < NUM_KEYS c /\ 10 < MAX_KEY c /\ Forall (fun i => 0 <= i < NUM_KEYS c) (test_index_array c) /\
  length (test_index_array c) = length (test_rank_array c).
Proof. destruct c; (split; [done|]); (split; [done|]); (split; [|done]); repeat (apply Forall_cons; split; [by vm_compute|]); constructor. Qed.

Lemma plant_ok c it keys : 1 <= it <= MAX_ITERATIONS -> keys_ok c keys -> keys_ok c (plant c it keys).
Proof.
  unfold MAX_ITERATIONS. intros Hit [Hl Hk]. destruct (class_bounds c) as (HN & HM & _). unfold plant. split.
  - by rewrite !length_insert.
  - apply Forall_insert; [apply Forall_insert; [done|lia]|lia].
Qed.

Lemma partial_verify_eq c it keys idxs : forall rs i passed, keys_ok c keys -> Forall (fun j => 0 <= j < NUM_KEYS c) idxs ->
  partial_verify c it (vec (MAX_KEY c) (ranks keys)) i (at_index keys <$> idxs) rs passed
    = Some (passed + tests_passed c it keys i idxs rs).
Proof.
  induction idxs as [|j idxs IH]; intros [|r rs] i passed Hk Hi; simpl; [by rewrite Z.add_0_r..|].
  apply Forall_cons in Hi as [Hj Hi]. pose proof (at_index_range c keys j Hk Hj) as Hr. unfold test_ok.
  destruct ((0 <? at_index keys j) && (at_index keys j <=? NUM_KEYS c - 1)) eqn:E; simpl.
  - apply andb_true_iff in E as [E1%Z.ltb_lt E2]. rewrite geti_vec by lia. cbn [mbind option_bind].
    rewrite IH by done. unfold ranks. replace (at_index keys j - 1 + 1) with (at_index keys j) by lia.
    f_equal. destruct (_ =? _); lia.
  - by rewrite IH by done.
Qed.

(** The state after a call of [rank] for the keys. *)
Definition ranked (c : class) (n : nat) (keys : list Z) (global : bool) (passed : Z) : is_state :=
  mkIs keys (vec (MAX_KEY c) (ranks keys)) (bucketed (bucket_of c) (NUM_BUCKETS c) keys)
       (replicate n (ends (shift_of c) (NUM_BUCKETS c) keys)) global passed.

Definition state_ok (c : class) (s : is_state) : Prop :=
  keys_ok c (key_array s) /\ Z.of_nat (length (key_buff1 s)) = MAX_KEY c /\ Z.of_nat (length (key_buff2 s)) = NUM_KEYS c.

Lemma ranked_ok c n keys g p : keys_ok c keys -> state_ok c (ranked c n keys g p).
Proof.
  intros Hk. destruct (MAX_KEY_buckets c) as (EM & Hs & Hnb). pose proof (proj1 (proj2 (class_bounds c))).
  split_and!; simpl; [done|rewrite vec_length; lia|].
  rewrite bucketed_length_all; [apply Hk|lia|]. apply (keys_bk _ _ _ Hs), keys_ok_range, Hk.
Qed.

Lemma rank_eq c n sc it s : 1 <= it <= MAX_ITERATIONS -> schedule_ok (NUM_BUCKETS c) n sc -> state_ok c s ->
  rank c sc it s =
    Some (ranked c n (plant c it (key_array s)) (key_buff_ptr_global s || (it =? MAX_ITERATIONS))
            (passed_verification s + passes c it (plant c it (key_array s)))).
Proof.
  intros Hit Hsc (Hk & Hb1 & Hb2). pose proof (plant_ok c it _ Hit Hk) as Hp.
  destruct (class_bounds c) as (HN & _ & Hidx & _). unfold rank, MAX_ITERATIONS in *.
  rewrite seti_lt by (rewrite (proj1 Hk); lia). cbn [mbind option_bind].
  rewrite seti_lt by (rewrite length_insert, (proj1 Hk); lia). cbn [mbind option_bind].
  fold MAX_ITERATIONS. fold (plant c it (key_array s)).
  rewrite (mapM_all _ (at_index (plant c it (key_array s)))).
  2:{ intros i Hi. rewrite Forall_forall in Hidx. apply geti_lt. rewrite (proj1 Hp). by apply Hidx. }
  cbn [mbind option_bind]. rewrite (rank_keys_eq c n) by done. cbn [mbind option_bind].
  by rewrite partial_verify_eq by done.
Qed.

(** ** The final sort *)

Lemma out_of_sort_sorted l : Sorted Z.le l -> out_of_sort l = 0.
Proof.
  induction 1 as [|a l Hl IH Ha]; [done|]. simpl. destruct l as [|b l]; [done|]. rewrite IH.
  inversion Ha; subst. destruct (Z.ltb_spec b a); lia.
Qed.

Lemma out_of_sort_0 l : out_of_sort l = 0 -> Sorted Z.le l.
Proof.
  assert (Hn : forall l, 0 <= out_of_sort l).
  { intros m. induction m as [|a m IH]; [done|]. simpl. destruct m as [|b m]; [done|]. destruct (b <? a); lia. }
  induction l as [|a l IH]; [constructor|]. simpl. destruct l as [|b l]; [repeat constructor|].
  specialize (Hn (b :: l)). intros H. destruct (Z.ltb_spec b a); [lia|]. constructor; [apply IH; lia|by constructor].
Qed.

Lemma order_perm c n sc keys : schedule_ok (NUM_BUCKETS c) n sc -> keys_ok c keys ->
  concat ((fun b => bucket (bucket_of c) b keys) <$> (sc_order sc).*1) ≡ₚ keys.
Proof.
  intros Hsc Hk. destruct (MAX_KEY_buckets c) as (EM & Hs & Hnb). etransitivity; [|apply (bucketed_perm (bucket_of c) (NUM_BUCKETS c) keys)].
  - unfold bucketed. rewrite (so_order _ _ _ Hsc). done.
  - lia.
  - by apply (keys_bk _ _ _ Hs), keys_ok_range.
Qed.

Lemma full_verify_eq c n sc keys p : schedule_ok (NUM_BUCKETS c) n sc -> keys_ok c keys ->
  full_verify sc (ranked c n keys true p) =
    Some (mkIs (bucketed id (MAX_KEY c) keys) (vec (MAX_KEY c) (fun k => before id k keys))
            (bucketed (bucket_of c) (NUM_BUCKETS c) keys) (replicate n (ends (shift_of c) (NUM_BUCKETS c) keys)) true (p + 1)).
Proof.
  intros Hsc Hk. destruct (MAX_KEY_buckets c) as (EM & Hs & Hnb). pose proof (keys_ok_range c keys Hk) as HK.
  assert (HM : 0 <= NUM_BUCKETS c * Z.shiftl 1 (shift_of c)) by (rewrite <- EM; pose proof (class_bounds c); lia).
  pose proof (order_perm c n sc keys Hsc Hk) as HW. unfold full_verify, ranked.
  cbn [key_buff_ptr_global bucket_ptrs key_buff2 key_buff1 key_array passed_verification mbind option_bind].
  rewrite (vec_ext _ (ranks keys) (left_ranks keys [])) by (intros k _; unfold left_ranks, inside; simpl; lia). rewrite EM.
  destruct (sort_buckets_eq (shift_of c) (NUM_BUCKETS c) keys Hs HK _ _ [] (order_buckets c n sc _ Hsc)) as (wss & E & Hw).
  unfold bucket_of. cbv beta zeta in E. rewrite E. cbn [mbind option_bind]. rewrite app_nil_l in *.
  set (W := concat _) in *. 
  rewrite (vec_of_list (bucketed id (_ * _) keys)), (bucketed_length_all id) by (done || lia).
  rewrite (apply_writes_fill (Z.of_nat (length keys)) (at_index (bucketed id (NUM_BUCKETS c * Z.shiftl 1 (shift_of c)) keys))
             [sorting keys [] W]); [|lia|done|..].
  - cbn [mbind option_bind]. rewrite <- (bucketed_length_all id (NUM_BUCKETS c * Z.shiftl 1 (shift_of c))), <- vec_of_list by (done || lia).
    rewrite out_of_sort_sorted by (apply bucketed_sorted; lia). simpl. do 2 f_equal.
    apply vec_ext. intros k Hkr. unfold left_ranks, ranks. rewrite before_next.
    rewrite (inside_W keys W HW). lia.
  - simpl. rewrite (so_interleave _ _ _ Hsc), app_nil_r, Hw. done.
  - apply Forall_singleton. by apply sorting_agrees.
  - intros q Hq. left. by apply (sorting_covers (shift_of c) (NUM_BUCKETS c)).
Qed.

(** ** The run *)

(** The keys after [n] iterations from [it] on, and the tests passed in them. *)
Fixpoint planted (c : class) (n : nat) (it : Z) (keys : list Z) : list Z :=
  match n with O => keys | S n' => planted c n' (it + 1) (plant c it keys) end.

Fixpoint all_passes (c : class) (n : nat) (it : Z) (keys : list Z) : Z :=
  match n with O => 0 | S n' => passes c it (plant c it keys) + all_passes c n' (it + 1) (plant c it keys) end.

Lemma iterate_S c sc n it s :
  iterate c sc (S n) it s = (s ← rank c (sc it) it s; iterate c sc n (it + 1) s).
Proof. reflexivity. Qed.

Lemma planted_S c n it keys : planted c (S n) it keys = planted c n (it + 1) (plant c it keys).
Proof. reflexivity. Qed.

Lemma all_passes_S c n it keys :
  all_passes c (S n) it keys = passes c it (plant c it keys) + all_passes c n (it + 1) (plant c it keys).
Proof. reflexivity. Qed.

Lemma iterate_eq c n sc k : forall it s, (forall i, schedule_ok (NUM_BUCKETS c) n (sc i)) -> state_ok c s ->
  1 <= it -> it + Z.of_nat (S k) = MAX_ITERATIONS + 1 ->
  iterate c sc (S k) it s =
    Some (ranked c n (planted c (S k) it (key_array s)) true (passed_verification s + all_passes c (S k) it (key_array s))).
Proof.
  induction k as [|k IH]; intros it s Hsc Hs Hit Hk; rewrite iterate_S, planted_S, all_passes_S;
    rewrite (rank_eq c n) by (done || lia); cbn [mbind option_bind].
  - rewrite (proj2 (Z.eqb_eq it _)), orb_true_r by lia. simpl. repeat f_equal. lia.
  - rewrite (IH (it + 1)); [|done|by apply ranked_ok, plant_ok; [lia|apply Hs]|lia..].
    cbn [ranked key_array passed_verification]. by rewrite Z.add_assoc.
Qed.

(** The keys of the benchmark. *)
Definition benchmark_keys (c : class) : list Z := vec (NUM_KEYS c) (key_of c 314159265 1220703125).

Lemma benchmark_keys_ok c : keys_ok c (benchmark_keys c).
Proof.
  pose proof (NUM_KEYS_bounds c). split; [unfold benchmark_keys; rewrite vec_length; lia|].
  apply Forall_fmap, Forall_forall. intros i _. apply key_of_range.
Qed.

Lemma planted_ok c n : forall it keys, 1 <= it -> it + Z.of_nat n <= MAX_ITERATIONS + 1 -> keys_ok c keys -> keys_ok c (planted c n it keys).
Proof.
  induction n as [|n IH]; intros it keys Hit Hn Hk; [done|]. rewrite planted_S. apply IH; [lia..|].
  apply plant_ok; [lia|done].
Qed.

(** The keys of the last iteration, and the tests passed. *)
Definition last_keys (c : class) : list Z := planted c (Z.to_nat MAX_ITERATIONS) 1 (plant c 1 (benchmark_keys c)).
Definition score (c : class) : Z := all_passes c (Z.to_nat MAX_ITERATIONS) 1 (plant c 1 (benchmark_keys c)).

Lemma last_keys_ok c : keys_ok c (last_keys c).
Proof. apply planted_ok; [done..|]. apply plant_ok; [done|]. apply benchmark_keys_ok. Qed.

Lemma is_main_eq c np interleave sc n : 1 <= np < 2 ^ 30 -> (forall l, interleave l ≡ₚ concat l) ->
  (forall i, schedule_ok (NUM_BUCKETS c) n (sc i)) ->
  is_main c np interleave sc =
    Some (score c =? 5 * MAX_ITERATIONS,
          mkIs (bucketed id (MAX_KEY c) (last_keys c)) (vec (MAX_KEY c) (fun k => before id k (last_keys c)))
            (bucketed (bucket_of c) (NUM_BUCKETS c) (last_keys c)) (replicate n (ends (shift_of c) (NUM_BUCKETS c) (last_keys c)))
            true (score c + 1)).
Proof.
  intros Hnp Hil Hsc. pose proof (NUM_KEYS_bounds c) as [HN _]. destruct (class_bounds c) as (_ & HM & _).
  unfold is_main. rewrite create_seq_eq; try done; [|simpl; rewrite length_replicate; lia].
  cbn [mbind option_bind]. fold (benchmark_keys c).
  rewrite (rank_eq c n); [|done|done|].
  2:{ split_and!; simpl; [apply benchmark_keys_ok|rewrite length_replicate; lia..]. }
  cbn [mbind option_bind]. change (Z.to_nat MAX_ITERATIONS) with (S 9).
  rewrite (iterate_eq c n); [|done| |done..].
  2:{ pose proof (ranked_ok c n (plant c 1 (benchmark_keys c)) false 0) as H. apply H, plant_ok; [done|]. apply benchmark_keys_ok. }
  cbn [mbind option_bind ranked alloc_key_buff key_array passed_verification].
  change (planted c 10 1 (plant c 1 (benchmark_keys c))) with (last_keys c).
  change (all_passes c 10 1 (plant c 1 (benchmark_keys c))) with (score c).
  rewrite full_verify_eq by (done || apply last_keys_ok). cbn [mbind option_bind passed_verification].
  do 2 f_equal. unfold MAX_ITERATIONS. destruct (Z.eqb_spec (score c) (5 * 10)), (Z.eqb_spec (0 + score c + 1) (5 * 10 + 1)); done || lia.
Qed.

(** ** The class S run of IS

    The keys of class S are computed one after the other in machine integers,
    and the ranks of the test keys are those of the benchmark. *)

(** The next number of the sequence, from the low 63 bits of the product. *)
Definition step (a x : PrimInt63.int) : PrimInt63.int := PrimInt63.mod (PrimInt63.mul a x) 0x400000000000.

Fixpoint run_keys (n : nat) (a k x : PrimInt63.int) : list Z :=
  match n with
  | O => []
  | S n' =>
      let x1 := step a x in let x2 := step a x1 in let x3 := step a x2 in let x4 := step a x3 in
      to_Z (PrimInt63.div (PrimInt63.mul k (PrimInt63.add (PrimInt63.add (PrimInt63.add x1 x2) x3) x4)) 0x400000000000)
        :: run_keys n' a k x4
  end.

Lemma step_eq a x : to_Z (step a x) = lcg (to_Z x) (to_Z a).
Proof.
  unfold step, lcg. rewrite mod_spec, mul_spec. change (to_Z 0x400000000000) with (2 ^ 46).
  change wB with (2 ^ 17 * 2 ^ 46). rewrite <- Znumtheory.Zmod_div_mod; [done|lia|lia|]. by exists (2 ^ 17).
Qed.

Lemma to_Z_key k x y : to_Z k * (4 * 2 ^ 46) <= wB -> 0 < to_Z k -> 0 <= y < 4 * 2 ^ 46 -> to_Z x = y ->
  to_Z (PrimInt63.div (PrimInt63.mul k x) 0x400000000000) = (to_Z k * y) / 2 ^ 46.
Proof.
  intros Hk Hk0 Hy <-. rewrite div_spec, mul_spec. change (to_Z 0x400000000000) with (2 ^ 46). rewrite Z.mod_small by nia. done.
Qed.

Lemma run_keys_eq c s a k n : to_Z k = MAX_KEY c / 4 -> to_Z k * (4 * 2 ^ 46) <= wB -> forall i x, 0 <= i ->
  to_Z x = jump s (to_Z a) (4 * i) -> run_keys n a k x = key_of c s (to_Z a) <$> seqZ i (Z.of_nat n).
Proof.
  intros Ek Hk. induction n as [|n IH]; intros i x Hi Hx; [done|]. cbn [run_keys].
  assert (H1 : to_Z (step a x) = jump s (to_Z a) (4 * i + 1)) by (rewrite step_eq, Hx; apply jump_step; lia).
  set (x1 := step a x) in *.
  assert (H2 : to_Z (step a x1) = jump s (to_Z a) (4 * i + 2)) by (rewrite step_eq, H1, jump_step by lia; f_equal; lia).
  set (x2 := step a x1) in *.
  assert (H3 : to_Z (step a x2) = jump s (to_Z a) (4 * i + 3)) by (rewrite step_eq, H2, jump_step by lia; f_equal; lia).
  set (x3 := step a x2) in *.
  assert (H4 : to_Z (step a x3) = jump s (to_Z a) (4 * i + 4)) by (rewrite step_eq, H3, jump_step by lia; f_equal; lia).
  set (x4 := step a x3) in *. pose proof (jump_range s (to_Z a)) as Hr.
  pose proof (Hr (4 * i + 1)). pose proof (Hr (4 * i + 2)). pose proof (Hr (4 * i + 3)). pose proof (Hr (4 * i + 4)).
  rewrite (seqZ_cons i) by lia. cbn [fmap list_fmap]. f_equal.
  - unfold key_of. rewrite <- Ek. apply to_Z_key; [done|rewrite Ek; by destruct c|lia|].
    rewrite !add_spec, H1, H2, H3, H4. change wB with (2 ^ 63). by rewrite (Z.mod_small (jump _ _ _ + jump _ _ _)), (Z.mod_small (_ + jump _ _ (4 * i + 3))), (Z.mod_small (_ + jump _ _ (4 * i + 4))) by lia.
  - rewrite (IH (i + 1) x4) by (lia || rewrite H4; f_equal; lia).
    by replace (Z.pred (Z.of_nat (S n))) with (Z.of_nat n) by lia.
Qed.

Lemma benchmark_keys_run : benchmark_keys CS = run_keys (Z.to_nat (NUM_KEYS CS)) 1220703125 512 314159265.
Proof.
  rewrite (run_keys_eq CS 314159265 1220703125 512 _ eq_refl ltac:(by vm_compute) 0); [done|lia|].
  rewrite jump_0; [done|]. lia.
Qed.

Lemma score_S : score CS = 5 * MAX_ITERATIONS.
Proof. unfold score. rewrite benchmark_keys_run. vm_compute. reflexivity. Qed.
