(* ===== verification/IntSortTheorems.v ===== *)
(** * Properties of the IS benchmark *)

From Stdlib Require Import ZArith Lia Sorted.
From stdpp Require Import base numbers option list sets sorting.
From S2P Require Import Prelude IntSort IntSortArray IntSortRand IntSortRank IntSortMain.

Local Open Scope Z_scope.

(** ** A schedule of two threads *)

(** The threads get halves of the keys and every second bucket; the assignments
    are made in reverse order. *)
Definition two_threads (nb : Z) : schedule :=
  mkSchedule (fun l => [take (length l / 2) l; drop (length l / 2) l]) (fun ws => reverse (concat ws))
    ((fun b => (b, Z.to_nat (b mod 2))) <$> seqZ 0 nb).

Lemma two_threads_ok nb : schedule_ok nb 2 (two_threads nb).
Proof.
  split; simpl.
  - intros l. by rewrite app_nil_r, take_drop.
  - done.
  - intros l. apply reverse_Permutation.
  - rewrite <- list_fmap_compose. by rewrite list_fmap_id.
  - apply Forall_fmap, Forall_fmap, Forall_forall. intros b _. unfold compose. simpl.
    pose proof (Z.mod_pos_bound b 2). lia.
Qed.

Lemma interleave_ok (l : list (list (Z * Z))) : reverse (concat l) ≡ₚ concat l.
Proof. apply reverse_Permutation. Qed.

(** The state in which the first call of [rank] finds the program. *)
Definition before_rank (c : class) : is_state :=
  mkIs (benchmark_keys c) (replicate (Z.to_nat (MAX_KEY c)) 0) (replicate (Z.to_nat (NUM_KEYS c)) 0) [] false 0.

Lemma before_rank_ok c : state_ok c (before_rank c).
Proof.
  pose proof (NUM_KEYS_bounds c). destruct (class_bounds c) as (_ & ? & _).
  split_and!; simpl; [apply benchmark_keys_ok|rewrite length_replicate; lia..].
Qed.

(** ** The random numbers *)

(** randlc, which computes in double precision, computes exactly: for
    integers X and A of 46 bits no operation rounds, no conversion to int
    overflows, X becomes A * X modulo 2^46 and the number returned is X / 2^46. *)
Theorem randlc_correct x a : 0 <= x < 2 ^ 46 -> 0 <= a < 2 ^ 46 ->
  randlc (D x 0) (D a 0) = Some (D ((a * x) mod 2 ^ 46) 0, D ((a * x) mod 2 ^ 46) (-46)).
Proof. apply randlc_eq. Qed.

Lemma randlc_correct_witness :
  0 <= 314159265 < 2 ^ 46 /\ randlc (D 314159265 0) (D 1220703125 0) = Some (D 55909509111989 0, D 55909509111989 (-46)).
Proof. split; [lia|]. apply (randlc_correct 314159265 1220703125); lia. Defined.

(** find_my_seed ends, within 128 rounds for all counts a long can hold, and
    jumps over the numbers of the threads before: with blocks of
    mq = ceil(nn/4 / np) keys of four numbers each it returns the seed after
    4 * mq * kn steps of the generator. *)
Theorem find_my_seed_correct kn np nn s a (mq := (nn / 4 + np - 1) / np) :
  0 <= kn -> 1 <= np -> 4 <= nn -> 4 * mq * kn < 2 ^ 64 -> 0 <= s < 2 ^ 46 -> 0 <= a < 2 ^ 46 ->
  find_my_seed kn np nn (D s 0) (D a 0) = Some (D ((a ^ (4 * mq * kn) * s) mod 2 ^ 46) 0).
Proof. apply find_my_seed_eq. Qed.

Lemma find_my_seed_correct_witness :
  find_my_seed 3 4 64 (D 314159265 0) (D 1220703125 0) = Some (D ((1220703125 ^ 48 * 314159265) mod 2 ^ 46) 0).
Proof. apply (find_my_seed_correct 3 4 64 314159265 1220703125); [lia|lia|lia|vm_compute; reflexivity|lia|lia]. Defined.

(** create_seq makes the same keys for any number of threads and any
    interleaving of their assignments: key i is the sum of the numbers 4i+1 to
    4i+4 of the generator times MAX_KEY / 4, rounded down, and all keys are in
    [0, MAX_KEY). *)
Theorem create_seq_correct c np interleave s a key_array :
  1 <= np < 2 ^ 30 -> (forall l, interleave l ≡ₚ concat l) -> 0 <= s < 2 ^ 46 -> 0 <= a < 2 ^ 46 ->
  Z.of_nat (length key_array) = NUM_KEYS c ->
  exists keys, create_seq c np interleave (D s 0) (D a 0) key_array = Some keys /\ keys_ok c keys /\
    forall i, 0 <= i < NUM_KEYS c ->
      let x j := (a ^ j * s) mod 2 ^ 46 in
      geti keys i = Some ((MAX_KEY c / 4 * (x (4 * i + 1) + x (4 * i + 2) + x (4 * i + 3) + x (4 * i + 4))) / 2 ^ 46).
Proof.
  intros Hnp Hi Hs Ha Hl. exists (vec (NUM_KEYS c) (key_of c s a)). split; [by apply create_seq_eq|].
  pose proof (NUM_KEYS_bounds c). split; [split|].
  - rewrite vec_length. lia.
  - apply Forall_fmap, Forall_forall. intros i _. apply key_of_range.
  - intros i Hr x. by rewrite geti_vec.
Qed.

Lemma create_seq_correct_witness :
  exists keys, create_seq CS 3 (fun ws => reverse (concat ws)) (D 314159265 0) (D 1220703125 0) (replicate (Z.to_nat (NUM_KEYS CS)) 0) = Some keys /\
    geti keys 0 = Some 1585.
Proof.
  destruct (create_seq_correct CS 3 (fun ws => reverse (concat ws)) 314159265 1220703125 (replicate (Z.to_nat (NUM_KEYS CS)) 0))
    as (keys & E & _ & H); [lia|apply interleave_ok|lia|lia|rewrite length_replicate; apply Z2Nat.id; vm_compute; discriminate|].
  exists keys. split; [exact E|]. rewrite (H 0) by (vm_compute; split; [discriminate|reflexivity]). vm_compute. reflexivity.
Defined.

(** ** Ranking *)

Lemma ranks_count keys k : ranks keys k = count (fun x => x <=? k) keys.
Proof. apply count_ext, Forall_forall. intros x _. unfold id. apply eq_iff_eq_true. rewrite Z.ltb_lt, Z.leb_le. lia. Qed.

(** C16: rank, for any division of the keys among threads, any interleaving of
    their assignments and any order of the buckets: no access is outside an
    array; key_buff2 is the keys in the order of their buckets; for every value
    key_buff1 is the number of keys not greater; and passed_verification grows
    by the number of test keys whose number of smaller keys is as expected. *)
Theorem rank_correct c n sc it s :
  1 <= it <= MAX_ITERATIONS -> schedule_ok (NUM_BUCKETS c) n sc -> state_ok c s ->
  exists s', rank c sc it s = Some s' /\ state_ok c s' /\ key_array s' = plant c it (key_array s) /\
    key_buff2 s' = bucketed (bucket_of c) (NUM_BUCKETS c) (key_array s') /\ key_buff2 s' ≡ₚ key_array s' /\
    (forall k, 0 <= k < MAX_KEY c -> geti (key_buff1 s') k = Some (count (fun x => x <=? k) (key_array s'))) /\
    passed_verification s' = passed_verification s + passes c it (key_array s').
Proof.
  intros Hit Hsc Hs. pose proof (plant_ok c it _ Hit (proj1 Hs)) as Hp. destruct (MAX_KEY_buckets c) as (EM & Hsh & Hnb).
  eexists. split; [by apply (rank_eq c n)|]. split_and!; [by apply ranked_ok|done..| | |done].
  - apply bucketed_perm; [lia|]. by apply (keys_bk _ _ _ Hsh), keys_ok_range.
  - intros k Hk. simpl. by rewrite geti_vec, ranks_count by done.
Qed.

Lemma rank_correct_witness :
  exists s, rank CS (two_threads (NUM_BUCKETS CS)) 1 (before_rank CS) = Some s /\ key_buff2 s ≡ₚ key_array s /\
    geti (key_buff1 s) 2047 = Some (count (fun x => x <=? 2047) (key_array s)).
Proof.
  destruct (rank_correct CS 2 (two_threads (NUM_BUCKETS CS)) 1 (before_rank CS)) as (s & E & _ & _ & _ & Hp & Hr & _);
    [vm_compute; split; discriminate|apply two_threads_ok|apply before_rank_ok|].
  exists s. split; [exact E|]. split; [exact Hp|]. apply Hr. vm_compute. split; [discriminate|reflexivity].
Defined.

(** after the last iteration full_verify sorts: key_array becomes a sorted
    permutation of the keys that were ranked, whatever threads take which
    buckets in which order; the keys are found in sort and passed_verification
    is incremented.  The ranks end as the numbers of smaller keys. *)
Theorem full_verify_correct c n sc sc' s :
  schedule_ok (NUM_BUCKETS c) n sc -> schedule_ok (NUM_BUCKETS c) n sc' -> state_ok c s ->
  exists s' s'', rank c sc MAX_ITERATIONS s = Some s' /\ full_verify sc' s' = Some s'' /\
    Sorted Z.le (key_array s'') /\ key_array s'' ≡ₚ key_array s' /\
    passed_verification s'' = passed_verification s' + 1 /\
    (forall k, 0 <= k < MAX_KEY c -> geti (key_buff1 s'') k = Some (count (fun x => x <? k) (key_array s'))).
Proof.
  intros Hsc Hsc' Hs. assert (Hit : 1 <= MAX_ITERATIONS <= MAX_ITERATIONS) by done.
  pose proof (plant_ok c _ _ Hit (proj1 Hs)) as Hp. destruct (class_bounds c) as (_ & HM & _).
  eexists _, _. split; [by apply (rank_eq c n)|]. rewrite orb_true_r. split; [by apply full_verify_eq|]. simpl.
  split_and!; [apply bucketed_sorted; lia|apply bucketed_perm; [lia|apply Hp]|done|].
  intros k Hk. by rewrite geti_vec.
Qed.

Lemma full_verify_correct_witness :
  exists s' s'', rank CS (two_threads (NUM_BUCKETS CS)) MAX_ITERATIONS (before_rank CS) = Some s' /\
    full_verify (two_threads (NUM_BUCKETS CS)) s' = Some s'' /\ Sorted Z.le (key_array s'') /\ key_array s'' ≡ₚ key_array s'.
Proof.
  destruct (full_verify_correct CS 2 (two_threads (NUM_BUCKETS CS)) (two_threads (NUM_BUCKETS CS)) (before_rank CS))
    as (s' & s'' & E & E' & Hsort & Hperm & _ & _); [apply two_threads_ok|apply two_threads_ok|apply before_rank_ok|].
  exists s', s''. split; [exact E|]. split; [exact E'|]. split; [exact Hsort|exact Hperm].
Defined.

(** ** The benchmark *)

(** C19: the whole benchmark, of any class, runs without a fault and its verdict
    and results do not depend on the number of threads, on the schedules or on
    the interleaving: two runs end with the same verdict, the same sorted keys
    and the same ranks, and the run is successful if and only if all test keys
    have the expected ranks in all ten iterations. *)
Theorem is_main_deterministic c np np' interleave interleave' sc sc' n n' :
  1 <= np < 2 ^ 30 -> 1 <= np' < 2 ^ 30 ->
  (forall l, interleave l ≡ₚ concat l) -> (forall l, interleave' l ≡ₚ concat l) ->
  (forall i, schedule_ok (NUM_BUCKETS c) n (sc i)) -> (forall i, schedule_ok (NUM_BUCKETS c) n' (sc' i)) ->
  exists verdict s s', is_main c np interleave sc = Some (verdict, s) /\ is_main c np' interleave' sc' = Some (verdict, s') /\
    key_array s = key_array s' /\ key_buff1 s = key_buff1 s' /\ key_buff2 s = key_buff2 s' /\
    Sorted Z.le (key_array s) /\ (verdict = true <-> score c = 5 * MAX_ITERATIONS).
Proof.
  intros Hnp Hnp' Hi Hi' Hsc Hsc'. destruct (class_bounds c) as (_ & HM & _). eexists _, _, _.
  split; [by apply is_main_eq|]. split; [by apply is_main_eq|]. simpl. split_and!; try done.
  - apply bucketed_sorted. lia.
  - apply Z.eqb_eq.
Qed.

Lemma is_main_deterministic_witness :
  exists verdict s s',
    is_main CA 3 (fun ws => reverse (concat ws)) (fun _ => two_threads (NUM_BUCKETS CA)) = Some (verdict, s) /\
    is_main CA 64 (fun ws => reverse (concat ws)) (fun _ => two_threads (NUM_BUCKETS CA)) = Some (verdict, s') /\
    key_array s = key_array s'.
Proof.
  destruct (is_main_deterministic CA 3 64 (fun ws => reverse (concat ws)) (fun ws => reverse (concat ws))
              (fun _ => two_threads (NUM_BUCKETS CA)) (fun _ => two_threads (NUM_BUCKETS CA)) 2 2)
    as (v & s & s' & E & E' & Ha & _);
    [lia|lia|apply interleave_ok|apply interleave_ok|intros i; apply two_threads_ok|intros i; apply two_threads_ok|].
  exists v, s, s'. split; [exact E|]. split; [exact E'|exact Ha].
Defined.

(** C15: the benchmark of class S always ends with a successful verification:
    with the generator, the keys, the ranking and the published test ranks as
    they are in the source, all 51 tests pass, for any number of threads and
    any schedule. *)
Theorem is_class_S_successful np interleave sc n :
  1 <= np < 2 ^ 30 -> (forall l, interleave l ≡ₚ concat l) -> (forall i, schedule_ok (NUM_BUCKETS CS) n (sc i)) ->
  exists s, is_main CS np interleave sc = Some (true, s) /\ passed_verification s = 51.
Proof.
  intros Hnp Hi Hsc. eexists. rewrite (is_main_eq CS np interleave sc n) by done.
  rewrite score_S. by split.
Qed.

Lemma is_class_S_successful_witness :
  exists s, is_main CS 4 (fun ws => reverse (concat ws)) (fun _ => two_threads (NUM_BUCKETS CS)) = Some (true, s).
Proof.
  destruct (is_class_S_successful 4 (fun ws => reverse (concat ws)) (fun _ => two_threads (NUM_BUCKETS CS)) 2)
    as (s & E & _); [lia|apply interleave_ok|intros i; apply two_threads_ok|].
  exists s. exact E.
Defined.
