(* ===== verification/Rdisc.v ===== *)
(** * Router discovery: iputils-ns/rdisc.c

    A host learns routers from ICMP router advertisements and keeps default
    routes to the best of them in the kernel; with -r the program is a router
    that advertises itself (RDISC_SERVER).  A handler takes the state and
    returns the new one and what it asks of the system, in order: routes,
    packets, a fork, an alarm.

    An IPv4 address is the 32 bit value of its four bytes in memory, read on a
    little-endian host.  [None] is an access outside an array. *)

From Stdlib Require Import ZArith Lia String Ascii.
From stdpp Require Import base numbers option list.
From S2P Require Import Prelude Ping PingPacket.

Local Open Scope list_scope.
Local Open Scope Z_scope.
Local Abbreviation length := List.length.

(** ** Effects *)

Inductive effect :=
  | AddRoute (addr : Z)                              (* rtioctl(addr, SIOCADDRT) *)
  | DelRoute (addr : Z)                              (* rtioctl(addr, SIOCDELRT) *)
  | Sendto (dst : Z) (packet : list Z)
  | SendVia (ifindex : Z) (dst : Z) (packet : list Z)   (* with IP_MULTICAST_IF *)
  | Fork
  | Alarm (seconds : Z)
  | Exit (code : Z).

(** ** The table of routers *)

Definition INELIGIBLE_PREF : Z := - 2 ^ 31.

Record entry := mkEntry {
  router : Z;
  preference : Z;
  remaining_time : Z;
  in_kernel : bool
}.

Definition set_kernel (b : bool) (e : entry) : entry := mkEntry (router e) (preference e) (remaining_time e) b.

Fixpoint find_router (addr : Z) (table : list entry) : option entry :=
  match table with
  | [] => None
  | tp :: next => if router tp =? addr then Some tp else find_router addr next
  end.

(** An assignment through the pointer that [find_router] returned. *)
Fixpoint update_router (addr : Z) (f : entry -> entry) (table : list entry) : list entry :=
  match table with
  | [] => []
  | tp :: next => if router tp =? addr then f tp :: next else tp :: update_router addr f next
  end.

Fixpoint max_loop (table : list entry) (max : Z) : Z :=
  match table with
  | [] => max
  | tp :: next => max_loop next (if max <? preference tp then preference tp else max)
  end.

Definition max_preference (table : list entry) : Z := max_loop table INELIGIBLE_PREF.

(** The loops that put the routers with preference [max] in the kernel, and
    that remove those with a lower one. *)
Fixpoint promote (max : Z) (table : list entry) : list entry * list effect :=
  match table with
  | [] => ([], [])
  | tp :: next =>
      let '(next', es) := promote max next in
      if (preference tp =? max) && negb (in_kernel tp) then (set_kernel true tp :: next', AddRoute (router tp) :: es)
      else (tp :: next', es)
  end.

Fixpoint demote (max : Z) (table : list entry) : list entry * list effect :=
  match table with
  | [] => ([], [])
  | tp :: next =>
      let '(next', es) := demote max next in
      if (preference tp <? max) && in_kernel tp then (set_kernel false tp :: next', DelRoute (router tp) :: es)
      else (tp :: next', es)
  end.

(** The loop of [age_table]: the rest of the table, the routes deleted, and
    whether [recalculate_max] was incremented. *)
Fixpoint age_loop (best : bool) (time max : Z) (table : list entry) : list entry * list effect * bool :=
  match table with
  | [] => ([], [], false)
  | tp :: next =>
      let '(next', es, recalculate_max) := age_loop best time max next in
      let left := remaining_time tp - time in
      if left <=? 0
      then (next', (if in_kernel tp then [DelRoute (router tp)] else []) ++ es,
            (best && (preference tp =? max)) || recalculate_max)
      else (mkEntry (router tp) (preference tp) left (in_kernel tp) :: next', es, recalculate_max)
  end.

Definition age_table (best : bool) (time : Z) (table : list entry) : list entry * list effect :=
  let '(table, es, recalculate_max) := age_loop best time (max_preference table) table in
  if recalculate_max then
    let max := max_preference table in
    if negb (max =? INELIGIBLE_PREF) then let '(table, es') := promote max table in (table, es ++ es') else (table, es)
  else (table, es).

Fixpoint discard_table (table : list entry) : list effect :=
  match table with
  | [] => []
  | tp :: next => (if in_kernel tp then [DelRoute (router tp)] else []) ++ discard_table next
  end.

(** The two tests of [record_router] on the entry [tp] of [addr]. *)
Definition record_route (best : bool) (addr : Z) (table : list entry) : list entry * list effect :=
  match find_router addr table with
  | None => (table, [])
  | Some tp =>
      let '(tp, es) :=
        if negb (in_kernel tp) && (negb best || (preference tp =? max_preference table)) && negb (preference tp =? INELIGIBLE_PREF)
        then (set_kernel true tp, [AddRoute (router tp)]) else (tp, []) in
      let '(tp, es') :=
        if (preference tp =? INELIGIBLE_PREF) && in_kernel tp
        then (set_kernel false tp, [DelRoute (router tp)]) else (tp, []) in
      (update_router addr (fun _ => tp) table, es ++ es')
  end.

(** [mem] is whether malloc finds room for a new entry. *)
Definition record_router (best mem : bool) (addr pref ttl : Z) (table : list entry) : list entry * list effect :=
  let old_max := max_preference table in
  let pref := if ttl <? 4 then INELIGIBLE_PREF else pref in
  let found := find_router addr table in
  let changed_down := match found with Some tp => (pref <? preference tp) && (preference tp =? old_max) | None => false end in
  let changed_up :=
    match found with Some tp => negb changed_down && (preference tp <? pref) | None => old_max <? pref end in
  if negb mem && (match found with None => true | Some _ => false end) then (table, [])
  else
    let table :=
      match found with
      | Some _ => update_router addr (fun tp => mkEntry (router tp) pref ttl (in_kernel tp)) table
      | None => mkEntry addr pref ttl false :: table
      end in
    let '(table, es1) := record_route best addr table in
    let '(table, es2) :=
      if best && changed_down then
        let new_max := max_preference table in
        if negb (new_max =? INELIGIBLE_PREF) then promote new_max table else (table, [])
      else (table, []) in
    let '(table, es3) :=
      if best && (changed_up || changed_down) then demote (max_preference table) table else (table, []) in
    (table, es1 ++ es2 ++ es3).

(** ** Interfaces *)

Record interface := mkIf {
  if_address : Z;        (* Used to identify the interface *)
  if_localaddr : Z;
  if_preference : Z;
  if_flags : Z;
  if_bcastaddr : Z;
  if_remoteaddr : Z;
  if_netmask : Z;
  if_ifindex : Z
}.

Definition IFF_UP : Z := 1.
Definition IFF_BROADCAST : Z := 2.
Definition IFF_LOOPBACK : Z := 8.
Definition IFF_POINTOPOINT : Z := 16.
Definition IFF_MULTICAST : Z := 4096.
Definition IFNAMSIZ : Z := 16.
Definition MAXIFS : nat := 32.
Definition AF_INET : Z := 2.

Definition bit_set (x m : Z) : bool := negb (Z.land x m =? 0).

(** The union [ifr_ifru] of [struct ifreq] after an ioctl has stored flags, an
    index or a [sockaddr]; [ifr_flags] reads its first two bytes. *)
Inductive ifru := Flags (f : Z) | Ivalue (i : Z) | Addr (a : Z).

Definition ifr_flags (u : ifru) : Z :=
  match u with Flags f => f | Ivalue i => s16 i | Addr _ => AF_INET end.

(** What the ioctls answer about one element of the configuration; [None] is a
    failure. *)
Record ifanswer := mkAnswer {
  an_namelen : Z;
  an_family : Z;
  an_addr : Z;
  an_flags : option Z;
  an_index : option Z;
  an_dstaddr : option Z;
  an_netmask : option Z;
  an_brdaddr : option Z
}.

(** The rest of the loop body of [initifs] once the slot is chosen: what the
    slot holds then, and whether the end of the body is reached. *)
Definition fill_interface (r : ifanswer) (flags : Z) (slot : interface) : interface * bool :=
  let slot := mkIf (if_address slot) (an_addr r) (if_preference slot) flags (if_bcastaddr slot) (if_remoteaddr slot)
                0xffffffff (if_ifindex slot) in
  match an_index r with
  | None => (slot, false)
  | Some i =>
      let ifreq := Ivalue i in
      let slot := mkIf (if_address slot) (if_localaddr slot) (if_preference slot) (if_flags slot) (if_bcastaddr slot)
                    (if_remoteaddr slot) (if_netmask slot) i in
      if bit_set (ifr_flags ifreq) IFF_POINTOPOINT then
        match an_dstaddr r with
        | None => (slot, false)
        | Some a =>
            (mkIf a (if_localaddr slot) (if_preference slot) (Z.lor (if_flags slot) IFF_BROADCAST) a a (if_netmask slot)
               (if_ifindex slot), true)
        end
      else
        let slot := mkIf (if_localaddr slot) (if_localaddr slot) (if_preference slot) (if_flags slot) (if_bcastaddr slot)
                      (if_localaddr slot) (if_netmask slot) (if_ifindex slot) in
        match an_netmask r with
        | None => (slot, false)
        | Some m =>
            let ifreq := Addr m in
            let slot := mkIf (if_address slot) (if_localaddr slot) (if_preference slot) (if_flags slot) (if_bcastaddr slot)
                          (if_remoteaddr slot) m (if_ifindex slot) in
            if bit_set (ifr_flags ifreq) IFF_BROADCAST then
              match an_brdaddr r with
              | None => (slot, false)
              | Some b =>
                  (mkIf (if_address slot) (if_localaddr slot) (if_preference slot) (if_flags slot) b (if_remoteaddr slot)
                     (if_netmask slot) (if_ifindex slot), true)
              end
            else (slot, true)
        end
  end.

(** The flags of an element that is not skipped. *)
Definition usable (r : ifanswer) : option Z :=
  if IFNAMSIZ <=? an_namelen r then None
  else
    match an_flags r with
    | None => None
    | Some f =>
        if negb (an_family r =? AF_INET) then None
        else if negb (bit_set f IFF_UP) then None
        else if bit_set f IFF_LOOPBACK then None
        else if negb (bit_set f (Z.lor IFF_MULTICAST (Z.lor IFF_BROADCAST IFF_POINTOPOINT))) then None
        else Some f
    end.

Fixpoint ifconf_loop (rs : list ifanswer) (i : nat) (ifs : list interface) : option (list interface * nat) :=
  match rs with
  | [] => Some (ifs, i)
  | r :: rs' =>
      match usable r with
      | None => ifconf_loop rs' i ifs
      | Some flags =>
          slot ← ifs !! i;
          let '(slot, done) := fill_interface r flags slot in
          ifconf_loop rs' (if done then S i else i) (<[i := slot]> ifs)
      end
  end.

(** The failures of [initifs], with what malloc left in the new array. *)
Inductive ifconf :=
  | NoSocket
  | NoBuffer
  | NoArray
  | NoConf (fresh : list interface)
  | Conf (fresh : list interface) (rs : list ifanswer).

(** [interfaces], empty if NULL, and [num_interfaces]. *)
Definition initifs (conf : ifconf) (ifs : list interface) (num : nat) : option (list interface * nat) :=
  match conf with
  | NoSocket | NoBuffer => Some (ifs, num)
  | NoArray => Some ([], num)
  | NoConf fresh => Some (fresh, num)
  | Conf fresh rs => ifconf_loop rs 0 fresh
  end.

(** The first [num] elements of [interfaces], as the loops read them. *)
Definition the_interfaces (ifs : list interface) (num : nat) : option (list interface) :=
  if (num <=? length ifs)%nat then Some (take num ifs) else None.

Definition is_directly_connected (ifs : list interface) (addr : Z) : bool :=
  existsb (fun i => Z.land addr (if_netmask i) =? Z.land (if_remoteaddr i) (if_netmask i)) ifs.

(** [join]: the indices joined so far, as in [joined], and the ones still to
    come; [ok i] is whether setsockopt succeeds. *)
Fixpoint join_loop (ok : nat -> bool) (ifs : list interface) (i : nat) (joined : list Z) : option (list Z) :=
  match ifs with
  | [] => Some joined
  | f :: ifs' =>
      if existsb (Z.eqb (if_ifindex f)) joined then join_loop ok ifs' (S i) joined
      else if ok i then join_loop ok ifs' (S i) (joined ++ [if_ifindex f]) else None
  end.

(** ** Sending *)

Definition ICMP_ROUTER_ADVERTISEMENT : Z := 9.
Definition ICMP_ROUTER_SOLICITATION : Z := 10.
Definition INADDR_BROADCAST : Z := 0xffffffff.

Definition isbroadcast (addr : Z) : bool := addr =? INADDR_BROADCAST.

(** IN_CLASSD(ntohl(addr)): the first byte is 224 to 239. *)
Definition ismulticast (addr : Z) : bool := Z.land addr 0xf0 =? 0xe0.

Definition rd_in_cksum (addr : list Z) : Z := in_cksum addr 0.

(** Whether the system calls for interface [i] succeed. *)
Record sys := mkSys { sys_setopt : nat -> bool; sys_sent : nat -> bool }.

Definition sendbcastif (packet : list Z) (f : interface) : list effect := [Sendto (if_bcastaddr f) packet].

Definition sendmcastif (y : sys) (packet : list Z) (dst : Z) (i : nat) (f : interface) : list effect * bool :=
  if sys_setopt y i then ([SendVia (if_ifindex f) dst packet], sys_sent y i) else ([], false).

(** The loops of [sendbcast] and [sendmcast], which stop at the first failure. *)
Fixpoint sendbcast (y : sys) (packet : list Z) (i : nat) (ifs : list interface) : list effect :=
  match ifs with
  | [] => []
  | f :: ifs' =>
      if negb (bit_set (if_flags f) (Z.lor IFF_BROADCAST IFF_POINTOPOINT)) then sendbcast y packet (S i) ifs'
      else sendbcastif packet f ++ (if sys_sent y i then sendbcast y packet (S i) ifs' else [])
  end.

Fixpoint sendmcast (y : sys) (packet : list Z) (dst : Z) (i : nat) (ifs : list interface) : list effect :=
  match ifs with
  | [] => []
  | f :: ifs' =>
      if negb (bit_set (if_flags f) (Z.lor IFF_BROADCAST (Z.lor IFF_POINTOPOINT IFF_MULTICAST)))
      then sendmcast y packet dst (S i) ifs'
      else
        let '(es, ok) := sendmcastif y packet dst i f in
        es ++ (if ok then sendmcast y packet dst (S i) ifs' else [])
  end.

(** A header with checksum 0, then with the checksum over the packet. *)
Definition with_cksum (packet : list Z) : list Z :=
  take 2 packet ++ le_bytes 2 (rd_in_cksum packet) ++ drop 4 packet.

Definition solicitation : list Z := with_cksum [ICMP_ROUTER_SOLICITATION; 0; 0; 0; 0; 0; 0; 0].

Definition solicitor (y : sys) (ifs : list interface) (num : nat) (dst : Z) : option (list effect) :=
  if isbroadcast dst then sendbcast y solicitation 0 <$> the_interfaces ifs num
  else if ismulticast dst then sendmcast y solicitation dst 0 <$> the_interfaces ifs num
  else Some [Sendto dst solicitation].

(** One address with two words: the local address as it is in memory, and the
    preference in network order. *)
Definition advertisement (lft : Z) (f : interface) : list Z :=
  with_cksum ([ICMP_ROUTER_ADVERTISEMENT; 0; 0; 0; 1; 2] ++ reverse (le_bytes 2 lft)
                ++ le_bytes 4 (if_localaddr f) ++ reverse (le_bytes 4 (if_preference f))).

Definition advertise_one (y : sys) (dst lft : Z) (i : nat) (f : interface) : list effect :=
  if isbroadcast dst then sendbcastif (advertisement lft f) f
  else if ismulticast dst then fst (sendmcastif y (advertisement lft f) dst i f)
  else if Z.land dst (if_netmask f) =? Z.land (if_address f) (if_netmask f)
       then [Sendto dst (advertisement lft f)] else [].

Definition advertise (y : sys) (ifs : list interface) (num : nat) (dst lft : Z) : option (list effect) :=
  (fun ifs => concat (imap (advertise_one y dst lft) ifs)) <$> the_interfaces ifs num.

(** ** The state *)

(** Set by the command line. *)
Record options := mkOptions {
  best_preference : bool;
  op_trace : bool;
  responder : bool;
  max_adv_int : Z;
  op_preference : Z;
  whereto : Z
}.

Definition min_adv_int (o : options) : Z := Z.quot (max_adv_int o * 3) 4.
Definition lifetime (o : options) : Z := 3 * max_adv_int o.

Record rdisc := mkRdisc {
  solicit : bool;
  forever : bool;
  ntransmitted : Z;
  nreceived : Z;
  table : list entry;
  interfaces : list interface;
  num_interfaces : nat;
  left_until_getifconf : Z;
  left_until_advertise : Z;
  left_until_solicit : Z;
  exited : option Z
}.

Definition set_table (t : list entry) (s : rdisc) : rdisc :=
  mkRdisc (solicit s) (forever s) (ntransmitted s) (nreceived s) t (interfaces s) (num_interfaces s)
    (left_until_getifconf s) (left_until_advertise s) (left_until_solicit s) (exited s).
Definition set_interfaces (x : list interface * nat) (s : rdisc) : rdisc :=
  mkRdisc (solicit s) (forever s) (ntransmitted s) (nreceived s) (table s) (fst x) (snd x)
    (left_until_getifconf s) (left_until_advertise s) (left_until_solicit s) (exited s).
Definition set_left (g a l : Z) (s : rdisc) : rdisc :=
  mkRdisc (solicit s) (forever s) (ntransmitted s) (nreceived s) (table s) (interfaces s) (num_interfaces s) g a l (exited s).
Definition set_counts (sol : bool) (t r : Z) (s : rdisc) : rdisc :=
  mkRdisc sol (forever s) t r (table s) (interfaces s) (num_interfaces s)
    (left_until_getifconf s) (left_until_advertise s) (left_until_solicit s) (exited s).
Definition set_forever (s : rdisc) : rdisc :=
  mkRdisc (solicit s) true (ntransmitted s) (nreceived s) (table s) (interfaces s) (num_interfaces s)
    (left_until_getifconf s) (left_until_advertise s) (left_until_solicit s) (exited s).
Definition set_exited (code : Z) (s : rdisc) : rdisc :=
  mkRdisc (solicit s) (forever s) (ntransmitted s) (nreceived s) (table s) (interfaces s) (num_interfaces s)
    (left_until_getifconf s) (left_until_advertise s) (left_until_solicit s) (Some code).

(** ** The timer *)

Definition TIMER_INTERVAL : Z := 3.
Definition GETIFCONF_TIMER : Z := 30.
Definition MAX_INITIAL_ADVERT_INTERVAL : Z := 16.
Definition MAX_INITIAL_ADVERTISEMENTS : Z := 3.
Definition MAX_SOLICITATIONS : Z := 3.
Definition SOLICITATION_INTERVAL : Z := 3.

(** A random time between two advertisements; [rnd] is what random() returns. *)
Definition next_advertisement (o : options) (rnd : Z) : Z :=
  min_adv_int o + Z.quot ((max_adv_int o - min_adv_int o) * Z.rem rnd 1000) 1000.

Definition timer_send (o : options) (y : sys) (rnd : Z) (s : rdisc) : option (rdisc * list effect) :=
  if responder o && (left_until_advertise s <=? 0) then
    let s := set_counts (solicit s) (ntransmitted s + 1) (nreceived s) s in
    es ← advertise y (interfaces s) (num_interfaces s) (whereto o) (lifetime o);
    Some (set_left (left_until_getifconf s)
            (if ntransmitted s <? MAX_INITIAL_ADVERTISEMENTS then MAX_INITIAL_ADVERT_INTERVAL else next_advertisement o rnd)
            (left_until_solicit s) s, es)
  else if solicit s && (left_until_solicit s <=? 0) then
    let s := set_counts (solicit s) (ntransmitted s + 1) (nreceived s) s in
    es ← solicitor y (interfaces s) (num_interfaces s) (whereto o);
    if ntransmitted s <? MAX_SOLICITATIONS then
      Some (set_left (left_until_getifconf s) (left_until_advertise s) SOLICITATION_INTERVAL s, es)
    else
      let s := set_counts false (ntransmitted s) (nreceived s) s in
      if negb (forever s) && (nreceived s =? 0) then Some (set_exited 5 s, es ++ [Exit 5]) else Some (s, es)
  else Some (s, []).

Definition timer (o : options) (y : sys) (conf : ifconf) (rnd : Z) (s : rdisc) : option (rdisc * list effect) :=
  let s := set_left (left_until_getifconf s - TIMER_INTERVAL) (left_until_advertise s - TIMER_INTERVAL)
             (left_until_solicit s - TIMER_INTERVAL) s in
  s ← (if left_until_getifconf s <? 0
       then (fun x => set_left GETIFCONF_TIMER (left_until_advertise s) (left_until_solicit s) (set_interfaces x s))
              <$> initifs conf (interfaces s) (num_interfaces s)
       else Some s);
  '(s, es) ← timer_send o y rnd s;
  match exited s with
  | Some _ => Some (s, es)
  | None =>
      let '(t, es') := age_table (best_preference o) TIMER_INTERVAL (table s) in
      Some (set_table t s, es ++ es' ++ [Alarm TIMER_INTERVAL])
  end.

(** ** Receiving *)

Definition MAXPACKET : nat := Z.to_nat 4096.

Definition load8 (off : nat) (p : list Z) : option Z := p !! off.
Definition load32_net (off : nat) (p : list Z) : option Z := (fun l => le_value (reverse l)) <$> load off 4 p.

Definition do_fork (o : options) : list effect := if op_trace o then [] else [Fork].

(** The addresses of an advertisement, from number [i] on. *)
Fixpoint record_loop (o : options) (ifs : list interface) (mem : nat -> bool) (icmp : list Z) (wpa lft : Z) (n i : nat)
    (t : list entry) : option (list entry * list effect) :=
  match n with
  | O => Some (t, [])
  | S n' =>
      let off := (8 + i * Z.to_nat wpa * 4)%nat in
      addr ← load32 off icmp;
      pref ← load32_net (off + 4) icmp;
      let '(t, es) :=
        if is_directly_connected ifs addr then record_router (best_preference o) (mem i) addr (s32 pref) lft t else (t, []) in
      '(t, es') ← record_loop o ifs mem icmp wpa lft n' (S i) t;
      Some (t, es ++ es')
  end.

Definition receive_advertisement (o : options) (mem : nat -> bool) (icmp : list Z) (cc : Z) (s : rdisc)
    : option (rdisc * list effect) :=
  pkt ← load 0 (Z.to_nat cc) icmp;
  if negb (rd_in_cksum pkt =? 0) then Some (s, [])
  else
    code ← load8 1 icmp;
    if negb (code =? 0) then Some (s, [])
    else
      num ← load8 4 icmp;
      if num <? 1 then Some (s, [])
      else
        wpa ← load8 5 icmp;
        if wpa <? 2 then Some (s, [])
        else if u32 cc <? 8 + num * wpa * 4 then Some (s, [])
        else
          lft ← load16_net 6 icmp;
          ifs ← the_interfaces (interfaces s) (num_interfaces s);
          '(t, es) ← record_loop o ifs mem icmp wpa lft (Z.to_nat num) 0 (table s);
          let s := set_counts (solicit s) (ntransmitted s) (nreceived s + 1) (set_table t s) in
          Some (if forever s then (s, es) else (set_forever s, es ++ do_fork o ++ [Alarm TIMER_INTERVAL])).

Definition ICMP_MINLEN : Z := 8.
Definition ALL_HOSTS : Z := 0x010000e0.

Definition receive_solicitation (o : options) (y : sys) (rnd : Z) (buf icmp : list Z) (cc : Z) (s : rdisc)
    : option (rdisc * list effect) :=
  pkt ← load 0 (Z.to_nat cc) icmp;
  if negb (rd_in_cksum pkt =? 0) then Some (s, [])
  else
    code ← load8 1 icmp;
    if negb (code =? 0) then Some (s, [])
    else if cc <? ICMP_MINLEN then Some (s, [])
    else
      saddr ← load32 12 buf;
      daddr ← load32 16 buf;
      ifs ← the_interfaces (interfaces s) (num_interfaces s);
      let answer dst s :=
        es ← advertise y (interfaces s) (num_interfaces s) dst (lifetime o);
        Some (set_counts (solicit s) (ntransmitted s + 1) (nreceived s + 1) s, es) in
      if saddr =? 0 then
        answer (if ismulticast daddr then ALL_HOSTS else INADDR_BROADCAST)
          (set_left (left_until_getifconf s) (next_advertisement o rnd) (left_until_solicit s) s)
      else if is_directly_connected ifs saddr then answer saddr s
      else Some (s, []).

(** [buf] is the buffer of [MAXPACKET] bytes, of which [cc] were received. *)
Definition pr_pack (o : options) (y : sys) (mem : nat -> bool) (rnd : Z) (buf : list Z) (cc : Z) (s : rdisc)
    : option (rdisc * list effect) :=
  b0 ← load8 0 buf;
  let hlen := Z.shiftl (Z.land b0 0xf) 2 in
  if cc <? hlen + 8 then Some (s, [])
  else
    let cc := cc - hlen in
    let icmp := drop (Z.to_nat hlen) buf in
    type ← load8 0 icmp;
    if type =? ICMP_ROUTER_ADVERTISEMENT then
      if responder o then Some (s, []) else receive_advertisement o mem icmp cc s
    else if type =? ICMP_ROUTER_SOLICITATION then
      if responder o then receive_solicitation o y rnd buf icmp cc s else Some (s, [])
    else Some (s, []).

(** ** The end *)

Definition finish (o : options) (y : sys) (s : rdisc) : option (rdisc * list effect) :=
  '(s, es) ← (if responder o then
                 es ← advertise y (interfaces s) (num_interfaces s) (whereto o) 0;
                 Some (set_counts (solicit s) (ntransmitted s + 1) (nreceived s) s, es)
               else Some (s, []));
  Some (set_exited 0 s, es ++ [Exit 0]).

Definition graceful_finish (o : options) (y : sys) (s : rdisc) : option (rdisc * list effect) :=
  let es := discard_table (table s) in
  '(s, es') ← finish o y (set_table [] s);
  Some (s, es ++ es').

(** ** The loop of main *)

(** A signal, or a packet; a failed recvfrom changes nothing. *)
Inductive event :=
  | SIGALRM (y : sys) (conf : ifconf) (rnd : Z)
  | SIGHUP (conf : ifconf)
  | SIGTERM (y : sys)
  | SIGINT (y : sys)
  | Received (y : sys) (mem : nat -> bool) (rnd : Z) (buf : list Z) (cc : Z)
  | RecvError.

Definition handle (o : options) (ev : event) (s : rdisc) : option (rdisc * list effect) :=
  match ev with
  | SIGALRM y conf rnd => timer o y conf rnd s
  | SIGHUP conf => x ← initifs conf (interfaces s) (num_interfaces s); Some (set_interfaces x s, [])
  | SIGTERM y => graceful_finish o y s
  | SIGINT y => finish o y s
  | Received y mem rnd buf cc => pr_pack o y mem rnd buf cc s
  | RecvError => Some (s, [])
  end.

Fixpoint run (o : options) (evs : list event) (s : rdisc) : option (rdisc * list effect) :=
  match evs with
  | [] => Some (s, [])
  | ev :: evs' =>
      match exited s with
      | Some _ => Some (s, [])
      | None => '(s, es) ← handle o ev s; '(s, es') ← run o evs' s; Some (s, es ++ es')
      end
  end.

(** [main] after the command line: [init], [join] and the first [timer]. *)
Definition start (sol fore : bool) : rdisc := mkRdisc sol fore 0 0 [] [] 0 0 0 0 None.

Definition init (o : options) (conf : ifconf) (s : rdisc) : option rdisc :=
  '(ifs, n) ← initifs conf (interfaces s) (num_interfaces s);
  Some (set_interfaces
          ((fun f => mkIf (if_address f) (if_localaddr f) (op_preference o) (if_flags f) (if_bcastaddr f)
                       (if_remoteaddr f) (if_netmask f) (if_ifindex f)) <$> ifs, n) s).

Definition rdisc_main (o : options) (sol fore : bool) (recvaddress : Z) (ok : nat -> bool) (conf : ifconf)
    (y : sys) (conf1 : ifconf) (rnd : Z) (evs : list event) : option (rdisc * list effect) :=
  let '(es0, fore) := if negb (sol && negb fore) then (do_fork o, true) else ([], fore) in
  s ← init o conf (start sol fore);
  ifs ← the_interfaces (interfaces s) (num_interfaces s);
  match (if isbroadcast recvaddress then Some [] else join_loop ok ifs 0 []) with
  | None => Some (set_exited 2 s, es0 ++ [Exit 2])
  | Some _ => '(s, es) ← run o (SIGALRM y conf1 rnd :: evs) s; Some (s, es0 ++ es)
  end.

(** ** The command line *)

Record settings := mkSettings {
  st_trace : bool;
  st_solicit : bool;
  st_responder : bool;
  st_best : bool;
  st_forever : bool;
  st_max : Z;
  st_pref : Z
}.

Definition defaults : settings := mkSettings false false false true false 600 0.

(** Exit with a code, or go on. *)
Inductive parsed (A : Type) := Quit (code : Z) | Parsed (a : A).
Arguments Quit {A} code.
Arguments Parsed {A} a.

Section CommandLine.
Context (strtol : string -> Z) (inet_addr : string -> Z).

(** The letters of one argument; [value] is the argument after it.  The boolean
    is whether that one was used, which ends the argument. *)
Fixpoint option_letters (letters : string) (value : option string) (s : settings) : parsed (settings * bool) :=
  match letters with
  | EmptyString => Parsed (s, false)
  | String a rest =>
      if Ascii.eqb a "d" || Ascii.eqb a "v" then option_letters rest value s
      else if Ascii.eqb a "t" then
        option_letters rest value (mkSettings true (st_solicit s) (st_responder s) (st_best s) (st_forever s) (st_max s) (st_pref s))
      else if Ascii.eqb a "s" then
        option_letters rest value (mkSettings (st_trace s) true (st_responder s) (st_best s) (st_forever s) (st_max s) (st_pref s))
      else if Ascii.eqb a "r" then
        option_letters rest value (mkSettings (st_trace s) (st_solicit s) true (st_best s) (st_forever s) (st_max s) (st_pref s))
      else if Ascii.eqb a "a" then
        option_letters rest value (mkSettings (st_trace s) (st_solicit s) (st_responder s) false (st_forever s) (st_max s) (st_pref s))
      else if Ascii.eqb a "b" then
        option_letters rest value (mkSettings (st_trace s) (st_solicit s) (st_responder s) true (st_forever s) (st_max s) (st_pref s))
      else if Ascii.eqb a "f" then
        option_letters rest value (mkSettings (st_trace s) (st_solicit s) (st_responder s) (st_best s) true (st_max s) (st_pref s))
      else if Ascii.eqb a "V" then Quit 0
      else if Ascii.eqb a "T" then
        match value with
        | None => Quit 1
        | Some v =>
            let val := s32 (strtol v) in
            if (val <? 4) || (1800 <? val) then Quit 1
            else Parsed (mkSettings (st_trace s) (st_solicit s) (st_responder s) (st_best s) (st_forever s) val (st_pref s), true)
        end
      else if Ascii.eqb a "p" then
        match value with
        | None => Quit 1
        | Some v =>
            Parsed (mkSettings (st_trace s) (st_solicit s) (st_responder s) (st_best s) (st_forever s) (st_max s)
                      (s32 (strtol v)), true)
        end
      else Quit 1
  end.

Fixpoint option_args (args : list string) (s : settings) : parsed (settings * list string) :=
  match args with
  | [] => Parsed (s, [])
  | String "-" letters :: args' =>
      match option_letters letters (head args') s with
      | Quit code => Quit code
      | Parsed (s, used) =>
          if used then match args' with [] => Parsed (s, []) | _ :: args'' => option_args args'' s end
          else option_args args' s
      end
  | _ => Parsed (s, args)
  end.

(** The two addresses; [mc] is what support_multicast answers. *)
Definition addresses (mc : bool) (s : settings) (av : list string) : parsed (string * string) :=
  let '(sendaddress, argc) :=
    match av with
    | [] => (if mc then (if st_responder s then "224.0.0.1" else "224.0.0.2") else "255.255.255.255", 0%nat)
    | a :: av' => (a, length av')
    end%string in
  let '(recvaddress, argc) :=
    match argc with
    | O => (if mc then (if st_responder s then "224.0.0.2" else "224.0.0.1") else "255.255.255.255", 0%nat)
    | S argc' => (default "" (head av), argc')
    end%string in
  if (argc =? 0)%nat then Parsed (sendaddress, recvaddress) else Quit 1.

(** The options, [solicit] and [forever], and the address to join. *)
Definition command_line (mc : bool) (args : list string) : parsed (options * bool * bool * Z) :=
  match option_args args defaults with
  | Quit code => Quit code
  | Parsed (s, av) =>
      match addresses mc s av with
      | Quit code => Quit code
      | Parsed (sendaddress, recvaddress) =>
          if st_solicit s && st_responder s then Quit 1
          else Parsed (mkOptions (st_best s) (st_trace s) (st_responder s) (st_max s) (st_pref s) (inet_addr sendaddress),
                       st_solicit s, st_forever s, inet_addr recvaddress)
      end
  end.
End CommandLine.
