(* ===== verification/RdiscTable.v ===== *)
(** * The router table of rdisc

    [find_router] is the lookup of a finite map, and every operation on the
    table is described by what it does to it.  [requested] is the set of default
    routes a kernel has that does what it is asked. *)

From Stdlib Require Import ZArith Lia.
From stdpp Require Import base gmap numbers option list sets.
From S2P Require Import Prelude Ping PingPacket Rdisc.

Local Open Scope Z_scope.

Implicit Types t : list entry.
Implicit Types e : entry.

(** ** Lookup *)

Definition table_ok t : Prop := NoDup (router <$> t).

Lemma find_elem r t e : find_router r t = Some e -> e ∈ t /\ router e = r.
Proof.
  induction t as [|x t IH]; simpl; [done|]. destruct (Z.eqb_spec (router x) r) as [<-|].
  - intros [= <-]. split; [left|done].
  - intros [? ?]%IH. split; [by right|done].
Qed.

Lemma find_router_eq r t e : find_router r t = Some e -> router e = r.
Proof. intros H. apply (find_elem r t e H). Qed.

Lemma find_None r t : find_router r t = None <-> r ∉ router <$> t.
Proof.
  induction t as [|x t IH]; simpl; [split; [intros _; apply not_elem_of_nil|done]|].
  rewrite not_elem_of_cons. destruct (Z.eqb_spec (router x) r) as [<-|]; [split; [done|intros [? _]; done]|].
  rewrite IH. split; [intros H; split; [congruence|done]|intros [_ H]; done].
Qed.

Lemma elem_find t e : table_ok t -> e ∈ t -> find_router (router e) t = Some e.
Proof.
  unfold table_ok. induction t as [|x t IH]; [intros _ H; by apply not_elem_of_nil in H|]. simpl.
  rewrite NoDup_cons. intros [Hx Ht] [->|He]%elem_of_cons; [by rewrite Z.eqb_refl|].
  destruct (Z.eqb_spec (router x) (router e)) as [E|]; [|auto].
  destruct Hx. rewrite E. by apply list_elem_of_fmap_2.
Qed.

Lemma find_update a f r t : (forall e, find_router a t = Some e -> router (f e) = a) ->
  find_router r (update_router a f t) = if r =? a then f <$> find_router r t else find_router r t.
Proof.
  induction t as [|x t IH]; intros Hf; simpl in *; [by destruct (r =? a)|].
  destruct (Z.eqb_spec (router x) a) as [Ea|Ha]; simpl.
  - rewrite (Hf x eq_refl), Ea. rewrite (Z.eqb_sym a r). by destruct (Z.eqb_spec r a).
  - rewrite (IH Hf). destruct (Z.eqb_spec (router x) r) as [<-|]; [|done]. by destruct (Z.eqb_spec (router x) a).
Qed.

Lemma update_routers a f t : (forall e, find_router a t = Some e -> router (f e) = a) -> router <$> update_router a f t = router <$> t.
Proof.
  induction t as [|x t IH]; intros Hf; simpl in *; [done|]. destruct (Z.eqb_spec (router x) a) as [Ea|]; simpl; f_equal.
  - by rewrite (Hf x eq_refl).
  - by apply IH.
Qed.

(** ** The greatest preference *)

Lemma max_loop_ge t : forall m, m <= max_loop t m /\ forall e, e ∈ t -> preference e <= max_loop t m.
Proof.
  induction t as [|x t IH]; intros m; simpl; [split; [lia|intros e H; by apply not_elem_of_nil in H]|].
  destruct (IH (if m <? preference x then preference x else m)) as [H1 H2].
  destruct (Z.ltb_spec m (preference x)); (split; [lia|]); intros e [->|He]%elem_of_cons; [lia|auto|lia|auto].
Qed.

Lemma max_loop_attained t : forall m, max_loop t m = m \/ exists e, e ∈ t /\ preference e = max_loop t m.
Proof.
  induction t as [|x t IH]; intros m; simpl; [by left|].
  destruct (IH (if m <? preference x then preference x else m)) as [H|(e & He & H)].
  - destruct (Z.ltb_spec m (preference x)); [right; exists x; split; [left|]; lia|by left].
  - right. exists e. split; [by right|done].
Qed.

Lemma max_ge r t e : find_router r t = Some e -> preference e <= max_preference t.
Proof. intros [He _]%find_elem. by apply max_loop_ge. Qed.

Lemma max_ge_inel t : INELIGIBLE_PREF <= max_preference t.
Proof. apply max_loop_ge. Qed.

Lemma max_attained t : table_ok t ->
  max_preference t = INELIGIBLE_PREF \/ exists r e, find_router r t = Some e /\ preference e = max_preference t.
Proof.
  intros Ht. destruct (max_loop_attained t INELIGIBLE_PREF) as [H|(e & He & H)]; [by left|].
  right. exists (router e), e. split; [by apply elem_find|done].
Qed.

(** The maximum is a property of the lookup. *)
Lemma max_unique t m : table_ok t -> INELIGIBLE_PREF <= m -> (forall r e, find_router r t = Some e -> preference e <= m) ->
  (m = INELIGIBLE_PREF \/ exists r e, find_router r t = Some e /\ preference e = m) -> max_preference t = m.
Proof.
  intros Ht Hm Hge Hat. pose proof (max_ge_inel t).
  destruct (max_attained t Ht) as [E|(r & e & He & E)], Hat as [E'|(r' & e' & He' & E')].
  - lia.
  - pose proof (max_ge _ _ _ He'). lia.
  - pose proof (Hge _ _ He). lia.
  - pose proof (Hge _ _ He). pose proof (max_ge _ _ _ He'). lia.
Qed.

(** ** The loops *)

Lemma promote_fst max t :
  (promote max t).1 = (fun e => if preference e =? max then set_kernel true e else e) <$> t.
Proof.
  induction t as [|x t IH]; [done|]. rewrite fmap_cons, <- IH. cbn [promote]. destruct (promote max t) as [t' es].
  destruct (preference x =? max); simpl; [|done]. by destruct x as [r p l [|]].
Qed.

Lemma demote_fst max t :
  (demote max t).1 = (fun e => if preference e <? max then set_kernel false e else e) <$> t.
Proof.
  induction t as [|x t IH]; [done|]. rewrite fmap_cons, <- IH. cbn [demote]. destruct (demote max t) as [t' es].
  destruct (preference x <? max); simpl; [|done]. by destruct x as [r p l [|]].
Qed.

Lemma find_fmap f r t : (forall e, router (f e) = router e) -> find_router r (f <$> t) = f <$> find_router r t.
Proof.
  intros Hf. induction t as [|x t IH]; [done|]. rewrite fmap_cons. simpl. rewrite Hf. by destruct (router x =? r).
Qed.

Lemma find_promote max r t :
  find_router r (promote max t).1 = (fun e => if preference e =? max then set_kernel true e else e) <$> find_router r t.
Proof. rewrite promote_fst. apply find_fmap. intros e. by destruct (_ =? _). Qed.

Lemma find_demote max r t :
  find_router r (demote max t).1 = (fun e => if preference e <? max then set_kernel false e else e) <$> find_router r t.
Proof. rewrite demote_fst. apply find_fmap. intros e. by destruct (_ <? _). Qed.

Lemma fmap_ok f t : (forall e, router (f e) = router e) -> table_ok t -> table_ok (f <$> t).
Proof.
  intros Hf Ht. unfold table_ok in *. rewrite <- list_fmap_compose.
  by rewrite (list_fmap_ext (router ∘ f) router t) by (intros; simpl; auto).
Qed.

Lemma age_fst best time max t :
  (age_loop best time max t).1.1 =
    omap (fun e => if remaining_time e - time <=? 0 then None
                   else Some (mkEntry (router e) (preference e) (remaining_time e - time) (in_kernel e))) t.
Proof.
  induction t as [|x t IH]; [done|]. cbn [age_loop omap list_omap]. rewrite <- IH.
  destruct (age_loop best time max t) as [[t' es] rc]. by destruct (_ <=? 0).
Qed.

Lemma omap_routers (f : entry -> option entry) t : (forall e e', f e = Some e' -> router e' = router e) ->
  router <$> omap f t `sublist_of` router <$> t.
Proof.
  intros Hf. induction t as [|x t IH]; [done|]. cbn [omap list_omap]. rewrite fmap_cons. destruct (f x) as [y|] eqn:E.
  - rewrite fmap_cons, (Hf x y E). by apply sublist_skip.
  - by apply sublist_cons.
Qed.

Lemma omap_ok (f : entry -> option entry) t : (forall e e', f e = Some e' -> router e' = router e) -> table_ok t -> table_ok (omap f t).
Proof. intros Hf Ht. eapply sublist_NoDup; [|by apply omap_routers]. done. Qed.

Lemma find_omap (f : entry -> option entry) r t : (forall e e', f e = Some e' -> router e' = router e) -> table_ok t ->
  find_router r (omap f t) = find_router r t ≫= f.
Proof.
  intros Hf. induction t as [|x t IH]; [done|]. unfold table_ok. rewrite fmap_cons, NoDup_cons. intros [Hx Ht].
  cbn [omap list_omap find_router]. specialize (IH Ht). destruct (f x) as [y|] eqn:E.
  - cbn [find_router]. rewrite (Hf x y E). destruct (Z.eqb_spec (router x) r); [simpl; by rewrite E|done].
  - destruct (Z.eqb_spec (router x) r) as [<-|]; [|done]. simpl. rewrite E, IH. clear -Hx.
    by rewrite (proj2 (find_None _ _) Hx).
Qed.

Definition aged (time : Z) e : option entry :=
  if remaining_time e - time <=? 0 then None
  else Some (mkEntry (router e) (preference e) (remaining_time e - time) (in_kernel e)).

Lemma aged_router time e e' : aged time e = Some e' -> router e' = router e.
Proof. unfold aged. destruct (_ <=? 0); [done|]. by intros [= <-]. Qed.

Lemma find_age best time max r t : table_ok t ->
  find_router r (age_loop best time max t).1.1 = find_router r t ≫= aged time.
Proof. intros Ht. rewrite age_fst. apply (find_omap (aged time)); [apply aged_router|done]. Qed.

Lemma age_ok best time max t : table_ok t -> table_ok (age_loop best time max t).1.1.
Proof. intros Ht. rewrite age_fst. apply (omap_ok (aged time)); [apply aged_router|done]. Qed.

Lemma age_recalculate best time max t :
  (age_loop best time max t).2 = best && existsb (fun e => (preference e =? max) && (remaining_time e - time <=? 0)) t.
Proof.
  induction t as [|x t IH]; [by destruct best|]. cbn [age_loop existsb]. destruct (age_loop best time max t) as [[t' es] rc].
  simpl in IH. subst rc. destruct best, (remaining_time x - time <=? 0), (preference x =? max); simpl; done.
Qed.

(** ** Routes *)

Definition route (K : gset Z) (ef : effect) : gset Z :=
  match ef with AddRoute a => {[a]} ∪ K | DelRoute a => K ∖ {[a]} | _ => K end.

Definition requested (es : list effect) (K : gset Z) : gset Z := foldl route K es.

Lemma requested_app es es' K : requested (es ++ es') K = requested es' (requested es K).
Proof. apply foldl_app. Qed.

Lemma requested_cons ef es K : requested (ef :: es) K = requested es (route K ef).
Proof. reflexivity. Qed.

Lemma requested_adds l : forall K, requested (AddRoute <$> l) K = list_to_set l ∪ K.
Proof. induction l as [|a l IH]; intros K; [set_solver|]. rewrite fmap_cons, requested_cons, IH. simpl. set_solver. Qed.

Lemma requested_dels l : forall K, requested (DelRoute <$> l) K = K ∖ list_to_set l.
Proof. induction l as [|a l IH]; intros K; [set_solver|]. rewrite fmap_cons, requested_cons, IH. simpl. set_solver. Qed.

Lemma promote_snd max t :
  (promote max t).2 = AddRoute <$> (router <$> List.filter (fun e => (preference e =? max) && negb (in_kernel e)) t).
Proof.
  induction t as [|x t IH]; [done|]. cbn [promote List.filter]. destruct (promote max t) as [t' es]. simpl in IH. subst es.
  by destruct (_ && _).
Qed.

Lemma demote_snd max t :
  (demote max t).2 = DelRoute <$> (router <$> List.filter (fun e => (preference e <? max) && in_kernel e) t).
Proof.
  induction t as [|x t IH]; [done|]. cbn [demote List.filter]. destruct (demote max t) as [t' es]. simpl in IH. subst es.
  by destruct (_ && _).
Qed.

Lemma age_snd best time max t :
  (age_loop best time max t).1.2 = DelRoute <$> (router <$> List.filter (fun e => (remaining_time e - time <=? 0) && in_kernel e) t).
Proof.
  induction t as [|x t IH]; [done|]. cbn [age_loop List.filter]. destruct (age_loop best time max t) as [[t' es] rc]. simpl in IH. subst es.
  destruct (_ <=? 0), (in_kernel x); done.
Qed.

Lemma discard_eq t : discard_table t = DelRoute <$> (router <$> List.filter in_kernel t).
Proof. induction t as [|x t IH]; [done|]. cbn [discard_table List.filter]. rewrite IH. by destruct (in_kernel x). Qed.

(** The routes that the table says are in the kernel. *)
Definition in_routes t (r : Z) : bool := match find_router r t with Some e => in_kernel e | None => false end.

Definition tracks t (K : gset Z) : Prop := forall r, r ∈ K <-> in_routes t r = true.

Lemma filtered_routers (P : entry -> bool) t r : table_ok t ->
  r ∈ router <$> List.filter P t <-> exists e, find_router r t = Some e /\ P e = true.
Proof.
  intros Ht. rewrite list_elem_of_fmap. split.
  - intros (e & -> & [He HP]%list_elem_of_In%filter_In). exists e. split; [|done]. apply elem_find; [done|by apply list_elem_of_In].
  - intros (e & Hf & HP). exists e. split; [by erewrite find_router_eq|]. apply list_elem_of_In, filter_In.
    split; [|done]. apply list_elem_of_In. by apply find_elem in Hf as [? _].
Qed.

(** Adding the routes that [P] selects, or deleting them. *)
Lemma tracks_adds t t' P K : table_ok t -> tracks t K ->
  (forall r, in_routes t' r = in_routes t r || match find_router r t with Some e => P e | None => false end) ->
  tracks t' (requested (AddRoute <$> (router <$> List.filter P t)) K).
Proof.
  intros Ht HK H r. rewrite requested_adds, elem_of_union, elem_of_list_to_set, filtered_routers, (HK r), H, orb_true_iff by done.
  destruct (find_router r t) as [e|] eqn:E; [|split; [intros [(e & ? & _)|]; [done|by left]|intros [?|?]; [by right|done]]].
  split; [intros [(e' & [= <-] & ?)|?]; [by right|by left]|intros [?|?]; [by right|left; by exists e]].
Qed.

Lemma tracks_dels t t' P K : table_ok t -> tracks t K ->
  (forall r, in_routes t' r = in_routes t r && match find_router r t with Some e => negb (P e) | None => false end) ->
  tracks t' (requested (DelRoute <$> (router <$> List.filter P t)) K).
Proof.
  intros Ht HK H r. rewrite requested_dels, elem_of_difference, elem_of_list_to_set, filtered_routers, (HK r), H, andb_true_iff by done.
  unfold in_routes. destruct (find_router r t) as [e|] eqn:E; [|by split; intros []].
  rewrite negb_true_iff. split.
  - intros [H1 H2]. split; [done|]. destruct (P e) eqn:EP; [|done]. destruct H2. by exists e.
  - intros [H1 H2]. split; [done|]. intros (e' & [= <-] & ?). congruence.
Qed.

(** ** The invariant *)

(** A route is in the kernel if its router is eligible and, unless all are
    wanted, none is better. *)
Definition kernel_ok (best : bool) t : Prop := forall r e, find_router r t = Some e ->
  (in_kernel e = true <-> preference e <> INELIGIBLE_PREF /\ (best = true -> preference e = max_preference t)).

Record table_inv (best : bool) t : Prop := mkInv {
  ti_ok : table_ok t;
  ti_pref : forall r e, find_router r t = Some e -> INELIGIBLE_PREF <= preference e;
  ti_kernel : kernel_ok best t
}.

Lemma max_fmap f t : (forall e, preference (f e) = preference e) -> max_preference (f <$> t) = max_preference t.
Proof.
  intros Hf. unfold max_preference. generalize INELIGIBLE_PREF. induction t as [|x t IH]; intros m; [done|].
  rewrite fmap_cons. simpl. by rewrite Hf, IH.
Qed.

Lemma max_promote m t : max_preference (promote m t).1 = max_preference t.
Proof. rewrite promote_fst. apply max_fmap. intros e. by destruct (_ =? _). Qed.

Lemma max_demote m t : max_preference (demote m t).1 = max_preference t.
Proof. rewrite demote_fst. apply max_fmap. intros e. by destruct (_ <? _). Qed.

Lemma promote_ok m t : table_ok t -> table_ok (promote m t).1.
Proof. rewrite promote_fst. apply fmap_ok. intros e. by destruct (_ =? _). Qed.

Lemma demote_ok m t : table_ok t -> table_ok (demote m t).1.
Proof. rewrite demote_fst. apply fmap_ok. intros e. by destruct (_ <? _). Qed.

Lemma tracks_promote m t K : table_ok t -> tracks t K -> tracks (promote m t).1 (requested (promote m t).2 K).
Proof.
  intros Ht HK. rewrite promote_snd. apply (tracks_adds t); [done..|]. intros r. unfold in_routes. rewrite find_promote.
  destruct (find_router r t) as [e|]; [|done]. simpl. destruct (preference e =? m), (in_kernel e) eqn:Ek; simpl; rewrite ?Ek; done.
Qed.

Lemma tracks_demote m t K : table_ok t -> tracks t K -> tracks (demote m t).1 (requested (demote m t).2 K).
Proof.
  intros Ht HK. rewrite demote_snd. apply (tracks_dels t); [done..|]. intros r. unfold in_routes. rewrite find_demote.
  destruct (find_router r t) as [e|]; [|done]. simpl. destruct (preference e <? m), (in_kernel e) eqn:Ek; simpl; rewrite ?Ek; done.
Qed.

Lemma tracks_age best time m t K : table_ok t -> tracks t K ->
  tracks (age_loop best time m t).1.1 (requested (age_loop best time m t).1.2 K).
Proof.
  intros Ht HK. rewrite age_snd. apply (tracks_dels t); [done..|]. intros r. unfold in_routes. rewrite find_age by done.
  destruct (find_router r t) as [e|]; [|done]. simpl. unfold aged. destruct (_ <=? 0), (in_kernel e); done.
Qed.

Lemma tracks_discard t K : table_ok t -> tracks t K -> requested (discard_table t) K = ∅.
Proof.
  intros Ht HK. rewrite discard_eq. assert (H : tracks [] (requested (DelRoute <$> (router <$> List.filter in_kernel t)) K)).
  { apply (tracks_dels t); [done..|]. intros r. unfold in_routes. simpl. destruct (find_router r t) as [e|]; [|done]. by destruct (in_kernel e). }
  apply set_eq. intros r. rewrite (H r). unfold in_routes. simpl. set_solver.
Qed.

(** What the table knows of a router. *)
Definition look t (r : Z) : option (Z * Z) := (fun e => (preference e, remaining_time e)) <$> find_router r t.

Definition old_by (time : Z) (x : Z * Z) : option (Z * Z) := if snd x - time <=? 0 then None else Some (fst x, snd x - time).

Lemma look_age best time m t r : table_ok t -> look (age_loop best time m t).1.1 r = look t r ≫= old_by time.
Proof.
  intros Ht. unfold look. rewrite find_age by done. destruct (find_router r t) as [e|]; [|done]. simpl. unfold aged, old_by.
  simpl. by destruct (_ <=? 0).
Qed.

Lemma look_promote m t r : look (promote m t).1 r = look t r.
Proof. unfold look. rewrite find_promote. destruct (find_router r t) as [e|]; [|done]. simpl. by destruct (_ =? _). Qed.

Lemma look_demote m t r : look (demote m t).1 r = look t r.
Proof. unfold look. rewrite find_demote. destruct (find_router r t) as [e|]; [|done]. simpl. by destruct (_ <? _). Qed.

(** An entry after aging is one before. *)
Lemma find_aged best time m t r e : table_ok t -> find_router r (age_loop best time m t).1.1 = Some e ->
  exists e0, find_router r t = Some e0 /\ preference e0 = preference e /\ in_kernel e0 = in_kernel e /\ (remaining_time e0 - time <=? 0) = false.
Proof.
  intros Ht. rewrite find_age by done. destruct (find_router r t) as [e0|]; [|done]. simpl. unfold aged.
  destruct (_ <=? 0) eqn:El; [done|]. intros [= <-]. by exists e0.
Qed.

(** Unless one of the best expires the maximum stays. *)
Lemma max_aged time t : table_ok t ->
  existsb (fun e => (preference e =? max_preference t) && (remaining_time e - time <=? 0)) t = false ->
  max_preference (age_loop true time (max_preference t) t).1.1 = max_preference t.
Proof.
  intros Ht Hex. apply max_unique; [by apply age_ok|apply max_ge_inel|..].
  - intros r e (e0 & He0 & <- & _)%find_aged; [|done]. by apply (max_ge r).
  - destruct (max_attained t Ht) as [E|(r & e & He & E)]; [by left|]. right.
    rewrite <- not_true_iff_false, existsb_exists in Hex.
    assert (Hl : (remaining_time e - time <=? 0) = false).
    { destruct (_ <=? 0) eqn:El; [|done]. destruct Hex. exists e. rewrite El, E, Z.eqb_refl.
      split; [apply list_elem_of_In; by apply (find_elem r)|done]. }
    exists r, (mkEntry (router e) (preference e) (remaining_time e - time) (in_kernel e)).
    rewrite find_age, He by done. simpl. unfold aged. by rewrite Hl.
Qed.

(** ** age_table *)

Lemma age_loop_inv best time t : table_inv best t ->
  (age_loop best time (max_preference t) t).2 = false -> table_inv best (age_loop best time (max_preference t) t).1.1.
Proof.
  intros [Ht Hp Hk] Hrc. rewrite age_recalculate in Hrc. split; [by apply age_ok|..].
  - intros r e (e0 & He0 & <- & _)%find_aged; [|done]. by eapply Hp.
  - intros r e (e0 & He0 & Ep & <- & _)%find_aged; [|done]. rewrite <- Ep, (Hk r e0 He0). destruct best; [|by intuition].
    by rewrite max_aged.
Qed.

(** The routes promoted are the new best ones. *)
Lemma promote_inv t : table_ok t -> (forall r e, find_router r t = Some e -> INELIGIBLE_PREF <= preference e) ->
  max_preference t <> INELIGIBLE_PREF ->
  (forall r e, find_router r t = Some e -> in_kernel e = true -> preference e = max_preference t) ->
  table_inv true (promote (max_preference t) t).1.
Proof.
  intros Ht Hp Hm Hk. split; [by apply promote_ok|..].
  - intros r e He. rewrite find_promote in He. destruct (find_router r t) as [e0|] eqn:E; [|done]. injection He as <-.
    destruct (_ =? _); simpl; by eapply Hp.
  - intros r e He. rewrite max_promote. rewrite find_promote in He. destruct (find_router r t) as [e0|] eqn:E; [|done]. injection He as <-.
    destruct (Z.eqb_spec (preference e0) (max_preference t)) as [Ee|Ne]; simpl.
    + rewrite Ee. by intuition.
    + specialize (Hk r e0 E). split; [intros H; by destruct Ne; apply Hk|intros [_ H]; by destruct Ne; apply H].
Qed.

Lemma age_table_eq best time t :
  age_table best time t =
    let a := age_loop best time (max_preference t) t in
    if a.2 && negb (max_preference a.1.1 =? INELIGIBLE_PREF)
    then ((promote (max_preference a.1.1) a.1.1).1, a.1.2 ++ (promote (max_preference a.1.1) a.1.1).2)
    else a.1.
Proof.
  unfold age_table. destruct (age_loop best time (max_preference t) t) as [[t' es] [|]]; simpl; [|done].
  destruct (max_preference t' =? INELIGIBLE_PREF); simpl; [done|]. by destruct (promote (max_preference t') t').
Qed.

Lemma age_table_inv best time t : table_inv best t -> table_inv best (age_table best time t).1.
Proof.
  intros Hi. rewrite age_table_eq. cbv zeta. set (a := age_loop best time (max_preference t) t).
  destruct (a.2) eqn:Hrc; cbn [andb]; [|by apply age_loop_inv]. destruct Hi as [Ht Hp Hk].
  assert (Hb : best = true) by (unfold a in Hrc; rewrite age_recalculate in Hrc; by destruct best). subst best.
  assert (Hp' : forall r e, find_router r a.1.1 = Some e -> INELIGIBLE_PREF <= preference e)
    by (intros r e (e0 & He0 & <- & _)%find_aged; [by eapply Hp|done]).
  destruct (Z.eqb_spec (max_preference a.1.1) INELIGIBLE_PREF) as [Em|Nm]; cbn [negb].
  - split; [by apply age_ok|done|]. intros r e He. rewrite Em. pose proof (max_ge r _ e He) as Hle. rewrite Em in Hle.
    destruct (find_aged true time _ t r e Ht He) as (e0 & He0 & Ep & <- & _). rewrite (Hk r e0 He0), Ep.
    specialize (Hp' r e He). split; [intros [? _]; lia|intros [? _]; lia].
  - apply promote_inv; [by apply age_ok|done|done|]. intros r e He Hin.
    destruct (find_aged true time _ t r e Ht He) as (e0 & He0 & Ep & Ek & _). rewrite <- Ek in Hin.
    apply (Hk r e0 He0) in Hin as [_ Hin]. specialize (Hin eq_refl). pose proof (max_ge r _ e He).
    destruct (max_attained a.1.1 ltac:(by apply age_ok)) as [?|(r' & e' & He' & E')]; [done|].
    destruct (find_aged true time _ t r' e' Ht He') as (e0' & He0' & Ep' & _). pose proof (max_ge r' t e0' He0'). lia.
Qed.

Lemma age_table_tracks best time t K : table_ok t -> tracks t K ->
  tracks (age_table best time t).1 (requested (age_table best time t).2 K).
Proof.
  intros Ht HK. rewrite age_table_eq. cbv zeta. destruct (_ && _); [|by apply tracks_age]. cbn [fst snd].
  rewrite requested_app. apply tracks_promote; [by apply age_ok|by apply tracks_age].
Qed.

Lemma age_table_look best time t r : table_ok t -> look (age_table best time t).1 r = look t r ≫= old_by time.
Proof.
  intros Ht. rewrite age_table_eq. cbv zeta. destruct (_ && _); cbn [fst]; rewrite ?look_promote; by apply look_age.
Qed.

(** ** record_router *)

(** The entry after the assignments to it. *)
Definition learned (addr p ttl : Z) t : list entry :=
  match find_router addr t with
  | Some _ => update_router addr (fun tp => mkEntry (router tp) p ttl (in_kernel tp)) t
  | None => mkEntry addr p ttl false :: t
  end.

Lemma find_learned addr p ttl t r :
  find_router r (learned addr p ttl t) = if r =? addr then Some (mkEntry addr p ttl (in_routes t addr)) else find_router r t.
Proof.
  unfold learned, in_routes. destruct (find_router addr t) as [e|] eqn:E.
  - rewrite find_update by (intros e' H; by apply find_router_eq in H). destruct (Z.eqb_spec r addr) as [->|]; [|done]. rewrite E. simpl. by rewrite (find_router_eq _ _ _ E).
  - simpl. rewrite Z.eqb_sym. destruct (Z.eqb_spec r addr) as [->|]; done.
Qed.

Lemma learned_ok addr p ttl t : table_ok t -> table_ok (learned addr p ttl t).
Proof.
  intros Ht. unfold learned, table_ok in *. destruct (find_router addr t) as [e|] eqn:E; [by rewrite update_routers by (intros e' H; by apply find_router_eq in H)|].
  rewrite fmap_cons. apply NoDup_cons. split; [by apply find_None|done].
Qed.

Lemma tracks_learned addr p ttl t K : tracks t K -> tracks (learned addr p ttl t) K.
Proof.
  intros HK r. rewrite (HK r). unfold in_routes at 2. rewrite find_learned. by destruct (Z.eqb_spec r addr) as [->|].
Qed.

(** The flag of the entry after the two tests. *)
Definition flag_after (best : bool) (p max : Z) (k : bool) : bool :=
  if p =? INELIGIBLE_PREF then false else k || negb best || (p =? max).

Lemma record_route_eq best addr t e (k' := flag_after best (preference e) (max_preference t) (in_kernel e)) :
  find_router addr t = Some e ->
  record_route best addr t =
    (update_router addr (fun _ => set_kernel k' e) t,
     if k' && negb (in_kernel e) then [AddRoute addr] else if negb k' && in_kernel e then [DelRoute addr] else []).
Proof.
  intros He. unfold record_route, k'. clear k'. rewrite He. pose proof (find_router_eq _ _ _ He) as Er. unfold flag_after.
  destruct e as [a p l k]. simpl in *. subst a.
  destruct k, best, (p =? INELIGIBLE_PREF) eqn:Ep, (p =? max_preference t); simpl; rewrite ?Ep; done.
Qed.

Section Record.
Context (best : bool) (addr : Z) (t : list entry) (e : entry) (He : find_router addr t = Some e).
Let k' : bool := flag_after best (preference e) (max_preference t) (in_kernel e).

Lemma find_record_route r :
  find_router r (record_route best addr t).1 = if r =? addr then Some (set_kernel k' e) else find_router r t.
Proof.
  rewrite (record_route_eq best addr t e He). simpl. rewrite find_update by (intros; exact (find_router_eq _ _ _ He)).
  destruct (Z.eqb_spec r addr) as [->|]; [by rewrite He|done].
Qed.

Lemma record_route_ok : table_ok t -> table_ok (record_route best addr t).1.
Proof.
  unfold table_ok. rewrite (record_route_eq best addr t e He). simpl. by rewrite update_routers by (intros; exact (find_router_eq _ _ _ He)).
Qed.

Lemma max_record_route : table_ok t -> max_preference (record_route best addr t).1 = max_preference t.
Proof.
  intros Ht. apply max_unique; [by apply record_route_ok|apply max_ge_inel|..].
  - intros r e' Hr. rewrite find_record_route in Hr. destruct (Z.eqb_spec r addr) as [->|]; [|by apply (max_ge r)].
    injection Hr as <-. exact (max_ge addr t e He).
  - destruct (max_attained t Ht) as [E|(r & e' & Hr & E)]; [by left|]. right. exists r. rewrite find_record_route.
    destruct (Z.eqb_spec r addr) as [->|]; [|by exists e'].
    exists (set_kernel k' e). split; [done|]. simpl. congruence.
Qed.

Lemma look_record_route r : look (record_route best addr t).1 r = look t r.
Proof. unfold look. rewrite find_record_route. destruct (Z.eqb_spec r addr) as [->|]; [by rewrite He|done]. Qed.

Lemma tracks_record_route K : tracks t K -> tracks (record_route best addr t).1 (requested (record_route best addr t).2 K).
Proof.
  intros HK r. unfold in_routes. rewrite find_record_route, (record_route_eq best addr t e He). fold k'. cbn [snd].
  specialize (HK r). unfold in_routes in HK.
  destruct (Z.eqb_spec r addr) as [->|]; [rewrite He in HK|]; destruct k', (in_kernel e); simpl in *; set_solver.
Qed.
End Record.

(** The two loops at the end of [record_router], if they run. *)
Definition settle (b3 b4 : bool) t : list entry * list effect :=
  let r3 := if b3 then promote (max_preference t) t else (t, []) in
  let r4 := if b4 then demote (max_preference r3.1) r3.1 else (r3.1, []) in
  (r4.1, r3.2 ++ r4.2).

Lemma find_settle b3 b4 t r (m := max_preference t) :
  find_router r (settle b3 b4 t).1 =
    (fun e => set_kernel ((in_kernel e || b3 && (preference e =? m)) && negb (b4 && (preference e <? m))) e) <$> find_router r t.
Proof.
  unfold settle, m. destruct b3, b4; cbn [fst]; rewrite ?find_demote, ?find_promote, ?max_promote;
    destruct (find_router r t) as [[a p l k]|]; simpl; try done;
    destruct (p =? max_preference t); simpl; destruct (p <? max_preference t), k; done.
Qed.

Lemma max_settle b3 b4 t : max_preference (settle b3 b4 t).1 = max_preference t.
Proof. unfold settle. destruct b3, b4; cbn [fst]; rewrite ?max_demote, ?max_promote; done. Qed.

Lemma settle_ok b3 b4 t : table_ok t -> table_ok (settle b3 b4 t).1.
Proof. intros Ht. unfold settle. destruct b3, b4; cbn [fst]; auto using promote_ok, demote_ok. Qed.

Lemma settle_look b3 b4 t r : look (settle b3 b4 t).1 r = look t r.
Proof. unfold settle. destruct b3, b4; cbn [fst]; rewrite ?look_demote, ?look_promote; done. Qed.

Lemma settle_tracks b3 b4 t K : table_ok t -> tracks t K -> tracks (settle b3 b4 t).1 (requested (settle b3 b4 t).2 K).
Proof.
  intros Ht HK. unfold settle. cbn [snd fst]. rewrite requested_app.
  destruct b3, b4; cbn [fst snd]; repeat first [apply tracks_demote|apply tracks_promote|apply promote_ok|done].
Qed.

Section RecordRouter.
Context (best : bool) (addr p ttl : Z) (t : list entry) (Hi : table_inv best t) (Hp : INELIGIBLE_PREF <= p).
Let M0 : Z := max_preference t.
Let M1 : Z := max_preference (learned addr p ttl t).
Let down : bool := match find_router addr t with Some tp => (p <? preference tp) && (preference tp =? M0) | None => false end.
Let up : bool := match find_router addr t with Some tp => negb down && (preference tp <? p) | None => M0 <? p end.

Lemma learned_max_new : p <= M1.
Proof. apply (max_ge addr _ (mkEntry addr p ttl (in_routes t addr))). by rewrite find_learned, Z.eqb_refl. Qed.

Lemma learned_max_other r e : r <> addr -> find_router r t = Some e -> preference e <= M1.
Proof. intros Hr He. apply (max_ge r). rewrite find_learned. by destruct (Z.eqb_spec r addr). Qed.

Lemma learned_max_from : M1 = p \/ M1 = INELIGIBLE_PREF \/ exists r e, r <> addr /\ find_router r t = Some e /\ preference e = M1.
Proof.
  destruct (max_attained (learned addr p ttl t)) as [?|(r & e & He & E)]; [apply learned_ok, Hi|auto|].
  rewrite find_learned in He. destruct (Z.eqb_spec r addr); [injection He as <-; by left|]. right; right. by exists r, e.
Qed.

(** The maximum before comes from another router, or from this one. *)
Lemma old_max_from : M0 = INELIGIBLE_PREF \/ (exists e, find_router addr t = Some e /\ preference e = M0)
  \/ exists r e, r <> addr /\ find_router r t = Some e /\ preference e = M0.
Proof.
  destruct (max_attained t) as [?|(r & e & He & E)]; [apply Hi|auto|]. destruct (decide (r = addr)) as [->|]; [right; left; eauto|].
  right; right. by exists r, e.
Qed.

Lemma max_up : up = true -> M0 <= M1.
Proof.
  unfold up. intros Hu. pose proof learned_max_new. pose proof (max_ge_inel (learned addr p ttl t)) as H1. fold M1 in H1.
  destruct old_max_from as [?|[(e & He & E)|(r & e & Hr & He & E)]]; [lia| |pose proof (learned_max_other r e Hr He); lia].
  rewrite He in Hu. apply andb_true_iff in Hu as [_ Hu%Z.ltb_lt]. lia.
Qed.

Lemma max_same : up = false -> down = false -> M1 = M0.
Proof.
  intros Hu Hd. assert (Hle : M1 <= M0 /\ (forall e, find_router addr t = Some e -> preference e = M0 -> p = M0)).
  { assert (Hp0 : p <= M0 /\ (forall e, find_router addr t = Some e -> preference e = M0 -> p = M0)).
    { unfold up in Hu. rewrite Hd in Hu. unfold down in Hd. destruct (find_router addr t) as [e|] eqn:E.
      - simpl in Hu. apply Z.ltb_ge in Hu. pose proof (max_ge addr t e E) as H. fold M0 in H. split; [lia|].
        intros e' [= <-] Ee. rewrite Ee, Z.eqb_refl, andb_true_r in Hd. apply Z.ltb_ge in Hd. lia.
      - apply Z.ltb_ge in Hu. by split. }
    split; [|apply Hp0]. pose proof (max_ge_inel t) as H0. fold M0 in H0.
    destruct learned_max_from as [?|[?|(r & e & Hr & He & E)]]; [lia..|]. pose proof (max_ge r t e He) as H. fold M0 in H. lia. }
  destruct Hle as [Hle Hsame]. pose proof learned_max_new. pose proof (max_ge_inel (learned addr p ttl t)) as H1. fold M1 in H1.
  destruct old_max_from as [?|[(e & He & E)|(r & e & Hr & He & E)]]; [lia| |pose proof (learned_max_other r e Hr He); lia].
  pose proof (Hsame e He E). lia.
Qed.

Let t2 : list entry := (record_route best addr (learned addr p ttl t)).1.

Lemma find_self : find_router addr (learned addr p ttl t) = Some (mkEntry addr p ttl (in_routes t addr)).
Proof. by rewrite find_learned, Z.eqb_refl. Qed.

Lemma max_t2 : max_preference t2 = M1.
Proof. apply (max_record_route best addr _ _ find_self). apply learned_ok, Hi. Qed.

Lemma find_t2 r : find_router r t2 =
  if r =? addr then Some (mkEntry addr p ttl (flag_after best p M1 (in_routes t addr))) else find_router r t.
Proof.
  unfold t2. rewrite (find_record_route best addr _ _ find_self). cbn [preference in_kernel]. fold M1.
  rewrite find_learned. by destruct (r =? addr).
Qed.

Let b3 : bool := best && down && negb (M1 =? INELIGIBLE_PREF).
Let b4 : bool := best && (up || down).

(** The flag of the router recorded, at the end. *)
Lemma self_flag :
  (flag_after best p M1 (in_routes t addr) || b3 && (p =? M1)) && negb (b4 && (p <? M1)) = true
    <-> p <> INELIGIBLE_PREF /\ (best = true -> p = M1).
Proof.
  unfold flag_after, b3, b4. pose proof learned_max_new as Hn.
  destruct (Z.eqb_spec p INELIGIBLE_PREF) as [Ei|Ni].
  { split; [|intros [? _]; done]. rewrite <- Ei. rewrite (Z.eqb_sym M1 p). destruct (p =? M1); simpl; rewrite ?andb_false_r; done. }
  destruct (Bool.bool_dec best true) as [Eb|Eb%not_true_is_false]; rewrite Eb; simpl; rewrite ?orb_true_r; [|by simpl; intuition].
  destruct (Z.eqb_spec p M1) as [E1|N1].
  { rewrite orb_true_r. simpl. destruct (Z.ltb_spec p M1); [lia|]. rewrite andb_false_r. simpl. intuition. }
  rewrite andb_false_r, !orb_false_r. rewrite (proj2 (Z.ltb_lt p M1)), andb_true_r by lia.
  split; [|intros [_ H]; by destruct N1; apply H]. intros [Hk Hud]%andb_true_iff. exfalso.
  apply negb_true_iff, orb_false_iff in Hud as [Hu Hd]. apply N1. rewrite (max_same Hu Hd).
  unfold in_routes in Hk. unfold up in Hu. rewrite Hd in Hu. unfold down in Hd. destruct (find_router addr t) as [e|] eqn:E; [|done].
  apply (ti_kernel _ _ Hi _ _ E) in Hk as [_ Hk]. specialize (Hk Eb). fold M0 in Hk.
  rewrite Hk, Z.eqb_refl, andb_true_r in Hd. rewrite Hk in Hu. simpl in Hu. apply Z.ltb_ge in Hd, Hu. lia.
Qed.

(** The flag of another router. *)
Lemma other_flag r e : r <> addr -> find_router r t = Some e ->
  (in_kernel e || b3 && (preference e =? M1)) && negb (b4 && (preference e <? M1)) = true
    <-> preference e <> INELIGIBLE_PREF /\ (best = true -> preference e = M1).
Proof.
  intros Hr He. pose proof (learned_max_other r e Hr He) as Hle. pose proof (ti_kernel _ _ Hi r e He) as Hk. fold M0 in Hk.
  pose proof (ti_pref _ _ Hi r e He) as Hpe. pose proof (max_ge r t e He) as Hle0. fold M0 in Hle0. unfold b3, b4.
  destruct (Bool.bool_dec best true) as [Eb|Eb%not_true_is_false]; rewrite Eb in Hk |- *; simpl; [|rewrite orb_false_r, andb_true_r, Hk; by intuition].
  destruct (up || down) eqn:Hud; simpl.
  - destruct (Bool.bool_dec down true) as [Hd|Hd%not_true_is_false]; rewrite Hd in Hud |- *; simpl.
    + destruct (Z.eqb_spec M1 INELIGIBLE_PREF) as [Em|Nm]; simpl.
      * rewrite orb_false_r. split; [|intros [? H]; specialize (H eq_refl); lia].
        intros [Hin _]%andb_true_iff. apply Hk in Hin as [? _]. lia.
      * destruct (Z.eqb_spec (preference e) M1) as [E1|N1].
        -- rewrite orb_true_r. destruct (Z.ltb_spec (preference e) M1); [lia|]. simpl. split; [|done]. intros _. split; [lia|done].
        -- destruct (Z.ltb_spec (preference e) M1); [|lia]. simpl. rewrite andb_false_r. split; [done|]. intros [_ Hx]. by destruct N1; apply Hx.
    + rewrite orb_false_r in Hud |- *. pose proof (max_up Hud) as Hup.
      destruct (Z.ltb_spec (preference e) M1); simpl; rewrite ?andb_false_r, ?andb_true_r.
      * split; [done|]. intros [_ H1]. specialize (H1 eq_refl). lia.
      * rewrite Hk. split; (intros [H1 H2]; split; [done|]; intros _; specialize (H2 eq_refl); lia).
  - apply orb_false_iff in Hud as [Hu Hd]. rewrite Hd. simpl. rewrite orb_false_r, andb_true_r, Hk, (max_same Hu Hd). done.
Qed.

Lemma record_inv : table_inv best (settle b3 b4 t2).1.
Proof.
  assert (Hok : table_ok t2) by (apply (record_route_ok best addr _ _ find_self); apply learned_ok, Hi).
  split; [by apply settle_ok|..].
  - intros r e He. rewrite find_settle, find_t2 in He. destruct (Z.eqb_spec r addr); [injection He as <-; exact Hp|].
    destruct (find_router r t) as [e0|] eqn:E; [|done]. injection He as <-. exact (ti_pref _ _ Hi r e0 E).
  - intros r e He. rewrite max_settle, max_t2. rewrite find_settle, find_t2, max_t2 in He. destruct (Z.eqb_spec r addr) as [->|Hr].
    + injection He as <-. apply self_flag.
    + destruct (find_router r t) as [e0|] eqn:E; [|done]. injection He as <-. exact (other_flag r e0 Hr E).
Qed.

End RecordRouter.

(** The preference that is recorded. *)
Definition recorded_pref (pref ttl : Z) : Z := if ttl <? 4 then INELIGIBLE_PREF else pref.

Lemma record_router_eq best mem addr pref ttl t (p := recorded_pref pref ttl) (r := record_route best addr (learned addr p ttl t)) :
  table_inv best t -> INELIGIBLE_PREF <= pref -> mem = true \/ is_Some (find_router addr t) ->
  exists b3 b4, record_router best mem addr pref ttl t = ((settle b3 b4 r.1).1, r.2 ++ (settle b3 b4 r.1).2) /\
    table_inv best (settle b3 b4 r.1).1.
Proof.
  intros Hi Hp Hm. unfold record_router. fold (recorded_pref pref ttl). fold p.
  set (down := match find_router addr t with Some tp => (p <? preference tp) && _ | None => false end).
  set (up := match find_router addr t with Some tp => negb down && _ | None => _ end).
  assert (Hneg : negb mem && match find_router addr t with Some _ => false | None => true end = false).
  { destruct Hm as [->|[e ->]]; [done|]. by rewrite andb_false_r. }
  rewrite Hneg. fold (learned addr p ttl t).
  exists (best && down && negb (max_preference (learned addr p ttl t) =? INELIGIBLE_PREF)), (best && (up || down)).
  split.
  2:{ apply record_inv; [done|]. unfold p, recorded_pref. destruct (_ <? 4); [done|lia]. }
  rewrite <- (max_t2 best addr p ttl t Hi). fold r. destruct r as [t2 es1]. unfold settle. cbn [fst snd].
  destruct (best && down); cbn [andb].
  - destruct (max_preference t2 =? INELIGIBLE_PREF); cbn [negb]; [|destruct (promote (max_preference t2) t2) as [t3 es2]];
      destruct (best && (up || down)); cbn [fst snd]; try done; by destruct (demote _ _).
  - destruct (best && (up || down)); cbn [fst snd]; try done; by destruct (demote _ _).
Qed.

(** What [record_router] does to the table and asks of the kernel. *)
Lemma record_router_correct best mem addr pref ttl t K :
  table_inv best t -> tracks t K -> INELIGIBLE_PREF <= pref -> mem = true \/ is_Some (find_router addr t) ->
  let r := record_router best mem addr pref ttl t in
  table_inv best r.1 /\ tracks r.1 (requested r.2 K) /\
  forall x, look r.1 x = if x =? addr then Some (recorded_pref pref ttl, ttl) else look t x.
Proof.
  intros Hi HK Hp Hm. destruct (record_router_eq best mem addr pref ttl t Hi Hp Hm) as (b3 & b4 & -> & Hinv). cbv zeta. cbn [fst snd].
  split; [done|]. split.
  - pose proof (learned_ok addr (recorded_pref pref ttl) ttl t (ti_ok _ _ Hi)) as Hl.
    rewrite requested_app. apply settle_tracks.
    + by apply (record_route_ok best addr _ _ (find_self _ _ _ _)).
    + apply (tracks_record_route best addr _ _ (find_self _ _ _ _)). by apply tracks_learned.
  - intros x. rewrite settle_look. rewrite (look_record_route best addr _ _ (find_self _ _ _ _)). unfold look. rewrite find_learned.
    by destruct (x =? addr).
Qed.

Lemma record_router_no_memory best addr pref ttl t : find_router addr t = None ->
  record_router best false addr pref ttl t = (t, []).
Proof. intros H. unfold record_router. by rewrite H. Qed.
