(* ===== verification/RdiscRun.v ===== *)
(** * Whole runs of rdisc

    The abstract state is the map of the routers heard of, with preference and
    the time that remains; the concrete program refines it, and the routes in
    the kernel are the wanted ones of that map. *)

From Stdlib Require Import ZArith Lia.
From stdpp Require Import base gmap numbers option list sets.
From S2P Require Import Prelude Ping PingPacket PingFour Rdisc RdiscTable.

Local Open Scope Z_scope.

(** ** The specification *)

Abbreviation rmap := (gmap Z (Z * Z)).

Definition hear (m : rmap) (lft : Z) (a : Z * Z) : rmap := <[fst a := (recorded_pref (snd a) lft, lft)]> m.

Definition tick (m : rmap) : rmap := omap (old_by TIMER_INTERVAL) m.

(** The routers to which there should be a default route. *)
Definition wanted (best : bool) (m : rmap) (r : Z) : Prop :=
  exists p l, m !! r = Some (p, l) /\ p <> INELIGIBLE_PREF /\
    (best = true -> forall r' p' l', m !! r' = Some (p', l') -> p' <= p).

(** A valid advertisement: its lifetime, and addresses with preferences. *)
Definition byte (p : list Z) (i : nat) : Z := nth i p 0.
Definition bytes (p : list Z) (i n : nat) : list Z := take n (drop i p).

Definition ra_ok (icmp : list Z) (cc : Z) : bool :=
  (rd_in_cksum (take (Z.to_nat cc) icmp) =? 0) && (byte icmp 1 =? 0) && (1 <=? byte icmp 4) && (2 <=? byte icmp 5)
    && (8 + byte icmp 4 * byte icmp 5 * 4 <=? cc).

Definition ra_lifetime (icmp : list Z) : Z := le_value (reverse (bytes icmp 6 2)).

Definition ra_entry (icmp : list Z) (i : nat) : Z * Z :=
  let off := (8 + i * Z.to_nat (byte icmp 5) * 4)%nat in
  (le_value (bytes icmp off 4), s32 (le_value (reverse (bytes icmp (off + 4) 4)))).

Definition ra_entries (icmp : list Z) : list (Z * Z) := ra_entry icmp <$> seq 0 (Z.to_nat (byte icmp 4)).

(** What a packet tells a host on these links. *)
Definition told (ifs : list interface) (buf : list Z) (cc : Z) : option (Z * list (Z * Z)) :=
  let hlen := 4 * (byte buf 0 mod 16) in
  let icmp := drop (Z.to_nat hlen) buf in
  if (hlen + 8 <=? cc) && (byte icmp 0 =? ICMP_ROUTER_ADVERTISEMENT) && ra_ok icmp (cc - hlen)
  then Some (ra_lifetime icmp, List.filter (fun a => is_directly_connected ifs (fst a)) (ra_entries icmp)) else None.

Definition spec_step (o : options) (ev : event) (s : rdisc) (m : rmap) : rmap :=
  match ev with
  | SIGALRM _ _ _ => tick m
  | SIGTERM _ => ∅
  | Received _ _ _ buf cc =>
      match told (take (num_interfaces s) (interfaces s)) buf cc with
      | Some (lft, l) => if responder o then m else foldl (fun m a => hear m lft a) m l
      | None => m
      end
  | _ => m
  end.

(** ** Refinement of the table *)

Definition repr (t : list entry) (m : rmap) : Prop := forall r, m !! r = look t r.

Lemma repr_wanted best t m K : table_inv best t -> tracks t K -> repr t m -> forall r, r ∈ K <-> wanted best m r.
Proof.
  intros Hi HK Hm r. rewrite (HK r). unfold in_routes, wanted. rewrite (Hm r). unfold look.
  destruct (find_router r t) as [e|] eqn:E; simpl; [|split; [done|by intros (p & l & ? & _)]].
  rewrite (ti_kernel _ _ Hi r e E). split.
  - intros [Hp Hb]. exists (preference e), (remaining_time e). split_and!; [done..|]. intros Hbt r' p' l' H'.
    rewrite (Hm r') in H'. unfold look in H'. destruct (find_router r' t) as [e'|] eqn:E'; [|done]. injection H' as <- _.
    rewrite (Hb Hbt). by apply (max_ge r').
  - intros (p & l & [= <- <-] & Hp & Hb). split; [done|]. intros Hbt. specialize (Hb Hbt).
    pose proof (max_ge r t e E). destruct (max_attained t (ti_ok _ _ Hi)) as [Em|(r' & e' & E' & Em)].
    + pose proof (ti_pref _ _ Hi r e E). lia.
    + assert (preference e' <= preference e); [|lia]. apply (Hb r' _ (remaining_time e')). rewrite (Hm r'). unfold look. by rewrite E'.
Qed.

Lemma repr_tick best t m : table_ok t -> repr t m -> repr (age_table best TIMER_INTERVAL t).1 (tick m).
Proof. intros Ht Hm r. unfold tick. rewrite lookup_omap, (Hm r). by rewrite age_table_look. Qed.

Lemma repr_hear t t' m lft a :
  repr t m -> (forall x, look t' x = if x =? fst a then Some (recorded_pref (snd a) lft, lft) else look t x) -> repr t' (hear m lft a).
Proof.
  intros Hm H r. rewrite H. unfold hear. destruct (Z.eqb_spec r (fst a)) as [->|]; [by rewrite lookup_insert_eq|].
  rewrite lookup_insert_ne by done. apply Hm.
Qed.

(** ** Packets *)

Lemma load_bytes p i n : (i + n <= length p)%nat -> load i n p = Some (bytes p i n).
Proof. intros H. unfold load. by rewrite (proj2 (Nat.leb_le _ _)). Qed.

Lemma load8_byte p i : (i < length p)%nat -> load8 i p = Some (byte p i).
Proof. intros H. unfold load8, byte. destruct (lookup_lt_is_Some_2 p i H) as [x Hx]. rewrite Hx. symmetry. f_equal. by apply nth_lookup_Some. Qed.

Lemma s32_eligible x : INELIGIBLE_PREF <= s32 x.
Proof. pose proof (wraps_range 32 x ltac:(lia)) as [H _]. exact H. Qed.

Lemma record_router_any best mem addr pref ttl t K : table_inv best t -> tracks t K -> INELIGIBLE_PREF <= pref ->
  let r := record_router best mem addr pref ttl t in table_inv best r.1 /\ tracks r.1 (requested r.2 K).
Proof.
  intros Hi HK Hp. destruct mem, (find_router addr t) as [e|] eqn:E;
    [| | |rewrite record_router_no_memory by done; by split]; edestruct record_router_correct as (H1 & H2 & _); eauto.
Qed.

Definition ra_fold (ifs : list interface) (lft : Z) (m : rmap) (l : list (Z * Z)) : rmap :=
  foldl (fun m a => hear m lft a) m (List.filter (fun a => is_directly_connected ifs (fst a)) l).

Lemma record_loop_run o ifs mem icmp lft n : forall i t K m,
  (forall j, (i <= j < i + n)%nat -> (8 + j * Z.to_nat (byte icmp 5) * 4 + 8 <= length icmp)%nat) ->
  table_inv (best_preference o) t -> tracks t K ->
  exists t' es, record_loop o ifs mem icmp (byte icmp 5) lft n i t = Some (t', es) /\
    table_inv (best_preference o) t' /\ tracks t' (requested es K) /\
    ((forall j, mem j = true) -> repr t m -> repr t' (ra_fold ifs lft m (ra_entry icmp <$> seq i n))).
Proof.
  induction n as [|n IH]; intros i t K m Hl Hi HK; [by exists t, []|]. cbn [record_loop].
  pose proof (Hl i ltac:(lia)) as Hli. unfold load32, load32_net. rewrite !load_bytes by lia. cbn [fmap option_fmap option_map mbind option_bind].
  change (seq i (S n)) with (i :: seq (S i) n). rewrite fmap_cons. unfold ra_fold. cbn [List.filter].
  set (a := ra_entry icmp i). change (le_value (bytes icmp (8 + i * Z.to_nat (byte icmp 5) * 4) 4)) with (fst a).
  change (s32 (le_value (reverse (bytes icmp (8 + i * Z.to_nat (byte icmp 5) * 4 + 4) 4)))) with (snd a).
  assert (Ha : INELIGIBLE_PREF <= snd a) by apply s32_eligible.
  destruct (is_directly_connected ifs (fst a)).
  - destruct (record_router_any (best_preference o) (mem i) (fst a) (snd a) lft t K Hi HK Ha) as [Hi1 HK1].
    destruct (record_router _ _ _ _ _ t) as [t1 es1] eqn:E1. cbn [fst snd] in Hi1, HK1.
    destruct (IH (S i) t1 (requested es1 K) (hear m lft a)) as (t' & es & E & Hi' & HK' & Hm'); [intros j Hj; apply Hl; lia|done|done|].
    rewrite E. cbn [mbind option_bind]. exists t', (es1 ++ es). rewrite requested_app. split_and!; [done..|].
    intros Hmem Hm. simpl. apply Hm'; [done|]. apply (repr_hear t); [done|].
    destruct (record_router_correct (best_preference o) (mem i) (fst a) (snd a) lft t K Hi HK Ha) as (_ & _ & Hlook); [by left|].
    by rewrite E1 in Hlook.
  - destruct (IH (S i) t K m) as (t' & es & E & Hi' & HK' & Hm'); [intros j Hj; apply Hl; lia|done|done|].
    rewrite E. exists t', es. by split_and!.
Qed.

(** ** Effects that are not routes *)

Definition no_route (ef : effect) : Prop := match ef with AddRoute _ | DelRoute _ => False | _ => True end.

Lemma requested_no_route es K : Forall no_route es -> requested es K = K.
Proof. intros H. induction H as [|ef es He _ IH]; [done|]. rewrite requested_cons. by destruct ef. Qed.

Lemma no_route_app es es' : Forall no_route es -> Forall no_route es' -> Forall no_route (es ++ es').
Proof. intros. by apply Forall_app. Qed.

Create HintDb rdisc.
#[export] Hint Resolve no_route_app : rdisc.

Lemma sendbcastif_no_route p f : Forall no_route (sendbcastif p f).
Proof. by repeat constructor. Qed.

Lemma sendmcastif_no_route y p dst i f : Forall no_route (sendmcastif y p dst i f).1.
Proof. unfold sendmcastif. destruct (sys_setopt y i); by repeat constructor. Qed.

#[export] Hint Resolve sendbcastif_no_route sendmcastif_no_route Forall_nil_2 : rdisc.

Lemma sendbcast_no_route y p ifs : forall i, Forall no_route (sendbcast y p i ifs).
Proof. induction ifs as [|f ifs IH]; intros i; cbn [sendbcast]; [auto with rdisc|]. destruct (negb _); [done|]. destruct (sys_sent y i); auto with rdisc. Qed.

Lemma sendmcast_no_route y p dst ifs : forall i, Forall no_route (sendmcast y p dst i ifs).
Proof.
  induction ifs as [|f ifs IH]; intros i; simpl; [auto with rdisc|]. destruct (negb _); [done|].
  pose proof (sendmcastif_no_route y p dst i f) as H. destruct (sendmcastif y p dst i f) as [es [|]]; simpl in *; auto with rdisc.
Qed.

Lemma advertise_one_no_route y dst lft i f : Forall no_route (advertise_one y dst lft i f).
Proof.
  unfold advertise_one. destruct (isbroadcast dst); [auto with rdisc|]. destruct (ismulticast dst); [auto with rdisc|].
  destruct (_ =? _); by repeat constructor.
Qed.

#[export] Hint Resolve sendbcast_no_route sendmcast_no_route advertise_one_no_route : rdisc.

Lemma advertise_some y ifs num dst lft : (num <= length ifs)%nat ->
  exists es, advertise y ifs num dst lft = Some es /\ Forall no_route es.
Proof.
  intros H. unfold advertise, the_interfaces. rewrite (proj2 (Nat.leb_le _ _)) by done. eexists. split; [done|].
  apply Forall_concat, Forall_lookup. intros i es. rewrite list_lookup_imap. intros (f & _ & ->)%fmap_Some. auto with rdisc.
Qed.

Lemma solicitor_some y ifs num dst : (num <= length ifs)%nat ->
  exists es, solicitor y ifs num dst = Some es /\ Forall no_route es.
Proof.
  intros H. unfold solicitor, the_interfaces. rewrite (proj2 (Nat.leb_le _ _)) by done.
  destruct (isbroadcast dst); [|destruct (ismulticast dst)]; eexists; (split; [done|]); auto with rdisc.
  by repeat constructor.
Qed.

(** ** Interfaces *)

Definition conf_ok (conf : ifconf) : Prop :=
  match conf with
  | NoSocket | NoBuffer => True
  | NoArray => False
  | NoConf fresh => length fresh = MAXIFS
  | Conf fresh rs => length fresh = MAXIFS /\ (length rs <= MAXIFS)%nat
  end.

Definition ifs_ok (ifs : list interface) (num : nat) : Prop := ifs = [] /\ num = 0%nat \/ length ifs = MAXIFS /\ (num <= MAXIFS)%nat.

Lemma ifs_ok_le ifs num : ifs_ok ifs num -> (num <= length ifs)%nat.
Proof. intros [[-> ->]|[-> H]]; done. Qed.

Lemma ifconf_loop_some rs : forall i ifs, (i + length rs <= length ifs)%nat ->
  exists ifs' n, ifconf_loop rs i ifs = Some (ifs', n) /\ length ifs' = length ifs /\ (n <= i + length rs)%nat.
Proof.
  induction rs as [|r rs IH]; intros i ifs H; simpl in *; [exists ifs, i; split_and!; [done..|lia]|].
  destruct (usable r) as [f|].
  - destruct (lookup_lt_is_Some_2 ifs i ltac:(lia)) as [slot Hs]. rewrite Hs. cbn [mbind option_bind].
    destruct (fill_interface r f slot) as [slot' done]. destruct (IH (if done then S i else i) (<[i:=slot']> ifs)) as (ifs' & n & E & Hl & Hn).
    { rewrite length_insert. destruct done; lia. }
    exists ifs', n. rewrite length_insert in Hl. split_and!; [done..|destruct done; lia].
  - destruct (IH i ifs) as (ifs' & n & E & Hl & Hn); [lia|]. exists ifs', n. split_and!; [done..|lia].
Qed.

Lemma initifs_some conf ifs num : conf_ok conf -> ifs_ok ifs num ->
  exists ifs' num', initifs conf ifs num = Some (ifs', num') /\ ifs_ok ifs' num'.
Proof.
  intros Hc Hi. destruct conf as [| | |fresh|fresh rs]; simpl in *; [by exists ifs, num..|done| |].
  - exists fresh, num. split; [done|]. right. split; [done|]. destruct Hi as [[_ ->]|[_ ?]]; [lia|done].
  - destruct Hc as [Hl Hr]. destruct (ifconf_loop_some rs 0 fresh) as (ifs' & n & E & Hl' & Hn); [lia|]. exists ifs', n.
    split; [done|]. right. lia.
Qed.

(** ** The invariant of the state *)

Record st_inv (o : options) (s : rdisc) (K : gset Z) : Prop := mkStInv {
  si_table : table_inv (best_preference o) (table s);
  si_tracks : tracks (table s) K;
  si_ifs : ifs_ok (interfaces s) (num_interfaces s);
  si_recv : 0 <= nreceived s;
  si_none : nreceived s = 0 -> table s = [];
  si_sent : responder o = false -> 0 <= ntransmitted s <= MAX_SOLICITATIONS /\ (solicit s = true -> ntransmitted s < MAX_SOLICITATIONS);
  si_exit : exited s = Some 5 -> nreceived s = 0 /\ solicit s = false
}.

Definition mem_ok (ev : event) : Prop := match ev with Received _ mem _ _ _ => forall i, mem i = true | _ => True end.

Definition ev_ok (ev : event) : Prop :=
  match ev with
  | SIGALRM _ conf _ | SIGHUP conf => conf_ok conf
  | Received _ _ _ buf cc => length buf = MAXPACKET /\ 0 <= cc <= 4096
  | _ => True
  end.

Lemma repr_empty_tick t m : t = [] -> repr t m -> repr t (tick m).
Proof. intros -> Hm r. unfold tick. rewrite lookup_omap, (Hm r). done. Qed.

(** The solicitation branch. *)
Lemma solicit_run o y s K : st_inv o s K -> exited s = None -> solicit s = true ->
  exists s' es,
    (let s := set_counts (solicit s) (ntransmitted s + 1) (nreceived s) s in
     es ← solicitor y (interfaces s) (num_interfaces s) (whereto o);
     if ntransmitted s <? MAX_SOLICITATIONS then
       Some (set_left (left_until_getifconf s) (left_until_advertise s) SOLICITATION_INTERVAL s, es)
     else
       let s := set_counts false (ntransmitted s) (nreceived s) s in
       if negb (forever s) && (nreceived s =? 0) then Some (set_exited 5 s, es ++ [Exit 5]) else Some (s, es)) = Some (s', es) /\
    Forall no_route es /\ st_inv o s' K /\ table s' = table s /\ (exited s' = None \/ exited s' = Some 5 /\ nreceived s' = 0).
Proof.
  intros [Ht HK Hifs Hr Hn Hs Hx] Hex Hsol. pose proof (ifs_ok_le _ _ Hifs) as Hle.
  destruct (solicitor_some y (interfaces s) (num_interfaces s) (whereto o) Hle) as (es & E & He).
  cbn [interfaces num_interfaces set_counts ntransmitted nreceived forever]. rewrite E. cbn [mbind option_bind].
  destruct (Z.ltb_spec (ntransmitted s + 1) MAX_SOLICITATIONS).
  - eexists _, es. split; [done|]. split_and!; try done; [|by left]. split; try done; simpl; try congruence.
    intros Hh. destruct (Hs Hh). split; [lia|]. intros _. lia.
  - destruct (negb (forever s) && (nreceived s =? 0)) eqn:Eb; eexists _, _; (split; [done|]).
    + apply andb_true_iff in Eb as [_ Eb%Z.eqb_eq]. split_and!; [apply no_route_app; [done|by repeat constructor]| |done|by right].
      split; simpl; try done; try congruence. intros Hh. destruct (Hs Hh) as [? Hlt]. specialize (Hlt Hsol). split; [lia|done].
    + split_and!; try done; [|by left]. split; simpl; try done; try congruence.
      intros Hh. destruct (Hs Hh) as [? Hlt]. specialize (Hlt Hsol). split; [lia|done].
Qed.

(** What the timer sends, and how it may end the program. *)
Lemma timer_send_run o y rnd s K : st_inv o s K -> exited s = None ->
  exists s' es, timer_send o y rnd s = Some (s', es) /\ Forall no_route es /\ st_inv o s' K /\ table s' = table s /\
    (exited s' = None \/ exited s' = Some 5 /\ nreceived s' = 0).
Proof.
  intros Hi Hex. unfold timer_send. destruct (responder o && (left_until_advertise s <=? 0)) eqn:Er.
  - destruct Hi as [Ht HK Hifs Hr Hn Hs Hx]. pose proof (ifs_ok_le _ _ Hifs) as Hle. apply andb_true_iff in Er as [Er _].
    destruct (advertise_some y (interfaces s) (num_interfaces s) (whereto o) (lifetime o) Hle) as (es & E & He).
    cbn [interfaces num_interfaces set_counts]. rewrite E. cbn [mbind option_bind]. eexists _, es. split; [done|].
    split_and!; try done; [|by left]. split; try done; simpl; congruence.
  - destruct (solicit s && (left_until_solicit s <=? 0)) eqn:Eb.
    + apply andb_true_iff in Eb as [Eb _]. by apply solicit_run.
    + exists s, []. split_and!; try done. by left.
Qed.

Lemma timer_run o y conf rnd s K m : st_inv o s K -> exited s = None -> conf_ok conf ->
  exists s' es, timer o y conf rnd s = Some (s', es) /\ st_inv o s' (requested es K) /\ (repr (table s) m -> repr (table s') (tick m)).
Proof.
  intros Hi Hex Hc. unfold timer. set (s0 := set_left _ _ _ s).
  assert (H1 : exists s1, (if left_until_getifconf s0 <? 0
       then (fun x => set_left GETIFCONF_TIMER (left_until_advertise s0) (left_until_solicit s0) (set_interfaces x s0))
              <$> initifs conf (interfaces s0) (num_interfaces s0)
       else Some s0) = Some s1 /\ st_inv o s1 K /\ exited s1 = None /\ table s1 = table s).
  { destruct Hi as [Ht HK Hifs Hr Hn Hs Hx]. destruct (_ <? 0).
    - destruct (initifs_some conf (interfaces s) (num_interfaces s) Hc Hifs) as (ifs' & n' & E & Hok).
      cbn [interfaces num_interfaces set_left s0]. rewrite E. eexists. split; [done|]. split_and!; try done.
    - exists s0. split_and!; try done. }
  destruct H1 as (s1 & E1 & Hi1 & Hex1 & Et1). rewrite E1. cbn [mbind option_bind].
  destruct (timer_send_run o y rnd s1 K Hi1 Hex1) as (s2 & es & E2 & He & Hi2 & Et2 & Hex2). rewrite E2. cbn [mbind option_bind].
  destruct Hex2 as [Hex2|[Hex2 Hn2]]; rewrite Hex2.
  - destruct (age_table (best_preference o) TIMER_INTERVAL (table s2)) as [t es'] eqn:Ea. eexists _, _. split; [done|].
    rewrite !requested_app, (requested_no_route es) by done. rewrite (requested_no_route [Alarm _]) by (by repeat constructor).
    destruct Hi2 as [Ht HK Hifs Hr Hn Hs Hx].
    pose proof (age_table_inv (best_preference o) TIMER_INTERVAL _ Ht) as Ha1. pose proof (age_table_tracks (best_preference o) TIMER_INTERVAL _ K (ti_ok _ _ Ht) HK) as Ha2.
    rewrite Ea in Ha1, Ha2. split; [split; try done|].
    + simpl. intros H0. rewrite (Hn H0) in Ea. by injection Ea as <- _.
    + intros Hm. simpl. rewrite <- Et1, <- Et2 in Hm. pose proof (repr_tick (best_preference o) _ m (ti_ok _ _ Ht) Hm) as H. by rewrite Ea in H.
  - eexists _, _. split; [done|]. rewrite (requested_no_route es) by done. split; [done|].
    intros Hm. rewrite <- Et1, <- Et2 in Hm. apply repr_empty_tick; [by apply (si_none _ _ _ Hi2)|done].
Qed.

Local Ltac done_nothing := split; [reflexivity|]; split; [assumption|]; split; reflexivity.

(** An advertisement that passes the tests is recorded, any other is not. *)
Lemma receive_advertisement_run o mem icmp cc s K : st_inv o s K -> exited s = None -> (8 <= Z.to_nat cc <= length icmp)%nat -> 0 <= cc < 2 ^ 32 ->
  exists s' es, receive_advertisement o mem icmp cc s = Some (s', es) /\ st_inv o s' (requested es K) /\
    if ra_ok icmp cc then
      forall m, (forall i, mem i = true) -> repr (table s) m ->
        repr (table s') (ra_fold (take (num_interfaces s) (interfaces s)) (ra_lifetime icmp) m (ra_entries icmp))
    else s' = s /\ es = [].
Proof.
  intros Hi Hex Hl Hc. unfold receive_advertisement, ra_ok. rewrite load_bytes by lia. cbn [mbind option_bind].
  change (bytes icmp 0 (Z.to_nat cc)) with (take (Z.to_nat cc) icmp).
  destruct (rd_in_cksum (take (Z.to_nat cc) icmp) =? 0); cbn [negb andb]; [|exists s, []; done_nothing].
  rewrite (load8_byte icmp 1) by lia. cbn [mbind option_bind]. destruct (byte icmp 1 =? 0); cbn [negb andb]; [|exists s, []; done_nothing].
  rewrite (load8_byte icmp 4) by lia. cbn [mbind option_bind].
  destruct (Z.ltb_spec (byte icmp 4) 1), (Z.leb_spec 1 (byte icmp 4)); try lia; cbn [andb]; [exists s, []; done_nothing|].
  rewrite (load8_byte icmp 5) by lia. cbn [mbind option_bind].
  destruct (Z.ltb_spec (byte icmp 5) 2), (Z.leb_spec 2 (byte icmp 5)); try lia; cbn [andb]; [exists s, []; done_nothing|].
  rewrite (wrapu_id 32 cc) by done.
  destruct (Z.ltb_spec cc (8 + byte icmp 4 * byte icmp 5 * 4)), (Z.leb_spec (8 + byte icmp 4 * byte icmp 5 * 4) cc); try lia; [exists s, []; done_nothing|].
  unfold load16_net. rewrite load_bytes by lia. cbn [fmap option_fmap option_map mbind option_bind].
  fold (ra_lifetime icmp). destruct Hi as [Ht HK Hifs Hr Hn Hs Hx].
  unfold the_interfaces. rewrite (proj2 (Nat.leb_le _ _)) by (by apply ifs_ok_le). cbn [mbind option_bind].
  destruct (record_loop_run o (take (num_interfaces s) (interfaces s)) mem icmp (ra_lifetime icmp) (Z.to_nat (byte icmp 4)) 0 (table s) K ∅)
    as (t' & es & E & Hi' & HK' & _); [intros j Hj; nia|done|done|].
  rewrite E. cbn [mbind option_bind]. eexists (if forever s then _ else _), (if forever s then _ else _).
  cbn [forever set_counts set_table]. split; [by destruct (forever s)|].
  assert (Hreq : requested (if forever s then es else es ++ do_fork o ++ [Alarm TIMER_INTERVAL]) K = requested es K).
  { destruct (forever s); [done|]. rewrite requested_app. apply requested_no_route. unfold do_fork. destruct (op_trace o); by repeat constructor. }
  rewrite Hreq. split.
  - destruct (forever s); split; try done; simpl; try lia; try (intros; congruence).
  - intros m Hmem Hm.
    destruct (record_loop_run o (take (num_interfaces s) (interfaces s)) mem icmp (ra_lifetime icmp) (Z.to_nat (byte icmp 4)) 0 (table s) K m)
      as (t'' & es'' & E'' & _ & _ & Hm'); [intros j Hj; nia|done|done|].
    rewrite E in E''. injection E'' as <- <-. specialize (Hm' Hmem Hm). by destruct (forever s).
Qed.

Lemma receive_solicitation_run o y rnd buf icmp cc s K : st_inv o s K -> exited s = None -> responder o = true ->
  (8 <= Z.to_nat cc <= length icmp)%nat -> (20 <= length buf)%nat ->
  exists s' es, receive_solicitation o y rnd buf icmp cc s = Some (s', es) /\ Forall no_route es /\ st_inv o s' K /\ table s' = table s.
Proof.
  intros Hi Hex Er Hl Hb. unfold receive_solicitation. rewrite load_bytes by lia. cbn [mbind option_bind].
  destruct (_ =? 0); cbn [negb]; [|by exists s, []]. rewrite load8_byte by lia. cbn [mbind option_bind].
  destruct (_ =? 0); cbn [negb]; [|by exists s, []]. destruct (cc <? ICMP_MINLEN); [by exists s, []|].
  unfold load32. rewrite !load_bytes by lia. cbn [fmap option_fmap option_map mbind option_bind].
  destruct Hi as [Ht HK Hifs Hr Hn Hs Hx]. pose proof (ifs_ok_le _ _ Hifs) as Hle.
  unfold the_interfaces. rewrite (proj2 (Nat.leb_le _ _)) by done. cbn [mbind option_bind].
  destruct (_ =? 0).
  - destruct (advertise_some y (interfaces s) (num_interfaces s)
                (if ismulticast (le_value (bytes buf 16 4)) then ALL_HOSTS else INADDR_BROADCAST) (lifetime o) Hle) as (es & E & He).
    cbn [interfaces num_interfaces set_left]. rewrite E. cbn [mbind option_bind]. eexists _, es. split; [done|]. split_and!; try done.
    split; try done; simpl; try lia; intros; try congruence; lia.
  - destruct (is_directly_connected _ _); [|by exists s, []].
    destruct (advertise_some y (interfaces s) (num_interfaces s) (le_value (bytes buf 12 4)) (lifetime o) Hle) as (es & E & He).
    rewrite E. cbn [mbind option_bind]. eexists _, es. split; [done|]. split_and!; try done.
    split; try done; simpl; try lia; intros; try congruence; lia.
Qed.

Lemma pr_pack_run o y mem rnd buf cc s K m : st_inv o s K -> exited s = None -> length buf = MAXPACKET -> 0 <= cc <= 4096 ->
  exists s' es, pr_pack o y mem rnd buf cc s = Some (s', es) /\ st_inv o s' (requested es K) /\
    ((forall i, mem i = true) -> repr (table s) m -> repr (table s') (spec_step o (Received y mem rnd buf cc) s m)).
Proof.
  intros Hi Hex Hl Hc. assert (Hlen : length buf = Z.to_nat 4096) by exact Hl. unfold pr_pack, spec_step, told.
  rewrite load8_byte by lia. cbn [mbind option_bind].
  assert (Eh : Z.shiftl (Z.land (byte buf 0) 0xf) 2 = 4 * (byte buf 0 mod 16)).
  { change 0xf with (Z.ones 4). rewrite Z.land_ones, Z.shiftl_mul_pow2 by lia. change (2 ^ 4) with 16. lia. }
  rewrite Eh. pose proof (Z.mod_pos_bound (byte buf 0) 16 ltac:(lia)). set (hlen := 4 * (byte buf 0 mod 16)) in *.
  destruct (Z.ltb_spec cc (hlen + 8)), (Z.leb_spec (hlen + 8) cc); try lia; cbn [andb]; [by exists s, []|].
  set (icmp := drop (Z.to_nat hlen) buf).
  assert (Hil : length icmp = (Z.to_nat 4096 - Z.to_nat hlen)%nat) by (unfold icmp; rewrite length_drop; lia).
  rewrite load8_byte by lia. cbn [mbind option_bind].
  destruct (Z.eqb_spec (byte icmp 0) ICMP_ROUTER_ADVERTISEMENT) as [E9|N9]; cbn [andb].
  - destruct (responder o); [exists s, []; destruct (ra_ok icmp (cc - hlen)); by split_and!|].
    destruct (receive_advertisement_run o mem icmp (cc - hlen) s K) as (s' & es & E & Hi' & Hrest); [done|done|lia|lia|].
    exists s', es. split; [done|]. split; [done|]. intros Hmem Hm. destruct (ra_ok icmp (cc - hlen)); [by apply Hrest|].
    by destruct Hrest as [-> _].
  - destruct (Z.eqb_spec (byte icmp 0) ICMP_ROUTER_SOLICITATION); [|by exists s, []]. destruct (responder o) eqn:Er; [|by exists s, []].
    destruct (receive_solicitation_run o y rnd buf icmp (cc - hlen) s K) as (s' & es & E & He & Hi' & Et); [done|done|done|lia|lia|].
    exists s', es. rewrite requested_no_route by done. split_and!; try done. intros _. by rewrite Et.
Qed.

Lemma rd_finish_run o y s K : st_inv o s K ->
  exists s' es, finish o y s = Some (s', es) /\ Forall no_route es /\ st_inv o s' K /\ table s' = table s /\ exited s' = Some 0.
Proof.
  intros [Ht HK Hifs Hr Hn Hs Hx]. unfold finish. destruct (responder o) eqn:Er.
  - destruct (advertise_some y (interfaces s) (num_interfaces s) (whereto o) 0 (ifs_ok_le _ _ Hifs)) as (es & E & He).
    rewrite E. cbn [mbind option_bind]. eexists _, _. split; [done|]. split_and!; try done.
    + apply no_route_app; [done|by repeat constructor].
    + split; try done; simpl; congruence.
  - cbn [mbind option_bind]. eexists _, _. split; [done|]. split_and!; try done; [by repeat constructor|].
    split; try done; simpl. intros _. by apply Hs.
Qed.

Lemma table_inv_nil best : table_inv best [].
Proof. split; [apply NoDup_nil_2|done..]. Qed.

Lemma tracks_nil : tracks [] ∅.
Proof. intros r. unfold in_routes. simpl. set_solver. Qed.

Lemma graceful_run o y s K : st_inv o s K ->
  exists s' es, graceful_finish o y s = Some (s', es) /\ st_inv o s' (requested es K) /\ table s' = [] /\ exited s' = Some 0 /\ requested es K = ∅.
Proof.
  intros [Ht HK Hifs Hr Hn Hs Hx]. unfold graceful_finish.
  destruct (rd_finish_run o y (set_table [] s) ∅) as (s' & es & E & He & Hi' & Et & Hex).
  { split; try done; apply table_inv_nil || apply tracks_nil. }
  rewrite E. cbn [mbind option_bind]. eexists _, _. split; [done|].
  rewrite requested_app, (tracks_discard _ _ (ti_ok _ _ Ht) HK), requested_no_route by done. by split_and!.
Qed.

(** ** Every event *)

Lemma handle_run o ev s K m : st_inv o s K -> exited s = None -> ev_ok ev ->
  exists s' es, handle o ev s = Some (s', es) /\ st_inv o s' (requested es K) /\
    (mem_ok ev -> repr (table s) m -> repr (table s') (spec_step o ev s m)).
Proof.
  intros Hi Hex Hev. destruct ev as [y conf rnd|conf|y|y|y mem rnd buf cc|]; simpl in *.
  - destruct (timer_run o y conf rnd s K m Hi Hex Hev) as (s' & es & E & Hi' & Hm). exists s', es. split_and!; auto.
  - destruct Hi as [Ht HK Hifs Hr Hn Hs Hx]. destruct (initifs_some conf _ _ Hev Hifs) as (ifs' & n' & E & Hok).
    rewrite E. cbn [mbind option_bind]. eexists _, []. split; [done|]. split; [by split|done].
  - destruct (graceful_run o y s K Hi) as (s' & es & E & Hi' & Et & _ & _). exists s', es. split_and!; try done.
    intros _ _. rewrite Et. intros r. by rewrite lookup_empty.
  - destruct (rd_finish_run o y s K Hi) as (s' & es & E & He & Hi' & Et & _). exists s', es. rewrite requested_no_route by done.
    split_and!; try done. intros _. by rewrite Et.
  - destruct Hev as [Hl Hc]. by apply (pr_pack_run o y mem rnd buf cc s K m).
  - by exists s, [].
Qed.

(** The map after a run, with the interfaces the program had at each event. *)
Fixpoint spec_run (o : options) (evs : list event) (s : rdisc) (m : rmap) : rmap :=
  match evs with
  | [] => m
  | ev :: evs' =>
      match exited s, handle o ev s with
      | None, Some (s', _) => spec_run o evs' s' (spec_step o ev s m)
      | _, _ => m
      end
  end.

Lemma run_run o evs : forall s K m, st_inv o s K -> Forall ev_ok evs ->
  exists s' es, run o evs s = Some (s', es) /\ st_inv o s' (requested es K) /\
    (Forall mem_ok evs -> repr (table s) m -> repr (table s') (spec_run o evs s m)).
Proof.
  induction evs as [|ev evs IH]; intros s K m Hi Hev; [by exists s, []|]. apply Forall_cons in Hev as [Hev Hevs].
  cbn [run spec_run]. destruct (exited s) eqn:Hex; [by exists s, []|].
  destruct (handle_run o ev s K m Hi Hex Hev) as (s1 & es1 & E1 & Hi1 & Hm1). rewrite E1. cbn [mbind option_bind].
  destruct (IH s1 (requested es1 K) (spec_step o ev s m) Hi1 Hevs) as (s' & es & E & Hi' & Hm'). rewrite E. cbn [mbind option_bind].
  exists s', (es1 ++ es). rewrite requested_app. split_and!; try done. intros [H1 H2]%Forall_cons Hm. auto.
Qed.
