(* ===== verification/RdiscTheorems.v ===== *)
(** * Properties of rdisc *)

From Stdlib Require Import ZArith Lia String.
From stdpp Require Import base gmap numbers option list sets.
From S2P Require Import Prelude Ping PingPacket PingFour Rdisc RdiscTable RdiscRun.

Local Open Scope list_scope.
Local Open Scope Z_scope.
Local Abbreviation length := List.length.

(** ** Start *)

Lemma init_inv o conf sol fore : conf_ok conf ->
  exists s, init o conf (start sol fore) = Some s /\ st_inv o s ∅ /\ table s = [] /\ exited s = None /\
    solicit s = sol /\ forever s = fore /\ ntransmitted s = 0 /\ nreceived s = 0 /\
    left_until_solicit s = 0 /\ left_until_getifconf s = 0.
Proof.
  intros Hc. unfold init. destruct (initifs_some conf [] 0 Hc) as (ifs & n & E & Hok); [by left|]. cbn [interfaces num_interfaces start].
  rewrite E. cbn [mbind option_bind]. eexists. split; [done|]. split_and!; try done.
  split; try done; [apply table_inv_nil|].
  unfold ifs_ok in *. simpl. rewrite length_fmap. destruct Hok as [[-> ->]|?]; [by left|by right].
Qed.

(** A router on one link, and what it announces. *)
Definition demo_if : interface := mkIf 0x0101a8c0 0x0101a8c0 7 0x1043 0xff01a8c0 0x0101a8c0 0x00ffffff 2.
Definition demo_sys : sys := mkSys (fun _ => true) (fun _ => true).
Definition demo_answer : ifanswer := mkAnswer 4 AF_INET 0x0201a8c0 (Some 0x1043) (Some 2) None (Some 0x00ffffff) (Some 0xff01a8c0).
Definition demo_conf : ifconf := Conf (replicate MAXIFS (mkIf 0 0 0 0 0 0 0 0)) [demo_answer].
Definition demo_host : options := mkOptions true false false 600 0 0x020000e0.
Definition demo_header : list Z := 0x45 :: replicate 19 0.
Definition demo_packet : list Z := demo_header ++ advertisement 1800 demo_if ++ replicate (MAXPACKET - 36) 0.
Definition demo_events : list event :=
  [SIGALRM demo_sys demo_conf 0; Received demo_sys (fun _ => true) 0 demo_packet 36; SIGALRM demo_sys demo_conf 0].

Lemma demo_conf_ok : conf_ok demo_conf.
Proof. split; [done|]. simpl. unfold MAXIFS. lia. Qed.

Lemma demo_events_ok : Forall ev_ok demo_events.
Proof. repeat apply Forall_cons_2; [apply demo_conf_ok|split; [reflexivity|lia]|apply demo_conf_ok|apply Forall_nil_2]. Qed.

Lemma demo_mem_ok : Forall mem_ok demo_events.
Proof. repeat apply Forall_cons_2; try done. Qed.

(** ** Routes *)

(** C9: The routes.  Whatever signals and packets arrive, the default routes
    that rdisc has asked the kernel for are at any time those of the
    specification: among the routers heard of whose lifetime has not run out,
    the eligible ones, and of these only the ones with the greatest preference
    unless all are to be used; after SIGTERM there are none. *)
Theorem rdisc_routes_correct o conf sol fore evs :
  conf_ok conf -> Forall ev_ok evs -> Forall mem_ok evs ->
  exists s0 s es, init o conf (start sol fore) = Some s0 /\ run o evs s0 = Some (s, es) /\
    forall r, r ∈ requested es ∅ <-> wanted (best_preference o) (spec_run o evs s0 ∅) r.
Proof.
  intros Hc Hev Hmem. destruct (init_inv o conf sol fore Hc) as (s0 & E0 & Hi & Et & _).
  destruct (run_run o evs s0 ∅ ∅ Hi Hev) as (s & es & E & Hi' & Hm). exists s0, s, es. split; [done|]. split; [done|].
  apply (repr_wanted _ (table s)); [apply Hi'|apply Hi'|]. apply Hm; [done|]. rewrite Et. intros r. by rewrite lookup_empty.
Qed.

Lemma rdisc_routes_correct_witness :
  exists s0 s es, init demo_host demo_conf (start true false) = Some s0 /\ run demo_host demo_events s0 = Some (s, es) /\
    0x0101a8c0 ∈ requested es ∅ /\ wanted true (spec_run demo_host demo_events s0 ∅) 0x0101a8c0.
Proof.
  destruct (rdisc_routes_correct demo_host demo_conf true false demo_events demo_conf_ok demo_events_ok demo_mem_ok) as (s0 & s & es & E0 & E & H).
  exists s0, s, es. split; [exact E0|]. split; [exact E|].
  assert (Hin : 0x0101a8c0 ∈ requested es ∅).
  { vm_compute in E0. injection E0 as <-. vm_compute in E. injection E as _ <-. vm_compute. set_solver. }
  split; [exact Hin|]. apply H, Hin.
Defined.

(** ** The array of interfaces

    When the malloc of [initifs] fails, [interfaces] is NULL.  Until an array is
    made the program goes on as if it had kept the old one, or dereferences
    NULL. *)

Definition kept (conf : ifconf) : ifconf := match conf with NoArray => NoBuffer | _ => conf end.

Definition kept_event (ev : event) : event :=
  match ev with SIGALRM y conf rnd => SIGALRM y (kept conf) rnd | SIGHUP conf => SIGHUP (kept conf) | _ => ev end.

(** What the kernel may answer, and what an event may be, this failure
    included. *)
Definition conf_any (conf : ifconf) : Prop := conf_ok (kept conf).
Definition ev_any (ev : event) : Prop := ev_ok (kept_event ev).

(** The failure. *)
Definition loses_array (ev : event) : Prop :=
  match ev with SIGALRM _ conf _ | SIGHUP conf => conf = NoArray | _ => False end.

Definition lost (s : rdisc) : rdisc := set_interfaces ([], num_interfaces s) s.

Definition shadows (s g : rdisc) : Prop := s = g \/ s = lost g.

(** The first computation fails, or does what the second does. *)
Definition follows (a b : option (rdisc * list effect)) : Prop :=
  match a, b with
  | None, _ => True
  | Some (s, es), Some (g, es') => es = es' /\ shadows s g
  | Some _, None => False
  end.

Lemma follows_refl a : follows a a.
Proof. destruct a as [[s es]|]; [|done]. split; [done|by left]. Qed.

Lemma follows_bind {A} (o : option A) f f' : (forall x, follows (f x) (f' x)) -> follows (o ≫= f) (o ≫= f').
Proof. intros H. destruct o; [apply H|done]. Qed.

Lemma follows_both a b f f' : follows a b -> (forall s g es, shadows s g -> follows (f (s, es)) (f' (g, es))) -> follows (a ≫= f) (b ≫= f').
Proof. intros H Hf. destruct a as [[s es]|], b as [[g es']|]; try done. destruct H as [-> H]. by apply Hf. Qed.

Lemma follows_weak {A} (o o' : option A) f f' : o = None \/ o = o' -> (forall x, follows (f x) (f' x)) -> follows (o ≫= f) (o' ≫= f').
Proof. intros [-> | ->] H; [done|by apply follows_bind]. Qed.

Lemma the_interfaces_lost ifs n : the_interfaces [] n = None \/ the_interfaces [] n = the_interfaces ifs n.
Proof. destruct n; [by right|by left]. Qed.

Lemma advertise_lost y ifs n dst l : advertise y [] n dst l = None \/ advertise y [] n dst l = advertise y ifs n dst l.
Proof. unfold advertise. destruct (the_interfaces_lost ifs n) as [-> | ->]; auto. Qed.

Lemma solicitor_lost y ifs n dst : solicitor y [] n dst = None \/ solicitor y [] n dst = solicitor y ifs n dst.
Proof. unfold solicitor. destruct (the_interfaces_lost ifs n) as [-> | ->]; destruct (isbroadcast dst), (ismulticast dst); auto. Qed.

Lemma initifs_kept conf s g : shadows s g ->
  match initifs conf (interfaces s) (num_interfaces s), initifs (kept conf) (interfaces g) (num_interfaces g) with
  | Some x, Some x' => x = x' \/ x = ([], snd x')
  | None, None => True
  | _, _ => False
  end.
Proof.
  intros [-> | ->]; destruct conf as [| | |fresh|fresh rs]; cbn; auto; destruct (ifconf_loop rs 0 fresh); auto.
Qed.

Lemma advertisement_follows o mem icmp cc g : follows (receive_advertisement o mem icmp cc (lost g)) (receive_advertisement o mem icmp cc g).
Proof.
  assert (Hs : forall es, follows (Some (lost g, es)) (Some (g, es))) by (split; [done|by right]).
  unfold receive_advertisement. apply follows_bind. intros pkt. destruct (negb _); [apply Hs|]. apply follows_bind. intros code.
  destruct (negb _); [apply Hs|]. apply follows_bind. intros num. destruct (_ <? 1); [apply Hs|]. apply follows_bind. intros wpa.
  destruct (_ <? 2); [apply Hs|]. destruct (_ <? _); [apply Hs|]. apply follows_bind. intros lft.
  eapply follows_weak; [apply the_interfaces_lost|]. intros ifs. change (table (lost g)) with (table g). apply follows_bind. intros [t es].
  cbn [forever set_counts set_table lost set_interfaces]. destruct (forever g); (split; [done|by right]).
Qed.

Lemma solicitation_follows o y rnd buf icmp cc g :
  follows (receive_solicitation o y rnd buf icmp cc (lost g)) (receive_solicitation o y rnd buf icmp cc g).
Proof.
  assert (Hs : forall es, follows (Some (lost g, es)) (Some (g, es))) by (split; [done|by right]).
  unfold receive_solicitation. apply follows_bind. intros pkt. destruct (negb _); [apply Hs|]. apply follows_bind. intros code.
  destruct (negb _); [apply Hs|]. destruct (_ <? _); [apply Hs|]. apply follows_bind. intros sa. apply follows_bind. intros da.
  eapply follows_weak; [apply the_interfaces_lost|]. intros ifs.
  destruct (_ =? 0); [eapply follows_weak; [apply advertise_lost|]; intros es; split; [done|by right]|].
  destruct (is_directly_connected ifs sa); [eapply follows_weak; [apply advertise_lost|]; intros es; split; [done|by right]|apply Hs].
Qed.

Lemma pr_pack_follows o y mem rnd buf cc g : follows (pr_pack o y mem rnd buf cc (lost g)) (pr_pack o y mem rnd buf cc g).
Proof.
  assert (Hs : forall es, follows (Some (lost g, es)) (Some (g, es))) by (split; [done|by right]).
  unfold pr_pack. apply follows_bind. intros b0. destruct (_ <? _); [apply Hs|]. apply follows_bind. intros type.
  destruct (_ =? _); [destruct (responder o); [apply Hs|apply advertisement_follows]|].
  destruct (_ =? _); [destruct (responder o); [apply solicitation_follows|apply Hs]|apply Hs].
Qed.

Lemma finish_follows o y g : follows (finish o y (lost g)) (finish o y g).
Proof.
  unfold finish. eapply follows_both.
  - destruct (responder o); [|split; [done|by right]]. eapply follows_weak; [apply advertise_lost|]. intros es. split; [done|by right].
  - intros s g' es [-> | ->]; (split; [done|]); [by left|by right].
Qed.

Lemma timer_send_follows o y rnd g : follows (timer_send o y rnd (lost g)) (timer_send o y rnd g).
Proof.
  unfold timer_send. cbn [left_until_advertise solicit left_until_solicit lost set_interfaces]. destruct (_ && _).
  { eapply follows_weak; [apply advertise_lost|]. intros es. split; [done|by right]. }
  destruct (_ && _); [|split; [done|by right]]. eapply follows_weak; [apply solicitor_lost|]. intros es.
  cbn [ntransmitted set_counts forever nreceived lost set_interfaces]. destruct (_ <? _); [split; [done|by right]|].
  destruct (_ && _); (split; [done|by right]).
Qed.

Lemma timer_follows o y conf rnd s g : shadows s g -> follows (timer o y conf rnd s) (timer o y (kept conf) rnd g).
Proof.
  intros Hs. unfold timer. set (s0 := set_left _ _ _ s). set (g0 := set_left _ _ _ g).
  assert (H0 : shadows s0 g0) by (destruct Hs as [-> | ->]; [by left|by right]).
  assert (El : left_until_getifconf s0 = left_until_getifconf g0) by (destruct Hs as [-> | ->]; done). rewrite El. clearbody s0 g0.
  assert (Hend : forall s1 g1, shadows s1 g1 -> follows
    ('(s, es) ← timer_send o y rnd s1; match exited s with Some _ => Some (s, es) | None =>
       let '(t, es') := age_table (best_preference o) TIMER_INTERVAL (table s) in Some (set_table t s, es ++ es' ++ [Alarm TIMER_INTERVAL]) end)
    ('(s, es) ← timer_send o y rnd g1; match exited s with Some _ => Some (s, es) | None =>
       let '(t, es') := age_table (best_preference o) TIMER_INTERVAL (table s) in Some (set_table t s, es ++ es' ++ [Alarm TIMER_INTERVAL]) end)).
  { intros s1 g1 H1. eapply follows_both.
    - destruct H1 as [-> | ->]; [apply follows_refl|apply timer_send_follows].
    - intros s2 g2 es [-> | ->]; [apply follows_refl|]. cbn [exited table lost set_interfaces]. destruct (exited g2); [split; [done|by right]|].
      destruct (age_table _ _ _) as [t es']. split; [done|by right]. }
  destruct (_ <? 0); [|by apply Hend]. pose proof (initifs_kept conf s0 g0 H0) as Hi.
  destruct (initifs conf (interfaces s0) _) as [x|], (initifs (kept conf) (interfaces g0) _) as [x'|]; try done. cbn [fmap option_fmap option_map mbind option_bind].
  apply Hend. destruct Hi as [-> | ->], H0 as [-> | ->]; [by left|by left|right|right]; done.
Qed.

Lemma handle_follows o ev s g : shadows s g -> follows (handle o ev s) (handle o (kept_event ev) g).
Proof.
  intros Hs. destruct ev as [y conf rnd|conf|y|y|y mem rnd buf cc|]; cbn [handle kept_event].
  - by apply timer_follows.
  - pose proof (initifs_kept conf s g Hs) as Hi.
    destruct (initifs conf (interfaces s) _) as [x|], (initifs (kept conf) (interfaces g) _) as [x'|]; try done. split; [done|].
    destruct Hi as [-> | ->], Hs as [-> | ->]; [by left|by left|right|right]; done.
  - destruct Hs as [-> | ->]; [apply follows_refl|]. unfold graceful_finish. change (table (lost g)) with (table g).
    change (set_table [] (lost g)) with (lost (set_table [] g)). eapply follows_both; [apply finish_follows|]. intros s g' es Hs. by split.
  - destruct Hs as [-> | ->]; [apply follows_refl|apply finish_follows].
  - destruct Hs as [-> | ->]; [apply follows_refl|apply pr_pack_follows].
  - by split.
Qed.

Lemma run_follows o evs : forall s g, shadows s g -> follows (run o evs s) (run o (kept_event <$> evs) g).
Proof.
  induction evs as [|ev evs IH]; intros s g Hs; cbn [run fmap list_fmap]; [by split|].
  assert (Ex : exited s = exited g) by (by destruct Hs as [-> | ->]). rewrite Ex. destruct (exited g); [by split|].
  eapply follows_both; [by apply handle_follows|]. intros s1 g1 es1 H1. eapply follows_both; [by apply IH|]. intros s2 g2 es2 H2. by split.
Qed.

(** Without the failure nothing is different. *)
Lemma kept_same evs : Forall (fun ev => ~ loses_array ev) evs -> kept_event <$> evs = evs.
Proof.
  induction 1 as [|ev evs He _ IH]; [done|]. cbn. rewrite IH. f_equal.
  destruct ev as [y [] rnd|[]|y|y|y mem rnd buf cc|]; cbn in *; try done; by destruct (He eq_refl).
Qed.

#[export] Instance loses_array_dec ev : Decision (loses_array ev).
Proof. unfold Decision, loses_array. destruct ev as [y [] rnd|[]|y|y|y mem rnd buf cc|]; try (by left); right; by intros ?. Defined.

Lemma lost_somewhere evs : kept_event <$> evs = evs \/ Exists loses_array evs.
Proof.
  destruct (decide (Exists loses_array evs)) as [H|H]; [by right|]. left. by apply kept_same, Forall_Exists_neg.
Qed.

(** ** Safety *)

(** C22: Whatever the interfaces, signals and packets (any bytes, of any claimed
    length), rdisc goes on without an access outside its arrays, unless the
    malloc of the array of interfaces fails in [initifs], called by the timer or
    after SIGHUP: then NULL may be dereferenced, and nothing else goes wrong.
    The flags of the table say which routes it has asked for, a host sends at
    most three solicitations, and it ends with code 5 only if nothing was
    received. *)
Theorem rdisc_safe o sol fore recvaddress ok conf y conf1 rnd evs :
  conf_any conf -> conf_any conf1 -> Forall ev_any evs ->
  match rdisc_main o sol fore recvaddress ok conf y conf1 rnd evs with
  | Some (s, es) =>
      (forall r, r ∈ requested es ∅ <-> in_routes (table s) r = true) /\
      (responder o = false -> 0 <= ntransmitted s <= MAX_SOLICITATIONS) /\
      (exited s = Some 5 -> nreceived s = 0)
  | None => Exists loses_array (SIGALRM y conf1 rnd :: evs)
  end.
Proof.
  intros Hc Hc1 Hev. unfold rdisc_main.
  set (x := if negb (sol && negb fore) then (do_fork o, true) else ([], fore)).
  assert (Hx : Forall no_route x.1) by (unfold x; destruct (negb _); [unfold do_fork; destruct (op_trace o)|]; by repeat constructor).
  destruct x as [es0 fore']. cbn [fst] in Hx. destruct (init_inv o (kept conf) sol fore' Hc) as (s0 & E0 & Hi & _).
  assert (E0' : init o conf (start sol fore') = Some s0) by (revert E0; by destruct conf). rewrite E0'. cbn [mbind option_bind].
  unfold the_interfaces. rewrite (proj2 (Nat.leb_le _ _)) by (apply ifs_ok_le, Hi). cbn [mbind option_bind].
  set (all := SIGALRM y conf1 rnd :: evs). assert (Hall : Forall ev_ok (kept_event <$> all)) by (apply Forall_fmap, Forall_cons_2; done).
  destruct (if isbroadcast recvaddress then Some [] else join_loop ok _ 0 []).
  - destruct (run_run o (kept_event <$> all) s0 ∅ ∅ Hi Hall) as (g & es & E & Hi' & _). pose proof (run_follows o all s0 s0 (or_introl eq_refl)) as Hf.
    rewrite E in Hf. destruct (run o all s0) as [[s es']|] eqn:Er; cbn [mbind option_bind follows] in *.
    + destruct Hf as [-> Hs]. rewrite requested_app, (requested_no_route es0) by done.
      assert (Hp : (forall r, r ∈ requested es ∅ <-> in_routes (table g) r = true) /\ (responder o = false -> 0 <= ntransmitted g <= MAX_SOLICITATIONS)
        /\ (exited g = Some 5 -> nreceived g = 0)) by (split_and!; [apply Hi'|intros Hr; by apply (si_sent _ _ _ Hi')|intros Hx5; by apply (si_exit _ _ _ Hi')]).
      by destruct Hs as [-> | ->].
    + destruct (lost_somewhere all) as [Es|?]; [|done]. rewrite Es, Er in E. done.
  - rewrite requested_app, (requested_no_route es0) by done.
    destruct Hi as [Ht HK Hifs Hr Hn Hs Hx5]. split_and!; [apply HK|intros H0; by apply Hs|done].
Qed.

(** The demo run; and one in which the timer gets no memory, and a packet
    arrives. *)
Definition demo_lost : list event := [SIGHUP NoArray; Received demo_sys (fun _ => true) 0 demo_packet 36].

Lemma rdisc_safe_witness :
  (exists s es, rdisc_main demo_host true false 0x010000e0 (fun _ => true) demo_conf demo_sys demo_conf 0 demo_events = Some (s, es) /\
    0 <= ntransmitted s <= 3)
  /\ rdisc_main demo_host true false 0x010000e0 (fun _ => true) demo_conf demo_sys demo_conf 0 demo_lost = None
  /\ Exists loses_array (SIGALRM demo_sys demo_conf 0 :: demo_lost).
Proof.
  split.
  - pose proof (rdisc_safe demo_host true false 0x010000e0 (fun _ => true) demo_conf demo_sys demo_conf 0 demo_events demo_conf_ok demo_conf_ok) as H.
    assert (E : exists s es, rdisc_main demo_host true false 0x010000e0 (fun _ => true) demo_conf demo_sys demo_conf 0 demo_events = Some (s, es))
      by (eexists _, _; vm_compute; reflexivity).
    destruct E as (s & es & E). rewrite E in H. exists s, es. split; [exact E|]. apply H; [|reflexivity]. repeat apply Forall_cons_2; [exact demo_conf_ok|split; [reflexivity|lia]|exact demo_conf_ok|apply Forall_nil_2].
  - pose proof (rdisc_safe demo_host true false 0x010000e0 (fun _ => true) demo_conf demo_sys demo_conf 0 demo_lost demo_conf_ok demo_conf_ok) as H.
    assert (E : rdisc_main demo_host true false 0x010000e0 (fun _ => true) demo_conf demo_sys demo_conf 0 demo_lost = None) by (vm_compute; reflexivity).
    rewrite E in H. split; [exact E|]. apply H. repeat apply Forall_cons_2; [exact I|split; [reflexivity|lia]|apply Forall_nil_2].
Defined.

(** ** Lifetimes *)

Definition view (t : list entry) : rmap := list_to_map ((fun e => (router e, (preference e, remaining_time e))) <$> t).

Lemma repr_view t : repr t (view t).
Proof.
  intros r. unfold view, look. induction t as [|e t IH]; [done|]. rewrite fmap_cons. simpl.
  destruct (Z.eqb_spec (router e) r) as [<-|]; [by rewrite lookup_insert_eq|]. by rewrite lookup_insert_ne.
Qed.

Lemma old_by_old a b x : 0 <= a -> 0 <= b -> old_by a x ≫= old_by b = old_by (a + b) x.
Proof.
  intros Ha Hb. unfold old_by. destruct x as [p l]. simpl. destruct (Z.leb_spec (l - a) 0); simpl.
  - destruct (Z.leb_spec (l - (a + b)) 0); [done|lia].
  - replace (l - a - b) with (l - (a + b)) by lia. by destruct (Z.leb_spec (l - (a + b)) 0).
Qed.

Definition is_alarm (ev : event) : Prop := match ev with SIGALRM _ _ _ => True | _ => False end.

Lemma alarms_run o alarms : forall s K, st_inv o s K -> Forall ev_ok alarms -> Forall is_alarm alarms -> alarms <> [] -> exited s = None ->
  exists s' es, run o alarms s = Some (s', es) /\
    (exited s' = None -> forall r, look (table s') r = look (table s) r ≫= old_by (3 * Z.of_nat (length alarms))).
Proof.
  induction alarms as [|ev alarms IH]; intros s K Hi Hev Hal Hne Hex; [done|].
  apply Forall_cons in Hev as [Hev Hevs], Hal as [Ha Hals]. destruct ev as [y conf rnd|?|?|?|? ? ? ? ?|]; try done.
  cbn [run handle]. rewrite Hex.
  destruct (timer_run o y conf rnd s K (view (table s)) Hi Hex Hev) as (s1 & es1 & E1 & Hi1 & Hm). rewrite E1. cbn [mbind option_bind].
  assert (H1 : forall r, look (table s1) r = look (table s) r ≫= old_by 3).
  { intros r. rewrite <- (Hm (repr_view _) r). unfold tick. rewrite lookup_omap, (repr_view (table s) r). done. }
  destruct (exited s1) as [c|] eqn:Hex1.
  { exists s1, (es1 ++ []). split; [|by rewrite Hex1]. destruct alarms; cbn [run]; rewrite ?Hex1; done. }
  destruct alarms as [|ev2 alarms]; [exists s1, (es1 ++ []); by split|].
  destruct (IH s1 (requested es1 K)) as (s' & es & E & H2); [done..|].
  rewrite E. cbn [mbind option_bind]. exists s', (es1 ++ es). split; [done|]. intros Hex' r. rewrite (H2 Hex' r), H1.
  destruct (look (table s) r) as [x|]; [|done]. cbn [mbind option_bind]. rewrite old_by_old by lia. f_equal. cbn [length]. lia.
Qed.

(** Lifetimes.  While only the timer runs, a router heard of with [l]
    seconds left is still in the table after [n] calls, with [l - 3 n] seconds,
    if that is positive, and has been removed otherwise. *)
Theorem rdisc_expiry o s K alarms :
  st_inv o s K -> exited s = None -> Forall ev_ok alarms -> Forall is_alarm alarms -> alarms <> [] ->
  exists s' es, run o alarms s = Some (s', es) /\
    (exited s' = None -> forall r p l, look (table s) r = Some (p, l) ->
       let left := l - TIMER_INTERVAL * Z.of_nat (length alarms) in
       look (table s') r = if 0 <? left then Some (p, left) else None).
Proof.
  intros Hi Hex Hev Hal Hne. destruct (alarms_run o alarms s K Hi Hev Hal Hne Hex) as (s' & es & E & H). exists s', es.
  split; [done|]. intros Hex' r p l Hl left. rewrite (H Hex' r), Hl. cbn [mbind option_bind]. unfold old_by, left, TIMER_INTERVAL. simpl.
  destruct (Z.leb_spec (l - 3 * Z.of_nat (length alarms)) 0), (Z.ltb_spec 0 (l - 3 * Z.of_nat (length alarms))); try lia; done.
Qed.

(** A host that knows one router, for 10 seconds. *)
Definition demo_state : rdisc := mkRdisc false true 3 1 [mkEntry 0x0101a8c0 7 10 true] [] 0 0 0 0 None.

Lemma demo_state_inv : st_inv demo_host demo_state {[0x0101a8c0]}.
Proof.
  assert (Hf : forall r, find_router r (table demo_state) = if 0x0101a8c0 =? r then Some (mkEntry 0x0101a8c0 7 10 true) else None) by done.
  split; try done; [|intros r; unfold in_routes; rewrite Hf|by left].
  - split; [apply NoDup_singleton|intros r e; rewrite Hf..]; destruct (_ =? r); try done; intros [= <-]; [done|by split].
  - destruct (Z.eqb_spec 0x0101a8c0 r) as [<-|]; set_solver.
Qed.

Lemma rdisc_expiry_witness :
  exists s1 es1 s2 es2,
    run demo_host [SIGALRM demo_sys NoSocket 0; SIGALRM demo_sys NoSocket 0; SIGALRM demo_sys NoSocket 0] demo_state = Some (s1, es1) /\
    look (table s1) 0x0101a8c0 = Some (7, 1) /\
    run demo_host [SIGALRM demo_sys NoSocket 0; SIGALRM demo_sys NoSocket 0; SIGALRM demo_sys NoSocket 0; SIGALRM demo_sys NoSocket 0]
      demo_state = Some (s2, es2) /\ look (table s2) 0x0101a8c0 = None.
Proof.
  destruct (rdisc_expiry demo_host demo_state _ (replicate 3 (SIGALRM demo_sys NoSocket 0)) demo_state_inv eq_refl) as (s1 & es1 & E1 & H1);
    [by repeat constructor|by repeat constructor|done|].
  destruct (rdisc_expiry demo_host demo_state _ (replicate 4 (SIGALRM demo_sys NoSocket 0)) demo_state_inv eq_refl) as (s2 & es2 & E2 & H2);
    [by repeat constructor|by repeat constructor|done|].
  exists s1, es1, s2, es2. split; [exact E1|]. split.
  - apply (fun H => H1 H 0x0101a8c0 7 10 eq_refl). vm_compute in E1. injection E1 as <- _. reflexivity.
  - split; [exact E2|]. apply (fun H => H2 H 0x0101a8c0 7 10 eq_refl). vm_compute in E2. injection E2 as <- _. reflexivity.
Defined.

(** ** Advertisements *)

(** A packet whose checksum has been filled in is accepted. *)
Lemma with_cksum_valid a b l : in_u 8 a -> in_u 8 b -> Forall (in_u 8) l -> (length l <= 1000)%nat ->
  rd_in_cksum (with_cksum ([a; b; 0; 0] ++ l)) = 0.
Proof.
  intros Ha Hb Hl Hn. unfold with_cksum. set (body := [a; b; 0; 0] ++ l).
  assert (Hbody : Forall (in_u 8) body) by (unfold body; repeat (apply Forall_cons; split; [done|]); done).
  assert (Hlb : (length body <= Z.to_nat 65534)%nat) by (unfold body; simpl; lia).
  change (take 2 body) with [a; b]. change (drop 4 body) with l.
  unfold rd_in_cksum. pose proof (in_cksum_run body 0 Hbody Hlb ltac:(lia)) as Eck. rewrite Z.add_0_l in Eck.
  assert (Hw : 0 <= wsum body) by (apply wsum_bounds, Hbody). pose proof (ones_sum_range (wsum body)) as Hr.
  set (ck := in_cksum body 0) in *.
  rewrite in_cksum_run; [|apply Forall_app; split; [by repeat (apply Forall_cons; split; [done|])|apply Forall_app; split; [apply le_bytes_range|done]]
                        |simpl; lia|lia].
  assert (Es : wsum ([a; b] ++ le_bytes 2 ck ++ l) = wsum body + ck).
  { pose proof (le_value_bytes 2 ck) as Hv. rewrite Z.mod_small in Hv by (simpl; lia). simpl in Hv |- *. lia. }
  rewrite Z.add_0_l, Es, Eck, ones_sum_complement by done. lia.
Qed.

Definition if_ok (f : interface) : Prop := in_u 32 (if_localaddr f) /\ in_s 32 (if_preference f).

Lemma reverse_bytes n v : 0 <= v < 2 ^ (8 * Z.of_nat n) -> le_value (reverse (reverse (le_bytes n v))) = v.
Proof. intros H. rewrite reverse_involutive, le_value_bytes. by apply Z.mod_small. Qed.

Lemma advertisement_ok lft f : rd_in_cksum (advertisement lft f) = 0.
Proof.
  apply (with_cksum_valid 9 0 ([1; 2] ++ reverse (le_bytes 2 lft) ++ le_bytes 4 (if_localaddr f) ++ reverse (le_bytes 4 (if_preference f)))).
  - unfold in_u. lia.
  - unfold in_u. lia.
  - apply Forall_app. split; [repeat (apply Forall_cons; split; [unfold in_u; lia|]); apply Forall_nil_2|].
    repeat (apply Forall_app; split); rewrite ?Forall_reverse; apply le_bytes_range.
  - simpl. lia.
Qed.

(** What a host reads from an advertisement. *)
Lemma told_advertisement ifs hdr lft f junk : length hdr = 20%nat -> byte hdr 0 mod 16 = 5 -> if_ok f -> in_u 16 lft ->
  told ifs (hdr ++ advertisement lft f ++ junk) 36 =
    Some (lft, if is_directly_connected ifs (if_localaddr f) then [(if_localaddr f, if_preference f)] else []).
Proof.
  intros Hl Hh [Ha Hp] Hlft. unfold told.
  assert (E0 : byte (hdr ++ advertisement lft f ++ junk) 0 = byte hdr 0) by (destruct hdr; done).
  rewrite E0, Hh. change (4 * 5) with 20. change (Z.to_nat 20) with 20%nat. rewrite drop_app_length' by done.
  set (icmp := advertisement lft f ++ junk). change (36 - 20) with 16. change (20 + 8 <=? 36) with true. cbn [andb].
  change (byte icmp 0 =? ICMP_ROUTER_ADVERTISEMENT) with true. cbn [andb].
  assert (Eok : ra_ok icmp 16 = true).
  { unfold ra_ok. change (Z.to_nat 16) with 16%nat. change (take 16 icmp) with (advertisement lft f). rewrite advertisement_ok. done. }
  rewrite Eok.
  assert (El : ra_lifetime icmp = lft).
  { change (ra_lifetime icmp) with (le_value (reverse (reverse (le_bytes 2 lft)))). by apply reverse_bytes. }
  assert (Ee : ra_entries icmp = [(if_localaddr f, if_preference f)]).
  { change (ra_entries icmp) with
      [(le_value (le_bytes 4 (if_localaddr f)), s32 (le_value (reverse (reverse (le_bytes 4 (if_preference f))))))].
    rewrite reverse_involutive, !le_value_bytes. rewrite Z.mod_small by exact Ha. do 2 f_equal.
    rewrite <- (wraps_id 32 (if_preference f)) at 2 by (done || lia). apply wraps_congr. by rewrite Z.mod_mod. }
  rewrite El, Ee. simpl. by destruct (is_directly_connected ifs (if_localaddr f)).
Qed.

(** Packets go out as they were built. *)
Lemma advertise_packets y ifs num dst lft es ef : advertise y ifs num dst lft = Some es -> ef ∈ es ->
  exists f d, f ∈ ifs /\ (ef = Sendto d (advertisement lft f) \/ exists i, ef = SendVia i d (advertisement lft f)).
Proof.
  unfold advertise, the_interfaces. destruct (_ <=? _)%nat; [|done]. intros [= <-] Hin.
  apply list_elem_of_In, in_concat in Hin as (l & Hl%list_elem_of_In & Hin%list_elem_of_In).
  apply list_elem_of_lookup in Hl as (i & Hi). rewrite list_lookup_imap in Hi. apply fmap_Some in Hi as (f & Hf & ->).
  exists f. assert (Hfi : f ∈ ifs) by (apply list_elem_of_lookup; exists i; rewrite lookup_take_Some in Hf; apply Hf).
  unfold advertise_one, sendbcastif, sendmcastif in Hin. destruct (isbroadcast dst).
  { apply list_elem_of_singleton in Hin as ->. eauto. }
  destruct (ismulticast dst).
  { destruct (sys_setopt y i); [apply list_elem_of_singleton in Hin as ->; eauto 6|by apply not_elem_of_nil in Hin]. }
  destruct (_ =? _); [apply list_elem_of_singleton in Hin as ->; eauto|by apply not_elem_of_nil in Hin].
Qed.

(** A router's advertisement tells its neighbours.  Every packet that
    advertise sends, received by a host that is directly connected, puts the
    address of an interface of the router in the table of the host, with its
    preference and lifetime, whatever the host knew before; one with lifetime
    0, as sent when the router stops, takes the route away. *)
Theorem advertisement_round_trip y ifs num dst lft es ef :
  advertise y ifs num dst lft = Some es -> ef ∈ es -> Forall if_ok ifs -> in_u 16 lft ->
  exists f p d, f ∈ ifs /\ (ef = Sendto d p \/ exists i, ef = SendVia i d p) /\
    forall o y' mem rnd hdr junk s K,
      responder o = false -> st_inv o s K -> exited s = None -> (forall i, mem i = true) ->
      length hdr = 20%nat -> byte hdr 0 mod 16 = 5 -> length (hdr ++ p ++ junk) = MAXPACKET ->
      is_directly_connected (take (num_interfaces s) (interfaces s)) (if_localaddr f) = true ->
      exists s' es', pr_pack o y' mem rnd (hdr ++ p ++ junk) 36 s = Some (s', es') /\
        look (table s') (if_localaddr f) = Some (if lft <? 4 then INELIGIBLE_PREF else if_preference f, lft) /\
        (lft = 0 -> if_localaddr f ∉ requested es' K).
Proof.
  intros E Hin Hok Hlft. destruct (advertise_packets y ifs num dst lft es ef E Hin) as (f & d & Hf & Hef).
  exists f, (advertisement lft f), d. split; [done|]. split; [done|].
  intros o y' mem rnd hdr junk s K Hr Hi Hex Hmem Hl Hh Hlen Hcon. rewrite Forall_forall in Hok.
  destruct (pr_pack_run o y' mem rnd _ 36 s K (view (table s)) Hi Hex Hlen ltac:(lia)) as (s' & es' & E' & Hi' & Hm).
  exists s', es'. split; [done|]. specialize (Hm Hmem (repr_view _)). unfold spec_step in Hm.
  rewrite told_advertisement, Hcon, Hr in Hm by auto. cbn [foldl] in Hm.
  assert (Hx : hear (view (table s)) lft (if_localaddr f, if_preference f) !! if_localaddr f = Some (recorded_pref (if_preference f) lft, lft))
    by apply lookup_insert_eq.
  split; [rewrite <- (Hm (if_localaddr f)); exact Hx|].
  intros ->. rewrite (repr_wanted _ _ _ _ (si_table _ _ _ Hi') (si_tracks _ _ _ Hi') Hm (if_localaddr f)).
  intros (p & l & Hp & Hne & _). rewrite Hx in Hp. injection Hp as <- _. done.
Qed.

Lemma advertisement_round_trip_witness :
  exists f p d, f ∈ [demo_if] /\ Sendto 0xff01a8c0 (advertisement 0 demo_if) = Sendto d p /\
    exists s' es', pr_pack demo_host demo_sys (fun _ => true) 0 (demo_header ++ p ++ replicate (MAXPACKET - 36) 0) 36
        (set_interfaces ([demo_if] ++ replicate 31 demo_if, 1%nat) demo_state) = Some (s', es') /\ if_localaddr f ∉ requested es' {[0x0101a8c0]}.
Proof.
  destruct (advertisement_round_trip demo_sys [demo_if] 1 INADDR_BROADCAST 0 [Sendto 0xff01a8c0 (advertisement 0 demo_if)]
              (Sendto 0xff01a8c0 (advertisement 0 demo_if))) as (f & p & d & Hf & Hef & H).
  - reflexivity.
  - left.
  - apply Forall_singleton. split; vm_compute; split; (discriminate || reflexivity).
  - vm_compute. split; (discriminate || reflexivity).
  - exists f, p, d. split; [exact Hf|]. apply list_elem_of_singleton in Hf as ->. destruct Hef as [Hef|[i Hef]]; [|discriminate Hef].
    split; [exact Hef|]. injection Hef as _ <-.
    destruct (H demo_host demo_sys (fun _ => true) 0 demo_header (replicate (MAXPACKET - 36) 0)
                (set_interfaces ([demo_if] ++ replicate 31 demo_if, 1%nat) demo_state) {[0x0101a8c0]}) as (s' & es' & E & _ & Hn); try reflexivity.
    + destruct demo_state_inv as [? ? ? ? ? ? ?]. split; try done. right. split; [reflexivity|simpl; unfold MAXIFS; lia].
    + exists s', es'. split; [exact E|]. apply Hn. reflexivity.
Defined.

(** ** Solicitations *)

Definition soliciting (s : rdisc) (n : Z) : Prop :=
  exited s = None /\ solicit s = true /\ forever s = false /\ nreceived s = 0 /\ ntransmitted s = n /\ left_until_solicit s <= 3.

Lemma soliciting_tick o y conf rnd s K n : responder o = false -> st_inv o s K -> soliciting s n -> n < 3 -> conf_ok conf ->
  exists s' es, timer o y conf rnd s = Some (s', es) /\ st_inv o s' (requested es K) /\
    if n + 1 <? 3 then soliciting s' (n + 1) else exited s' = Some 5 /\ ntransmitted s' = 3 /\ last es = Some (Exit 5).
Proof.
  intros Hr Hi (Hex & Hsol & Hfor & Hrec & Hn & Hleft) Hlt Hc.
  destruct (timer_run o y conf rnd s K ∅ Hi Hex Hc) as (s' & es & E & Hi' & _). exists s', es. split; [done|]. split; [done|].
  revert E. unfold timer. set (s0 := set_left _ _ _ s).
  destruct (if left_until_getifconf s0 <? 0 then _ else Some s0) as [s1|] eqn:E1; [|done]. cbn [mbind option_bind].
  assert (H1 : solicit s1 = true /\ forever s1 = false /\ nreceived s1 = 0 /\ ntransmitted s1 = n /\ left_until_solicit s1 <= 0 /\ exited s1 = None).
  { destruct (_ <? 0); [destruct (initifs _ _ _) as [[ifs num]|]; [|done]|]; injection E1 as <-; simpl; split_and!; try done; unfold TIMER_INTERVAL; lia. }
  destruct H1 as (Hs1 & Hf1 & Hr1 & Hn1 & Hl1 & Hx1). unfold timer_send. rewrite Hr, Hs1, (proj2 (Z.leb_le _ _) Hl1). cbn [andb].
  cbn [interfaces num_interfaces set_counts ntransmitted nreceived forever]. rewrite Hn1, Hr1, Hf1.
  destruct (solicitor y (interfaces s1) (num_interfaces s1) (whereto o)) as [es1|]; [|done]. cbn [mbind option_bind].
  unfold MAX_SOLICITATIONS. destruct (Z.ltb_spec (n + 1) 3).
  - cbn [mbind option_bind exited set_left set_counts]. rewrite Hx1. destruct (age_table _ _ _) as [t es2]. intros [= <- _]. by split_and!.
  - cbn. intros [= <- <-]. split_and!; [done|simpl; lia|by rewrite last_snoc].
Qed.

(** A host that solicits and hears nothing sends three solicitations and
    gives up with code 5; it does so at once after the third, whose answer it
    does not wait for. *)
Theorem solicitation_gives_up o conf y1 c1 r1 y2 c2 r2 y3 c3 r3 evs :
  responder o = false -> conf_ok conf -> conf_ok c1 -> conf_ok c2 -> conf_ok c3 ->
  exists s0 s es, init o conf (start true false) = Some s0 /\
    run o (SIGALRM y1 c1 r1 :: SIGALRM y2 c2 r2 :: SIGALRM y3 c3 r3 :: evs) s0 = Some (s, es) /\
    exited s = Some 5 /\ ntransmitted s = 3 /\ last es = Some (Exit 5).
Proof.
  intros Hr Hc H1 H2 H3. destruct (init_inv o conf true false Hc) as (s0 & E0 & Hi & Et & Hex & Hsol & Hfor & Htr & Hre & Hl & _).
  exists s0. cbn [run handle]. rewrite Hex.
  destruct (soliciting_tick o y1 c1 r1 s0 ∅ 0) as (s1 & es1 & E1 & Hi1 & Hs1); [done|done|split_and!; try done; lia|lia|done|]. simpl in Hs1.
  destruct (soliciting_tick o y2 c2 r2 s1 _ 1 Hr Hi1 Hs1) as (s2 & es2 & E2 & Hi2 & Hs2); [lia|done|]. simpl in Hs2.
  destruct (soliciting_tick o y3 c3 r3 s2 _ 2 Hr Hi2 Hs2) as (s3 & es3 & E3 & Hi3 & Hs3); [lia|done|]. simpl in Hs3.
  rewrite E1. cbn [mbind option_bind]. rewrite (proj1 Hs1), E2. cbn [mbind option_bind]. rewrite (proj1 Hs2), E3. cbn [mbind option_bind].
  destruct Hs3 as (Hx & Hn & Hlast). exists s3, (es1 ++ es2 ++ es3 ++ []). split; [done|].
  split; [by destruct evs; cbn [run]; rewrite ?Hx|]. split_and!; try done.
  rewrite app_nil_r, !last_app, Hlast. done.
Qed.

Lemma solicitation_gives_up_witness :
  exists s0 s es, init demo_host demo_conf (start true false) = Some s0 /\
    run demo_host (SIGALRM demo_sys demo_conf 0 :: SIGALRM demo_sys demo_conf 0 :: SIGALRM demo_sys NoSocket 0 :: demo_events) s0 = Some (s, es) /\
    exited s = Some 5.
Proof.
  destruct (solicitation_gives_up demo_host demo_conf demo_sys demo_conf 0 demo_sys demo_conf 0 demo_sys NoSocket 0 demo_events
              eq_refl demo_conf_ok demo_conf_ok demo_conf_ok I) as (s0 & s & es & E0 & E & Hx & _).
  exists s0, s, es. split; [exact E0|]. split; [exact E|exact Hx].
Defined.

(** ** Where the program differs from what it means to do *)

(** The second address of the command line is not used: the address to receive
    on is the first one. *)
Lemma recvaddress_ignored mc st a b : addresses mc st [a; b] = Parsed (a, a).
Proof. done. Qed.

(** [ifr_flags] is read after the union holds the index: a point-to-point link
    whose index has bit 4 clear is treated as a broadcast link, identified by
    the local address, and one with the bit set as point-to-point. *)
Lemma pointopoint_misread r flags slot i : an_index r = Some i ->
  if_address (fill_interface r flags slot).1 =
    if bit_set (s16 i) IFF_POINTOPOINT then default (if_address slot) (an_dstaddr r) else an_addr r.
Proof.
  intros Hi. unfold fill_interface. rewrite Hi. cbn [ifr_flags]. destruct (bit_set (s16 i) IFF_POINTOPOINT); simpl; [by destruct (an_dstaddr r)|].
  destruct (an_netmask r); [|done]. by destruct (an_brdaddr r).
Qed.

(** The preference of the interfaces is set once in [init]; when the timer calls
    [initifs] again it is whatever the new array holds. *)
Lemma preference_lost r flags slot : if_preference (fill_interface r flags slot).1 = if_preference slot.
Proof.
  unfold fill_interface. destruct (an_index r); [|done]. destruct (bit_set _ _); [by destruct (an_dstaddr r)|].
  destruct (an_netmask r); [|done]. destruct (bit_set _ _); [|done]. by destruct (an_brdaddr r).
Qed.

(** If malloc fails the array is NULL while [num_interfaces] still counts. *)
Lemma no_array_faults :
  (s ← init demo_host demo_conf (start true false);
   run demo_host [SIGHUP NoArray; Received demo_sys (fun _ => true) 0 demo_packet 36] s) = None.
Proof. vm_compute. reflexivity. Qed.
