(* ===== verification/Arping.v ===== *)
(** * ARP probes: iputils-ns/arping.c

    arping asks for the link address of a host (or, with -D, whether an address
    is in use, and with -U or -A it announces its own) by ARP packets on one
    interface.  This file holds the program's packets, its timer and what it
    makes of the packets it receives; [main] and the choice of the interface
    are in ArpingDevice.

    The global variables set by [main] are a [config], those that change
    afterwards a state [arping].  A handler returns the new state and what it
    does, in order; once [exited] is set nothing runs any more.  Each call of
    [clock_gettime] is an argument, as is the result of [sendto].  An IPv4
    address is the 32 bit value of its four bytes in memory, on a little-endian
    host.  [None] is an access outside an array. *)

From Stdlib Require Import ZArith Lia String.
From stdpp Require Import base numbers option list.
From S2P Require Import Prelude Ping PingPacket.

Local Open Scope Z_scope.

(** ** Data *)

Definition PACKET_HOST : Z := 0.
Definition PACKET_BROADCAST : Z := 1.
Definition PACKET_MULTICAST : Z := 2.
Definition ARPHRD_ETHER : Z := 1.
Definition ARPHRD_FDDI : Z := 774.
Definition ETH_P_IP : Z := 0x0800.
Definition ARPOP_REQUEST : Z := 1.
Definition ARPOP_REPLY : Z := 2.

(** [struct sockaddr_ll] inside a [struct sockaddr_storage]: [sll_addr] runs to
    the end of the storage. *)
Record sockaddr_ll := mkLl {
  sll_hatype : Z;
  sll_pkttype : Z;
  sll_halen : Z;
  sll_addr : list Z
}.

Definition sizeof_storage_addr : nat := 116.

Record config := mkConfig {
  quit_on_reply : bool;
  dad : bool;
  unsolicited : bool;
  advert : bool;
  quiet : bool;
  broadcast_only : bool;
  count : Z;
  timeout : Z;
  src : Z;
  dst : Z;
  me : sockaddr_ll
}.

Record arping := mkArping {
  unicasting : bool;
  he : list Z;                     (* he.sll_addr *)
  start : timespec;
  last : timespec;
  sent : Z;
  brd_sent : Z;
  received : Z;
  brd_recv : Z;
  req_recv : Z;
  exited : option Z
}.

(** What is printed for a packet: its kind, the sender, and the time since the
    last probe as the two numbers of the format, if there was a probe. *)
Record line := mkLine {
  ln_unicast : bool;
  ln_reply : bool;
  ln_ip : Z;
  ln_hw : list Z;
  ln_for_ip : option Z;
  ln_for_hw : option (list Z);
  ln_time : option (Z * Z)
}.

Inductive effect :=
  | Sendto (to packet : list Z)
  | Alarm (seconds : Z)
  | Line (l : line)
  | Summary (sent brd_sent received brd_recv req_recv : Z)
  | Exit (code : Z).

Definition set_he (h : list Z) (s : arping) : arping :=
  mkArping true h (start s) (last s) (sent s) (brd_sent s) (received s) (brd_recv s) (req_recv s) (exited s).
Definition set_start (t : timespec) (s : arping) : arping :=
  mkArping (unicasting s) (he s) t (last s) (sent s) (brd_sent s) (received s) (brd_recv s) (req_recv s) (exited s).
Definition set_sent (t : timespec) (n b : Z) (s : arping) : arping :=
  mkArping (unicasting s) (he s) (start s) t n b (received s) (brd_recv s) (req_recv s) (exited s).
Definition set_recv (n b q : Z) (s : arping) : arping :=
  mkArping (unicasting s) (he s) (start s) (last s) (sent s) (brd_sent s) n b q (exited s).
Definition set_exited (code : Z) (s : arping) : arping :=
  mkArping (unicasting s) (he s) (start s) (last s) (sent s) (brd_sent s) (received s) (brd_recv s) (req_recv s)
    (Some code).

(** ** Sending *)

(** A 16 bit field in network order. *)
Definition net16 (x : Z) : list Z := reverse (le_bytes 2 x).

(** [buf] is the uninitialised array; [err] what [sendto] returns. *)
Definition send_pack (c : config) (buf : list Z) (now : timespec) (err : Z) (s : arping)
    : option (arping * list effect) :=
  let hln := u8 (sll_halen (me c)) in
  let hrd := if sll_hatype (me c) =? ARPHRD_FDDI then ARPHRD_ETHER else sll_hatype (me c) in
  buf ← memcpy 0 (net16 hrd) buf;
  buf ← memcpy 2 (net16 ETH_P_IP) buf;
  buf ← memcpy 4 [hln] buf;
  buf ← memcpy 5 [4] buf;
  buf ← memcpy 6 (net16 (if advert c then ARPOP_REPLY else ARPOP_REQUEST)) buf;
  hw ← load 0 (Z.to_nat hln) (sll_addr (me c));
  buf ← memcpy 8 hw buf;
  let p := (8 + Z.to_nat (sll_halen (me c)))%nat in
  buf ← memcpy p (le_bytes 4 (src c)) buf;
  let p := (p + 4)%nat in
  target ← load 0 (Z.to_nat hln) (if advert c then sll_addr (me c) else he s);
  buf ← memcpy p target buf;
  let p := (p + Z.to_nat hln)%nat in
  buf ← memcpy p (le_bytes 4 (dst c)) buf;
  let p := (p + 4)%nat in
  packet ← load 0 p buf;
  to ← load 0 (Z.to_nat hln) (he s);
  let s := if err =? Z.of_nat p
           then set_sent now (sent s + 1) (if unicasting s then brd_sent s else brd_sent s + 1) s else s in
  Some (s, [Sendto to packet]).

(** ** The end *)

Definition exit_code (c : config) (s : arping) : Z :=
  if dad c then (if received s =? 0 then 0 else 1)
  else if unsolicited c then 0
  else if received s =? 0 then 1 else 0.

Definition finish (c : config) (s : arping) : arping * list effect :=
  let code := exit_code c s in
  (set_exited code s,
   (if quiet c then [] else [Summary (sent s) (brd_sent s) (received s) (brd_recv s) (req_recv s)]) ++ [Exit code]).

(** ** The timer *)

Definition timespec_sub (a b : timespec) : timespec :=
  let sec := tv_sec a - tv_sec b in
  let nsec := tv_nsec a - tv_nsec b in
  if tv_nsec a <? tv_nsec b then mkTime (sec - 1) (nsec + 1000000000) else mkTime sec nsec.

Definition timespec_later (a b : timespec) : bool :=
  (tv_sec b <? tv_sec a) || (tv_sec a =? tv_sec b) && (tv_nsec b <? tv_nsec a).

Definition catcher (c : config) (buf : list Z) (ts now : timespec) (err : Z) (s : arping)
    : option (arping * list effect) :=
  let s := if tv_sec (start s) =? 0 then set_start ts s else s in
  let ts_s := timespec_sub ts (start s) in
  let ts_o := mkTime (timeout c) (500 * 1000000) in
  if negb (timeout c =? 0) && timespec_later ts_s ts_o then Some (finish c s)
  else
    let ts_s := timespec_sub ts (last s) in
    let ts_o := mkTime 0 (tv_nsec ts_o) in
    if (tv_sec (last s) =? 0) || timespec_later ts_s ts_o then
      if (timeout c =? 0) && (sent s =? count c) then Some (finish c s)
      else
        '(s, es) ← send_pack c buf now err s;
        if (sent s =? count c) && unsolicited c then
          let '(s, es') := finish c s in Some (s, es ++ es')
        else Some (s, es ++ [Alarm 1])
    else Some (s, [Alarm 1]).

(** ** Receiving *)

(** The two numbers of " %ld.%03ldms". *)
Definition elapsed (ts last : timespec) : Z * Z :=
  let usecs := (tv_sec ts - tv_sec last) * 1000000 + Z.quot (tv_nsec ts - tv_nsec last + 500) 1000 in
  let msecs := Z.quot (usecs + 500) 1000 in
  (msecs, usecs - (msecs * 1000 - 500)).

Definition differs (a b : list Z) : bool := negb (bool_decide (a = b)).

(** The packet is one of those asked for: the checks on addresses. *)
Definition address_checks (c : config) (src_ip dst_ip : Z) (shw thw : list Z) : option bool :=
  if negb (dad c) then
    if negb (src_ip =? dst c) then Some false
    else if negb (src c =? dst_ip) then Some false
    else
      mine ← load 0 (length thw) (sll_addr (me c));
      Some (negb (differs thw mine))
  else
    if negb (src_ip =? dst c) then Some false
    else
      mine ← load 0 (Z.to_nat (sll_halen (me c))) (sll_addr (me c));
      if negb (differs shw mine) then Some false
      else Some (negb (negb (src c =? 0) && negb (src c =? dst_ip))).

Definition print_line (c : config) (ts : timespec) (from : sockaddr_ll) (op src_ip dst_ip : Z) (shw thw mine : list Z)
    (s : arping) : list effect :=
  if quiet c then []
  else [Line (mkLine (sll_pkttype from =? PACKET_HOST) (op =? ARPOP_REPLY) src_ip shw
          (if dst_ip =? src c then None else Some dst_ip)
          (if differs thw mine then Some thw else None)
          (if tv_sec (last s) =? 0 then None else Some (elapsed ts (last s))))].

(** What follows the printing: the counters, the reasons to end, and the switch
    to unicast probes. *)
Definition count_reply (c : config) (from : sockaddr_ll) (op : Z) (shw : list Z) (s : arping)
    : option (arping * list effect) :=
  let s := set_recv (received s + 1) (brd_recv s) (req_recv s) s in
  if negb (timeout c =? 0) && (received s =? count c) then Some (finish c s)
  else
    let b := if negb (sll_pkttype from =? PACKET_HOST) then brd_recv s + 1 else brd_recv s in
    let q := if op =? ARPOP_REQUEST then req_recv s + 1 else req_recv s in
    let s := set_recv (received s) b q s in
    if quit_on_reply c || (count c =? 0) && (received s =? sent s) then Some (finish c s)
    else if negb (broadcast_only c) then
      h ← memcpy 0 shw (he s);
      Some (set_he h s, [])
    else Some (s, []).

Definition recv_pack (c : config) (ts : timespec) (buf : list Z) (len : Z) (from : sockaddr_ll) (s : arping)
    : option (arping * list effect) :=
  if negb (sll_pkttype from =? PACKET_HOST) && negb (sll_pkttype from =? PACKET_BROADCAST)
     && negb (sll_pkttype from =? PACKET_MULTICAST) then Some (s, [])
  else
    op ← load16_net 6 buf;
    if negb (op =? ARPOP_REQUEST) && negb (op =? ARPOP_REPLY) then Some (s, [])
    else
      hrd ← load16_net 0 buf;
      if negb (hrd =? sll_hatype from)
         && (negb (sll_hatype from =? ARPHRD_FDDI) || negb (hrd =? ARPHRD_ETHER)) then Some (s, [])
      else
        pro ← load16_net 2 buf;
        if negb (pro =? ETH_P_IP) then Some (s, [])
        else
          pln ← buf !! 5%nat;
          if negb (pln =? 4) then Some (s, [])
          else
            hln ← buf !! 4%nat;
            if negb (hln =? sll_halen (me c)) then Some (s, [])
            else if u64 len <? 8 + 2 * (4 + hln) then Some (s, [])
            else
              let n := Z.to_nat hln in
              src_ip ← load32 (8 + n) buf;
              dst_ip ← load32 (8 + n + 4 + n) buf;
              shw ← load 8 n buf;
              thw ← load (8 + n + 4) n buf;
              ok ← address_checks c src_ip dst_ip shw thw;
              if negb ok then Some (s, [])
              else
                mine ← load 0 n (sll_addr (me c));
                let es := print_line c ts from op src_ip dst_ip shw thw mine s in
                '(s, es') ← count_reply c from op shw s;
                Some (s, es ++ es').

(** ** The loop of main

    [SIGALRM] and [SIGINT] are blocked while a packet is handled, so handlers
    do not interrupt one another.  [packet] is the array of 4096 bytes that the
    next packet is written into. *)

Inductive event :=
  | EvAlarm (ts now : timespec) (buf : list Z) (err : Z)
  | EvInterrupt
  | EvPacket (ts : timespec) (cc : list Z) (from : sockaddr_ll)
  | EvError (netdown : bool).

Definition handle (c : config) (ev : event) (packet : list Z) (s : arping)
    : option (list Z * arping * list effect) :=
  match ev with
  | EvAlarm ts now buf err => '(s, es) ← catcher c buf ts now err s; Some (packet, s, es)
  | EvInterrupt => let '(s, es) := finish c s in Some (packet, s, es)
  | EvPacket ts bytes from =>
      packet ← memcpy 0 bytes packet;
      '(s, es) ← recv_pack c ts packet (Z.of_nat (length bytes)) from s;
      Some (packet, s, es)
  | EvError true => Some (packet, set_exited 2 s, [Exit 2])
  | EvError false => Some (packet, s, [])
  end.

Fixpoint run (c : config) (evs : list event) (packet : list Z) (s : arping) : option (arping * list effect) :=
  match exited s, evs with
  | Some _, _ | None, [] => Some (s, [])
  | None, ev :: evs =>
      '(packet, s, es) ← handle c ev packet s;
      '(s, es') ← run c evs packet s;
      Some (s, es ++ es')
  end.

Definition zero_time : timespec := mkTime 0 0.
Definition initial (broadcast : list Z) : arping :=
  mkArping false broadcast zero_time zero_time 0 0 0 0 0 None.
