(* ===== verification/ArpingSpec.v ===== *)
(** * What arping sends and accepts

    ARP messages as records with their encoding, the packet that [send_pack]
    sends, and [recv_pack] as a decision on the message received. *)

From Stdlib Require Import ZArith Lia.
From stdpp Require Import base numbers option list.
From S2P Require Import Prelude Ping PingPacket PingFour Arping.

Local Open Scope Z_scope.

(** ** Messages *)

Record arp := mkArp {
  a_hrd : Z;
  a_op : Z;
  a_sha : list Z;
  a_spa : Z;
  a_tha : list Z;
  a_tpa : Z
}.

Definition encode (n : nat) (m : arp) : list Z :=
  net16 (a_hrd m) ++ net16 ETH_P_IP ++ [Z.of_nat n] ++ [4] ++ net16 (a_op m)
  ++ a_sha m ++ le_bytes 4 (a_spa m) ++ a_tha m ++ le_bytes 4 (a_tpa m).

Definition field (i n : nat) (l : list Z) : list Z := take n (drop i l).
Definition be16 (l : list Z) : Z := le_value (reverse l).

(** The message at the front of a packet, for link addresses of [n] bytes. *)
Definition decode (n : nat) (l : list Z) : option arp :=
  if (16 + 2 * n <=? length l)%nat && bool_decide (field 2 4 l = net16 ETH_P_IP ++ [Z.of_nat n; 4])
  then Some (mkArp (be16 (field 0 2 l)) (be16 (field 6 2 l)) (field 8 n l) (le_value (field (8 + n) 4 l))
         (field (8 + n + 4) n l) (le_value (field (8 + n + 4 + n) 4 l)))
  else None.

Record arp_ok (n : nat) (m : arp) : Prop := {
  ok_hrd : in_u 16 (a_hrd m);
  ok_op : in_u 16 (a_op m);
  ok_sha : length (a_sha m) = n;
  ok_spa : in_u 32 (a_spa m);
  ok_tha : length (a_tha m) = n;
  ok_tpa : in_u 32 (a_tpa m)
}.

Lemma length_net16 x : length (net16 x) = 2%nat.
Proof. done. Qed.

Lemma length_encode n m : arp_ok n m -> length (encode n m) = (16 + 2 * n)%nat.
Proof. intros []. unfold encode. rewrite !length_app, !length_le_bytes, !length_net16. cbn. lia. Qed.

Lemma field_app a b d i n : i = length a -> n = length b -> field i n (a ++ b ++ d) = b.
Proof. intros -> ->. unfold field. by rewrite drop_app_length, take_app_length. Qed.

Lemma be16_net16 x : in_u 16 x -> be16 (net16 x) = x.
Proof. intros H. unfold be16, net16. rewrite reverse_involutive, le_value_bytes. by apply Z.mod_small. Qed.

Lemma le_value_4 x : in_u 32 x -> le_value (le_bytes 4 x) = x.
Proof. intros H. rewrite le_value_bytes. by apply Z.mod_small. Qed.

(** A message comes back from its encoding, whatever padding follows. *)
Lemma arp_decode_encode n m pad : arp_ok n m -> decode n (encode n m ++ pad) = Some m.
Proof.
  intros Hm. pose proof (length_encode n m Hm) as L. destruct Hm as [H1 H2 H3 H4 H5 H6].
  set (A := net16 (a_hrd m)). set (B := net16 ETH_P_IP ++ [Z.of_nat n; 4]). set (C := net16 (a_op m)).
  set (S1 := le_bytes 4 (a_spa m)). set (S2 := le_bytes 4 (a_tpa m)).
  assert (E : encode n m ++ pad = A ++ B ++ C ++ a_sha m ++ S1 ++ a_tha m ++ S2 ++ pad).
  { unfold encode, A, B, C, S1, S2. by rewrite <- !(assoc_L (++)). }
  unfold decode. rewrite length_app, L, (proj2 (Nat.leb_le _ _)) by lia. rewrite E. clear E L.
  assert (F : forall a b d i k, i = length a -> k = length b -> field i k (a ++ b ++ d) = b) by (intros; by apply field_app).
  rewrite (F A B) by done. rewrite bool_decide_eq_true_2 by done. cbn [andb].
  assert (FA : field 0 2 (A ++ B ++ C ++ a_sha m ++ S1 ++ a_tha m ++ S2 ++ pad) = A) by exact (F [] A _ 0%nat 2%nat eq_refl eq_refl).
  rewrite FA. rewrite (assoc_L (++) A), (F (A ++ B) C) by done.
  rewrite (assoc_L (++) (A ++ B)), (F ((A ++ B) ++ C) (a_sha m)) by done.
  rewrite (assoc_L (++) ((A ++ B) ++ C)), (F (((A ++ B) ++ C) ++ a_sha m) S1); [|rewrite length_app, H3; done|done].
  rewrite (assoc_L (++) (((A ++ B) ++ C) ++ a_sha m)), (F _ (a_tha m)); [|rewrite !length_app, H3; unfold S1; by rewrite length_le_bytes|done].
  rewrite (assoc_L (++) ((((A ++ B) ++ C) ++ a_sha m) ++ S1)), (F _ S2); [|rewrite !length_app, H3, H5; unfold S1; by rewrite length_le_bytes|done].
  unfold A, C, S1, S2. rewrite !be16_net16, !le_value_4 by done. by destruct m.
Qed.

Lemma bytes_ok l : forallb (fun x => (0 <=? x) && (x <? 256)) l = true -> Forall (in_u 8) l.
Proof. rewrite forallb_forall, Forall_forall. intros H x Hx. apply list_elem_of_In in Hx. specialize (H x Hx). unfold in_u. lia. Qed.

(** ** Settings that the program can run with

    The kernel's link addresses have at most MAX_ADDR_LEN = 32 bytes. *)

Record config_ok (c : config) : Prop := {
  ok_halen : 0 <= sll_halen (me c) <= 32;
  ok_mine : length (sll_addr (me c)) = sizeof_storage_addr;
  ok_hatype : in_u 16 (sll_hatype (me c));
  ok_src : in_u 32 (src c);
  ok_dst : in_u 32 (dst c)
}.

Definition hlen (c : config) : nat := Z.to_nat (sll_halen (me c)).
Definition mine (c : config) : list Z := take (hlen c) (sll_addr (me c)).
Definition his (c : config) (s : arping) : list Z := take (hlen c) (he s).

Lemma hlen_eq c : config_ok c -> u8 (sll_halen (me c)) = sll_halen (me c) /\ Z.of_nat (hlen c) = sll_halen (me c) /\ (hlen c <= 32)%nat.
Proof. intros [H _ _ _ _]. unfold hlen. rewrite wrapu_id by (unfold in_u; lia). lia. Qed.

(** ** The probe *)

Definition probe (c : config) (s : arping) : arp :=
  mkArp (if sll_hatype (me c) =? ARPHRD_FDDI then ARPHRD_ETHER else sll_hatype (me c))
    (if advert c then ARPOP_REPLY else ARPOP_REQUEST) (mine c) (src c)
    (if advert c then mine c else his c s) (dst c).

(** What a successful or failed [sendto] leaves. *)
Definition noted_sent (c : config) (now : timespec) (err : Z) (s : arping) : arping :=
  if err =? Z.of_nat (16 + 2 * hlen c)
  then set_sent now (sent s + 1) (if unicasting s then brd_sent s else brd_sent s + 1) s else s.

Lemma length_mine c : config_ok c -> length (mine c) = hlen c.
Proof. intros Hc. pose proof (hlen_eq c Hc) as (_ & _ & H). destruct Hc as [_ Hm _ _ _]. unfold mine. rewrite length_take, Hm. unfold sizeof_storage_addr. lia. Qed.

Lemma length_his c s : config_ok c -> length (he s) = sizeof_storage_addr -> length (his c s) = hlen c.
Proof. intros Hc Hh. pose proof (hlen_eq c Hc) as (_ & _ & H). unfold his. rewrite length_take, Hh. unfold sizeof_storage_addr. lia. Qed.

Lemma probe_ok c s : config_ok c -> length (he s) = sizeof_storage_addr -> arp_ok (hlen c) (probe c s).
Proof.
  intros Hc Hh. pose proof (length_mine c Hc). pose proof (length_his c s Hc Hh). destruct Hc as [_ _ Ht Hs Hd].
  constructor; cbn; [destruct (_ =? _); [by split|done]|destruct (advert c); by split|done|done|by destruct (advert c)|done].
Qed.

Lemma memcpy_next k a b r : k = length a -> (length b <= length r)%nat ->
  memcpy k b (a ++ r) = Some ((a ++ b) ++ drop (length b) r).
Proof.
  intros -> H. rewrite <- (take_drop (length b) r) at 1. rewrite memcpy_app by (rewrite length_take; lia).
  by rewrite (assoc_L (++)).
Qed.

Lemma load_front n a r : length a = n -> load 0 n (a ++ r) = Some a.
Proof. intros <-. rewrite load_some by (rewrite length_app; lia). by rewrite drop_0, take_app_length. Qed.

Lemma load_take n p : (n <= length p)%nat -> load 0 n p = Some (take n p).
Proof. intros H. rewrite load_some by lia. by rewrite drop_0. Qed.

Lemma send_pack_run c buf now err s : config_ok c -> length (he s) = sizeof_storage_addr -> length buf = 256%nat ->
  send_pack c buf now err s = Some (noted_sent c now err s, [Sendto (his c s) (encode (hlen c) (probe c s))]).
Proof.
  intros Hc Hh Hb. pose proof (length_encode _ _ (probe_ok c s Hc Hh)) as Le.
  destruct (hlen_eq c Hc) as (E8 & En & Hn). pose proof (length_mine c Hc) as Lm. pose proof (length_his c s Hc Hh) as Lh.
  assert (Hmem : load 0 (hlen c) (sll_addr (me c)) = Some (mine c)).
  { apply load_take. destruct Hc as [_ Hm _ _ _]. rewrite Hm. unfold sizeof_storage_addr. lia. }
  assert (Hhis : load 0 (hlen c) (he s) = Some (his c s)).
  { apply load_take. rewrite Hh. unfold sizeof_storage_addr. lia. }
  unfold send_pack. rewrite E8. fold (hlen c). rewrite Hhis.
  change buf with ([] ++ buf).
  set (hrd := if sll_hatype (me c) =? ARPHRD_FDDI then _ else _). set (op := if advert c then ARPOP_REPLY else _).
  assert (Ht : load 0 (hlen c) (if advert c then sll_addr (me c) else he s) = Some (a_tha (probe c s))).
  { cbn. by destruct (advert c). }
  rewrite Ht, Hmem. cbn [mbind option_bind].
  set (t := a_tha (probe c s)). assert (Lt : length t = hlen c) by (unfold t; cbn; by destruct (advert c)).
  assert (L16 := length_net16). assert (L4 := length_le_bytes 4).
  repeat (rewrite memcpy_next; [cbn [mbind option_bind]|rewrite ?length_app, ?L16, ?L4, ?Lm, ?Lt; cbn; lia|rewrite ?length_drop, ?L16, ?L4, ?Lm, ?Lt, ?Hb; cbn; lia]).
  assert (Ee : forall r, (((((((((([] ++ net16 hrd) ++ net16 ETH_P_IP) ++ [sll_halen (me c)]) ++ [4]) ++ net16 op) ++ mine c) ++ le_bytes 4 (src c)) ++ t) ++ le_bytes 4 (dst c)) ++ r) = encode (hlen c) (probe c s) ++ r).
  { intros r. unfold encode. rewrite En. cbn [probe a_hrd a_op a_sha a_spa a_tpa]. fold t hrd op. by rewrite <- !(assoc_L (++)). }
  rewrite Ee, load_front by (rewrite Le; lia). cbn [mbind option_bind]. unfold noted_sent. 
  by replace (8 + hlen c + 4 + hlen c + 4)%nat with (16 + 2 * hlen c)%nat by lia.
Qed.

(** ** Which messages are answers *)

Definition address_ok (c : config) (m : arp) : Prop :=
  a_spa m = dst c /\
  if dad c then a_sha m <> mine c /\ (src c = 0 \/ a_tpa m = src c)
  else a_tpa m = src c /\ a_tha m = mine c.

#[export] Instance address_ok_dec c m : Decision (address_ok c m).
Proof. unfold address_ok. destruct (dad c); solve_decision. Defined.

Definition wanted (c : config) (from : sockaddr_ll) (m : arp) : Prop :=
  sll_pkttype from ∈ [PACKET_HOST; PACKET_BROADCAST; PACKET_MULTICAST] /\
  a_op m ∈ [ARPOP_REQUEST; ARPOP_REPLY] /\
  (a_hrd m = sll_hatype from \/ sll_hatype from = ARPHRD_FDDI /\ a_hrd m = ARPHRD_ETHER) /\
  address_ok c m.

#[export] Instance wanted_dec c from m : Decision (wanted c from m).
Proof. unfold wanted. solve_decision. Defined.

Definition heard (c : config) (from : sockaddr_ll) (packet : list Z) : option arp :=
  m ← decode (hlen c) packet; if decide (wanted c from m) then Some m else None.

(** The line printed for an answer, and what becomes of the state. *)
Definition reply_line (c : config) (ts : timespec) (from : sockaddr_ll) (m : arp) (s : arping) : list effect :=
  print_line c ts from (a_op m) (a_spa m) (a_tpa m) (a_sha m) (a_tha m) (mine c) s.

Definition counted (from : sockaddr_ll) (m : arp) (s : arping) : arping :=
  set_recv (received s + 1) (if sll_pkttype from =? PACKET_HOST then brd_recv s else brd_recv s + 1)
    (if a_op m =? ARPOP_REQUEST then req_recv s + 1 else req_recv s) s.

Definition retarget (c : config) (m : arp) (s : arping) : arping :=
  if broadcast_only c then s else set_he (a_sha m ++ drop (hlen c) (he s)) s.

Definition accept (c : config) (ts : timespec) (from : sockaddr_ll) (m : arp) (s : arping) : arping * list effect :=
  let s1 := set_recv (received s + 1) (brd_recv s) (req_recv s) s in
  let s2 := counted from m s in
  let r :=
    if negb (timeout c =? 0) && (received s1 =? count c) then finish c s1
    else if quit_on_reply c || (count c =? 0) && (received s2 =? sent s2) then finish c s2
    else (retarget c m s2, []) in
  (r.1, reply_line c ts from m s ++ r.2).

Lemma field_take i n k (l : list Z) : (i + n <= k)%nat -> field i n (take k l) = field i n l.
Proof. intros H. unfold field. rewrite !take_drop_commute, take_take. by rewrite Nat.min_l by lia. Qed.

Lemma load_field i n p : (i + n <= length p)%nat -> load i n p = Some (field i n p).
Proof. apply load_some. Qed.

Lemma length_field i n (l : list Z) : (i + n <= length l)%nat -> length (field i n l) = n.
Proof. intros H. unfold field. rewrite length_take, length_drop. lia. Qed.

Lemma count_reply_run c from m s : length (a_sha m) = hlen c -> (hlen c <= length (he s))%nat ->
  count_reply c from (a_op m) (a_sha m) s =
    Some (let s1 := set_recv (received s + 1) (brd_recv s) (req_recv s) s in
          let s2 := counted from m s in
          if negb (timeout c =? 0) && (received s1 =? count c) then finish c s1
          else if quit_on_reply c || (count c =? 0) && (received s2 =? sent s2) then finish c s2
          else (retarget c m s2, [])).
Proof.
  intros Hl Hh. unfold count_reply. cbn [received set_recv].
  destruct (negb (timeout c =? 0) && _); [done|].
  assert (E : set_recv (received s + 1) (if negb (sll_pkttype from =? PACKET_HOST) then brd_recv s + 1 else brd_recv s)
      (if a_op m =? ARPOP_REQUEST then req_recv s + 1 else req_recv s)
      (set_recv (received s + 1) (brd_recv s) (req_recv s) s) = counted from m s).
  { unfold counted. by destruct (sll_pkttype from =? PACKET_HOST). }
  cbn [brd_recv req_recv set_recv] in *. rewrite E. destruct (quit_on_reply c || _); [done|].
  unfold retarget. destruct (broadcast_only c); cbn [negb]; [done|].
  change (he (counted from m s)) with (he s).
  rewrite <- (take_drop (hlen c) (he s)) at 1. rewrite memcpy_front by (rewrite length_take, Hl; lia). done.
Qed.

Lemma address_checks_run c m : config_ok c -> length (a_sha m) = hlen c -> length (a_tha m) = hlen c ->
  address_checks c (a_spa m) (a_tpa m) (a_sha m) (a_tha m) =
    Some (bool_decide (address_ok c m)).
Proof.
  intros Hc Hs Ht. pose proof (hlen_eq c Hc) as (_ & _ & Hn).
  assert (Hl : load 0 (hlen c) (sll_addr (me c)) = Some (mine c)).
  { apply load_take. destruct Hc as [_ -> _ _ _]. unfold sizeof_storage_addr. lia. }
  enough (Hb : exists b, address_checks c (a_spa m) (a_tpa m) (a_sha m) (a_tha m) = Some b /\ (b = true <-> address_ok c m)).
  { destruct Hb as (b & -> & Hb). f_equal. destruct b; [by rewrite bool_decide_eq_true_2 by tauto|].
    rewrite bool_decide_eq_false_2; [done|]. intros Ha. by apply Hb in Ha. }
  unfold address_checks, differs, address_ok. fold (hlen c). rewrite Ht, Hl.
  destruct (Z.eqb_spec (a_spa m) (dst c)) as [E|E]; cbn [negb mbind option_bind].
  2:{ exists false. destruct (dad c); intuition congruence. }
  destruct (dad c); cbn [negb].
  - destruct (decide (a_sha m = mine c)) as [E1|E1]; [rewrite (bool_decide_eq_true_2 (a_sha m = mine c)) by done|rewrite (bool_decide_eq_false_2 (a_sha m = mine c)) by done]; cbn.
    + exists false. intuition congruence.
    + eexists. split; [reflexivity|]. destruct (Z.eqb_spec (src c) 0), (Z.eqb_spec (src c) (a_tpa m)); cbn; intuition congruence.
  - destruct (Z.eqb_spec (src c) (a_tpa m)); cbn; eexists; (split; [reflexivity|]); [|intuition congruence].
    rewrite negb_involutive, bool_decide_eq_true. intuition congruence.
Qed.

Lemma heard_inv c from l m : heard c from l = Some m -> (16 + 2 * hlen c <= length l)%nat /\
  field 2 4 l = net16 ETH_P_IP ++ [Z.of_nat (hlen c); 4] /\ wanted c from m /\
  m = mkArp (be16 (field 0 2 l)) (be16 (field 6 2 l)) (field 8 (hlen c) l) (le_value (field (8 + hlen c) 4 l))
        (field (8 + hlen c + 4) (hlen c) l) (le_value (field (8 + hlen c + 4 + hlen c) 4 l)).
Proof.
  unfold heard, decode. destruct (16 + 2 * hlen c <=? length l)%nat eqn:El; [|done].
  case_bool_decide as Ef; [|done]. cbn [andb mbind option_bind]. case_decide as Hw; [|done]. intros [= <-].
  apply Nat.leb_le in El. auto.
Qed.

Lemma be16_ETH_P_IP a b : in_u 8 a -> in_u 8 b -> be16 [a; b] = ETH_P_IP -> [a; b] = net16 ETH_P_IP.
Proof. unfold be16, ETH_P_IP, in_u. cbn. intros. assert (a = 8) by lia. assert (b = 0) by lia. by subst. Qed.

Section Receive.
Context (c : config) (Hc : config_ok c) (from : sockaddr_ll) (ts : timespec) (s : arping).
Context (Hh : length (he s) = sizeof_storage_addr).

(** The part of [recv_pack] behind the length check. *)
Lemma recv_tail buf k m : (16 + 2 * hlen c <= length buf)%nat ->
  m = mkArp k (be16 (field 6 2 buf)) (field 8 (hlen c) buf) (le_value (field (8 + hlen c) 4 buf))
        (field (8 + hlen c + 4) (hlen c) buf) (le_value (field (8 + hlen c + 4 + hlen c) 4 buf)) ->
  (let n := hlen c in
   src_ip ← load32 (8 + n) buf;
   dst_ip ← load32 (8 + n + 4 + n) buf;
   shw ← load 8 n buf;
   thw ← load (8 + n + 4) n buf;
   ok ← address_checks c src_ip dst_ip shw thw;
   if negb ok then Some (s, [])
   else
     mine ← load 0 n (sll_addr (me c));
     let es := print_line c ts from (be16 (field 6 2 buf)) src_ip dst_ip shw thw mine s in
     '(s, es') ← count_reply c from (be16 (field 6 2 buf)) shw s;
     Some (s, es ++ es')) =
  Some (if bool_decide (address_ok c m) then accept c ts from m s else (s, [])).
Proof.
  intros Hl Hm. pose proof (hlen_eq c Hc) as (_ & _ & Hn).
  unfold load32. cbn zeta. rewrite !(load_field _ _ buf) by lia. cbn [mbind option_bind fmap option_fmap option_map].
  assert (Ls : length (a_sha m) = hlen c) by (rewrite Hm; cbn [a_sha a_tha]; apply length_field; lia).
  assert (Lt : length (a_tha m) = hlen c) by (rewrite Hm; cbn [a_sha a_tha]; apply length_field; lia).
  pose proof (address_checks_run c m Hc Ls Lt) as Ha. pose proof (count_reply_run c from m s Ls ltac:(rewrite Hh; unfold sizeof_storage_addr; lia)) as Hr.
  rewrite Hm in Ha at 1 2 3 4. cbn [a_spa a_tpa a_sha a_tha] in Ha. rewrite Ha. cbn [mbind option_bind].
  destruct (bool_decide (address_ok c m)); cbn [negb]; [|done].
  rewrite load_take by (destruct Hc as [_ -> _ _ _]; unfold sizeof_storage_addr; lia). fold (mine c). cbn [mbind option_bind].
  rewrite Hm in Hr at 1 2. cbn [a_op a_sha] in Hr. rewrite Hr. cbn [mbind option_bind].
  match goal with |- context [print_line ?c ?ts ?from ?op ?a ?b ?x ?y ?z s] =>
    change (print_line c ts from op a b x y z s) with (reply_line c ts from (mkArp k op x a y b) s) end.
  rewrite <- Hm. unfold accept.
  by repeat match goal with |- context [if ?b then _ else _] => destruct b end.
Qed.

(** [recv_pack] on any packet: it is the decision on the message within the
    bytes received, independent of what the array holds behind them. *)
Lemma recv_pack_run buf len : Forall (in_u 8) buf -> length buf = 4096%nat -> 0 <= len <= 4096 ->
  recv_pack c ts buf len from s =
    Some (match heard c from (take (Z.to_nat len) buf) with Some m => accept c ts from m s | None => (s, []) end).
Proof.
  intros Hb Lb Hlen. pose proof (hlen_eq c Hc) as (_ & En & Hn).
  set (l := take (Z.to_nat len) buf).
  assert (Ll : length l = Z.to_nat len) by (unfold l; rewrite length_take; lia).
  assert (Hno : (forall m, heard c from l = Some m -> False) ->
            Some (s, []) = Some (match heard c from l with Some m => accept c ts from m s | None => (s, []) end)).
  { intros H. destruct (heard c from l) as [m|]; [|done]. by destruct (H m). }
  assert (Hf : forall i n, (i + n <= Z.to_nat len)%nat -> field i n l = field i n buf) by (intros; by apply field_take).
  unfold recv_pack, load16_net. rewrite !(load_field _ _ buf) by lia. cbn [fmap option_fmap option_map mbind option_bind].
  repeat match goal with |- context [le_value (reverse (field ?i 2 buf))] => change (le_value (reverse (field i 2 buf))) with (be16 (field i 2 buf)) end.
  destruct (lookup_lt_is_Some_2 buf 4 ltac:(lia)) as [hln E4]. destruct (lookup_lt_is_Some_2 buf 5 ltac:(lia)) as [pln E5].
  assert (F : field 2 4 buf = field 2 2 buf ++ [hln; pln]).
  { do 6 (destruct buf as [|? buf]; [done|]). cbn in E4, E5. injection E4 as ->. injection E5 as ->. done. }
  rewrite E4, E5. cbn [mbind option_bind].
  assert (Hinv : forall m, heard c from l = Some m -> wanted c from m /\ be16 (field 2 2 buf) = ETH_P_IP /\ hln = sll_halen (me c) /\ pln = 4 /\
      a_op m = be16 (field 6 2 buf) /\ a_hrd m = be16 (field 0 2 buf) /\ 16 + 2 * sll_halen (me c) <= len).
  { intros m Hm. apply heard_inv in Hm as (H1 & H2 & H3 & ->). rewrite Ll in H1. rewrite Hf, F in H2 by lia.
    split; [exact H3|]. cbn [a_op a_hrd]. rewrite !Hf by lia. apply app_inj_1 in H2 as [-> H2]; [|rewrite length_field by lia; done]. injection H2 as -> ->. rewrite En. repeat split; try done. lia. }
  destruct (negb (sll_pkttype from =? PACKET_HOST) && _ && _) eqn:G1.
  { apply Hno. intros m Hm. apply Hinv in Hm as ((Hw & _) & _). rewrite !elem_of_cons, elem_of_nil in Hw. lia. }
  destruct (negb (be16 (field 6 2 buf) =? ARPOP_REQUEST) && _) eqn:G2.
  { apply Hno. intros m Hm. apply Hinv in Hm as ((_ & Hw & _) & _ & _ & _ & Eo & _). rewrite Eo, !elem_of_cons, elem_of_nil in Hw. lia. }
  destruct (negb (be16 (field 0 2 buf) =? sll_hatype from) && _) eqn:G3.
  { apply Hno. intros m Hm. apply Hinv in Hm as ((_ & _ & Hw & _) & _ & _ & _ & _ & Eo & _). rewrite Eo in Hw. lia. }
  destruct (negb (be16 (field 2 2 buf) =? ETH_P_IP)) eqn:G4.
  { apply Hno. intros m Hm. apply Hinv in Hm as (_ & Hw & _). lia. }
  destruct (negb (pln =? 4)) eqn:G5.
  { apply Hno. intros m Hm. apply Hinv in Hm as (_ & _ & _ & Hw & _). lia. }
  destruct (negb (hln =? sll_halen (me c))) eqn:G6.
  { apply Hno. intros m Hm. apply Hinv in Hm as (_ & _ & Hw & _). lia. }
  rewrite wrapu_id by (unfold in_u; lia). assert (hln = sll_halen (me c)) as -> by lia.
  destruct (len <? 8 + 2 * (4 + sll_halen (me c))) eqn:G7.
  { apply Hno. intros m Hm. apply Hinv in Hm as (_ & _ & _ & _ & _ & _ & Hw). lia. }
  fold (hlen c). set (m := mkArp (be16 (field 0 2 buf)) (be16 (field 6 2 buf)) (field 8 (hlen c) buf) (le_value (field (8 + hlen c) 4 buf))
        (field (8 + hlen c + 4) (hlen c) buf) (le_value (field (8 + hlen c + 4 + hlen c) 4 buf))).
  etransitivity; [refine (recv_tail buf (be16 (field 0 2 buf)) m _ _); [lia|reflexivity]|]. f_equal.
  assert (H22 : field 2 2 buf = net16 ETH_P_IP).
  { clear - Hb Lb G4. do 4 (destruct buf as [|? buf]; [done|]). rewrite !Forall_cons in Hb. apply be16_ETH_P_IP; [tauto|tauto|].
    apply negb_false_iff, Z.eqb_eq in G4. exact G4. }
  assert (E : heard c from l = if bool_decide (address_ok c m) then Some m else None).
  { unfold heard, decode. rewrite Ll, (proj2 (Nat.leb_le _ _)) by lia. rewrite !Hf by lia. fold m.
    rewrite (bool_decide_eq_true_2 (field 2 4 buf = _)).
    2:{ rewrite F, H22, En. do 2 f_equal. f_equal. lia. }
    cbn [andb mbind option_bind]. case_bool_decide as Ha; case_decide as Hw; try done; destruct Hw as (? & ? & ? & ?) || exfalso; try done.
    apply Hw. unfold wanted. rewrite !elem_of_cons, !elem_of_nil. cbn [a_op a_hrd m]. repeat split; [lia|lia|lia|apply Ha|apply Ha]. }
  rewrite E. by destruct (bool_decide (address_ok c m)).
Qed.

End Receive.
