(* ===== verification/ArpingRun.v ===== *)
(** * Runs of arping

    The run as a function on states without memory, which [run] equals
    ([arp_run_run]), and the account of a run: the counters, the targets and the
    exit code follow from the answers heard. *)

From Stdlib Require Import ZArith Lia.
From stdpp Require Import base numbers option list.
From S2P Require Import Prelude Ping PingPacket PingFour Arping ArpingSpec.

Local Open Scope Z_scope.

(** ** The step on states *)

Definition tick (c : config) (ts now : timespec) (err : Z) (s : arping) : arping * list effect :=
  let s := if tv_sec (start s) =? 0 then set_start ts s else s in
  if negb (timeout c =? 0) && timespec_later (timespec_sub ts (start s)) (mkTime (timeout c) 500000000) then finish c s
  else if (tv_sec (last s) =? 0) || timespec_later (timespec_sub ts (last s)) (mkTime 0 500000000) then
    if (timeout c =? 0) && (sent s =? count c) then finish c s
    else
      let es := [Sendto (his c s) (encode (hlen c) (probe c s))] in
      let s := noted_sent c now err s in
      if (sent s =? count c) && unsolicited c then ((finish c s).1, es ++ (finish c s).2) else (s, es ++ [Alarm 1])
  else (s, [Alarm 1]).

Definition step (c : config) (ev : event) (s : arping) : arping * list effect :=
  match ev with
  | EvAlarm ts now _ err => tick c ts now err s
  | EvInterrupt => finish c s
  | EvPacket ts bytes from => match heard c from bytes with Some m => accept c ts from m s | None => (s, []) end
  | EvError true => (set_exited 2 s, [Exit 2])
  | EvError false => (s, [])
  end.

Fixpoint srun (c : config) (evs : list event) (s : arping) : arping * list effect :=
  match exited s, evs with
  | Some _, _ | None, [] => (s, [])
  | None, ev :: evs => let '(s, es) := step c ev s in let '(s, es') := srun c evs s in (s, es ++ es')
  end.

Definition event_ok (ev : event) : Prop :=
  match ev with
  | EvAlarm _ _ buf _ => length buf = 256%nat
  | EvPacket _ bytes _ => Forall (in_u 8) bytes /\ (length bytes <= 4096)%nat
  | _ => True
  end.

Definition memory_ok (packet : list Z) : Prop := Forall (in_u 8) packet /\ length packet = 4096%nat.

Definition he_ok (s : arping) : Prop := length (he s) = sizeof_storage_addr.

Section Run.
Context (c : config) (Hc : config_ok c).

Lemma catcher_run buf ts now err s : he_ok s -> length buf = 256%nat -> catcher c buf ts now err s = Some (tick c ts now err s).
Proof.
  intros Hh Hb. unfold catcher, tick. cbn [tv_nsec]. change (500 * 1000000) with 500000000.
  set (s1 := if tv_sec (start s) =? 0 then set_start ts s else s).
  assert (Hh1 : he_ok s1) by (unfold s1; by destruct (_ =? 0)).
  destruct (negb (timeout c =? 0) && _); [done|]. destruct (_ || _); [|done]. destruct ((timeout c =? 0) && _); [done|].
  rewrite send_pack_run by done. cbn [mbind option_bind]. destruct (_ && unsolicited c); [|done]. by destruct (finish c _).
Qed.

Lemma finish_he s : he (finish c s).1 = he s.
Proof. done. Qed.

Lemma noted_he now err s : he (noted_sent c now err s) = he s.
Proof. unfold noted_sent. by destruct (_ =? _). Qed.

Lemma tick_he ts now err s : he (tick c ts now err s).1 = he s.
Proof.
  unfold tick. set (s1 := if tv_sec (start s) =? 0 then set_start ts s else s).
  assert (E : he s1 = he s) by (unfold s1; by destruct (_ =? 0)). rewrite <- E.
  repeat (destruct (_ : bool); try done); cbn [fst]; by rewrite ?finish_he, noted_he.
Qed.

Lemma length_heard from l m : heard c from l = Some m -> length (a_sha m) = hlen c.
Proof. intros H. apply heard_inv in H as (H & _ & _ & ->). apply length_field. lia. Qed.

Lemma accept_he ts from m s : he_ok s -> length (a_sha m) = hlen c -> he_ok (accept c ts from m s).1.
Proof.
  intros Hh Hl. destruct (hlen_eq c Hc) as (_ & _ & Hn). unfold accept, he_ok.
  destruct (negb _ && _); [done|]. destruct (quit_on_reply c || _); [done|]. cbn [fst]. unfold retarget.
  destruct (broadcast_only c); [done|]. cbn [he set_he]. rewrite length_app, length_drop, Hl. change (he (counted from m s)) with (he s).
  rewrite Hh. unfold sizeof_storage_addr. lia.
Qed.

Lemma step_he ev s : he_ok s -> he_ok (step c ev s).1.
Proof.
  intros Hh. destruct ev as [ts now buf err| |ts bytes from|[]]; cbn [step]; try done.
  - unfold he_ok. by rewrite tick_he.
  - destruct (heard c from bytes) as [m|] eqn:E; [|done]. apply accept_he; [done|]. by eapply length_heard.
Qed.

Lemma receive_memory bytes packet : memory_ok packet -> Forall (in_u 8) bytes -> (length bytes <= 4096)%nat ->
  exists packet', memcpy 0 bytes packet = Some packet' /\ memory_ok packet' /\ take (length bytes) packet' = bytes.
Proof.
  intros [Hp Lp] Hb Hl. exists (bytes ++ drop (length bytes) packet). split.
  - rewrite <- (take_drop (length bytes) packet) at 1. apply memcpy_front. rewrite length_take. lia.
  - split; [split|by rewrite take_app_length].
    + apply Forall_app. split; [done|by apply Forall_drop].
    + rewrite length_app, length_drop. lia.
Qed.

Lemma arp_handle_run ev packet s : event_ok ev -> memory_ok packet -> he_ok s ->
  exists packet', memory_ok packet' /\ handle c ev packet s = Some (packet', (step c ev s).1, (step c ev s).2).
Proof.
  intros He Hp Hh. destruct ev as [ts now buf err| |ts bytes from|[]]; cbn [handle step].
  - exists packet. split; [done|]. rewrite catcher_run by done. cbn. by destruct (tick c ts now err s).
  - by exists packet.
  - destruct He as [Hb Hl]. destruct (receive_memory bytes packet Hp Hb Hl) as (packet' & E & Hp' & Et).
    exists packet'. split; [done|]. rewrite E. cbn [mbind option_bind].
    rewrite recv_pack_run by (first [done|apply Hp'|lia]). rewrite Nat2Z.id, Et. cbn [mbind option_bind].
    by destruct (match heard c from bytes with Some m => _ | None => _ end).
  - by exists packet.
  - by exists packet.
Qed.

(** Every run returns, and is the run on states. *)
Lemma arp_run_run evs : forall packet s, Forall event_ok evs -> memory_ok packet -> he_ok s -> run c evs packet s = Some (srun c evs s).
Proof.
  induction evs as [|ev evs IH]; intros packet s He Hp Hh; cbn [run srun]; destruct (exited s); try done.
  apply Forall_cons in He as [H1 He]. destruct (arp_handle_run ev packet s H1 Hp Hh) as (packet' & Hp' & E).
  pose proof (step_he ev s Hh) as Hh'. rewrite E. destruct (step c ev s) as [s1 es]. cbn [mbind option_bind fst snd] in *.
  rewrite IH by done. cbn [mbind option_bind]. by destruct (srun c evs s1).
Qed.

End Run.

(** ** Invariants of runs

    [P h s es]: after the events [h] the state is [s] and [es] has been done. *)
Lemma srun_inv c (P : list event -> arping -> list effect -> Prop) :
  (forall h s es ev, P h s es -> exited s = None -> P (h ++ [ev]) (step c ev s).1 (es ++ (step c ev s).2)) ->
  forall evs h s es, P h s es -> exists done rest, evs = done ++ rest /\
    P (h ++ done) (srun c evs s).1 (es ++ (srun c evs s).2) /\ (exited (srun c evs s).1 = None -> rest = []).
Proof.
  intros Hs. induction evs as [|ev evs IH]; intros h s es HP; cbn [srun].
  - exists [], []. destruct (exited s); cbn; by rewrite !app_nil_r.
  - destruct (exited s) eqn:E.
    { exists [], (ev :: evs). cbn. rewrite !app_nil_r. rewrite E. done. }
    pose proof (Hs h s es ev HP E) as H1. destruct (step c ev s) as [s1 es1]. cbn [fst snd] in H1.
    destruct (IH _ _ _ H1) as (dn & rest & -> & H2 & H3). destruct (srun c (dn ++ rest) s1) as [s2 es2]. cbn [fst snd] in *.
    exists (ev :: dn), rest. by rewrite <- !(assoc_L (++)) in H2.
Qed.

(** ** The account of a run *)

(** The answers among the events. *)
Definition hears (c : config) (evs : list event) : list (sockaddr_ll * arp) :=
  omap (fun ev => match ev with EvPacket _ bytes from => pair from <$> heard c from bytes | _ => None end) evs.

(** The answers in the two lesser counters: the one that completes the number
    asked for ends the program before it is counted there. *)
Definition booked (c : config) (hs : list (sockaddr_ll * arp)) : list (sockaddr_ll * arp) :=
  if negb (timeout c =? 0) && (Z.of_nat (length hs) =? count c) then take (length hs - 1) hs else hs.

Definition is_broadcast (h : sockaddr_ll * arp) : Prop := sll_pkttype h.1 <> PACKET_HOST.
Definition is_request (h : sockaddr_ll * arp) : Prop := a_op h.2 = ARPOP_REQUEST.
#[export] Instance is_broadcast_dec h : Decision (is_broadcast h) := _.
#[export] Instance is_request_dec h : Decision (is_request h) := _.

Definition verdict (c : config) (hs : list (sockaddr_ll * arp)) : Z :=
  if dad c then match hs with [] => 0 | _ => 1 end
  else if unsolicited c then 0
  else match hs with [] => 1 | _ => 0 end.

(** Where the probes go: to the last host that answered. *)
Definition target (c : config) (b : list Z) (hs : list (sockaddr_ll * arp)) : list Z :=
  if broadcast_only c then take (hlen c) b
  else match list.last hs with Some (_, m) => a_sha m | None => take (hlen c) b end.

Definition probe_to (c : config) (to : list Z) : arp :=
  mkArp (if sll_hatype (me c) =? ARPHRD_FDDI then ARPHRD_ETHER else sll_hatype (me c))
    (if advert c then ARPOP_REPLY else ARPOP_REQUEST) (mine c) (src c) (if advert c then mine c else to) (dst c).

Definition probes (es : list effect) : list (list Z * list Z) :=
  omap (fun e => match e with Sendto to p => Some (to, p) | _ => None end) es.

Record tallied (c : config) (b : list Z) (h : list event) (s : arping) (es : list effect) : Prop := {
  ac_received : received s = Z.of_nat (length (hears c h));
  ac_brd : brd_recv s = Z.of_nat (length (filter is_broadcast (booked c (hears c h))));
  ac_req : req_recv s = Z.of_nat (length (filter is_request (booked c (hears c h))));
  ac_sent : 0 <= brd_sent s <= sent s /\ sent s <= Z.of_nat (length (probes es));
  ac_probes : Forall (fun '(to, p) => p = encode (hlen c) (probe_to c to) /\
      exists k, to = target c b (take k (hears c h))) (probes es)
}.

Record account (c : config) (b : list Z) (h : list event) (s : arping) (es : list effect) : Prop := {
  ac_tallied : tallied c b h s es;
  ac_open : exited s = None -> booked c (hears c h) = hears c h;
  ac_target : exited s = None -> his c s = target c b (hears c h);
  ac_unicast : exited s = None -> unicasting s = negb (broadcast_only c) && negb (bool_decide (hears c h = []));
  ac_exit : forall code, exited s = Some code -> list.last h = Some (EvError true) /\ code = 2 \/ code = verdict c (hears c h)
}.

Section Account.
Context (c : config) (Hc : config_ok c) (b : list Z).

Lemma account_quiet h s es ev : hears c [ev] = [] -> account c b h s es -> exited s = None -> account c b (h ++ [ev]) s es.
Proof.
  intros E [[] ] He. assert (Eh : hears c (h ++ [ev]) = hears c h) by (unfold hears in *; by rewrite omap_app, E, app_nil_r).
  constructor; [constructor|..]; rewrite ?Eh; try done. intros code Hx. by rewrite He in Hx.
Qed.

Lemma probes_app es es' : probes (es ++ es') = probes es ++ probes es'.
Proof. apply omap_app. Qed.

(** Effects other than probes. *)
Lemma tallied_effects h s es es' : probes es' = [] -> tallied c b h s es -> tallied c b h s (es ++ es').
Proof. intros E []. constructor; rewrite ?probes_app, ?E, ?app_nil_r; done. Qed.

Lemma account_effects h s es es' : probes es' = [] -> account c b h s es -> account c b h s (es ++ es').
Proof. intros E []. constructor; [by apply tallied_effects|done..]. Qed.

Lemma verdict_exit s hs : received s = Z.of_nat (length hs) -> exit_code c s = verdict c hs.
Proof. intros E. unfold exit_code, verdict. rewrite E. by destruct hs. Qed.

Lemma account_finish h s es : tallied c b h s es -> account c b h (finish c s).1 (es ++ (finish c s).2).
Proof.
  intros Ha. apply account_effects; [cbn; by destruct (quiet c)|]. destruct Ha.
  constructor; cbn; try done. intros code [= <-]. right. by apply verdict_exit.
Qed.

Lemma account_start h s es t : account c b h s es -> account c b h (set_start t s) es.
Proof. by intros [[] ]. Qed.

Lemma account_sent h s es now err : account c b h s es -> exited s = None ->
  account c b h (noted_sent c now err s) (es ++ [Sendto (his c s) (encode (hlen c) (probe c s))]).
Proof.
  intros [[] ] He. assert (Ee : exited (noted_sent c now err s) = None) by (unfold noted_sent; by destruct (_ =? _)).
  constructor; [constructor|..]; try (unfold noted_sent; by destruct (_ =? _)).
  - rewrite probes_app, length_app. cbn [probes omap list_omap length]. unfold noted_sent.
    destruct (_ =? _); cbn [brd_sent sent set_sent]; [destruct (unicasting s)|]; lia.
  - rewrite probes_app. apply Forall_app. split; [done|]. constructor; [|constructor]. split; [done|].
    exists (length (hears c h)). rewrite firstn_all. by apply ac_target0.
Qed.

Lemma account_tick h s es ts now buf err : account c b h s es -> exited s = None ->
  account c b (h ++ [EvAlarm ts now buf err]) (tick c ts now err s).1 (es ++ (tick c ts now err s).2).
Proof.
  intros Ha He. apply (account_quiet _ _ _ (EvAlarm ts now buf err)) in Ha; [|done|done].
  unfold tick. set (s1 := if tv_sec (start s) =? 0 then set_start ts s else s).
  assert (Ha1 : account c b (h ++ [EvAlarm ts now buf err]) s1 es) by (unfold s1; destruct (_ =? 0); [by apply account_start|done]).
  assert (He1 : exited s1 = None) by (unfold s1; by destruct (_ =? 0)).
  destruct (negb _ && _); [by apply account_finish, ac_tallied|].
  destruct (_ || _); [|by apply account_effects].
  destruct ((timeout c =? 0) && _); [by apply account_finish, ac_tallied|].
  pose proof (account_sent _ _ _ now err Ha1 He1) as Ha2. destruct (_ && unsolicited c); cbn [fst snd]; rewrite (assoc_L (++)).
  - by apply account_finish, ac_tallied.
  - by apply account_effects.
Qed.

Lemma length_filter_snoc {A} (P : A -> Prop) `{forall x, Decision (P x)} l x :
  Z.of_nat (length (filter P (l ++ [x]))) = Z.of_nat (length (filter P l)) + (if decide (P x) then 1 else 0).
Proof. rewrite filter_app, length_app, filter_cons, filter_nil. destruct (decide (P x)); cbn; lia. Qed.

Lemma booked_snoc hs x : booked c (hs ++ [x]) = if negb (timeout c =? 0) && (Z.of_nat (length hs) + 1 =? count c) then hs else hs ++ [x].
Proof.
  unfold booked. rewrite length_app. cbn [length]. replace (Z.of_nat (length hs + 1)) with (Z.of_nat (length hs) + 1) by lia.
  destruct (_ && _); [|done]. replace (length hs + 1 - 1)%nat with (length hs) by lia. by rewrite take_app_length.
Qed.

Lemma account_heard h s es ts bytes from m : he_ok s -> heard c from bytes = Some m -> account c b h s es -> exited s = None ->
  account c b (h ++ [EvPacket ts bytes from]) (accept c ts from m s).1 (es ++ (accept c ts from m s).2).
Proof.
  intros Hh Hm Ha He. pose proof (length_heard c from bytes m Hm) as Ls.
  destruct Ha as [[A1 A2 A3 A4 A5] A6 A7 A8 A9]. set (h' := h ++ [_]).
  assert (Eh : hears c h' = hears c h ++ [(from, m)]) by (unfold h', hears; rewrite omap_app; cbn; by rewrite Hm).
  rewrite (A6 He) in A2, A3.
  assert (A5' : Forall (fun '(to, p) => p = encode (hlen c) (probe_to c to) /\ exists k, to = target c b (take k (hears c h'))) (probes es)).
  { eapply Forall_impl; [exact A5|]. intros [to p] [H [k Hk]]. split; [done|]. exists (k `min` length (hears c h))%nat.
    rewrite Eh, take_app_le by lia. by rewrite <- take_take, firstn_all. }
  assert (El : received s + 1 = Z.of_nat (length (hears c h'))) by (rewrite Eh, length_app, A1; cbn; lia).
  assert (Eb := booked_snoc (hears c h) (from, m)). rewrite <- Eh, <- A1 in Eb.
  assert (Hl : probes (reply_line c ts from m s) = []) by (unfold reply_line, print_line; by destruct (quiet c)).
  unfold accept. cbn [received set_recv].
  destruct (negb (timeout c =? 0) && (received s + 1 =? count c)) eqn:G1; rewrite ?G1 in Eb.
  { cbn [fst snd]. rewrite (assoc_L (++)). apply account_finish, tallied_effects; [done|].
    constructor; cbn [received brd_recv req_recv sent brd_sent set_recv]; rewrite ?Eb; done. }
  assert (Ht : tallied c b h' (counted from m s) es).
  { constructor; cbn [counted received brd_recv req_recv sent brd_sent set_recv]; rewrite ?Eb; try done.
    - rewrite Eh, length_filter_snoc, <- A2. unfold is_broadcast. cbn [fst]. destruct (Z.eqb_spec (sll_pkttype from) PACKET_HOST), (decide _); try done; lia.
    - rewrite Eh, length_filter_snoc, <- A3. unfold is_request. cbn [snd]. destruct (Z.eqb_spec (a_op m) ARPOP_REQUEST), (decide _); try done; lia. }
  destruct (quit_on_reply c || _); cbn [fst snd]; rewrite ?app_nil_r, ?(assoc_L (++)).
  { by apply account_finish, tallied_effects. }
  apply account_effects; [done|].
  assert (Hx : exited (retarget c m (counted from m s)) = None) by (unfold retarget; by destruct (broadcast_only c)).
  assert (Hd : bool_decide (hears c h ++ [(from, m)] = []) = false).
  { apply bool_decide_eq_false_2. intros E. by apply app_eq_nil in E as [_ E]. }
  constructor; [|by rewrite Eb| | |by rewrite Hx].
  - destruct Ht. unfold retarget. by destruct (broadcast_only c).
  - intros _. unfold target, retarget, his. rewrite Eh, last_snoc. destruct (broadcast_only c) eqn:Eo.
    + specialize (A7 He). unfold target, his in A7. rewrite Eo in A7. exact A7.
    + cbn [he set_he]. rewrite take_app_le by lia. by rewrite <- Ls, firstn_all.
  - intros _. rewrite Eh, Hd, andb_true_r. unfold retarget. destruct (broadcast_only c) eqn:Eo; [|done].
    cbn [counted unicasting set_recv]. by rewrite (A8 He).
Qed.

Lemma account_step h s es ev : he_ok s -> account c b h s es -> exited s = None ->
  account c b (h ++ [ev]) (step c ev s).1 (es ++ (step c ev s).2).
Proof.
  intros Hh Ha He. destruct ev as [ts now buf err| |ts bytes from|[]]; cbn [step].
  - by apply account_tick.
  - apply account_finish, ac_tallied. by apply account_quiet.
  - destruct (heard c from bytes) as [m|] eqn:E.
    + by apply account_heard.
    + apply account_effects; [done|]. apply account_quiet; [|done|done]. cbn. by rewrite E.
  - apply (account_quiet _ _ _ (EvError true)) in Ha; [|done|done]. apply account_effects; [done|]. destruct Ha as [[] ].
    constructor; cbn [set_exited exited]; try done. intros code [= <-]. left. by rewrite last_snoc.
  - apply account_effects; [done|]. by apply account_quiet.
Qed.

Lemma account_initial : account c b [] (initial b) [].
Proof.
  assert (E : booked c [] = []) by (unfold booked; by destruct (_ && _)).
  constructor; [constructor|..]; cbn [hears omap list_omap initial received brd_recv req_recv exited sent brd_sent probes unicasting list.last];
    rewrite ?E; try done; intros _; [unfold target; by destruct (broadcast_only c)|by rewrite andb_false_r].
Qed.

(** The account holds of every run from the initial state. *)
Lemma arp_account_run evs : length b = sizeof_storage_addr -> exists done rest, evs = done ++ rest /\
  account c b done (srun c evs (initial b)).1 (srun c evs (initial b)).2 /\
  (exited (srun c evs (initial b)).1 = None -> rest = []).
Proof.
  intros Hb. destruct (srun_inv c (fun h s es => he_ok s /\ account c b h s es)) with (evs := evs) (h := @nil event) (s := initial b) (es := @nil effect)
    as (dn & rest & E & [_ Ha] & Hr).
  - intros h s es ev [Hh Ha] He. split; [by apply step_he|by apply account_step].
  - split; [done|]. apply account_initial.
  - exists dn, rest. by rewrite !app_nil_l in Ha.
Qed.

End Account.

(** ** The clock of arping

    The time between probes, and the end of a run by the number of probes or
    by the deadline. *)

(** ** Times *)

Definition ns (t : timespec) : Z := tv_sec t * 1000000000 + tv_nsec t.

(** The clock reads at least one second, which the program relies on when it
    takes 0 for "not yet". *)
Definition time_ok (t : timespec) : Prop := 0 < tv_sec t /\ 0 <= tv_nsec t < 1000000000.

Definition HALF : Z := 500000000.

Lemma later_sub a b k n : 0 <= tv_nsec a < 1000000000 -> 0 <= tv_nsec b < 1000000000 -> 0 <= n < 1000000000 ->
  timespec_later (timespec_sub a b) (mkTime k n) = (k * 1000000000 + n <? ns a - ns b).
Proof.
  intros Ha Hb Hn. unfold timespec_later, timespec_sub, ns.
  destruct (tv_nsec a <? tv_nsec b) eqn:E; cbn [tv_sec tv_nsec]; lia.
Qed.

(** Clock readings of the alarms, in order, none before [t]. *)
Fixpoint clock_ok (t : Z) (evs : list event) : Prop :=
  match evs with
  | [] => True
  | EvAlarm ts now _ _ :: evs => time_ok ts /\ time_ok now /\ t <= ns ts <= ns now /\ clock_ok (ns now) evs
  | _ :: evs => clock_ok t evs
  end.

(** ** The invariant of the clock *)

Record clock_inv (t : Z) (s : arping) : Prop := {
  ci_start : tv_sec (start s) = 0 \/ time_ok (start s) /\ ns (start s) <= t;
  ci_none : sent s = 0 -> last s = zero_time;
  ci_some : sent s <> 0 -> time_ok (start s) /\ time_ok (last s) /\ ns (last s) <= t;
  ci_pace : 0 < sent s -> HALF * (sent s - 1) <= ns (last s) - ns (start s);
  ci_sent : 0 <= sent s
}.

Section Pace.
Context (c : config).

Lemma noted_cases now err s : noted_sent c now err s = s \/
  noted_sent c now err s = set_sent now (sent s + 1) (if unicasting s then brd_sent s else brd_sent s + 1) s.
Proof. unfold noted_sent. destruct (_ =? _); auto. Qed.

Lemma clock_mono t t' s : t <= t' -> clock_inv t s -> clock_inv t' s.
Proof.
  intros H [Hs Hn Ho Hp H0]. constructor; try done.
  - destruct Hs as [|[? ?]]; [by left|right; split; [done|lia]].
  - intros Hx. destruct (Ho Hx) as (? & ? & ?). split; [done|split; [done|lia]].
Qed.

Lemma clock_finish t s : clock_inv t s -> clock_inv t (finish c s).1.
Proof. by intros []. Qed.

(** The first alarm sets the start. *)
Definition begun (ts : timespec) (s : arping) : arping := if tv_sec (start s) =? 0 then set_start ts s else s.

Lemma clock_begun t ts s : clock_inv t s -> time_ok ts -> t <= ns ts -> clock_inv (ns ts) (begun ts s) /\ time_ok (start (begun ts s)).
Proof.
  intros Hi Hts Ht. unfold begun. destruct (Z.eqb_spec (tv_sec (start s)) 0) as [E|E].
  - destruct Hi as [Hs Hn Ho Hp H0].
    assert (sent s = 0) as Es by (destruct (Z.eq_dec (sent s) 0) as [|Es]; [done|]; destruct (Ho Es) as ([? _] & _); lia).
    split; [|done]. constructor; cbn; [right; split; [done|lia]|done|by rewrite Es|lia|lia].
  - split; [by eapply clock_mono|]. destruct Hi as [[|[]] _ _ _ _]; done.
Qed.

Lemma clock_noted ts now err s : clock_inv (ns ts) s -> time_ok (start s) -> time_ok ts -> time_ok now -> ns ts <= ns now ->
  (tv_sec (last s) =? 0) || timespec_later (timespec_sub ts (last s)) (mkTime 0 500000000) = true ->
  clock_inv (ns now) (noted_sent c now err s).
Proof.
  intros Hi Hs1 Hts Hnow Ht G. destruct (noted_cases now err s) as [->| ->]; [by eapply clock_mono|].
  destruct Hi as [Hs Hn Ho Hp H0]. destruct Hs as [Hs|[_ Hs]]; [destruct Hs1; lia|].
  constructor; cbn; [right; split; [done|lia]|lia|intros _; split; [done|split; [done|lia]]| |lia]. intros _.
  destruct (Z.eq_dec (sent s) 0) as [Es|Es]; [rewrite Es; lia|].
  destruct (Ho Es) as (_ & Hl & Hlt). rewrite later_sub in G by (first [apply Hts|apply Hl|lia]). unfold HALF in *. destruct Hl. lia.
Qed.

Lemma clock_tick t ts now err s : clock_inv t s -> time_ok ts -> time_ok now -> t <= ns ts <= ns now ->
  clock_inv (ns now) (tick c ts now err s).1.
Proof.
  intros Hi Hts Hnow [Ht Ht']. destruct (clock_begun t ts s Hi Hts Ht) as [H1 Hs1]. unfold tick. fold (begun ts s).
  pose proof (clock_mono _ _ _ Ht' H1) as H2.
  destruct (negb _ && _); [by apply clock_finish|].
  destruct ((tv_sec (last (begun ts s)) =? 0) || _) eqn:G; [|done].
  destruct ((timeout c =? 0) && _); [by apply clock_finish|].
  pose proof (clock_noted ts now err _ H1 Hs1 Hts Hnow Ht' G) as H3.
  destruct (_ && unsolicited c); [by apply clock_finish|done].
Qed.

Lemma accept_sent ts from m s : let s' := (accept c ts from m s).1 in
  sent s' = sent s /\ last s' = last s /\ start s' = start s.
Proof.
  unfold accept. destruct (negb _ && _); [done|]. destruct (quit_on_reply c || _); [done|]. cbn. unfold retarget. by destruct (broadcast_only c).
Qed.

(** Only alarms touch the clock and the number of probes. *)
Lemma step_still ev s : (forall ts now buf err, ev <> EvAlarm ts now buf err) ->
  let s' := (step c ev s).1 in sent s' = sent s /\ last s' = last s /\ start s' = start s.
Proof.
  intros H. destruct ev as [ts now buf err| |ts bytes from|[]]; cbn [step]; [by destruct (H ts now buf err)|done| |done|done].
  - by destruct (heard c from bytes); [apply accept_sent|].
Qed.

Lemma clock_still t s s' : sent s' = sent s /\ last s' = last s /\ start s' = start s -> clock_inv t s -> clock_inv t s'.
Proof. intros (E1 & E2 & E3) []. constructor; rewrite ?E1, ?E2, ?E3; done. Qed.

Lemma clock_run evs : forall t s, clock_ok t evs -> clock_inv t s -> exists t', clock_inv t' (srun c evs s).1.
Proof.
  induction evs as [|ev evs IH]; intros t s Hc Hi; cbn [srun]; destruct (exited s); try by exists t.
  destruct (step c ev s) as [s1 es] eqn:E. destruct (srun c evs s1) as [s2 es2] eqn:E2.
  assert (E1 : s1 = (step c ev s).1) by (by rewrite E). assert (E3 : s2 = (srun c evs s1).1) by (by rewrite E2). cbn [fst]. rewrite E3.
  destruct ev as [ts now buf err| |ts bytes from|b].
  - destruct Hc as (H1 & H2 & H3 & H4). apply (IH (ns now)); [done|]. rewrite E1. by eapply clock_tick.
  - apply (IH t); [done|]. rewrite E1. eapply clock_still; [by apply step_still|done].
  - apply (IH t); [done|]. rewrite E1. eapply clock_still; [by apply step_still|done].
  - apply (IH t); [done|]. rewrite E1. eapply clock_still; [by apply step_still|done].
Qed.

Lemma clock_initial b : clock_inv 0 (initial b).
Proof. constructor; cbn; try done; try lia. Qed.

End Pace.

(** ** The number of probes *)

(** Alarms more than half a second after the previous probe, whose packets are
    sent. *)
Fixpoint spaced (c : config) (t : Z) (evs : list event) : Prop :=
  match evs with
  | [] => True
  | EvAlarm ts now _ err :: evs =>
      time_ok ts /\ time_ok now /\ t + HALF < ns ts /\ ns ts <= ns now /\ err = Z.of_nat (16 + 2 * hlen c) /\ spaced c (ns now) evs
  | _ :: evs => spaced c t evs
  end.

Definition is_alarm (ev : event) : bool := match ev with EvAlarm _ _ _ _ => true | _ => false end.
Definition ticks (evs : list event) : Z := Z.of_nat (length (filter (fun ev => is_alarm ev = true) evs)).

Lemma ticks_cons ev evs : ticks (ev :: evs) = (if is_alarm ev then 1 else 0) + ticks evs.
Proof. unfold ticks. rewrite filter_cons. destruct ev; cbn [is_alarm]; destruct (decide _); try done; cbn [length]; lia. Qed.

Section Budget.
Context (c : config) (Ht0 : timeout c = 0).

Record budget (t : Z) (s : arping) : Prop := {
  bu_sent : 0 <= sent s <= count c;
  bu_last : sent s = 0 /\ last s = zero_time \/ 0 < sent s /\ time_ok (last s) /\ ns (last s) <= t
}.

Lemma budget_tick t ts now s : budget t s -> exited s = None -> time_ok ts -> time_ok now -> t + HALF < ns ts -> ns ts <= ns now ->
  let s' := (tick c ts now (Z.of_nat (16 + 2 * hlen c)) s).1 in
  budget (ns now) s' /\ (exited s' = None -> sent s' = sent s + 1) /\ (exited s' <> None -> sent s' = count c).
Proof.
  intros [Hs Hl] He Hts Hnow H1 H2. unfold tick. fold (begun ts s).
  assert (E : sent (begun ts s) = sent s /\ last (begun ts s) = last s /\ exited (begun ts s) = exited s) by (unfold begun; by destruct (_ =? 0)).
  destruct E as (E1 & E2 & E3). rewrite Ht0, E2. cbn [Z.eqb negb andb].
  assert (G : (tv_sec (last s) =? 0) || timespec_later (timespec_sub ts (last s)) (mkTime 0 500000000) = true).
  { destruct Hl as [[_ ->]|(_ & Hlo & Hlt)]; [done|]. apply orb_true_iff. right.
    rewrite later_sub by (first [apply Hts|apply Hlo|lia]). unfold HALF in *. lia. }
  rewrite G, E1. destruct (Z.eqb_spec (sent s) (count c)) as [Es|Es].
  - cbn [fst finish set_exited sent last exited]. split; [|split; [done|by rewrite E1]].
    constructor; cbn; rewrite ?E1, ?E2; [done|]. destruct Hl as [|(? & ? & ?)]; [by left|right; split; [done|split; [done|unfold HALF in *; lia]]].
  - unfold noted_sent. rewrite Z.eqb_refl. cbn [sent set_sent]. rewrite E1.
    assert (B : forall s', sent s' = sent s + 1 -> last s' = now -> budget (ns now) s').
    { intros s' F1 F2. constructor; rewrite ?F1, ?F2; [lia|]. right. split; [lia|done]. }
    destruct (Z.eqb_spec (sent s + 1) (count c)) as [Ec|Ec]; [destruct (unsolicited c)|]; cbn [andb fst];
      (split; [by apply B; cbn; rewrite ?E1|]); cbn; rewrite ?E1, ?E3, ?He; (split; [done|]); intros Hx; try done; try lia.
Qed.

Lemma budget_still t s s' : sent s' = sent s /\ last s' = last s /\ start s' = start s -> budget t s -> budget t s'.
Proof. intros (E1 & E2 & _) []. constructor; by rewrite ?E1, ?E2. Qed.

Lemma srun_cons ev evs s : exited s = None -> (srun c (ev :: evs) s).1 = (srun c evs (step c ev s).1).1.
Proof. intros He. cbn [srun]. rewrite He. destruct (step c ev s) as [s1 es]. cbn [fst]. by destruct (srun c evs s1). Qed.

Lemma srun_exited evs s : exited s <> None -> (srun c evs s).1 = s.
Proof. intros He. destruct evs; cbn; by destruct (exited s). Qed.

Lemma budget_run evs : forall t s, budget t s -> exited s = None -> spaced c t evs -> let s' := (srun c evs s).1 in
  (exists t', budget t' s') /\ (exited s' = None -> sent s' = sent s + ticks evs) /\
  (Forall (fun ev => is_alarm ev = true) evs -> exited s' <> None -> sent s' = count c).
Proof.
  induction evs as [|ev evs IH]; intros t s Hb He Hsp.
  { cbn [srun]. rewrite He. cbn. split; [by exists t|]. split; [unfold ticks; cbn; lia|done]. }
  cbn zeta. rewrite srun_cons by done.
  assert (Hs : exists t1, budget t1 (step c ev s).1 /\ spaced c t1 evs /\
      (exited (step c ev s).1 = None -> sent (step c ev s).1 = sent s + (if is_alarm ev then 1 else 0)) /\
      (is_alarm ev = true -> exited (step c ev s).1 <> None -> sent (step c ev s).1 = count c)).
  { destruct (is_alarm ev) eqn:Ea.
    - destruct ev as [ts now buf err| | |]; try done. destruct Hsp as (H1 & H2 & H3 & H4 & -> & H5).
      destruct (budget_tick t ts now s Hb He H1 H2 H3 H4) as (B1 & B2 & B3). exists (ns now). auto.
    - assert (Hst := step_still c ev s ltac:(intros ts now buf err ->; done)). exists t. split; [by eapply budget_still|].
      split; [destruct ev; done|]. split; [|done]. intros _. destruct Hst as (-> & _). lia. }
  destruct Hs as (t1 & B1 & B2 & B3 & B4). destruct (exited (step c ev s).1) as [code|] eqn:Ex.
  - rewrite srun_exited by (by rewrite Ex). rewrite Ex. split; [by exists t1|]. split; [done|]. intros Hf _.
    apply Forall_cons in Hf as [Ha _]. by apply B4.
  - destruct (IH t1 _ B1 Ex B2) as (C1 & C2 & C3). split; [done|]. split.
    + intros Hx. rewrite C2, B3, ticks_cons by done. lia.
    + intros Hf Hx. apply Forall_cons in Hf as [_ Hf]. by apply C3.
Qed.

End Budget.

(** ** The deadline *)

Section Deadline.
Context (c : config) (Hw : 0 < timeout c).

Definition overdue (t0 : timespec) (ev : event) : Prop :=
  match ev with EvAlarm ts _ _ _ => time_ok ts /\ timeout c * 1000000000 + HALF < ns ts - ns t0 | _ => False end.

Lemma tick_start ts now err s : start (tick c ts now err s).1 = start (begun ts s).
Proof. unfold tick. fold (begun ts s). unfold noted_sent. repeat (destruct (_ : bool); try done). Qed.

Lemma overdue_tick ts now err s : time_ok (start (begun ts s)) -> time_ok ts ->
  timeout c * 1000000000 + HALF < ns ts - ns (start (begun ts s)) -> exited (tick c ts now err s).1 <> None.
Proof.
  intros Hs Hts H. unfold tick. fold (begun ts s). rewrite later_sub by (first [apply Hts|apply Hs|lia]).
  rewrite (proj2 (Z.eqb_neq _ _)) by lia. rewrite (proj2 (Z.ltb_lt _ _)) by (unfold HALF in H; lia). done.
Qed.

Lemma deadline_run evs : forall s, time_ok (start s) -> Exists (overdue (start s)) evs -> exited (srun c evs s).1 <> None.
Proof.
  induction evs as [|ev evs IH]; intros s Hs Hx; [by inversion Hx|].
  destruct (exited s) eqn:He; [rewrite srun_exited by (by rewrite He); by rewrite He|].
  rewrite srun_cons by done.
  assert (Est : start (step c ev s).1 = start s).
  { destruct (is_alarm ev) eqn:Ea.
    - destruct ev as [ts now buf err| | |]; try done. cbn [step]. rewrite tick_start. unfold begun.
      by rewrite (proj2 (Z.eqb_neq _ _)) by (destruct Hs; lia).
    - by apply step_still; intros ts now buf err ->. }
  apply Exists_cons in Hx as [Ho|Hx]; [|apply IH; by rewrite Est].
  destruct ev as [ts now buf err| | |]; try done. destruct Ho as [Hts Ho].
  assert (Ex : exited (step c (EvAlarm ts now buf err) s).1 <> None).
  { assert (Eb : start (begun ts s) = start s) by (unfold begun; by rewrite (proj2 (Z.eqb_neq _ _)) by (destruct Hs; lia)).
    apply overdue_tick; rewrite ?Eb; done. }
  by rewrite srun_exited.
Qed.

End Deadline.
