(* ===== verification/ArpingDevice.v ===== *)
(** * arping: the interface and main

    The search for the interface in its three versions (getifaddrs, sysfs,
    ioctl), the broadcast address, the command line and [main] up to its loop.
    What the system answers is in the records [kernel] and [network]; [Exits]
    is a call of [exit], [None] an invalid access to memory.  Options are what
    getopt delivers; the changes of capabilities around the calls of [socket]
    and [setsockopt] have no other effect and are left out. *)

From Stdlib Require Import ZArith Lia String Ascii.
From stdpp Require Import base numbers option list.
From S2P Require Import Prelude Ping PingPacket Arping.

Local Open Scope list_scope.
Local Open Scope Z_scope.
Local Abbreviation length := List.length.

Inductive outcome (A : Type) := Exits (code : Z) | Returns (a : A).
Arguments Exits {A}. Arguments Returns {A}.

(** ** Data *)

Definition AF_PACKET : Z := 17.
Definition IFF_UP : Z := 1.
Definition IFF_LOOPBACK : Z := 8.
Definition IFF_RUNNING : Z := 64.
Definition IFF_NOARP : Z := 128.

(** An element of the list of getifaddrs: family and [sll_halen] of its
    address, [sll_halen] and [sll_addr] of its broadcast address. *)
Record ifaddrs := mkIfaddrs {
  ifa_name : option string;
  ifa_flags : Z;
  ifa_addr : option (Z * Z);
  ifa_broadaddr : option (Z * list Z)
}.

(** The pointer [device.ifa]. *)
Inductive ifa_ptr := IfaNull | IfaAt (i : ifaddrs) | IfaFreed.

Record sysfs_devattr_values := mkValues {
  v_ifname : option string;
  v_ifindex : Z;
  v_flags : Z;
  v_addr_len : Z;
  v_broadcast : option (list Z)
}.

Record device := mkDevice {
  name : option string;
  ifindex : Z;
  ifa : ifa_ptr;
  sysfs : option sysfs_devattr_values
}.

Definition set_name (x : option string) (d : device) : device := mkDevice x (ifindex d) (ifa d) (sysfs d).
Definition set_ifindex (x : Z) (d : device) : device := mkDevice (name d) x (ifa d) (sysfs d).
Definition set_ifa (x : ifa_ptr) (d : device) : device := mkDevice (name d) (ifindex d) x (sysfs d).
Definition set_sysfs (x : option sysfs_devattr_values) (d : device) : device := mkDevice (name d) (ifindex d) (ifa d) x.

Definition named (d : device) : bool := match name d with Some _ => true | None => false end.
Definition hit (x m : Z) : bool := negb (Z.land x m =? 0).

Definition check_ifflags (dad : bool) (ifflags : Z) (fatal : bool) : outcome Z :=
  if negb (hit ifflags IFF_UP) then (if fatal then Exits 2 else Returns (-1))
  else if hit ifflags (Z.lor IFF_NOARP IFF_LOOPBACK) then
    (if fatal then Exits (if dad then 0 else 2) else Returns (-1))
  else Returns 0.

(** ** By getifaddrs *)

Fixpoint ifaddrs_loop (dad : bool) (l : list ifaddrs) (n : Z) (d : device) : outcome (Z * device) :=
  match l with
  | [] => Returns (n, d)
  | i :: l =>
      match ifa_addr i with
      | None => ifaddrs_loop dad l n d
      | Some (family, halen) =>
          if negb (family =? AF_PACKET) then ifaddrs_loop dad l n d
          else if match name d, ifa_name i with Some x, Some y => negb (String.eqb y x) | _, _ => false end
          then ifaddrs_loop dad l n d
          else
            match check_ifflags dad (ifa_flags i) (named d) with
            | Exits code => Exits code
            | Returns rc =>
                if rc <? 0 then ifaddrs_loop dad l n d
                else if halen =? 0 then ifaddrs_loop dad l n d
                else
                  match ifa_broadaddr i with
                  | None => ifaddrs_loop dad l n d
                  | Some _ =>
                      let d := set_ifa (IfaAt i) d in
                      if n =? 0 then ifaddrs_loop dad l (n + 1) d else Returns (n + 1, d)
                  end
            end
      end
  end.

(** [getifaddrs] is [None] when the call fails; [if_nametoindex] is 0 on failure. *)
Definition find_device_by_ifaddrs (dad : bool) (getifaddrs : option (list ifaddrs)) (if_nametoindex : string -> Z)
    (d : device) : option (outcome (Z * device)) :=
  match getifaddrs with
  | None => Some (Returns (-1, d))
  | Some l =>
      match ifaddrs_loop dad l 0 d with
      | Exits code => Some (Exits code)
      | Returns (n, d) =>
          match n =? 1, ifa d with
          | true, IfaAt i =>
              nm ← ifa_name i;
              let d := set_ifindex (if_nametoindex nm) d in
              if ifindex d =? 0 then Some (Returns (-1, set_ifa IfaFreed d))
              else Some (Returns (0, set_name (Some nm) d))
          | _, _ => Some (Returns (1, d))
          end
      end
  end.

(** ** By sysfs *)

Definition codes (s : string) : list Z := (fun c => Z.of_nat (nat_of_ascii c)) <$> list_ascii_of_string s.

Definition isspace (c : Z) : bool := (c =? 32) || (9 <=? c) && (c <=? 13).

Definition digit_of (base c : Z) : option Z :=
  let v := if (48 <=? c) && (c <=? 57) then c - 48
           else if (97 <=? c) && (c <=? 102) then c - 87
           else if (65 <=? c) && (c <=? 70) then c - 55 else 99 in
  if v <? base then Some v else None.

Fixpoint skip_spaces (l : list Z) : list Z :=
  match l with c :: l' => if isspace c then skip_spaces l' else l | [] => [] end.

(** Digits from the front: the value and what follows. *)
Fixpoint digits (base acc : Z) (l : list Z) : Z * list Z :=
  match l with
  | c :: l' => match digit_of base c with Some v => digits base (acc * base + v) l' | None => (acc, l) end
  | [] => (acc, l)
  end.

(** [strtoul]: the value, the end pointer as the characters from there on, and
    whether errno is set. *)
Definition strtoul (base : Z) (l : list Z) : Z * list Z * bool :=
  let l1 := skip_spaces l in
  let '(neg, l2) := match l1 with 45 :: t => (true, t) | 43 :: t => (false, t) | _ => (false, l1) end in
  let l3 := match l2 with
            | 48 :: x :: h :: t =>
                if (base =? 16) && ((x =? 120) || (x =? 88)) && match digit_of 16 h with Some _ => true | None => false end
                then h :: t else l2
            | _ => l2
            end in
  match l3 with
  | c :: _ =>
      match digit_of base c with
      | Some _ =>
          let '(v, rest) := digits base 0 l3 in
          if 2 ^ 64 <=? v then (2 ^ 64 - 1, rest, true) else (if neg then u64 (- v) else v, rest, false)
      | None => (0, l, false)
      end
  | [] => (0, l, false)
  end.

Definition sysfs_devattr_ulong (base : Z) (s : list Z) : Z * Z :=
  let '(v, ep, errno) := strtoul base s in
  if match s with c :: _ => isspace c | [] => false end || errno
     || match ep with c :: _ => negb (c =? 10) | [] => false end then (-1, v) else (0, v).

(** [sscanf] with "%02hhx": at most two characters after white space, a sign
    and hexadecimal digits; "0x" alone is no number.  [None] if it does not
    convert. *)
Definition sscanf_hhx (l : list Z) : option Z :=
  match skip_spaces l with
  | a :: b :: _ =>
      if (a =? 43) || (a =? 45) then (fun v => if a =? 45 then u8 (- v) else v) <$> digit_of 16 b
      else
        v ← digit_of 16 a;
        match digit_of 16 b with
        | Some w => Some (16 * v + w)
        | None => if (v =? 0) && ((b =? 120) || (b =? 88)) then None else Some v
        end
  | [a] => digit_of 16 a
  | [] => None
  end.

(** The loop over [i]: [k] bytes are still to be read.  An access behind the
    terminating null is to what the array held before. *)
Fixpoint mac_loop (s : list Z) (i k : nat) (m : list Z) : option (Z * list Z) :=
  match k with
  | O => Some (0, m)
  | S k' =>
      sep ← (if (i =? 0)%nat then Some 58 else (s ++ [0]) !! (i * 3 - 1)%nat);
      if negb (sep =? 58) then Some (-1, m)
      else
        match sscanf_hhx (drop (i * 3) s) with
        | None => Some (-1, m)
        | Some b => mac_loop s (S i) k' (m ++ [b])
        end
  end.

Definition sysfs_devattr_macaddr (s : list Z) (v : sysfs_devattr_values) : option (Z * sysfs_devattr_values) :=
  '(rc, m) ← mac_loop s 0 (Z.to_nat (u32 (v_addr_len v))) [];
  Some (rc, if rc =? 0 then mkValues (v_ifname v) (v_ifindex v) (v_flags v) (v_addr_len v) (Some m) else v).

(** The word that fscanf reads from an attribute's file. *)
Inductive attr_file := NoFile | NoWord | Word (s : string).

Record dirent := mkDirent {
  d_name : string;
  f_ifindex : attr_file;
  f_flags : attr_file;
  f_addr_len : attr_file;
  f_broadcast : attr_file
}.

Definition handler := list Z -> sysfs_devattr_values -> option (Z * sysfs_devattr_values).

Definition sysfs_devattrs (e : dirent) : list (attr_file * handler) :=
  [(f_ifindex e, fun s v => let '(rc, x) := sysfs_devattr_ulong 10 s in
      Some (rc, mkValues (v_ifname v) x (v_flags v) (v_addr_len v) (v_broadcast v)));
   (f_flags e, fun s v => let '(rc, x) := sysfs_devattr_ulong 16 s in
      Some (rc, mkValues (v_ifname v) (v_ifindex v) x (v_addr_len v) (v_broadcast v)));
   (f_addr_len e, fun s v => let '(rc, x) := sysfs_devattr_ulong 10 s in
      Some (rc, mkValues (v_ifname v) (v_ifindex v) (v_flags v) x (v_broadcast v)));
   (f_broadcast e, sysfs_devattr_macaddr)].

Fixpoint attrs_loop (l : list (attr_file * handler)) (rc : Z) (v : sysfs_devattr_values)
    : option (Z * sysfs_devattr_values) :=
  match l with
  | [] => Some (rc, v)
  | (NoFile, _) :: l => attrs_loop l rc v
  | (f, h) :: l =>
      '(rc, v) ← h (match f with Word s => codes s | _ => [] end) v;
      if rc <? 0 then Some (rc, v) else attrs_loop l rc v
  end.

Definition no_values : sysfs_devattr_values := mkValues None 0 0 0 None.

(** The loop of readdir; false is the way out when strdup fails. *)
Fixpoint sysfs_loop (dad : bool) (strdup : string -> bool) (dir : list dirent) (n : Z) (d : device) (dv : sysfs_devattr_values)
    : option (outcome (bool * Z * sysfs_devattr_values)) :=
  match dir with
  | [] => Some (Returns (true, n, dv))
  | e :: dir =>
      if String.eqb (d_name e) "." || String.eqb (d_name e) ".." then sysfs_loop dad strdup dir n d dv
      else if match name d with Some x => negb (String.eqb (d_name e) x) | None => false end then sysfs_loop dad strdup dir n d dv
      else
        '(rc, v) ← attrs_loop (sysfs_devattrs e) (-1) no_values;
        if rc <? 0 then sysfs_loop dad strdup dir n d dv
        else
          match check_ifflags dad (u32 (v_flags v)) (named d) with
          | Exits code => Some (Exits code)
          | Returns rc =>
              if rc <? 0 then sysfs_loop dad strdup dir n d dv
              else if v_addr_len v =? 0 then sysfs_loop dad strdup dir n d dv
              else if negb (v_ifindex dv =? 0) && hit (v_flags dv) IFF_RUNNING then sysfs_loop dad strdup dir n d dv
              else if negb (strdup (d_name e)) then Some (Returns (false, n, dv))
              else
                let dv := mkValues (Some (d_name e)) (v_ifindex v) (v_flags v) (v_addr_len v) (v_broadcast v) in
                if n =? 0 then sysfs_loop dad strdup dir (n + 1) d dv else Some (Returns (true, n + 1, dv))
          end
  end.

(** [dir] is [None] when opendir fails, [strdup] false when it finds no memory. *)
Definition find_device_by_sysfs (dad : bool) (opendir : option (list dirent)) (strdup : string -> bool) (d : device)
    : option (outcome (Z * device)) :=
  let d := match sysfs d with None => set_sysfs (Some no_values) d | Some _ => d end in
  dv ← sysfs d;
  dir ← opendir;
  r ← sysfs_loop dad strdup dir 0 d dv;
  match r with
  | Exits code => Some (Exits code)
  | Returns (false, _, dv) => Some (Returns (-1, set_sysfs (Some dv) d))
  | Returns (true, n, dv) =>
      let d := set_sysfs (Some dv) d in
      let d := if n =? 1 then set_name (v_ifname dv) (set_ifindex (s32 (v_ifindex dv)) d) else d in
      Some (Returns (if ifindex d =? 0 then 1 else 0, d))
  end.

(** ** By ioctl *)

(** The answers of the ioctl calls: flags and index of a name, and the names
    that SIOCGIFCONF puts into a buffer of a size. *)
Record ioctls := mkIoctls {
  SIOCGIFFLAGS : string -> option Z;
  SIOCGIFINDEX : string -> option Z;
  SIOCGIFCONF : Z -> option (list string)
}.

(** [struct ifreq]: the name and the first four bytes of the union, which the
    flags share with the index. *)
Record ifreq := mkIfreq { ifr_name : string; ifr_union : Z }.

Definition sizeof_ifreq : Z := 40.

Definition ifr_flags (r : ifreq) : Z := s16 (ifr_union r).
Definition store_flags (f : Z) (r : ifreq) : ifreq :=
  mkIfreq (ifr_name r) (s32 (Z.lor (Z.shiftl (Z.shiftr (ifr_union r) 16) 16) (u16 f))).

Definition check_device_by_ioctl (dad : bool) (k : ioctls) (fatal : bool) (r : ifreq) : outcome (Z * ifreq) :=
  match SIOCGIFFLAGS k (ifr_name r) with
  | None => Returns (-1, r)
  | Some f =>
      let r := store_flags f r in
      match check_ifflags dad (u32 (ifr_flags r)) fatal with
      | Exits code => Exits code
      | Returns rc =>
          if rc <? 0 then Returns (1, r)
          else match SIOCGIFINDEX k (ifr_name r) with
               | None => Returns (-1, r)
               | Some i => Returns (0, mkIfreq (ifr_name r) i)
               end
      end
  end.

(** The buffer is doubled until all names fit, with a margin; its size stays
    below INT_MAX / 2. *)
Fixpoint ifconf_sizes (fuel : nat) (k : ioctls) (ifrsize : Z) : option (list string) :=
  match fuel with
  | O => None
  | S fuel =>
      names ← SIOCGIFCONF k ifrsize;
      if Z.of_nat (length names) * sizeof_ifreq + sizeof_ifreq + 128 - 16 <=? ifrsize then Some names
      else if ifrsize * 2 <? Z.quot (2 ^ 31 - 1) 2 then ifconf_sizes fuel k (ifrsize * 2) else None
  end.

Fixpoint ioctl_loop (dad : bool) (k : ioctls) (names : list string) (n : Z) (r : ifreq) : outcome (Z * ifreq) :=
  match names with
  | [] => Returns (n, r)
  | nm :: names =>
      match check_device_by_ioctl dad k false r with
      | Exits code => Exits code
      | Returns (rc, r) =>
          if negb (rc =? 0) then ioctl_loop dad k names n r
          else
            let r := mkIfreq nm (ifr_union r) in
            if n =? 0 then ioctl_loop dad k names (n + 1) r else Returns (n + 1, r)
      end
  end.

Definition find_device_by_ioctl (dad : bool) (sock : bool) (k : ioctls) (d : device) : outcome (Z * device) :=
  if negb sock then Returns (-1, d)
  else
    let found := match name d with
      | Some nm =>
          match check_device_by_ioctl dad k true (mkIfreq (String.substring 0 15 nm) 0) with
          | Exits code => Exits code
          | Returns (rc, r) => Returns (if rc =? 0 then Some (1, r) else None)
          end
      | None =>
          match ifconf_sizes 32 k sizeof_ifreq with
          | None => Returns None
          | Some names =>
              match ioctl_loop dad k names 0 (mkIfreq "" 0) with
              | Exits code => Exits code
              | Returns x => Returns (Some x)
              end
          end
      end in
    match found with
    | Exits code => Exits code
    | Returns None => Returns (-1, d)
    | Returns (Some (n, r)) =>
        let d := if n =? 1 then set_name (Some (ifr_name r)) (set_ifindex (ifr_union r) d) else d in
        Returns (if ifindex d =? 0 then 1 else 0, d)
    end.

(** ** All three *)

Record kernel := mkKernel {
  k_getifaddrs : option (list ifaddrs);
  k_nametoindex : string -> Z;
  k_opendir : option (list dirent);
  k_strdup : string -> bool;
  k_inet_socket : bool;
  k_ioctls : ioctls
}.

Definition find_device (dad : bool) (k : kernel) (d : device) : option (outcome (Z * device)) :=
  r ← find_device_by_ifaddrs dad (k_getifaddrs k) (k_nametoindex k) d;
  match r with
  | Exits code => Some (Exits code)
  | Returns (rc, d) =>
      if 0 <=? rc then Some (Returns (rc, d))
      else
        r ← find_device_by_sysfs dad (k_opendir k) (k_strdup k) d;
        match r with
        | Exits code => Some (Exits code)
        | Returns (rc, d) =>
            if 0 <=? rc then Some (Returns (rc, d)) else Some (find_device_by_ioctl dad (k_inet_socket k) (k_ioctls k) d)
        end
  end.

(** ** The broadcast address

    The first two return [None] inside for -1. *)

Definition set_device_broadcast_ifaddrs_one (d : device) (ba : list Z) (balen : Z) : option (option (list Z)) :=
  match ifa d with
  | IfaNull => Some None
  | IfaFreed => None
  | IfaAt i =>
      '(halen, addr) ← ifa_broadaddr i;
      if negb (halen =? balen) then Some None
      else
        x ← load 0 (Z.to_nat halen) addr;
        ba ← memcpy 0 x ba;
        Some (Some ba)
  end.

Definition set_device_broadcast_sysfs (d : device) (ba : list Z) (balen : Z) : option (option (list Z)) :=
  match sysfs d with
  | None => Some None
  | Some v =>
      if negb (v_addr_len v =? balen) then Some None
      else
        m ← v_broadcast v;
        x ← load 0 (Z.to_nat balen) m;
        ba ← memcpy 0 x ba;
        Some (Some ba)
  end.

Definition set_device_broadcast_fallback (ba : list Z) (balen : Z) : option (list Z) :=
  memcpy 0 (replicate (Z.to_nat balen) 255) ba.

Definition set_device_broadcast (d : device) (ba : list Z) (balen : Z) : option (list Z) :=
  r ← set_device_broadcast_ifaddrs_one d ba balen;
  match r with
  | Some ba => Some ba
  | None =>
      r ← set_device_broadcast_sysfs d ba balen;
      match r with
      | Some ba => Some ba
      | None => set_device_broadcast_fallback ba balen
      end
  end.

(** ** The command line *)

Inductive opt :=
  | Ob | OD | OU | OA | Oq | Of | OV | Oother
  | Oc (n : Z)                     (* atoi of the argument *)
  | Ow (n : Z)
  | OI (device : string)
  | Os (source : string).

Record settings := mkSettings {
  o_broadcast_only : bool;
  o_dad : bool;
  o_quit_on_reply : bool;
  o_unsolicited : bool;
  o_advert : bool;
  o_quiet : bool;
  o_count : Z;
  o_timeout : Z;
  o_device : option string;
  o_source : option string
}.

Definition defaults : settings := mkSettings false false false false false false (-1) 0 None None.

Definition parse_option (o : opt) (s : settings) : outcome settings :=
  let '(mkSettings b d f u a q c w i sr) := s in
  match o with
  | Ob => Returns (mkSettings true d f u a q c w i sr)
  | OD => Returns (mkSettings b true true u a q c w i sr)
  | OU => Returns (mkSettings b d f true a q c w i sr)
  | OA => Returns (mkSettings b d f true true q c w i sr)
  | Oq => Returns (mkSettings b d f u a true c w i sr)
  | Of => Returns (mkSettings b d true u a q c w i sr)
  | Oc n => Returns (mkSettings b d f u a q n w i sr)
  | Ow n => Returns (mkSettings b d f u a q c n i sr)
  | OI x => Returns (mkSettings b d f u a q c w (Some x) sr)
  | Os x => Returns (mkSettings b d f u a q c w i (Some x))
  | OV => Exits 0
  | Oother => Exits 2
  end.

Fixpoint parse_options (l : list opt) (s : settings) : outcome settings :=
  match l with
  | [] => Returns s
  | o :: l => match parse_option o s with Exits code => Exits code | Returns s => parse_options l s end
  end.

(** ** main

    [n_connect] is the address of the socket once it is connected to the
    target; [n_me] what getsockname says of the packet socket. *)

Record network := mkNetwork {
  n_packet_socket : bool;
  n_inet_aton : string -> option Z;
  n_getaddrinfo : string -> option Z;
  n_probe_socket : bool;
  n_bind : Z -> bool;
  n_connect : Z -> bool;
  n_sockname : Z -> option Z;
  n_packet_bind : Z -> bool;
  n_me : Z -> option sockaddr_ll
}.

(** The source address: -s, the target itself when it is announced, or the one
    the system would use. *)
Definition find_source (net : network) (dad unsolicited : bool) (src dst : Z) : outcome Z :=
  let src := if negb dad && unsolicited && (src =? 0) then dst else src in
  if negb dad || negb (src =? 0) then
    if negb (n_probe_socket net) then Exits 2
    else if negb (src =? 0) then (if n_bind net src then Returns src else Exits 2)
    else if negb dad then
      if negb (n_connect net dst) then Exits 2
      else match n_sockname net dst with None => Exits 2 | Some a => Returns a end
    else Returns src
  else Returns src.

Definition find_target (net : network) (target : string) : option Z :=
  match n_inet_aton net target with Some a => Some a | None => n_getaddrinfo net target end.

Definition arping_setup (k : kernel) (net : network) (opts : list opt) (operands : list string)
    : option (outcome (config * list Z)) :=
  match parse_options opts defaults with
  | Exits code => Some (Exits code)
  | Returns o =>
      match operands with
      | [target] =>
          let d := mkDevice (match o_device o with Some EmptyString => None | x => x end) 0 IfaNull None in
          if negb (n_packet_socket net) then Some (Exits 2)
          else
            r ← find_device (o_dad o) k d;
            match r with
            | Exits code => Some (Exits code)
            | Returns (rc, d) =>
                if rc <? 0 then Some (Exits 2)
                else if ifindex d =? 0 then Some (Exits 2)
                else
                  match find_target net target with
                  | None => Some (Exits 2)
                  | Some dst =>
                      match (match o_source o with None => Some 0 | Some x => n_inet_aton net x end) with
                      | None => Some (Exits 2)
                      | Some src =>
                          match find_source net (o_dad o) (o_unsolicited o) src dst with
                          | Exits code => Some (Exits code)
                          | Returns src =>
                              if negb (n_packet_bind net (ifindex d)) then Some (Exits 2)
                              else
                                match n_me net (ifindex d) with
                                | None => Some (Exits 2)
                                | Some me =>
                                    if sll_halen me =? 0 then Some (Exits (if o_dad o then 0 else 2))
                                    else
                                      he ← set_device_broadcast d (sll_addr me) (sll_halen me);
                                      if (src =? 0) && negb (o_dad o) then Some (Exits 2)
                                      else Some (Returns
                                        (mkConfig (o_quit_on_reply o) (o_dad o) (o_unsolicited o) (o_advert o) (o_quiet o)
                                           (o_broadcast_only o) (o_count o) (o_timeout o) src dst me, he))
                                end
                          end
                      end
                  end
            end
      | _ => Some (Exits 2)
      end
  end.

(** The first event is the call of [catcher] before the loop. *)
Definition arping_main (k : kernel) (net : network) (opts : list opt) (operands : list string)
    (ts now : timespec) (buf : list Z) (err : Z) (evs : list event) (packet : list Z) : option (outcome (arping * list effect)) :=
  r ← arping_setup k net opts operands;
  match r with
  | Exits code => Some (Exits code)
  | Returns (c, he) => r ← run c (EvAlarm ts now buf err :: evs) packet (initial he); Some (Returns r)
  end.
