(* ===== verification/ArpingTheorems.v ===== *)
(** * arping: the properties *)

From Stdlib Require Import ZArith Lia String.
From stdpp Require Import base numbers option list.
From S2P Require Import Prelude Ping PingPacket PingFour Arping ArpingSpec ArpingRun ArpingDevice.

Local Open Scope Z_scope.
Local Abbreviation length := List.length.

(** ** A host for the witnesses *)

Definition ll (hw : list Z) : sockaddr_ll := mkLl 1 0 6 (hw ++ replicate 110 0).
Definition my_hw : list Z := [2; 0; 0; 0; 0; 1].
Definition other_hw : list Z := [2; 0; 0; 0; 0; 2].
Definition all_ones : list Z := replicate 6 255 ++ replicate 110 0.

(** 192.168.0.1 and 192.168.0.2. *)
Definition ip1 : Z := 0x0100a8c0.
Definition ip2 : Z := 0x0200a8c0.

Definition asking : config := mkConfig false false false false false false 2 0 ip1 ip2 (ll my_hw).
Definition testing : config := mkConfig true true false false false false 3 0 0 ip2 (ll my_hw).
Definition announcing : config := mkConfig false false true true false false 1 0 ip2 ip2 (ll other_hw).

Lemma asking_ok : config_ok asking.
Proof. constructor; try done; unfold in_u; cbn; lia. Qed.
Lemma testing_ok : config_ok testing.
Proof. constructor; try done; unfold in_u; cbn; lia. Qed.
Lemma announcing_ok : config_ok announcing.
Proof. constructor; try done; unfold in_u; cbn; lia. Qed.

Definition at_s (n : Z) : timespec := mkTime n 0.
Definition alarm_at (n : Z) : event := EvAlarm (at_s n) (at_s n) (replicate 256 0) 28.
Definition array : list Z := replicate (Z.to_nat 4096) 0.

Lemma array_ok : memory_ok array.
Proof. split; [apply Forall_replicate; by split|apply length_replicate]. Qed.

Definition answer : list Z := encode 6 (mkArp 1 ARPOP_REPLY other_hw ip2 my_hw ip1).
Definition from_other : sockaddr_ll := ll other_hw.

Definition demo_events : list event := [alarm_at 10; EvPacket (at_s 10) answer from_other; alarm_at 11; alarm_at 12].

Lemma arp_events_ok : Forall event_ok demo_events.
Proof. repeat (constructor; [first [done|split; [by apply bytes_ok|cbn; lia]]|]). constructor. Qed.

(** ** The report *)

(** C10: A run of arping, whatever packets, alarms, interrupts and errors come,
    never leaves its arrays and gives the account of the answers it heard:
    [received] is their number, the two lesser counters those that were
    broadcasts and requests (less the one that completes the number asked for
    with -w), every packet sent is a probe to the broadcast address or, without
    -b, to the last host that had answered, no more probes are counted than
    were sent, and the exit code tells whether there was an answer.  What
    counts as an answer is [wanted]: an ARP request or reply of the right
    hardware type from the host asked for to this host, or with -D any packet
    that another host sends from the tested address; bytes behind the end of a
    packet play no part. *)
Theorem arping_report_correct c b evs packet : config_ok c -> length b = sizeof_storage_addr ->
  Forall event_ok evs -> memory_ok packet ->
  exists s es done rest, run c evs packet (initial b) = Some (s, es) /\
    evs = done ++ rest /\ (exited s = None -> rest = []) /\ account c b done s es.
Proof.
  intros Hc Hb He Hp. rewrite arp_run_run by done. destruct (arp_account_run c Hc b evs Hb) as (dn & rest & E & Ha & Hr).
  destruct (srun c evs (initial b)) as [s es]. by exists s, es, dn, rest.
Qed.

Lemma arping_report_correct_witness :
  (exists s es done rest, run asking demo_events array (initial all_ones) = Some (s, es) /\
    demo_events = done ++ rest /\ (exited s = None -> rest = []) /\ account asking all_ones done s es) /\
  (fun r => (sent r.1, received r.1, exited r.1, length (probes r.2))) <$> run asking demo_events array (initial all_ones)
    = Some (2, 1, Some 0, 2%nat).
Proof.
  split; [|by vm_compute].
  exact (arping_report_correct asking all_ones demo_events array asking_ok eq_refl arp_events_ok array_ok).
Defined.

(** ** The clock *)

(** arping never sends faster than one probe in half a second: after any
    run with a clock that does not go back, [sent] probes took more than half a
    second each but the first, from the start to the last of them. *)
Theorem probe_rate c b evs packet s es : config_ok c -> length b = sizeof_storage_addr -> Forall event_ok evs -> memory_ok packet ->
  clock_ok 0 evs -> run c evs packet (initial b) = Some (s, es) -> 0 < sent s ->
  500000000 * (sent s - 1) <= ns (last s) - ns (start s).
Proof.
  intros Hc Hb He Hp Hk Hr. rewrite arp_run_run in Hr by done. injection Hr as Hr.
  destruct (clock_run c evs 0 (initial b) Hk (clock_initial b)) as [t Hi]. rewrite Hr in Hi. apply Hi.
Qed.

Lemma probe_rate_witness : exists s es, run asking demo_events array (initial all_ones) = Some (s, es) /\
  500000000 * (sent s - 1) <= ns (last s) - ns (start s).
Proof.
  destruct (run asking demo_events array (initial all_ones)) as [[s es]|] eqn:E; [|by vm_compute in E].
  exists s, es. split; [done|].
  refine (probe_rate asking all_ones demo_events array s es asking_ok eq_refl arp_events_ok array_ok _ E _).
  - unfold demo_events, alarm_at, clock_ok, time_ok, ns, at_s; cbn. repeat split; lia.
  - vm_compute in E. injection E as <- _. by vm_compute.
Defined.

(** arping ends.  With -c n and no -w, when the packets are sent and the
    alarms come more than half a second after the probe before, at most n
    probes are sent and n + 1 alarms end the program, whatever is received;
    when nothing is received it has then sent exactly n probes, and the exit
    code says that there was no answer.  With -w any alarm more than the
    timeout and half a second after the first one ends it. *)
Theorem arping_ends c b evs packet : config_ok c -> length b = sizeof_storage_addr -> Forall event_ok evs -> memory_ok packet ->
  (timeout c = 0 -> 0 < count c -> spaced c 0 evs -> exists s es, run c evs packet (initial b) = Some (s, es) /\
     sent s <= count c /\ (count c < ticks evs -> exited s <> None) /\
     (count c < ticks evs -> Forall (fun ev => is_alarm ev = true) evs -> sent s = count c /\ exited s = Some (verdict c []))) /\
  (0 < timeout c -> forall ts now buf err evs', evs = EvAlarm ts now buf err :: evs' -> time_ok ts -> Exists (overdue c ts) evs' ->
     exists s es, run c evs packet (initial b) = Some (s, es) /\ exited s <> None).
Proof.
  intros Hc Hb He Hp. rewrite arp_run_run by done.
  destruct (arp_account_run c Hc b evs Hb) as (dn & rest & E & Ha & _).
  split.
  - intros Ht Hn Hs. assert (B0 : budget c 0 (initial b)) by (constructor; cbn; [lia|by left]).
    destruct (budget_run c Ht evs 0 (initial b) B0 eq_refl Hs) as ((t & B1) & B2 & B3).
    destruct (srun c evs (initial b)) as [s es]. cbn [fst snd] in *. exists s, es. split; [done|].
    assert (Hx : count c < ticks evs -> exited s <> None).
    { intros Hx E0. specialize (B2 E0). cbn in B2. destruct B1 as [B1 _]. lia. }
    split; [apply B1|]. split; [done|]. intros Hk Hf. split; [by apply B3, Hx|].
    destruct (exited s) as [code|] eqn:Ex; [|by destruct (Hx Hk)]. f_equal.
    assert (Hh : hears c dn = []).
    { subst evs. apply Forall_app in Hf as [Hf _]. clear - Hf. induction Hf as [|ev l Hev _ IH]; [done|]. by destruct ev. }
    destruct (ac_exit _ _ _ _ _ Ha code Ex) as [[Hl _]| ->]; [|by rewrite Hh].
    subst evs. apply Forall_app in Hf as [Hf _]. apply last_Some in Hl as [l ->]. apply Forall_app in Hf as [_ Hf]. by inversion Hf.
  - intros Ht ts now buf err evs' -> Hts Hx. destruct (srun c _ _) as [s es] eqn:Es. exists s, es. split; [done|].
    assert (Es' : s = (srun c (EvAlarm ts now buf err :: evs') (initial b)).1) by (by rewrite Es).
    rewrite Es', srun_cons by done. apply deadline_run; [done|..]; cbn [step]; rewrite tick_start; done.
Qed.

Lemma arping_ends_witness : exists s es, run asking [alarm_at 10; alarm_at 11; alarm_at 12] array (initial all_ones) = Some (s, es) /\
  sent s = 2 /\ exited s = Some 1.
Proof.
  assert (Ht : timeout asking = 0) by reflexivity. assert (Hn : 0 < count asking) by reflexivity.
  assert (He : Forall event_ok [alarm_at 10; alarm_at 11; alarm_at 12]) by (repeat constructor).
  assert (Hs : spaced asking 0 [alarm_at 10; alarm_at 11; alarm_at 12]).
  { unfold alarm_at, spaced, time_ok, ns, at_s, HALF; cbn. repeat split; lia. }
  destruct (arping_ends asking all_ones _ array asking_ok eq_refl He array_ok) as [H _].
  destruct (H Ht Hn Hs) as (s & es & E & _ & _ & H2). exists s, es. split; [exact E|]. apply H2; [reflexivity|]. repeat constructor.
Defined.

(** ** Packets between hosts *)

Lemma length_target c b k evs : config_ok c -> length b = sizeof_storage_addr -> length (target c b (take k (hears c evs))) = hlen c.
Proof.
  intros Hc Hb. pose proof (hlen_eq c Hc) as (_ & _ & Hn).
  assert (L : length (take (hlen c) b) = hlen c) by (rewrite length_take, Hb; unfold sizeof_storage_addr; lia).
  unfold target. destruct (broadcast_only c); [done|]. destruct (list.last _) as [[from m]|] eqn:E; [|done].
  apply last_Some in E as [l E]. assert (Hin : (from, m) ∈ hears c evs).
  { eapply elem_of_prefix; [|apply prefix_take with (n := k)]. rewrite E. apply elem_of_app. right. by apply list_elem_of_singleton. }
  unfold hears in Hin. apply list_elem_of_omap in Hin as (ev & _ & Hev). destruct ev as [| |ts bytes fr|]; try done.
  destruct (heard c fr bytes) eqn:Eh; [|done]. injection Hev as <- <-. by eapply length_heard.
Qed.

Lemma probe_to_ok c to : config_ok c -> length to = hlen c -> arp_ok (hlen c) (probe_to c to).
Proof.
  intros Hc Hl. pose proof (length_mine c Hc). destruct Hc as [_ _ Ht Hs Hd].
  constructor; cbn; [destruct (_ =? _); [by split|done]|destruct (advert c); by split|done|done|by destruct (advert c)|done].
Qed.

(** The answer of RFC 826 to a request. *)
Definition answer_to (m : arp) (hw : list Z) : arp := mkArp (a_hrd m) ARPOP_REPLY hw (a_tpa m) (a_sha m) (a_spa m).

(** A packet that came from the link of [c], addressed to this host or to all. *)
Definition delivered (c : config) (from : sockaddr_ll) : Prop :=
  sll_hatype from = sll_hatype (me c) /\ sll_pkttype from ∈ [PACKET_HOST; PACKET_BROADCAST; PACKET_MULTICAST].

Lemma probe_hrd c from to : delivered c from ->
  a_hrd (probe_to c to) = sll_hatype from \/ sll_hatype from = ARPHRD_FDDI /\ a_hrd (probe_to c to) = ARPHRD_ETHER.
Proof. intros [E _]. cbn. rewrite E. destruct (Z.eqb_spec (sll_hatype (me c)) ARPHRD_FDDI); auto. Qed.

Lemma heard_wanted c from m pad : arp_ok (hlen c) m -> wanted c from m -> heard c from (encode (hlen c) m ++ pad) = Some m.
Proof. intros Hm Hw. unfold heard. rewrite arp_decode_encode by done. cbn. by destruct (decide _). Qed.

(** An answer counts, and ends duplicate address detection with code 1. *)
Lemma accept_counts c ts from m s : let s' := (accept c ts from m s).1 in received s' = received s + 1 /\
  (exited s' = None -> broadcast_only c = false -> he s' = a_sha m ++ drop (hlen c) (he s)) /\
  (dad c = true -> quit_on_reply c = true -> 0 <= received s -> exited s' = Some 1).
Proof.
  unfold accept. cbn [received set_recv counted].
  assert (Hx : forall s', received s' = received s + 1 -> dad c = true -> 0 <= received s -> exited (finish c s').1 = Some 1).
  { intros s' E Hd Hr. cbn. unfold exit_code. rewrite Hd, E. by rewrite (proj2 (Z.eqb_neq _ _)) by lia. }
  destruct (negb _ && _); [split; [done|split; [done|intros Hd _ Hr; by apply Hx]]|].
  destruct (quit_on_reply c || _) eqn:G; [split; [done|split; [done|intros Hd _ Hr; by apply Hx]]|].
  cbn [fst]. unfold retarget. split; [by destruct (broadcast_only c)|]. split; [intros _ ->; done|].
  intros _ Hq. by rewrite Hq in G.
Qed.

Lemma srun_nil c s : (srun c [] s).1 = s.
Proof. cbn. by destruct (exited s). Qed.

Lemma run_packet c ts bytes from m more packet s : config_ok c -> Forall event_ok (EvPacket ts bytes from :: more) -> memory_ok packet ->
  he_ok s -> exited s = None -> heard c from bytes = Some m ->
  exists s' es, run c (EvPacket ts bytes from :: more) packet s = Some (s', es) /\ s' = (srun c more (accept c ts from m s).1).1.
Proof.
  intros Hc He Hp Hh Hx Hm. rewrite arp_run_run by done. destruct (srun c _ s) as [s' es] eqn:E. exists s', es. split; [done|].
  assert (Es : s' = (srun c (EvPacket ts bytes from :: more) s).1) by (by rewrite E). rewrite Es, srun_cons by done. cbn [step]. by rewrite Hm.
Qed.

(** C23: What one host sends another understands.  Any packet that a run of
    arping has sent is an ARP message: a host that tests the sender's address
    with -D, has another link address and is not yet done ends at once with
    code 1, whatever padding follows the message; and the answer that RFC 826
    prescribes for it counts as one for the sender, which then sends its probes
    to the address in the answer unless it ends or was told to broadcast. *)
Theorem arp_round_trip ca b evs packet sa esa to p : config_ok ca -> length b = sizeof_storage_addr -> Forall event_ok evs ->
  memory_ok packet -> run ca evs packet (initial b) = Some (sa, esa) -> (to, p) ∈ probes esa ->
  exists m, decode (hlen ca) p = Some m /\
  (forall cb from pad ts more packet' s, config_ok cb -> dad cb = true -> quit_on_reply cb = true -> hlen cb = hlen ca ->
     dst cb = src ca -> mine ca <> mine cb -> (src cb = 0 \/ dst ca = src cb) -> delivered ca from ->
     Forall event_ok (EvPacket ts (p ++ pad) from :: more) -> memory_ok packet' -> he_ok s -> exited s = None -> 0 <= received s ->
     exists s' es', run cb (EvPacket ts (p ++ pad) from :: more) packet' s = Some (s', es') /\ exited s' = Some 1) /\
  (dad ca = false -> forall hw from pad ts packet' s, length hw = hlen ca -> delivered ca from ->
     Forall event_ok [EvPacket ts (encode (hlen ca) (answer_to m hw) ++ pad) from] -> memory_ok packet' -> he_ok s -> exited s = None ->
     exists s' es', run ca [EvPacket ts (encode (hlen ca) (answer_to m hw) ++ pad) from] packet' s = Some (s', es') /\
       received s' = received s + 1 /\ (exited s' = None -> broadcast_only ca = false -> his ca s' = hw)).
Proof.
  intros Hc Hb He Hp Hr Hin. rewrite arp_run_run in Hr by done. injection Hr as Hr.
  destruct (arp_account_run ca Hc b evs Hb) as (dn & rest & _ & [[_ _ _ _ Ha] _ _ _ _] & _). rewrite Hr in Ha. cbn [snd] in Ha.
  rewrite Forall_forall in Ha. destruct (Ha _ Hin) as [-> [k ->]]. clear Ha Hin Hr.
  set (to := target ca b _). assert (Hok : arp_ok (hlen ca) (probe_to ca to)) by (apply probe_to_ok; [done|by apply length_target]).
  exists (probe_to ca to). split; [rewrite <- (app_nil_r (encode _ _)); by apply arp_decode_encode|]. split.
  - intros cb from pad ts more packet' s Hcb Hd Hq Hlen Hdst Hne Hsrc Hdel Hev Hp' Hh Hx Hrec.
    assert (Hw : heard cb from (encode (hlen ca) (probe_to ca to) ++ pad) = Some (probe_to ca to)).
    { rewrite <- Hlen in *. apply heard_wanted; [done|]. split; [apply Hdel|]. split; [cbn; destruct (advert ca); rewrite !elem_of_cons; auto|].
      split; [by apply probe_hrd|]. split; [done|]. rewrite Hd. cbn. auto. }
    destruct (run_packet cb ts _ from _ more packet' s Hcb Hev Hp' Hh Hx Hw) as (s' & es' & E & ->).
    exists (srun cb more (accept cb ts from (probe_to ca to) s).1).1, es'. split; [done|].
    destruct (accept_counts cb ts from (probe_to ca to) s) as (_ & _ & H). specialize (H Hd Hq Hrec).
    rewrite srun_exited; [done|by rewrite H].
  - intros Hd hw from pad ts packet' s Lhw Hdel Hev Hp' Hh Hx.
    assert (Hm : arp_ok (hlen ca) (answer_to (probe_to ca to) hw)) by (destruct Hok; constructor; cbn; try done; by split).
    assert (Hw : heard ca from (encode (hlen ca) (answer_to (probe_to ca to) hw) ++ pad) = Some (answer_to (probe_to ca to) hw)).
    { apply heard_wanted; [done|]. split; [apply Hdel|]. split; [cbn; rewrite !elem_of_cons; auto|].
      split; [by apply (probe_hrd ca from to)|]. split; [done|]. by rewrite Hd. }
    destruct (run_packet ca ts _ from _ [] packet' s Hc Hev Hp' Hh Hx Hw) as (s' & es' & E & ->).
    eexists _, es'. split; [done|]. destruct (accept_counts ca ts from (answer_to (probe_to ca to) hw) s) as (H1 & H2 & _).
    set (s1 := (accept _ _ _ _ s).1) in *. rewrite srun_nil.
    split; [done|]. intros Hx1 Hbo. unfold his. rewrite H2 by done. cbn [answer_to a_sha]. by rewrite take_app_le, <- Lhw, firstn_all by lia.
Qed.

Lemma arp_round_trip_witness : exists s' es' es p,
  run announcing [alarm_at 10] array (initial all_ones) = Some es /\ probes es.2 = [(replicate 6 255, p)] /\
  run testing [EvPacket (at_s 10) p from_other] array (initial all_ones) = Some (s', es') /\ exited s' = Some 1.
Proof.
  destruct (run announcing [alarm_at 10] array (initial all_ones)) as [[sa esa]|] eqn:E; [|by vm_compute in E].
  pose (p := encode 6 (probe_to announcing (replicate 6 255))).
  assert (Ep : probes esa = [(replicate 6 255, p)]) by (vm_compute in E; injection E as _ <-; by vm_compute).
  destruct (arp_round_trip announcing all_ones [alarm_at 10] array sa esa (replicate 6 255) p announcing_ok eq_refl
    ltac:(repeat constructor) array_ok E ltac:(rewrite Ep; apply list_elem_of_here)) as (m & _ & H & _).
  destruct (H testing from_other [] (at_s 10) [] array (initial all_ones) testing_ok eq_refl eq_refl eq_refl eq_refl ltac:(by vm_compute)
    ltac:(by left) ltac:(split; [done|apply list_elem_of_here])) as (s' & es' & E1 & E2); [|exact array_ok|done|done|done|].
  - constructor; [|constructor]. split; [by apply bytes_ok|by apply Nat.leb_le].
  - rewrite app_nil_r in E1. by exists s', es', (sa, esa), p.
Defined.

(** ** The interface *)

(** An element of the list that stands for the link the user named, or any. *)
Definition candidate (d : device) (i : ifaddrs) : bool :=
  match ifa_addr i with
  | Some (family, _) => (family =? AF_PACKET) && match name d, ifa_name i with Some x, Some y => String.eqb y x | _, _ => true end
  | None => false
  end.

Definition arpable (i : ifaddrs) : bool := hit (ifa_flags i) IFF_UP && negb (hit (ifa_flags i) (Z.lor IFF_NOARP IFF_LOOPBACK)).

Definition addressed (i : ifaddrs) : bool :=
  match ifa_addr i, ifa_broadaddr i with Some (_, halen), Some _ => negb (halen =? 0) | _, _ => false end.

Definition suitable (d : device) (i : ifaddrs) : Prop := candidate d i && arpable i && addressed i = true.
#[export] Instance suitable_dec d i : Decision (suitable d i).
Proof. unfold suitable. apply _. Defined.

(** The loop stops at the second suitable element. *)
Definition loop_result (n : Z) (sel : list ifaddrs) (d : device) : Z * device :=
  match sel with
  | [] => (n, d)
  | i :: sel' => if n =? 0 then match sel' with [] => (1, set_ifa (IfaAt i) d) | j :: _ => (2, set_ifa (IfaAt j) d) end
                 else (n + 1, set_ifa (IfaAt i) d)
  end.

Lemma check_ifflags_cases dad i fatal : (arpable i = true /\ check_ifflags dad (ifa_flags i) fatal = Returns 0) \/
  (arpable i = false /\ if fatal then exists code, check_ifflags dad (ifa_flags i) fatal = Exits code /\ (code = 2 \/ code = 0 /\ dad = true)
                        else check_ifflags dad (ifa_flags i) fatal = Returns (-1)).
Proof.
  unfold arpable, check_ifflags. destruct (hit _ IFF_UP), (hit _ (Z.lor _ _)); cbn; [right|left|right|right]; (split; [done|]); try done;
    destruct fatal; try done; eexists; (split; [reflexivity|]); auto; destruct dad; auto.
Qed.

Lemma unsuitable d i : candidate d i = false \/ arpable i = false \/ addressed i = false -> ~ suitable d i.
Proof. unfold suitable. intros [->|[->| ->]]; by rewrite ?andb_false_r. Qed.

Lemma ifaddrs_loop_spec dad l : forall n d, 0 <= n <= 1 ->
  ifaddrs_loop dad l n d = Returns (loop_result n (filter (suitable d) l) d) \/
  exists code i, ifaddrs_loop dad l n d = Exits code /\ named d = true /\ (code = 2 \/ code = 0 /\ dad = true) /\
    i ∈ l /\ candidate d i = true /\ arpable i = false.
Proof.
  induction l as [|i l IH]; intros n d Hn; [left; done|].
  assert (Hskip : ~ suitable d i -> ifaddrs_loop dad (i :: l) n d = ifaddrs_loop dad l n d ->
    ifaddrs_loop dad (i :: l) n d = Returns (loop_result n (filter (suitable d) (i :: l)) d) \/
    exists code j, ifaddrs_loop dad (i :: l) n d = Exits code /\ named d = true /\ (code = 2 \/ code = 0 /\ dad = true) /\
      j ∈ i :: l /\ candidate d j = true /\ arpable j = false).
  { intros Hs E. rewrite E, filter_cons_False by done. destruct (IH n d Hn) as [H|(code & j & H1 & H2 & H3 & H4 & H5)]; [by left|].
    right. exists code, j. repeat split; try done; try apply H5. by apply list_elem_of_further. }
  cbn [ifaddrs_loop] in *.
  destruct (ifa_addr i) as [[family halen]|] eqn:Ea.
  2:{ apply Hskip; [|done]. apply unsuitable. left. unfold candidate. by rewrite Ea. }
  destruct (Z.eqb_spec family AF_PACKET) as [Ef|Ef]; cbn [negb andb] in *.
  2:{ apply Hskip; [|done]. apply unsuitable. left. unfold candidate. rewrite Ea. by rewrite (proj2 (Z.eqb_neq _ _)). }
  assert (Em : (match name d, ifa_name i with Some x, Some y => negb (String.eqb y x) | _, _ => false end) = negb (candidate d i)).
  { unfold candidate. rewrite Ea, Ef. cbn. by destruct (name d), (ifa_name i). }
  rewrite Em in *. destruct (candidate d i) eqn:Ec; cbn [negb] in *.
  2:{ apply Hskip; [|done]. apply unsuitable. by left. }
  destruct (check_ifflags_cases dad i (named d)) as [[Ha Ek]|[Ha Ek]].
  2:{ destruct (named d) eqn:Ed.
      - destruct Ek as (code & Ek & Hcode). rewrite Ek. right. exists code, i. repeat split; try done. apply list_elem_of_here.
      - rewrite Ek in *. apply Hskip; [|done]. apply unsuitable. auto. }
  rewrite Ek in *. cbn [Z.ltb Z.compare] in *.
  destruct (Z.eqb_spec halen 0) as [Eh|Eh].
  { apply Hskip; [|done]. apply unsuitable. right. right. unfold addressed. rewrite Ea, Eh. by destruct (ifa_broadaddr i). }
  destruct (ifa_broadaddr i) as [ba|] eqn:Eb.
  2:{ apply Hskip; [|done]. apply unsuitable. right. right. unfold addressed. by rewrite Ea, Eb. }
  assert (Hs : suitable d i). { unfold suitable, addressed. rewrite Ec, Ha, Ea, Eb. cbn. by rewrite (proj2 (Z.eqb_neq _ _)). }
  rewrite filter_cons_True by done. destruct (Z.eqb_spec n 0) as [->|En].
  2:{ left. cbn [loop_result]. by rewrite (proj2 (Z.eqb_neq _ _)). }
  destruct (IH 1 (set_ifa (IfaAt i) d) ltac:(lia)) as [H|(code & j & H1 & H2 & H3 & H4 & H5)].
  - left. change (0 + 1) with 1. rewrite H. change (filter (suitable (set_ifa (IfaAt i) d)) l) with (filter (suitable d) l).
    cbn [loop_result Z.eqb]. by destruct (filter (suitable d) l).
  - right. exists code, j. change (0 + 1) with 1. repeat split; try done; try apply H5. by apply list_elem_of_further.
Qed.

Lemma find_device_run dad k l d : k_getifaddrs k = Some l -> ifindex d = 0 ->
  Forall (fun i => exists nm, ifa_name i = Some nm /\ k_nametoindex k nm <> 0) l ->
  exists r, find_device dad k d = Some r /\
  match r with
  | Exits code => named d = true /\ (code = 2 \/ code = 0 /\ dad = true) /\ exists i, i ∈ l /\ candidate d i = true /\ arpable i = false
  | Returns (rc, d') =>
      (exists i nm, rc = 0 /\ filter (suitable d) l = [i] /\ ifa d' = IfaAt i /\ ifa_name i = Some nm /\
         name d' = Some nm /\ ifindex d' = k_nametoindex k nm /\ sysfs d' = sysfs d) \/
      rc = 1 /\ ifindex d' = 0 /\ length (filter (suitable d) l) <> 1%nat
  end.
Proof.
  intros Hl H0 Hk. unfold find_device, find_device_by_ifaddrs. rewrite Hl.
  destruct (ifaddrs_loop_spec dad l 0 d ltac:(lia)) as [E|(code & i & E & H1 & H2 & H3)]; rewrite E; cbn [mbind option_bind].
  2:{ exists (Exits code). split; [done|]. split; [done|split; [done|by exists i]]. }
  destruct (filter (suitable d) l) as [|i [|j sel]] eqn:Es; cbn [loop_result Z.eqb].
  - cbn. eexists. split; [done|]. right. done.
  - assert (Hin : i ∈ l) by (apply (list_elem_of_filter (suitable d)); rewrite Es; apply list_elem_of_here).
    rewrite Forall_forall in Hk. destruct (Hk i Hin) as (nm & En & Hx). cbn [ifa set_ifa Z.eqb Pos.eqb]. rewrite En. cbn [mbind option_bind ifindex set_ifindex].
    rewrite (proj2 (Z.eqb_neq _ _)) by done. cbn. eexists. split; [done|]. left. by exists i, nm.
  - cbn. eexists. split; [done|]. right. done.
Qed.

(** When the list of interfaces can be read, arping uses an interface
    exactly if it is the only one that is up, does ARP, has a link address and a
    broadcast address and, with -I, has the name asked for; with several or none
    it finds no device.  Only an interface asked for by name makes it end
    during the search, when that interface is down or does no ARP. *)
Theorem find_device_unique dad k l d : k_getifaddrs k = Some l -> ifindex d = 0 ->
  Forall (fun i => exists nm, ifa_name i = Some nm /\ k_nametoindex k nm <> 0) l ->
  exists r, find_device dad k d = Some r /\
  match r with
  | Exits code => named d = true /\ (code = 2 \/ code = 0 /\ dad = true) /\ exists i, i ∈ l /\ candidate d i = true /\ arpable i = false
  | Returns (rc, d') =>
      (exists i nm, rc = 0 /\ filter (suitable d) l = [i] /\ ifa d' = IfaAt i /\ ifa_name i = Some nm /\
         name d' = Some nm /\ ifindex d' = k_nametoindex k nm) \/
      rc = 1 /\ ifindex d' = 0 /\ length (filter (suitable d) l) <> 1%nat
  end.
Proof.
  intros Hl H0 Hk. destruct (find_device_run dad k l d Hl H0 Hk) as (r & E & H). exists r. split; [done|].
  destruct r as [code|[rc d']]; [done|]. destruct H as [(i & nm & H)|H]; [left; exists i, nm; tauto|by right].
Qed.

Definition eth0 : ifaddrs := mkIfaddrs (Some "eth0"%string) 67 (Some (AF_PACKET, 6)) (Some (6, replicate 8 255)).
Definition lo : ifaddrs := mkIfaddrs (Some "lo"%string) 73 (Some (AF_PACKET, 6)) (Some (6, replicate 8 0)).
Definition demo_kernel : kernel :=
  mkKernel (Some [lo; eth0]) (fun nm => if String.eqb nm "eth0" then 2 else 1) None (fun _ => true) true
    (mkIoctls (fun _ => None) (fun _ => None) (fun _ => None)).
Definition any_device : device := mkDevice None 0 IfaNull None.

Lemma find_device_unique_witness : exists d', find_device false demo_kernel any_device = Some (Returns (0, d')) /\
  name d' = Some "eth0"%string /\ ifindex d' = 2.
Proof.
  destruct (find_device_unique false demo_kernel [lo; eth0] any_device eq_refl eq_refl) as (r & E & H).
  { repeat (constructor; [eexists; split; [reflexivity|done]|]). constructor. }
  vm_compute in E. injection E as <-. destruct H as [(i & nm & _ & _ & _ & _ & Hn & Hi)|(H & _)]; [|done].
  eexists. split; [by vm_compute|]. split; [done|]. by vm_compute.
Defined.

(** ** The whole program *)

(** What the system is asked to keep to: the interfaces of getifaddrs have
    names, and their broadcast addresses the bytes they say. *)
Record answers_ok (k : kernel) (net : network) : Prop := {
  ko_interfaces : forall l, k_getifaddrs k = Some l ->
    Forall (fun i => ifa_name i <> None /\
      (forall halen addr, ifa_broadaddr i = Some (halen, addr) -> (Z.to_nat halen <= length addr)%nat)) l;
  ko_aton : forall x a, n_inet_aton net x = Some a -> in_u 32 a;
  ko_info : forall x a, n_getaddrinfo net x = Some a -> in_u 32 a;
  ko_name : forall x a, n_sockname net x = Some a -> in_u 32 a;
  ko_me : forall i m, n_me net i = Some m -> 0 <= sll_halen m <= 32 /\ length (sll_addr m) = sizeof_storage_addr /\ in_u 16 (sll_hatype m)
}.

Lemma parse_options_dad l : forall s o, (o_dad s = true -> o_quit_on_reply s = true) -> parse_options l s = Returns o ->
  o_dad o = true -> o_quit_on_reply o = true.
Proof.
  induction l as [|x l IH]; intros s o Hs; cbn [parse_options]; [by intros [= <-]|].
  destruct (parse_option x s) as [|s1] eqn:E; [done|]. apply IH. destruct s, x; cbn in *; try done; injection E as <-; cbn in *; auto.
Qed.

Lemma parse_options_exit l : forall s code, parse_options l s = Exits code -> code = 0 \/ code = 2.
Proof.
  induction l as [|x l IH]; intros s code; cbn [parse_options]; [done|].
  destruct (parse_option x s) as [c0|s1] eqn:E; [|apply IH]. intros [= <-]. destruct s, x; cbn in *; try done; injection E as <-; auto.
Qed.

Lemma find_source_cases net dad unsol src dst : (forall x a, n_sockname net x = Some a -> in_u 32 a) -> in_u 32 src -> in_u 32 dst ->
  match find_source net dad unsol src dst with Exits code => code = 2 | Returns a => in_u 32 a end.
Proof.
  intros Hn Hs Hd. unfold find_source. destruct (negb dad && unsol && (src =? 0)); 
  repeat match goal with |- context [if ?b then _ else _] => destruct b end; try done;
  (destruct (n_sockname net dst) eqn:E; [by eapply Hn|done]).
Qed.

Lemma copy_front n x ba : length x = n -> (n <= length ba)%nat -> memcpy 0 x ba = Some (x ++ drop n ba).
Proof. intros <- H. rewrite <- (take_drop (length x) ba) at 1. apply memcpy_front. rewrite length_take. lia. Qed.

Lemma set_device_broadcast_run d ba balen i : ifa d = IfaAt i -> ifa_broadaddr i <> None -> sysfs d = None ->
  (forall halen addr, ifa_broadaddr i = Some (halen, addr) -> (Z.to_nat halen <= length addr)%nat) ->
  (Z.to_nat balen <= length ba)%nat ->
  exists he, set_device_broadcast d ba balen = Some he /\ length he = length ba.
Proof.
  intros Ed Eb Es Hl Hba. unfold set_device_broadcast, set_device_broadcast_ifaddrs_one, set_device_broadcast_sysfs, set_device_broadcast_fallback.
  rewrite Ed, Es. destruct (ifa_broadaddr i) as [[halen addr]|]; [|done]. cbn [mbind option_bind].
  destruct (Z.eqb_spec halen balen) as [->|E]; cbn [negb].
  - specialize (Hl _ _ eq_refl). rewrite load_take by done. cbn [mbind option_bind]. rewrite (copy_front (Z.to_nat balen) (take _ addr)) by (rewrite ?length_take; lia).
    cbn. eexists. split; [done|]. rewrite length_app, length_take, length_drop. lia.
  - cbn [mbind option_bind]. rewrite (copy_front (Z.to_nat balen)) by (rewrite ?length_replicate; lia). eexists. split; [done|].
    rewrite length_app, length_replicate, length_drop. lia.
Qed.

(** The interface has no index: [if_nametoindex] fails. *)
Definition vanished (k : kernel) (i : ifaddrs) : Prop :=
  match ifa_name i with Some nm => k_nametoindex k nm = 0 | None => False end.

#[export] Instance vanished_dec k i : Decision (vanished k i).
Proof. unfold vanished. destruct (ifa_name i); apply _. Defined.

(** The list of interfaces cannot be read, or one of them is gone when its
    index is asked for. *)
Definition lookup_fails (k : kernel) : Prop :=
  match k_getifaddrs k with None => True | Some l => Exists (vanished k) l end.

#[export] Instance lookup_fails_dec k : Decision (lookup_fails k).
Proof. unfold lookup_fails. destruct (k_getifaddrs k); apply _. Defined.

(** *** The codes of the search *)

Definition ends_0_or_2 {A} (r : outcome A) : Prop := match r with Exits code => code = 0 \/ code = 2 | Returns _ => True end.

Lemma flags_exit dad f fatal : ends_0_or_2 (check_ifflags dad f fatal).
Proof. unfold check_ifflags. destruct (negb _); [destruct fatal; cbn; auto|]. destruct (hit _ _); [|done]. destruct fatal, dad; cbn; auto. Qed.

Lemma ifaddrs_exit dad l : forall n d, ends_0_or_2 (ifaddrs_loop dad l n d).
Proof.
  induction l as [|i l IH]; intros n d; cbn [ifaddrs_loop]; [done|]. destruct (ifa_addr i) as [[family halen]|]; [|done].
  destruct (negb _); [done|]. destruct (match name d with Some _ => _ | None => _ end); [done|].
  pose proof (flags_exit dad (ifa_flags i) (named d)) as Hf. destruct (check_ifflags _ _ _) as [code|rc]; [done|].
  destruct (rc <? 0); [done|]. destruct (halen =? 0); [done|]. destruct (ifa_broadaddr i); [|done]. by destruct (n =? 0).
Qed.

Lemma sysfs_exit dad sd dir : forall n d dv r, sysfs_loop dad sd dir n d dv = Some r -> ends_0_or_2 r.
Proof.
  induction dir as [|e dir IH]; intros n d dv r; cbn [sysfs_loop]; [by intros [= <-]|]. destruct (_ || _); [apply IH|].
  destruct (match name d with Some _ => _ | None => _ end); [apply IH|]. intros H. apply bind_Some in H as ([rc v] & _ & H).
  destruct (rc <? 0); [by eapply IH|]. pose proof (flags_exit dad (u32 (v_flags v)) (named d)) as Hf.
  destruct (check_ifflags _ _ _) as [code|rc']; [by injection H as <-|]. destruct (rc' <? 0); [by eapply IH|].
  destruct (_ =? 0); [by eapply IH|]. destruct (_ && _); [by eapply IH|]. destruct (negb _); [by injection H as <-|].
  destruct (n =? 0); [by eapply IH|by injection H as <-].
Qed.

Lemma check_ioctl_exit dad k fatal r : ends_0_or_2 (check_device_by_ioctl dad k fatal r).
Proof.
  unfold check_device_by_ioctl. destruct (SIOCGIFFLAGS k _) as [f|]; [|done].
  pose proof (flags_exit dad (u32 (ifr_flags (store_flags f r))) fatal) as Hf. destruct (check_ifflags _ _ _) as [code|rc]; [done|].
  destruct (rc <? 0); [done|]. by destruct (SIOCGIFINDEX k _).
Qed.

Lemma ioctl_loop_exit dad k names : forall n r, ends_0_or_2 (ioctl_loop dad k names n r).
Proof.
  induction names as [|nm names IH]; intros n r; cbn [ioctl_loop]; [done|].
  pose proof (check_ioctl_exit dad k false r) as Hc. destruct (check_device_by_ioctl _ _ _ _) as [code|[rc r']]; [done|].
  destruct (negb _); [done|]. by destruct (n =? 0).
Qed.

Lemma by_ioctl_exit dad sock k d : ends_0_or_2 (find_device_by_ioctl dad sock k d).
Proof.
  unfold find_device_by_ioctl. destruct (negb sock); [done|]. destruct (name d) as [nm|].
  - pose proof (check_ioctl_exit dad k true (mkIfreq (String.substring 0 15 nm) 0)) as Hc.
    destruct (check_device_by_ioctl _ _ _ _) as [code|[rc r]]; [done|]. by destruct (rc =? 0).
  - destruct (ifconf_sizes _ _ _) as [names|]; [|done]. pose proof (ioctl_loop_exit dad k names 0 (mkIfreq "" 0)) as Hc.
    by destruct (ioctl_loop _ _ _ _ _) as [code|[n r]].
Qed.

Lemma find_device_exit dad k d r : find_device dad k d = Some r -> ends_0_or_2 r.
Proof.
  unfold find_device, find_device_by_ifaddrs. intros H. apply bind_Some in H as (r1 & E1 & H). destruct r1 as [code|[rc d1]].
  - injection H as <-. destruct (k_getifaddrs k) as [l|]; [|done]. pose proof (ifaddrs_exit dad l 0 d) as Hx.
    destruct (ifaddrs_loop dad l 0 d) as [code'|[n d']]; [by injection E1 as <-|].
    destruct (n =? 1), (ifa d'); try done. apply bind_Some in E1 as (nm & _ & E1). by destruct (_ =? 0).
  - destruct (0 <=? rc); [by injection H as <-|]. apply bind_Some in H as (r2 & E2 & H). destruct r2 as [code|[rc2 d2]].
    + injection H as <-. unfold find_device_by_sysfs in E2. apply bind_Some in E2 as (dv & _ & E2). apply bind_Some in E2 as (dir & _ & E2).
      apply bind_Some in E2 as (r & Er & E2). pose proof (sysfs_exit _ _ _ _ _ _ _ Er) as Hx.
      destruct r as [code'|[[[|] n] dv']]; [by injection E2 as <-|done|done].
    + destruct (0 <=? rc2); injection H as <-; [done|apply by_ioctl_exit].
Qed.

(** The broadcast address replaces part of the array. *)
Lemma memcpy_length off x p p' : memcpy off x p = Some p' -> length p' = length p.
Proof.
  unfold memcpy. destruct (Nat.leb_spec (off + length x) (length p)); [|done]. intros [= <-]. rewrite !length_app, length_take, length_drop. lia.
Qed.

Lemma broadcast_length d ba balen he : set_device_broadcast d ba balen = Some he -> length he = length ba.
Proof.
  unfold set_device_broadcast. intros H. apply bind_Some in H as (r1 & E1 & H). destruct r1 as [x|].
  { injection H as ->. unfold set_device_broadcast_ifaddrs_one in E1. destruct (ifa d) as [|i|]; [done| |done].
    apply bind_Some in E1 as ([halen addr] & _ & E1). destruct (negb _); [done|]. apply bind_Some in E1 as (x & _ & E1).
    apply bind_Some in E1 as (y & E1 & [= ->]). exact (memcpy_length _ _ _ _ E1). }
  apply bind_Some in H as (r2 & E2 & H). destruct r2 as [x|]; [|exact (memcpy_length _ _ _ _ H)].
  injection H as ->. unfold set_device_broadcast_sysfs in E2. destruct (sysfs d) as [v|]; [|done]. destruct (negb _); [done|].
  apply bind_Some in E2 as (m & _ & E2). apply bind_Some in E2 as (x & _ & E2). apply bind_Some in E2 as (y & E2 & [= ->]). exact (memcpy_length _ _ _ _ E2).
Qed.

(** *** What [main] has done before its loop *)

Lemma setup_post k net opts operands r : answers_ok k net -> arping_setup k net opts operands = Some r ->
  match r with
  | Exits code => code = 0 \/ code = 2
  | Returns (c, he) => config_ok c /\ length he = sizeof_storage_addr /\
      (dad c = true -> quit_on_reply c = true) /\ (dad c = false -> src c <> 0)
  end.
Proof.
  intros [_ Ha Hg Hn Hm]. unfold arping_setup.
  destruct (parse_options opts defaults) as [code|o] eqn:Eo; [intros [= <-]; by eapply parse_options_exit|].
  pose proof (parse_options_dad opts defaults o ltac:(done) Eo) as Hq.
  destruct operands as [|target [|? ?]]; [intros [= <-]; auto| |intros [= <-]; auto].
  destruct (n_packet_socket net); cbn [negb]; [|intros [= <-]; auto]. intros H. apply bind_Some in H as (r1 & E1 & H).
  pose proof (find_device_exit _ _ _ _ E1) as Hx. destruct r1 as [code|[rc d]]; [by injection H as <-|]. revert H.
  destruct (rc <? 0); [intros [= <-]; auto|]. destruct (ifindex d =? 0); [intros [= <-]; auto|].
  destruct (find_target net target) as [ta|] eqn:Et; [|intros [= <-]; auto].
  assert (Hta : in_u 32 ta) by (unfold find_target in Et; destruct (n_inet_aton net target) eqn:E2; [injection Et as <-; by eapply Ha|by eapply Hg]).
  destruct (match o_source o with None => Some 0 | Some x => n_inet_aton net x end) as [so|] eqn:Es; [|intros [= <-]; auto].
  assert (Hso : in_u 32 so) by (destruct (o_source o); [by eapply Ha|injection Es as <-; by split]).
  pose proof (find_source_cases net (o_dad o) (o_unsolicited o) so ta Hn Hso Hta) as Hsrc.
  destruct (find_source _ _ _ _ _) as [code|a]; [intros [= <-]; auto|].
  destruct (n_packet_bind net (ifindex d)); cbn [negb]; [|intros [= <-]; auto].
  destruct (n_me net (ifindex d)) as [m|] eqn:Em; [|intros [= <-]; auto]. destruct (Hm _ _ Em) as (M1 & M2 & M3).
  destruct (sll_halen m =? 0); [intros [= <-]; destruct (o_dad o); auto|]. intros H. apply bind_Some in H as (he & Eh & H).
  apply broadcast_length in Eh. revert H. destruct ((a =? 0) && negb (o_dad o)) eqn:Ez; [intros [= <-]; auto|].
  intros [= <-]. split; [by constructor|]. split; [by rewrite Eh|]. split; [done|]. cbn. intros Hd0. rewrite Hd0 in Ez. cbn in Ez. lia.
Qed.

Lemma setup_runs k net opts operands : answers_ok k net -> ~ lookup_fails k -> arping_setup k net opts operands <> None.
Proof.
  intros Hk Hf. pose proof (ko_interfaces _ _ Hk) as Hi0. destruct Hk as [_ _ _ _ Hm]. unfold lookup_fails in Hf.
  destruct (k_getifaddrs k) as [l|] eqn:Hl; [|by destruct Hf]. specialize (Hi0 l eq_refl).
  unfold arping_setup. destruct (parse_options opts defaults) as [code|o]; [done|]. destruct operands as [|target [|? ?]]; [done| |done].
  set (d0 := mkDevice _ 0 IfaNull None). destruct (n_packet_socket net); cbn [negb]; [|done].
  assert (Hi : Forall (fun i => exists nm, ifa_name i = Some nm /\ k_nametoindex k nm <> 0) l).
  { rewrite Forall_forall in Hi0 |- *. intros i Hin. destruct (ifa_name i) as [nm|] eqn:En; [|by destruct (Hi0 i Hin)]. exists nm. split; [done|].
    intros E. apply Hf, Exists_exists. exists i. split; [done|]. unfold vanished. by rewrite En. }
  destruct (find_device_run (o_dad o) k l d0 Hl eq_refl Hi) as (r & Er & Hr). rewrite Er. cbn [mbind option_bind].
  destruct r as [code|[rc d]]; [done|].
  destruct Hr as [(i & nm & -> & Hfl & Hd & _ & _ & _ & Hsy)|(-> & Hx & _)]; cbn [Z.ltb Z.compare]; [|by rewrite Hx].
  destruct (ifindex d =? 0); [done|]. destruct (find_target net target) as [ta|]; [|done].
  destruct (match o_source o with None => Some 0 | Some x => n_inet_aton net x end) as [so|]; [|done].
  destruct (find_source _ _ _ _ _) as [code|a]; [done|]. destruct (n_packet_bind net (ifindex d)); cbn [negb]; [|done].
  destruct (n_me net (ifindex d)) as [m|] eqn:Em; [|done]. destruct (Hm _ _ Em) as (M1 & M2 & _). destruct (sll_halen m =? 0); [done|].
  assert (i ∈ filter (suitable d0) l) as Hin by (rewrite Hfl; apply list_elem_of_here). apply list_elem_of_filter in Hin as [Hsu Hin].
  rewrite Forall_forall in Hi0. destruct (Hi0 i Hin) as [_ Hlen].
  destruct (set_device_broadcast_run d (sll_addr m) (sll_halen m) i Hd) as (he & -> & _).
  - unfold suitable, addressed in Hsu. intros E. rewrite E in Hsu. destruct (ifa_addr i) as [[]|]; by rewrite andb_false_r in Hsu.
  - by rewrite Hsy.
  - exact Hlen.
  - rewrite M2. unfold sizeof_storage_addr. lia.
  - cbn [mbind option_bind]. by destruct (_ && _).
Qed.

(** C24: Whatever the command line, the packets and the order of events, arping
    ends during its setup with code 0 or 2, or it runs with settings in range
    and the account of the run holds; with -D the first conflict ends it, and
    without it there is a source address.  An invalid access to memory (see
    [freed_interface_used]) needs a search for the interface that goes wrong:
    getifaddrs fails, or if_nametoindex knows no index of a listed interface. *)
Theorem arping_safe k net opts operands ts now buf err evs packet : answers_ok k net ->
  length buf = 256%nat -> Forall event_ok evs -> memory_ok packet ->
  match arping_main k net opts operands ts now buf err evs packet with
  | Some (Exits code) => code = 0 \/ code = 2
  | Some (Returns (s, es)) => exists c he done rest, arping_setup k net opts operands = Some (Returns (c, he)) /\ config_ok c /\
      (dad c = true -> quit_on_reply c = true) /\ (dad c = false -> src c <> 0) /\
      EvAlarm ts now buf err :: evs = done ++ rest /\ (exited s = None -> rest = []) /\ account c he done s es
  | None => lookup_fails k
  end.
Proof.
  intros Hk Hb He Hp. unfold arping_main. destruct (arping_setup k net opts operands) as [r|] eqn:Er; cbn [mbind option_bind].
  2:{ destruct (decide (lookup_fails k)) as [|Hn]; [done|]. by destruct (setup_runs k net opts operands Hk Hn). }
  pose proof (setup_post k net opts operands r Hk Er) as Hr. destruct r as [code|[c he]]; [done|]. destruct Hr as (Hc & Hh & Hq & Hs).
  rewrite arp_run_run by (first [done|by constructor]). cbn [mbind option_bind].
  destruct (arp_account_run c Hc he (EvAlarm ts now buf err :: evs) Hh) as (dn & rest & E & Ha & Hx).
  destruct (srun c (EvAlarm ts now buf err :: evs) (initial he)) as [s es]. by exists c, he, dn, rest.
Qed.

Definition demo_network : network :=
  mkNetwork true (fun x => if String.eqb x "192.168.0.2" then Some ip2 else None) (fun _ => None) true (fun _ => true) (fun _ => true)
    (fun _ => Some ip1) (fun _ => true) (fun _ => Some (ll my_hw)).

(** The interface is gone when its index is asked for, and sysfs still has it. *)
Definition sys_eth0 : dirent := mkDirent "eth0" (Word "2") (Word "0x1043") (Word "6") (Word "ff:ff:ff:ff:ff:ff").
Definition losing_kernel : kernel :=
  mkKernel (Some [eth0]) (fun _ => 0) (Some [sys_eth0]) (fun _ => true) true (mkIoctls (fun _ => None) (fun _ => None) (fun _ => None)).

Lemma demo_answers_ok k : k = demo_kernel \/ k = losing_kernel -> answers_ok k demo_network.
Proof.
  intros Hk. constructor; cbn.
  - intros l Hl. destruct Hk as [-> | ->]; injection Hl as <-;
      repeat (constructor; [split; [done|by intros halen addr [= <- <-]; cbn; lia]|]); constructor.
  - intros x a. destruct (String.eqb _ _); [intros [= <-]; by split|done].
  - done.
  - intros x a [= <-]. by split.
  - intros i m [= <-]. cbn. repeat split; try done; lia.
Qed.

(** A run that gets an answer, and one that uses the freed interface. *)
Lemma arping_safe_witness :
  (exists s es, arping_main demo_kernel demo_network [Oc 2] ["192.168.0.2"%string]
    (at_s 10) (at_s 10) (replicate 256 0) 28 (tail demo_events) array = Some (Returns (s, es)) /\ exited s = Some 0 /\
    exists c he done rest, config_ok c /\ EvAlarm (at_s 10) (at_s 10) (replicate 256 0) 28 :: tail demo_events = done ++ rest /\ account c he done s es)
  /\ arping_main losing_kernel demo_network [Oc 2] ["192.168.0.2"%string]
    (at_s 10) (at_s 10) (replicate 256 0) 28 (tail demo_events) array = None /\ lookup_fails losing_kernel.
Proof.
  assert (He : Forall event_ok (tail demo_events)) by exact (Forall_inv_tail arp_events_ok). split.
  - pose proof (arping_safe demo_kernel demo_network [Oc 2] ["192.168.0.2"%string] (at_s 10) (at_s 10) (replicate 256 0) 28 (tail demo_events) array
      (demo_answers_ok _ (or_introl eq_refl)) eq_refl He array_ok) as H.
    assert (R : (match arping_main demo_kernel demo_network [Oc 2] ["192.168.0.2"%string]
      (at_s 10) (at_s 10) (replicate 256 0) 28 (tail demo_events) array with Some (Returns (s, _)) => exited s | _ => None end) = Some 0)
      by (vm_compute; reflexivity).
    destruct (arping_main demo_kernel demo_network [Oc 2] ["192.168.0.2"%string]
      (at_s 10) (at_s 10) (replicate 256 0) 28 (tail demo_events) array) as [[code|[s es]]|]; [discriminate R| |discriminate R].
    exists s, es. split; [reflexivity|]. split; [exact R|]. destruct H as (c & he & dn & rest & _ & H1 & _ & _ & H2 & _ & H3).
    exists c, he, dn, rest. split; [exact H1|]. split; [exact H2|exact H3].
  - pose proof (arping_safe losing_kernel demo_network [Oc 2] ["192.168.0.2"%string] (at_s 10) (at_s 10) (replicate 256 0) 28 (tail demo_events) array
      (demo_answers_ok _ (or_intror eq_refl)) eq_refl He array_ok) as H.
    assert (R : arping_main losing_kernel demo_network [Oc 2] ["192.168.0.2"%string]
      (at_s 10) (at_s 10) (replicate 256 0) 28 (tail demo_events) array = None) by (vm_compute; reflexivity).
    rewrite R in H. split; [exact R|exact H].
Defined.

(** ** What the model shows of the rest *)

(** The time printed for an answer is half a millisecond more than the time
    that passed, in microseconds. *)
Lemma printed_time ts last : let us := (tv_sec ts - tv_sec last) * 1000000 + Z.quot (tv_nsec ts - tv_nsec last + 500) 1000 in
  0 <= us -> 1000 * (elapsed ts last).1 + (elapsed ts last).2 = us + 500 /\ 0 <= (elapsed ts last).2 < 1000.
Proof. intros us Hus. unfold elapsed. fold us. cbn [fst snd]. rewrite Z.quot_div_nonneg by lia. pose proof (Z.div_mod (us + 500) 1000 ltac:(lia)). pose proof (Z.mod_pos_bound (us + 500) 1000). lia. Qed.

(** Without a name the search by ioctl looks only at the empty name, so it finds
    no interface. *)
Lemma ioctl_loop_blind dad k names n u : SIOCGIFFLAGS k "" = None -> ioctl_loop dad k names n (mkIfreq "" u) = Returns (n, mkIfreq "" u).
Proof. intros H. induction names as [|nm names IH]; cbn [ioctl_loop]; [done|]. unfold check_device_by_ioctl. cbn. rewrite H. cbn. apply IH. Qed.

Lemma ioctl_finds_nothing dad sock k d : SIOCGIFFLAGS k "" = None -> name d = None -> ifindex d = 0 ->
  exists rc, find_device_by_ioctl dad sock k d = Returns (rc, d) /\ rc <> 0.
Proof.
  intros H Hn Hi. unfold find_device_by_ioctl. rewrite Hn. destruct sock; cbn [negb]; [|by exists (-1)].
  destruct (ifconf_sizes 32 k sizeof_ifreq); [|by exists (-1)]. rewrite ioctl_loop_blind by done. cbn. rewrite Hi. by exists 1.
Qed.

(** When if_nametoindex fails the list of interfaces is freed, but the pointer
    into it is used for the broadcast address if sysfs then finds the device. *)
Lemma freed_interface_used : exists d, find_device false losing_kernel any_device = Some (Returns (0, d)) /\ ifindex d = 2 /\ set_device_broadcast d (sll_addr (ll my_hw)) 6 = None.
Proof. eexists. split; [by vm_compute|]. by split. Qed.

(** An interface whose broadcast file cannot be opened is taken by sysfs, and
    its missing address is then copied from a null pointer. *)
Lemma no_broadcast_file : exists d,
    find_device_by_sysfs false (Some [mkDirent "eth0" (Word "2") (Word "0x1043") (Word "6") NoFile]) (fun _ => true) any_device
      = Some (Returns (0, d)) /\ set_device_broadcast d (sll_addr (ll my_hw)) 6 = None.
Proof. eexists. split; [by vm_compute|]. done. Qed.

(** The doubling ends before the fuel does. *)
Lemma ifconf_sizes_enough k m : forall f size, 0 < size -> 2 ^ 30 <= size * 2 ^ Z.of_nat m -> (m <= f)%nat ->
  ifconf_sizes (S f) k size = ifconf_sizes (S m) k size.
Proof.
  induction m as [|m IH]; intros f size Hs H Hf; cbn [ifconf_sizes]; destruct (SIOCGIFCONF k size) as [names|]; cbn [mbind option_bind]; try done;
    destruct (_ <=? size); try done; destruct (Z.ltb_spec (size * 2) (Z.quot (2 ^ 31 - 1) 2)) as [Hl|Hl]; try done.
  - change (Z.quot (2 ^ 31 - 1) 2) with (2 ^ 30 - 1) in Hl. lia.
  - destruct f as [|f]; [lia|]. apply IH; [lia| |lia]. rewrite Nat2Z.inj_succ, Z.pow_succ_r in H by lia. lia.
Qed.

Lemma ifconf_fuel k f : (25 <= f)%nat -> ifconf_sizes (S f) k sizeof_ifreq = ifconf_sizes 26 k sizeof_ifreq.
Proof. intros H. by apply (ifconf_sizes_enough k 25). Qed.
