(* ===== verification/Clockdiff.v ===== *)
(** * The difference of two clocks: iputils-ns/clockdiff.c

    clockdiff sends ICMP timestamp requests, or echo requests with an IP
    timestamp option, and computes from the times in the replies how far the
    clock of another host is ahead.  The globals and the locals of [measure]
    that outlive an iteration are a record [clock]; the two functions
    [measure] and [measure_opt] are one loop with two requests and two
    readings of a reply.

    A call of [select] that succeeds is an arrival: the time read next and
    what [recvfrom] delivers ([None] if it fails).  A round is one probe with
    the arrivals up to the [select] that fails or times out.  Both packet
    buffers are memory with any contents at the start, and a short packet
    leaves the old bytes behind it in place.  [None] is an access outside an
    array.  The dots printed for an interactive user and the texts on stderr
    are left out. *)

From Stdlib Require Import ZArith Lia String.
From stdpp Require Import base numbers option list.
From S2P Require Import Prelude Ping PingPacket.

Local Open Scope Z_scope.
Local Abbreviation length := List.length.

(** ** The checksum *)

Definition ADDCARRY (sum : Z) : Z :=
  if Z.land sum 0xffff0000 =? 0 then sum else Z.land sum 0xffff + 1.

Fixpoint add_words (addr : list Z) (sum : Z) : Z :=
  match addr with
  | a :: b :: addr' => add_words addr' (ADDCARRY (s32 (sum + (a + 256 * b))))
  | [a] => ADDCARRY (s32 (sum + a))
  | [] => sum
  end.

Definition in_cksum (addr : list Z) : Z := Z.land (Z.lnot (add_words addr 0)) 0xffff.

(** ** Data *)

Definition RANGE : Z := 1.
Definition MSGS : Z := 50.
Definition TRIALS : Z := 10.
Definition GOOD : Z := 0.
Definition UNREACHABLE : Z := 2.
Definition NONSTDTIME : Z := 3.
Definition HOSTDOWN : Z := 0x7fffffff.
Definition BIASP : Z := 43199999.
Definition BIASN : Z := -43200000.
Definition MODULO : Z := 86400000.
Definition PROCESSING_TIME : Z := 0.
Definition PACKET_IN : nat := 1024.

Definition ICMP_TIMESTAMP : Z := 13.
Definition ICMP_TIMESTAMPREPLY : Z := 14.
Definition IPOPT_TIMESTAMP : Z := 68.
Definition IPOPT_TS_PRESPEC : Z := 3.

Record timeval := mkTv { tv_s : Z; tv_us : Z }.

Record clock := mkClock {
  measure_delta : Z;
  measure_delta1 : Z;
  seqno : Z;
  seqno0 : Z;
  acked : Z;
  rtt : Z;
  min_rtt : Z;
  rtt_sigma : Z;
  msgcount : Z;
  min1 : Z;
  min2 : Z;
  packet : list Z;
  opacket : list Z
}.

Definition set_packet (p : list Z) (s : clock) : clock :=
  mkClock (measure_delta s) (measure_delta1 s) (seqno s) (seqno0 s) (acked s) (rtt s) (min_rtt s) (rtt_sigma s)
    (msgcount s) (min1 s) (min2 s) p (opacket s).
Definition set_request (n : Z) (p : list Z) (s : clock) : clock :=
  mkClock (measure_delta s) (measure_delta1 s) n (seqno0 s) (acked s) (rtt s) (min_rtt s) (rtt_sigma s)
    (msgcount s) (min1 s) (min2 s) (packet s) p.
Definition set_acked (n : Z) (s : clock) : clock :=
  mkClock (measure_delta s) (measure_delta1 s) (seqno s) (seqno0 s) n (rtt s) (min_rtt s) (rtt_sigma s)
    (msgcount s) (min1 s) (min2 s) (packet s) (opacket s).
Definition set_rtt (r sigma n : Z) (s : clock) : clock :=
  mkClock (measure_delta s) (measure_delta1 s) (seqno s) (seqno0 s) (acked s) r (min_rtt s) sigma
    n (min1 s) (min2 s) (packet s) (opacket s).
Definition set_mins (a b : Z) (s : clock) : clock :=
  mkClock (measure_delta s) (measure_delta1 s) (seqno s) (seqno0 s) (acked s) (rtt s) (min_rtt s) (rtt_sigma s)
    (msgcount s) a b (packet s) (opacket s).
Definition set_best (r d : Z) (s : clock) : clock :=
  mkClock (measure_delta s) d (seqno s) (seqno0 s) (acked s) (rtt s) r (rtt_sigma s)
    (msgcount s) (min1 s) (min2 s) (packet s) (opacket s).
Definition set_delta (d : Z) (s : clock) : clock :=
  mkClock d (measure_delta1 s) (seqno s) (seqno0 s) (acked s) (rtt s) (min_rtt s) (rtt_sigma s)
    (msgcount s) (min1 s) (min2 s) (packet s) (opacket s).
Definition set_counters (s : clock) : clock :=
  mkClock (measure_delta s) (measure_delta1 s) 0 0 0 (rtt s) (min_rtt s) (rtt_sigma s)
    0 (min1 s) (min2 s) (packet s) (opacket s).
Definition set_start (s : clock) : clock :=
  mkClock HOSTDOWN HOSTDOWN (seqno s) (seqno0 s) (acked s) (rtt s) 0x7fffffff (rtt_sigma s)
    (msgcount s) 0x7fffffff 0x7fffffff (packet s) (opacket s).

Inductive step :=
  | Next (s : clock)
  | Return (code : Z) (s : clock).

Inductive effect :=
  | Sendto (bytes : list Z)
  | Select (sec usec : Z).

(** ** Times *)

(** Milliseconds since midnight. *)
Definition ms_of_day (t : timeval) : Z := Z.rem (tv_s t) (24 * 60 * 60) * 1000 + Z.quot (tv_us t) 1000.

Definition net32 (x : Z) : list Z := reverse (le_bytes 4 (u32 x)).
Definition load32_net (off : nat) (p : list Z) : option Z := (fun l => le_value (reverse l)) <$> load off 4 p.

(** Differences are brought back into half a day. *)
Definition wrap_day (delta : Z) : Z :=
  if delta <? BIASN then delta + MODULO else if delta >? BIASP then delta - MODULO else delta.

Definition good_exit (s : clock) : clock := set_delta (s32 (Z.quot (min1 s - min2 s) 2 + PROCESSING_TIME)) s.

Definition note_rtt (diff : Z) (s : clock) : clock :=
  let r := Z.quot (rtt s * 3 + diff) 4 in
  set_rtt r (Z.quot (rtt_sigma s * 3 + Z.abs (s32 (diff - r))) 4) (msgcount s + 1) s.

Definition note_deltas (sendtime histime histime1 recvtime diff : Z) (s : clock) : step :=
  let delta1 := wrap_day (histime - sendtime) in
  let delta2 := wrap_day (recvtime - histime1) in
  let s := set_mins (if delta1 <? min1 s then delta1 else min1 s) (if delta2 <? min2 s then delta2 else min2 s) s in
  let s := if delta1 + delta2 <? min_rtt s
           then set_best (delta1 + delta2) (s32 (Z.quot (delta1 - delta2) 2 + PROCESSING_TIME)) s else s in
  if diff <? RANGE then Return GOOD (good_exit (set_mins delta1 delta2 s)) else Next s.

(** ** The replies *)

Definition acknowledge (seq : Z) (s : clock) : clock := if acked s <? seq then set_acked seq s else s.

(** Type, identifier and sequence number of the ICMP message in [packet], and
    where it starts. *)
Definition header_of (p : list Z) : option (nat * Z * Z * Z) :=
  b0 ← p !! 0%nat;
  let icp := Z.to_nat (Z.shiftl (Z.land b0 15) 2) in
  type ← p !! icp;
  id' ← load16 (icp + 4) p;
  seq ← load16 (icp + 6) p;
  Some (icp, type, id', seq).

Definition measure_reply (id : Z) (tv1 : timeval) (s : clock) : option step :=
  '(icp, type, id', seq) ← header_of (packet s);
  if (type =? ICMP_TIMESTAMPREPLY) && (id' =? id) && (seqno0 s <=? seq) && (seq <=? seqno s) then
    let s := acknowledge seq s in
    let recvtime := ms_of_day tv1 in
    sendtime ← load32_net (icp + 8) (packet s);
    let diff := recvtime - sendtime in
    if diff <? 0 then Some (Next s)
    else
      let s := note_rtt diff s in
      histime ← load32_net (icp + 12) (packet s);
      if negb (Z.land histime 0x80000000 =? 0) then Some (Return NONSTDTIME s)
      else Some (note_deltas sendtime histime histime recvtime diff s)
  else Some (Next s).

Record stamps := mkStamps { sendtime : Z; histime : Z; histime1 : Z; recvtime : Z }.

Definition store_stamp (ip_opt_len : Z) (i : nat) (t : Z) (r : stamps) : stamps :=
  let r := if (i =? 0)%nat then mkStamps t (histime r) (histime1 r) (recvtime r) else r in
  let r := if (i =? 1)%nat then mkStamps (sendtime r) t t (recvtime r) else r in
  let r := if (i =? 2)%nat then
             if ip_opt_len =? 4 + 4 * 8 then mkStamps (sendtime r) (histime r) t (recvtime r)
             else mkStamps (sendtime r) (histime r) (histime1 r) t
           else r in
  if (i =? 3)%nat then mkStamps (sendtime r) (histime r) (histime1 r) t else r.

(** The times of an option from number [i] on; [inl] is a time in another
    format. *)
Fixpoint read_stamps (ip_opt_len : Z) (n i : nat) (p : list Z) (r : stamps) : option (unit + stamps) :=
  match n with
  | O => Some (inr r)
  | S n' =>
      t ← load32_net (20 + 4 + i * 8 + 4) p;
      if negb (Z.land t 0x80000000 =? 0) then Some (inl tt)
      else read_stamps ip_opt_len n' (S i) p (store_stamp ip_opt_len i t r)
  end.

Definition measure_opt_reply (ip_opt_len id : Z) (tv1 : timeval) (s : clock) : option step :=
  '(icp, type, id', seq) ← header_of (packet s);
  o0 ← packet s !! 20%nat;
  if (type =? ICMP_ECHOREPLY) && (o0 =? IPOPT_TIMESTAMP) && (id' =? id) && (seqno0 s <=? seq) && (seq <=? seqno s) then
    let s := acknowledge seq s in
    o3 ← packet s !! 23%nat;
    if negb (Z.land o3 0xF =? IPOPT_TS_PRESPEC) then Some (Return NONSTDTIME s)
    else
      o2 ← packet s !! 22%nat;
      r ← read_stamps ip_opt_len (Z.to_nat (Z.quot (o2 - 5) 8)) 0 (packet s) (mkStamps 0 0 0 0);
      match r with
      | inl _ => Some (Return NONSTDTIME s)
      | inr t =>
          if Z.land (Z.land (Z.land (sendtime t) (histime t)) (histime1 t)) (recvtime t) =? 0 then Some (Return (-1) s)
          else
            let diff := recvtime t - sendtime t in
            if diff <? 0 then Some (Next s)
            else Some (note_deltas (sendtime t) (histime t) (histime1 t) (recvtime t) diff (note_rtt diff s))
      end
  else Some (Next s).

(** ** The loop *)

Definition arrival : Type := timeval * option (list Z).

Record round := mkRound {
  sent_at : timeval;
  sent_ok : bool;                  (* sendto did not fail *)
  arrivals : list arrival
}.

(** [recvfrom] writes what fits into [packet]. *)
Definition recvfrom (bytes p : list Z) : list Z :=
  let got := take PACKET_IN bytes in got ++ drop (length got) p.

(** Until the queue is empty. *)
Fixpoint empty_queue (q : list (option (list Z))) (s : clock) : step :=
  match q with
  | [] => Next s
  | None :: _ => Return (-1) s
  | Some bytes :: q' => empty_queue q' (set_packet (recvfrom bytes (packet s)) s)
  end.

(** The part of the request that does not change. *)
Definition prepare (type id : Z) (p : list Z) : option (list Z) :=
  p ← memcpy 0 [type; 0; 0; 0] p;
  p ← memcpy 4 (le_bytes 2 id) p;
  memcpy 8 (replicate 12 0) p.

Definition request (tv1 : timeval) (s : clock) : option clock :=
  let n := u16 (seqno s + 1) in
  p ← memcpy 6 (le_bytes 2 n) (opacket s);
  p ← memcpy 2 [0; 0] p;
  p ← memcpy 8 (net32 (ms_of_day tv1)) p;
  pkt ← load 0 20 p;
  p ← memcpy 2 (le_bytes 2 (in_cksum pkt)) p;
  Some (set_request n p s).

Definition timeout (s : clock) : effect :=
  let tmo := rtt s + rtt_sigma s in
  Select (Z.quot tmo 1000) ((tmo - Z.quot tmo 1000 * 1000) * 1000).

Section Loop.
Context (type id : Z) (reply : timeval -> clock -> option step).

Fixpoint wait_replies (l : list arrival) (s : clock) : option (list effect * step) :=
  match l with
  | [] => Some ([timeout s], Next s)
  | (_, None) :: _ => Some ([timeout s], Return (-1) s)
  | (tv1, Some bytes) :: l' =>
      r ← reply tv1 (set_packet (recvfrom bytes (packet s)) s);
      match r with
      | Next s' => '(e, r') ← wait_replies l' s'; Some (timeout s :: e, r')
      | Return code s' => Some ([timeout s], Return code s')
      end
  end.

Fixpoint measure_loop (rounds : list round) (s : clock) : option (list effect * step) :=
  if msgcount s <? MSGS then
    if seqno s - acked s >? TRIALS then Some ([], Return HOSTDOWN s)
    else
      match rounds with
      | [] => Some ([], Next s)
      | r :: rounds' =>
          s ← request (sent_at r) s;
          pkt ← load 0 20 (opacket s);
          if negb (sent_ok r) then Some ([Sendto pkt], Return UNREACHABLE s)
          else
            '(e, x) ← wait_replies (arrivals r) s;
            match x with
            | Next s' => '(e', y) ← measure_loop rounds' s'; Some (Sendto pkt :: e ++ e', y)
            | Return code s' => Some (Sendto pkt :: e, Return code s')
            end
      end
  else Some ([], Return GOOD (good_exit s)).

Definition measure_with (q : list (option (list Z))) (rounds : list round) (s : clock) : option (list effect * step) :=
  match empty_queue q (set_start s) with
  | Return code s' => Some ([], Return code s')
  | Next s =>
      p ← prepare type id (opacket s);
      measure_loop rounds (set_counters (set_request (seqno s) p s))
  end.
End Loop.

Definition measure (id : Z) := measure_with ICMP_TIMESTAMP id (measure_reply id).
Definition measure_opt (ip_opt_len id : Z) := measure_with ICMP_ECHO id (measure_opt_reply ip_opt_len id).

(** ** The program *)

(** The answers of the system before the measurement. *)
Record system := mkSystem {
  socket_ok : bool;
  nice_errno : Z;
  setuid_ok : bool;
  isatty : bool;
  getpid : Z;
  self_found : bool;               (* getaddrinfo of our own name *)
  getaddrinfo : string -> option Z;
  connect_ok : bool;
  getsockname : option Z;
  setsockopt_ok : bool;
  time_now : Z
}.

Inductive outcome :=
  | Exit (code : Z)
  | ShowInteractive (rtt rtt_sigma min_rtt measure_delta measure_delta1 : Z)
  | Show (now measure_delta measure_delta1 : Z)
  | Unfinished.

(** The option that asks our host, the other and ours again for their times;
    with four places the other host is asked twice. *)
Definition rspace (ip_opt_len : Z) (myaddr server : Z) : option (list Z) :=
  let p := replicate (Z.to_nat ip_opt_len) 0 in
  p ← memcpy 0 [IPOPT_TIMESTAMP; u8 ip_opt_len; 5; IPOPT_TS_PRESPEC] p;
  p ← memcpy 4 (le_bytes 4 myaddr) p;
  p ← memcpy 12 (le_bytes 4 server) p;
  p ← memcpy 20 (le_bytes 4 myaddr) p;
  if ip_opt_len =? 4 + 4 * 8 then
    p ← memcpy 20 (le_bytes 4 server) p;
    memcpy 28 (le_bytes 4 myaddr) p
  else Some p.

(** The options [argv], without the name of the program: the length of the IP
    option and the host. *)
Definition arguments (argv : list string) : option (Z * string) :=
  match argv with
  | [host] => Some (0, host)
  | [o; host] =>
      if String.eqb o "-o" then Some (4 + 4 * 8, host)
      else if String.eqb o "-o1" then Some (4 + 3 * 8, host) else None
  | _ => None
  end.

Definition start_state (stale ostale : list Z) : clock := mkClock 0 0 0 0 0 1000 0 0 0 0 0 stale ostale.

(** What [main] makes of the result of the measurement. *)
Definition conclude (sys : system) (r : step) : outcome :=
  match r with
  | Next _ => Unfinished
  | Return code s =>
      if code <? 0 then Exit 1
      else if (code =? HOSTDOWN) || (code =? NONSTDTIME) || (code =? UNREACHABLE) then Exit 1
      else if isatty sys then ShowInteractive (rtt s) (rtt_sigma s) (min_rtt s) (measure_delta s) (measure_delta1 s)
      else Show (time_now sys) (measure_delta s) (measure_delta1 s)
  end.

(** The option as the kernel takes it, and the measurement that follows. *)
Definition main (sys : system) (argv : list string) (q : list (option (list Z))) (rounds : list round)
    (stale ostale : list Z) : option (option (list Z) * list effect * outcome) :=
  let stop code := Some (None, [], Exit code) in
  if negb (setuid_ok sys) then stop 255
  else match arguments argv with
  | None => stop 1
  | Some (ip_opt_len, host) =>
      if negb (socket_ok sys) then stop 1
      else if nice_errno sys <? 0 then stop 1
      else if negb (self_found sys) then stop 2
      else match getaddrinfo sys host with
      | None => stop 1
      | Some server =>
          if negb (connect_ok sys) then stop 1
          else if ip_opt_len =? 0 then
            '(e, r) ← measure (u16 (getpid sys)) q rounds (start_state stale ostale);
            Some (None, e, conclude sys r)
          else match getsockname sys with
          | None => stop 1
          | Some myaddr =>
              opt ← rspace ip_opt_len myaddr server;
              if setsockopt_ok sys then
                '(e, r) ← measure_opt ip_opt_len (u16 (getpid sys)) q rounds (start_state stale ostale);
                Some (Some opt, e, conclude sys r)
              else
                '(e, r) ← measure (u16 (getpid sys)) q rounds (start_state stale ostale);
                Some (None, e, conclude sys r)
          end
      end
  end.
