(* ===== verification/ClockdiffSpec.v ===== *)
(** * What a measurement of clockdiff does, for both kinds of reply

    [ReplyLaws] is what the loop needs to know of a reading of replies, and
    both readings keep it; [loop_rule] is the rule for invariants of the
    loop. *)

From Stdlib Require Import ZArith Lia String.
From stdpp Require Import base numbers option list.
From S2P Require Import Prelude Ping PingPacket PingFour Clockdiff.

Local Open Scope Z_scope.
Local Abbreviation length := List.length.
Local Abbreviation in_cksum := Clockdiff.in_cksum.

(** ** The checksum *)

Lemma addcarry_run x : 0 <= x <= 131070 -> ADDCARRY x = ones_sum x.
Proof.
  intros Hx. unfold ADDCARRY. change 0xffff with (Z.ones 16).
  assert (Hl : Z.land x 0xffff0000 = 65536 * (x / 65536)).
  { replace 0xffff0000 with (Z.shiftl (Z.ones 16) 16) by done. replace (65536 * (x / 65536)) with (Z.shiftl (Z.shiftr x 16) 16)
      by (rewrite Z.shiftl_mul_pow2, Z.shiftr_div_pow2 by lia; change (2 ^ 16) with 65536; lia).
    apply Z.bits_inj'. intros n Hn. rewrite Z.land_spec. destruct (Z.lt_ge_cases n 16).
    - rewrite !Z.shiftl_spec_low by done. apply andb_false_r.
    - rewrite !Z.shiftl_spec by lia. rewrite Z.shiftr_spec by lia. replace (n - 16 + 16) with n by lia.
      destruct (Z.lt_ge_cases n 32); [rewrite Z.ones_spec_low by lia; apply andb_true_r|].
      rewrite Z.ones_spec_high by lia. rewrite andb_false_r. symmetry. destruct (decide (x = 0)) as [->|]; [apply Z.bits_0|].
      apply Z.bits_above_log2; [lia|]. apply Z.log2_lt_pow2; [lia|]. pose proof (Z.pow_le_mono_r 2 32 n ltac:(lia) ltac:(lia)). lia. }
  rewrite Hl, Z.land_ones by lia. change (2 ^ 16) with 65536.
  destruct (Z.lt_ge_cases x 65536).
  - rewrite Z.div_small by lia. rewrite Z.mul_0_r, Z.eqb_refl. apply ones_sum_unique; [lia|lia|tauto|exists 0; lia].
  - assert (E : x / 65536 = 1) by (symmetry; apply Z.div_unique with (x - 65536); lia). rewrite E. change (65536 * 1 =? 0) with false. cbv iota.
    rewrite (Z.mod_eq x 65536), E by lia. apply ones_sum_unique; [lia|lia|lia|exists 1; lia].
Qed.

Lemma add_words_run l : forall acc, Forall (in_u 8) l -> 0 <= acc <= 65535 -> add_words l acc = ones_sum (acc + wsum l).
Proof.
  induction l as [|a|a b l IH] using list_pair_ind; intros acc Hl Ha; cbn [add_words wsum].
  - apply ones_sum_unique; [lia|lia|lia|exists 0; lia].
  - apply Forall_inv in Hl. unfold in_u in Hl. rewrite wraps_id by (unfold in_s; lia). apply addcarry_run. lia.
  - apply Forall_cons in Hl as [H1 Hl]. apply Forall_cons in Hl as [H2 Hl]. unfold in_u in H1, H2.
    rewrite wraps_id by (unfold in_s; lia). rewrite addcarry_run, IH by (done || lia || apply ones_sum_range).
    pose proof (proj1 (wsum_bounds l Hl)). rewrite ones_sum_add by lia. f_equal. lia.
Qed.

Lemma in_cksum_sum l : Forall (in_u 8) l -> in_cksum l = 65535 - ones_sum (wsum l).
Proof.
  intros Hl. unfold in_cksum. rewrite add_words_run by (done || lia). rewrite Z.add_0_l. pose proof (ones_sum_range (wsum l)).
  rewrite (Z.land_ones _ 16) by lia. unfold Z.lnot. change (2 ^ 16) with 65536. symmetry.
  apply (Z.mod_unique _ _ (-1)); lia.
Qed.

(** ** Requests *)

Definition request_bytes (type id ck n t : Z) : list Z :=
  [type; 0] ++ le_bytes 2 ck ++ le_bytes 2 id ++ le_bytes 2 n ++ net32 t ++ replicate 8 0.

Definition a_request (type id : Z) (p : list Z) : Prop :=
  exists n t, Forall (in_u 8) p /\ p = request_bytes type id (in_cksum (request_bytes type id 0 n t)) n t.

Lemma request_bytes_range type id ck n t : in_u 8 type -> Forall (in_u 8) (request_bytes type id ck n t).
Proof.
  intros Ht. unfold request_bytes, net32. rewrite !Forall_app, Forall_reverse. split_and!; try apply le_bytes_range.
  - apply Forall_cons_2; [done|]. apply Forall_cons_2; [done|]. apply Forall_nil_2.
  - by apply Forall_replicate.
Qed.

Lemma length_request type id ck n t : length (request_bytes type id ck n t) = 20%nat.
Proof. done. Qed.

(** The checksum is right for the receiver. *)
Lemma request_checksum type id p : in_u 8 type -> a_request type id p -> PingPacket.in_cksum p 0 = 0.
Proof.
  intros Ht (n & t & Hp & ->). rewrite in_cksum_run; [|done|rewrite length_request; lia|lia].
  rewrite in_cksum_sum by by apply request_bytes_range. set (x := 65535 - ones_sum (wsum (request_bytes type id 0 n t))).
  assert (Hx : 0 <= x < 65536) by (unfold x; pose proof (ones_sum_range (wsum (request_bytes type id 0 n t))); lia).
  assert (E : wsum (request_bytes type id x n t) = wsum (request_bytes type id 0 n t) + x).
  { pose proof (le_value_bytes 2 x) as E. rewrite Z.mod_small in E by (cbn; lia). unfold request_bytes. cbn [le_bytes le_value] in E.
    cbn [le_bytes app wsum]. change (u8 0) with 0. change (u8 (Z.shiftr 0 8)) with 0. lia. }
  rewrite E, Z.add_0_l. pose proof (proj1 (wsum_bounds _ (request_bytes_range type id 0 n t Ht))) as Hw.
  unfold x. rewrite ones_sum_complement by done. done.
Qed.

Section Requests.
Context (type id : Z).

(** The buffer with everything that does not change. *)
Definition prepared (p : list Z) : Prop := exists ck n t rest,
  length ck = 2%nat /\ length n = 2%nat /\ length t = 4%nat
  /\ p = [type; 0] ++ ck ++ le_bytes 2 id ++ n ++ t ++ replicate 8 0 ++ rest.

Lemma memcpy_at off b p a b' d : p = a ++ b' ++ d -> length a = off -> length b = length b' -> memcpy off b p = Some (a ++ b ++ d).
Proof. intros -> <- E. by apply memcpy_app. Qed.

Lemma prepare_prepared p : (20 <= length p)%nat -> exists p', prepare type id p = Some p' /\ prepared p'.
Proof.
  intros Hp. do 20 (destruct p as [|? p]; [cbn in Hp; lia|]). unfold prepare.
  rewrite (memcpy_at 0 _ _ [] [z; z0; z1; z2] (z3 :: z4 :: z5 :: z6 :: z7 :: z8 :: z9 :: z10 :: z11 :: z12 :: z13 :: z14
    :: z15 :: z16 :: z17 :: z18 :: p)) by done. cbn [mbind option_bind].
  rewrite (memcpy_at 4 _ _ [type; 0; 0; 0] [z3; z4] (z5 :: z6 :: z7 :: z8 :: z9 :: z10 :: z11 :: z12 :: z13 :: z14
    :: z15 :: z16 :: z17 :: z18 :: p)) by done. cbn [mbind option_bind].
  rewrite (memcpy_at 8 _ _ ([type; 0; 0; 0] ++ le_bytes 2 id ++ [z5; z6]) [z7; z8; z9; z10; z11; z12; z13; z14; z15; z16; z17; z18] p) by done.
  eexists. split; [reflexivity|]. exists [0; 0], [z5; z6], [0; 0; 0; 0], p. done.
Qed.

Lemma request_run tv1 s : prepared (opacket s) -> exists p, request tv1 s = Some (set_request (u16 (seqno s + 1)) p s)
  /\ prepared p /\ load 0 20 p = Some (request_bytes type id
       (in_cksum (request_bytes type id 0 (u16 (seqno s + 1)) (ms_of_day tv1))) (u16 (seqno s + 1)) (ms_of_day tv1)).
Proof.
  intros (ck & n & t & rest & H1 & H2 & H3 & Hp). unfold request. rewrite Hp. set (n' := u16 (seqno s + 1)).
  set (z := replicate 8 0 ++ rest). set (i := le_bytes 2 id).
  rewrite (memcpy_at 6 _ _ ([type; 0] ++ ck ++ i) n (t ++ z)); [|by rewrite <- !app_assoc|by rewrite !length_app, H1|done].
  cbn [mbind option_bind].
  rewrite (memcpy_at 2 _ _ [type; 0] ck (i ++ le_bytes 2 n' ++ t ++ z)); [|by rewrite <- !app_assoc|done|done]. cbn [mbind option_bind].
  rewrite (memcpy_at 8 _ _ ([type; 0] ++ [0; 0] ++ i ++ le_bytes 2 n') t z); [|by rewrite <- !app_assoc|done|by rewrite H3].
  cbn [mbind option_bind]. set (m := net32 (ms_of_day tv1)).
  match goal with |- context [load 0 20 ?x ≫= _] => assert (load 0 20 x = Some (request_bytes type id 0 n' (ms_of_day tv1))) as -> by done end.
  cbn [mbind option_bind].
  rewrite (memcpy_at 2 _ _ [type; 0] [0; 0] (i ++ le_bytes 2 n' ++ m ++ z)); [|by rewrite <- !app_assoc|done|done].
  cbn [mbind option_bind]. eexists. split; [reflexivity|]. split; [|reflexivity].
  exists (le_bytes 2 (in_cksum (request_bytes type id 0 n' (ms_of_day tv1)))), (le_bytes 2 n'), m, rest. done.
Qed.
End Requests.

(** ** Memory *)

Definition tv_ok (t : timeval) : Prop := 0 <= tv_s t /\ 0 <= tv_us t < 1000000.

Lemma ms_of_day_range t : tv_ok t -> 0 <= ms_of_day t < MODULO.
Proof.
  intros [H1 H2]. unfold ms_of_day, MODULO. pose proof (Z.rem_bound_pos (tv_s t) 86400 ltac:(lia) ltac:(lia)).
  change (24 * 60 * 60) with 86400. rewrite Z.quot_div_nonneg by lia.
  pose proof (Z.div_pos (tv_us t) 1000 ltac:(lia) ltac:(lia)). pose proof (Z.div_lt_upper_bound (tv_us t) 1000 1000 ltac:(lia) ltac:(lia)). lia.
Qed.

Definition buffer_ok (p : list Z) : Prop := length p = PACKET_IN /\ Forall (in_u 8) p.

Lemma recvfrom_ok m p : Forall (in_u 8) m -> buffer_ok p -> buffer_ok (recvfrom m p).
Proof.
  intros Hm [Hl Hp]. unfold recvfrom. split; [|by apply Forall_app; split; [apply Forall_take|apply Forall_drop]].
  rewrite length_app, length_drop, length_take. lia.
Qed.

Lemma recvfrom_lookup m p i b : m !! i = Some b -> (i < PACKET_IN)%nat -> recvfrom m p !! i = Some b.
Proof.
  intros Hm Hi. unfold recvfrom. pose proof (lookup_lt_Some _ _ _ Hm). rewrite lookup_app_l by (rewrite length_take; lia).
  by rewrite lookup_take_lt.
Qed.

Lemma recvfrom_load m p off n v : load off n m = Some v -> (off + n <= PACKET_IN)%nat -> load off n (recvfrom m p) = Some v.
Proof.
  unfold load. destruct (Nat.leb_spec (off + n) (length m)) as [Hl|]; [|done]. intros [= <-] Hn. unfold recvfrom.
  set (g := take PACKET_IN m). assert (Hg : (off + n <= length g)%nat) by (unfold g; rewrite length_take; lia).
  rewrite (proj2 (Nat.leb_le _ _)) by (rewrite length_app; lia). f_equal. rewrite drop_app_le by lia.
  rewrite take_app_le by (rewrite length_drop; lia). unfold g. rewrite skipn_firstn_comm, take_take. f_equal. lia.
Qed.

Lemma load32_net_some off p : Forall (in_u 8) p -> (off + 4 <= length p)%nat -> exists v, load32_net off p = Some v /\ 0 <= v < 2 ^ 32.
Proof.
  intros Hb H. unfold load32_net. rewrite load_some by done. eexists. split; [reflexivity|].
  pose proof (le_value_range (reverse (take 4 (drop off p))) ltac:(by apply Forall_reverse, Forall_take, Forall_drop)) as Hr.
  rewrite length_reverse, length_take, length_drop in Hr. replace (Nat.min 4 (length p - off)) with 4%nat in Hr by lia. done.
Qed.

Lemma recvfrom_net32 m p off v : load32_net off m = Some v -> (off + 4 <= PACKET_IN)%nat -> load32_net off (recvfrom m p) = Some v.
Proof.
  unfold load32_net. intros H Hn. destruct (load off 4 m) as [l|] eqn:E; [|done].
  by rewrite (recvfrom_load _ _ _ _ _ E Hn).
Qed.

Lemma icmp_offset b : 0 <= Z.shiftl (Z.land b 15) 2 <= 60.
Proof. rewrite Z.shiftl_mul_pow2 by lia. pose proof (land_15 b). lia. Qed.

Lemma header_some p : buffer_ok p -> exists icp type id' seq, header_of p = Some (icp, type, id', seq) /\ (icp <= 60)%nat /\ 0 <= seq < 65536.
Proof.
  intros [Hl Hp]. unfold PACKET_IN in Hl. unfold header_of. destruct (lookup_lt_is_Some_2 p 0) as [b Hb]; [lia|]. rewrite Hb. cbn [mbind option_bind].
  pose proof (icmp_offset b). set (icp := Z.to_nat _). assert (Hi : (icp <= 60)%nat) by (unfold icp; lia).
  destruct (lookup_lt_is_Some_2 p icp) as [ty Hty]; [lia|]. rewrite Hty. cbn [mbind option_bind].
  destruct (load16_some (icp + 4) p Hp ltac:(lia)) as (x & -> & _). cbn [mbind option_bind].
  destruct (load16_some (icp + 6) p Hp ltac:(lia)) as (y & -> & Hy). cbn [mbind option_bind]. eauto 10.
Qed.

(** A header that the message itself has. *)
Lemma recvfrom_header m p h : header_of m = Some h -> header_of (recvfrom m p) = Some h.
Proof.
  unfold header_of. intros H. apply bind_Some in H as (b & Hb & H). rewrite (recvfrom_lookup _ p _ _ Hb) by (unfold PACKET_IN; lia).
  cbn [mbind option_bind]. pose proof (icmp_offset b). set (icp := Z.to_nat _) in *. assert (Hi : (icp <= 60)%nat) by (unfold icp; lia).
  apply bind_Some in H as (ty & Hty & H). rewrite (recvfrom_lookup _ p _ _ Hty) by (unfold PACKET_IN; lia). cbn [mbind option_bind].
  apply bind_Some in H as (x & Hx & H). apply bind_Some in H as (y & Hy & [= <-]). unfold load16 in *.
  destruct (load (icp + 4) 2 m) eqn:E1; [|done]. destruct (load (icp + 6) 2 m) eqn:E2; [|done].
  rewrite (recvfrom_load _ p _ _ _ E1), (recvfrom_load _ p _ _ _ E2) by (unfold PACKET_IN; lia). cbn in *. congruence.
Qed.

Lemma high_bit t : 0 <= t < 2 ^ 32 -> Z.land t 0x80000000 = 0 -> t < 2 ^ 31.
Proof.
  intros Ht H. destruct (Z.lt_ge_cases t (2 ^ 31)); [done|]. exfalso.
  assert (Hb : Z.testbit (Z.land t 0x80000000) 31 = true).
  { rewrite Z.land_spec. apply andb_true_iff. split; [|done]. rewrite Z.testbit_true by lia.
    replace (t / 2 ^ 31) with 1; [done|]. apply Z.div_unique with (t - 2 ^ 31); lia. }
  by rewrite H in Hb.
Qed.

(** ** What a reply does *)

(** A message in the buffer, in front of what was there. *)
Definition received (m : list Z) (s : clock) : clock := set_packet (recvfrom m (packet s)) s.

Definition counted (t : stamps) (s : clock) : step :=
  let diff := recvtime t - sendtime t in
  note_deltas (sendtime t) (histime t) (histime1 t) (recvtime t) diff (note_rtt diff s).

Definition stamps_ok (t : stamps) : Prop :=
  0 <= sendtime t < 2 ^ 31 /\ 0 <= histime t < 2 ^ 31 /\ 0 <= histime1 t < 2 ^ 31 /\ 0 <= recvtime t < 2 ^ 31.

(** A message is left alone, or it acknowledges a probe and then seems to come
    from the future, is counted, or ends the measurement. *)
Inductive replied (ok : stamps -> Prop) (s : clock) : step -> Prop :=
  | rp_other : replied ok s (Next s)
  | rp_early seq t : 0 <= seq <= seqno s -> ok t -> recvtime t < sendtime t -> replied ok s (Next (acknowledge seq s))
  | rp_count seq t : 0 <= seq <= seqno s -> ok t -> stamps_ok t -> sendtime t <= recvtime t ->
      replied ok s (counted t (acknowledge seq s))
  | rp_fail code s' : code = NONSTDTIME \/ code = -1 -> replied ok s (Return code s').

(** [stamps_of tv m] are the times of message [m] if it is complete and ([Some
    (Some t)]) a reply to us that has them. *)
Class ReplyLaws (reply : timeval -> clock -> option step) (stamps_of : timeval -> list Z -> option (option stamps)) : Prop :=
  reply_law : forall tv m s, tv_ok tv -> Forall (in_u 8) m -> buffer_ok (packet s) -> seqno0 s = 0 ->
    exists r, reply tv (received m s) = Some r
      /\ replied (fun t => forall x, stamps_of tv m = Some x -> x = Some t) (received m s) r.

(** ** ICMP timestamps *)

Definition icmp_stamps (id : Z) (tv : timeval) (m : list Z) : option (option stamps) :=
  '(icp, type, id', seq) ← header_of m;
  if (type =? ICMP_TIMESTAMPREPLY) && (id' =? id) then
    send ← load32_net (icp + 8) m;
    his ← load32_net (icp + 12) m;
    Some (Some (mkStamps send his his (ms_of_day tv)))
  else Some None.

Lemma acknowledge_packet seq s : packet (acknowledge seq s) = packet s.
Proof. unfold acknowledge. by destruct (_ <? _). Qed.

Lemma guard_true (a b c d : bool) : a && b && c && d = true -> a = true /\ b = true /\ c = true /\ d = true.
Proof. by destruct a, b, c, d. Qed.

#[export] Instance measure_laws id : ReplyLaws (measure_reply id) (icmp_stamps id).
Proof.
  intros tv m s Htv Hm Hp H0. pose proof (recvfrom_ok m (packet s) Hm Hp) as Hr. unfold measure_reply.
  change (packet (received m s)) with (recvfrom m (packet s)). set (p := recvfrom m (packet s)) in *.
  destruct (header_some p Hr) as (icp & type & id' & seq & Hh & Hi & Hseq). rewrite Hh. cbn [mbind option_bind].
  destruct (_ && _) eqn:Hg; [|eexists; split; [reflexivity|constructor]].
  apply guard_true in Hg as (G1 & G2 & G3 & G4). apply Z.leb_le in G3, G4.
  destruct Hr as [Hl Hb]. unfold PACKET_IN in Hl.
  rewrite acknowledge_packet. change (packet (received m s)) with p.
  destruct (load32_net_some (icp + 8) p Hb ltac:(lia)) as (send & Es & Rs). rewrite Es. cbn [mbind option_bind].
  destruct (load32_net_some (icp + 12) p Hb ltac:(lia)) as (his & Eh & Rh).
  pose proof (ms_of_day_range tv Htv) as Hms. unfold MODULO in Hms. set (t := mkStamps send his his (ms_of_day tv)).
  assert (Hok : forall x, icmp_stamps id tv m = Some x -> x = Some t).
  { intros x Hx. unfold icmp_stamps in Hx. apply bind_Some in Hx as ([[[i ty] j] q] & E & Hx).
    pose proof (recvfrom_header m (packet s) _ E) as E'. fold p in E'. rewrite Hh in E'. injection E' as <- <- <- <-.
    rewrite G1, G2 in Hx. cbn [andb] in Hx. apply bind_Some in Hx as (a & Ea & Hx). apply bind_Some in Hx as (h & Eh' & [= <-]).
    apply (recvfrom_net32 _ (packet s)) in Ea, Eh'; [|unfold PACKET_IN; lia..]. fold p in Ea, Eh'. unfold t. congruence. }
  destruct (Z.ltb_spec (ms_of_day tv - send) 0).
  - eexists. split; [reflexivity|]. apply (rp_early _ _ seq t); [lia|done|unfold t; cbn; lia].
  - change (packet (note_rtt _ ?y)) with (packet y). rewrite acknowledge_packet. change (packet (received m s)) with p. rewrite Eh. cbn [mbind option_bind].
    destruct (Z.eqb_spec (Z.land his 0x80000000) 0) as [E|]; cbn [negb]; (eexists; split; [reflexivity|]); [|apply rp_fail; auto].
    apply (rp_count _ _ seq t); [lia|done| |unfold t; cbn; lia]. pose proof (high_bit _ Rh E). unfold stamps_ok, t. cbn. lia.
Qed.

(** ** The IP timestamp option *)

Definition option_count (o2 : Z) : nat := Z.to_nat (Z.quot (o2 - 5) 8).

Definition option_stamps (ip_opt_len id : Z) (tv : timeval) (m : list Z) : option (option stamps) :=
  '(icp, type, id', seq) ← header_of m;
  o0 ← m !! 20%nat;
  if (type =? ICMP_ECHOREPLY) && (o0 =? IPOPT_TIMESTAMP) && (id' =? id) then
    o2 ← m !! 22%nat;
    r ← read_stamps ip_opt_len (option_count o2) 0 m (mkStamps 0 0 0 0);
    Some (match r with inl _ => None | inr t => Some t end)
  else Some None.

Lemma option_count_le o2 : in_u 8 o2 -> (option_count o2 <= 31)%nat.
Proof.
  unfold in_u, option_count. intros H. destruct (Z.lt_ge_cases o2 5).
  - assert (Z.quot (o2 - 5) 8 = 0) as ->; [|cbn; lia]. apply Z.quot_small_iff; lia.
  - rewrite Z.quot_div_nonneg by lia. pose proof (Z.div_lt_upper_bound (o2 - 5) 8 32 ltac:(lia) ltac:(lia)). lia.
Qed.

Lemma store_stamp_ok len i t r : 0 <= t < 2 ^ 31 -> stamps_ok r -> stamps_ok (store_stamp len i t r).
Proof.
  intros Ht (H1 & H2 & H3 & H4). unfold store_stamp.
  destruct (i =? 0)%nat, (i =? 1)%nat, (i =? 2)%nat, (i =? 3)%nat, (len =? 4 + 4 * 8); unfold stamps_ok; cbn; auto.
Qed.

Lemma read_stamps_some len p n : forall i r, buffer_ok p -> (i + n <= 31)%nat -> stamps_ok r ->
  exists x, read_stamps len n i p r = Some x /\ forall t, x = inr t -> stamps_ok t.
Proof.
  induction n as [|n IH]; intros i r Hp Hn Hr; cbn [read_stamps]; [exists (inr r); split; [done|by intros t [= <-]]|].
  destruct (load32_net_some (20 + 4 + i * 8 + 4) p (proj2 Hp)) as (t & -> & Rt); [destruct Hp as [-> _]; unfold PACKET_IN; lia|].
  cbn [mbind option_bind]. destruct (Z.eqb_spec (Z.land t 0x80000000) 0) as [E|]; cbn [negb]; [|by exists (inl tt)].
  apply IH; [done|lia|]. apply store_stamp_ok; [|done]. pose proof (high_bit _ Rt E). lia.
Qed.

Lemma recvfrom_stamps len m p n : forall i r x, read_stamps len n i m r = Some x -> (i + n <= 31)%nat ->
  read_stamps len n i (recvfrom m p) r = Some x.
Proof.
  induction n as [|n IH]; intros i r x H Hn; cbn [read_stamps] in *; [done|]. apply bind_Some in H as (t & Ht & H).
  rewrite (recvfrom_net32 _ p _ _ Ht) by (unfold PACKET_IN; lia). cbn [mbind option_bind].
  destruct (negb _); [done|]. apply IH; [done|lia].
Qed.

#[export] Instance measure_opt_laws len id : ReplyLaws (measure_opt_reply len id) (option_stamps len id).
Proof.
  intros tv m s Htv Hm Hp H0. pose proof (recvfrom_ok m (packet s) Hm Hp) as Hr. unfold measure_opt_reply.
  change (packet (received m s)) with (recvfrom m (packet s)). set (p := recvfrom m (packet s)) in *.
  destruct (header_some p Hr) as (icp & type & id' & seq & Hh & Hi & Hseq). rewrite Hh. cbn [mbind option_bind].
  destruct Hr as [Hl Hb] eqn:Er. clear Er. unfold PACKET_IN in Hl.
  destruct (lookup_lt_is_Some_2 p 20) as [o0 E0]; [lia|]. rewrite E0. cbn [mbind option_bind].
  destruct (_ && _) eqn:Hg; [|eexists; split; [reflexivity|constructor]].
  apply guard_true in Hg as (G & G2 & G3 & G4). apply andb_true_iff in G as [G1 G0]. apply Z.leb_le in G3, G4.
  rewrite acknowledge_packet. change (packet (received m s)) with p.
  destruct (lookup_lt_is_Some_2 p 23) as [o3 E3]; [lia|]. rewrite E3. cbn [mbind option_bind].
  destruct (negb _); [eexists; split; [reflexivity|apply rp_fail; auto]|].
  destruct (lookup_lt_is_Some_2 p 22) as [o2 E2]; [lia|]. rewrite E2. cbn [mbind option_bind].
  pose proof (option_count_le o2 (proj1 (Forall_lookup _ _) Hb _ _ E2)) as Hn.
  destruct (read_stamps_some len p (option_count o2) 0 (mkStamps 0 0 0 0) Hr ltac:(lia)) as (x & Ex & Hx); [by unfold stamps_ok|].
  fold (option_count o2). rewrite Ex. cbn [mbind option_bind].
  destruct x as [[]|t]; [eexists; split; [reflexivity|apply rp_fail; auto]|].
  destruct (_ =? 0); [eexists; split; [reflexivity|apply rp_fail; auto]|].
  assert (Hok : forall x, option_stamps len id tv m = Some x -> x = Some t).
  { intros x Hy. unfold option_stamps in Hy. apply bind_Some in Hy as ([[[i ty] j] q] & E & Hy).
    pose proof (recvfrom_header m (packet s) _ E) as E'. fold p in E'. rewrite Hh in E'. injection E' as <- <- <- <-.
    apply bind_Some in Hy as (b & Eb & Hy). pose proof (recvfrom_lookup _ (packet s) _ _ Eb ltac:(unfold PACKET_IN; lia)) as Eb'.
    fold p in Eb'. rewrite E0 in Eb'. injection Eb' as <-. rewrite G1, G0, G2 in Hy. cbn [andb] in Hy.
    apply bind_Some in Hy as (c & Ec & Hy). pose proof (recvfrom_lookup _ (packet s) _ _ Ec ltac:(unfold PACKET_IN; lia)) as Ec'.
    fold p in Ec'. rewrite E2 in Ec'. injection Ec' as <-. apply bind_Some in Hy as (r & Ey & [= <-]).
    pose proof (recvfrom_stamps _ _ (packet s) _ _ _ _ Ey ltac:(lia)) as Ez. fold p in Ez. rewrite Ex in Ez. by injection Ez as <-. }
  destruct (Z.ltb_spec (recvtime t - sendtime t) 0); (eexists; split; [reflexivity|]).
  - apply (rp_early _ _ seq t); [lia|done|lia].
  - apply (rp_count _ _ seq t); [lia|done|by apply Hx|lia].
Qed.

(** ** Invariants of the loop *)

Definition sends (l : list effect) : nat := length (List.filter (fun e => match e with Sendto _ => true | Select _ _ => false end) l).

Lemma sends_app l l' : sends (l ++ l') = (sends l + sends l')%nat.
Proof. unfold sends. by rewrite List.filter_app, length_app. Qed.

Section Rule.
Context (type id : Z) (Htype : in_u 8 type).
Context (reply : timeval -> clock -> option step) (stamps_of : timeval -> list Z -> option (option stamps)).
Context {L : ReplyLaws reply stamps_of}.

Definition clock_ok (s : clock) : Prop :=
  buffer_ok (packet s) /\ prepared type id (opacket s) /\ 1 <= rtt s < 2 ^ 31 /\ 0 <= rtt_sigma s < 2 ^ 31 /\ seqno0 s = 0.

(** Requests have a right checksum, and the waits last a millisecond at
    least. *)
Definition effect_ok (e : effect) : Prop :=
  match e with
  | Sendto p => a_request type id p
  | Select sec usec => 0 <= sec /\ 0 <= usec < 1000000 /\ 1000 <= sec * 1000000 + usec
  end.

Lemma timeout_ok s : clock_ok s -> effect_ok (timeout s).
Proof.
  intros (_ & _ & H1 & H2 & _). unfold timeout, effect_ok. rewrite Z.quot_div_nonneg by lia.
  set (t := rtt s + rtt_sigma s). assert (Ht : 1 <= t) by (unfold t; lia).
  pose proof (Z.div_mod t 1000 ltac:(lia)). pose proof (Z.mod_pos_bound t 1000 ltac:(lia)).
  pose proof (Z.div_pos t 1000 ltac:(lia) ltac:(lia)). lia.
Qed.

Lemma acknowledge_ok seq s : clock_ok s -> clock_ok (acknowledge seq s).
Proof. unfold acknowledge. by destruct (_ <? _). Qed.

Lemma received_clock m s : Forall (in_u 8) m -> clock_ok s -> clock_ok (received m s).
Proof. intros Hm (H & H'). split; [by apply recvfrom_ok|done]. Qed.

(** [rtt] and [rtt_sigma] keep their range, and [rtt] stays positive unless
    the measurement ends. *)
Lemma note_rtt_range diff s : 1 <= rtt s < 2 ^ 31 -> 0 <= rtt_sigma s < 2 ^ 31 -> 0 <= diff < 2 ^ 31 ->
  0 <= rtt (note_rtt diff s) < 2 ^ 31 /\ 0 <= rtt_sigma (note_rtt diff s) < 2 ^ 31 /\ (RANGE <= diff -> 1 <= rtt (note_rtt diff s)).
Proof.
  intros H1 H2 H3. unfold note_rtt. cbn. rewrite Z.quot_div_nonneg by lia. set (r := (rtt s * 3 + diff) / 4).
  assert (Hr : 0 <= r < 2 ^ 31) by (unfold r; split; [apply Z.div_pos; lia|apply Z.div_lt_upper_bound; lia]).
  rewrite wraps_id by (unfold in_s; lia). rewrite Z.quot_div_nonneg by lia. split; [done|]. split.
  - split; [apply Z.div_pos; lia|apply Z.div_lt_upper_bound; lia].
  - unfold RANGE. intros. unfold r. apply Z.div_le_lower_bound; lia.
Qed.

Lemma counted_ok t s s' : clock_ok s -> stamps_ok t -> sendtime t <= recvtime t -> counted t s = Next s' ->
  clock_ok s' /\ acked s' = acked s /\ seqno s' = seqno s /\ msgcount s' = msgcount s + 1.
Proof.
  intros (H1 & H2 & H3 & H4 & H5) (T1 & _ & _ & T4) Hle. unfold counted, note_deltas.
  destruct (note_rtt_range (recvtime t - sendtime t) s H3 H4 ltac:(lia)) as (R1 & R2 & R3). set (s1 := note_rtt _ s) in *.
  destruct (Z.ltb_spec (recvtime t - sendtime t) RANGE); [by destruct (_ <? min_rtt _)|]. specialize (R3 ltac:(lia)).
  destruct (_ <? min_rtt _); intros [= <-]; (split; [|done]); (split; [done|]); (split; [done|]); cbn [rtt rtt_sigma seqno0 set_mins set_best]; (split; [split; [exact R3|apply R1]|]); done.
Qed.

Lemma replied_ok ok m s s' : Forall (in_u 8) m -> clock_ok s -> replied ok (received m s) (Next s') -> clock_ok s'.
Proof.
  intros Hm Hs H. pose proof (received_clock m s Hm Hs) as Hr. inversion H as [E|seq t _ _ _ E|seq t _ _ Ht Hle E|]; subst.
  - done.
  - by apply acknowledge_ok.
  - by apply (counted_ok t (acknowledge seq (received m s)) s' (acknowledge_ok _ _ Hr) Ht Hle).
Qed.

Context (I : nat -> clock -> Prop) (Post : Z -> clock -> Prop) (fits : timeval -> list Z -> Prop).

Definition arrival_ok (a : arrival) : Prop :=
  tv_ok (fst a) /\ match snd a with Some m => Forall (in_u 8) m /\ fits (fst a) m | None => True end.

Definition round_ok (r : round) : Prop := tv_ok (sent_at r) /\ Forall arrival_ok (arrivals r).

Definition going (s : clock) : Prop := msgcount s < MSGS /\ seqno s - acked s <= TRIALS.

Definition reached (n : nat) (r : step) : Prop := match r with Next s => I n s /\ clock_ok s | Return c s => Post c s end.

Hypothesis Hreply : forall n tv m s r, I n s -> clock_ok s -> fits tv m ->
  replied (fun t => forall x, stamps_of tv m = Some x -> x = Some t) (received m s) r ->
  match r with Next s' => I n s' | Return c s' => Post c s' end.
Hypothesis Hrequest : forall n s p, I n s -> clock_ok s -> going s -> I (S n) (set_request (u16 (seqno s + 1)) p s).
Hypothesis Hgood : forall n s, I n s -> clock_ok s -> MSGS <= msgcount s -> Post GOOD (good_exit s).
Hypothesis Hfail : forall c s, c = -1 \/ c = UNREACHABLE \/ c = HOSTDOWN -> Post c s.

Lemma wait_rule n l : forall s, I n s -> clock_ok s -> Forall arrival_ok l ->
  exists e r, wait_replies reply l s = Some (e, r) /\ Forall effect_ok e /\ sends e = 0%nat /\ reached n r.
Proof.
  induction l as [|[tv [m|]] l IH]; intros s HI Hs Hl; cbn [wait_replies].
  - exists [timeout s], (Next s). split_and!; [done|by constructor; [apply timeout_ok|]|done|done].
  - apply Forall_cons in Hl as [[Htv [Hm Hf]] Hl]. cbn in Htv, Hm, Hf.
    destruct (reply_law tv m s Htv Hm (proj1 Hs) (proj2 (proj2 (proj2 (proj2 Hs))))) as (r & E & Hr).
    change (set_packet (recvfrom m (packet s)) s) with (received m s). rewrite E. cbn [mbind option_bind].
    pose proof (Hreply n tv m s r HI Hs Hf Hr) as HP. destruct r as [s'|c s'].
    + destruct (IH s' HP (replied_ok _ m s s' Hm Hs Hr) Hl) as (e & r & -> & He & Hn & Hx). cbn [mbind option_bind].
      exists (timeout s :: e), r. split_and!; [done|by constructor; [apply timeout_ok|]|done|done].
    + exists [timeout s], (Return c s'). split_and!; [done|by constructor; [apply timeout_ok|]|done|done].
  - exists [timeout s], (Return (-1) s). split_and!; [done|by constructor; [apply timeout_ok|]|done|]. apply Hfail. auto.
Qed.

Lemma request_step tv s : clock_ok s -> exists p, request tv s = Some (set_request (u16 (seqno s + 1)) p s)
  /\ clock_ok (set_request (u16 (seqno s + 1)) p s) /\ exists q, load 0 20 p = Some q /\ a_request type id q.
Proof.
  intros (H1 & H2 & H3). destruct (request_run type id tv s H2) as (p & E & Hp & Hq). exists p. split; [done|]. split; [done|].
  eexists. split; [exact Hq|]. eexists _, _. split; [by apply request_bytes_range|reflexivity].
Qed.

Lemma loop_rule rounds : forall n s, I n s -> clock_ok s -> Forall round_ok rounds ->
  exists e r, measure_loop reply rounds s = Some (e, r) /\ Forall effect_ok e
    /\ (sends e = 0%nat \/ exists s1, I (n + sends e - 1) s1 /\ going s1)
    /\ reached (n + length rounds) r /\ (forall s', r = Next s' -> going s').
Proof.
  induction rounds as [|r rounds IH]; intros n s HI Hs Hl.
  - cbn [measure_loop]. rewrite Nat.add_0_r. destruct (Z.ltb_spec (msgcount s) MSGS); cbn [negb].
    + destruct (Z.gtb_spec (seqno s - acked s) TRIALS); eexists [], _; (split; [reflexivity|]); (split; [done|]); (split; [by left|]).
      * split; [apply Hfail; auto|done].
      * split; [done|]. by intros s' [= <-].
    + eexists [], _. split; [reflexivity|]. split; [done|]. split; [by left|]. split; [by apply (Hgood n)|done].
  - cbn [measure_loop]. destruct (Z.ltb_spec (msgcount s) MSGS).
    2: { eexists [], _. split; [reflexivity|]. split; [done|]. split; [by left|]. split; [by apply (Hgood n)|done]. }
    destruct (Z.gtb_spec (seqno s - acked s) TRIALS).
    { eexists [], _. split; [reflexivity|]. split; [done|]. split; [by left|]. split; [apply Hfail; auto|done]. }
    assert (Hgo : going s) by done. apply Forall_cons in Hl as [[Ht Ha] Hl].
    destruct (request_step (sent_at r) s Hs) as (p & -> & Hs1 & q & Eq & Hq). cbn [mbind option_bind].
    change (opacket (set_request _ p s)) with p. rewrite Eq. cbn [mbind option_bind].
    pose proof (Hrequest n s p HI Hs Hgo) as HI1. set (s1 := set_request _ p s) in *.
    destruct (sent_ok r); cbn [negb].
    2: { eexists _, _. split; [reflexivity|]. split; [by constructor|]. split; [right; exists s; cbn; by rewrite Nat.add_sub|].
         split; [apply Hfail; auto|done]. }
    destruct (wait_rule (S n) (arrivals r) s1 HI1 Hs1 Ha) as (e & x & -> & He & Hn & Hx). cbn [mbind option_bind].
    destruct x as [s2|c s2].
    + destruct Hx as [HI2 Hs2]. destruct (IH (S n) s2 HI2 Hs2 Hl) as (e' & y & -> & He' & Hs' & Hy & Hz). cbn [mbind option_bind].
      exists (Sendto q :: e ++ e'), y. split; [done|]. split; [constructor; [done|by apply Forall_app]|].
      change (sends (Sendto q :: e ++ e')) with (S (sends (e ++ e'))). rewrite sends_app, Hn. split.
      * right. destruct Hs' as [->|(s3 & H3 & H4)]; [exists s; by replace (n + S (0 + 0) - 1)%nat with n by lia|].
        exists s3. by replace (n + S (0 + sends e') - 1)%nat with (S n + sends e' - 1)%nat by lia.
      * cbn [length]. by replace (n + S (length rounds))%nat with (S n + length rounds)%nat by lia.
    + eexists _, _. split; [reflexivity|]. split; [by constructor|]. change (sends (Sendto q :: e)) with (S (sends e)). rewrite Hn.
      split; [right; exists s; by replace (n + 1 - 1)%nat with n by lia|]. split; [done|done].
Qed.

Definition initial (s : clock) : Prop :=
  seqno s = 0 /\ acked s = 0 /\ msgcount s = 0 /\ min1 s = 0x7fffffff /\ min2 s = 0x7fffffff /\ min_rtt s = 0x7fffffff.

Hypothesis Hinitial : forall s, initial s -> I 0 s.

Lemma empty_queue_run q : Forall (fun x => forall m, x = Some m -> Forall (in_u 8) m) q -> forall s, buffer_ok (packet s) ->
  match empty_queue q s with Next s' => exists p, s' = set_packet p s /\ buffer_ok p | Return c _ => c = -1 end.
Proof.
  induction 1 as [|x q Hx _ IH]; intros s Hs; cbn [empty_queue]; [exists (packet s); by destruct s|]. destruct x as [m|]; [|done].
  specialize (IH (set_packet (recvfrom m (packet s)) s) ltac:(by apply recvfrom_ok; [apply Hx|])).
  destruct (empty_queue q _); [|done]. destruct IH as (p & -> & Hp). by exists p.
Qed.

(** The state before a measurement. *)
Definition measurable (q : list (option (list Z))) (s : clock) : Prop :=
  Forall (fun x => forall m, x = Some m -> Forall (in_u 8) m) q /\ buffer_ok (packet s) /\ (20 <= length (opacket s))%nat
  /\ 1 <= rtt s < 2 ^ 31 /\ 0 <= rtt_sigma s < 2 ^ 31.

Lemma measure_rule q rounds s : measurable q s -> Forall round_ok rounds ->
  exists e r, measure_with type id reply q rounds s = Some (e, r) /\ Forall effect_ok e
    /\ (sends e = 0%nat \/ exists s1, I (sends e - 1) s1 /\ going s1)
    /\ reached (length rounds) r /\ (forall s', r = Next s' -> going s').
Proof.
  intros (Hq & Hp & Ho & Hr & Hs) Hl. unfold measure_with. pose proof (empty_queue_run q Hq (set_start s) Hp) as He.
  destruct (empty_queue q (set_start s)) as [s1|c s1].
  - destruct He as (p & -> & Hb). change (opacket _) with (opacket s). destruct (prepare_prepared type id (opacket s) Ho) as (o & -> & Hprep).
    cbn [mbind option_bind]. apply (loop_rule rounds 0); [|done|done]. by apply Hinitial.
  - exists [], (Return c s1). split_and!; [done|done|by left| |done]. apply Hfail. auto.
Qed.
End Rule.
