(* ===== verification/ClockdiffTheorems.v ===== *)
(** * The properties of clockdiff

    The clock of the other host is ours plus [D] milliseconds; a measurement
    that succeeds finds [D] up to half of the shortest round trip. *)

From Stdlib Require Import ZArith Lia String.
From stdpp Require Import base numbers option list.
From S2P Require Import Prelude Ping PingPacket PingFour Clockdiff ClockdiffSpec.

Local Open Scope Z_scope.
Local Abbreviation length := List.length.

(** ** Both kinds of measurement *)

(** By ICMP timestamps, or by an IP option of the given length. *)
Definition measurement (opt : option Z) (id : Z) :=
  match opt with None => measure id | Some len => measure_opt len id end.

Definition request_type (opt : option Z) : Z := match opt with None => ICMP_TIMESTAMP | Some _ => ICMP_ECHO end.

Definition times (opt : option Z) (id : Z) : timeval -> list Z -> option (option stamps) :=
  match opt with None => icmp_stamps id | Some len => option_stamps len id end.

(** The rule for invariants, for either. *)
Lemma measurement_rule opt id (I : nat -> clock -> Prop) (Post : Z -> clock -> Prop) fits :
  (forall n tv m s r, I n s -> clock_ok (request_type opt) id s -> fits tv m ->
     replied (fun t => forall x, times opt id tv m = Some x -> x = Some t) (received m s) r ->
     match r with Next s' => I n s' | Return c s' => Post c s' end) ->
  (forall n s p, I n s -> going s -> I (S n) (set_request (u16 (seqno s + 1)) p s)) ->
  (forall n s, I n s -> MSGS <= msgcount s -> Post GOOD (good_exit s)) ->
  (forall c s, c = -1 \/ c = UNREACHABLE \/ c = HOSTDOWN -> Post c s) ->
  (forall s, initial s -> I 0%nat s) ->
  forall q rounds s, measurable q s -> Forall (round_ok fits) rounds ->
  exists e r, measurement opt id q rounds s = Some (e, r) /\ Forall (effect_ok (request_type opt) id) e
    /\ (sends e = 0%nat \/ exists s1, I (sends e - 1)%nat s1 /\ going s1)
    /\ reached (request_type opt) id I Post (length rounds) r /\ (forall s', r = Next s' -> going s').
Proof.
  intros H1 H2 H3 H4 H5 q rounds s Hq Hl. destruct opt as [len|].
  - apply (measure_rule ICMP_ECHO id ltac:(done) (measure_opt_reply len id) (option_stamps len id) I Post fits); eauto.
  - apply (measure_rule ICMP_TIMESTAMP id ltac:(done) (measure_reply id) (icmp_stamps id) I Post fits); eauto.
Qed.

(** ** Accuracy *)

Lemma day_exact x d : - MODULO < x < MODULO -> BIASN <= d <= BIASP -> x mod MODULO = d mod MODULO -> wrap_day x = d.
Proof.
  unfold MODULO, BIASN, BIASP, wrap_day. intros Hx Hd E.
  pose proof (Z.div_mod x 86400000 ltac:(lia)). pose proof (Z.div_mod d 86400000 ltac:(lia)).
  assert (Ek : x = d + 86400000 * (x / 86400000 - d / 86400000)) by lia. set (k := x / 86400000 - d / 86400000) in Ek. clearbody k.
  unfold BIASN, BIASP, MODULO. destruct (Z.ltb_spec x (-43200000)); [lia|]. destruct (Z.gtb_spec x 43199999); lia.
Qed.

(** The times of a reply that a host with a clock [D] ahead of ours sent: it
    received the request and answered between our two times. *)
Definition honest_stamps (D : Z) (t : stamps) : Prop :=
  recvtime t < sendtime t \/ exists T T1,
    0 <= sendtime t /\ sendtime t <= T <= T1 /\ T1 <= recvtime t < MODULO
    /\ histime t = (T + D) mod MODULO /\ histime1 t = (T1 + D) mod MODULO
    /\ BIASN <= T - sendtime t + D <= BIASP /\ BIASN <= recvtime t - T1 - D <= BIASP.

(** A complete message, honest if it answers us. *)
Definition honest (D : Z) (times : timeval -> list Z -> option (option stamps)) (tv : timeval) (m : list Z) : Prop :=
  exists x, times tv m = Some x /\ forall t, x = Some t -> honest_stamps D t.

(** The two ways of an honest reply. *)
Lemma honest_deltas D t : honest_stamps D t -> sendtime t <= recvtime t -> exists f b,
  0 <= f /\ 0 <= b /\ f + b <= recvtime t - sendtime t /\ recvtime t - sendtime t < MODULO
  /\ BIASN <= f + D <= BIASP /\ BIASN <= b - D <= BIASP
  /\ wrap_day (histime t - sendtime t) = f + D /\ wrap_day (recvtime t - histime1 t) = b - D.
Proof.
  intros [H|(T & T1 & H0 & H1 & H2 & Eh & Eh1 & B1 & B2)] Hle; [lia|]. exists (T - sendtime t), (recvtime t - T1).
  assert (HM : 0 < MODULO) by done.
  pose proof (Z.mod_pos_bound (T + D) MODULO HM). pose proof (Z.mod_pos_bound (T1 + D) MODULO HM).
  split_and!; try lia.
  - apply day_exact; [lia|lia|]. rewrite Eh, Zminus_mod_idemp_l. f_equal. lia.
  - apply day_exact; [lia|lia|]. rewrite Eh1, Zminus_mod_idemp_r. f_equal. lia.
Qed.

Definition near (D x r : Z) : Prop := 2 * Z.abs (x - D) <= r + 1.

(** Where the middle of two measured ways lies. *)
Lemma half_near D a b r : 0 <= r < MODULO -> D <= a <= D + r -> - D <= b <= - D + r -> -2 * MODULO <= D <= 2 * MODULO ->
  near D (s32 (Z.quot (a - b) 2 + PROCESSING_TIME)) r.
Proof.
  unfold near, PROCESSING_TIME, MODULO. intros Hr Ha Hb HD. pose proof (Z.quot_rem' (a - b) 2).
  assert (- 1 <= Z.rem (a - b) 2 <= 1) by (pose proof (Z.rem_bound_abs (a - b) 2 ltac:(lia)); lia).
  rewrite wraps_id by (unfold in_s; lia). lia.
Qed.

Definition unknown (s : clock) : Prop := min1 s = 0x7fffffff /\ min2 s = 0x7fffffff /\ min_rtt s = 0x7fffffff.

Definition known (D : Z) (s : clock) : Prop :=
  0 <= min_rtt s < MODULO /\ D <= min1 s <= D + min_rtt s /\ - D <= min2 s <= - D + min_rtt s
  /\ near D (measure_delta1 s) (min_rtt s) /\ -2 * MODULO <= D <= 2 * MODULO.

(** The best of the replies counted so far, if there is one. *)
Definition best_known (D : Z) (s : clock) : Prop := msgcount s = 0 /\ unknown s \/ 0 < msgcount s /\ known D s.

Definition accurate (D : Z) (s : clock) : Prop :=
  0 <= min_rtt s < MODULO /\ near D (measure_delta s) (min_rtt s) /\ near D (measure_delta1 s) (min_rtt s).

(** One more honest way there and back. *)
Lemma sample_near D f b s : unknown s \/ known D s ->
  0 <= f -> 0 <= b -> f + b < MODULO -> BIASN <= f + D <= BIASP -> BIASN <= b - D <= BIASP ->
  let s1 := set_mins (if f + D <? min1 s then f + D else min1 s) (if b - D <? min2 s then b - D else min2 s) s in
  let s2 := if f + D + (b - D) <? min_rtt s1
            then set_best (f + D + (b - D)) (s32 (Z.quot (f + D - (b - D)) 2 + PROCESSING_TIME)) s1 else s1 in
  known D s2 /\ min_rtt s2 <= f + b /\ msgcount s2 = msgcount s.
Proof.
  intros Hs Hf Hb Hfb R1 R2 s1 s2. unfold MODULO, BIASN, BIASP in *.
  assert (Hn : near D (s32 (Z.quot (f + D - (b - D)) 2 + PROCESSING_TIME)) (f + D + (b - D)))
    by (apply half_near; unfold MODULO; lia).
  change (min_rtt s1) with (min_rtt s) in s2. unfold s2, known. destruct (Z.ltb_spec (f + D + (b - D)) (min_rtt s)); unfold s1; cbn;
    destruct (Z.ltb_spec (f + D) (min1 s)), (Z.ltb_spec (b - D) (min2 s));
    destruct Hs as [(U1 & U2 & U3)|(K1 & K2 & K3 & K4 & K5)]; unfold MODULO in *; try (exfalso; lia);
    split_and!; try lia; done.
Qed.

Lemma counted_near D t s : best_known D s -> honest_stamps D t -> sendtime t <= recvtime t ->
  match counted t s with Next s' => best_known D s' | Return _ s' => accurate D s' end.
Proof.
  intros Hs Ht Hle. destruct (honest_deltas D t Ht Hle) as (f & b & F & B & Hfb & Hd & R1 & R2 & E1 & E2).
  unfold counted, note_deltas. rewrite E1, E2. set (s0 := note_rtt _ s).
  assert (H0 : unknown s0 \/ known D s0) by (destruct Hs as [[_ H]|[_ H]]; [by left|by right]).
  destruct (sample_near D f b s0 H0 F B ltac:(lia) R1 R2) as (K & Hm & Hc). cbn zeta in K, Hm, Hc.
  destruct (_ <? min_rtt _); cbn zeta.
  all: destruct (Z.ltb_spec (recvtime t - sendtime t) RANGE) as [Hz|].
  all: try (right; split; [rewrite Hc; cbn; destruct Hs; lia|done]).
  all: destruct K as (K1 & K2 & K3 & K4 & K5); unfold RANGE in Hz; split; [done|split; [|done]].
  all: apply half_near; cbn in *; lia.
Qed.

(** C14: A measurement that succeeds is accurate.  If every message is complete
    and every reply comes from a host whose clock is [D] milliseconds ahead of
    ours (less than twelve hours, with the way), both differences reported,
    by ICMP timestamps or by IP options, are [D] up to half of the shortest
    round trip, rounded up; also over midnight. *)
Theorem clockdiff_accurate D opt id q rounds s e s' : measurable q s -> Forall (round_ok (honest D (times opt id))) rounds ->
  measurement opt id q rounds s = Some (e, Return GOOD s') ->
  0 <= min_rtt s' < MODULO
  /\ 2 * Z.abs (measure_delta s' - D) <= min_rtt s' + 1 /\ 2 * Z.abs (measure_delta1 s' - D) <= min_rtt s' + 1.
Proof.
  intros Hs Hl E.
  destruct (measurement_rule opt id (fun _ => best_known D) (fun c s => c = GOOD -> accurate D s) (honest D (times opt id)))
    with (q := q) (rounds := rounds) (s := s) as (e1 & r & E1 & _ & _ & Hr & _); [| | | | |done|done|].
  - intros _ tv m s1 r H1 _ (x & Hx & Hh) Hr. inversion Hr as [|seq t _ Hok Ht|seq t _ Hok _ Ht|c s2 Hc]; subst.
    + exact H1.
    + unfold acknowledge. by destruct (_ <? _).
    + assert (H2 : best_known D (acknowledge seq (received m s1))) by (unfold acknowledge; by destruct (_ <? _)).
      pose proof (counted_near D t _ H2 (Hh t (Hok x Hx)) Ht) as HC. by destruct (counted t _).
    + intros ->. destruct Hc; discriminate.
  - intros _ s1 p H1 _. exact H1.
  - intros _ s1 H1 Hm _. destruct H1 as [[H1 _]|[_ (K1 & K2 & K3 & K4 & K5)]]; [unfold MSGS in Hm; lia|].
    split; [done|split; [|done]]. by apply half_near.
  - intros c s1 Hc ->. destruct Hc as [|[|]]; discriminate.
  - intros s1 (_ & _ & H1 & H2 & H3 & H4). by left.
  - rewrite E in E1. injection E1 as <- <-. by apply Hr.
Qed.

(** ** The end *)

(** A reply is read from the whole buffer, so behind the end of a message that
    was cut short it has the bytes of the messages before.  What is read at each
    arrival depends on nothing but the arrivals. *)
Fixpoint arrivals_read (p : list Z) (l : list arrival) : list arrival * list Z :=
  match l with
  | [] => ([], p)
  | (tv, None) :: l' => let '(r, p') := arrivals_read p l' in ((tv, None) :: r, p')
  | (tv, Some m) :: l' => let '(r, p') := arrivals_read (recvfrom m p) l' in ((tv, Some (recvfrom m p)) :: r, p')
  end.

Fixpoint rounds_read (p : list Z) (rounds : list round) : list round :=
  match rounds with
  | [] => []
  | r :: rounds' => let '(l, p') := arrivals_read p (arrivals r) in mkRound (sent_at r) (sent_ok r) l :: rounds_read p' rounds'
  end.

(** The buffer after the queue was emptied. *)
Definition queue_read (q : list (option (list Z))) (p : list Z) : list Z :=
  foldl (fun p x => match x with Some m => recvfrom m p | None => p end) p q.

(** A reply to us, as it is read, that did not arrive before it was sent. *)
Definition timely (times : timeval -> list Z -> option (option stamps)) (tv : timeval) (p : list Z) : Prop :=
  forall t, times tv p = Some (Some t) -> sendtime t <= recvtime t.

Lemma recvfrom_read m p : length p = PACKET_IN -> recvfrom (recvfrom m p) p = recvfrom m p.
Proof.
  intros Hp. assert (L : length (recvfrom m p) = PACKET_IN) by (unfold recvfrom; rewrite length_app, length_drop, length_take; lia).
  unfold recvfrom at 1. rewrite (take_ge (recvfrom m p)) by lia. rewrite L, drop_ge by lia. apply app_nil_r.
Qed.

Section Read.
Context (reply : timeval -> clock -> option step).
Context (Hkeep : forall tv s s', reply tv s = Some (Next s') -> packet s' = packet s).

Lemma length_recvfrom m p : length p = PACKET_IN -> length (recvfrom m p) = PACKET_IN.
Proof. intros Hp. unfold recvfrom. rewrite length_app, length_drop, length_take. lia. Qed.

(** Nothing changes when the messages are replaced by what is read. *)
Lemma wait_read l : forall s, length (packet s) = PACKET_IN ->
  wait_replies reply (arrivals_read (packet s) l).1 s = wait_replies reply l s
  /\ (forall e s', wait_replies reply l s = Some (e, Next s') -> packet s' = (arrivals_read (packet s) l).2)
  /\ length (arrivals_read (packet s) l).2 = PACKET_IN.
Proof.
  induction l as [|[tv [m|]] l IH]; intros s Hs; cbn [arrivals_read].
  - split_and!; [done| |done]. by intros e s' [= _ <-].
  - pose proof (length_recvfrom m _ Hs) as Hm. set (s1 := set_packet (recvfrom m (packet s)) s).
    assert (L : length (arrivals_read (recvfrom m (packet s)) l).2 = PACKET_IN) by apply (IH s1 Hm).
    destruct (arrivals_read (recvfrom m (packet s)) l) as [r p'] eqn:Er. cbn [fst snd] in *. cbn [wait_replies].
    rewrite recvfrom_read by done. fold s1. destruct (reply tv s1) as [[s2|c s2]|] eqn:E; cbn [mbind option_bind]; [|by split_and!..].
    pose proof (Hkeep _ _ _ E) as K. destruct (IH s2) as (I1 & I2 & _); [by rewrite K|].
    rewrite K in I1, I2. change (packet s1) with (recvfrom m (packet s)) in I1, I2. rewrite Er in I1, I2. cbn [fst snd] in *.
    rewrite I1. split_and!; [done| |done]. intros e s' H. apply bind_Some in H as ([e' x] & Ex & [= _ ->]). by apply (I2 e').
  - destruct (IH s Hs) as (_ & _ & L). destruct (arrivals_read (packet s) l) as [r p'] eqn:Er. by split_and!.
Qed.

Lemma loop_read rounds : forall s, length (packet s) = PACKET_IN ->
  measure_loop reply (rounds_read (packet s) rounds) s = measure_loop reply rounds s.
Proof.
  induction rounds as [|r rounds IH]; intros s Hs; [done|]. cbn [rounds_read].
  pose proof (wait_read (arrivals r)) as HW. destruct (arrivals_read (packet s) (arrivals r)) as [l p'] eqn:Er. cbn [measure_loop sent_at sent_ok].
  destruct (msgcount s <? MSGS); [|done]. destruct (_ >? TRIALS); [done|].
  destruct (request (sent_at r) s) as [s1|] eqn:E; cbn [mbind option_bind]; [|done].
  assert (K : packet s1 = packet s).
  { revert E. unfold request. intros E. repeat (apply bind_Some in E as (? & _ & E)). by injection E as <-. }
  destruct (load 0 20 (opacket s1)) as [pkt|]; cbn [mbind option_bind]; [|done]. destruct (sent_ok r); cbn [negb]; [|done].
  destruct (HW s1) as (W1 & W2 & W3); [by rewrite K|]. rewrite K, Er in W1, W2, W3. cbn [fst snd] in *. cbn [arrivals]. rewrite W1.
  destruct (wait_replies reply (arrivals r) s1) as [[e [s2|c s2]]|]; cbn [mbind option_bind]; [|done|done].
  rewrite <- (W2 e s2 eq_refl), IH; [done|]. by rewrite (W2 e s2 eq_refl).
Qed.
End Read.

Lemma note_deltas_keeps a b c d e s s' : note_deltas a b c d e s = Next s' -> packet s' = packet s.
Proof. unfold note_deltas. destruct (_ <? RANGE); [done|]. destruct (_ <? min_rtt _); by intros [= <-]. Qed.

Lemma reply_keeps opt id tv s s' :
  match opt with None => measure_reply id | Some len => measure_opt_reply len id end tv s = Some (Next s') -> packet s' = packet s.
Proof.
  destruct opt as [len|]; [unfold measure_opt_reply|unfold measure_reply]; intros H;
    apply bind_Some in H as ([[[icp ty] i] seq] & _ & H).
  - apply bind_Some in H as (o0 & _ & H). destruct (_ && _); [|by injection H as <-].
    apply bind_Some in H as (o3 & _ & H). destruct (negb _); [done|]. apply bind_Some in H as (o2 & _ & H).
    apply bind_Some in H as ([[]|t] & _ & H); [done|]. destruct (_ =? 0); [done|].
    destruct (_ <? 0); injection H as H; [subst; apply acknowledge_packet|]. rewrite (note_deltas_keeps _ _ _ _ _ _ _ H). apply acknowledge_packet.
  - destruct (_ && _); [|by injection H as <-]. apply bind_Some in H as (send & _ & H).
    destruct (_ <? 0); [injection H as <-; apply acknowledge_packet|]. apply bind_Some in H as (his & _ & H).
    destruct (negb _); [done|]. injection H as H. rewrite (note_deltas_keeps _ _ _ _ _ _ _ H). apply acknowledge_packet.
Qed.

Lemma queue_packet q : forall s s', empty_queue q s = Next s' -> packet s' = queue_read q (packet s).
Proof.
  unfold queue_read. induction q as [|[m|] q IH]; intros s s'; cbn [empty_queue foldl]; [by intros [= <-]| |done]. intros H. by rewrite (IH _ _ H).
Qed.

Lemma queue_length q p : length p = PACKET_IN -> length (queue_read q p) = PACKET_IN.
Proof. unfold queue_read. revert p. induction q as [|[m|] q IH]; intros p Hp; cbn [foldl]; [done|by apply IH, length_recvfrom|by apply IH]. Qed.

Lemma measurement_read opt id q rounds s : length (packet s) = PACKET_IN ->
  measurement opt id q (rounds_read (queue_read q (packet s)) rounds) s = measurement opt id q rounds s.
Proof.
  intros Hs.
  assert (H : forall type reply, (forall tv s s', reply tv s = Some (Next s') -> packet s' = packet s) ->
    measure_with type id reply q (rounds_read (queue_read q (packet s)) rounds) s = measure_with type id reply q rounds s).
  { intros type reply Hk. unfold measure_with. destruct (empty_queue q (set_start s)) as [s1|] eqn:E; [|done].
    apply queue_packet in E. change (packet (set_start s)) with (packet s) in E. rewrite <- E.
    destruct (prepare type id (opacket s1)) as [p|]; cbn [mbind option_bind]; [|done].
    apply (loop_read reply Hk rounds (set_counters (set_request (seqno s1) p s1))). cbn. rewrite E. by apply queue_length. }
  destruct opt as [len|]; apply H; intros tv s1 s2; [apply (reply_keeps (Some len))|apply (reply_keeps None)].
Qed.

(** The whole buffer has everything a reply can ask for. *)
Lemma times_full opt id tv p : buffer_ok p -> exists x, times opt id tv p = Some x.
Proof.
  intros Hp. destruct (header_some p Hp) as (icp & ty & i & seq & Hh & Hi & _). destruct Hp as [Hl Hb] eqn:Ep. clear Ep.
  destruct opt as [len|]; [unfold times, option_stamps|unfold times, icmp_stamps]; rewrite Hh; cbn [mbind option_bind].
  - destruct (lookup_lt_is_Some_2 p 20) as [o0 ->]; [rewrite Hl; unfold PACKET_IN; lia|]. cbn [mbind option_bind]. destruct (_ && _); [|eauto].
    destruct (lookup_lt_is_Some_2 p 22) as [o2 E2]; [rewrite Hl; unfold PACKET_IN; lia|]. rewrite E2. cbn [mbind option_bind].
    pose proof (option_count_le o2 (proj1 (Forall_lookup _ _) Hb _ _ E2)).
    destruct (read_stamps_some len p (option_count o2) 0 (mkStamps 0 0 0 0) Hp ltac:(lia)) as (x & -> & _); [by unfold stamps_ok|].
    cbn [mbind option_bind]. eauto.
  - destruct (_ && _); [|eauto].
    destruct (load32_net_some (icp + 8) p Hb) as (v & -> & _); [rewrite Hl; unfold PACKET_IN; lia|].
    destruct (load32_net_some (icp + 12) p Hb) as (w & -> & _); [rewrite Hl; unfold PACKET_IN; lia|]. cbn. eauto.
Qed.

Definition any (_ : timeval) (_ : list Z) : Prop := True.

Lemma read_buffers (P : timeval -> list Z -> Prop) rounds : forall p, buffer_ok p -> Forall (round_ok any) rounds ->
  Forall (round_ok P) (rounds_read p rounds) -> Forall (round_ok (fun tv b => buffer_ok b /\ P tv b)) (rounds_read p rounds).
Proof.
  assert (HA : forall l p, buffer_ok p -> Forall (arrival_ok any) l -> Forall (arrival_ok P) (arrivals_read p l).1 ->
    Forall (arrival_ok (fun tv b => buffer_ok b /\ P tv b)) (arrivals_read p l).1 /\ buffer_ok (arrivals_read p l).2).
  { induction l as [|[tv [m|]] l IH]; intros p Hp Hl H; cbn [arrivals_read] in *; [done|..]; apply Forall_cons in Hl as [H1 Hl].
    - pose proof (recvfrom_ok m p (proj1 (proj2 H1)) Hp) as Hb. specialize (IH _ Hb Hl).
      destruct (arrivals_read (recvfrom m p) l) as [r p']. cbn [fst snd] in *. apply Forall_cons in H as [(A & B & C) H].
      destruct (IH H) as [IH1 IH2]. split; [|done]. apply Forall_cons; split; [|done].
      split; [exact A|]. split; [exact B|]. by split.
    - specialize (IH _ Hp Hl). destruct (arrivals_read p l) as [r p']. cbn [fst snd] in *. apply Forall_cons in H as [H0 H].
      destruct (IH H) as [IH1 IH2]. split; [|done]. by apply Forall_cons. }
  induction rounds as [|r rounds IH]; intros p Hp Hr H; cbn [rounds_read] in *; [done|]. apply Forall_cons in Hr as [[H1 H2] Hr].
  specialize (HA (arrivals r) p Hp H2). destruct (arrivals_read p (arrivals r)) as [l p']. cbn [fst snd] in *.
  apply Forall_cons in H as [[H3 H4] H]. destruct (HA H4) as [HA1 HA2]. apply Forall_cons; split; [done|]. by apply IH.
Qed.

(** Every acknowledgement that goes forward is a reply that counts, and goes
    forward by eleven probes at most. *)
Definition progressing (n : nat) (s : clock) : Prop :=
  seqno s = Z.of_nat n /\ 0 <= acked s <= seqno s /\ seqno s <= acked s + TRIALS + 1 /\ acked s <= (TRIALS + 1) * msgcount s.

Lemma progressing_going n s : progressing n s -> going s -> Z.of_nat n < 550.
Proof. unfold progressing, going, TRIALS, MSGS. lia. Qed.

Lemma counted_progress n t seq m s s' : 0 <= seq <= seqno s -> progressing n s ->
  counted t (acknowledge seq (received m s)) = Next s' -> progressing n s'.
Proof.
  unfold progressing, TRIALS. intros Hseq H. unfold counted, note_deltas.
  destruct (_ <? RANGE); [by destruct (_ <? min_rtt _)|]. unfold acknowledge. change (acked (received m s)) with (acked s).
  destruct (Z.ltb_spec (acked s) seq); destruct (_ <? min_rtt _); intros [= <-]; cbn; lia.
Qed.

Lemma ends_read opt id q rounds s : measurable q s ->
  Forall (round_ok (fun tv b => buffer_ok b /\ timely (times opt id) tv b)) rounds -> (550 <= length rounds)%nat ->
  exists e c s', measurement opt id q rounds s = Some (e, Return c s') /\ (sends e <= 550)%nat
    /\ (c = GOOD \/ c = -1 \/ c = UNREACHABLE \/ c = NONSTDTIME \/ c = HOSTDOWN).
Proof.
  intros Hs Hl Hn.
  destruct (measurement_rule opt id progressing
      (fun c _ => c = GOOD \/ c = -1 \/ c = UNREACHABLE \/ c = NONSTDTIME \/ c = HOSTDOWN) (fun tv b => buffer_ok b /\ timely (times opt id) tv b))
    with (q := q) (rounds := rounds) (s := s) as (e & r & E & _ & Hse & Hr & Hgo); [| | | | |done|done|].
  - intros n tv m s1 r H1 _ [Hb Hh] Hr.
    destruct (times_full opt id tv m Hb) as [x Hx]. inversion Hr as [|seq t _ Hok Ht|seq t Hq _ _ _|c s2 Hc]; subst; [done|..].
    + specialize (Hok x Hx). subst x. specialize (Hh t Hx). lia.
    + pose proof (counted_progress n t seq m s1) as HC. destruct (counted t _) as [|c s2] eqn:Ec; [by apply HC|].
      revert Ec. unfold counted, note_deltas. destruct (_ <? RANGE); intros [= <- _]; by left.
    + naive_solver.
  - intros n s1 p H1 H2. pose proof (progressing_going n s1 H1 H2). unfold progressing, going, TRIALS in *. cbn.
    rewrite wrapu_id by (unfold in_u; lia). lia.
  - intros _ s1 _ _. by left.
  - naive_solver.
  - intros s1 (H1 & H2 & H3 & _). unfold progressing, TRIALS. lia.
  - destruct r as [s1|c s1].
    + destruct Hr as [Hr _]. pose proof (progressing_going _ _ Hr (Hgo s1 eq_refl)). lia.
    + exists e, c, s1. split; [done|]. split; [|done]. destruct Hse as [->|(s2 & H1 & H2)]; [lia|].
      pose proof (progressing_going _ _ H1 H2). lia.
Qed.

Lemma length_rounds_read p rounds : length (rounds_read p rounds) = length rounds.
Proof. revert p. induction rounds as [|r rounds IH]; intros p; cbn [rounds_read]; [done|]. destruct (arrivals_read _ _). cbn. by rewrite IH. Qed.

(** C31: A measurement ends, after 550 probes at most, unless a reply seems to
    come from the future.  Any messages may arrive, of any length and cut short
    anywhere, be lost or fail.  If no reply, the way it is read from the buffer
    ([rounds_read]: behind the end of a message are the bytes of earlier ones),
    has a time of sending after its time of arrival, then 550 rounds are enough
    for [measure] and [measure_opt] to return. *)
Theorem clockdiff_ends opt id q rounds s : measurable q s -> Forall (round_ok any) rounds ->
  Forall (round_ok (timely (times opt id))) (rounds_read (queue_read q (packet s)) rounds) -> (550 <= length rounds)%nat ->
  exists e c s', measurement opt id q rounds s = Some (e, Return c s') /\ (sends e <= 550)%nat
    /\ (c = GOOD \/ c = -1 \/ c = UNREACHABLE \/ c = NONSTDTIME \/ c = HOSTDOWN).
Proof.
  intros Hs Ha Hl Hn. pose proof Hs as (Hq & Hp & _). rewrite <- measurement_read by apply Hp.
  apply ends_read; [done| |by rewrite length_rounds_read]. apply read_buffers; [|done|done].
  clear - Hq Hp. unfold queue_read. revert Hp. generalize (packet s). induction Hq as [|x q Hx _ IH]; intros p Hp; cbn [foldl]; [done|].
  apply IH. destruct x as [m|]; [|done]. apply recvfrom_ok; [by apply Hx|done].
Qed.

(** ** Safety *)

Lemma anything_ok rounds : Forall (round_ok (fun _ _ => True)) rounds -> forall opt id q s, measurable q s ->
  exists e r, measurement opt id q rounds s = Some (e, r) /\ Forall (effect_ok (request_type opt) id) e.
Proof.
  intros Hl opt id q s Hs.
  destruct (measurement_rule opt id (fun _ _ => True) (fun _ _ => True) (fun _ _ => True))
    with (q := q) (rounds := rounds) (s := s) as (e & r & E & He & _); auto.
  - intros _ _ _ _ [s1|c s1] _ _ _ _; done.
  - eauto.
Qed.

Lemma rspace_some len a b : len = 36 \/ len = 28 -> exists o, rspace len a b = Some o /\ length o = Z.to_nat len.
Proof. intros [-> | ->]; eexists; (split; [reflexivity|done]). Qed.

Lemma arguments_length argv len host : arguments argv = Some (len, host) -> len = 0 \/ len = 36 \/ len = 28.
Proof.
  unfold arguments. destruct argv as [|a [|b [|c argv]]]; try done; [intros [= <- _]; auto|].
  destruct (String.eqb a "-o"); [intros [= <- _]; auto|]. destruct (String.eqb a "-o1"); [intros [= <- _]; auto|done].
Qed.

Lemma conclude_exit sys r c : conclude sys r = Exit c -> c = 1.
Proof.
  destruct r as [|code s]; [done|]. cbn [conclude]. destruct (code <? 0); [by intros [= <-]|].
  destruct (_ || _); [by intros [= <-]|]. by destruct (isatty sys).
Qed.

(** C32: clockdiff is safe.  With any command line, answers of the system and
    packets, of any length, whatever the buffers held before, no byte outside a
    buffer is read or written; every request has a checksum that a receiver
    accepts, every wait is a valid one of a millisecond or more, an IP option
    has at most the forty bytes that a header has room for, and a code other
    than 0 is 1, 2 or 255. *)
Theorem clockdiff_safe sys argv q rounds stale ostale : Forall (round_ok (fun _ _ => True)) rounds ->
  measurable q (start_state stale ostale) ->
  exists opt e out, main sys argv q rounds stale ostale = Some (opt, e, out)
    /\ Forall (fun x => match x with
                       | Sendto p => PingPacket.in_cksum p 0 = 0 /\ length p = 20%nat
                       | Select sec usec => 0 <= sec /\ 0 <= usec < 1000000 /\ 1000 <= sec * 1000000 + usec
                       end) e
    /\ (forall o, opt = Some o -> (length o <= 40)%nat) /\ (forall c, out = Exit c -> c = 1 \/ c = 2 \/ c = 255).
Proof.
  intros Hl Hq. set (P := fun x : effect => _). set (id := u16 (getpid sys)).
  assert (Hstop : forall c, c = 1 \/ c = 2 \/ c = 255 -> exists opt e out, Some (None, [], Exit c) = Some (opt, e, out)
    /\ Forall P e /\ (forall o : list Z, opt = Some o -> (length o <= 40)%nat) /\ (forall c, out = Exit c -> c = 1 \/ c = 2 \/ c = 255)).
  { intros c Hc. eexists _, _, _. split; [reflexivity|]. split_and!; [done|done|]. by intros c' [= <-]. }
  assert (HP : forall opt e, Forall (effect_ok (request_type opt) id) e -> Forall P e).
  { intros opt e He. eapply Forall_impl; [exact He|]. intros [p|]; [|done]. cbn. intros Hp. split.
    - apply (request_checksum (request_type opt) id); [by destruct opt|done].
    - by destruct Hp as (n & t & _ & ->). }
  unfold main. destruct (setuid_ok sys); cbn [negb]; [|by apply Hstop; auto].
  destruct (arguments argv) as [[len host]|] eqn:Ea; [|by apply Hstop; auto]. apply arguments_length in Ea.
  destruct (socket_ok sys); cbn [negb]; [|by apply Hstop; auto]. destruct (nice_errno sys <? 0); [by apply Hstop; auto|].
  destruct (self_found sys); cbn [negb]; [|by apply Hstop; auto]. destruct (getaddrinfo sys host) as [server|]; [|by apply Hstop; auto].
  destruct (connect_ok sys); cbn [negb]; [|by apply Hstop; auto].
  assert (Hm : forall x o, (forall l : list Z, o = Some l -> (length l <= 40)%nat) -> exists opt e out,
    ('(e, r) ← measurement x id q rounds (start_state stale ostale); Some (o, e, conclude sys r)) = Some (opt, e, out)
    /\ Forall P e /\ (forall o : list Z, opt = Some o -> (length o <= 40)%nat) /\ (forall c, out = Exit c -> c = 1 \/ c = 2 \/ c = 255)).
  { intros x o Ho. destruct (anything_ok rounds Hl x id q _ Hq) as (e & r & -> & He). cbn [mbind option_bind].
    eexists _, _, _. split; [reflexivity|]. split_and!; [by apply (HP x)|done|]. intros c Hc. apply conclude_exit in Hc. auto. }
  destruct (Z.eqb_spec len 0); [by apply (Hm None)|]. destruct (getsockname sys) as [me|]; [|by apply Hstop; auto].
  destruct (rspace_some len me server ltac:(lia)) as (o & -> & Ho). cbn [mbind option_bind].
  destruct (setsockopt_ok sys); [|by apply (Hm None)]. apply (Hm (Some len)). intros l [= <-]. lia.
Qed.

(** The two checksum routines agree: the one of clockdiff, which folds the
    carry after every word, and the one of ping, which folds it at the end,
    give the same checksum of any bytes that fit into a packet. *)
Theorem cksums_agree l : Forall (in_u 8) l -> (length l <= Z.to_nat 65534)%nat -> Clockdiff.in_cksum l = PingPacket.in_cksum l 0.
Proof. intros Hl Hn. rewrite in_cksum_sum by done. by rewrite in_cksum_run by (done || lia). Qed.

(** ** Concrete runs *)

Definition demo_start : clock := start_state (replicate 1024 0) (replicate 64 0).

Lemma demo_measurable : measurable [Some [1; 2; 3]] demo_start.
Proof.
  assert (Hz : forall n, Forall (in_u 8) (replicate n 0)) by (intros n; by apply Forall_replicate).
  split; [|split; [by split; [|apply Hz]|split; [by apply Nat.leb_le|done]]]. apply Forall_cons; split; [|done].
  intros m [= <-]. by repeat (apply Forall_cons; split).
Qed.

(** An answer to the first request of process 77, sent at 1000000 ms by a host
    whose clock is 5000 ms ahead, one millisecond later; it arrives after
    four. *)
Definition demo_reply : list Z :=
  [0x45] ++ replicate 19 0 ++ [ICMP_TIMESTAMPREPLY; 0; 0; 0; 77; 0; 1; 0] ++ net32 1000000 ++ net32 1005001 ++ net32 1005001.

Definition demo_arrival : arrival := (mkTv 1000 4000, Some demo_reply).

Lemma demo_bytes : Forall (in_u 8) demo_reply.
Proof. unfold demo_reply, net32. cbn. by repeat (apply Forall_cons; split). Qed.

(** The answer fifty times. *)
Definition demo_rounds : list round := [mkRound (mkTv 1000 0) true (replicate 50 demo_arrival)].

Lemma demo_host_ok : Forall (round_ok (honest 5000 (times None 77))) demo_rounds.
Proof.
  apply Forall_cons; split; [|done]. split; [by unfold tv_ok; cbn|]. apply Forall_replicate. split; [by unfold tv_ok; cbn|].
  cbn [snd fst demo_arrival]. split; [apply demo_bytes|]. exists (Some (mkStamps 1000000 1005001 1005001 1000004)).
  split; [by vm_compute|]. intros t [= <-]. right. exists 1000001, 1000001. split_and!; by vm_compute.
Qed.

Definition result (r : option (list effect * step)) : option (Z * Z * Z * Z) :=
  match r with Some (_, Return c s) => Some (c, measure_delta s, measure_delta1 s, min_rtt s) | _ => None end.

Lemma result_some r c d d1 m : result r = Some (c, d, d1, m) -> exists e s, r = Some (e, Return c s)
  /\ measure_delta s = d /\ measure_delta1 s = d1 /\ min_rtt s = m.
Proof. destruct r as [[e [s|c' s]]|]; try done. cbn [result]. intros [= <- <- <- <-]. by exists e, s. Qed.

Lemma demo_result : result (measurement None 77 [Some [1; 2; 3]] demo_rounds demo_start) = Some (GOOD, 4999, 4999, 4).
Proof. vm_compute. reflexivity. Qed.

Lemma clockdiff_accurate_witness : exists e s', measurement None 77 [Some [1; 2; 3]] demo_rounds demo_start = Some (e, Return GOOD s')
  /\ min_rtt s' = 4 /\ 2 * Z.abs (measure_delta s' - 5000) <= min_rtt s' + 1.
Proof.
  destruct (result_some _ _ _ _ _ demo_result) as (e & s' & Em & E2 & _ & E4). exists e, s'. split; [exact Em|]. split; [exact E4|].
  apply (clockdiff_accurate 5000 None 77 [Some [1; 2; 3]] demo_rounds demo_start e s' demo_measurable demo_host_ok Em).
Defined.

(** A host that never answers. *)
Definition silent : round := mkRound (mkTv 1000 0) true [].

(** The same answer cut off behind the sequence number: its times are read from
    what the buffer held before. *)
Definition cut_reply : list Z := take 28 demo_reply.
Definition cut_round : round := mkRound (mkTv 1000 0) true [(mkTv 1000 4000, Some cut_reply)].

Lemma cut_bytes : Forall (in_u 8) cut_reply.
Proof. apply Forall_take, demo_bytes. Qed.

Lemma rounds_read_again (P : timeval -> list Z -> Prop) r p n : (arrivals_read p (arrivals r)).2 = p ->
  round_ok P (mkRound (sent_at r) (sent_ok r) (arrivals_read p (arrivals r)).1) -> Forall (round_ok P) (rounds_read p (replicate n r)).
Proof.
  intros E H. induction n as [|n IH]; [done|]. cbn [replicate rounds_read]. destruct (arrivals_read p (arrivals r)) as [l p']. cbn in E. subst p'. by constructor.
Qed.

(** A host that does not answer, and one whose answers are cut short. *)
Lemma clockdiff_ends_witness :
  (exists e c s', measurement (Some 36) 77 [Some [1; 2; 3]] (replicate 550 silent) demo_start = Some (e, Return c s') /\ (sends e <= 550)%nat)
  /\ (exists e c s', measurement None 77 [Some cut_reply] (replicate 550 cut_round) demo_start = Some (e, Return c s') /\ (sends e <= 550)%nat
        /\ c = HOSTDOWN).
Proof.
  split.
  - destruct (clockdiff_ends (Some 36) 77 [Some [1; 2; 3]] (replicate 550 silent) demo_start demo_measurable) as (e & c & s' & H1 & H2 & _).
    + apply Forall_replicate. split; [by unfold tv_ok; cbn|apply Forall_nil_2].
    + apply rounds_read_again; [done|]. split; [by unfold tv_ok; cbn|apply Forall_nil_2].
    + rewrite length_replicate. apply le_n.
    + exists e, c, s'. split; [exact H1|exact H2].
  - assert (Hq : measurable [Some cut_reply] demo_start).
    { split; [|exact (proj2 demo_measurable)]. apply Forall_cons; split; [|done]. intros m [= <-]. exact cut_bytes. }
    destruct (clockdiff_ends None 77 [Some cut_reply] (replicate 550 cut_round) demo_start Hq) as (e & c & s' & H1 & H2 & _).
    + apply Forall_replicate. split; [by unfold tv_ok; cbn|]. apply Forall_cons; split; [|done].
      split; [by unfold tv_ok; cbn|]. split; [exact cut_bytes|done].
    + apply rounds_read_again; [vm_compute; reflexivity|]. split; [by unfold tv_ok; cbn|]. cbn [arrivals_read arrivals cut_round fst].
      apply Forall_cons; split; [|done]. split; [by unfold tv_ok; cbn|]. split.
      * apply recvfrom_ok; [exact cut_bytes|]. apply recvfrom_ok; [exact cut_bytes|exact (proj1 (proj2 demo_measurable))].
      * intros t Ht. vm_compute in Ht. injection Ht as <-. by vm_compute.
    + rewrite length_replicate. apply le_n.
    + exists e, c, s'. split; [exact H1|]. split; [exact H2|].
      assert (R : fst <$> match measurement None 77 [Some cut_reply] (replicate 550 cut_round) demo_start with
        Some (_, Return c s) => Some (c, tt) | _ => None end = Some HOSTDOWN) by (vm_compute; reflexivity).
      rewrite H1 in R. by injection R.
Defined.

Lemma demo_silent : exists e s', measurement None 77 [] (replicate 12 silent) demo_start = Some (e, Return HOSTDOWN s') /\ sends e = 11%nat.
Proof. eexists _, _. split; [vm_compute; reflexivity|reflexivity]. Qed.

Definition demo_system : system :=
  mkSystem true 13 true true 77 true (fun _ => Some 0x0100007f) true (Some 0x0200007f) true 1000.

Lemma clockdiff_safe_witness : exists opt e out,
  main demo_system ["-o1"; "host"]%string [Some [1; 2; 3]] demo_rounds (replicate 1024 0) (replicate 64 0) = Some (opt, e, out)
  /\ (forall o, opt = Some o -> (length o <= 40)%nat).
Proof.
  destruct (clockdiff_safe demo_system ["-o1"; "host"]%string [Some [1; 2; 3]] demo_rounds (replicate 1024 0) (replicate 64 0))
    as (opt & e & out & H1 & _ & H2 & _); [|exact demo_measurable|exists opt, e, out; split; [exact H1|exact H2]].
  apply Forall_cons; split; [|done]. split; [by unfold tv_ok; cbn|]. apply Forall_replicate. split; [by unfold tv_ok; cbn|].
  split; [apply demo_bytes|done].
Defined.

Lemma cksums_agree_witness : Clockdiff.in_cksum demo_reply = PingPacket.in_cksum demo_reply 0.
Proof. apply (cksums_agree demo_reply demo_bytes). change (length demo_reply) with 40%nat. lia. Defined.

(** The four times of an option are combined bit by bit: a host one millisecond
    ahead that answers at 4194303 ms is taken for one that sent no times. *)
Definition refused_reply : list Z :=
  [0x4e] ++ replicate 19 0 ++ [IPOPT_TIMESTAMP; 36; 37; IPOPT_TS_PRESPEC]
  ++ replicate 4 0 ++ net32 4194303 ++ replicate 4 0 ++ net32 4194304 ++ replicate 4 0 ++ net32 4194304 ++ replicate 4 0 ++ net32 4194303
  ++ [ICMP_ECHOREPLY; 0; 0; 0; 77; 0; 1; 0].

Lemma honest_refused : honest 1 (times (Some 36) 77) (mkTv 4194 303000) refused_reply /\ exists e s',
  measurement (Some 36) 77 [] [mkRound (mkTv 4194 303000) true [(mkTv 4194 303000, Some refused_reply)]] demo_start = Some (e, Return (-1) s').
Proof.
  split; [|eexists _, _; vm_compute; reflexivity].
  exists (Some (mkStamps 4194303 4194304 4194304 4194303)). split; [by vm_compute|]. intros t [= <-]. right.
  exists 4194303, 4194303. split_and!; by vm_compute.
Qed.
