(* ===== verification/Probed.v ===== *)
(** * The probes of SLANG-probed: client.c and util.c

    probed measures round trips: a client sends PINGs over UDP, the server
    answers with a PONG and reports over TCP the times at which it received the
    PING and sent the PONG.  This file holds the client: the measurement
    sessions with their lists of outstanding probes, the results, the pipe (a
    FIFO) on which a daemon reports them, and the child processes.

    The lists of sys/queue.h are lists, in their order.  [answers] are the
    results of the writes to the pipe, one after the other; a write without an
    answer fails, and a write of one record succeeds or fails as a whole
    (PIPE_BUF).  Clock readings and the results of other system calls are
    arguments.  [malloc] does not fail and counters of type int do not
    overflow.  The running means and deviations, which are doubles, are left
    out. *)

From Stdlib Require Import ZArith Lia Ascii String.
From stdpp Require Import base numbers option list.
From S2P Require Import Prelude Ping PingPacket.

Local Open Scope list_scope.
Local Open Scope Z_scope.
Local Abbreviation length := List.length.

(** ** Times: util.c *)

(** The difference without its sign, and the sign (1 if negative). *)
Definition diff_ts (a b : timespec) : timespec * Z :=
  if tv_sec a >? tv_sec b then
    let sec := s64 (tv_sec a - tv_sec b) in
    if tv_nsec a >? tv_nsec b then (mkTime sec (s64 (tv_nsec a - tv_nsec b)), 0)
    else if tv_nsec a <? tv_nsec b then (mkTime (s64 (sec - 1)) (s64 (1000000000 + tv_nsec a - tv_nsec b)), 0)
    else (mkTime sec 0, 0)
  else if tv_sec a <? tv_sec b then
    let sec := s64 (tv_sec b - tv_sec a) in
    if tv_nsec a >? tv_nsec b then (mkTime (s64 (sec - 1)) (s64 (tv_nsec b + 1000000000 - tv_nsec a)), 1)
    else if tv_nsec a <? tv_nsec b then (mkTime sec (s64 (tv_nsec b - tv_nsec a)), 1)
    else (mkTime sec 0, 1)
  else if tv_nsec a >? tv_nsec b then (mkTime 0 (s64 (tv_nsec a - tv_nsec b)), 0)
  else if tv_nsec a <? tv_nsec b then (mkTime 0 (s64 (tv_nsec b - tv_nsec a)), 1)
  else (mkTime 0 0, 0).

Definition cmp_ts (t1 t2 : timespec) : Z :=
  if tv_sec t1 <? tv_sec t2 then -1
  else if tv_sec t1 >? tv_sec t2 then 1
  else if tv_nsec t1 <? tv_nsec t2 then -1
  else if tv_nsec t1 >? tv_nsec t2 then 1
  else 0.

(** ** Data: probed.h *)

Definition TIMEOUT : Z := 10.
Definition SEND_INTERVAL : Z := 1000.
Definition SEND_INTERVAL_DEV_INTERVAL : Z := 100.
Definition TIMEOUT_INTERVAL : Z := 100000.
Definition DATALEN : nat := 48.

Definition TYPE_PING : Z := 1.
Definition TYPE_PONG : Z := 2.
Definition TYPE_TIME : Z := 3.
Definition TYPE_HELO : Z := 4.

Inductive opmode := SERVER | CLIENT | DAEMON.

Record addr := mkAddr { sin6_addr : Z; sin6_port : Z }.

(** [struct packet_data]; [d_pad] are the four bytes before [t2]. *)
Record data := mkData {
  d_type : Z;
  d_seq : Z;
  d_id : Z;
  d_pad : Z;
  d_t2 : timespec;
  d_t3 : timespec
}.

Definition no_time : timespec := mkTime 0 0.

Definition no_data : data := mkData 0 0 0 0 no_time no_time.

Definition encode_data (d : data) : list Z :=
  le_bytes 4 (d_type d) ++ le_bytes 4 (d_seq d) ++ le_bytes 4 (d_id d) ++ le_bytes 4 (d_pad d)
  ++ encode_time (d_t2 d) ++ encode_time (d_t3 d).

(** The cast of the [DATALEN] bytes of a packet. *)
Definition decode_data (p : list Z) : option data :=
  type ← load32 0 p; seq ← load32 4 p; id ← load32 8 p; pad ← load32 12 p;
  t2 ← decode_time (drop 16 p); t3 ← decode_time (drop 32 p);
  Some (mkData type seq id pad t2 t3).

(** ** Data: client.c *)

Definition MASK_PING : Z := 1.
Definition MASK_PONG : Z := 2.
Definition MASK_TIME : Z := 4.
Definition MASK_DONE : Z := 7.
Definition MASK_DSCP : Z := 8.

Definition STATE_SUCCESS : Z := 1.
Definition STATE_DS_ERR : Z := 2.
Definition STATE_TS_ERR : Z := 3.
Definition STATE_PONGLOSS : Z := 4.
Definition STATE_TIMEOUT : Z := 5.
Definition STATE_DUP : Z := 6.

Record res := mkRes {
  created : timespec;
  state : Z;
  r_addr : Z;
  r_id : Z;
  r_seq : Z;
  ts0 : timespec;
  ts1 : timespec;
  ts2 : timespec;
  ts3 : timespec
}.

Record msess := mkMsess {
  s_id : Z;
  res_head : list res;             (* newest first *)
  dst : addr;
  msec_interval : Z;
  got_hello : bool;
  dscp : Z;
  child_pid : Z;
  last_seq : Z
}.

Record res_fifo := mkFifo {
  f_id : Z;
  f_seq : Z;
  f_state : Z;
  f_created_sec : Z;
  f_created_nsec : Z;
  f_rtt_sec : Z;
  f_rtt_nsec : Z
}.

(** Smallest and largest time; a minimum of -1 seconds is none. *)
Record extremes := mkExtremes { e_min : timespec; e_max : timespec }.

Record stats := mkStats {
  res_ok : Z;
  res_timeout : Z;
  res_pongloss : Z;
  res_tserror : Z;
  res_dserror : Z;
  res_dup : Z;
  res_thold : Z;
  res_n_thold : Z;
  res_rtt : extremes;
  total_rtt : extremes;
  kernel_OH : extremes
}.

Record counts := mkCounts {
  count_client_sent : Z;
  count_client_done : Z;
  count_client_find : Z;
  count_client_fifoq : Z;
  count_client_fifoq_max : Z
}.

Record client := mkClient {
  msess_head : list msess;
  fifoq_head : list res_fifo;
  answers : list bool;
  cnt : counts;
  sta : stats
}.

Definition set_msess (l : list msess) (c : client) : client := mkClient l (fifoq_head c) (answers c) (cnt c) (sta c).
Definition set_counts (n : counts) (c : client) : client := mkClient (msess_head c) (fifoq_head c) (answers c) n (sta c).
Definition set_stats (s : stats) (c : client) : client := mkClient (msess_head c) (fifoq_head c) (answers c) (cnt c) s.

Definition set_results (l : list res) (s : msess) : msess :=
  mkMsess (s_id s) l (dst s) (msec_interval s) (got_hello s) (dscp s) (child_pid s) (last_seq s).
Definition set_hello (s : msess) : msess :=
  mkMsess (s_id s) (res_head s) (dst s) (msec_interval s) true (dscp s) (child_pid s) (last_seq s).
Definition set_child (pid : Z) (s : msess) : msess :=
  mkMsess (s_id s) (res_head s) (dst s) (msec_interval s) (got_hello s) (dscp s) pid (last_seq s).
Definition set_last_seq (n : Z) (s : msess) : msess :=
  mkMsess (s_id s) (res_head s) (dst s) (msec_interval s) (got_hello s) (dscp s) (child_pid s) n.

Definition count_sent (n : counts) : counts :=
  mkCounts (count_client_sent n + 1) (count_client_done n) (count_client_find n) (count_client_fifoq n) (count_client_fifoq_max n).
Definition count_done (n : counts) : counts :=
  mkCounts (count_client_sent n) (count_client_done n + 1) (count_client_find n) (count_client_fifoq n) (count_client_fifoq_max n).
Definition count_find (k : Z) (n : counts) : counts :=
  mkCounts (count_client_sent n) (count_client_done n) k (count_client_fifoq n) (count_client_fifoq_max n).
Definition count_fifoq (k m : Z) (n : counts) : counts :=
  mkCounts (count_client_sent n) (count_client_done n) (count_client_find n) k m.

(** What the client does: records on the pipe, lines on standard output (with
    the number, the session and the times shown), packets (and whether
    [send_w_ts] reported success: it does not when [sendto] fails, and when the
    packet is sent but its time is not found), signals, results freed. *)
Inductive effect :=
  | Fifo (r : res_fifo)
  | Response (seq id : Z) (rtt total kernel : timespec)
  | InvalidTimestamps (seq id : Z)
  | InvalidDscp (seq id sec : Z)
  | MissingTime (seq id sec : Z)
  | MissingPong (seq id sec : Z)
  | MissingAll (seq id sec : Z)
  | Unknown (seq id : Z)
  | SetDscp (tclass : Z)
  | Sendto (a : addr) (d : data) (ok : bool)
  | Kill (pid : Z)
  | Free (r : res)                 (* an outstanding result is dropped *)
  | Fork (a : addr)
  | Interrupt.                     (* raise(SIGINT) *)

Definition no_extremes : extremes := mkExtremes (mkTime (-1) 0) no_time.

Definition no_stats : stats := mkStats 0 0 0 0 0 0 (-1) 0 no_extremes no_extremes no_extremes.

Definition client_init (ans : list bool) : client := mkClient [] [] ans (mkCounts 0 0 0 0 0) no_stats.

(** ** The pipe of a daemon: client_write_fifo *)

(** The queue as far as it can be written. *)
Fixpoint flush (q : list res_fifo) (ans : list bool) : list res_fifo * list res_fifo * list bool :=
  match q with
  | [] => ([], [], ans)
  | r :: q' =>
      match ans with
      | true :: ans' => let '(w, q'', ans'') := flush q' ans' in (r :: w, q'', ans'')
      | _ => ([], q, tail ans)
      end
  end.

Definition client_write_fifo (r : res_fifo) (c : client) : list effect * client :=
  let '(w, q, ans) := flush (fifoq_head c) (answers c) in
  let n := count_client_fifoq (cnt c) - Z.of_nat (length w) in
  let m := count_client_fifoq_max (cnt c) in
  match ans with
  | true :: ans' => (Fifo <$> (w ++ [r]), mkClient (msess_head c) q ans' (count_fifoq n m (cnt c)) (sta c))
  | _ => (Fifo <$> w, mkClient (msess_head c) (q ++ [r]) (tail ans) (count_fifoq (n + 1) (Z.max m (n + 1)) (cnt c)) (sta c))
  end.

(** ** Sessions *)

(** The index of the first element with a property. *)
Fixpoint first_index {A} (p : A -> bool) (l : list A) : option nat :=
  match l with
  | [] => None
  | x :: l' => if p x then Some 0%nat else S <$> first_index p l'
  end.

(** The index of the last one. *)
Fixpoint last_index {A} (p : A -> bool) (l : list A) : option nat :=
  match l with
  | [] => None
  | x :: l' =>
      match last_index p l' with
      | Some i => Some (S i)
      | None => if p x then Some 0%nat else None
      end
  end.

Definition update_session (i : nat) (f : msess -> msess) (c : client) : client := set_msess (alter f i (msess_head c)) c.

Definition client_res_insert (a : addr) (d : data) (ts now : timespec) (c : client) : client :=
  match last_index (fun s => s_id s =? d_id d) (msess_head c) with
  | None => c
  | Some i =>
      let r := mkRes now MASK_PING (sin6_addr a) (d_id d) (d_seq d) ts no_time no_time no_time in
      update_session i (fun s => set_results (r :: res_head s) s) c
  end.

(** ** New information about a probe: client_res_update *)

Definition is_zero (t : timespec) : bool := (tv_sec t =? 0) && (tv_nsec t =? 0).

(** The result with what the packet says. *)
Definition merge_res (d : data) (ts : option timespec) (session_dscp packet_dscp : Z) (r : res) : res :=
  if d_type d =? TYPE_PONG then
    let st := Z.lor (state r) MASK_PONG in
    let t4 := match ts with Some t => t | None => ts3 r end in
    let st := if session_dscp =? u8 packet_dscp then st else Z.lor st MASK_DSCP in
    mkRes (created r) st (r_addr r) (r_id r) (r_seq r) (ts0 r) (ts1 r) (ts2 r) t4
  else if d_type d =? TYPE_TIME then
    mkRes (created r) (Z.lor (state r) MASK_TIME) (r_addr r) (r_id r) (r_seq r) (ts0 r) (d_t2 d) (d_t3 d) (ts3 r)
  else r.

(** The three times shown: total, on the server, and their difference. *)
Record round_trip := mkTrip { t_diff : timespec; t_now : timespec; t_rtt : timespec; t_neg : bool }.

Definition trip_of (r : res) : round_trip :=
  let '(diff, neg1) := diff_ts (ts3 r) (ts0 r) in
  let '(now, neg2) := diff_ts (ts2 r) (ts1 r) in
  let '(rtt, neg3) := diff_ts diff now in
  mkTrip diff now rtt (negb (neg1 =? 0) || negb (neg2 =? 0) || negb (neg3 =? 0)).

(** The record of a complete result. *)
Definition done_record (r : res) : res_fifo :=
  let t := trip_of r in
  let st := if Z.land (state r) MASK_DSCP =? 0 then STATE_SUCCESS else STATE_DS_ERR in
  let st := if t_neg t then STATE_TS_ERR else st in
  let st := if is_zero (ts0 r) || is_zero (ts1 r) || is_zero (ts2 r) || is_zero (ts3 r) then STATE_TS_ERR else st in
  let rtt_sec := u32 (tv_sec (t_rtt t)) in
  let st := if (st =? STATE_SUCCESS) && (rtt_sec >? 20) then STATE_TS_ERR else st in
  mkFifo (u32 (r_id r)) (u32 (r_seq r)) st (u32 (tv_sec (created r))) (u32 (tv_nsec (created r)))
    rtt_sec (u32 (tv_nsec (t_rtt t))).

Definition note_extremes (t : timespec) (e : extremes) : extremes :=
  let mx := if cmp_ts (e_max e) t =? -1 then t else e_max e in
  let mn := if tv_sec (e_min e) =? -1 then t else e_min e in
  mkExtremes (if cmp_ts mn t =? 1 then t else mn) mx.

Definition note_success (t : round_trip) (thold : Z) (s : stats) : stats :=
  let th := if res_thold s <? 0 then thold else res_thold s in
  let over := s64 (s64 (tv_sec (t_rtt t) * 1000000000) + tv_nsec (t_rtt t)) >? th in
  mkStats (res_ok s + 1) (res_timeout s) (res_pongloss s) (res_tserror s) (res_dserror s) (res_dup s)
    th (if over then res_n_thold s + 1 else res_n_thold s)
    (note_extremes (t_rtt t) (res_rtt s)) (note_extremes (t_diff t) (total_rtt s)) (note_extremes (t_now t) (kernel_OH s)).

Definition count_state (st : Z) (s : stats) : stats :=
  let inc k := if st =? k then 1 else 0 in
  mkStats (res_ok s) (res_timeout s + inc STATE_TIMEOUT) (res_pongloss s + inc STATE_PONGLOSS)
    (res_tserror s + inc STATE_TS_ERR) (res_dserror s + inc STATE_DS_ERR) (res_dup s + inc STATE_DUP)
    (res_thold s) (res_n_thold s) (res_rtt s) (total_rtt s) (kernel_OH s).

(** A complete result is reported. *)
Definition report_done (op : opmode) (thold : Z) (r : res) (c : client) : list effect * client :=
  let t := trip_of r in
  let f := done_record r in
  let c := set_counts (count_done (cnt c)) c in
  match op with
  | SERVER => ([], c)
  | DAEMON => client_write_fifo f c
  | CLIENT =>
      if f_state f =? STATE_TS_ERR then
        ([InvalidTimestamps (r_seq r) (r_id r)], set_stats (count_state STATE_TS_ERR (sta c)) c)
      else if f_state f =? STATE_DS_ERR then
        ([InvalidDscp (r_seq r) (r_id r) (tv_sec (t_diff t))], set_stats (count_state STATE_DS_ERR (sta c)) c)
      else ([Response (r_seq r) (r_id r) (t_rtt t) (t_diff t) (t_now t)], set_stats (note_success t thold (sta c)) c)
  end.

Definition res_matches (a : addr) (d : data) (r : res) : bool :=
  (r_id r =? d_id d) && (r_seq r =? d_seq d) && (r_addr r =? sin6_addr a).

(** A PONG for no probe that is outstanding. *)
Definition is_dup (a : addr) (d : data) (s : msess) : bool :=
  (sin6_addr (dst s) =? sin6_addr a) && (d_type d =? TYPE_PONG) && (s_id s =? d_id d) && (last_seq s >=? d_seq d).

Definition report_dup (op : opmode) (d : data) (now : timespec) (c : client) : list effect * client :=
  match op with
  | SERVER => ([], c)
  | DAEMON => client_write_fifo (mkFifo (u32 (d_id d)) (u32 (d_seq d)) STATE_DUP (u32 (tv_sec now)) (u32 (tv_nsec now)) 0 0) c
  | CLIENT => ([Unknown (d_seq d) (d_id d)], set_stats (count_state STATE_DUP (sta c)) c)
  end.

Definition client_res_update (op : opmode) (a : addr) (d : data) (ts : option timespec) (packet_dscp npackets thold : Z)
    (now : timespec) (c : client) : list effect * client :=
  match first_index (fun s => s_id s =? d_id d) (msess_head c) with
  | None => ([], c)
  | Some i =>
      match msess_head c !! i with
      | None => ([], c)
      | Some s =>
          match first_index (res_matches a d) (res_head s) with
          | Some j =>
              let c := set_counts (count_find (Z.of_nat j + 1) (cnt c)) c in
              match res_head s !! j with
              | None => ([], c)
              | Some r =>
                  let r := merge_res d ts (dscp s) packet_dscp r in
                  let '(e, c) :=
                    if Z.land (state r) MASK_DONE =? MASK_DONE then
                      let '(e, c) := report_done op thold r c in
                      (e, update_session i (fun s => set_results (delete j (res_head s)) s) c)
                    else ([], update_session i (fun s => set_results (<[j := r]> (res_head s)) s) c) in
                  (e ++ (if res_ok (sta c) >=? npackets then [Interrupt] else []), c)
              end
          | None =>
              let c := set_counts (count_find (Z.of_nat (length (res_head s))) (cnt c)) c in
              if existsb (is_dup a d) (msess_head c) then report_dup op d now c else ([], c)
          end
      end
  end.

(** ** Lost probes: client_res_clear_timeouts *)

Definition lost_record (r : res) : res_fifo :=
  let st := if negb (Z.land (state r) MASK_TIME =? 0) then STATE_PONGLOSS
            else if negb (Z.land (state r) MASK_PONG =? 0) then STATE_TS_ERR else STATE_TIMEOUT in
  mkFifo (u32 (r_id r)) (u32 (r_seq r)) st (u32 (tv_sec (created r))) (u32 (tv_nsec (created r))) 0 0.

Definition report_lost (op : opmode) (sec : Z) (r : res) (c : client) : list effect * client :=
  let f := lost_record r in
  let c := set_counts (count_done (cnt c)) c in
  match op with
  | SERVER => ([], c)
  | DAEMON => client_write_fifo f c
  | CLIENT =>
      ([if f_state f =? STATE_TS_ERR then MissingTime (r_seq r) (r_id r) sec
        else if f_state f =? STATE_PONGLOSS then MissingPong (r_seq r) (r_id r) sec
        else MissingAll (r_seq r) (r_id r) sec], set_stats (count_state (f_state f) (sta c)) c)
  end.

(** The results of a session from the oldest on, up to the first young one. *)
Fixpoint clear_results (op : opmode) (now : timespec) (old_first : list res) (c : client) : list effect * list res * client :=
  match old_first with
  | [] => ([], [], c)
  | r :: l =>
      let '(diff, _) := diff_ts now (created r) in
      if tv_sec diff <=? TIMEOUT then ([], old_first, c)
      else
        let '(e, c) := report_lost op (tv_sec diff) r c in
        let '(e', l', c) := clear_results op now l c in (e ++ e', l', c)
  end.

Fixpoint clear_sessions (op : opmode) (now : timespec) (n i : nat) (c : client) : list effect * client :=
  match n with
  | O => ([], c)
  | S n' =>
      match msess_head c !! i with
      | None => ([], c)
      | Some s =>
          let '(e, l, c) := clear_results op now (reverse (res_head s)) c in
          let c := update_session i (set_results (reverse l)) c in
          let '(e', c) := clear_sessions op now n' (S i) c in (e ++ e', c)
      end
  end.

Definition client_res_clear_timeouts (op : opmode) (now : timespec) (c : client) : list effect * client :=
  clear_sessions op now (length (msess_head c)) 0 c.

(** ** Sending: client_msess_transmit *)

(** The answers to one PING: the time at which it was sent, or nothing if that
    failed, and the clock when the result is made. *)
Definition sending : Type := option timespec * timespec.

Definition ping_data (id seq : Z) : data := mkData TYPE_PING seq id 0 no_time no_time.

Fixpoint transmit_from (sends : Z) (n i : nat) (io : list sending) (c : client) : list effect * client :=
  match n with
  | O => ([], c)
  | S n' =>
      match msess_head c !! i with
      | None => ([], c)
      | Some s =>
          if got_hello s && (1 <=? msec_interval s) && (Z.rem sends (msec_interval s) =? 0) then
            let seq := u32 (last_seq s + 1) in
            let c := set_counts (count_sent (cnt c)) (update_session i (set_last_seq seq) c) in
            let tx := ping_data (s_id s) seq in
            let '(c, ok) :=
              match io with
              | (Some ts, now) :: _ => (client_res_insert (dst s) tx ts now c, true)
              | _ => (c, false)
              end in
            let '(e, c) := transmit_from sends n' (S i) (tail io) c in
            (SetDscp (u8 (Z.shiftl (dscp s) 2)) :: Sendto (dst s) tx ok :: e, c)
          else transmit_from sends n' (S i) io c
      end
  end.

Definition client_msess_transmit (sends : Z) (io : list sending) (c : client) : list effect * client :=
  transmit_from sends (length (msess_head c)) 0 io c.

(** ** Managing sessions *)

(** [found] is the answer of getaddrinfo. *)
Definition client_msess_add (found : option addr) (dscp wait id : Z) (c : client) : Z * client :=
  match found with
  | None => (-1, c)
  | Some a => (0, set_msess (mkMsess id [] a wait false dscp 0 0 :: msess_head c) c)
  end.

Definition same_addr (a : addr) (s : msess) : bool := sin6_addr a =? sin6_addr (dst s).

Definition client_msess_gothello (a : addr) (c : client) : Z * client :=
  (if existsb (same_addr a) (msess_head c) then 0 else -1,
   set_msess ((fun s => if same_addr a s then set_hello s else s) <$> msess_head c) c).

Definition client_msess_isaddrtaken (a : addr) (id : Z) (c : client) : bool :=
  existsb (fun s => negb (s_id s =? id) && negb (child_pid s =? 0) && same_addr a s) (msess_head c).

(** [pids] are the results of [client_fork] in the parent. *)
Fixpoint forkall_from (n i : nat) (pids : list Z) (c : client) : list effect * client :=
  match n with
  | O => ([], c)
  | S n' =>
      match msess_head c !! i with
      | None => ([], c)
      | Some s =>
          if client_msess_isaddrtaken (dst s) (s_id s) c then forkall_from n' (S i) pids c
          else
            let pid := match pids with p :: _ => p | [] => -1 end in
            let '(e, c) := forkall_from n' (S i) (tail pids) (update_session i (set_child pid) c) in
            (Fork (dst s) :: e, c)
      end
  end.

Definition client_msess_forkall (pids : list Z) (c : client) : list effect * client :=
  forkall_from (length (msess_head c)) 0 pids c.

(** ** The configuration: client_msess_reconf *)

(** [atoi]: blanks, a sign, digits up to another character; the value is that
    of strtol, cut to an int. *)
Definition blank (a : ascii) : bool := let n := N_of_ascii a in (n =? 32)%N || ((9 <=? n)%N && (n <=? 13)%N).

Fixpoint digits (acc : Z) (s : string) : Z :=
  match s with
  | String a s' =>
      let n := Z.of_N (N_of_ascii a) in
      if (48 <=? n) && (n <=? 57) then digits (10 * acc + (n - 48)) s' else acc
  | EmptyString => acc
  end.

Fixpoint atoi (s : string) : Z :=
  match s with
  | EmptyString => 0
  | String a s' =>
      if blank a then atoi s'
      else if Ascii.eqb a "-"%char then s32 (Z.max (- digits 0 s') (- 2 ^ 63))
      else if Ascii.eqb a "+"%char then s32 (Z.min (digits 0 s') (2 ^ 63 - 1))
      else s32 (Z.min (digits 0 s) (2 ^ 63 - 1))
  end.

(** A node of the parsed document below its root: an element with its name, the
    attribute id and its children that are elements with their content. *)
Inductive xml_node :=
  | Element (name : string) (id : option string) (children : list (string * string))
  | OtherNode.

Definition XML_NODE : string := "probe".

Definition configure (resolve : string -> option addr) (s : msess * bool) (k : string * string) : msess * bool :=
  let '(m, ok) := s in let '(name, c) := k in
  if String.eqb name "interval" then
    (mkMsess (s_id m) (res_head m) (dst m) (atoi c) (got_hello m) (dscp m) (child_pid m) (last_seq m), ok)
  else if String.eqb name "address" then
    match resolve c with
    | None => (m, ok)
    | Some a => (mkMsess (s_id m) (res_head m) a (msec_interval m) (got_hello m) (dscp m) (child_pid m) (last_seq m), true)
    end
  else if String.eqb name "dscp" then
    (mkMsess (s_id m) (res_head m) (dst m) (msec_interval m) (got_hello m) (u8 (atoi c)) (child_pid m) (last_seq m), ok)
  else s.

Definition add_node (resolve : string -> option addr) (l : list msess) (n : xml_node) : list msess :=
  match n with
  | OtherNode => l
  | Element name id children =>
      if negb (String.prefix XML_NODE name) then l
      else
        match id with
        | None => l
        | Some c =>
            let m := mkMsess (u32 (atoi c)) [] (mkAddr 0 0) 1000 false 0 0 0 in
            let '(m, ok) := fold_left (configure resolve) children (m, false) in
            if ok then m :: l else l
        end
  end.

Definition kill_children (l : list msess) : list effect :=
  l ≫= (fun s => (if child_pid s =? 0 then [] else [Kill (child_pid s)]) ++ (Free <$> res_head s)).

(** [doc] is what xmlParseFile returns: nothing, a document without a root or
    the children of the root. *)
Definition client_msess_reconf (op : opmode) (resolve : string -> option addr) (doc : option (option (list xml_node)))
    (c : client) : Z * list effect * client :=
  match op, doc with
  | DAEMON, Some (Some nodes) =>
      (0, kill_children (msess_head c), set_msess (fold_left (add_node resolve) nodes []) c)
  | _, _ => (-1, [], c)
  end.

(** ** The clock process: client_send_fork *)

Record ticker := mkTicker { niter : Z; time_dev : Z; last_check : timespec }.

Definition ideal : timespec := mkTime 0 (SEND_INTERVAL * SEND_INTERVAL_DEV_INTERVAL * 1000).

(** One iteration: how long it sleeps; [now] is the clock, read every
    hundredth time. *)
Definition tick (now : timespec) (t : ticker) : Z * ticker :=
  let pause := SEND_INTERVAL - time_dev t in
  if Z.rem (niter t) SEND_INTERVAL_DEV_INTERVAL =? 0 then
    let '(passed, _) := diff_ts now (last_check t) in
    let '(diff, neg) := diff_ts passed ideal in
    let t_dev := s32 (Z.quot (Z.quot (tv_nsec diff) 1000) SEND_INTERVAL_DEV_INTERVAL) in
    let dev := s32 (if neg =? 0 then time_dev t + t_dev else time_dev t - t_dev) in
    let dev := if dev >? 300 then 300 else if dev <? -300 then -300 else dev in
    (pause, mkTicker (s32 (niter t + 1)) dev now)
  else (pause, mkTicker (s32 (niter t + 1)) (time_dev t) (last_check t)).

(** ** The TCP process: client_fork *)

(** What happens to one attempt: it fails before there is a connection, or the
    connection delivers some reads and is lost. *)
Inductive attempt :=
  | SetupFails
  | Connection (reads : list (list Z)).

(** The packets written to the main process: the data of the last read over
    what was there. *)
Fixpoint forward (buf : list Z) (reads : list (list Z)) : list (list Z) * list Z :=
  match reads with
  | [] => ([], buf)
  | r :: reads' =>
      let got := take DATALEN r in
      let buf := got ++ drop (length got) buf in
      let '(w, buf') := forward buf reads' in (buf :: w, buf')
  end.

(** [true] if the process has ended. *)
Fixpoint client_fork (l : list attempt) (fail_setup fail_exec : Z) (buf : list Z) : list (list Z) * bool :=
  match l with
  | [] => ([], false)
  | SetupFails :: l' => if fail_setup + 1 >? 3 then ([], true) else client_fork l' (fail_setup + 1) fail_exec buf
  | Connection reads :: l' =>
      let '(w, buf') := forward buf reads in
      if fail_exec + 1 >=? 12 then (w, true)
      else let '(w', x) := client_fork l' fail_setup (fail_exec + 1) buf' in (w ++ w', x)
  end.

(** ** The summary: client_res_summary *)

(** The numbers that are not doubles: of results in total, and lost. *)
Definition summary (s : stats) : Z * Z :=
  (res_ok s + res_dserror s + res_tserror s + res_timeout s + res_pongloss s, res_timeout s + res_pongloss s).
