(* ===== verification/ProbedLoop.v ===== *)
(** * The server and the main loop of SLANG-probed: net.c, tstamp.c, loop.c,
    main.c

    Control messages of a packet are a list; their data are bytes, with the
    padding after them.  One iteration of [loop_or_die] gets what [select] found
    ready, with the results of the calls made then; a wait for the time of a
    packet ends with its list.  The set of file descriptors is a list without
    order.  [None] is an access outside an array: a control message that is
    shorter than what is read from it, or a descriptor beyond an [fd_set]. *)

From Stdlib Require Import ZArith Lia Ascii String.
From stdpp Require Import base numbers option list.
From S2P Require Import Prelude Ping PingPacket Probed.

Local Open Scope list_scope.
Local Open Scope Z_scope.
Local Abbreviation length := List.length.

(** ** Control messages: tstamp.c and net.c *)

Inductive tsmode := HARDWARE | KERNEL | USERLAND.

Record cmsg := mkCmsg { cmsg_level : Z; cmsg_type : Z; cmsg_data : list Z }.

Definition SOL_SOCKET : Z := 1.
Definition SO_TIMESTAMPNS : Z := 35.
Definition SO_TIMESTAMPING : Z := 37.
Definition IPPROTO_IP : Z := 0.
Definition IP_TOS : Z := 1.
Definition IPPROTO_IPV6 : Z := 41.
Definition IPV6_RECVERR : Z := 25.
Definition IPV6_TCLASS : Z := 67.
Definition SO_EE_ORIGIN_TIMESTAMPING : Z := 4.
Definition FD_SETSIZE : Z := 1024.

(** [ok] has bit 0 once the time was found and bit 1 once the message is known
    to be about a sent packet. *)
Fixpoint extract_from (mode : tsmode) (tx : bool) (l : list cmsg) (ok : Z) (ts : timespec) : option (Z * timespec) :=
  match l with
  | [] => Some (-1, ts)
  | m :: l' =>
      if cmsg_level m =? SOL_SOCKET then
        match mode with
        | USERLAND =>
            if cmsg_type m =? SO_TIMESTAMPNS then t ← decode_time (cmsg_data m); Some (0, t)
            else extract_from mode tx l' ok ts
        | _ =>
            if cmsg_type m =? SO_TIMESTAMPING then
              t ← decode_time (drop (match mode with HARDWARE => 32 | _ => 0 end) (cmsg_data m));
              if negb tx then Some (0, t)
              else
                let ok := Z.lor ok 1 in
                if ok =? 3 then Some (0, t) else extract_from mode tx l' ok t
            else extract_from mode tx l' ok ts
        end
      else if tx && (cmsg_level m =? IPPROTO_IPV6) then
        if cmsg_type m =? IPV6_RECVERR then
          origin ← cmsg_data m !! 4%nat;
          if origin =? SO_EE_ORIGIN_TIMESTAMPING then
            let ok := Z.lor ok 2 in
            if ok =? 3 then Some (0, ts) else extract_from mode tx l' ok ts
          else extract_from mode tx l' ok ts
        else extract_from mode tx l' ok ts
      else extract_from mode tx l' ok ts
  end.

Definition tstamp_extract (mode : tsmode) (l : list cmsg) (tx : bool) : option (Z * timespec) :=
  extract_from mode tx l 0 no_time.

Fixpoint dscp_extract (l : list cmsg) : option (Z * Z) :=
  match l with
  | [] => Some (-1, 0)
  | m :: l' =>
      if (cmsg_level m =? IPPROTO_IP) && (cmsg_type m =? IP_TOS) || (cmsg_level m =? IPPROTO_IPV6) && (cmsg_type m =? IPV6_TCLASS)
      then v ← load32 0 (cmsg_data m); Some (0, Z.shiftr (u8 v) 2)
      else dscp_extract l'
  end.

(** [struct packet]. *)
Record packet := mkPacket { p_addr : addr; p_dscp : Z; p_data : list Z; p_ts : timespec }.

(** What recvmsg delivers. *)
Record delivery := mkDelivery { v_addr : addr; v_bytes : list Z; v_cmsgs : list cmsg }.

(** Without MSG_ERRQUEUE.  The result and [pkt]; if the length is wrong the
    data have been cleared and overwritten as far as they came. *)
Definition recv_w_ts (mode : tsmode) (v : option delivery) (pkt : packet) : option (Z * packet) :=
  match v with
  | None => Some (-1, mkPacket (p_addr pkt) (p_dscp pkt) (replicate DATALEN 0) (p_ts pkt))
  | Some v =>
      let got := take DATALEN (v_bytes v) in
      let buf := got ++ replicate (DATALEN - length got) 0 in
      if negb (length got =? DATALEN)%nat then Some (-1, mkPacket (v_addr v) (p_dscp pkt) buf (p_ts pkt))
      else
        '(_, ts) ← tstamp_extract mode (v_cmsgs v) false;
        '(_, ds) ← dscp_extract (v_cmsgs v);
        Some (0, mkPacket (v_addr v) ds buf ts)
  end.

(** With MSG_ERRQUEUE: the time at which a packet was sent. *)
Definition recv_tx_ts (mode : tsmode) (v : option delivery) : option (option timespec) :=
  match v with
  | None => Some None
  | Some v =>
      if negb (length (take DATALEN (v_bytes v)) =? DATALEN)%nat then Some None
      else '(r, ts) ← tstamp_extract mode (v_cmsgs v) true; Some (if r <? 0 then None else Some ts)
  end.

(** Microseconds of a [struct timeval] pair: [timersub], [timercmp]. *)
Definition micros (t : timespec) : Z := tv_sec t * 1000000 + tv_nsec t.

(** Rounds of the wait for the error queue: the clock before the round (which
    has microseconds), whether [select] found something, what was received. *)
Record wait_round := mkWait { w_now : timespec; w_ready : bool; w_got : option delivery }.

Fixpoint fetch_loop (mode : tsmode) (start : timespec) (rounds : list wait_round) : option (option timespec) :=
  match rounds with
  | [] => Some None
  | w :: rounds' =>
      if micros (w_now w) - micros start <? 10000 then
        if w_ready w then
          r ← recv_tx_ts mode (w_got w);
          match r with
          | Some ts => Some (Some ts)
          | None => fetch_loop mode start rounds'
          end
        else fetch_loop mode start rounds'
      else Some None
  end.

Definition tstamp_fetch_tx (mode : tsmode) (start : timespec) (rounds : list wait_round) : option (option timespec) :=
  fetch_loop mode start rounds.

(** The answers to one call of [send_w_ts]: the clock, whether [sendto] failed,
    and the wait for the time. *)
Record send_io := mkSend { o_clock : timespec; o_sent : bool; o_start : timespec; o_rounds : list wait_round }.

(** The result is the time of sending; the second one is what [ts] holds. *)
Definition send_w_ts (mode : tsmode) (o : send_io) : option (option timespec * timespec) :=
  let ts := match mode with USERLAND => o_clock o | _ => no_time end in
  if negb (o_sent o) then Some (None, ts)
  else match mode with
       | USERLAND => Some (Some ts, ts)
       | _ =>
           r ← tstamp_fetch_tx mode (o_start o) (o_rounds o);
           Some (r, match r with Some t => t | None => no_time end)
       end.

(** The modes, from the one asked for down to what the system can do. *)
Definition tstamp_mode_userland : tsmode := USERLAND.
Definition tstamp_mode_kernel (setsockopt_ok : bool) : tsmode := if setsockopt_ok then KERNEL else tstamp_mode_userland.
Definition tstamp_mode_hardware (ioctl_ok setsockopt_ok : bool) : tsmode :=
  if negb ioctl_ok then tstamp_mode_kernel setsockopt_ok
  else if setsockopt_ok then HARDWARE else tstamp_mode_userland.

(** ** The peers of the server: loop.c *)

Record server_peer := mkPeer { peer_addr : addr; peer_fd : Z }.

Record loop_state := mkLoop {
  peers : list server_peer;
  nclients : Z;
  fs : list Z;
  fd_max : Z;
  sends : Z;
  should_reload : bool;
  pkt : packet;
  tx : data;
  count_server_resp : Z;
  cl : client
}.

Definition set_peers (l : list server_peer) (n : Z) (f : list Z) (m : Z) (s : loop_state) : loop_state :=
  mkLoop l n f m (sends s) (should_reload s) (pkt s) (tx s) (count_server_resp s) (cl s).
Definition set_pkt (p : packet) (s : loop_state) : loop_state :=
  mkLoop (peers s) (nclients s) (fs s) (fd_max s) (sends s) (should_reload s) p (tx s) (count_server_resp s) (cl s).
Definition set_tx (d : data) (s : loop_state) : loop_state :=
  mkLoop (peers s) (nclients s) (fs s) (fd_max s) (sends s) (should_reload s) (pkt s) d (count_server_resp s) (cl s).
Definition set_resp (n : Z) (s : loop_state) : loop_state :=
  mkLoop (peers s) (nclients s) (fs s) (fd_max s) (sends s) (should_reload s) (pkt s) (tx s) n (cl s).
Definition set_client (c : client) (s : loop_state) : loop_state :=
  mkLoop (peers s) (nclients s) (fs s) (fd_max s) (sends s) (should_reload s) (pkt s) (tx s) (count_server_resp s) c.
Definition set_sends (n : Z) (r : bool) (s : loop_state) : loop_state :=
  mkLoop (peers s) (nclients s) (fs s) (fd_max s) n r (pkt s) (tx s) (count_server_resp s) (cl s).

Inductive action :=
  | Client (e : effect)
  | Pong (a : addr) (bytes : list Z)
  | TcpSend (fd : Z) (bytes : list Z)
  | Close (fd : Z).

Definition server_find_peer_fd (a : addr) (s : loop_state) : Z :=
  match list_find (fun p => sin6_addr (peer_addr p) = sin6_addr a) (peers s) with
  | Some (_, p) => peer_fd p
  | None => -1
  end.

Fixpoint remove_peer (fd : Z) (l : list server_peer) : list server_peer :=
  match l with
  | [] => []
  | p :: l' => if peer_fd p =? fd then l' else p :: remove_peer fd l'
  end.

(** [FD_SET] and [FD_CLR]. *)
Definition fd_set (fd : Z) (l : list Z) : option (list Z) :=
  if (0 <=? fd) && (fd <? FD_SETSIZE) then Some (if decide (fd ∈ l) then l else fd :: l) else None.
Definition fd_clr (fd : Z) (l : list Z) : option (list Z) :=
  if (0 <=? fd) && (fd <? FD_SETSIZE) then Some (filter (.≠ fd) l) else None.

Definition server_kill_peer (fd : Z) (s : loop_state) : option (list action * loop_state) :=
  f ← fd_clr fd (fs s);
  Some ([Close fd], set_peers (remove_peer fd (peers s)) (u32 (nclients s - 1)) f
                      (if fd =? fd_max s then fd_max s - 1 else fd_max s) s).

(** A send on a TCP connection; the peer is dropped if it fails. *)
Definition tcp_send (fd : Z) (sent : bool) (s : loop_state) : option (list action * loop_state) :=
  let out := TcpSend fd (encode_data (tx s)) in
  if sent then Some ([out], s)
  else '(e, s) ← server_kill_peer fd s; Some (out :: e, s).

(** ** One iteration *)

Record settings := mkSettings {
  op : opmode;
  mode : tsmode;
  lock : bool;
  fd_client_low : Z;
  npackets : Z;
  thold : Z
}.

(** The UDP socket: what is received, and the answers if it is a PING: of the
    send of the PONG, of the send on TCP; the clock for duplicates. *)
Record udp_io := mkUdp { u_got : option delivery; u_pong : send_io; u_tcp_ok : bool; u_now : timespec }.

(** A PING is answered.  The last result is [true] where the code says
    [continue]. *)
Definition answer_ping (cf : settings) (rx : data) (u : udp_io) (s : loop_state) : option (list action * loop_state * bool) :=
  let s := set_resp (count_server_resp s + 1) s in
  let t := mkData TYPE_PONG (d_seq rx) (d_id rx) (d_pad (tx s)) (p_ts (pkt s)) (d_t3 (tx s)) in
  '(_, ts) ← send_w_ts (mode cf) (u_pong u);
  let pong := [Client (SetDscp (u8 (Z.shiftl (p_dscp (pkt s)) 2))); Pong (p_addr (pkt s)) (encode_data t)] in
  let s := set_tx (mkData TYPE_TIME (d_seq t) (d_id t) (d_pad t) (d_t2 t) ts) s in
  let fd := server_find_peer_fd (p_addr (pkt s)) s in
  if fd <? 0 then Some (pong, s, true)
  else '(e, s) ← tcp_send fd (u_tcp_ok u) s; Some (pong ++ e, s, false).

Definition udp_ready (cf : settings) (u : udp_io) (s : loop_state) : option (list action * loop_state * Z * bool) :=
  '(r, p) ← recv_w_ts (mode cf) (u_got u) (pkt s);
  let s := set_pkt p s in
  if r <? 0 then Some ([], s, 0, false)
  else
    rx ← decode_data (p_data p);
    if d_type rx =? TYPE_PING then
      '(e, s, cont) ← answer_ping cf rx u s; Some (e, s, 1, cont)
    else if d_type rx =? TYPE_PONG then
      let '(e, c) := client_res_update (op cf) (p_addr p) rx (Some (p_ts p)) (p_dscp p) (npackets cf) (thold cf) (u_now u) (cl s) in
      Some (Client <$> e, set_client c s, 1, false)
    else Some ([], s, 1, false).

(** The TCP socket: the result of [accept], whether the address can be printed,
    whether the hello could be sent. *)
Record tcp_io := mkTcp { a_fd : Z; a_addr : addr; a_str_ok : bool; a_hello_ok : bool }.

Definition hello : data := mkData TYPE_HELO 0 0 0 no_time no_time.

Definition tcp_ready (cf : settings) (a : tcp_io) (s : loop_state) : option (list action * loop_state * Z) :=
  if (a_fd a <? 0) || negb (a_str_ok a) then Some ([], s, 0)
  else if (0 <? nclients s) && lock cf then Some ([], s, 0)
  else
    f ← fd_set (a_fd a) (fs s);
    let s := set_peers (peers s) (u32 (nclients s + 1)) f (Z.max (fd_max s) (a_fd a)) s in
    let s := set_tx hello s in
    '(e, s) ← tcp_send (a_fd a) (a_hello_ok a) s;
    Some (e, set_peers (mkPeer (a_addr a) (a_fd a) :: peers s) (nclients s) (fs s) (fd_max s) s, 1).

(** The pipe from the TCP processes: a packet, or a failed read. *)
Definition pipe_ready (cf : settings) (r : option packet) (now : timespec) (s : loop_state)
    : option (list action * loop_state * Z) :=
  match r with
  | None => Some ([], s, 0)
  | Some p =>
      rx ← decode_data (p_data p);
      let s := set_pkt p s in
      if d_type rx =? TYPE_HELO then
        Some ([], set_client (snd (client_msess_gothello (p_addr p) (cl s))) s, 1)
      else if d_type rx =? TYPE_TIME then
        let '(e, c) := client_res_update (op cf) (p_addr p) rx None (-1) (npackets cf) (thold cf) now (cl s) in
        Some (Client <$> e, set_client c s, 1)
      else Some ([], s, 1)
  end.

(** The pipe from the clock process: how many bytes there were, the answers to
    the sends, the configuration, the new processes, the clock. *)
Record send_ready_io := mkTick {
  k_bytes : Z;
  k_sends : list sending;
  k_resolve : string -> option addr;
  k_doc : option (option (list xml_node));
  k_pids : list Z;
  k_now : timespec
}.

Definition reload_step (cf : settings) (k : send_ready_io) (s : loop_state) : list effect * loop_state :=
  if should_reload s then
    let '(_, e, c) := client_msess_reconf (op cf) (k_resolve k) (k_doc k) (cl s) in
    let '(e', c) := client_msess_forkall (k_pids k) c in
    (e ++ e', set_client c (set_sends (sends s) false s))
  else ([], s).

Definition reset_counts (n : counts) : counts :=
  mkCounts 0 0 (count_client_find n) (count_client_fifoq n) (count_client_fifoq_max n).

Definition stats_step (cf : settings) (s : loop_state) : loop_state :=
  match op cf with
  | DAEMON =>
      if Z.rem (sends s) 10000 =? 0
      then set_resp 0 (set_client (set_counts (reset_counts (cnt (cl s))) (cl s)) s) else s
  | _ => s
  end.

Definition send_ready (cf : settings) (k : send_ready_io) (s : loop_state) : list action * loop_state * Z :=
  if 0 <? k_bytes k then
    let '(e1, c) := client_msess_transmit (sends s) (k_sends k) (cl s) in
    let '(e2, s) := reload_step cf k (set_client c s) in
    let '(e3, c) :=
      if Z.rem (sends s) (Z.quot TIMEOUT_INTERVAL SEND_INTERVAL) =? 0
      then client_res_clear_timeouts (op cf) (k_now k) (cl s) else ([], cl s) in
    let s := stats_step cf (set_client c s) in
    (Client <$> (e1 ++ e2 ++ e3), set_sends (s32 (sends s + 1)) (should_reload s) s, k_bytes k)
  else ([], s, 0).

(** Descriptors from [fd] on that are ready although they should not be. *)
Fixpoint kill_ready (ready : list Z) (n : nat) (fd : Z) (s : loop_state) : option (list action * loop_state) :=
  match n with
  | O => Some ([], s)
  | S n' =>
      if fd <=? fd_max s then
        '(e, s) ← (if decide (fd ∈ ready) then server_kill_peer fd s else Some ([], s));
        '(e', s) ← kill_ready ready n' (fd + 1) s;
        Some (e ++ e', s)
      else Some ([], s)
  end.

Record ready := mkReady {
  on_udp : option udp_io;
  on_tcp : option tcp_io;
  on_pipe : option (option packet * timespec);
  on_send : option send_ready_io;
  on_fds : list Z                  (* other descriptors of [fs] *)
}.

(** The handler of SIGINT, or its default action, ends the process. *)
Definition interrupted (e : list action) : bool :=
  existsb (fun x => match x with Client Interrupt => true | _ => false end) e.

Definition iteration (cf : settings) (r : ready) (s : loop_state) : option (list action * loop_state) :=
  '(e1, s, ok, cont) ← match on_udp r with Some u => udp_ready cf u s | None => Some ([], s, 0, false) end;
  if (cont : bool) || interrupted e1 then Some (e1, s)
  else
    '(e2, s, ok) ← match on_tcp r with Some a => tcp_ready cf a s | None => Some ([], s, ok) end;
    '(e3, s, ok) ← match on_pipe r with Some (x, now) => pipe_ready cf x now s | None => Some ([], s, ok) end;
    if interrupted e3 then Some (e1 ++ e2 ++ e3, s)
    else
      let '(e4, s, ok) := match on_send r with Some k => send_ready cf k s | None => ([], s, ok) end in
      '(e5, s) ← (if ok =? 0 then kill_ready (on_fds r) (Z.to_nat (fd_max s - fd_client_low cf + 1)) (fd_client_low cf) s
                  else Some ([], s));
      Some (e1 ++ e2 ++ e3 ++ e4 ++ e5, s).

(** A run; [None] among the events is a failed [select]. *)
Fixpoint loop_or_die (cf : settings) (l : list (option ready)) (s : loop_state) : option (list action * loop_state) :=
  match l with
  | [] => Some ([], s)
  | None :: l' => loop_or_die cf l' s
  | Some r :: l' =>
      '(e, s) ← iteration cf r s;
      if interrupted e then Some (e, s)
      else '(e', s) ← loop_or_die cf l' s; Some (e ++ e', s)
  end.

(** ** The command line: main.c *)

Record arguments := mkArguments {
  cfgpath : string;
  iface : string;
  port : string;
  opt_op : option opmode;          (* HELP is none *)
  opt_lock : bool;
  opt_file : bool;
  tstamp : tsmode;
  target : string;
  fifopath : string;
  opt_wait : string;
  opt_npackets : string;
  opt_thold : string
}.

Definition default_arguments : arguments :=
  mkArguments "probed.conf" "eth0" "60666" None false false HARDWARE "" "" "500" "2147483646" "0".

(** One option with its argument; [None] ends the program with EXIT_FAILURE. *)
Definition parse_arg (a : arguments) (o : ascii * string) : option arguments :=
  let '(c, arg) := o in
  let with_ cp ifc po op lk fi ts ta ff wa np th := Some (mkArguments cp ifc po op lk fi ts ta ff wa np th) in
  let '(mkArguments cp ifc po op lk fi ts ta ff wa np th) := a in
  if Ascii.eqb c "q" then Some a
  else if Ascii.eqb c "f" then with_ arg ifc po op lk fi ts ta ff wa np th
  else if Ascii.eqb c "i" then with_ cp arg po op lk fi ts ta ff wa np th
  else if Ascii.eqb c "p" then with_ cp ifc arg op lk fi ts ta ff wa np th
  else if Ascii.eqb c "w" then with_ cp ifc po op lk fi ts ta ff arg np th
  else if Ascii.eqb c "n" then with_ cp ifc po op lk fi ts ta ff wa arg th
  else if Ascii.eqb c "t" then with_ cp ifc po op lk fi ts ta ff wa np arg
  else if Ascii.eqb c "k" then with_ cp ifc po op lk fi KERNEL ta ff wa np th
  else if Ascii.eqb c "u" then with_ cp ifc po op lk fi USERLAND ta ff wa np th
  else if Ascii.eqb c "s" then with_ cp ifc po (Some SERVER) lk fi ts ta ff wa np th
  else if Ascii.eqb c "l" then with_ cp ifc po op true fi ts ta ff wa np th
  else if Ascii.eqb c "o" then with_ cp ifc po op lk true ts ta ff wa np th
  else if Ascii.eqb c "d" then with_ cp ifc po (Some DAEMON) lk fi ts ta arg wa np th
  else if Ascii.eqb c "c" then with_ cp ifc po (Some CLIENT) lk fi ts arg ff wa np th
  else None.

Definition parse_args (l : list (ascii * string)) : option arguments := foldl (fun a o => a ← a; parse_arg a o) (Some default_arguments) l.

(** The start of the loop: [low] is the largest descriptor of its sockets and
    pipes, [fds] those it listens to, [found] the answer of getaddrinfo for the
    target of a client. *)
Definition start (l : list (ascii * string)) (ioctl_ok setsockopt_ok : bool) (found : option addr) (low : Z) (fds : list Z)
    (stale : packet) (stale_tx : data) (ans : list bool) : option (settings * loop_state) :=
  a ← parse_args l;
  o ← opt_op a;
  let m := match tstamp a with
           | HARDWARE => tstamp_mode_hardware ioctl_ok setsockopt_ok
           | KERNEL => tstamp_mode_kernel setsockopt_ok
           | USERLAND => tstamp_mode_userland
           end in
  let cf := mkSettings o m (opt_lock a) low (atoi (opt_npackets a)) (atoi (opt_thold a)) in
  let go r c := Some (cf, mkLoop [] 0 fds low 0 r stale stale_tx 0 c) in
  match o with
  | SERVER => go false (client_init ans)
  | DAEMON => go true (client_init ans)
  | CLIENT =>
      let '(r, c) := client_msess_add found 0 (atoi (opt_wait a)) 0 (client_init ans) in
      if r =? 0 then go true c else None
  end.
