(* ===== verification/ProbedSpec.v ===== *)
(** * What the client of SLANG-probed does

    Times and their differences, the pipe as a queue, and the account of the
    probes: each one is outstanding or was reported, exactly once. *)

From Stdlib Require Import ZArith Lia Ascii String.
From stdpp Require Import base numbers option list.
From S2P Require Import Prelude Ping PingSpec PingReply PingPace PingPacket PingFour Probed.

Local Open Scope list_scope.
Local Open Scope Z_scope.
Local Abbreviation length := List.length.

(** ** Times *)

Definition normal (t : timespec) : Prop := 0 <= tv_nsec t < 1000000000 /\ - 2 ^ 62 <= tv_sec t < 2 ^ 62.

(** Differences that fit are exact, from the inside out. *)
Ltac exact_s64 :=
  repeat match goal with
    | |- context [wraps 64 ?x] =>
        lazymatch x with context [wraps] => fail | _ => rewrite (wraps_id 64 x) by (unfold in_s; lia) end
    end.

Lemma diff_ts_run a b : normal a -> normal b ->
  nanos (fst (diff_ts a b)) = Z.abs (nanos a - nanos b)
  /\ 0 <= tv_nsec (fst (diff_ts a b)) < 1000000000 /\ 0 <= tv_sec (fst (diff_ts a b)) < 2 ^ 63
  /\ snd (diff_ts a b) = (if nanos a <? nanos b then 1 else 0).
Proof.
  intros [Ha Ha'] [Hb Hb']. unfold diff_ts, nanos.
  destruct (Z.gtb_spec (tv_sec a) (tv_sec b)); [|destruct (Z.ltb_spec (tv_sec a) (tv_sec b))];
    (destruct (Z.gtb_spec (tv_nsec a) (tv_nsec b)); [|destruct (Z.ltb_spec (tv_nsec a) (tv_nsec b))]); cbn [fst snd tv_sec tv_nsec];
    exact_s64; (split; [lia|]); (split; [lia|]); (split; [lia|]);
    destruct (Z.ltb_spec (1000000000 * tv_sec a + tv_nsec a) (1000000000 * tv_sec b + tv_nsec b)); lia.
Qed.

Lemma cmp_ts_run a b : 0 <= tv_nsec a < 1000000000 -> 0 <= tv_nsec b < 1000000000 -> cmp_ts a b = Z.sgn (nanos a - nanos b).
Proof.
  intros Ha Hb. unfold cmp_ts, nanos. destruct (Z.ltb_spec (tv_sec a) (tv_sec b)); [lia|]. destruct (Z.gtb_spec (tv_sec a) (tv_sec b)); [lia|].
  destruct (Z.ltb_spec (tv_nsec a) (tv_nsec b)); [lia|]. destruct (Z.gtb_spec (tv_nsec a) (tv_nsec b)); lia.
Qed.

(** ** The pipe *)

Definition written (e : list effect) : list res_fifo := omap (fun x => match x with Fifo r => Some r | _ => None end) e.

Lemma written_app e e' : written (e ++ e') = written e ++ written e'.
Proof. apply omap_app. Qed.

Lemma written_fifo l : written (Fifo <$> l) = l.
Proof. induction l as [|x l IH]; [done|]. unfold written in *. cbn. by rewrite IH. Qed.

Lemma flush_run q : forall ans w q' ans', flush q ans = (w, q', ans') -> q = w ++ q'.
Proof.
  induction q as [|r q IH]; intros ans w q' ans'; cbn [flush]; [by intros [= <- <- <-]|].
  destruct ans as [|[] ans]; [by intros [= <- <- <-]| |by intros [= <- <- <-]].
  destruct (flush q ans) as [[w1 q1] a1] eqn:E. intros [= <- <- <-]. cbn. f_equal. eauto.
Qed.

(** Nothing is lost or doubled, the counter is the length of the queue, and
    nothing else changes. *)
Lemma write_fifo_run r c : let '(e, c') := client_write_fifo r c in
  written e ++ fifoq_head c' ≡ₚ fifoq_head c ++ [r] /\ e = Fifo <$> written e
  /\ msess_head c' = msess_head c /\ sta c' = sta c
  /\ count_client_fifoq (cnt c') - Z.of_nat (length (fifoq_head c')) = count_client_fifoq (cnt c) - Z.of_nat (length (fifoq_head c)).
Proof.
  unfold client_write_fifo. destruct (flush (fifoq_head c) (answers c)) as [[w q] ans] eqn:E. apply flush_run in E. rewrite E.
  destruct ans as [|[] ans]; cbn [tail]; rewrite written_fifo; cbn [fifoq_head msess_head sta cnt count_client_fifoq count_fifoq].
  - split; [by rewrite (assoc_L (++))|]. split_and!; [done..|]. rewrite !length_app. cbn [length]. lia.
  - split; [rewrite <- !(assoc_L (++)); f_equiv; cbn; apply Permutation_cons_append|]. split_and!; [done..|].
    rewrite !length_app. lia.
  - split; [by rewrite (assoc_L (++))|]. split_and!; [done..|]. rewrite !length_app. cbn [length]. lia.
Qed.

(** ** The account of the probes *)

(** A probe is known by its session and number. *)
Definition res_key (r : res) : Z * Z := (u32 (r_id r), u32 (r_seq r)).

Definition pending (c : client) : list res := msess_head c ≫= res_head.

(** The probes that were handed to [send_w_ts]. *)
Definition sent (e : list effect) : list (Z * Z) :=
  omap (fun x => match x with Sendto _ d _ => Some (u32 (d_id d), u32 (d_seq d)) | _ => None end) e.

(** Those it reported as failed: not sent, or sent without a time.  No result
    is kept for them. *)
Definition skipped (e : list effect) : list (Z * Z) :=
  omap (fun x => match x with Sendto _ d false => Some (u32 (d_id d), u32 (d_seq d)) | _ => None end) e.

(** Those whose result was dropped when a configuration was loaded. *)
Definition forgotten (e : list effect) : list (Z * Z) := omap (fun x => match x with Free r => Some (res_key r) | _ => None end) e.

(** Effects that are about no probe. *)
Definition quiet (e : list effect) : Prop := sent e = [] /\ skipped e = [] /\ forgotten e = [].

(** The probes that records are about; duplicates are about none. *)
Definition completed (l : list res_fifo) : list (Z * Z) :=
  (fun f => (f_id f, f_seq f)) <$> filter (fun f => f_state f ≠ STATE_DUP) l.

(** How often a probe occurs. *)
Fixpoint occ (k : Z * Z) (l : list (Z * Z)) : Z :=
  match l with [] => 0 | x :: l' => (if decide (x = k) then 1 else 0) + occ k l' end.

Lemma occ_app k l l' : occ k (l ++ l') = occ k l + occ k l'.
Proof. induction l as [|x l IH]; cbn [occ app]; lia. Qed.

#[export] Instance occ_perm k : Proper ((≡ₚ) ==> (=)) (occ k).
Proof. induction 1; cbn [occ]; lia. Qed.

Lemma sent_app e e' : sent (e ++ e') = sent e ++ sent e'.
Proof. apply omap_app. Qed.

Lemma skipped_app e e' : skipped (e ++ e') = skipped e ++ skipped e'.
Proof. apply omap_app. Qed.

Lemma forgotten_app e e' : forgotten (e ++ e') = forgotten e ++ forgotten e'.
Proof. apply omap_app. Qed.

Lemma quiet_app e e' : quiet e -> quiet e' -> quiet (e ++ e').
Proof. intros (H1 & H2 & H3) (G1 & G2 & G3). unfold quiet. by rewrite sent_app, skipped_app, forgotten_app, H1, H2, H3, G1, G2, G3. Qed.

Lemma completed_app l l' : completed (l ++ l') = completed l ++ completed l'.
Proof. unfold completed. by rewrite filter_app, fmap_app. Qed.

#[export] Instance completed_perm : Proper ((≡ₚ) ==> (≡ₚ)) completed.
Proof. intros l l' H. unfold completed. by rewrite H. Qed.

(** From [c] to [c'] with effects [e]: in a daemon each probe that was sent or
    outstanding is on the pipe, in its queue or outstanding, or was skipped or
    forgotten, as often as before; in a client the results counted make up for
    those no longer outstanding. *)
Definition balanced (op : opmode) (c : client) (e : list effect) (c' : client) : Prop :=
  match op with
  | SERVER => True
  | DAEMON => forall k, occ k (sent e) + occ k (res_key <$> pending c) + occ k (completed (fifoq_head c))
      = occ k (completed (written e)) + occ k (res_key <$> pending c') + occ k (completed (fifoq_head c'))
        + occ k (skipped e) + occ k (forgotten e)
  | CLIENT => Z.of_nat (length (sent e)) + Z.of_nat (length (pending c)) + fst (summary (sta c))
      = Z.of_nat (length (pending c')) + fst (summary (sta c')) + Z.of_nat (length (skipped e)) + Z.of_nat (length (forgotten e))
  end.

Lemma balanced_trans op c e c1 e1 c2 : balanced op c e c1 -> balanced op c1 e1 c2 -> balanced op c (e ++ e1) c2.
Proof.
  unfold balanced. rewrite sent_app, skipped_app, forgotten_app, written_app, completed_app, !length_app. destruct op; [done|lia|].
  intros H1 H2 k. specialize (H1 k). specialize (H2 k). rewrite !occ_app. lia.
Qed.

(** A change of the sessions alone. *)
Lemma balanced_sessions op c c' e : (res_key <$> pending c') ++ skipped e ++ forgotten e ≡ₚ sent e ++ (res_key <$> pending c) -> written e = [] ->
  fifoq_head c' = fifoq_head c -> sta c' = sta c -> balanced op c e c'.
Proof.
  intros Hp Hw Hq Hs. unfold balanced. rewrite Hw, Hq, Hs. destruct op; [done| |].
  - apply Permutation_length in Hp. rewrite !length_app, !length_fmap in Hp. lia.
  - intros k. assert (Hk : occ k ((res_key <$> pending c') ++ skipped e ++ forgotten e) = occ k (sent e ++ (res_key <$> pending c))) by by rewrite Hp.
    rewrite !occ_app in Hk. cbn. lia.
Qed.

Lemma balanced_kept op c c' e : res_key <$> pending c' ≡ₚ res_key <$> pending c -> quiet e -> written e = [] ->
  fifoq_head c' = fifoq_head c -> sta c' = sta c -> balanced op c e c'.
Proof. intros Hp (H1 & H2 & H3) Hw Hq Hs. apply balanced_sessions; [|done..]. by rewrite H1, H2, H3, !app_nil_r. Qed.

(** A session of the list and the results of the others. *)
Lemma bind_alter (l : list msess) : forall i s, l !! i = Some s -> exists rest, l ≫= res_head ≡ₚ res_head s ++ rest
  /\ forall f, alter f i l ≫= res_head ≡ₚ res_head (f s) ++ rest.
Proof.
  induction l as [|x l IH]; intros i s; [done|]. destruct i as [|i].
  - intros [= ->]. exists (l ≫= res_head). done.
  - cbn [lookup list_lookup]. intros H. destruct (IH i s H) as (rest & H1 & H2). exists (res_head x ++ rest). split.
    + cbn. rewrite H1. rewrite !(assoc_L (++)). by rewrite (comm (++) (res_head x)).
    + intros f. cbn. rewrite H2. rewrite !(assoc_L (++)). by rewrite (comm (++) (res_head x)).
Qed.

Lemma pending_at c i s : msess_head c !! i = Some s -> exists rest, pending c ≡ₚ res_head s ++ rest
  /\ forall f, pending (update_session i f c) ≡ₚ res_head (f s) ++ rest.
Proof. apply bind_alter. Qed.

Lemma pending_kept c i f : (forall s, res_head (f s) = res_head s) -> pending (update_session i f c) = pending c.
Proof.
  intros Hf. unfold pending, update_session. cbn [msess_head set_msess]. generalize (msess_head c). intros l. revert i.
  induction l as [|x l IH]; intros [|i]; [done..|cbn; by rewrite Hf|]. cbn. by rewrite IH.
Qed.

(** ** Results that are reported *)

(** [rs] were reported between [c] and [c']; the sessions are as they were. *)
Definition reported (op : opmode) (rs : list res) (c : client) (e : list effect) (c' : client) : Prop :=
  msess_head c' = msess_head c /\ quiet e
  /\ match op with
     | SERVER => True
     | DAEMON => forall k, occ k (completed (written e)) + occ k (completed (fifoq_head c'))
         = occ k (completed (fifoq_head c)) + occ k (res_key <$> rs)
     | CLIENT => fst (summary (sta c')) = fst (summary (sta c)) + Z.of_nat (length rs)
     end.

Lemma quiet_fifo l : quiet (Fifo <$> l).
Proof. by induction l. Qed.

Lemma reported_fifo r f c : (f_id f, f_seq f) = res_key r -> f_state f <> STATE_DUP ->
  let '(e, c') := client_write_fifo f c in reported DAEMON [r] c e c'.
Proof.
  intros Hk Hs. pose proof (write_fifo_run f c) as H. destruct (client_write_fifo f c) as [e c']. destruct H as (Hp & He & Hm & _).
  split; [done|]. split; [rewrite He; apply quiet_fifo|]. intros k. rewrite <- occ_app, <- completed_app, Hp, completed_app, occ_app.
  f_equal. unfold completed. rewrite filter_cons_True by done. cbn [filter list_filter fmap list_fmap occ]. rewrite Hk. lia.
Qed.

Lemma done_state r : f_state (done_record r) = STATE_SUCCESS \/ f_state (done_record r) = STATE_DS_ERR \/ f_state (done_record r) = STATE_TS_ERR.
Proof.
  unfold done_record. cbn [f_state]. destruct (Z.land _ _ =? 0), (t_neg _), (is_zero _ || _ || _ || _), (_ >? 20); cbn; auto.
Qed.

Lemma report_done_run op thold r c : let '(e, c') := report_done op thold r c in reported op [r] c e c'.
Proof.
  unfold report_done. set (c1 := set_counts _ c). pose proof (done_state r) as Hst.
  destruct op; [done| |].
  - destruct (Z.eqb_spec (f_state (done_record r)) STATE_TS_ERR); [|destruct (Z.eqb_spec (f_state (done_record r)) STATE_DS_ERR)];
      (split; [done|split; [done|cbn; lia]]).
  - pose proof (reported_fifo r (done_record r) c1) as H. destruct (client_write_fifo _ c1) as [e c'].
    apply H; [done|]. unfold STATE_SUCCESS, STATE_DS_ERR, STATE_TS_ERR, STATE_DUP in *. lia.
Qed.

Lemma report_lost_run op sec r c : let '(e, c') := report_lost op sec r c in reported op [r] c e c'.
Proof.
  unfold report_lost. cbn zeta. set (c1 := set_counts _ c).
  assert (Hst : f_state (lost_record r) = STATE_PONGLOSS \/ f_state (lost_record r) = STATE_TS_ERR \/ f_state (lost_record r) = STATE_TIMEOUT).
  { unfold lost_record. cbn [f_state]. destruct (negb _); [auto|]. destruct (negb _); auto. }
  destruct op; [done| |].
  - destruct Hst as [E | [E | E]]; rewrite !E; (split; [done|split; [done|cbn; lia]]).
  - pose proof (reported_fifo r (lost_record r) c1) as H. destruct (client_write_fifo _ c1) as [e c'].
    apply H; [done|]. unfold STATE_PONGLOSS, STATE_TIMEOUT, STATE_TS_ERR, STATE_DUP in *. lia.
Qed.

Lemma report_dup_run op d now c : let '(e, c') := report_dup op d now c in balanced op c e c' /\ msess_head c' = msess_head c /\ quiet e.
Proof.
  unfold report_dup. destruct op; [done| |].
  { split; [|done]. unfold balanced. change (pending (set_stats _ c)) with (pending c). generalize (length (pending c)). cbn. lia. }
  set (f := mkFifo _ _ _ _ _ _ _). pose proof (write_fifo_run f c) as H. destruct (client_write_fifo f c) as [e c'].
  destruct H as (Hp & He & Hm & _). assert (Hs : quiet e) by (rewrite He; apply quiet_fifo). split; [|done].
  intros k. destruct Hs as (-> & -> & ->). unfold pending. rewrite Hm. assert (Hc : occ k (completed (written e ++ fifoq_head c')) = occ k (completed (fifoq_head c ++ [f]))) by by rewrite Hp.
  rewrite !completed_app, !occ_app in Hc. change (occ k (completed [f])) with 0 in Hc. cbn. lia.
Qed.

Lemma reported_trans op rs rs' c e c1 e1 c2 : reported op rs c e c1 -> reported op rs' c1 e1 c2 -> reported op (rs ++ rs') c (e ++ e1) c2.
Proof.
  unfold reported. intros (H1 & H2 & H3) (G1 & G2 & G3). split; [congruence|]. split; [by apply quiet_app|].
  destruct op; [done|rewrite length_app; lia|]. intros k. specialize (H3 k). specialize (G3 k).
  rewrite written_app, completed_app, fmap_app, !occ_app. lia.
Qed.

(** What was reported and is no longer outstanding. *)
Lemma reported_balanced op rs c e c1 c' : reported op rs c e c1 -> (res_key <$> pending c) ≡ₚ (res_key <$> rs) ++ (res_key <$> pending c') ->
  fifoq_head c' = fifoq_head c1 -> sta c' = sta c1 -> balanced op c e c'.
Proof.
  intros (H1 & (H2 & H2' & H2'') & H3) Hp Hq Hs. unfold balanced. rewrite Hq, Hs, H2, H2', H2''. destruct op; [done| |].
  - apply Permutation_length in Hp. rewrite length_app, !length_fmap in Hp. cbn [length]. lia.
  - intros k. specialize (H3 k). rewrite Hp, occ_app. cbn [occ]. lia.
Qed.

Lemma merge_key d ts x y r : res_key (merge_res d ts x y r) = res_key r.
Proof. unfold merge_res. destruct (_ =? TYPE_PONG); [done|]. by destruct (_ =? TYPE_TIME). Qed.

Lemma balanced_interrupt op c e (b : bool) c' : balanced op c e c' -> balanced op c (e ++ (if b then [Interrupt] else [])) c'.
Proof. intros H. unfold balanced in *. rewrite sent_app, skipped_app, forgotten_app, written_app. destruct b; cbn [sent skipped forgotten written omap list_omap]; by rewrite !app_nil_r. Qed.

Lemma balanced_refl op c : balanced op c [] c.
Proof. by apply balanced_kept. Qed.

Lemma update_balanced op a d ts x np th now c :
  let '(e, c') := client_res_update op a d ts x np th now c in balanced op c e c' /\ quiet e.
Proof.
  unfold client_res_update. destruct (first_index _ (msess_head c)) as [i|]; [|split; [apply balanced_refl|done]].
  destruct (msess_head c !! i) as [s|] eqn:Es; [|split; [apply balanced_refl|done]].
  destruct (first_index _ (res_head s)) as [j|].
  - set (c1 := set_counts _ c). destruct (res_head s !! j) as [r|] eqn:Er; [|split; [by apply balanced_kept|done]].
    set (r' := merge_res d ts (dscp s) x r). assert (Hk : res_key r' = res_key r) by apply merge_key.
    destruct (pending_at c i s Es) as (rest & Hp & Hu). destruct (_ =? MASK_DONE).
    + pose proof (report_done_run op th r' c1) as Hr. destruct (report_done op th r' c1) as [e c2].
      destruct Hr as (Hm & Hs & H3). split; [|apply quiet_app; [done|by destruct (_ >=? _)]]. apply balanced_interrupt.
      apply (reported_balanced op [r'] c e c2); [by split; [|split]| |done|done].
      assert (Hd : pending (update_session i (fun s => set_results (delete j (res_head s)) s) c2) ≡ₚ delete j (res_head s) ++ rest).
      { unfold pending, update_session. cbn [set_msess msess_head]. rewrite Hm. apply (Hu (fun s => set_results (delete j (res_head s)) s)). }
      rewrite Hd, Hp. rewrite (delete_Permutation _ _ _ Er) at 1. cbn. by rewrite Hk.
    + split; [|by destruct (_ >=? _)]. apply (balanced_interrupt op c []). apply balanced_kept; [|done..].
      change (pending (update_session i ?f c1)) with (pending (update_session i f c)). rewrite Hu, Hp. cbn [res_head set_results].
      rewrite !fmap_app, list_fmap_insert, Hk, list_insert_id; [done|]. by rewrite list_lookup_fmap, Er.
  - set (c1 := set_counts _ c). destruct (existsb _ _); [|split; [by apply balanced_kept|done]].
    pose proof (report_dup_run op d now c1) as Hr. destruct (report_dup op d now c1) as [e c2]. by destruct Hr as (? & ? & ?).
Qed.

Lemma clear_results_run op now l : forall c, let '(e, l', c') := clear_results op now l c in
  exists gone, l = gone ++ l' /\ reported op gone c e c'.
Proof.
  induction l as [|r l IH]; intros c; cbn [clear_results].
  - exists []. split; [done|]. split; [done|]. split; [done|]. destruct op; cbn; [done|lia|lia].
  - destruct (diff_ts now (created r)) as [diff neg]. destruct (_ <=? TIMEOUT).
    { exists []. split; [done|]. split; [done|]. split; [done|]. destruct op; cbn; [done|lia|lia]. }
    pose proof (report_lost_run op (tv_sec diff) r c) as H1. destruct (report_lost op (tv_sec diff) r c) as [e c1].
    specialize (IH c1). destruct (clear_results op now l c1) as [[e' l'] c2]. destruct IH as (gone & -> & H2).
    exists (r :: gone). split; [done|]. by apply (reported_trans op [r] gone c e c1).
Qed.

Lemma clear_balanced op now n : forall i c, let '(e, c') := clear_sessions op now n i c in balanced op c e c' /\ quiet e.
Proof.
  induction n as [|n IH]; intros i c; cbn [clear_sessions]; [split; [apply balanced_refl|done]|].
  destruct (msess_head c !! i) as [s|] eqn:Es; [|split; [apply balanced_refl|done]].
  pose proof (clear_results_run op now (reverse (res_head s)) c) as H. destruct (clear_results _ _ _ _) as [[e l] c1].
  destruct H as (gone & Hl & Hr). pose proof (proj1 Hr) as Hm. pose proof (proj1 (proj2 Hr)) as Hs.
  specialize (IH (S i) (update_session i (set_results (reverse l)) c1)). destruct (clear_sessions _ _ _ _ _) as [e' c2].
  destruct IH as [H2 H3]. split; [|by apply quiet_app]. eapply balanced_trans; [|exact H2].
  apply (reported_balanced op gone c e c1); [done| |done|done]. destruct (pending_at c i s Es) as (rest & Hp & Hu).
  assert (Hd : pending (update_session i (set_results (reverse l)) c1) ≡ₚ reverse l ++ rest).
  { unfold pending, update_session. cbn [set_msess msess_head]. rewrite Hm. apply (Hu (set_results (reverse l))). }
  rewrite Hd, Hp, <- (reverse_Permutation (res_head s)), Hl, !fmap_app, (reverse_Permutation l). by rewrite (assoc_L (++)).
Qed.

Lemma last_index_lookup {A} (p : A -> bool) l : forall i, last_index p l = Some i -> exists x, l !! i = Some x /\ p x = true.
Proof.
  induction l as [|x l IH]; intros i; cbn [last_index]; [done|]. destruct (last_index p l) as [j|]; [intros [= <-]; by apply IH|].
  destruct (p x) eqn:Ep; [|done]. intros [= <-]. by exists x.
Qed.

Lemma last_index_some {A} (p : A -> bool) l i x : l !! i = Some x -> p x = true -> is_Some (last_index p l).
Proof.
  revert i. induction l as [|y l IH]; intros i; [done|]. destruct i as [|i]; cbn [lookup list_lookup last_index].
  - intros [= ->] Hp. destruct (last_index p l); [by eexists|]. rewrite Hp. by eexists.
  - intros Hl Hp. destruct (IH i Hl Hp) as [j ->]. by eexists.
Qed.

Lemma insert_pending a d ts now c i s : msess_head c !! i = Some s -> s_id s = d_id d ->
  res_key <$> pending (client_res_insert a d ts now c) ≡ₚ (u32 (d_id d), u32 (d_seq d)) :: (res_key <$> pending c)
  /\ fifoq_head (client_res_insert a d ts now c) = fifoq_head c /\ sta (client_res_insert a d ts now c) = sta c
  /\ length (msess_head (client_res_insert a d ts now c)) = length (msess_head c).
Proof.
  intros Hs Hid. unfold client_res_insert. destruct (last_index_some (fun s => s_id s =? d_id d) _ _ _ Hs) as [j Hj]; [by apply Z.eqb_eq|].
  rewrite Hj. destruct (last_index_lookup _ _ _ Hj) as (x & Hx & _). destruct (pending_at c j x Hx) as (rest & Hp & Hu).
  split; [|split_and!; [done|done|apply length_alter]]. rewrite Hu, Hp. done.
Qed.

Lemma transmit_balanced op sends n : forall i io c, let '(e, c') := transmit_from sends n i io c in balanced op c e c' /\ written e = [].
Proof.
  induction n as [|n IH]; intros i io c; cbn [transmit_from]; [split; [apply balanced_refl|done]|].
  destruct (msess_head c !! i) as [s|] eqn:Es; [|split; [apply balanced_refl|done]]. destruct (_ && _); [|apply IH].
  set (c1 := set_counts _ _). assert (Hs : msess_head c1 !! i = Some (set_last_seq (u32 (last_seq s + 1)) s)).
  { unfold c1, update_session. cbn [msess_head set_counts set_msess]. by rewrite list_lookup_alter_eq, Es. }
  assert (Hp : pending c1 = pending c) by by apply pending_kept.
  set (tx := ping_data (s_id s) (u32 (last_seq s + 1))).
  assert (Hb : forall e c2, let '(c', ok) := match io with
      | (Some ts, now) :: _ => (client_res_insert (dst s) tx ts now c1, true) | _ => (c1, false) end in
    balanced op c' e c2 -> balanced op c (SetDscp (u8 (Z.shiftl (dscp s) 2)) :: Sendto (dst s) tx ok :: e) c2).
  { intros e c2. destruct io as [|[[ts|] now] io].
    - intros H. apply (balanced_trans op c [_; _] c1 e); [|done]. apply balanced_sessions; [rewrite Hp; symmetry; apply Permutation_cons_append|done..].
    - intros H. destruct (insert_pending (dst s) tx ts now c1 i _ Hs eq_refl) as (H1 & H2 & H3 & _).
      eapply (balanced_trans op c [_; _]); [|exact H]. apply balanced_sessions; [|done|by rewrite H2|by rewrite H3]. rewrite H1, Hp, app_nil_r. exact (Permutation_refl _).
    - intros H. apply (balanced_trans op c [_; _] c1 e); [|done]. apply balanced_sessions; [rewrite Hp; symmetry; apply Permutation_cons_append|done..]. }
  destruct (match io with (Some ts, now) :: _ => _ | _ => _ end) as [c' ok]. specialize (IH (S i) (tail io) c').
  destruct (transmit_from sends n (S i) (tail io) c') as [e c2]. destruct IH as [H1 H2]. split; [by apply (Hb e c2)|done].
Qed.
