(* ===== verification/ProbedTheorems.v ===== *)
(** * The properties of SLANG-probed *)

From Stdlib Require Import ZArith Lia Ascii String.
From stdpp Require Import base numbers option list.
From S2P Require Import Prelude Ping PingSpec PingReply PingPace PingPacket PingFour Probed ProbedLoop ProbedSpec.

Local Open Scope list_scope.
Local Open Scope Z_scope.
Local Abbreviation length := List.length.

(** ** The account of a run *)

(** What the client did among the actions of the program. *)
Definition client_effects (l : list action) : list effect := omap (fun x => match x with Client e => Some e | _ => None end) l.

Lemma client_effects_app l l' : client_effects (l ++ l') = client_effects l ++ client_effects l'.
Proof. apply omap_app. Qed.

Lemma client_effects_fmap l : client_effects (Client <$> l) = l.
Proof. induction l as [|x l IH]; [done|]. unfold client_effects in *. cbn. by rewrite IH. Qed.

Lemma balanced_quiet op c e : quiet e -> written e = [] -> balanced op c e c.
Proof. intros H1 H2. by apply balanced_kept. Qed.

(** The parts of the server leave the client alone. *)
Lemma kill_client fd s e s' : server_kill_peer fd s = Some (e, s') -> cl s' = cl s /\ client_effects e = [].
Proof. unfold server_kill_peer. destruct (fd_clr fd (fs s)); [|done]. by intros [= <- <-]. Qed.

Lemma tcp_send_client fd b s e s' : tcp_send fd b s = Some (e, s') -> cl s' = cl s /\ client_effects e = [].
Proof.
  unfold tcp_send. destruct b; [by intros [= <- <-]|]. intros H. apply bind_Some in H as ([e1 s1] & H & [= <- <-]).
  by apply kill_client in H as [-> H].
Qed.

Lemma answer_client cf rx u s e s' b : answer_ping cf rx u s = Some (e, s', b) ->
  cl s' = cl s /\ quiet (client_effects e) /\ written (client_effects e) = [].
Proof.
  unfold answer_ping. intros H. apply bind_Some in H as ([r ts] & _ & H). destruct (_ <? 0); [by injection H as <- <- <-|].
  apply bind_Some in H as ([e1 s1] & H & [= <- <- <-]). apply tcp_send_client in H as [-> H].
  unfold client_effects in *. cbn. by rewrite H.
Qed.

Lemma udp_balanced cf u s e s' ok cont : udp_ready cf u s = Some (e, s', ok, cont) -> balanced (op cf) (cl s) (client_effects e) (cl s').
Proof.
  unfold udp_ready. intros H. apply bind_Some in H as ([r p] & _ & H). destruct (r <? 0); [injection H as <- <- <- <-; apply balanced_refl|].
  apply bind_Some in H as (rx & _ & H). destruct (_ =? TYPE_PING).
  - apply bind_Some in H as ([[e1 s1] b] & H & [= <- <- <- <-]). apply answer_client in H as (-> & H1 & H2). by apply balanced_quiet.
  - destruct (_ =? TYPE_PONG); [|injection H as <- <- <- <-; apply balanced_refl]. change (cl (set_pkt p s)) with (cl s) in H.
    pose proof (update_balanced (op cf) (p_addr p) rx (Some (p_ts p)) (p_dscp p) (npackets cf) (thold cf) (u_now u) (cl s)) as HU.
    destruct (client_res_update _ _ _ _ _ _ _ _ _) as [e1 c1]. injection H as <- <- <- <-. rewrite client_effects_fmap. apply HU.
Qed.

Lemma tcp_balanced cf a s e s' ok : tcp_ready cf a s = Some (e, s', ok) -> balanced (op cf) (cl s) (client_effects e) (cl s').
Proof.
  unfold tcp_ready. destruct (_ || _); [intros [= <- <- <-]; apply balanced_refl|]. destruct (_ && _); [intros [= <- <- <-]; apply balanced_refl|].
  intros H. apply bind_Some in H as (f & _ & H). apply bind_Some in H as ([e1 s1] & H & [= <- <- <-]).
  apply tcp_send_client in H as [H1 H2]. cbn [cl set_peers]. rewrite H1, H2. apply balanced_refl.
Qed.

Lemma gothello_pending a c : pending (snd (client_msess_gothello a c)) = pending c.
Proof.
  unfold pending. cbn [snd client_msess_gothello msess_head set_msess]. induction (msess_head c) as [|s l IH]; [done|].
  cbn. rewrite IH. by destruct (same_addr a s).
Qed.

Lemma pipe_balanced cf x now s e s' ok : pipe_ready cf x now s = Some (e, s', ok) -> balanced (op cf) (cl s) (client_effects e) (cl s').
Proof.
  unfold pipe_ready. destruct x as [p|]; [|intros [= <- <- <-]; apply balanced_refl]. intros H. apply bind_Some in H as (rx & _ & H).
  destruct (_ =? TYPE_HELO).
  - injection H as <- <- <-. apply balanced_kept; [|done..].
    change (res_key <$> pending (snd (client_msess_gothello (p_addr p) (cl s))) ≡ₚ res_key <$> pending (cl s)). by rewrite gothello_pending.
  - destruct (_ =? TYPE_TIME); [|injection H as <- <- <-; apply balanced_refl]. change (cl (set_pkt p s)) with (cl s) in H.
    pose proof (update_balanced (op cf) (p_addr p) rx None (-1) (npackets cf) (thold cf) now (cl s)) as HU.
    destruct (client_res_update _ _ _ _ _ _ _ _ _) as [e1 c1]. injection H as <- <- <-. rewrite client_effects_fmap. apply HU.
Qed.

Lemma forkall_quiet n : forall i pids c, let '(e, c') := forkall_from n i pids c in
  quiet e /\ written e = [] /\ pending c' = pending c /\ fifoq_head c' = fifoq_head c /\ sta c' = sta c.
Proof.
  induction n as [|n IH]; intros i pids c; cbn [forkall_from]; [done|]. destruct (msess_head c !! i) as [s|]; [|done].
  destruct (client_msess_isaddrtaken _ _ _); [apply IH|]. set (c1 := update_session _ _ c).
  specialize (IH (S i) (tail pids) c1). destruct (forkall_from n (S i) (tail pids) c1) as [e c2].
  destruct IH as (H1 & H2 & H3 & H4 & H5). split; [done|]. split; [done|]. split; [rewrite H3; by apply pending_kept|done].
Qed.

Lemma stats_client cf s : pending (cl (stats_step cf s)) = pending (cl s) /\ fifoq_head (cl (stats_step cf s)) = fifoq_head (cl s)
  /\ sta (cl (stats_step cf s)) = sta (cl s).
Proof. unfold stats_step. destruct (op cf); [done..|]. by destruct (_ =? 0). Qed.

(** A configuration: its sessions have no results, and those that were
    outstanding are freed. *)
Lemma add_node_pending resolve l n : l ≫= res_head = [] -> add_node resolve l n ≫= res_head = [].
Proof.
  intros Hl. unfold add_node. destruct n as [name id children|]; [|done]. destruct (negb _); [done|]. destruct id as [c|]; [|done].
  assert (Hc : forall k m ok, res_head m = [] -> res_head (fst (fold_left (configure resolve) k (m, ok))) = []).
  { induction k as [|[x y] k IH]; intros m ok Hm; [done|]. cbn [fold_left configure].
    repeat (match goal with |- context [String.eqb ?a ?b] => destruct (String.eqb a b) end; try (by apply IH)).
    destruct (resolve y); by apply IH. }
  specialize (Hc children (mkMsess (u32 (atoi c)) [] (mkAddr 0 0) 1000 false 0 0 0) false eq_refl).
  destruct (fold_left _ _ _) as [m ok]. destruct ok; [|done]. cbn in *. by rewrite Hc.
Qed.

Lemma nodes_pending resolve nodes : forall l, l ≫= res_head = [] -> fold_left (add_node resolve) nodes l ≫= res_head = [].
Proof. induction nodes as [|n nodes IH]; intros l Hl; [done|]. cbn [fold_left]. by apply IH, add_node_pending. Qed.

Lemma forgotten_free l : forgotten (Free <$> l) = res_key <$> l /\ sent (Free <$> l) = [] /\ skipped (Free <$> l) = [] /\ written (Free <$> l) = [].
Proof.
  induction l as [|r l (H1 & H2 & H3 & H4)]; [done|]. unfold forgotten, sent, skipped, written in *. cbn. rewrite H1, H2, H3, H4. done.
Qed.

Lemma kill_children_run l : forgotten (kill_children l) = res_key <$> (l ≫= res_head)
  /\ sent (kill_children l) = [] /\ skipped (kill_children l) = [] /\ written (kill_children l) = [].
Proof.
  induction l as [|x l (H1 & H2 & H3 & H4)]; [done|]. change (kill_children (x :: l)) with
    (((if child_pid x =? 0 then [] else [Kill (child_pid x)]) ++ (Free <$> res_head x)) ++ kill_children l).
  destruct (forgotten_free (res_head x)) as (F1 & F2 & F3 & F4).
  rewrite !forgotten_app, !sent_app, !skipped_app, !written_app, H1, H2, H3, H4, F1, F2, F3, F4. cbn. rewrite fmap_app. by destruct (_ =? 0).
Qed.

Lemma reconf_balanced op resolve doc c : let '(_, e, c') := client_msess_reconf op resolve doc c in balanced op c e c'.
Proof.
  unfold client_msess_reconf. destruct op; [done|apply balanced_refl|]. destruct doc as [[nodes|]|]; try apply balanced_refl.
  destruct (kill_children_run (msess_head c)) as (H1 & H2 & H3 & H4). apply balanced_sessions; [|done..].
  rewrite H1, H2, H3. unfold pending. cbn [msess_head set_msess]. by rewrite nodes_pending.
Qed.

Lemma reload_balanced cf k s : let '(e, s') := reload_step cf k s in balanced (op cf) (cl s) e (cl s').
Proof.
  unfold reload_step. destruct (should_reload s); [|apply balanced_refl].
  pose proof (reconf_balanced (op cf) (k_resolve k) (k_doc k) (cl s)) as HR.
  destruct (client_msess_reconf (op cf) (k_resolve k) (k_doc k) (cl s)) as [[r e1] c1].
  pose proof (forkall_quiet (length (msess_head c1)) 0 (k_pids k) c1) as HF. unfold client_msess_forkall.
  destruct (forkall_from _ _ _ _) as [e c']. destruct HF as (H1 & H2 & H3 & H4 & H5). cbn [cl set_client].
  eapply balanced_trans; [exact HR|]. apply balanced_kept; [by rewrite H3|done..].
Qed.

Lemma send_balanced cf k s : let '(e, s', ok) := send_ready cf k s in balanced (op cf) (cl s) (client_effects e) (cl s').
Proof.
  unfold send_ready. destruct (0 <? k_bytes k); [|apply balanced_refl].
  unfold client_msess_transmit. pose proof (transmit_balanced (op cf) (sends s) (length (msess_head (cl s))) 0 (k_sends k) (cl s)) as H1.
  destruct (transmit_from _ _ _ _ _) as [e1 c1]. destruct H1 as [H1 _].
  pose proof (reload_balanced cf k (set_client c1 s)) as H2. destruct (reload_step cf k (set_client c1 s)) as [e2 s2].
  assert (H3 : let '(e3, c3) := if Z.rem (sends s2) (Z.quot TIMEOUT_INTERVAL SEND_INTERVAL) =? 0
    then client_res_clear_timeouts (op cf) (k_now k) (cl s2) else ([], cl s2) in balanced (op cf) (cl s2) e3 c3).
  { destruct (_ =? 0); [|apply balanced_refl]. unfold client_res_clear_timeouts.
    pose proof (clear_balanced (op cf) (k_now k) (length (msess_head (cl s2))) 0 (cl s2)) as H. destruct (clear_sessions _ _ _ _ _). by destruct H. }
  destruct (if _ =? 0 then _ else _) as [e3 c3]. destruct (stats_client cf (set_client c3 s2)) as (G1 & G2 & G3).
  rewrite client_effects_fmap. cbn [cl set_sends].
  apply (balanced_trans _ _ e1 c1); [done|]. apply (balanced_trans _ _ e2 (cl s2)); [done|].
  rewrite <- (app_nil_r e3). apply (balanced_trans _ _ e3 c3); [done|]. by apply balanced_kept; rewrite ?G1, ?G2, ?G3.
Qed.

Lemma kill_ready_client l n : forall fd s e s', kill_ready l n fd s = Some (e, s') -> cl s' = cl s /\ client_effects e = [].
Proof.
  induction n as [|n IH]; intros fd s e s'; cbn [kill_ready]; [by intros [= <- <-]|]. destruct (_ <=? _); [|by intros [= <- <-]].
  intros H. apply bind_Some in H as ([e1 s1] & H1 & H). apply bind_Some in H as ([e2 s2] & H2 & [= <- <-]). apply IH in H2 as [-> H2].
  rewrite client_effects_app, H2, app_nil_r. destruct (decide _); [by apply kill_client in H1|by injection H1 as <- <-].
Qed.

Lemma iteration_balanced cf r s e s' : iteration cf r s = Some (e, s') ->
  balanced (op cf) (cl s) (client_effects e) (cl s').
Proof.
  intros H. unfold iteration in H. apply bind_Some in H as ([[[e1 s1] ok1] cont] & H1 & H).
  assert (B1 : balanced (op cf) (cl s) (client_effects e1) (cl s1)).
  { destruct (on_udp r); [by apply udp_balanced in H1|]. injection H1 as <- <- <- <-. apply balanced_refl. }
  destruct (cont || interrupted e1); [by injection H as <- <-|].
  apply bind_Some in H as ([[e2 s2] ok2] & H2 & H).
  assert (B2 : balanced (op cf) (cl s1) (client_effects e2) (cl s2)).
  { destruct (on_tcp r); [by apply tcp_balanced in H2|]. injection H2 as <- <- <-. apply balanced_refl. }
  apply bind_Some in H as ([[e3 s3] ok3] & H3 & H).
  assert (B3 : balanced (op cf) (cl s2) (client_effects e3) (cl s3)).
  { destruct (on_pipe r) as [[x now]|]; [by apply pipe_balanced in H3|]. injection H3 as <- <- <-. apply balanced_refl. }
  destruct (interrupted e3).
  { injection H as <- <-. rewrite !client_effects_app. eauto using balanced_trans. }
  assert (B4 : let '(e4, s4, ok4) := match on_send r with Some k => send_ready cf k s3 | None => ([], s3, ok3) end in
    balanced (op cf) (cl s3) (client_effects e4) (cl s4)).
  { destruct (on_send r) as [k|]; [apply send_balanced|apply balanced_refl]. }
  destruct (match on_send r with Some _ => _ | None => _ end) as [[e4 s4] ok4].
  apply bind_Some in H as ([e5 s5] & H5 & [= <- <-]).
  assert (B5 : cl s5 = cl s4 /\ client_effects e5 = []).
  { destruct (ok4 =? 0); [by apply kill_ready_client in H5|by injection H5 as <- <-]. }
  destruct B5 as [-> B5]. rewrite !client_effects_app, B5, app_nil_r. eauto using balanced_trans.
Qed.

Lemma run_balanced cf l : forall s e s', loop_or_die cf l s = Some (e, s') -> balanced (op cf) (cl s) (client_effects e) (cl s').
Proof.
  induction l as [|[r|] l IH]; intros s e s' H; cbn [loop_or_die] in H.
  - injection H as <- <-. apply balanced_refl.
  - apply bind_Some in H as ([e1 s1] & H1 & H). apply iteration_balanced in H1.
    destruct (interrupted e1); [by injection H as <- <-|]. apply bind_Some in H as ([e2 s2] & H2 & [= <- <-]).
    rewrite client_effects_app. by eapply balanced_trans; [|apply (IH s1)].
  - by apply IH.
Qed.

(** C12: The account of the probes.  Whatever arrives, is lost or fails, in every
    run of the main loop, configurations loaded included: each probe handed to
    [send_w_ts] is skipped (it was not sent, or its time was not found, and no
    result is kept), forgotten (its result was freed when a new configuration
    was loaded), still outstanding, or has its result, exactly one.  In a
    client this is an equation between the numbers, the results being the total
    of the summary; in a daemon it holds of each probe, whose result is on the
    pipe or in the queue for it. *)
Theorem probes_accounted cf l s e s' : loop_or_die cf l s = Some (e, s') ->
  (op cf = CLIENT -> Z.of_nat (length (sent (client_effects e))) + Z.of_nat (length (pending (cl s))) + fst (summary (sta (cl s)))
      = Z.of_nat (length (pending (cl s'))) + fst (summary (sta (cl s')))
        + Z.of_nat (length (skipped (client_effects e))) + Z.of_nat (length (forgotten (client_effects e))))
  /\ (op cf = DAEMON -> forall k, occ k (sent (client_effects e)) + occ k (res_key <$> pending (cl s)) + occ k (completed (fifoq_head (cl s)))
      = occ k (completed (written (client_effects e))) + occ k (res_key <$> pending (cl s')) + occ k (completed (fifoq_head (cl s')))
        + occ k (skipped (client_effects e)) + occ k (forgotten (client_effects e))).
Proof. intros H. pose proof (run_balanced cf l s e s' H) as HB. unfold balanced in HB. by split; intros E; rewrite E in HB. Qed.

(** ** From a probe to its result *)

Definition wrap_time (t : timespec) : timespec := mkTime (s64 (tv_sec t)) (s64 (tv_nsec t)).

Lemma load32_at off a x rest : length a = off -> load32 off (a ++ le_bytes 4 x ++ rest) = Some (u32 x).
Proof.
  intros <-. unfold load32. rewrite load_some by (rewrite !length_app, length_le_bytes; lia). rewrite drop_app_length.
  rewrite take_app_length' by (by rewrite length_le_bytes). cbn [fmap option_fmap option_map]. by rewrite le_value_bytes.
Qed.

Lemma load32_front x rest : load32 0 (le_bytes 4 x ++ rest) = Some (u32 x).
Proof. exact (load32_at 0 [] x rest eq_refl). Qed.

Lemma decode_time_at t rest : decode_time (encode_time t ++ rest) = Some (wrap_time t).
Proof.
  unfold decode_time. rewrite length_app, length_encode_time. cbn [Nat.leb Nat.add]. unfold encode_time.
  rewrite <- app_assoc, take_app_length' by (by rewrite length_le_bytes).
  rewrite drop_app_length', take_app_length' by (by rewrite length_le_bytes). rewrite !le_value_bytes. unfold wrap_time.
  change (8 * Z.of_nat 8) with 64. assert (E : forall z, s64 (u64 z mod 2 ^ 64) = s64 z); [|by rewrite !E].
  intros z. apply wraps_congr. unfold wrapu. by rewrite !Zmod_mod.
Qed.

(** What one host writes the other reads. *)
Lemma decode_encode_data d : decode_data (encode_data d)
  = Some (mkData (u32 (d_type d)) (u32 (d_seq d)) (u32 (d_id d)) (u32 (d_pad d)) (wrap_time (d_t2 d)) (wrap_time (d_t3 d))).
Proof.
  unfold decode_data, encode_data. set (t2 := encode_time (d_t2 d)). set (t3 := encode_time (d_t3 d)).
  rewrite load32_front. cbn [mbind option_bind].
  rewrite (load32_at 4 (le_bytes 4 (d_type d)) (d_seq d)) by done. cbn [mbind option_bind].
  rewrite (app_assoc (le_bytes 4 (d_type d))), (load32_at 8 (_ ++ _) (d_id d)) by done. cbn [mbind option_bind].
  rewrite (app_assoc (_ ++ _)), (load32_at 12 (_ ++ _) (d_pad d)) by done. cbn [mbind option_bind].
  rewrite (app_assoc (_ ++ _)), (drop_app_length' _ _ 16) by done. unfold t2. rewrite decode_time_at. cbn [mbind option_bind].
  rewrite (app_assoc (_ ++ _)), (drop_app_length' _ _ 32) by done. unfold t3. rewrite <- (app_nil_r (encode_time (d_t3 d))), decode_time_at.
  done.
Qed.

Lemma dscp_path d : 0 <= d < 64 -> Z.shiftr (u8 (u8 (Z.shiftl d 2))) 2 = d.
Proof.
  intros H. rewrite Z.shiftl_mul_pow2 by lia. rewrite !(wrapu_id 8 (d * 2 ^ 2)) by (unfold in_u; lia). rewrite Z.shiftr_div_pow2 by lia.
  apply Z.div_mul. lia.
Qed.

(** A time after 1970, and its value. *)
Definition proper (t : timespec) : Prop := 0 <= tv_nsec t < 1000000000 /\ 0 <= tv_sec t < 2 ^ 61 /\ 0 < nanos t.

Lemma proper_wrap t : proper t -> wrap_time t = t.
Proof. intros (H1 & H2 & _). unfold wrap_time. rewrite !wraps_id by (unfold in_s; lia). by destruct t. Qed.

Lemma proper_zero t : proper t -> is_zero t = false.
Proof. intros (_ & _ & H). unfold is_zero, nanos in *. destruct (Z.eqb_spec (tv_sec t) 0), (Z.eqb_spec (tv_nsec t) 0); cbn; lia. Qed.

Lemma proper_normal t : proper t -> normal t.
Proof. intros (H1 & H2 & _). split; lia. Qed.

(** The server's clock is ours plus [D]; the packets take [f] and [b], the
    server [p]. *)
Definition on_time (T1 T2 T3 T4 : timespec) (D f p b : Z) : Prop :=
  nanos T2 = nanos T1 + D + f /\ nanos T3 = nanos T2 + p /\ nanos T4 = nanos T1 + f + p + b
  /\ 0 <= f /\ 0 <= p /\ 0 <= b.

Lemma trip_exact r D f p b : proper (ts0 r) -> proper (ts1 r) -> proper (ts2 r) -> proper (ts3 r) ->
  on_time (ts0 r) (ts1 r) (ts2 r) (ts3 r) D f p b ->
  t_neg (trip_of r) = false /\ nanos (t_rtt (trip_of r)) = f + b /\ nanos (t_diff (trip_of r)) = f + p + b /\ nanos (t_now (trip_of r)) = p
  /\ 0 <= tv_nsec (t_rtt (trip_of r)) < 1000000000 /\ 0 <= tv_sec (t_rtt (trip_of r)).
Proof.
  intros P0 P1 P2 P3 (E1 & E2 & E3 & F & Pp & B).
  destruct (diff_ts_run (ts3 r) (ts0 r)) as (A1 & A2 & A3 & A4); [by apply proper_normal..|].
  destruct (diff_ts_run (ts2 r) (ts1 r)) as (B1 & B2 & B3 & B4); [by apply proper_normal..|].
  unfold trip_of. destruct (diff_ts (ts3 r) (ts0 r)) as [diff n1], (diff_ts (ts2 r) (ts1 r)) as [now n2]. cbn [fst snd] in *.
  assert (HN : forall t, 0 <= tv_nsec t < 1000000000 -> 0 <= tv_sec t -> nanos t < 1000000000 * 2 ^ 61 -> normal t)
    by (intros t H1 H2 H3; unfold nanos in H3; split; lia).
  destruct P0 as (P0 & P0' & P0''), P1 as (P1 & P1' & P1''), P2 as (P2 & P2' & P2''), P3 as (P3 & P3' & P3'').
  assert (U3 : nanos (ts3 r) < 1000000000 * 2 ^ 61) by (unfold nanos; lia). assert (U2 : nanos (ts2 r) < 1000000000 * 2 ^ 61) by (unfold nanos; lia).
  assert (Hd : normal diff) by (apply HN; lia). assert (Hn : normal now) by (apply HN; lia).
  destruct (diff_ts_run diff now Hd Hn) as (C1 & C2 & C3 & C4). destruct (diff_ts diff now) as [rtt n3]. cbn [fst snd t_neg t_rtt t_diff t_now] in *.
  rewrite A1, B1 in C4. rewrite A4, B4, C4.
  rewrite (proj2 (Z.ltb_ge _ _)) by lia. rewrite (proj2 (Z.ltb_ge (nanos (ts2 r)) _)) by lia.
  rewrite (proj2 (Z.ltb_ge (Z.abs _) _)) by lia. split_and!; [done|lia..].
Qed.

(** A complete result with proper times and no change of the DSCP. *)
Lemma done_success r D f p b : proper (ts0 r) -> proper (ts1 r) -> proper (ts2 r) -> proper (ts3 r) ->
  on_time (ts0 r) (ts1 r) (ts2 r) (ts3 r) D f p b -> f + b < 21 * 1000000000 -> Z.land (state r) MASK_DSCP = 0 ->
  f_state (done_record r) = STATE_SUCCESS.
Proof.
  intros P0 P1 P2 P3 HT Hb Hd. destruct (trip_exact r D f p b P0 P1 P2 P3 HT) as (H1 & H2 & _ & _ & H5 & H6).
  unfold done_record. cbn [f_state]. rewrite Hd, H1, !proper_zero by done. cbn.
  assert (Hs : 0 <= tv_sec (t_rtt (trip_of r)) <= 20) by (unfold nanos in H2; lia).
  rewrite wrapu_id by (unfold in_u; lia). destruct (Z.gtb_spec (tv_sec (t_rtt (trip_of r))) 20); [lia|done].
Qed.

(** The server answers a PING with a PONG and with its times. *)
Lemma ping_answered cf u sv a id seq T2 T3 ds cm : in_u 32 id -> in_u 32 seq ->
  u_got u = Some (mkDelivery a (encode_data (ping_data id seq)) cm) -> tstamp_extract (mode cf) cm false = Some (0, T2) ->
  dscp_extract cm = Some (0, ds) -> send_w_ts (mode cf) (u_pong u) = Some (Some T3, T3) -> u_tcp_ok u = true ->
  0 <= server_find_peer_fd a sv -> exists sv' bp bt pad pad' t3,
  udp_ready cf u sv = Some ([Client (SetDscp (u8 (Z.shiftl ds 2))); Pong a bp; TcpSend (server_find_peer_fd a sv) bt], sv', 1, false)
  /\ decode_data bp = Some (mkData TYPE_PONG seq id pad (wrap_time T2) t3)
  /\ decode_data bt = Some (mkData TYPE_TIME seq id pad' (wrap_time T2) (wrap_time T3)).
Proof.
  intros Hid Hseq Eu Et Ed Es Ek Hfd. unfold udp_ready, recv_w_ts. rewrite Eu. cbn [v_bytes v_cmsgs v_addr].
  change (take DATALEN (encode_data (ping_data id seq))) with (encode_data (ping_data id seq)).
  change (length (encode_data (ping_data id seq))) with DATALEN. rewrite Nat.eqb_refl, Nat.sub_diag. cbn [negb replicate].
  rewrite app_nil_r, Et. cbn [mbind option_bind]. rewrite Ed. cbn [mbind option_bind Z.ltb Z.compare p_data].
  rewrite decode_encode_data. cbn [mbind option_bind d_type ping_data]. change (u32 TYPE_PING =? TYPE_PING) with true. cbv iota.
  unfold answer_ping. cbn [d_seq d_id]. rewrite Es. cbn [mbind option_bind]. rewrite !(wrapu_id 32) by done.
  change (server_find_peer_fd (p_addr _) (set_tx _ _)) with (server_find_peer_fd a sv).
  rewrite (proj2 (Z.ltb_ge _ _)) by done. unfold tcp_send. rewrite Ek. cbn [mbind option_bind].
  eexists _, _, _, _, _, _. split; [reflexivity|]. rewrite !decode_encode_data. cbn [d_type d_seq d_id d_pad d_t2 d_t3 tx set_tx p_ts pkt set_pkt set_resp ping_data].
  rewrite !(wrapu_id 32 id), !(wrapu_id 32 seq) by done. split; reflexivity.
Qed.

(** News about the newest probe of the only session. *)
Lemma update_head a d ts x np th now c s r l : msess_head c = [s] -> res_head s = r :: l -> s_id s = d_id d -> res_matches a d r = true ->
  let c0 := set_counts (count_find 1 (cnt c)) c in let r' := merge_res d ts (dscp s) x r in
  client_res_update CLIENT a d ts x np th now c =
    let '(e, c') := if Z.land (state r') MASK_DONE =? MASK_DONE
                    then let '(e, c') := report_done CLIENT th r' c0 in (e, set_msess [set_results l s] c')
                    else ([], set_msess [set_results (r' :: l) s] c0) in
    (e ++ (if res_ok (sta c') >=? np then [Interrupt] else []), c').
Proof.
  intros Hc Hs Hid Hm. unfold client_res_update. rewrite Hc. cbn [first_index]. rewrite (proj2 (Z.eqb_eq _ _) Hid). cbn [lookup list_lookup].
  rewrite Hs. cbn [first_index]. rewrite Hm. cbn [lookup list_lookup]. change (Z.of_nat 0 + 1) with 1.
  set (r' := merge_res d ts (dscp s) x r). set (c0 := set_counts _ c). destruct (_ =? MASK_DONE).
  - pose proof (report_done_run CLIENT th r' c0) as HR. destruct (report_done CLIENT th r' c0) as [e c1]. destruct HR as (HR & _).
    unfold update_session. rewrite HR. change (msess_head c0) with (msess_head c). rewrite Hc. cbn [alter list_alter]. by rewrite Hs.
  - unfold update_session. change (msess_head c0) with (msess_head c). rewrite Hc. cbn [alter list_alter]. by rewrite Hs.
Qed.

(** What the two answers make of a new probe, in either order. *)
Lemma merge_both s r T1 T2 T3 T4 now id seq pad pad' t3 (first : bool) :
  r = mkRes now MASK_PING (sin6_addr (dst s)) id seq T1 no_time no_time no_time -> 0 <= dscp s < 64 ->
  let dp := mkData TYPE_PONG seq id pad T2 t3 in let dt := mkData TYPE_TIME seq id pad' T2 T3 in
  let pong r := merge_res dp (Some T4) (dscp s) (dscp s) r in let time r := merge_res dt None (dscp s) (-1) r in
  let r1 := if first then pong r else time r in
  Z.land (state r1) MASK_DONE <> MASK_DONE /\ res_matches (dst s) (if first then dt else dp) r1 = true
  /\ (if first then time r1 else pong r1) = mkRes now MASK_DONE (sin6_addr (dst s)) id seq T1 T2 T3 T4.
Proof.
  intros -> Hd dp dt pong time r1. unfold res_matches, r1, pong, time, merge_res, dp, dt.
  destruct first; cbn; rewrite (wrapu_id 8 (dscp s)) by (unfold in_u; lia); rewrite Z.eqb_refl; cbn; by rewrite !Z.eqb_refl.
Qed.

Lemma transmit_single sends T1 now c s : msess_head c = [s] -> got_hello s = true -> 1 <= msec_interval s ->
  Z.rem sends (msec_interval s) = 0 -> exists c1,
  client_msess_transmit sends [(Some T1, now)] c
    = ([SetDscp (u8 (Z.shiftl (dscp s) 2)); Sendto (dst s) (ping_data (s_id s) (u32 (last_seq s + 1))) true], c1)
  /\ msess_head c1 = [set_results (mkRes now MASK_PING (sin6_addr (dst s)) (s_id s) (u32 (last_seq s + 1)) T1 no_time no_time no_time :: res_head s)
                        (set_last_seq (u32 (last_seq s + 1)) s)] /\ sta c1 = sta c.
Proof.
  intros Hc Hh Hi Hr. unfold client_msess_transmit. rewrite Hc. cbn [length transmit_from]. rewrite Hc. cbn [lookup list_lookup].
  rewrite Hh, Hr, (proj2 (Z.leb_le _ _) Hi). cbn [andb Z.eqb tail]. eexists. split; [reflexivity|].
  unfold client_res_insert, update_session. cbn [msess_head set_counts set_msess]. rewrite Hc. cbn. by rewrite Z.eqb_refl.
Qed.

(** C5: A probe measures the network.  The client of one session sends a PING at
    [T1]; the server, whose clock is [D] ahead, receives it at [T2], answers at
    [T3] and sends both times over TCP; the PONG arrives at [T4].  If the
    packets took [f] and [b] (less than 21 seconds together) and keep their
    DSCP, the client shows [f + b], the total and the time on the server,
    whatever [D] is and whichever answer comes first, and the probe is no
    longer outstanding. *)
Theorem probe_round_trip c s cfs u sv a T1 T2 T3 T4 D f p b cm sends now np th n1 n2 :
  msess_head c = [s] -> got_hello s = true -> 1 <= msec_interval s -> Z.rem sends (msec_interval s) = 0 ->
  0 <= dscp s < 64 -> in_u 32 (s_id s) -> res_ok (sta c) < np ->
  proper T1 -> proper T2 -> proper T3 -> proper T4 -> on_time T1 T2 T3 T4 D f p b -> f + b < 21 * 1000000000 ->
  let seq := u32 (last_seq s + 1) in let path d := Z.shiftr (u8 (u8 (Z.shiftl d 2))) 2 in
  u_got u = Some (mkDelivery a (encode_data (ping_data (s_id s) seq)) cm) -> tstamp_extract (mode cfs) cm false = Some (0, T2) ->
  dscp_extract cm = Some (0, path (dscp s)) -> send_w_ts (mode cfs) (u_pong u) = Some (Some T3, T3) -> u_tcp_ok u = true ->
  0 <= server_find_peer_fd a sv ->
  exists c1 sv' bp bt dp dt,
    client_msess_transmit sends [(Some T1, now)] c
      = ([SetDscp (u8 (Z.shiftl (dscp s) 2)); Sendto (dst s) (ping_data (s_id s) seq) true], c1)
    /\ udp_ready cfs u sv
      = Some ([Client (SetDscp (u8 (Z.shiftl (dscp s) 2))); Pong a bp; TcpSend (server_find_peer_fd a sv) bt], sv', 1, false)
    /\ decode_data bp = Some dp /\ decode_data bt = Some dt
    /\ forall first : bool,
       let pong c := client_res_update CLIENT (dst s) dp (Some T4) (path (dscp s)) np th n1 c in
       let time c := client_res_update CLIENT (dst s) dt None (-1) np th n2 c in
       let '(e1, c2) := if first then pong c1 else time c1 in
       let '(e2, c3) := if first then time c2 else pong c2 in
       e1 = [] /\ msess_head c3 = [set_last_seq seq s] /\ res_ok (sta c3) = res_ok (sta c) + 1
       /\ exists rtt total kernel e, e2 = Response seq (s_id s) rtt total kernel :: e
          /\ nanos rtt = f + b /\ nanos total = f + p + b /\ nanos kernel = p.
Proof.
  intros Hc Hh Hi Hr Hd Hid Hnp P1 P2 P3 P4 HT Hb seq path Eu Et Ed Es Ek Hfd.
  assert (Hp : path (dscp s) = dscp s) by by apply dscp_path. rewrite Hp in *.
  destruct (transmit_single sends T1 now c s Hc Hh Hi Hr) as (c1 & E1 & Hc1 & Hs1). fold seq in E1, Hc1.
  destruct (ping_answered cfs u sv a (s_id s) seq T2 T3 (dscp s) cm Hid ltac:(by apply wrapu_range) Eu Et Ed Es Ek Hfd)
    as (sv' & bp & bt & pad & pad' & t3 & E2 & Ep & Et2).
  rewrite (proper_wrap T2 P2) in Ep, Et2. rewrite (proper_wrap T3 P3) in Et2. eexists c1, sv', bp, bt, _, _. split; [exact E1|]. split; [exact E2|]. split; [exact Ep|].
  split; [exact Et2|]. intros first.
  set (r := mkRes now MASK_PING (sin6_addr (dst s)) (s_id s) seq T1 no_time no_time no_time) in *.
  set (s1 := set_results (r :: res_head s) (set_last_seq seq s)) in *.
  set (dp := mkData TYPE_PONG seq (s_id s) pad T2 t3). set (dt := mkData TYPE_TIME seq (s_id s) pad' T2 T3).
  destruct (merge_both s r T1 T2 T3 T4 now (s_id s) seq pad pad' t3 first eq_refl Hd) as (M1 & M2 & M3). fold dp dt in M1, M2, M3.
  set (rf := mkRes now MASK_DONE (sin6_addr (dst s)) (s_id s) seq T1 T2 T3 T4) in M3.
  pose proof (done_success rf D f p b P1 P2 P3 P4 HT Hb eq_refl) as HS. destruct (trip_exact rf D f p b P1 P2 P3 P4 HT) as (_ & T5 & T6 & T7 & _).
  assert (Hm1 : forall d, d = dp \/ d = dt -> res_matches (dst s) d r = true) by (intros d [-> | ->]; unfold res_matches; cbn; by rewrite !Z.eqb_refl).
  assert (Hnp1 : (res_ok (sta c) >=? np) = false) by (destruct (Z.geb_spec (res_ok (sta c)) np); [lia|done]).
  assert (Hfin : forall c2 d ts x n r1, msess_head c2 = [set_results (r1 :: res_head s) (set_last_seq seq s)] -> sta c2 = sta c -> s_id s = d_id d ->
    res_matches (dst s) d r1 = true -> merge_res d ts (dscp s) x r1 = rf ->
    let '(e2, c3) := client_res_update CLIENT (dst s) d ts x np th n c2 in
    msess_head c3 = [set_last_seq seq s] /\ res_ok (sta c3) = res_ok (sta c) + 1
    /\ exists rtt total kernel e, e2 = Response seq (s_id s) rtt total kernel :: e
          /\ nanos rtt = f + b /\ nanos total = f + p + b /\ nanos kernel = p).
  { intros c2 d ts x n r1 H1 H2 H3 H4 H5. rewrite (update_head _ _ _ _ _ _ _ _ _ _ _ H1 eq_refl H3 H4). cbn [dscp set_results set_last_seq].
    rewrite H5. change (Z.land (state rf) MASK_DONE =? MASK_DONE) with true. cbv iota. unfold report_done. rewrite HS.
    cbn [Z.eqb]. change (STATE_SUCCESS =? STATE_TS_ERR) with false. change (STATE_SUCCESS =? STATE_DS_ERR) with false. cbv iota.
    split; [by destruct s|]. split; [cbn; by rewrite H2|]. eexists _, _, _, _. split; [reflexivity|done]. }
  destruct first.
  - cbv zeta beta. rewrite (update_head (dst s) dp (Some T4) (dscp s) np th n1 c1 s1 r (res_head s) Hc1 eq_refl eq_refl) by auto.
    cbn [dscp s1 set_results set_last_seq] in M1 |- *. rewrite (proj2 (Z.eqb_neq _ _) M1). cbn [sta set_msess set_counts]. rewrite Hs1, Hnp1.
    pose proof (Hfin (set_msess [set_results (merge_res dp (Some T4) (dscp s) (dscp s) r :: res_head s) s1] (set_counts (count_find 1 (cnt c1)) c1))
      dt None (-1) n2 _ eq_refl Hs1 eq_refl M2 M3) as HF. destruct (client_res_update _ _ _ _ _ _ _ _ _). by split.
  - cbv zeta beta. rewrite (update_head (dst s) dt None (-1) np th n2 c1 s1 r (res_head s) Hc1 eq_refl eq_refl) by auto.
    cbn [dscp s1 set_results set_last_seq] in M1 |- *. rewrite (proj2 (Z.eqb_neq _ _) M1). cbn [sta set_msess set_counts]. rewrite Hs1, Hnp1.
    pose proof (Hfin (set_msess [set_results (merge_res dt None (dscp s) (-1) r :: res_head s) s1] (set_counts (count_find 1 (cnt c1)) c1))
      dp (Some T4) (dscp s) n1 _ eq_refl Hs1 eq_refl M2 M3) as HF. destruct (client_res_update _ _ _ _ _ _ _ _ _). by split.
Qed.

(** ** Lost probes *)

(** A probe that is given up: more than [TIMEOUT] seconds old, in whole
    seconds. *)
Definition young (now : timespec) (r : res) : Prop := nanos now - nanos (created r) < (TIMEOUT + 1) * 1000000000.

#[export] Instance young_dec now r : Decision (young now r).
Proof. unfold young. apply _. Defined.

(** The results of a session as a clock that does not go back makes them. *)
Definition newest_first (now : timespec) (l : list res) : Prop :=
  (forall i j r r', (i < j)%nat -> l !! i = Some r -> l !! j = Some r' -> nanos (created r') <= nanos (created r))
  /\ Forall (fun r => normal (created r) /\ nanos (created r) <= nanos now) l.

Lemma filter_all {A} (P : A -> Prop) `{forall x, Decision (P x)} l : Forall P l -> filter P l = l.
Proof. induction 1 as [|x l Hx _ IH]; [done|]. by rewrite filter_cons_True, IH. Qed.

Lemma clear_exact op now l : normal now -> newest_first now l -> forall c,
  exists e c', clear_results op now (reverse l) c = (e, reverse (filter (young now) l), c').
Proof.
  intros Hnow. induction l as [|r l IH] using rev_ind; intros [Hs Hl] c; [by eexists _, _|].
  apply Forall_app in Hl as [Hl Hr]. apply Forall_cons in Hr as [[Hr Hr'] _].
  rewrite reverse_snoc. cbn [clear_results]. destruct (diff_ts_run now (created r) Hnow Hr) as (D1 & D2 & D3 & _).
  destruct (diff_ts now (created r)) as [diff neg]. cbn [fst] in *. unfold nanos at 1 in D1. destruct (Z.leb_spec (tv_sec diff) TIMEOUT).
  - eexists _, _. f_equal. f_equal. assert (Hy : young now r) by (unfold young, TIMEOUT in *; lia).
    assert (Hf : filter (young now) (l ++ [r]) = l ++ [r]).
    { apply filter_all. apply Forall_app. split; [|by constructor]. apply Forall_lookup. intros i x Hx.
      assert (Hle : nanos (created r) <= nanos (created x)); [|unfold young in *; lia].
      apply (Hs i (length l) x r); [by apply lookup_lt_Some in Hx|by apply lookup_app_l_Some|].
      rewrite lookup_app_r, Nat.sub_diag by lia. done. }
    rewrite Hf. by rewrite reverse_snoc.
  - assert (Hy : ~ young now r) by (unfold young, TIMEOUT in *; lia).
    destruct (report_lost op (tv_sec diff) r c) as [e1 c1]. destruct (IH) with (c := c1) as (e2 & c2 & ->).
    { split; [|done]. intros i j x y Hij Hx Hy'. apply (Hs i j); [done|by apply lookup_app_l_Some..]. }
    rewrite filter_app, filter_cons_False by done. rewrite app_nil_r. by eexists _, _.
Qed.

Lemma clear_msess op now l c : let '(e, l', c') := clear_results op now l c in msess_head c' = msess_head c.
Proof.
  pose proof (clear_results_run op now l c) as H. destruct (clear_results op now l c) as [[e l'] c']. by destruct H as (g & _ & H & _).
Qed.

Definition keep_young (now : timespec) (s : msess) : msess := set_results (filter (young now) (res_head s)) s.

Lemma alter_middle {A} (f : A -> A) l x r : alter f (length l) (l ++ x :: r) = l ++ f x :: r.
Proof. induction l as [|y l IH]; [done|]. cbn. f_equal. exact IH. Qed.

Lemma clear_sessions_exact op now (l : list msess) : normal now -> forall done c, msess_head c = done ++ l ->
  Forall (fun s => newest_first now (res_head s)) l ->
  msess_head (snd (clear_sessions op now (length l) (length done) c)) = done ++ (keep_young now <$> l).
Proof.
  intros Hnow. induction l as [|s l IH]; intros pre c Hc Hl; cbn [length clear_sessions]; [done|].
  apply Forall_cons in Hl as [Hs Hl]. rewrite Hc, list_lookup_middle by done.
  destruct (clear_exact op now (res_head s) Hnow Hs c) as (e & c1 & E). pose proof (clear_msess op now (reverse (res_head s)) c) as Hm.
  rewrite E in Hm |- *. rewrite reverse_involutive. set (c2 := update_session _ _ c1).
  assert (Hc2 : msess_head c2 = (pre ++ [keep_young now s]) ++ l).
  { unfold c2, update_session. cbn [msess_head set_msess]. rewrite Hm, Hc, alter_middle. by rewrite <- (assoc_L (++)). }
  specialize (IH (pre ++ [keep_young now s]) c2 Hc2 Hl). rewrite length_app in IH. cbn [length] in IH. rewrite Nat.add_1_r in IH.
  destruct (clear_sessions op now (length l) (S (length pre)) c2) as [e2 c3]. cbn [snd] in *. rewrite IH, <- (assoc_L (++)). done.
Qed.

(** Timeouts are exact.  If the clock has not gone back, a pass over the
    sessions from their oldest probes on, which stops at the first young one,
    leaves exactly the probes younger than 11 seconds, in every session and in
    their order. *)
Theorem timeouts_exact op now c : normal now -> Forall (fun s => newest_first now (res_head s)) (msess_head c) ->
  msess_head (snd (client_res_clear_timeouts op now c)) = keep_young now <$> msess_head c.
Proof. intros Hn Hl. exact (clear_sessions_exact op now (msess_head c) Hn [] c eq_refl Hl). Qed.

(** ** The clock process *)

Fixpoint ticks (clock : list timespec) (t : ticker) : list Z * ticker :=
  match clock with
  | [] => ([], t)
  | now :: clock' => let '(p, t) := tick now t in let '(l, t) := ticks clock' t in (p :: l, t)
  end.

Lemma tick_range now t : -300 <= time_dev t <= 300 ->
  fst (tick now t) = 1000 - time_dev t /\ -300 <= time_dev (snd (tick now t)) <= 300.
Proof.
  intros Ht. unfold tick, SEND_INTERVAL. destruct (_ =? 0); [|done].
  destruct (diff_ts now (last_check t)) as [passed n]. destruct (diff_ts passed ideal) as [diff neg]. cbn [fst snd time_dev].
  split; [done|]. set (dev := s32 _). destruct (Z.gtb_spec dev 300); [lia|]. destruct (Z.ltb_spec dev (-300)); lia.
Qed.

Lemma ticks_range clock : forall t, -300 <= time_dev t <= 300 ->
  Forall (fun p => 700 <= p <= 1300) (fst (ticks clock t)) /\ -300 <= time_dev (snd (ticks clock t)) <= 300.
Proof.
  induction clock as [|now clock IH]; intros t Ht; cbn [ticks]; [done|]. destruct (tick_range now t Ht) as [H1 H2].
  destruct (tick now t) as [p t1]. cbn [fst snd] in *. destruct (IH t1 H2) as [H3 H4]. destruct (ticks clock t1) as [l t2].
  cbn [fst snd] in *. split; [constructor; [lia|done]|done].
Qed.

(** The clock process is regulated.  Whatever the clock shows, the pauses
    between two ticks are between 700 and 1300 microseconds, so that there are
    at most 1429 ticks in a second; and when a check finds that a hundred
    iterations took 100 milliseconds or more the pauses do not become longer,
    else not shorter. *)
Theorem ticks_regulated clock start now :
  let '(l, t) := ticks clock (mkTicker 0 0 start) in
  Forall (fun p => 700 <= p <= 1300) l
  /\ (Z.rem (niter t) SEND_INTERVAL_DEV_INTERVAL = 0 -> normal now -> normal (last_check t) ->
      Z.abs (nanos now - nanos (last_check t)) < 1000000000 * 2 ^ 61 ->
      let t' := snd (tick now t) in
      if Z.abs (nanos now - nanos (last_check t)) <? 100000000 then 1000 - time_dev t <= 1000 - time_dev t'
      else 1000 - time_dev t' <= 1000 - time_dev t).
Proof.
  destruct (ticks_range clock (mkTicker 0 0 start) ltac:(cbn; lia)) as [H1 H2]. destruct (ticks clock _) as [l t]. cbn [fst snd] in *.
  split; [done|]. intros Hn Hnow Hlast Hb. unfold tick. rewrite Hn. cbn [Z.eqb].
  destruct (diff_ts_run now (last_check t) Hnow Hlast) as (D1 & D2 & D3 & _). destruct (diff_ts now (last_check t)) as [passed n]. cbn [fst] in *.
  assert (Hp : normal passed) by (split; [done|unfold nanos at 1 in D1; lia]). assert (Hi : normal ideal) by (unfold normal, ideal, SEND_INTERVAL, SEND_INTERVAL_DEV_INTERVAL; cbn [tv_nsec tv_sec]; lia).
  destruct (diff_ts_run passed ideal Hp Hi) as (E1 & E2 & E3 & E4). destruct (diff_ts passed ideal) as [diff neg]. cbn [fst snd] in *.
  rewrite D1 in E4. change (nanos ideal) with 100000000 in E4. cbn [time_dev]. rewrite !Z.quot_div_nonneg by (try apply Z.quot_pos; lia || (unfold SEND_INTERVAL_DEV_INTERVAL; lia)).
  unfold SEND_INTERVAL_DEV_INTERVAL. set (q := tv_nsec diff / 1000 / 100).
  assert (Hq : 0 <= q <= 10000) by (unfold q; rewrite Zdiv_Zdiv by lia; split; [apply Z.div_pos; lia|apply Z.div_le_upper_bound; lia]).
  rewrite E4, (wraps_id 32 q) by (unfold in_s; lia). destruct (_ <? 100000000); cbn [Z.eqb].
  - rewrite wraps_id by (unfold in_s; lia). destruct (Z.gtb_spec (time_dev t - q) 300); [lia|]. destruct (Z.ltb_spec (time_dev t - q) (-300)); lia.
  - rewrite wraps_id by (unfold in_s; lia). destruct (Z.gtb_spec (time_dev t + q) 300); [lia|]. destruct (Z.ltb_spec (time_dev t + q) (-300)); lia.
Qed.

(** ** Safety *)

(** The kernel's control messages are as long as their types say. *)
Definition cmsg_ok (m : cmsg) : Prop :=
  (cmsg_level m = SOL_SOCKET -> cmsg_type m = SO_TIMESTAMPING -> (48 <= length (cmsg_data m))%nat)
  /\ (cmsg_level m = SOL_SOCKET -> cmsg_type m = SO_TIMESTAMPNS -> (16 <= length (cmsg_data m))%nat)
  /\ (cmsg_level m = IPPROTO_IPV6 -> cmsg_type m = IPV6_RECVERR -> (16 <= length (cmsg_data m))%nat)
  /\ (cmsg_level m = IPPROTO_IP -> cmsg_type m = IP_TOS -> (4 <= length (cmsg_data m))%nat)
  /\ (cmsg_level m = IPPROTO_IPV6 -> cmsg_type m = IPV6_TCLASS -> (4 <= length (cmsg_data m))%nat).

Definition delivery_ok (v : option delivery) : Prop := forall x, v = Some x -> Forall cmsg_ok (v_cmsgs x).

Lemma decode_time_some p : (16 <= length p)%nat -> is_Some (decode_time p).
Proof. intros H. unfold decode_time. rewrite (proj2 (Nat.leb_le _ _)) by done. by eexists. Qed.

Lemma extract_total md txf l : Forall cmsg_ok l -> forall ok ts, is_Some (extract_from md txf l ok ts).
Proof.
  induction 1 as [|m l (C1 & C2 & C3 & _) _ IH]; intros ok ts; cbn [extract_from]; [by eexists|].
  destruct (Z.eqb_spec (cmsg_level m) SOL_SOCKET) as [El|].
  - destruct md.
    + destruct (Z.eqb_spec (cmsg_type m) SO_TIMESTAMPING) as [Et|]; [|apply IH]. specialize (C1 El Et).
      destruct (decode_time_some (drop 32 (cmsg_data m))) as [t ->]; [rewrite length_drop; lia|]. cbn [mbind option_bind].
      destruct (negb txf); [by eexists|]. destruct (_ =? 3); [by eexists|apply IH].
    + destruct (Z.eqb_spec (cmsg_type m) SO_TIMESTAMPING) as [Et|]; [|apply IH]. specialize (C1 El Et).
      destruct (decode_time_some (drop 0 (cmsg_data m))) as [t ->]; [rewrite length_drop; lia|]. cbn [mbind option_bind].
      destruct (negb txf); [by eexists|]. destruct (_ =? 3); [by eexists|apply IH].
    + destruct (Z.eqb_spec (cmsg_type m) SO_TIMESTAMPNS) as [Et|]; [|apply IH].
      destruct (decode_time_some (cmsg_data m) (C2 El Et)) as [t ->]. by eexists.
  - destruct txf; [|apply IH]. destruct (Z.eqb_spec (cmsg_level m) IPPROTO_IPV6) as [E6|]; [|apply IH]. cbn [andb].
    destruct (Z.eqb_spec (cmsg_type m) IPV6_RECVERR) as [Et|]; [|apply IH]. specialize (C3 E6 Et).
    destruct (lookup_lt_is_Some_2 (cmsg_data m) 4 ltac:(lia)) as [x ->]. cbn [mbind option_bind].
    destruct (_ =? SO_EE_ORIGIN_TIMESTAMPING); [|apply IH]. destruct (_ =? 3); [by eexists|apply IH].
Qed.

Lemma dscp_total l : Forall cmsg_ok l -> is_Some (dscp_extract l).
Proof.
  induction 1 as [|m l (_ & _ & _ & C4 & C5) _ IH]; cbn [dscp_extract]; [by eexists|].
  destruct (_ || _) eqn:E; [|done]. assert (Hl : (4 <= length (cmsg_data m))%nat).
  { apply orb_true_iff in E as [E|E]; apply andb_true_iff in E as [E1 E2]; apply Z.eqb_eq in E1, E2; auto. }
  unfold load32. rewrite load_some by lia. by eexists.
Qed.

Lemma recv_total md v p : delivery_ok v -> exists r p', recv_w_ts md v p = Some (r, p') /\ length (p_data p') = DATALEN.
Proof.
  intros Hv. unfold recv_w_ts. destruct v as [x|]; [|by eexists _, _].
  set (got := take DATALEN (v_bytes x)). assert (Hg : (length got <= DATALEN)%nat) by (unfold got; rewrite length_take; lia).
  assert (Hb : length (got ++ replicate (DATALEN - length got) 0) = DATALEN) by (rewrite length_app, length_replicate; lia).
  destruct (negb _); [eexists _, _; split; [reflexivity|exact Hb]|].
  destruct (extract_total md false (v_cmsgs x) (Hv x eq_refl) 0 no_time) as [[r ts] E]. unfold tstamp_extract. rewrite E.
  destruct (dscp_total (v_cmsgs x) (Hv x eq_refl)) as [[r' ds] E']. cbn [mbind option_bind]. rewrite E'.
  eexists _, _. split; [reflexivity|exact Hb].
Qed.

Definition send_ok (o : send_io) : Prop := Forall (fun w => delivery_ok (w_got w)) (o_rounds o).

Lemma fetch_total md start l : Forall (fun w => delivery_ok (w_got w)) l -> is_Some (fetch_loop md start l).
Proof.
  induction 1 as [|w l Hw _ IH]; cbn [fetch_loop]; [by eexists|]. destruct (_ <? 10000); [|by eexists]. destruct (w_ready w); [|done].
  unfold recv_tx_ts. destruct (w_got w) as [x|]; [|done]. destruct (negb _); [done|].
  destruct (extract_total md true (v_cmsgs x) (Hw x eq_refl) 0 no_time) as [[r ts] E]. unfold tstamp_extract. rewrite E. cbn [mbind option_bind].
  destruct (r <? 0); [done|by eexists].
Qed.

Lemma send_total md o : send_ok o -> is_Some (send_w_ts md o).
Proof.
  intros Ho. unfold send_w_ts, tstamp_fetch_tx. destruct (o_sent o); cbn [negb]; [|by eexists].
  destruct (fetch_total md (o_start o) (o_rounds o) Ho) as [r Hr]. destruct md; [..|by eexists]; rewrite Hr; by eexists.
Qed.

Lemma decode_data_some p : length p = DATALEN -> is_Some (decode_data p).
Proof.
  unfold DATALEN. intros Hp. unfold decode_data, load32. rewrite !load_some by lia. cbn [fmap option_fmap option_map mbind option_bind].
  destruct (decode_time_some (drop 16 p)) as [t ->]; [rewrite length_drop; lia|].
  destruct (decode_time_some (drop 32 p)) as [t' ->]; [rewrite length_drop; lia|]. by eexists.
Qed.

Definition fd_ok (fd : Z) : Prop := 0 <= fd < FD_SETSIZE.

(** Descriptors fit an [fd_set]. *)
Definition loop_ok (s : loop_state) : Prop := fd_max s < FD_SETSIZE /\ Forall (fun p => fd_ok (peer_fd p)) (peers s).

Lemma remove_peer_Forall P fd l : Forall P l -> Forall P (remove_peer fd l).
Proof. induction 1 as [|p l Hp Hl IH]; [done|]. cbn [remove_peer]. destruct (_ =? fd); [done|by constructor]. Qed.

Lemma kill_total fd s : loop_ok s -> fd_ok fd -> exists e s', server_kill_peer fd s = Some (e, s') /\ loop_ok s'.
Proof.
  intros [H1 H2] Hfd. unfold server_kill_peer, fd_clr. destruct Hfd as [F1 F2]. rewrite (proj2 (Z.leb_le _ _) F1), (proj2 (Z.ltb_lt _ _) F2).
  eexists _, _. split; [reflexivity|]. split; [cbn; destruct (fd =? fd_max s); lia|]. by apply remove_peer_Forall.
Qed.

Lemma tcp_send_total fd b s : loop_ok s -> fd_ok fd -> exists e s', tcp_send fd b s = Some (e, s') /\ loop_ok s'.
Proof.
  intros Hs Hfd. unfold tcp_send. destruct b; [by eexists _, _|]. destruct (kill_total fd s Hs Hfd) as (e & s' & -> & Hs').
  by eexists _, _.
Qed.

Lemma find_peer_ok a s : loop_ok s -> 0 <= server_find_peer_fd a s -> fd_ok (server_find_peer_fd a s).
Proof.
  intros [_ H] Hp. unfold server_find_peer_fd in *. destruct (list_find _ (peers s)) as [[i p]|] eqn:E; [|lia].
  apply list_find_Some in E as (E & _). by apply (proj1 (Forall_lookup _ _) H i).
Qed.

(** What the system may do. *)
Definition ready_ok (r : ready) : Prop :=
  (forall u, on_udp r = Some u -> delivery_ok (u_got u) /\ send_ok (u_pong u))
  /\ (forall p now, on_pipe r = Some (Some p, now) -> length (p_data p) = DATALEN).

Lemma udp_total cf u s : loop_ok s -> delivery_ok (u_got u) -> send_ok (u_pong u) ->
  exists e s' ok cont, udp_ready cf u s = Some (e, s', ok, cont) /\ loop_ok s'.
Proof.
  intros Hs Hd Ho. unfold udp_ready. destruct (recv_total (mode cf) (u_got u) (pkt s) Hd) as (r & p & -> & Hp). cbn [mbind option_bind].
  destruct (r <? 0); [by eexists _, _, _, _|]. destruct (decode_data_some (p_data p) Hp) as [rx ->]. cbn [mbind option_bind].
  destruct (_ =? TYPE_PING).
  - unfold answer_ping. destruct (send_total (mode cf) (u_pong u) Ho) as [[x ts] ->]. cbn [mbind option_bind]. cbv zeta.
    set (s1 := set_tx _ _). assert (Hs1 : loop_ok s1) by done. set (fd := server_find_peer_fd _ s1).
    destruct (Z.ltb_spec fd 0); [by eexists _, _, _, _|].
    destruct (tcp_send_total fd (u_tcp_ok u) s1 Hs1) as (e & s2 & -> & Hs2); [by apply find_peer_ok|]. by eexists _, _, _, _.
  - destruct (_ =? TYPE_PONG); [|by eexists _, _, _, _]. destruct (client_res_update _ _ _ _ _ _ _ _ _). by eexists _, _, _, _.
Qed.

(** [accept] gives a descriptor that an [fd_set] has no room for. *)
Definition beyond (r : ready) : Prop := exists a, on_tcp r = Some a /\ FD_SETSIZE <= a_fd a.

Lemma tcp_cases cf a s : loop_ok s ->
  (exists e s' ok, tcp_ready cf a s = Some (e, s', ok) /\ loop_ok s') \/ (tcp_ready cf a s = None /\ FD_SETSIZE <= a_fd a).
Proof.
  intros Hs. unfold tcp_ready. destruct (Z.ltb_spec (a_fd a) 0); [left; by eexists _, _, _|]. cbn [orb].
  destruct (negb _); [left; by eexists _, _, _|]. destruct (_ && _); [left; by eexists _, _, _|].
  unfold fd_set. rewrite (proj2 (Z.leb_le 0 (a_fd a))) by lia. destruct (Z.ltb_spec (a_fd a) FD_SETSIZE); cbn [andb mbind option_bind]; [left|by right].
  set (s1 := set_tx hello _). assert (Hs1 : loop_ok s1) by (destruct Hs; split; [cbn; lia|done]).
  destruct (tcp_send_total (a_fd a) (a_hello_ok a) s1 Hs1 ltac:(split; lia)) as (e & s2 & -> & [H1 H2]). cbn [mbind option_bind].
  eexists _, _, _. split; [reflexivity|]. split; [exact H1|]. constructor; [split; cbn; lia|exact H2].
Qed.

Lemma pipe_total cf x now s : loop_ok s -> (forall p, x = Some p -> length (p_data p) = DATALEN) ->
  exists e s' ok, pipe_ready cf x now s = Some (e, s', ok) /\ loop_ok s'.
Proof.
  intros Hs Hx. unfold pipe_ready. destruct x as [p|]; [|by eexists _, _, _]. destruct (decode_data_some (p_data p) (Hx p eq_refl)) as [rx ->].
  cbn [mbind option_bind]. destruct (_ =? TYPE_HELO); [by eexists _, _, _|]. destruct (_ =? TYPE_TIME); [|by eexists _, _, _].
  destruct (client_res_update _ _ _ _ _ _ _ _ _). by eexists _, _, _.
Qed.

(** The pipe of the clock process does not touch the descriptors. *)
Lemma send_same cf k s : let '(_, s', _) := send_ready cf k s in
  peers s' = peers s /\ nclients s' = nclients s /\ fs s' = fs s /\ fd_max s' = fd_max s.
Proof.
  unfold send_ready. destruct (0 <? k_bytes k); [|done]. destruct (client_msess_transmit _ _ _) as [e1 c1].
  unfold reload_step. destruct (should_reload (set_client c1 s)).
  - destruct (client_msess_reconf _ _ _ _) as [[r e2] c2]. destruct (client_msess_forkall _ _) as [e3 c3].
    destruct (if _ =? 0 then _ else _) as [e4 c4]. unfold stats_step. destruct (op cf); [done..|]. by destruct (_ =? 0).
  - destruct (if _ =? 0 then _ else _) as [e4 c4]. unfold stats_step. destruct (op cf); [done..|]. by destruct (_ =? 0).
Qed.

Lemma kill_ready_total l n : forall fd s, loop_ok s -> 0 <= fd -> exists e s', kill_ready l n fd s = Some (e, s') /\ loop_ok s'.
Proof.
  induction n as [|n IH]; intros fd s Hs Hfd; cbn [kill_ready]; [by eexists _, _|]. destruct (Z.leb_spec fd (fd_max s)); [|by eexists _, _].
  assert (Hk : exists e s', (if decide (fd ∈ l) then server_kill_peer fd s else Some ([], s)) = Some (e, s') /\ loop_ok s').
  { destruct (decide _); [|by eexists _, _]. apply kill_total; [done|]. destruct Hs. split; lia. }
  destruct Hk as (e & s1 & -> & Hs1). cbn [mbind option_bind]. destruct (IH (fd + 1) s1 Hs1 ltac:(lia)) as (e' & s2 & -> & Hs2). by eexists _, _.
Qed.

Lemma iteration_cases cf r s : 0 <= fd_client_low cf -> ready_ok r -> loop_ok s ->
  (exists e s', iteration cf r s = Some (e, s') /\ loop_ok s') \/ (iteration cf r s = None /\ beyond r).
Proof.
  intros Hlow (Hu & Hp) Hs. unfold iteration.
  assert (H1 : exists e s' ok cont, match on_udp r with Some u => udp_ready cf u s | None => Some ([], s, 0, false) end = Some (e, s', ok, cont) /\ loop_ok s').
  { destruct (on_udp r) as [u|]; [|by eexists _, _, _, _]. destruct (Hu u eq_refl). by apply udp_total. }
  destruct H1 as (e1 & s1 & ok1 & cont & -> & H1). cbn [mbind option_bind]. destruct (cont || interrupted e1); [left; by eexists _, _|].
  assert (H2 : (exists e s' ok, match on_tcp r with Some a => tcp_ready cf a s1 | None => Some ([], s1, ok1) end = Some (e, s', ok) /\ loop_ok s')
    \/ (match on_tcp r with Some a => tcp_ready cf a s1 | None => Some ([], s1, ok1) end = None /\ beyond r)).
  { unfold beyond. destruct (on_tcp r) as [a|]; [|left; by eexists _, _, _]. destruct (tcp_cases cf a s1 H1) as [?|[? ?]]; [by left|right; eauto]. }
  destruct H2 as [H2|[-> H2]]; [left|by right]. destruct H2 as (e2 & s2 & ok2 & -> & H2). cbn [mbind option_bind].
  assert (H3 : exists e s' ok, match on_pipe r with Some (x, now) => pipe_ready cf x now s2 | None => Some ([], s2, ok2) end = Some (e, s', ok) /\ loop_ok s').
  { destruct (on_pipe r) as [[x now]|]; [|by eexists _, _, _]. apply pipe_total; [done|]. intros p ->. by apply (Hp p now). }
  destruct H3 as (e3 & s3 & ok3 & -> & H3). cbn [mbind option_bind]. destruct (interrupted e3); [by eexists _, _|].
  assert (H4 : let '(_, s', _) := match on_send r with Some k => send_ready cf k s3 | None => ([], s3, ok3) end in loop_ok s').
  { destruct (on_send r) as [k|]; [|done]. pose proof (send_same cf k s3) as H. destruct (send_ready cf k s3) as [[e' s'] ok'].
    destruct H as (E1 & _ & _ & E2). unfold loop_ok. by rewrite E1, E2. }
  destruct (match on_send r with Some _ => _ | None => _ end) as [[e4 s4] ok4].
  destruct (ok4 =? 0); [|by eexists _, _]. destruct (kill_ready_total (on_fds r) (Z.to_nat (fd_max s4 - fd_client_low cf + 1)) (fd_client_low cf) s4 H4 Hlow)
    as (e5 & s5 & -> & H5). by eexists _, _.
Qed.

(** C25: The main loop is safe.  Packets of any length and contents, control
    messages of the lengths the kernel gives them, any sequence of events: no
    byte outside a packet is touched, and a descriptor outside an [fd_set] only
    if [accept] returns one, which loop.c does not check.  Otherwise the run
    goes through, and all its descriptors are below FD_SETSIZE. *)
Theorem probed_safe cf l s : 0 <= fd_client_low cf -> Forall (fun r => forall x, r = Some x -> ready_ok x) l -> loop_ok s ->
  match loop_or_die cf l s with
  | Some (e, s') => loop_ok s'
  | None => exists r, Some r ∈ l /\ beyond r
  end.
Proof.
  intros Hlow Hl. revert s. induction Hl as [|[r|] l Hr _ IH]; intros s Hs; cbn [loop_or_die]; [done|..].
  - destruct (iteration_cases cf r s Hlow (Hr r eq_refl) Hs) as [(e & s1 & -> & Hs1)|[-> Hb]]; cbn [mbind option_bind];
      [|exists r; split; [by left|done]].
    destruct (interrupted e); [done|]. specialize (IH s1 Hs1). destruct (loop_or_die cf l s1) as [[e' s2]|]; cbn [mbind option_bind]; [done|].
    destruct IH as (r' & Hin & Hb). exists r'. split; [by right|done].
  - specialize (IH s Hs). destruct (loop_or_die cf l s) as [[e' s2]|]; [done|]. destruct IH as (r' & Hin & Hb). exists r'. split; [by right|done].
Qed.

(** ** One client at a time *)

Definition exclusive (low : Z) (s : loop_state) : Prop :=
  nclients s = Z.of_nat (length (peers s)) /\ (length (peers s) <= 1)%nat
  /\ forall fd, fd ∈ fs s -> low <= fd -> exists p, peers s = [p] /\ peer_fd p = fd.

(** [select] reports descriptors of the set, and no send on TCP fails. *)
Definition plausible (r : ready) (s : loop_state) : Prop :=
  (forall u, on_udp r = Some u -> u_tcp_ok u = true) /\ (forall a, on_tcp r = Some a -> a_hello_ok a = true)
  /\ forall fd, fd ∈ on_fds r -> fd ∈ fs s.

Fixpoint plausible_run (cf : settings) (l : list (option ready)) (s : loop_state) : Prop :=
  match l with
  | [] => True
  | None :: l' => plausible_run cf l' s
  | Some r :: l' => plausible r s /\ forall e s', iteration cf r s = Some (e, s') -> plausible_run cf l' s'
  end.

(** The parts of the state that the server uses for its peers. *)
Definition same_peers (s s' : loop_state) : Prop := peers s' = peers s /\ nclients s' = nclients s /\ fs s' = fs s /\ fd_max s' = fd_max s.

Lemma same_exclusive low s s' : same_peers s s' -> exclusive low s -> exclusive low s'.
Proof. intros (H1 & H2 & H3 & _). unfold exclusive. by rewrite H1, H2, H3. Qed.

Lemma udp_peers cf u s e s' ok cont : u_tcp_ok u = true -> udp_ready cf u s = Some (e, s', ok, cont) -> same_peers s s'.
Proof.
  intros Hu. unfold udp_ready. intros H. apply bind_Some in H as ([r p] & _ & H). destruct (r <? 0); [by injection H as <- <- <- <-|].
  apply bind_Some in H as (rx & _ & H). destruct (_ =? TYPE_PING).
  - apply bind_Some in H as ([[e1 s1] b] & H & [= <- <- <- <-]). unfold answer_ping in H. apply bind_Some in H as ([x ts] & _ & H).
    destruct (_ <? 0); [by injection H as <- <- <-|]. unfold tcp_send in H. rewrite Hu in H. by injection H as <- <- <-.
  - destruct (_ =? TYPE_PONG); [|by injection H as <- <- <- <-]. destruct (client_res_update _ _ _ _ _ _ _ _ _). by injection H as <- <- <- <-.
Qed.

Lemma pipe_peers cf x now s e s' ok : pipe_ready cf x now s = Some (e, s', ok) -> same_peers s s'.
Proof.
  unfold pipe_ready. destruct x as [p|]; [|by intros [= <- <- <-]]. intros H. apply bind_Some in H as (rx & _ & H).
  destruct (_ =? TYPE_HELO); [by injection H as <- <- <-|]. destruct (_ =? TYPE_TIME); [|by injection H as <- <- <-].
  destruct (client_res_update _ _ _ _ _ _ _ _ _). by injection H as <- <- <-.
Qed.

Lemma tcp_exclusive cf a s e s' ok : lock cf = true -> a_hello_ok a = true -> exclusive (fd_client_low cf) s -> tcp_ready cf a s = Some (e, s', ok) ->
  exclusive (fd_client_low cf) s' /\ forall fd, fd ∈ fs s -> fd ∈ fs s'.
Proof.
  intros Hl Ha (H1 & H2 & H3). unfold tcp_ready. destruct (_ || _); [by intros [= <- <- <-]|]. rewrite Hl, andb_true_r.
  destruct (Z.ltb_spec 0 (nclients s)); [by intros [= <- <- <-]|]. unfold fd_set. destruct (_ && _); [|done]. cbn [mbind option_bind].
  unfold tcp_send. rewrite Ha. cbn [mbind option_bind]. intros [= <- <- <-]. destruct (peers s) as [|p l] eqn:Ep; [|cbn in H1; lia].
  assert (Hn : nclients s = 0) by (cbn in H1; lia). cbn [peers nclients fs set_peers set_tx]. unfold exclusive. cbn [peers nclients fs set_peers set_tx]. rewrite ?Ep, Hn. split.
  - split; [done|]. split; [cbn; lia|]. intros fd Hfd Hlow. exists (mkPeer (a_addr a) (a_fd a)). split; [done|]. cbn [fs set_peers set_tx] in Hfd.
    destruct (decide (a_fd a ∈ fs s)) as [Hin|Hin]; [destruct (H3 fd Hfd Hlow) as (p & ? & _); done|].
    apply elem_of_cons in Hfd as [-> | Hfd]; [done|]. destruct (H3 fd Hfd Hlow) as (p & ? & _). done.
  - intros fd Hfd. destruct (decide _); [done|]. by apply elem_of_cons; right.
Qed.

Lemma kill_exclusive low l n : forall fd s e s', exclusive low s -> low <= fd ->
  (forall x, x ∈ l -> fd <= x -> exists p, peers s = [p] /\ peer_fd p = x) -> kill_ready l n fd s = Some (e, s') -> exclusive low s'.
Proof.
  induction n as [|n IH]; intros fd s e s' Hs Hlow Hl; cbn [kill_ready]; [by intros [= <- <-]|].
  destruct (_ <=? _); [|by intros [= <- <-]]. intros H. apply bind_Some in H as ([e1 s1] & H1 & H). apply bind_Some in H as ([e2 s2] & H2 & [= <- <-]).
  destruct (decide (fd ∈ l)) as [Hin|Hin].
  - destruct (Hl fd Hin ltac:(lia)) as (p & Ep & Efd). unfold server_kill_peer, fd_clr in H1. destruct (_ && _); [|done].
    injection H1 as <- <-. rewrite Ep in H2. cbn [remove_peer] in H2. rewrite (proj2 (Z.eqb_eq _ _) Efd) in H2.
    destruct Hs as (N1 & N2 & N3). rewrite Ep in N1. cbn [length] in N1. refine (IH _ _ _ _ _ _ _ H2); [|lia|].
    + split; [cbn; rewrite N1; done|]. split; [cbn; lia|]. intros x Hx Hx'. cbn [fs set_peers] in Hx. apply list_elem_of_filter in Hx as [Hne Hx].
      destruct (N3 x Hx Hx') as (p' & Ep' & <-). congruence.
    + intros x Hx Hge. destruct (Hl x Hx ltac:(lia)) as (p' & Ep' & <-). assert (p' = p) by congruence. subst p'. lia.
  - injection H1 as <- <-. refine (IH _ _ _ _ Hs _ _ H2); [lia|]. intros x Hx Hge. by apply Hl; [|lia].
Qed.

Lemma iteration_exclusive cf r s e s' : lock cf = true -> plausible r s -> exclusive (fd_client_low cf) s -> iteration cf r s = Some (e, s') ->
  exclusive (fd_client_low cf) s'.
Proof.
  intros Hl (Pu & Pt & Pf) Hs H. unfold iteration in H. apply bind_Some in H as ([[[e1 s1] ok1] cont] & H1 & H).
  assert (B1 : same_peers s s1).
  { destruct (on_udp r) as [u|]; [by apply udp_peers in H1; [|apply Pu]|]. by injection H1 as <- <- <- <-. }
  pose proof (same_exclusive _ _ _ B1 Hs) as Hs1. destruct (cont || interrupted e1); [by injection H as <- <-|].
  apply bind_Some in H as ([[e2 s2] ok2] & H2 & H).
  assert (B2 : exclusive (fd_client_low cf) s2 /\ forall fd, fd ∈ fs s1 -> fd ∈ fs s2).
  { destruct (on_tcp r) as [a|]; [apply (tcp_exclusive cf a s1 e2 s2 ok2); auto|]. by injection H2 as <- <- <-. }
  destruct B2 as [Hs2 Hf2]. apply bind_Some in H as ([[e3 s3] ok3] & H3 & H).
  assert (B3 : same_peers s2 s3).
  { destruct (on_pipe r) as [[x now]|]; [by apply pipe_peers in H3|]. by injection H3 as <- <- <-. }
  pose proof (same_exclusive _ _ _ B3 Hs2) as Hs3. destruct (interrupted e3); [by injection H as <- <-|].
  assert (B4 : let '(_, s4, _) := match on_send r with Some k => send_ready cf k s3 | None => ([], s3, ok3) end in same_peers s3 s4).
  { destruct (on_send r) as [k|]; [apply send_same|done]. }
  destruct (match on_send r with Some _ => _ | None => _ end) as [[e4 s4] ok4]. pose proof (same_exclusive _ _ _ B4 Hs3) as Hs4.
  apply bind_Some in H as ([e5 s5] & H5 & [= <- <-]). destruct (ok4 =? 0); [|by injection H5 as <- <-].
  eapply kill_exclusive; [exact Hs4|reflexivity| |exact H5]. intros x Hx Hge. apply Hs4; [|done].
  destruct B4 as (_ & _ & -> & _), B3 as (_ & _ & -> & _). apply Hf2. destruct B1 as (_ & _ & -> & _). by apply Pf.
Qed.

(** C26: With -l there is one client at a time.  As long as sends on TCP do not
    fail, after any events a server started with -l counts the clients it has,
    at most one, and listens to no other connection. *)
Theorem lock_exclusive cf l s e s' : lock cf = true -> peers s = [] -> nclients s = 0 -> Forall (fun fd => fd < fd_client_low cf) (fs s) ->
  plausible_run cf l s -> loop_or_die cf l s = Some (e, s') ->
  nclients s' = Z.of_nat (length (peers s')) /\ (length (peers s') <= 1)%nat
  /\ forall fd, fd ∈ fs s' -> fd_client_low cf <= fd -> exists p, peers s' = [p] /\ peer_fd p = fd.
Proof.
  intros Hl Hp Hn Hf Hr H. assert (Hs : exclusive (fd_client_low cf) s).
  { split; [by rewrite Hn, Hp|]. split; [by rewrite Hp; cbn; lia|]. intros fd Hfd Hlow. rewrite Forall_forall in Hf. specialize (Hf fd Hfd). lia. }
  clear Hp Hn Hf. revert s e Hs Hr H. induction l as [|[r|] l IH]; intros s e Hs Hr H; cbn [loop_or_die plausible_run] in *.
  - by injection H as <- <-.
  - destruct Hr as [Hr1 Hr2]. apply bind_Some in H as ([e1 s1] & H1 & H). pose proof (iteration_exclusive cf r s e1 s1 Hl Hr1 Hs H1) as Hs1.
    destruct (interrupted e1); [by injection H as <- <-|]. apply bind_Some in H as ([e2 s2] & H2 & [= <- <-]).
    by apply (IH s1 e2 Hs1 (Hr2 e1 s1 H1)).
  - by apply (IH s e Hs Hr).
Qed.

(** ** Concrete runs *)

Definition demo_addr : addr := mkAddr 0x1 60666.
Definition demo_stale : packet := mkPacket (mkAddr 0 0) 0 (replicate 48 0) no_time.
Definition demo_cf : settings := mkSettings CLIENT USERLAND false 8 1000 0.
Definition demo_session : msess := mkMsess 0 [] demo_addr 500 true 46 0 0.
Definition demo_client : client := mkClient [demo_session] [] [] (mkCounts 0 0 0 0 0) no_stats.
Definition demo_state : loop_state := mkLoop [] 0 [3; 4; 5; 7] 8 0 true demo_stale no_data 0 demo_client.

Definition demo_tick (io : list sending) : ready :=
  mkReady None None None (Some (mkTick 1 io (fun _ => None) None [77] (mkTime 1000 0))) [].

Definition demo_wire (d : data) (sec : Z) (tclass : Z) : delivery :=
  mkDelivery demo_addr (encode_data d) [mkCmsg SOL_SOCKET SO_TIMESTAMPNS (encode_time (mkTime sec 500));
                                        mkCmsg IPPROTO_IPV6 IPV6_TCLASS (le_bytes 8 tclass)].

Definition demo_send (sec : Z) : send_io := mkSend (mkTime sec 700) true no_time [].

Definition demo_pong : data := mkData TYPE_PONG 1 0 0 (mkTime 2000 500) no_time.
Definition demo_time : data := mkData TYPE_TIME 1 0 0 (mkTime 2000 500) (mkTime 2000 700).

(** A probe with both answers, and one without. *)
Definition demo_run : list (option ready) :=
  [Some (demo_tick [(Some (mkTime 1000 100), mkTime 1000 200)]);
   None;
   Some (mkReady (Some (mkUdp (Some (demo_wire demo_pong 1000 184)) (demo_send 1000) true (mkTime 1000 900))) None None None []);
   Some (mkReady None None (Some (Some (mkPacket demo_addr 0 (encode_data demo_time) no_time), mkTime 1000 900)) None [])]
  ++ replicate 499 (Some (demo_tick [])) ++ [Some (demo_tick [(Some (mkTime 1000 300), mkTime 1000 400)])].

Definition demo_numbers (r : option (list action * loop_state)) : option (nat * nat * Z * Z) :=
  match r with
  | Some (e, s) => Some (length (sent (client_effects e)), length (pending (cl s)), fst (summary (sta (cl s))), res_ok (sta (cl s)))
  | None => None
  end.

Lemma demo_account : demo_numbers (loop_or_die demo_cf demo_run demo_state) = Some (2%nat, 1%nat, 1, 1).
Proof. vm_compute. reflexivity. Qed.

(** A daemon whose pipe takes one record: two probes, of which one is answered,
    one probe without a time, and a new configuration. *)
Definition demo_cfd : settings := mkSettings DAEMON USERLAND false 8 1000 0.
Definition demo_daemon : loop_state :=
  mkLoop [] 0 [3; 4; 5; 7] 8 0 false demo_stale no_data 0 (mkClient [mkMsess 0 [] demo_addr 1 true 46 0 0] [] [true] (mkCounts 0 0 0 0 0) no_stats).
Definition demo_reconf : ready :=
  mkReady None None None (Some (mkTick 1 [] (fun _ => None) (Some (Some [])) [] (mkTime 1000 900))) [].
Definition demo_life : list (option ready) :=
  [Some (demo_tick [(Some (mkTime 1000 100), mkTime 1000 200)]); Some (demo_tick [(Some (mkTime 1000 300), mkTime 1000 400)]);
   Some (mkReady (Some (mkUdp (Some (demo_wire demo_pong 1000 184)) (demo_send 1000) true (mkTime 1000 900))) None None None []);
   Some (mkReady None None (Some (Some (mkPacket demo_addr 0 (encode_data demo_time) no_time), mkTime 1000 900)) None []);
   Some (demo_tick [(None, mkTime 1000 600)])].
Definition demo_hup (s : loop_state) : loop_state := set_sends (sends s) true s.

Definition demo_keys (r : option (list action * loop_state)) : option (list (Z * Z) * list (Z * Z) * list (Z * Z) * list (Z * Z)) :=
  match r with
  | Some (e, s) => let e := client_effects e in Some (sent e, skipped e, forgotten e, completed (written e))
  | None => None
  end.

Lemma demo_life_run : exists s, (exists e, loop_or_die demo_cfd demo_life demo_daemon = Some (e, s))
  /\ demo_keys (loop_or_die demo_cfd demo_life demo_daemon) = Some ([(0, 1); (0, 2); (0, 3)], [(0, 3)], [], [(0, 1)])
  /\ demo_keys (loop_or_die demo_cfd [Some demo_reconf] (demo_hup s)) = Some ([(0, 4)], [(0, 4)], [(0, 2)], []).
Proof. eexists. split; [eexists; vm_compute; reflexivity|]. split; vm_compute; reflexivity. Qed.

(** The client of the first run, and the daemon after a hang-up. *)
Lemma probes_accounted_witness :
  (exists e s', loop_or_die demo_cf demo_run demo_state = Some (e, s')
     /\ Z.of_nat (length (sent (client_effects e))) = Z.of_nat (length (pending (cl s'))) + fst (summary (sta (cl s')))
        + Z.of_nat (length (skipped (client_effects e))) + Z.of_nat (length (forgotten (client_effects e))))
  /\ exists s, (exists e, loop_or_die demo_cfd demo_life demo_daemon = Some (e, s)) /\
     exists e s', loop_or_die demo_cfd [Some demo_reconf] (demo_hup s) = Some (e, s')
     /\ sent (client_effects e) = [(0, 4)] /\ forgotten (client_effects e) = [(0, 2)]
     /\ forall k, occ k (sent (client_effects e)) + occ k (res_key <$> pending (cl s)) + occ k (completed (fifoq_head (cl s)))
       = occ k (completed (written (client_effects e))) + occ k (res_key <$> pending (cl s')) + occ k (completed (fifoq_head (cl s')))
         + occ k (skipped (client_effects e)) + occ k (forgotten (client_effects e)).
Proof.
  split.
  - pose proof demo_account as E. destruct (loop_or_die demo_cf demo_run demo_state) as [[e s']|] eqn:Er; [|discriminate E]. exists e, s'. split; [reflexivity|].
    destruct (probes_accounted demo_cf demo_run demo_state e s' Er) as [H _]. specialize (H eq_refl).
    change (pending (cl demo_state)) with (@nil res) in H. change (fst (summary (sta (cl demo_state)))) with 0 in H. cbn [length Z.of_nat] in H. lia.
  - destruct demo_life_run as (s & H1 & _ & H2). exists s. split; [exact H1|].
    destruct (loop_or_die demo_cfd [Some demo_reconf] (demo_hup s)) as [[e s']|] eqn:Er; [|discriminate H2]. exists e, s'. split; [reflexivity|].
    injection H2 as Hs _ Hf _. split; [exact Hs|]. split; [exact Hf|].
    exact (proj2 (probes_accounted demo_cfd [Some demo_reconf] (demo_hup s) e s' Er) eq_refl).
Defined.

Definition demo_server : loop_state := mkLoop [mkPeer demo_addr 9] 1 [3; 4; 5; 7; 9] 9 0 false demo_stale no_data 0 (client_init []).
Definition demo_cfs : settings := mkSettings SERVER USERLAND true 8 1000 0.
Definition demo_u : udp_io := mkUdp (Some (demo_wire (ping_data 0 1) 2000 184)) (demo_send 2000) true no_time.

(** The server is 1000 seconds ahead; 300 ns there, 200 ns on it, 500 ns back. *)
Lemma probe_round_trip_witness : exists c1 sv' bp bt,
  client_msess_transmit 500 [(Some (mkTime 1000 200), mkTime 1000 250)] demo_client
    = ([SetDscp 184; Sendto demo_addr (ping_data 0 1) true], c1)
  /\ udp_ready demo_cfs demo_u demo_server = Some ([Client (SetDscp 184); Pong demo_addr bp; TcpSend 9 bt], sv', 1, false)
  /\ on_time (mkTime 1000 200) (mkTime 2000 500) (mkTime 2000 700) (mkTime 1000 1200) (1000 * 1000000000) 300 200 500.
Proof.
  destruct (probe_round_trip demo_client demo_session demo_cfs demo_u demo_server demo_addr
    (mkTime 1000 200) (mkTime 2000 500) (mkTime 2000 700) (mkTime 1000 1200) (1000 * 1000000000) 300 200 500
    [mkCmsg SOL_SOCKET SO_TIMESTAMPNS (encode_time (mkTime 2000 500)); mkCmsg IPPROTO_IPV6 IPV6_TCLASS (le_bytes 8 184)]
    500 (mkTime 1000 250) 1000 0 no_time no_time) as (c1 & sv' & bp & bt & dp & dt & H1 & H2 & _);
    try reflexivity; try (vm_compute; intuition congruence); try (split_and!; by vm_compute).
  exists c1, sv', bp, bt. split; [exact H1|]. split; [exact H2|]. split_and!; by vm_compute.
Defined.

Definition demo_res (seq sec : Z) : res := mkRes (mkTime sec 0) MASK_PING 1 0 seq (mkTime sec 1) no_time no_time no_time.

Definition demo_old : client := set_msess [set_results [demo_res 3 995; demo_res 2 989; demo_res 1 980] demo_session] demo_client.

Lemma timeouts_exact_witness : res_head <$> msess_head (snd (client_res_clear_timeouts CLIENT (mkTime 1000 0) demo_old)) = [[demo_res 3 995]].
Proof.
  rewrite (timeouts_exact CLIENT (mkTime 1000 0) demo_old).
  - reflexivity.
  - split; by vm_compute.
  - apply Forall_cons; split; [|done]. split.
    + intros i j r r' Hij Hr Hr'. destruct i as [|[|[|i]]], j as [|[|[|j]]]; cbn in Hr, Hr'; try lia; try discriminate;
        injection Hr as <-; injection Hr' as <-; by vm_compute.
    + repeat (apply Forall_cons; split); [split; [split|]; by vm_compute..|done].
Defined.

Lemma ticks_regulated_witness : Forall (fun p => 700 <= p <= 1300) (fst (ticks [mkTime 0 1100000; mkTime 0 2400000] (mkTicker 0 0 (mkTime 0 0)))).
Proof. exact (proj1 (ticks_regulated [mkTime 0 1100000; mkTime 0 2400000] (mkTime 0 0) (mkTime 0 0))). Defined.

Lemma demo_cmsgs sec tclass : Forall cmsg_ok [mkCmsg SOL_SOCKET SO_TIMESTAMPNS (encode_time (mkTime sec 500));
                                              mkCmsg IPPROTO_IPV6 IPV6_TCLASS (le_bytes 8 tclass)].
Proof. repeat (apply Forall_cons; split); [..|done]; split_and!; cbn; intros; try discriminate; lia. Qed.

(** A PING and a connection, and a connection with a descriptor that is too
    large: the one is handled, and nothing else is to blame for the other. *)
Definition demo_events (fd : Z) : list (option ready) := [Some (mkReady (Some demo_u) (Some (mkTcp fd (mkAddr 2 1) true true)) None None [9])].

Lemma probed_safe_witness :
  (exists e s', loop_or_die (mkSettings SERVER USERLAND false 8 1000 0) (demo_events 10) demo_server = Some (e, s') /\ loop_ok s')
  /\ loop_or_die (mkSettings SERVER USERLAND false 8 1000 0) (demo_events 1024) demo_server = None
  /\ exists r, Some r ∈ demo_events 1024 /\ beyond r.
Proof.
  assert (Hl : forall fd, Forall (fun r => forall x, r = Some x -> ready_ok x) (demo_events fd)).
  { intros fd. apply Forall_cons; split; [|done]. intros x [= <-]. split; [|discriminate].
    intros u [= <-]. split; [|apply Forall_nil_2]. intros v [= <-]. apply demo_cmsgs. }
  assert (Hs : loop_ok demo_server) by (split; [by vm_compute|]; apply Forall_cons; split; [|done]; split; by vm_compute).
  pose proof (probed_safe (mkSettings SERVER USERLAND false 8 1000 0) (demo_events 10) demo_server ltac:(by vm_compute) (Hl 10) Hs) as H1.
  pose proof (probed_safe (mkSettings SERVER USERLAND false 8 1000 0) (demo_events 1024) demo_server ltac:(by vm_compute) (Hl 1024) Hs) as H2.
  assert (E1 : exists e s', loop_or_die (mkSettings SERVER USERLAND false 8 1000 0) (demo_events 10) demo_server = Some (e, s')) by (eexists _, _; vm_compute; reflexivity).
  assert (E2 : loop_or_die (mkSettings SERVER USERLAND false 8 1000 0) (demo_events 1024) demo_server = None) by (vm_compute; reflexivity).
  destruct E1 as (e & s' & E1). rewrite E1 in H1. rewrite E2 in H2. split; [by exists e, s'|]. split; [exact E2|exact H2].
Defined.

Definition demo_idle : loop_state := mkLoop [] 0 [3; 4; 5; 7] 8 0 false demo_stale no_data 0 (client_init []).

(** A client, a second one that is refused, and the first one leaves. *)
Definition demo_visits : list (option ready) :=
  [Some (mkReady None (Some (mkTcp 9 demo_addr true true)) None None []);
   Some (mkReady None (Some (mkTcp 10 (mkAddr 2 1) true true)) None None []);
   Some (mkReady None None None None [9])].

Lemma lock_exclusive_witness : exists e s', loop_or_die demo_cfs demo_visits demo_idle = Some (e, s')
  /\ nclients s' = Z.of_nat (length (peers s')) /\ (length (peers s') <= 1)%nat.
Proof.
  assert (H : exists e s', loop_or_die demo_cfs demo_visits demo_idle = Some (e, s')) by (eexists _, _; vm_compute; reflexivity).
  destruct H as (e & s' & H). exists e, s'. split; [exact H|].
  destruct (lock_exclusive demo_cfs demo_visits demo_idle e s') as (H1 & H2 & _); try reflexivity; [| |exact H|split; [exact H1|exact H2]].
  - repeat (apply Forall_cons; split); by vm_compute.
  - cbn [demo_visits plausible_run]. split; [split_and!; [discriminate|by intros a [= <-]|intros fd Hfd; by apply elem_of_nil in Hfd]|].
    intros e1 s1 E1. split; [split_and!; [discriminate|by intros a [= <-]|intros fd Hfd; by apply elem_of_nil in Hfd]|].
    intros e2 s2 E2. vm_compute in E1. injection E1 as <- <-. vm_compute in E2. injection E2 as <- <-.
    split; [|done]. split_and!; [discriminate..|]. intros fd Hfd. apply list_elem_of_singleton in Hfd as ->. vm_compute. left.
Defined.

(** ** What the code does not guard against *)

(** A hello that fails leaves its peer in the list; when the time of its next
    PING cannot be sent either, the number of clients wraps around and -l
    refuses everybody. *)
Lemma lock_stuck : exists e s',
  loop_or_die demo_cfs
    [Some (mkReady None (Some (mkTcp 9 demo_addr true false)) None None []);
     Some (mkReady (Some (mkUdp (u_got demo_u) (u_pong demo_u) false no_time)) None None None []);
     Some (mkReady None (Some (mkTcp 9 (mkAddr 2 1) true true)) None None [])] demo_idle = Some (e, s')
  /\ nclients s' = 2 ^ 32 - 1 /\ peers s' = [].
Proof. eexists _, _. split; [vm_compute; reflexivity|split; reflexivity]. Qed.

(** A fork that fails leaves -1 as the process of the session, and the next
    reload signals every process. *)
Lemma kill_everything : exists e c, client_msess_forkall [-1] demo_client = (e, c)
  /\ snd (fst (client_msess_reconf DAEMON (fun _ => None) (Some (Some [])) c)) = [Kill (-1)].
Proof. eexists _, _. split; reflexivity. Qed.

(** A record can overtake the queue. *)
Lemma fifo_overtakes r r' c : fifoq_head c = [r] -> answers c = [false; true] -> fst (client_write_fifo r' c) = [Fifo r'].
Proof. intros H1 H2. unfold client_write_fifo. by rewrite H1, H2. Qed.

(** With two sessions of one number the results go to the last one, and the
    answers are looked for in the first. *)
Lemma same_id_lost : let c := set_msess [demo_session; demo_session] demo_client in
  let '(_, c1) := client_msess_transmit 500 [(Some (mkTime 1000 0), mkTime 1000 0); (Some (mkTime 1000 0), mkTime 1000 0)] c in
  let '(e, c2) := client_res_update CLIENT demo_addr demo_pong (Some (mkTime 1000 5)) 46 1000 0 (mkTime 1000 9) c1 in
  e = [Unknown 1 0] /\ length (pending c2) = 2%nat.
Proof. vm_compute. split; reflexivity. Qed.

(** A clock set back by more than 11 seconds makes new probes look old. *)
Lemma clock_back_timeout : pending (snd (client_res_clear_timeouts CLIENT (mkTime 960 0) demo_old)) = [].
Proof. vm_compute. reflexivity. Qed.

(** The first check compares one iteration with the time of a hundred. *)
Lemma first_check : fst (ticks [mkTime 0 1000000; mkTime 0 2000000] (mkTicker 0 0 (mkTime 0 0))) = [1000; 1300].
Proof. vm_compute. reflexivity. Qed.
