(* ===== verification/Rarpd.v ===== *)
(** * The RARP daemon of iputils: rarpd.c

    A host without a disk asks with a RARP request for the address that belongs
    to its link address; rarpd looks it up in /etc/ethers and the names of
    hosts, checks that it is on a net of the interface, and answers.  This file
    holds the whole program.

    Addresses are the 32 bit numbers of their bytes in memory; the entries that
    SIOCGIFCONF returns carry the answers to the questions asked about them.
    [ether_ntohost], [gethostbyname] and the directory are arguments.  [malloc]
    does not fail. *)

From Stdlib Require Import ZArith Lia Ascii String.
From stdpp Require Import base numbers option list.
From S2P Require Import Prelude Ping PingPacket PingFilter Arping.

Local Open Scope list_scope.
Local Open Scope Z_scope.
Local Abbreviation length := List.length.

(** ** Data *)

Definition AF_INET : Z := 2.
Definition ARPHRD_IEEE802 : Z := 6.
Definition ARPOP_RREQUEST : Z := 3.
Definition ARPOP_RREPLY : Z := 4.
Definition IFNAMSIZ : nat := 16.

Record ifaddr := mkIfaddr {
  prefix : Z;
  mask : Z;
  local : Z
}.

Record iflink := mkIflink {
  index : Z;
  hatype : Z;
  lladdr : list Z;
  lname : string;
  ifa_list : list ifaddr
}.

Record rarp_map := mkMap {
  ifindex : Z;
  arp_type : Z;
  lladdr_len : Z;
  map_lladdr : list Z;
  ipaddr : Z
}.

(** The global variables that options set. *)
Record options := mkOptions {
  all_ifaces : bool;
  listen_arp : bool;
  debug : bool;
  verbose : bool;
  allow_offlink : bool;
  only_ethers : bool;
  ifidx : Z
}.

(** The other variables: the two lists, the static [emap] of [rarp_lookup],
    and the number of sockets that were opened and not closed. *)
Record rarpd := mkRarpd {
  ifl_list : list iflink;
  rarp_db : list rarp_map;
  emap : rarp_map;
  lost_fds : Z
}.

Definition set_links (l : list iflink) (s : rarpd) : rarpd := mkRarpd l (rarp_db s) (emap s) (lost_fds s).
Definition set_emap (m : rarp_map) (s : rarpd) : rarpd := mkRarpd (ifl_list s) (rarp_db s) m (lost_fds s).
Definition lose_fd (s : rarpd) : rarpd := mkRarpd (ifl_list s) (rarp_db s) (emap s) (lost_fds s + 1).

Definition start_emap : rarp_map := mkMap 0 ARPHRD_ETHER 6 (replicate 16 0) 0.
Definition start_state : rarpd := mkRarpd [] [] start_emap 0.

Inductive effect :=
  | Log_link (name : string)
  | Log_addr (addr prefix bits : Z) (name : string)
  | Set_arp (addr hatype : Z) (lladdr : list Z) (dev : string)
  | Send (to : sockaddr_ll) (packet : list Z).

(** ** The interfaces *)

Record ifreq := mkIfreq {
  ifr_name : string;
  ifr_family : Z;
  ifr_addr : Z;
  get_index : option Z;                (* SIOCGIFINDEX *)
  get_hwaddr : option (Z * list Z);    (* SIOCGIFHWADDR *)
  get_netmask : option Z;              (* SIOCGIFNETMASK *)
  get_dstaddr : option Z               (* SIOCGIFDSTADDR *)
}.

(** What [socket] and SIOCGIFCONF answer. *)
Inductive ifconf := No_socket | No_conf | Conf (l : list ifreq).

Definition find_link (i : Z) (l : list iflink) : option iflink := List.find (fun x => index x =? i) l.

Fixpoint update_link (i : Z) (f : iflink -> iflink) (l : list iflink) : list iflink :=
  match l with
  | [] => []
  | x :: l => if index x =? i then f x :: l else x :: update_link i f l
  end.

(** [strncpy] and the cut at the colon of an alias. *)
Fixpoint until_colon (s : string) : string :=
  match s with
  | EmptyString => EmptyString
  | String c s => if Ascii.eqb c ":" then EmptyString else String c (until_colon s)
  end.

Definition link_name (s : string) : string := until_colon (substring 0 IFNAMSIZ s).

Definition htonl (x : Z) : Z := le_value (reverse (le_bytes 4 x)).

(** The length of the prefix as it is logged: the loop from [i] = 32 with the
    mask [m], or -1. *)
Fixpoint mask_loop (i : nat) (m mask : Z) : Z :=
  if htonl m =? mask then Z.of_nat i
  else match i with O => -1 | S i => mask_loop i (u32 (Z.shiftl m 1)) mask end.

Definition mask_bits (mask : Z) : Z := mask_loop 32 (2 ^ 32 - 1) mask.

Definition same_ifaddr (a b : ifaddr) : bool := (local a =? local b) && (prefix a =? prefix b) && (mask a =? mask b).

Definition push_ifaddr (a : ifaddr) (x : iflink) : iflink :=
  mkIflink (index x) (hatype x) (lladdr x) (lname x) (a :: ifa_list x).

(** The second half of the body of the loop of [load_if], for the link with
    number [i], which is in the list. *)
Definition load_ifaddr (c : options) (r : ifreq) (i : Z) (l : list iflink) : list iflink * list effect :=
  match get_netmask r with
  | None => (l, [])
  | Some m =>
      match get_dstaddr r with
      | None => (l, [])
      | Some p =>
          let a := mkIfaddr p m (ifr_addr r) in
          match find_link i l with
          | None => (l, [])
          | Some x =>
              if existsb (same_ifaddr a) (ifa_list x) then (l, [])
              else if (m =? 0) || (p =? 0) then (l, [])
              else (update_link i (push_ifaddr a) l,
                    if verbose c then [Log_addr (ifr_addr r) p (mask_bits m) (lname x)] else [])
          end
      end
  end.

Definition load_entry (c : options) (r : ifreq) (l : list iflink) : list iflink * list effect :=
  if negb (ifr_family r =? AF_INET) then (l, [])
  else if ifr_addr r =? 0 then (l, [])
  else match get_index r with
  | None => (l, [])
  | Some i =>
      if negb (ifidx c =? 0) && negb (i =? ifidx c) then (l, [])
      else match find_link i l with
      | Some _ => load_ifaddr c r i l
      | None =>
          match get_hwaddr r with
          | None => (l, [])
          | Some (t, d) =>
              let x := mkIflink i t (d ++ [0; 0]) (link_name (ifr_name r)) [] in
              let '(l, e) := load_ifaddr c r i (x :: l) in
              (l, (if verbose c then [Log_link (lname x)] else []) ++ e)
          end
      end
  end.

Fixpoint load_entries (c : options) (rs : list ifreq) (l : list iflink) : list iflink * list effect :=
  match rs with
  | [] => (l, [])
  | r :: rs => let '(l, e) := load_entry c r l in
               let '(l, e') := load_entries c rs l in (l, e ++ e')
  end.

(** The socket is closed only if SIOCGIFCONF fails. *)
Definition load_if (c : options) (k : ifconf) (s : rarpd) : rarpd * list effect :=
  match k with
  | No_socket | No_conf | Conf [] => (s, [])
  | Conf rs => let '(l, e) := load_entries c rs [] in (lose_fd (set_links l s), e)
  end.

Definition load_db (s : rarpd) : rarpd := s.

Definition configure (c : options) (k : ifconf) (s : rarpd) : rarpd * list effect :=
  let '(s, e) := load_if c k s in (load_db s, e).

(** ** Looking up an address *)

Definition hex_digit (d : Z) : Z := if d <? 10 then 48 + d else 55 + d.

(** [sprintf] with %08X. *)
Definition hex8 (v : Z) : list Z := (fun k => hex_digit (Z.land (Z.shiftr v (4 * Z.of_nat k)) 15)) <$> [7; 6; 5; 4; 3; 2; 1; 0]%nat.

Definition bootable (dir : option (list (list Z))) (addr : Z) : bool :=
  match dir with
  | None => false
  | Some names => existsb (fun d => bool_decide (take 8 d = hex8 (htonl addr))) names
  end.

Definition on_net (addr : Z) (a : ifaddr) : bool := Z.land (Z.lxor (prefix a) addr) (mask a) =? 0.

Inductive attempt := Retry | Return (sel : option Z) (found : bool).

(** The loop over [alist]; [i] addresses were looked at. *)
Fixpoint alist_loop (c : options) (retried : bool) (ifas : list ifaddr) (alist : list Z) (i : nat) (first : option Z) : attempt :=
  match alist with
  | [] => if (i =? 1)%nat && allow_offlink c then Return first (match ifas with [] => false | _ => true end)
          else Return None false
  | addr :: alist =>
      if existsb (on_net addr) ifas then Return (Some addr) true
      else if retried then alist_loop c retried ifas alist (S i) (if (i =? 0)%nat then Some addr else first)
      else Retry
  end.

Definition try_links (c : options) (retried : bool) (i : Z) (alist : list Z) (l : list iflink) : attempt :=
  match find_link i l with
  | None => if retried then Return None false else Retry
  | Some x => alist_loop c retried (ifa_list x) alist 0 None
  end.

(** [select_ipaddr]: what was stored in [*sel_addr], if anything, and whether
    the pointer returned is not null.  [k] is what the kernel answers if the
    interfaces are loaded again. *)
Definition select_ipaddr (c : options) (k : ifconf) (i : Z) (alist : list Z) (s : rarpd)
    : option Z * bool * rarpd * list effect :=
  match try_links c false i alist (ifl_list s) with
  | Return sel found => (sel, found, s, [])
  | Retry =>
      let '(s, e) := load_if c k s in
      match try_links c true i alist (ifl_list s) with
      | Return sel found => (sel, found, s, e)
      | Retry => (None, false, s, e)
      end
  end.

Record names := mkNames {
  ether_ntohost : list Z -> option string;
  gethostbyname : string -> option (Z * list Z);
  tftp_dir : option (list (list Z))
}.

(** [memcmp] of an entry of the table with the address asked for; [None] if an
    array is too short. *)
Fixpoint db_lookup (l : list rarp_map) (i hatype halen : Z) (ll : list Z) : option (option rarp_map) :=
  match l with
  | [] => Some None
  | r :: l =>
      if negb (arp_type r =? hatype) && negb (arp_type r =? -1) then db_lookup l i hatype halen ll
      else if negb (lladdr_len r =? halen) then db_lookup l i hatype halen ll
      else if negb (ifindex r =? i) && negb (ifindex r =? 0) then db_lookup l i hatype halen ll
      else
        a ← load 0 (Z.to_nat halen) (map_lladdr r);
        b ← load 0 (Z.to_nat halen) ll;
        if bool_decide (a = b) then Some (Some r) else db_lookup l i hatype halen ll
  end.

(** The search in /etc/ethers, for an address of 6 bytes. *)
Definition ethers_lookup (c : options) (ns : names) (k : ifconf) (i : Z) (ll : list Z) (s : rarpd)
    : option (option rarp_map * rarpd * list effect) :=
  mac ← load 0 6 ll;
  match ether_ntohost ns mac with
  | None => Some (None, s, [])
  | Some ename =>
      match gethostbyname ns ename with
      | None => Some (None, s, [])
      | Some (t, alist) =>
          if negb (t =? AF_INET) then Some (None, s, [])
          else
            let '(sel, found, s, e) := select_ipaddr c k i alist s in
            let m := emap s in
            let m := mkMap (ifindex m) (arp_type m) (lladdr_len m) (map_lladdr m) (default (ipaddr m) sel) in
            if found then
              a ← memcpy 0 mac (map_lladdr m);
              let m := mkMap (ifindex m) (arp_type m) (lladdr_len m) a (ipaddr m) in
              let s := set_emap m s in
              Some (if only_ethers c || bootable (tftp_dir ns) (ipaddr m) then Some m else None, s, e)
            else Some (None, set_emap m s, e)
      end
  end.

Definition rarp_lookup (c : options) (ns : names) (k : ifconf) (i hatype halen : Z) (ll : list Z) (s : rarpd)
    : option (option rarp_map * rarpd * list effect) :=
  r ← db_lookup (rarp_db s) i hatype halen ll;
  match r with
  | Some r => Some (Some r, s, [])
  | None => if (hatype =? ARPHRD_ETHER) && (halen =? 6) then ethers_lookup c ns k i ll s else Some (None, s, [])
  end.

(** ** Serving a request *)

(** The filter for a socket that gets all ARP packets. *)
Definition arp_insns : list insn := [LD_H_ABS 6; JEQ ARPOP_RREQUEST 0 1; RET 1024; RET 0].

(** The sender of a packet; [sll_addr] has 8 bytes. *)
Record sender := mkSender { sll_ifindex : Z; sll : sockaddr_ll }.

(** [put_mylladdr] and [put_myipaddr] write at [p]: the buffer and the new
    [p], or [None] where they return -1; the outer [None] is a fault. *)
Definition put_mylladdr (p : nat) (i alen : Z) (buf : list Z) (s : rarpd) : option (option (list Z * nat)) :=
  match find_link i (ifl_list s) with
  | None => Some None
  | Some x =>
      a ← load 0 (Z.to_nat alen) (lladdr x);
      buf ← memcpy p a buf;
      Some (Some (buf, (p + Z.to_nat alen)%nat))
  end.

Definition put_myipaddr (p : nat) (i hisipaddr : Z) (buf : list Z) (s : rarpd) : option (option (list Z * nat)) :=
  match find_link i (ifl_list s) with
  | None => Some None
  | Some x =>
      let laddr := match List.find (on_net hisipaddr) (ifa_list x) with Some a => local a | None => 0 end in
      buf ← memcpy p (le_bytes 4 laddr) buf;
      Some (Some (buf, (p + 4)%nat))
  end.

(** [arp_advise]; the link address goes into the 14 bytes of [sa_data]. *)
Definition arp_advise (i : Z) (ll : list Z) (lllen ip : Z) (s : rarpd) : option (list effect) :=
  match find_link i (ifl_list s) with
  | None => Some []
  | Some x =>
      a ← load 0 (Z.to_nat lllen) ll;
      data ← memcpy 0 a (replicate 14 0);
      Some [Set_arp ip (hatype x) data (lname x)]
  end.

(** The address of the sender as -v logs it: 3 bytes of [tmpbuf] for each. *)
Definition log_sender (from : sender) : option unit :=
  _ ← load 0 (Z.to_nat (sll_halen (sll from))) (sll_addr (sll from));
  if (3 * Z.to_nat (sll_halen (sll from)) <=? 48)%nat then Some () else None.

(** The third check of the types of the links. *)
Definition types_match (from : sender) (hrd : Z) : bool :=
  (sll_hatype (sll from) =? hrd)
  || ((sll_hatype (sll from) =? ARPHRD_FDDI) && ((hrd =? ARPHRD_ETHER) || (hrd =? ARPHRD_IEEE802))).

(** The answer, written into the buffer of the request. *)
Definition send_reply (from : sender) (r : rarp_map) (buf : list Z) (s : rarpd) : option (list effect) :=
  buf ← memcpy 6 (net16 ARPOP_RREPLY) buf;
  w ← put_mylladdr 8 (sll_ifindex from) (lladdr_len r) buf s;
  match w with
  | None => Some []
  | Some (buf, p) =>
      w ← put_myipaddr p (sll_ifindex from) (ipaddr r) buf s;
      match w with
      | None => Some []
      | Some (buf, p) =>
          let p := (p + Z.to_nat (lladdr_len r))%nat in
          buf ← memcpy p (le_bytes 4 (ipaddr r)) buf;
          let p := (p + 4)%nat in
          adv ← arp_advise (sll_ifindex from) (map_lladdr r) (lladdr_len r) (ipaddr r) s;
          packet ← load 0 p buf;
          Some (adv ++ [Send (sll from) packet])
      end
  end.

(** [serve_it]: [n] bytes of the packet are at the front of [buf]. *)
Definition serve_it (c : options) (ns : names) (k : ifconf) (from : sender) (n : Z) (buf : list Z) (s : rarpd)
    : option (rarpd * list effect) :=
  if n <? 0 then Some (s, [])
  else if negb (sll_pkttype (sll from) =? PACKET_BROADCAST) && negb (sll_pkttype (sll from) =? PACKET_MULTICAST)
     && negb (sll_pkttype (sll from) =? PACKET_HOST) then Some (s, [])
  else if negb (ifidx c =? 0) && negb (sll_ifindex from =? ifidx c) then Some (s, [])
  else if n <? 8 then Some (s, [])
  else
    op ← load16_net 6 buf;
    if negb (op =? ARPOP_RREQUEST) then Some (s, [])
    else
      _ ← (if verbose c then log_sender from else Some ());
      pln ← buf !! 5%nat;
      if negb (pln =? 4) then Some (s, [])
      else
        pro ← load16_net 2 buf;
        if negb (pro =? ETH_P_IP) then Some (s, [])
        else
          hrd ← load16_net 0 buf;
          if negb (types_match from hrd) then Some (s, [])
          else
            hln ← buf !! 4%nat;
            if negb (hln =? sll_halen (sll from)) then Some (s, [])
            else if n <? 8 + 2 * 4 + 2 * hln then Some (s, [])
            else
              let h := Z.to_nat (sll_halen (sll from)) in
              a ← load 0 h (sll_addr (sll from));
              b ← load 8 h buf;
              if negb (bool_decide (a = b)) then Some (s, [])
              else
                '(r, s, e) ← rarp_lookup c ns k (sll_ifindex from) (sll_hatype (sll from)) (sll_halen (sll from))
                               (drop (8 + h + 4) buf) s;
                match r with
                | None => Some (s, e)
                | Some r => e' ← send_reply from r buf s; Some (s, e ++ e')
                end.

(** ** main *)

Inductive opt := Opt_a | Opt_A | Opt_d | Opt_v | Opt_o | Opt_e | Opt_b | Opt_other.

Definition parse_option (o : opt) (c : options) : option options :=
  match c with
  | mkOptions a l d v off e i =>
      match o with
      | Opt_a => Some (mkOptions true l d v off e i)
      | Opt_A => Some (mkOptions a true d v off e i)
      | Opt_d => Some (mkOptions a l true v off e i)
      | Opt_v => Some (mkOptions a l d true off e i)
      | Opt_o => Some (mkOptions a l d v true e i)
      | Opt_e => Some (mkOptions a l d v off true i)
      | Opt_b => Some c
      | Opt_other => None
      end
  end.

Fixpoint parse_options (l : list opt) (c : options) : option options :=
  match l with
  | [] => Some c
  | o :: l => c ← parse_option o c; parse_options l c
  end.

Definition no_options : options := mkOptions false false false false false false 0.
Definition set_ifidx (i : Z) (c : options) : options :=
  mkOptions (all_ifaces c) (listen_arp c) (debug c) (verbose c) (allow_offlink c) (only_ethers c) i.

Inductive socket := Rarp_socket | Arp_socket.
Inductive forked := Parent | Child (chdir : bool) | Not_forked.
Inductive outcome := Exits (code : Z) | Serves (c : options) (pset : list (option socket)) (psize : nat).

(** What the calls of [main] return before the loop. *)
Record system := mkSystem {
  socket_rarp : bool;
  socket_arp : bool;
  name_to_index : string -> option Z;
  bind_rarp : bool;
  bind_arp : bool;
  fork : forked
}.

Definition open_sockets (y : system) (c : options) : option (list (option socket) * nat) :=
  let psize := 1%nat in
  let '(pset1, psize) := if listen_arp c && socket_arp y then (Some Arp_socket, 1%nat) else (None, psize) in
  let '(pset1, psize) := match pset1 with
                         | Some _ => if bind_arp y then (pset1, psize) else (None, 1%nat)
                         | None => (None, psize)
                         end in
  let pset0 := if socket_rarp y && bind_rarp y then Some Rarp_socket else None in
  let '(pset0, psize) := match pset0 with Some _ => (pset0, psize) | None => (pset1, (psize - 1)%nat) end in
  if (psize =? 0)%nat then None else Some ([pset0; pset1], psize).

(** The operands after the options; [usage] exits with 1. *)
Definition start (y : system) (opts : list opt) (operands : list string) : outcome :=
  match parse_options opts no_options with
  | None => Exits 1
  | Some c =>
      let named := match operands with
                   | [] => Some c
                   | [w] => i ← (if socket_rarp y then name_to_index y (substring 0 IFNAMSIZ w) else None); Some (set_ifidx i c)
                   | _ => None
                   end in
      match named with
      | None => Exits 1
      | Some c =>
          match open_sockets y c with
          | None => Exits 1
          | Some (pset, psize) =>
              if debug c then Serves c pset psize
              else match fork y with
                   | Parent => Exits 0
                   | Child true => Serves c pset psize
                   | Child false | Not_forked => Exits 1
                   end
          end
      end
  end.

(** A packet that [recvfrom] returned on a socket, with what the calls of
    [serve_it] find then; [a_buf] is the whole buffer. *)
Record arrival := mkArrival {
  a_socket : socket;
  a_from : sender;
  a_len : Z;
  a_buf : list Z;
  a_names : names;
  a_conf : ifconf
}.

Definition socket_eqb (a b : socket) : bool :=
  match a, b with Rarp_socket, Rarp_socket | Arp_socket, Arp_socket => true | _, _ => false end.

(** The loop over the sockets after [poll]: those of the first [psize] places
    that have an arrival are served. *)
Fixpoint serve_all (ready : list arrival) (c : options) (pset : list (option socket)) (s : rarpd) : option (rarpd * list effect) :=
  match pset with
  | [] => Some (s, [])
  | p :: pset =>
      '(s, e) ← match p with
                | None => Some (s, [])
                | Some f => match List.find (fun a => socket_eqb (a_socket a) f) ready with
                            | None => Some (s, [])
                            | Some a => serve_it c (a_names a) (a_conf a) (a_from a) (a_len a) (a_buf a) s
                            end
                end;
      '(s, e') ← serve_all ready c pset s;
      Some (s, e ++ e')
  end.

(** One turn of the loop: the answer of the kernel if the configuration is
    read, whether SIGHUP comes while it is read or later in the turn, and the
    sockets found ready (none if [poll] fails). *)
Record turn := mkTurn { t_conf : ifconf; hup_early : bool; hup_late : bool; ready : list arrival }.

Definition iteration (c : options) (pset : list (option socket)) (psize : nat) (t : turn) (reload : bool) (s : rarpd)
    : option (bool * rarpd * list effect) :=
  let '(s, e) := if reload then configure c (t_conf t) s else (s, []) in
  let reload := (if reload then false else hup_early t) || hup_late t in
  '(s, e') ← serve_all (ready t) c (take psize pset) s;
  Some (reload, s, e ++ e').

Fixpoint main_loop (c : options) (pset : list (option socket)) (psize : nat) (ts : list turn) (reload : bool) (s : rarpd)
    : option (bool * rarpd * list effect) :=
  match ts with
  | [] => Some (reload, s, [])
  | t :: ts =>
      '(reload, s, e) ← iteration c pset psize t reload s;
      '(reload, s, e') ← main_loop c pset psize ts reload s;
      Some (reload, s, e ++ e')
  end.

(** The whole program: the outcome of the start and, for a server, the run. *)
Definition rarpd_main (y : system) (opts : list opt) (operands : list string) (ts : list turn) : option (outcome * list effect) :=
  match start y opts operands with
  | Exits code => Some (Exits code, [])
  | Serves c pset psize => '(_, _, e) ← main_loop c pset psize ts true start_state; Some (Serves c pset psize, e)
  end.
