(* ===== verification/RarpdTheorems.v ===== *)
(** * The properties of rarpd

    What a RARP request is and what the answer to it should be, the table of the
    interfaces, and the proofs that the daemon does that. *)

From Stdlib Require Import ZArith Lia Ascii String.
From stdpp Require Import base numbers option list.
From S2P Require Import Prelude Ping PingPacket PingFour PingSixSpec PingFilter Arping ArpingSpec Rarpd.

Local Open Scope list_scope.
Local Open Scope Z_scope.
Local Abbreviation length := List.length.

(** ** What is promised

    A request is a message for us that passes the checks. *)

Definition heard_by (c : options) (from : sender) : Prop :=
  sll_pkttype (sll from) ∈ [PACKET_BROADCAST; PACKET_MULTICAST; PACKET_HOST] /\ (ifidx c = 0 \/ sll_ifindex from = ifidx c).

#[export] Instance heard_by_dec c from : Decision (heard_by c from).
Proof. unfold heard_by. solve_decision. Defined.

Definition halen_of (from : sender) : nat := Z.to_nat (sll_halen (sll from)).

Definition valid_request (from : sender) (m : arp) : Prop :=
  a_op m = ARPOP_RREQUEST /\ types_match from (a_hrd m) = true /\ a_sha m = take (halen_of from) (sll_addr (sll from)).

#[export] Instance valid_request_dec from m : Decision (valid_request from m).
Proof. unfold valid_request. solve_decision. Defined.

Definition request (c : options) (from : sender) (packet : list Z) : option arp :=
  if decide (heard_by c from) then
    m ← decode (halen_of from) packet; if decide (valid_request from m) then Some m else None
  else None.

(** The choice of an address out of a table: the first that is on a net of the
    interface; with -o also the only one, if the interface has an address. *)
Definition choose (c : options) (links : list iflink) (i : Z) (alist : list Z) : option Z :=
  x ← find_link i links;
  match List.find (fun addr => existsb (on_net addr) (ifa_list x)) alist with
  | Some addr => Some addr
  | None => match alist, ifa_list x with [addr], _ :: _ => if allow_offlink c then Some addr else None | _, _ => None end
  end.

(** The address that belongs to a link address. *)
Definition assigned (c : options) (ns : names) (links : list iflink) (i : Z) (mac : list Z) : option Z :=
  ename ← ether_ntohost ns mac;
  '(t, alist) ← gethostbyname ns ename;
  if t =? AF_INET then
    ip ← choose c links i alist;
    if only_ethers c || bootable (tftp_dir ns) ip then Some ip else None
  else None.

(** The address of ours on the net of [ip]. *)
Definition my_address (x : iflink) (ip : Z) : Z :=
  match List.find (on_net ip) (ifa_list x) with Some a => local a | None => 0 end.

Definition reply (x : iflink) (m : arp) (ip : Z) : arp :=
  mkArp (a_hrd m) ARPOP_RREPLY (take 6 (lladdr x)) (my_address x ip) (a_tha m) ip.

(** What is done for a request, with the table [links]. *)
Definition answer (c : options) (ns : names) (links : list iflink) (from : sender) (m : arp) : option (list effect) :=
  if (sll_hatype (sll from) =? ARPHRD_ETHER) && (sll_halen (sll from) =? 6) then
    ip ← assigned c ns links (sll_ifindex from) (a_tha m);
    x ← find_link (sll_ifindex from) links;
    Some [Set_arp ip (hatype x) (a_tha m ++ replicate 8 0) (lname x); Send (sll from) (encode 6 (reply x m ip))]
  else None.

(** Effects other than messages to the log. *)
Definition act (e : effect) : bool := match e with Set_arp _ _ _ _ | Send _ _ => true | _ => false end.
Definition acts (l : list effect) : list effect := List.filter act l.

(** ** Well-formed data

    The arrays have their sizes, link addresses have at most the 8 bytes of
    [sll_addr], and the table of [load_db] is empty. *)

Record sender_ok (from : sender) : Prop := {
  ok_halen8 : 0 <= sll_halen (sll from) <= 8;
  ok_addr8 : length (sll_addr (sll from)) = 8%nat
}.

Definition link_ok (x : iflink) : Prop := length (lladdr x) = 16%nat.

Record rarpd_ok (s : rarpd) : Prop := {
  ok_links : Forall link_ok (ifl_list s);
  ok_db : rarp_db s = [];
  ok_emap : exists a ip, emap s = mkMap 0 ARPHRD_ETHER 6 a ip /\ length a = 16%nat
}.

Definition conf_ok (k : ifconf) : Prop :=
  match k with Conf rs => Forall (fun r => match get_hwaddr r with Some (_, d) => length d = 14%nat | None => True end) rs | _ => True end.

(** ** Messages in a buffer *)

Lemma net16_be16 l : length l = 2%nat -> Forall (in_u 8) l -> net16 (be16 l) = l.
Proof.
  intros L H. unfold net16, be16. assert (Lr : length (reverse l) = 2%nat) by by rewrite length_reverse.
  rewrite <- Lr, le_bytes_value by by apply Forall_reverse. apply reverse_involutive.
Qed.

Lemma Forall_field i n l : Forall (in_u 8) l -> Forall (in_u 8) (field i n l).
Proof. intros H. by apply Forall_take, Forall_drop. Qed.

Lemma drop_field i n (l : list Z) : drop i l = field i n l ++ drop (i + n) l.
Proof. unfold field. by rewrite <- drop_drop, take_drop. Qed.

Lemma decode_inv n l m : decode n l = Some m -> (16 + 2 * n <= length l)%nat /\ field 2 4 l = net16 ETH_P_IP ++ [Z.of_nat n; 4] /\
  m = mkArp (be16 (field 0 2 l)) (be16 (field 6 2 l)) (field 8 n l) (le_value (field (8 + n) 4 l))
         (field (8 + n + 4) n l) (le_value (field (8 + n + 4 + n) 4 l)).
Proof.
  unfold decode. destruct (Nat.leb_spec (16 + 2 * n) (length l)); [|done]. case_bool_decide; [|done]. by intros [= <-].
Qed.

(** A packet is the encoding of its message, and padding. *)
Lemma encode_decode n l m : Forall (in_u 8) l -> decode n l = Some m -> l = encode n m ++ drop (16 + 2 * n) l.
Proof.
  intros Hl Hm. apply decode_inv in Hm as (Hn & Hf & ->). unfold encode. cbn [a_hrd a_op a_sha a_spa a_tha a_tpa].
  rewrite !net16_be16 by (try (by apply Forall_field); by rewrite length_field by lia).
  assert (Lv : forall i, (i + 4 <= length l)%nat -> le_bytes 4 (le_value (field i 4 l)) = field i 4 l).
  { intros i Hi. pose proof (length_field i 4 l Hi) as L. rewrite <- L at 1. apply le_bytes_value. by apply Forall_field. }
  rewrite !Lv by lia. cbn [app] in Hf. 
  transitivity (field 0 2 l ++ field 2 4 l ++ field 6 2 l ++ field 8 n l ++ field (8 + n) 4 l ++ field (8 + n + 4) n l ++ field (8 + n + 4 + n) 4 l ++ drop (16 + 2 * n) l).
  - replace (16 + 2 * n)%nat with (8 + n + 4 + n + 4)%nat by lia. by rewrite <- !drop_field.
  - rewrite Hf. by rewrite <- !(assoc_L (++)).
Qed.

(** [decode] in terms of the bytes that the program reads. *)
Lemma decode_buf n len buf : Forall (in_u 8) buf -> (len <= length buf)%nat -> (8 <= len)%nat ->
  exists hln pln, buf !! 4%nat = Some hln /\ buf !! 5%nat = Some pln /\
  decode n (take len buf) =
    if (16 + 2 * n <=? len)%nat && (be16 (field 2 2 buf) =? ETH_P_IP) && (hln =? Z.of_nat n) && (pln =? 4)
    then Some (mkArp (be16 (field 0 2 buf)) (be16 (field 6 2 buf)) (field 8 n buf) (le_value (field (8 + n) 4 buf))
         (field (8 + n + 4) n buf) (le_value (field (8 + n + 4 + n) 4 buf)))
    else None.
Proof.
  intros Hb Hl H8. destruct (lookup_lt_is_Some_2 buf 4 ltac:(lia)) as [hln E4]. destruct (lookup_lt_is_Some_2 buf 5 ltac:(lia)) as [pln E5].
  exists hln, pln. split; [done|]. split; [done|].
  assert (F : field 2 4 buf = field 2 2 buf ++ [hln; pln]).
  { do 6 (destruct buf as [|? buf]; [done|]). cbn in E4, E5. injection E4 as ->. injection E5 as ->. done. }
  unfold decode. rewrite length_take, Nat.min_l, (field_take 2 4 len), F by lia.
  destruct (Nat.leb_spec (16 + 2 * n) len) as [Hn|]; cbn [andb]; [|done]. rewrite !field_take by lia.
  assert (E2 : bool_decide (field 2 2 buf ++ [hln; pln] = net16 ETH_P_IP ++ [Z.of_nat n; 4]) =
    (be16 (field 2 2 buf) =? ETH_P_IP) && (hln =? Z.of_nat n) && (pln =? 4)).
  { apply eq_true_iff_eq. rewrite bool_decide_eq_true, !andb_true_iff, !Z.eqb_eq. split.
    - intros E. apply app_inj_1 in E as [E1 E]; [|by rewrite length_field by lia]. injection E as -> ->. by rewrite E1, be16_net16.
    - intros [[E ->] ->]. f_equal. rewrite <- E, net16_be16; [done|by rewrite length_field by lia|by apply Forall_field]. }
  by rewrite E2.
Qed.

(** ** The checks of [serve_it] *)

Lemma load16_field i buf : (i + 2 <= length buf)%nat -> load16_net i buf = Some (be16 (field i 2 buf)).
Proof. intros H. unfold load16_net. by rewrite load_field by lia. Qed.

Lemma heard_by_checks c from : (negb (sll_pkttype (sll from) =? PACKET_BROADCAST) && negb (sll_pkttype (sll from) =? PACKET_MULTICAST)
     && negb (sll_pkttype (sll from) =? PACKET_HOST)) || (negb (ifidx c =? 0) && negb (sll_ifindex from =? ifidx c)) = false <-> heard_by c from.
Proof. unfold heard_by. rewrite !elem_of_cons, elem_of_nil. lia. Qed.

(** The packet is served exactly if its bytes hold a request; what is in the
    buffer behind them does not matter. *)
Lemma serve_it_request c ns k from n buf s : sender_ok from -> Forall (in_u 8) buf -> length buf = 1024%nat -> 0 <= n <= 1024 ->
  serve_it c ns k from n buf s =
    match request c from (take (Z.to_nat n) buf) with
    | None => Some (s, [])
    | Some _ =>
        '(r, s, e) ← rarp_lookup c ns k (sll_ifindex from) (sll_hatype (sll from)) (sll_halen (sll from))
                       (drop (8 + halen_of from + 4) buf) s;
        match r with
        | None => Some (s, e)
        | Some r => e' ← send_reply from r buf s; Some (s, e ++ e')
        end
    end.
Proof.
  intros [Hh La] Hb Lb Hn. unfold serve_it, request. destruct (Z.ltb_spec n 0); [lia|].
  pose proof (heard_by_checks c from) as Hc. destruct (_ && _ && negb (sll_pkttype (sll from) =? PACKET_HOST)).
  { rewrite decide_False; [done|]. by rewrite <- Hc. }
  destruct (_ && negb (sll_ifindex from =? ifidx c)).
  { rewrite decide_False; [done|]. by rewrite <- Hc. }
  rewrite decide_True by by apply Hc. clear Hc.
  assert (Eh : Z.of_nat (halen_of from) = sll_halen (sll from)) by (unfold halen_of; lia).
  destruct (Z.ltb_spec n 8).
  { unfold decode. rewrite length_take. rewrite (proj2 (Nat.leb_gt _ _)) by lia. done. }
  destruct (decode_buf (halen_of from) (Z.to_nat n) buf Hb ltac:(lia) ltac:(lia)) as (hln & pln & E4 & E5 & ->).
  rewrite !load16_field by lia. rewrite E4, E5. cbn [mbind option_bind].
  assert (Ev : (if verbose c then log_sender from else Some ()) = Some ()).
  { destruct (verbose c); [|done]. unfold log_sender. rewrite load_take by lia. cbn [mbind option_bind]. by rewrite (proj2 (Nat.leb_le _ _)) by lia. }
  rewrite Ev, Eh. cbn [mbind option_bind].
  set (body := mbind (M := option) _ (rarp_lookup _ _ _ _ _ _ _ _)).
  destruct (Z.eqb_spec pln 4); cbn [negb]; rewrite ?andb_true_r, ?andb_false_r; [|by destruct (negb _)].
  destruct (Z.eqb_spec (be16 (field 2 2 buf)) ETH_P_IP); cbn [negb andb]; rewrite ?andb_true_r, ?andb_false_r; [|by destruct (negb _)].
  destruct (Z.eqb_spec hln (sll_halen (sll from))) as [->|]; cbn [negb]; rewrite ?andb_true_r, ?andb_false_r; [|by repeat destruct (negb _)].
  destruct (Nat.leb_spec (16 + 2 * halen_of from) (Z.to_nat n)) as [Hl|Hl].
  2:{ rewrite (proj2 (Z.ltb_lt _ _)) by lia. by repeat destruct (negb _). }
  rewrite (proj2 (Z.ltb_ge _ _)) by lia. cbn [mbind option_bind].
  fold (halen_of from). rewrite load_take, load_field by (try lia; unfold halen_of; lia). cbn [mbind option_bind].
  unfold valid_request. cbn [a_op a_hrd a_sha].
  case_decide as Hv.
  - destruct Hv as (-> & -> & E). rewrite bool_decide_eq_true_2 by done. by rewrite Z.eqb_refl.
  - destruct (Z.eqb_spec (be16 (field 6 2 buf)) ARPOP_RREQUEST); cbn [negb]; [|done].
    destruct (types_match from (be16 (field 0 2 buf))); cbn [negb]; [|done].
    case_bool_decide; cbn [negb]; [|done]. by destruct Hv.
Qed.

(** ** The choice of the address *)

Definition nets (ifas : list ifaddr) (addr : Z) : bool := existsb (on_net addr) ifas.

(** The loop after the interfaces were loaded again, from the second address on. *)
Lemma alist_rest c ifas f : forall alist i,
  alist_loop c true ifas alist (S i) (Some f) =
    match List.find (nets ifas) alist with
    | Some a => Return (Some a) true
    | None => if (i + length alist =? 0)%nat && allow_offlink c then Return (Some f) (match ifas with [] => false | _ => true end)
              else Return None false
    end.
Proof.
  induction alist as [|a alist IH]; intros i; cbn [alist_loop List.find length].
  - by rewrite Nat.add_0_r.
  - unfold nets at 1. destruct (existsb (on_net a) ifas); [done|]. cbn [Nat.eqb]. rewrite IH.
    by replace (S i + length alist)%nat with (i + S (length alist))%nat by lia.
Qed.

Definition attempt_ok (c : options) (i : Z) (alist : list Z) (l : list iflink) (a : attempt) : Prop :=
  match a with
  | Retry => True
  | Return sel found => (if found then sel else None) = choose c l i alist /\ (found = true -> is_Some sel)
  end.

Lemma try_links_ok c retried i alist l : attempt_ok c i alist l (try_links c retried i alist l).
Proof.
  unfold try_links, attempt_ok, choose. destruct (find_link i l) as [x|]; [|by destruct retried]. cbn [mbind option_bind].
  destruct alist as [|a alist]; [done|]. cbn [alist_loop List.find]. fold (nets (ifa_list x)).
  destruct (existsb (on_net a) (ifa_list x)) eqn:E; [done|]. destruct retried; [|done]. cbn [Nat.eqb].
  rewrite alist_rest. change (fun addr => existsb (on_net addr) (ifa_list x)) with (nets (ifa_list x)).
  destruct (List.find (nets (ifa_list x)) alist); [done|].
  destruct alist; cbn; [|done]. by destruct (allow_offlink c), (ifa_list x).
Qed.

Lemma try_links_twice c i alist l : try_links c true i alist l <> Retry.
Proof.
  unfold try_links. destruct (find_link i l) as [x|]; [|done]. destruct alist as [|a alist]; [done|]. cbn [alist_loop Nat.eqb].
  destruct (existsb _ _); [done|]. rewrite alist_rest. by repeat case_match.
Qed.

Definition plain (l : list effect) : Prop := acts l = [].

Lemma plain_app a b : plain a -> plain b -> plain (a ++ b).
Proof. unfold plain, acts. rewrite List.filter_app. by intros -> ->. Qed.

Lemma load_ifaddr_plain c r i l : plain (load_ifaddr c r i l).2.
Proof. unfold load_ifaddr. repeat case_match; done. Qed.

Lemma load_entry_plain c r l : plain (load_entry c r l).2.
Proof.
  unfold load_entry. repeat case_match; try done; try apply load_ifaddr_plain.
  all: match goal with H : load_ifaddr ?c ?r ?i ?l = _ |- _ => pose proof (load_ifaddr_plain c r i l) as P; rewrite H in P end; done.
Qed.

Lemma load_entries_plain c rs : forall l, plain (load_entries c rs l).2.
Proof.
  induction rs as [|r rs IH]; intros l; cbn [load_entries]; [done|].
  pose proof (load_entry_plain c r l) as H1. destruct (load_entry c r l) as [l1 e1]. specialize (IH l1).
  destruct (load_entries c rs l1) as [l2 e2]. by apply plain_app.
Qed.

Lemma load_if_plain c k s : plain (load_if c k s).2.
Proof.
  unfold load_if. destruct k as [| |[|r rs]]; try done.
  pose proof (load_entries_plain c (r :: rs) []) as H. by destruct (load_entries c (r :: rs) []).
Qed.

Lemma select_ipaddr_ok c k i alist s sel found s' e : select_ipaddr c k i alist s = (sel, found, s', e) ->
  (s' = s \/ s' = (load_if c k s).1) /\ plain e /\ (if found then sel else None) = choose c (ifl_list s') i alist /\ (found = true -> is_Some sel).
Proof.
  unfold select_ipaddr. pose proof (try_links_ok c false i alist (ifl_list s)) as H1. pose proof (load_if_plain c k s) as Hp.
  destruct (try_links c false i alist (ifl_list s)) as [|sel1 found1]; [|intros [= <- <- <- <-]; by split; [left|split]].
  destruct (load_if c k s) as [s1 e1]. cbn [fst snd] in *. pose proof (try_links_ok c true i alist (ifl_list s1)) as H2.
  pose proof (try_links_twice c i alist (ifl_list s1)) as H3.
  destruct (try_links c true i alist (ifl_list s1)) as [|sel2 found2]; [done|]. intros [= <- <- <- <-]. by split; [right|split].
Qed.

(** ** The tables keep their sizes *)

Lemma update_link_ok i f l : (forall x, link_ok x -> link_ok (f x)) -> Forall link_ok l -> Forall link_ok (update_link i f l).
Proof.
  intros Hf. induction 1 as [|x l Hx Hl IH]; cbn [update_link]; [done|]. destruct (index x =? i); constructor; auto.
Qed.

Lemma load_ifaddr_ok c r i l : Forall link_ok l -> Forall link_ok (load_ifaddr c r i l).1.
Proof. intros H. unfold load_ifaddr. repeat case_match; try done; by apply update_link_ok. Qed.

Lemma load_entry_ok c r l : (match get_hwaddr r with Some (_, d) => length d = 14%nat | None => True end) ->
  Forall link_ok l -> Forall link_ok (load_entry c r l).1.
Proof.
  intros Hr H. unfold load_entry. destruct (negb (ifr_family r =? AF_INET)); [done|]. destruct (ifr_addr r =? 0); [done|].
  destruct (get_index r) as [i|]; [|done]. destruct (negb (ifidx c =? 0) && negb (i =? ifidx c)); [done|].
  destruct (find_link i l); [by apply load_ifaddr_ok|]. destruct (get_hwaddr r) as [[t d]|]; [|done].
  set (x := mkIflink _ _ _ _ _). assert (Hx : Forall link_ok (x :: l)).
  { constructor; [|done]. unfold link_ok, x. cbn. rewrite length_app, Hr. done. }
  pose proof (load_ifaddr_ok c r i (x :: l) Hx). by destruct (load_ifaddr c r i (x :: l)).
Qed.

Lemma load_entries_ok c rs : conf_ok (Conf rs) -> forall l, Forall link_ok l -> Forall link_ok (load_entries c rs l).1.
Proof.
  unfold conf_ok. induction 1 as [|r rs Hr Hrs IH]; intros l Hl; cbn [load_entries]; [done|].
  pose proof (load_entry_ok c r l Hr Hl) as H1. destruct (load_entry c r l) as [l1 e1]. specialize (IH l1 H1).
  by destruct (load_entries c rs l1).
Qed.

Lemma load_if_ok c k s : conf_ok k -> rarpd_ok s -> rarpd_ok (load_if c k s).1.
Proof.
  intros Hk [H1 H2 H3]. unfold load_if. destruct k as [| |[|r rs]]; try done.
  pose proof (load_entries_ok c (r :: rs) Hk [] ltac:(constructor)) as H. by destruct (load_entries c (r :: rs) []).
Qed.

Lemma find_link_ok i l x : Forall link_ok l -> find_link i l = Some x -> link_ok x.
Proof. intros H Hx. apply find_some in Hx as [Hx _]. rewrite Forall_forall in H. apply H. by apply list_elem_of_In. Qed.

Lemma choose_link c l i alist ip : choose c l i alist = Some ip -> exists x, find_link i l = Some x.
Proof. unfold choose. destruct (find_link i l) as [x|]; [by exists x|done]. Qed.

(** ** The search *)

Lemma rarp_lookup_ok c ns k i ht hl ll s : conf_ok k -> rarpd_ok s -> (6 <= length ll)%nat ->
  exists r s' e, rarp_lookup c ns k i ht hl ll s = Some (r, s', e) /\ rarpd_ok s' /\ plain e /\
    (ifl_list s' = ifl_list s \/ ifl_list s' = ifl_list (load_if c k s).1) /\
    if (ht =? ARPHRD_ETHER) && (hl =? 6) then
      match r with
      | None => assigned c ns (ifl_list s') i (take 6 ll) = None
      | Some r => assigned c ns (ifl_list s') i (take 6 ll) = Some (ipaddr r) /\ lladdr_len r = 6 /\
                  take 6 (map_lladdr r) = take 6 ll /\ length (map_lladdr r) = 16%nat
      end
    else r = None.
Proof.
  intros Hk Hs Hl. unfold rarp_lookup. rewrite (ok_db s Hs). cbn [db_lookup mbind option_bind].
  destruct ((ht =? ARPHRD_ETHER) && (hl =? 6)); [|by exists None, s, []; split_and!; try done; left].
  unfold ethers_lookup, assigned. rewrite load_take by done. cbn [mbind option_bind].
  destruct (ether_ntohost ns (take 6 ll)) as [w|]; [|by exists None, s, []; split_and!; try done; left]. cbn [mbind option_bind].
  destruct (gethostbyname ns w) as [[t alist]|]; [|by exists None, s, []; split_and!; try done; left]. cbn [mbind option_bind].
  destruct (t =? AF_INET); cbn [negb]; [|by exists None, s, []; split_and!; try done; left].
  destruct (select_ipaddr c k i alist s) as [[[sel found] s1] e1] eqn:E. apply select_ipaddr_ok in E as (E1 & E2 & E3 & E4).
  assert (Hs1 : rarpd_ok s1) by (destruct E1 as [->| ->]; [done|by apply load_if_ok]).
  assert (El : ifl_list s1 = ifl_list s \/ ifl_list s1 = ifl_list (load_if c k s).1) by (destruct E1 as [->| ->]; auto).
  destruct (ok_emap s1 Hs1) as (a & ip & Em & La). rewrite Em. cbn [ifindex arp_type lladdr_len map_lladdr ipaddr].
  assert (Hset : forall m, (exists a ip, m = mkMap 0 ARPHRD_ETHER 6 a ip /\ length a = 16%nat) -> rarpd_ok (set_emap m s1)).
  { intros m Hm. by split; [apply Hs1|apply Hs1|]. }
  destruct found; cbn [mbind option_bind].
  2:{ exists None, (set_emap (mkMap 0 ARPHRD_ETHER 6 a (default ip sel)) s1), e1. split_and!; try done; [apply Hset; eauto|].
    cbn [ifl_list set_emap]. by rewrite <- E3. }
  destruct (E4 eq_refl) as [ip' ->]. cbn [default mbind option_bind].
  assert (Ec : memcpy 0 (take 6 ll) a = Some (take 6 ll ++ drop 6 a)).
  { rewrite <- (take_drop 6 a) at 1. apply memcpy_front. rewrite !length_take. lia. }
  rewrite Ec. cbn [mbind option_bind]. unfold from_option, id.
  set (a' := take 6 ll ++ drop 6 a). assert (La' : length a' = 16%nat) by (unfold a'; rewrite length_app, length_take, length_drop; lia).
  exists (if only_ethers c || bootable (tftp_dir ns) ip' then Some (mkMap 0 ARPHRD_ETHER 6 a' ip') else None), (set_emap (mkMap 0 ARPHRD_ETHER 6 a' ip') s1), e1.
  split_and!; try done; [apply Hset; eauto|]. cbn [ifl_list set_emap]. rewrite <- E3. cbn [mbind option_bind].
  destruct (_ || _); [|done]. split_and!; try done. cbn [map_lladdr]. unfold a'.
  rewrite take_app_le, take_take by (rewrite length_take; lia). done.
Qed.

(** ** The answer *)

Lemma memcpy_at_length i b a b' d : i = length a -> length b = length b' -> memcpy i b (a ++ b' ++ d) = Some (a ++ b ++ d).
Proof. intros ->. apply memcpy_app. Qed.

Lemma send_reply_run from r buf s x m : find_link (sll_ifindex from) (ifl_list s) = Some x -> link_ok x ->
  Forall (in_u 8) buf -> decode 6 buf = Some m -> lladdr_len r = 6 -> length (map_lladdr r) = 16%nat -> take 6 (map_lladdr r) = a_tha m ->
  send_reply from r buf s =
    Some [Set_arp (ipaddr r) (hatype x) (a_tha m ++ replicate 8 0) (lname x); Send (sll from) (encode 6 (reply x m (ipaddr r)))].
Proof.
  intros Hx Lx Hb Hm Hl Lr Ht. pose proof (encode_decode 6 buf m Hb Hm) as Eb.
  apply decode_inv in Hm as (Hlen & _ & Em). set (rest := drop (16 + 2 * 6) buf) in Eb.
  assert (Ls : length (a_sha m) = 6%nat) by (rewrite Em; cbn [a_sha]; apply length_field; lia).
  assert (Lt : length (a_tha m) = 6%nat) by (rewrite Em; cbn [a_tha]; apply length_field; lia). clear Em.
  set (A := net16 (a_hrd m) ++ net16 ETH_P_IP ++ [Z.of_nat 6] ++ [4]). set (my := take 6 (lladdr x)).
  assert (Lm : length my = 6%nat) by (unfold my, link_ok in *; rewrite length_take; lia).
  set (P := le_bytes 4 (my_address x (ipaddr r))). set (Q := le_bytes 4 (ipaddr r)).
  assert (E0 : buf = A ++ net16 (a_op m) ++ a_sha m ++ le_bytes 4 (a_spa m) ++ a_tha m ++ le_bytes 4 (a_tpa m) ++ rest).
  { rewrite Eb at 1. unfold encode, A. by rewrite <- !(assoc_L (++)). }
  unfold send_reply. rewrite E0.
  rewrite (memcpy_at_length 6 (net16 ARPOP_RREPLY) A) by done. cbn [mbind option_bind].
  unfold put_mylladdr. rewrite Hx, Hl, load_take by (unfold link_ok in Lx; lia). cbn [mbind option_bind]. change (Z.to_nat 6) with 6%nat. fold my.
  rewrite (assoc_L (++) A). rewrite (memcpy_at_length 8 my) by (done || lia). cbn [mbind option_bind].
  unfold put_myipaddr. rewrite Hx. fold (my_address x (ipaddr r)). fold P.
  rewrite (assoc_L (++) (A ++ _)), (memcpy_at_length _ P) by (rewrite ?length_app, ?Lm; done).
  cbn [mbind option_bind]. rewrite (assoc_L (++) _ P), (assoc_L (++) _ (a_tha m)). fold Q. rewrite (memcpy_at_length _ Q) by (rewrite ?length_app, ?Lm, ?Lt; done).
  cbn [mbind option_bind]. unfold arp_advise. rewrite Hx. change (Z.to_nat 6) with 6%nat. rewrite (load_take 6 (map_lladdr r)) by lia. rewrite Ht. cbn [mbind option_bind]. 
  change (replicate 14 0) with (replicate 6 0 ++ replicate 8 0). rewrite memcpy_front by (rewrite Lt; done). cbn [mbind option_bind].
  rewrite (assoc_L (++) _ Q), load_front by (rewrite !length_app, Lm, Lt; done). cbn [mbind option_bind app].
  do 4 f_equal. unfold encode, reply, A, P, Q. cbn [a_hrd a_op a_sha a_spa a_tha a_tpa]. by rewrite <- !(assoc_L (++)).
Qed.

Lemma decode_take n len l m : decode n (take len l) = Some m -> decode n l = Some m.
Proof.
  intros H. apply decode_inv in H as (H1 & H2 & ->). rewrite length_take in H1. rewrite !field_take in * by lia.
  unfold decode. rewrite (proj2 (Nat.leb_le _ _)) by lia. by rewrite bool_decide_eq_true_2.
Qed.

Lemma request_inv c from l m : request c from l = Some m -> decode (halen_of from) l = Some m /\ heard_by c from /\ valid_request from m.
Proof.
  unfold request. case_decide; [|done]. destruct (decode _ l) as [m'|]; [|done]. cbn. case_decide; [|done]. by intros [= <-].
Qed.

Lemma assigned_link c ns l i mac ip : assigned c ns l i mac = Some ip -> exists x, find_link i l = Some x.
Proof.
  unfold assigned. destruct (ether_ntohost ns mac) as [w|]; [|done]. cbn. destruct (gethostbyname ns w) as [[t alist]|]; [|done]. cbn.
  destruct (t =? AF_INET); [|done]. destruct (choose c l i alist) as [ip'|] eqn:E; [|done]. intros _. by eapply choose_link.
Qed.

Lemma serve_it_ok c ns k from n buf s : sender_ok from -> conf_ok k -> rarpd_ok s ->
  Forall (in_u 8) buf -> length buf = 1024%nat -> 0 <= n <= 1024 ->
  exists s' e, serve_it c ns k from n buf s = Some (s', e) /\ rarpd_ok s' /\
    (ifl_list s' = ifl_list s \/ ifl_list s' = ifl_list (load_if c k s).1) /\
    acts e = match request c from (take (Z.to_nat n) buf) with
             | None => []
             | Some m => default [] (answer c ns (ifl_list s') from m)
             end.
Proof.
  intros Hf Hk Hs Hb Lb Hn. rewrite serve_it_request by done.
  destruct (request c from (take (Z.to_nat n) buf)) as [m|] eqn:Em; [|exists s, []; split_and!; by auto].
  apply request_inv in Em as (Em & _ & _). apply decode_take in Em.
  pose proof (decode_inv _ _ _ Em) as (_ & _ & Et). destruct Hf as [Hh La].
  assert (h8 : (halen_of from <= 8)%nat) by (unfold halen_of; lia).
  destruct (rarp_lookup_ok c ns k (sll_ifindex from) (sll_hatype (sll from)) (sll_halen (sll from)) (drop (8 + halen_of from + 4) buf) s)
    as (r & s' & e & -> & Hs' & He & Hl & Hr); [done|done|rewrite length_drop; lia|]. cbn [mbind option_bind].
  unfold answer. destruct (_ && _) eqn:E6; [|subst r; exists s', e; by split_and!].
  assert (H6 : halen_of from = 6%nat) by (unfold halen_of; lia). rewrite H6 in *.
  assert (Ta : take 6 (drop (8 + 6 + 4) buf) = a_tha m) by by rewrite Et. rewrite Ta in Hr.
  destruct r as [r|]; [|exists s', e; rewrite Hr; by split_and!].
  destruct Hr as (Ha & H6r & Htr & Hlr).
  assert (Hx : exists x, find_link (sll_ifindex from) (ifl_list s') = Some x).
  { by eapply assigned_link. }
  destruct Hx as [x Hx]. assert (Lx : link_ok x) by (eapply find_link_ok; [apply Hs'|done]).
  rewrite (send_reply_run from r buf s' x m) by done.
  cbn [mbind option_bind]. eexists s', _. rewrite Ha, Hx. cbn [mbind option_bind default]. split_and!; [done..|].
  unfold acts in *. rewrite List.filter_app. unfold plain, acts in He. by rewrite He.
Qed.

(** The filter of the ARP socket passes every request. *)
Lemma arp_filter_passes c from l m : request c from l = Some m -> bpf arp_insns l = 1024.
Proof.
  intros H. apply request_inv in H as (H & _ & Ho & _ & _). apply decode_inv in H as (Hl & _ & ->). cbn [a_op] in Ho.
  unfold bpf, arp_insns. cbn [length bpf_run half]. unfold half. rewrite load16_field, Ho by lia. done.
Qed.

(** ** The table of the interfaces *)

(** An entry about the interface [i], which we may serve. *)
Definition listed (c : options) (r : ifreq) (i : Z) : Prop :=
  ifr_family r = AF_INET /\ ifr_addr r <> 0 /\ get_index r = Some i /\ (ifidx c = 0 \/ i = ifidx c).

(** It gives the address [a]. *)
Definition gives (c : options) (r : ifreq) (i : Z) (a : ifaddr) : Prop :=
  listed c r i /\ get_netmask r = Some (mask a) /\ get_dstaddr r = Some (prefix a) /\ local a = ifr_addr r /\ mask a <> 0 /\ prefix a <> 0.

Definition describes (c : options) (r : ifreq) (x : iflink) : Prop :=
  listed c r (index x) /\ get_hwaddr r = Some (hatype x, take 14 (lladdr x)) /\ lladdr x = take 14 (lladdr x) ++ [0; 0] /\ lname x = link_name (ifr_name r).

Record table_sound (c : options) (rs : list ifreq) (l : list iflink) : Prop := {
  t_index : NoDup (index <$> l);
  t_links : forall x, x ∈ l -> NoDup (ifa_list x) /\ (exists r, r ∈ rs /\ describes c r x) /\
              forall a, a ∈ ifa_list x -> exists r, r ∈ rs /\ gives c r (index x) a
}.

Definition table_complete (c : options) (rs : list ifreq) (l : list iflink) : Prop :=
  forall r i a, r ∈ rs -> gives c r i a -> exists x, x ∈ l /\ index x = i /\ a ∈ ifa_list x.

Lemma update_index i f l : (forall x, index (f x) = index x) -> index <$> update_link i f l = index <$> l.
Proof.
  intros Hf. induction l as [|x l IH]; cbn; [done|]. destruct (index x =? i); cbn; [by rewrite Hf|]. by f_equal.
Qed.

Lemma elem_of_update i f l y : NoDup (index <$> l) ->
  y ∈ update_link i f l <-> exists x, x ∈ l /\ y = if index x =? i then f x else x.
Proof.
  induction l as [|x l IH]; cbn; [intros; split; [by intros ?%elem_of_nil|intros (x & Hx & _); by apply elem_of_nil in Hx]|].
  intros [Hx Hn]%NoDup_cons. specialize (IH Hn). setoid_rewrite elem_of_cons.
  destruct (Z.eqb_spec (index x) i) as [E|E].
  - rewrite elem_of_cons. split.
    + intros [->|Hy]; [exists x; split; [by left|by rewrite (proj2 (Z.eqb_eq _ _))]|].
      exists y. split; [by right|]. rewrite (proj2 (Z.eqb_neq _ _)); [done|]. intros Ey. apply Hx. rewrite list_elem_of_fmap. exists y. split; [congruence|done].
    + intros (z & [->|Hz] & ->); [left; by rewrite (proj2 (Z.eqb_eq _ _))|right].
      rewrite (proj2 (Z.eqb_neq _ _)); [done|]. intros Ey. apply Hx. rewrite list_elem_of_fmap. exists z. split; [congruence|done].
  - rewrite elem_of_cons, IH. split.
    + intros [->|(z & Hz & ->)]; [exists x; split; [by left|by rewrite (proj2 (Z.eqb_neq _ _))]|eauto].
    + intros (z & [->|Hz] & ->); [left; by rewrite (proj2 (Z.eqb_neq _ _))|right; eauto].
Qed.

Lemma index_inj l x y : NoDup (index <$> l) -> x ∈ l -> y ∈ l -> index x = index y -> x = y.
Proof.
  induction l as [|z l IH]; cbn; [by intros _ ?%elem_of_nil|]. intros [Hz Hn]%NoDup_cons [->|Hx]%elem_of_cons [->|Hy]%elem_of_cons E; [done| | |by apply IH].
  - destruct Hz. rewrite E. by apply list_elem_of_fmap_2.
  - destruct Hz. rewrite <- E. by apply list_elem_of_fmap_2.
Qed.

Lemma same_ifaddr_spec a b : same_ifaddr a b = true <-> a = b.
Proof. unfold same_ifaddr. destruct a, b. cbn. rewrite !andb_true_iff, !Z.eqb_eq. split; [by intros [[-> ->] ->]|by intros [= -> -> ->]]. Qed.

Lemma find_link_elem i l x : find_link i l = Some x -> x ∈ l /\ index x = i.
Proof. intros H. apply find_some in H as [H1 H2]. split; [by apply list_elem_of_In|by apply Z.eqb_eq]. Qed.

Lemma find_link_none i l : find_link i l = None -> i ∉ index <$> l.
Proof.
  intros H Hi. apply list_elem_of_fmap in Hi as (x & -> & Hx). apply list_elem_of_In in Hx.
  pose proof (find_none _ _ H x Hx) as H1. cbn in H1. by rewrite Z.eqb_refl in H1.
Qed.

(** The second half of the loop: the address of [r] is in the table then. *)
Lemma load_ifaddr_table c rs r i l : r ∈ rs -> listed c r i -> (exists x, find_link i l = Some x) -> table_sound c rs l ->
  let l' := (load_ifaddr c r i l).1 in
  table_sound c rs l' /\ (forall x a, x ∈ l -> a ∈ ifa_list x -> exists y, y ∈ l' /\ index y = index x /\ a ∈ ifa_list y) /\
  (forall a, gives c r i a -> exists x, x ∈ l' /\ index x = i /\ a ∈ ifa_list x).
Proof.
  intros Hr Hi [x Hx] Ht l'. subst l'. unfold load_ifaddr. pose proof (find_link_elem i l x Hx) as [Hx1 Hx2]. rewrite Hx.
  destruct (get_netmask r) as [m|] eqn:Em; [|split_and!; [done|by eauto|by intros a (_ & ? & _); congruence]].
  destruct (get_dstaddr r) as [p|] eqn:Ep; [|split_and!; [done|by eauto|by intros a (_ & _ & ? & _); congruence]].
  set (a0 := mkIfaddr p m (ifr_addr r)).
  assert (Ha0 : forall a, gives c r i a -> a = a0).
  { intros [p' m' b'] (_ & H1 & H2 & H3 & _). cbn in *. unfold a0. congruence. }
  destruct (existsb (same_ifaddr a0) (ifa_list x)) eqn:Ee.
  { split_and!; [done|by eauto|]. intros a Ha%Ha0. subst a. apply existsb_exists in Ee as (b & Hb & ->%same_ifaddr_spec).
    exists x. split_and!; [done..|by apply list_elem_of_In]. }
  destruct ((m =? 0) || (p =? 0)) eqn:Ez.
  { split_and!; [done|by eauto|]. intros a Ha. pose proof (Ha0 a Ha) as ->. destruct Ha as (_ & _ & _ & _ & H1 & H2). cbn in *. lia. }
  cbn [fst]. destruct Ht as [Hn Hl]. assert (Hg : gives c r i a0) by (split_and!; cbn; auto; lia).
  assert (Hin : forall y, y ∈ update_link i (push_ifaddr a0) l <-> exists x, x ∈ l /\ y = if index x =? i then push_ifaddr a0 x else x)
    by (intros y; by apply elem_of_update).
  split_and!.
  - split; [by rewrite update_index|]. intros y (z & Hz & ->)%Hin. destruct (Hl z Hz) as (H1 & H2 & H3).
    destruct (Z.eqb_spec (index z) i) as [Ez'|]; [|done]. split_and!; [|done|].
    + assert (z = x) as ->. { eapply index_inj; [done..|congruence]. }
      constructor; [|done]. intros Ha. assert (existsb (same_ifaddr a0) (ifa_list x) = true) as Ht; [|congruence].
      apply existsb_exists. exists a0. split; [by apply list_elem_of_In|by apply same_ifaddr_spec].
    + cbn. intros a [->|Ha]%elem_of_cons; [exists r; split; [done|by rewrite Ez']|by apply H3].
  - intros z a Hz Ha. eexists. split; [apply Hin; eauto|]. destruct (index z =? i); [|done]. split; [done|]. by right.
  - intros a Ha%Ha0. subst a. exists (push_ifaddr a0 x). split_and!; [|done|by left]. apply Hin. exists x. split; [done|]. by rewrite (proj2 (Z.eqb_eq _ _)).
Qed.

Lemma table_mono c rs rs' l : (forall r, r ∈ rs -> r ∈ rs') -> table_sound c rs l -> table_sound c rs' l.
Proof.
  intros H [H1 H2]. split; [done|]. intros x Hx. destruct (H2 x Hx) as (A & (r & Hr & B) & C). split_and!; [done|by eauto|].
  intros a Ha. destruct (C a Ha) as (r' & Hr' & D). eauto.
Qed.

(** Every entry seen so far has its link address. *)
Definition known (rs : list ifreq) : Prop := forall r, r ∈ rs -> get_hwaddr r <> None.

Lemma load_entry_table c r rs l : conf_ok (Conf [r]) -> table_sound c rs l -> (known rs -> table_complete c rs l) ->
  let l' := (load_entry c r l).1 in
  table_sound c (rs ++ [r]) l' /\ (known (rs ++ [r]) -> table_complete c (rs ++ [r]) l').
Proof.
  intros Hk Hs Hc l'. subst l'. assert (Hr : r ∈ rs ++ [r]) by (apply elem_of_app; right; by apply list_elem_of_singleton).
  pose proof (table_mono c rs (rs ++ [r]) l ltac:(intros; apply elem_of_app; by left) Hs) as Hs'.
  assert (Hkn : known (rs ++ [r]) -> known rs /\ get_hwaddr r <> None).
  { intros H. split; [intros q Hq; apply H, elem_of_app; by left|by apply H]. }
  assert (Hno : (forall i a, gives c r i a -> get_hwaddr r <> None -> False) -> table_sound c (rs ++ [r]) l /\ (known (rs ++ [r]) -> table_complete c (rs ++ [r]) l)).
  { intros H. split; [done|]. intros [Hk1 Hk2]%Hkn q i a [Hq|Eq%list_elem_of_singleton]%elem_of_app Hg; [|subst q]; [by eapply Hc|by destruct (H i a Hg)]. }
  unfold load_entry.
  destruct (Z.eqb_spec (ifr_family r) AF_INET); cbn [negb]; [|apply Hno; by intros i a ((? & _) & _)].
  destruct (Z.eqb_spec (ifr_addr r) 0); [apply Hno; by intros i a ((_ & ? & _) & _)|].
  destruct (get_index r) as [i|] eqn:Ei; [|apply Hno; intros i a ((_ & _ & ? & _) & _); congruence].
  destruct (negb (ifidx c =? 0) && negb (i =? ifidx c)) eqn:Ex.
  { apply Hno. intros i' a ((_ & _ & Ei' & Hi) & _). rewrite Ei in Ei'. injection Ei' as <-. lia. }
  assert (Hi : listed c r i) by (split_and!; [done..|lia]).
  assert (Hall : forall l1, (exists x, find_link i l1 = Some x) -> table_sound c (rs ++ [r]) l1 -> (forall x, x ∈ l -> x ∈ l1) ->
    table_sound c (rs ++ [r]) (load_ifaddr c r i l1).1 /\ (known (rs ++ [r]) -> table_complete c (rs ++ [r]) (load_ifaddr c r i l1).1)).
  { intros l1 H1 H2 H3. destruct (load_ifaddr_table c (rs ++ [r]) r i l1 Hr Hi H1 H2) as (A & B & C). split; [done|].
    intros [Hk1 _]%Hkn q j a [Hq|Eq%list_elem_of_singleton]%elem_of_app Hg; [|subst q].
    - destruct (Hc Hk1 q j a Hq Hg) as (x & X1 & <- & X3). destruct (B x a (H3 x X1) X3) as (y & ?). by exists y.
    - assert (j = i) as -> by (destruct Hg as ((_ & _ & ? & _) & _); congruence). by apply C. }
  destruct (find_link i l) as [x|] eqn:Ef; [apply Hall; [by eauto|done|done]|].
  destruct (get_hwaddr r) as [[t d]|] eqn:Eh; [|apply Hno; congruence].
  set (x := mkIflink i t (d ++ [0; 0]) (link_name (ifr_name r)) []).
  assert (Hx : table_sound c (rs ++ [r]) (x :: l)).
  { split; [cbn; constructor; [by apply find_link_none|apply Hs]|]. intros y [->|Hy]%elem_of_cons; [|by apply Hs'].
    split_and!; [constructor| |by intros a ?%elem_of_nil]. exists r. split; [done|].
    unfold conf_ok in Hk. apply Forall_inv in Hk. cbn beta in Hk. rewrite Eh in Hk.
    unfold describes, x. cbn [index lladdr hatype lname]. by rewrite <- Hk, take_app_length. }
  destruct (Hall (x :: l)) as [A B]; [exists x; unfold find_link; cbn; by rewrite Z.eqb_refl|done|intros y; by right|].
  by destruct (load_ifaddr c r i (x :: l)).
Qed.

Lemma load_entries_table c rs : conf_ok (Conf rs) -> forall seen l, table_sound c seen l -> (known seen -> table_complete c seen l) ->
  let l' := (load_entries c rs l).1 in
  table_sound c (seen ++ rs) l' /\ (known (seen ++ rs) -> table_complete c (seen ++ rs) l').
Proof.
  unfold conf_ok. induction 1 as [|r rs Hr Hrs IH]; intros seen l Hs Hc; cbn [load_entries].
  - rewrite app_nil_r. done.
  - destruct (load_entry_table c r seen l) as [A B]; [by constructor|done|done|]. destruct (load_entry c r l) as [l1 e1].
    destruct (IH (seen ++ [r]) l1 A B) as [A' B']. rewrite <- (assoc_L (++)) in A', B'. by destruct (load_entries c rs l1).
Qed.

(** ** A run of the daemon

    The kernel fills [sll_addr], which has 8 bytes; the length it writes may be
    larger. *)
















(** Without -o the address given is on a net of the interface, and the reply
    comes from our address on that net. *)
Lemma answer_on_net c ns links from m l to p : allow_offlink c = false -> answer c ns links from m = Some l -> Send to p ∈ l ->
  exists ip x a, assigned c ns links (sll_ifindex from) (a_tha m) = Some ip /\ find_link (sll_ifindex from) links = Some x /\
    a ∈ ifa_list x /\ on_net ip a = true /\ to = sll from /\
    p = encode 6 (mkArp (a_hrd m) ARPOP_RREPLY (take 6 (lladdr x)) (local a) (a_tha m) ip).
Proof.
  intros Ho. unfold answer. destruct (_ && _); [|done]. destruct (assigned _ _ _ _ _) as [ip|] eqn:Ea; [|done]. cbn [mbind option_bind].
  destruct (find_link _ links) as [x|] eqn:Ex; [|done]. cbn [mbind option_bind]. intros [= <-] Hin.
  apply elem_of_cons in Hin as [?|Hin]; [done|]. apply list_elem_of_singleton in Hin as [= -> ->].
  assert (Hn : existsb (on_net ip) (ifa_list x) = true).
  { clear -Ea Ex Ho. unfold assigned in Ea. destruct (ether_ntohost ns _) as [w|]; [|done]. cbn in Ea.
    destruct (gethostbyname ns w) as [[t al]|]; [|done]. cbn in Ea. destruct (t =? AF_INET); [|done]. unfold choose in Ea. rewrite Ex in Ea. cbn in Ea.
    destruct (List.find _ al) as [ip'|] eqn:Ef.
    - cbn in Ea. destruct (_ || _); [|done]. injection Ea as ->. by apply find_some in Ef as [_ Ef].
    - rewrite Ho in Ea. by destruct al as [|? [|]], (ifa_list x). }
  unfold reply, my_address. destruct (List.find (on_net ip) (ifa_list x)) as [a|] eqn:Ef.
  - apply find_some in Ef as [Ha Hna]. exists ip, x, a. split_and!; try done. by apply list_elem_of_In.
  - apply existsb_exists in Hn as (a & Ha & Hna). pose proof (find_none _ _ Ef a Ha). congruence.
Qed.

Lemma be16_range l : Forall (in_u 8) l -> length l = 2%nat -> in_u 16 (be16 l).
Proof.
  intros H L. unfold be16, in_u. pose proof (le_value_range (reverse l) (proj2 (Forall_reverse _ _) H)) as R. by rewrite length_reverse, L in R.
Qed.

Lemma le_bytes_u32 x : le_bytes 4 (u32 x) = le_bytes 4 x.
Proof.
  assert (E : forall k, le_bytes k (x mod 2 ^ (8 * Z.of_nat k)) = le_bytes k x).
  { intros k. rewrite <- (le_value_bytes k x), <- (length_le_bytes k x) at 1. apply le_bytes_value, le_bytes_range. }
  apply (E 4%nat).
Qed.

Lemma encode_u32 n h op a p b q : encode n (mkArp h op a p b q) = encode n (mkArp h op a (u32 p) b (u32 q)).
Proof. unfold encode. cbn [a_hrd a_op a_sha a_spa a_tha a_tpa]. by rewrite !le_bytes_u32. Qed.

(** ** The properties *)

(** C13: A packet of any length is answered exactly if it is a RARP request for
    us: it has the type of its frame, is for IP, is long enough, and its sender
    is that of the frame.  The answer is that of the reference, computed from
    the table of interfaces (the one before or the one just loaded): a reply
    with the first address of the host that is on a net of the interface, and
    an entry for the ARP cache; nothing is read behind the packet, no array is
    left, the filter for the socket drops no request, and without -o the reply
    comes from our address on the net of the host. *)
Theorem rarpd_answers c ns k from n buf s : sender_ok from -> conf_ok k -> rarpd_ok s ->
  Forall (in_u 8) buf -> length buf = 1024%nat -> 0 <= n <= 1024 ->
  exists s' e, serve_it c ns k from n buf s = Some (s', e) /\ rarpd_ok s' /\
    (ifl_list s' = ifl_list s \/ ifl_list s' = ifl_list (load_if c k s).1) /\
    acts e = match request c from (take (Z.to_nat n) buf) with
             | None => []
             | Some m => default [] (answer c ns (ifl_list s') from m)
             end /\
    (forall m, request c from (take (Z.to_nat n) buf) = Some m -> bpf arp_insns (take (Z.to_nat n) buf) = 1024) /\
    (forall to p, allow_offlink c = false -> Send to p ∈ acts e ->
      exists m ip x a, request c from (take (Z.to_nat n) buf) = Some m /\ assigned c ns (ifl_list s') (sll_ifindex from) (a_tha m) = Some ip /\
        find_link (sll_ifindex from) (ifl_list s') = Some x /\ a ∈ ifa_list x /\ on_net ip a = true /\
        decode 6 p = Some (mkArp (a_hrd m) ARPOP_RREPLY (take 6 (lladdr x)) (u32 (local a)) (a_tha m) (u32 ip))).
Proof.
  intros Hf Hk Hs Hb Lb Hn. destruct (serve_it_ok c ns k from n buf s Hf Hk Hs Hb Lb Hn) as (s' & e & E1 & E2 & E3 & E4).
  exists s', e. split_and!; [done..|by intros; eapply arp_filter_passes|]. intros to p Ho Hp. rewrite E4 in Hp.
  destruct (request c from (take (Z.to_nat n) buf)) as [m|] eqn:Em; [|by apply elem_of_nil in Hp].
  destruct (answer c ns (ifl_list s') from m) as [l|] eqn:El; [|by apply elem_of_nil in Hp].
  destruct (answer_on_net c ns (ifl_list s') from m l to p Ho El Hp) as (ip & x & a & H1 & H2 & H3 & H4 & _ & ->).
  exists m, ip, x, a. split_and!; try done.
  assert (H6 : halen_of from = 6%nat).
  { unfold answer in El. destruct (_ && (sll_halen (sll from) =? 6)) eqn:G; [|done]. unfold halen_of. lia. }
  apply request_inv in Em as (Em & _ & _). rewrite H6 in Em. pose proof (decode_inv _ _ _ Em) as (Hlen & _ & ->).
  assert (Lx : link_ok x) by (eapply find_link_ok; [apply E2|done]).
  rewrite encode_u32, <- (app_nil_r (encode _ _)). apply arp_decode_encode. cbn [a_hrd a_tha]. split; cbn [a_hrd a_op a_sha a_spa a_tha a_tpa].
  - apply be16_range; [by apply Forall_field, Forall_take|apply length_field; lia].
  - done.
  - unfold link_ok in Lx. rewrite length_take. lia.
  - by apply wrapu_range.
  - apply length_field. lia.
  - by apply wrapu_range.
Qed.

(** A host 02:00:00:00:00:07 on the net 192.168.1.0/24. *)
Definition ip4 (a b c d : Z) : Z := le_value [a; b; c; d].
Definition demo_mac : list Z := [2; 0; 0; 0; 0; 7].
Definition demo_ifreq : ifreq :=
  mkIfreq "eth0:1" AF_INET (ip4 192 168 1 1) (Some 2) (Some (ARPHRD_ETHER, [2; 0; 0; 0; 0; 1; 0; 0; 0; 0; 0; 0; 0; 0]))
    (Some (ip4 255 255 255 0)) (Some (ip4 192 168 1 1)).
Definition demo_names : names :=
  mkNames (fun mac => if bool_decide (mac = demo_mac) then Some "client"%string else None)
    (fun w => if String.eqb w "client" then Some (AF_INET, [ip4 10 0 0 7; ip4 192 168 1 7]) else None)
    (Some [hex8 (htonl (ip4 192 168 1 7)) ++ [46]]).
Definition demo_from : sender := mkSender 2 (mkLl ARPHRD_ETHER PACKET_BROADCAST 6 (demo_mac ++ [0; 0])).
Definition demo_buf : list Z := encode 6 (mkArp ARPHRD_ETHER ARPOP_RREQUEST demo_mac 0 demo_mac 0) ++ replicate 996 7.

Lemma demo_from_ok : sender_ok demo_from.
Proof. split; [cbn; lia|done]. Qed.

Lemma demo_buf_ok : Forall (in_u 8) demo_buf /\ length demo_buf = 1024%nat.
Proof. split; [|done]. apply bytes_ok. vm_compute. reflexivity. Qed.

Lemma start_ok : rarpd_ok start_state.
Proof. split; [constructor|done|]. by exists (replicate 16 0), 0. Qed.

Lemma rarpd_answers_witness :
  serve_it no_options demo_names (Conf [demo_ifreq]) demo_from 46 demo_buf start_state <> None /\
  exists s' e, serve_it no_options demo_names (Conf [demo_ifreq]) demo_from 46 demo_buf start_state = Some (s', e) /\ rarpd_ok s' /\
    acts e = [Set_arp (ip4 192 168 1 7) ARPHRD_ETHER (demo_mac ++ replicate 8 0) "eth0";
              Send (sll demo_from) (encode 6 (mkArp ARPHRD_ETHER ARPOP_RREPLY [2; 0; 0; 0; 0; 1] (ip4 192 168 1 1) demo_mac (ip4 192 168 1 7)))].
Proof.
  split; [by vm_compute|].
  destruct (rarpd_answers no_options demo_names (Conf [demo_ifreq]) demo_from 46 demo_buf start_state) as (s' & e & H1 & H2 & H3 & H4 & _);
    [apply demo_from_ok|by repeat constructor|apply start_ok|apply demo_buf_ok|apply demo_buf_ok|lia|].
  exists s', e. split; [done|]. split; [done|]. revert H1. vm_compute. intros [= <- <-]. reflexivity.
Defined.

(** C29: The table that [load_if] makes out of the answers of the kernel has each
    interface once, with the link address and name of one of its entries, and
    each address once; every address in it was reported with a mask and a
    prefix that are not 0, and if the kernel told the link addresses every such
    address is in it. *)
Theorem interfaces_loaded c r rs s : conf_ok (Conf (r :: rs)) ->
  let l := ifl_list (load_if c (Conf (r :: rs)) s).1 in
  NoDup (index <$> l) /\
  (forall x, x ∈ l -> NoDup (ifa_list x) /\ exists q, q ∈ r :: rs /\ describes c q x) /\
  (forall x a, x ∈ l -> a ∈ ifa_list x -> exists q, q ∈ r :: rs /\ gives c q (index x) a) /\
  (known (r :: rs) -> forall q i a, q ∈ r :: rs -> gives c q i a -> exists x, find_link i l = Some x /\ a ∈ ifa_list x).
Proof.
  intros Hk l. destruct (load_entries_table c (r :: rs) Hk [] []) as [H1 H2].
  { split; [constructor|by intros x ?%elem_of_nil]. } { by intros _ q i a ?%elem_of_nil. }
  assert (El : l = (load_entries c (r :: rs) []).1) by (unfold l, load_if; by destruct (load_entries c (r :: rs) [])).
  rewrite app_nil_l, <- El in H1, H2. destruct H1 as [H1 H3]. split_and!; [done|..].
  - intros x Hx. destruct (H3 x Hx) as (A & B & _). auto.
  - intros x a Hx Ha. destruct (H3 x Hx) as (_ & _ & B). auto.
  - intros Hn q i a Hq Hg. destruct (H2 Hn q i a Hq Hg) as (x & Hx & Hi & Ha). exists x. split; [|done].
    destruct (find_link i l) as [y|] eqn:Ey; [|exfalso; apply find_link_none in Ey; apply Ey; rewrite <- Hi; by apply list_elem_of_fmap_2].
    apply find_link_elem in Ey as [Hy Ei]. f_equal. eapply index_inj; [done..|congruence].
Qed.

Lemma interfaces_loaded_witness : conf_ok (Conf [demo_ifreq]) /\
  exists x, find_link 2 (ifl_list (load_if no_options (Conf [demo_ifreq]) start_state).1) = Some x /\
    mkIfaddr (ip4 192 168 1 1) (ip4 255 255 255 0) (ip4 192 168 1 1) ∈ ifa_list x.
Proof.
  assert (H : conf_ok (Conf [demo_ifreq])) by by repeat constructor. split; [done|].
  destruct (interfaces_loaded no_options demo_ifreq [] start_state H) as (_ & _ & _ & H4).
  apply (H4 ltac:(intros q ->%list_elem_of_singleton; done) demo_ifreq 2); [by left|]. repeat split; try done. by left.
Defined.






(** ** Weak points *)

(** With -o the reply to a host on another net comes from the address 0. *)
Lemma offlink_source x ip : existsb (on_net ip) (ifa_list x) = false -> my_address x ip = 0.
Proof.
  intros H. unfold my_address. destruct (List.find (on_net ip) (ifa_list x)) as [a|] eqn:E; [|done]. apply find_some in E as [Ha Hn].
  assert (existsb (on_net ip) (ifa_list x) = true); [|congruence]. apply existsb_exists. eauto.
Qed.

(** Each load of the interfaces loses a descriptor. *)
Lemma load_if_leaks c r rs s : lost_fds (load_if c (Conf (r :: rs)) s).1 = lost_fds s + 1.
Proof. unfold load_if. by destruct (load_entries c (r :: rs) []). Qed.

(** A SIGHUP while the configuration is read is forgotten. *)
Lemma hangup_lost c pset n k s : exists s' e, iteration c pset n (mkTurn k true false []) true s = Some (false, s', e).
Proof.
  unfold iteration. cbn. destruct (configure c k s) as [s1 e1]. cbn.
  assert (Hn : forall p, serve_all [] c p s1 = Some (s1, [])) by (induction p as [|[]  p IH]; cbn; rewrite ?IH; done).
  rewrite Hn. cbn. eauto.
Qed.

(** A link address of more than 8 bytes is read beyond [sll_addr]. *)
Lemma long_link_address : exists from buf, sll_halen (sll from) = 20 /\ length (sll_addr (sll from)) = 8%nat /\
  serve_it no_options demo_names No_conf from 56 buf start_state = None.
Proof.
  exists (mkSender 2 (mkLl 32 PACKET_BROADCAST 20 (replicate 8 1))),
    (encode 20 (mkArp 32 ARPOP_RREQUEST (replicate 20 1) 0 (replicate 20 1) 0) ++ replicate 968 0). by vm_compute.
Qed.

(** The length that is logged for a mask is right. *)
Lemma mask_bits_right : forall n, (n <= 32)%nat -> mask_bits (htonl (2 ^ 32 - 2 ^ (32 - Z.of_nat n))) = Z.of_nat n.
Proof.
  assert (H : Forall (fun n => mask_bits (htonl (2 ^ 32 - 2 ^ (32 - Z.of_nat n))) = Z.of_nat n) (seq 0 33)) by (repeat (constructor; [vm_compute; reflexivity|]); constructor).
  intros n Hn. rewrite Forall_forall in H. apply H. apply elem_of_seq. lia.
Qed.
