(* ===== verification/Tracepath.v ===== *)
(** * Path discovery of iputils: tracepath.c

    tracepath sends UDP packets with growing time to live and reads the errors
    that come back from the error queue of the socket: the routers on the way,
    the largest packet that passes, and the distance of the target.  This file
    holds the whole program.

    The system is a [network]: a state and the calls on it, so that theorems can
    speak of any answers or of those of a real path.  [None] is an access
    outside [pktbuf] or [his], or fuel that ran out; the loops that take it are
    those that the code writes with [goto restart]. *)

From Stdlib Require Import ZArith Lia Ascii String.
From stdpp Require Import base numbers option list.
From S2P Require Import Prelude Clockdiff Probed.

Local Open Scope list_scope.
Local Open Scope Z_scope.
Local Open Scope cmd_scope.
Local Abbreviation length := List.length.

(** ** Data *)

Definition MAX_HOPS_DEFAULT : Z := 30.
Definition EACCES : Z := 13.
Definition EPROTO : Z := 71.
Definition EMSGSIZE : Z := 90.
Definition ENETUNREACH : Z := 101.
Definition ETIMEDOUT : Z := 110.
Definition ECONNREFUSED : Z := 111.
Definition EHOSTUNREACH : Z := 113.
Definition SO_EE_ORIGIN_LOCAL : Z := 1.
Definition SO_EE_ORIGIN_ICMP : Z := 2.
Definition SO_EE_ORIGIN_ICMP6 : Z := 3.

Record hhistory := mkHistory { hops : Z; sendtime : timeval }.

Record probehdr := mkProbe { h_ttl : Z; h_tv : timeval }.
Definition sizeof_probehdr : Z := 24.

(** [struct sock_extended_err] and the address of the offender behind it. *)
Record extended_err := mkErr {
  ee_errno : Z;
  ee_origin : Z;
  ee_type : Z;
  ee_code : Z;
  ee_info : Z;
  ee_offender : Z
}.

(** Control messages: IP_RECVERR or IPV6_RECVERR, the int of IPV6_HOPLIMIT, the
    byte of IP_TTL, others. *)
Inductive cmsg := Cm_err (e : extended_err) | Cm_hoplimit (v : Z) | Cm_ttl (v : Z) | Cm_other.

(** What [recvmsg] on the error queue returns: -1 with EAGAIN, -1 with another
    error, or [res] bytes of a packet of ours, its header if it is there, the
    port it was sent to, and the control messages. *)
Inductive answer := Again | Fails | Message (res : Z) (hdr : probehdr) (port : Z) (cmsgs : list cmsg).

Record network := mkNetwork {
  net : Type;
  gettimeofday : net -> timeval * net;
  set_ttl : Z -> net -> bool * net;
  sendto : Z -> Z -> probehdr -> net -> bool * net;    (* port, length; true if the result is positive *)
  recvmsg : net -> answer * net;
  data_wait : net -> net;
  recv : net -> bool * net
}.

Record trace := mkTrace {
  his : list hhistory;
  hisptr : Z;
  mtu : Z;
  hops_to : Z;
  hops_from : Z
}.

Definition set_his (i : nat) (h : hhistory) (s : trace) : trace := mkTrace (<[i := h]> (his s)) (hisptr s) (mtu s) (hops_to s) (hops_from s).
Definition set_hisptr (i : Z) (s : trace) : trace := mkTrace (his s) i (mtu s) (hops_to s) (hops_from s).
Definition set_mtu (m : Z) (s : trace) : trace := mkTrace (his s) (hisptr s) m (hops_to s) (hops_from s).
Definition set_reached (t f : Z) (s : trace) : trace := mkTrace (his s) (hisptr s) (mtu s) t f.

(** What the options and the socket fix; [pktlen] is the size of [pktbuf]. *)
Record config := mkConfig {
  overhead : Z;
  base_port : Z;
  max_hops : Z;
  pktlen : Z
}.

(** ** Output *)

(** The first columns of a line: the hop, without or with the question mark,
    and the host. *)
Inductive who := Localhost (ttl : Z) | Host (hop : Z) (known : bool) (addr : Z) | Nobody.

Inductive verdict := Timed_out | Pmtu (n : Z) | Reached | Bad_protocol | Hop (asymm : option Z) | No_host | No_net | No_access | Net_error (errno : Z).

Inductive output :=
  | No_info
  | Line (w : who) (time : option (Z * bool)) (v : verdict)
  | Reply (ttl : Z)
  | Send_failed (ttl : Z)
  | No_reply (ttl : Z)
  | Too_many_hops (pmtu : Z)
  | Resume (pmtu : Z) (hops back : option Z).

(** ** An error *)

(** The loop over the control messages: the last error and the last time to
    live. *)
Fixpoint scan_cmsgs (l : list cmsg) (e : option extended_err) (rethops : Z) : option extended_err * Z :=
  match l with
  | [] => (e, rethops)
  | Cm_err e' :: l => scan_cmsgs l (Some e') rethops
  | Cm_hoplimit v :: l => scan_cmsgs l e (s32 v)
  | Cm_ttl v :: l => scan_cmsgs l e (u8 v)
  | Cm_other :: l => scan_cmsgs l e rethops
  end.

(** The number of hops back, guessed from the time to live that is left. *)
Definition hops_back (rethops : Z) : Z :=
  if rethops <=? 64 then 65 - rethops else if rethops <=? 128 then 129 - rethops else 256 - rethops.

(** The entry of the history for a packet sent to [port], which is taken out. *)
Definition take_history (c : config) (port : Z) (s : trace) : option (Z * option timeval * trace) :=
  let slot := - base_port c + port in
  if (0 <=? slot) && (slot <? 63) then
    h ← his s !! Z.to_nat slot;
    if hops h =? 0 then Some (-1, None, s)
    else Some (hops h, Some (sendtime h), set_his (Z.to_nat slot) (mkHistory 0 (sendtime h)) s)
  else Some (-1, None, s).

(** The header of the packet, if it came back whole: hops, time and whether it
    is corrupted. *)
Definition read_header (res : Z) (hdr : probehdr) (sndhops : Z) (rettv : option timeval) : Z * option timeval * bool :=
  if res =? sizeof_probehdr then
    if (h_ttl hdr =? 0) || (tv_s (h_tv hdr) =? 0) then (sndhops, rettv, true)
    else (s32 (h_ttl hdr), Some (h_tv hdr), false)
  else (sndhops, rettv, false).

Definition who_of (e : extended_err) (ttl sndhops : Z) : who :=
  if ee_origin e =? SO_EE_ORIGIN_LOCAL then Localhost ttl
  else if (ee_origin e =? SO_EE_ORIGIN_ICMP6) || (ee_origin e =? SO_EE_ORIGIN_ICMP) then
    if 0 <? sndhops then Host sndhops true (ee_offender e) else Host ttl false (ee_offender e)
  else Nobody.

Definition time_of (tv : timeval) (rettv : option timeval) (broken : bool) : option (Z * bool) :=
  (fun t => (s32 ((tv_s tv - tv_s t) * 1000000 + (tv_us tv - tv_us t)), broken)) <$> rettv.

Definition is_exceeded (e : extended_err) : bool :=
  ((ee_origin e =? SO_EE_ORIGIN_ICMP) && (ee_type e =? 11) && (ee_code e =? 0))
  || ((ee_origin e =? SO_EE_ORIGIN_ICMP6) && (ee_type e =? 3) && (ee_code e =? 0)).

Definition asymm (ttl sndhops rethops : Z) : option Z :=
  if 0 <=? rethops then
    if (0 <=? sndhops) && negb (rethops =? sndhops) then Some rethops
    else if (sndhops <? 0) && negb (rethops =? ttl) then Some rethops else None
  else None.

(** The switch on the error: [Some r] returns [r], [None] goes on, with the new
    value of [progress]. *)
Definition judge (e : extended_err) (ttl sndhops rethops : Z) (s : trace) : verdict * option Z * Z * trace :=
  if ee_errno e =? ETIMEDOUT then (Timed_out, None, mtu s, s)
  else if ee_errno e =? EMSGSIZE then (Pmtu (s32 (ee_info e)), None, s32 (ee_info e), set_mtu (s32 (ee_info e)) s)
  else if ee_errno e =? ECONNREFUSED then (Reached, Some 0, mtu s, set_reached (if sndhops <? 0 then ttl else sndhops) rethops s)
  else if ee_errno e =? EPROTO then (Bad_protocol, Some 0, mtu s, s)
  else if ee_errno e =? EHOSTUNREACH then
    if is_exceeded e then (Hop (asymm ttl sndhops rethops), None, mtu s, s) else (No_host, Some 0, mtu s, s)
  else if ee_errno e =? ENETUNREACH then (No_net, Some 0, mtu s, s)
  else if ee_errno e =? EACCES then (No_access, Some 0, mtu s, s)
  else (Net_error (ee_errno e), Some 0, mtu s, s).

(** One message of the error queue. *)
Definition handle_error (c : config) (ttl : Z) (tv : timeval) (res : Z) (hdr : probehdr) (port : Z) (l : list cmsg) (s : trace)
    : option (output * option Z * Z * trace) :=
  '(sndhops, rettv, s) ← take_history c port s;
  let '(sndhops, rettv, broken) := read_header res hdr sndhops rettv in
  let '(e, rethops) := scan_cmsgs l None (-1) in
  match e with
  | None => Some (No_info, Some 0, mtu s, s)
  | Some e =>
      let '(v, r, progress, s) := judge e ttl sndhops (hops_back rethops) s in
      Some (Line (who_of e ttl sndhops) (time_of tv rettv broken) v, r, progress, s)
  end.

(** ** The program *)

Section Program.
Context (w : network) (c : config).

(** The variables, the state of the network and what was printed. *)
Record world := mkWorld { tr : trace; nt : net w; printed : list output }.

Definition lift {A} (f : net w -> A * net w) : cmd world A :=
  fun x => let '(a, n) := f (nt x) in Some (a, mkWorld (tr x) n (printed x)).
Definition on_trace (f : trace -> trace) : cmd world unit := modify (fun x => mkWorld (f (tr x)) (nt x) (printed x)).
Definition print (o : output) : cmd world unit := modify (fun x => mkWorld (tr x) (nt x) (printed x ++ [o])).
Definition try_handle (ttl : Z) (tv : timeval) (res : Z) (hdr : probehdr) (port : Z) (l : list cmsg) : cmd world (output * option Z * Z) :=
  fun x => match handle_error c ttl tv res hdr port l (tr x) with
           | None => None
           | Some (o, r, p, s) => Some ((o, r, p), mkWorld s (nt x) (printed x))
           end.

(** An access to the first [n] bytes of [pktbuf]. *)
Definition in_pktbuf (n : Z) : cmd world unit := if (0 <=? n) && (n <=? pktlen c) then ret tt else fault.

Fixpoint recverr (fuel : nat) (ttl progress : Z) : cmd world Z :=
  match fuel with
  | O => fault
  | S fuel =>
      tv <- lift (gettimeofday w) ;;
      a <- lift (recvmsg w) ;;
      match a with
      | Again => ret progress
      | Fails => recverr fuel ttl progress
      | Message res hdr port l =>
          r <- try_handle ttl tv res hdr port l ;;
          match r with
          | (o, Some v, _) => print o ;;; ret v
          | (o, None, progress) => print o ;;; recverr fuel ttl progress
          end
      end
  end.

(** The loop of [probe_ttl] with [k] attempts left.  A negative length, as a
    size_t, is refused by [sendto] before anything is read. *)
Inductive attempts := Sent | Not_sent | Stop | Restart.

Fixpoint send_loop (fuel : nat) (ttl : Z) (k : nat) : cmd world attempts :=
  match k with
  | O => ret Not_sent
  | S k =>
      i <- gets (fun x => hisptr (tr x)) ;;
      tv <- lift (gettimeofday w) ;;
      h <- gets (fun x => his (tr x) !! Z.to_nat i) ;;
      match h with
      | None => fault
      | Some _ =>
          on_trace (set_his (Z.to_nat i) (mkHistory ttl tv)) ;;;
          in_pktbuf sizeof_probehdr ;;;
          m <- gets (fun x => mtu (tr x)) ;;
          (if m <? overhead c then ret tt else in_pktbuf (m - overhead c)) ;;;
          b <- lift (sendto w (u16 (base_port c + i)) (u64 (m - overhead c)) (mkProbe (u32 ttl) tv)) ;;
          if b : bool then ret Sent
          else
            res <- recverr fuel ttl (-1) ;;
            on_trace (fun s => match his s !! Z.to_nat i with
                               | Some h => set_his (Z.to_nat i) (mkHistory 0 (sendtime h)) s
                               | None => s
                               end) ;;;
            if res =? 0 then ret Stop
            else if 0 <? res then ret Restart
            else send_loop fuel ttl k
      end
  end.

Fixpoint send_probe (fuel0 fuel : nat) (ttl : Z) : cmd world attempts :=
  match fuel with
  | O => fault
  | S fuel =>
      a <- send_loop fuel0 ttl 10 ;;
      match a with Restart => send_probe fuel0 fuel ttl | _ => ret a end
  end.

Definition probe_ttl (fuel : nat) (ttl : Z) : cmd world Z :=
  m <- gets (fun x => mtu (tr x)) ;;
  in_pktbuf m ;;;
  a <- send_probe fuel fuel ttl ;;
  match a with
  | Stop | Restart => ret 0
  | Sent =>
      on_trace (fun s => set_hisptr (Z.land (hisptr s + 1) 63) s) ;;;
      lift (fun n => (tt, data_wait w n)) ;;;
      m <- gets (fun x => mtu (tr x)) ;;
      in_pktbuf m ;;;
      b <- lift (recv w) ;;
      if b : bool then print (Reply ttl) ;;; ret 0
      else recverr fuel ttl (-1)
  | Not_sent =>
      on_trace (fun s => set_hisptr (Z.land (hisptr s + 1) 63) s) ;;;
      print (Send_failed ttl) ;;; ret 0
  end.

(** The loop of [main] for one hop, with [k] tries left; [None] is [done]. *)
Fixpoint try_loop (fuel : nat) (ttl : Z) (k : nat) (res : Z) : cmd world (option (option Z)) :=
  match k with
  | O => ret (Some (Some res))
  | S k =>
      old_mtu <- gets (fun x => mtu (tr x)) ;;
      res <- probe_ttl fuel ttl ;;
      m <- gets (fun x => mtu (tr x)) ;;
      if negb (m =? old_mtu) then ret (Some None)
      else if res =? 0 then ret None
      else if 0 <? res then ret (Some (Some res))
      else try_loop fuel ttl k res
  end.

Fixpoint try_hop (fuel0 fuel : nat) (ttl : Z) : cmd world (option Z) :=
  match fuel with
  | O => fault
  | S fuel =>
      r <- try_loop fuel0 ttl 3 0 ;;
      match r with
      | Some (Some res) => ret (Some res)
      | Some None => try_hop fuel0 fuel ttl
      | None => ret None
      end
  end.

(** The loop over the hops with [k] to go: the exit code if [setsockopt]
    fails. *)
Fixpoint hop_loop (fuel : nat) (k : nat) (ttl : Z) : cmd world (option Z) :=
  match k with
  | O => m <- gets (fun x => mtu (tr x)) ;; print (Too_many_hops m) ;;; ret None
  | S k =>
      b <- lift (set_ttl w ttl) ;;
      if b : bool then
        r <- try_hop fuel fuel ttl ;;
        match r with
        | None => ret None
        | Some res =>
            (if res <? 0 then print (No_reply ttl) else ret tt) ;;;
            hop_loop fuel k (ttl + 1)
        end
      else ret (Some 1)
  end.

Definition positive (z : Z) : option Z := if 0 <=? z then Some z else None.

(** From the loop to the exit. *)
Definition run_trace (fuel : nat) : cmd world Z :=
  r <- hop_loop fuel (Z.to_nat (max_hops c)) 1 ;;
  match r with
  | Some code => ret code
  | None =>
      s <- gets tr ;;
      print (Resume (mtu s) (positive (hops_to s)) (positive (hops_from s))) ;;;
      ret 0
  end.

End Program.

(** ** main up to the loop *)

Inductive opt := Opt_4 | Opt_6 | Opt_n | Opt_b | Opt_l (arg : string) | Opt_m (arg : string) | Opt_p (arg : string) | Opt_other.

Inductive family := Unspec | Inet | Inet6.

Record settings := mkSettings {
  s_family : family;
  s_numeric : bool;
  s_both : bool;
  s_mtu : Z;
  s_max_hops : Z;
  s_port : Z
}.

(** An option: the settings or the exit code.  [overhead] is still 0; a wrong
    number of hops is reported and kept. *)
Definition parse_option (o : opt) (s : settings) : Z + settings :=
  match s with
  | mkSettings f n b m h p =>
      match o with
      | Opt_4 => match f with Unspec => inr (mkSettings Inet n b m h p) | _ => inl 2 end
      | Opt_6 => match f with Unspec => inr (mkSettings Inet6 n b m h p) | _ => inl 2 end
      | Opt_n => inr (mkSettings f true b m h p)
      | Opt_b => inr (mkSettings f n true m h p)
      | Opt_l w => if atoi w <=? 0 then inl 1 else inr (mkSettings f n b (atoi w) h p)
      | Opt_m w => inr (mkSettings f n b m (atoi w) p)
      | Opt_p w => inr (mkSettings f n b m h (u16 (atoi w)))
      | Opt_other => inl (-1)
      end
  end.

Fixpoint parse_options (l : list opt) (s : settings) : Z + settings :=
  match l with
  | [] => inr s
  | o :: l => match parse_option o s with inl code => inl code | inr s => parse_options l s end
  end.

Fixpoint last_char (s : string) : option ascii :=
  match s with
  | EmptyString => None
  | String a EmptyString => Some a
  | String _ s => last_char s
  end.

Definition name_family (argv0 : string) : family :=
  match last_char argv0 with
  | Some a => if Ascii.eqb a "4" then Inet else if Ascii.eqb a "6" then Inet6 else Unspec
  | None => Unspec
  end.

(** The parts before and behind the first slash. *)
Fixpoint split_slash (s : string) : option (string * string) :=
  match s with
  | EmptyString => None
  | String a s => if Ascii.eqb a "/" then Some (EmptyString, s)
                  else '(l, r) ← split_slash s; Some (String a l, r)
  end.

(** The destination and the port. *)
Definition choose_port (p : Z) (dest : string) : string * Z :=
  if p =? 0 then match split_slash dest with Some (d, r) => (d, u16 (atoi r)) | None => (dest, 44444) end else (dest, p).

(** An address of [getaddrinfo], the bytes of its [ai_addr], and whether
    [socket] succeeds. *)
Record addrinfo := mkAi { ai_family : family; ai_addr : list Z; ai_socket : bool }.

(** The first address with a socket; [target] gets [sizeof(struct sockaddr)]
    bytes of it, the rest of it is 0. *)
Fixpoint choose_target (l : list addrinfo) : option (family * list Z) :=
  match l with
  | [] => None
  | a :: l =>
      match ai_family a with
      | Unspec => choose_target l
      | f => if ai_socket a then Some (f, take 16 (ai_addr a) ++ replicate 112 0) else choose_target l
      end
  end.

(** IN6_IS_ADDR_V4MAPPED of [sin6_addr], which starts at byte 8. *)
Definition v4mapped (target : list Z) : bool :=
  bool_decide (take 12 (drop 8 target) = replicate 10 0 ++ [255; 255]).

(** The results of the calls of [setsockopt]: for IPv6 and for IPv4. *)
Record sockopts := mkSockopts { opts6 : bool; opts4 : bool }.

Definition set_overhead (k o : Z) (m : Z) : option Z :=
  let m := if m =? 0 then k else m in if m <=? o then None else Some m.

(** [overhead] and [mtu], or [None] if the program exits with 1. *)
Definition prepare (f : family) (target : list Z) (y : sockopts) (m : Z) : option (Z * Z) :=
  let v4 m := m ← set_overhead 65535 28 m; if opts4 y then Some (28, m) else None in
  match f with
  | Inet6 =>
      m ← set_overhead 128000 48 m;
      if opts6 y then (if v4mapped target then v4 m else Some (48, m)) else None
  | _ => v4 m
  end.

Definition no_history : trace := mkTrace (replicate 64 (mkHistory 0 (mkTv 0 0))) 0 0 (-1) (-1).

(** Everything before the loop: the exit code, or the configuration with the
    address and the first trace. *)
Definition start (argv0 : string) (opts : list opt) (operands : list string) (getaddrinfo : family -> string -> option (list addrinfo))
    (y : sockopts) (malloc : bool) : Z + config * list Z * trace :=
  match parse_options opts (mkSettings (name_family argv0) false false 0 MAX_HOPS_DEFAULT 0) with
  | inl code => inl code
  | inr s =>
      match operands with
      | [dest] =>
          let '(dest, port) := choose_port (s_port s) dest in
          match getaddrinfo (s_family s) dest with
          | None => inl 1
          | Some l =>
              match choose_target l with
              | None => inl 1
              | Some (f, target) =>
                  match prepare f target y (s_mtu s) with
                  | None => inl 1
                  | Some (o, m) => if malloc then inr (mkConfig o port (s_max_hops s) m, target, set_mtu m no_history) else inl 1
                  end
              end
          end
      | _ => inl (-1)
      end
  end.

Definition tracepath_main (fuel : nat) (argv0 : string) (opts : list opt) (operands : list string)
    (getaddrinfo : family -> string -> option (list addrinfo)) (y : sockopts) (malloc : bool)
    (w : network) (n : net w) : option (Z * list output) :=
  match start argv0 opts operands getaddrinfo y malloc with
  | inl code => Some (code, [])
  | inr (c, _, s) => '(code, x) ← run_trace w c fuel (mkWorld w s n []); Some (code, printed w x)
  end.
