(* ===== verification/TracepathTheorems.v ===== *)
(** * The properties of tracepath

    A path of routers as a network, the output that the code gives for it, and
    what that output says of the path; safety and termination for any
    network. *)

From Stdlib Require Import ZArith Lia Ascii String.
From stdpp Require Import base numbers option list.
From S2P Require Import Prelude Clockdiff Tracepath.

Local Open Scope list_scope.
Local Open Scope Z_scope.
Local Abbreviation length := List.length.

(** ** A path

    The nodes on the way, the target last: the largest packet on the link to the
    node, its address, whether its errors quote the packet, how many hops its
    answers take, with which time to live they start, and after how many
    microseconds they arrive. *)

Record node := mkNode {
  link_mtu : Z;
  addr : Z;
  quotes : bool;
  back : Z;
  initial : Z;
  delay : Z
}.

Inductive fate := Too_big (at_node : option node) (limit : Z) | Expired (at_node : node) | Arrived (at_node : node) | Lost.

(** What becomes of a packet of [size] bytes behind [prev]. *)
Fixpoint travel (prev : option node) (ttl : Z) (size : Z) (path : list node) : fate :=
  match path with
  | [] => Lost
  | h :: rest =>
      if link_mtu h <? size then Too_big prev (link_mtu h)
      else match rest with
           | [] => Arrived h
           | _ => if ttl <=? 1 then Expired h else travel (Some h) (ttl - 1) size rest
           end
  end.

Record path_state := mkPath { clock : Z; cur_ttl : Z; queue : list answer; pending : Z }.

Definition tv_at (t : Z) : timeval := mkTv (t / 1000000) (t mod 1000000).

Section Path.
Context (v6 : bool) (c : config) (path : list node).

Definition origin : Z := if v6 then SO_EE_ORIGIN_ICMP6 else SO_EE_ORIGIN_ICMP.
Definition hop_cmsg (v : Z) : cmsg := if v6 then Cm_hoplimit v else Cm_ttl v.

(** The error that a node sends, with the packet that caused it. *)
Definition report (h : node) (e : extended_err) (port len : Z) (hdr : probehdr) : answer :=
  Message (if quotes h then Z.min sizeof_probehdr len else 0) hdr port [Cm_err e; hop_cmsg (initial h - back h + 1)].

Definition exceeded (h : node) : extended_err := mkErr EHOSTUNREACH origin (if v6 then 3 else 11) 0 0 (addr h).
Definition unreachable (h : node) : extended_err := mkErr ECONNREFUSED origin (if v6 then 1 else 3) (if v6 then 4 else 3) 0 (addr h).
Definition too_big (h : node) (limit : Z) : extended_err := mkErr EMSGSIZE origin (if v6 then 2 else 3) (if v6 then 0 else 4) limit (addr h).
Definition local_too_big (limit : Z) : extended_err := mkErr EMSGSIZE SO_EE_ORIGIN_LOCAL 0 0 limit 0.

Definition path_send (port len : Z) (hdr : probehdr) (n : path_state) : bool * path_state :=
  let answered h e := (true, mkPath (clock n) (cur_ttl n) (queue n ++ [report h e port len hdr]) (delay h)) in
  match travel None (cur_ttl n) (len + overhead c) path with
  | Too_big None limit => (false, mkPath (clock n) (cur_ttl n) (queue n ++ [Message 0 hdr port [Cm_err (local_too_big limit)]]) 0)
  | Too_big (Some h) limit => answered h (too_big h limit)
  | Expired h => answered h (exceeded h)
  | Arrived h => answered h (unreachable h)
  | Lost => (true, n)
  end.

Definition path_net : network := mkNetwork path_state
  (fun n => (tv_at (clock n), n))
  (fun t n => (true, mkPath (clock n) t (queue n) (pending n)))
  path_send
  (fun n => match queue n with [] => (Again, n) | a :: q => (a, mkPath (clock n) (cur_ttl n) q (pending n)) end)
  (fun n => mkPath (clock n + pending n) (cur_ttl n) (queue n) 0)
  (fun n => (false, n)).

(** ** The output that a path gives *)

(** The hop is known from the packet if it is quoted, or else from the port,
    but the code never looks at the last of the 64 ports. *)
Definition hop_known (h : node) (m ptr : Z) : bool := (quotes h && (sizeof_probehdr <=? m - overhead c)) || negb (ptr =? 63).

Definition shown (h : node) (ttl m ptr : Z) (v : verdict) : output :=
  Line (Host ttl (hop_known h m ptr) (addr h)) (if hop_known h m ptr then Some (delay h, false) else None) v.

(** The line for a node at [ttl], for packets of [m] bytes. *)
Definition node_line (h : node) (last : bool) (ttl m ptr : Z) : output :=
  shown h ttl m ptr (if last then Reached else Hop (if back h =? ttl then None else Some (back h))).

Definition next_ptr (p : Z) : Z := (p + 1) mod 64.

(** The lines for the path from the node at [ttl] on, after [prev].  If our own
    link refuses the first packet, the first node is probed twice. *)
Fixpoint expected (prev : option node) (ttl m ptr : Z) (rest : list node) : list output :=
  match rest with
  | [] => []
  | h :: rest =>
      let last := match rest with [] => true | _ => false end in
      let '(drop, ptr) :=
        if link_mtu h <? m then
          match prev with
          | None => ([Line (Localhost ttl) (if ptr =? 63 then None else Some (0, false)) (Pmtu (link_mtu h));
                      node_line h last ttl (link_mtu h) ptr], next_ptr ptr)
          | Some r => ([shown r ttl m ptr (Pmtu (link_mtu h))], next_ptr ptr)
          end
        else ([], ptr) in
      let m := Z.min m (link_mtu h) in
      drop ++ [node_line h last ttl m ptr] ++ expected (Some h) (ttl + 1) m (next_ptr ptr) rest
  end.

(** The path MTU, as seen by packets of [m] bytes. *)
Definition path_mtu (m : Z) (p : list node) : Z := foldl (fun m h => Z.min m (link_mtu h)) m p.

End Path.

(** ** Histories *)

(** The next probe has place [p] in the history and [m] bytes. *)
Record trace_at (s : trace) (p m : Z) : Prop := {
  at_his : length (his s) = 64%nat;
  at_ptr : hisptr s = p;
  at_range : 0 <= p < 64;
  at_mtu : mtu s = m
}.

Lemma set_his_at s p m i h : trace_at s p m -> trace_at (set_his i h s) p m.
Proof. intros [H1 H2 H3 H4]. split; cbn; [by rewrite length_insert|done..]. Qed.

Lemma his_set s q p m h : trace_at s q m -> 0 <= p < 64 -> his (set_his (Z.to_nat p) h s) !! Z.to_nat p = Some h.
Proof. intros [H1 H2 H3 H4] Hp. cbn. apply list_lookup_insert_eq. lia. Qed.

Lemma next_ptr_land p : 0 <= p < 64 -> Z.land (p + 1) 63 = next_ptr p.
Proof. intros H. change 63 with (Z.ones 6). rewrite Z.land_ones by lia. done. Qed.

Lemma next_ptr_range p : 0 <= next_ptr p < 64.
Proof. unfold next_ptr. apply Z.mod_pos_bound. lia. Qed.

Lemma set_hisptr_at s p m : trace_at s p m -> trace_at (set_hisptr (Z.land (hisptr s + 1) 63) s) (next_ptr p) m.
Proof.
  intros [H1 H2 H3 H4]. split; cbn; try done; [by rewrite H2, next_ptr_land|apply next_ptr_range].
Qed.

Section Trace.
Context (v6 : bool) (c : config) (path : list node).

(** Ports above the first one fit into 16 bits. *)
Context (Hport : 0 <= base_port c <= 65472).

(** Our packet is found by its port, unless that is the last one. *)
Lemma take_history_current s q p m ttl tv : trace_at s q m -> 0 <= p < 64 -> ttl <> 0 ->
  let s1 := set_his (Z.to_nat p) (mkHistory ttl tv) s in
  take_history c (u16 (base_port c + p)) s1 =
    Some (if p =? 63 then (-1, None, s1) else (ttl, Some tv, set_his (Z.to_nat p) (mkHistory 0 tv) s1)).
Proof.
  intros Hs Hp Ht s1. unfold take_history.
  rewrite wrapu_id by (unfold in_u; lia). replace (- base_port c + (base_port c + p)) with p by lia.
  rewrite (proj2 (Z.leb_le 0 p)) by lia. cbn [andb]. destruct (Z.eqb_spec p 63) as [->|Hn]; [done|].
  rewrite (proj2 (Z.ltb_lt p 63)) by lia. unfold s1. rewrite (his_set s q p m) by done. cbn [mbind option_bind hops].
  by rewrite (proj2 (Z.eqb_neq ttl 0)).
Qed.

Record node_ok (h : node) : Prop := {
  ok_back : 1 <= back h <= 64;
  ok_initial : initial h = 64 \/ initial h = 128 \/ initial h = 255;
  ok_delay : 0 <= delay h < 2 ^ 31;
  ok_link : overhead c < link_mtu h < 2 ^ 31
}.

Lemma hops_back_node h : node_ok h -> scan_cmsgs [hop_cmsg v6 (initial h - back h + 1)] None (-1) = (None, initial h - back h + 1) /\
  hops_back (initial h - back h + 1) = back h.
Proof.
  intros [Hb Hi _ _]. split.
  - unfold hop_cmsg. destruct v6; cbn [scan_cmsgs]; [rewrite wraps_id by (unfold in_s; lia)|rewrite wrapu_id by (unfold in_u; lia)]; done.
  - unfold hops_back. destruct (Z.leb_spec (initial h - back h + 1) 64), (Z.leb_spec (initial h - back h + 1) 128); lia.
Qed.

(** Times in microseconds. *)
Lemma tv_diff t d : 0 <= d < 2 ^ 31 -> s32 ((tv_s (tv_at (t + d)) - tv_s (tv_at t)) * 1000000 + (tv_us (tv_at (t + d)) - tv_us (tv_at t))) = d.
Proof.
  intros Hd. cbn [tv_s tv_us tv_at].
  replace (_ * 1000000 + _) with d by (pose proof (Z.div_mod (t + d) 1000000 ltac:(lia)); pose proof (Z.div_mod t 1000000 ltac:(lia)); lia).
  apply wraps_id; [lia|]. unfold in_s. lia.
Qed.

(** The message of a node about the packet just sent: it is shown with the hop
    and the time, as far as they are known. *)
Lemma handle_report h e s q p m ttl t : node_ok h -> trace_at s q m -> 0 <= p < 64 -> 1 <= ttl <= 255 -> 1000000 <= t -> ee_origin e = origin v6 -> ee_offender e = addr h ->
  exists s', trace_at s' q m /\
  handle_error c ttl (tv_at (t + delay h)) (if quotes h then Z.min sizeof_probehdr (m - overhead c) else 0) (mkProbe (u32 ttl) (tv_at t))
    (u16 (base_port c + p)) [Cm_err e; hop_cmsg v6 (initial h - back h + 1)] (set_his (Z.to_nat p) (mkHistory ttl (tv_at t)) s) =
  let '(v, r, progress, s'') := judge e ttl (if hop_known c h m p then ttl else -1) (back h) s' in
  Some (shown c h ttl m p v, r, progress, s'').
Proof.
  intros Hh Hs Hp Ht Hc Ho Hf. unfold handle_error. rewrite (take_history_current s q p m) by (done || lia).
  set (s1 := set_his (Z.to_nat p) (mkHistory ttl (tv_at t)) s). set (s2 := set_his (Z.to_nat p) (mkHistory 0 (tv_at t)) s1).
  assert (Hsc : scan_cmsgs [Cm_err e; hop_cmsg v6 (initial h - back h + 1)] None (-1) = (Some e, initial h - back h + 1)).
  { pose proof (hops_back_node h Hh) as [Hn _]. revert Hn. unfold hop_cmsg. destruct v6; cbn [scan_cmsgs]; by intros [= ->]. }
  rewrite Hsc, (proj2 (hops_back_node h Hh)). 
  assert (Hsec : tv_s (tv_at t) <> 0) by (cbn; pose proof (Z.div_le_mono 1000000 t 1000000 ltac:(lia) Hc) as Hd; rewrite Z.div_same in Hd by lia; lia).
  assert (Hrd : forall sh rt, read_header (if quotes h then Z.min sizeof_probehdr (m - overhead c) else 0) (mkProbe (u32 ttl) (tv_at t)) sh rt =
    if quotes h && (sizeof_probehdr <=? m - overhead c) then (ttl, Some (tv_at t), false) else (sh, rt, false)).
  { intros sh rt. unfold read_header. cbn [h_ttl h_tv]. rewrite !wrapu_id by (unfold in_u; lia).
    rewrite (proj2 (Z.eqb_neq ttl 0)), (proj2 (Z.eqb_neq _ 0)), wraps_id by (done || lia || (unfold in_s; lia)). cbn [orb].
    unfold sizeof_probehdr. destruct (quotes h); cbn [andb]; [|done].
    destruct (Z.leb_spec 24 (m - overhead c)); [rewrite (proj2 (Z.eqb_eq _ _)) by lia|rewrite (proj2 (Z.eqb_neq _ _)) by lia]; done. }
  assert (Hw : forall sh, sh = ttl \/ sh = -1 -> who_of e ttl sh = Host ttl (negb (sh =? -1)) (addr h)).
  { intros sh Hsh. unfold who_of. rewrite Ho, Hf. unfold origin. destruct v6; cbn; destruct Hsh as [->| ->]; try done.
    all: rewrite (proj2 (Z.ltb_lt 0 ttl)), (proj2 (Z.eqb_neq ttl (-1))) by lia; done. }
  exists (if p =? 63 then s1 else s2). split; [destruct (p =? 63); [by apply set_his_at|by do 2 apply set_his_at]|].
  unfold shown, hop_known. destruct (p =? 63); cbn [mbind option_bind]; rewrite Hrd.
  all: destruct (quotes h && (sizeof_probehdr <=? m - overhead c)); cbn [orb negb]; rewrite Hw by auto; cbn [negb].
  all: destruct (judge _ _ _ _ _) as [[[v r] pr] s'']; unfold time_of; cbn [fmap option_fmap option_map]; rewrite ?tv_diff by apply Hh.
  all: rewrite ?(proj2 (Z.eqb_neq ttl (-1))) by lia; done.
Qed.


(** ** One probe *)

Context (Hover : 0 <= overhead c) (Hlen : 24 <= pktlen c < 2 ^ 31).

Definition W := path_net v6 c path.
Definition at_path (s : trace) (t ttl : Z) (q : list answer) (d : Z) (out : list output) : world W := mkWorld W s (mkPath t ttl q d) out.

Lemma recverr_one f ttl pr s t tl res hdr port l d out :
  recverr W c (S (S f)) ttl pr (at_path s t tl [Message res hdr port l] d out) =
    match handle_error c ttl (tv_at t) res hdr port l s with
    | None => None
    | Some (o, r, progress, s') => Some (default progress r, at_path s' t tl [] d (out ++ [o]))
    end.
Proof.
  cbn -[handle_error tv_at]. unfold bind, lift, try_handle, at_path. cbn -[handle_error tv_at].
  destruct (handle_error c ttl (tv_at t) res hdr port l s) as [[[[o [v|]] progress] s']|]; done.
Qed.

(** The packet of [m] bytes comes back from [h] with the error [e]. *)
Definition answers (ttl m : Z) (h : node) (e : extended_err) : Prop := forall port hdr t d,
  path_send v6 c path port (m - overhead c) hdr (mkPath t ttl [] d) = (true, mkPath t ttl [report v6 h e port (m - overhead c) hdr] (delay h)).

(** It is refused by our own link. *)
Definition refused (ttl m limit : Z) : Prop := forall port hdr t d,
  path_send v6 c path port (m - overhead c) hdr (mkPath t ttl [] d) = (false, mkPath t ttl [Message 0 hdr port [Cm_err (local_too_big limit)]] 0).

Lemma in_pktbuf_ok w n x : 0 <= n <= pktlen c -> in_pktbuf w c n x = Some (tt, x).
Proof. intros H. unfold in_pktbuf. rewrite (proj2 (Z.leb_le _ _)), (proj2 (Z.leb_le _ _)) by lia. done. Qed.

(** The loop up to [sendto]. *)
Lemma send_loop_step f ttl k s p m t d out : trace_at s p m -> overhead c < m <= pktlen c ->
  send_loop W c f ttl (S k) (at_path s t ttl [] d out) =
    let s1 := set_his (Z.to_nat p) (mkHistory ttl (tv_at t)) s in
    let '(b, n) := path_send v6 c path (u16 (base_port c + p)) (m - overhead c) (mkProbe (u32 ttl) (tv_at t)) (mkPath t ttl [] d) in
    let x := mkWorld W s1 n out in
    if b then Some (Sent, x)
    else bind (recverr W c f ttl (-1)) (fun res =>
           bind (on_trace W (fun s => match his s !! Z.to_nat p with
                                      | Some h => set_his (Z.to_nat p) (mkHistory 0 (sendtime h)) s
                                      | None => s end)) (fun _ =>
           if res =? 0 then ret Stop else if 0 <? res then ret Restart else send_loop W c f ttl k)) x.
Proof.
  intros Hs Hm. pose proof Hs as [H1 H2 H3 H4]. cbn [send_loop]. unfold bind at 1, gets at 1. cbn [at_path tr]. rewrite H2.
  unfold bind at 1, lift at 1. cbn [at_path tr nt printed W path_net gettimeofday clock].
  unfold bind at 1, gets at 1. cbn [tr]. destruct (lookup_lt_is_Some_2 (his s) (Z.to_nat p) ltac:(lia)) as [h0 E0]. rewrite E0.
  unfold bind at 1, on_trace at 1, modify at 1. cbn [tr nt printed].
  unfold bind at 1. rewrite in_pktbuf_ok by (unfold sizeof_probehdr; lia).
  unfold bind at 1, gets at 1. cbn [tr]. change (mtu (set_his _ _ s)) with (mtu s). rewrite H4.
  unfold bind at 1. rewrite (proj2 (Z.ltb_ge _ _)), in_pktbuf_ok by lia.
  unfold bind at 1, lift at 1. cbn [tr nt printed sendto path_net]. rewrite (wrapu_id 64) by (unfold in_u; lia).
  change (sendto W) with (path_send v6 c path). destruct (path_send _ _ _ _ _ _ _) as [[] n]; done.
Qed.

Lemma send_probe_remote f0 f ttl s p m t d out h e : trace_at s p m -> overhead c < m <= pktlen c -> answers ttl m h e ->
  send_probe W c f0 (S f) ttl (at_path s t ttl [] d out) =
    Some (Sent, at_path (set_his (Z.to_nat p) (mkHistory ttl (tv_at t)) s) t ttl
                  [report v6 h e (u16 (base_port c + p)) (m - overhead c) (mkProbe (u32 ttl) (tv_at t))] (delay h) out).
Proof.
  intros Hs Hm Ha. cbn [send_probe]. unfold bind. rewrite (send_loop_step f0 ttl 9 s p m) by done. cbn zeta. by rewrite Ha.
Qed.

Lemma handle_local s p m limit ttl t hdr : trace_at s p m -> 0 < limit < 2 ^ 31 -> 1 <= ttl <= 255 ->
  exists s', trace_at s' p limit /\
  handle_error c ttl (tv_at t) 0 hdr (u16 (base_port c + p)) [Cm_err (local_too_big limit)] (set_his (Z.to_nat p) (mkHistory ttl (tv_at t)) s) =
    Some (Line (Localhost ttl) (if p =? 63 then None else Some (0, false)) (Pmtu limit), None, limit, s').
Proof.
  intros Hs Hl Ht. unfold handle_error. rewrite (take_history_current s p p m) by (done || lia || apply Hs).
  assert (Hm : forall s', trace_at s' p m -> trace_at (set_mtu limit s') p limit) by (intros s' []; by split).
  destruct (p =? 63); cbn -[set_his tv_at s32]; unfold judge, who_of, time_of; cbn -[set_his tv_at s32 set_mtu]; rewrite (wraps_id 32 limit) by (unfold in_s; lia).
  - eexists. split; [|reflexivity]. by apply Hm, set_his_at.
  - pose proof (tv_diff t 0 ltac:(lia)) as Hd. rewrite Z.add_0_r in Hd. rewrite Hd. eexists. split; [|reflexivity]. by apply Hm; do 2 apply set_his_at.
Qed.

(** A packet that the first link refuses is sent again with its size. *)
Lemma send_probe_local f0 f ttl s p m limit t d out : trace_at s p m -> overhead c < m <= pktlen c -> 0 < limit < 2 ^ 31 -> 1 <= ttl <= 255 -> refused ttl m limit ->
  exists s', trace_at s' p limit /\
  send_probe W c (S (S f0)) (S f) ttl (at_path s t ttl [] d out) =
    send_probe W c (S (S f0)) f ttl (at_path s' t ttl [] 0 (out ++ [Line (Localhost ttl) (if p =? 63 then None else Some (0, false)) (Pmtu limit)])).
Proof.
  intros Hs Hm Hl Ht Hr. pose proof (at_range _ _ _ Hs) as Hp. cbn [send_probe]. unfold bind at 1. rewrite (send_loop_step _ ttl 9 s p m) by done. cbn zeta. rewrite Hr.
  set (s1 := set_his (Z.to_nat p) (mkHistory ttl (tv_at t)) s). assert (Hs1 : trace_at s1 p m) by by apply set_his_at.
  unfold bind at 1. change (mkWorld W s1 ?n out) with (at_path s1 t ttl [Message 0 (mkProbe (u32 ttl) (tv_at t)) (u16 (base_port c + p)) [Cm_err (local_too_big limit)]] 0 out).
  rewrite recverr_one. destruct (handle_local s p m limit ttl t (mkProbe (u32 ttl) (tv_at t))) as (s4 & Hs4 & E4); [done..|].
  fold s1 in E4. rewrite E4. cbn [default].
  unfold bind at 1, on_trace, modify, at_path. cbn [tr nt printed].
  destruct (lookup_lt_is_Some_2 (his s4) (Z.to_nat p)) as [h4 Eh]; [rewrite (at_his _ _ _ Hs4); lia|]. rewrite Eh.
  rewrite (proj2 (Z.eqb_neq limit 0)), (proj2 (Z.ltb_lt 0 limit)) by lia. cbn [ret].
  eexists. split; [by apply set_his_at|]. done.
Qed.

(** [probe_ttl] after a packet was sent. *)
Lemma probe_sent f ttl s p m t out h e (x : world W) :
  node_ok h -> trace_at s p m -> overhead c < m <= pktlen c -> 1 <= ttl <= 255 -> 1000000 <= t -> ee_origin e = origin v6 -> ee_offender e = addr h ->
  send_probe W c (S (S f)) (S (S f)) ttl x =
    Some (Sent, at_path (set_his (Z.to_nat p) (mkHistory ttl (tv_at t)) s) t ttl
                  [report v6 h e (u16 (base_port c + p)) (m - overhead c) (mkProbe (u32 ttl) (tv_at t))] (delay h) out) ->
  0 <= mtu (tr W x) <= pktlen c ->
  exists s', trace_at s' (next_ptr p) m /\
  probe_ttl W c (S (S f)) ttl x =
    let '(v, r, progress, s'') := judge e ttl (if hop_known c h m p then ttl else -1) (back h) s' in
    Some (default progress r, at_path s'' (t + delay h) ttl [] 0 (out ++ [shown c h ttl m p v])).
Proof.
  intros Hh Hs Hm Ht Hc Ho Hf Hsend Hmx. pose proof (at_range _ _ _ Hs) as Hp.
  set (s1 := set_hisptr (Z.land (hisptr s + 1) 63) s). assert (Hs1 : trace_at s1 (next_ptr p) m) by by apply set_hisptr_at.
  destruct (handle_report h e s1 (next_ptr p) p m ttl t) as (s' & Hs' & E); [done..|]. exists s'. split; [done|].
  unfold probe_ttl. unfold bind at 1, gets at 1. unfold bind at 1. rewrite in_pktbuf_ok by done. unfold bind at 1. rewrite Hsend.
  unfold bind at 1, on_trace at 1, modify at 1, at_path. cbn [tr nt printed].
  change (set_hisptr (Z.land (hisptr (set_his ?i ?y s) + 1) 63) (set_his ?i ?y s)) with (set_his i y s1).
  unfold bind at 1, lift at 1. cbn [tr nt printed].
  unfold bind at 1, gets at 1. cbn [tr]. change (mtu (set_his _ _ s1)) with (mtu s). rewrite (at_mtu _ _ _ Hs).
  unfold bind at 1. rewrite in_pktbuf_ok by lia. unfold bind at 1, lift at 1. cbn [tr nt printed W path_net recv data_wait clock cur_ttl queue pending].
  match goal with |- recverr _ _ _ _ _ ?y = _ => change y with (at_path (set_his (Z.to_nat p) (mkHistory ttl (tv_at t)) s1) (t + delay h) ttl [report v6 h e (u16 (base_port c + p)) (m - overhead c) (mkProbe (u32 ttl) (tv_at t))] 0 out) end.
  unfold report. rewrite recverr_one, E. destruct (judge _ _ _ _ _) as [[[v r] pr] s'']. done.
Qed.

(** ** One hop *)

Lemma travel_at h rest m : forall pre prev, Forall (fun r => m <= link_mtu r) pre ->
  travel prev (Z.of_nat (length pre) + 1) m (pre ++ h :: rest) =
    if link_mtu h <? m then Too_big (match last pre with Some r => Some r | None => prev end) (link_mtu h)
    else match rest with [] => Arrived h | _ => Expired h end.
Proof.
  induction pre as [|r pre IH]; intros prev Hp.
  - cbn. destruct (link_mtu h <? m); [done|]. by destruct rest.
  - apply Forall_cons in Hp as [Hr Hp]. cbn [app travel]. rewrite (proj2 (Z.ltb_ge _ _)) by lia.
    assert (Hne : exists y l, pre ++ h :: rest = y :: l) by (destruct pre; cbn; eauto). destruct Hne as (y & l & Ey). rewrite Ey.
    rewrite (proj2 (Z.leb_gt _ _)) by (cbn [length]; lia). rewrite <- Ey.
    replace (Z.of_nat (length (r :: pre)) + 1 - 1) with (Z.of_nat (length pre) + 1) by (cbn [length]; lia). rewrite IH by done.
    destruct (link_mtu h <? m); [|done]. f_equal. destruct pre as [|a pre]; [done|]. cbn [last]. destruct (last (a :: pre)) eqn:El; [done|]. by apply last_None in El.
Qed.

Section Hop.
Context (pre : list node) (h : node) (rest : list node) (Hpath : path = pre ++ h :: rest).
Context (Hall : Forall node_ok path).

Definition ttl_of : Z := Z.of_nat (length pre) + 1.
Definition is_last : bool := match rest with [] => true | _ => false end.

Context (Httl : ttl_of <= 255).

Lemma h_ok : node_ok h.
Proof. subst path. apply Forall_app in Hall as [_ H]. by apply Forall_cons in H as [H _]. Qed.

Definition node_err : extended_err := if is_last then unreachable v6 h else exceeded v6 h.

Lemma node_answers m : Forall (fun r => m <= link_mtu r) pre -> m <= link_mtu h -> answers ttl_of m h node_err.
Proof.
  intros Hp Hm port hdr t d. unfold path_send. cbn [cur_ttl queue]. rewrite Z.sub_add. rewrite Hpath. unfold ttl_of.
  rewrite travel_at by done. rewrite (proj2 (Z.ltb_ge _ _)) by lia. unfold node_err, is_last. by destruct rest.
Qed.

Lemma prev_answers m r : Forall (fun r => m <= link_mtu r) pre -> link_mtu h < m -> last pre = Some r ->
  answers ttl_of m r (too_big v6 r (link_mtu h)).
Proof.
  intros Hp Hm Hr port hdr t d. unfold path_send. cbn [cur_ttl queue]. rewrite Z.sub_add. rewrite Hpath. unfold ttl_of.
  rewrite travel_at by done. rewrite (proj2 (Z.ltb_lt _ _)) by lia. by rewrite Hr.
Qed.

Lemma first_refuses m : pre = [] -> link_mtu h < m -> refused ttl_of m (link_mtu h).
Proof.
  intros E Hm port hdr t d. unfold path_send. cbn [cur_ttl queue]. rewrite Z.sub_add, Hpath. unfold ttl_of.
  rewrite travel_at by (rewrite E; constructor). rewrite (proj2 (Z.ltb_lt _ _)) by lia. by rewrite E.
Qed.

Lemma asymm_known (k : bool) : asymm ttl_of (if k then ttl_of else -1) (back h) = if back h =? ttl_of then None else Some (back h).
Proof.
  pose proof (ok_back h h_ok) as Hb. unfold asymm. rewrite (proj2 (Z.leb_le 0 (back h))) by lia.
  assert (0 < ttl_of) by (unfold ttl_of; lia). destruct k.
  - rewrite (proj2 (Z.leb_le 0 ttl_of)), (proj2 (Z.ltb_ge ttl_of 0)) by lia. by destruct (back h =? ttl_of).
  - cbn. by destruct (back h =? ttl_of).
Qed.

(** What the answer of the node leaves. *)
Definition after_node (s : trace) : trace := if is_last then set_reached ttl_of (back h) s else s.

Lemma judge_node (k : bool) s : judge node_err ttl_of (if k then ttl_of else -1) (back h) s =
  (if is_last then Reached else Hop (if back h =? ttl_of then None else Some (back h)), if is_last then Some 0 else None, mtu s, after_node s).
Proof.
  unfold node_err, after_node, judge, is_exceeded. destruct is_last; cbn [ee_errno unreachable exceeded ee_origin ee_type ee_code].
  - cbn. do 2 f_equal. assert (0 < ttl_of) by (unfold ttl_of; lia). destruct k; [|done]. by rewrite (proj2 (Z.ltb_ge ttl_of 0)) by lia.
  - rewrite asymm_known. unfold origin. by destruct v6.
Qed.

Lemma node_err_facts : ee_origin node_err = origin v6 /\ ee_offender node_err = addr h.
Proof. unfold node_err. by destruct is_last. Qed.

Lemma ttl_range : 1 <= ttl_of <= 255.
Proof. split; [unfold ttl_of; lia|done]. Qed.

(** The node answers a probe that gets there. *)
Lemma probe_node f s p m t d out : trace_at s p m -> overhead c < m <= pktlen c -> 1000000 <= t ->
  Forall (fun r => m <= link_mtu r) pre -> m <= link_mtu h ->
  exists s', trace_at s' (next_ptr p) m /\
  probe_ttl W c (S (S f)) ttl_of (at_path s t ttl_of [] d out) =
    Some (if is_last then 0 else m, at_path (after_node s') (t + delay h) ttl_of [] 0 (out ++ [node_line c h is_last ttl_of m p])).
Proof.
  intros Hs Hm Ht Hp Hh. destruct node_err_facts as [Ho Hf].
  destruct (probe_sent f ttl_of s p m t out h node_err (at_path s t ttl_of [] d out)) as (s' & Hs' & E); try done; [apply h_ok|apply ttl_range| |cbn; rewrite (at_mtu _ _ _ Hs); lia|].
  { apply send_probe_remote; [done|done|]. by apply node_answers. }
  exists s'. split; [done|]. rewrite E, judge_node, (at_mtu _ _ _ Hs'). unfold node_line. by destruct is_last.
Qed.

(** One round of the loop of [main]. *)
Lemma try_hop_step f0 f x r x' : probe_ttl W c f0 ttl_of x = Some (r, x') -> 0 <= r ->
  try_hop W c f0 (S f) ttl_of x =
    if negb (mtu (tr W x') =? mtu (tr W x)) then try_hop W c f0 f ttl_of x'
    else if r =? 0 then Some (None, x') else Some (Some r, x').
Proof.
  intros Hp Hr. cbn [try_hop try_loop]. unfold bind, gets, ret. rewrite Hp.
  destruct (negb _); [done|]. destruct (Z.eqb_spec r 0); [done|]. by rewrite (proj2 (Z.ltb_lt _ _)) by lia.
Qed.

Lemma try_hop_passes f0 f s p m t d out : trace_at s p m -> overhead c < m <= pktlen c -> 1000000 <= t ->
  Forall (fun r => m <= link_mtu r) pre -> m <= link_mtu h ->
  exists s', trace_at s' (next_ptr p) m /\
  try_hop W c (S (S f0)) (S f) ttl_of (at_path s t ttl_of [] d out) =
    Some (if is_last then None else Some m, at_path (after_node s') (t + delay h) ttl_of [] 0 (out ++ [node_line c h is_last ttl_of m p])).
Proof.
  intros Hs Hm Ht Hp Hh. destruct (probe_node f0 s p m t d out Hs Hm Ht Hp Hh) as (s' & Hs' & E). exists s'. split; [done|].
  erewrite try_hop_step by (done || (destruct is_last; lia)). unfold at_path at 1 2. cbn [tr].
  assert (Em : mtu (after_node s') = m) by (unfold after_node; destruct is_last; apply Hs').
  rewrite Em, (at_mtu _ _ _ Hs), Z.eqb_refl. cbn [negb]. destruct is_last; [done|]. by rewrite (proj2 (Z.eqb_neq _ _)) by lia.
Qed.

(** The lines that a smaller link adds, and the place of the next probe. *)
Definition hop_drop (m ptr : Z) : list output * Z :=
  if link_mtu h <? m then
    match last pre with
    | None => ([Line (Localhost ttl_of) (if ptr =? 63 then None else Some (0, false)) (Pmtu (link_mtu h));
                node_line c h is_last ttl_of (link_mtu h) ptr], next_ptr ptr)
    | Some r => ([shown c r ttl_of m ptr (Pmtu (link_mtu h))], next_ptr ptr)
    end
  else ([], ptr).

Lemma after_node_at s p m : trace_at s p m -> trace_at (after_node s) p m.
Proof. intros H. unfold after_node. destruct is_last; [|done]. by destruct H. Qed.

Lemma smaller_pre m : Forall (fun r => m <= link_mtu r) pre -> link_mtu h < m -> Forall (fun r => link_mtu h <= link_mtu r) pre.
Proof. intros Hp Hm. eapply Forall_impl; [done|]. cbn. lia. Qed.

(** The first round if a link is too small: the packet size is that of the
    link then. *)
Lemma try_hop_drops f0 f s p m t d out : trace_at s p m -> overhead c < m <= pktlen c -> 1000000 <= t ->
  Forall (fun r => m <= link_mtu r) pre -> link_mtu h < m ->
  exists s' t', trace_at s' (next_ptr p) (link_mtu h) /\ 1000000 <= t' /\
  try_hop W c (S (S f0)) (S f) ttl_of (at_path s t ttl_of [] d out) =
    try_hop W c (S (S f0)) f ttl_of (at_path s' t' ttl_of [] 0 (out ++ (hop_drop m p).1)).
Proof.
  intros Hs Hm Ht Hp Hh. pose proof (ok_link h h_ok) as Hl. unfold hop_drop. rewrite (proj2 (Z.ltb_lt _ _)) by lia.
  destruct (last pre) as [r|] eqn:Er; cbn [fst].
  - assert (Hr : node_ok r). { subst path. apply Forall_app in Hall as [H _]. rewrite Forall_forall in H. apply H. by apply last_Some_elem_of. }
    destruct (probe_sent f0 ttl_of s p m t out r (too_big v6 r (link_mtu h)) (at_path s t ttl_of [] d out)) as (s' & Hs' & E); try done;
      [apply ttl_range|by apply send_probe_remote; [done|done|by apply prev_answers]|cbn; rewrite (at_mtu _ _ _ Hs); lia|].
    unfold judge in E. cbn [too_big ee_errno ee_info Z.eqb EMSGSIZE ETIMEDOUT Pos.eqb] in E. rewrite (wraps_id 32 (link_mtu h)) in E by (unfold in_s; lia).
    exists (set_mtu (link_mtu h) s'), (t + delay r). split; [by destruct Hs'; split|]. split; [destruct Hr; lia|].
    erewrite try_hop_step by (done || cbn; lia). unfold at_path at 1 2. cbn [tr mtu set_mtu]. rewrite (at_mtu _ _ _ Hs), (proj2 (Z.eqb_neq _ _)) by lia. done.
  - apply last_None in Er as Epre. pose proof (ttl_range) as Hrange.
    destruct (send_probe_local f0 (S f0) ttl_of s p m (link_mtu h) t d out) as (s1 & Hs1 & E1); try done; [lia|by apply first_refuses|].
    destruct node_err_facts as [Ho Hf]. pose proof (smaller_pre m Hp Hh) as Hp'.
    rewrite (send_probe_remote (S (S f0)) f0 ttl_of s1 p (link_mtu h) t 0 _ h node_err) in E1 by (done || lia || by apply node_answers).
    destruct (probe_sent f0 ttl_of s1 p (link_mtu h) t _ h node_err _ h_ok Hs1 ltac:(lia) Hrange Ht Ho Hf E1) as (s' & Hs' & E); [cbn; rewrite (at_mtu _ _ _ Hs); lia|].
    rewrite judge_node, (at_mtu _ _ _ Hs') in E. exists (after_node s'), (t + delay h).
    split; [by apply after_node_at|]. split; [pose proof (ok_delay h h_ok); lia|].
    erewrite try_hop_step by (exact E || (destruct is_last; cbn; lia)). unfold at_path at 1 2. cbn [tr].
    rewrite (at_mtu _ _ _ (after_node_at _ _ _ Hs')), (at_mtu _ _ _ Hs), (proj2 (Z.eqb_neq _ _)) by lia. cbn [negb].
    by rewrite <- (assoc_L (++)).
Qed.

Lemma try_hop_node f0 f s p m t d out : trace_at s p m -> overhead c < m <= pktlen c -> 1000000 <= t ->
  Forall (fun r => m <= link_mtu r) pre ->
  let m' := Z.min m (link_mtu h) in let p' := (hop_drop m p).2 in
  exists s' t', trace_at s' (next_ptr p') m' /\ 1000000 <= t' /\
  try_hop W c (S (S f0)) (S (S f)) ttl_of (at_path s t ttl_of [] d out) =
    Some (if is_last then None else Some m', at_path (after_node s') t' ttl_of [] 0 (out ++ (hop_drop m p).1 ++ [node_line c h is_last ttl_of m' p'])).
Proof.
  intros Hs Hm Ht Hp m' p'. pose proof (ok_link h h_ok) as Hl. pose proof (ok_delay h h_ok) as Hd. destruct (Z.lt_ge_cases (link_mtu h) m) as [Hlt|Hge].
  - destruct (try_hop_drops f0 (S f) s p m t d out Hs Hm Ht Hp Hlt) as (s1 & t1 & Hs1 & Ht1 & ->).
    assert (Ep : p' = next_ptr p) by (unfold p', hop_drop; rewrite (proj2 (Z.ltb_lt _ _)) by lia; by destruct (last pre)).
    assert (Em : m' = link_mtu h) by (unfold m'; lia). rewrite Ep, Em.
    destruct (try_hop_passes f0 f s1 (next_ptr p) (link_mtu h) t1 0 (out ++ (hop_drop m p).1) Hs1) as (s' & Hs' & ->); [lia|done|by eapply smaller_pre|lia|].
    exists s', (t1 + delay h). split; [done|]. split; [lia|]. by rewrite <- (assoc_L (++)).
  - assert (E : hop_drop m p = ([], p)) by (unfold hop_drop; by rewrite (proj2 (Z.ltb_ge _ _)) by lia). unfold p'. rewrite E. cbn [fst snd].
    assert (Em : m' = m) by (unfold m'; lia). rewrite Em.
    destruct (try_hop_passes f0 (S f) s p m t d out Hs Hm Ht Hp Hge) as (s' & Hs' & ->). exists s', (t + delay h). split; [done|]. split; [lia|done].
Qed.

End Hop.

(** ** The whole path *)

Lemma expected_cons prev ttl m p h rest (pre : list node) : prev = last pre -> ttl = ttl_of pre ->
  expected c prev ttl m p (h :: rest) =
    (hop_drop pre h rest m p).1 ++ [node_line c h (is_last rest) ttl (Z.min m (link_mtu h)) (hop_drop pre h rest m p).2]
    ++ expected c (Some h) (ttl + 1) (Z.min m (link_mtu h)) (next_ptr (hop_drop pre h rest m p).2) rest.
Proof. intros -> ->. cbn [expected]. unfold hop_drop, is_last. by repeat case_match. Qed.

Lemma hop_loop_step f k ttl s t tl d out :
  hop_loop W c f (S k) ttl (at_path s t tl [] d out) =
    bind (try_hop W c f f ttl) (fun r => match r with
      | None => ret None
      | Some res => bind (if res <? 0 then print W (No_reply ttl) else ret tt) (fun _ => hop_loop W c f k (ttl + 1))
      end) (at_path s t ttl [] d out).
Proof. done. Qed.

Lemma hop_loop_path f : Forall node_ok path -> Z.of_nat (length path) <= 255 -> forall rest pre k s p m t tl d out,
  path = pre ++ rest -> rest <> [] -> (length rest <= k)%nat -> trace_at s p m -> overhead c < m <= pktlen c -> 1000000 <= t ->
  Forall (fun r => m <= link_mtu r) pre ->
  exists s' t' tl', hop_loop W c (S (S f)) k (Z.of_nat (length pre) + 1) (at_path s t tl [] d out) =
      Some (None, at_path s' t' tl' [] 0 (out ++ expected c (last pre) (Z.of_nat (length pre) + 1) m p rest)) /\
    mtu s' = path_mtu m rest /\ hops_to s' = Z.of_nat (length path) /\ Some (hops_from s') = back <$> last path.
Proof.
  intros Hall Hmax. induction rest as [|h rest IH]; intros pre k s p m t tl d out Hpath Hne Hk Hs Hm Ht Hp; [done|].
  destruct k as [|k]; [cbn in Hk; lia|]. rewrite hop_loop_step.
  assert (Httl : ttl_of pre <= 255) by (unfold ttl_of; rewrite Hpath, length_app in Hmax; cbn in Hmax; lia).
  destruct (try_hop_node pre h rest Hpath Hall Httl f f s p m t d out Hs Hm Ht Hp) as (s1 & t1 & Hs1 & Ht1 & E).
  fold (ttl_of pre) in *. unfold bind at 1. rewrite E. clear E.
  rewrite (expected_cons _ _ m p h rest pre) by done. unfold is_last at 1, after_node. pose proof (ok_link h (h_ok pre h rest Hpath Hall)) as Hl.
  destruct rest as [|h2 rest].
  - cbn [is_last]. eexists _, _, _. split; [reflexivity|]. cbn [mtu set_reached hops_to hops_from]. split; [apply Hs1|]. split.
    + unfold ttl_of. rewrite Hpath, length_app. cbn. lia.
    + by rewrite Hpath, last_snoc.
  - cbn [is_last]. unfold bind at 1. rewrite (proj2 (Z.ltb_ge _ 0)) by lia. cbn [ret].
    assert (Ettl : ttl_of pre + 1 = Z.of_nat (length (pre ++ [h])) + 1) by (unfold ttl_of; rewrite length_app; cbn; lia). rewrite Ettl.
    destruct (IH (pre ++ [h]) k s1 (next_ptr (hop_drop pre h (h2 :: rest) m p).2) (Z.min m (link_mtu h)) t1 (ttl_of pre) 0
      (out ++ (hop_drop pre h (h2 :: rest) m p).1 ++ [node_line c h false (ttl_of pre) (Z.min m (link_mtu h)) (hop_drop pre h (h2 :: rest) m p).2]))
      as (s' & t' & tl' & E & H1 & H2 & H3); [by rewrite <- (assoc_L (++))|done|cbn in Hk |- *; lia|done|lia|done| |].
    { apply Forall_app. split; [eapply Forall_impl; [exact Hp|]; cbn; lia|]. constructor; [lia|constructor]. }
    exists s', t', tl'. unfold ret. rewrite E. split; [|by split]. rewrite last_snoc. by rewrite <- !(assoc_L (++)).
Qed.

End Trace.

Record path_config (c : config) (path : list node) : Prop := {
  ok_port : 0 <= base_port c <= 65472;
  ok_overhead : 0 <= overhead c < pktlen c;
  ok_pktlen : 24 <= pktlen c < 2 ^ 31;
  ok_nodes : Forall (node_ok c) path;
  ok_length : 1 <= Z.of_nat (length path) <= max_hops c;
  ok_hops : Z.of_nat (length path) <= 255
}.

(** The output, line by line. *)
Lemma path_output v6 c path f t ttl d : path_config c path -> 1000000 <= t ->
  exists x target, last path = Some target /\
    run_trace (path_net v6 c path) c (S (S f)) (mkWorld (path_net v6 c path) (set_mtu (pktlen c) no_history) (mkPath t ttl [] d) []) = Some (0, x) /\
    printed (path_net v6 c path) x =
      expected c None 1 (pktlen c) 0 path ++ [Resume (path_mtu (pktlen c) path) (Some (Z.of_nat (length path))) (Some (back target))].
Proof.
  intros [H1 H2 H3 H4 H5 H6] Ht.
  assert (Hs : trace_at (set_mtu (pktlen c) no_history) 0 (pktlen c)) by (split; cbn; done || lia).
  destruct (hop_loop_path v6 c path H1 (proj1 H2) H3 f H4 H6 path [] (Z.to_nat (max_hops c)) (set_mtu (pktlen c) no_history) 0 (pktlen c) t ttl d [] eq_refl) as (s' & t' & tl' & E & E1 & E2 & E3);
    try done; [intros ->; cbn in H5; lia|lia|lia|].
  destruct (last path) as [target|] eqn:El; [|apply last_None in El; subst path; cbn in H5; lia].
  cbn in E3. injection E3 as E3. rewrite Forall_forall in H4. pose proof (H4 target ltac:(by apply last_Some_elem_of)) as [Hb _ _ _].
  eexists _, target. split; [done|]. unfold run_trace. split; [erewrite bind_run by exact E; reflexivity|]. cbn. rewrite E1, E2, E3. unfold positive.
  rewrite !(proj2 (Z.leb_le _ _)) by lia. reflexivity.
Qed.

(** ** What the output says of the path *)

















Definition demo_nodes : list node :=
  [mkNode 1500 101 true 1 64 400; mkNode 1480 102 false 3 255 900; mkNode 1480 103 true 3 64 2000].
Definition demo_config : config := mkConfig 28 44444 30 65535.

Lemma demo_path : path_config demo_config demo_nodes.
Proof. split; cbn; try lia. repeat constructor; cbn; lia. Qed.


(** The lines of this path: the first hop comes twice. *)
Example demo_lines : exists x,
  run_trace (path_net false demo_config demo_nodes) demo_config 2
    (mkWorld (path_net false demo_config demo_nodes) (set_mtu 65535 no_history) (mkPath 5000000 1 [] 0) []) = Some (0, x) /\
  printed _ x =
    [Line (Localhost 1) (Some (0, false)) (Pmtu 1500); Line (Host 1 true 101) (Some (400, false)) (Hop None);
     Line (Host 1 true 101) (Some (400, false)) (Hop None); Line (Host 2 true 101) (Some (400, false)) (Pmtu 1480);
     Line (Host 2 true 102) (Some (900, false)) (Hop (Some 3)); Line (Host 3 true 103) (Some (2000, false)) Reached;
     Resume 1480 (Some 3) (Some 3)].
Proof.
  destruct (path_output false demo_config demo_nodes 0 5000000 1 0 demo_path ltac:(lia)) as (x & target & Hl & Hr & Hp).
  exists x. split; [done|]. rewrite Hp. injection Hl as <-. vm_compute. reflexivity.
Qed.

(** ** Any network *)

Section Any.
Context (w : network) (c : config) (left : net w -> nat).

(** At most [left n] answers other than EAGAIN are still to come out of the
    error queue. *)
Record finite_net : Prop := {
  fin_time : forall n, (left (gettimeofday w n).2 <= left n)%nat;
  fin_ttl : forall t n, (left (set_ttl w t n).2 <= left n)%nat;
  fin_send : forall p l h n, (left (sendto w p l h n).2 <= left n)%nat;
  fin_wait : forall n, (left (data_wait w n) <= left n)%nat;
  fin_recv : forall n, (left (recv w n).2 <= left n)%nat;
  fin_msg : forall n, match recvmsg w n with (Again, n') => (left n' <= left n)%nat | (_, n') => (left n' < left n)%nat end
}.

(** The sizes that errors report are not larger than the buffer. *)
Definition sizes_ok : Prop := forall n res hdr port l n' e, recvmsg w n = (Message res hdr port l, n') ->
  (scan_cmsgs l None (-1)).1 = Some e -> ee_errno e = EMSGSIZE -> 0 <= s32 (ee_info e) <= pktlen c.

Record trace_safe (s : trace) : Prop := {
  safe_his : length (his s) = 64%nat;
  safe_ptr : 0 <= hisptr s < 64;
  safe_mtu : 0 <= mtu s <= pktlen c
}.

Context (Hfin : finite_net) (Hsize : sizes_ok) (Hbuf : 24 <= pktlen c) (Hover : 0 <= overhead c).

Lemma set_his_safe i h s : trace_safe s -> trace_safe (set_his i h s).
Proof. intros [H1 H2 H3]. split; cbn; [by rewrite length_insert|done..]. Qed.

Lemma judge_safe e ttl sh rh s : trace_safe s -> (ee_errno e = EMSGSIZE -> 0 <= s32 (ee_info e) <= pktlen c) ->
  trace_safe (judge e ttl sh rh s).2.
Proof.
  intros Hs He. unfold judge. repeat (case_match; [|try done]); cbn; try done; destruct Hs; split; cbn; try done.
  apply He. by apply Z.eqb_eq.
Qed.

Lemma handle_error_safe ttl tv res hdr port l s n n' : trace_safe s -> recvmsg w n = (Message res hdr port l, n') ->
  exists o r p s', handle_error c ttl tv res hdr port l s = Some (o, r, p, s') /\ trace_safe s'.
Proof.
  intros Hs Hm. unfold handle_error.
  assert (Ht : exists sh rt s1, take_history c port s = Some (sh, rt, s1) /\ trace_safe s1).
  { unfold take_history. destruct ((0 <=? - base_port c + port) && (- base_port c + port <? 63)) eqn:E; [|by eauto].
    destruct (lookup_lt_is_Some_2 (his s) (Z.to_nat (- base_port c + port))) as [h Eh]; [rewrite (safe_his _ Hs); lia|]. rewrite Eh. cbn [mbind option_bind].
    destruct (hops h =? 0); [by eauto|]. eexists _, _, _. split; [done|]. by apply set_his_safe. }
  destruct Ht as (sh & rt & s1 & -> & Hs1). cbn [mbind option_bind]. destruct (read_header res hdr sh rt) as [[sh' rt'] br].
  destruct (scan_cmsgs l None (-1)) as [[e|] rh] eqn:El; [|by eauto 10].
  pose proof (judge_safe e ttl sh' (hops_back rh) s1 Hs1) as Hj. destruct (judge e ttl sh' (hops_back rh) s1) as [[[v r] pr] s2].
  eexists _, _, _, _. split; [done|]. apply Hj. apply (Hsize n res hdr port l n' e Hm). by rewrite El.
Qed.

(** A command returns, keeps the trace safe and makes no messages. *)
Definition returns {A} (m : cmd (world w) A) (x : world w) (Q : A -> world w -> Prop) : Prop :=
  exists a x', m x = Some (a, x') /\ trace_safe (tr w x') /\ (left (nt w x') <= left (nt w x))%nat /\ Q a x'.

(** The packet size changes only if a message was taken. *)
Definition keeps (x x' : world w) : Prop := (left (nt w x') < left (nt w x))%nat \/ mtu (tr w x') = mtu (tr w x).

Lemma returns_ret {A} (a : A) x (Q : A -> world w -> Prop) : trace_safe (tr w x) -> Q a x -> returns (ret a) x Q.
Proof. intros H1 H2. exists a, x. auto. Qed.

Lemma returns_bind {A B} (m : cmd (world w) A) (k : A -> cmd (world w) B) x Q R :
  returns m x R ->
  (forall a x', trace_safe (tr w x') -> (left (nt w x') <= left (nt w x))%nat -> R a x' ->
     returns (k a) x' (fun b x'' => (left (nt w x'') <= left (nt w x'))%nat -> Q b x'')) -> returns (bind m k) x Q.
Proof.
  intros (a & x1 & E1 & S1 & L1 & HR) Hk. destruct (Hk a x1 S1 L1 HR) as (b & x2 & E2 & S2 & L2 & HQ).
  exists b, x2. unfold bind. rewrite E1, E2. split_and!; try done; [lia|]. by apply HQ.
Qed.

Lemma returns_weaken {A} (m : cmd (world w) A) x (Q R : A -> world w -> Prop) : returns m x R ->
  (forall a x', trace_safe (tr w x') -> (left (nt w x') <= left (nt w x))%nat -> R a x' -> Q a x') -> returns m x Q.
Proof. intros (a & x' & H1 & H2 & H3 & H4) H. exists a, x'. auto 6. Qed.

Lemma returns_gets {A} (f : world w -> A) x : trace_safe (tr w x) -> returns (gets f) x (fun a x' => a = f x /\ x' = x).
Proof. intros H. exists (f x), x. auto 6. Qed.

Lemma returns_lift {A} (f : net w -> A * net w) x : trace_safe (tr w x) -> (left (f (nt w x)).2 <= left (nt w x))%nat ->
  returns (lift w f) x (fun a x' => a = (f (nt w x)).1 /\ tr w x' = tr w x /\ nt w x' = (f (nt w x)).2).
Proof. intros H1 H2. unfold returns, lift. destruct (f (nt w x)) as [a n]. exists a, (mkWorld w (tr w x) n (printed w x)). auto 10. Qed.

Lemma returns_print o x : trace_safe (tr w x) -> returns (print w o) x (fun _ x' => nt w x' = nt w x /\ tr w x' = tr w x).
Proof. intros H. eexists tt, _. split; [reflexivity|]. auto 6. Qed.

Lemma returns_on_trace f x : trace_safe (f (tr w x)) -> returns (on_trace w f) x (fun _ x' => tr w x' = f (tr w x) /\ nt w x' = nt w x).
Proof. intros H1. eexists tt, _. split; [reflexivity|]. auto 6. Qed.

Lemma returns_in_pktbuf n x : trace_safe (tr w x) -> 0 <= n <= pktlen c -> returns (in_pktbuf w c n) x (fun _ x' => x' = x).
Proof.
  intros H1 H2. unfold in_pktbuf. rewrite (proj2 (Z.leb_le _ _)), (proj2 (Z.leb_le _ _)) by lia. by apply returns_ret.
Qed.

(** [recverr] ends after the messages there are; without one it returns
    [progress]. *)
Lemma recverr_returns ttl : forall fuel pr x, trace_safe (tr w x) -> (left (nt w x) < fuel)%nat ->
  returns (recverr w c fuel ttl pr) x (fun r x' => (r = pr /\ mtu (tr w x') = mtu (tr w x)) \/ (left (nt w x') < left (nt w x))%nat).
Proof.
  induction fuel as [|fuel IH]; intros pr x Hs Hf; [lia|]. cbn [recverr].
  eapply returns_bind; [apply returns_lift; [done|apply Hfin]|]. intros tv x1 Hs1 L1 (_ & E1 & N1).
  pose proof (fin_msg Hfin (nt w x1)) as Hm. destruct (recvmsg w (nt w x1)) as [a n] eqn:Er.
  eapply returns_bind; [apply returns_lift; [done|rewrite Er; destruct a; cbn; lia]|]. rewrite Er. intros a' x2 Hs2 L2 (Ea & E2 & N2). cbn [fst snd] in *. subst a'.
  destruct a as [| |res hdr port l].
  - apply returns_ret; [done|]. intros _ _. left. by rewrite E2, E1.
  - rewrite <- N2 in Hm. eapply returns_weaken; [apply IH; [done|lia]|]. intros. right. lia.
  - rewrite <- N2 in Hm. destruct (handle_error_safe ttl tv res hdr port l (tr w x2) _ _ Hs2 Er) as (o & r & p & s' & Eh & Hs').
    eapply (returns_bind _ _ _ _ (fun a x' => a = (o, r, p) /\ nt w x' = nt w x2)).
    { exists (o, r, p), (mkWorld w s' (nt w x2) (printed w x2)). unfold try_handle. rewrite Eh. auto. }
    intros a x3 Hs3 L3 [-> N3]. destruct r as [v|].
    + eapply returns_bind; [by apply returns_print|]. intros _ x4 Hs4 L4 _. apply returns_ret; [done|]. intros. right. lia.
    + eapply returns_bind; [by apply returns_print|]. intros _ x4 Hs4 L4 [N4 _]. eapply returns_weaken; [apply IH; [done|rewrite N4, N3; lia]|]. intros. right. lia.
Qed.

Lemma send_loop_returns ttl fuel : forall k x, trace_safe (tr w x) -> (left (nt w x) < fuel)%nat ->
  returns (send_loop w c fuel ttl k) x (fun a x' => keeps x x' /\ (a = Restart -> (left (nt w x') < left (nt w x))%nat)).
Proof.
  induction k as [|k IH]; intros x Hs Hf; cbn [send_loop]; [apply returns_ret; [done|]; split; [by right|done]|].
  eapply returns_bind; [by apply returns_gets|]. intros i x0 _ _ [-> ->].
  eapply returns_bind; [apply returns_lift; [done|apply Hfin]|]. intros tv x1 Hs1 L1 (_ & E1 & N1).
  eapply returns_bind; [by apply returns_gets|]. intros h x0 _ _ [-> ->].
  destruct (lookup_lt_is_Some_2 (his (tr w x1)) (Z.to_nat (hisptr (tr w x)))) as [h Eh]; [rewrite (safe_his _ Hs1); pose proof (safe_ptr _ Hs); lia|]. rewrite Eh.
  eapply returns_bind; [by apply returns_on_trace, set_his_safe|]. intros _ x2 Hs2 L2 [E2 N2].
  eapply returns_bind; [apply returns_in_pktbuf; [done|unfold sizeof_probehdr; lia]|]. intros _ x0 _ _ ->.
  eapply returns_bind; [by apply returns_gets|]. intros m x0 _ _ [-> ->]. pose proof (safe_mtu _ Hs2) as Hm.
  eapply (returns_bind _ _ _ _ (fun _ x' => x' = x2)).
  { destruct (Z.ltb_spec (mtu (tr w x2)) (overhead c)); [by apply returns_ret|]. apply returns_in_pktbuf; [done|lia]. }
  intros _ x0 _ _ ->. eapply returns_bind; [apply returns_lift; [done|apply Hfin]|]. intros b x3 Hs3 L3 (_ & E3 & N3).
  assert (Em : mtu (tr w x3) = mtu (tr w x)) by (rewrite E3, E2; cbn; by rewrite E1).
  destruct b; [apply returns_ret; [done|]; intros; split; [by right|done]|].
  eapply returns_bind; [apply recverr_returns; [done|lia]|]. intros res x4 Hs4 L4 Hr.
  eapply returns_bind; [apply returns_on_trace; case_match; [by apply set_his_safe|done]|]. intros _ x5 Hs5 L5 [E5 N5].
  assert (Em5 : mtu (tr w x5) = mtu (tr w x4)) by (rewrite E5; by case_match).
  assert (Hk : keeps x x5) by (unfold keeps; rewrite N5, Em5; destruct Hr as [[_ Hr]|Hr]; [right; congruence|left; lia]).
  destruct (res =? 0); [apply returns_ret; [done|]; intros; split; [done|done]|].
  destruct (Z.ltb_spec 0 res).
  - apply returns_ret; [done|]. intros. split; [done|]. intros _. destruct Hr as [[-> _]|Hr]; [lia|]. rewrite N5. lia.
  - eapply returns_weaken; [apply IH; [done|lia]|]. intros a x6 Hs6 L6 [K6 R6] _ _ _ _ _ _ _ _ _. unfold keeps in *. split; [|intros E; specialize (R6 E); lia].
    destruct Hk as [Hk|Hk], K6 as [K6|K6]; [left; lia..|right; congruence].
Qed.

Lemma send_probe_returns ttl fuel0 : forall fuel x, trace_safe (tr w x) -> (left (nt w x) < fuel0)%nat -> (left (nt w x) < fuel)%nat ->
  returns (send_probe w c fuel0 fuel ttl) x (fun a x' => keeps x x' /\ a <> Restart).
Proof.
  induction fuel as [|fuel IH]; intros x Hs Hf0 Hf; [lia|]. cbn [send_probe].
  eapply returns_bind; [by apply send_loop_returns|]. intros a x1 Hs1 L1 [K1 R1].
  destruct a; try (by apply returns_ret). specialize (R1 eq_refl).
  eapply returns_weaken; [apply IH; [done|lia|lia]|]. intros a x2 _ L2 [_ Ha] _. split; [left; lia|done].
Qed.

Lemma set_hisptr_safe s : trace_safe s -> trace_safe (set_hisptr (Z.land (hisptr s + 1) 63) s).
Proof. intros [H1 H2 H3]. split; cbn; [done| |done]. rewrite next_ptr_land by done. apply next_ptr_range. Qed.

Lemma probe_ttl_returns ttl fuel x : trace_safe (tr w x) -> (left (nt w x) < fuel)%nat ->
  returns (probe_ttl w c fuel ttl) x (fun _ x' => keeps x x').
Proof.
  intros Hs Hf. unfold probe_ttl. eapply returns_bind; [by apply returns_gets|]. intros m x0 _ _ [-> ->].
  eapply returns_bind; [apply returns_in_pktbuf; [done|apply Hs]|]. intros _ x0 _ _ ->.
  eapply returns_bind; [by apply send_probe_returns|]. intros a x1 Hs1 L1 [K1 R1].
  destruct a; [| |by apply returns_ret|done].
  - eapply returns_bind; [by apply returns_on_trace, set_hisptr_safe|]. intros _ x2 Hs2 L2 [E2 N2].
    eapply returns_bind; [apply returns_lift; [done|apply Hfin]|]. intros _ x3 Hs3 L3 (_ & E3 & N3).
    eapply returns_bind; [by apply returns_gets|]. intros m x0 _ _ [-> ->].
    eapply returns_bind; [apply returns_in_pktbuf; [done|apply Hs3]|]. intros _ x0 _ _ ->.
    eapply returns_bind; [apply returns_lift; [done|apply Hfin]|]. intros b x4 Hs4 L4 (_ & E4 & N4).
    assert (Em : mtu (tr w x4) = mtu (tr w x1)) by (rewrite E4, E3, E2; done).
    assert (K4 : keeps x x4) by (unfold keeps in *; rewrite Em; destruct K1; [left; lia|by right]).
    destruct b.
    + eapply returns_bind; [by apply returns_print|]. intros _ x5 Hs5 L5 [N5 E5]. apply returns_ret; [done|]. intros. unfold keeps. by rewrite N5, E5.
    + eapply returns_weaken; [apply recverr_returns; [done|lia]|]. intros r x5 _ L5 Hr _ _ _ _ _ _ _ _. unfold keeps in *.
      destruct Hr as [[_ Hr]|Hr]; [|left; lia]. rewrite Hr. destruct K4; [left; lia|by right].
  - eapply returns_bind; [by apply returns_on_trace, set_hisptr_safe|]. intros _ x2 Hs2 L2 [E2 N2].
    eapply returns_bind; [by apply returns_print|]. intros _ x3 Hs3 L3 [N3 E3]. apply returns_ret; [done|]. intros. unfold keeps in *. rewrite N3, N2, E3, E2. done.
Qed.

Lemma try_loop_returns ttl fuel : forall k res x, trace_safe (tr w x) -> (left (nt w x) < fuel)%nat ->
  returns (try_loop w c fuel ttl k res) x (fun r x' => r = Some None -> (left (nt w x') < left (nt w x))%nat).
Proof.
  induction k as [|k IH]; intros res x Hs Hf; cbn [try_loop]; [by apply returns_ret|].
  eapply returns_bind; [by apply returns_gets|]. intros m x0 _ _ [-> ->].
  eapply returns_bind; [by apply probe_ttl_returns|]. intros r x1 Hs1 L1 K1.
  eapply returns_bind; [by apply returns_gets|]. intros m x0 _ _ [-> ->].
  destruct (Z.eqb_spec (mtu (tr w x1)) (mtu (tr w x))) as [E|E]; cbn [negb].
  - destruct (r =? 0); [by apply returns_ret|]. destruct (0 <? r); [by apply returns_ret|].
    eapply returns_weaken; [apply IH; [done|lia]|]. intros a x2 _ L2 H2 _ _ _ Ha. specialize (H2 Ha). lia.
  - apply returns_ret; [done|]. intros. destruct K1; [lia|done].
Qed.

Lemma try_hop_returns ttl fuel0 : forall fuel x, trace_safe (tr w x) -> (left (nt w x) < fuel0)%nat -> (left (nt w x) < fuel)%nat ->
  returns (try_hop w c fuel0 fuel ttl) x (fun _ _ => True).
Proof.
  induction fuel as [|fuel IH]; intros x Hs Hf0 Hf; [lia|]. cbn [try_hop].
  eapply returns_bind; [by apply try_loop_returns|]. intros [[r|]|] x1 Hs1 L1 R1; [by apply returns_ret| |by apply returns_ret].
  specialize (R1 eq_refl). eapply returns_weaken; [apply IH; [done|lia|lia]|]. done.
Qed.

Lemma hop_loop_returns fuel : forall k ttl x, trace_safe (tr w x) -> (left (nt w x) < fuel)%nat ->
  returns (hop_loop w c fuel k ttl) x (fun r _ => r = None \/ r = Some 1).
Proof.
  induction k as [|k IH]; intros ttl x Hs Hf; cbn [hop_loop].
  - eapply returns_bind; [by apply returns_gets|]. intros m x0 _ _ [-> ->].
    eapply returns_bind; [by apply returns_print|]. intros _ x1 Hs1 _ _. apply returns_ret; auto.
  - eapply returns_bind; [apply returns_lift; [done|apply Hfin]|]. intros b x1 Hs1 L1 _. destruct b; [|apply returns_ret; auto].
    eapply returns_bind; [apply try_hop_returns; [done|lia|lia]|]. intros [res|] x2 Hs2 L2 _; [|apply returns_ret; auto].
    eapply (returns_bind _ _ _ _ (fun _ _ => True)).
    { destruct (res <? 0); [|by apply returns_ret]. eapply returns_weaken; [by apply returns_print|done]. }
    intros _ x3 Hs3 L3 _. eapply returns_weaken; [apply IH; [done|lia]|]. auto.
Qed.

Lemma run_trace_returns fuel x : trace_safe (tr w x) -> (left (nt w x) < fuel)%nat ->
  returns (run_trace w c fuel) x (fun code x' => code = 1 \/
    (code = 0 /\ exists out s, printed w x' = out ++ [Resume (mtu s) (positive (hops_to s)) (positive (hops_from s))])).
Proof.
  intros Hs Hf. unfold run_trace. eapply returns_bind; [by apply hop_loop_returns|]. intros [code|] x1 Hs1 _ [E|E]; simplify_eq.
  - apply returns_ret; auto.
  - eexists 0, _. split; [reflexivity|]. cbn. split; [done|]. split; [done|]. intros _. right. eauto.
Qed.

End Any.

(** ** The start *)

Lemma start_config argv0 opts ws gai y malloc c target s : start argv0 opts ws gai y malloc = inr (c, target, s) ->
  s = set_mtu (pktlen c) no_history /\ 28 <= overhead c < pktlen c.
Proof.
  unfold start. destruct (parse_options _ _) as [code|st]; [done|]. destruct ws as [|dest [|]]; try done.
  destruct (choose_port _ _) as [d port]. destruct (gai _ d) as [l|]; [|done]. destruct (choose_target l) as [[f tg]|]; [|done].
  assert (Ho : forall k o m m', set_overhead k o m = Some m' -> o < m').
  { intros k o m m'. unfold set_overhead. destruct (Z.leb_spec (if m =? 0 then k else m) o); [done|]. by intros [= <-]. }
  assert (Hv : forall m o m', (m ← set_overhead 65535 28 m; if opts4 y then Some (28, m) else None) = Some (o, m') -> 28 <= o < m').
  { intros m o m'. destruct (set_overhead 65535 28 m) as [m1|] eqn:E; [|done]. cbn. destruct (opts4 y); [|done]. intros [= <- <-]. apply Ho in E. lia. }
  destruct (prepare f tg y (s_mtu st)) as [[o m]|] eqn:E; [|done]. destruct malloc; [|done]. intros [= <- <- <-]. cbn. split; [done|].
  unfold prepare in E. destruct f; [by eapply Hv..|]. destruct (set_overhead 128000 48 (s_mtu st)) as [m1|] eqn:E1; [|done]. cbn in E.
  destruct (opts6 y); [|done]. destruct (v4mapped tg); [by eapply Hv|]. injection E as <- <-. apply Ho in E1. lia.
Qed.

Lemma start_code argv0 opts ws gai y malloc code : start argv0 opts ws gai y malloc = inl code -> code = -1 \/ code = 1 \/ code = 2.
Proof.
  unfold start. destruct (parse_options _ _) as [code'|st] eqn:E.
  - intros [= <-]. revert E. generalize (mkSettings (name_family argv0) false false 0 MAX_HOPS_DEFAULT 0).
    induction opts as [|o opts IH]; intros st; cbn [parse_options]; [done|].
    destruct (parse_option o st) as [k|st'] eqn:Eo; [|apply IH]. intros [= <-]. revert Eo. unfold parse_option.
    destruct st as [[]], o; try done; try (intros [= <-]; auto); case_match; try done; intros [= <-]; auto.
  - repeat case_match; try done; intros [= <-]; auto.
Qed.

(** C28: Whatever the network answers, as long as it has a finite number of
    errors to report and none claims a packet size above that of the buffer,
    tracepath ends, without an access outside the history or the packet buffer,
    with the codes -1, 0, 1 or 2; after the code 0 the last line is the
    summary. *)
Theorem tracepath_safe fuel argv0 opts ws gai y malloc w n left : finite_net w left -> (left n < fuel)%nat ->
  (forall c target s, start argv0 opts ws gai y malloc = inr (c, target, s) -> sizes_ok w c) ->
  exists code out, tracepath_main fuel argv0 opts ws gai y malloc w n = Some (code, out) /\
    (code = -1 \/ code = 0 \/ code = 1 \/ code = 2) /\
    (code = 0 -> exists out' p h b, out = out' ++ [Resume p h b]).
Proof.
  intros Hfin Hf Hsz. unfold tracepath_main. destruct (start argv0 opts ws gai y malloc) as [code|[[c target] s]] eqn:E.
  - apply start_code in E. exists code, []. split; [done|]. split; [lia|lia].
  - destruct (start_config _ _ _ _ _ _ _ _ _ E) as [-> Hc]. specialize (Hsz _ _ _ eq_refl).
    assert (Hs : trace_safe c (set_mtu (pktlen c) no_history)) by (split; cbn; [done|lia|lia]).
    destruct (run_trace_returns w c left Hfin Hsz ltac:(lia) ltac:(lia) fuel (mkWorld w (set_mtu (pktlen c) no_history) n []) Hs Hf)
      as (code & x & -> & _ & _ & Hq). cbn [mbind option_bind]. exists code, (printed w x). split; [done|].
    destruct Hq as [->|(-> & out & s & Hp)]; [by split; [lia|]|]. split; [lia|]. intros _. rewrite Hp. eauto.
Qed.

(** A network with a list of packet sizes to report, whatever is sent. *)
Definition size_error (z : Z) : answer := Message 0 (mkProbe 0 (mkTv 0 0)) 0 [Cm_err (mkErr EMSGSIZE SO_EE_ORIGIN_LOCAL 0 0 (Z.max 100 (Z.min z 1400)) 0)].
Definition script_net : network := mkNetwork (list Z)
  (fun n => (mkTv 7 0, n)) (fun _ n => (true, n)) (fun _ _ _ n => (true, n))
  (fun n => match n with [] => (Again, []) | z :: n => (size_error z, n) end) (fun n => n) (fun n => (false, n)).

Definition demo_gai (_ : family) (_ : string) : option (list addrinfo) := Some [mkAi Inet (replicate 16 9) true].

Lemma script_finite : finite_net script_net List.length.
Proof. split; cbn; try lia. intros [|z n]; cbn; lia. Qed.

Lemma script_sizes c : 1400 <= pktlen c -> sizes_ok script_net c.
Proof.
  intros Hc n res hdr port l n' e. cbn. destruct n as [|z n]; [done|]. intros [= <- <- <- <- <-]. cbn [scan_cmsgs fst]. intros [= <-] _.
  cbn [ee_info]. rewrite wraps_id by (lia || (unfold in_s; lia)). lia.
Qed.

Definition demo_opts : list opt := [Opt_m "2"; Opt_l "1500"].
Definition demo_y : sockopts := mkSockopts true true.

Lemma demo_start c target s : start "tracepath" demo_opts ["host/33434"%string] demo_gai demo_y true = inr (c, target, s) -> 1400 <= pktlen c.
Proof.
  assert (E : (fun x => match x with inr (c, _, _) => Some (pktlen c) | inl _ => None end)
    (start "tracepath" demo_opts ["host/33434"%string] demo_gai demo_y true) = Some 1500) by (vm_compute; reflexivity).
  intros H. rewrite H in E. injection E as ->. lia.
Qed.

Lemma demo_code : fst <$> tracepath_main 3 "tracepath" demo_opts ["host/33434"%string] demo_gai demo_y true script_net [1400; 1300] = Some 0.
Proof. vm_compute. reflexivity. Qed.

Lemma tracepath_safe_witness : exists out,
  tracepath_main 3 "tracepath" demo_opts ["host/33434"%string] demo_gai demo_y true script_net [1400; 1300] = Some (0, out) /\
  exists out' p h b, out = out' ++ [Resume p h b].
Proof.
  destruct (tracepath_safe 3 "tracepath" demo_opts ["host/33434"%string] demo_gai demo_y true
    script_net [1400; 1300] List.length script_finite ltac:(cbn; lia) (fun c t s H => script_sizes c (demo_start c t s H))) as (code & out & H & _ & Hc).
  pose proof demo_code as Hd. rewrite H in Hd. injection Hd as ->. exists out. split; [exact H|]. by apply Hc.
Defined.

(** ** Weak points *)

(** Only the first 16 bytes of an address are copied: of an IPv6 address, which
    starts at byte 8, the second half is 0, and none is taken for a mapped
    IPv4 address. *)
Lemma target_truncated l tg : choose_target l = Some (Inet6, tg) -> (forall a, a ∈ l -> (16 <= length (ai_addr a))%nat) ->
  take 8 (drop 16 tg) = replicate 8 0 /\ v4mapped tg = false.
Proof.
  induction l as [|a l IH]; cbn [choose_target]; [done|]. intros H Hl.
  assert (Hrec : choose_target l = Some (Inet6, tg) -> take 8 (drop 16 tg) = replicate 8 0 /\ v4mapped tg = false) by (intros E; apply IH; [done|]; intros b Hb; apply Hl; by right).
  assert (Ha : (16 <= length (ai_addr a))%nat) by (apply Hl; by left).
  destruct (ai_family a); try (by apply Hrec); destruct (ai_socket a); try (by apply Hrec). injection H as <-.
  assert (L : length (take 16 (ai_addr a)) = 16%nat) by (rewrite length_take; lia). split.
  - by rewrite drop_app_le, drop_ge by lia.
  - unfold v4mapped. apply bool_decide_eq_false. intros E. apply (f_equal (drop 8)) in E.
    rewrite skipn_firstn_comm, drop_drop in E. change (8 + 8)%nat with 16%nat in E. rewrite drop_app_le, drop_ge in E by lia. done.
Qed.

(** An error that reports a size above that of the buffer makes the next probe
    clear more than the buffer. *)
Lemma pktbuf_overrun : exists (w : network) (n : net w),
  forall fuel, (2 <= fuel)%nat -> run_trace w (mkConfig 28 44444 30 1000) fuel (mkWorld w (set_mtu 1000 no_history) n []) = None.
Proof.
  exists (mkNetwork bool (fun n => (mkTv 7 0, n)) (fun _ n => (true, n)) (fun _ _ _ n => (true, n))
    (fun n => (if n : bool then Message 0 (mkProbe 0 (mkTv 0 0)) 0 [Cm_err (mkErr EMSGSIZE SO_EE_ORIGIN_LOCAL 0 0 1500 0)] else Again, false)) (fun n => n) (fun n => (false, n))), true.
  intros fuel Hf. destruct fuel as [|[|fuel]]; [lia|lia|]. vm_compute. reflexivity.
Qed.

(** A number of hops out of range is kept. *)
Lemma hops_out_of_range : parse_option (Opt_m "300") (mkSettings Inet false false 0 MAX_HOPS_DEFAULT 0) = inr (mkSettings Inet false false 0 300 0).
Proof. reflexivity. Qed.
